(* ===== verification/_CoqProject ===== *)
-Q . S2P
Prelude.v
Bitmap.v
Ring.v
Pmm.v
Frames.v
Heap.v
HeapInv.v
HeapFree.v
HeapOps.v
HeapRun.v
Paging.v
Dma.v
Tlb.v
Vma.v
Vmm.v
VmmDma.v
VmmClone.v
Fork.v
Pipe.v
Wire.v
Disk.v
FatName.v
Fat.v
FatInv.v
FatDir.v
FatFile.v
FatDirInv.v
FatFileInv.v
FatCases.v
Sched.v
SchedInv.v
SchedOps.v
SchedSleep.v
SchedRun.v
SchedTree.v
SchedExit.v
SchedReap.v
SchedSafe.v
SchedMain.v
SchedCases.v
Ethernet.v
Arp.v
Ipv4.v
Udp.v
Dns.v
Icmp.v
Dhcp.v
Tcp.v
TcpInv.v
TcpConn.v
