(* ===== verification/Prelude.v ===== *)
(** * uniOS: verification development

    uniOS is an x86-64 operating system in C++20: a kernel with its own memory
    management, drivers, file systems, network stack and scheduler, a C library and a
    window system. This development translates parts of the kernel into Rocq functions
    and proves what their callers rely on. Definitions keep the names of the source;
    paths below are relative to src/.

    ** The parts and how they are modelled

    Memory (src/mm):
    - Bitmap.v: the frame bitmap (bitmap.cpp): single-bit and range updates and the three
      word-at-a-time searches. State: [Bitmap].
    - Pmm.v: physical frames with reference counts (pmm.cpp): construction from the
      firmware's memory map, allocation, sharing, release. State: [Pmm].
    - Frames.v: what page tables and heap need of a frame allocator, as the type class
      [Frames] with laws [FramesLaws]; the instance for [Pmm] discharges the laws.
    - Heap.v, HeapInv.v, HeapFree.v, HeapOps.v, HeapRun.v: the kernel heap (heap.cpp) over
      any [Frames]: the model, the invariant and the lemmas on taking blocks, on giving
      them back, the contract of each routine, and sequences of calls. State: [Heap]:
      byte memory, the list heads [g_buckets], the page tracker [g_page_slots].
    - Paging.v: page tables in physical memory (vmm.cpp): splitting of huge pages,
      mapping, unmapping, translation, protection, over any [Frames]. State: [Phys].
    - Dma.v: the allocator of kernel virtual ranges (vmm.cpp). State: [Dma].
    - Vma.v: the areas of a process (vma.cpp), as a sorted list.
    - Vmm.v: the page-fault handler with copy on write, new address spaces, device and DMA
      mappings; VmmDma.v: the theorems on the mappings.
    - VmmClone.v, Fork.v: cloning and freeing address spaces, and what fork gets from it.
    - Tlb.v: TLB shootdown between cores, as a step function over all cores.

    Interprocess communication (src/fs/pipe.cpp): Ring.v has the lemmas on circular
    buffers, Pipe.v the pipes with their wait queues, as a step relation over processes.

    Storage (src/fs):
    - Disk.v: the block device as the type class [BlockDev] with laws [BlockDevLaws], the
      storage guard (storage_guard.cpp), partitions (partition.cpp) as an instance of the
      interface over any parent, and the scan of a disk for MBR and GPT partitions.
    - FatName.v, Fat.v, FatDir.v, FatFile.v: the FAT32 driver (fat32/fat32.cpp) over any
      [BlockDev]: names and their entries, the allocation table, directories, files. State:
      [FAT32Filesystem] and [World], which has the device and the results of [malloc].
    - FatInv.v, FatDirInv.v, FatFileInv.v: the theorems, from clusters and chains to
      directories and files; FatCases.v: inputs on which the driver goes wrong.

    Network (src/net), from the wire upwards: Wire.v (byte order and buffers), Ethernet.v
    (net.cpp, ethernet.cpp), Arp.v, Ipv4.v, Udp.v, Dns.v, Icmp.v, Dhcp.v, and TCP in Tcp.v
    (model), TcpInv.v (well-formedness) and TcpConn.v (two hosts on a link). UDP and TCP
    are written over the type class [IpLayer], which Ipv4.v implements.

    ** Conventions

    A w-bit word is a [Z] in range, with the wrap-around [u8], [u16], [u32], [u64] written
    wherever C++ wraps. A routine returns [res]: [Ok], [Panic] (the kernel panics) or
    [Fault] (an access outside an array, or out of fuel), so that a theorem that says [Ok]
    is one of memory safety and termination. Arrays are lists read and written by
    [arr_get] and [arr_set]. An operation that runs under a spinlock is one step; where
    the interleaving matters (pipes, TLB shootdown) there is a step relation.

    Code outside the repository or outside a model is an input: the outcomes of [malloc]
    for the areas, frames taken by a network card, packets that arrive at each poll, the
    clock. Where a theorem needs something of such an input it is a hypothesis, and a
    witness shows that a concrete input satisfies it.

    The three views of physical memory are separate: [Pmm] has the byte memory in which it
    zeroes frames, [Phys] the 64-bit words of the page tables, [Heap] the bytes of the
    direct map. Each model zeroes a new frame in its own view, as the allocator does.

    ** What is proved

    - Physical memory: every reachable state keeps the allocator's invariant, a frame is
      handed out to one owner, boot-time construction gives exactly the usable frames, and
      the searches of the bitmap agree with bit-by-bit specifications.
    - Heap: any sequence of calls behaves as a set of separate byte arrays, and when all
      are freed every frame is back where it was.
    - Address spaces: mapping, unmapping and the page-fault handler change the translation
      of the page asked for and of no other; spaces with separate tables are isolated;
      fork gives a copy with the same translations, write-protected in both, with every
      reference accounted for, and freeing the copy undoes it; DMA buffers are exclusive
      and return their frames and addresses; the areas of a process stay sorted and
      disjoint, and unmapping removes exactly the range.
    - TLB shootdown: when a call has returned no core holds an old translation, and a call
      that is alone returns. Two calls at once deadlock ([tlb_shootdown_deadlock]).
    - Pipes: what readers get is what writers put, in order, and no process sleeps on a
      pipe that could serve it.
    - Storage: a write to a partition changes no byte outside it, and scanning a disk is
      safe whatever it holds; writing a file of a FAT32 volume changes the bytes asked for
      and no other chain, extends the chain by free clusters only, and keeps the directory
      entry in step; a read gives back what was written; truncation frees the chain.
    - Network: the Internet checksum is that of RFC 1071 and detects a damaged word; UDP
      and TCP deliver what was sent between two hosts; no packet makes a receive routine
      touch memory out of bounds; the TCP handshake, retransmission and port choice; the
      DHCP exchange; ARP accepts only answers to its own requests; DNS closes its socket
      on every path.

    ** Fuel and bounds

    [loop] and [bloop] run a body until it ends or the fuel is spent, which is a [Fault].
    Every theorem that says [Ok] proves that the fuel is enough: the bitmap's scans have
    one step per bit or word; the walk over a free list of the heap has [REMOVE_FUEL] =
    2^60 steps, more than there are blocks of 32 bytes in the direct map; [malloc] calls
    itself at most once. A walk along a FAT32 chain has [CHAIN_FUEL] = 2^33 steps, more
    than there are cluster numbers, and the loops of a read or write [FILE_FUEL] = 2^64,
    more than there are bytes. Waiting for the network ends with the list of polls. Physical
    memory is assumed to end below [PHYS_LIMIT] = 2^46, where the direct map meets the
    device window.

    ** Not modelled

    Device drivers, interrupt and boot code, system-call entry and the display are register
    accesses and assembly. The scheduler appears as the wait queues of the pipes. The
    other file systems, the C library, input devices and the window system are not
    modelled. The FAT32 theorems are about a device that works and allocations that
    succeed; [free] is not part of that model. Of
    vmm.cpp the set-up of control registers and the protection of the kernel image
    (linker symbols) are left out, of heap.cpp the printing of statistics. *)

From stdpp Require Export base gmap list numbers strings.
#[export] Set Default Goal Selector "!".
Global Open Scope Z_scope.

(** [lia] also reasons about division and remainder. *)
Ltac Zify.zify_post_hook ::= Z.to_euclidean_division_equations.

(** ** Machine integers

    Unsigned words are integers in [0, 2^w); every C++ expression that can leave
    that range is written with the explicit wrap-around below. *)

Definition u8 (x : Z) : Z := x mod 2 ^ 8.
Definition u16 (x : Z) : Z := x mod 2 ^ 16.
Definition u32 (x : Z) : Z := x mod 2 ^ 32.
Definition u64 (x : Z) : Z := x mod 2 ^ 64.

(** Two's complement reinterpretation ([static_cast<int32_t>] and the like). *)
Definition i8 (x : Z) : Z := (x + 2 ^ 7) mod 2 ^ 8 - 2 ^ 7.
Definition i32 (x : Z) : Z := (x + 2 ^ 31) mod 2 ^ 32 - 2 ^ 31.
Definition i64 (x : Z) : Z := (x + 2 ^ 63) mod 2 ^ 64 - 2 ^ 63.

(** [static_cast<size_t>(-1)], the "not found" value of the searching routines. *)
Definition SIZE_MAX : Z := 2 ^ 64 - 1.

(** [flags & mask] as a condition. *)
Definition has (flags mask : Z) : bool := negb (Z.land flags mask =? 0).

(** ** Execution results

    A kernel routine finishes normally ([Ok]), stops the machine ([Panic]), or is
    stuck ([Fault]): it touched memory outside an object, or a loop did not finish
    within the fuel given to it.  A theorem that a routine returns [Ok] is
    therefore at once a memory-safety and a termination statement. *)

Inductive res (A : Type) : Type :=
  | Ok (a : A)
  | Panic (msg : string)
  | Fault.
Arguments Ok {A} _.
Arguments Panic {A} _.
Arguments Fault {A}.

#[export] Instance res_ret : MRet res := λ A a, Ok a.
#[export] Instance res_bind : MBind res := λ A B f m,
  match m with Ok a => f a | Panic s => Panic s | Fault => Fault end.
#[export] Instance res_fmap : FMap res := λ A B f m,
  match m with Ok a => Ok (f a) | Panic s => Panic s | Fault => Fault end.

(** ** Arrays in memory: reads and writes out of range are stuck *)

Definition arr_get {A} (l : list A) (i : Z) : res A :=
  if i <? 0 then Fault
  else match l !! Z.to_nat i with Some v => Ok v | None => Fault end.

Definition arr_set {A} (l : list A) (i : Z) (v : A) : res (list A) :=
  if (0 <=? i) && (i <? Z.of_nat (length l)) then Ok (<[Z.to_nat i := v]> l)
  else Fault.

(** Little-endian loads from a byte buffer. *)
Definition ld16 (buf : list Z) (i : Z) : res Z :=
  b0 ← arr_get buf i; b1 ← arr_get buf (i + 1); Ok (b0 + 2 ^ 8 * b1).

Definition ld32 (buf : list Z) (i : Z) : res Z :=
  h0 ← ld16 buf i; h1 ← ld16 buf (i + 2); Ok (h0 + 2 ^ 16 * h1).

Definition ld64 (buf : list Z) (i : Z) : res Z :=
  w0 ← ld32 buf i; w1 ← ld32 buf (i + 4); Ok (w0 + 2 ^ 32 * w1).

(** The bytes of a little-endian word. *)
Fixpoint le_bytes (n : nat) (x : Z) : list Z :=
  match n with
  | O => []
  | S n' => x mod 2 ^ 8 :: le_bytes n' (x / 2 ^ 8)
  end.

(** A buffer of bytes. *)
Definition bytes (l : list Z) : Prop := Forall (λ b, 0 <= b < 2 ^ 8) l.

(** ** Loops *)

(** [loop fuel body s] runs [body] until it returns ([inr]); [inl] continues. *)
Fixpoint loop {St R : Type} (fuel : nat) (body : St → res (St + R)) (s : St) : res R :=
  match fuel with
  | O => Fault
  | S n =>
      o ← body s;
      match o with
      | inl s' => loop n body s'
      | inr r => Ok r
      end
  end.

(** The same with the fuel in binary, for loops whose bound is too large to count down. *)
Fixpoint iterate {St R : Type} (fuel : positive) (body : St → res (St + R)) (s : St) : res (St + R) :=
  let twice p s :=
    o ← iterate p body s;
    match o with inl s' => iterate p body s' | inr r => Ok (inr r) end in
  match fuel with
  | xH => body s
  | xO p => twice p s
  | xI p => o ← body s; match o with inl s' => twice p s' | inr r => Ok (inr r) end
  end.

Definition bloop {St R : Type} (fuel : positive) (body : St → res (St + R)) (s : St) : res R :=
  o ← iterate fuel body s; match o with inl _ => Fault | inr r => Ok r end.

(** [for (k = i; k < i + n; k++) s = f(k, s);] *)
Fixpoint for_upto {St : Type} (n : nat) (i : Z) (f : Z → St → res St) (s : St) : res St :=
  match n with
  | O => Ok s
  | S n' => s' ← f i s; for_upto n' (i + 1) f s'
  end.

(** ** The kernel heap as its clients see it *)

(** Does the next [malloc] succeed, and the outcomes that are left. *)
Definition malloc_next (heap : list bool) : bool * list bool :=
  match heap with
  | [] => (false, [])
  | ok :: heap' => (ok, heap')
  end.

(** ** Lemmas on machine integers *)

Create HintDb kernel discriminated.

Lemma u8_small x : 0 <= x < 2 ^ 8 → u8 x = x.
Proof. apply Z.mod_small. Qed.
Lemma u16_small x : 0 <= x < 2 ^ 16 → u16 x = x.
Proof. apply Z.mod_small. Qed.
Lemma u32_small x : 0 <= x < 2 ^ 32 → u32 x = x.
Proof. apply Z.mod_small. Qed.
Lemma u64_small x : 0 <= x < 2 ^ 64 → u64 x = x.
Proof. apply Z.mod_small. Qed.

Lemma u8_range x : 0 <= u8 x < 2 ^ 8.
Proof. by apply Z.mod_pos_bound. Qed.
Lemma u16_range x : 0 <= u16 x < 2 ^ 16.
Proof. by apply Z.mod_pos_bound. Qed.
Lemma u32_range x : 0 <= u32 x < 2 ^ 32.
Proof. by apply Z.mod_pos_bound. Qed.
Lemma u64_range x : 0 <= u64 x < 2 ^ 64.
Proof. by apply Z.mod_pos_bound. Qed.

(** Clearing the low bits rounds down. *)
Lemma align_down x k : 0 <= x < 2 ^ 64 → 0 <= k < 64 → Z.land x (u64 (Z.lnot (2 ^ k - 1))) = x - x mod 2 ^ k.
Proof.
  intros Hx Hk. assert (E : Z.land x (u64 (Z.lnot (2 ^ k - 1))) = Z.ldiff x (Z.ones k)).
  { apply Z.bits_inj'. intros n Hn. rewrite Z.land_spec, Z.ldiff_spec. unfold u64. destruct (Z.testbit x n) eqn:Et; [|done]. simpl.
    assert (n < 64).
    { destruct (decide (n < 64)); [done|]. rewrite Z.bits_above_log2 in Et; [done|lia|]. destruct (decide (x = 0)) as [->|]; [by rewrite Z.bits_0 in Et|].
      apply Z.log2_lt_pow2; [lia|]. apply (Z.lt_le_trans _ (2 ^ 64)); [lia|]. apply Z.pow_le_mono_r; lia. }
    rewrite Z.mod_pow2_bits_low, Z.lnot_spec by lia. by rewrite Z.ones_equiv, <-Z.sub_1_r. }
  rewrite E, Z.ldiff_ones_r by lia. rewrite Z.shiftr_div_pow2, Z.shiftl_mul_pow2 by lia. pose proof (Z.div_mod x (2 ^ k) ltac:(lia)). lia.
Qed.

Lemma i32_small x : - 2 ^ 31 <= x < 2 ^ 31 → i32 x = x.
Proof. intros. unfold i32. rewrite Z.mod_small; lia. Qed.
Lemma i64_small x : - 2 ^ 63 <= x < 2 ^ 63 → i64 x = x.
Proof. intros. unfold i64. rewrite Z.mod_small; lia. Qed.

(** Case analysis on a decision that occurs in the goal. *)
Ltac dec_goal := match goal with |- context [decide ?P] => destruct (decide P) end.

(** One step of a routine whose next action has been rewritten to its result. *)
Ltac step := cbn [mbind res_bind fmap res_fmap mret res_ret].

(** The same for an action known to return, without unfolding the action. *)
Lemma bind_Ok {A B} (m : res A) (f : A → res B) x : m = Ok x → (m ≫= f) = f x.
Proof. by intros ->. Qed.

Ltac step_with H := rewrite (bind_Ok _ _ _ H); cbv beta.

(** Drops every wrap-around whose argument [lia] can bound. *)
Ltac wrap_small :=
  repeat match goal with
  | |- context [u64 ?x] => rewrite (u64_small x) by lia
  | |- context [u32 ?x] => rewrite (u32_small x) by lia
  | |- context [u16 ?x] => rewrite (u16_small x) by lia
  | |- context [u8 ?x] => rewrite (u8_small x) by lia
  end.

(** Masking an unsigned word with [~(2^k - 1)] rounds it down. *)
Lemma land_u64_lnot_ones x k :
  0 <= x < 2 ^ 64 → 0 <= k → Z.land x (u64 (Z.lnot (2 ^ k - 1))) = x / 2 ^ k * 2 ^ k.
Proof.
  intros Hx Hk. unfold u64.
  rewrite <-Z.land_ones by lia.
  rewrite (Z.land_comm (Z.lnot _)), Z.land_assoc, Z.land_ones, Z.mod_small by lia.
  replace (2 ^ k - 1) with (Z.ones k) by (rewrite Z.ones_equiv; lia).
  rewrite <-Z.ldiff_land, Z.ldiff_ones_r by lia.
  by rewrite Z.shiftl_mul_pow2, Z.shiftr_div_pow2 by lia.
Qed.

Lemma land_ones_mod x k : 0 <= k → Z.land x (2 ^ k - 1) = x mod 2 ^ k.
Proof.
  intros. replace (2 ^ k - 1) with (Z.ones k) by (rewrite Z.ones_equiv; lia).
  by apply Z.land_ones.
Qed.

Lemma shiftr_3 i : Z.shiftr i 3 = i / 8.
Proof. by rewrite Z.shiftr_div_pow2. Qed.
Lemma shiftr_6 i : Z.shiftr i 6 = i / 64.
Proof. by rewrite Z.shiftr_div_pow2. Qed.
Lemma shiftl_3 i : Z.shiftl i 3 = i * 8.
Proof. by rewrite Z.shiftl_mul_pow2. Qed.
Lemma shiftl_6 i : Z.shiftl i 6 = i * 64.
Proof. by rewrite Z.shiftl_mul_pow2. Qed.
Lemma land_7 i : Z.land i 7 = i mod 8.
Proof. apply (land_ones_mod i 3). lia. Qed.
Lemma land_63 i : Z.land i 63 = i mod 64.
Proof. apply (land_ones_mod i 6). lia. Qed.
Lemma land_not_63 x : 0 <= x < 2 ^ 64 → Z.land x (u64 (Z.lnot 63)) = x / 64 * 64.
Proof. intros. by apply (land_u64_lnot_ones x 6). Qed.
Lemma land_not_fff x : 0 <= x < 2 ^ 64 → Z.land x (u64 (Z.lnot 0xFFF)) = x / 4096 * 4096.
Proof. intros. by apply (land_u64_lnot_ones x 12). Qed.

(** Bits of one byte after setting or clearing bit [k]. *)
Lemma testbit_shiftl_1 k n : 0 <= k → Z.testbit (Z.shiftl 1 k) n = bool_decide (n = k).
Proof.
  intros Hk. rewrite Z.shiftl_mul_pow2, Z.mul_1_l by lia.
  destruct (decide (n = k)) as [->|Hne].
  - by rewrite bool_decide_true, Z.pow2_bits_true.
  - by rewrite bool_decide_false, Z.pow2_bits_false.
Qed.

Lemma testbit_set_byte b k n :
  0 <= k → Z.testbit (Z.lor b (Z.shiftl 1 k)) n = bool_decide (n = k) || Z.testbit b n.
Proof. intros. by rewrite Z.lor_spec, testbit_shiftl_1, orb_comm. Qed.

Lemma testbit_clear_byte b k n :
  0 <= k < 8 → 0 <= b < 2 ^ 8 →
  Z.testbit (Z.land b (u8 (Z.lnot (Z.shiftl 1 k)))) n = negb (bool_decide (n = k)) && Z.testbit b n.
Proof.
  intros Hk Hb. unfold u8.
  rewrite <-Z.land_ones, (Z.land_comm (Z.lnot _)), Z.land_assoc, Z.land_ones, Z.mod_small by lia.
  destruct (decide (0 <= n)).
  - by rewrite Z.land_spec, Z.lnot_spec, testbit_shiftl_1, andb_comm by lia.
  - by rewrite !Z.testbit_neg_r, andb_false_r by lia.
Qed.

Lemma lor_byte_range b c : 0 <= b < 2 ^ 8 → 0 <= c < 2 ^ 8 → 0 <= Z.lor b c < 2 ^ 8.
Proof.
  intros Hb Hc. split; [apply Z.lor_nonneg; lia|].
  destruct (decide (Z.lor b c = 0)) as [->|Hne]; [lia|].
  apply Z.log2_lt_pow2; [assert (0 <= Z.lor b c) by (apply Z.lor_nonneg; lia); lia|].
  rewrite Z.log2_lor by lia.
  apply Z.max_lub_lt.
  - destruct (decide (b = 0)) as [->|]; [done|]. apply Z.log2_lt_pow2; lia.
  - destruct (decide (c = 0)) as [->|]; [done|]. apply Z.log2_lt_pow2; lia.
Qed.

Lemma land_byte_range b c : 0 <= b < 2 ^ 8 → 0 <= Z.land b c < 2 ^ 8.
Proof.
  intros Hb. replace b with (Z.land b (Z.ones 8)) by (rewrite Z.land_ones, Z.mod_small; lia).
  rewrite <-Z.land_assoc, (Z.land_comm (Z.ones 8)), Z.land_assoc, Z.land_ones by lia.
  by apply Z.mod_pos_bound.
Qed.

Lemma shiftl_1_byte k : 0 <= k < 8 → 0 <= Z.shiftl 1 k < 2 ^ 8.
Proof.
  intros. rewrite Z.shiftl_mul_pow2, Z.mul_1_l by lia.
  split; [lia|]. apply Z.pow_lt_mono_r; lia.
Qed.

(** ** Lemmas on arrays *)

Lemma nth_bytes buf n : bytes buf → 0 <= nth n buf 0 < 2 ^ 8.
Proof.
  intros Hb. destruct (decide (n < length buf)%nat).
  - eapply Forall_nth in Hb; eauto.
  - rewrite nth_overflow; lia.
Qed.

Lemma lookup_nth_in {A} (l : list A) i d : (i < length l)%nat → l !! i = Some (nth i l d).
Proof. intros [x Hx]%lookup_lt_is_Some_2. by rewrite nth_lookup, Hx. Qed.

Lemma mod_eq_small a b N : 0 < N → 0 <= b - a < N → a mod N = b mod N → a = b.
Proof.
  intros HN Hr E. assert ((b - a) mod N = 0) as H0.
  { rewrite Zminus_mod, E, Z.sub_diag. apply Z.mod_0_l. lia. }
  rewrite Z.mod_small in H0 by done. lia.
Qed.

Lemma arr_get_Ok {A} (l : list A) i v :
  arr_get l i = Ok v ↔ 0 <= i ∧ l !! Z.to_nat i = Some v.
Proof.
  unfold arr_get. destruct (Z.ltb_spec i 0).
  - split; [done|lia].
  - destruct (l !! Z.to_nat i); naive_solver.
Qed.

Lemma arr_get_in {A} (l : list A) i d :
  0 <= i < Z.of_nat (length l) → arr_get l i = Ok (nth (Z.to_nat i) l d).
Proof.
  intros Hi. apply arr_get_Ok. split; [lia|].
  destruct (lookup_lt_is_Some_2 l (Z.to_nat i)) as [v Hv]; [lia|].
  by rewrite Hv, (nth_lookup_Some _ _ _ _ Hv).
Qed.

Lemma arr_get_is_Ok {A} (l : list A) i :
  0 <= i < Z.of_nat (length l) → ∃ v, arr_get l i = Ok v ∧ l !! Z.to_nat i = Some v.
Proof.
  intros Hi. destruct (lookup_lt_is_Some_2 l (Z.to_nat i)) as [v Hv]; [lia|].
  exists v. split; [|done]. apply arr_get_Ok. split; [lia|done].
Qed.

Lemma arr_set_in {A} (l : list A) i v :
  0 <= i < Z.of_nat (length l) → arr_set l i v = Ok (<[Z.to_nat i := v]> l).
Proof. intros. unfold arr_set. by destruct (Z.leb_spec 0 i), (Z.ltb_spec i (Z.of_nat (length l))); try lia. Qed.

Lemma arr_set_Ok {A} (l l' : list A) i v :
  arr_set l i v = Ok l' ↔ 0 <= i < Z.of_nat (length l) ∧ l' = <[Z.to_nat i := v]> l.
Proof.
  unfold arr_set. destruct (Z.leb_spec 0 i), (Z.ltb_spec i (Z.of_nat (length l))); simpl;
    split; intros; naive_solver lia.
Qed.

(** Distinct numbers below a bound. *)
Lemma NoDup_bound l n : NoDup l → (∀ x : Z, x ∈ l → 0 <= x < n) → Z.of_nat (length l) <= Z.max 0 n.
Proof.
  intros Hn Hl. assert (Hsub : l ⊆+ seqZ 0 n) by (apply NoDup_submseteq; [done|]; intros x Hx; apply elem_of_seqZ; specialize (Hl x Hx); lia).
  apply submseteq_length in Hsub. rewrite length_seqZ in Hsub. lia.
Qed.

(** ** Loop rules (total correctness) *)

Section loop_rules.
Context {St R : Type}.

Lemma loop_rule (Inv : St → Prop) (Post : R → Prop) (m : St → nat) (body : St → res (St + R)) :
  (∀ s, Inv s → ∃ o, body s = Ok o ∧
     match o with inl s' => Inv s' ∧ (m s' < m s)%nat | inr r => Post r end) →
  ∀ fuel s, Inv s → (m s < fuel)%nat → ∃ r, loop fuel body s = Ok r ∧ Post r.
Proof.
  intros Hbody fuel. induction fuel as [|n IH]; intros s HI Hm; [lia|].
  destruct (Hbody s HI) as ([s'|r] & Hb & Ho); simpl; rewrite Hb; simpl.
  - destruct Ho. apply IH; [done|lia].
  - by exists r.
Qed.

(** Partial correctness: whatever a loop returns satisfies the postcondition. *)
Lemma loop_partial (Inv : St → Prop) (Post : R → Prop) (body : St → res (St + R)) :
  (∀ s o, Inv s → body s = Ok o → match o with inl s' => Inv s' | inr r => Post r end) →
  ∀ fuel s r, Inv s → loop fuel body s = Ok r → Post r.
Proof.
  intros Hbody fuel. induction fuel as [|n IH]; intros s r HI; simpl; [done|].
  destruct (body s) as [[s'|r']| |] eqn:Hb; simpl; try done.
  - intros. eapply IH; [|done]. exact (Hbody _ _ HI Hb).
  - intros [= <-]. exact (Hbody _ _ HI Hb).
Qed.

Lemma iterate_rule (Inv : Z → St → Prop) (Post : R → Prop) (body : St → res (St + R)) :
  (∀ n s, Inv n s → ∃ o, body s = Ok o ∧ match o with inl s' => ∃ n', n' < n ∧ Inv n' s' | inr r => Post r end) →
  ∀ fuel n s, Inv n s → ∃ o, iterate fuel body s = Ok o ∧
    match o with inl s' => ∃ n', n' <= n - Zpos fuel ∧ Inv n' s' | inr r => Post r end.
Proof.
  intros Hbody fuel. induction fuel as [p IH|p IH|]; intros n s HI.
  - destruct (Hbody n s HI) as ([s1|r] & E & Ho); simpl; rewrite E; simpl; [|by exists (inr r)]. destruct Ho as (n1 & Hn1 & HI1).
    destruct (IH n1 s1 HI1) as ([s2|r] & E2 & Ho2); rewrite E2; simpl; [|by exists (inr r)]. destruct Ho2 as (n2 & Hn2 & HI2).
    destruct (IH n2 s2 HI2) as ([s3|r] & E3 & Ho3); rewrite E3; [|by exists (inr r)]. destruct Ho3 as (n3 & Hn3 & HI3).
    exists (inl s3). split; [done|]. exists n3. split; [lia|done].
  - simpl. destruct (IH n s HI) as ([s2|r] & E2 & Ho2); rewrite E2; simpl; [|by exists (inr r)]. destruct Ho2 as (n2 & Hn2 & HI2).
    destruct (IH n2 s2 HI2) as ([s3|r] & E3 & Ho3); rewrite E3; [|by exists (inr r)]. destruct Ho3 as (n3 & Hn3 & HI3).
    exists (inl s3). split; [done|]. exists n3. split; [lia|done].
  - simpl. destruct (Hbody n s HI) as ([s1|r] & E & Ho); rewrite E; [|by exists (inr r)]. destruct Ho as (n1 & Hn1 & HI1).
    exists (inl s1). split; [done|]. exists n1. split; [lia|done].
Qed.

Lemma bloop_rule (Inv : Z → St → Prop) (Post : R → Prop) (body : St → res (St + R)) :
  (∀ n s, Inv n s → 0 <= n) →
  (∀ n s, Inv n s → ∃ o, body s = Ok o ∧ match o with inl s' => ∃ n', n' < n ∧ Inv n' s' | inr r => Post r end) →
  ∀ fuel n s, Inv n s → n < Zpos fuel → ∃ r, bloop fuel body s = Ok r ∧ Post r.
Proof.
  intros Hpos Hbody fuel n s HI Hm. unfold bloop. destruct (iterate_rule Inv Post body Hbody fuel n s HI) as ([s'|r] & E & Ho); rewrite E; simpl.
  - destruct Ho as (n' & Hn' & HI'). specialize (Hpos n' s' HI'). lia.
  - by exists r.
Qed.

Lemma for_upto_rule (Inv : Z → St → Prop) (f : Z → St → res St) n i s :
  (∀ k s, i <= k < i + Z.of_nat n → Inv k s → ∃ s', f k s = Ok s' ∧ Inv (k + 1) s') →
  Inv i s → ∃ s', for_upto n i f s = Ok s' ∧ Inv (i + Z.of_nat n) s'.
Proof.
  revert i s. induction n as [|n IH]; intros i s Hf HI; simpl.
  - exists s. split; [done|]. by rewrite Z.add_0_r.
  - destruct (Hf i s) as (s1 & H1 & HI1); [lia|done|]. rewrite H1. simpl.
    destruct (IH (i + 1) s1) as (s2 & H2 & HI2); [|done|].
    { intros k s0 Hk. apply Hf. lia. }
    exists s2. split; [done|]. by replace (i + Z.of_nat (S n)) with (i + 1 + Z.of_nat n) by lia.
Qed.
End loop_rules.
