(* ===== verification/Bitmap.v ===== *)
(** The frame bitmap of the physical memory manager (src/mm/bitmap.cpp,
    include/kernel/mm/bitmap.h): its byte buffer, the single-bit and range
    updates, and the three word-at-a-time searches, with the proofs that the
    optimised routines compute what their bit-by-bit specifications say. *)

From S2P Require Import Prelude.

(** * Model *)

(** class Bitmap: [m_buffer] points to the bytes, [m_size] counts bits. *)
Record Bitmap := mkBitmap {
  m_buffer : list Z;
  m_size : Z;
  m_next_free_hint : Z
}.

(** [__builtin_memset(buf + off, v, n)]. *)
Definition mem_fill (buf : list Z) (off v n : Z) : res (list Z) :=
  if (0 <=? off) && (0 <=? n) && (off + n <=? Z.of_nat (length buf)) then
    Ok (take (Z.to_nat off) buf ++ replicate (Z.to_nat n) v ++ drop (Z.to_nat (off + n)) buf)
  else Fault.

Definition bitmap_init (buffer : list Z) (size_in_bits : Z) : res Bitmap :=
  let size_in_bytes := Z.shiftr (u64 (size_in_bits + 7)) 3 in
  buf ← mem_fill buffer 0 0 size_in_bytes;
  Ok (mkBitmap buf size_in_bits 0).

(** [operator[]]. *)
Definition bitmap_get (b : Bitmap) (index : Z) : res bool :=
  if m_size b <=? index then Ok false
  else
    v ← arr_get (m_buffer b) (Z.shiftr index 3);
    Ok (negb (Z.land v (Z.shiftl 1 (Z.land index 7)) =? 0)).

(** The read-modify-write of one bit, shared by [set] and [set_range]. *)
Definition write_bit (buf : list Z) (i : Z) (value : bool) : res (list Z) :=
  v ← arr_get buf (Z.shiftr i 3);
  arr_set buf (Z.shiftr i 3)
    (if value then Z.lor v (u8 (Z.shiftl 1 (Z.land i 7)))
     else Z.land v (u8 (Z.lnot (Z.shiftl 1 (Z.land i 7))))).

Definition bitmap_set (b : Bitmap) (index : Z) (value : bool) : res Bitmap :=
  if m_size b <=? index then Ok b
  else
    buf ← write_bit (m_buffer b) index value;
    Ok (mkBitmap buf (m_size b) (m_next_free_hint b)).

(** [while (i < end && guard(i)) { write bit i; i++; }] *)
Definition write_bits_while (fuel : nat) (guard : Z → bool) (end_ : Z) (value : bool)
    (buf : list Z) (i : Z) : res (list Z * Z) :=
  loop fuel (λ '(buf, i),
    if (i <? end_) && guard i then
      buf' ← write_bit buf i value; Ok (inl (buf', u64 (i + 1)))
    else Ok (inr (buf, i))) (buf, i).

Definition bitmap_set_range (b : Bitmap) (start count : Z) (value : bool) : res Bitmap :=
  if (m_size b <=? start) || (count =? 0) then Ok b
  else
    let end0 := u64 (start + count) in
    let end_ := if (end0 <? start) || (m_size b <? end0) then m_size b else end0 in
    let fuel := S (Z.to_nat (m_size b)) in
    '(buf1, i1) ← write_bits_while fuel (λ i, negb (Z.land i 7 =? 0)) end_ value (m_buffer b) start;
    let bytes_to_fill := Z.shiftr (u64 (end_ - i1)) 3 in
    '(buf2, i2) ←
      (if 0 <? bytes_to_fill then
         buf ← mem_fill buf1 (Z.shiftr i1 3) (if value then 0xFF else 0x00) bytes_to_fill;
         Ok (buf, u64 (i1 + Z.shiftl bytes_to_fill 3))
       else Ok (buf1, i1));
    '(buf3, _) ← write_bits_while fuel (λ _, true) end_ value buf2 i2;
    Ok (mkBitmap buf3 (m_size b) (m_next_free_hint b)).

Definition bitmap_get_hint (b : Bitmap) : Z := m_next_free_hint b.
Definition bitmap_update_hint (b : Bitmap) (index : Z) : Bitmap :=
  mkBitmap (m_buffer b) (m_size b) index.

(** [__builtin_ctzll] on a non-zero word. *)
Fixpoint ctz_from (n : nat) (k x : Z) : Z :=
  match n with
  | O => k
  | S n' => if Z.testbit x k then k else ctz_from n' (k + 1) x
  end.
Definition ctzll (x : Z) : Z := ctz_from 63 0 x.

(** [while (i < end && guard(i)) { if (!bit(i)) return i; i++; }]: [inl] is the
    value of [i] on leaving the loop, [inr] the index returned. *)
Definition scan_bits (fuel : nat) (guard : Z → bool) (b : Bitmap) (end_ i : Z) : res (Z + Z) :=
  loop fuel (λ i,
    if (i <? end_) && guard i then
      v ← bitmap_get b i;
      Ok (if negb v then inr (inr i) else inl (u64 (i + 1)))
    else Ok (inr (inl i))) i.

(** [while (i < qword_end) { ... i += 64; }] over whole 64-bit words. *)
Definition scan_qwords (fuel : nat) (b : Bitmap) (qword_end i : Z) : res (Z + Z) :=
  loop fuel (λ i,
    if i <? qword_end then
      qw ← ld64 (m_buffer b) (8 * Z.shiftr i 6);
      Ok (if negb (qw =? u64 (Z.lnot 0)) then inr (inr (u64 (i + ctzll (u64 (Z.lnot qw)))))
          else inl (u64 (i + 64)))
    else Ok (inr (inl i))) i.

Definition scan_range (b : Bitmap) (begin end_ : Z) : res Z :=
  if end_ <=? begin then Ok SIZE_MAX
  else
    let fuel := S (Z.to_nat (m_size b)) in
    r1 ← scan_bits fuel (λ i, negb (Z.land i 63 =? 0)) b end_ begin;
    match r1 with
    | inr i => Ok i
    | inl i1 =>
        let qword_end := Z.land end_ (u64 (Z.lnot 63)) in
        r2 ← scan_qwords fuel b qword_end i1;
        match r2 with
        | inr i => Ok i
        | inl i2 =>
            r3 ← scan_bits fuel (λ _, true) b end_ i2;
            match r3 with
            | inr i => Ok i
            | inl _ => Ok SIZE_MAX
            end
        end
    end.

Definition find_first_free (b : Bitmap) (start_index : Z) : res (Z * Bitmap) :=
  if m_size b =? 0 then Ok (SIZE_MAX, b)
  else
    let search_start0 := if start_index =? 0 then m_next_free_hint b else start_index in
    let search_start := if m_size b <=? search_start0 then 0 else search_start0 in
    index0 ← scan_range b search_start (m_size b);
    index ← (if (index0 =? SIZE_MAX) && negb (search_start =? 0)
             then scan_range b 0 search_start else Ok index0);
    Ok (index,
        if negb (index =? SIZE_MAX)
        then bitmap_update_hint b (if u64 (index + 1) <? m_size b then u64 (index + 1) else 0)
        else b).

(** One bit of the run-length searches: [inr] is the index returned, [inl] the
    updated [(current_run, run_start)]. *)
Definition run_step (count i : Z) (used : bool) (current_run run_start : Z) : (Z * Z) + Z :=
  if negb used then
    let run_start := if current_run =? 0 then i else run_start in
    let current_run := u64 (current_run + 1) in
    if current_run =? count then inr run_start else inl (current_run, run_start)
  else inl (0, run_start).

Definition seq_bits (fuel : nat) (b : Bitmap) (count end_ : Z) (st : Z * Z * Z)
    : res ((Z * Z * Z) + Z) :=
  loop fuel (λ '(i, run, start),
    if i <? end_ then
      v ← bitmap_get b i;
      match run_step count i v run start with
      | inr r => Ok (inr (inr r))
      | inl (run', start') => Ok (inl (u64 (i + 1), run', start'))
      end
    else Ok (inr (inl (i, run, start)))) st.

(** [for (int bit = 0; bit < 64; bit++)] over one mixed word. *)
Fixpoint seq_mixed (n : nat) (bit : Z) (count i qw run start : Z) : (Z * Z) + Z :=
  match n with
  | O => inl (run, start)
  | S n' =>
      match run_step count (u64 (i + bit)) (negb (Z.land qw (Z.shiftl 1 bit) =? 0)) run start with
      | inr r => inr r
      | inl (run', start') => seq_mixed n' (bit + 1) count i qw run' start'
      end
  end.

Definition seq_qwords (fuel : nat) (b : Bitmap) (count qword_end : Z) (st : Z * Z * Z)
    : res ((Z * Z * Z) + Z) :=
  loop fuel (λ '(i, run, start),
    if i <? qword_end then
      qw ← ld64 (m_buffer b) (8 * Z.shiftr i 6);
      if qw =? 0 then
        let start := if run =? 0 then i else start in
        let run := u64 (run + 64) in
        if count <=? run then Ok (inr (inr start))
        else Ok (inl (u64 (i + 64), run, start))
      else if qw =? u64 (Z.lnot 0) then Ok (inl (u64 (i + 64), 0, start))
      else
        match seq_mixed 64 0 count i qw run start with
        | inr r => Ok (inr (inr r))
        | inl (run', start') => Ok (inl (u64 (i + 64), run', start'))
        end
    else Ok (inr (inl (i, run, start)))) st.

Definition find_first_free_sequence (b : Bitmap) (count start_index : Z) : res Z :=
  if (count =? 0) || (m_size b <? count) then Ok SIZE_MAX
  else
    let start_index := if m_size b <=? start_index then 0 else start_index in
    let fuel := S (Z.to_nat (m_size b)) in
    let qword_start0 := Z.land (u64 (start_index + 63)) (u64 (Z.lnot 63)) in
    let qword_start := if m_size b <? qword_start0 then m_size b else qword_start0 in
    r1 ← seq_bits fuel b count qword_start (start_index, 0, SIZE_MAX);
    match r1 with
    | inr r => Ok r
    | inl st1 =>
        let qword_end := Z.land (m_size b) (u64 (Z.lnot 63)) in
        r2 ← seq_qwords fuel b count qword_end st1;
        match r2 with
        | inr r => Ok r
        | inl st2 =>
            r3 ← seq_bits fuel b count (m_size b) st2;
            match r3 with
            | inr r => Ok r
            | inl _ => Ok SIZE_MAX
            end
        end
    end.

(** [while (i > qword_end) { i--; ... }] of the downward search. *)
Definition last_bits (fuel : nat) (b : Bitmap) (count qword_end : Z) (st : Z * Z)
    : res ((Z * Z) + Z) :=
  loop fuel (λ '(i, run),
    if qword_end <? i then
      let i := u64 (i - 1) in
      v ← bitmap_get b i;
      if negb v then
        let run := u64 (run + 1) in
        if run =? count then Ok (inr (inr i)) else Ok (inl (i, run))
      else Ok (inl (i, 0))
    else Ok (inr (inl (i, run)))) st.

(** [for (int bit = 63; bit >= 0; bit--)] over one mixed word. *)
Fixpoint last_mixed (n : nat) (count q_idx qw run : Z) : Z + Z :=
  match n with
  | O => inl run
  | S n' =>
      let bit := Z.of_nat n' in
      if Z.land qw (Z.shiftl 1 bit) =? 0 then
        let run := u64 (run + 1) in
        if run =? count then inr (u64 (Z.shiftl q_idx 6 + bit))
        else last_mixed n' count q_idx qw run
      else last_mixed n' count q_idx qw 0
  end.

Definition last_qwords (fuel : nat) (b : Bitmap) (count : Z) (st : Z * Z) : res (unit + Z) :=
  loop fuel (λ '(q_idx, run),
    if 0 <? q_idx then
      let q_idx := u64 (q_idx - 1) in
      qw ← ld64 (m_buffer b) (8 * q_idx);
      if qw =? 0 then
        let run := u64 (run + 64) in
        if count <=? run then Ok (inr (inr (u64 (Z.shiftl q_idx 6 + (run - count)))))
        else Ok (inl (q_idx, run))
      else if qw =? u64 (Z.lnot 0) then Ok (inl (q_idx, 0))
      else
        match last_mixed 64 count q_idx qw run with
        | inr r => Ok (inr (inr r))
        | inl run' => Ok (inl (q_idx, run'))
        end
    else Ok (inr (inl tt))) st.

Definition find_last_free_sequence (b : Bitmap) (count : Z) : res Z :=
  if (count =? 0) || (m_size b <? count) then Ok SIZE_MAX
  else
    let fuel := S (Z.to_nat (m_size b)) in
    let qword_end := Z.land (m_size b) (u64 (Z.lnot 63)) in
    r1 ← last_bits fuel b count qword_end (m_size b, 0);
    match r1 with
    | inr r => Ok r
    | inl (i, run) =>
        if 0 <? i then
          r2 ← last_qwords fuel b count (Z.shiftr i 6, run);
          match r2 with
          | inr r => Ok r
          | inl _ => Ok SIZE_MAX
          end
        else Ok SIZE_MAX
    end.

(** * Specification *)

(** Bit [i] of a buffer, and of a bitmap: set means "frame in use". *)
Definition buf_bit (buf : list Z) (i : Z) : bool :=
  Z.testbit (nth (Z.to_nat (i / 8)) buf 0) (i mod 8).
Definition bit (b : Bitmap) (i : Z) : bool := buf_bit (m_buffer b) i.

(** The buffer holds at least [m_size] bits, and is a buffer of bytes. *)
Record bitmap_wf (b : Bitmap) : Prop := {
  wf_size : 0 <= m_size b < 2 ^ 63;
  wf_hint : 0 <= m_next_free_hint b < 2 ^ 64;
  wf_bytes : bytes (m_buffer b);
  wf_len : (m_size b + 7) / 8 <= Z.of_nat (length (m_buffer b))
}.

(** [count] consecutive clear bits starting at [s]. *)
Definition fits (b : Bitmap) (count s : Z) : Prop :=
  0 <= s ∧ s + count <= m_size b ∧ ∀ j, s <= j < s + count → bit b j = false.

(** * Lemmas *)

Lemma testbit_split a c n k :
  0 <= n → 0 <= a < 2 ^ n → 0 <= k →
  Z.testbit (a + 2 ^ n * c) k = if k <? n then Z.testbit a k else Z.testbit c (k - n).
Proof.
  intros Hn Ha Hk. destruct (Z.ltb_spec k n).
  - rewrite <-(Z.mod_pow2_bits_low (a + 2 ^ n * c) n k) by lia.
    by rewrite Z.mul_comm, Z.mod_add, Z.mod_small by lia.
  - replace k with (k - n + n) at 1 by lia.
    rewrite <-Z.div_pow2_bits, Z.mul_comm, Z.div_add, Z.div_small by lia. done.
Qed.

Lemma ld16_in buf i :
  0 <= i → i + 2 <= Z.of_nat (length buf) →
  ld16 buf i = Ok (nth (Z.to_nat i) buf 0 + 2 ^ 8 * nth (Z.to_nat (i + 1)) buf 0).
Proof. intros. unfold ld16. by rewrite !(arr_get_in _ _ 0) by lia. Qed.

(** The 64-bit little-endian load at byte [8 * q] holds bits [64 q .. 64 q + 63]. *)
Lemma ld64_bits buf q :
  bytes buf → 0 <= q → 8 * q + 8 <= Z.of_nat (length buf) →
  ∃ qw, ld64 buf (8 * q) = Ok qw ∧ 0 <= qw < 2 ^ 64 ∧
        ∀ k, 0 <= k < 64 → Z.testbit qw k = buf_bit buf (64 * q + k).
Proof.
  intros Hb Hq Hl. unfold ld64, ld32.
  rewrite !ld16_in by lia. simpl.
  set (g := λ j, nth (Z.to_nat (8 * q + j)) buf 0).
  assert (Hg : ∀ j, 0 <= g j < 2 ^ 8) by (intros; by apply nth_bytes).
  assert (Hn : ∀ a j, a = 8 * q + j → nth (Z.to_nat a) buf 0 = g j) by (by intros ?? ->).
  rewrite (Hn (8 * q) 0), (Hn (8 * q + 1) 1), (Hn (8 * q + 2) 2), (Hn (8 * q + 2 + 1) 3),
    (Hn (8 * q + 4) 4), (Hn (8 * q + 4 + 1) 5), (Hn (8 * q + 4 + 2) 6),
    (Hn (8 * q + 4 + 2 + 1) 7) by lia.
  eexists. split; [reflexivity|]. clear Hn.
  pose proof (Hg 0); pose proof (Hg 1); pose proof (Hg 2); pose proof (Hg 3).
  pose proof (Hg 4); pose proof (Hg 5); pose proof (Hg 6); pose proof (Hg 7).
  split; [lia|]. intros k Hk.
  match goal with |- Z.testbit ?v k = _ =>
    replace v with (g 0 + 2 ^ 8 * (g 1 + 2 ^ 8 * (g 2 + 2 ^ 8 * (g 3 + 2 ^ 8 * (g 4 + 2 ^ 8 *
      (g 5 + 2 ^ 8 * (g 6 + 2 ^ 8 * g 7))))))) by lia
  end.
  assert (Hgk : buf_bit buf (64 * q + k) = Z.testbit (g (k / 8)) (k mod 8)).
  { unfold buf_bit. replace ((64 * q + k) / 8) with (8 * q + k / 8) by lia.
    by replace ((64 * q + k) mod 8) with (k mod 8) by lia. }
  rewrite Hgk. clear Hgk. clearbody g.
  repeat (rewrite testbit_split by lia;
          match goal with |- context [?a <? ?b] => destruct (Z.ltb_spec a b) end).
  all: f_equal; [f_equal|]; lia.
Qed.

Lemma land_shiftl_1 x k : 0 <= k → negb (Z.land x (Z.shiftl 1 k) =? 0) = Z.testbit x k.
Proof.
  intros Hk. destruct (Z.testbit x k) eqn:Ht.
  - destruct (Z.eqb_spec (Z.land x (Z.shiftl 1 k)) 0) as [H0|]; [|done].
    apply (f_equal (λ z, Z.testbit z k)) in H0.
    by rewrite Z.land_spec, testbit_shiftl_1, Ht, bool_decide_true, Z.bits_0 in H0.
  - destruct (Z.eqb_spec (Z.land x (Z.shiftl 1 k)) 0) as [|H0]; [done|].
    exfalso. apply H0. apply Z.bits_inj. intros n.
    rewrite Z.land_spec, testbit_shiftl_1, Z.bits_0 by done.
    case_bool_decide; [subst; by rewrite Ht|by rewrite andb_false_r].
Qed.

Lemma buf_bit_lookup buf i v :
  buf !! Z.to_nat (i / 8) = Some v → buf_bit buf i = Z.testbit v (i mod 8).
Proof. intros Hv. unfold buf_bit. by rewrite (nth_lookup_Some _ _ _ _ Hv). Qed.

Lemma bitmap_get_spec b i :
  bitmap_wf b → 0 <= i → bitmap_get b i = Ok (if i <? m_size b then bit b i else false).
Proof.
  intros [Hs _ _ Hl] Hi. unfold bitmap_get.
  destruct (Z.leb_spec (m_size b) i), (Z.ltb_spec i (m_size b)); try lia; [done|].
  rewrite shiftr_3, land_7, (arr_get_in _ _ 0) by lia. simpl.
  by rewrite land_shiftl_1 by lia.
Qed.

(** Writing bit [i] changes that bit only. *)
Lemma write_bit_spec buf i v :
  bytes buf → 0 <= i → i / 8 < Z.of_nat (length buf) →
  ∃ buf', write_bit buf i v = Ok buf' ∧ bytes buf' ∧ length buf' = length buf ∧
          ∀ j, 0 <= j → buf_bit buf' j = if decide (j = i) then v else buf_bit buf j.
Proof.
  intros Hb Hi Hl. unfold write_bit. rewrite shiftr_3, land_7.
  destruct (arr_get_is_Ok buf (i / 8)) as (x & -> & Hx); [lia|]. simpl.
  assert (Hx8 : 0 <= x < 2 ^ 8) by exact (Forall_lookup_1 _ _ _ _ Hb Hx).
  assert (Hk : 0 <= i mod 8 < 8) by lia.
  pose proof (shiftl_1_byte _ Hk) as Hs.
  rewrite (u8_small (Z.shiftl 1 (i mod 8))) by lia.
  set (y := if v then _ else _).
  assert (Hy : 0 <= y < 2 ^ 8).
  { subst y. destruct v; [by apply lor_byte_range|by apply land_byte_range]. }
  assert (Hbit : ∀ k, Z.testbit y k = if bool_decide (k = i mod 8) then v else Z.testbit x k).
  { intros k. subst y. destruct v.
    - rewrite testbit_set_byte by lia. by case_bool_decide.
    - rewrite testbit_clear_byte by lia. by case_bool_decide. }
  clearbody y. rewrite arr_set_in by lia. eexists. split; [done|].
  split; [by apply Forall_insert|]. split; [by rewrite length_insert|].
  intros j Hj. destruct (decide (j / 8 = i / 8)) as [E|E].
  - rewrite (buf_bit_lookup _ _ y) by (rewrite E; apply list_lookup_insert_eq; lia).
    rewrite Hbit, (buf_bit_lookup _ _ x) by (by rewrite E).
    case_decide; case_bool_decide; try done; lia.
  - unfold buf_bit. rewrite nth_lookup, list_lookup_insert_ne, <-nth_lookup by lia.
    case_decide; [subst; lia|done].
Qed.

Lemma mem_fill_spec buf off v n :
  0 <= off → 0 <= n → off + n <= Z.of_nat (length buf) → bytes buf → 0 <= v < 2 ^ 8 →
  ∃ buf', mem_fill buf off v n = Ok buf' ∧ bytes buf' ∧ length buf' = length buf ∧
          ∀ k, nth k buf' 0 = if decide (off <= Z.of_nat k < off + n) then v else nth k buf 0.
Proof.
  intros Ho Hn Hl Hb Hv. unfold mem_fill.
  destruct (Z.leb_spec 0 off), (Z.leb_spec 0 n),
    (Z.leb_spec (off + n) (Z.of_nat (length buf))); try lia; simpl.
  eexists. split; [done|]. split; [|split].
  - apply Forall_app; split; [by apply Forall_take|].
    apply Forall_app; split; [by apply Forall_replicate|by apply Forall_drop].
  - rewrite !length_app, length_take, length_replicate, length_drop. lia.
  - intros k. rewrite !nth_lookup. case_decide as Hk.
    + rewrite lookup_app_r by (rewrite length_take; lia).
      rewrite lookup_app_l by (rewrite length_replicate, length_take; lia).
      by rewrite lookup_replicate_2 by (rewrite length_take; lia).
    + destruct (decide (Z.of_nat k < off)).
      * by rewrite lookup_app_l, lookup_take_lt by (rewrite ?length_take; lia).
      * rewrite lookup_app_r by (rewrite length_take; lia).
        rewrite lookup_app_r by (rewrite length_replicate, length_take; lia).
        rewrite lookup_drop, length_replicate, length_take. f_equal. f_equal. lia.
Qed.

Lemma byte_ff_bits k : 0 <= k < 8 → Z.testbit 0xFF k = true.
Proof. intros. change 0xFF with (Z.ones 8). by apply Z.ones_spec_low. Qed.

(** The bits of a byte-wise fill. *)
Lemma mem_fill_bits buf q n (v : bool) :
  0 <= q → 0 <= n → q + n <= Z.of_nat (length buf) → bytes buf →
  ∃ buf', mem_fill buf q (if v then 0xFF else 0x00) n = Ok buf' ∧ bytes buf' ∧
          length buf' = length buf ∧
          ∀ j, 0 <= j → buf_bit buf' j =
            if decide (8 * q <= j < 8 * (q + n)) then v else buf_bit buf j.
Proof.
  intros Hq Hn Hl Hb.
  destruct (mem_fill_spec buf q (if v then 0xFF else 0) n) as (buf' & E & Hb' & Hl' & Hk);
    [done..|by destruct v|].
  exists buf'. do 3 (split; [done|]). intros j Hj. unfold buf_bit. rewrite Hk.
  destruct (decide (8 * q <= j < 8 * (q + n))).
  - rewrite decide_True by lia. destruct v; [apply byte_ff_bits; lia|apply Z.bits_0].
  - by rewrite decide_False by lia.
Qed.

(** The bit-by-bit loop of [set_range] writes [i .. i'-1] and stops at the end
    or where its guard fails. *)
Lemma write_bits_while_spec fuel guard end_ v buf i :
  bytes buf → 0 <= i → end_ < 2 ^ 63 → (end_ + 7) / 8 <= Z.of_nat (length buf) →
  (Z.to_nat (end_ - i) < fuel)%nat →
  ∃ buf' i', write_bits_while fuel guard end_ v buf i = Ok (buf', i') ∧
    bytes buf' ∧ length buf' = length buf ∧ i <= i' ∧ (i' <= Z.max i end_) ∧
    (end_ <= i' ∨ guard i' = false) ∧ (∀ j, i <= j < i' → guard j = true) ∧
    ∀ j, 0 <= j → buf_bit buf' j = if decide (i <= j < i') then v else buf_bit buf j.
Proof.
  intros Hb Hi He Hl Hf. unfold write_bits_while.
  destruct (loop_rule
    (λ '(buf1, i1), bytes buf1 ∧ length buf1 = length buf ∧ i <= i1 <= Z.max i end_ ∧
       (∀ j, i <= j < i1 → guard j = true) ∧
       ∀ j, 0 <= j → buf_bit buf1 j = if decide (i <= j < i1) then v else buf_bit buf j)
    (λ '(buf1, i1), bytes buf1 ∧ length buf1 = length buf ∧ i <= i1 <= Z.max i end_ ∧
       (end_ <= i1 ∨ guard i1 = false) ∧ (∀ j, i <= j < i1 → guard j = true) ∧
       ∀ j, 0 <= j → buf_bit buf1 j = if decide (i <= j < i1) then v else buf_bit buf j)
    (λ '(_, i1), Z.to_nat (end_ - i1))
    (λ '(buf, i), if (i <? end_) && guard i then
       buf' ← write_bit buf i v; Ok (inl (buf', u64 (i + 1))) else Ok (inr (buf, i))))
    with (fuel := fuel) (s := (buf, i)) as ([buf' i'] & -> & ?).
  - intros [buf1 i1] (Hb1 & Hl1 & Hi1 & Hg1 & Hbit).
    destruct (Z.ltb_spec i1 end_); simpl.
    + destruct (guard i1) eqn:Hg; [|eexists; split; [done|]; naive_solver].
      destruct (write_bit_spec buf1 i1 v) as (buf2 & -> & Hb2 & Hl2 & Hbit2); [done|lia..|].
      simpl. eexists. split; [done|]. rewrite u64_small by lia.
      split; [|lia]. split; [done|]. split; [congruence|]. split; [lia|]. split.
      * intros j Hj. destruct (decide (j = i1)) as [->|]; [done|apply Hg1; lia].
      * intros j Hj. rewrite Hbit2, Hbit by done. repeat case_decide; try done; lia.
    + eexists. split; [done|]. naive_solver.
  - repeat split; try done; try lia. intros j Hj. by rewrite decide_False by lia.
  - done.
  - exists buf', i'. naive_solver lia.
Qed.

Lemma bitmap_wf_buffer b buf :
  bitmap_wf b → bytes buf → length buf = length (m_buffer b) →
  bitmap_wf (mkBitmap buf (m_size b) (m_next_free_hint b)).
Proof. intros [] ? E. split; simpl; try done. by rewrite E. Qed.

Lemma bitmap_update_hint_wf b i :
  bitmap_wf b → 0 <= i < 2 ^ 64 → bitmap_wf (bitmap_update_hint b i).
Proof. intros [] ?. by split. Qed.

Lemma bitmap_init_spec buffer size :
  0 <= size < 2 ^ 63 → bytes buffer → (size + 7) / 8 <= Z.of_nat (length buffer) →
  ∃ b, bitmap_init buffer size = Ok b ∧ bitmap_wf b ∧ m_size b = size ∧
       m_next_free_hint b = 0 ∧ ∀ i, 0 <= i < size → bit b i = false.
Proof.
  intros Hs Hb Hl. unfold bitmap_init. rewrite u64_small, shiftr_3 by lia.
  destruct (mem_fill_bits buffer 0 ((size + 7) / 8) false) as (buf & E & Hb' & Hl' & Hbit);
    [lia|lia|lia|done|]. simpl in E. rewrite E. simpl. eexists. split; [done|].
  split; [|split; [done|split; [done|]]].
  - split; simpl; try done; lia.
  - intros i Hi. unfold bit. simpl. rewrite Hbit by lia. by rewrite decide_True by lia.
Qed.

Lemma bitmap_set_spec b i v :
  bitmap_wf b → 0 <= i →
  ∃ b', bitmap_set b i v = Ok b' ∧ bitmap_wf b' ∧ m_size b' = m_size b ∧
        m_next_free_hint b' = m_next_free_hint b ∧
        ∀ j, 0 <= j → bit b' j = if decide (j = i ∧ i < m_size b) then v else bit b j.
Proof.
  intros Hwf Hi. pose proof Hwf as [Hs Hh Hb Hl]. unfold bitmap_set.
  destruct (Z.leb_spec (m_size b) i).
  - exists b. do 4 (split; [done|]). intros j Hj. rewrite decide_False; [done|lia].
  - destruct (write_bit_spec (m_buffer b) i v) as (buf & -> & Hb' & Hl' & Hbit); [done|lia|lia|].
    simpl. eexists. split; [done|]. split; [by apply bitmap_wf_buffer|]. do 2 (split; [done|]).
    intros j Hj. unfold bit. simpl. rewrite Hbit by done. repeat case_decide; try done; lia.
Qed.

Lemma bitmap_set_range_spec b start count v :
  bitmap_wf b → 0 <= start → 0 <= count < 2 ^ 64 →
  ∃ b', bitmap_set_range b start count v = Ok b' ∧ bitmap_wf b' ∧ m_size b' = m_size b ∧
        m_next_free_hint b' = m_next_free_hint b ∧
        ∀ j, 0 <= j → bit b' j =
          if decide (start <= j < Z.min (start + count) (m_size b)) then v else bit b j.
Proof.
  intros Hwf Hst Hc. pose proof Hwf as [Hs Hh Hb Hl]. unfold bitmap_set_range.
  destruct (Z.leb_spec (m_size b) start); simpl.
  { exists b. do 4 (split; [done|]). intros j Hj. rewrite decide_False; [done|lia]. }
  destruct (Z.eqb_spec count 0) as [Hc0|Hc0]; simpl.
  { exists b. do 4 (split; [done|]). intros j Hj. rewrite decide_False; [done|lia]. }
  set (end_ := if _ || _ then _ else _).
  assert (He : end_ = Z.min (start + count) (m_size b)).
  { subst end_. unfold u64.
    destruct (decide (start + count < 2 ^ 64)).
    - rewrite Z.mod_small by lia.
      destruct (Z.ltb_spec (start + count) start), (Z.ltb_spec (m_size b) (start + count));
        simpl; lia.
    - replace ((start + count) mod 2 ^ 64) with (start + count - 2 ^ 64) by lia.
      destruct (Z.ltb_spec (start + count - 2 ^ 64) start); simpl; lia. }
  clearbody end_.
  destruct (write_bits_while_spec (S (Z.to_nat (m_size b))) (λ i, negb (Z.land i 7 =? 0)) end_ v
    (m_buffer b) start) as (buf1 & i1 & -> & Hb1 & Hl1 & Hle1 & Hi1 & Hstop & _ & Hbit1);
    [done|lia..|]. simpl.
  rewrite u64_small, shiftr_3 by lia.
  set (n := (end_ - i1) / 8).
  assert (Hmid : ∃ buf2 i2,
    (if 0 <? n then
       buf ← mem_fill buf1 (Z.shiftr i1 3) (if v then 255 else 0) n;
       Ok (buf, u64 (i1 + Z.shiftl n 3))
     else Ok (buf1, i1)) = Ok (buf2, i2) ∧ bytes buf2 ∧ length buf2 = length buf1 ∧
    i1 <= i2 <= end_ ∧
    ∀ j, 0 <= j → buf_bit buf2 j = if decide (i1 <= j < i2) then v else buf_bit buf1 j).
  { destruct (Z.ltb_spec 0 n) as [Hn|Hn].
    - assert (Hal : i1 mod 8 = 0).
      { destruct Hstop as [?|Hg]; [lia|]. rewrite land_7 in Hg.
        apply negb_false_iff, Z.eqb_eq in Hg. done. }
      rewrite shiftr_3, shiftl_3.
      destruct (mem_fill_bits buf1 (i1 / 8) n v) as (buf2 & -> & Hb2 & Hl2 & Hbit2);
        [lia|lia|lia|done|].
      simpl. rewrite u64_small by lia. do 2 eexists. split; [done|].
      split; [done|]. split; [done|]. split; [lia|].
      intros j Hj. rewrite Hbit2 by done. repeat case_decide; try done; lia.
    - exists buf1, i1. split; [done|]. split; [done|]. split; [done|]. split; [lia|].
      intros j Hj. by rewrite decide_False by lia. }
  destruct Hmid as (buf2 & i2 & -> & Hb2 & Hl2 & Hi2 & Hbit2). simpl.
  destruct (write_bits_while_spec (S (Z.to_nat (m_size b))) (λ _, true) end_ v buf2 i2)
    as (buf3 & i3 & -> & Hb3 & Hl3 & Hle3 & Hi3 & Hstop3 & _ & Hbit3); [done|lia..|]. simpl.
  assert (i3 = end_) by (destruct Hstop3; [lia|done]). subst i3.
  eexists. split; [done|].
  split; [apply bitmap_wf_buffer; [done|done|congruence]|]. do 2 (split; [done|]).
  intros j Hj. unfold bit. simpl. rewrite Hbit3, Hbit2, Hbit1 by done. rewrite <-He.
  repeat case_decide; try done; lia.
Qed.

(** ** Searches *)

Lemma ctz_from_spec n k x :
  (∃ j, k <= j <= k + Z.of_nat n ∧ Z.testbit x j = true) →
  k <= ctz_from n k x <= k + Z.of_nat n ∧ Z.testbit x (ctz_from n k x) = true ∧
  ∀ j, k <= j < ctz_from n k x → Z.testbit x j = false.
Proof.
  revert k. induction n as [|n IH]; intros k (j & Hj & Ht); simpl.
  - assert (j = k) as -> by lia. split; [lia|]. split; [done|lia].
  - destruct (Z.testbit x k) eqn:Hk.
    + split; [lia|]. split; [done|lia].
    + destruct (IH (k + 1)) as (H1 & H2 & H3).
      { exists j. split; [|done]. destruct (decide (j = k)); [congruence|lia]. }
      split; [lia|]. split; [done|]. intros i Hi.
      destruct (decide (i = k)) as [->|]; [done|apply H3; lia].
Qed.

Lemma u64_lnot_testbit x k :
  0 <= k < 64 → Z.testbit (u64 (Z.lnot x)) k = negb (Z.testbit x k).
Proof. intros. unfold u64. by rewrite Z.mod_pow2_bits_low, Z.lnot_spec by lia. Qed.

Lemma word_ext x y n :
  0 <= x < 2 ^ n → 0 <= y < 2 ^ n → 0 <= n →
  (∀ k, 0 <= k < n → Z.testbit x k = Z.testbit y k) → x = y.
Proof.
  intros Hx Hy Hn Hk. rewrite <-(Z.mod_small x (2 ^ n)), <-(Z.mod_small y (2 ^ n)) by lia.
  apply Z.bits_inj. intros k. destruct (decide (0 <= k < n)).
  - rewrite !Z.mod_pow2_bits_low by lia. by apply Hk.
  - destruct (decide (k < 0)); [by rewrite !Z.testbit_neg_r by lia|].
    by rewrite !Z.mod_pow2_bits_high by lia.
Qed.

Lemma word_all_ones x :
  0 <= x < 2 ^ 64 → (∀ k, 0 <= k < 64 → Z.testbit x k = true) → x = u64 (Z.lnot 0).
Proof.
  intros Hx Hk. apply (word_ext _ _ 64); [done|apply u64_range|lia|].
  intros k ?. by rewrite Hk, u64_lnot_testbit, Z.bits_0.
Qed.

Lemma word_not_all_ones x :
  0 <= x < 2 ^ 64 → x ≠ u64 (Z.lnot 0) → ∃ k, 0 <= k < 64 ∧ Z.testbit x k = false.
Proof.
  intros Hx Hne. destruct (decide (Forall (λ n, Z.testbit x (Z.of_nat n) = true) (seq 0 64)))
    as [Hall|Hall].
  - exfalso. apply Hne, word_all_ones; [done|]. intros k Hk.
    rewrite Forall_forall in Hall. replace k with (Z.of_nat (Z.to_nat k)) by lia.
    apply Hall, elem_of_seq. lia.
  - apply not_Forall_Exists in Hall; [|intros n; simpl; apply _].
    apply Exists_exists in Hall as (n & Hn & Ht). apply elem_of_seq in Hn.
    exists (Z.of_nat n). split; [lia|]. simpl in Ht. by destruct (Z.testbit x (Z.of_nat n)).
Qed.

Lemma word_zero_bits x k : x = 0 → Z.testbit x k = false.
Proof. intros ->. apply Z.bits_0. Qed.

(** All bits of [lo, hi) are set. *)
Definition all_used (b : Bitmap) (lo hi : Z) : Prop := ∀ j, lo <= j < hi → bit b j = true.
(** [k] is the first clear bit at or after [lo]. *)
Definition first_free (b : Bitmap) (lo hi k : Z) : Prop :=
  lo <= k < hi ∧ bit b k = false ∧ all_used b lo k.

Lemma all_used_app b lo mid hi : all_used b lo mid → all_used b mid hi → all_used b lo hi.
Proof. intros H1 H2 j Hj. destruct (decide (j < mid)); [apply H1|apply H2]; lia. Qed.

Lemma first_free_extend b lo mid hi k :
  lo <= mid → all_used b lo mid → first_free b mid hi k → first_free b lo hi k.
Proof.
  intros Hlo H1 (H2 & H3 & H4). split; [lia|]. split; [done|]. by eapply all_used_app.
Qed.

Lemma qword_spec b i :
  bitmap_wf b → 0 <= i → i mod 64 = 0 → i + 64 <= m_size b →
  ∃ qw, ld64 (m_buffer b) (8 * Z.shiftr i 6) = Ok qw ∧ 0 <= qw < 2 ^ 64 ∧
        ∀ k, 0 <= k < 64 → Z.testbit qw k = bit b (i + k).
Proof.
  intros [Hs _ Hb Hl] Hi Hm Hle. rewrite shiftr_6.
  destruct (ld64_bits (m_buffer b) (i / 64)) as (qw & -> & Hr & Hk); [done|lia|lia|].
  exists qw. split; [done|]. split; [done|]. intros k ?. rewrite Hk by done.
  unfold bit. f_equal. lia.
Qed.

Lemma scan_bits_spec fuel guard b end_ i :
  bitmap_wf b → 0 <= i → end_ <= m_size b → (Z.to_nat (end_ - i) < fuel)%nat →
  ∃ r, scan_bits fuel guard b end_ i = Ok r ∧
    match r with
    | inl i' => i <= i' <= Z.max i end_ ∧ (end_ <= i' ∨ guard i' = false) ∧ all_used b i i'
    | inr k => first_free b i end_ k
    end.
Proof.
  intros Hwf Hi He Hf. pose proof Hwf as [Hs _ _ _]. unfold scan_bits.
  apply loop_rule with (m := λ i1, Z.to_nat (end_ - i1))
    (Inv := λ i1, i <= i1 <= Z.max i end_ ∧ all_used b i i1); [|split; [lia|]|done].
  - intros i1 (Hi1 & Hu). destruct (Z.ltb_spec i1 end_); simpl.
    + destruct (guard i1) eqn:Hg; [|eexists; split; [done|]; naive_solver].
      rewrite bitmap_get_spec by (done || lia). simpl.
      destruct (Z.ltb_spec i1 (m_size b)); [|lia].
      destruct (bit b i1) eqn:Hbit; simpl; eexists; (split; [done|]).
      * rewrite u64_small by lia. split; [|lia]. split; [lia|].
        intros j Hj. destruct (decide (j = i1)) as [->|]; [done|apply Hu; lia].
      * split; [lia|]. done.
    + eexists. split; [done|]. naive_solver.
  - intros j. lia.
Qed.

Lemma scan_qwords_spec fuel b end_ i :
  bitmap_wf b → 0 <= i → end_ <= m_size b → (Z.to_nat (end_ - i) < fuel)%nat →
  (i mod 64 = 0 ∨ end_ <= i) →
  ∃ r, scan_qwords fuel b (end_ / 64 * 64) i = Ok r ∧
    match r with
    | inl i' => i <= i' <= Z.max i end_ ∧ all_used b i i'
    | inr k => first_free b i end_ k
    end.
Proof.
  intros Hwf Hi He Hf Hal. pose proof Hwf as [Hs _ _ _]. unfold scan_qwords.
  apply loop_rule with (m := λ i1, Z.to_nat (end_ - i1))
    (Inv := λ i1, i <= i1 <= Z.max i end_ ∧ all_used b i i1 ∧ (i1 mod 64 = 0 ∨ end_ <= i1));
    [|split; [lia|split; [intros j; lia|done]]|done].
  intros i1 (Hi1 & Hu & Hal1). destruct (Z.ltb_spec i1 (end_ / 64 * 64)).
  - destruct Hal1 as [Hal1|]; [|lia].
    destruct (qword_spec b i1) as (qw & -> & Hr & Hk); [done|lia..|]. simpl.
    destruct (Z.eqb_spec qw (u64 (Z.lnot 0))) as [E|E]; simpl; (eexists; split; [done|]).
    + rewrite u64_small by lia. split; [|lia]. split; [lia|]. split; [|lia].
      apply (all_used_app _ _ i1); [done|]. intros j Hj.
      replace j with (i1 + (j - i1)) by lia. rewrite <-Hk, E by lia.
      by rewrite u64_lnot_testbit, Z.bits_0 by lia.
    + destruct (word_not_all_ones qw) as (k & Hk1 & Hk2); [done|done|].
      destruct (ctz_from_spec 63 0 (u64 (Z.lnot qw))) as (Hc1 & Hc2 & Hc3).
      { exists k. split; [lia|]. by rewrite u64_lnot_testbit, Hk2. }
      fold (ctzll (u64 (Z.lnot qw))) in *. set (c := ctzll _) in *. clearbody c.
      rewrite u64_lnot_testbit, negb_true_iff, Hk in Hc2 by lia.
      rewrite u64_small by lia.
      apply (first_free_extend _ _ i1); [lia|done|].
      split; [lia|]. split; [done|]. intros j Hj.
      specialize (Hc3 (j - i1)). rewrite u64_lnot_testbit, negb_false_iff, Hk in Hc3 by lia.
      rewrite <-Hc3 by lia. f_equal. lia.
  - eexists. split; [done|]. split; [lia|done].
Qed.

Lemma scan_range_spec b begin end_ :
  bitmap_wf b → 0 <= begin → end_ <= m_size b →
  ∃ r, scan_range b begin end_ = Ok r ∧
    ((r = SIZE_MAX ∧ all_used b begin end_) ∨ first_free b begin end_ r).
Proof.
  intros Hwf Hb He. pose proof Hwf as [Hs _ _ _]. unfold scan_range.
  destruct (Z.leb_spec end_ begin).
  { eexists. split; [done|]. left. split; [done|]. intros j. lia. }
  destruct (scan_bits_spec (S (Z.to_nat (m_size b))) (λ i, negb (Z.land i 63 =? 0)) b end_ begin)
    as ([i1|k1] & -> & H1); [done|lia|lia|lia| |]; simpl; [|eauto].
  destruct H1 as (Hi1 & Hstop & Hu1).
  assert (Hal : i1 mod 64 = 0 ∨ end_ <= i1).
  { destruct Hstop as [|Hg]; [by right|left]. rewrite land_63 in Hg.
    by apply negb_false_iff, Z.eqb_eq in Hg. }
  rewrite land_not_63 by lia.
  destruct (scan_qwords_spec (S (Z.to_nat (m_size b))) b end_ i1) as ([i2|k2] & -> & H2);
    [done|lia|lia|lia|done| |]; simpl.
  - destruct H2 as (Hi2 & Hu2).
    destruct (scan_bits_spec (S (Z.to_nat (m_size b))) (λ _, true) b end_ i2)
      as ([i3|k3] & -> & H3); [done|lia|lia|lia| |]; simpl; (eexists; split; [done|]).
    + destruct H3 as (Hi3 & [Hstop3|] & Hu3); [|done]. left. split; [done|].
      apply (all_used_app _ _ i1); [done|]. apply (all_used_app _ _ i2); [done|].
      intros j Hj. apply Hu3. lia.
    + right. eapply first_free_extend; [|done|]; [lia|].
      by eapply first_free_extend; [|done|]; [lia|].
  - eexists. split; [done|]. right. by eapply first_free_extend; [|done|]; [lia|].
Qed.

(** Where [find_first_free] starts: the hint for argument 0, wrapped to 0 when
    out of range. *)
Definition search_origin (b : Bitmap) (start_index : Z) : Z :=
  let s := if start_index =? 0 then m_next_free_hint b else start_index in
  if m_size b <=? s then 0 else s.

Lemma find_first_free_spec b start_index :
  bitmap_wf b → 0 <= start_index < 2 ^ 64 →
  ∃ r b', find_first_free b start_index = Ok (r, b') ∧ bitmap_wf b' ∧
    m_buffer b' = m_buffer b ∧ m_size b' = m_size b ∧
    ((r = SIZE_MAX ∧ b' = b ∧ all_used b 0 (m_size b)) ∨
     (0 <= r < m_size b ∧ bit b r = false ∧
      m_next_free_hint b' = (if r + 1 <? m_size b then r + 1 else 0) ∧
      let s := search_origin b start_index in
      (first_free b s (m_size b) r ∨ (all_used b s (m_size b) ∧ first_free b 0 s r)))).
Proof.
  intros Hwf Hst. pose proof Hwf as [Hs Hh _ _]. unfold find_first_free.
  destruct (Z.eqb_spec (m_size b) 0) as [E0|E0].
  { exists SIZE_MAX, b. do 4 (split; [done|]). left. split; [done|]. split; [done|].
    intros j. lia. }
  fold (search_origin b start_index).
  assert (Hso : 0 <= search_origin b start_index < m_size b).
  { unfold search_origin. destruct (start_index =? 0); case_match; lia. }
  set (s := search_origin b start_index) in *. clearbody s.
  assert (Hfin : ∀ r, 0 <= r < m_size b → bit b r = false →
    (first_free b s (m_size b) r ∨ (all_used b s (m_size b) ∧ first_free b 0 s r)) →
    ∃ r0 b', Ok (r, if negb (r =? SIZE_MAX)
        then bitmap_update_hint b (if u64 (r + 1) <? m_size b then u64 (r + 1) else 0)
        else b) = Ok (r0, b') ∧ bitmap_wf b' ∧ m_buffer b' = m_buffer b ∧ m_size b' = m_size b ∧
    ((r0 = SIZE_MAX ∧ b' = b ∧ all_used b 0 (m_size b)) ∨
     (0 <= r0 < m_size b ∧ bit b r0 = false ∧
      m_next_free_hint b' = (if r0 + 1 <? m_size b then r0 + 1 else 0) ∧
      (first_free b s (m_size b) r0 ∨ (all_used b s (m_size b) ∧ first_free b 0 s r0))))).
  { intros r Hr Hbit Hff. rewrite u64_small by lia.
    destruct (Z.eqb_spec r SIZE_MAX); [unfold SIZE_MAX in *; lia|]. simpl.
    do 2 eexists. split; [done|].
    split; [apply bitmap_update_hint_wf; [done|destruct (Z.ltb_spec (r + 1) (m_size b)); lia]|].
    do 2 (split; [done|]). right. done. }
  destruct (scan_range_spec b s (m_size b)) as (r0 & -> & H0); [done|lia|lia|]. simpl.
  destruct H0 as [[-> Hu]|Hff].
  - rewrite Z.eqb_refl. simpl. destruct (Z.eqb_spec s 0) as [->|Hs0]; simpl.
    + exists SIZE_MAX, b. do 4 (split; [done|]). by left.
    + destruct (scan_range_spec b 0 s) as (r1 & -> & H1); [done|lia|lia|]. simpl.
      destruct H1 as [[-> Hu1]|Hff1].
      * exists SIZE_MAX, b. do 4 (split; [done|]). left. do 2 (split; [done|]).
        by eapply all_used_app.
      * destruct Hff1 as (Hr1 & Hb1 & Hu1). apply Hfin; [lia|done|].
        right. split; [done|]. by split.
  - destruct Hff as (Hr & Hb1 & Hu1).
    destruct (Z.eqb_spec r0 SIZE_MAX); [unfold SIZE_MAX in *; lia|]. simpl.
    apply Hfin; [lia|done|]. left. by split.
Qed.

(** *** Runs of clear bits *)

(** The state of the upward run search at position [i]: the clear run ending at
    [i] is maximal from [lo], shorter than [count], and no window of [count]
    clear bits starting at or after [lo] ends at or before [i]. *)
Definition run_inv (b : Bitmap) (count lo i run start : Z) : Prop :=
  lo <= i <= m_size b ∧ 0 <= run < count ∧ run <= i - lo ∧
  (0 < run → start = i - run) ∧
  (∀ j, i - run <= j < i → bit b j = false) ∧
  (i - run = lo ∨ bit b (i - run - 1) = true) ∧
  (∀ s, lo <= s → s + count <= i → ∃ j, s <= j < s + count ∧ bit b j = true).

(** [r] is the lowest place at or after [lo] where [count] frames fit. *)
Definition first_fit (b : Bitmap) (count lo r : Z) : Prop :=
  lo <= r ∧ fits b count r ∧ ∀ s, lo <= s < r → ¬ fits b count s.

Lemma run_inv_no_fit b count lo i run start s :
  run_inv b count lo i run start → 0 <= lo → lo <= s → s < i - run → ¬ fits b count s.
Proof.
  intros (Hi & Hr & Hrl & _ & _ & Hmax & Hno) Hlo Hs Hlt (_ & _ & Hf).
  destruct (decide (s + count <= i)).
  - destruct (Hno s) as (j & Hj & Hb); [done..|]. rewrite Hf in Hb; [done|lia].
  - destruct Hmax as [|Hb]; [lia|]. rewrite Hf in Hb; [done|lia].
Qed.

(** [k] more clear bits: either the run is long enough, or the invariant moves on. *)
Lemma run_inv_free b count lo i run start k :
  run_inv b count lo i run start → 0 <= lo → 0 < k → i + k <= m_size b →
  (∀ j, i <= j < i + k → bit b j = false) →
  let start' := if run =? 0 then i else start in
  start' = i - run ∧
  (count <= run + k → first_fit b count lo start') ∧
  (run + k < count → run_inv b count lo (i + k) (run + k) start').
Proof.
  intros HI Hlo Hk Hle Hfree. pose proof HI as (Hi & Hr & Hrl & Hst & Hb & Hmax & Hno).
  intros start'.
  assert (Es : start' = i - run).
  { subst start'. destruct (Z.eqb_spec run 0); [lia|]. apply Hst. lia. }
  rewrite Es. clear start' Es. split; [done|]. split.
  - intros Hc. split; [lia|]. split.
    + split; [lia|]. split; [lia|]. intros j Hj.
      destruct (decide (j < i)); [apply Hb; lia|apply Hfree; lia].
    + intros s Hs. eapply run_inv_no_fit; eauto; lia.
  - intros Hc. split; [lia|]. split; [lia|]. split; [lia|]. split; [lia|].
    split; [|split].
    + intros j Hj. destruct (decide (j < i)); [apply Hb; lia|apply Hfree; lia].
    + replace (i + k - (run + k)) with (i - run) by lia. done.
    + intros s Hs Hsc. destruct (decide (s + count <= i)); [by apply Hno|].
      destruct Hmax as [|Hm]; [lia|]. exists (i - run - 1). split; [lia|done].
Qed.

(** [k] used bits reset the run. *)
Lemma run_inv_used b count lo i run start k :
  run_inv b count lo i run start → 0 <= lo → 0 < k → i + k <= m_size b →
  (∀ j, i <= j < i + k → bit b j = true) →
  run_inv b count lo (i + k) 0 start.
Proof.
  intros (Hi & Hr & Hrl & Hst & Hb & Hmax & Hno) Hlo Hk Hle Hused.
  split; [lia|]. split; [lia|]. split; [lia|]. split; [lia|]. split; [lia|].
  split; [right; apply Hused; lia|].
  intros s Hs Hsc. destruct (decide (s + count <= i)); [by apply Hno|].
  destruct (decide (s <= i)).
  - exists i. split; [lia|]. apply Hused. lia.
  - exists s. split; [lia|]. apply Hused. lia.
Qed.

Lemma run_step_spec b count lo i run start :
  run_inv b count lo i run start → 0 <= lo → m_size b < 2 ^ 63 → i < m_size b →
  match run_step count i (bit b i) run start with
  | inr r => first_fit b count lo r
  | inl (run', start') => run_inv b count lo (i + 1) run' start'
  end.
Proof.
  intros HI Hlo Hs Hi. unfold run_step. pose proof HI as (? & ? & ? & _).
  destruct (bit b i) eqn:Hb; simpl.
  - eapply run_inv_used; [done|lia|lia|lia|]. intros j Hj. by replace j with i by lia.
  - rewrite u64_small by lia.
    destruct (run_inv_free b count lo i run start 1) as (_ & Hhit & Hmiss); [done|lia|lia|lia| |].
    { intros j Hj. by replace j with i by lia. }
    destruct (Z.eqb_spec (run + 1) count); [apply Hhit; lia|apply Hmiss; lia].
Qed.

Lemma seq_bits_spec fuel b count lo end_ i run start :
  bitmap_wf b → 0 <= lo → end_ <= m_size b → run_inv b count lo i run start →
  (Z.to_nat (end_ - i) < fuel)%nat →
  ∃ r, seq_bits fuel b count end_ (i, run, start) = Ok r ∧
    match r with
    | inl (i', run', start') => i' = Z.max i end_ ∧ run_inv b count lo i' run' start'
    | inr k => first_fit b count lo k
    end.
Proof.
  intros Hwf Hlo He HI Hf. pose proof Hwf as [Hs _ _ _]. unfold seq_bits.
  apply loop_rule with (m := λ '(i1, _, _), Z.to_nat (end_ - i1))
    (Inv := λ '(i1, run1, start1), i <= i1 <= Z.max i end_ ∧ run_inv b count lo i1 run1 start1);
    [|split; [lia|done]|done].
  intros [[i1 run1] start1] (Hi1 & HI1).
  destruct (Z.ltb_spec i1 end_); [|eexists; split; [done|]; split; [lia|done]].
  rewrite bitmap_get_spec by (done || destruct HI1; lia). simpl.
  destruct (Z.ltb_spec i1 (m_size b)); [|lia].
  assert (Hst := run_step_spec b count lo i1 run1 start1 HI1 Hlo).
  destruct HI1 as (Hr1 & _).
  destruct (run_step _ _ _ _ _) as [[run' start']|k]; (eexists; split; [done|]); [|apply Hst; lia].
  rewrite u64_small by lia. split; [split; [lia|apply Hst; lia]|lia].
Qed.

Lemma seq_mixed_spec n b count lo i bit0 qw run start :
  0 <= lo → m_size b < 2 ^ 63 → 0 <= bit0 → i + bit0 + Z.of_nat n <= m_size b → 0 <= i →
  (∀ k, bit0 <= k < bit0 + Z.of_nat n → Z.testbit qw k = bit b (i + k)) →
  run_inv b count lo (i + bit0) run start →
  match seq_mixed n bit0 count i qw run start with
  | inr r => first_fit b count lo r
  | inl (run', start') => run_inv b count lo (i + bit0 + Z.of_nat n) run' start'
  end.
Proof.
  intros Hlo Hs. revert bit0 run start.
  induction n as [|n IH]; intros bit0 run start Hb0 Hle Hi0 Hk HI; simpl.
  - by rewrite Z.add_0_r.
  - rewrite land_shiftl_1, Hk, u64_small by lia.
    assert (Hst := run_step_spec b count lo (i + bit0) run start HI Hlo).
    destruct (run_step _ _ _ _ _) as [[run' start']|k]; [|apply Hst; lia].
    replace (i + bit0 + Z.of_nat (S n)) with (i + (bit0 + 1) + Z.of_nat n) by lia.
    apply IH; [lia|lia|lia| |].
    + intros k Hk'. apply Hk. lia.
    + replace (i + (bit0 + 1)) with (i + bit0 + 1) by lia. apply Hst; lia.
Qed.

#[local] Arguments seq_mixed _ _ _ _ _ _ _ : simpl never.

Lemma seq_qwords_spec fuel b count lo i run start :
  bitmap_wf b → 0 <= lo → run_inv b count lo i run start →
  (i mod 64 = 0 ∨ m_size b <= i) → (Z.to_nat (m_size b - i) < fuel)%nat →
  ∃ r, seq_qwords fuel b count (m_size b / 64 * 64) (i, run, start) = Ok r ∧
    match r with
    | inl (i', run', start') => i <= i' ∧ run_inv b count lo i' run' start'
    | inr k => first_fit b count lo k
    end.
Proof.
  intros Hwf Hlo HI Hal Hf. pose proof Hwf as [Hs _ _ _]. unfold seq_qwords.
  apply loop_rule with (m := λ '(i1, _, _), Z.to_nat (m_size b - i1))
    (Inv := λ '(i1, run1, start1), i <= i1 ∧ (i1 mod 64 = 0 ∨ m_size b <= i1) ∧
       run_inv b count lo i1 run1 start1); [|done|done].
  intros [[i1 run1] start1] (Hi1 & Hal1 & HI1).
  destruct (Z.ltb_spec i1 (m_size b / 64 * 64)); [|eexists; split; [done|]; split; [lia|done]].
  destruct Hal1 as [Hal1|]; [|lia]. pose proof HI1 as (Hr1 & Hr2 & Hr3 & _).
  destruct (qword_spec b i1) as (qw & -> & Hr & Hk); [done|lia..|]. simpl.
  rewrite !(u64_small (i1 + 64)) by lia.
  destruct (Z.eqb_spec qw 0) as [E|E].
  - destruct (run_inv_free b count lo i1 run1 start1 64) as (_ & Hhit & Hmiss);
      [done|lia|lia|lia| |].
    { intros j Hj. replace j with (i1 + (j - i1)) by lia.
      rewrite <-Hk by lia. by apply word_zero_bits. }
    rewrite u64_small by lia.
    destruct (Z.leb_spec count (run1 + 64)); (eexists; split; [done|]); [by apply Hhit|].
    split; [|lia]. split; [lia|]. split; [lia|]. apply Hmiss. lia.
  - destruct (Z.eqb_spec qw (u64 (Z.lnot 0))) as [E1|E1].
    + eexists. split; [done|]. split; [|lia]. split; [lia|]. split; [lia|].
      eapply run_inv_used; [done|lia|lia|lia|]. intros j Hj.
      replace j with (i1 + (j - i1)) by lia. rewrite <-Hk, E1 by lia.
      by rewrite u64_lnot_testbit, Z.bits_0 by lia.
    + assert (Hm := seq_mixed_spec 64 b count lo i1 0 qw run1 start1).
      rewrite (Z.add_0_r i1) in Hm. change (Z.of_nat 64) with 64 in Hm.
      specialize (Hm Hlo ltac:(lia) ltac:(lia) ltac:(lia) ltac:(lia) Hk HI1).
      destruct (seq_mixed 64 0 count i1 qw run1 start1) as [[run' start']|k];
        (eexists; split; [done|]); [|done].
      split; [|lia]. split; [lia|]. split; [lia|done].
Qed.

Lemma run_inv_start b count lo start :
  0 <= lo <= m_size b → 0 < count → run_inv b count lo lo 0 start.
Proof. intros. repeat split; try lia. Qed.

Lemma run_inv_end b count lo run start s :
  run_inv b count lo (m_size b) run start → 0 <= lo → lo <= s → ¬ fits b count s.
Proof.
  intros (Hi & Hr & Hrl & Hst & Hb & Hmax & Hno) Hlo Hs (_ & Hle & Hf).
  destruct (Hno s) as (j & Hj & Hbj); [done|lia|]. rewrite Hf in Hbj; [done|lia].
Qed.

Lemma find_first_free_sequence_spec b count start_index :
  bitmap_wf b → 0 <= start_index < 2 ^ 64 → 0 < count < 2 ^ 64 →
  let lo := if m_size b <=? start_index then 0 else start_index in
  ∃ r, find_first_free_sequence b count start_index = Ok r ∧
    ((r = SIZE_MAX ∧ ∀ s, lo <= s → ¬ fits b count s) ∨ first_fit b count lo r).
Proof.
  intros Hwf Hst Hc lo. pose proof Hwf as [Hs _ _ _]. unfold find_first_free_sequence.
  assert (Hlo : 0 <= lo <= m_size b) by (subst lo; case_match; lia).
  destruct (Z.eqb_spec count 0), (Z.ltb_spec (m_size b) count); try lia; simpl.
  { eexists. split; [done|]. left. split; [done|]. intros s Hls (? & ? & _). lia. }
  fold lo. clearbody lo. rewrite (u64_small (lo + 63)), !land_not_63 by lia.
  set (qs := if _ <? _ then _ else _).
  assert (Hqs : lo <= qs <= m_size b ∧ (qs mod 64 = 0 ∨ m_size b <= qs))
    by (subst qs; case_match; lia). clearbody qs.
  destruct (seq_bits_spec (S (Z.to_nat (m_size b))) b count lo qs lo 0 SIZE_MAX)
    as ([[[i1 run1] start1]|k1] & -> & H1); [done|lia|lia|apply run_inv_start; lia|lia| |];
    simpl; [|eauto].
  destruct H1 as [-> HI1]. replace (Z.max lo qs) with qs in * by lia.
  destruct (seq_qwords_spec (S (Z.to_nat (m_size b))) b count lo qs run1 start1)
    as ([[[i2 run2] start2]|k2] & -> & H2); [done|lia|done|lia|lia| |]; simpl; [|eauto].
  destruct H2 as [Hi2 HI2]. pose proof HI2 as (Hi2' & _).
  destruct (seq_bits_spec (S (Z.to_nat (m_size b))) b count lo (m_size b) i2 run2 start2)
    as ([[[i3 run3] start3]|k3] & -> & H3); [done|lia|lia|done|lia| |]; simpl; [|eauto].
  destruct H3 as [-> HI3]. replace (Z.max i2 (m_size b)) with (m_size b) in * by lia.
  eexists. split; [done|]. left. split; [done|]. intros s Hls.
  eapply run_inv_end; eauto. lia.
Qed.

(** The downward search at position [i]: the clear run [i, i + run) is maximal
    upwards, shorter than [count], and no window of [count] clear bits starts at
    or above [i]. *)
Definition down_inv (b : Bitmap) (count i run : Z) : Prop :=
  0 <= i ∧ i + run <= m_size b ∧ 0 <= run < count ∧
  (∀ j, i <= j < i + run → bit b j = false) ∧
  (i + run = m_size b ∨ bit b (i + run) = true).

(** [r] is the highest place where [count] frames fit. *)
Definition last_fit (b : Bitmap) (count r : Z) : Prop :=
  fits b count r ∧ ∀ s, r < s → ¬ fits b count s.

Lemma down_inv_no_fit b count i run s :
  down_inv b count i run → i + run - count < s → i + run <= m_size b → s <= i + run →
  ¬ fits b count s.
Proof.
  intros (Hi & Hle & Hr & Hb & Hmax) Hs _ Hs' (_ & Hle' & Hf).
  destruct Hmax as [|Hm]; [lia|]. rewrite Hf in Hm; [done|lia].
Qed.

(** The frames above the run hold no window either. *)
Definition above_inv (b : Bitmap) (count i run : Z) : Prop :=
  down_inv b count i run ∧ ∀ s, i + run < s → ¬ fits b count s.

Lemma above_inv_free b count i run k :
  above_inv b count i run → 0 < k <= i →
  (∀ j, i - k <= j < i → bit b j = false) →
  (count <= run + k → last_fit b count (i - k + (run + k - count))) ∧
  (run + k < count → above_inv b count (i - k) (run + k)).
Proof.
  intros [HD Hup] Hk Hfree. pose proof HD as (Hi & Hle & Hr & Hb & Hmax). split.
  - intros Hc. split.
    + split; [lia|]. split; [lia|]. intros j Hj.
      destruct (decide (j < i)); [apply Hfree; lia|apply Hb; lia].
    + intros s Hs. destruct (decide (i + run < s)); [by apply Hup|].
      eapply down_inv_no_fit; eauto; lia.
  - intros Hc. split.
    + split; [lia|]. split; [lia|]. split; [lia|]. split.
      * intros j Hj. destruct (decide (j < i)); [apply Hfree; lia|apply Hb; lia].
      * by replace (i - k + (run + k)) with (i + run) by lia.
    + intros s Hs. apply Hup. lia.
Qed.

Lemma above_inv_used b count i run k :
  above_inv b count i run → 0 < k <= i → (∀ j, i - k <= j < i → bit b j = true) →
  above_inv b count (i - k) 0.
Proof.
  intros [HD Hup] Hk Hused. pose proof HD as (Hi & Hle & Hr & Hb & Hmax). split.
  - split; [lia|]. split; [lia|]. split; [lia|]. split; [lia|].
    right. apply Hused. lia.
  - intros s Hs. destruct (decide (i + run < s)); [by apply Hup|].
    destruct (decide (s < i)).
    + intros (_ & _ & Hf). specialize (Hused s). rewrite Hf in Hused by lia.
      by discriminate Hused; lia.
    + eapply down_inv_no_fit; eauto; lia.
Qed.

Lemma last_bits_spec fuel b count qend :
  bitmap_wf b → 0 <= qend <= m_size b → 0 < count → (Z.to_nat (m_size b) < fuel)%nat →
  ∃ r, last_bits fuel b count qend (m_size b, 0) = Ok r ∧
    match r with
    | inl (i, run) => i = qend ∧ above_inv b count i run
    | inr k => last_fit b count k
    end.
Proof.
  intros Hwf Hq Hc Hf. pose proof Hwf as [Hs _ _ _]. unfold last_bits.
  apply loop_rule with (m := λ '(i1, _), Z.to_nat i1)
    (Inv := λ '(i1, run1), qend <= i1 ∧ above_inv b count i1 run1); [| |done].
  2: { split; [lia|]. split; [repeat split; lia|]. intros s Hs' (? & ? & _). lia. }
  intros [i1 run1] (Hi1 & HA). pose proof HA as [(? & ? & ? & _) _].
  destruct (Z.ltb_spec qend i1); [|eexists; split; [done|]; split; [lia|done]].
  rewrite (u64_small (i1 - 1)), bitmap_get_spec by (done || lia). simpl.
  destruct (Z.ltb_spec (i1 - 1) (m_size b)); [|lia].
  destruct (bit b (i1 - 1)) eqn:Hb; simpl.
  - eexists. split; [done|]. split; [|lia]. split; [lia|].
    eapply above_inv_used; [done|lia|]. intros j Hj. by replace j with (i1 - 1) by lia.
  - destruct (above_inv_free b count i1 run1 1) as [Hhit Hmiss]; [done|lia| |].
    { intros j Hj. by replace j with (i1 - 1) by lia. }
    rewrite u64_small by lia.
    destruct (Z.eqb_spec (run1 + 1) count) as [E|E]; (eexists; split; [done|]).
    + rewrite E, Z.sub_diag, Z.add_0_r in Hhit. apply Hhit. lia.
    + split; [|lia]. split; [lia|]. apply Hmiss. lia.
Qed.

Lemma last_mixed_spec n b count q qw run :
  0 <= q → 64 * q + Z.of_nat n <= m_size b → m_size b < 2 ^ 63 →
  (∀ k, 0 <= k < Z.of_nat n → Z.testbit qw k = bit b (64 * q + k)) →
  above_inv b count (64 * q + Z.of_nat n) run →
  match last_mixed n count q qw run with
  | inr r => last_fit b count r
  | inl run' => above_inv b count (64 * q) run'
  end.
Proof.
  intros Hq. revert run. induction n as [|n IH]; intros run Hle Hs Hk HA; simpl.
  - by replace (64 * q + Z.of_nat 0) with (64 * q) in HA by lia.
  - assert (Hbit := land_shiftl_1 qw (Z.of_nat n)). rewrite Hk in Hbit by lia.
    replace (64 * q + Z.of_nat (S n)) with (64 * q + Z.of_nat n + 1) in * by lia.
    pose proof HA as [(? & ? & ? & _) _].
    destruct (Z.eqb_spec (Z.land qw (Z.shiftl 1 (Z.of_nat n))) 0) as [E|E]; simpl in Hbit.
    + destruct (above_inv_free b count (64 * q + Z.of_nat n + 1) run 1) as [Hhit Hmiss];
        [done|lia| |].
      { intros j Hj. replace j with (64 * q + Z.of_nat n) by lia. symmetry. apply Hbit. lia. }
      replace (64 * q + Z.of_nat n + 1 - 1) with (64 * q + Z.of_nat n) in * by lia.
      rewrite u64_small by lia.
      destruct (Z.eqb_spec (run + 1) count) as [Ec|Ec].
      * rewrite Ec, Z.sub_diag, Z.add_0_r in Hhit.
        rewrite shiftl_6, u64_small by lia.
        replace (q * 64 + Z.of_nat n) with (64 * q + Z.of_nat n) by lia. apply Hhit. lia.
      * apply IH; [lia|done| |apply Hmiss; lia]. intros k ?. apply Hk. lia.
    + apply IH; [lia|done| |]; [intros k ?; apply Hk; lia|].
      replace (64 * q + Z.of_nat n) with (64 * q + Z.of_nat n + 1 - 1) by lia.
      eapply above_inv_used; [done|lia|]. intros j Hj.
      replace j with (64 * q + Z.of_nat n) by lia. symmetry. apply Hbit. lia.
Qed.

#[local] Arguments last_mixed _ _ _ _ _ : simpl never.

Lemma last_qwords_spec fuel b count q run :
  bitmap_wf b → 0 <= q → 64 * q <= m_size b → above_inv b count (64 * q) run →
  (Z.to_nat q < fuel)%nat →
  ∃ r, last_qwords fuel b count (q, run) = Ok r ∧
    match r with
    | inl _ => ∀ s, ¬ fits b count s
    | inr k => last_fit b count k
    end.
Proof.
  intros Hwf Hq Hle HA Hf. pose proof Hwf as [Hs _ Hb Hl]. unfold last_qwords.
  apply loop_rule with (m := λ '(q1, _), Z.to_nat q1)
    (Inv := λ '(q1, run1), 0 <= q1 <= q ∧ above_inv b count (64 * q1) run1);
    [|split; [lia|done]|done].
  intros [q1 run1] (Hq1 & HA1). pose proof HA1 as [(? & ? & Hrun & _) Hup].
  destruct (Z.ltb_spec 0 q1).
  2: { eexists. split; [done|]. intros s Hfit. assert (q1 = 0) as -> by lia.
       destruct (decide (64 * 0 + run1 < s)); [by apply (Hup s)|].
       pose proof Hfit as (? & ? & _). revert Hfit.
       eapply down_inv_no_fit; [apply HA1|lia..]. }
  rewrite (u64_small (q1 - 1)) by lia.
  destruct (ld64_bits (m_buffer b) (q1 - 1)) as (qw & -> & Hr & Hk); [done|lia|lia|].
  fold (bit b) in Hk. simpl.
  assert (Hk' : ∀ j, 64 * q1 - 64 <= j < 64 * q1 → bit b j = Z.testbit qw (j - 64 * (q1 - 1))).
  { intros j Hj. rewrite Hk by lia. unfold bit. f_equal. lia. }
  destruct (Z.eqb_spec qw 0) as [E|E].
  - destruct (above_inv_free b count (64 * q1) run1 64) as [Hhit Hmiss]; [done|lia| |].
    { intros j Hj. rewrite Hk' by lia. by apply word_zero_bits. }
    rewrite u64_small by lia.
    destruct (Z.leb_spec count (run1 + 64)); (eexists; split; [done|]).
    + rewrite shiftl_6, u64_small by lia.
      replace ((q1 - 1) * 64) with (64 * q1 - 64) by lia. by apply Hhit.
    + split; [|lia]. split; [lia|].
      replace (64 * (q1 - 1)) with (64 * q1 - 64) by lia. apply Hmiss. lia.
  - destruct (Z.eqb_spec qw (u64 (Z.lnot 0))) as [E1|E1].
    + eexists. split; [done|]. split; [|lia]. split; [lia|].
      replace (64 * (q1 - 1)) with (64 * q1 - 64) by lia.
      eapply above_inv_used; [done|lia|]. intros j Hj. rewrite Hk', E1 by lia.
      by rewrite u64_lnot_testbit, Z.bits_0 by lia.
    + assert (Hm := last_mixed_spec 64 b count (q1 - 1) qw run1).
      change (Z.of_nat 64) with 64 in Hm.
      replace (64 * (q1 - 1) + 64) with (64 * q1) in Hm by lia.
      specialize (Hm ltac:(lia) ltac:(lia) ltac:(lia) Hk HA1).
      destruct (last_mixed _ _ _ _ _); (eexists; split; [done|]); [|done].
      split; [split; [lia|done]|lia].
Qed.

Lemma find_last_free_sequence_spec b count :
  bitmap_wf b → 0 < count < 2 ^ 64 →
  ∃ r, find_last_free_sequence b count = Ok r ∧
    ((r = SIZE_MAX ∧ ∀ s, ¬ fits b count s) ∨ last_fit b count r).
Proof.
  intros Hwf Hc. pose proof Hwf as [Hs _ _ _]. unfold find_last_free_sequence.
  destruct (Z.eqb_spec count 0), (Z.ltb_spec (m_size b) count); try lia; simpl.
  { eexists. split; [done|]. left. split; [done|]. intros s (? & ? & _). lia. }
  rewrite land_not_63 by lia.
  destruct (last_bits_spec (S (Z.to_nat (m_size b))) b count (m_size b / 64 * 64))
    as ([[i run]|k] & -> & H1); [done|lia..| |]; simpl; [|eauto].
  destruct H1 as [-> HA]. destruct (Z.ltb_spec 0 (m_size b / 64 * 64)).
  - rewrite shiftr_6. replace (m_size b / 64 * 64 / 64) with (m_size b / 64) by lia.
    destruct (last_qwords_spec (S (Z.to_nat (m_size b))) b count (m_size b / 64) run)
      as ([?|k] & -> & H2); [done|lia|lia| |lia| |]; simpl; [|eauto..].
    by replace (64 * (m_size b / 64)) with (m_size b / 64 * 64) by lia.
  - eexists. split; [done|]. left. split; [done|]. intros s Hfit.
    replace (m_size b / 64 * 64) with 0 in HA by lia.
    destruct HA as [HD Hup]. pose proof HD as (? & ? & ? & _).
    destruct (decide (0 + run < s)); [by apply (Hup s)|].
    pose proof Hfit as (? & ? & _). revert Hfit. eapply down_inv_no_fit; [done|lia..].
Qed.

(** * Properties *)

(** [set_range] (bits before the first byte boundary, a memset over whole
    bytes, bits after the last boundary) writes exactly the bits of
    [start, start + count) that exist, also when [start + count] wraps around or
    runs past the end, touches no other bit, and never leaves the buffer. *)
Theorem bitmap_set_range_correct b start count v :
  bitmap_wf b → 0 <= start < 2 ^ 64 → 0 <= count < 2 ^ 64 →
  ∃ b', bitmap_set_range b start count v = Ok b' ∧ bitmap_wf b' ∧ m_size b' = m_size b ∧
        ∀ j, 0 <= j → bit b' j =
          if decide (start <= j < Z.min (start + count) (m_size b)) then v else bit b j.
Proof.
  intros Hwf Hs Hc. destruct (bitmap_set_range_spec b start count v) as (b' & E & H1 & H2 & _ & H3);
    [done|lia|done|]. by exists b'.
Qed.

(** A bitmap of 150 bits, all used but 5, 70..99 and 140..149. *)
Definition sample_bitmap : Bitmap :=
  mkBitmap ([0xDF] ++ replicate 7 0xFF ++ [0x3F; 0; 0; 0; 0xF0] ++ replicate 4 0xFF ++ [0x0F; 0xC0]) 150 0.

Lemma sample_bitmap_wf : bitmap_wf sample_bitmap.
Proof.
  split; simpl; try lia. repeat (constructor; [lia|]). constructor.
Qed.

Lemma bitmap_set_range_correct_witness :
  ∃ b', bitmap_set_range sample_bitmap 3 (2 ^ 64 - 1) true = Ok b' ∧ bit b' 5 = true ∧ bit b' 145 = true.
Proof.
  destruct (bitmap_set_range_correct sample_bitmap 3 (2 ^ 64 - 1) true) as (b' & E & _ & _ & H);
    [apply sample_bitmap_wf|lia|lia|].
  exists b'. split; [exact E|]. split; rewrite H by lia; reflexivity.
Defined.

(** [find_first_free] returns the first clear bit at or after its origin (the
    hint, or the argument), wrapping to bit 0, remembers the following index, and
    reports failure only when every bit is set. *)
Theorem find_first_free_correct b start_index :
  bitmap_wf b → 0 <= start_index < 2 ^ 64 →
  ∃ r b', find_first_free b start_index = Ok (r, b') ∧ bitmap_wf b' ∧
    (∀ i, bit b' i = bit b i) ∧
    ((r = SIZE_MAX ∧ b' = b ∧ ∀ j, 0 <= j < m_size b → bit b j = true) ∨
     (0 <= r < m_size b ∧ bit b r = false ∧
      m_next_free_hint b' = (if r + 1 <? m_size b then r + 1 else 0) ∧
      let s := search_origin b start_index in
      (first_free b s (m_size b) r ∨ (all_used b s (m_size b) ∧ first_free b 0 s r)))).
Proof.
  intros Hwf Hs. destruct (find_first_free_spec b start_index) as (r & b' & E & H1 & H2 & H3 & H4);
    [done|done|]. exists r, b'. do 2 (split; [done|]). split; [|done].
  intros i. unfold bit. by rewrite H2.
Qed.

Lemma find_first_free_correct_witness :
  ∃ b', find_first_free sample_bitmap 100 = Ok (140, b') ∧ m_next_free_hint b' = 141.
Proof.
  destruct (find_first_free_correct sample_bitmap 100) as (r & b' & E & _ & _ & H);
    [apply sample_bitmap_wf|lia|].
  vm_compute in E. exists b'. split; [by injection E as <- <-|].
  by injection E as <- <-.
Defined.

(** [find_first_free_sequence], which walks whole 64-bit words, is first fit:
    it returns the lowest index at or after its start where [count] clear bits
    follow, and fails only when there is none. *)
Theorem find_first_free_sequence_first_fit b count start_index :
  bitmap_wf b → 0 <= start_index < 2 ^ 64 → 0 < count < 2 ^ 64 →
  let lo := if m_size b <=? start_index then 0 else start_index in
  ∃ r, find_first_free_sequence b count start_index = Ok r ∧
    ((r = SIZE_MAX ∧ ∀ s, lo <= s → ¬ fits b count s) ∨
     (lo <= r ∧ fits b count r ∧ ∀ s, lo <= s < r → ¬ fits b count s)).
Proof. intros. by apply find_first_free_sequence_spec. Qed.

Lemma find_first_free_sequence_first_fit_witness :
  find_first_free_sequence sample_bitmap 2 3 = Ok 70 ∧ fits sample_bitmap 2 70.
Proof.
  destruct (find_first_free_sequence_first_fit sample_bitmap 2 3) as (r & E & H);
    [apply sample_bitmap_wf|lia|lia|].
  vm_compute in E. injection E as <-. split; [reflexivity|].
  destruct H as [[H _]|(_ & H & _)]; [discriminate H|exact H].
Defined.

(** C30: [find_last_free_sequence] is last fit: it returns the highest index where
    [count] clear bits follow inside the bitmap, and fails only when there is none. *)
Theorem find_last_free_sequence_last_fit b count :
  bitmap_wf b → 0 < count < 2 ^ 64 →
  ∃ r, find_last_free_sequence b count = Ok r ∧
    ((r = SIZE_MAX ∧ ∀ s, ¬ fits b count s) ∨
     (fits b count r ∧ ∀ s, r < s → ¬ fits b count s)).
Proof. intros. by apply find_last_free_sequence_spec. Qed.

Lemma find_last_free_sequence_last_fit_witness :
  find_last_free_sequence sample_bitmap 20 = Ok 80 ∧ fits sample_bitmap 20 80.
Proof.
  destruct (find_last_free_sequence_last_fit sample_bitmap 20) as (r & E & H);
    [apply sample_bitmap_wf|lia|].
  vm_compute in E. injection E as <-. split; [reflexivity|].
  destruct H as [[H _]|[H _]]; [discriminate H|exact H].
Defined.
