(* ===== verification/Ring.v ===== *)
(** Circular buffers: the queue that an array, a read position and a count stand
    for. Pipes, event queues and socket receive buffers all use this layout; the
    lemmas here turn their index arithmetic into list operations. *)

From S2P Require Import Prelude.

(** The [n] elements that start at index [rp] of the ring [buf]. *)
Definition ring_items {A} (d : A) (buf : list A) (rp : Z) (n : nat) : list A :=
  (λ i, nth (Z.to_nat ((rp + Z.of_nat i) mod Z.of_nat (length buf))) buf d) <$> seq 0 n.

Section ring.
Context {A : Type} (d : A).
Implicit Types (buf : list A).

Lemma ring_items_length buf rp n : length (ring_items d buf rp n) = n.
Proof. unfold ring_items. by rewrite length_fmap, length_seq. Qed.

Lemma ring_items_lookup buf rp n i :
  (i < n)%nat →
  ring_items d buf rp n !! i =
    Some (nth (Z.to_nat ((rp + Z.of_nat i) mod Z.of_nat (length buf))) buf d).
Proof.
  intros Hi. unfold ring_items. rewrite list_lookup_fmap, lookup_seq_lt by done. done.
Qed.

(** Writing at the write position appends. *)
Lemma ring_items_push buf rp n x :
  (n < length buf)%nat →
  ring_items d (<[Z.to_nat ((rp + Z.of_nat n) mod Z.of_nat (length buf)) := x]> buf) rp (S n) =
  ring_items d buf rp n ++ [x].
Proof.
  intros Hn. set (N := Z.of_nat (length buf)). assert (HN : 0 < N) by lia.
  apply list_eq. intros i. rewrite lookup_app, ring_items_length.
  destruct (decide (i < n)%nat) as [Hi|Hi].
  - rewrite !ring_items_lookup by lia. rewrite length_insert. fold N. f_equal.
    rewrite !nth_lookup, list_lookup_insert_ne; [done|].
    pose proof (Z.mod_pos_bound (rp + Z.of_nat i) N HN).
    pose proof (Z.mod_pos_bound (rp + Z.of_nat n) N HN).
    intros E. apply Z2Nat.inj in E; [|lia..].
    assert (rp + Z.of_nat i = rp + Z.of_nat n); [|lia].
    apply (mod_eq_small _ _ N HN); [lia|]. by rewrite E.
  - rewrite (lookup_ge_None_2 (ring_items d buf rp n)) by (rewrite ring_items_length; lia).
    destruct (decide (i = n)) as [->|].
    + rewrite ring_items_lookup, Nat.sub_diag by lia. rewrite length_insert. fold N. simpl. f_equal.
      rewrite nth_lookup, list_lookup_insert_eq; [done|].
      pose proof (Z.mod_pos_bound (rp + Z.of_nat n) N HN). lia.
    + rewrite !lookup_ge_None_2; [done|simpl; lia|rewrite ring_items_length; lia].
Qed.

(** Reading at the read position removes the head. *)
Lemma ring_items_pop buf rp n :
  (0 < length buf)%nat →
  ring_items d buf rp (S n) =
    nth (Z.to_nat (rp mod Z.of_nat (length buf))) buf d ::
    ring_items d buf ((rp + 1) mod Z.of_nat (length buf)) n.
Proof.
  intros Hl. unfold ring_items. rewrite <-cons_seq, fmap_cons, Z.add_0_r. f_equal.
  rewrite <-fmap_S_seq, <-list_fmap_compose. apply list_fmap_ext. intros i j _. simpl.
  do 2 f_equal. rewrite Z.add_mod_idemp_l by lia. f_equal. lia.
Qed.

Lemma ring_items_mod buf rp n :
  (0 < length buf)%nat → ring_items d buf (rp mod Z.of_nat (length buf)) n = ring_items d buf rp n.
Proof.
  intros Hl. unfold ring_items. apply list_fmap_ext. intros i j _.
  by rewrite Z.add_mod_idemp_l by lia.
Qed.

Lemma ring_items_app buf rp n m :
  (0 < length buf)%nat →
  ring_items d buf rp (n + m) = ring_items d buf rp n ++ ring_items d buf (rp + Z.of_nat n) m.
Proof.
  intros Hl. unfold ring_items. rewrite seq_app, fmap_app. f_equal.
  simpl. rewrite <-(Nat.add_0_r n) at 1. rewrite <-fmap_add_seq, <-list_fmap_compose.
  apply list_fmap_ext. intros i j _. simpl. do 3 f_equal. lia.
Qed.

(** An empty ring may restart anywhere. *)
Lemma ring_items_0 buf rp : ring_items d buf rp 0 = [].
Proof. done. Qed.

End ring.

