(* ===== verification/Pmm.v ===== *)
(** The physical memory manager (src/mm/pmm.cpp): frame bitmap, reference counts,
    free-memory accounting, boot-time construction from the firmware memory map,
    single-frame and contiguous allocation, and the reference-count operations. *)

From S2P Require Import Prelude Bitmap.

(** * Model *)

Definition k_frame_size : Z := 4096.
Definition UINT64_MAX : Z := 2 ^ 64 - 1.
Definition UINT16_MAX : Z := 2 ^ 16 - 1.

(** enum BootMemoryType (the two values the allocator looks at). *)
Definition BOOT_MEM_USABLE : Z := 0.
Definition BOOT_MEM_BOOTLOADER_RECLAIMABLE : Z := 5.

Record BootMemoryMapEntry := mkEntry { base : Z; length_ : Z; type : Z }.

(** The file-scope state of pmm.cpp, and the bytes of physical memory that it
    zeroes through the direct map. *)
Record Pmm := mkPmm {
  g_pmm_bitmap : Bitmap;
  g_pmm_refcounts : list Z;
  g_bitmap_bits : Z;
  g_total_memory : Z;
  g_free_memory : Z;
  g_highest_page : Z;
  phys_mem : Z → Z
}.

Definition with_bitmap (b : Bitmap) (s : Pmm) : Pmm :=
  mkPmm b (g_pmm_refcounts s) (g_bitmap_bits s) (g_total_memory s) (g_free_memory s)
    (g_highest_page s) (phys_mem s).
Definition with_refcounts (r : list Z) (s : Pmm) : Pmm :=
  mkPmm (g_pmm_bitmap s) r (g_bitmap_bits s) (g_total_memory s) (g_free_memory s)
    (g_highest_page s) (phys_mem s).
Definition with_free (f : Z) (s : Pmm) : Pmm :=
  mkPmm (g_pmm_bitmap s) (g_pmm_refcounts s) (g_bitmap_bits s) (g_total_memory s) f
    (g_highest_page s) (phys_mem s).
Definition with_mem (m : Z → Z) (s : Pmm) : Pmm :=
  mkPmm (g_pmm_bitmap s) (g_pmm_refcounts s) (g_bitmap_bits s) (g_total_memory s)
    (g_free_memory s) (g_highest_page s) m.

(** [kstring::zero_memory] on physical memory, through [vmm_phys_to_virt]. *)
Definition zero_phys (m : Z → Z) (addr n : Z) : Z → Z :=
  λ a, if (addr <=? a) && (a <? addr + n) then 0 else m a.

(** [for (i = 0; i < n; i++) a[start + i] = v;] *)
Definition fill_slots (l : list Z) (start n v : Z) : res (list Z) :=
  for_upto (Z.to_nat n) 0 (λ i l, arr_set l (start + i) v) l.

Definition reserve_frame_permanently (s : Pmm) (frame_idx : Z) : res Pmm :=
  if g_bitmap_bits s <=? frame_idx then Ok s
  else
    used ← bitmap_get (g_pmm_bitmap s) frame_idx;
    let was_free := negb used in
    b ← bitmap_set (g_pmm_bitmap s) frame_idx true;
    rc ← arr_get (g_pmm_refcounts s) frame_idx;
    refs ← (if rc =? 0 then arr_set (g_pmm_refcounts s) frame_idx 1 else Ok (g_pmm_refcounts s));
    let s := with_refcounts refs (with_bitmap b s) in
    Ok (if was_free && (k_frame_size <=? g_free_memory s)
        then with_free (u64 (g_free_memory s - k_frame_size)) s else s).

(** [__builtin_add_overflow] / [__builtin_mul_overflow] on uint64_t. *)
Definition add_overflow (a b : Z) : bool * Z := (2 ^ 64 <=? a + b, u64 (a + b)).
Definition mul_overflow (a b : Z) : bool * Z := (2 ^ 64 <=? a * b, u64 (a * b)).

Definition get_aligned_usable_range (e : BootMemoryMapEntry) : option (Z * Z) :=
  if length_ e =? 0 then None
  else
    let '(ov, end_) := add_overflow (base e) (length_ e) in
    if ov then None
    else
      let b := Z.land (u64 (base e + 0xFFF)) (u64 (Z.lnot 0xFFF)) in
      let aligned_end := Z.land end_ (u64 (Z.lnot 0xFFF)) in
      if aligned_end <=? b then None else Some (b, u64 (aligned_end - b)).

(** First pass: the end of the highest range the allocator will track. *)
Fixpoint highest_phys (entries : list BootMemoryMapEntry) (acc : Z) : Z :=
  match entries with
  | [] => acc
  | e :: es =>
      if (type e =? BOOT_MEM_USABLE) || (type e =? BOOT_MEM_BOOTLOADER_RECLAIMABLE) then
        let '(ov, end_) := add_overflow (base e) (length_ e) in
        if ov then highest_phys es acc
        else highest_phys es (if acc <? end_ then end_ else acc)
      else highest_phys es acc
  end.

(** Second pass: where the bitmap and the reference counts are placed. *)
Fixpoint find_metadata (entries : list BootMemoryMapEntry) (bitmap_size refcounts_size : Z)
    (bitmap_phys refcounts_phys : option Z) : option Z * option Z :=
  match entries with
  | [] => (bitmap_phys, refcounts_phys)
  | e :: es =>
      if type e =? BOOT_MEM_USABLE then
        match get_aligned_usable_range e with
        | None => find_metadata es bitmap_size refcounts_size bitmap_phys refcounts_phys
        | Some (b, len) =>
            let '(bp, rp) :=
              match bitmap_phys with
              | None =>
                  if bitmap_size <=? len then
                    (Some b,
                     match refcounts_phys with
                     | None =>
                         let '(ov, metadata_size) := add_overflow bitmap_size refcounts_size in
                         if negb ov && (metadata_size <=? len)
                         then Some (u64 (b + bitmap_size)) else None
                     | Some r => Some r
                     end)
                  else
                    (None,
                     match refcounts_phys with
                     | None => if refcounts_size <=? len then Some b else None
                     | Some r => Some r
                     end)
              | Some bp =>
                  (Some bp,
                   match refcounts_phys with
                   | None => if refcounts_size <=? len then Some b else None
                   | Some r => Some r
                   end)
              end in
            match bp, rp with
            | Some _, Some _ => (bp, rp)
            | _, _ => find_metadata es bitmap_size refcounts_size bp rp
            end
        end
      else find_metadata es bitmap_size refcounts_size bitmap_phys refcounts_phys
  end.

(** Third pass: every usable range becomes free frames. *)
Definition free_entry (s : Pmm) (e : BootMemoryMapEntry) : res Pmm :=
  if type e =? BOOT_MEM_USABLE then
    match get_aligned_usable_range e with
    | None => Ok s
    | Some (b, len) =>
        let start_frame := b / k_frame_size in
        let frames0 := len / k_frame_size in
        if start_frame <? g_bitmap_bits s then
          let frames := if g_bitmap_bits s <? u64 (start_frame + frames0)
                        then u64 (g_bitmap_bits s - start_frame) else frames0 in
          bm ← bitmap_set_range (g_pmm_bitmap s) start_frame frames false;
          let last := u64 (start_frame + frames - 1) in
          Ok (mkPmm bm (g_pmm_refcounts s) (g_bitmap_bits s)
                (u64 (g_total_memory s + frames * k_frame_size))
                (u64 (g_free_memory s + frames * k_frame_size))
                (if g_highest_page s <? last then last else g_highest_page s)
                (phys_mem s))
        else Ok s
    end
  else Ok s.

Fixpoint free_entries (s : Pmm) (entries : list BootMemoryMapEntry) : res Pmm :=
  match entries with
  | [] => Ok s
  | e :: es => s' ← free_entry s e; free_entries s' es
  end.

(** Marks a metadata range used and permanently referenced. *)
Definition claim_metadata (s : Pmm) (phys size : Z) : res Pmm :=
  let start_frame := phys / k_frame_size in
  let frame_count := size / k_frame_size in
  bm ← bitmap_set_range (g_pmm_bitmap s) start_frame frame_count true;
  refs ← fill_slots (g_pmm_refcounts s) start_frame frame_count 1;
  Ok (with_free (u64 (g_free_memory s - size)) (with_refcounts refs (with_bitmap bm s))).

Definition pmm_init (memory_map : list BootMemoryMapEntry) (s : Pmm) : res Pmm :=
  if Nat.eqb (length memory_map) 0 then Ok s
  else
    let highest_phys_addr := highest_phys memory_map 0 in
    if UINT64_MAX - 4095 <? highest_phys_addr
    then Panic "pmm: physical memory range is too large"
    else
    let max_frames := (highest_phys_addr + 4095) / 4096 in
    if SIZE_MAX <? max_frames then Panic "pmm: PMM bitmap exceeds addressable size"
    else
    let bitmap_size_raw := u64 (max_frames + 7) / 8 in
    if UINT64_MAX - 4095 <? bitmap_size_raw then Panic "pmm: bitmap size overflow"
    else
    let bitmap_size_bytes := Z.land (u64 (bitmap_size_raw + 4095)) (u64 (Z.lnot 4095)) in
    let '(ov, refcount_raw_bytes) := mul_overflow max_frames 2 in
    if ov || (UINT64_MAX - 4095 <? refcount_raw_bytes) then Panic "pmm: refcount size overflow"
    else
    let refcounts_size_bytes := Z.land (u64 (refcount_raw_bytes + 4095)) (u64 (Z.lnot 4095)) in
    match find_metadata memory_map bitmap_size_bytes refcounts_size_bytes None None with
    | (Some bitmap_phys_addr, Some refcounts_phys_addr) =>
        let buffer := (λ i, phys_mem s (bitmap_phys_addr + Z.of_nat i))
                        <$> seq 0 (Z.to_nat bitmap_size_bytes) in
        bm0 ← bitmap_init buffer max_frames;
        let refs0 := replicate (Z.to_nat max_frames) 0 in
        bm1 ← bitmap_set_range bm0 0 max_frames true;
        s1 ← free_entries (mkPmm bm1 refs0 max_frames 0 0 0 (phys_mem s)) memory_map;
        s2 ← claim_metadata s1 bitmap_phys_addr bitmap_size_bytes;
        s3 ← claim_metadata s2 refcounts_phys_addr refcounts_size_bytes;
        s4 ← reserve_frame_permanently s3 0;
        Ok (if (1 <? g_bitmap_bits s4) && (bitmap_get_hint (g_pmm_bitmap s4) =? 0)
            then with_bitmap (bitmap_update_hint (g_pmm_bitmap s4) 1) s4 else s4)
    | _ => Panic "pmm: failed to find memory for bitmap or refcounts"
    end.

(** The second half of [pmm_alloc_frame]: mark the frame found used, or fail with
    [nullptr], the physical address 0. *)
Definition commit_frame (s1 : Pmm) (frame_idx : Z) : res (Z * Pmm) :=
  if negb (frame_idx =? SIZE_MAX) && (frame_idx <? g_bitmap_bits s1) then
    b ← bitmap_set (g_pmm_bitmap s1) frame_idx true;
    refs ← arr_set (g_pmm_refcounts s1) frame_idx 1;
    let s2 := with_free (u64 (g_free_memory s1 - k_frame_size))
                (with_refcounts refs (with_bitmap b s1)) in
    let phys_ptr := u64 (frame_idx * k_frame_size) in
    Ok (phys_ptr, with_mem (zero_phys (phys_mem s2) phys_ptr k_frame_size) s2)
  else Ok (0, s1).

Definition pmm_alloc_frame (s : Pmm) : res (Z * Pmm) :=
  '(idx0, b0) ← find_first_free (g_pmm_bitmap s) 0;
  let s0 := with_bitmap b0 s in
  '(frame_idx, s1) ←
    (if idx0 =? 0 then
       s' ← reserve_frame_permanently s0 0;
       '(idx1, b1) ← find_first_free (g_pmm_bitmap s') 1;
       Ok (idx1, with_bitmap b1 s')
     else Ok (idx0, s0));
  commit_frame s1 frame_idx.

Definition pmm_alloc_frames (s : Pmm) (count : Z) : res (Z * Pmm) :=
  if (count =? 0) || (SIZE_MAX / k_frame_size <? count) then Ok (0, s)
  else if count =? 1 then pmm_alloc_frame s
  else
    frame_idx ← find_last_free_sequence (g_pmm_bitmap s) count;
    if negb (frame_idx =? SIZE_MAX) && (count <=? u64 (g_bitmap_bits s - frame_idx))
       && (u64 (frame_idx + count - 1) <=? g_highest_page s) then
      b ← bitmap_set_range (g_pmm_bitmap s) frame_idx count true;
      refs ← fill_slots (g_pmm_refcounts s) frame_idx count 1;
      let hint := bitmap_get_hint b in
      let b' := if (frame_idx <=? hint) && (hint <? u64 (frame_idx + count))
                then bitmap_update_hint b (u64 (frame_idx + count)) else b in
      Ok (u64 (frame_idx * k_frame_size),
          with_free (u64 (g_free_memory s - u64 (k_frame_size * count)))
            (with_refcounts refs (with_bitmap b' s)))
    else Ok (0, s).

Definition pmm_refcount_inc (s : Pmm) (frame : Z) : res Pmm :=
  if frame =? 0 then Ok s
  else
    let frame_idx := frame / k_frame_size in
    if frame_idx <? g_bitmap_bits s then
      rc ← arr_get (g_pmm_refcounts s) frame_idx;
      if rc =? UINT16_MAX then Panic "pmm: refcount overflow"
      else
        refs ← arr_set (g_pmm_refcounts s) frame_idx (u16 (rc + 1));
        Ok (with_refcounts refs s)
    else Ok s.

Definition pmm_refcount_dec (s : Pmm) (frame : Z) : res Pmm :=
  if frame =? 0 then Ok s
  else
    let frame_idx := frame / k_frame_size in
    if g_bitmap_bits s <=? frame_idx then Ok s
    else
      rc ← arr_get (g_pmm_refcounts s) frame_idx;
      if rc =? 0 then Ok s
      else
        let rc' := u16 (rc - 1) in
        refs ← arr_set (g_pmm_refcounts s) frame_idx rc';
        let s := with_refcounts refs s in
        if rc' =? 0 then
          b ← bitmap_set (g_pmm_bitmap s) frame_idx false;
          Ok (with_free (u64 (g_free_memory s + k_frame_size))
                (with_bitmap (bitmap_update_hint b frame_idx) s))
        else Ok s.

Definition pmm_get_refcount (s : Pmm) (frame : Z) : res Z :=
  if frame =? 0 then Ok 0
  else
    let frame_idx := frame / k_frame_size in
    if frame_idx <? g_bitmap_bits s then arr_get (g_pmm_refcounts s) frame_idx else Ok 0.

Definition pmm_free_frame (s : Pmm) (frame : Z) : res Pmm := pmm_refcount_dec s frame.

Definition pmm_is_managed (s : Pmm) (frame : Z) : bool :=
  if frame =? 0 then false else frame / k_frame_size <? g_bitmap_bits s.

(** * Specification *)

(** The number of clear bits among [lo, lo + n). *)
Fixpoint clear_count (f : Z → bool) (lo : Z) (n : nat) : Z :=
  match n with
  | O => 0
  | S n' => (if f lo then 0 else 1) + clear_count f (lo + 1) n'
  end.

Definition free_frames (s : Pmm) : Z :=
  clear_count (bit (g_pmm_bitmap s)) 0 (Z.to_nat (g_bitmap_bits s)).

Definition refcount (s : Pmm) (i : Z) : Z := nth (Z.to_nat i) (g_pmm_refcounts s) 0.

(** The allocator's invariant: a referenced frame is marked used, the free-memory
    counter is exactly the number of clear bits, no frame above the highest usable
    page is free or referenced, and the metadata arrays cover every tracked frame. *)
Record pmm_inv (s : Pmm) : Prop := {
  inv_bitmap : bitmap_wf (g_pmm_bitmap s);
  inv_bits : m_size (g_pmm_bitmap s) = g_bitmap_bits s;
  inv_bits_max : g_bitmap_bits s < 2 ^ 52;
  inv_refs_len : Z.of_nat (length (g_pmm_refcounts s)) = g_bitmap_bits s;
  inv_refs : Forall (λ r, 0 <= r < 2 ^ 16) (g_pmm_refcounts s);
  inv_used : ∀ i, 0 <= i < g_bitmap_bits s → 0 < refcount s i → bit (g_pmm_bitmap s) i = true;
  inv_free : g_free_memory s = k_frame_size * free_frames s;
  inv_highest : ∀ i, g_highest_page s < i < g_bitmap_bits s → bit (g_pmm_bitmap s) i = true;
  inv_highest_pos : 0 <= g_highest_page s;
  inv_ref_highest : ∀ i, 0 <= i < g_bitmap_bits s → 0 < refcount s i → i <= g_highest_page s
}.

(** * Lemmas *)

Lemma clear_count_ext f g lo n :
  (∀ i, lo <= i < lo + Z.of_nat n → f i = g i) → clear_count f lo n = clear_count g lo n.
Proof.
  revert lo. induction n as [|n IH]; intros lo H; simpl; [done|].
  rewrite H by lia. f_equal. apply IH. intros i Hi. apply H. lia.
Qed.

Lemma clear_count_app f lo n m :
  clear_count f lo (n + m) = clear_count f lo n + clear_count f (lo + Z.of_nat n) m.
Proof.
  revert lo. induction n as [|n IH]; intros lo; simpl; [by rewrite Z.add_0_r|].
  rewrite IH. replace (lo + 1 + Z.of_nat n) with (lo + Z.of_nat (S n)) by lia. lia.
Qed.

Lemma clear_count_range f lo n : 0 <= clear_count f lo n <= Z.of_nat n.
Proof. revert lo. induction n as [|n IH]; intros lo; simpl; [lia|]. specialize (IH (lo + 1)). case_match; lia. Qed.

Lemma clear_count_const f lo n (v : bool) :
  (∀ i, lo <= i < lo + Z.of_nat n → f i = v) →
  clear_count f lo n = if v then 0 else Z.of_nat n.
Proof.
  revert lo. induction n as [|n IH]; intros lo H; simpl; [by destruct v|].
  rewrite (H lo), IH by (intros; apply H || idtac; lia). destruct v; lia.
Qed.

Lemma clear_count_pos f lo n i :
  lo <= i < lo + Z.of_nat n → f i = false → 0 < clear_count f lo n.
Proof.
  revert lo. induction n as [|n IH]; intros lo Hi Hf; simpl; [lia|].
  destruct (decide (i = lo)) as [->|].
  - rewrite Hf. pose proof (clear_count_range f (lo + 1) n). lia.
  - specialize (IH (lo + 1) ltac:(lia) Hf). case_match; lia.
Qed.

(** Changing a block of [c] bits that all had value [v] to [negb v]. *)
Lemma clear_count_block f g size a c (v : bool) :
  0 <= a → 0 <= c → a + c <= size →
  (∀ i, a <= i < a + c → f i = negb v) →
  (∀ i, 0 <= i < size → g i = if decide (a <= i < a + c) then v else f i) →
  clear_count g 0 (Z.to_nat size) =
    clear_count f 0 (Z.to_nat size) + (if v then - c else c).
Proof.
  intros Ha Hc Hs Hf Hg.
  replace (Z.to_nat size)
    with (Z.to_nat a + (Z.to_nat c + Z.to_nat (size - a - c)))%nat by lia.
  rewrite !clear_count_app, !Z2Nat.id, !Z.add_0_l by lia.
  rewrite (clear_count_ext g f 0 (Z.to_nat a)).
  2: { intros i Hi. rewrite Hg, decide_False by lia. done. }
  rewrite (clear_count_ext g f (a + c) (Z.to_nat (size - a - c))).
  2: { intros i Hi. rewrite Hg, decide_False by lia. done. }
  rewrite (clear_count_const g a (Z.to_nat c) v).
  2: { intros i Hi. rewrite Hg, decide_True by lia. done. }
  rewrite (clear_count_const f a (Z.to_nat c) (negb v)).
  2: { intros i Hi. apply Hf. lia. }
  destruct v; simpl; lia.
Qed.

Lemma fill_slots_spec l start n v (P : Z → Prop) :
  0 <= start → 0 <= n → start + n <= Z.of_nat (length l) → Forall P l → P v →
  ∃ l', fill_slots l start n v = Ok l' ∧ length l' = length l ∧ Forall P l' ∧
    ∀ k, 0 <= k → nth (Z.to_nat k) l' 0 =
      if decide (start <= k < start + n) then v else nth (Z.to_nat k) l 0.
Proof.
  intros Hs Hn Hl HP HPv. unfold fill_slots.
  destruct (for_upto_rule (λ i l', length l' = length l ∧ Forall P l' ∧
      ∀ k, 0 <= k → nth (Z.to_nat k) l' 0 =
        if decide (start <= k < start + i) then v else nth (Z.to_nat k) l 0)
    (λ i l, arr_set l (start + i) v) (Z.to_nat n) 0 l) as (l' & E & Hl' & HP' & Hk).
  - intros i l1 Hi (Hl1 & HP1 & Hk1). rewrite arr_set_in by lia. eexists. split; [done|].
    split; [by rewrite length_insert|]. split; [by apply Forall_insert|]. intros k Hk0.
    destruct (decide (k = start + i)) as [->|Hne].
    + rewrite decide_True, nth_lookup, list_lookup_insert_eq by lia. done.
    + rewrite nth_lookup, list_lookup_insert_ne, <-nth_lookup, Hk1 by lia.
      repeat dec_goal; try done; lia.
  - split; [done|]. split; [done|]. intros k Hk0. by rewrite decide_False by lia.
  - exists l'. split; [done|]. split; [done|]. split; [done|]. intros k Hk0. rewrite Hk by done.
    by replace (0 + Z.of_nat (Z.to_nat n)) with n by lia.
Qed.

Lemma nth_insert_Z l i j v :
  0 <= i < Z.of_nat (length l) → 0 <= j →
  nth (Z.to_nat j) (<[Z.to_nat i := v]> l) 0 = if decide (j = i) then v else nth (Z.to_nat j) l 0.
Proof.
  intros Hi Hj. rewrite !nth_lookup. destruct (decide (j = i)) as [E|E].
  - subst. by rewrite list_lookup_insert_eq by lia.
  - by rewrite list_lookup_insert_ne by lia.
Qed.

Lemma refcount_range s i : pmm_inv s → 0 <= refcount s i < 2 ^ 16.
Proof.
  intros [_ _ _ _ H _ _ _ _ _]. unfold refcount.
  destruct (decide (Z.to_nat i < length (g_pmm_refcounts s))%nat) as [Hl|Hl].
  - exact (proj1 (Forall_nth _ 0 _) H _ Hl).
  - rewrite nth_overflow; lia.
Qed.

Lemma free_frames_range s : pmm_inv s → 0 <= free_frames s <= g_bitmap_bits s.
Proof.
  intros [[Hs _ _ _] Hb _ _ _ _ _ _ _ _]. unfold free_frames.
  pose proof (clear_count_range (bit (g_pmm_bitmap s)) 0 (Z.to_nat (g_bitmap_bits s))). lia.
Qed.

Lemma free_frames_pos s i :
  pmm_inv s → 0 <= i < g_bitmap_bits s → bit (g_pmm_bitmap s) i = false → 0 < free_frames s.
Proof. intros Hinv Hi Hb. apply (clear_count_pos _ _ _ i); [lia|done]. Qed.

(** The effect of marking the block [a, a + c) of free frames used, with reference
    count 1; [b'] and [refs'] are the updated arrays. *)
Lemma pmm_inv_take s b' refs' a c m :
  pmm_inv s → 0 <= a → 0 <= c → a + c <= g_bitmap_bits s →
  (∀ i, a <= i < a + c → bit (g_pmm_bitmap s) i = false) →
  bitmap_wf b' → m_size b' = g_bitmap_bits s →
  (∀ i, 0 <= i → bit b' i = if decide (a <= i < a + c) then true else bit (g_pmm_bitmap s) i) →
  length refs' = length (g_pmm_refcounts s) → Forall (λ r, 0 <= r < 2 ^ 16) refs' →
  (∀ k, 0 <= k → nth (Z.to_nat k) refs' 0 =
     if decide (a <= k < a + c) then 1 else nth (Z.to_nat k) (g_pmm_refcounts s) 0) →
  pmm_inv (with_mem m (with_free (u64 (g_free_memory s - u64 (k_frame_size * c)))
             (with_refcounts refs' (with_bitmap b' s)))).
Proof.
  intros Hinv Ha Hc Hac Hfree Hwf Hsz Hbit Hlen HF Hrefs.
  pose proof (free_frames_range _ Hinv) as Hff. pose proof Hinv as [].
  assert (Hcnt : clear_count (bit b') 0 (Z.to_nat (g_bitmap_bits s)) = free_frames s - c).
  { rewrite (clear_count_block (bit (g_pmm_bitmap s)) (bit b') (g_bitmap_bits s) a c true);
      [unfold free_frames; lia|lia|lia|lia|by intros; apply Hfree|by intros; apply Hbit; lia]. }
  pose proof (clear_count_range (bit b') 0 (Z.to_nat (g_bitmap_bits s))).
  split; simpl; try done; try lia.
  - intros i Hi. unfold refcount. simpl. rewrite Hrefs, Hbit by lia.
    dec_goal; [done|]. by apply inv_used0.
  - unfold free_frames. simpl. rewrite Hcnt, inv_free0. unfold k_frame_size. wrap_small. lia.
  - intros i Hi. rewrite Hbit by lia. dec_goal; [done|]. apply inv_highest0. lia.
  - intros i Hi. unfold refcount. simpl. rewrite Hrefs by lia.
    dec_goal; [|by apply inv_ref_highest0]. intros _.
    destruct (decide (g_highest_page s < i)); [|lia].
    specialize (Hfree i). rewrite inv_highest0 in Hfree by lia. discriminate Hfree. lia.
Qed.

Lemma pmm_inv_bitmap s b' :
  pmm_inv s → bitmap_wf b' → m_buffer b' = m_buffer (g_pmm_bitmap s) →
  m_size b' = m_size (g_pmm_bitmap s) → pmm_inv (with_bitmap b' s).
Proof.
  intros [] Hwf Hbuf Hsz.
  assert (Hb : ∀ i, bit b' i = bit (g_pmm_bitmap s) i) by (intros; unfold bit; by rewrite Hbuf).
  split; simpl; try done; try congruence.
  - intros i Hi Hr. rewrite Hb. by apply inv_used0.
  - rewrite inv_free0. unfold free_frames. simpl. f_equal. apply clear_count_ext. by intros.
  - intros i Hi. rewrite Hb. by apply inv_highest0.
Qed.

(** Reserving a frame keeps the invariant and every other frame. *)
Lemma reserve_frame_spec s i :
  pmm_inv s → 0 <= i < g_bitmap_bits s → i <= g_highest_page s →
  ∃ s', reserve_frame_permanently s i = Ok s' ∧ pmm_inv s' ∧
    g_bitmap_bits s' = g_bitmap_bits s ∧ g_highest_page s' = g_highest_page s ∧
    g_total_memory s' = g_total_memory s ∧ phys_mem s' = phys_mem s ∧
    m_next_free_hint (g_pmm_bitmap s') = m_next_free_hint (g_pmm_bitmap s) ∧
    (∀ j, 0 <= j → bit (g_pmm_bitmap s') j = if decide (j = i) then true else bit (g_pmm_bitmap s) j) ∧
    (∀ j, 0 <= j → refcount s' j = if decide (j = i) then Z.max 1 (refcount s i) else refcount s j).
Proof.
  intros Hinv Hi Hhi. pose proof (free_frames_range _ Hinv) as Hff.
  pose proof (refcount_range _ i Hinv) as Hrc. pose proof Hinv as [].
  unfold reserve_frame_permanently. destruct (Z.leb_spec (g_bitmap_bits s) i); [lia|].
  rewrite bitmap_get_spec by (done || lia). simpl. destruct (Z.ltb_spec i (m_size (g_pmm_bitmap s))); [|lia].
  destruct (bitmap_set_spec (g_pmm_bitmap s) i true) as (b' & -> & Hwf & Hsz & Hh & Hbit); [done|lia|].
  simpl. rewrite (arr_get_in _ _ 0) by lia. simpl. fold (refcount s i).
  assert (Hbit' : ∀ j, 0 <= j → bit b' j = if decide (j = i) then true else bit (g_pmm_bitmap s) j).
  { intros j Hj. rewrite Hbit by done. repeat dec_goal; try done; lia. }
  destruct (bit (g_pmm_bitmap s) i) eqn:Hb0; simpl.
  - (* already used: at most the reference count changes *)
    assert (Hext : ∀ j, 0 <= j → bit b' j = bit (g_pmm_bitmap s) j).
    { intros j Hj. rewrite Hbit' by done. dec_goal; [subst; by rewrite Hb0|done]. }
    assert (Hr : ∃ refs, (if refcount s i =? 0 then arr_set (g_pmm_refcounts s) i 1
        else Ok (g_pmm_refcounts s)) = Ok refs ∧ length refs = length (g_pmm_refcounts s) ∧
        Forall (λ r, 0 <= r < 2 ^ 16) refs ∧
        ∀ j, 0 <= j → nth (Z.to_nat j) refs 0 =
          if decide (j = i) then Z.max 1 (refcount s i) else refcount s j).
    { destruct (Z.eqb_spec (refcount s i) 0) as [E|E].
      - rewrite arr_set_in by lia. eexists. split; [done|]. split; [by rewrite length_insert|].
        split; [by apply Forall_insert|]. intros j Hj. rewrite nth_insert_Z by lia.
        dec_goal; [lia|done].
      - eexists. split; [done|]. split; [done|]. split; [done|]. intros j Hj.
        dec_goal; [subst; unfold refcount in *; lia|done]. }
    destruct Hr as (refs & -> & Hlen & HF & Href). simpl. eexists. split; [done|].
    split; [|do 5 (split; [done|]); split; [done|]; done].
    split; simpl; try done; try lia.
    + intros j Hj Hr. rewrite Hbit' by lia. dec_goal; [done|].
      apply inv_used0; [done|]. unfold refcount in Hr at 1. simpl in Hr.
      rewrite Href, decide_False in Hr by lia. done.
    + rewrite inv_free0. unfold free_frames. simpl. f_equal. apply clear_count_ext.
      intros j Hj. symmetry. apply Hext. lia.
    + intros j Hj. rewrite Hext by lia. by apply inv_highest0.
    + intros j Hj. unfold refcount at 1. simpl. rewrite Href by lia.
      dec_goal; [lia|]. by apply inv_ref_highest0.
  - (* was free: taken with count 1 *)
    assert (Hr0 : refcount s i = 0).
    { destruct (decide (0 < refcount s i)) as [Hp|]; [|lia].
      rewrite inv_used0 in Hb0; [done|lia|done]. }
    rewrite Hr0. simpl. rewrite arr_set_in by lia. simpl.
    pose proof (free_frames_pos s i Hinv Hi Hb0) as Hpos.
    destruct (Z.leb_spec k_frame_size (g_free_memory s)); [|unfold k_frame_size in *; lia].
    assert (Hinv' := pmm_inv_take s b' (<[Z.to_nat i:=1]> (g_pmm_refcounts s)) i 1 (phys_mem s)).
    replace (u64 (k_frame_size * 1)) with k_frame_size in Hinv' by done.
    eexists. split; [done|]. split.
    { apply Hinv'; try done; try lia.
      - intros j Hj. by replace j with i by lia.
      - intros j Hj. rewrite Hbit' by done. repeat dec_goal; try done; lia.
      - by rewrite length_insert.
      - by apply Forall_insert.
      - intros j Hj. rewrite nth_insert_Z by lia. repeat dec_goal; try done; lia. }
    do 5 (split; [done|]). split; [done|]. intros j Hj.
    unfold refcount at 1. simpl. rewrite nth_insert_Z by lia. dec_goal; [lia|done].
Qed.

(** [s'] differs from [s] in frame [i], now used once and zeroed, and possibly in
    frame 0. *)
Definition took_frame (s s' : Pmm) (i : Z) : Prop :=
  refcount s' i = 1 ∧ bit (g_pmm_bitmap s') i = true ∧
  (∀ j, 0 < j → j ≠ i → bit (g_pmm_bitmap s') j = bit (g_pmm_bitmap s) j ∧
                        refcount s' j = refcount s j) ∧
  (∀ a, phys_mem s' a =
     if decide (i * k_frame_size <= a < i * k_frame_size + k_frame_size) then 0 else phys_mem s a) ∧
  (bit (g_pmm_bitmap s) 0 = true → bit (g_pmm_bitmap s') 0 = true).

Lemma commit_frame_spec s i :
  pmm_inv s → 0 <= i < g_bitmap_bits s → bit (g_pmm_bitmap s) i = false →
  ∃ s', commit_frame s i = Ok (i * k_frame_size, s') ∧ pmm_inv s' ∧ took_frame s s' i ∧
    g_bitmap_bits s' = g_bitmap_bits s ∧ g_highest_page s' = g_highest_page s.
Proof.
  intros Hinv Hi Hb0. pose proof Hinv as []. unfold commit_frame.
  destruct (Z.eqb_spec i SIZE_MAX); [unfold SIZE_MAX in *; lia|].
  destruct (Z.ltb_spec i (g_bitmap_bits s)); [|lia]. simpl.
  destruct (bitmap_set_spec (g_pmm_bitmap s) i true) as (b & -> & Hwf & Hsz & Hh & Hbit); [done|lia|].
  simpl. rewrite arr_set_in by lia. simpl.
  assert (Hbit' : ∀ j, 0 <= j → bit b j = if decide (j = i) then true else bit (g_pmm_bitmap s) j).
  { intros j Hj. rewrite Hbit by done. repeat dec_goal; try done; lia. }
  clear Hbit.
  assert (Hp : u64 (i * k_frame_size) = i * k_frame_size)
    by (apply u64_small; unfold k_frame_size; lia).
  rewrite Hp. eexists. split; [done|]. split; [|split; [|done]].
  - assert (Hinv' := pmm_inv_take s b (<[Z.to_nat i:=1]> (g_pmm_refcounts s)) i 1
      (zero_phys (phys_mem s) (i * k_frame_size) k_frame_size)).
    replace (u64 (k_frame_size * 1)) with k_frame_size in Hinv' by done.
    apply Hinv'; try done; try lia.
    + intros j Hj. by replace j with i by lia.
    + intros j Hj. rewrite Hbit' by done. repeat dec_goal; try done; lia.
    + by rewrite length_insert.
    + by apply Forall_insert.
    + intros j Hj. rewrite nth_insert_Z by lia. repeat dec_goal; try done; lia.
  - unfold took_frame, refcount. simpl. rewrite nth_insert_Z, Hbit', !decide_True by lia.
    do 2 (split; [done|]). split; [|split].
    + intros j Hj Hne. by rewrite nth_insert_Z, Hbit', !decide_False by lia.
    + intros a. unfold zero_phys.
      destruct (Z.leb_spec (i * k_frame_size) a), (Z.ltb_spec a (i * k_frame_size + k_frame_size));
        simpl; dec_goal; try done; lia.
    + rewrite Hbit' by done. by dec_goal.
Qed.

Lemma commit_frame_none s : commit_frame s SIZE_MAX = Ok (0, s).
Proof. done. Qed.

Lemma pmm_alloc_frame_spec s :
  pmm_inv s → 0 < g_bitmap_bits s →
  ∃ p s', pmm_alloc_frame s = Ok (p, s') ∧ pmm_inv s' ∧
    g_bitmap_bits s' = g_bitmap_bits s ∧ g_highest_page s' = g_highest_page s ∧
    ((p = 0 ∧ (∀ i, 0 < i < g_bitmap_bits s → bit (g_pmm_bitmap s) i = true) ∧
      phys_mem s' = phys_mem s ∧ (∀ i, 0 < i → refcount s' i = refcount s i) ∧
      (bit (g_pmm_bitmap s) 0 = true → bit (g_pmm_bitmap s') 0 = true)) ∨
     ∃ i, 0 < i < g_bitmap_bits s ∧ p = i * k_frame_size ∧
       bit (g_pmm_bitmap s) i = false ∧ took_frame s s' i).
Proof.
  intros Hinv Hpos. pose proof Hinv as []. unfold pmm_alloc_frame.
  destruct (find_first_free_spec (g_pmm_bitmap s) 0) as (r & b0 & -> & Hwf0 & Hbuf0 & Hsz0 & Hr);
    [done|lia|]. simpl.
  assert (Hb0 : ∀ j, bit b0 j = bit (g_pmm_bitmap s) j) by (intros; unfold bit; by rewrite Hbuf0).
  assert (Hinv0 : pmm_inv (with_bitmap b0 s)) by (by apply pmm_inv_bitmap).
  destruct Hr as [(-> & -> & Hall)|(Hr & Hbr & _)].
  { simpl. do 2 eexists. split; [done|]. split; [done|]. do 2 (split; [done|]). left.
    split; [done|]. split; [|split; [done|split; [done|done]]]. intros i Hi. apply Hall. lia. }
  destruct (Z.eqb_spec r 0) as [->|Hr0]; simpl.
  - (* frame 0 is free: reserve it and search again *)
    destruct (reserve_frame_spec (with_bitmap b0 s) 0)
      as (s1 & -> & Hinv1 & Hbits1 & Hhi1 & _ & Hmem1 & _ & Hbit1 & Href1); [done|simpl; lia|done|].
    simpl in *. pose proof Hinv1 as [Hwf1 Hsz1 _ _ _ _ _ _ _ _].
    destruct (find_first_free_spec (g_pmm_bitmap s1) 1) as (r1 & b1 & -> & Hwf2 & Hbuf1 & Hsz2 & Hr1);
      [done|lia|]. simpl.
    assert (Hb1 : ∀ j, bit b1 j = bit (g_pmm_bitmap s1) j)
      by (intros; unfold bit; by rewrite Hbuf1).
    assert (Hinv2 : pmm_inv (with_bitmap b1 s1)) by (by apply pmm_inv_bitmap).
    assert (Hsame : ∀ j, 0 < j → bit b1 j = bit (g_pmm_bitmap s) j ∧ refcount s1 j = refcount s j).
    { intros j Hj. by rewrite Hb1, Hbit1, Href1, !decide_False, Hb0 by lia. }
    destruct Hr1 as [(-> & -> & Hall)|(Hr1 & Hbr1 & _)].
    + rewrite commit_frame_none. do 2 eexists. split; [done|]. split; [done|].
      do 2 (split; [done|]). left. split; [done|]. split; [|split; [done|split; [intros i Hi; by apply Hsame|intros _; simpl; by rewrite Hbit1, decide_True by lia]]]. intros i Hi.
      destruct (Hsame i) as [<- _]; [lia|]. apply Hall. lia.
    + assert (r1 ≠ 0). { intros ->. by rewrite Hbit1 in Hbr1 by lia. }
      destruct (commit_frame_spec (with_bitmap b1 s1) r1)
        as (s' & -> & Hinv' & (H1 & H2 & H3 & H4 & H5) & Hbits' & Hhi'); [done|simpl; lia|simpl; by rewrite Hb1|].
      simpl in *. do 2 eexists. split; [done|]. split; [done|]. do 2 (split; [congruence|]). right.
      exists r1. split; [lia|]. split; [done|].
      split; [destruct (Hsame r1) as [<- _]; [lia|by rewrite Hb1]|].
      split; [done|]. split; [done|]. split; [|split; [by rewrite Hmem1 in H4|intros Hz; by rewrite <-Hb0, Hbr in Hz || congruence]].
      intros j Hj Hne. destruct (H3 j Hj Hne) as [-> E]. unfold refcount at 2 in E. simpl in E.
      fold (refcount s1 j) in E. rewrite E. by apply Hsame.
  - destruct (commit_frame_spec (with_bitmap b0 s) r)
      as (s' & -> & Hinv' & (H1 & H2 & H3 & H4 & H5) & Hbits' & Hhi'); [done|simpl; lia|simpl; by rewrite Hb0|].
    simpl in *. do 2 eexists. split; [done|]. split; [done|]. do 2 (split; [congruence|]). right.
    exists r. split; [lia|]. split; [done|]. split; [done|].
    split; [done|]. split; [done|]. split; [|split; [done|intros Hz; apply H5; by rewrite Hb0]].
    intros j Hj Hne. destruct (H3 j Hj Hne) as [-> ->]. by rewrite Hb0.
Qed.

(** Contiguous allocation is exact: it fails only when no window of [count] free
    frames exists, and otherwise takes the highest such window. *)
Lemma pmm_alloc_frames_spec s count :
  pmm_inv s → 1 < count < 2 ^ 52 →
  ∃ p s', pmm_alloc_frames s count = Ok (p, s') ∧ pmm_inv s' ∧
    g_bitmap_bits s' = g_bitmap_bits s ∧ phys_mem s' = phys_mem s ∧
    ((p = 0 ∧ s' = s ∧ ∀ i, ¬ fits (g_pmm_bitmap s) count i) ∨
     ∃ i, last_fit (g_pmm_bitmap s) count i ∧ p = i * k_frame_size ∧
       ∀ j, 0 <= j →
         (bit (g_pmm_bitmap s') j = if decide (i <= j < i + count) then true
                                    else bit (g_pmm_bitmap s) j) ∧
         (refcount s' j = if decide (i <= j < i + count) then 1 else refcount s j)).
Proof.
  intros Hinv Hc. pose proof Hinv as []. pose proof (wf_size _ inv_bitmap0). unfold pmm_alloc_frames.
  assert (Hmax : SIZE_MAX / k_frame_size = 2 ^ 52 - 1) by done. rewrite Hmax.
  destruct (Z.eqb_spec count 0), (Z.ltb_spec (2 ^ 52 - 1) count), (Z.eqb_spec count 1);
    try lia; simpl.
  destruct (find_last_free_sequence_spec (g_pmm_bitmap s) count) as (i & -> & Hi); [done|lia|]. simpl.
  destruct Hi as [[-> Hno]|Hfit].
  { simpl. do 2 eexists. split; [done|]. split; [done|]. do 2 (split; [done|]). by left. }
  pose proof Hfit as [(Hi0 & Hi1 & Hfree) Hlast].
  assert (Hhi : i + count - 1 <= g_highest_page s).
  { destruct (decide (g_highest_page s < i + count - 1)); [|lia].
    specialize (Hfree (i + count - 1)). rewrite inv_highest0 in Hfree by lia.
    discriminate Hfree. lia. }
  destruct (Z.eqb_spec i SIZE_MAX); [unfold SIZE_MAX in *; lia|].
  rewrite (u64_small (g_bitmap_bits s - i)), (u64_small (i + count - 1)) by lia.
  destruct (Z.leb_spec count (g_bitmap_bits s - i)); [|lia].
  destruct (Z.leb_spec (i + count - 1) (g_highest_page s)); [|lia]. simpl.
  destruct (bitmap_set_range_spec (g_pmm_bitmap s) i count true)
    as (b & -> & Hwf & Hsz & Hh & Hbit); [done|lia|lia|]. simpl.
  destruct (fill_slots_spec (g_pmm_refcounts s) i count 1 (λ r, 0 <= r < 2 ^ 16))
    as (refs & -> & Hlen & HF & Href); [lia|lia|lia|done|lia|]. simpl.
  set (b' := if _ && _ then _ else b).
  assert (Hb' : bitmap_wf b' ∧ m_size b' = m_size b ∧ m_buffer b' = m_buffer b).
  { subst b'. pose proof (wf_hint _ Hwf). destruct (_ && _); [|done].
    split; [|done]. apply bitmap_update_hint_wf; [done|]. apply u64_range. }
  clearbody b'. destruct Hb' as (Hwf' & Hsz' & Hbuf').
  assert (Hbit' : ∀ j, 0 <= j → bit b' j =
    if decide (i <= j < i + count) then true else bit (g_pmm_bitmap s) j).
  { intros j Hj. unfold bit at 1. rewrite Hbuf'. fold (bit b j). rewrite Hbit by done.
    by replace (Z.min (i + count) (m_size (g_pmm_bitmap s))) with (i + count) by lia. }
  rewrite (u64_small (i * k_frame_size)) by (unfold k_frame_size; lia).
  do 2 eexists. split; [done|]. split.
  { apply (pmm_inv_take s b' refs i count (phys_mem s)); try done; lia. }
  do 2 (split; [done|]). right. exists i. split; [done|]. split; [done|].
  intros j Hj. simpl. split; [by apply Hbit'|]. by apply Href.
Qed.

Lemma pmm_refcount_inc_spec s frame :
  pmm_inv s → 0 < frame → 0 < refcount s (frame / k_frame_size) →
  frame / k_frame_size < g_bitmap_bits s →
  (refcount s (frame / k_frame_size) = UINT16_MAX ∧
     pmm_refcount_inc s frame = Panic "pmm: refcount overflow") ∨
  ∃ s', pmm_refcount_inc s frame = Ok s' ∧ pmm_inv s' ∧
    g_pmm_bitmap s' = g_pmm_bitmap s ∧ g_bitmap_bits s' = g_bitmap_bits s ∧
    g_free_memory s' = g_free_memory s ∧
    ∀ j, 0 <= j → refcount s' j = if decide (j = frame / k_frame_size) then refcount s j + 1 else refcount s j.
Proof.
  intros Hinv Hf Hrc Hlt. pose proof (refcount_range s (frame / k_frame_size) Hinv) as Hrr.
  pose proof Hinv as []. unfold pmm_refcount_inc.
  assert (0 <= frame / k_frame_size) by (unfold k_frame_size; lia).
  set (i := frame / k_frame_size) in *. clearbody i.
  destruct (Z.eqb_spec frame 0); [lia|]. destruct (Z.ltb_spec i (g_bitmap_bits s)); [|lia].
  rewrite (arr_get_in _ _ 0) by lia. simpl. fold (refcount s i).
  destruct (Z.eqb_spec (refcount s i) UINT16_MAX); [by left|right].
  rewrite arr_set_in by lia. simpl. unfold UINT16_MAX in *. rewrite u16_small by lia.
  eexists. split; [done|].
  assert (Href : ∀ j, 0 <= j → refcount (with_refcounts
    (<[Z.to_nat i:=refcount s i + 1]> (g_pmm_refcounts s)) s) j =
    if decide (j = i) then refcount s j + 1 else refcount s j).
  { intros j Hj. unfold refcount at 1. simpl. rewrite nth_insert_Z by lia.
    dec_goal; [by subst|done]. }
  split; [|done]. split; simpl; try done.
  - by rewrite length_insert.
  - apply Forall_insert; [done|lia].
  - intros j Hj. rewrite Href by lia. dec_goal; [subst|]; intros; apply inv_used0; done || lia.
  - intros j Hj. rewrite Href by lia. dec_goal; [subst|]; intros; apply inv_ref_highest0; done || lia.
Qed.

Lemma pmm_refcount_dec_spec s frame :
  pmm_inv s → 0 <= frame →
  ∃ s', pmm_refcount_dec s frame = Ok s' ∧ pmm_inv s' ∧
    g_bitmap_bits s' = g_bitmap_bits s ∧ phys_mem s' = phys_mem s ∧
    let i := frame / k_frame_size in
    if decide (frame = 0 ∨ g_bitmap_bits s <= i ∨ refcount s i = 0) then s' = s
    else
      (∀ j, 0 <= j → refcount s' j = if decide (j = i) then refcount s i - 1 else refcount s j) ∧
      (∀ j, 0 <= j → bit (g_pmm_bitmap s') j =
         if decide (j = i ∧ refcount s i = 1) then false else bit (g_pmm_bitmap s) j) ∧
      g_free_memory s' =
        g_free_memory s + (if decide (refcount s i = 1) then k_frame_size else 0).
Proof.
  intros Hinv Hf. pose proof (refcount_range s (frame / k_frame_size) Hinv) as Hrr.
  pose proof (free_frames_range s Hinv) as Hff.
  pose proof Hinv as []. unfold pmm_refcount_dec.
  assert (0 <= frame / k_frame_size) by (unfold k_frame_size; lia). simpl.
  set (i := frame / k_frame_size) in *. clearbody i.
  destruct (Z.eqb_spec frame 0); [exists s; by rewrite decide_True by lia|].
  destruct (Z.leb_spec (g_bitmap_bits s) i); [exists s; by rewrite decide_True by lia|].
  rewrite (arr_get_in _ _ 0) by lia. simpl. fold (refcount s i).
  destruct (Z.eqb_spec (refcount s i) 0); [exists s; by rewrite decide_True by lia|].
  rewrite u16_small, arr_set_in by lia. simpl.
  assert (Hused : bit (g_pmm_bitmap s) i = true) by (apply inv_used0; lia).
  set (refs := <[Z.to_nat i:=refcount s i - 1]> (g_pmm_refcounts s)).
  assert (Hlen : length refs = length (g_pmm_refcounts s)) by (by unfold refs; rewrite length_insert).
  assert (HF : Forall (λ r, 0 <= r < 2 ^ 16) refs) by (apply Forall_insert; [done|lia]).
  assert (Href : ∀ j, 0 <= j → nth (Z.to_nat j) refs 0 =
    if decide (j = i) then refcount s i - 1 else refcount s j).
  { intros j Hj. unfold refs. by rewrite nth_insert_Z by lia. }
  clearbody refs. destruct (Z.eqb_spec (refcount s i - 1) 0) as [E|E].
  - destruct (bitmap_set_spec (g_pmm_bitmap s) i false) as (b & -> & Hwf & Hsz & Hh & Hbit); [done|lia|].
    simpl.
    assert (Hbit' : ∀ j, 0 <= j → bit b j = if decide (j = i) then false else bit (g_pmm_bitmap s) j).
    { intros j Hj. rewrite Hbit by done. repeat dec_goal; try done; lia. }
    clear Hbit.
    assert (Hcnt : clear_count (bit b) 0 (Z.to_nat (g_bitmap_bits s)) = free_frames s + 1).
    { rewrite (clear_count_block (bit (g_pmm_bitmap s)) (bit b) (g_bitmap_bits s) i 1 false);
        [done|lia|lia|lia| |].
      - intros j Hj. by replace j with i by lia.
      - intros j Hj. rewrite Hbit' by lia. repeat dec_goal; try done; lia. }
    pose proof (clear_count_range (bit b) 0 (Z.to_nat (g_bitmap_bits s))).
    assert (Hfm : u64 (g_free_memory s + k_frame_size) = g_free_memory s + k_frame_size)
      by (rewrite inv_free0; unfold k_frame_size; apply u64_small; lia).
    rewrite Hfm. eexists. split; [done|]. rewrite decide_False by lia.
    split; [|split; [done|split; [done|]]].
    + assert (Hne : ∀ j, bit (bitmap_update_hint b i) j = bit b j) by done.
      split; simpl; try done; try lia.
      * apply bitmap_update_hint_wf; [done|lia].
      * intros j Hj Hr. rewrite Hne, Hbit' by lia. unfold refcount in Hr at 1. simpl in Hr.
        rewrite Href in Hr by lia. revert Hr. dec_goal; [lia|]. intros. by apply inv_used0.
      * rewrite inv_free0. unfold free_frames at 2. simpl.
        rewrite (clear_count_ext _ (bit b)) by done. unfold free_frames in Hcnt. rewrite Hcnt.
        unfold free_frames, k_frame_size. lia.
      * intros j Hj. rewrite Hne, Hbit' by lia. dec_goal; [|apply inv_highest0; lia].
        subst. specialize (inv_ref_highest0 i). lia.
      * intros j Hj. unfold refcount at 1. simpl. rewrite Href by lia.
        dec_goal; [lia|]. by apply inv_ref_highest0.
    + split; [done|]. split; [|by rewrite decide_True by lia].
      intros j Hj. simpl. unfold bit at 1. simpl. fold (bit b j). rewrite Hbit' by done.
      repeat dec_goal; try done; lia.
  - eexists. split; [done|]. rewrite decide_False by lia.
    split; [|split; [done|split; [done|]]].
    + split; simpl; try done; try lia.
      * intros j Hj Hr. unfold refcount in Hr at 1. simpl in Hr. rewrite Href in Hr by lia.
        destruct (decide (j = i)); [by subst|by apply inv_used0].
      * intros j Hj. unfold refcount at 1. simpl. rewrite Href by lia.
        dec_goal; [subst|]; intros; apply inv_ref_highest0; done || lia.
    + split; [done|]. split; [|rewrite decide_False by lia; simpl; lia].
      intros j Hj. rewrite decide_False by lia. done.
Qed.

(** ** Boot-time construction *)

(** The page-aligned part of a usable entry. *)
Definition usable_range (e : BootMemoryMapEntry) (b len : Z) : Prop :=
  type e = BOOT_MEM_USABLE ∧ get_aligned_usable_range e = Some (b, len).

(** Frame [i] lies in a usable entry of the map. *)
Definition usable_frame (m : list BootMemoryMapEntry) (i : Z) : Prop :=
  ∃ e b len, e ∈ m ∧ usable_range e b len ∧ b <= i * k_frame_size < b + len.

Definition entries_apart (e1 e2 : BootMemoryMapEntry) : Prop :=
  type e1 = BOOT_MEM_USABLE → type e2 = BOOT_MEM_USABLE →
  base e1 + length_ e1 <= base e2 ∨ base e2 + length_ e2 <= base e1.

(** What the firmware guarantees of the map: 64-bit fields, and usable ranges that
    do not overlap. *)
Record memory_map_ok (m : list BootMemoryMapEntry) : Prop := {
  map_words : Forall (λ e, 0 <= base e < 2 ^ 64 ∧ 0 <= length_ e < 2 ^ 64) m;
  map_apart : ForallOrdPairs entries_apart m
}.

(** Entries small enough for the aligned range to be computed without wrapping. *)
Definition entry_ok (top : Z) (e : BootMemoryMapEntry) : Prop :=
  0 <= base e < 2 ^ 64 ∧ 0 <= length_ e < 2 ^ 64 ∧
  (type e = BOOT_MEM_USABLE → base e + length_ e < 2 ^ 64 → base e + length_ e <= top).

Lemma usable_range_bounds top e b len :
  entry_ok top e → top <= 2 ^ 64 - 4096 → usable_range e b len →
  base e <= b ∧ b + len <= base e + length_ e ∧ b + len <= top ∧ 0 < len ∧
  b mod 4096 = 0 ∧ len mod 4096 = 0.
Proof.
  intros (Hb & Hl & Htop) Ht (Hty & Hr). unfold get_aligned_usable_range, add_overflow in Hr.
  destruct (Z.eqb_spec (length_ e) 0); [done|].
  destruct (Z.leb_spec (2 ^ 64) (base e + length_ e)); [done|].
  specialize (Htop Hty ltac:(lia)).
  rewrite !(u64_small (base e + _)), !land_not_fff in Hr by lia.
  case_match eqn:Hle; [done|]. apply Z.leb_gt in Hle.
  rewrite u64_small in Hr by lia. simplify_eq. lia.
Qed.

Lemma highest_phys_spec m acc :
  Forall (λ e, 0 <= base e < 2 ^ 64 ∧ 0 <= length_ e < 2 ^ 64) m → 0 <= acc < 2 ^ 64 →
  acc <= highest_phys m acc < 2 ^ 64 ∧ Forall (entry_ok (highest_phys m acc)) m.
Proof.
  intros HF. revert acc. induction HF as [|e m (He1 & He2) HF IH]; intros acc Hacc; simpl; [split; [lia|constructor]|].
  assert (Hw : ∀ acc', acc <= acc' < 2 ^ 64 →
    (type e = BOOT_MEM_USABLE → base e + length_ e < 2 ^ 64 → base e + length_ e <= acc') →
    acc <= highest_phys m acc' < 2 ^ 64 ∧ Forall (entry_ok (highest_phys m acc')) (e :: m)).
  { intros acc' Ha Hb. destruct (IH acc') as [H1 H2]; [lia|]. split; [lia|].
    constructor; [|done]. split; [done|]. split; [done|]. intros. specialize (Hb ltac:(done)). lia. }
  unfold add_overflow.
  destruct (Z.eqb_spec (type e) BOOT_MEM_USABLE) as [Et|Et]; simpl.
  - destruct (Z.leb_spec (2 ^ 64) (base e + length_ e)); [apply Hw; lia|].
    rewrite u64_small by lia. apply Hw; case_match; lia.
  - destruct (type e =? BOOT_MEM_BOOTLOADER_RECLAIMABLE); [|apply Hw; [lia|done]].
    destruct (Z.leb_spec (2 ^ 64) (base e + length_ e)); [apply Hw; [lia|done]|].
    rewrite u64_small by lia. apply Hw; [case_match; lia|done].
Qed.

(** During the third pass: the free frames are exactly [F], nothing is referenced. *)
Record building (F : Z → Prop) (s : Pmm) : Prop := {
  bld_wf : bitmap_wf (g_pmm_bitmap s);
  bld_hint : m_next_free_hint (g_pmm_bitmap s) = 0;
  bld_bits : m_size (g_pmm_bitmap s) = g_bitmap_bits s;
  bld_max : g_bitmap_bits s < 2 ^ 52;
  bld_refs : g_pmm_refcounts s = replicate (Z.to_nat (g_bitmap_bits s)) 0;
  bld_free : g_free_memory s = k_frame_size * free_frames s;
  bld_total : g_total_memory s = g_free_memory s;
  bld_F : ∀ i, 0 <= i < g_bitmap_bits s → bit (g_pmm_bitmap s) i = false ↔ F i;
  bld_highest : ∀ i, g_highest_page s < i < g_bitmap_bits s → bit (g_pmm_bitmap s) i = true;
  bld_pos : 0 <= g_highest_page s
}.

Lemma building_inv F s : building F s → pmm_inv s.
Proof.
  intros []. pose proof (wf_size _ bld_wf0).
  assert (Hr0 : ∀ i, refcount s i = 0).
  { intros i. unfold refcount. rewrite bld_refs0, nth_lookup.
    destruct (replicate _ 0 !! Z.to_nat i) eqn:E; [|done].
    by apply lookup_replicate in E as [-> _]. }
  split; try done.
  - rewrite bld_refs0, length_replicate. lia.
  - rewrite bld_refs0. by apply Forall_replicate.
  - intros i _. rewrite Hr0. lia.
  - intros i _. rewrite Hr0. lia.
Qed.

Lemma free_entry_spec F s e :
  building F s → entry_ok (g_bitmap_bits s * 4096) e → g_bitmap_bits s * 4096 <= 2 ^ 64 - 4096 →
  (∀ b len i, usable_range e b len → b <= i * k_frame_size < b + len → ¬ F i) →
  ∃ s', free_entry s e = Ok s' ∧ g_bitmap_bits s' = g_bitmap_bits s ∧ phys_mem s' = phys_mem s ∧
    building (λ i, F i ∨ usable_frame [e] i) s'.
Proof.
  intros HB He Htop Hdis. pose proof HB as []. pose proof (wf_size _ bld_wf0) as Hsz.
  pose proof (free_frames_range _ (building_inv _ _ HB)) as Hff. unfold free_entry.
  assert (Hnone : (∀ b len, ¬ usable_range e b len) → building (λ i, F i ∨ usable_frame [e] i) s).
  { intros Hno. destruct HB. split; try done. intros i Hi. rewrite bld_F0 by done.
    split; [by left|]. intros [?|(e' & b & len & Hin & Hr & _)]; [done|].
    apply list_elem_of_singleton in Hin as ->. by apply Hno in Hr. }
  destruct (Z.eqb_spec (type e) BOOT_MEM_USABLE) as [Et|Et].
  2: { exists s. do 3 (split; [done|]). apply Hnone. by intros b len [? _]. }
  destruct (get_aligned_usable_range e) as [[b len]|] eqn:Hr.
  2: { exists s. do 3 (split; [done|]). apply Hnone. intros b len [_ ?]. congruence. }
  assert (HU : usable_range e b len) by done.
  pose proof (usable_range_bounds _ _ _ _ He Htop HU) as (Hb1 & Hb2 & Hb3 & Hb4 & Hb5 & Hb6).
  destruct He as (He1 & He2 & _). unfold k_frame_size in *.
  destruct (Z.ltb_spec (b / 4096) (g_bitmap_bits s)); [|lia].
  rewrite (u64_small (b / 4096 + len / 4096)) by lia.
  destruct (Z.ltb_spec (g_bitmap_bits s) (b / 4096 + len / 4096)); [lia|].
  set (st := b / 4096) in *. set (n := len / 4096) in *.
  assert (Hst : b = 4096 * st) by (subst st; lia). assert (Hn : len = 4096 * n) by (subst n; lia).
  clearbody st n. subst b len.
  destruct (bitmap_set_range_spec (g_pmm_bitmap s) st n false) as (bm & -> & Hwf & Hs & Hh & Hbit);
    [done|lia|lia|]. simpl.
  assert (Hbit' : ∀ j, 0 <= j → bit bm j = if decide (st <= j < st + n) then false else bit (g_pmm_bitmap s) j).
  { intros j Hj. rewrite Hbit by done.
    by replace (Z.min (st + n) (m_size (g_pmm_bitmap s))) with (st + n) by lia. }
  clear Hbit.
  assert (Hset : ∀ i, st <= i < st + n → bit (g_pmm_bitmap s) i = true).
  { intros i Hi. destruct (bit (g_pmm_bitmap s) i) eqn:E; [done|]. apply bld_F0 in E; [|lia].
    exfalso. apply (Hdis _ _ i HU); [lia|done]. }
  assert (Hcnt : clear_count (bit bm) 0 (Z.to_nat (g_bitmap_bits s)) = free_frames s + n).
  { rewrite (clear_count_block (bit (g_pmm_bitmap s)) (bit bm) (g_bitmap_bits s) st n false);
      [done|lia|lia|lia|done|by intros; apply Hbit'; lia]. }
  pose proof (clear_count_range (bit bm) 0 (Z.to_nat (g_bitmap_bits s))).
  rewrite bld_total0, (u64_small (g_free_memory s + n * 4096)), (u64_small (st + n - 1)) by lia.
  eexists. split; [done|]. do 2 (split; [done|]). split; simpl; try done; try congruence.
  - rewrite bld_free0. unfold free_frames, k_frame_size in *. simpl. rewrite Hcnt. lia.
  - intros i Hi. rewrite Hbit' by lia. dec_goal.
    + split; [|done]. intros _. right. exists e, (4096 * st), (4096 * n).
      split; [by apply list_elem_of_singleton|]. split; [done|]. unfold k_frame_size. lia.
    + rewrite bld_F0 by done. split; [by left|]. intros [?|(e' & b & len & Hin & Hr' & Hi')]; [done|].
      apply list_elem_of_singleton in Hin as ->. destruct Hr' as [_ Hr']. rewrite Hr in Hr'.
      simplify_eq. unfold k_frame_size in *. lia.
  - intros i Hi. assert (0 <= i) by (revert Hi; case_match; lia). rewrite Hbit' by lia. dec_goal.
    + exfalso. revert Hi. case_match; lia.
    + apply bld_highest0. revert Hi. case_match; lia.
  - case_match; lia.
Qed.

Lemma usable_frame_cons e m i : usable_frame (e :: m) i ↔ usable_frame [e] i ∨ usable_frame m i.
Proof.
  split.
  - intros (e' & b & len & Hin & H). apply elem_of_cons in Hin as [->|Hin]; [left|right].
    + exists e, b, len. split; [by apply list_elem_of_singleton|done].
    + by exists e', b, len.
  - intros [(e' & b & len & Hin & H)|(e' & b & len & Hin & H)]; exists e', b, len; (split; [|done]).
    + apply list_elem_of_singleton in Hin as ->. by left.
    + by right.
Qed.

Lemma building_ext F G s : (∀ i, F i ↔ G i) → building F s → building G s.
Proof. intros HFG []. split; try done. intros i Hi. by rewrite bld_F0, HFG. Qed.

Lemma free_entries_spec m : ∀ F s,
  building F s → Forall (entry_ok (g_bitmap_bits s * 4096)) m →
  g_bitmap_bits s * 4096 <= 2 ^ 64 - 4096 → ForallOrdPairs entries_apart m →
  (∀ i, usable_frame m i → ¬ F i) →
  ∃ s', free_entries s m = Ok s' ∧ g_bitmap_bits s' = g_bitmap_bits s ∧ phys_mem s' = phys_mem s ∧
    building (λ i, F i ∨ usable_frame m i) s'.
Proof.
  induction m as [|e m IH]; intros F s HB Hok Htop Hap Hdis; simpl.
  - exists s. do 3 (split; [done|]). eapply building_ext; [|done]. intros i. split; [by left|].
    intros [?|(e & b & len & Hin & _)]; [done|]. by apply elem_of_nil in Hin.
  - apply Forall_cons in Hok as [He Hok]. inversion Hap as [|?? Hap1 Hap2]; subst.
    destruct (free_entry_spec F s e) as (s1 & -> & Hbits & Hmem & HB1); [done..| |].
    { intros b len i HU Hi. apply Hdis. exists e, b, len. split; [by left|done]. }
    simpl. destruct (IH _ s1 HB1) as (s2 & -> & Hbits2 & Hmem2 & HB2); [by rewrite Hbits..|done| |].
    + intros i Hi [HF|Hei]; [by apply (Hdis i); [apply usable_frame_cons; right|]|].
      destruct Hei as (e1 & b1 & l1 & Hin1 & HU1 & Hi1). apply list_elem_of_singleton in Hin1 as ->.
      destruct Hi as (e2 & b2 & l2 & Hin2 & HU2 & Hi2).
      rewrite Forall_forall in Hok, Hap1.
      pose proof (usable_range_bounds _ _ _ _ He Htop HU1).
      pose proof (usable_range_bounds _ _ _ _ (Hok _ Hin2) Htop HU2).
      destruct (Hap1 e2 Hin2); [apply HU1|apply HU2|lia..].
    + exists s2. split; [done|]. split; [congruence|]. split; [congruence|].
      eapply building_ext; [|done]. intros i. simpl. rewrite (usable_frame_cons e m). tauto.
Qed.

(** [n] bytes at page-aligned [x] inside a usable range of the map. *)
Definition placed (m : list BootMemoryMapEntry) (x n : Z) : Prop :=
  ∃ e b len, e ∈ m ∧ usable_range e b len ∧ b <= x ∧ x + n <= b + len ∧ x mod 4096 = 0.
(** ... or outside every usable range. *)
Definition clear_of (m : list BootMemoryMapEntry) (x n : Z) : Prop :=
  ∀ e b len, e ∈ m → usable_range e b len → x + n <= b ∨ b + len <= x.

Definition disjoint_regions (x n y k : Z) : Prop := x + n <= y ∨ y + k <= x.

Lemma placed_cons e m x n : placed m x n → placed (e :: m) x n.
Proof. intros (e' & b & len & ? & ?). exists e', b, len. split; [by right|done]. Qed.

Section find_metadata_proof.
Context (top bsz rsz : Z).
Hypotheses (Htop : top <= 2 ^ 64 - 4096) (Hbsz : 0 <= bsz) (Hrsz : 0 <= rsz)
  (Hbal : bsz mod 4096 = 0).

(** A region placed in one entry is clear of the entries apart from it. *)
Lemma placed_clear e m b len x n :
  entry_ok top e → Forall (entry_ok top) m → Forall (entries_apart e) m →
  usable_range e b len → b <= x → x + n <= b + len → 0 <= n → clear_of m x n.
Proof.
  intros He Hm Hap HU Hx Hn Hn0 e' b' len' Hin HU'. rewrite Forall_forall in Hm, Hap.
  pose proof (usable_range_bounds _ _ _ _ He Htop HU).
  pose proof (usable_range_bounds _ _ _ _ (Hm _ Hin) Htop HU').
  destruct (Hap e' Hin); [apply HU|apply HU'|lia..].
Qed.

Lemma find_metadata_spec m : ∀ bp rp x y,
  Forall (entry_ok top) m → ForallOrdPairs entries_apart m →
  (∀ x, bp = Some x → clear_of m x bsz) → (∀ y, rp = Some y → clear_of m y rsz) →
  (bp = None ∨ rp = None) →
  find_metadata m bsz rsz bp rp = (Some x, Some y) →
  (bp = Some x ∨ placed m x bsz) ∧ (rp = Some y ∨ placed m y rsz) ∧
  disjoint_regions x bsz y rsz.
Proof.
  induction m as [|e m IH]; intros bp rp x y Hok Hap Hb Hr Hone; simpl.
  { intros [= -> ->]. by destruct Hone. }
  apply Forall_cons in Hok as [He Hok]. inversion Hap as [|?? Hap1 Hap2]; subst.
  assert (Hskip : find_metadata m bsz rsz bp rp = (Some x, Some y) →
    (bp = Some x ∨ placed (e :: m) x bsz) ∧ (rp = Some y ∨ placed (e :: m) y rsz) ∧
    disjoint_regions x bsz y rsz).
  { intros Hf. destruct (IH bp rp x y) as (H1 & H2 & H3); try done.
    - intros ? E e' b' l' Hin. apply (Hb _ E). by right.
    - intros ? E e' b' l' Hin. apply (Hr _ E). by right.
    - split; [destruct H1; eauto using placed_cons|]. split; [destruct H2; eauto using placed_cons|done]. }
  destruct (Z.eqb_spec (type e) BOOT_MEM_USABLE) as [Et|]; [|done].
  destruct (get_aligned_usable_range e) as [[b len]|] eqn:HR; [|done].
  assert (HU : usable_range e b len) by done.
  pose proof (usable_range_bounds _ _ _ _ He Htop HU) as (?&?&?&?&?&?).
  pose proof He as (? & ? & _).
  assert (Hin : ∀ z n, b <= z → z + n <= b + len → z mod 4096 = 0 → placed (e :: m) z n).
  { intros z n ???. exists e, b, len. split; [by left|done]. }
  assert (Hclr : ∀ z n, 0 <= n → b <= z → z + n <= b + len → clear_of m z n).
  { intros z n ???. by eapply placed_clear. }
  assert (Hbe : ∀ z, bp = Some z → disjoint_regions z bsz b len).
  { intros z E. destruct (Hb z E e b len); [by left|done| |]; unfold disjoint_regions; lia. }
  assert (Hre : ∀ z, rp = Some z → disjoint_regions b len z rsz).
  { intros z E. destruct (Hr z E e b len); [by left|done| |]; unfold disjoint_regions; lia. }
  unfold disjoint_regions in *. unfold add_overflow.
  destruct bp as [bp|].
  - destruct Hone as [ | -> ]; [done|]. specialize (Hbe _ eq_refl).
    destruct (Z.leb_spec rsz len); [|done].
    intros [= -> <-]. split; [by left|]. split; [right; apply Hin; lia|lia].
  - destruct (Z.leb_spec bsz len) as [Hfit|Hfit].
    + destruct rp as [rp|].
      * specialize (Hre _ eq_refl). intros [= <- ->].
        split; [right; apply Hin; lia|]. split; [by left|lia].
      * destruct (Z.leb_spec (2 ^ 64) (bsz + rsz)) as [Hov|Hov]; simpl.
        -- intros Hf. destruct (IH (Some b) None x y) as (H1' & H2' & H3'); try done.
           ++ intros ? [= <-]. apply Hclr; lia.
           ++ by right.
           ++ split; [right; destruct H1' as [[= <-]|]; [apply Hin; lia|by apply placed_cons]|].
              split; [destruct H2'; [done|right; by apply placed_cons]|done].
        -- rewrite u64_small by lia. destruct (Z.leb_spec (bsz + rsz) len) as [Hm|Hm]; simpl.
           ++ rewrite u64_small by lia. intros [= <- <-].
              split; [right; apply Hin; lia|]. split; [right; apply Hin; lia|lia].
           ++ intros Hf. destruct (IH (Some b) None x y) as (H1' & H2' & H3'); try done.
              ** intros ? [= <-]. apply Hclr; lia.
              ** by right.
              ** split; [right; destruct H1' as [[= <-]|]; [apply Hin; lia|by apply placed_cons]|].
                 split; [destruct H2'; [done|right; by apply placed_cons]|done].
    + destruct rp as [rp|]; [done|]. destruct (Z.leb_spec rsz len) as [Hfr|Hfr]; [|done].
      intros Hf. destruct (IH None (Some b) x y) as (H1' & H2' & H3'); try done.
      * intros ? [= <-]. apply Hclr; lia.
      * by left.
      * split; [destruct H1'; [done|right; by apply placed_cons]|].
        split; [right; destruct H2' as [[= <-]|]; [apply Hin; lia|by apply placed_cons]|done].
Qed.
End find_metadata_proof.

Lemma claim_metadata_spec s a c :
  pmm_inv s → 0 <= a → 0 <= c → a + c <= g_bitmap_bits s →
  (∀ i, a <= i < a + c → bit (g_pmm_bitmap s) i = false) →
  ∃ s', claim_metadata s (4096 * a) (4096 * c) = Ok s' ∧ pmm_inv s' ∧
    g_bitmap_bits s' = g_bitmap_bits s ∧ g_highest_page s' = g_highest_page s ∧
    phys_mem s' = phys_mem s ∧ g_total_memory s' = g_total_memory s ∧
    m_next_free_hint (g_pmm_bitmap s') = m_next_free_hint (g_pmm_bitmap s) ∧
    ∀ j, 0 <= j → bit (g_pmm_bitmap s') j =
      if decide (a <= j < a + c) then true else bit (g_pmm_bitmap s) j.
Proof.
  intros Hinv Ha Hc Hac Hfree. pose proof Hinv as []. unfold claim_metadata, k_frame_size.
  replace (4096 * a / 4096) with a by lia. replace (4096 * c / 4096) with c by lia.
  destruct (bitmap_set_range_spec (g_pmm_bitmap s) a c true)
    as (b & -> & Hwf & Hsz & Hh & Hbit); [done|lia|lia|]. simpl.
  destruct (fill_slots_spec (g_pmm_refcounts s) a c 1 (λ r, 0 <= r < 2 ^ 16))
    as (refs & -> & Hlen & HF & Href); [lia|lia|lia|done|lia|]. simpl.
  assert (Hbit' : ∀ j, 0 <= j → bit b j =
    if decide (a <= j < a + c) then true else bit (g_pmm_bitmap s) j).
  { intros j Hj. rewrite Hbit by done.
    by replace (Z.min (a + c) (m_size (g_pmm_bitmap s))) with (a + c) by lia. }
  assert (Hinv' := pmm_inv_take s b refs a c (phys_mem s)).
  unfold k_frame_size in Hinv'. rewrite (u64_small (4096 * c)) in Hinv' by lia.
  eexists. split; [done|]. split; [apply Hinv'; try done; lia|done].
Qed.

(** Frames of a byte range. *)
Definition frame_in (x n i : Z) : Prop := x <= i * k_frame_size < x + n.

(** What booting the allocator establishes, given where its metadata went. *)
Record pmm_booted (m : list BootMemoryMapEntry) (s : Pmm) (x bsz y rsz : Z) : Prop := {
  boot_inv : pmm_inv s;
  boot_pos : 0 < g_bitmap_bits s;
  boot_bitmap : placed m x bsz ∧ (g_bitmap_bits s + 7) / 8 <= bsz;
  boot_refs : placed m y rsz ∧ 2 * g_bitmap_bits s <= rsz;
  boot_apart : disjoint_regions x bsz y rsz;
  boot_zero : bit (g_pmm_bitmap s) 0 = true;
  boot_free : ∀ i, 0 < i < g_bitmap_bits s →
    bit (g_pmm_bitmap s) i = false ↔ usable_frame m i ∧ ¬ frame_in x bsz i ∧ ¬ frame_in y rsz i;
  boot_covers : ∀ i, usable_frame m i → i < g_bitmap_bits s
}.

Lemma entry_ok_mono t1 t2 e : t1 <= t2 → entry_ok t1 e → entry_ok t2 e.
Proof. intros Ht (?&?&H). split; [done|]. split; [done|]. intros. specialize (H ltac:(done) ltac:(done)). lia. Qed.

(** A placed region is made of usable frames below the end of the bitmap. *)
Lemma placed_frames m bits x n :
  Forall (entry_ok (bits * 4096)) m → bits * 4096 <= 2 ^ 64 - 4096 → 0 <= n →
  n mod 4096 = 0 → placed m x n →
  ∃ a c, x = 4096 * a ∧ n = 4096 * c ∧ 0 <= a ∧ 0 <= c ∧ a + c <= bits ∧ 0 < bits ∧
    (∀ i, a <= i < a + c → usable_frame m i) ∧
    (∀ i, frame_in x n i ↔ a <= i < a + c).
Proof.
  intros Hok Htop Hn Hal (e & b & len & Hin & HU & H1 & H2 & H3).
  rewrite Forall_forall in Hok. pose proof (Hok _ Hin) as (? & ? & _).
  pose proof (usable_range_bounds _ _ _ _ (Hok _ Hin) Htop HU).
  exists (x / 4096), (n / 4096). do 6 (split; [lia|]).
  split; [|intros i; unfold frame_in, k_frame_size; lia].
  intros i Hi. exists e, b, len. split; [done|]. split; [done|]. unfold k_frame_size. lia.
Qed.

(** Bytes of the bitmap and of the reference counts of a map, page-aligned. *)
Definition page_up (n : Z) : Z := (n + 4095) / 4096 * 4096.
Definition tracked_frames (m : list BootMemoryMapEntry) : Z := (highest_phys m 0 + 4095) / 4096.
Definition metadata_bytes (m : list BootMemoryMapEntry) : Z :=
  page_up ((tracked_frames m + 7) / 8) + page_up (2 * tracked_frames m).

(** Some usable entry can hold the metadata, and the map ends below the last page. *)
Definition bootable (m : list BootMemoryMapEntry) : Prop :=
  highest_phys m 0 <= 2 ^ 64 - 4096 ∧
  ∃ e b len, e ∈ m ∧ usable_range e b len ∧ metadata_bytes m <= len.

(** One entry with room for both metadata blocks settles the search. *)
Lemma find_metadata_complete m : ∀ bsz rsz bp rp,
  0 <= bsz → 0 <= rsz →
  (∃ e b len, e ∈ m ∧ usable_range e b len ∧ bsz + rsz <= len ∧ len < 2 ^ 64) →
  ∃ x y, find_metadata m bsz rsz bp rp = (Some x, Some y).
Proof.
  induction m as [|e m IH]; intros bsz rsz bp rp Hb Hr (e' & b & len & Hin & HU & Hlen & Hlt).
  { by apply elem_of_nil in Hin. }
  simpl. apply elem_of_cons in Hin as [->|Hin].
  - destruct HU as [-> ->]. simpl. unfold add_overflow.
    destruct bp as [bp|]; destruct rp as [rp|]; simpl; eauto;
      repeat case_match; simplify_eq; eauto; try lia.
    rewrite u64_small in H1 by lia.
    destruct (Z.leb_spec (2 ^ 64) (bsz + rsz)); [lia|]. simpl in H1. lia.
  - assert (∀ bp rp, ∃ x y, find_metadata m bsz rsz bp rp = (Some x, Some y)) as Hrec.
    { intros. apply IH; [done|done|]. by exists e', b, len. }
    repeat case_match; eauto.
Qed.

Lemma pmm_init_spec m s :
  memory_map_ok m → (∀ a, 0 <= phys_mem s a < 2 ^ 8) → m ≠ [] →
  match pmm_init m s with
  | Ok s' => ∃ x bsz y rsz, pmm_booted m s' x bsz y rsz ∧ phys_mem s' = phys_mem s
  | Panic _ => ¬ bootable m
  | Fault => False
  end.
Proof.
  intros [Hw Hap] Hmem Hne. unfold pmm_init.
  destruct (highest_phys_spec m 0 Hw) as [Hhp Hok]; [lia|].
  assert (Hboot : bootable m → highest_phys m 0 <= 2 ^ 64 - 4096 ∧ ∃ e b len, e ∈ m ∧
    usable_range e b len ∧ metadata_bytes m <= len ∧ len < 2 ^ 64).
  { intros (Ht & e & b & len & Hin & HU & Hl). split; [done|]. exists e, b, len.
    pose proof (proj1 (Forall_forall _ _) Hok _ Hin) as Hek.
    pose proof (usable_range_bounds _ _ _ _ Hek ltac:(lia) HU). destruct Hek as [? _].
    split; [done|]. split; [done|lia]. }
  unfold metadata_bytes, page_up, tracked_frames in Hboot.
  set (top := highest_phys m 0) in *. clearbody top.
  destruct (Nat.eqb_spec (length m) 0) as [E|_]; [by destruct m|].
  unfold UINT64_MAX. destruct (Z.ltb_spec (2 ^ 64 - 1 - 4095) top); [intros Hb; apply Hboot in Hb; lia|].
  set (bits := (top + 4095) / 4096) in *.
  assert (Hbits : 0 <= bits < 2 ^ 52 ∧ top <= bits * 4096 ∧ bits * 4096 <= 2 ^ 64 - 4096)
    by (subst bits; lia).
  clearbody bits. destruct Hbits as (Hbits & Htb & Hbt).
  assert (Hok' : Forall (entry_ok (bits * 4096)) m).
  { eapply Forall_impl; [done|]. intros e. by apply entry_ok_mono. }
  unfold SIZE_MAX. destruct (Z.ltb_spec (2 ^ 64 - 1) bits); [lia|].
  rewrite (u64_small (bits + 7)) by lia.
  destruct (Z.ltb_spec (2 ^ 64 - 1 - 4095) ((bits + 7) / 8)); [lia|].
  rewrite (u64_small ((bits + 7) / 8 + 4095)), land_not_fff by lia.
  unfold mul_overflow. destruct (Z.leb_spec (2 ^ 64) (bits * 2)); [lia|].
  rewrite (u64_small (bits * 2)) by lia.
  destruct (Z.ltb_spec (2 ^ 64 - 1 - 4095) (bits * 2)); [lia|]. cbn [orb].
  rewrite (u64_small (bits * 2 + 4095)), land_not_fff, (Z.mul_comm bits 2) by lia.
  set (bsz := ((bits + 7) / 8 + 4095) / 4096 * 4096) in *.
  set (rsz := (2 * bits + 4095) / 4096 * 4096) in *.
  assert (Hbsz : (bits + 7) / 8 <= bsz ∧ bsz mod 4096 = 0 ∧ 0 <= bsz) by (subst bsz; lia).
  assert (Hrsz : 2 * bits <= rsz ∧ rsz mod 4096 = 0 ∧ 0 <= rsz) by (subst rsz; lia).
  clearbody bsz rsz.
  assert (Hfull : bootable m → ∃ x y, find_metadata m bsz rsz None None = (Some x, Some y)).
  { intros Hb. apply find_metadata_complete; [lia|lia|]. by apply Hboot. }
  destruct (find_metadata m bsz rsz None None) as [[x|] [y|]] eqn:Hfm;
    [|intros Hb; by destruct (Hfull Hb) as (? & ? & [=])..].
  apply (find_metadata_spec (bits * 4096)) in Hfm as ([?|Hx] & [?|Hy] & Hdis); try done; try lia; [|by left].
  destruct (placed_frames m bits x bsz) as (xa & xc & -> & -> & Hx1 & Hx2 & Hx3 & Hpos & Hxu & Hxf); [done|lia..|done|].
  destruct (placed_frames m bits y rsz) as (ya & yc & -> & -> & Hy1 & Hy2 & Hy3 & _ & Hyu & Hyf); [done|lia..|done|].
  set (buffer := fmap _ (seq 0 _)).
  assert (Hbuf : bytes buffer ∧ Z.of_nat (length buffer) = 4096 * xc).
  { split; [apply Forall_fmap, Forall_true; intros; apply Hmem|].
    unfold buffer. rewrite length_fmap, length_seq. lia. }
  clearbody buffer. destruct Hbuf as [Hbuf Hbl].
  destruct (bitmap_init_spec buffer bits) as (bm0 & -> & Hwf0 & Hs0 & Hh0 & _); [lia|done|lia|]. simpl.
  destruct (bitmap_set_range_spec bm0 0 bits true) as (bm1 & -> & Hwf1 & Hs1 & Hh1 & Hb1); [done|lia|lia|]. simpl.
  set (s0 := mkPmm bm1 (replicate (Z.to_nat bits) 0) bits 0 0 0 (phys_mem s)).
  assert (Hall : ∀ i, 0 <= i < bits → bit bm1 i = true).
  { intros i Hi. rewrite Hb1 by lia. by rewrite decide_True by lia. }
  assert (HB0 : building (λ _, False) s0).
  { split; simpl; try done; try lia; try congruence.
    - unfold free_frames. simpl. rewrite (clear_count_const _ _ _ true); [done|].
      intros i Hi. apply Hall. lia.
    - intros i Hi. rewrite Hall by done. done.
    - intros i Hi. apply Hall. lia. }
  destruct (free_entries_spec m (λ _, False) s0) as (s1 & -> & Hbits1 & Hmem1 & HB1);
    [done|done|done|done|intros i _ []|]. unfold s0 in Hbits1, Hmem1. simpl in Hbits1, Hmem1. simpl.
  assert (HF1 : ∀ i, 0 <= i < bits → bit (g_pmm_bitmap s1) i = false ↔ usable_frame m i).
  { intros i Hi. rewrite (bld_F _ _ HB1) by lia. tauto. }
  destruct (claim_metadata_spec s1 xa xc) as (s2 & -> & Hinv2 & Hbits2 & Hhi2 & Hmem2 & _ & _ & Hbit2);
    [by eapply building_inv|lia..| |]; [intros i Hi; apply HF1; [lia|by apply Hxu]|]. simpl.
  destruct (claim_metadata_spec s2 ya yc) as (s3 & -> & Hinv3 & Hbits3 & Hhi3 & Hmem3 & _ & _ & Hbit3);
    [done|lia..| |].
  { intros i Hi. rewrite Hbit2 by lia. unfold disjoint_regions in Hdis.
    dec_goal; [lia|]. apply HF1; [lia|by apply Hyu]. }
  simpl. pose proof (inv_highest_pos _ Hinv3).
  destruct (reserve_frame_spec s3 0) as (s4 & -> & Hinv4 & Hbits4 & Hhi4 & _ & Hmem4 & _ & Hbit4 & _);
    [done|lia|lia|]. simpl.
  assert (Hfree4 : ∀ i, 0 < i < bits → bit (g_pmm_bitmap s4) i = false ↔
    usable_frame m i ∧ ¬ frame_in (4096 * xa) (4096 * xc) i ∧ ¬ frame_in (4096 * ya) (4096 * yc) i).
  { intros i Hi. rewrite Hxf, Hyf, Hbit4, decide_False, Hbit3, Hbit2 by lia.
    dec_goal; [split; [done|intros (_ & _ & Hn); by destruct Hn]|].
    dec_goal; [split; [done|intros (_ & Hn & _); by destruct Hn]|].
    rewrite HF1 by lia. tauto. }
  assert (Hzero : bit (g_pmm_bitmap s4) 0 = true) by (by rewrite Hbit4 by lia).
  assert (Hcov : ∀ i, usable_frame m i → i < bits).
  { intros i (e & b & len & Hin & HU & Hi). rewrite Forall_forall in Hok'.
    pose proof (usable_range_bounds _ _ _ _ (Hok' _ Hin) Hbt HU). unfold k_frame_size in Hi. lia. }
  exists (4096 * xa), (4096 * xc), (4096 * ya), (4096 * yc).
  assert (Hb4 : g_bitmap_bits s4 = bits) by congruence.
  destruct (_ && _); (split; [|simpl; congruence]).
  - split; simpl; try rewrite Hb4; try done; try (split; [done|lia]).
    apply pmm_inv_bitmap; [done|..|done|done].
    apply bitmap_update_hint_wf; [apply Hinv4|lia].
  - split; simpl; try rewrite Hb4; done || (split; [done|lia]).
Qed.


(** ** Histories of the allocator *)

(** One call into the allocator, by a caller that only shares frames it holds a
    reference to. *)
Inductive pmm_step : Pmm → Pmm → Prop :=
| step_alloc s p s' : pmm_alloc_frame s = Ok (p, s') → pmm_step s s'
| step_alloc_n s count p s' :
    0 <= count < 2 ^ 64 → pmm_alloc_frames s count = Ok (p, s') → pmm_step s s'
| step_share s frame s' :
    0 < frame → frame / k_frame_size < g_bitmap_bits s → 0 < refcount s (frame / k_frame_size) →
    pmm_refcount_inc s frame = Ok s' → pmm_step s s'
| step_free s frame s' : 0 <= frame → pmm_free_frame s frame = Ok s' → pmm_step s s'.

Inductive pmm_reachable (m : list BootMemoryMapEntry) : Pmm → Prop :=
| reach_boot s s' : (∀ a, 0 <= phys_mem s a < 2 ^ 8) → pmm_init m s = Ok s' → pmm_reachable m s'
| reach_step s s' : pmm_reachable m s → pmm_step s s' → pmm_reachable m s'.

Lemma pmm_alloc_frames_trivial s count :
  (count = 0 ∨ 2 ^ 52 <= count) → pmm_alloc_frames s count = Ok (0, s).
Proof.
  intros H. unfold pmm_alloc_frames.
  replace (SIZE_MAX / k_frame_size) with (2 ^ 52 - 1) by reflexivity.
  destruct (Z.eqb_spec count 0), (Z.ltb_spec (2 ^ 52 - 1) count); done || lia.
Qed.

Lemma pmm_step_inv s s' :
  pmm_step s s' → pmm_inv s → 0 < g_bitmap_bits s →
  pmm_inv s' ∧ g_bitmap_bits s' = g_bitmap_bits s.
Proof.
  intros H Hi Hb.
  assert (Hone : ∀ p s', pmm_alloc_frame s = Ok (p, s') →
    pmm_inv s' ∧ g_bitmap_bits s' = g_bitmap_bits s).
  { intros p t E. destruct (pmm_alloc_frame_spec s Hi Hb) as (? & ? & E' & ? & ? & _).
    rewrite E in E'. by simplify_eq. }
  destruct H as [s p s' E|s c p s' Hc E|s f s' Hf Hlt Hrc E|s f s' Hf E].
  - by eapply Hone.
  - destruct (decide (c = 0 ∨ 2 ^ 52 <= c)) as [Ht|Ht].
    { rewrite pmm_alloc_frames_trivial in E by done. by simplify_eq. }
    destruct (decide (c = 1)) as [->|]; [by eapply Hone|].
    destruct (pmm_alloc_frames_spec s c) as (? & ? & E' & ? & ? & _); [done|lia|].
    rewrite E in E'. by simplify_eq.
  - destruct (pmm_refcount_inc_spec s f) as [[_ E']|(? & E' & ? & _ & ? & _)]; [done..| |];
      rewrite E in E'; by simplify_eq.
  - destruct (pmm_refcount_dec_spec s f) as (? & E' & ? & ? & _); [done..|].
    unfold pmm_free_frame in E. rewrite E in E'. by simplify_eq.
Qed.

Lemma pmm_reachable_inv m s :
  memory_map_ok m → m ≠ [] → pmm_reachable m s → pmm_inv s ∧ 0 < g_bitmap_bits s.
Proof.
  intros Hm Hne H. induction H as [s s' Hs E|s s' _ [IH1 IH2] Hst].
  - pose proof (pmm_init_spec m s Hm Hs Hne) as H. rewrite E in H.
    destruct H as (? & ? & ? & ? & [] & _). done.
  - destruct (pmm_step_inv _ _ Hst IH1 IH2) as [? ->]. done.
Qed.

(** * Properties *)

(** C28: [pmm_init] on a firmware map with disjoint usable ranges and one range
    large enough for the metadata succeeds without leaving its arrays: the bitmap
    and the reference counts are placed in disjoint usable memory and cover every
    frame, frame 0 is reserved, exactly the usable frames outside the metadata are
    free, and the accounting invariant holds. *)
Theorem pmm_init_correct m s :
  memory_map_ok m → (∀ a, 0 <= phys_mem s a < 2 ^ 8) → bootable m →
  ∃ s' x bsz y rsz, pmm_init m s = Ok s' ∧ pmm_booted m s' x bsz y rsz ∧ phys_mem s' = phys_mem s.
Proof.
  intros Hm Hmem Hb.
  assert (m ≠ []) as Hne by (destruct Hb as (_ & e & _ & _ & Hin & _); by intros ->; apply elem_of_nil in Hin).
  pose proof (pmm_init_spec m s Hm Hmem Hne) as H.
  destruct (pmm_init m s) as [s'|msg|]; [|done..].
  destruct H as (x & bsz & y & rsz & H). by exists s', x, bsz, y, rsz.
Qed.

(** A map with a reserved hole: 64 KiB and 128 KiB of usable memory. *)
Definition sample_map : list BootMemoryMapEntry :=
  [mkEntry 0 0x10000 BOOT_MEM_USABLE; mkEntry 0x10000 0x8000 1; mkEntry 0x18000 0x20800 BOOT_MEM_USABLE].
Definition blank : Pmm := mkPmm (mkBitmap [] 0 0) [] 0 0 0 0 (λ _, 0).

Lemma sample_map_ok : memory_map_ok sample_map.
Proof.
  split.
  - repeat constructor; simpl; lia.
  - unfold sample_map. repeat constructor; unfold entries_apart; simpl; intros; try done; lia.
Qed.

Lemma sample_map_bootable : bootable sample_map.
Proof.
  split; [vm_compute; discriminate|]. eexists _, 0, 0x10000. split; [left|]. split; [done|].
  vm_compute. discriminate.
Qed.

Lemma pmm_init_correct_witness :
  ∃ s' x bsz y rsz, pmm_init sample_map blank = Ok s' ∧ pmm_booted sample_map s' x bsz y rsz.
Proof.
  destruct (pmm_init_correct sample_map blank) as (s' & x & bsz & y & rsz & E & H & _);
    [apply sample_map_ok|intros; simpl; lia|apply sample_map_bootable|].
  exists s', x, bsz, y, rsz. split; [exact E|exact H].
Defined.


Definition sample_pmm : Pmm :=
  match pmm_init sample_map blank with Ok s => s | _ => blank end.

Lemma sample_reachable : pmm_reachable sample_map sample_pmm.
Proof.
  apply (reach_boot _ blank); [intros; simpl; lia|].
  assert ((if pmm_init sample_map blank is Ok _ then true else false) = true) as H
    by (vm_compute; reflexivity).
  unfold sample_pmm. by destruct (pmm_init sample_map blank).
Qed.




(** Contiguous allocation is exact: it answers null only for a zero or
    impossible count or when no [count] consecutive frames are free, and otherwise
    takes the highest such window, giving each of its frames one reference and
    changing no other frame. *)
Theorem pmm_alloc_frames_exact s count :
  pmm_inv s → 1 < count < 2 ^ 64 →
  ∃ p s', pmm_alloc_frames s count = Ok (p, s') ∧ pmm_inv s' ∧
    ((p = 0 ∧ s' = s ∧ ∀ i, ¬ fits (g_pmm_bitmap s) count i) ∨
     ∃ i, last_fit (g_pmm_bitmap s) count i ∧ p = i * k_frame_size ∧
       g_free_memory s' = g_free_memory s - k_frame_size * count ∧
       ∀ j, 0 <= j →
         (bit (g_pmm_bitmap s') j = if decide (i <= j < i + count) then true
                                    else bit (g_pmm_bitmap s) j) ∧
         (refcount s' j = if decide (i <= j < i + count) then 1 else refcount s j)).
Proof.
  intros Hi Hc. destruct (decide (2 ^ 52 <= count)) as [Hbig|Hsm].
  { rewrite pmm_alloc_frames_trivial by lia. eexists _, _. split; [done|]. split; [done|].
    left. do 2 (split; [done|]). intros i (? & ? & _). destruct Hi. lia. }
  destruct (pmm_alloc_frames_spec s count) as (p & s' & E & Hi' & Hbits & _ & H); [done|lia|].
  exists p, s'. split; [done|]. split; [done|]. destruct H as [?|(i & Hl & -> & H)]; [by left|right].
  exists i. do 2 (split; [done|]). split; [|done].
  rewrite (inv_free _ Hi), (inv_free _ Hi'). unfold free_frames. rewrite Hbits.
  assert (fits (g_pmm_bitmap s) count i) as [Hf1 Hf2] by apply Hl.
  destruct Hf2 as [Hf2 Hf3]. rewrite (inv_bits _ Hi) in Hf2.
  rewrite (clear_count_block (bit (g_pmm_bitmap s)) (bit (g_pmm_bitmap s')) (g_bitmap_bits s) i count true);
    [lia..|done|]. intros j Hj. apply H. lia.
Qed.

Lemma pmm_alloc_frames_exact_witness :
  ∃ p s', pmm_alloc_frames sample_pmm 3 = Ok (p, s') ∧ p = 0x35000.
Proof.
  destruct (pmm_alloc_frames_exact sample_pmm 3) as (p & s' & E & _);
    [by eapply pmm_reachable_inv; [apply sample_map_ok|discriminate|apply sample_reachable]|lia|].
  exists p, s'. split; [exact E|].
  assert (match pmm_alloc_frames sample_pmm 3 with Ok (q, _) => q | _ => 0 end = 0x35000) as H
    by (vm_compute; reflexivity).
  rewrite E in H. exact H.
Defined.

(** A frame returns to the allocator when its last reference is dropped and
    not before: allocating a frame, sharing it and freeing it once leaves it
    allocated with one reference; freeing it again makes it free, with the
    free-memory counter and every other frame (but 0) as before the allocation. *)
Theorem pmm_alloc_share_free_roundtrip s p s1 :
  pmm_inv s → 0 < g_bitmap_bits s → bit (g_pmm_bitmap s) 0 = true →
  pmm_alloc_frame s = Ok (p, s1) → p ≠ 0 →
  ∃ s2 s3 s4,
    pmm_refcount_inc s1 p = Ok s2 ∧ refcount s2 (p / k_frame_size) = 2 ∧
    pmm_free_frame s2 p = Ok s3 ∧ refcount s3 (p / k_frame_size) = 1 ∧
    g_free_memory s3 = g_free_memory s1 ∧ bit (g_pmm_bitmap s3) (p / k_frame_size) = true ∧
    pmm_free_frame s3 p = Ok s4 ∧ pmm_inv s4 ∧ refcount s4 (p / k_frame_size) = 0 ∧
    g_free_memory s4 = g_free_memory s ∧
    (∀ j, 0 < j → bit (g_pmm_bitmap s4) j = bit (g_pmm_bitmap s) j).
Proof.
  intros Hi Hb H0 E Hp.
  destruct (pmm_alloc_frame_spec s Hi Hb) as (p' & s' & E' & Hi1 & Hb1 & _ & H).
  rewrite E in E'. simplify_eq. destruct H as [[-> _]|(i & Hir & -> & Hfree & Hrc & Hbt & Hoth & _ & Hz)]; [done|].
  assert (Hdiv : i * k_frame_size / k_frame_size = i) by (unfold k_frame_size; lia).
  assert (0 < i * k_frame_size) by (unfold k_frame_size; lia). rewrite Hdiv.
  destruct (pmm_refcount_inc_spec s' (i * k_frame_size)) as [[Hbad _]|(s2 & E2 & Hi2 & Hbm2 & Hb2 & Hf2 & Hr2)];
    rewrite ?Hdiv in *; [done|done|lia|lia|rewrite Hrc in Hbad; done|].
  specialize (Hr2 i ltac:(lia)) as Hr2i. rewrite decide_True in Hr2i by done.
  destruct (pmm_refcount_dec_spec s2 (i * k_frame_size)) as (s3 & E3 & Hi3 & Hb3 & _ & H3); [done|lia|].
  cbv zeta in H3. rewrite Hdiv, decide_False in H3 by lia. destruct H3 as (Hr3 & Hbit3 & Hf3).
  pose proof (Hr3 i ltac:(lia)) as Hr3i. rewrite decide_True in Hr3i by done.
  destruct (pmm_refcount_dec_spec s3 (i * k_frame_size)) as (s4 & E4 & Hi4 & Hb4 & _ & H4); [done|lia|].
  cbv zeta in H4. rewrite Hdiv, decide_False in H4 by lia. destruct H4 as (Hr4 & Hbit4 & Hf4).
  exists s2, s3, s4. split; [done|]. split; [lia|]. split; [done|]. split; [lia|].
  rewrite decide_False in Hf3 by lia. rewrite decide_True in Hf4 by lia.
  split; [lia|]. split; [rewrite Hbit3, decide_False, Hbm2 by lia; done|].
  split; [done|]. split; [done|]. split; [rewrite Hr4, decide_True by lia; lia|].
  assert (Hbits : ∀ j, 0 < j → bit (g_pmm_bitmap s4) j = bit (g_pmm_bitmap s) j).
  { intros j Hj. rewrite Hbit4, Hbit3, (decide_False (P := j = i ∧ refcount s2 i = 1)), Hbm2 by lia.
    dec_goal; [destruct_and!; subst; done|]. apply Hoth; lia. }
  split; [|done].
  rewrite (inv_free _ Hi4), (inv_free _ Hi). unfold free_frames. f_equal.
  replace (g_bitmap_bits s4) with (g_bitmap_bits s) by congruence.
  apply clear_count_ext. intros j Hj. destruct (decide (j = 0)) as [->|]; [|apply Hbits; lia].
  rewrite H0, Hbit4, Hbit3, Hbm2, !decide_False by lia. by apply Hz.
Qed.

Lemma pmm_alloc_share_free_roundtrip_witness :
  ∃ s1 s2 s3 s4, pmm_alloc_frame sample_pmm = Ok (0x2000, s1) ∧ pmm_refcount_inc s1 0x2000 = Ok s2 ∧
    pmm_free_frame s2 0x2000 = Ok s3 ∧ pmm_free_frame s3 0x2000 = Ok s4 ∧
    g_free_memory s4 = g_free_memory sample_pmm.
Proof.
  assert (match pmm_alloc_frame sample_pmm with Ok (q, _) => q | _ => 0 end = 0x2000) as H
    by (vm_compute; reflexivity).
  destruct (pmm_alloc_frame sample_pmm) as [[p s1]| |] eqn:E; [|discriminate H|discriminate H].
  rewrite H in E.
  destruct (pmm_alloc_share_free_roundtrip sample_pmm 0x2000 s1)
    as (s2 & s3 & s4 & E2 & _ & E3 & _ & _ & _ & E4 & _ & _ & E5 & _);
    [by eapply pmm_reachable_inv; [apply sample_map_ok|discriminate|apply sample_reachable]
    |vm_compute; reflexivity|vm_compute; reflexivity|exact E|discriminate|].
  exists s1, s2, s3, s4. rewrite H. repeat split; assumption || reflexivity.
Defined.
