(* ===== verification/Frames.v ===== *)
(** What the page tables and the heap need of a physical frame allocator, as a type
    class with its laws, and the instance for the bitmap allocator of pmm.cpp. *)

From S2P Require Import Prelude Bitmap Pmm.

(** Frames are named by their physical address, 0 being the null pointer. *)
Class Frames (P : Type) := {
  alloc_frame : P → res (Z * P);
  alloc_frames : Z → P → res (Z * P);
  refcount_inc : Z → P → res P;
  refcount_dec : Z → P → res P;
  get_refcount : Z → P → res Z;
  refs : P → Z → Z;
  is_managed : P → Z → bool
}.

(** [pmm_free_frame] *)
Definition free_frame {P} `{Frames P} (frame : Z) (p : P) : res P := refcount_dec frame p.

Definition frame_ok (f : Z) : Prop := 0 < f < 2 ^ 52 ∧ f mod 4096 = 0.

(** The direct map starts at [0xFFFF800000000000] and ends below the MMIO window, so that
    physical memory ends below 64 TiB. *)
Definition PHYS_LIMIT : Z := 2 ^ 46.

(** An allocated frame had no reference and has one; counting changes nothing else. *)
Class FramesLaws (P : Type) `{Frames P} (ready : P → Prop) : Prop := {
  alloc_frame_spec p :
    ready p → ∃ f p', alloc_frame p = Ok (f, p') ∧ ready p' ∧
      ((f = 0 ∧ ∀ g, frame_ok g → refs p' g = refs p g) ∨
       (frame_ok f ∧ refs p f = 0 ∧ ∀ g, frame_ok g → refs p' g = if decide (g = f) then 1 else refs p g));
  alloc_frames_spec p count :
    ready p → 0 < count < 2 ^ 52 → ∃ f p', alloc_frames count p = Ok (f, p') ∧ ready p' ∧
      ((f = 0 ∧ ∀ g, frame_ok g → refs p' g = refs p g) ∨
       (frame_ok f ∧ f + count * 4096 <= 2 ^ 52 ∧
        ∀ g, frame_ok g → refs p' g = (if decide (f <= g < f + count * 4096) then 1 else refs p g) ∧
          (f <= g < f + count * 4096 → refs p g = 0)));
  alloc_frames_none p : alloc_frames 0 p = Ok (0, p);
  refcount_dec_spec p f :
    ready p → frame_ok f → 0 < refs p f →
    ∃ p', refcount_dec f p = Ok p' ∧ ready p' ∧
      ∀ g, frame_ok g → refs p' g = if decide (g = f) then refs p f - 1 else refs p g;
  refcount_inc_spec p f :
    ready p → frame_ok f → 0 < refs p f < 65535 →
    ∃ p', refcount_inc f p = Ok p' ∧ ready p' ∧
      ∀ g, frame_ok g → refs p' g = if decide (g = f) then refs p f + 1 else refs p g;
  refcount_dec_none p f : ready p → frame_ok f → refs p f = 0 → refcount_dec f p = Ok p;
  refcount_inc_none p f : ready p → is_managed p f = false → refcount_inc f p = Ok p;
  alloc_frame_managed p f p' : ready p → alloc_frame p = Ok (f, p') → ∀ g, is_managed p' g = is_managed p g;
  refcount_inc_managed p f p' : ready p → refcount_inc f p = Ok p' → ∀ g, is_managed p' g = is_managed p g;
  refcount_dec_managed p f p' : ready p → refcount_dec f p = Ok p' → ∀ g, is_managed p' g = is_managed p g;
  get_refcount_spec p f : ready p → frame_ok f → get_refcount f p = Ok (refs p f);
  refs_nonneg p f : ready p → 0 <= refs p f;
  refs_max p f : ready p → refs p f <= 65535;
  refs_limit p f : ready p → frame_ok f → 0 < refs p f → f < PHYS_LIMIT;
  refs_managed p f : ready p → frame_ok f → 0 < refs p f → is_managed p f = true
}.

(** * The bitmap allocator *)

#[export] Instance pmm_frames : Frames Pmm := {
  alloc_frame := pmm_alloc_frame;
  alloc_frames count s := pmm_alloc_frames s count;
  refcount_inc frame s := pmm_refcount_inc s frame;
  refcount_dec frame s := pmm_refcount_dec s frame;
  get_refcount frame s := pmm_get_refcount s frame;
  refs s frame := refcount s (frame / k_frame_size);
  is_managed := pmm_is_managed
}.

(** Memory ends below the limit, and frame 0 is reserved. *)
Definition pmm_ready (s : Pmm) : Prop :=
  pmm_inv s ∧ 0 < g_bitmap_bits s <= 2 ^ 34 ∧ bit (g_pmm_bitmap s) 0 = true.

Lemma frame_index f : frame_ok f → 0 < f / k_frame_size ∧ f = f / k_frame_size * k_frame_size.
Proof. unfold frame_ok, k_frame_size. lia. Qed.

Lemma frame_index_inj f g : frame_ok f → frame_ok g → f / k_frame_size = g / k_frame_size → f = g.
Proof. unfold frame_ok, k_frame_size. lia. Qed.

Lemma referenced_tracked p i : pmm_inv p → 0 <= i → 0 < refcount p i → i < g_bitmap_bits p.
Proof.
  intros Hi H0 Hr. destruct (Z.ltb_spec i (g_bitmap_bits p)); [done|].
  unfold refcount in Hr. pose proof (inv_refs_len p Hi). rewrite nth_overflow in Hr; lia.
Qed.

Lemma free_unreferenced p i : pmm_inv p → 0 <= i < g_bitmap_bits p → bit (g_pmm_bitmap p) i = false → refcount p i = 0.
Proof.
  intros Hi Hr Hb. pose proof (refcount_range p i Hi). destruct (decide (refcount p i = 0)) as [|Hne]; [done|].
  rewrite (inv_used p Hi i) in Hb by lia. done.
Qed.

Lemma pmm_alloc_frame_law p :
  pmm_ready p → ∃ f p', pmm_alloc_frame p = Ok (f, p') ∧ pmm_ready p' ∧
    ((f = 0 ∧ ∀ g, frame_ok g → refs p' g = refs p g) ∨
     (frame_ok f ∧ refs p f = 0 ∧ ∀ g, frame_ok g → refs p' g = if decide (g = f) then 1 else refs p g)).
Proof.
  intros (Hi & Hb & H0). destruct (pmm_alloc_frame_spec p Hi ltac:(lia)) as (f & p' & E & Hi' & Hb' & _ & Hc).
  exists f, p'. split; [done|]. simpl.
  destruct Hc as [(-> & _ & _ & Hr & Hz)|(i & Hr & -> & Hbit & Hrc & _ & Hoth & _ & Hz)].
  - split; [split_and!; [done|lia|lia|auto]|]. left. split; [done|]. intros g Hg. apply Hr, frame_index, Hg.
  - split; [split_and!; [done|lia|lia|auto]|]. right.
    assert (Hdiv : i * k_frame_size / k_frame_size = i) by (unfold k_frame_size; lia). rewrite Hdiv.
    split; [unfold frame_ok, k_frame_size; lia|]. split; [apply free_unreferenced; [done|lia|done]|].
    intros g Hg. pose proof (frame_index g Hg) as [Hpos Hgi]. dec_goal; [subst g; by rewrite Hdiv|].
    apply Hoth; [done|]. intros E'. lia.
Qed.

Lemma pmm_alloc_frames_law p count :
  pmm_ready p → 0 < count < 2 ^ 52 → ∃ f p', pmm_alloc_frames p count = Ok (f, p') ∧ pmm_ready p' ∧
    ((f = 0 ∧ ∀ g, frame_ok g → refs p' g = refs p g) ∨
     (frame_ok f ∧ f + count * 4096 <= 2 ^ 52 ∧
      ∀ g, frame_ok g → refs p' g = (if decide (f <= g < f + count * 4096) then 1 else refs p g) ∧
        (f <= g < f + count * 4096 → refs p g = 0))).
Proof.
  intros Hp Hc. destruct (decide (count = 1)) as [->|Hne].
  { unfold pmm_alloc_frames. change ((1 =? 0) || (SIZE_MAX / k_frame_size <? 1)) with false. cbn [Z.eqb Pos.eqb].
    destruct (pmm_alloc_frame_law p Hp) as (f & p' & E & Hp' & Hcase). exists f, p'. split; [done|]. split; [done|].
    destruct Hcase as [?|(Hf & H0 & Hg)]; [by left|right]. split; [done|]. split; [unfold frame_ok in Hf; lia|].
    intros g Hgo. assert (Hiff : f <= g < f + 1 * 4096 ↔ g = f) by (unfold frame_ok in *; lia).
    rewrite Hg by done. split; [repeat dec_goal; tauto|]. intros ->%Hiff. done. }
  destruct Hp as (Hi & Hb & H0).
  destruct (pmm_alloc_frames_spec p count Hi ltac:(lia)) as (f & p' & E & Hi' & Hb' & _ & Hcase). exists f, p'. split; [done|].
  destruct Hcase as [(-> & -> & _)|(i & [(Hi0 & Hi1 & Hbits) _] & -> & Hall)].
  { split; [by split_and!; try lia|]. by left. }
  rewrite (inv_bits p Hi) in Hi1.
  assert (Hi2 : 0 < i).
  { destruct (decide (i = 0)) as [->|]; [|lia]. rewrite Hbits in H0 by lia. done. }
  split; [split_and!; [done|lia|lia|]|right].
  { rewrite (proj1 (Hall 0 ltac:(lia))). by rewrite decide_False by lia. }
  split; [unfold frame_ok, k_frame_size; lia|]. split; [unfold k_frame_size; lia|]. simpl.
  intros g Hg. pose proof (frame_index g Hg) as [Hpos Hgi].
  assert (Hiff : i * k_frame_size <= g < i * k_frame_size + count * 4096 ↔ i <= g / k_frame_size < i + count)
    by (unfold frame_ok, k_frame_size in *; lia).
  split; [rewrite (proj2 (Hall (g / k_frame_size) ltac:(lia))); repeat dec_goal; tauto|].
  intros Hin%Hiff. apply free_unreferenced; [done|lia|by apply Hbits].
Qed.

#[export] Instance pmm_frames_laws : FramesLaws Pmm pmm_ready.
Proof.
  split; simpl.
  - apply pmm_alloc_frame_law.
  - apply pmm_alloc_frames_law.
  - done.
  - intros p f (Hi & Hb & H0) Hf Hr. pose proof (frame_index f Hf) as [Hpos Hfi].
    destruct (pmm_refcount_dec_spec p f Hi) as (p' & E & Hi' & Hb' & _ & Hc); [unfold frame_ok in Hf; lia|].
    cbv zeta in Hc. pose proof (referenced_tracked p (f / k_frame_size) Hi (Z.lt_le_incl _ _ Hpos) Hr). rewrite decide_False in Hc by (intros [?|[?|?]]; unfold frame_ok in Hf; lia). destruct Hc as (Href & Hbit & _).
    exists p'. split; [done|]. split; [split_and!; [done|lia|lia|]|].
    { rewrite Hbit, decide_False by lia. done. }
    intros g Hg. pose proof (frame_index g Hg) as [Hgp Hgi]. rewrite Href by lia.
    destruct (decide (g = f)) as [->|Hne]; [by rewrite decide_True|]. rewrite decide_False; [done|]. intros E'.
    by apply Hne, frame_index_inj.
  - intros p f (Hi & Hb & H0) Hf Hr. pose proof (frame_index f Hf) as [Hpos Hfi].
    destruct (pmm_refcount_inc_spec p f Hi) as [[Hbad _]|(p' & E & Hi' & Hbm & Hb' & _ & Href)].
    + unfold frame_ok in Hf. lia.
    + lia.
    + apply referenced_tracked; [done|lia|lia].
    + unfold UINT16_MAX in Hbad. lia.
    + exists p'. split; [done|]. split; [split_and!; [done|lia|lia|by rewrite Hbm]|].
      intros g Hg. pose proof (frame_index g Hg) as [Hgp Hgi].
      rewrite Href by lia. destruct (decide (g = f)) as [->|Hne]; [by rewrite decide_True|].
      rewrite decide_False; [done|]. intros E'. by apply Hne, frame_index_inj.
  - intros p f (Hi & Hb & H0) Hf Hr. destruct (pmm_refcount_dec_spec p f Hi) as (p' & E & _ & _ & _ & Hc); [unfold frame_ok in Hf; lia|].
    cbv zeta in Hc. rewrite decide_True in Hc by auto. by rewrite E, Hc.
  - intros p f _ Hm. unfold pmm_is_managed in Hm. unfold pmm_refcount_inc. destruct (f =? 0); [done|].
    destruct (Z.ltb_spec (f / k_frame_size) (g_bitmap_bits p)); done.
  - intros p f p' (Hi & Hb & H0) E g. destruct (pmm_alloc_frame_spec p Hi ltac:(lia)) as (f' & s' & E' & _ & Hb' & _).
    rewrite E in E'. simplify_eq. unfold pmm_is_managed. by rewrite Hb'.
  - intros p f p' (Hi & Hb & H0) E g. unfold pmm_refcount_inc in E. unfold pmm_is_managed. repeat case_match; simplify_eq; try done.
    destruct (arr_get _ _) as [rc| |]; try done. cbn [mbind res_bind] in E. destruct (rc =? UINT16_MAX); [done|].
    destruct (arr_set _ _ _) as [rs| |]; try done. by simplify_eq/=.
  - intros p f p' (Hi & Hb & H0) E g. unfold pmm_is_managed. destruct (decide (0 <= f)).
    + destruct (pmm_refcount_dec_spec p f Hi) as (s' & E' & _ & Hb' & _); [done|]. rewrite E in E'. simplify_eq. by rewrite Hb'.
    + unfold pmm_refcount_dec in E. cbv zeta in E. assert (f / k_frame_size < 0) by (unfold k_frame_size; lia).
      destruct (Z.eqb_spec f 0); [lia|]. destruct (Z.leb_spec (g_bitmap_bits p) (f / k_frame_size)); [lia|].
      unfold arr_get in E. destruct (Z.ltb_spec (f / k_frame_size) 0); [done|lia].
  - intros p f (Hi & Hb & H0) Hf. unfold pmm_get_refcount. destruct (Z.eqb_spec f 0); [unfold frame_ok in Hf; lia|]. cbv zeta.
    pose proof (frame_index f Hf) as [Hpos _]. unfold refcount. pose proof (inv_refs_len p Hi).
    destruct (Z.ltb_spec (f / k_frame_size) (g_bitmap_bits p)) as [Hlt|Hge].
    + apply arr_get_in. lia.
    + by rewrite nth_overflow by lia.
  - intros p f (Hi & _). apply (refcount_range p (f / k_frame_size) Hi).
  - intros p f (Hi & _). pose proof (refcount_range p (f / k_frame_size) Hi). unfold UINT16_MAX in *. lia.
  - intros p f (Hi & Hb & _) Hf Hr. pose proof (frame_index f Hf) as [Hpos Hfi].
    pose proof (referenced_tracked p (f / k_frame_size) Hi (Z.lt_le_incl _ _ Hpos) Hr). unfold PHYS_LIMIT, k_frame_size in *. lia.
  - intros p f (Hi & _) Hf Hr. unfold pmm_is_managed. destruct (Z.eqb_spec f 0); [unfold frame_ok in Hf; lia|].
    pose proof (frame_index f Hf) as [Hpos _]. pose proof (referenced_tracked p (f / k_frame_size) Hi (Z.lt_le_incl _ _ Hpos) Hr).
    destruct (Z.ltb_spec (f / k_frame_size) (g_bitmap_bits p)); [done|lia].
Qed.

Lemma sample_pmm_ready : pmm_ready sample_pmm.
Proof.
  split; [apply (pmm_reachable_inv sample_map); [apply sample_map_ok|discriminate|apply sample_reachable]|].
  split; [|vm_compute; reflexivity]. split; [vm_compute; reflexivity|]. vm_compute. discriminate.
Qed.
