(* ===== verification/Heap.v ===== *)
(** The kernel heap (src/mm/heap.cpp): size-class free lists threaded through memory, a
    hash table that counts the free blocks of each page, large blocks from contiguous
    frames, aligned blocks, and reallocation. *)

From S2P Require Import Prelude Frames.

(** * Model *)

Definition MIN_BUCKET_SIZE : Z := 32.
Definition MAX_BUCKET_SIZE : Z := 4096.
Definition NUM_BUCKETS : Z := 8.
Definition HEAP_MAGIC : Z := 0xC0FFEE1234567890.
Definition ALIGNED_MAGIC : Z := 0x12345678C0FFEE00.
Definition MAX_TRACKED_PAGES : Z := 65536.
Definition SLOT_EMPTY : Z := 0.
Definition SLOT_TOMBSTONE : Z := 1.

(** [sizeof(AllocHeader)]: the size, then the magic number. *)
Definition HEADER : Z := 16.

Record PageSlot := mkSlot { page_virt : Z; bucket_idx : Z; free_count : Z; total_count : Z }.

(** ** Memory: bytes by virtual address *)

Definition Mem : Type := Z → Z.

Definition load64 (m : Mem) (a : Z) : Z :=
  m a + 2 ^ 8 * m (a + 1) + 2 ^ 16 * m (a + 2) + 2 ^ 24 * m (a + 3) +
  2 ^ 32 * m (a + 4) + 2 ^ 40 * m (a + 5) + 2 ^ 48 * m (a + 6) + 2 ^ 56 * m (a + 7).

Definition store64 (m : Mem) (a v : Z) : Mem :=
  λ x, if (a <=? x) && (x <? a + 8) then v / 2 ^ (8 * (x - a)) mod 2 ^ 8 else m x.

(** [kstring::zero_memory] and [kstring::memcpy] *)
Definition zero_memory (m : Mem) (a n : Z) : Mem := λ x, if (a <=? x) && (x <? a + n) then 0 else m x.
Definition memcpy (m : Mem) (dst src n : Z) : Mem := λ x, if (dst <=? x) && (x <? dst + n) then m (src + (x - dst)) else m x.

(** ** The page tracker: open addressing *)

Definition hash_page (virt : Z) : Z :=
  let virt := Z.lxor virt (Z.shiftr virt 33) in
  let virt := u64 (virt * 0xff51afd7ed558ccd) in
  let virt := Z.lxor virt (Z.shiftr virt 33) in
  u32 (Z.land virt (MAX_TRACKED_PAGES - 1)).

Definition Slots : Type := Z → PageSlot.
Definition set_slot (s : Slots) (i : Z) (x : PageSlot) : Slots := λ j, if j =? i then x else s j.

Definition probe (idx i : Z) : Z := Z.land (u32 (idx + i)) (MAX_TRACKED_PAGES - 1).

Fixpoint add_probe (n : nat) (idx i : Z) (s : Slots) : option Z :=
  match n with
  | O => None
  | S n' =>
      let x := page_virt (s (probe idx i)) in
      if (x =? SLOT_EMPTY) || (x =? SLOT_TOMBSTONE) then Some (probe idx i) else add_probe n' idx (i + 1) s
  end.

Fixpoint find_probe (n : nat) (virt idx i : Z) (s : Slots) : option Z :=
  match n with
  | O => None
  | S n' =>
      let x := page_virt (s (probe idx i)) in
      if x =? virt then Some (probe idx i)
      else if x =? SLOT_EMPTY then None
      else find_probe n' virt idx (i + 1) s
  end.

Definition page_tracker_add (virt bucket total : Z) (s : Slots) : option Slots :=
  match add_probe (Z.to_nat MAX_TRACKED_PAGES) (hash_page virt) 0 s with
  | Some i => Some (set_slot s i (mkSlot virt bucket total total))
  | None => None
  end.

Definition page_tracker_find (virt : Z) (s : Slots) : option Z :=
  find_probe (Z.to_nat MAX_TRACKED_PAGES) virt (hash_page virt) 0 s.

(** [x & ~0xFFF] *)
Definition page_of (x : Z) : Z := Z.land x (u64 (Z.lnot 0xFFF)).

Definition page_tracker_alloc_block (block : Z) (s : Slots) : Slots :=
  match page_tracker_find (page_of block) s with
  | Some i =>
      let x := s i in
      if 0 <? free_count x then set_slot s i (mkSlot (page_virt x) (bucket_idx x) (free_count x - 1) (total_count x)) else s
  | None => s
  end.

(** The page and its bucket when all of its blocks are free now. *)
Definition page_tracker_free_block (block : Z) (s : Slots) : option (Z * Z) * Slots :=
  match page_tracker_find (page_of block) s with
  | Some i =>
      let x := s i in
      let free := u16 (free_count x + 1) in
      if free =? total_count x then
        (Some (page_virt x, bucket_idx x), set_slot s i (mkSlot SLOT_TOMBSTONE (bucket_idx x) free (total_count x)))
      else (None, set_slot s i (mkSlot (page_virt x) (bucket_idx x) free (total_count x)))
  | None => (None, s)
  end.

(** ** Size classes *)

Definition is_power_of_two (value : Z) : bool := negb (value =? 0) && (Z.land value (u64 (value - 1)) =? 0).

(** [64 - __builtin_clzll(x)] is the number of bits of [x]. *)
Definition get_bucket_index (size : Z) : Z :=
  if size <=? 32 then 0 else if 4096 <? size then -1 else Z.log2 (size - 1) + 1 - 5.

Definition get_bucket_size (index : Z) : Z := u64 (Z.shiftl 32 index).

Definition heap_observed_alignment (addr : Z) : Z :=
  if addr =? 0 then 16
  else
    let alignment := Z.land addr (u64 (u64 (Z.lnot addr) + 1)) in
    let alignment := if alignment <? 16 then 16 else alignment in
    if 4096 <? alignment then 4096 else alignment.

(** ** The heap *)

(** [g_buckets] holds addresses of free blocks, 0 for none; a free block holds the address
    of the next one. *)
Record Heap (P : Type) := mkHeap { hframes : P; mem : Mem; g_buckets : list Z; g_page_slots : Slots }.
Arguments mkHeap {P}.
Arguments hframes {P}.
Arguments mem {P}.
Arguments g_buckets {P}.
Arguments g_page_slots {P}.

Section heap.
Context {P : Type} `{Frames P}.
(** The direct map: [g_hhdm_offset], and [vmm_virt_to_phys] at the time of a call. *)
Variables (hhdm : Z) (vmm_virt_to_phys : Z → Z).

Definition vmm_phys_to_virt (phys : Z) : Z := u64 (phys + hhdm).

Definition heap_init (p : P) (m : Mem) : Heap P :=
  mkHeap p m (replicate (Z.to_nat NUM_BUCKETS) 0) (λ _, mkSlot 0 0 0 0).

(** The header of an allocation, the pointer it was made for, and whether it is aligned. *)
Definition heap_resolve_header (user_ptr : Z) (m : Mem) : option Z * Z * bool :=
  if user_ptr =? 0 then (None, user_ptr, false)
  else
    let header := user_ptr - HEADER in
    if negb (load64 m (header + 8) =? ALIGNED_MAGIC) then (Some header, user_ptr, false)
    else
      let raw_addr := load64 m header in
      if (raw_addr =? 0) || (user_ptr <=? raw_addr) then (None, user_ptr, false)
      else (Some (raw_addr - HEADER), raw_addr, true).

(** The walk over a free list: the new list's head and tail, the current block, memory. *)
Definition remove_step (page : Z) (st : Z * Z * Z * Mem) : res (Z * Z * Z * Mem + Z * Mem) :=
  let '(new_head, new_tail, cur, m) := st in
  if cur =? 0 then Ok (inr (new_head, m))
  else
    let nxt := load64 m cur in
    if (cur <? page) || (u64 (page + 4096) <=? cur) then
      let m := store64 m cur 0 in
      if new_head =? 0 then Ok (inl (cur, cur, nxt, m))
      else Ok (inl (new_head, cur, nxt, store64 m new_tail cur))
    else Ok (inl (new_head, new_tail, nxt, m)).

(** More blocks than fit below 2^64. *)
Definition REMOVE_FUEL : positive := 2 ^ 60.

Definition bucket_remove_page_blocks (bucket page : Z) (h : Heap P) : res (Heap P) :=
  cur ← arr_get (g_buckets h) bucket;
  '(head, m) ← bloop REMOVE_FUEL (remove_step page) (0, 0, cur, mem h);
  buckets ← arr_set (g_buckets h) bucket head;
  Ok (mkHeap (hframes h) m buckets (g_page_slots h)).

Definition write_header (header size : Z) (m : Mem) : Mem := store64 (store64 m header size) (header + 8) HEAP_MAGIC.

Definition heap_alloc_large (total_size : Z) (h : Heap P) : res (Z * Heap P) :=
  let pages := u64 (total_size + 4095) / 4096 in
  '(ptr, p) ← alloc_frames pages (hframes h);
  if ptr =? 0 then Ok (0, mkHeap p (mem h) (g_buckets h) (g_page_slots h))
  else
    let header := vmm_phys_to_virt ptr in
    Ok (header + HEADER, mkHeap p (write_header header (u64 (pages * 4096)) (mem h)) (g_buckets h) (g_page_slots h)).

(** Pushing every block of a new page. *)
Definition push_block (page bucket bucket_size i : Z) (st : Mem * list Z) : res (Mem * list Z) :=
  let '(m, buckets) := st in
  let block := u64 (page + i * bucket_size) in
  next ← arr_get buckets bucket;
  buckets ← arr_set buckets bucket block;
  Ok (store64 m block next, buckets).

(** [fuel] is the depth of the recursion: after a refill the list is not empty. The
    allocator clears the frame it hands out. *)
Fixpoint malloc_unlocked (fuel : nat) (size : Z) (h : Heap P) : res (Z * Heap P) :=
  if size =? 0 then Ok (0, h)
  else if 2 ^ 64 <=? size + HEADER then Ok (0, h)
  else
    let total_size := size + HEADER in
    if MAX_BUCKET_SIZE <? total_size then heap_alloc_large total_size h
    else
      let bucket := get_bucket_index total_size in
      let bucket_size := get_bucket_size bucket in
      block ← arr_get (g_buckets h) bucket;
      if negb (block =? 0) then
        buckets ← arr_set (g_buckets h) bucket (load64 (mem h) block);
        Ok (block + HEADER,
            mkHeap (hframes h) (write_header block bucket_size (mem h)) buckets
              (page_tracker_alloc_block block (g_page_slots h)))
      else
        '(page_phys, p) ← alloc_frame (hframes h);
        if page_phys =? 0 then Ok (0, mkHeap p (mem h) (g_buckets h) (g_page_slots h))
        else
          let page := vmm_phys_to_virt page_phys in
          let num_blocks := 4096 / bucket_size in
          let m := zero_memory (mem h) page 4096 in
          match page_tracker_add page bucket (u16 num_blocks) (g_page_slots h) with
          | None => p ← free_frame page_phys p; Ok (0, mkHeap p m (g_buckets h) (g_page_slots h))
          | Some slots =>
              '(m, buckets) ← for_upto (Z.to_nat num_blocks) 0 (push_block page bucket bucket_size) (m, g_buckets h);
              match fuel with
              | O => Fault
              | S fuel' => malloc_unlocked fuel' size (mkHeap p m buckets slots)
              end
          end.

Definition malloc (size : Z) (h : Heap P) : res (Z * Heap P) := malloc_unlocked 1 size h.

Definition aligned_alloc (alignment size : Z) (h : Heap P) : res (Z * Heap P) :=
  if negb (is_power_of_two alignment) then Ok (0, h)
  else if alignment <=? 16 then malloc size h
  else if (2 ^ 64 <=? size + (alignment - 1)) || (2 ^ 64 <=? size + (alignment - 1) + HEADER) then Ok (0, h)
  else
    '(raw_addr, h) ← malloc (size + (alignment - 1) + HEADER) h;
    if raw_addr =? 0 then Ok (0, h)
    else
      let aligned_addr := Z.land (u64 (raw_addr + HEADER + alignment - 1)) (u64 (Z.lnot (alignment - 1))) in
      let header := aligned_addr - HEADER in
      Ok (aligned_addr, mkHeap (hframes h) (store64 (store64 (mem h) header raw_addr) (header + 8) ALIGNED_MAGIC)
                          (g_buckets h) (g_page_slots h)).

Definition free (ptr : Z) (h : Heap P) : res (Heap P) :=
  if ptr =? 0 then Ok h
  else
    let '(header, _, _) := heap_resolve_header ptr (mem h) in
    match header with
    | None => Ok h
    | Some header =>
        if negb (load64 (mem h) (header + 8) =? HEAP_MAGIC) then Ok h
        else
          let size := load64 (mem h) header in
          let m := store64 (mem h) (header + 8) 0 in
          if MAX_BUCKET_SIZE <? size then
            let phys := vmm_virt_to_phys header in
            p ← for_upto (Z.to_nat (size / 4096)) 0 (λ i p, free_frame (u64 (phys + i * 4096)) p) (hframes h);
            Ok (mkHeap p m (g_buckets h) (g_page_slots h))
          else
            let bucket := get_bucket_index size in
            let '(emptied, slots) := page_tracker_free_block header (g_page_slots h) in
            match emptied with
            | Some (page, page_bucket) =>
                h ← bucket_remove_page_blocks page_bucket page (mkHeap (hframes h) m (g_buckets h) slots);
                p ← free_frame (vmm_virt_to_phys page) (hframes h);
                Ok (mkHeap p (mem h) (g_buckets h) (g_page_slots h))
            | None =>
                next ← arr_get (g_buckets h) bucket;
                buckets ← arr_set (g_buckets h) bucket header;
                Ok (mkHeap (hframes h) (store64 m header next) buckets slots)
            end
    end.

Definition calloc (nmemb size : Z) (h : Heap P) : res (Z * Heap P) :=
  if 2 ^ 64 <=? nmemb * size then Ok (0, h)
  else
    '(ptr, h) ← malloc (nmemb * size) h;
    if ptr =? 0 then Ok (ptr, h)
    else Ok (ptr, mkHeap (hframes h) (zero_memory (mem h) ptr (nmemb * size)) (g_buckets h) (g_page_slots h)).

Definition realloc (ptr size : Z) (h : Heap P) : res (Z * Heap P) :=
  if ptr =? 0 then malloc size h
  else if size =? 0 then h ← free ptr h; Ok (0, h)
  else
    let '(header, base_user_ptr, was_aligned) := heap_resolve_header ptr (mem h) in
    match header with
    | None => Ok (0, h)
    | Some header =>
        if negb (load64 (mem h) (header + 8) =? HEAP_MAGIC) || (load64 (mem h) header <? HEADER) then Ok (0, h)
        else
          let total_usable := load64 (mem h) header - HEADER in
          if ptr <? base_user_ptr then Ok (0, h)
          else
            let alignment_slack := ptr - base_user_ptr in
            if total_usable <? alignment_slack then Ok (0, h)
            else
              let old_size := total_usable - alignment_slack in
              if size <=? old_size then Ok (ptr, h)
              else
                '(new_ptr, h) ← (if was_aligned then aligned_alloc (heap_observed_alignment ptr) size h else malloc size h);
                if new_ptr =? 0 then Ok (0, h)
                else
                  h ← free ptr (mkHeap (hframes h) (memcpy (mem h) new_ptr ptr old_size) (g_buckets h) (g_page_slots h));
                  Ok (new_ptr, h)
    end.
End heap.

(** * Lemmas: memory *)

Lemma store_in m a v x : a <= x < a + 8 → store64 m a v x = v / 2 ^ (8 * (x - a)) mod 2 ^ 8.
Proof. intros Hx. unfold store64. by destruct (Z.leb_spec a x), (Z.ltb_spec x (a + 8)); try lia. Qed.

Lemma store_out m a v x : ¬ (a <= x < a + 8) → store64 m a v x = m x.
Proof. intros Hx. unfold store64. by destruct (Z.leb_spec a x), (Z.ltb_spec x (a + 8)); try lia. Qed.

Lemma load_store m a v : 0 <= v < 2 ^ 64 → load64 (store64 m a v) a = v.
Proof.
  intros Hv. unfold load64. rewrite !store_in by lia.
  replace (8 * (a - a)) with 0 by lia. replace (8 * (a + 1 - a)) with 8 by lia. replace (8 * (a + 2 - a)) with 16 by lia.
  replace (8 * (a + 3 - a)) with 24 by lia. replace (8 * (a + 4 - a)) with 32 by lia. replace (8 * (a + 5 - a)) with 40 by lia.
  replace (8 * (a + 6 - a)) with 48 by lia. replace (8 * (a + 7 - a)) with 56 by lia. lia.
Qed.

Lemma load_agree m m' a : (∀ x, a <= x < a + 8 → m' x = m x) → load64 m' a = load64 m a.
Proof. intros Hm. unfold load64. by rewrite !Hm by lia. Qed.

Lemma zero_in m a n x : a <= x < a + n → zero_memory m a n x = 0.
Proof. intros Hx. unfold zero_memory. by destruct (Z.leb_spec a x), (Z.ltb_spec x (a + n)); try lia. Qed.

Lemma zero_out m a n x : ¬ (a <= x < a + n) → zero_memory m a n x = m x.
Proof. intros Hx. unfold zero_memory. by destruct (Z.leb_spec a x), (Z.ltb_spec x (a + n)); try lia. Qed.

Lemma memcpy_in m d s n x : d <= x < d + n → memcpy m d s n x = m (s + (x - d)).
Proof. intros Hx. unfold memcpy. by destruct (Z.leb_spec d x), (Z.ltb_spec x (d + n)); try lia. Qed.

Lemma memcpy_out m d s n x : ¬ (d <= x < d + n) → memcpy m d s n x = m x.
Proof. intros Hx. unfold memcpy. by destruct (Z.leb_spec d x), (Z.ltb_spec x (d + n)); try lia. Qed.

(** * Lemmas: the page tracker *)

Definition tracked (s : Slots) (i pg : Z) : Prop :=
  0 <= i < MAX_TRACKED_PAGES ∧ page_virt (s i) = pg ∧ pg ≠ SLOT_EMPTY ∧ pg ≠ SLOT_TOMBSTONE.

(** A page has one slot, found by probing before any slot never used. *)
Record tracker_ok (s : Slots) : Prop := {
  tr_unique i j pg : tracked s i pg → tracked s j pg → i = j;
  tr_probe i pg : tracked s i pg → ∃ k, 0 <= k < MAX_TRACKED_PAGES ∧ i = probe (hash_page pg) k ∧
    ∀ j, 0 <= j < k → page_virt (s (probe (hash_page pg) j)) ≠ SLOT_EMPTY
}.

Lemma hash_range v : 0 <= hash_page v < MAX_TRACKED_PAGES.
Proof.
  unfold hash_page. cbv zeta. change (MAX_TRACKED_PAGES - 1) with (Z.ones 16). rewrite Z.land_ones by lia. unfold u32, MAX_TRACKED_PAGES. lia.
Qed.

Lemma probe_eq idx k : 0 <= idx < MAX_TRACKED_PAGES → 0 <= k < MAX_TRACKED_PAGES → probe idx k = (idx + k) mod MAX_TRACKED_PAGES.
Proof.
  intros Hi Hk. unfold probe, MAX_TRACKED_PAGES in *. change (65536 - 1) with (Z.ones 16). rewrite Z.land_ones, u32_small by lia. done.
Qed.

Lemma probe_range v k : 0 <= k < MAX_TRACKED_PAGES → 0 <= probe (hash_page v) k < MAX_TRACKED_PAGES.
Proof. intros Hk. rewrite probe_eq by (done || apply hash_range). unfold MAX_TRACKED_PAGES. lia. Qed.

Lemma probe_inj v j k : 0 <= j < MAX_TRACKED_PAGES → 0 <= k < MAX_TRACKED_PAGES → probe (hash_page v) j = probe (hash_page v) k → j = k.
Proof. intros Hj Hk. pose proof (hash_range v). rewrite !probe_eq by done. unfold MAX_TRACKED_PAGES in *. lia. Qed.

Lemma set_slot_same s i x : set_slot s i x i = x.
Proof. unfold set_slot. by rewrite Z.eqb_refl. Qed.

Lemma set_slot_ne s i x j : j ≠ i → set_slot s i x j = s j.
Proof. intros Hj. unfold set_slot. by destruct (Z.eqb_spec j i). Qed.

Lemma find_probe_at n : ∀ pg i k s,
  i <= k → k < i + Z.of_nat n → page_virt (s (probe (hash_page pg) k)) = pg →
  (∀ j, i <= j < k → page_virt (s (probe (hash_page pg) j)) ≠ SLOT_EMPTY ∧ page_virt (s (probe (hash_page pg) j)) ≠ pg) →
  find_probe n pg (hash_page pg) i s = Some (probe (hash_page pg) k).
Proof.
  induction n as [|n IH]; intros pg i k s Hi Hk Hpg Hj; [lia|]. cbn [find_probe]. destruct (decide (i = k)) as [->|Hne].
  - by rewrite Hpg, Z.eqb_refl.
  - destruct (Hj i ltac:(lia)) as [H1 H2]. destruct (Z.eqb_spec (page_virt (s (probe (hash_page pg) i))) pg); [done|].
    destruct (Z.eqb_spec (page_virt (s (probe (hash_page pg) i))) SLOT_EMPTY); [done|]. apply IH; try done; try lia. intros j Hj'. apply Hj. lia.
Qed.

Lemma find_probe_sound n : ∀ pg idx i s r,
  find_probe n pg idx i s = Some r → ∃ k, i <= k < i + Z.of_nat n ∧ r = probe idx k ∧ page_virt (s r) = pg.
Proof.
  induction n as [|n IH]; intros pg idx i s r; cbn [find_probe]; [done|]. case_match eqn:E.
  - intros [= <-]. exists i. split; [lia|]. split; [done|]. by apply Z.eqb_eq in E.
  - case_match; [done|]. intros Hr. destruct (IH _ _ _ _ _ Hr) as (k & Hk & ?). exists k. split; [lia|done].
Qed.

Lemma page_tracker_find_some s i pg : tracker_ok s → tracked s i pg → page_tracker_find pg s = Some i.
Proof.
  intros Hs Hi. destruct (tr_probe s Hs i pg Hi) as (k & Hk & -> & Hj). unfold page_tracker_find. pose proof Hi as (_ & Hpg & Hne & Hnt).
  apply find_probe_at; [lia|unfold MAX_TRACKED_PAGES in *; lia|done|]. intros j Hjk. split; [by apply Hj|]. intros Heq.
  assert (j = k); [|lia]. apply (probe_inj pg); [lia|lia|]. apply (tr_unique s Hs _ _ pg); [|done]. split; [apply probe_range; lia|done].
Qed.

Lemma page_tracker_find_none s pg :
  pg ≠ SLOT_EMPTY → pg ≠ SLOT_TOMBSTONE → (∀ i, ¬ tracked s i pg) → page_tracker_find pg s = None.
Proof.
  intros H1 H2 Hn. unfold page_tracker_find. destruct (find_probe _ _ _ _ _) as [r|] eqn:E; [|done]. exfalso.
  apply find_probe_sound in E as (k & Hk & -> & Hp). apply (Hn (probe (hash_page pg) k)). split; [|done].
  apply probe_range. unfold MAX_TRACKED_PAGES in *. lia.
Qed.

Lemma add_probe_sound n : ∀ idx i s r,
  add_probe n idx i s = Some r → ∃ k, i <= k < i + Z.of_nat n ∧ r = probe idx k ∧
    (page_virt (s r) = SLOT_EMPTY ∨ page_virt (s r) = SLOT_TOMBSTONE) ∧ ∀ j, i <= j < k → page_virt (s (probe idx j)) ≠ SLOT_EMPTY.
Proof.
  induction n as [|n IH]; intros idx i s r; cbn [add_probe]; [done|]. case_match eqn:E.
  - intros [= <-]. exists i. split; [lia|]. split; [done|]. split; [apply orb_true_iff in E as [E|E]; apply Z.eqb_eq in E; auto|]. intros; lia.
  - intros Hr. destruct (IH _ _ _ _ Hr) as (k & Hk & H1 & H2 & H3). exists k. split; [lia|]. split; [done|]. split; [done|].
    intros j Hj. destruct (decide (j = i)) as [->|]; [|apply H3; lia]. apply orb_false_iff in E as [E _]. by apply Z.eqb_neq in E.
Qed.

(** A slot that keeps its page, or becomes a tombstone. *)
Lemma tracker_update s i x :
  tracker_ok s → page_virt (s i) ≠ SLOT_EMPTY → page_virt x = page_virt (s i) ∨ page_virt x = SLOT_TOMBSTONE → tracker_ok (set_slot s i x).
Proof.
  intros [U Pr] Hi Hx.
  assert (Hold : ∀ j pg, tracked (set_slot s i x) j pg → tracked s j pg).
  { intros j pg (H1 & H2 & H3 & H4). split; [done|]. unfold set_slot in H2. destruct (Z.eqb_spec j i) as [->|]; [|done].
    destruct Hx as [Hx|Hx]; rewrite Hx in H2; [done|congruence]. }
  split.
  - intros j k pg Hj Hk. by apply (U j k pg); apply Hold.
  - intros j pg Hj. destruct (Pr j pg (Hold j pg Hj)) as (k & Hk & E & Hn). exists k. split; [done|]. split; [done|]. intros j' Hj'.
    unfold set_slot. destruct (Z.eqb_spec (probe (hash_page pg) j') i) as [E'|]; [|by apply Hn].
    destruct Hx as [->| ->]; [done|]. unfold SLOT_EMPTY, SLOT_TOMBSTONE. lia.
Qed.

Lemma tracked_update s i x j pg :
  page_virt x = page_virt (s i) → tracked (set_slot s i x) j pg ↔ tracked s j pg.
Proof. intros Hx. unfold tracked, set_slot. destruct (Z.eqb_spec j i) as [->|]; [by rewrite Hx|done]. Qed.

Lemma tracked_tombstone s i x j pg :
  tracker_ok s → tracked s i (page_virt (s i)) → page_virt x = SLOT_TOMBSTONE →
  tracked (set_slot s i x) j pg ↔ tracked s j pg ∧ pg ≠ page_virt (s i).
Proof.
  intros Hs Hi Hx. unfold set_slot, tracked at 1. destruct (Z.eqb_spec j i) as [->|Hne]; rewrite ?Hx.
  - split; [intros (_ & <- & _ & Hn); done|]. intros [(_ & <- & _) Hn]. done.
  - fold (tracked s j pg). split; [|by intros [? _]]. intros Hj. split; [done|]. intros ->. by apply Hne, (tr_unique s Hs j i (page_virt (s i))).
Qed.

Lemma page_tracker_add_spec s s' pg b t :
  tracker_ok s → (∀ i, ¬ tracked s i pg) → pg ≠ SLOT_EMPTY → pg ≠ SLOT_TOMBSTONE → page_tracker_add pg b t s = Some s' →
  tracker_ok s' ∧ ∃ i, 0 <= i < MAX_TRACKED_PAGES ∧ s' = set_slot s i (mkSlot pg b t t) ∧
    ∀ j q, tracked s' j q ↔ tracked s j q ∨ (j = i ∧ q = pg).
Proof.
  intros Hs Hn Hne Hnt. unfold page_tracker_add. destruct (add_probe _ _ _ _) as [i|] eqn:E; [|done]. intros [= <-].
  apply add_probe_sound in E as (k & Hk & Hi & Hfree & Hj).
  assert (Hk' : 0 <= k < MAX_TRACKED_PAGES) by (unfold MAX_TRACKED_PAGES in *; lia).
  assert (Hr : 0 <= i < MAX_TRACKED_PAGES) by (rewrite Hi; by apply probe_range).
  set (s' := set_slot s i (mkSlot pg b t t)).
  assert (Hiff : ∀ j q, tracked s' j q ↔ tracked s j q ∨ (j = i ∧ q = pg)).
  { intros j q. unfold s', set_slot, tracked at 1. destruct (Z.eqb_spec j i) as [->|Hji]; cbn [page_virt].
    - split; [intros (_ & <- & _); by right|]. intros [(_ & Hq & H1 & H2)|[_ ->]]; [|done]. destruct Hfree; congruence.
    - fold (tracked s j q). split; [by left|]. by intros [?|[? _]]. }
  split; [|by exists i].
  assert (Hmono : ∀ x, page_virt (s x) ≠ SLOT_EMPTY → page_virt (s' x) ≠ SLOT_EMPTY).
  { intros x Hx. unfold s', set_slot. by destruct (Z.eqb_spec x i). }
  split.
  - intros j l q Hq1 Hq2. apply Hiff in Hq1 as [Hq1|[-> ->]]; apply Hiff in Hq2 as [Hq2|[-> Hq]].
    + by apply (tr_unique s Hs j l q).
    + subst q. by destruct (Hn j).
    + by destruct (Hn l).
    + done.
  - intros j q Hq. apply Hiff in Hq as [Hq|[-> ->]].
    + destruct (tr_probe s Hs j q Hq) as (k0 & H1 & H2 & H3). exists k0. split; [done|]. split; [done|]. intros x Hx. by apply Hmono, H3.
    + exists k. split; [done|]. split; [done|]. intros x Hx. apply Hmono, Hj. lia.
Qed.
