(* ===== verification/HeapInv.v ===== *)
(** The heap's invariant: free lists, tracked pages and live blocks fit together, no two
    blocks overlap, and every frame taken is accounted for; [malloc] and [free] keep it. *)

From S2P Require Import Prelude Frames Heap.

(** * Specification *)

(** An allocation the client holds: its pointer, its header, and the size in the header. *)
Record Block := mkBlock { b_user : Z; b_base : Z; b_size : Z }.

#[export] Instance Block_eq_dec : EqDecision Block.
Proof. solve_decision. Defined.

Definition bsize (b : Z) : Z := 2 ^ (5 + b).

(** A free list from [x] on. *)
Fixpoint chain (m : Mem) (x : Z) (l : list Z) : Prop :=
  match l with
  | [] => x = 0
  | y :: l' => x = y ∧ y ≠ 0 ∧ chain m (load64 m y) l'
  end.

(** The free blocks in a page. *)
Definition in_page (pg : Z) (l : list Z) : Z := Z.of_nat (length (filter (λ x, page_of x = pg) l)).

Definition apart_blocks (a b : Block) : Prop := b_base a + b_size a <= b_base b ∨ b_base b + b_size b <= b_base a.

Definition header_ok (m : Mem) (a : Block) : Prop :=
  load64 m (b_base a) = b_size a ∧ load64 m (b_base a + 8) = HEAP_MAGIC ∧
  (b_user a = b_base a + HEADER ∨
   (b_base a + 2 * HEADER <= b_user a <= b_base a + b_size a ∧
    load64 m (b_user a - HEADER) = b_base a + HEADER ∧ load64 m (b_user a - 8) = ALIGNED_MAGIC)).

Section spec.
Context {P : Type} `{Frames P}.
Variables (hhdm : Z).

(** A block of a size class, in a tracked page, or whole frames. *)
Definition small (L : Z → list Z) (s : Slots) (a : Block) : Prop :=
  ∃ i, tracked s i (page_of (b_base a)) ∧ b_size a = bsize (bucket_idx (s i)) ∧ b_base a mod b_size a = 0 ∧
    b_base a ∉ L (bucket_idx (s i)).
Definition large (a : Block) : Prop :=
  MAX_BUCKET_SIZE < b_size a ∧ b_size a mod 4096 = 0 ∧ frame_ok (b_base a - hhdm) ∧ b_base a - hhdm + b_size a <= PHYS_LIMIT.

(** The frames the heap holds. *)
Definition held (s : Slots) (live : list Block) (f : Z) : Prop :=
  (∃ i, tracked s i (hhdm + f)) ∨ ∃ a, a ∈ live ∧ large a ∧ b_base a <= hhdm + f < b_base a + b_size a.

(** [r0] counts the references that are not the heap's. *)
Record shape (r0 : Z → Z) (L : Z → list Z) (live : list Block) (p : P) (s : Slots) : Prop := {
  sh_tracker : tracker_ok s;
  sh_page i pg : tracked s i pg →
    (frame_ok (pg - hhdm) ∧ pg - hhdm < PHYS_LIMIT) ∧ 0 <= bucket_idx (s i) < NUM_BUCKETS ∧ total_count (s i) = 4096 / bsize (bucket_idx (s i)) ∧
    free_count (s i) = in_page pg (L (bucket_idx (s i)));
  sh_free b x : 0 <= b < NUM_BUCKETS → x ∈ L b →
    hhdm <= x < 2 ^ 64 ∧ ∃ i, tracked s i (page_of x) ∧ bucket_idx (s i) = b ∧ x mod bsize b = 0;
  sh_nodup b : 0 <= b < NUM_BUCKETS → NoDup (L b);
  sh_block i x : tracked s i (page_of x) → x mod bsize (bucket_idx (s i)) = 0 → hhdm <= x < 2 ^ 64 →
    x ∈ L (bucket_idx (s i)) ∨ ∃ a, a ∈ live ∧ b_base a = x;
  sh_live a : a ∈ live → hhdm <= b_base a ∧ b_base a + b_size a <= 2 ^ 64 ∧ (small L s a ∨ large a);
  sh_once : NoDup live;
  sh_apart a b : a ∈ live → b ∈ live → a ≠ b → apart_blocks a b;
  sh_large a i pg : a ∈ live → large a → tracked s i pg → ¬ (b_base a <= pg < b_base a + b_size a);
  sh_held f : frame_ok f → held s live f → r0 f = 0 ∧ refs p f = 1;
  sh_other f : frame_ok f → ¬ held s live f → refs p f = r0 f
}.

(** Memory agrees with the shape. *)
Record layout (L : Z → list Z) (live : list Block) (m : Mem) (buckets : list Z) : Prop := {
  la_length : length buckets = Z.to_nat NUM_BUCKETS;
  la_chain b : 0 <= b < NUM_BUCKETS → ∃ x, arr_get buckets b = Ok x ∧ chain m x (L b);
  la_header a : a ∈ live → header_ok m a
}.

(** A page all of whose blocks are free is given back. *)
Definition tight (s : Slots) (pg : Z) : Prop := ∀ i, tracked s i pg → free_count (s i) < total_count (s i).
End spec.

(** * Lemmas: sizes and pages *)

Lemma bsize_cases b : 0 <= b < NUM_BUCKETS →
  bsize b = 32 ∨ bsize b = 64 ∨ bsize b = 128 ∨ bsize b = 256 ∨ bsize b = 512 ∨ bsize b = 1024 ∨ bsize b = 2048 ∨ bsize b = 4096.
Proof.
  intros Hb. unfold NUM_BUCKETS, bsize in *. assert (b = 0 ∨ b = 1 ∨ b = 2 ∨ b = 3 ∨ b = 4 ∨ b = 5 ∨ b = 6 ∨ b = 7) as Hc by lia.
  repeat (destruct Hc as [->|Hc]; [vm_compute; tauto|]). subst. vm_compute. tauto.
Qed.

Lemma get_bucket_size_eq b : 0 <= b < NUM_BUCKETS → get_bucket_size b = bsize b.
Proof.
  intros Hb. unfold NUM_BUCKETS in Hb. assert (b = 0 ∨ b = 1 ∨ b = 2 ∨ b = 3 ∨ b = 4 ∨ b = 5 ∨ b = 6 ∨ b = 7) as Hc by lia.
  repeat (destruct Hc as [->|Hc]; [done|]). by subst.
Qed.

Lemma get_bucket_index_spec n : 0 < n <= 4096 → 0 <= get_bucket_index n < NUM_BUCKETS ∧ n <= bsize (get_bucket_index n).
Proof.
  intros Hn. unfold get_bucket_index, NUM_BUCKETS, bsize. destruct (Z.leb_spec n 32); [change (2 ^ (5 + 0)) with 32; lia|].
  destruct (Z.ltb_spec 4096 n); [lia|]. pose proof (Z.log2_spec (n - 1) ltac:(lia)) as [H1 H2].
  assert (5 <= Z.log2 (n - 1)) by (apply Z.log2_le_pow2; lia). assert (Z.log2 (n - 1) < 12) by (apply Z.log2_lt_pow2; lia).
  split; [lia|]. replace (5 + (Z.log2 (n - 1) + 1 - 5)) with (Z.succ (Z.log2 (n - 1))) by lia. lia.
Qed.

Lemma get_bucket_index_bsize b : 0 <= b < NUM_BUCKETS → get_bucket_index (bsize b) = b.
Proof.
  intros Hb. unfold NUM_BUCKETS in Hb. assert (b = 0 ∨ b = 1 ∨ b = 2 ∨ b = 3 ∨ b = 4 ∨ b = 5 ∨ b = 6 ∨ b = 7) as Hc by lia.
  repeat (destruct Hc as [->|Hc]; [done|]). by subst.
Qed.

Lemma page_of_eq x : 0 <= x < 2 ^ 64 → page_of x = x - x mod 4096.
Proof. intros Hx. exact (align_down x 12 Hx ltac:(lia)). Qed.

Lemma block_in_page b x : 0 <= b < NUM_BUCKETS → 0 <= x < 2 ^ 64 → x mod bsize b = 0 → page_of x <= x ∧ x + bsize b <= page_of x + 4096.
Proof. intros Hb Hx Hm. rewrite page_of_eq by done. destruct (bsize_cases b Hb) as [E|[E|[E|[E|[E|[E|[E|E]]]]]]]; rewrite E in *; lia. Qed.

Lemma page_aligned x : 0 <= x < 2 ^ 64 → page_of x mod 4096 = 0.
Proof. intros Hx. rewrite page_of_eq by done. lia. Qed.

Lemma bsize_range b : 0 <= b < NUM_BUCKETS → 32 <= bsize b <= 4096.
Proof. intros Hb. destruct (bsize_cases b Hb) as [E|[E|[E|[E|[E|[E|[E|E]]]]]]]; lia. Qed.

Lemma multiples_apart b x y : 0 <= b < NUM_BUCKETS → x mod bsize b = 0 → y mod bsize b = 0 → x ≠ y → x + bsize b <= y ∨ y + bsize b <= x.
Proof. intros Hb Hx Hy Hne. destruct (bsize_cases b Hb) as [E|[E|[E|[E|[E|[E|[E|E]]]]]]]; rewrite E in *; lia. Qed.

Lemma in_page_cons pg x l : in_page pg (x :: l) = in_page pg l + (if decide (page_of x = pg) then 1 else 0).
Proof. unfold in_page. rewrite filter_cons. case_decide; simpl; lia. Qed.

Lemma in_page_nonneg pg l : 0 <= in_page pg l.
Proof. unfold in_page. lia. Qed.

(** ** Memory *)

Lemma chain_agree m m' l : ∀ x, (∀ y a, y ∈ l → y <= a < y + 8 → m' a = m a) → chain m x l → chain m' x l.
Proof.
  induction l as [|y l IH]; intros x Hm; cbn [chain]; [done|]. intros (-> & Hy & Hc). split; [done|]. split; [done|].
  rewrite (load_agree m m') by (intros a Ha; apply (Hm y); [left|done]). apply IH; [|done]. intros z a Hz. apply Hm. by right.
Qed.

Lemma header_agree m m' a :
  (∀ x, b_base a <= x < b_base a + HEADER → m' x = m x) →
  (b_user a ≠ b_base a + HEADER → ∀ x, b_user a - HEADER <= x < b_user a → m' x = m x) → header_ok m a → header_ok m' a.
Proof.
  unfold HEADER. intros H1 H2 (E1 & E2 & E3). unfold header_ok, HEADER in *. rewrite !(load_agree m m') by (intros x Hx; apply H1; lia). split; [done|].
  split; [done|]. destruct (decide (b_user a = b_base a + 16)) as [E|Hne]; [by left|]. destruct E3 as [E3|(E3 & E4 & E5)]; [done|]. right. split; [done|].
  specialize (H2 Hne). rewrite !(load_agree m m') by (intros x Hx; apply H2; lia). done.
Qed.

(** The header of a block lies in the block. *)
Lemma header_agree_block m m' a :
  32 <= b_size a → (∀ x, b_base a <= x < b_base a + b_size a → m' x = m x) → header_ok m a → header_ok m' a.
Proof.
  intros Hs Hm Ho. apply (header_agree m m'); [intros x Hx; apply Hm; unfold HEADER in Hx; lia| |done]. intros Hne x Hx. apply Hm.
  destruct Ho as (_ & _ & [?|(Hr & _)]); [done|]. unfold HEADER in *. lia.
Qed.

(** * Lemmas: blocks do not overlap *)

Section apart.
Context {P : Type} `{Frames P} {ready : P → Prop} `{!FramesLaws P ready}.
Variables (hhdm : Z).
Hypothesis Hhhdm : 0 <= hhdm ∧ hhdm mod 4096 = 0 ∧ hhdm + PHYS_LIMIT < 2 ^ 64.

Section shape.
Variables (r0 : Z → Z) (L : Z → list Z) (live : list Block) (p : P) (s : Slots).
Hypothesis Sh : shape hhdm r0 L live p s.

Lemma free_same_bucket b b' x y :
  0 <= b < NUM_BUCKETS → 0 <= b' < NUM_BUCKETS → x ∈ L b → y ∈ L b' → page_of x = page_of y → b = b'.
Proof.
  intros Hb Hb' Hx Hy E. destruct (sh_free _ _ _ _ _ _ Sh b x Hb Hx) as (_ & i & Ti & <- & _).
  destruct (sh_free _ _ _ _ _ _ Sh b' y Hb' Hy) as (_ & j & Tj & <- & _). rewrite <-E in Tj.
  by rewrite (tr_unique s (sh_tracker _ _ _ _ _ _ Sh) i j (page_of x) Ti Tj).
Qed.

Lemma free_apart b b' x y :
  0 <= b < NUM_BUCKETS → 0 <= b' < NUM_BUCKETS → x ∈ L b → y ∈ L b' → x ≠ y → x + bsize b <= y ∨ y + bsize b' <= x.
Proof.
  intros Hb Hb' Hx Hy Hne. destruct (sh_free _ _ _ _ _ _ Sh b x Hb Hx) as (Rx & i & Ti & Bi & Mx).
  destruct (sh_free _ _ _ _ _ _ Sh b' y Hb' Hy) as (Ry & j & Tj & Bj & My).
  pose proof (block_in_page b x Hb ltac:(lia) Mx). pose proof (block_in_page b' y Hb' ltac:(lia) My).
  pose proof (page_aligned x ltac:(lia)). pose proof (page_aligned y ltac:(lia)).
  destruct (decide (page_of x = page_of y)) as [E|]; [|lia].
  pose proof (free_same_bucket b b' x y Hb Hb' Hx Hy E) as <-. by apply multiples_apart.
Qed.

Lemma live_size a : a ∈ live → 32 <= b_size a.
Proof.
  intros Ha. destruct (sh_live _ _ _ _ _ _ Sh a Ha) as (_ & _ & [(i & Ti & -> & _)|[Hs _]]); [|unfold MAX_BUCKET_SIZE in Hs; lia].
  destruct (sh_page _ _ _ _ _ _ Sh i _ Ti) as (_ & Hb & _). by apply bsize_range.
Qed.

Lemma free_live_apart b x a : 0 <= b < NUM_BUCKETS → x ∈ L b → a ∈ live → x + bsize b <= b_base a ∨ b_base a + b_size a <= x.
Proof.
  intros Hb Hx Ha. destruct (sh_free _ _ _ _ _ _ Sh b x Hb Hx) as (Rx & i & Ti & Bi & Mx).
  pose proof (block_in_page b x Hb ltac:(lia) Mx) as Hin. pose proof (page_aligned x ltac:(lia)).
  destruct (sh_live _ _ _ _ _ _ Sh a Ha) as (R1 & R2 & Hk). pose proof (live_size a Ha). destruct Hk as [(j & Tj & Hsz & Hm & Hn)|Hl].
  - destruct (sh_page _ _ _ _ _ _ Sh j _ Tj) as (_ & Hbj & _). pose proof (page_aligned (b_base a) ltac:(lia)). rewrite Hsz in *.
    pose proof (block_in_page _ (b_base a) Hbj ltac:(lia) Hm). destruct (decide (page_of x = page_of (b_base a))) as [E|]; [|lia].
    rewrite <-E in Tj. pose proof (tr_unique s (sh_tracker _ _ _ _ _ _ Sh) i j (page_of x) Ti Tj) as <-. rewrite Bi in *.
    apply multiples_apart; try done. intros ->. done.
  - pose proof (sh_large _ _ _ _ _ _ Sh a i (page_of x) Ha Hl Ti). destruct Hl as (_ & Hm & (_ & Hf) & _). lia.
Qed.
End shape.

(** ** Taking a free block *)

Definition set_list (L : Z → list Z) (b : Z) (l : list Z) : Z → list Z := λ b', if b' =? b then l else L b'.

Lemma set_list_same L b l : set_list L b l b = l.
Proof. unfold set_list. by rewrite Z.eqb_refl. Qed.

Lemma set_list_ne L b l b' : b' ≠ b → set_list L b l b' = L b'.
Proof. intros Hb. unfold set_list. by destruct (Z.eqb_spec b' b). Qed.

Lemma held_small s s' live a f :
  (∀ i pg, tracked s' i pg ↔ tracked s i pg) → b_size a <= 4096 → held hhdm s' (a :: live) f ↔ held hhdm s live f.
Proof.
  intros Ht Ha. unfold held. setoid_rewrite Ht. split; (intros [?|(c & Hc & Hl & Hr)]; [by left|right; exists c; split; [|done]]).
  - apply elem_of_cons in Hc as [->|?]; [|done]. destruct Hl as (Hl & _). unfold MAX_BUCKET_SIZE in Hl. lia.
  - by right.
Qed.

(** A new block that overlaps none. *)
Lemma apart_cons (a : Block) live :
  0 < b_size a → (∀ c, c ∈ live → apart_blocks a c) → NoDup live → (∀ c d, c ∈ live → d ∈ live → c ≠ d → apart_blocks c d) →
  NoDup (a :: live) ∧ ∀ c d, c ∈ a :: live → d ∈ a :: live → c ≠ d → apart_blocks c d.
Proof.
  intros Hs Ha Hn Hl. split.
  - apply NoDup_cons. split; [|done]. intros Hin. destruct (Ha a Hin); lia.
  - intros c d [->|Hc]%elem_of_cons [->|Hd]%elem_of_cons Hne; [done|by apply Ha| |by apply Hl]. destruct (Ha c Hc); [by right|by left].
Qed.

Section pop.
Variables (r0 : Z → Z) (L : Z → list Z) (live : list Block) (p : P) (s : Slots) (b x : Z) (l : list Z).
Hypothesis Sh : shape hhdm r0 L live p s.
Hypothesis Hb : 0 <= b < NUM_BUCKETS.
Hypothesis Hl : L b = x :: l.
Let a := mkBlock (x + HEADER) x (bsize b).
Let L' := set_list L b l.
Let s' := page_tracker_alloc_block x s.

Lemma P_slot : ∃ i, tracked s i (page_of x) ∧ bucket_idx (s i) = b ∧ x mod bsize b = 0 ∧ hhdm <= x < 2 ^ 64 ∧ 0 < free_count (s i) ∧
  s' = set_slot s i (mkSlot (page_virt (s i)) b (free_count (s i) - 1) (total_count (s i))).
Proof.
  destruct (sh_free _ _ _ _ _ _ Sh b x Hb) as (Rx & i & Ti & Bi & Mx); [rewrite Hl; left|]. exists i. split; [done|]. split; [done|]. split; [done|].
  split; [done|]. destruct (sh_page _ _ _ _ _ _ Sh i _ Ti) as (_ & _ & _ & Hf). rewrite Bi, Hl, in_page_cons, decide_True in Hf by done.
  pose proof (in_page_nonneg (page_of x) l). split; [lia|]. unfold s', page_tracker_alloc_block.
  rewrite (page_tracker_find_some s i) by (done || apply Sh). destruct (Z.ltb_spec 0 (free_count (s i))); [|lia]. by rewrite Bi.
Qed.

Lemma P_tracked i pg : tracked s' i pg ↔ tracked s i pg.
Proof. destruct P_slot as (j & _ & _ & _ & _ & _ & ->). by apply tracked_update. Qed.

Lemma P_bucket i : bucket_idx (s' i) = bucket_idx (s i).
Proof. destruct P_slot as (j & _ & Bj & _ & _ & _ & ->). unfold set_slot. by destruct (Z.eqb_spec i j) as [->|]. Qed.

Lemma P_not_free : x ∉ l.
Proof. pose proof (sh_nodup _ _ _ _ _ _ Sh b Hb) as Hn. rewrite Hl in Hn. by apply NoDup_cons in Hn as [? _]. Qed.

Lemma P_sub b' y : y ∈ L' b' → y ∈ L b'.
Proof. unfold L', set_list. destruct (Z.eqb_spec b' b) as [->|]; [|done]. rewrite Hl. by right. Qed.

Lemma P_apart c : c ∈ live → apart_blocks a c.
Proof. intros Hc. apply (free_live_apart r0 L live p s Sh b x c); [done|rewrite Hl; left|done]. Qed.

Lemma pop_shape : shape hhdm r0 L' (a :: live) p s'.
Proof.
  destruct P_slot as (i0 & T0 & B0 & M0 & R0 & F0 & E0). pose proof (bsize_range b Hb). pose proof (block_in_page b x Hb ltac:(lia) M0) as Hin.
  split.
  - rewrite E0. apply tracker_update; [apply Sh| |by left]. destruct T0 as (_ & -> & ? & _). done.
  - intros i pg Ti. rewrite P_bucket. apply P_tracked in Ti. destruct (sh_page _ _ _ _ _ _ Sh i pg Ti) as (H1 & H2 & H3 & H4). split; [done|]. split; [done|].
    rewrite E0. unfold set_slot. destruct (Z.eqb_spec i i0) as [->|Hne]; cbn [total_count free_count].
    + split; [done|]. rewrite H4, B0. unfold L'. rewrite set_list_same, Hl, in_page_cons. destruct Ti as (_ & <- & _), T0 as (_ & -> & _).
      rewrite decide_True by done. lia.
    + split; [done|]. rewrite H4. unfold L', set_list. destruct (Z.eqb_spec (bucket_idx (s i)) b) as [->|]; [|done].
      rewrite Hl, in_page_cons, decide_False; [lia|]. intros E. rewrite E in T0. by apply Hne, (tr_unique s (sh_tracker _ _ _ _ _ _ Sh) i i0 pg).
  - intros b' y Hb' Hy. destruct (sh_free _ _ _ _ _ _ Sh b' y Hb' (P_sub b' y Hy)) as (H1 & i & H2 & H3 & H4). split; [done|]. exists i.
    by rewrite P_tracked, P_bucket.
  - intros b' Hb'. pose proof (sh_nodup _ _ _ _ _ _ Sh b' Hb') as Hn. unfold L', set_list. destruct (Z.eqb_spec b' b) as [->|]; [|done].
    rewrite Hl in Hn. by apply NoDup_cons in Hn as [_ ?].
  - intros i y Ti. rewrite P_bucket. apply P_tracked in Ti. intros Hm Hr. destruct (sh_block _ _ _ _ _ _ Sh i y Ti Hm Hr) as [Hy|(c & Hc & Ec)].
    + unfold L', set_list. destruct (Z.eqb_spec (bucket_idx (s i)) b) as [Eb|]; [|by left]. rewrite Eb, Hl in Hy.
      apply elem_of_cons in Hy as [->|?]; [|by left]. right. exists a. split; [left|done].
    + right. exists c. split; [by right|done].
  - intros c Hc. apply elem_of_cons in Hc as [->|Hc].
    + cbn [a b_base b_size]. split; [lia|]. split.
      { destruct (sh_page _ _ _ _ _ _ Sh i0 _ T0) as (([Hf Hfm] & Hlim) & _). unfold PHYS_LIMIT in *. lia. }
      left. exists i0. cbn [a b_base b_size]. rewrite P_tracked, P_bucket, B0. split; [done|]. split; [done|]. split; [done|].
      unfold L'. rewrite set_list_same. apply P_not_free.
    + destruct (sh_live _ _ _ _ _ _ Sh c Hc) as (H1 & H2 & H3). split; [done|]. split; [done|]. destruct H3 as [(i & H3 & H4 & H5 & H6)|]; [left|by right].
      exists i. rewrite P_tracked, P_bucket. split; [done|]. split; [done|]. split; [done|]. intros Hin'. by apply H6, P_sub.
  - apply apart_cons; [cbn [a b_size]; lia|apply P_apart|apply Sh|apply Sh].
  - apply apart_cons; [cbn [a b_size]; lia|apply P_apart|apply Sh|apply Sh].
  - intros c i pg Hc Hlc Ti. apply P_tracked in Ti. apply elem_of_cons in Hc as [->|Hc]; [|by eapply (sh_large _ _ _ _ _ _ Sh)].
    destruct Hlc as [Hlc _]. cbn [a b_size] in Hlc. unfold MAX_BUCKET_SIZE in Hlc. lia.
  - intros f Hf Hh. apply (held_small s s' live a) in Hh; [by apply (sh_held _ _ _ _ _ _ Sh)|apply P_tracked|cbn [a b_size]; lia].
  - intros f Hf Hh. apply (sh_other _ _ _ _ _ _ Sh); [done|]. intros Hh'. apply Hh, (held_small s s' live a); [apply P_tracked|cbn [a b_size]; lia|done].
Qed.

Lemma pop_tight pg : pg = page_of x ∨ tight s pg → (∀ i, tracked s i (page_of x) → free_count (s i) <= total_count (s i)) → tight s' pg.
Proof.
  intros Ht Hle i Ti. destruct P_slot as (i0 & T0 & B0 & M0 & R0 & F0 & E0). apply P_tracked in Ti. rewrite E0. unfold set_slot.
  destruct (Z.eqb_spec i i0) as [->|Hne]; cbn [free_count total_count].
  - specialize (Hle i0 T0). lia.
  - destruct Ht as [->|Ht]; [|by apply Ht]. by destruct Hne; apply (tr_unique s (sh_tracker _ _ _ _ _ _ Sh) i i0 (page_of x)).
Qed.

Lemma pop_layout m buckets :
  layout L live m buckets →
  arr_get buckets b = Ok x ∧ x ≠ 0 ∧
  ∃ buckets', arr_set buckets b (load64 m x) = Ok buckets' ∧ layout L' (a :: live) (write_header x (bsize b) m) buckets' ∧
    ∀ y, ¬ (x <= y < x + HEADER) → write_header x (bsize b) m y = m y.
Proof.
  intros [La1 La2 La3]. destruct (La2 b Hb) as (h & Eh & Hc). rewrite Hl in Hc. cbn [chain] in Hc. destruct Hc as (-> & Hx & Hc).
  split; [done|]. split; [done|]. pose proof (bsize_range b Hb).
  assert (Hout : ∀ y, ¬ (x <= y < x + HEADER) → write_header x (bsize b) m y = m y).
  { intros y Hy. unfold write_header, HEADER in *. rewrite !store_out by lia. done. }
  assert (Hlen : 0 <= b < Z.of_nat (length buckets)) by (unfold NUM_BUCKETS in *; lia).
  rewrite arr_set_in by done. eexists. split; [done|]. split; [|done]. split.
  - by rewrite length_insert.
  - intros b' Hb'. assert (Hag : ∀ y c, y ∈ L' b' → y <= c < y + 8 → write_header x (bsize b) m c = m c).
    { intros y c Hy Hcy. apply Hout. assert (y ≠ x).
      { intros ->. unfold L', set_list in Hy. destruct (Z.eqb_spec b' b) as [->|Hne]; [by apply P_not_free|].
        apply Hne. apply (free_same_bucket r0 L live p s Sh b' b x x); try done. rewrite Hl. left. }
      destruct (free_apart r0 L live p s Sh b' b y x) as [Ha|Ha]; try done; [by apply P_sub|rewrite Hl; left| |].
      - pose proof (bsize_range b' Hb'). unfold HEADER. lia.
      - unfold HEADER. lia. }
    unfold L', set_list in *. destruct (Z.eqb_spec b' b) as [->|Hne].
    + exists (load64 m x). split; [apply arr_get_Ok; split; [lia|]; apply list_lookup_insert_eq; lia|]. by apply (chain_agree m).
    + destruct (La2 b' Hb') as (h & Eh' & Hc'). exists h. split; [|by apply (chain_agree m)].
      apply arr_get_Ok in Eh' as [H1 H2]. apply arr_get_Ok. split; [done|]. by rewrite list_lookup_insert_ne by lia.
  - intros c Hc'. apply elem_of_cons in Hc' as [->|Hc'].
    + unfold header_ok. cbn [a b_base b_size b_user]. unfold write_header. split; [|split; [|by left]].
      * rewrite (load_agree (store64 m x (bsize b))) by (intros y Hy; apply store_out; lia). apply load_store. lia.
      * apply load_store. unfold HEAP_MAGIC. lia.
    + apply (header_agree_block m); [by apply (live_size r0 L live p s Sh)| |by apply La3]. intros y Hy. apply Hout.
      destruct (P_apart c Hc') as [Ha|Ha]; cbn [a b_base b_size] in Ha; unfold HEADER; lia.
Qed.
End pop.

(** ** A new page *)

Fixpoint pushed (pg bs : Z) (n : nat) : list Z :=
  match n with O => [] | S n' => (pg + Z.of_nat n' * bs) :: pushed pg bs n' end.

Lemma elem_of_pushed pg bs n x : x ∈ pushed pg bs n ↔ ∃ i, 0 <= i < Z.of_nat n ∧ x = pg + i * bs.
Proof.
  induction n as [|n IH]; cbn [pushed].
  - split; [by intros ?%not_elem_of_nil|]. intros (i & Hi & _). lia.
  - rewrite elem_of_cons, IH. split.
    + intros [->|(i & Hi & ->)]; [exists (Z.of_nat n)|exists i]; (split; [lia|done]).
    + intros (i & Hi & ->). destruct (decide (i = Z.of_nat n)) as [->|]; [by left|]. right. exists i. split; [lia|done].
Qed.

Lemma NoDup_pushed pg bs n : 0 < bs → NoDup (pushed pg bs n).
Proof.
  intros Hbs. induction n as [|n IH]; cbn [pushed]; [apply NoDup_nil_2|]. apply NoDup_cons. split; [|done].
  rewrite elem_of_pushed. intros (i & Hi & E). nia.
Qed.

Lemma length_pushed pg bs n : length (pushed pg bs n) = n.
Proof. induction n as [|n IH]; cbn [pushed length]; [done|]. by rewrite IH. Qed.

Lemma in_page_all pg l : (∀ x, x ∈ l → page_of x = pg) → in_page pg l = Z.of_nat (length l).
Proof.
  induction l as [|x l IH]; intros Hl; [done|]. rewrite in_page_cons, IH, decide_True by (intros; apply Hl; by (left || right)).
  simpl. lia.
Qed.

Lemma in_page_none pg l : (∀ x, x ∈ l → page_of x ≠ pg) → in_page pg l = 0.
Proof.
  induction l as [|x l IH]; intros Hl; [done|]. rewrite in_page_cons, IH, decide_False by (intros; apply Hl; by (left || right)). done.
Qed.

(** The blocks of a page. *)
Lemma page_blocks b pg x :
  0 <= b < NUM_BUCKETS → hhdm <= pg → pg mod 4096 = 0 → pg + 4096 <= 2 ^ 64 →
  x ∈ pushed pg (bsize b) (Z.to_nat (4096 / bsize b)) ↔ hhdm <= x < 2 ^ 64 ∧ page_of x = pg ∧ x mod bsize b = 0.
Proof.
  intros Hb Hp Hm Hr. rewrite elem_of_pushed.
  assert (Hd : 0 <= 4096 / bsize b) by (destruct (bsize_cases b Hb) as [E|[E|[E|[E|[E|[E|[E|E]]]]]]]; rewrite E; lia).
  rewrite Z2Nat.id by done. split.
  - intros (i & Hi & ->). assert (Hx : hhdm <= pg + i * bsize b < pg + 4096 ∧ (pg + i * bsize b) mod bsize b = 0).
    { destruct (bsize_cases b Hb) as [E|[E|[E|[E|[E|[E|[E|E]]]]]]]; rewrite E in *; lia. }
    split; [lia|]. split; [|lia]. rewrite page_of_eq by lia. lia.
  - intros (Hx & Hpg & Hmx). rewrite page_of_eq in Hpg by lia. exists ((x - pg) / bsize b).
    destruct (bsize_cases b Hb) as [E|[E|[E|[E|[E|[E|[E|E]]]]]]]; rewrite E in *; lia.
Qed.

Lemma push_blocks pg b n m buckets :
  0 <= b < NUM_BUCKETS → 0 < pg → pg + Z.of_nat n * bsize b <= 2 ^ 64 →
  length buckets = Z.to_nat NUM_BUCKETS → arr_get buckets b = Ok 0 →
  ∃ m' buckets', for_upto n 0 (push_block pg b (bsize b)) (m, buckets) = Ok (m', buckets') ∧
    length buckets' = Z.to_nat NUM_BUCKETS ∧
    (∃ h, arr_get buckets' b = Ok h ∧ chain m' h (pushed pg (bsize b) n)) ∧
    (∀ b', b' ≠ b → 0 <= b' → arr_get buckets' b' = arr_get buckets b') ∧
    ∀ x, ¬ (pg <= x < pg + Z.of_nat n * bsize b) → m' x = m x.
Proof.
  intros Hb Hpg Hr Hlen H0. pose proof (bsize_range b Hb) as Hbs.
  destruct (for_upto_rule (λ k (st : Mem * list Z), length st.2 = Z.to_nat NUM_BUCKETS ∧
    (∃ h, arr_get st.2 b = Ok h ∧ 0 <= h < 2 ^ 64 ∧ chain st.1 h (pushed pg (bsize b) (Z.to_nat k))) ∧
    (∀ b', b' ≠ b → 0 <= b' → arr_get st.2 b' = arr_get buckets b') ∧
    ∀ x, ¬ (pg <= x < pg + k * bsize b) → st.1 x = m x) (push_block pg b (bsize b)) n 0 (m, buckets)) as ([m' bk] & E & I1 & (h & I2 & _ & I3) & I4 & I5).
  - intros k [m1 bk1] Hk (I1 & (h & I2 & I6 & I3) & I4 & I5). cbn [fst snd] in *. unfold push_block.
    rewrite u64_small by nia. rewrite I2. cbn [mbind res_bind]. rewrite arr_set_in by (rewrite I1; unfold NUM_BUCKETS in *; lia). cbn [mbind res_bind].
    eexists. split; [done|]. cbn [fst snd]. split; [by rewrite length_insert|]. split; [|split].
    + exists (pg + k * bsize b). split; [apply arr_get_Ok; split; [lia|]; apply list_lookup_insert_eq; rewrite I1; unfold NUM_BUCKETS in *; lia|].
      split; [nia|]. replace (Z.to_nat (k + 1)) with (S (Z.to_nat k)) by lia. cbn [pushed chain]. rewrite Z2Nat.id by lia. split; [done|]. split; [nia|].
      rewrite load_store by done. apply (chain_agree m1); [|done]. intros y c Hy Hc. apply store_out. apply elem_of_pushed in Hy as (i & Hi & ->).
      rewrite Z2Nat.id in Hi by lia. nia.
    + intros b' Hne Hb'. rewrite <-I4 by done. unfold arr_get. destruct (b' <? 0); [done|]. by rewrite list_lookup_insert_ne by lia.
    + intros x Hx. rewrite store_out by nia. apply I5. nia.
  - cbn [fst snd]. split; [done|]. split; [exists 0; split; [done|]; split; [lia|done]|]. split; [done|]. done.
  - exists m', bk. rewrite Z.add_0_l in *. rewrite Nat2Z.id in I3. split; [done|]. split; [done|]. split; [by exists h|]. by split.
Qed.

Section grow.
Variables (r0 : Z → Z) (L : Z → list Z) (live : list Block) (p : P) (s : Slots) (b f : Z) (p' : P) (s' : Slots).
Hypothesis Sh : shape hhdm r0 L live p s.
Hypothesis Hb : 0 <= b < NUM_BUCKETS.
Hypothesis Hl : L b = [].
Hypothesis Hf : frame_ok f.
Hypothesis Hlim : f < PHYS_LIMIT.
Hypothesis Hfree : refs p f = 0.
Hypothesis Hp' : ∀ g, frame_ok g → refs p' g = if decide (g = f) then 1 else refs p g.
Let pg := hhdm + f.
Hypothesis Hadd : page_tracker_add pg b (4096 / bsize b) s = Some s'.
Let blocks := pushed pg (bsize b) (Z.to_nat (4096 / bsize b)).
Let L' := set_list L b blocks.

Lemma G_page : hhdm <= pg ∧ pg mod 4096 = 0 ∧ pg + 4096 <= 2 ^ 64 ∧ 4096 <= pg.
Proof. destruct Hf as [H1 H2]. unfold pg, PHYS_LIMIT in *. lia. Qed.

Lemma G_not_held : ¬ held hhdm s live f.
Proof. intros Hh. destruct (sh_held _ _ _ _ _ _ Sh f Hf Hh). lia. Qed.

Lemma G_untracked i : ¬ tracked s i pg.
Proof. intros Ht. apply G_not_held. left. by exists i. Qed.

Lemma G_add : tracker_ok s' ∧ ∃ i, s' = set_slot s i (mkSlot pg b (4096 / bsize b) (4096 / bsize b)) ∧
  ∀ j q, tracked s' j q ↔ tracked s j q ∨ (j = i ∧ q = pg).
Proof.
  pose proof G_page. destruct (page_tracker_add_spec s s' pg b (4096 / bsize b)) as (H1 & i & _ & H2 & H3); try done;
    [apply Sh|apply G_untracked|unfold SLOT_EMPTY; lia|unfold SLOT_TOMBSTONE; lia|]. split; [done|]. by exists i.
Qed.

Lemma G_slot i q : tracked s i q → s' i = s i.
Proof.
  intros Ti. destruct G_add as (Ht & j & E & Hiff). destruct (decide (i = j)) as [->|Hne]; [|by rewrite E, set_slot_ne].
  assert (Hq : tracked s' j q) by (apply Hiff; by left). assert (Hpg : tracked s' j pg) by (apply Hiff; by right).
  assert (q = pg) as ->; [|by destruct (G_untracked j)]. destruct Hq as (_ & <- & _), Hpg as (_ & <- & _). done.
Qed.

Lemma G_blocks x : x ∈ blocks ↔ hhdm <= x < 2 ^ 64 ∧ page_of x = pg ∧ x mod bsize b = 0.
Proof. apply page_blocks; [done|apply G_page..]. Qed.

Lemma G_count q : in_page q (L' b) = if decide (q = pg) then 4096 / bsize b else 0.
Proof.
  unfold L'. rewrite set_list_same. assert (0 <= 4096 / bsize b) by (apply Z.div_pos; pose proof (bsize_range b Hb); lia).
  case_decide as Hq.
  - subst q. rewrite in_page_all; [unfold blocks; rewrite length_pushed; lia|]. by intros x (_ & ? & _)%G_blocks.
  - apply in_page_none. intros x (_ & -> & _)%G_blocks. congruence.
Qed.

Lemma grow_shape : shape hhdm r0 L' live p' s'.
Proof.
  destruct G_add as (Ht & i0 & E0 & Hiff). pose proof G_page as Hpg. pose proof G_not_held as Hnh.
  assert (Hnew : s' i0 = mkSlot pg b (4096 / bsize b) (4096 / bsize b)) by (by rewrite E0, set_slot_same).
  assert (Hheld : ∀ g, held hhdm s' live g ↔ held hhdm s live g ∨ g = f).
  { intros g. unfold held. setoid_rewrite Hiff. split.
    - intros [(i & [?|[_ Hq]])|?]; [left; left; by exists i|right; unfold pg in Hq; lia|left; by right].
    - intros [[(i & ?)|?]| ->]; [left; exists i; by left|by right|left; exists i0; by right]. }
  split.
  - done.
  - intros i q Ti. apply Hiff in Ti as [Ti|[-> ->]].
    + rewrite (G_slot i q Ti). destruct (sh_page _ _ _ _ _ _ Sh i q Ti) as (H1 & H2 & H3 & H4). do 3 (split; [done|]). rewrite H4.
      destruct (decide (bucket_idx (s i) = b)) as [Eb|Eb]; [|unfold L'; by rewrite set_list_ne]. rewrite Eb, Hl, G_count, decide_False; [done|].
      intros ->. by apply (G_untracked i).
    + rewrite Hnew. cbn [bucket_idx total_count free_count]. replace (pg - hhdm) with f by (unfold pg; lia). rewrite G_count, decide_True by done. done.
  - intros b' x Hb' Hx. destruct (decide (b' = b)) as [->|Hne].
    + unfold L' in Hx. rewrite set_list_same in Hx. apply G_blocks in Hx as (H1 & H2 & H3). split; [done|]. exists i0. rewrite Hnew. split; [|done].
      apply Hiff. by right.
    + unfold L' in Hx. rewrite set_list_ne in Hx by done. destruct (sh_free _ _ _ _ _ _ Sh b' x Hb' Hx) as (H1 & i & H2 & H3 & H4). split; [done|].
      exists i. rewrite (G_slot i _ H2). split; [apply Hiff; by left|done].
  - intros b' Hb'. destruct (decide (b' = b)) as [->|Hne]; unfold L'; [rewrite set_list_same|rewrite set_list_ne by done; by apply Sh].
    apply NoDup_pushed. pose proof (bsize_range b Hb). lia.
  - intros i x Ti Hm Hr. apply Hiff in Ti as [Ti|[-> Hq]].
    + rewrite (G_slot i _ Ti) in *. destruct (sh_block _ _ _ _ _ _ Sh i x Ti Hm Hr) as [Hx|?]; [|by right].
      destruct (decide (bucket_idx (s i) = b)) as [Eb|Eb]; [rewrite Eb, Hl in Hx; by apply not_elem_of_nil in Hx|]. left. unfold L'. by rewrite set_list_ne.
    + left. rewrite Hnew in *. cbn [bucket_idx] in *. unfold L'. rewrite set_list_same. by apply G_blocks.
  - intros a Ha. destruct (sh_live _ _ _ _ _ _ Sh a Ha) as (H1 & H2 & H3). split; [done|]. split; [done|]. destruct H3 as [(i & T & H4 & H5 & H6)|]; [|by right].
    left. exists i. rewrite (G_slot i _ T). split; [apply Hiff; by left|]. split; [done|]. split; [done|].
    destruct (decide (bucket_idx (s i) = b)) as [Eb|Eb]; unfold L'; [rewrite Eb, set_list_same|by rewrite set_list_ne].
    intros (_ & E & _)%G_blocks. rewrite E in T. by apply (G_untracked i).
  - apply Sh.
  - apply Sh.
  - intros a i q Ha Hla Ti. apply Hiff in Ti as [Ti|[-> ->]]; [by eapply (sh_large _ _ _ _ _ _ Sh)|]. intros Hin. apply Hnh. right. by exists a.
  - intros g Hg Hh. apply Hheld in Hh as [Hh| ->].
    + destruct (sh_held _ _ _ _ _ _ Sh g Hg Hh) as [H1 H2]. split; [done|]. rewrite Hp', decide_False by (done || (intros ->; lia)). done.
    + rewrite Hp', decide_True by done. split; [|done]. rewrite <-Hfree. symmetry. by apply (sh_other _ _ _ _ _ _ Sh).
  - intros g Hg Hh. rewrite Hp' by done. rewrite decide_False by (intros ->; apply Hh, Hheld; by right). apply (sh_other _ _ _ _ _ _ Sh); [done|].
    intros Hh'. apply Hh, Hheld. by left.
Qed.

Lemma G_free_outside b' x : 0 <= b' < NUM_BUCKETS → x ∈ L b' → x + bsize b' <= pg ∨ pg + 4096 <= x.
Proof.
  intros Hb' Hx. destruct (sh_free _ _ _ _ _ _ Sh b' x Hb' Hx) as (R & i & T & _ & M). pose proof (block_in_page b' x Hb' ltac:(lia) M).
  pose proof (page_aligned x ltac:(lia)). pose proof G_page. destruct (decide (page_of x = pg)) as [E|]; [|lia].
  rewrite E in T. by destruct (G_untracked i).
Qed.

Lemma G_live_outside a : a ∈ live → b_base a + b_size a <= pg ∨ pg + 4096 <= b_base a.
Proof.
  intros Ha. destruct (sh_live _ _ _ _ _ _ Sh a Ha) as (R1 & R2 & Hk). pose proof (live_size r0 L live p s Sh a Ha). pose proof G_page as Hpg.
  destruct Hk as [(j & Tj & Hsz & Hm & _)|Hla].
  - destruct (sh_page _ _ _ _ _ _ Sh j _ Tj) as (_ & Hbj & _). pose proof (page_aligned (b_base a) ltac:(lia)). rewrite Hsz in *.
    pose proof (block_in_page _ (b_base a) Hbj ltac:(lia) Hm). destruct (decide (page_of (b_base a) = pg)) as [E|]; [|lia].
    rewrite E in Tj. by destruct (G_untracked j).
  - assert (¬ (b_base a <= pg < b_base a + b_size a)) by (intros Hin; apply G_not_held; right; by exists a).
    destruct Hla as (_ & Hm & (_ & Hfm) & _). lia.
Qed.

Lemma grow_layout m buckets :
  layout L live m buckets →
  ∃ m' buckets', for_upto (Z.to_nat (4096 / bsize b)) 0 (push_block pg b (bsize b)) (zero_memory m pg 4096, buckets) = Ok (m', buckets') ∧
    layout L' live m' buckets' ∧ ∀ x, ¬ (pg <= x < pg + 4096) → m' x = m x.
Proof.
  intros [La1 La2 La3]. destruct (La2 b Hb) as (h & Eh & Hc). rewrite Hl in Hc. cbn [chain] in Hc. subst h. pose proof G_page as Hpg.
  assert (Hd : Z.of_nat (Z.to_nat (4096 / bsize b)) * bsize b = 4096).
  { destruct (bsize_cases b Hb) as [E|[E|[E|[E|[E|[E|[E|E]]]]]]]; rewrite E; done. }
  destruct (push_blocks pg b (Z.to_nat (4096 / bsize b)) (zero_memory m pg 4096) buckets) as (m' & bk' & E & H1 & (h & H2 & H3) & H4 & H5);
    [done|lia|lia|done|done|]. rewrite Hd in H5.
  assert (Hout : ∀ x, ¬ (pg <= x < pg + 4096) → m' x = m x) by (intros x Hx; rewrite H5, zero_out by done; done).
  exists m', bk'. split; [done|]. split; [|done]. split.
  - done.
  - intros b' Hb'. destruct (decide (b' = b)) as [->|Hne]; unfold L'.
    + rewrite set_list_same. by exists h.
    + rewrite set_list_ne by done. destruct (La2 b' Hb') as (h' & Eh' & Hc'). exists h'. rewrite H4 by (done || lia). split; [done|].
      apply (chain_agree m); [|done]. intros y c Hy Hcy. apply Hout. pose proof (bsize_range b' Hb'). destruct (G_free_outside b' y Hb' Hy); lia.
  - intros a Ha. apply (header_agree_block m); [by apply (live_size r0 L live p s Sh)| |by apply La3]. intros x Hx. apply Hout.
    destruct (G_live_outside a Ha); lia.
Qed.
End grow.

Lemma shape_refs r0 L live p p' s :
  shape hhdm r0 L live p s → (∀ g, frame_ok g → refs p' g = refs p g) → shape hhdm r0 L live p' s.
Proof.
  intros [S1 S2 S3 S4 S5 S6 S0 S7 S8 S9 S10] Hp. split; try done; intros f Hf Hh; rewrite Hp by done; [by apply S9|by apply S10].
Qed.

(** The order of the live blocks is of no importance. *)
Lemma shape_perm r0 L live live' p s : live ≡ₚ live' → shape hhdm r0 L live p s → shape hhdm r0 L live' p s.
Proof.
  intros Hp [S1 S2 S3 S4 S5 S6 S0 S7 S8 S9 S10]. assert (Hin : ∀ a, a ∈ live' ↔ a ∈ live) by (intros a; by rewrite Hp).
  assert (Hh : ∀ f, held hhdm s live' f ↔ held hhdm s live f) by (intros f; unfold held; by setoid_rewrite Hin).
  split; try done.
  - intros i x Ti Hm Hr. destruct (S5 i x Ti Hm Hr) as [?|(a & Ha & E)]; [by left|]. right. exists a. by rewrite Hin.
  - intros a. rewrite Hin. apply S6.
  - by rewrite <-Hp.
  - intros a b. rewrite !Hin. apply S7.
  - intros a i pg. rewrite Hin. apply S8.
  - intros f Hf. rewrite Hh. by apply S9.
  - intros f Hf. rewrite Hh. by apply S10.
Qed.

(** The shape does not depend on the pointers handed out. *)
Lemma shape_retag r0 L a live p s u : shape hhdm r0 L (a :: live) p s → shape hhdm r0 L (mkBlock u (b_base a) (b_size a) :: live) p s.
Proof.
  intros Sh. pose proof Sh as [S1 S2 S3 S4 S5 S6 S0 S7 S8 S9 S10]. set (a' := mkBlock u (b_base a) (b_size a)). apply NoDup_cons in S0 as [Hna Hnd].
  assert (Hap : ∀ c, c ∈ live → apart_blocks a c) by (intros c Hc; apply S7; [left|by right|congruence]).
  pose proof (live_size r0 L (a :: live) p s Sh a ltac:(left)) as Hsz.
  assert (Hlg : large hhdm a' ↔ large hhdm a) by done.
  assert (Hh : ∀ f, held hhdm s (a' :: live) f ↔ held hhdm s (a :: live) f).
  { intros f. unfold held. split; (intros [?|(c & [->|Hc]%elem_of_cons & Hl & Hr)]; [by left| |right; exists c; split; [by right|done]]).
    - right. exists a. split; [left|done].
    - right. exists a'. split; [left|done]. }
  split; try done.
  - intros i x Ti Hm Hr. destruct (S5 i x Ti Hm Hr) as [?|(c & [->|Hc]%elem_of_cons & E)]; [by left| |].
    + right. exists a'. split; [left|done].
    + right. exists c. split; [by right|done].
  - intros c [->|Hc]%elem_of_cons; [apply (S6 a); left|apply S6; by right].
  - apply NoDup_cons. split; [|done]. intros Hc. destruct (Hap a' Hc); unfold a' in *; cbn [b_base b_size] in *; lia.
  - intros c d [->|Hc]%elem_of_cons [->|Hd]%elem_of_cons Hne; [done|by apply (Hap d)| |by apply S7; [right|right|]].
    destruct (Hap c Hc); [by right|by left].
  - intros c i pg [->|Hc]%elem_of_cons; [apply (S8 a); left|apply S8; by right].
  - intros f Hf. rewrite Hh. by apply S9.
  - intros f Hf. rewrite Hh. by apply S10.
Qed.

Lemma layout_perm L live live' m buckets : live ≡ₚ live' → layout L live m buckets → layout L live' m buckets.
Proof. intros Hp [L1 L2 L3]. split; [done|done|]. intros a. rewrite <-Hp. apply L3. Qed.

(** ** Whole frames *)

Section frames.
Variables (r0 : Z → Z) (L : Z → list Z) (live : list Block) (p : P) (s : Slots) (f n : Z) (p' : P).
Hypothesis Sh : shape hhdm r0 L live p s.
Hypothesis Hf : frame_ok f.
Hypothesis Hn : 2 <= n.
Hypothesis Hend : f + n * 4096 <= PHYS_LIMIT.
Hypothesis Hp' : ∀ g, frame_ok g → refs p' g = (if decide (f <= g < f + n * 4096) then 1 else refs p g) ∧ (f <= g < f + n * 4096 → refs p g = 0).
Let a := mkBlock (hhdm + f + HEADER) (hhdm + f) (n * 4096).

Lemma F_large : large hhdm a.
Proof.
  destruct Hf as [H1 H2]. unfold large, MAX_BUCKET_SIZE. cbn [a b_base b_size]. replace (hhdm + f - hhdm) with f by lia.
  split; [lia|]. split; [lia|]. split; [by split|]. lia.
Qed.

Lemma F_not_held g : frame_ok g → f <= g < f + n * 4096 → ¬ held hhdm s live g.
Proof. intros Hg Hr Hh. destruct (sh_held _ _ _ _ _ _ Sh g Hg Hh) as [_ E1]. destruct (Hp' g Hg) as [_ E0]. rewrite (E0 Hr) in E1. lia. Qed.

Lemma F_apart c : c ∈ live → apart_blocks a c.
Proof.
  intros Hc. unfold apart_blocks. cbn [a b_base b_size]. destruct (sh_live _ _ _ _ _ _ Sh c Hc) as (R1 & R2 & Hk).
  pose proof (live_size r0 L live p s Sh c Hc). pose proof Hf as [Hf1 Hf2]. destruct Hk as [(j & Tj & Hsz & Hm & _)|Hla].
  - destruct (sh_page _ _ _ _ _ _ Sh j _ Tj) as ((Hfr & _) & Hbj & _). pose proof (page_aligned (b_base c) ltac:(lia)). rewrite Hsz in *.
    pose proof (block_in_page _ (b_base c) Hbj ltac:(lia) Hm).
    destruct (decide (f <= page_of (b_base c) - hhdm < f + n * 4096)) as [Hin|]; [|lia]. destruct (F_not_held _ Hfr Hin). left. exists j.
    by replace (hhdm + (page_of (b_base c) - hhdm)) with (page_of (b_base c)) by lia.
  - pose proof Hla as (_ & Hm & (Hc1 & Hc2) & He). destruct (decide (b_base c <= hhdm + f < b_base c + b_size c)) as [Hin|].
    { destruct (F_not_held f Hf ltac:(lia)). right. by exists c. }
    destruct (decide (f <= b_base c - hhdm < f + n * 4096)) as [Hin|]; [|lia]. destruct (F_not_held (b_base c - hhdm) ltac:(by split) Hin). right.
    exists c. split; [done|]. split; [done|]. lia.
Qed.

Lemma F_held g : held hhdm s (a :: live) g ↔ held hhdm s live g ∨ f <= g < f + n * 4096.
Proof.
  unfold held. split.
  - intros [?|(c & Hc & Hl & Hr)]; [left; by left|]. apply elem_of_cons in Hc as [->|Hc]; [right; cbn [a b_base b_size] in Hr; lia|].
    left. right. by exists c.
  - intros [[?|(c & Hc & Hl & Hr)]|Hr]; [by left|right; exists c; split; [by right|done]|]. right. exists a. split; [left|].
    split; [apply F_large|]. cbn [a b_base b_size]. lia.
Qed.

Lemma frames_shape : shape hhdm r0 L (a :: live) p' s.
Proof.
  pose proof Sh as [S1 S2 S3 S4 S5 S6 S0 S7 S8 S9 S10]. pose proof Hf as [Hf1 Hf2]. split; try done.
  - intros i x Ti Hm Hr. destruct (S5 i x Ti Hm Hr) as [?|(c & Hc & E)]; [by left|]. right. exists c. split; [by right|done].
  - intros c Hc. apply elem_of_cons in Hc as [->|Hc]; [|by apply S6]. cbn [a b_base b_size]. unfold PHYS_LIMIT in *. split; [lia|]. split; [lia|]. right. apply F_large.
  - apply apart_cons; [cbn [a b_size]; lia|apply F_apart|done|done].
  - apply apart_cons; [cbn [a b_size]; lia|apply F_apart|done|done].
  - intros c i pg Hc Hl Ti. apply elem_of_cons in Hc as [->|Hc]; [|by apply (S8 c i)]. cbn [a b_base b_size]. intros Hin.
    destruct (S2 i pg Ti) as ((Hfr & _) & _). destruct (F_not_held (pg - hhdm) Hfr ltac:(lia)). left. exists i. by replace (hhdm + (pg - hhdm)) with pg by lia.
  - intros g Hg Hh. destruct (Hp' g Hg) as [E E0]. apply F_held in Hh as [Hh|Hr].
    + rewrite E. destruct (decide (f <= g < f + n * 4096)) as [Hr|]; [by destruct (F_not_held g Hg Hr)|]. by apply S9.
    + rewrite E, decide_True by done. split; [|done]. rewrite <-(E0 Hr). symmetry. apply S10; [done|]. by apply F_not_held.
  - intros g Hg Hh. destruct (Hp' g Hg) as [E E0]. rewrite E. rewrite decide_False; [apply S10; [done|]|]; intros Hx; apply Hh, F_held; [by left|by right].
Qed.

Lemma frames_layout m buckets :
  layout L live m buckets → layout L (a :: live) (write_header (hhdm + f) (n * 4096) m) buckets ∧
    ∀ y, ¬ (hhdm + f <= y < hhdm + f + HEADER) → write_header (hhdm + f) (n * 4096) m y = m y.
Proof.
  intros [La1 La2 La3]. assert (Hout : ∀ y, ¬ (hhdm + f <= y < hhdm + f + HEADER) → write_header (hhdm + f) (n * 4096) m y = m y).
  { intros y Hy. unfold write_header, HEADER in *. rewrite !store_out by lia. done. }
  split; [|done]. split; [done| |].
  - intros b Hb. destruct (La2 b Hb) as (h & Eh & Hc). exists h. split; [done|]. apply (chain_agree m); [|done]. intros y c Hy Hcy. apply Hout.
    pose proof (bsize_range b Hb). destruct (free_live_apart r0 L (a :: live) p' s frames_shape b y a Hb Hy ltac:(left)) as [?|?]; cbn [a b_base b_size] in *;
      unfold HEADER; lia.
  - intros c Hc. apply elem_of_cons in Hc as [->|Hc].
    + unfold header_ok. cbn [a b_base b_size b_user]. unfold write_header. split; [|split; [|by left]].
      * rewrite (load_agree (store64 m (hhdm + f) (n * 4096))) by (intros y Hy; apply store_out; lia). apply load_store. destruct Hf. unfold PHYS_LIMIT in *. lia.
      * apply load_store. unfold HEAP_MAGIC. lia.
    + apply (header_agree_block m); [by apply (live_size r0 L live p s Sh)| |by apply La3]. intros y Hy. apply Hout.
      destruct (F_apart c Hc) as [Ha|Ha]; cbn [a b_base b_size] in Ha; unfold HEADER; lia.
Qed.
End frames.

(** ** The invariant, and [malloc] *)

Record heap_inv (r0 : Z → Z) (L : Z → list Z) (live : list Block) (h : Heap P) : Prop := {
  hv_ready : ready (hframes h);
  hv_shape : shape hhdm r0 L live (hframes h) (g_page_slots h);
  hv_layout : layout L live (mem h) (g_buckets h);
  hv_tight pg : tight (g_page_slots h) pg
}.

(** The blocks the client holds keep their contents. *)
Definition kept (live : list Block) (m m' : Mem) : Prop := ∀ c x, c ∈ live → b_base c <= x < b_base c + b_size c → m' x = m x.
End apart.
