(* ===== verification/HeapFree.v ===== *)
(** Freeing a block (src/mm/heap.cpp): pushing it on its free list, or taking its whole
    page off the list and giving the frame back; whole frames go back at once. *)

From S2P Require Import Prelude Frames Heap HeapInv.

(** * Lemmas: lists in memory *)

(** A list from [x] whose last block points to [y]. *)
Fixpoint seg (m : Mem) (x : Z) (l : list Z) (y : Z) : Prop :=
  match l with
  | [] => x = y
  | z :: l' => x = z ∧ z ≠ 0 ∧ seg m (load64 m z) l' y
  end.

Lemma seg_chain m x l : seg m x l 0 ↔ chain m x l.
Proof. revert x. induction l as [|z l IH]; intros x; cbn [seg chain]; [done|]. by rewrite IH. Qed.

Lemma seg_app m x l l' y : seg m x (l ++ l') y ↔ ∃ z, seg m x l z ∧ seg m z l' y.
Proof.
  revert x. induction l as [|w l IH]; intros x; cbn [seg app].
  - split; [by exists x|]. by intros (z & -> & ?).
  - rewrite IH. naive_solver.
Qed.

Lemma seg_agree m m' l y : ∀ x, (∀ z a, z ∈ l → z <= a < z + 8 → m' a = m a) → seg m x l y → seg m' x l y.
Proof.
  induction l as [|z l IH]; intros x Hm; cbn [seg]; [done|]. intros (-> & Hz & Hc). split; [done|]. split; [done|].
  rewrite (load_agree m m') by (intros a Ha; apply (Hm z); [left|done]). apply IH; [|done]. intros w a Hw. apply Hm. by right.
Qed.

(** Blocks that do not overlap. *)
Definition spread (l : list Z) : Prop := ∀ x y, x ∈ l → y ∈ l → x ≠ y → x + 8 <= y ∨ y + 8 <= x.

(** Linking [c] behind the last block. *)
Lemma seg_link m x k t c :
  NoDup (k ++ [t]) → spread (k ++ [t; c]) → c ∉ k ++ [t] → 0 <= c < 2 ^ 64 → c ≠ 0 → load64 m c = 0 → chain m x (k ++ [t]) →
  chain (store64 m t c) x (k ++ [t; c]).
Proof.
  intros Hnd Hsp Hc Hr Hc0 Hlc Hch. apply seg_chain, seg_app in Hch as (z & Hk & Ht). cbn [seg] in Ht. destruct Ht as (-> & Ht0 & _).
  apply seg_chain, seg_app. exists t. split.
  - apply (seg_agree m); [|done]. intros w a Hw Ha. apply store_out. assert (w ≠ t).
    { intros ->. apply NoDup_app in Hnd as (_ & Hd & _). by apply (Hd t Hw), list_elem_of_singleton. }
    destruct (Hsp w t) as [?|?]; [set_solver|set_solver|done|lia|lia].
  - cbn [seg]. split; [done|]. split; [done|]. rewrite load_store by done. split; [done|]. split; [done|].
    rewrite (load_agree m); [done|]. intros a Ha. apply store_out. destruct (Hsp c t) as [?|?]; [set_solver|set_solver|set_solver|lia|lia].
Qed.

Lemma spaced_bound l n : NoDup l → (∀ x : Z, x ∈ l → 0 <= x < 32 * n ∧ x mod 32 = 0) → 0 <= n → Z.of_nat (length l) <= n.
Proof.
  intros Hn Hl H0. pose proof (NoDup_bound ((λ x, x / 32) <$> l) n) as Hlen. rewrite length_fmap, Z.max_r in Hlen by done. apply Hlen.
  - apply NoDup_fmap_2_strong; [|done]. intros x y Hx Hy E. destruct (Hl x Hx), (Hl y Hy). lia.
  - intros y Hy. apply list_elem_of_fmap in Hy as (x & -> & Hx). destruct (Hl x Hx). lia.
Qed.

(** ** [bucket_remove_page_blocks] *)

Section remove.
Variables (page : Z) (l : list Z) (m0 : Mem).
Hypothesis Hpage : 0 <= page ∧ page + 4096 < 2 ^ 64.
Hypothesis Hnd : NoDup l.
Hypothesis Hsp : spread l.
Hypothesis Hrange : ∀ x, x ∈ l → 0 < x < 2 ^ 64.

Definition outside (x : Z) : Prop := x < page ∨ page + 4096 <= x.

(** [k] blocks are kept so far, [r] remain. *)
Record removing (k r : list Z) (st : Z * Z * Z * Mem) : Prop := {
  rm_sub x : x ∈ k → x ∈ l ∧ x ∉ r;
  rm_rest x : x ∈ r → x ∈ l;
  rm_nodup : NoDup k ∧ NoDup r;
  rm_chain : chain st.2 st.1.2 r;
  rm_kept : chain st.2 st.1.1.1 k;
  rm_tail : match last k with Some t => st.1.1.2 = t | None => st.1.1.1 = 0 end;
  rm_out a : (∀ x, x ∈ l → ¬ (x <= a < x + 8)) → st.2 a = m0 a
}.

Lemma remove_keep k c r nh nt m :
  removing k (c :: r) (nh, nt, c, m) → outside c →
  ∃ st, remove_step page (nh, nt, c, m) = Ok (inl st) ∧ removing (k ++ [c]) r st.
Proof.
  intros [R1 R2 [R3 R3'] R4 R5 R6 R7] Ho. cbn [fst snd] in *. destruct R4 as (_ & Hc0 & R4). apply NoDup_cons in R3' as [Hcr Hr].
  assert (Hcl : c ∈ l) by (apply R2; left). pose proof (Hrange c Hcl) as Hcr'. assert (Hck : c ∉ k) by (intros Hk; apply (R1 c Hk); left).
  assert (Hne : ∀ z, z ∈ l → z ≠ c → ∀ a, z <= a < z + 8 → store64 m c 0 a = m a).
  { intros z Hz Hzc a Ha. apply store_out. destruct (Hsp z c Hz Hcl Hzc); lia. }
  assert (Hsub : ∀ x, x ∈ k ++ [c] → x ∈ l ∧ x ∉ r).
  { intros x [Hx|Hx]%elem_of_app; [destruct (R1 x Hx) as [? Hxr]; split; [done|]; intros ?; apply Hxr; by right|].
    apply list_elem_of_singleton in Hx as ->. done. }
  assert (Hndk : NoDup (k ++ [c])).
  { apply NoDup_app. split; [done|]. split; [|apply NoDup_singleton]. intros x Hx ->%list_elem_of_singleton. done. }
  unfold remove_step. destruct (Z.eqb_spec c 0); [done|]. cbv zeta. rewrite (u64_small (page + 4096)) by lia.
  assert ((c <? page) || (page + 4096 <=? c) = true) as ->.
  { unfold outside in Ho. destruct (Z.ltb_spec c page); [done|]. destruct (Z.leb_spec (page + 4096) c); [done|lia]. }
  destruct (last k) as [t|] eqn:Elast.
  - apply last_Some in Elast as [k' ->]. assert (Hnh : nh ≠ 0).
    { destruct k' as [|z k']; cbn [app chain] in R5; destruct R5 as (-> & ? & _); done. }
    destruct (Z.eqb_spec nh 0); [done|]. eexists. split; [done|]. cbn [fst snd] in R6. subst nt.
    assert (Htl : t ∈ l ∧ t ≠ c) by (split; [apply R1; set_solver|intros ->; apply Hck; set_solver]).
    split; cbn [fst snd].
    + done.
    + intros x Hx. apply R2. by right.
    + done.
    + apply (chain_agree (store64 m c 0)).
      { intros y a Hy Ha. apply store_out. assert (y ≠ t) by (intros ->; destruct (Hsub t) as [_ ?]; [set_solver|done]).
        destruct (Hsp y t) as [?|?]; [apply R2; by right|apply Htl|done|lia|lia]. }
      apply (chain_agree m); [|done]. intros y a Hy Ha. apply (Hne y); [apply R2; by right|by intros ->|done].
    + rewrite <-app_assoc. cbn [app]. apply seg_link; try done.
      * intros x y Hx Hy. apply Hsp; apply Hsub; set_solver.
      * lia.
      * rewrite load_store by lia. done.
      * apply (chain_agree m); [|done]. intros y a Hy Ha. apply (Hne y); [by apply R1|intros ->; done|done].
    + by rewrite last_snoc.
    + intros a Ha. rewrite !store_out; [by apply R7|by apply Ha|]. by apply Ha, Htl.
  - apply last_None in Elast as ->. cbn [fst snd] in R6. subst nh. rewrite Z.eqb_refl. eexists. split; [done|]. split; cbn [fst snd app].
    + done.
    + intros x Hx. apply R2. by right.
    + done.
    + apply (chain_agree m); [|done]. intros y a Hy Ha. apply (Hne y); [apply R2; by right|by intros ->|done].
    + cbn [chain]. split; [done|]. split; [done|]. by rewrite load_store by lia.
    + done.
    + intros a Ha. rewrite store_out; [by apply R7|by apply Ha].
Qed.

Lemma remove_drop k c r nh nt m :
  removing k (c :: r) (nh, nt, c, m) → ¬ outside c →
  ∃ st, remove_step page (nh, nt, c, m) = Ok (inl st) ∧ removing k r st.
Proof.
  intros [R1 R2 [R3 R3'] R4 R5 R6 R7] Ho. cbn [fst snd] in *. destruct R4 as (_ & Hc0 & R4). apply NoDup_cons in R3' as [Hcr Hr].
  unfold remove_step. destruct (Z.eqb_spec c 0); [done|]. cbv zeta. unfold outside in Ho.
  assert ((c <? page) || (u64 (page + 4096) <=? c) = false) as ->.
  { rewrite u64_small by lia. destruct (Z.ltb_spec c page); [lia|]. destruct (Z.leb_spec (page + 4096) c); [lia|done]. }
  eexists. split; [done|]. split; try done.
  - intros x Hx. destruct (R1 x Hx) as [? Hn]. split; [done|]. intros ?. apply Hn. by right.
  - intros x Hx. apply R2. by right.
Qed.

#[export] Instance outside_dec x : Decision (outside x).
Proof. unfold outside. apply _. Defined.

Lemma remove_loop head :
  chain m0 head l → Z.of_nat (length l) < 2 ^ 60 →
  ∃ head' m', bloop REMOVE_FUEL (remove_step page) (0, 0, head, m0) = Ok (head', m') ∧ chain m' head' (filter outside l) ∧
    ∀ a, (∀ x, x ∈ l → ¬ (x <= a < x + 8)) → m' a = m0 a.
Proof.
  intros Hch Hlen.
  destruct (bloop_rule (λ n st, ∃ k r, removing k r st ∧ filter outside l = k ++ filter outside r ∧ n = Z.of_nat (length r))
    (λ st, chain st.2 st.1 (filter outside l) ∧ ∀ a, (∀ x, x ∈ l → ¬ (x <= a < x + 8)) → st.2 a = m0 a) (remove_step page))
    with (fuel := REMOVE_FUEL) (n := Z.of_nat (length l)) (s := (0, 0, head, m0)) as ([h' m'] & E & Hp).
  - intros n st (k & r & _ & _ & ->). lia.
  - intros n [[[nh nt] cur] m] (k & r & Hr & Hf & ->). pose proof (rm_chain _ _ _ Hr) as Hc. cbn [fst snd] in Hc. destruct r as [|c r].
    + cbn [chain] in Hc. subst cur. eexists. split; [unfold remove_step; done|]. cbn [filter list_filter] in Hf. rewrite app_nil_r in Hf.
      cbn [fst snd]. rewrite Hf. split; [apply Hr|apply Hr].
    + destruct Hc as (-> & _). rewrite filter_cons in Hf. destruct (decide (outside c)) as [Ho|Ho].
      * destruct (remove_keep k c r nh nt m Hr Ho) as (st & E & Hr'). exists (inl st). split; [done|]. exists (Z.of_nat (length r)). cbn [length].
        split; [lia|]. exists (k ++ [c]), r. split; [done|]. split; [|done]. rewrite Hf, <-app_assoc. done.
      * destruct (remove_drop k c r nh nt m Hr Ho) as (st & E & Hr'). exists (inl st). split; [done|]. exists (Z.of_nat (length r)). cbn [length].
        split; [lia|]. by exists k, r.
  - exists [], l. split; [|done]. split; cbn [fst snd last]; try done; [by intros x ?%not_elem_of_nil|by split; [apply NoDup_nil_2|]].
  - unfold REMOVE_FUEL. lia.
  - exists h', m'. by destruct Hp.
Qed.
End remove.

(** * Lemmas: the invariant *)

Lemma bucket_remove_eq {P} (q : P) b page m buckets slots head head' m' buckets' :
  arr_get buckets b = Ok head → bloop REMOVE_FUEL (remove_step page) (0, 0, head, m) = Ok (head', m') →
  arr_set buckets b head' = Ok buckets' →
  bucket_remove_page_blocks b page (mkHeap q m buckets slots) = Ok (mkHeap q m' buckets' slots).
Proof.
  intros E1 E2 E3. unfold bucket_remove_page_blocks. revert E2. generalize (bloop REMOVE_FUEL (remove_step page)). intros walk E2.
  cbn [g_buckets mem hframes g_page_slots]. rewrite E1. cbn [mbind res_bind]. rewrite E2. cbn [mbind res_bind]. by rewrite E3.
Qed.

Section free.
Context {P : Type} `{Frames P} {ready : P → Prop} `{!FramesLaws P ready}.
Variables (hhdm : Z).
Hypothesis Hhhdm : 0 <= hhdm ∧ hhdm mod 4096 = 0 ∧ hhdm + PHYS_LIMIT < 2 ^ 64.
Variables (r0 : Z → Z) (L : Z → list Z) (live : list Block) (a : Block) (p : P) (s : Slots).
Hypothesis Sh : shape hhdm r0 L (a :: live) p s.

Lemma freed_apart c : c ∈ live → apart_blocks a c ∧ c ≠ a.
Proof.
  intros Hc. pose proof (sh_once _ _ _ _ _ _ Sh) as Hn. apply NoDup_cons in Hn as [Hn _]. assert (c ≠ a) by (by intros ->). split; [|done].
  apply (sh_apart _ _ _ _ _ _ Sh); [left|by right|done].
Qed.

Lemma freed_base c : c ∈ live → b_base c ≠ b_base a.
Proof.
  intros Hc E. destruct (freed_apart c Hc) as [Ha _]. pose proof (live_size hhdm r0 L _ p s Sh a ltac:(left)).
  pose proof (live_size hhdm r0 L _ p s Sh c ltac:(by right)). destruct Ha; lia.
Qed.

Section small.
Variable i0 : Z.
Let b := bucket_idx (s i0).
Let pg := page_of (b_base a).
Hypothesis T0 : tracked s i0 pg.
Hypothesis Hsz : b_size a = bsize b.
Hypothesis Hm : b_base a mod b_size a = 0.
Hypothesis Hn : b_base a ∉ L b.

Lemma B_bucket : 0 <= b < NUM_BUCKETS.
Proof. by destruct (sh_page _ _ _ _ _ _ Sh i0 pg T0) as (_ & ? & _). Qed.

Lemma B_range : hhdm <= b_base a < 2 ^ 64 ∧ hhdm <= pg ∧ pg mod 4096 = 0 ∧ pg + 4096 < 2 ^ 64.
Proof.
  destruct (sh_live _ _ _ _ _ _ Sh a ltac:(left)) as (R1 & R2 & _). destruct (sh_page _ _ _ _ _ _ Sh i0 pg T0) as (([Hf1 Hf2] & Hlim) & Hb & _).
  pose proof (bsize_range b Hb). unfold PHYS_LIMIT in *. lia.
Qed.

Lemma B_not_large : ¬ large hhdm a.
Proof. intros [Hl _]. pose proof (bsize_range b B_bucket). unfold MAX_BUCKET_SIZE in Hl. lia. Qed.

Lemma B_held f : held hhdm s (a :: live) f ↔ held hhdm s live f.
Proof.
  unfold held. split; (intros [?|(c & Hc & Hl & Hr)]; [by left|right; exists c; split; [|done]]).
  - apply elem_of_cons in Hc as [->|?]; [|done]. by destruct B_not_large.
  - by right.
Qed.

(** ** Back on the free list *)

Let L1 := set_list L b (b_base a :: L b).
Let s1 := set_slot s i0 (mkSlot (page_virt (s i0)) b (free_count (s i0) + 1) (total_count (s i0))).

Lemma U_tracked i q : tracked s1 i q ↔ tracked s i q.
Proof. by apply tracked_update. Qed.

Lemma U_bucket i : bucket_idx (s1 i) = bucket_idx (s i).
Proof. unfold s1, set_slot. by destruct (Z.eqb_spec i i0) as [->|]. Qed.

Lemma U_elem b' x : x ∈ L1 b' ↔ x ∈ L b' ∨ (b' = b ∧ x = b_base a).
Proof.
  unfold L1, set_list. destruct (Z.eqb_spec b' b) as [->|Hne]; [rewrite elem_of_cons; tauto|]. split; [by left|]. by intros [?|[? _]].
Qed.

Lemma push_back_shape : shape hhdm r0 L1 live p s1.
Proof.
  pose proof B_range as Hr. pose proof B_bucket as Hb. split.
  - apply tracker_update; [apply Sh| |by left]. destruct T0 as (_ & -> & ? & _). done.
  - intros i q Ti. rewrite U_bucket. apply U_tracked in Ti. destruct (sh_page _ _ _ _ _ _ Sh i q Ti) as (H1 & H2 & H3 & H4). split; [done|]. split; [done|].
    assert (Hq : q = pg ↔ i = i0).
    { split; [intros ->; by apply (tr_unique s (sh_tracker _ _ _ _ _ _ Sh) i i0 pg)|]. intros ->. destruct Ti as (_ & <- & _), T0 as (_ & <- & _). done. }
    unfold s1, set_slot. destruct (Z.eqb_spec i i0) as [->|Hne]; cbn [total_count free_count]; (split; [done|]); rewrite H4; unfold L1, set_list; fold b.
    + rewrite Z.eqb_refl, in_page_cons, decide_True by (symmetry; by apply Hq). lia.
    + destruct (Z.eqb_spec (bucket_idx (s i)) b) as [->|]; [|done]. rewrite in_page_cons, decide_False; [lia|]. intros E. by apply Hne, Hq.
  - intros b' x Hb' Hx. apply U_elem in Hx as [Hx|[-> ->]].
    + destruct (sh_free _ _ _ _ _ _ Sh b' x Hb' Hx) as (H1 & i & H2 & H3 & H4). split; [done|]. exists i. by rewrite U_tracked, U_bucket.
    + split; [lia|]. exists i0. rewrite U_tracked, U_bucket. rewrite Hsz in Hm. done.
  - intros b' Hb'. unfold L1, set_list. destruct (Z.eqb_spec b' b) as [->|]; [|by apply Sh]. apply NoDup_cons. split; [done|]. by apply Sh.
  - intros i x Ti. rewrite U_bucket. apply U_tracked in Ti. intros Hmx Hrx. rewrite U_elem.
    destruct (sh_block _ _ _ _ _ _ Sh i x Ti Hmx Hrx) as [?|(c & Hc & Ec)]; [left; by left|]. apply elem_of_cons in Hc as [->|Hc].
    + left. right. split; [|done]. subst x. unfold b. by rewrite (tr_unique s (sh_tracker _ _ _ _ _ _ Sh) i i0 pg).
    + right. by exists c.
  - intros c Hc. destruct (sh_live _ _ _ _ _ _ Sh c ltac:(by right)) as (H1 & H2 & H3). split; [done|]. split; [done|].
    destruct H3 as [(i & H3 & H4 & H5 & H6)|]; [left|by right]. exists i. rewrite U_tracked, U_bucket. split; [done|]. split; [done|]. split; [done|].
    intros [?|[_ E]]%U_elem; [done|]. by apply (freed_base c Hc).
  - pose proof (sh_once _ _ _ _ _ _ Sh) as Hnd. by apply NoDup_cons in Hnd as [_ ?].
  - intros c d Hc Hd. apply (sh_apart _ _ _ _ _ _ Sh); by right.
  - intros c i q Hc Hl Ti. apply U_tracked in Ti. apply (sh_large _ _ _ _ _ _ Sh c i q); [by right|done|done].
  - intros f Hf Hh. apply (sh_held _ _ _ _ _ _ Sh f Hf), B_held. unfold held in *. setoid_rewrite U_tracked in Hh. done.
  - intros f Hf Hh. apply (sh_other _ _ _ _ _ _ Sh f Hf). intros Hh'. apply Hh. apply B_held in Hh'. unfold held in *. by setoid_rewrite U_tracked.
Qed.

Lemma push_back_layout m buckets :
  layout L (a :: live) m buckets →
  ∃ next, arr_get buckets b = Ok next ∧ ∃ buckets', arr_set buckets b (b_base a) = Ok buckets' ∧
    let m' := store64 (store64 m (b_base a + 8) 0) (b_base a) next in
    layout L1 live m' buckets' ∧ ∀ y, ¬ (b_base a <= y < b_base a + HEADER) → m' y = m y.
Proof.
  intros [La1 La2 La3]. pose proof B_bucket as Hb. pose proof B_range as Hr. pose proof (bsize_range b Hb) as Hbs.
  destruct (La2 b Hb) as (next & En & Hc). exists next. split; [done|].
  assert (Hlen : 0 <= b < Z.of_nat (length buckets)) by (rewrite La1; unfold NUM_BUCKETS in *; lia).
  rewrite arr_set_in by done. eexists. split; [done|]. cbv zeta. set (m' := store64 _ _ _).
  assert (Hout : ∀ y, ¬ (b_base a <= y < b_base a + HEADER) → m' y = m y).
  { intros y Hy. unfold m', HEADER in *. rewrite !store_out by lia. done. }
  assert (Hnext : 0 <= next < 2 ^ 64).
  { destruct (L b) as [|x l] eqn:E; cbn [chain] in Hc; [lia|]. destruct Hc as (-> & _). destruct (sh_free _ _ _ _ _ _ Sh b x Hb) as (Hx & _); [rewrite E; left|]. lia. }
  assert (Hag : ∀ b' y c, 0 <= b' < NUM_BUCKETS → y ∈ L b' → y <= c < y + 8 → m' c = m c).
  { intros b' y c Hb' Hy Hcy. apply Hout. pose proof (bsize_range b' Hb').
    destruct (free_live_apart hhdm Hhhdm r0 L (a :: live) p s Sh b' y a Hb' Hy ltac:(left)); unfold HEADER; lia. }
  split; [|done]. split.
  - by rewrite length_insert.
  - intros b' Hb'. unfold L1, set_list. destruct (Z.eqb_spec b' b) as [->|Hne].
    + exists (b_base a). split; [apply arr_get_Ok; split; [lia|]; apply list_lookup_insert_eq; lia|]. cbn [chain]. split; [done|].
      destruct T0 as (_ & _ & Hpg0 & _). unfold SLOT_EMPTY in Hpg0. split; [intros E; apply Hpg0; unfold pg; rewrite E; done|].
      assert (load64 m' (b_base a) = next) as -> by (by apply load_store). apply (chain_agree m); [|done]. intros y c Hy. by apply (Hag b).
    + destruct (La2 b' Hb') as (h' & Eh' & Hc'). exists h'. split.
      { apply arr_get_Ok in Eh' as [H1 H2]. apply arr_get_Ok. split; [done|]. by rewrite list_lookup_insert_ne by lia. }
      apply (chain_agree m); [|done]. intros y c Hy. by apply (Hag b').
  - intros c Hc'. apply (header_agree_block m); [apply (live_size hhdm r0 L (a :: live) p s Sh); by right| |apply La3; by right].
    intros y Hy. apply Hout. destruct (freed_apart c Hc') as [[?|?] _]; unfold HEADER; lia.
Qed.

(** ** The last block of its page *)

Lemma emptied_alone c :
  free_count (s i0) + 1 = total_count (s i0) → c ∈ live → small L s c → page_of (b_base c) ≠ pg.
Proof.
  intros Hcount Hc (j & Tj & Hszc & Hmc & Hnc) E. rewrite E in Tj. pose proof (tr_unique s (sh_tracker _ _ _ _ _ _ Sh) j i0 pg Tj T0) as ->.
  fold b in Hszc, Hnc. destruct (sh_page _ _ _ _ _ _ Sh i0 pg T0) as (_ & Hb & Htot & Hfree). fold b in Hb, Htot, Hfree. pose proof B_range as Hr.
  destruct (sh_live _ _ _ _ _ _ Sh c ltac:(by right)) as (R1 & R2 & _). pose proof (bsize_range b Hb).
  assert (Hsub : b_base a :: b_base c :: filter (λ x, page_of x = pg) (L b) ⊆+ pushed pg (bsize b) (Z.to_nat (4096 / bsize b))).
  { apply NoDup_submseteq.
    - apply NoDup_cons. split.
      { intros [Ex|Hx]%elem_of_cons; [by apply (freed_base c Hc)|]. by apply list_elem_of_filter in Hx as [_ ?]. }
      apply NoDup_cons. split; [by intros [_ ?]%list_elem_of_filter|]. apply NoDup_filter. by apply Sh.
    - intros x Hx. apply (page_blocks hhdm Hhhdm); [done|lia|lia|lia|]. apply elem_of_cons in Hx as [->|Hx]; [rewrite Hsz in Hm; split; [lia|done]|].
      apply elem_of_cons in Hx as [->|Hx]; [rewrite Hszc in Hmc; split; [lia|done]|]. apply list_elem_of_filter in Hx as [Hpx Hx].
      destruct (sh_free _ _ _ _ _ _ Sh b x Hb Hx) as (H1 & i & H2 & H3 & H4). done. }
  apply submseteq_length in Hsub. rewrite length_pushed in Hsub. cbn [length] in Hsub. unfold in_page in Hfree. lia.
Qed.

Lemma outside_page x : hhdm <= x < 2 ^ 64 → outside pg x ↔ page_of x ≠ pg.
Proof. intros Hx. pose proof B_range. unfold outside. rewrite (page_of_eq x) by lia. lia. Qed.

Let L2 := set_list L b (filter (outside pg) (L b)).
Let s2 := set_slot s i0 (mkSlot SLOT_TOMBSTONE b (free_count (s i0) + 1) (total_count (s i0))).

Lemma E_elem b' x : 0 <= b' < NUM_BUCKETS → x ∈ L2 b' ↔ x ∈ L b' ∧ page_of x ≠ pg.
Proof.
  intros Hb'. unfold L2, set_list. pose proof B_bucket as Hb. destruct (Z.eqb_spec b' b) as [->|Hne].
  - rewrite list_elem_of_filter. split; intros [H1 H2].
    + split; [done|]. destruct (sh_free _ _ _ _ _ _ Sh b x Hb H2) as (Hx & _). by apply outside_page.
    + split; [|done]. destruct (sh_free _ _ _ _ _ _ Sh b x Hb H1) as (Hx & _). by apply outside_page.
  - split; [|by intros [? _]]. intros Hx. split; [done|]. intros E. destruct (sh_free _ _ _ _ _ _ Sh b' x Hb' Hx) as (_ & i & Ti & Bi & _).
    rewrite E in Ti. apply Hne. unfold b. by rewrite <-(tr_unique s (sh_tracker _ _ _ _ _ _ Sh) i i0 pg Ti T0).
Qed.

Lemma E_tracked i q : tracked s2 i q ↔ tracked s i q ∧ q ≠ pg.
Proof.
  pose proof T0 as (_ & Epg & _). unfold s2. rewrite (tracked_tombstone s i0) by (done || apply Sh || (rewrite Epg; done)). by rewrite Epg.
Qed.

Lemma E_slot i q : tracked s2 i q → s2 i = s i.
Proof.
  intros Ti. unfold s2, set_slot. destruct (Z.eqb_spec i i0) as [->|]; [|done]. apply E_tracked in Ti as [(_ & <- & _) Hne]. by destruct T0 as (_ & <- & _).
Qed.

Lemma in_page_filter q l : q ≠ pg → (∀ x, x ∈ l → hhdm <= x < 2 ^ 64) → in_page q (filter (outside pg) l) = in_page q l.
Proof.
  intros Hq. induction l as [|x l IH]; intros Hl; [done|]. rewrite in_page_cons, filter_cons, <-IH by (intros; apply Hl; by right).
  assert (Hx : hhdm <= x < 2 ^ 64) by (apply Hl; left). destruct (decide (outside pg x)) as [Ho|Ho].
  - by rewrite in_page_cons.
  - rewrite (outside_page x Hx) in Ho. rewrite decide_False; [lia|]. intros E. apply Ho. congruence.
Qed.

Hypothesis Hcount : free_count (s i0) + 1 = total_count (s i0).
Variable p' : P.
Hypothesis Hp' : ∀ f, frame_ok f → refs p' f = if decide (f = pg - hhdm) then 0 else refs p f.

Lemma E_held f : frame_ok f → held hhdm s2 live f ↔ held hhdm s (a :: live) f ∧ f ≠ pg - hhdm.
Proof.
  intros Hf. rewrite B_held. unfold held. setoid_rewrite E_tracked. split.
  - intros [(i & Ti & Hne)|(c & Hc & Hl & Hr)].
    + split; [left; by exists i|]. intros ->. apply Hne. lia.
    + split; [right; by exists c|]. intros ->. apply (sh_large _ _ _ _ _ _ Sh c i0 pg); [by right|done|done|lia].
  - intros [[(i & Ti)|?] Hne]; [left; exists i; split; [done|lia]|by right].
Qed.

Lemma empty_page_shape : shape hhdm r0 L2 live p' s2.
Proof.
  pose proof B_range as Hr. pose proof B_bucket as Hb. split.
  - apply tracker_update; [apply Sh| |by right]. destruct T0 as (_ & -> & ? & _). done.
  - intros i q Ti. rewrite (E_slot i q Ti). apply E_tracked in Ti as [Ti Hne]. destruct (sh_page _ _ _ _ _ _ Sh i q Ti) as (H1 & H2 & H3 & H4).
    do 3 (split; [done|]). rewrite H4. unfold L2, set_list. destruct (Z.eqb_spec (bucket_idx (s i)) b) as [->|]; [|done].
    symmetry. apply in_page_filter; [done|]. intros x Hx. by apply (sh_free _ _ _ _ _ _ Sh b x Hb).
  - intros b' x Hb' Hx. apply E_elem in Hx as [Hx Hpx]; [|done]. destruct (sh_free _ _ _ _ _ _ Sh b' x Hb' Hx) as (H1 & i & H2 & H3 & H4). split; [done|].
    assert (Ti : tracked s2 i (page_of x)) by (by apply E_tracked). exists i. by rewrite (E_slot i _ Ti).
  - intros b' Hb'. unfold L2, set_list. destruct (Z.eqb_spec b' b) as [->|]; [apply NoDup_filter|]; by apply Sh.
  - intros i x Ti. rewrite (E_slot i _ Ti). apply E_tracked in Ti as [Ti Hne]. intros Hmx Hrx.
    destruct (sh_page _ _ _ _ _ _ Sh i _ Ti) as (_ & Hbi & _). rewrite E_elem by done.
    destruct (sh_block _ _ _ _ _ _ Sh i x Ti Hmx Hrx) as [?|(c & Hc & Ec)]; [by left|]. apply elem_of_cons in Hc as [->|Hc]; [by subst x|].
    right. by exists c.
  - intros c Hc. destruct (sh_live _ _ _ _ _ _ Sh c ltac:(by right)) as (H1 & H2 & H3). split; [done|]. split; [done|].
    destruct H3 as [Hsc|]; [left|by right]. pose proof (emptied_alone c Hcount Hc Hsc) as Hpc. destruct Hsc as (i & H3 & H4 & H5 & H6).
    destruct (sh_page _ _ _ _ _ _ Sh i _ H3) as (_ & Hbi & _).
    assert (Ti : tracked s2 i (page_of (b_base c))) by (by apply E_tracked). exists i. rewrite (E_slot i _ Ti). split; [done|]. split; [done|]. split; [done|].
    rewrite E_elem by done. by intros [? _].
  - pose proof (sh_once _ _ _ _ _ _ Sh) as Hnd. by apply NoDup_cons in Hnd as [_ ?].
  - intros c d Hc Hd. apply (sh_apart _ _ _ _ _ _ Sh); by right.
  - intros c i q Hc Hl Ti. apply E_tracked in Ti as [Ti _]. apply (sh_large _ _ _ _ _ _ Sh c i q); [by right|done|done].
  - intros f Hf Hh. apply E_held in Hh as [Hh Hne]; [|done]. rewrite Hp', decide_False by done. by apply (sh_held _ _ _ _ _ _ Sh f Hf).
  - intros f Hf Hh. rewrite Hp' by done. destruct (decide (f = pg - hhdm)) as [->|Hne].
    + symmetry. apply (sh_held _ _ _ _ _ _ Sh _ Hf). left. exists i0. by replace (hhdm + (pg - hhdm)) with pg by lia.
    + apply (sh_other _ _ _ _ _ _ Sh f Hf). intros Hh'. apply Hh. by apply E_held.
Qed.

Lemma free_length b' : 0 <= b' < NUM_BUCKETS → Z.of_nat (length (L b')) < 2 ^ 60.
Proof.
  intros Hb'. apply (Z.le_lt_trans _ (2 ^ 59)); [|done]. apply spaced_bound; [by apply Sh| |done]. intros x Hx.
  destruct (sh_free _ _ _ _ _ _ Sh b' x Hb' Hx) as (H1 & i & _ & _ & H4). split; [lia|].
  destruct (bsize_cases b' Hb') as [E|[E|[E|[E|[E|[E|[E|E]]]]]]]; rewrite E in H4; lia.
Qed.

Lemma empty_page_layout (q : P) m buckets slots :
  layout L (a :: live) m buckets →
  ∃ m' buckets', bucket_remove_page_blocks b pg (mkHeap q (store64 m (b_base a + 8) 0) buckets slots) = Ok (mkHeap q m' buckets' slots) ∧
    layout L2 live m' buckets' ∧ kept live m m'.
Proof.
  intros [La1 La2 La3]. pose proof B_bucket as Hb. pose proof B_range as Hr. pose proof (bsize_range b Hb) as Hbs. set (m1 := store64 m (b_base a + 8) 0).
  assert (Hm1 : ∀ y, ¬ (b_base a <= y < b_base a + b_size a) → m1 y = m y) by (intros y Hy; apply store_out; lia).
  assert (Hch1 : ∀ b' x, 0 <= b' < NUM_BUCKETS → chain m x (L b') → chain m1 x (L b')).
  { intros b' x Hb'. apply chain_agree. intros y c Hy Hcy. apply Hm1. pose proof (bsize_range b' Hb').
    destruct (free_live_apart hhdm Hhhdm r0 L (a :: live) p s Sh b' y a Hb' Hy ltac:(left)); lia. }
  destruct (La2 b Hb) as (hd & Eh & Hc). destruct (remove_loop pg (L b) m1) with (head := hd) as (hd' & m' & Eloop & Hc' & Hout).
  - lia.
  - by apply Sh.
  - intros x y Hx Hy Hne. destruct (free_apart hhdm Hhhdm r0 L (a :: live) p s Sh b b x y); (done || lia).
  - intros x Hx. destruct (sh_free _ _ _ _ _ _ Sh b x Hb Hx) as (Hxr & i & (_ & _ & Hx0 & _) & _). split; [|lia].
    assert (x ≠ 0) by (intros ->; by apply Hx0). lia.
  - by apply Hch1.
  - by apply free_length.
  - assert (Hlen : 0 <= b < Z.of_nat (length buckets)) by (rewrite La1; unfold NUM_BUCKETS in *; lia).
    exists m', (<[Z.to_nat b := hd']> buckets). split; [exact (bucket_remove_eq q b pg m1 buckets slots hd hd' m' _ Eh Eloop (arr_set_in _ _ _ Hlen))|]. clear Eloop.
    assert (Hlive : kept live m m').
    { intros c y Hcl Hy. rewrite Hout; [apply Hm1; destruct (freed_apart c Hcl) as [[?|?] _]; lia|]. intros x Hx Hxy.
      destruct (free_live_apart hhdm Hhhdm r0 L (a :: live) p s Sh b x c Hb Hx ltac:(by right)); lia. }
    split; [|done]. split.
    + by rewrite length_insert.
    + intros b' Hb'. unfold L2, set_list. destruct (Z.eqb_spec b' b) as [->|Hne].
      * exists hd'. split; [|done]. apply arr_get_Ok. split; [lia|]. apply list_lookup_insert_eq. lia.
      * destruct (La2 b' Hb') as (h1 & Eh1 & Hc1). exists h1. split.
        { apply arr_get_Ok in Eh1 as [H1 H2]. apply arr_get_Ok. split; [done|]. by rewrite list_lookup_insert_ne by lia. }
        apply (chain_agree m1); [|by apply Hch1]. intros y c Hy Hcy. apply Hout. intros x Hx Hxc. pose proof (bsize_range b' Hb').
        assert (Hxy : x ≠ y).
        { intros ->. apply Hne. by apply (free_same_bucket hhdm r0 L (a :: live) p s Sh b' b y y). }
        destruct (free_apart hhdm Hhhdm r0 L (a :: live) p s Sh b b' x y Hb Hb' Hx Hy Hxy); lia.
    + intros c Hcl. apply (header_agree_block m); [apply (live_size hhdm r0 L (a :: live) p s Sh); by right| |apply La3; by right]. intros y Hy. by apply (Hlive c).
Qed.
End small.

(** ** Whole frames *)

Section large.
Hypothesis Hl : large hhdm a.
Let f := b_base a - hhdm.

Lemma W_frames : frame_ok f ∧ f + b_size a <= PHYS_LIMIT ∧ b_size a mod 4096 = 0 ∧ 4096 < b_size a.
Proof. destruct Hl as (H1 & H2 & H3 & H4). unfold f, MAX_BUCKET_SIZE in *. done. Qed.

Lemma free_frames :
  ready p → ∃ p', for_upto (Z.to_nat (b_size a / 4096)) 0 (λ i p, free_frame (u64 (f + i * 4096)) p) p = Ok p' ∧ ready p' ∧
    ∀ g, frame_ok g → refs p' g = if decide (f <= g < f + b_size a) then 0 else refs p g.
Proof.
  intros Hr. destruct W_frames as ((Hf1 & Hf2) & Hlim & Hmod & Hbig). unfold PHYS_LIMIT in *.
  assert (Hone : ∀ g, frame_ok g → f <= g < f + b_size a → refs p g = 1).
  { intros g Hg Hin. apply (sh_held _ _ _ _ _ _ Sh g Hg). right. exists a. split; [left|]. split; [done|]. unfold f in Hin. lia. }
  destruct (for_upto_rule (λ k q, ready q ∧ ∀ g, frame_ok g → refs q g = if decide (f <= g < f + k * 4096) then 0 else refs p g)
    (λ i p, free_frame (u64 (f + i * 4096)) p) (Z.to_nat (b_size a / 4096)) 0 p) as (p' & E & R' & Hp').
  - intros k q Hk [Rq Hq]. rewrite u64_small by lia. assert (Hg : frame_ok (f + k * 4096)) by (split; lia). unfold free_frame.
    destruct (refcount_dec_spec q (f + k * 4096) Rq Hg) as (q' & E & Rq' & Hq'); [rewrite Hq, decide_False, Hone by (done || lia); lia|].
    exists q'. split; [done|]. split; [done|]. intros g Hgo. rewrite Hq' by done. pose proof Hgo as [Hg1 Hg2]. destruct (decide (g = f + k * 4096)) as [->|Hne].
    + rewrite Hq, decide_False, decide_True, Hone by (done || lia). lia.
    + rewrite Hq by done. destruct (decide (f <= g < f + k * 4096)), (decide (f <= g < f + (k + 1) * 4096)); try done; lia.
  - split; [done|]. intros g Hg. rewrite decide_False by lia. done.
  - exists p'. split; [done|]. split; [done|]. intros g Hg. rewrite Hp' by done. replace ((0 + Z.of_nat (Z.to_nat (b_size a / 4096))) * 4096) with (b_size a) by lia. done.
Qed.

Lemma free_large_shape p' :
  (∀ g, frame_ok g → refs p' g = if decide (f <= g < f + b_size a) then 0 else refs p g) → shape hhdm r0 L live p' s.
Proof.
  intros Hp'. pose proof Sh as [S1 S2 S3 S4 S5 S6 S0 S7 S8 S9 S10]. destruct W_frames as ((Hf1 & Hf2) & Hlim & Hmod & Hbig).
  assert (Hheld : ∀ g, frame_ok g → held hhdm s live g ↔ held hhdm s (a :: live) g ∧ ¬ (f <= g < f + b_size a)).
  { intros g [Hg1 Hg2]. unfold held. split.
    - intros [(i & Ti)|(c & Hc & Hlc & Hr)].
      + split; [left; by exists i|]. intros Hin. apply (S8 a i _ ltac:(left) Hl Ti). unfold f in Hin. lia.
      + split; [right; exists c; split; [by right|done]|]. intros Hin. destruct (freed_apart c Hc) as [[?|?] _]; unfold f in Hin; lia.
    - intros [[?|(c & Hc & Hlc & Hr)] Hn]; [by left|]. apply elem_of_cons in Hc as [->|Hc]; [unfold f in Hn; lia|]. right. by exists c. }
  split; try done.
  - intros i x Ti Hm Hr. destruct (S5 i x Ti Hm Hr) as [?|(c & Hc & E)]; [by left|]. apply elem_of_cons in Hc as [->|Hc]; [|right; by exists c].
    exfalso. apply (S8 a i _ ltac:(left) Hl Ti). rewrite E, page_of_eq by lia. unfold f in *. destruct Hhhdm as (_ & ? & _). rewrite E in *. lia.
  - intros c Hc. apply S6. by right.
  - by apply NoDup_cons in S0 as [_ ?].
  - intros c d Hc Hd. apply S7; by right.
  - intros c i q Hc. apply S8. by right.
  - intros g Hg Hh. apply Hheld in Hh as [Hh Hn]; [|done]. rewrite Hp', decide_False by done. by apply S9.
  - intros g Hg Hh. rewrite Hp' by done. destruct (decide (f <= g < f + b_size a)) as [Hin|Hn].
    + symmetry. apply (S9 g Hg). right. exists a. split; [left|]. split; [done|]. unfold f in Hin. lia.
    + apply S10; [done|]. intros Hh'. apply Hh. by apply Hheld.
Qed.

Lemma free_large_layout m buckets :
  layout L (a :: live) m buckets → layout L live (store64 m (b_base a + 8) 0) buckets ∧ kept live m (store64 m (b_base a + 8) 0).
Proof.
  intros [La1 La2 La3]. destruct W_frames as (_ & _ & _ & Hbig).
  assert (Hm1 : ∀ y, ¬ (b_base a <= y < b_base a + b_size a) → store64 m (b_base a + 8) 0 y = m y) by (intros y Hy; apply store_out; lia).
  assert (Hk : kept live m (store64 m (b_base a + 8) 0)).
  { intros c y Hc Hy. apply Hm1. destruct (freed_apart c Hc) as [[?|?] _]; lia. }
  split; [|done]. split; [done| |].
  - intros b' Hb'. destruct (La2 b' Hb') as (x & Ex & Hc). exists x. split; [done|]. apply (chain_agree m); [|done]. intros y c Hy Hcy. apply Hm1.
    pose proof (bsize_range b' Hb'). destruct (free_live_apart hhdm Hhhdm r0 L (a :: live) p s Sh b' y a Hb' Hy ltac:(left)); lia.
  - intros c Hc. apply (header_agree_block m); [apply (live_size hhdm r0 L (a :: live) p s Sh); by right| |apply La3; by right]. intros y Hy. by apply (Hk c).
Qed.
End large.
End free.
