(* ===== verification/HeapOps.v ===== *)
(** What the heap promises its clients: each routine of src/mm/heap.cpp ends, hands out
    blocks that overlap no other, keeps the contents of the blocks in use, and returns
    every frame when the last block is freed. *)

From S2P Require Import Prelude Bitmap Pmm Frames Heap HeapInv HeapFree.

Section ops.
Context {P : Type} `{Frames P} {ready : P → Prop} `{!FramesLaws P ready}.
Variables (hhdm : Z) (vmm_virt_to_phys : Z → Z).
Hypothesis Hhhdm : 0 <= hhdm ∧ hhdm mod 4096 = 0 ∧ hhdm + PHYS_LIMIT < 2 ^ 64.
(** Physical memory is in the direct map. *)
Hypothesis Hdirect : ∀ f, frame_ok f → f < PHYS_LIMIT → vmm_virt_to_phys (hhdm + f) = f.

Abbreviation inv := (heap_inv (ready := ready) hhdm).

(** * malloc *)

(** The block a request of [size] bytes got. *)
Definition got (r0 : Z → Z) (live : list Block) (size ptr : Z) (h' : Heap P) : Prop :=
  ∃ L' a, inv r0 L' (a :: live) h' ∧ b_user a = ptr ∧ ptr = b_base a + HEADER ∧ ptr ≠ 0 ∧ ptr + size <= b_base a + b_size a.

Lemma pop_spec r0 L live h size fuel b x l :
  ready (hframes h) → shape hhdm r0 L live (hframes h) (g_page_slots h) → layout L live (mem h) (g_buckets h) →
  0 < size → size + HEADER <= MAX_BUCKET_SIZE → b = get_bucket_index (size + HEADER) → L b = x :: l →
  (∀ pg, pg = page_of x ∨ tight (g_page_slots h) pg) →
  (∀ i, tracked (g_page_slots h) i (page_of x) → free_count (g_page_slots h i) <= total_count (g_page_slots h i)) →
  ∃ h', malloc_unlocked hhdm fuel size h = Ok (x + HEADER, h') ∧ kept live (mem h) (mem h') ∧
    inv r0 (set_list L b l) (mkBlock (x + HEADER) x (bsize b) :: live) h' ∧ size + HEADER <= bsize b ∧ 0 < x.
Proof.
  intros Hr Sh La Hs Hm Hb Hl Ht Hle. destruct (get_bucket_index_spec (size + HEADER)) as [Hb1 Hb2];
    [unfold HEADER, MAX_BUCKET_SIZE in *; lia|]. rewrite <-Hb in Hb1, Hb2.
  destruct (pop_layout hhdm Hhhdm r0 L live (hframes h) (g_page_slots h) b x l Sh Hb1 Hl (mem h) (g_buckets h) La)
    as (E1 & Hx & bk & E2 & La' & Hout).
  assert (Hu : ∀ n, malloc_unlocked hhdm n size h = Ok (x + HEADER, mkHeap (hframes h) (write_header x (bsize b) (mem h)) bk (page_tracker_alloc_block x (g_page_slots h)))).
  { intros n. destruct n; unfold malloc_unlocked; fold (@malloc_unlocked P _ hhdm); destruct (Z.eqb_spec size 0); try lia;
      (destruct (Z.leb_spec (2 ^ 64) (size + HEADER)); [unfold MAX_BUCKET_SIZE in *; lia|]); cbv zeta;
      (destruct (Z.ltb_spec MAX_BUCKET_SIZE (size + HEADER)); [lia|]); rewrite <-Hb, get_bucket_size_eq by done;
      rewrite E1; cbn [mbind res_bind]; (destruct (Z.eqb_spec x 0); [done|]); cbn [negb]; by rewrite E2. }
  eexists. split; [apply Hu|]. cbn [mem]. split; [|split; [|split; [done|]]].
  - intros c y Hc Hy. apply Hout. intros Hxy. destruct (free_live_apart hhdm Hhhdm r0 L live (hframes h) (g_page_slots h) Sh b x c) as [Ha|Ha];
      [done|rewrite Hl; left|done| |]; unfold HEADER, MAX_BUCKET_SIZE in *; lia.
  - split; [done|by apply pop_shape|done|]. intros pg. by apply (pop_tight hhdm r0 L live (hframes h) (g_page_slots h) b x l Sh Hb1 Hl pg).
  - destruct (sh_free _ _ _ _ _ _ Sh b x Hb1) as (Rx & _); [rewrite Hl; left|]. lia.
Qed.

Lemma inv_le r0 L live h i pg :
  inv r0 L live h → tracked (g_page_slots h) i pg → free_count (g_page_slots h i) <= total_count (g_page_slots h i).
Proof. intros Hi Ti. pose proof (hv_tight _ _ _ _ _ Hi pg i Ti). lia. Qed.

Lemma malloc_large r0 L live h size :
  inv r0 L live h → 0 < size → MAX_BUCKET_SIZE < size + HEADER < 2 ^ 64 →
  ∃ ptr h', heap_alloc_large hhdm (size + HEADER) h = Ok (ptr, h') ∧ kept live (mem h) (mem h') ∧
    ((ptr = 0 ∧ inv r0 L live h') ∨ got r0 live size ptr h').
Proof.
  intros [V1 V2 V3 V4] Hs Hm. unfold heap_alloc_large. cbv zeta. set (pages := u64 (size + HEADER + 4095) / 4096).
  destruct (decide (size + HEADER + 4095 < 2 ^ 64)) as [Hsm|Hbig].
  - unfold MAX_BUCKET_SIZE, HEADER in *. assert (Hp : 2 <= pages < 2 ^ 52 ∧ size + 16 <= pages * 4096) by (unfold pages; rewrite u64_small by lia; lia).
    destruct (alloc_frames_spec (hframes h) pages V1 ltac:(lia)) as (f & p' & E & R' & Hc). step_with E.
    destruct Hc as [[-> Hrefs]|(Hf & Hend & Hrefs)].
    + eexists 0, _. split; [done|]. split; [done|]. left. split; [done|]. split; [done|by apply (shape_refs hhdm r0 L live (hframes h))|done|done].
    + assert (Hlim : f + pages * 4096 <= PHYS_LIMIT).
      { assert (Hg : frame_ok (f + (pages - 1) * 4096)) by (destruct Hf; split; lia). destruct (Hrefs _ Hg) as [Er _].
        rewrite decide_True in Er by lia. assert (Hpos : 0 < refs p' (f + (pages - 1) * 4096)) by lia.
        pose proof (refs_limit (ready := ready) p' _ R' Hg Hpos). destruct Hf. unfold PHYS_LIMIT in *. lia. }
      destruct (Z.eqb_spec f 0); [destruct Hf; lia|]. unfold vmm_phys_to_virt. pose proof Hf as [Hf1 Hf2]. unfold PHYS_LIMIT in *.
      replace (u64 (f + hhdm)) with (hhdm + f) by (rewrite u64_small by lia; lia). rewrite (u64_small (pages * 4096)) by lia.
      eexists _, _. split; [done|]. cbn [mem].
      destruct (frames_layout hhdm Hhhdm r0 L live (hframes h) (g_page_slots h) f pages p' V2 Hf ltac:(lia) Hlim Hrefs (mem h) (g_buckets h) V3) as [La Hout].
      split.
      { intros c y Hc Hy. apply Hout. intros Hxy.
        destruct (F_apart hhdm Hhhdm r0 L live (hframes h) (g_page_slots h) f pages p' V2 Hf ltac:(lia) Hrefs c Hc) as [Ha|Ha];
          cbn [b_base b_size] in Ha; unfold HEADER in *; lia. }
      right. exists L, (mkBlock (hhdm + f + HEADER) (hhdm + f) (pages * 4096)). split; [|cbn [b_user b_base b_size]; unfold HEADER; split; [done|]; lia].
      split; [done| |done|done].
      exact (frames_shape hhdm Hhhdm r0 L live (hframes h) (g_page_slots h) f pages p' V2 Hf ltac:(lia) Hlim Hrefs).
  - assert (pages = 0) as ->. { unfold pages, u64, HEADER, MAX_BUCKET_SIZE in *. lia. }
    rewrite alloc_frames_none. eexists 0, _. split; [done|]. split; [done|]. left. split; [done|]. by split.
Qed.

Lemma get_bucket_nonneg n : 0 < n <= 4096 → 0 <= get_bucket_index n < NUM_BUCKETS.
Proof. intros Hn. by apply get_bucket_index_spec. Qed.

Lemma pushed_cons pg b : 0 <= b < NUM_BUCKETS → ∃ x l, pushed pg (bsize b) (Z.to_nat (4096 / bsize b)) = x :: l.
Proof.
  intros Hb. assert (Hd : 1 <= 4096 / bsize b) by (destruct (bsize_cases b Hb) as [E|[E|[E|[E|[E|[E|[E|E]]]]]]]; rewrite E; lia).
  destruct (Z.to_nat (4096 / bsize b)) as [|n] eqn:E; [lia|]. by eexists _, _.
Qed.

(** What [malloc] does with a new frame when a free list is empty. *)
Section refill.
Variables (r0 : Z → Z) (L : Z → list Z) (live : list Block) (h : Heap P) (b f : Z) (p' : P).
Hypothesis Hi : inv r0 L live h.
Hypothesis Hb : 0 <= b < NUM_BUCKETS.
Hypothesis Hl : L b = [].
Hypothesis R' : ready p'.
Hypothesis Hf : frame_ok f.
Hypothesis Hlim : f < PHYS_LIMIT.
Hypothesis Hfree : refs (hframes h) f = 0.
Hypothesis Hrefs : ∀ g, frame_ok g → refs p' g = if decide (g = f) then 1 else refs (hframes h) g.
Let V2 := hv_shape _ _ _ _ _ Hi.

Lemma refill_kept m : (∀ x, ¬ (hhdm + f <= x < hhdm + f + 4096) → m x = mem h x) → kept live (mem h) m.
Proof.
  intros Hout c y Hc Hy. apply Hout. intros Hin.
  destruct (G_live_outside hhdm Hhhdm r0 L live (hframes h) (g_page_slots h) b f V2 Hb Hf Hlim Hfree c Hc); lia.
Qed.

(** The tracker is full: the frame goes back. *)
Lemma refill_full :
  ∃ p'', free_frame f p' = Ok p'' ∧
    inv r0 L live (mkHeap p'' (zero_memory (mem h) (hhdm + f) 4096) (g_buckets h) (g_page_slots h)) ∧
    kept live (mem h) (zero_memory (mem h) (hhdm + f) 4096).
Proof.
  destruct (refcount_dec_spec p' f R' Hf) as (p'' & E & R'' & Hrefs'); [rewrite Hrefs, decide_True by done; lia|].
  assert (Hk : kept live (mem h) (zero_memory (mem h) (hhdm + f) 4096)) by (apply refill_kept; intros x Hx; by apply zero_out).
  exists p''. split; [done|]. split; [|done]. split; [done| | |apply Hi]; cbn [hframes mem g_buckets g_page_slots].
  - apply (shape_refs hhdm r0 L live (hframes h)); [done|]. intros g Hg. rewrite Hrefs' by done. destruct (decide (g = f)) as [->|].
    + rewrite Hrefs, decide_True by done. lia.
    + by rewrite Hrefs, decide_False.
  - destruct (hv_layout _ _ _ _ _ Hi) as [La1 La2 La3]. split; [done| |].
    + intros b' Hb'. destruct (La2 b' Hb') as (h' & Eh' & Hc'). exists h'. split; [done|]. apply (chain_agree (mem h)); [|done].
      intros y c Hy Hcy. apply zero_out. intros Hin. pose proof (bsize_range b' Hb').
      destruct (G_free_outside hhdm Hhhdm r0 L live (hframes h) (g_page_slots h) b f V2 Hb Hf Hlim Hfree b' y Hb' Hy); lia.
    + intros a Ha. apply (header_agree_block (mem h)); [by apply (live_size hhdm r0 L live (hframes h) (g_page_slots h) V2)| |by apply La3].
      intros x Hx. by apply (Hk a).
Qed.

Lemma refill_page s' size :
  page_tracker_add (hhdm + f) b (4096 / bsize b) (g_page_slots h) = Some s' →
  0 < size → size + HEADER <= MAX_BUCKET_SIZE → b = get_bucket_index (size + HEADER) →
  ∃ m' bk', for_upto (Z.to_nat (4096 / bsize b)) 0 (push_block (hhdm + f) b (bsize b)) (zero_memory (mem h) (hhdm + f) 4096, g_buckets h) = Ok (m', bk') ∧
  ∃ ptr h', malloc_unlocked hhdm 0 size (mkHeap p' m' bk' s') = Ok (ptr, h') ∧ kept live (mem h) (mem h') ∧ got r0 live size ptr h'.
Proof.
  intros Eadd Hs Hsm Eb. pose proof Hf as [Hf1 Hf2].
  pose proof (grow_shape hhdm Hhhdm r0 L live (hframes h) (g_page_slots h) b f p' s' V2 Hb Hl Hf Hlim Hfree Hrefs Eadd) as Sh'.
  destruct (grow_layout hhdm Hhhdm r0 L live (hframes h) (g_page_slots h) b f V2 Hb Hl Hf Hlim Hfree (mem h) (g_buckets h)) as (m' & bk' & E & La' & Hout); [apply Hi|].
  exists m', bk'. split; [done|]. destruct (pushed_cons (hhdm + f) b Hb) as (x & l & El).
  assert (Hpx : page_of x = hhdm + f).
  { assert (Hx : x ∈ pushed (hhdm + f) (bsize b) (Z.to_nat (4096 / bsize b))) by (rewrite El; left).
    unfold PHYS_LIMIT in *. apply (page_blocks hhdm Hhhdm) in Hx; [tauto|done|lia|lia|lia]. }
  destruct (G_add hhdm Hhhdm r0 L live (hframes h) (g_page_slots h) b f s' V2 Hb Hf Hlim Hfree Eadd) as (Ht' & i0 & E0 & Hiff).
  destruct (pop_spec r0 (set_list L b (pushed (hhdm + f) (bsize b) (Z.to_nat (4096 / bsize b)))) live (mkHeap p' m' bk' s') size 0 b x l)
    as (h' & E' & Hk & Hi' & Hle & Hx0); try done; [by rewrite set_list_same, El| | |]; cbn [g_page_slots].
  - intros pg. destruct (decide (pg = page_of x)) as [|Hne]; [by left|]. right. intros i Ti. apply Hiff in Ti as [Ti|[_ ->]]; [|congruence].
    rewrite (G_slot hhdm Hhhdm r0 L live (hframes h) (g_page_slots h) b f s' V2 Hb Hf Hlim Hfree Eadd i pg Ti). by apply (hv_tight _ _ _ _ _ Hi pg).
  - intros i Ti. rewrite Hpx in Ti. apply Hiff in Ti as [Ti|[-> _]].
    + by destruct (G_untracked hhdm r0 L live (hframes h) (g_page_slots h) b f V2 Hb Hf Hfree i).
    + rewrite E0, set_slot_same. cbn [free_count total_count]. lia.
  - exists (x + HEADER), h'. split; [done|]. split.
    { intros c y Hc Hy. rewrite (Hk c y Hc Hy). cbn [mem]. by apply (refill_kept m' Hout c). }
    eexists _, _. split; [exact Hi'|]. cbn [b_user b_base b_size]. unfold HEADER in *. split; [done|]. lia.
Qed.
End refill.

Lemma malloc_small r0 L live h size :
  inv r0 L live h → 0 < size → size + HEADER <= MAX_BUCKET_SIZE →
  ∃ ptr h', malloc hhdm size h = Ok (ptr, h') ∧ kept live (mem h) (mem h') ∧
    ((ptr = 0 ∧ inv r0 L live h') ∨ got r0 live size ptr h').
Proof.
  intros Hi Hs Hsm. pose proof Hi as [V1 V2 V3 V4].
  remember (get_bucket_index (size + HEADER)) as b eqn:Eb.
  assert (Hb : 0 <= b < NUM_BUCKETS) by (rewrite Eb; apply get_bucket_nonneg; unfold HEADER, MAX_BUCKET_SIZE in *; lia).
  destruct (L b) as [|x l] eqn:Hl.
  - destruct (la_chain _ _ _ _ V3 b Hb) as (hd & Eh & Hc). rewrite Hl in Hc. cbn [chain] in Hc. subst hd.
    unfold malloc, malloc_unlocked; fold (@malloc_unlocked P _ hhdm). destruct (Z.eqb_spec size 0); [lia|].
    destruct (Z.leb_spec (2 ^ 64) (size + HEADER)); [unfold MAX_BUCKET_SIZE in *; lia|]. cbv zeta.
    destruct (Z.ltb_spec MAX_BUCKET_SIZE (size + HEADER)); [lia|]. rewrite <-Eb, Eh. cbn [mbind res_bind Z.eqb negb].
    destruct (alloc_frame_spec (hframes h) V1) as (f & p' & Ea & R' & Hcase). step_with Ea. destruct Hcase as [[-> Hrefs]|(Hf & Hfree & Hrefs)].
    { eexists 0, _. split; [done|]. split; [done|]. left. split; [done|]. split; [done|by apply (shape_refs hhdm r0 L live (hframes h))|done|done]. }
    assert (Hlim : f < PHYS_LIMIT) by (apply (refs_limit (ready := ready) p'); [done|done|rewrite Hrefs, decide_True by done; lia]).
    pose proof Hf as [Hf1 Hf2]. destruct (Z.eqb_spec f 0); [lia|]. unfold vmm_phys_to_virt.
    replace (u64 (f + hhdm)) with (hhdm + f) by (unfold PHYS_LIMIT in *; rewrite u64_small by lia; lia). rewrite get_bucket_size_eq by done.
    rewrite u16_small by (destruct (bsize_cases b Hb) as [E|[E|[E|[E|[E|[E|[E|E]]]]]]]; rewrite E; lia).
    destruct (page_tracker_add (hhdm + f) b (4096 / bsize b) (g_page_slots h)) as [s'|] eqn:Eadd.
    + destruct (refill_page r0 L live h b f p' Hi Hb Hl R' Hf Hlim Hfree Hrefs s' size Eadd Hs Hsm Eb) as (m' & bk' & E & ptr & h' & E' & Hk & Hg).
      step_with E. exists ptr, h'. split; [|split; [done|by right]]. rewrite <-E'. unfold malloc_unlocked. destruct (Z.eqb_spec size 0); [lia|].
      destruct (Z.leb_spec (2 ^ 64) (size + HEADER)); [lia|]. cbv zeta. destruct (Z.ltb_spec MAX_BUCKET_SIZE (size + HEADER)); [lia|].
      rewrite <-Eb, get_bucket_size_eq by done. unfold vmm_phys_to_virt.
      by rewrite u16_small by (destruct (bsize_cases b Hb) as [E2|[E2|[E2|[E2|[E2|[E2|[E2|E2]]]]]]]; rewrite E2; lia).
    + destruct (refill_full r0 L live h b f p' Hi Hb R' Hf Hlim Hfree Hrefs) as (p'' & E & Hi' & Hk). step_with E. eexists 0, _. split; [done|]. split; [done|by left].
  - destruct (pop_spec r0 L live h size 1 b x l V1 V2 V3 Hs Hsm Eb Hl) as (h' & E & Hk & Hi' & Hle & Hx0).
    { intros pg. right. apply V4. }
    { intros i Ti. by apply (inv_le r0 L live h i (page_of x)). }
    exists (x + HEADER), h'. split; [done|]. split; [done|]. right. eexists _, _. split; [exact Hi'|]. cbn [b_user b_base b_size]. unfold HEADER in *. split; [done|]. lia.
Qed.

Lemma malloc_spec r0 L live h size :
  inv r0 L live h → 0 <= size < 2 ^ 64 →
  ∃ ptr h', malloc hhdm size h = Ok (ptr, h') ∧ kept live (mem h) (mem h') ∧
    ((ptr = 0 ∧ inv r0 L live h') ∨ got r0 live size ptr h').
Proof.
  intros Hi Hs. destruct (decide (size = 0)) as [->|Hz]; [exists 0, h; split; [done|]; split; [done|by left]|].
  destruct (decide (size + HEADER <= MAX_BUCKET_SIZE)) as [Hsm|Hlg]; [by apply malloc_small; [|lia|]|].
  unfold malloc, malloc_unlocked. destruct (Z.eqb_spec size 0); [done|]. destruct (Z.leb_spec (2 ^ 64) (size + HEADER)).
  { exists 0, h. split; [done|]. split; [done|by left]. }
  cbv zeta. destruct (Z.ltb_spec MAX_BUCKET_SIZE (size + HEADER)); [|lia]. by apply malloc_large; [|lia|lia].
Qed.

(** * free *)

Lemma resolve_spec m a :
  header_ok m a → 0 <= b_base a →
  heap_resolve_header (b_user a) m = (Some (b_base a), b_base a + HEADER, negb (bool_decide (b_user a = b_base a + HEADER))).
Proof.
  intros (E1 & E2 & E3) Hb. unfold heap_resolve_header, HEADER in *. destruct (Z.eqb_spec (b_user a) 0) as [?|_]; [destruct E3 as [?|[? _]]; lia|]. cbv zeta.
  destruct E3 as [Eu|(Hr & E4 & E5)].
  - rewrite Eu. replace (b_base a + 16 - 16) with (b_base a) by lia. rewrite E2. change (negb (HEAP_MAGIC =? ALIGNED_MAGIC)) with true. cbv iota.
    by rewrite bool_decide_true.
  - replace (b_user a - 16 + 8) with (b_user a - 8) by lia. rewrite E5. change (negb (ALIGNED_MAGIC =? ALIGNED_MAGIC)) with false. cbv iota.
    rewrite E4. destruct (Z.eqb_spec (b_base a + 16) 0); [lia|]. destruct (Z.leb_spec (b_user a) (b_base a + 16)); [lia|]. cbn [orb].
    replace (b_base a + 16 - 16) with (b_base a) by lia. by rewrite bool_decide_false by lia.
Qed.

Lemma tight_total s i x pg :
  tracker_ok s → page_virt x = page_virt (s i) → (∀ q, tight s q) → free_count x < total_count x → tight (set_slot s i x) pg.
Proof.
  intros Hs Hx Ht Hlt j Tj. unfold set_slot in *. destruct (Z.eqb_spec j i) as [->|Hne]; [done|]. apply (Ht pg).
  destruct Tj as (H1 & H2 & H3). split; [done|]. split; [|done]. by destruct (Z.eqb_spec j i).
Qed.

Lemma free_small_spec r0 L live a h i0 :
  inv r0 L (a :: live) h → tracked (g_page_slots h) i0 (page_of (b_base a)) → b_size a = bsize (bucket_idx (g_page_slots h i0)) →
  b_base a mod b_size a = 0 → b_base a ∉ L (bucket_idx (g_page_slots h i0)) →
  ∃ h' L', free vmm_virt_to_phys (b_user a) h = Ok h' ∧ kept live (mem h) (mem h') ∧ inv r0 L' live h'.
Proof.
  intros [V1 V2 V3 V4] T0 Hsz Hm Hn. set (s := g_page_slots h) in *. set (b := bucket_idx (s i0)) in *.
  destruct (sh_page _ _ _ _ _ _ V2 i0 _ T0) as (((Hf1 & Hf2) & Hlim) & Hb & Htot & Hfree). fold s b in Hb, Htot, Hfree.
  destruct (sh_live _ _ _ _ _ _ V2 a ltac:(left)) as (R1 & R2 & _). pose proof (la_header _ _ _ _ V3 a ltac:(left)) as Ho. pose proof Ho as (E1 & E2 & _).
  pose proof (bsize_range b Hb) as Hbs. pose proof (V4 _ i0 T0) as Hlt. fold s in Hlt. pose proof (in_page_nonneg (page_of (b_base a)) (L b)).
  assert (Hu : b_user a ≠ 0) by (destruct Ho as (_ & _ & [?|[? _]]); unfold HEADER in *; lia).
  unfold free. destruct (Z.eqb_spec (b_user a) 0); [done|]. rewrite resolve_spec by (done || lia). rewrite E2. cbn [Z.eqb negb]. rewrite Z.eqb_refl. cbn [negb]. cbv zeta.
  rewrite E1, Hsz. unfold MAX_BUCKET_SIZE. destruct (Z.ltb_spec 4096 (bsize b)); [lia|]. rewrite get_bucket_index_bsize by done. fold s.
  unfold page_tracker_free_block. rewrite (page_tracker_find_some s i0) by (apply V2 || done). fold b. cbv zeta.
  assert (Htot' : total_count (s i0) <= 128) by (rewrite Htot; destruct (bsize_cases b Hb) as [E|[E|[E|[E|[E|[E|[E|E]]]]]]]; rewrite E; lia).
  rewrite u16_small by lia. pose proof T0 as (_ & Epg & _). destruct (Z.eqb_spec (free_count (s i0) + 1) (total_count (s i0))) as [Hc|Hc].
  - rewrite Epg. destruct (empty_page_layout hhdm Hhhdm r0 L live a (hframes h) s V2 i0 T0 Hsz Hm (hframes h) (mem h) (g_buckets h)
      (set_slot s i0 (mkSlot SLOT_TOMBSTONE b (free_count (s i0) + 1) (total_count (s i0)))) V3) as (m' & bk' & E & La' & Hk).
    fold b in E. rewrite E. cbn [mbind res_bind hframes mem g_buckets g_page_slots].
    assert (Hv : vmm_virt_to_phys (page_of (b_base a)) = page_of (b_base a) - hhdm).
    { replace (page_of (b_base a)) with (hhdm + (page_of (b_base a) - hhdm)) at 1 by lia. apply Hdirect; [by split|done]. }
    rewrite Hv. destruct (sh_held _ _ _ _ _ _ V2 (page_of (b_base a) - hhdm)) as [_ Hone]; [by split|left; exists i0; by replace (hhdm + (page_of (b_base a) - hhdm)) with (page_of (b_base a)) by lia|].
    destruct (refcount_dec_spec (hframes h) (page_of (b_base a) - hhdm) V1) as (p' & Ed & R' & Hp'); [by split|lia|]. unfold free_frame. step_with Ed.
    eexists _, _. split; [done|]. split; [done|]. split; [done| |exact La'|]; cbn [hframes g_page_slots].
    + apply (empty_page_shape hhdm Hhhdm r0 L live a (hframes h) s V2 i0 T0 Hsz Hm Hn Hc). intros g Hg. rewrite Hp' by done. case_decide; [lia|done].
    + intros q j Tj. apply (E_tracked hhdm r0 L live a (hframes h) s V2 i0 T0) in Tj as [Tj Hne]. unfold set_slot.
      destruct (Z.eqb_spec j i0) as [->|]; [|by apply (V4 q)]. destruct Tj as (_ & <- & _). done.
  - destruct (push_back_layout hhdm Hhhdm r0 L live a (hframes h) s V2 i0 T0 Hsz Hm Hn (mem h) (g_buckets h) V3) as (next & En & bk' & Es & La' & Hout).
    fold b in En, Es. rewrite En. cbn [mbind res_bind]. rewrite Es. cbn [mbind res_bind].
    eexists _, _. split; [done|]. split; [|split; [done| |exact La'|]]; cbn [hframes mem g_page_slots].
    + intros c y Hcl Hy. apply Hout. intros Hin. destruct (freed_apart hhdm r0 L live a (hframes h) s V2 c Hcl) as [[?|?] _]; unfold HEADER in *; lia.
    + apply (push_back_shape hhdm Hhhdm r0 L live a (hframes h) s V2 i0 T0 Hsz Hm Hn).
    + intros q. apply tight_total; [apply V2|done|done|]. cbn [free_count total_count]. lia.
Qed.

Lemma free_large_spec r0 L live a h :
  inv r0 L (a :: live) h → large hhdm a →
  ∃ h' L', free vmm_virt_to_phys (b_user a) h = Ok h' ∧ kept live (mem h) (mem h') ∧ inv r0 L' live h'.
Proof.
  intros [V1 V2 V3 V4] Hl. destruct (sh_live _ _ _ _ _ _ V2 a ltac:(left)) as (R1 & R2 & _). pose proof (la_header _ _ _ _ V3 a ltac:(left)) as Ho.
  pose proof Ho as (E1 & E2 & _). destruct Hl as (Hbig & Hmod & Hf & Hend). assert (Hl : large hhdm a) by done.
  assert (Hu : b_user a ≠ 0) by (destruct Ho as (_ & _ & [?|[? _]]); unfold HEADER in *; lia).
  unfold free. destruct (Z.eqb_spec (b_user a) 0); [done|]. rewrite resolve_spec by (done || lia). rewrite E2, Z.eqb_refl. cbn [negb]. cbv zeta.
  rewrite E1. destruct (Z.ltb_spec MAX_BUCKET_SIZE (b_size a)); [|lia].
  assert (Hv : vmm_virt_to_phys (b_base a) = b_base a - hhdm).
  { replace (b_base a) with (hhdm + (b_base a - hhdm)) at 1 by lia. apply Hdirect; [done|]. unfold MAX_BUCKET_SIZE in *. lia. }
  rewrite Hv. destruct (free_frames (ready := ready) hhdm r0 L live a (hframes h) (g_page_slots h) V2 Hl V1) as (p' & E & R' & Hp'). step_with E.
  destruct (free_large_layout hhdm Hhhdm r0 L live a (hframes h) (g_page_slots h) V2 Hl (mem h) (g_buckets h) V3) as [La' Hk].
  eexists _, _. split; [done|]. split; [done|]. split; [done| |exact La'|done]. by apply (free_large_shape hhdm Hhhdm r0 L live a (hframes h)).
Qed.

Lemma free_spec r0 L live a h :
  inv r0 L (a :: live) h →
  ∃ h' L', free vmm_virt_to_phys (b_user a) h = Ok h' ∧ kept live (mem h) (mem h') ∧ inv r0 L' live h'.
Proof.
  intros Hi. destruct (sh_live _ _ _ _ _ _ (hv_shape _ _ _ _ _ Hi) a ltac:(left)) as (_ & _ & [(i & T & H1 & H2 & H3)|Hl]).
  - by apply (free_small_spec r0 L live a h i).
  - by apply (free_large_spec r0 L).
Qed.

(** * Aligned, cleared and moved blocks *)

Lemma inv_perm r0 L live live' h : live ≡ₚ live' → inv r0 L live h → inv r0 L live' h.
Proof. intros Hp [V1 V2 V3 V4]. split; [done|by apply (shape_perm hhdm r0 L live)|by apply (layout_perm L live)|done]. Qed.

Lemma live_end r0 L live h a : inv r0 L live h → a ∈ live → hhdm <= b_base a ∧ b_base a + b_size a <= hhdm + PHYS_LIMIT.
Proof.
  intros [V1 V2 V3 V4] Ha. destruct (sh_live _ _ _ _ _ _ V2 a Ha) as (R1 & R2 & [(i & T & Hsz & Hm & _)|(_ & _ & _ & Hend)]); [|lia].
  destruct (sh_page _ _ _ _ _ _ V2 i _ T) as (((Hf1 & Hf2) & Hlim) & Hb & _). rewrite Hsz in *. pose proof (bsize_range _ Hb).
  pose proof (block_in_page _ (b_base a) Hb ltac:(lia) Hm). unfold PHYS_LIMIT in *. lia.
Qed.

(** A client writes to a block it holds. *)
Lemma client_write r0 L live h a m' :
  inv r0 L live h → a ∈ live → (∀ x, ¬ (b_user a <= x < b_base a + b_size a) → m' x = mem h x) →
  inv r0 L live (mkHeap (hframes h) m' (g_buckets h) (g_page_slots h)) ∧ ∀ c, c ∈ live → c ≠ a → kept [c] (mem h) m'.
Proof.
  intros [V1 V2 V3 V4] Ha Hm. destruct V3 as [La1 La2 La3]. pose proof (La3 a Ha) as (_ & _ & Hu).
  assert (Hub : b_base a + HEADER <= b_user a) by (unfold HEADER in *; destruct Hu as [?|[? _]]; lia).
  assert (Hother : ∀ c, c ∈ live → c ≠ a → kept [c] (mem h) m').
  { intros c Hc Hne c' x ->%list_elem_of_singleton Hx. apply Hm. destruct (sh_apart _ _ _ _ _ _ V2 a c Ha Hc ltac:(congruence)); unfold HEADER in *; lia. }
  split; [|done]. split; [done|done| |done]. split; [done| |]; cbn [mem g_buckets].
  - intros b Hb. destruct (La2 b Hb) as (x & Ex & Hc). exists x. split; [done|]. apply (chain_agree (mem h)); [|done]. intros y c Hy Hcy. apply Hm.
    pose proof (bsize_range b Hb). destruct (free_live_apart hhdm Hhhdm r0 L live (hframes h) (g_page_slots h) V2 b y a Hb Hy Ha); unfold HEADER in *; lia.
  - intros c Hc. pose proof (live_size hhdm r0 L live _ _ V2 c Hc). destruct (decide (c = a)) as [->|Hne].
    + apply (header_agree (mem h)); [| |by apply La3].
      * intros x Hx. apply Hm. lia.
      * intros _ x Hx. apply Hm. lia.
    + apply (header_agree_block (mem h)); [done| |by apply La3]. intros x Hx. apply (Hother c Hc Hne c); [left|done].
Qed.

Lemma power_of_two v : is_power_of_two v = true → 0 <= v < 2 ^ 64 → ∃ k, 0 <= k < 64 ∧ v = 2 ^ k.
Proof.
  unfold is_power_of_two. intros Hp Hv. apply andb_true_iff in Hp as [H0 Hp]. destruct (Z.eqb_spec v 0); [done|]. apply Z.eqb_eq in Hp.
  rewrite u64_small in Hp by lia. exists (Z.log2 v). pose proof (Z.log2_spec v ltac:(lia)) as [H1 H2]. assert (Hk : 0 <= Z.log2 v < 64).
  { split; [apply Z.log2_nonneg|]. apply Z.log2_lt_pow2; lia. }
  split; [done|]. destruct (decide (v = 2 ^ Z.log2 v)) as [|Hne]; [done|]. exfalso.
  assert (Hl : Z.log2 (v - 1) = Z.log2 v) by (apply Z.log2_unique; lia).
  assert (Hb : Z.testbit (Z.land v (v - 1)) (Z.log2 v) = true).
  { rewrite Z.land_spec, Z.bit_log2 by lia. rewrite <-Hl. rewrite Z.bit_log2; [done|]. assert (0 < 2 ^ Z.log2 v) by lia. lia. }
  rewrite Hp, Z.bits_0 in Hb. done.
Qed.

(** The block a caller has after a request of [size] bytes: none, or one that holds them. *)
Definition served (r0 : Z → Z) (live : list Block) (size ptr : Z) (h' : Heap P) : Prop :=
  (ptr = 0 ∧ ∃ L', inv r0 L' live h') ∨
  ∃ L' a, inv r0 L' (a :: live) h' ∧ b_user a = ptr ∧ ptr ≠ 0 ∧ ptr + size <= b_base a + b_size a.

Lemma served_malloc r0 L live h size :
  inv r0 L live h → 0 <= size < 2 ^ 64 →
  ∃ ptr h', malloc hhdm size h = Ok (ptr, h') ∧ kept live (mem h) (mem h') ∧ served r0 live size ptr h'.
Proof.
  intros Hi Hs. destruct (malloc_spec r0 L live h size Hi Hs) as (ptr & h' & E & Hk & Hc). exists ptr, h'. split; [done|]. split; [done|].
  destruct Hc as [[-> Hi']|(L' & a & Hi' & E1 & E2 & E3 & E4)]; [left; eauto|right]. by exists L', a.
Qed.

(** The pointer of the block at the head moves up by at least a header, and the second header goes before it. *)
Lemma retag r0 L a live h u :
  inv r0 L (a :: live) h → b_user a = b_base a + HEADER → b_user a + HEADER <= u <= b_base a + b_size a →
  inv r0 L (mkBlock u (b_base a) (b_size a) :: live)
    (mkHeap (hframes h) (store64 (store64 (mem h) (u - HEADER) (b_user a)) (u - HEADER + 8) ALIGNED_MAGIC) (g_buckets h) (g_page_slots h)) ∧
  kept live (mem h) (store64 (store64 (mem h) (u - HEADER) (b_user a)) (u - HEADER + 8) ALIGNED_MAGIC).
Proof.
  intros Hi Hu Hr. set (m' := store64 _ _ _). pose proof (live_end r0 L _ h a Hi ltac:(left)) as He.
  assert (Hm : ∀ x, ¬ (b_user a <= x < b_base a + b_size a) → m' x = mem h x).
  { intros x Hx. unfold m', HEADER in *. rewrite !store_out by lia. done. }
  destruct (client_write r0 L (a :: live) h a m' Hi ltac:(left) Hm) as [[V1 V2 V3 V4] Hk]. pose proof (sh_once _ _ _ _ _ _ V2) as [Hna _]%NoDup_cons.
  split; [|intros c x Hc Hx; apply (Hk c ltac:(by right) ltac:(congruence) c x); [left|done]].
  split; [done|by apply (shape_retag hhdm r0 L a)| |done]. destruct V3 as [La1 La2 La3]. split; [done|done|]. intros c [->|Hc]%elem_of_cons; [|by apply La3; right].
  destruct (La3 a ltac:(left)) as (E1 & E2 & _). split; [done|]. split; [done|]. right. cbn [b_user b_base b_size]. unfold HEADER, PHYS_LIMIT in *. split; [lia|].
  cbn [mem]. unfold m'. replace (u - 16 + 8) with (u - 8) by lia. split; [|by apply load_store].
  rewrite (load_agree (store64 (mem h) (u - 16) (b_user a))) by (intros x Hx; apply store_out; lia). rewrite load_store; lia.
Qed.

Lemma aligned_alloc_spec r0 L live h alignment size :
  inv r0 L live h → 0 <= size < 2 ^ 64 → 0 <= alignment < 2 ^ 64 →
  ∃ ptr h', aligned_alloc hhdm alignment size h = Ok (ptr, h') ∧ kept live (mem h) (mem h') ∧ served r0 live size ptr h' ∧
    (16 < alignment → ptr mod alignment = 0).
Proof.
  intros Hi Hs Ha. assert (Hnone : served r0 live size 0 h) by (left; eauto). unfold aligned_alloc. destruct (is_power_of_two alignment) eqn:Ep; cbn [negb].
  2: { exists 0, h. by repeat split. }
  destruct (power_of_two alignment Ep Ha) as (k & Hk & ->). destruct (Z.leb_spec (2 ^ k) 16).
  { destruct (served_malloc r0 L live h size Hi Hs) as (ptr & h' & E & Hkept & Hc). exists ptr, h'. split_and!; [done..|lia]. }
  destruct (Z.leb_spec (2 ^ 64) (size + (2 ^ k - 1))); cbn [orb]; [exists 0, h; by repeat split|].
  destruct (Z.leb_spec (2 ^ 64) (size + (2 ^ k - 1) + HEADER)); [exists 0, h; by repeat split|].
  destruct (malloc_spec r0 L live h (size + (2 ^ k - 1) + HEADER) Hi ltac:(unfold HEADER in *; lia)) as (raw & h' & E & Hkept & Hc). step_with E.
  destruct Hc as [[-> Hi']|(L' & a & Hi' & <- & E2 & E3 & E4)]; [exists 0, h'; split_and!; [done..|left; eauto|done]|].
  destruct (Z.eqb_spec (b_user a) 0); [done|]. pose proof (live_end r0 L' _ h' a Hi' ltac:(left)) as He. unfold HEADER, PHYS_LIMIT in *.
  rewrite u64_small, align_down by lia. set (u := b_user a + 16 + 2 ^ k - 1 - _). pose proof (Z.mod_pos_bound (b_user a + 16 + 2 ^ k - 1) (2 ^ k) ltac:(lia)) as Hmod.
  destruct (retag r0 L' a live h' u Hi' ltac:(unfold HEADER; lia) ltac:(unfold HEADER, u; lia)) as [Hi'' Hk'']. unfold HEADER in *.
  eexists _, _. split; [done|]. split; [intros c x Hx Hin; cbn [mem]; rewrite (Hk'' c) by done; by apply (Hkept c)|]. split.
  - right. exists L', (mkBlock u (b_base a) (b_size a)). split; [done|]. cbn [b_user b_base b_size]. unfold u. lia.
  - intros _. unfold u. set (v := _ + _ - 1). rewrite (Z.div_mod v (2 ^ k)) at 1 by lia.
    replace (2 ^ k * (v / 2 ^ k) + v mod 2 ^ k - v mod 2 ^ k) with (v / 2 ^ k * 2 ^ k) by lia. apply Z.mod_mul. lia.
Qed.

Lemma calloc_spec r0 L live h nmemb size :
  inv r0 L live h → 0 <= nmemb < 2 ^ 64 → 0 <= size < 2 ^ 64 →
  ∃ ptr h', calloc hhdm nmemb size h = Ok (ptr, h') ∧ kept live (mem h) (mem h') ∧ served r0 live (nmemb * size) ptr h' ∧
    (ptr ≠ 0 → ∀ x, ptr <= x < ptr + nmemb * size → mem h' x = 0).
Proof.
  intros Hi Hn Hs. unfold calloc. destruct (Z.leb_spec (2 ^ 64) (nmemb * size)).
  { exists 0, h. split_and!; [done..|left; eauto|done]. }
  destruct (served_malloc r0 L live h (nmemb * size) Hi ltac:(nia)) as (ptr & h' & E & Hkept & Hc). step_with E.
  destruct Hc as [[-> Hi']|(L' & a & Hi' & <- & E3 & E4)]; [exists 0, h'; split_and!; [done..|left; done|done]|].
  destruct (Z.eqb_spec (b_user a) 0); [done|]. eexists _, _. split; [done|]. cbn [mem].
  destruct (client_write r0 L' (a :: live) h' a (zero_memory (mem h') (b_user a) (nmemb * size)) Hi' ltac:(left)) as [Hi'' Hk].
  { intros x Hx. apply zero_out. lia. }
  pose proof (sh_once _ _ _ _ _ _ (hv_shape _ _ _ _ _ Hi')) as [Hna _]%NoDup_cons. split_and!.
  - intros c x Hin Hx. rewrite (Hk c ltac:(by right) ltac:(congruence) c x) by (done || left). by apply (Hkept c).
  - right. by exists L', a.
  - intros _ x Hx. by apply zero_in.
Qed.
(** The bytes a block offers its holder. *)
Definition usable (a : Block) : Z := b_base a + b_size a - b_user a.

Lemma observed_alignment_range x : 16 <= heap_observed_alignment x <= 4096.
Proof.
  unfold heap_observed_alignment. destruct (Z.eqb_spec x 0); [lia|]. cbv zeta. set (w := Z.land _ _).
  destruct (Z.ltb_spec w 16); [destruct (Z.ltb_spec 4096 16); lia|destruct (Z.ltb_spec 4096 w); lia].
Qed.

Lemma grow_alloc r0 L live h (aligned : bool) x size :
  inv r0 L live h → 0 <= size < 2 ^ 64 →
  ∃ ptr h', (if aligned then aligned_alloc hhdm (heap_observed_alignment x) size h else malloc hhdm size h) = Ok (ptr, h') ∧
    kept live (mem h) (mem h') ∧ served r0 live size ptr h'.
Proof.
  intros Hi Hs. destruct aligned; [|by apply (served_malloc r0 L)]. pose proof (observed_alignment_range x).
  destruct (aligned_alloc_spec r0 L live h (heap_observed_alignment x) size Hi Hs ltac:(lia)) as (ptr & h' & E & Hk & Hc & _). eauto.
Qed.

(** The old block's bytes go to the new block and the old block is freed. *)
Lemma move_spec r0 L n a live h :
  inv r0 L (n :: a :: live) h → usable a <= usable n →
  ∃ h' L', free vmm_virt_to_phys (b_user a) (mkHeap (hframes h) (memcpy (mem h) (b_user n) (b_user a) (usable a)) (g_buckets h) (g_page_slots h)) = Ok h' ∧
    inv r0 L' (n :: live) h' ∧ kept live (mem h) (mem h') ∧ ∀ i, 0 <= i < usable a → mem h' (b_user n + i) = mem h (b_user a + i).
Proof.
  intros Hi Hu. unfold usable in *. set (m' := memcpy _ _ _ _).
  destruct (client_write r0 L (n :: a :: live) h n m' Hi ltac:(left)) as [Hi' Hk]; [intros x Hx; apply memcpy_out; lia|].
  pose proof (sh_once _ _ _ _ _ _ (hv_shape _ _ _ _ _ Hi)) as [Hna Hnd]%NoDup_cons. apply NoDup_cons in Hnd as [Ha Hnd]. apply not_elem_of_cons in Hna as [Hne Hna].
  pose proof (la_header _ _ _ _ (hv_layout _ _ _ _ _ Hi) n ltac:(left)) as (_ & _ & Hun).
  apply (inv_perm r0 L _ (a :: n :: live)) in Hi'; [|by rewrite Permutation_swap].
  destruct (free_spec r0 L (n :: live) a _ Hi') as (h' & L' & E & Hkept & Hi''). exists h', L'. split; [done|]. split; [done|]. split.
  - intros c x Hc Hx. rewrite (Hkept c x) by (done || by right). cbn [mem]. apply (Hk c ltac:(by right; right) ltac:(congruence) c); [left|done].
  - intros i Hx. unfold HEADER in *. rewrite (Hkept n (b_user n + i)); [|left|destruct Hun as [?|[? _]]; lia]. cbn [mem]. unfold m'. rewrite memcpy_in by lia.
    by replace (b_user a + (b_user n + i - b_user n)) with (b_user a + i) by lia.
Qed.

Lemma realloc_spec r0 L a live h size :
  inv r0 L (a :: live) h → 0 < size < 2 ^ 64 →
  ∃ ptr h' L', realloc hhdm vmm_virt_to_phys (b_user a) size h = Ok (ptr, h') ∧
    ((ptr = 0 ∧ inv r0 L' (a :: live) h' ∧ kept (a :: live) (mem h) (mem h')) ∨
     ∃ n, inv r0 L' (n :: live) h' ∧ b_user n = ptr ∧ ptr ≠ 0 ∧ size <= usable n ∧ kept live (mem h) (mem h') ∧
       ∀ i, 0 <= i < usable a → mem h' (b_user n + i) = mem h (b_user a + i)).
Proof.
  intros Hi Hs. pose proof (live_end r0 L _ h a Hi ltac:(left)) as He. pose proof (la_header _ _ _ _ (hv_layout _ _ _ _ _ Hi) a ltac:(left)) as Ho.
  pose proof Ho as (E1 & E2 & Hu). pose proof (live_size hhdm r0 L _ _ _ (hv_shape _ _ _ _ _ Hi) a ltac:(left)) as Hsz.
  assert (Hua : b_base a + HEADER <= b_user a <= b_base a + b_size a) by (unfold HEADER in *; destruct Hu as [?|[? _]]; lia).
  unfold realloc. destruct (Z.eqb_spec (b_user a) 0) as [?|Hnz]; [unfold HEADER in *; lia|]. destruct (Z.eqb_spec size 0) as [?|_]; [lia|].
  rewrite resolve_spec by (done || lia). rewrite E1, E2. change (negb (HEAP_MAGIC =? HEAP_MAGIC)) with false. cbn [orb].
  destruct (Z.ltb_spec (b_size a) HEADER); [unfold HEADER in *; lia|]. cbv zeta. destruct (Z.ltb_spec (b_user a) (b_base a + HEADER)); [lia|].
  destruct (Z.ltb_spec (b_size a - HEADER) (b_user a - (b_base a + HEADER))); [lia|].
  replace (b_size a - HEADER - (b_user a - (b_base a + HEADER))) with (usable a) by (unfold usable; lia).
  destruct (Z.leb_spec size (usable a)) as [Hfit|Hgrow].
  { exists (b_user a), h, L. split; [done|]. right. exists a. by split_and!. }
  destruct (grow_alloc r0 L (a :: live) h (negb (bool_decide (b_user a = b_base a + HEADER))) (b_user a) size Hi ltac:(lia)) as (ptr & h' & E & Hk & Hc).
  step_with E. destruct Hc as [[-> (L' & Hi')]|(L' & n & Hi' & <- & E3 & E4)]; [exists 0, h', L'; split; [done|by left]|].
  destruct (Z.eqb_spec (b_user n) 0); [done|]. destruct (move_spec r0 L' n a live h' Hi' ltac:(unfold usable in *; lia)) as (h'' & L'' & E' & Hi'' & Hk' & Hb).
  step_with E'. exists (b_user n), h'', L''. split; [done|]. right. exists n. split_and!; try done; [unfold usable; lia| |].
  - intros c x Hin Hx. rewrite (Hk' c x) by done. apply (Hk c); [by right|done].
  - intros i Hx. rewrite Hb by done. apply (Hk a); [left|]. unfold usable, HEADER in *. lia.
Qed.
End ops.
