(* ===== verification/HeapRun.v ===== *)
(** The heap as its clients see it: any sequence of calls of the routines of
    src/mm/heap.cpp and of writes to the blocks they return behaves as a set of separate
    byte arrays, and no frame is lost. *)

From S2P Require Import Prelude Bitmap Pmm Frames Heap HeapInv HeapFree HeapOps.

(** An array a client holds. *)
Record Obj := mkObj { o_ptr : Z; o_size : Z; o_byte : Z → Z }.

Inductive Op :=
| OMalloc (size : Z)
| OAligned (alignment size : Z)
| OCalloc (nmemb size : Z)
| ORealloc (k : nat) (size : Z)
| OFree (k : nat)
| OWrite (k : nat) (i v : Z).

Definition op_ok (op : Op) : Prop :=
  match op with
  | OMalloc size | ORealloc _ size => 0 <= size < 2 ^ 64
  | OAligned a size | OCalloc a size => 0 <= a < 2 ^ 64 ∧ 0 <= size < 2 ^ 64
  | OFree _ | OWrite _ _ _ => True
  end.

Section client.
Context {P : Type} `{Frames P}.
Variables (hhdm : Z) (vmm_virt_to_phys : Z → Z).

(** A new array, with the bytes found in memory, unless the call failed. *)
Definition new_obj (ptr size : Z) (h : Heap P) (objs : list Obj) : Heap P * list Obj :=
  (h, if ptr =? 0 then objs else mkObj ptr size (λ i, mem h (ptr + i)) :: objs).

Definition set_byte (o : Obj) (i v : Z) : Obj := mkObj (o_ptr o) (o_size o) (λ j, if j =? i then v else o_byte o j).

(** One call: the routine runs on the heap, and the arrays change as its contract says. *)
Definition client_step (op : Op) (st : Heap P * list Obj) : res (Heap P * list Obj) :=
  let '(h, objs) := st in
  match op with
  | OMalloc size => '(ptr, h) ← malloc hhdm size h; Ok (new_obj ptr size h objs)
  | OAligned alignment size => '(ptr, h) ← aligned_alloc hhdm alignment size h; Ok (new_obj ptr size h objs)
  | OCalloc nmemb size =>
      '(ptr, h) ← calloc hhdm nmemb size h;
      Ok (h, if ptr =? 0 then objs else mkObj ptr (nmemb * size) (λ _, 0) :: objs)
  | ORealloc k size =>
      match objs !! k with
      | None => Ok st
      | Some o =>
          '(ptr, h) ← realloc hhdm vmm_virt_to_phys (o_ptr o) size h;
          if size =? 0 then Ok (h, delete k objs)
          else if ptr =? 0 then Ok (h, objs)
          else Ok (h, mkObj ptr size (λ i, if i <? o_size o then o_byte o i else mem h (ptr + i)) :: delete k objs)
      end
  | OFree k =>
      match objs !! k with
      | None => Ok st
      | Some o => h ← free vmm_virt_to_phys (o_ptr o) h; Ok (h, delete k objs)
      end
  | OWrite k i v =>
      match objs !! k with
      | None => Ok st
      | Some o =>
          if (0 <=? i) && (i <? o_size o) then
            Ok (mkHeap (hframes h) (λ x, if x =? o_ptr o + i then v else mem h x) (g_buckets h) (g_page_slots h),
                <[k := set_byte o i v]> objs)
          else Ok st
      end
  end.

Fixpoint client_run (ops : list Op) (st : Heap P * list Obj) : res (Heap P * list Obj) :=
  match ops with
  | [] => Ok st
  | op :: ops' => st ← client_step op st; client_run ops' st
  end.

(** Each array lies in a block of the direct map and holds the bytes it should. *)
Definition backed (h : Heap P) (o : Obj) (a : Block) : Prop :=
  b_user a = o_ptr o ∧ 0 <= o_size o <= usable a ∧ ∀ i, 0 <= i < o_size o → mem h (o_ptr o + i) = o_byte o i.

Definition separate (o o' : Obj) : Prop :=
  o_ptr o ≠ o_ptr o' ∧ (o_ptr o + o_size o <= o_ptr o' ∨ o_ptr o' + o_size o' <= o_ptr o).

(** What the arrays promise. *)
Record arrays (p0 : P) (st : Heap P * list Obj) : Prop := {
  ar_range o : o ∈ st.2 → hhdm < o_ptr o ∧ o_ptr o + o_size o <= hhdm + PHYS_LIMIT;
  ar_bytes o i : o ∈ st.2 → 0 <= i < o_size o → mem st.1 (o_ptr o + i) = o_byte o i;
  ar_separate j k o o' : st.2 !! j = Some o → st.2 !! k = Some o' → j ≠ k → separate o o';
  ar_frames f : frame_ok f → 0 < refs p0 f → refs (hframes st.1) f = refs p0 f
}.
End client.

(** * Lemmas *)

Section run.
Context {P : Type} `{Frames P} {ready : P → Prop} `{!FramesLaws P ready}.
Variables (hhdm : Z) (vmm_virt_to_phys : Z → Z).
Hypothesis Hhhdm : 0 <= hhdm ∧ hhdm mod 4096 = 0 ∧ hhdm + PHYS_LIMIT < 2 ^ 64.
Hypothesis Hdirect : ∀ f, frame_ok f → f < PHYS_LIMIT → vmm_virt_to_phys (hhdm + f) = f.

Abbreviation inv := (heap_inv (ready := ready) hhdm).

Lemma heap_init_inv p m : ready p → inv (refs p) (λ _, []) [] (heap_init p m).
Proof.
  intros Hp. assert (Hno : ∀ i pg, ¬ tracked (λ _, mkSlot 0 0 0 0) i pg).
  { intros i pg (_ & E & Hne & _). by cbn [page_virt] in E. }
  split; [done| | |].
  - split; cbn [g_page_slots hframes heap_init]; try (intros; exfalso; by eapply Hno).
    + split; intros; exfalso; by eapply Hno.
    + intros b x _ Hx. by apply not_elem_of_nil in Hx.
    + intros. apply NoDup_nil_2.
    + intros a Hx. by apply not_elem_of_nil in Hx.
    + apply NoDup_nil_2.
    + intros a b Hx. by apply not_elem_of_nil in Hx.
    + intros f _ [(i & T)|(a & Ha & _)]; [by destruct (Hno i (hhdm + f))|by apply not_elem_of_nil in Ha].
    + done.
  - split; cbn [g_buckets mem heap_init]; [done| |intros a Hx; by apply not_elem_of_nil in Hx].
    intros b Hb. exists 0. split; [|done]. unfold NUM_BUCKETS in Hb. assert (b = 0 ∨ b = 1 ∨ b = 2 ∨ b = 3 ∨ b = 4 ∨ b = 5 ∨ b = 6 ∨ b = 7) as Hc by lia.
    repeat (destruct Hc as [->|Hc]; [done|]). by subst.
  - intros pg i T. by destruct (Hno i pg).
Qed.

(** A page with no block in use would have been given back. *)
Lemma no_page r0 L h i pg : inv r0 L [] h → ¬ tracked (g_page_slots h) i pg.
Proof.
  intros [V1 V2 V3 V4] T. pose proof (V4 pg i T) as Hlt. destruct (sh_page _ _ _ _ _ _ V2 i pg T) as (((Hf1 & Hf2) & Hlim) & Hb & Ht & Hfc).
  rewrite Ht, Hfc in Hlt. set (b := bucket_idx _) in *. unfold PHYS_LIMIT in *. pose proof (bsize_range b Hb) as Hbs.
  assert (Hsub : pushed pg (bsize b) (Z.to_nat (4096 / bsize b)) ⊆+ filter (λ x, page_of x = pg) (L b)).
  { apply NoDup_submseteq; [apply (NoDup_pushed hhdm); lia|]. intros x Hx.
    apply (page_blocks hhdm Hhhdm) in Hx as (Hx & Hpg & Hm); [|done|lia|lia|lia]. apply list_elem_of_filter. split; [done|].
    unfold b in *. destruct (sh_block _ _ _ _ _ _ V2 i x) as [?|(a & Ha & _)]; [by rewrite Hpg|done|done|done|by apply not_elem_of_nil in Ha]. }
  apply submseteq_length in Hsub. rewrite length_pushed in Hsub. unfold in_page in Hlt. lia.
Qed.

Lemma no_block_no_frame r0 L h f : inv r0 L [] h → frame_ok f → refs (hframes h) f = r0 f.
Proof.
  intros Hi Hf. apply (sh_other _ _ _ _ _ _ (hv_shape _ _ _ _ _ Hi) f Hf). intros [(i & T)|(a & Ha & _)].
  - by apply (no_page _ _ _ _ _ Hi T).
  - by apply not_elem_of_nil in Ha.
Qed.

Definition repr (r0 : Z → Z) (st : Heap P * list Obj) : Prop := ∃ L live, inv r0 L live st.1 ∧ Forall2 (backed st.1) st.2 live.

Lemma user_range r0 L live h a : inv r0 L live h → a ∈ live → b_base a + HEADER <= b_user a <= b_base a + b_size a.
Proof.
  intros Hi Ha. destruct (la_header _ _ _ _ (hv_layout _ _ _ _ _ Hi) a Ha) as (_ & _ & Hu).
  pose proof (live_size hhdm r0 L live _ _ (hv_shape _ _ _ _ _ Hi) a Ha). unfold HEADER in *. destruct Hu as [?|[? _]]; lia.
Qed.

Lemma backed_kept r0 L live (h : Heap P) m' os bs (fr : P) bk sl :
  inv r0 L live h → (∀ a, a ∈ bs → a ∈ live) → kept bs (mem h) m' → Forall2 (backed h) os bs → Forall2 (backed (mkHeap fr m' bk sl)) os bs.
Proof.
  intros Hi Hsub Hk Hf. assert (Hlk : ∀ k o a, os !! k = Some o → bs !! k = Some a → backed h o a) by (intros k o a Ho Ha; by eapply Forall2_lookup_lr).
  apply Forall2_same_length_lookup_2; [by eapply Forall2_length|]. intros k o a Ho Ha. destruct (Hlk k o a Ho Ha) as (E1 & E2 & E3).
  apply list_elem_of_lookup_2 in Ha. pose proof (user_range r0 L live h a Hi (Hsub a Ha)) as Hu. unfold HEADER, usable in *.
  split; [done|]. split; [done|]. intros i Hr. cbn [mem]. rewrite (Hk a) by (done || lia). by apply E3.
Qed.

Lemma repr_same r0 L live h h' objs :
  inv r0 L live h → Forall2 (backed h) objs live → kept live (mem h) (mem h') → (∃ L', inv r0 L' live h') → repr r0 (h', objs).
Proof.
  intros Hi Hf Hk (L' & Hi'). exists L', live. split; [done|]. destruct h'. by apply (backed_kept r0 L live h).
Qed.

(** The block a call returned backs a new array. *)
Lemma repr_new r0 L live h ptr h' size objs bytes :
  inv r0 L live h → Forall2 (backed h) objs live → kept live (mem h) (mem h') → served (ready := ready) hhdm r0 live size ptr h' → 0 <= size →
  (ptr ≠ 0 → ∀ i, 0 <= i < size → mem h' (ptr + i) = bytes i) →
  repr r0 (h', if ptr =? 0 then objs else mkObj ptr size bytes :: objs).
Proof.
  intros Hi Hf Hk [[-> Hi']|(L' & a & Hi' & E1 & E2 & E3)] Hsz Hb; [by apply (repr_same r0 L live h)|].
  destruct (Z.eqb_spec ptr 0); [done|]. exists L', (a :: live). split; [done|]. constructor.
  - split; [done|]. unfold usable. cbn [o_size o_ptr]. split; [lia|]. by apply Hb.
  - destruct h'. by apply (backed_kept r0 L live h).
Qed.

Lemma repr_pick r0 h objs k o :
  repr r0 (h, objs) → objs !! k = Some o →
  ∃ L live a bs, (inv r0 L live h ∧ Forall2 (backed h) objs live ∧ a :: bs ≡ₚ live) ∧ inv r0 L (a :: bs) h ∧ backed h o a ∧
    Forall2 (backed h) (delete k objs) bs.
Proof.
  intros (L & live & Hi & Hf) Ho. destruct (Forall2_lookup_l _ _ _ _ _ Hf Ho) as (a & Ha & Hb). exists L, live, a, (delete k live).
  assert (Hp : live ≡ₚ a :: delete k live) by by apply delete_Permutation.
  split; [done|]. split; [by apply (inv_perm hhdm r0 L live)|]. split; [done|by apply Forall2_delete].
Qed.

Lemma repr_free r0 h objs k o :
  repr r0 (h, objs) → objs !! k = Some o → ∃ h', free vmm_virt_to_phys (o_ptr o) h = Ok h' ∧ repr r0 (h', delete k objs).
Proof.
  intros Hr Ho. destruct (repr_pick r0 h objs k o Hr Ho) as (L & live & a & bs & _ & Hi & (E1 & _) & Hf). rewrite <-E1.
  destruct (free_spec hhdm vmm_virt_to_phys Hhhdm Hdirect r0 L bs a h Hi) as (h' & L' & E & Hk & Hi'). exists h'. split; [done|].
  exists L', bs. split; [done|]. destruct h'. apply (backed_kept r0 L (a :: bs) h); [done| |done|done]. intros c Hc. by right.
Qed.

Lemma repr_realloc r0 h objs k o size :
  repr r0 (h, objs) → objs !! k = Some o → 0 < size < 2 ^ 64 →
  ∃ ptr h', realloc hhdm vmm_virt_to_phys (o_ptr o) size h = Ok (ptr, h') ∧
    repr r0 (h', if ptr =? 0 then objs else mkObj ptr size (λ i, if i <? o_size o then o_byte o i else mem h' (ptr + i)) :: delete k objs).
Proof.
  intros Hr Ho Hs. destruct (repr_pick r0 h objs k o Hr Ho) as (L & live & a & bs & (Hi0 & Hf0 & Hp) & Hi & (E1 & E2 & E3) & Hf). rewrite <-E1.
  destruct (realloc_spec hhdm vmm_virt_to_phys Hhhdm Hdirect r0 L a bs h size Hi Hs) as (ptr & h' & L' & E & Hc). exists ptr, h'. split; [done|].
  destruct Hc as [(-> & Hi' & Hk)|(n & Hi' & <- & Hnz & Hsz & Hk & Hb)].
  - apply (repr_same r0 L live h); [done|done| |exists L'; by apply (inv_perm hhdm r0 L' (a :: bs))].
    intros c x Hc. apply Hk. by rewrite Hp.
  - destruct (Z.eqb_spec (b_user n) 0); [done|]. exists L', (n :: bs). split; [done|]. constructor.
    + split; [done|]. split; [cbn [o_size]; lia|]. cbn [o_size o_ptr o_byte fst]. intros i Hx. destruct (Z.ltb_spec i (o_size o)); [|done].
      rewrite Hb by lia. rewrite E1. apply E3. lia.
    + destruct h'. apply (backed_kept r0 L (a :: bs) h); [done| |done|done]. intros c Hc. by right.
Qed.

Lemma repr_write r0 h objs k o i v :
  repr r0 (h, objs) → objs !! k = Some o → 0 <= i < o_size o →
  repr r0 (mkHeap (hframes h) (λ x, if x =? o_ptr o + i then v else mem h x) (g_buckets h) (g_page_slots h), <[k := set_byte o i v]> objs).
Proof.
  intros (L & live & Hi & Hf) Ho Hr. cbn [fst snd] in *. destruct (Forall2_lookup_l _ _ _ _ _ Hf Ho) as (a & Ha & Hb). pose proof Hb as (E1 & E2 & E3).
  pose proof (list_elem_of_lookup_2 _ _ _ Ha) as Hin. set (m' := λ x, _). unfold usable in E2.
  destruct (client_write hhdm Hhhdm r0 L live h a m' Hi Hin) as [Hi' Hk].
  { intros x Hx. unfold m'. destruct (Z.eqb_spec x (o_ptr o + i)); [lia|done]. }
  exists L, live. split; [done|]. pose proof (sh_once _ _ _ _ _ _ (hv_shape _ _ _ _ _ Hi)) as Hnd.
  apply Forall2_same_length_lookup_2; [cbn [snd]; rewrite length_insert; by eapply Forall2_length|]. intros j o' c Ho' Hc. cbn [fst snd mem] in *.
  destruct (decide (j = k)) as [->|Hne].
  - rewrite list_lookup_insert_eq in Ho' by (by eapply lookup_lt_Some). injection Ho' as <-. rewrite Ha in Hc. injection Hc as <-.
    split; [done|]. split; [done|]. intros j Hj. unfold m'. cbn [o_ptr o_byte set_byte fst mem].
    destruct (Z.eqb_spec j i) as [->|]; [by rewrite Z.eqb_refl|]. destruct (Z.eqb_spec (o_ptr o + j) (o_ptr o + i)); [lia|]. by apply E3.
  - rewrite list_lookup_insert_ne in Ho' by done. destruct (Forall2_lookup_lr _ _ _ _ _ _ Hf Ho' Hc) as (F1 & F2 & F3).
    assert (Hca : c ≠ a) by (intros ->; apply Hne; by eapply NoDup_lookup).
    pose proof (user_range r0 L live h c Hi (list_elem_of_lookup_2 _ _ _ Hc)) as Hu. unfold usable, HEADER in *.
    split; [done|]. split; [unfold usable; lia|]. intros x Hx. rewrite <-F3 by done.
    apply (Hk c (list_elem_of_lookup_2 _ _ _ Hc) Hca c); [left|]. lia.
Qed.

Lemma client_step_repr r0 op st : repr r0 st → op_ok op → ∃ st', client_step hhdm vmm_virt_to_phys op st = Ok st' ∧ repr r0 st'.
Proof.
  destruct st as [h objs]. intros Hr Hop. pose proof Hr as (L & live & Hi & Hf). cbn [fst snd] in *.
  destruct op as [size|al size|n size|k size|k|k i v]; cbn [client_step op_ok] in *.
  - destruct (served_malloc hhdm Hhhdm r0 L live h size Hi Hop) as (ptr & h' & E & Hk & Hc). step_with E. eexists. split; [done|].
    apply (repr_new r0 L live h); (done || lia).
  - destruct (aligned_alloc_spec hhdm Hhhdm r0 L live h al size Hi ltac:(tauto) ltac:(tauto)) as (ptr & h' & E & Hk & Hc & _). step_with E.
    eexists. split; [done|]. apply (repr_new r0 L live h); (done || lia).
  - destruct (calloc_spec hhdm Hhhdm r0 L live h n size Hi ltac:(tauto) ltac:(tauto)) as (ptr & h' & E & Hk & Hc & Hz). step_with E.
    eexists. split; [done|]. apply (repr_new r0 L live h); try done; [nia|]. intros Hnz i Hx. apply Hz; [done|lia].
  - destruct (objs !! k) as [o|] eqn:Ho; [|by exists (h, objs)]. destruct (Z.eqb_spec size 0) as [->|Hnz].
    + destruct (repr_free r0 h objs k o Hr Ho) as (h' & E & Hr'). exists (h', delete k objs). split; [|done]. unfold realloc.
      destruct (repr_pick r0 h objs k o Hr Ho) as (L1 & live1 & a & bs & _ & Hi1 & (E1 & _) & _).
      pose proof (user_range r0 L1 (a :: bs) h a Hi1 ltac:(left)). pose proof (live_end hhdm Hhhdm r0 L1 (a :: bs) h a Hi1 ltac:(left)).
      destruct (Z.eqb_spec (o_ptr o) 0); [unfold HEADER in *; lia|]. cbn [Z.eqb]. by rewrite E.
    + destruct (repr_realloc r0 h objs k o size Hr Ho ltac:(lia)) as (ptr & h' & E & Hr'). step_with E.
      destruct (ptr =? 0); eexists; (split; [done|done]).
  - destruct (objs !! k) as [o|] eqn:Ho; [|by exists (h, objs)]. destruct (repr_free r0 h objs k o Hr Ho) as (h' & E & Hr'). step_with E. eauto.
  - destruct (objs !! k) as [o|] eqn:Ho; [|by exists (h, objs)]. destruct (Z.leb_spec 0 i), (Z.ltb_spec i (o_size o)); cbn [andb]; try (by exists (h, objs)).
    eexists. split; [done|]. by apply repr_write.
Qed.

Lemma client_run_repr r0 ops : ∀ st, repr r0 st → Forall op_ok ops → ∃ st', client_run hhdm vmm_virt_to_phys ops st = Ok st' ∧ repr r0 st'.
Proof.
  induction ops as [|op ops IH]; intros st Hr Ho; [by exists st|]. apply Forall_cons in Ho as [Ho Hos]. cbn [client_run].
  destruct (client_step_repr r0 op st Hr Ho) as (st' & E & Hr'). step_with E. by apply IH.
Qed.

Lemma repr_arrays p0 st : repr (refs p0) st → arrays hhdm p0 st.
Proof.
  destruct st as [h objs]. intros (L & live & Hi & Hf). cbn [fst snd] in *. split; cbn [fst snd].
  - intros o (k & Ho)%list_elem_of_lookup_1. destruct (Forall2_lookup_l _ _ _ _ _ Hf Ho) as (a & Ha & E1 & E2 & _). apply list_elem_of_lookup_2 in Ha.
    pose proof (user_range _ _ _ _ _ Hi Ha). pose proof (live_end hhdm Hhhdm _ _ _ _ _ Hi Ha). unfold usable, HEADER in *. lia.
  - intros o i (k & Ho)%list_elem_of_lookup_1. destruct (Forall2_lookup_l _ _ _ _ _ Hf Ho) as (a & Ha & E1 & E2 & E3). apply E3.
  - intros j k o o' Hj Hk Hne. destruct (Forall2_lookup_l _ _ _ _ _ Hf Hj) as (a & Ha & E1 & E2 & _).
    destruct (Forall2_lookup_l _ _ _ _ _ Hf Hk) as (c & Hc & F1 & F2 & _). pose proof (hv_shape _ _ _ _ _ Hi) as Sh.
    assert (Hac : a ≠ c) by (intros ->; apply Hne; by eapply NoDup_lookup; [apply (sh_once _ _ _ _ _ _ Sh)|..]).
    apply list_elem_of_lookup_2 in Ha, Hc. pose proof (user_range _ _ _ _ _ Hi Ha). pose proof (user_range _ _ _ _ _ Hi Hc).
    pose proof (live_size hhdm _ _ _ _ _ Sh a Ha). pose proof (live_size hhdm _ _ _ _ _ Sh c Hc).
    destruct (sh_apart _ _ _ _ _ _ Sh a c Ha Hc Hac); unfold separate, usable, HEADER in *; lia.
  - intros f Hfr Hp. apply (sh_other _ _ _ _ _ _ (hv_shape _ _ _ _ _ Hi) f Hfr). intros Hh.
    destruct (sh_held _ _ _ _ _ _ (hv_shape _ _ _ _ _ Hi) f Hfr Hh). lia.
Qed.

End run.

(** * Properties *)


(** C12: no frame is lost: when a sequence of calls has freed every array, each frame is
    referenced as often as before the heap was used. *)
Theorem heap_no_leak {P} `{Frames P} (ready : P → Prop) `{!FramesLaws P ready} (hhdm : Z) (vmm_virt_to_phys : Z → Z) p m ops h :
  0 <= hhdm ∧ hhdm mod 4096 = 0 ∧ hhdm + PHYS_LIMIT < 2 ^ 64 →
  (∀ f, frame_ok f → f < PHYS_LIMIT → vmm_virt_to_phys (hhdm + f) = f) →
  ready p → Forall op_ok ops →
  client_run hhdm vmm_virt_to_phys ops (heap_init p m, []) = Ok (h, []) → ∀ f, frame_ok f → refs (hframes h) f = refs p f.
Proof.
  intros Hh Hd Hp Hops E f Hf.
  destruct (client_run_repr (ready := ready) hhdm vmm_virt_to_phys Hh Hd (refs p) ops (heap_init p m, [])) as (st & E' & L & live & Hi & Hb); [|done|].
  - exists (λ _, []), []. split; [by apply heap_init_inv|constructor].
  - rewrite E in E'. injection E' as <-. apply Forall2_nil_inv_l in Hb as ->. by apply (no_block_no_frame (ready := ready) hhdm Hh (refs p) L).
Qed.

(** ** Witnesses *)

Definition HHDM : Z := 0xFFFF800000000000.
Definition direct_virt_to_phys (v : Z) : Z := v - HHDM.
Definition sample_ops : list Op :=
  [OMalloc 100; OCalloc 3 8; OWrite 1 5 42; ORealloc 1 200; OAligned 256 40; OMalloc 9000; OFree 1; ORealloc 0 5; OFree 0; OFree 0; ORealloc 0 0].

Lemma sample_ops_ok : Forall op_ok sample_ops.
Proof. repeat constructor; cbn [op_ok]; lia. Qed.

Lemma direct_map_ok : 0 <= HHDM ∧ HHDM mod 4096 = 0 ∧ HHDM + PHYS_LIMIT < 2 ^ 64.
Proof. done. Qed.

Lemma direct_map_phys f : frame_ok f → f < PHYS_LIMIT → direct_virt_to_phys (HHDM + f) = f.
Proof. intros _ _. unfold direct_virt_to_phys. lia. Qed.


Lemma heap_no_leak_witness :
  ∃ h, client_run HHDM direct_virt_to_phys sample_ops (heap_init sample_pmm (λ _, 0), []) = Ok (h, []) ∧
    ∀ f, frame_ok f → refs (hframes h) f = refs sample_pmm f.
Proof.
  destruct (client_run_repr (ready := pmm_ready) HHDM direct_virt_to_phys direct_map_ok direct_map_phys (refs sample_pmm) sample_ops
    (heap_init sample_pmm (λ _, 0), [])) as ([h objs] & E & _);
    [exists (λ _, []), []; split; [apply heap_init_inv; exact sample_pmm_ready|constructor]|exact sample_ops_ok|].
  assert (Hnone : match client_run HHDM direct_virt_to_phys sample_ops (heap_init sample_pmm (λ _, 0), []) with Ok (_, []) => true | _ => false end = true)
    by (vm_compute; reflexivity).
  rewrite E in Hnone. destruct objs as [|o objs]; [|discriminate Hnone]. exists h. split; [exact E|].
  exact (heap_no_leak pmm_ready HHDM direct_virt_to_phys sample_pmm (λ _, 0) sample_ops h direct_map_ok direct_map_phys sample_pmm_ready sample_ops_ok E).
Defined.
