(* ===== verification/Paging.v ===== *)
(** Page tables (src/mm/vmm.cpp): the four-level tables of an address space in
    physical memory, huge pages and their splitting, mapping, unmapping, translation,
    protection, and the creation, cloning and release of address spaces. A table
    pointer, which the code forms by adding the direct-map offset, is the physical
    address it points to, and physical memory is a map from addresses to 64-bit words.
    The frame allocator is any [Frames]. Fences and TLB invalidations have no effect
    on memory and are left out; the compare-and-exchange that installs a table is
    taken in a sequential setting, where it fails only if the entry is not zero. *)

From S2P Require Import Prelude Bitmap Pmm Frames.

(** * Model *)

Definition PTE_PRESENT : Z := 2 ^ 0.
Definition PTE_WRITABLE : Z := 2 ^ 1.
Definition PTE_USER : Z := 2 ^ 2.
Definition PTE_PWT : Z := 2 ^ 3.
Definition PTE_PCD : Z := 2 ^ 4.
Definition PTE_NX : Z := 2 ^ 63.
Definition PTE_SHARED : Z := 2 ^ 52.
Definition PTE_HUGE : Z := 2 ^ 7.

Definition ADDR_MASK : Z := 0x000FFFFFFFFFF000.
Definition USER_END : Z := 0x0000800000000000.
Definition KERNEL_STACK_TOP : Z := 0xFFFFFF8000000000.

(** Stores to physical memory. *)
Definition store (w : Z → Z) (a v : Z) : Z → Z := λ x, if x =? a then v else w x.
(** [for (i = 0; i < 512; i++) table[i] = f(i);] *)
Definition fill_table (w : Z → Z) (table : Z) (f : Z → Z) : Z → Z :=
  λ x, if (table <=? x) && (x <? table + 4096) then f ((x - table) / 8) else w x.

(** Physical memory with its allocator. *)
Record Phys (P : Type) := mkPhys { frames : P; words : Z → Z }.
Arguments mkPhys {P} _ _.
Arguments frames {P} _.
Arguments words {P} _.

Section paging.
Context {P : Type} `{Frames P}.

Definition entry (m : Phys P) (table index : Z) : Z := words m (table + 8 * index).
Definition set_entry (m : Phys P) (table index v : Z) : Phys P :=
  mkPhys (frames m) (store (words m) (table + 8 * index) v).

(** [virt >> 39 & 0x1FF] and so on: the index into the table of a level. *)
Definition idx4 (virt : Z) : Z := Z.land (Z.shiftr virt 39) 0x1FF.
Definition idx3 (virt : Z) : Z := Z.land (Z.shiftr virt 30) 0x1FF.
Definition idx2 (virt : Z) : Z := Z.land (Z.shiftr virt 21) 0x1FF.
Definition idx1 (virt : Z) : Z := Z.land (Z.shiftr virt 12) 0x1FF.

Definition split_flags (e : Z) : Z :=
  let flags := Z.lor (Z.land e 0xFFF) (Z.land e (2 ^ 63)) in
  if has e (2 ^ 12) then Z.lor flags (2 ^ 7) else Z.land flags (u64 (Z.lnot (2 ^ 7))).

Definition split_huge_page (table index level : Z) (m : Phys P) : res (bool * Phys P) :=
  let e := entry m table index in
  if negb (has e PTE_PRESENT) || negb (has e PTE_HUGE) then Ok (false, m)
  else
    '(f, p) ← alloc_frame (frames m);
    if f =? 0 then Ok (false, mkPhys p (words m))
    else
      let w := fill_table (words m) f (λ _, 0) in
      let flags := split_flags e in
      let finish w := Ok (true, set_entry (mkPhys p w) table index (Z.lor f (Z.land flags (u64 (Z.lnot 0x80))))) in
      if level =? 3 then
        let base_phys := Z.land e 0x000FFFFFC0000000 in
        finish (fill_table w f (λ i, Z.lor (Z.lor (u64 (base_phys + i * 0x200000)) flags) (2 ^ 7)))
      else if level =? 2 then
        let base_phys := Z.land e 0x000FFFFFFFE00000 in
        finish (fill_table w f (λ i, Z.lor (u64 (base_phys + i * 0x1000)) flags))
      else
        p ← free_frame f p; Ok (false, mkPhys p w).

(** The table below an entry, [None] being the null pointer. *)
Definition get_next_level (current_level index level : Z) (alloc : bool) (virt : Z) (m : Phys P)
    : res (option Z * Phys P) :=
  let e := entry m current_level index in
  if has e PTE_PRESENT then
    if has e PTE_HUGE then
      '(ok, m) ← split_huge_page current_level index level m;
      if (ok : bool) then Ok (Some (Z.land (entry m current_level index) ADDR_MASK), m) else Ok (None, m)
    else Ok (Some (Z.land e ADDR_MASK), m)
  else if negb alloc then Ok (None, m)
  else
    '(f, p) ← alloc_frame (frames m);
    if f =? 0 then Ok (None, mkPhys p (words m))
    else
      let flags := Z.lor PTE_PRESENT PTE_WRITABLE in
      let flags := if virt <? USER_END then Z.lor flags PTE_USER else flags in
      let m := mkPhys p (fill_table (words m) f (λ _, 0)) in
      let expected := entry m current_level index in
      if expected =? 0 then Ok (Some f, set_entry m current_level index (Z.lor f flags))
      else p ← free_frame f (frames m); Ok (Some (Z.land expected ADDR_MASK), mkPhys p (words m)).

(** The page table of [virt]. *)
Definition get_page_table (pml4 virt : Z) (alloc : bool) (m : Phys P) : res (option Z * Phys P) :=
  '(pdpt, m) ← get_next_level pml4 (idx4 virt) 4 alloc virt m;
  match pdpt with
  | None => Ok (None, m)
  | Some pdpt =>
      '(pd, m) ← get_next_level pdpt (idx3 virt) 3 alloc virt m;
      match pd with
      | None => Ok (None, m)
      | Some pd => get_next_level pd (idx2 virt) 2 alloc virt m
      end
  end.

(** [false]: [Error::NoMemory]. *)
Definition vmm_map_page_in (target_pml4 virt phys flags : Z) (m : Phys P) : res (bool * Phys P) :=
  if (KERNEL_STACK_TOP <=? virt) && has flags PTE_USER then Panic "vmm: kernel address with PTE_USER"
  else if (virt <? USER_END) && negb (has flags PTE_USER) then Panic "vmm: userspace address without PTE_USER"
  else
    '(pt, m) ← get_page_table target_pml4 virt true m;
    match pt with
    | None => Ok (false, m)
    | Some pt => Ok (true, set_entry m pt (idx1 virt) (Z.lor phys flags))
    end.

Definition vmm_virt_to_phys_in (pml4 virt : Z) (m : Phys P) : Z :=
  let e4 := entry m pml4 (idx4 virt) in
  if pml4 =? 0 then 0
  else if negb (has e4 PTE_PRESENT) then 0
  else
    let e3 := entry m (Z.land e4 ADDR_MASK) (idx3 virt) in
    if negb (has e3 PTE_PRESENT) then 0
    else if has e3 PTE_HUGE then u64 (Z.land e3 0x000FFFFFC0000000 + Z.land virt 0x3FFFFFFF)
    else
      let e2 := entry m (Z.land e3 ADDR_MASK) (idx2 virt) in
      if negb (has e2 PTE_PRESENT) then 0
      else if has e2 PTE_HUGE then u64 (Z.land e2 0x000FFFFFFFE00000 + Z.land virt 0x1FFFFF)
      else
        let e1 := entry m (Z.land e2 ADDR_MASK) (idx1 virt) in
        if negb (has e1 PTE_PRESENT) then 0 else u64 (Z.land e1 ADDR_MASK + Z.land virt 0xFFF).

Definition vmm_get_page_flags_in (pml4 virt : Z) (m : Phys P) : Z :=
  let e4 := entry m pml4 (idx4 virt) in
  if pml4 =? 0 then 0
  else if negb (has e4 PTE_PRESENT) then 0
  else
    let e3 := entry m (Z.land e4 ADDR_MASK) (idx3 virt) in
    if negb (has e3 PTE_PRESENT) || has e3 PTE_HUGE then 0
    else
      let e2 := entry m (Z.land e3 ADDR_MASK) (idx2 virt) in
      if negb (has e2 PTE_PRESENT) || has e2 PTE_HUGE then 0
      else
        let e1 := entry m (Z.land e2 ADDR_MASK) (idx1 virt) in
        if negb (has e1 PTE_PRESENT) then 0 else Z.land e1 (Z.lor (Z.lor 0xFFF PTE_NX) PTE_SHARED).

Definition vmm_unmap_page_no_flush_in (target_pml4 virt : Z) (m : Phys P) : res (Phys P) :=
  '(pt, m) ← get_page_table target_pml4 virt false m;
  match pt with
  | None => Ok m
  | Some pt => Ok (set_entry m pt (idx1 virt) 0)
  end.

Definition vmm_set_page_flags (pml4 virt flags : Z) (m : Phys P) : res (Phys P) :=
  '(pt, m) ← get_page_table pml4 virt false m;
  match pt with
  | None => Ok m
  | Some pt =>
      let old_entry := entry m pt (idx1 virt) in
      if negb (has old_entry PTE_PRESENT) then Ok m
      else
        let phys := Z.land old_entry ADDR_MASK in
        let preserved := Z.land old_entry (Z.lor (Z.lor PTE_PRESENT PTE_USER) PTE_SHARED) in
        Ok (set_entry m pt (idx1 virt) (Z.lor (Z.lor phys flags) preserved))
  end.
End paging.

(** * Specification *)

(** Depth 0 is the PML4 and depth 3 a page table: the bits of an address below the
    index at a depth, the index itself, and the bits that lead to the table. *)
Definition low (k : nat) : Z := 39 - 9 * Z.of_nat k.
Definition idx (k : nat) (v : Z) : Z := v / 2 ^ low k mod 512.
Definition pre (k : nat) (v : Z) : Z := (v mod 2 ^ 48) / 2 ^ (low k + 9).

(** Two addresses in one page of the 48-bit address space. *)
Definition same_page (v v' : Z) : Prop := pre 4 v = pre 4 v'.
#[export] Instance same_page_dec v v' : Decision (same_page v v') := decide (pre 4 v = pre 4 v').

(** The physical address bits of a leaf at a depth. *)
Definition leaf_mask (k : nat) : Z := 2 ^ 52 - 2 ^ low k.

Section spec.
Context {P : Type} `{Frames P}.
Implicit Types m : Phys P.

(** Address translation as the processor does it, [n] tables below the current one. *)
Fixpoint mmu_from m (n : nat) (t v : Z) : option Z :=
  let k := (3 - n)%nat in
  let e := entry m t (idx k v) in
  if has e PTE_PRESENT then
    match n with
    | O => Some (Z.land e (leaf_mask k) + v mod 2 ^ low k)
    | S n' =>
        if has e PTE_HUGE then
          if decide (k = 0%nat) then None else Some (Z.land e (leaf_mask k) + v mod 2 ^ low k)
        else mmu_from m n' (Z.land e ADDR_MASK) v
    end
  else None.

Definition mmu m (root v : Z) : option Z := mmu_from m 3 root v.

(** The table at depth [k] on the way to [v]. *)
Fixpoint node m (root : Z) (k : nat) (v : Z) : option Z :=
  match k with
  | O => Some root
  | S k' =>
      t ← node m root k' v;
      let e := entry m t (idx k' v) in
      if has e PTE_PRESENT && negb (has e PTE_HUGE) then Some (Z.land e ADDR_MASK) else None
  end.

(** The entry of the page table for [v]. *)
Definition page_entry m root (v : Z) : option Z := t ← node m root 3 v; Some (entry m t (idx 3 v)).

(** The tables of an address space form a tree of allocated frames: no table is
    reached on two paths. An entry of the upper levels that is not present is zero,
    and the PML4 has no huge pages. *)
Record space m (root : Z) : Prop := {
  sp_frame k v t : (k <= 3)%nat → node m root k v = Some t → frame_ok t ∧ 0 < refs (frames m) t;
  sp_tree k v t k' v' :
    (k <= 3)%nat → (k' <= 3)%nat → node m root k v = Some t → node m root k' v' = Some t → k = k' ∧ pre k v = pre k' v';
  sp_zero k v t :
    (k <= 2)%nat → node m root k v = Some t → has (entry m t (idx k v)) PTE_PRESENT = false → entry m t (idx k v) = 0;
  sp_top v : has (entry m root (idx 0 v)) PTE_HUGE = false;
  sp_word a : 0 <= words m a < 2 ^ 64
}.

(** [m'] differs from [m] nowhere but in the tables on the way to [v] and in frames
    that were free. *)
Definition on_path m root v (a : Z) : Prop := ∃ k t, (k <= 3)%nat ∧ node m root k v = Some t ∧ t <= a < t + 4096.
Definition in_free m (a : Z) : Prop := ∃ f, frame_ok f ∧ refs (frames m) f = 0 ∧ f <= a < f + 4096.
Definition framed m m' root v : Prop :=
  ∀ a, ¬ on_path m root v a → ¬ in_free m a → words m' a = words m a.
End spec.

(** Case analysis on a decision in a hypothesis. *)
Ltac dec_in H := match type of H with context [decide ?P] => destruct (decide P) end.

(** * Lemmas: addresses *)

Lemma idx4_eq v : idx4 v = idx 0 v.
Proof. unfold idx4, idx. rewrite Z.shiftr_div_pow2 by done. apply (land_ones_mod _ 9). done. Qed.
Lemma idx3_eq v : idx3 v = idx 1 v.
Proof. unfold idx3, idx. rewrite Z.shiftr_div_pow2 by done. apply (land_ones_mod _ 9). done. Qed.
Lemma idx2_eq v : idx2 v = idx 2 v.
Proof. unfold idx2, idx. rewrite Z.shiftr_div_pow2 by done. apply (land_ones_mod _ 9). done. Qed.
Lemma idx1_eq v : idx1 v = idx 3 v.
Proof. unfold idx1, idx. rewrite Z.shiftr_div_pow2 by done. apply (land_ones_mod _ 9). done. Qed.

Lemma idx_range k v : 0 <= idx k v < 512.
Proof. unfold idx. by apply Z.mod_pos_bound. Qed.

Lemma pre_0 v v' : pre 0 v = pre 0 v'.
Proof. unfold pre, low. change (39 - 9 * Z.of_nat 0 + 9) with 48. lia. Qed.

Lemma low_S k : low (S k) + 9 = low k.
Proof. unfold low. lia. Qed.

(** The path to the next table is the path to this one and the index in it. *)
Lemma pre_S k v : (k <= 3)%nat → pre (S k) v = pre k v * 512 + idx k v.
Proof.
  intros Hk. assert (HL : 0 <= low k <= 39) by (unfold low; lia). unfold pre, idx. rewrite low_S.
  set (L := low k) in *. clearbody L. rewrite Z.pow_add_r, <-Z.div_div by lia. change (2 ^ 9) with 512.
  assert (E : (v / 2 ^ L) mod 512 = ((v mod 2 ^ 48) / 2 ^ L) mod 512).
  { rewrite (Z.div_mod v (2 ^ 48)) at 1 by lia.
    replace (2 ^ 48 * (v / 2 ^ 48)) with (2 ^ (39 - L) * 512 * (v / 2 ^ 48) * 2 ^ L).
    - rewrite Z.div_add_l by lia.
      replace (2 ^ (39 - L) * 512 * (v / 2 ^ 48)) with ((2 ^ (39 - L) * (v / 2 ^ 48)) * 512) by ring.
      by rewrite Z.add_comm, Z_mod_plus_full.
    - change (2 ^ 48) with (2 ^ (39 + 9)). replace (39 + 9) with (39 - L + 9 + L) by lia.
      rewrite !Z.pow_add_r by lia. change (2 ^ 9) with 512. ring. }
  rewrite E. pose proof (Z.div_mod ((v mod 2 ^ 48) / 2 ^ L) 512). lia.
Qed.

Lemma pre_S_inj k v v' :
  (k <= 3)%nat → pre (S k) v = pre (S k) v' ↔ pre k v = pre k v' ∧ idx k v = idx k v'.
Proof.
  intros Hk. rewrite !pre_S by done. pose proof (idx_range k v). pose proof (idx_range k v').
  split; [|lia]. intros E. assert (idx k v = idx k v') by lia. lia.
Qed.

(** * Lemmas: walks *)

Section walks.
Context {P : Type} `{Frames P}.
Implicit Types m : Phys P.

(** The table depends only on the leading bits of the address. *)
Lemma node_pre m root k v v' : (k <= 4)%nat → pre k v = pre k v' → node m root k v = node m root k v'.
Proof.
  induction k as [|k IH]; intros Hk E; [done|]. apply pre_S_inj in E as [E1 E2]; [|lia]. simpl.
  rewrite (IH ltac:(lia) E1), E2. done.
Qed.

Lemma node_S_prev m root k v t : node m root (S k) v = Some t → ∃ t', node m root k v = Some t'.
Proof. simpl. destruct (node m root k v); [eauto|done]. Qed.

Lemma node_None_le m root k k' v : (k <= k')%nat → node m root k v = None → node m root k' v = None.
Proof.
  intros Hle Hn. induction Hle as [|k' _ IH]; [done|]. simpl. by rewrite IH.
Qed.

(** Distinct entries are at distinct addresses. *)
Lemma entry_addr_inj t i t' i' :
  t mod 4096 = 0 → t' mod 4096 = 0 → 0 <= i < 512 → 0 <= i' < 512 → t + 8 * i = t' + 8 * i' → t = t' ∧ i = i'.
Proof. lia. Qed.

Lemma entry_set_same m t i v : entry (set_entry m t i v) t i = v.
Proof. unfold entry, set_entry, store. simpl. by rewrite Z.eqb_refl. Qed.

Lemma entry_set_ne m t i v t' i' :
  t mod 4096 = 0 → t' mod 4096 = 0 → 0 <= i < 512 → 0 <= i' < 512 → (t' ≠ t ∨ i' ≠ i) →
  entry (set_entry m t i v) t' i' = entry m t' i'.
Proof.
  intros Ht Ht' Hi Hi' Hne. unfold entry, set_entry, store. simpl.
  destruct (Z.eqb_spec (t' + 8 * i') (t + 8 * i)); [|done]. lia.
Qed.

Lemma entry_fill m (p : P) t f t' i :
  t mod 4096 = 0 → t' mod 4096 = 0 → 0 <= i < 512 →
  entry (mkPhys p (fill_table (words m) t f)) t' i = if decide (t' = t) then f i else entry m t' i.
Proof.
  intros Ht Ht' Hi. unfold entry, fill_table. simpl. dec_goal.
  - subst t'. destruct (Z.leb_spec t (t + 8 * i)); [|lia]. destruct (Z.ltb_spec (t + 8 * i) (t + 4096)); [|lia].
    simpl. f_equal. replace (t + 8 * i - t) with (i * 8) by lia. by rewrite Z.div_mul.
  - destruct (Z.leb_spec t (t' + 8 * i)); [|done]. destruct (Z.ltb_spec (t' + 8 * i) (t + 4096)); [lia|done].
Qed.

(** Two memories that agree on the entries along the path of [v] have its nodes. *)
Lemma node_agree m m' root k v :
  (∀ j t, (j < k)%nat → node m root j v = Some t → entry m' t (idx j v) = entry m t (idx j v)) →
  node m' root k v = node m root k v.
Proof.
  induction k as [|k IH]; intros Ha; [done|]. simpl. rewrite IH by (intros j t Hj; apply Ha; lia).
  destruct (node m root k v) as [t|] eqn:E; [|done]. simpl. by rewrite (Ha k t ltac:(lia) E).
Qed.

Lemma mmu_node m root n k v t :
  (k + n = 3)%nat → node m root k v = Some t → mmu m root v = mmu_from m n t v.
Proof.
  revert n t. induction k as [|k IH]; intros n t Hkn Ht; [assert (n = 3%nat) as -> by lia; by simplify_eq/=|].
  simpl in Ht. destruct (node m root k v) as [t'|] eqn:E; [|done]. simpl in Ht.
  destruct (has (entry m t' (idx k v)) PTE_PRESENT && negb (has (entry m t' (idx k v)) PTE_HUGE)) eqn:Ee; [|done].
  apply andb_true_iff in Ee as [Ep Eh%negb_true_iff]. injection Ht as <-.
  rewrite (IH (S n) t' ltac:(lia) eq_refl). cbn [mmu_from].
  replace (3 - S n)%nat with k by lia. by rewrite Ep, Eh.
Qed.

Lemma mmu_agree m m' root v :
  (∀ j t, (j <= 3)%nat → node m root j v = Some t → entry m' t (idx j v) = entry m t (idx j v)) →
  mmu m' root v = mmu m root v.
Proof.
  intros Ha. assert (Hgen : ∀ n k t, (k + n = 3)%nat → node m root k v = Some t → mmu_from m' n t v = mmu_from m n t v).
  { induction n as [|n IH]; intros k t Hk Ht; cbn [mmu_from].
    - replace (3 - 0)%nat with k by lia. by rewrite (Ha k t ltac:(lia) Ht).
    - replace (3 - S n)%nat with k by lia. rewrite (Ha k t ltac:(lia) Ht). set (e := entry m t (idx k v)).
      destruct (has e PTE_PRESENT) eqn:Ep; [|done]. destruct (has e PTE_HUGE) eqn:Eh; [done|].
      apply (IH (S k)); [lia|]. simpl. rewrite Ht. simpl. fold e. by rewrite Ep, Eh. }
  by apply (Hgen 3%nat 0%nat).
Qed.

(** ** Memories with the same contents *)

#[export] Instance phys_equiv : Equiv (Phys P) := λ m m', frames m = frames m' ∧ ∀ a, words m a = words m' a.

#[export] Instance phys_equivalence : Equivalence (≡@{Phys P}).
Proof.
  split.
  - intros m. done.
  - intros m1 m2 [E1 E2]. split; [done|]. intros a. by rewrite E2.
  - intros m1 m2 m3 [E1 E2] [F1 F2]. split; [congruence|]. intros a. by rewrite E2.
Qed.

#[export] Instance frames_proper : Proper ((≡) ==> (=)) (@frames P).
Proof. by intros m m' [E _]. Qed.
#[export] Instance entry_proper : Proper ((≡) ==> (=) ==> (=) ==> (=)) (@entry P).
Proof. intros m m' [_ E] t _ <- i _ <-. apply E. Qed.
#[export] Instance node_proper : Proper ((≡) ==> (=) ==> (=) ==> (=) ==> (=)) (@node P).
Proof.
  intros m m' E root _ <- k _ <- v _ <-. symmetry. apply node_agree. intros j t _ _. by rewrite E.
Qed.
#[export] Instance mmu_proper : Proper ((≡) ==> (=) ==> (=) ==> (=)) (@mmu P).
Proof. intros m m' E root _ <- v _ <-. symmetry. apply mmu_agree. intros j t _ _. by rewrite E. Qed.
Lemma space_equiv m m' root : m ≡ m' → space m root → space m' root.
Proof.
  intros E [S1 S2 S3 S4 S5]. split.
  - intros k v t. rewrite <-E. apply S1.
  - intros k v t k' v'. rewrite <-E. apply S2.
  - intros k v t. rewrite <-E. apply S3.
  - intros v. rewrite <-E. apply S4.
  - intros a. destruct E as [_ <-]. apply S5.
Qed.
Lemma on_path_equiv m m' root v a : m ≡ m' → on_path m root v a → on_path m' root v a.
Proof. intros E (k & t & Hk & Ht & Ha). exists k, t. by rewrite <-E. Qed.

(** ** Linking a new table *)

Section link.
Variables (m : Phys P) (root : Z) (k : nat) (v t f e' : Z) (g : Z → Z) (p' : P).
Hypothesis Hsp : space m root.
Hypothesis Hk : (k <= 2)%nat.
Hypothesis Ht : node m root k v = Some t.
Hypothesis Hnone : node m root (S k) v = None.
Hypothesis Hf : frame_ok f.
Hypothesis Hfree : refs (frames m) f = 0.
Hypothesis He_p : has e' PTE_PRESENT = true.
Hypothesis He_h : has e' PTE_HUGE = false.
Hypothesis He_a : Z.land e' ADDR_MASK = f.
Hypothesis He_r : 0 <= e' < 2 ^ 64.
Hypothesis Hg : ∀ i, 0 <= i < 512 → 0 <= g i < 2 ^ 64 ∧
  ((k <= 1)%nat → (has (g i) PTE_PRESENT = true → has (g i) PTE_HUGE = true) ∧ (has (g i) PTE_PRESENT = false → g i = 0)).
Hypothesis Hp' : ∀ x, frame_ok x → refs p' x = if decide (x = f) then 1 else refs (frames m) x.

Definition linked : Phys P := set_entry (mkPhys p' (fill_table (words m) f g)) t (idx k v) e'.

Lemma not_node j v' x : (j <= 3)%nat → node m root j v' = Some x → x ≠ f ∧ x mod 4096 = 0.
Proof. intros Hj Hx. destruct (sp_frame m root Hsp j v' x Hj Hx) as [[_ ?] ?]. split; [intros ->; lia|done]. Qed.

Lemma t_ok : t ≠ f ∧ t mod 4096 = 0.
Proof. apply (not_node k v); [lia|done]. Qed.

(** The entries of the old tables. *)
Lemma linked_entry j v' x :
  (j <= 3)%nat → node m root j v' = Some x →
  entry linked x (idx j v') = if decide (j = k ∧ pre (S k) v' = pre (S k) v) then e' else entry m x (idx j v').
Proof.
  intros Hj Hx. destruct (not_node j v' x Hj Hx) as [Hne Hal]. destruct t_ok as [Hne_t Hal_t].
  assert (Hf0 : f mod 4096 = 0) by apply Hf. pose proof (idx_range j v'). pose proof (idx_range k v). unfold linked. dec_goal.
  - destruct a as [-> E]. apply pre_S_inj in E as [E1 E2]; [|lia]. rewrite (node_pre m root k v' v) in Hx by (lia || done).
    simplify_eq. rewrite E2. apply entry_set_same.
  - rewrite entry_set_ne; [|done..|].
    + rewrite entry_fill by done. by rewrite decide_False.
    + destruct (decide (x = t)) as [->|]; [|by left]. right. intros E.
      destruct (sp_tree m root Hsp j v' t k v) as [-> E']; [done|lia|done|done|]. apply n. split; [done|].
      apply pre_S_inj; [lia|done].
Qed.

Lemma linked_new i : 0 <= i < 512 → entry linked f i = g i.
Proof.
  intros Hi. destruct t_ok as [Hne Hal]. assert (Hf0 : f mod 4096 = 0) by apply Hf. pose proof (idx_range k v). unfold linked.
  rewrite entry_set_ne; [|done..|left; done]. rewrite entry_fill by done. by rewrite decide_True.
Qed.

Lemma linked_node j v' :
  (j <= 3)%nat →
  node linked root j v' = if decide (j = S k ∧ pre (S k) v' = pre (S k) v) then Some f else node m root j v'.
Proof.
  induction j as [|j IH]; intros Hj; [by rewrite decide_False by lia|]. cbn [node]. rewrite IH by lia.
  destruct (decide (j = S k ∧ pre (S k) v' = pre (S k) v)) as [[-> E]|Hne].
  - cbn [mbind option_bind]. rewrite decide_False by lia. rewrite linked_new by apply idx_range.
    destruct (Hg (idx (S k) v') (idx_range _ _)) as [_ Hg']. destruct (Hg' ltac:(lia)) as [Hh _].
    assert (Hn : node m root (S k) v' = None) by (rewrite (node_pre m root (S k) v' v); [done|lia|done]).
    rewrite Hn.
    cbn [mbind option_bind]. destruct (has (g (idx (S k) v')) PTE_PRESENT); [|done]. by rewrite Hh.
  - destruct (node m root j v') as [x|] eqn:Ex.
    + cbn [mbind option_bind]. rewrite (linked_entry j v' x ltac:(lia) Ex). destruct (decide (j = k ∧ pre (S k) v' = pre (S k) v)) as [[-> E]|Hne'].
      * rewrite decide_True by done. by rewrite He_p, He_h, He_a.
      * rewrite decide_False; [done|]. intros [? ?]. apply Hne'. split; [lia|done].
    + cbn [mbind option_bind]. rewrite decide_False; [done|]. intros [[= ->] E]. apply pre_S_inj in E as [E _]; [|lia].
      rewrite (node_pre m root k v' v) in Ex by (lia || done). congruence.
Qed.

Lemma linked_space : space linked root.
Proof.
  assert (Hfree' : ∀ j v' x, (j <= 3)%nat → node m root j v' = Some x → x ≠ f) by (intros j v' x Hj Hx; by apply (not_node j v')).
  split.
  - intros j v' x Hj Hx. rewrite linked_node in Hx by done. unfold linked. simpl. dec_in Hx.
    + simplify_eq. split; [done|]. rewrite Hp', decide_True by done. lia.
    + destruct (sp_frame m root Hsp j v' x Hj Hx) as [Hx1 Hx2]. split; [done|]. rewrite Hp' by done.
      rewrite decide_False; [done|]. by apply (Hfree' j v').
  - intros j1 v1 x j2 v2 Hj1 Hj2 H1 H2. rewrite linked_node in H1, H2 by done.
    destruct (decide (j1 = S k ∧ pre (S k) v1 = pre (S k) v)) as [[-> E1]|];
      destruct (decide (j2 = S k ∧ pre (S k) v2 = pre (S k) v)) as [[-> E2]|]; simplify_eq.
    + split; [done|congruence].
    + exfalso. eapply (Hfree' j2 v2); [| |reflexivity]; done.
    + exfalso. eapply (Hfree' j1 v1); [| |reflexivity]; done.
    + by apply (sp_tree m root Hsp j1 v1 x j2 v2).
  - intros j v' x Hj Hx Hnp. rewrite linked_node in Hx by lia. dec_in Hx.
    + destruct a as [-> E]. simplify_eq. rewrite linked_new in Hnp |- * by apply idx_range.
      destruct (Hg (idx (S k) v') (idx_range _ _)) as [_ Hg']. by apply Hg'; [lia|].
    + rewrite (linked_entry j v' x) in Hnp |- * by (lia || done). dec_in Hnp; [congruence|].
      by apply (sp_zero m root Hsp).
  - intros v'. rewrite (linked_entry 0 v' root) by (lia || done). dec_goal; [done|]. apply Hsp.
  - intros a. unfold linked, set_entry, store, fill_table. simpl. case_match; [done|]. case_match eqn:Ea; [|apply Hsp].
    apply andb_true_iff in Ea as [E1 E2]. apply Hg. lia.
Qed.

Lemma linked_mmu_other v' : pre (S k) v' ≠ pre (S k) v → mmu linked root v' = mmu m root v'.
Proof.
  intros Hne. apply mmu_agree. intros j x Hj Hx. rewrite (linked_entry j v' x Hj Hx). by rewrite decide_False by naive_solver.
Qed.

Lemma linked_mmu_same v' : pre (S k) v' = pre (S k) v → mmu linked root v' = mmu_from linked (2 - k) f v'.
Proof.
  intros E. apply (mmu_node linked root (2 - k) (S k)); [lia|]. rewrite linked_node by lia. by rewrite decide_True.
Qed.

Lemma linked_framed : framed m linked root v.
Proof.
  intros a Ht' Hf'. unfold linked, set_entry, store, fill_table. simpl.
  destruct (Z.eqb_spec a (t + 8 * idx k v)) as [->|].
  { exfalso. apply Ht'. exists k, t. pose proof (idx_range k v). split; [lia|]. split; [done|lia]. }
  case_match eqn:Ea; [|done]. exfalso. apply Hf'. exists f. split; [done|]. split; [done|].
  apply andb_true_iff in Ea as [E1 E2]. lia.
Qed.
End link.
End walks.

(** * Lemmas: entries *)

Lemma has_bit e n : 0 <= n → has e (2 ^ n) = Z.testbit e n.
Proof.
  intros Hn. unfold has. destruct (Z.eqb_spec (Z.land e (2 ^ n)) 0) as [E|E]; simpl; symmetry.
  - assert (Hb : Z.testbit (Z.land e (2 ^ n)) n = false) by (rewrite E; apply Z.bits_0).
    rewrite Z.land_spec, Z.pow2_bits_true, andb_true_r in Hb by done. done.
  - destruct (Z.testbit e n) eqn:Hb; [done|]. exfalso. apply E. apply Z.bits_inj'. intros k Hk.
    rewrite Z.land_spec, Z.bits_0, Z.pow2_bits_eqb by done. destruct (Z.eqb_spec n k) as [<-|]; [by rewrite Hb|apply andb_false_r].
Qed.

Lemma testbit_mask j n : 0 <= j <= 52 → 0 <= n → Z.testbit (2 ^ 52 - 2 ^ j) n = (j <=? n) && (n <? 52).
Proof.
  intros Hj Hn. replace (2 ^ 52 - 2 ^ j) with (Z.shiftl (Z.ones (52 - j)) j).
  2: { rewrite Z.shiftl_mul_pow2, Z.ones_equiv by lia. rewrite <-Z.sub_1_r, Z.mul_sub_distr_r, <-Z.pow_add_r by lia.
       replace (52 - j + j) with 52 by lia. lia. }
  rewrite Z.shiftl_spec by lia. destruct (Z.leb_spec j n).
  - rewrite Z.testbit_ones_nonneg by lia. simpl. destruct (Z.ltb_spec (n - j) (52 - j)), (Z.ltb_spec n 52); lia || done.
  - rewrite Z.testbit_neg_r by lia. done.
Qed.

Lemma testbit_ge a n k : 0 <= a < 2 ^ n → n <= k → 0 <= n → Z.testbit a k = false.
Proof.
  intros Ha Hk Hn. destruct (decide (a = 0)) as [->|]; [apply Z.bits_0|]. apply Z.bits_above_log2; [lia|].
  apply Z.log2_lt_pow2; [lia|]. apply (Z.lt_le_trans _ (2 ^ n)); [lia|]. apply Z.pow_le_mono_r; lia.
Qed.

Lemma testbit_low_multiple a j n : 0 <= n < j → a mod 2 ^ j = 0 → Z.testbit a n = false.
Proof.
  intros Hn Ha. rewrite (Z.div_mod a (2 ^ j)), Ha, Z.add_0_r by lia.
  rewrite Z.mul_comm, <-Z.shiftl_mul_pow2, Z.shiftl_spec, Z.testbit_neg_r by lia. done.
Qed.

(** An address packed with flags outside its bits can be read back. *)
Lemma land_lor_addr a fl j :
  12 <= j <= 52 → 0 <= a < 2 ^ 52 → a mod 2 ^ j = 0 → (∀ n, j <= n < 52 → Z.testbit fl n = false) →
  Z.land (Z.lor a fl) (2 ^ 52 - 2 ^ j) = a.
Proof.
  intros Hj Ha Hm Hfl. apply Z.bits_inj'. intros n Hn. rewrite Z.land_spec, Z.lor_spec, testbit_mask by lia.
  destruct (Z.leb_spec j n), (Z.ltb_spec n 52); simpl; rewrite ?andb_true_r, ?andb_false_r.
  - rewrite Hfl by lia. apply orb_false_r.
  - symmetry. apply (testbit_ge a 52); lia.
  - symmetry. apply (testbit_low_multiple a j); lia.
  - lia.
Qed.

Lemma lor_addr_bit a fl n : 0 <= n < 12 → a mod 4096 = 0 → Z.testbit (Z.lor a fl) n = Z.testbit fl n.
Proof. intros Hn Ha. rewrite Z.lor_spec, (testbit_low_multiple a 12) by done. done. Qed.

Lemma lor_u64 a b : 0 <= a < 2 ^ 64 → 0 <= b < 2 ^ 64 → 0 <= Z.lor a b < 2 ^ 64.
Proof.
  intros Ha Hb. split; [apply Z.lor_nonneg; lia|]. destruct (decide (Z.lor a b = 0)) as [->|Hne]; [done|].
  assert (0 <= Z.lor a b) by (apply Z.lor_nonneg; lia). apply Z.log2_lt_pow2; [lia|]. rewrite Z.log2_lor by lia.
  destruct (decide (a = 0)) as [->|]; destruct (decide (b = 0)) as [->|]; simpl; try lia.
  - rewrite Z.max_r by apply Z.log2_nonneg. apply Z.log2_lt_pow2; lia.
  - rewrite Z.max_l by apply Z.log2_nonneg. apply Z.log2_lt_pow2; lia.
  - apply Z.max_lub_lt; apply Z.log2_lt_pow2; lia.
Qed.

Lemma land_u64 a b : 0 <= a < 2 ^ 64 → 0 <= Z.land a b < 2 ^ 64.
Proof.
  intros Ha. replace a with (Z.land a (Z.ones 64)) by (rewrite Z.land_ones, Z.mod_small; lia).
  rewrite <-Z.land_assoc, (Z.land_comm (Z.ones 64)), Z.land_assoc, Z.land_ones by lia. by apply Z.mod_pos_bound.
Qed.

(** [x & ~(1 << j)] *)
Lemma testbit_clear x j n : 0 <= j → 0 <= n < 64 → Z.testbit (Z.land x (u64 (Z.lnot (2 ^ j)))) n = Z.testbit x n && negb (n =? j).
Proof.
  intros Hj Hn. rewrite Z.land_spec. unfold u64. rewrite <-Z.land_ones, Z.land_spec, Z.lnot_spec, Z.pow2_bits_eqb by lia.
  rewrite Z.testbit_ones_nonneg by lia. destruct (Z.ltb_spec n 64); [|lia]. by rewrite andb_true_r, Z.eqb_sym.
Qed.

Lemma split_flags_range e : 0 <= e < 2 ^ 64 → 0 <= split_flags e < 2 ^ 64.
Proof.
  intros He. unfold split_flags. assert (Hf : 0 <= Z.lor (Z.land e 0xFFF) (Z.land e (2 ^ 63)) < 2 ^ 64)
    by (apply lor_u64; by apply land_u64). cbv zeta. case_match; [by apply lor_u64|by apply land_u64].
Qed.

Lemma split_flags_bit e n :
  0 <= n < 64 →
  Z.testbit (split_flags e) n =
    if n =? 7 then Z.testbit e 12 else if (n <? 12) || (n =? 63) then Z.testbit e n else false.
Proof.
  intros Hn. unfold split_flags. rewrite has_bit by done. cbv zeta.
  assert (Hf : Z.testbit (Z.lor (Z.land e 0xFFF) (Z.land e (2 ^ 63))) n = ((n <? 12) || (n =? 63)) && Z.testbit e n).
  { rewrite Z.lor_spec, !Z.land_spec, Z.pow2_bits_eqb, (Z.eqb_sym 63 n) by done. change 0xFFF with (Z.ones 12).
    rewrite Z.testbit_ones_nonneg by lia. destruct (Z.testbit e n), (n <? 12), (n =? 63); done. }
  destruct (Z.testbit e 12) eqn:E12.
  - rewrite Z.lor_spec, Hf, Z.pow2_bits_eqb, (Z.eqb_sym 7 n) by done.
    destruct (Z.eqb_spec n 7) as [->|]; [by rewrite orb_true_r|]. rewrite orb_false_r. by destruct ((n <? 12) || (n =? 63)).
  - rewrite testbit_clear by lia. rewrite Hf. destruct (Z.eqb_spec n 7); [by rewrite andb_false_r|]. rewrite andb_true_r.
    by destruct ((n <? 12) || (n =? 63)).
Qed.

Lemma land_mask_props e j :
  12 <= j <= 52 → 0 <= Z.land e (2 ^ 52 - 2 ^ j) ∧ Z.land e (2 ^ 52 - 2 ^ j) + 2 ^ j <= 2 ^ 52 ∧
    Z.land e (2 ^ 52 - 2 ^ j) mod 2 ^ j = 0.
Proof.
  intros Hj. set (x := Z.land e (2 ^ 52 - 2 ^ j)).
  assert (Hbit : ∀ n, 0 <= n → Z.testbit x n = Z.testbit e n && ((j <=? n) && (n <? 52))).
  { intros n Hn. unfold x. by rewrite Z.land_spec, testbit_mask by lia. }
  assert (Hx0 : 0 <= x) by (apply Z.land_nonneg; right; pose proof (Z.pow_le_mono_r 2 j 52); lia).
  assert (Hm : x mod 2 ^ j = 0).
  { rewrite <-Z.land_ones by lia. apply Z.bits_inj'. intros n Hn. rewrite Z.land_spec, Z.bits_0, Hbit, Z.testbit_ones_nonneg by lia.
    destruct (Z.leb_spec j n), (Z.ltb_spec n j); simpl; rewrite ?andb_false_r; done || lia. }
  assert (Hx1 : x < 2 ^ 52).
  { destruct (decide (x = 0)) as [->|]; [done|]. apply Z.log2_lt_pow2; [lia|].
    destruct (Z.lt_ge_cases (Z.log2 x) 52) as [|Hge]; [done|]. pose proof (Z.bit_log2 x ltac:(lia)) as Hb.
    rewrite Hbit in Hb by lia. destruct (Z.ltb_spec (Z.log2 x) 52); [lia|]. by rewrite !andb_false_r in Hb. }
  split; [done|]. split; [|done].
  assert (E : 2 ^ 52 = 2 ^ (52 - j) * 2 ^ j) by (rewrite <-Z.pow_add_r by lia; f_equal; lia).
  pose proof (Z.div_mod x (2 ^ j) ltac:(lia)). assert (x / 2 ^ j < 2 ^ (52 - j)) by (apply Z.div_lt_upper_bound; lia). nia.
Qed.

Lemma leaf_mask_3 : leaf_mask 3 = ADDR_MASK.
Proof. done. Qed.

Lemma low_range k : (k <= 3)%nat → 12 <= low k <= 39.
Proof. unfold low. lia. Qed.

(** The offset in a huge page is an index into its parts and the offset there. *)
Lemma mod_low k v : (k <= 2)%nat → v mod 2 ^ low k = idx (S k) v * 2 ^ low (S k) + v mod 2 ^ low (S k).
Proof.
  intros Hk. rewrite <-(low_S k). assert (0 <= low (S k)) by (unfold low; lia).
  rewrite Z.pow_add_r, Z.rem_mul_r by lia. unfold idx. change (2 ^ 9) with 512. lia.
Qed.

(** Physical memory that differs in new tables on the way to an address only. *)
Record ext {P : Type} `{Frames P} (root path : Z) (m m' : Phys P) : Prop := {
  ext_mmu v : mmu m' root v = mmu m root v;
  ext_words : framed m m' root path;
  ext_free f : frame_ok f → refs (frames m') f = 0 → refs (frames m) f = 0;
  ext_refs f : frame_ok f → 0 < refs (frames m) f → refs (frames m') f = refs (frames m) f;
  ext_node k v t : (k <= 3)%nat → node m root k v = Some t → node m' root k v = Some t;
  ext_new k v t :
    (k <= 3)%nat → node m' root k v = Some t → node m root k v = Some t ∨ (frame_ok t ∧ refs (frames m) t = 0)
}.

Section next_level.
Context {P : Type} `{Frames P} {ready : P → Prop} `{!FramesLaws P ready}.
Implicit Types m : Phys P.

Lemma ext_refl root v m : ext root v m m.
Proof. split; auto. intros a _ _. done. Qed.

Lemma ext_tables root v m m' a : ext root v m m' → on_path m' root v a → on_path m root v a ∨ in_free m a.
Proof.
  intros X (k & t & Hk & Ht & Ha). destruct (ext_new _ _ _ _ X k v t Hk Ht) as [?|[? ?]]; [left; by exists k, t|right; by exists t].
Qed.

Lemma ext_trans root v m1 m2 m3 : ext root v m1 m2 → ext root v m2 m3 → ext root v m1 m3.
Proof.
  intros X [B1 B2 B4 B5 B6 B7]. pose proof (ext_tables root v m1 m2) as A3. destruct X as [A1 A2 A4 A5 A6 A7] eqn:EX.
  assert (Hfree : ∀ a, in_free m2 a → in_free m1 a) by (intros a (f & Hf & Hr & Ha); exists f; auto).
  split.
  - intros v'. by rewrite B1.
  - intros a Ht Hf. rewrite B2; [by apply A2| |by auto]. intros [|]%A3; done.
  - auto.
  - intros f Hf Hr. rewrite B5; auto. by rewrite A5.
  - auto.
  - intros k u t Hk [?|[? ?]]%B7; auto.
Qed.

(** The allocator moved on without giving out a frame. *)
Lemma ext_same_refs root v m p :
  space m root → (∀ f, frame_ok f → refs p f = refs (frames m) f) →
  space (mkPhys p (words m)) root ∧ ext root v m (mkPhys p (words m)).
Proof.
  intros Hsp Hp. set (m' := mkPhys p (words m)).
  assert (Hn : ∀ k u, node m' root k u = node m root k u) by (intros k u; by apply node_agree).
  split.
  - split.
    + intros k u t Hk Ht. rewrite Hn in Ht. destruct (sp_frame m root Hsp k u t Hk Ht) as [Hf Hr].
      split; [done|]. simpl. by rewrite Hp.
    + intros k u t k' u' Hk Hk'. rewrite !Hn. by apply Hsp.
    + intros k u t Hk. rewrite Hn. by apply (sp_zero m root Hsp).
    + apply (sp_top m root Hsp).
    + apply (sp_word m root Hsp).
  - split.
    + intros v'. by apply mmu_agree.
    + by intros a _ _.
    + intros f Hf. simpl. by rewrite Hp.
    + intros f Hf _. simpl. by rewrite Hp.
    + intros k u t _. by rewrite Hn.
    + intros k u t _. rewrite Hn. auto.
Qed.

Section linked_ext.
Variables (m : Phys P) (root : Z) (k : nat) (v t f e' : Z) (g : Z → Z) (p' : P).
Hypothesis Hsp : space m root.
Hypothesis Hk : (k <= 2)%nat.
Hypothesis Ht : node m root k v = Some t.
Hypothesis Hnone : node m root (S k) v = None.
Hypothesis Hf : frame_ok f.
Hypothesis Hfree : refs (frames m) f = 0.
Hypothesis He_p : has e' PTE_PRESENT = true.
Hypothesis He_h : has e' PTE_HUGE = false.
Hypothesis He_a : Z.land e' ADDR_MASK = f.
Hypothesis He_r : 0 <= e' < 2 ^ 64.
Hypothesis Hg : ∀ i, 0 <= i < 512 → 0 <= g i < 2 ^ 64 ∧
  ((k <= 1)%nat → (has (g i) PTE_PRESENT = true → has (g i) PTE_HUGE = true) ∧ (has (g i) PTE_PRESENT = false → g i = 0)).
Hypothesis Hp' : ∀ x, frame_ok x → refs p' x = if decide (x = f) then 1 else refs (frames m) x.
Let m' := linked m k v t f e' g p'.
Hypothesis Hmmu : ∀ v', pre (S k) v' = pre (S k) v → mmu_from m' (2 - k) f v' = mmu m root v'.

Lemma linked_ext : space m' root ∧ ext root v m m' ∧ node m' root (S k) v = Some f.
Proof.
  split; [by apply linked_space|]. split.
  - split.
    + intros v'. destruct (decide (pre (S k) v' = pre (S k) v)) as [E|Hne].
      * unfold m'. rewrite linked_mmu_same by done. by apply Hmmu.
      * by apply linked_mmu_other.
    + by apply linked_framed.
    + intros x Hx. unfold m'. simpl. rewrite Hp' by done. case_decide; [done|done].
    + intros x Hx Hr. unfold m'. simpl. rewrite Hp' by done. rewrite decide_False; [done|]. intros ->. lia.
    + intros j v' x Hj Hx. unfold m'. rewrite linked_node by done. rewrite decide_False; [done|]. intros [-> E].
      rewrite (node_pre m root (S k) v' v) in Hx by (lia || done). congruence.
    + intros j v' x Hj Hx. unfold m' in Hx. rewrite linked_node in Hx by done. dec_in Hx; [|by left].
      injection Hx as <-. by right.
  - unfold m'. rewrite linked_node by (done || lia). by rewrite decide_True.
Qed.
End linked_ext.

Lemma ext_equiv root v m m1 m2 : m1 ≡ m2 → ext root v m m1 → ext root v m m2.
Proof.
  intros E [A1 A2 A4 A5 A6 A7]. split.
  - intros v'. rewrite <-E. apply A1.
  - intros a. destruct E as [_ <-]. apply A2.
  - intros f. rewrite <-E. apply A4.
  - intros f. rewrite <-E. apply A5.
  - intros k v' t. rewrite <-E. apply A6.
  - intros k v' t. rewrite <-E. apply A7.
Qed.

(** The outcome of a step down the tables: memory gained at most new tables, and the
    result is the table, or null. *)
Definition stepped root m (k : nat) (v : Z) (r : res (option Z * Phys P)) : Prop :=
  ∃ o m', r = Ok (o, m') ∧ space m' root ∧ ready (frames m') ∧ ext root v m m' ∧
    match o with Some t => node m' root (S k) v = Some t | None => True end.

Lemma table_entry_ok f fl :
  frame_ok f → 0 <= fl < 2 ^ 64 → (∀ n, 12 <= n < 52 → Z.testbit fl n = false) → Z.testbit fl 0 = true → Z.testbit fl 7 = false →
  has (Z.lor f fl) PTE_PRESENT = true ∧ has (Z.lor f fl) PTE_HUGE = false ∧ Z.land (Z.lor f fl) ADDR_MASK = f ∧
  0 <= Z.lor f fl < 2 ^ 64.
Proof.
  intros [Hf Hm] Hfl Hb H0 H7. unfold PTE_PRESENT, PTE_HUGE. rewrite !has_bit by done.
  rewrite !lor_addr_bit by (done || lia). split; [done|]. split; [done|]. split; [|apply lor_u64; lia].
  rewrite <-leaf_mask_3. apply (land_lor_addr f fl 12); [lia|lia|done|]. intros n Hn. apply Hb. lia.
Qed.

(** The new table for an empty entry. *)
Lemma grow_spec root m k v t f p :
  space m root → (k <= 2)%nat → node m root k v = Some t → has (entry m t (idx k v)) PTE_PRESENT = false →
  frame_ok f → refs (frames m) f = 0 → (∀ x, frame_ok x → refs p x = if decide (x = f) then 1 else refs (frames m) x) →
  let flags := if v <? USER_END then Z.lor (Z.lor PTE_PRESENT PTE_WRITABLE) PTE_USER else Z.lor PTE_PRESENT PTE_WRITABLE in
  let m' := set_entry (mkPhys p (fill_table (words m) f (λ _, 0))) t (idx k v) (Z.lor f flags) in
  space m' root ∧ ext root v m m' ∧ node m' root (S k) v = Some f.
Proof.
  intros Hsp Hk Ht Hnp Hf Hfree Hp flags m'.
  assert (Hnone : node m root (S k) v = None) by (simpl; rewrite Ht; simpl; by rewrite Hnp).
  assert (Hfl : flags = 7 ∨ flags = 3) by (unfold flags; case_match; auto).
  destruct (table_entry_ok f flags Hf) as (E1 & E2 & E3 & E4).
  { destruct Hfl as [-> | ->]; lia. }
  { intros n Hn. apply (testbit_ge flags 3); [destruct Hfl as [-> | ->]; lia|lia|lia]. }
  { by destruct Hfl as [-> | ->]. }
  { by destruct Hfl as [-> | ->]. }
  apply linked_ext; [done..| |done|].
  - intros i _. split; [lia|]. intros _. done.
  - intros v' E. assert (Hl : entry (linked m k v t f (Z.lor f flags) (λ _, 0) p) f (idx (S k) v') = 0).
    { eapply (linked_new m root); first [apply idx_range|done]. }
    assert (Hm : mmu m root v' = None).
    { assert (Hn' : node m root k v' = Some t).
      { apply pre_S_inj in E as [E _]; [|lia]. by rewrite (node_pre m root k v' v) by (lia || done). }
      rewrite (mmu_node m root (3 - k) k v' t ltac:(lia) Hn'). destruct (3 - k)%nat as [|n] eqn:En; [lia|].
      cbn [mmu_from]. replace (3 - S n)%nat with k by lia. apply pre_S_inj in E as [_ ->]; [|lia]. by rewrite Hnp. }
    rewrite Hm. destruct (2 - k)%nat as [|n] eqn:En; cbn [mmu_from].
    + replace (3 - 0)%nat with (S k) by lia. by rewrite Hl.
    + replace (3 - S n)%nat with (S k) by lia. by rewrite Hl.
Qed.

(** The parts of a huge page translate as the page did. *)
Lemma split_link root m k v t f p fl fl' :
  space m root → (1 <= k <= 2)%nat → node m root k v = Some t →
  let e := entry m t (idx k v) in
  has e PTE_PRESENT = true → has e PTE_HUGE = true →
  frame_ok f → refs (frames m) f = 0 → (∀ x, frame_ok x → refs p x = if decide (x = f) then 1 else refs (frames m) x) →
  0 <= fl < 2 ^ 64 → (∀ n, 12 <= n < 52 → Z.testbit fl n = false) → Z.testbit fl 0 = true → (k = 1%nat → Z.testbit fl 7 = true) →
  0 <= fl' < 2 ^ 64 → (∀ n, 12 <= n < 52 → Z.testbit fl' n = false) → Z.testbit fl' 0 = true → Z.testbit fl' 7 = false →
  let g i := Z.lor (u64 (Z.land e (leaf_mask k) + i * 2 ^ low (S k))) fl in
  let m' := linked m k v t f (Z.lor f fl') g p in
  space m' root ∧ ext root v m m' ∧ node m' root (S k) v = Some f.
Proof.
  intros Hsp Hk Ht e Hep Heh Hf Hfree Hp Hfl Hflb Hfl0 Hfl7 Hfl' Hflb' Hfl0' Hfl7' g m'.
  assert (Hnone : node m root (S k) v = None) by (simpl; rewrite Ht; simpl; fold e; by rewrite Hep, Heh).
  destruct (table_entry_ok f fl' Hf Hfl' Hflb' Hfl0' Hfl7') as (E1 & E2 & E3 & E4).
  pose proof (low_range k ltac:(lia)) as HL. pose proof (low_range (S k) ltac:(lia)) as HLS.
  pose proof (low_S k) as HLk.
  destruct (land_mask_props e (low k) ltac:(lia)) as (Hb0 & Hb1 & Hbm). fold (leaf_mask k) in Hb0, Hb1, Hbm.
  set (base := Z.land e (leaf_mask k)) in *.
  assert (Hpow : 2 ^ low k = 512 * 2 ^ low (S k)) by (rewrite <-HLk, Z.pow_add_r by lia; change (2 ^ 9) with 512; lia).
  assert (Hpart : ∀ i, 0 <= i < 512 → 0 <= base + i * 2 ^ low (S k) < 2 ^ 52 ∧ (base + i * 2 ^ low (S k)) mod 2 ^ low (S k) = 0).
  { intros i Hi. split; [nia|]. rewrite Z_mod_plus_full. rewrite Hpow in Hbm.
    assert (Hd : (2 ^ low (S k) | base)).
    { apply Z.mod_divide in Hbm as [q Hq]; [|lia]. exists (q * 512). lia. }
    apply Z.mod_divide; [lia|done]. }
  assert (Hg : ∀ i, 0 <= i < 512 → g i = Z.lor (base + i * 2 ^ low (S k)) fl ∧ 0 <= g i < 2 ^ 64 ∧
     has (g i) PTE_PRESENT = true ∧ (k = 1%nat → has (g i) PTE_HUGE = true)).
  { intros i Hi. destruct (Hpart i Hi) as [Hr Hm]. unfold g. rewrite u64_small by lia.
    assert (Hm12 : (base + i * 2 ^ low (S k)) mod 4096 = 0).
    { apply Z.mod_divide in Hm as [q Hq]; [|lia]. rewrite Hq. replace (low (S k)) with (low (S k) - 12 + 12) by lia.
      rewrite Z.pow_add_r, Z.mul_assoc by lia. apply Z.mod_mul. done. }
    split; [done|]. split; [apply lor_u64; lia|]. unfold PTE_PRESENT, PTE_HUGE. rewrite !has_bit by done.
    rewrite !lor_addr_bit by (done || lia). done. }
  apply linked_ext; try done; [lia| |].
  - intros i Hi. destruct (Hg i Hi) as (_ & Hr & Hpr & Hhg). split; [done|]. intros Hk1. split; [|congruence].
    intros _. apply Hhg. lia.
  - intros v' E. pose proof (idx_range (S k) v') as Hi. destruct (Hg _ Hi) as (Eg & Hr & Hpr & Hhg). destruct (Hpart _ Hi) as [Hr' Hm'].
    assert (Hl : entry (linked m k v t f (Z.lor f fl') g p) f (idx (S k) v') = g (idx (S k) v'))
      by (eapply (linked_new m root); first [apply idx_range|lia|done]).
    assert (Hm : mmu m root v' = Some (base + v' mod 2 ^ low k)).
    { pose proof E as E'. apply pre_S_inj in E' as [E' Ei]; [|lia].
      assert (Hn' : node m root k v' = Some t) by (by rewrite (node_pre m root k v' v) by (lia || done)).
      rewrite (mmu_node m root (3 - k) k v' t ltac:(lia) Hn'). destruct (3 - k)%nat as [|n] eqn:En; [lia|].
      cbn [mmu_from]. replace (3 - S n)%nat with k by lia. rewrite Ei. fold e. by rewrite Hep, Heh, decide_False by lia. }
    assert (Hleaf : Z.land (g (idx (S k) v')) (leaf_mask (S k)) + v' mod 2 ^ low (S k) = base + v' mod 2 ^ low k).
    { rewrite Eg. unfold leaf_mask. rewrite land_lor_addr; [|lia|done|done|intros n Hn; apply Hflb; lia].
      rewrite (mod_low k v') by lia. lia. }
    rewrite Hm. destruct (2 - k)%nat as [|n] eqn:En; cbn [mmu_from].
    + replace (3 - 0)%nat with (S k) by lia. by rewrite Hl, Hpr, Hleaf.
    + replace (3 - S n)%nat with (S k) by lia. by rewrite Hl, Hpr, Hhg, decide_False, Hleaf by lia.
Qed.

(** The code clears a new table before it fills it. *)
Lemma fill_equiv m (p : P) t f g z v i e :
  (∀ j, f j = g j) →
  set_entry (mkPhys p (fill_table (words m) t f)) v i e ≡ set_entry (mkPhys p (fill_table (fill_table (words m) t z) t g)) v i e.
Proof.
  intros Hfg. split; [done|]. intros a. simpl. unfold store. case_match; [done|]. unfold fill_table. case_match; [apply Hfg|done].
Qed.

Lemma link_equiv root m m1 m2 j v f :
  m1 ≡ m2 → space m1 root ∧ ext root v m m1 ∧ node m1 root j v = Some f → space m2 root ∧ ext root v m m2 ∧ node m2 root j v = Some f.
Proof.
  intros E (S1 & S2 & S3). split; [by eapply space_equiv|]. split; [by eapply ext_equiv|]. by rewrite <-E.
Qed.

Lemma clear_huge_bits fl :
  0 <= fl < 2 ^ 64 → let fl' := Z.land fl (u64 (Z.lnot 0x80)) in
  0 <= fl' < 2 ^ 64 ∧ Z.testbit fl' 0 = Z.testbit fl 0 ∧ Z.testbit fl' 7 = false ∧
  ∀ n, 12 <= n < 52 → Z.testbit fl n = false → Z.testbit fl' n = false.
Proof.
  intros Hfl fl'. assert (Hb : ∀ n, 0 <= n < 64 → Z.testbit fl' n = Z.testbit fl n && negb (n =? 7)).
  { intros n Hn. by apply (testbit_clear fl 7). }
  split; [by apply land_u64|]. rewrite !Hb by lia. rewrite andb_true_r, andb_false_r.
  split; [done|]. split; [done|]. intros n Hn E. by rewrite Hb, E by lia.
Qed.

Lemma split_huge_page_spec root m k v t :
  space m root → ready (frames m) → (k <= 2)%nat → node m root k v = Some t →
  has (entry m t (idx k v)) PTE_PRESENT = true → has (entry m t (idx k v)) PTE_HUGE = true →
  ∃ ok m', split_huge_page t (idx k v) (4 - Z.of_nat k) m = Ok (ok, m') ∧ space m' root ∧ ready (frames m') ∧ ext root v m m' ∧
    (ok = true → ∃ f, node m' root (S k) v = Some f ∧ Z.land (entry m' t (idx k v)) ADDR_MASK = f).
Proof.
  intros Hsp Hr Hk Ht Hep Heh.
  assert (Hk1 : (1 <= k)%nat).
  { destruct k as [|k]; [|lia]. simpl in Ht. simplify_eq. by rewrite (sp_top m t Hsp) in Heh. }
  unfold split_huge_page. rewrite Hep, Heh. cbn [negb orb]. set (e := entry m t (idx k v)) in *.
  assert (He : 0 <= e < 2 ^ 64) by apply (sp_word m root Hsp).
  destruct (alloc_frame_spec (frames m) Hr) as (f & p & Ea & Hr' & Hc). step_with Ea. cbv iota.
  destruct Hc as [[-> Hp]|(Hf & Hfree & Hp)].
  { cbn [Z.eqb]. destruct (ext_same_refs root v m p Hsp Hp) as [Hs' Hx]. eexists _, _. by split_and!. }
  destruct (Z.eqb_spec f 0); [destruct Hf; lia|]. cbv zeta.
  pose proof (split_flags_range e He) as Hfl. pose proof (split_flags_bit e) as Hbit.
  set (fl := split_flags e) in *. destruct (clear_huge_bits fl Hfl) as (Hfl' & Hfl0' & Hfl7' & Hflb').
  set (fl' := Z.land fl (u64 (Z.lnot 0x80))) in *.
  assert (Hflb : ∀ n, 12 <= n < 52 → Z.testbit fl n = false).
  { intros b Hb. rewrite Hbit by lia. destruct (Z.eqb_spec b 7); [lia|]. destruct (Z.ltb_spec b 12); [lia|].
    destruct (Z.eqb_spec b 63); [lia|done]. }
  assert (Hfl0 : Z.testbit fl 0 = true).
  { rewrite Hbit by lia. unfold PTE_PRESENT in Hep. rewrite has_bit in Hep by done. done. }
  assert (Hend : ∀ m', (space m' root ∧ ext root v m m' ∧ node m' root (S k) v = Some f) → frames m' = p →
    space m' root ∧ ready (frames m') ∧ ext root v m m' ∧
    (true = true → ∃ f, node m' root (S k) v = Some f ∧ Z.land (entry m' t (idx k v)) ADDR_MASK = f)).
  { intros m' (S1 & S2 & S3) Hfr. rewrite Hfr. split_and!; try done. intros _. exists f. split; [done|].
    simpl in S3. rewrite (ext_node _ _ _ _ S2 k v t) in S3 by (lia || done). simpl in S3. case_match; [|done]. by simplify_eq. }
  assert (k = 1%nat ∨ k = 2%nat) as [-> | ->] by lia; cbn [Z.of_nat Pos.of_succ_nat Pos.succ Z.sub Z.eqb].
  - eexists _, _. split; [done|]. apply Hend; [|done]. eapply link_equiv; [apply fill_equiv|].
    2: { apply (split_link root m 1 v t f p (Z.lor fl (2 ^ 7)) fl'); try done; try congruence.
      - by apply lor_u64.
      - intros b Hb. rewrite Z.lor_spec, Hflb, Z.pow2_bits_false by lia. done.
      - rewrite Z.lor_spec, Hfl0. done.
      - rewrite Z.lor_spec, Z.pow2_bits_true, orb_true_r by lia. done.
      - intros b Hb. by apply Hflb', Hflb. }
    intros j. cbv beta. by rewrite Z.lor_assoc.
  - eexists _, _. split; [done|]. apply Hend; [|done]. eapply link_equiv; [apply fill_equiv|].
    2: { apply (split_link root m 2 v t f p fl fl'); try done; try congruence. intros b Hb. by apply Hflb', Hflb. }
    intros j. done.
Qed.

Lemma get_next_level_spec root m k v t alloc :
  space m root → ready (frames m) → (k <= 2)%nat → node m root k v = Some t →
  stepped root m k v (get_next_level t (idx k v) (4 - Z.of_nat k) alloc v m).
Proof.
  intros Hsp Hr Hk Ht. unfold get_next_level. cbv zeta. set (e := entry m t (idx k v)).
  destruct (has e PTE_PRESENT) eqn:Hep.
  - destruct (has e PTE_HUGE) eqn:Heh.
    + destruct (split_huge_page_spec root m k v t Hsp Hr Hk Ht Hep Heh) as (ok & m' & E & Hs' & Hr' & Hx & Hok).
      step_with E. cbv iota. destruct ok; [|by eexists _, _; split_and!].
      destruct (Hok eq_refl) as (f & Hn & <-). by eexists _, _; split_and!.
    + eexists _, _. split; [done|]. split_and!; [done|done|apply ext_refl|]. simpl. rewrite Ht. simpl. fold e. by rewrite Hep, Heh.
  - destruct alloc; cbn [negb]; [|by eexists _, _; split_and!; try apply ext_refl].
    destruct (alloc_frame_spec (frames m) Hr) as (f & p & Ea & Hr' & Hc). step_with Ea. cbv iota.
    destruct Hc as [[-> Hp]|(Hf & Hfree & Hp)].
    { cbn [Z.eqb]. destruct (ext_same_refs root v m p Hsp Hp) as [Hs' Hx]. by eexists _, _; split_and!. }
    destruct (Z.eqb_spec f 0); [destruct Hf; lia|].
    destruct (sp_frame m root Hsp k v t ltac:(lia) Ht) as [[_ Htm] Htr].
    assert (Hex : entry (mkPhys p (fill_table (words m) f (λ _, 0))) t (idx k v) = 0).
    { rewrite entry_fill by (apply idx_range || apply Hf || done). rewrite decide_False by (intros ->; lia).
      by apply (sp_zero m root Hsp). }
    rewrite Hex. cbn [Z.eqb].
    destruct (grow_spec root m k v t f p Hsp Hk Ht Hep Hf Hfree Hp) as (S1 & S2 & S3).
    eexists _, _. split; [done|]. split; [exact S1|]. split; [done|]. split; [exact S2|exact S3].
Qed.

Lemma get_page_table_spec root m v alloc :
  space m root → ready (frames m) → stepped root m 2 v (get_page_table root v alloc m).
Proof.
  intros Hsp Hr. unfold get_page_table. rewrite idx4_eq, idx3_eq, idx2_eq.
  destruct (get_next_level_spec root m 0 v root alloc Hsp Hr ltac:(lia) eq_refl) as (o1 & m1 & E1 & S1 & R1 & X1 & N1).
  change (4 - Z.of_nat 0) with 4 in E1. step_with E1. cbv iota. destruct o1 as [t1|]; [|by eexists _, _; split_and!].
  destruct (get_next_level_spec root m1 1 v t1 alloc S1 R1 ltac:(lia) N1) as (o2 & m2 & E2 & S2 & R2 & X2 & N2).
  change (4 - Z.of_nat 1) with 3 in E2. step_with E2. cbv iota. pose proof (ext_trans _ _ _ _ _ X1 X2) as X12.
  destruct o2 as [t2|]; [|by eexists _, _; split_and!].
  destruct (get_next_level_spec root m2 2 v t2 alloc S2 R2 ltac:(lia) N2) as (o3 & m3 & E3 & S3 & R3 & X3 & N3).
  change (4 - Z.of_nat 2) with 2 in E3. exists o3, m3. split_and!; [exact E3|done|done|by eapply ext_trans|done].
Qed.

(** A table that exists is found without touching memory. *)
Lemma get_next_level_present root m k v t t' alloc :
  node m root k v = Some t → node m root (S k) v = Some t' →
  get_next_level t (idx k v) (4 - Z.of_nat k) alloc v m = Ok (Some t', m).
Proof.
  intros Ht Ht'. cbn [node] in Ht'. rewrite Ht in Ht'. cbn [mbind option_bind] in Ht'. unfold get_next_level. cbv zeta.
  destruct (has (entry m t (idx k v)) PTE_PRESENT); [|done]. destruct (has (entry m t (idx k v)) PTE_HUGE); [done|].
  cbn [andb negb] in Ht'. by simplify_eq.
Qed.

Lemma get_page_table_present root m v pt alloc :
  node m root 3 v = Some pt → get_page_table root v alloc m = Ok (Some pt, m).
Proof.
  intros H3. destruct (node_S_prev _ _ _ _ _ H3) as [t2 H2]. destruct (node_S_prev _ _ _ _ _ H2) as [t1 H1].
  pose proof (get_next_level_present root m 0 v root t1 alloc eq_refl H1) as E1.
  pose proof (get_next_level_present root m 1 v t1 t2 alloc H1 H2) as E2.
  pose proof (get_next_level_present root m 2 v t2 pt alloc H2 H3) as E3.
  unfold get_page_table. rewrite idx4_eq, idx3_eq, idx2_eq. step_with E1. cbv iota. step_with E2. cbv iota. exact E3.
Qed.

(** ** Writing an entry of a page table *)

Section leaf.
Variables (root : Z) (m : Phys P) (v pt e : Z).
Hypothesis Hsp : space m root.
Hypothesis Hpt : node m root 3 v = Some pt.
Hypothesis He : 0 <= e < 2 ^ 64.
Let m' := set_entry m pt (idx 3 v) e.

Lemma leaf_entry j v' x :
  (j <= 3)%nat → node m root j v' = Some x →
  entry m' x (idx j v') = if decide (j = 3%nat ∧ same_page v v') then e else entry m x (idx j v').
Proof.
  intros Hj Hx. destruct (sp_frame m root Hsp 3 v pt ltac:(lia) Hpt) as [[_ Hpm] _].
  destruct (sp_frame m root Hsp j v' x Hj Hx) as [[_ Hxm] _]. pose proof (idx_range j v'). pose proof (idx_range 3 v).
  unfold same_page. dec_goal.
  - destruct a as [-> E]. apply pre_S_inj in E as [E1 E2]; [|lia]. rewrite <-(node_pre m root 3 v v') in Hx by (lia || done).
    simplify_eq. rewrite <-E2. apply entry_set_same.
  - apply entry_set_ne; [done..|]. destruct (decide (x = pt)) as [->|]; [|by left]. right. intros E.
    destruct (sp_tree m root Hsp j v' pt 3 v) as [-> E']; [done|lia|done|done|]. apply n. split; [done|].
    apply pre_S_inj; [lia|done].
Qed.

Lemma leaf_node j v' : (j <= 3)%nat → node m' root j v' = node m root j v'.
Proof.
  intros Hj. apply node_agree. intros i x Hi Hx. rewrite (leaf_entry i v' x) by (lia || done). by rewrite decide_False by lia.
Qed.

Lemma leaf_space : space m' root.
Proof.
  split.
  - intros k v' t Hk. rewrite leaf_node by done. by apply Hsp.
  - intros k v1 t k' v2 Hk Hk'. rewrite !leaf_node by done. by apply Hsp.
  - intros k v' t Hk. rewrite leaf_node by lia. intros Ht. rewrite (leaf_entry k v' t) by (lia || done).
    rewrite decide_False by lia. by apply (sp_zero m root Hsp).
  - intros v'. rewrite (leaf_entry 0 v' root) by (lia || done). rewrite decide_False by lia. apply Hsp.
  - intros a. unfold m', set_entry, store. simpl. case_match; [done|apply Hsp].
Qed.

Lemma leaf_mmu v' :
  mmu m' root v' =
    if decide (same_page v v') then if has e PTE_PRESENT then Some (Z.land e ADDR_MASK + v' mod 4096) else None
    else mmu m root v'.
Proof.
  dec_goal.
  - assert (Hn : node m root 3 v' = Some pt).
    { apply pre_S_inj in s as [E _]; [|lia]. by rewrite <-(node_pre m root 3 v v') by (lia || done). }
    rewrite (mmu_node m' root 0 3 v' pt); [|lia|by rewrite leaf_node by lia]. cbn [mmu_from].
    change (3 - 0)%nat with 3%nat. rewrite (leaf_entry 3 v' pt) by (lia || done). by rewrite decide_True, leaf_mask_3 by done.
  - apply mmu_agree. intros j x Hj Hx. rewrite (leaf_entry j v' x) by done. by rewrite decide_False by naive_solver.
Qed.

Lemma leaf_framed : framed m m' root v.
Proof.
  intros a Ha _. unfold m', set_entry, store. simpl. destruct (Z.eqb_spec a (pt + 8 * idx 3 v)) as [->|]; [|done].
  exfalso. apply Ha. exists 3%nat, pt. pose proof (idx_range 3 v). split; [lia|]. split; [done|lia].
Qed.
End leaf.

(** A change of the translations of one page. *)
Record changed root m m' (v : Z) (o : Z → option Z) : Prop := {
  ch_space : space m' root;
  ch_ready : ready (frames m');
  ch_mmu v' : mmu m' root v' = if decide (same_page v v') then o v' else mmu m root v';
  ch_words : framed m m' root v;
  ch_refs f : frame_ok f → 0 < refs (frames m) f → refs (frames m') f = refs (frames m) f;
  ch_node k u t : (k <= 3)%nat → node m root k u = Some t → node m' root k u = Some t;
  ch_new k u t :
    (k <= 3)%nat → node m' root k u = Some t → node m root k u = Some t ∨ (frame_ok t ∧ refs (frames m) t = 0)
}.

Lemma changed_leaf root m m1 v pt e :
  space m1 root → ready (frames m1) → ext root v m m1 → node m1 root 3 v = Some pt → 0 <= e < 2 ^ 64 →
  changed root m (set_entry m1 pt (idx 3 v) e) v
    (λ v', if has e PTE_PRESENT then Some (Z.land e ADDR_MASK + v' mod 4096) else None).
Proof.
  intros Hs Hr X Hn He. pose proof (ext_tables root v m m1) as X3. destruct X as [X1 X2 X4 X5 X6 X7] eqn:EX. split.
  - by apply leaf_space.
  - done.
  - intros v'. by rewrite leaf_mmu, X1.
  - intros a Ht Hf. transitivity (words m1 a); [|by apply X2]. apply (leaf_framed root m1 v pt e Hn He).
    + intros Ha. by destruct (X3 a X Ha).
    + intros (f & Hf1 & Hf2 & Hf3). apply Hf. exists f. auto.
  - done.
  - intros k u t Hk Ht. rewrite leaf_node by done. by apply X6.
  - intros k u t Hk. rewrite leaf_node by done. by apply X7.
Qed.

Lemma unchanged root m m' v :
  space m' root → ready (frames m') → ext root v m m' → changed root m m' v (λ v', mmu m root v').
Proof. intros Hs Hr [X1 X2 X4 X5 X6 X7]. split; try done. intros v'. rewrite X1. by case_decide. Qed.

Lemma vmm_map_page_spec root m v phys flags :
  space m root → ready (frames m) → 0 <= phys < 2 ^ 52 → phys mod 4096 = 0 →
  0 <= flags < 2 ^ 64 → (∀ n, 12 <= n < 52 → Z.testbit flags n = false) →
  (KERNEL_STACK_TOP <= v → has flags PTE_USER = false) → (v < USER_END → has flags PTE_USER = true) →
  ∃ ok m', vmm_map_page_in root v phys flags m = Ok (ok, m') ∧
    changed root m m' v (λ v', if ok then if has flags PTE_PRESENT then Some (phys + v' mod 4096) else None else mmu m root v') ∧
    (ok = true → page_entry m' root v = Some (Z.lor phys flags)).
Proof.
  intros Hsp Hr Hp Hpm Hfl Hflb Hk Hu. unfold vmm_map_page_in.
  assert (G1 : (KERNEL_STACK_TOP <=? v) && has flags PTE_USER = false)
    by (destruct (Z.leb_spec KERNEL_STACK_TOP v); [by rewrite Hk|done]).
  assert (G2 : (v <? USER_END) && negb (has flags PTE_USER) = false) by (destruct (Z.ltb_spec v USER_END); [by rewrite Hu|done]).
  rewrite G1, G2. destruct (get_page_table_spec root m v true Hsp Hr) as (o & m1 & E & S1 & R1 & X1 & N1). step_with E. cbv iota.
  destruct o as [pt|]; [|exists false, m1; split; [done|by split; [apply unchanged|]]].
  rewrite idx1_eq. eexists true, _. split; [reflexivity|].
  assert (Hpre : has (Z.lor phys flags) PTE_PRESENT = has flags PTE_PRESENT)
    by (unfold PTE_PRESENT; rewrite !has_bit, lor_addr_bit by (done || lia); done).
  assert (Ha : Z.land (Z.lor phys flags) ADDR_MASK = phys)
    by (rewrite <-leaf_mask_3; apply (land_lor_addr phys flags 12); [lia|lia|done|done]).
  destruct (changed_leaf root m m1 v pt (Z.lor phys flags) S1 R1 X1 N1 ltac:(apply lor_u64; lia)) as [C1 C2 C3 C4 C5 C6 C7].
  split; [split; try done; intros v'; by rewrite C3, Hpre, Ha|]. intros _. unfold page_entry.
  rewrite leaf_node, N1 by (done || (apply lor_u64; lia) || lia). cbn [mbind option_bind]. by rewrite entry_set_same.
Qed.

(** [None] of the walk: the page was not mapped, or its huge page could not be split. *)
Lemma vmm_unmap_page_spec root m v :
  space m root → ready (frames m) →
  ∃ ok m', vmm_unmap_page_no_flush_in root v m = Ok m' ∧ changed root m m' v (λ v', if (ok : bool) then None else mmu m root v') ∧
    (ok = false → node m root 3 v = None).
Proof.
  intros Hsp Hr. unfold vmm_unmap_page_no_flush_in.
  destruct (get_page_table_spec root m v false Hsp Hr) as (o & m1 & E & S1 & R1 & X1 & N1). step_with E. cbv iota.
  destruct o as [pt|]; [|exists false, m1; split; [done|]; split; [by apply unchanged|]].
  2: { intros _. destruct (node m root 3 v) as [pt|] eqn:Hn; [|done]. by rewrite (get_page_table_present _ _ _ _ _ Hn) in E. }
  rewrite idx1_eq. eexists true, _. split; [reflexivity|].
  by destruct (changed_leaf root m m1 v pt 0 S1 R1 X1 N1 ltac:(lia)) as [C1 C2 C3 C4 C5 C6 C7]; split; [split|].
Qed.

(** Translation in software agrees with the processor's. *)
Lemma vmm_virt_to_phys_spec root m v :
  space m root → 0 <= v → vmm_virt_to_phys_in root v m = default 0 (mmu m root v).
Proof.
  intros Hsp Hv. unfold vmm_virt_to_phys_in, mmu. rewrite idx4_eq, idx3_eq, idx2_eq, idx1_eq. cbn [mmu_from Nat.sub].
  assert (Hleaf : ∀ e k, (k <= 3)%nat → 0 <= Z.land e (leaf_mask k) + v mod 2 ^ low k < 2 ^ 64).
  { intros e k Hk. pose proof (low_range k Hk). destruct (land_mask_props e (low k) ltac:(lia)) as (H1 & H2 & _).
    unfold leaf_mask. pose proof (Z.mod_pos_bound v (2 ^ low k) ltac:(lia)). lia. }
  destruct (Z.eqb_spec root 0) as [E0|_]; [destruct (sp_frame m root Hsp 0 v root ltac:(lia) eq_refl) as [[? _] _]; lia|].
  set (e4 := entry m root (idx 0 v)). destruct (has e4 PTE_PRESENT); [|done]. cbn [negb].
  assert (Hh4 : has e4 PTE_HUGE = false) by apply (sp_top m root Hsp). rewrite Hh4.
  set (e3 := entry m (Z.land e4 ADDR_MASK) (idx 1 v)). destruct (has e3 PTE_PRESENT); [|done]. cbn [negb].
  destruct (has e3 PTE_HUGE).
  { change 0x3FFFFFFF with (2 ^ 30 - 1). rewrite (land_ones_mod v 30) by done. cbn [default]. apply u64_small. apply (Hleaf e3 1%nat). lia. }
  set (e2 := entry m (Z.land e3 ADDR_MASK) (idx 2 v)). destruct (has e2 PTE_PRESENT); [|done]. cbn [negb].
  destruct (has e2 PTE_HUGE).
  { change 0x1FFFFF with (2 ^ 21 - 1). rewrite (land_ones_mod v 21) by done. cbn [default]. apply u64_small. apply (Hleaf e2 2%nat). lia. }
  set (e1 := entry m (Z.land e2 ADDR_MASK) (idx 3 v)). destruct (has e1 PTE_PRESENT); [|done]. cbn [negb].
  change 0xFFF with (2 ^ 12 - 1). rewrite (land_ones_mod v 12) by done. cbn [default]. apply u64_small. apply (Hleaf e1 3%nat). lia.
Qed.

Lemma vmm_set_page_flags_spec root m v flags :
  space m root → ready (frames m) → 0 <= flags < 2 ^ 64 → (∀ n, 12 <= n < 52 → Z.testbit flags n = false) →
  ∃ m', vmm_set_page_flags root v flags m = Ok m' ∧ changed root m m' v (mmu m root).
Proof.
  intros Hsp Hr Hfl Hflb. unfold vmm_set_page_flags.
  destruct (get_page_table_spec root m v false Hsp Hr) as (o & m1 & E & S1 & R1 & X1 & N1). step_with E. cbv iota.
  destruct o as [pt|]; [|exists m1; split; [done|by apply unchanged]]. rewrite idx1_eq. cbv zeta. set (e := entry m1 pt (idx 3 v)).
  destruct (has e PTE_PRESENT) eqn:Hep; cbn [negb]; [|exists m1; split; [done|by apply unchanged]].
  assert (He : 0 <= e < 2 ^ 64) by apply (sp_word m1 root S1).
  destruct (land_mask_props e 12 ltac:(lia)) as (Ha0 & Ha1 & Ham). change (2 ^ 52 - 2 ^ 12) with ADDR_MASK in Ha0, Ha1, Ham.
  set (keep := Z.land e (Z.lor (Z.lor PTE_PRESENT PTE_USER) PTE_SHARED)).
  assert (Hkeep : ∀ n, 0 <= n < 52 → Z.testbit keep n = Z.testbit e n && ((n =? 0) || (n =? 2))).
  { intros n Hn. unfold keep. rewrite Z.land_spec, !Z.lor_spec. unfold PTE_PRESENT, PTE_USER, PTE_SHARED.
    rewrite !Z.pow2_bits_eqb by done. rewrite (Z.eqb_sym 0), (Z.eqb_sym 2). destruct (Z.eqb_spec 52 n); [lia|]. by rewrite orb_false_r. }
  assert (Hkr : 0 <= keep < 2 ^ 64) by (by apply land_u64). set (phys := Z.land e ADDR_MASK) in *.
  set (e' := Z.lor (Z.lor phys flags) keep).
  assert (He' : 0 <= e' < 2 ^ 64) by (apply lor_u64; [apply lor_u64; lia|done]).
  assert (Hep' : has e' PTE_PRESENT = true).
  { unfold PTE_PRESENT in *. rewrite has_bit in Hep |- * by done. unfold e'. by rewrite Z.lor_spec, Hkeep, Hep, orb_true_r by lia. }
  assert (Ea : Z.land e' ADDR_MASK = phys).
  { unfold e'. rewrite <-Z.lor_assoc, <-leaf_mask_3. apply (land_lor_addr phys (Z.lor flags keep) 12); [lia|lia|done|].
    intros n Hn. rewrite Z.lor_spec, Hflb, Hkeep by lia. destruct (Z.eqb_spec n 0), (Z.eqb_spec n 2); lia || apply andb_false_r. }
  eexists. split; [reflexivity|]. destruct (changed_leaf root m m1 v pt e' S1 R1 X1 N1 He') as [C1 C2 C3 C4 C5 C6 C7].
  split; try done. intros v'. rewrite C3, Hep', Ea. dec_goal; [|done].
  rewrite <-(ext_mmu _ _ _ _ X1 v'). assert (Hn : node m1 root 3 v' = Some pt).
  { apply pre_S_inj in s as [Ev _]; [|lia]. by rewrite <-(node_pre m1 root 3 v v') by (lia || done). }
  rewrite (mmu_node m1 root 0 3 v' pt) by (lia || done). cbn [mmu_from]. change (3 - 0)%nat with 3%nat.
  apply pre_S_inj in s as [_ <-]; [|lia]. fold e. by rewrite Hep, leaf_mask_3.
Qed.

(** ** Two address spaces *)

(** No table on a path into the user half of [r1] is a table of [r2]; the tables of the
    kernel half may be shared. *)
Definition user_half (v : Z) : Prop := idx 0 v < 256.
Definition apart m r1 r2 : Prop :=
  ∀ v k t k' v', user_half v → (k <= 3)%nat → (k' <= 3)%nat → node m r1 k v = Some t → node m r2 k' v' ≠ Some t.

(** A table of another address space keeps its entries. *)
Lemma other_entry r1 r2 m m' v o k' v' t' :
  space m r1 → space m r2 → apart m r1 r2 → user_half v → changed r1 m m' v o →
  (k' <= 3)%nat → node m r2 k' v' = Some t' → entry m' t' (idx k' v') = entry m t' (idx k' v').
Proof.
  intros S1 S2 Hap Hu C Hk' Hn'. destruct (sp_frame m r2 S2 k' v' t' Hk' Hn') as [[Ht Htm] Htr]. pose proof (idx_range k' v').
  apply (ch_words _ _ _ _ _ C).
  - intros (k & t & Hk & Hn & Ha). destruct (sp_frame m r1 S1 k v t Hk Hn) as [[_ Htm'] _].
    assert (t = t') as -> by lia. by apply (Hap v k t' k' v').
  - intros (f & [_ Hfm] & Hfr & Ha). assert (f = t') as -> by lia. lia.
Qed.

(** A change of a user page in one address space leaves the other one alone. *)
Lemma changed_other r1 r2 m m' v o :
  space m r1 → space m r2 → apart m r1 r2 → apart m r2 r1 → user_half v → changed r1 m m' v o →
  space m' r2 ∧ (∀ v', mmu m' r2 v' = mmu m r2 v') ∧ apart m' r1 r2 ∧ apart m' r2 r1.
Proof.
  intros S1 S2 A12 A21 Hu C. pose proof (other_entry r1 r2 m m' v o) as He.
  assert (Hn : ∀ k u, (k <= 3)%nat → node m' r2 k u = node m r2 k u).
  { intros k u Hk. apply node_agree. intros j t Hj Ht. apply He; try done. lia. }
  assert (Hold : ∀ k u t, (k <= 3)%nat → node m r2 k u = Some t → frame_ok t ∧ refs (frames m) t ≠ 0).
  { intros k u t Hk Ht. destruct (sp_frame m r2 S2 k u t Hk Ht). split; [done|lia]. }
  split; [|split; [|split]].
  - split.
    + intros k u t Hk. rewrite Hn by done. intros Ht. destruct (sp_frame m r2 S2 k u t Hk Ht) as [Hf Hr]. split; [done|].
      by rewrite (ch_refs _ _ _ _ _ C).
    + intros k u t k' u' Hk Hk'. rewrite !Hn by done. by apply S2.
    + intros k u t Hk. rewrite Hn by lia. intros Ht. rewrite (He k u t) by (done || lia). by apply (sp_zero m r2 S2).
    + intros u. rewrite (He 0%nat u r2) by (done || lia). apply S2.
    + apply (sp_word _ _ (ch_space _ _ _ _ _ C)).
  - intros u. apply mmu_agree. intros k t Hk Ht. by apply He.
  - intros u k t k' u' Hu' Hk Hk' H1. rewrite Hn by done. intros H2.
    destruct (ch_new _ _ _ _ _ C k u t Hk H1) as [?|[_ Hz]]; [by apply (A12 u k t k' u')|]. by destruct (Hold k' u' t Hk' H2).
  - intros u k t k' u' Hu' Hk Hk'. rewrite Hn by done. intros H1 H2.
    destruct (ch_new _ _ _ _ _ C k' u' t Hk' H2) as [?|[_ Hz]]; [by apply (A21 u k t k' u')|]. by destruct (Hold k u t Hk H1).
Qed.

(** Memory without any entry is an empty address space. *)
Lemma empty_space m root : (∀ a, words m a = 0) → frame_ok root → 0 < refs (frames m) root → space m root.
Proof.
  intros Hw Hf Hr. assert (Hn : ∀ k v t, node m root k v = Some t → k = 0%nat ∧ t = root).
  { intros [|k] v t; simpl; [by intros [= <-]|]. destruct (node m root k v); simpl; [|done]. unfold entry. by rewrite Hw. }
  split.
  - by intros k v t _ [_ ->]%Hn.
  - intros k v t k' v' _ _ [-> ->]%Hn [-> _]%Hn. split; [done|apply pre_0].
  - intros k v t _ _ _. apply Hw.
  - intros v. unfold entry. by rewrite Hw.
  - intros a. rewrite Hw. lia.
Qed.
End next_level.

(** * Properties *)



(** [vmm_virt_to_phys_in] computes the translation the processor makes, for 4 KiB
    pages as for 2 MiB and 1 GiB pages, and zero where there is none. *)
Theorem vmm_virt_to_phys_correct {P} `{Frames P} root (m : Phys P) v :
  space m root → 0 <= v → vmm_virt_to_phys_in root v m = default 0 (mmu m root v).
Proof. apply vmm_virt_to_phys_spec. Qed.


(** ** Witnesses: two address spaces after a boot *)

Definition frames_after (p : Pmm) : Pmm := match pmm_alloc_frame p with Ok (_, p') => p' | _ => p end.
Definition sample_frames : Pmm := frames_after (frames_after sample_pmm).
Definition sample_phys : Phys Pmm := mkPhys sample_frames (λ _, 0).

Lemma frames_after_spec p f :
  pmm_ready p → match pmm_alloc_frame p with Ok (q, _) => q | _ => 0 end = f → f ≠ 0 →
  pmm_ready (frames_after p) ∧ ∀ g, frame_ok g → refs (frames_after p) g = if decide (g = f) then 1 else refs p g.
Proof.
  intros Hp E Hf. destruct (pmm_alloc_frame_law p Hp) as (q & p' & Ea & Hp' & Hc). unfold frames_after. rewrite Ea in E |- *.
  subst q. split; [done|]. by destruct Hc as [[-> _]|(_ & _ & ?)].
Qed.

Lemma sample_frames_spec : pmm_ready sample_frames ∧ refs sample_frames 0x2000 = 1 ∧ refs sample_frames 0x3000 = 1.
Proof.
  destruct (frames_after_spec sample_pmm 0x2000 sample_pmm_ready) as [R1 F1]; [vm_compute; reflexivity|done|].
  destruct (frames_after_spec (frames_after sample_pmm) 0x3000 R1) as [R2 F2]; [vm_compute; reflexivity|done|].
  split; [exact R2|]. unfold sample_frames. rewrite !F2 by (split; [lia|done]). rewrite decide_False, decide_True by done.
  rewrite F1 by (split; [lia|done]). by rewrite decide_True.
Qed.

#[local] Opaque sample_frames.

Lemma sample_space root : root = 0x2000 ∨ root = 0x3000 → space sample_phys root.
Proof.
  destruct sample_frames_spec as (_ & E1 & E2). intros Hroot. apply empty_space.
  - intros a. reflexivity.
  - destruct Hroot as [-> | ->]; (split; [lia|reflexivity]).
  - change (frames sample_phys) with sample_frames. destruct Hroot as [-> | ->]; [rewrite E1|rewrite E2]; lia.
Qed.

Lemma sample_apart r1 r2 : r1 ≠ r2 → apart sample_phys r1 r2.
Proof.
  intros Hne v k t k' v' _ _ _ H1 H2.
  assert (Hn : ∀ r j u x, node sample_phys r j u = Some x → x = r).
  { intros r [|j] u x; simpl; [by intros [= <-]|]. by destruct (node sample_phys r j u). }
  apply Hn in H1, H2. congruence.
Qed.

Lemma user_flags_bits n : 12 <= n < 52 → Z.testbit 7 n = false.
Proof. intros Hn. apply (testbit_ge 7 3); lia. Qed.



Lemma vmm_virt_to_phys_correct_witness : vmm_virt_to_phys_in 0x2000 0x400123 sample_phys = 0.
Proof.
  rewrite (vmm_virt_to_phys_correct 0x2000 sample_phys 0x400123); [reflexivity|apply sample_space; by left|lia].
Defined.

