(* ===== verification/Dma.v ===== *)
(** The allocator of kernel virtual ranges for DMA buffers and device registers
    (src/mm/vmm.cpp, [dma_alloc_virt_range] and [dma_free_virt_range]): a table of 64
    free ranges with merging, and a bump pointer behind it. *)

From S2P Require Import Prelude.

(** * Model *)

Record DMAVirtRange := mkRange { virt : Z; size : Z }.
Definition empty_range : DMAVirtRange := mkRange 0 0.

Definition MAX_DMA_FREE_RANGES : nat := 64.
Definition g_mmio_limit_virt : Z := 0xFFFFFF8000000000.
Definition MMIO_BASE : Z := 0xFFFFFE0000000000.
Definition MASSIVE_MAPPING_THRESHOLD : Z := 16 * 1024 * 1024 * 1024.

(** The free ranges and the first address never given out. *)
Record Dma := mkDma { g_dma_free_ranges : list DMAVirtRange; g_mmio_next_virt : Z }.

Fixpoint find_range (f : DMAVirtRange → bool) (rs : list DMAVirtRange) (i : nat) : option nat :=
  match rs with
  | [] => None
  | r :: rs' => if f r then Some i else find_range f rs' (S i)
  end.

Definition dma_alloc_virt_range (sz : Z) (d : Dma) : res (Z * Dma) :=
  let rs := g_dma_free_ranges d in
  match find_range (λ r, negb (size r <? sz)) rs 0 with
  | Some i =>
      match rs !! i with
      | None => Fault
      | Some r =>
          let r' := mkRange (u64 (virt r + sz)) (u64 (size r - sz)) in
          let r' := if size r' =? 0 then empty_range else r' in
          Ok (virt r, mkDma (<[i := r']> rs) (g_mmio_next_virt d))
      end
  | None =>
      if (sz =? 0) || (MASSIVE_MAPPING_THRESHOLD <? sz) then
        Panic "vmm: sanity check failed: massive/invalid dma allocation requested"
      else
        let next := g_mmio_next_virt d in
        if (g_mmio_limit_virt <? next) || (g_mmio_limit_virt - next <? sz) then
          Panic "vmm: mmio/dma virtual address space exhausted"
        else Ok (next, mkDma rs (u64 (next + sz)))
  end.

(** Ranges that meet. *)
Definition meets (r r' : DMAVirtRange) : bool := u64 (virt r + size r) =? virt r'.

(** Joining the new range to a neighbour, or else storing it in an empty slot. *)
Definition dma_insert (v sz : Z) (rs : list DMAVirtRange) : list DMAVirtRange :=
  let new := mkRange v sz in
  match find_range (λ r, negb (size r =? 0) && (meets r new || meets new r)) rs 0 with
  | Some i =>
      alter (λ r, if meets r new then mkRange (virt r) (u64 (size r + sz)) else mkRange v (u64 (size r + sz))) i rs
  | None =>
      match find_range (λ r, size r =? 0) rs 0 with
      | Some i => <[i := new]> rs
      | None => rs
      end
  end.

(** One step of the inner merging loop for range [i]; a merge starts it again. *)
Definition merge_step (i : nat) (st : nat * list DMAVirtRange) : res (nat * list DMAVirtRange + list DMAVirtRange) :=
  let '(j, rs) := st in
  if (j <? MAX_DMA_FREE_RANGES)%nat then
    match rs !! i, rs !! j with
    | Some a, Some b =>
        if size b =? 0 then Ok (inl (S j, rs))
        else if meets a b then
          Ok (inl (S i, <[j := empty_range]> (<[i := mkRange (virt a) (u64 (size a + size b))]> rs)))
        else if meets b a then
          Ok (inl (S i, <[j := empty_range]> (<[i := mkRange (virt b) (u64 (size a + size b))]> rs)))
        else Ok (inl (S j, rs))
    | _, _ => Fault
    end
  else Ok (inr rs).

Definition MERGE_FUEL : nat := 65 * 65.

Fixpoint merge_all (n i : nat) (rs : list DMAVirtRange) : res (list DMAVirtRange) :=
  match n with
  | O => Ok rs
  | S n' =>
      match rs !! i with
      | None => Fault
      | Some a =>
          rs' ← (if size a =? 0 then Ok rs else loop MERGE_FUEL (merge_step i) (S i, rs));
          merge_all n' (S i) rs'
      end
  end.

Definition dma_free_virt_range (v sz : Z) (d : Dma) : res Dma :=
  if (v =? 0) || (sz =? 0) then Ok d
  else
    rs ← merge_all MAX_DMA_FREE_RANGES 0 (dma_insert v sz (g_dma_free_ranges d));
    Ok (mkDma rs (g_mmio_next_virt d)).

(** * Specification *)

Definition covers (r : DMAVirtRange) (a : Z) : Prop := virt r <= a < virt r + size r.
Definition is_free (rs : list DMAVirtRange) (a : Z) : Prop := ∃ i r, rs !! i = Some r ∧ covers r a.

(** Every range lies between the base and [hi], and no two overlap. *)
Record ranges_ok (hi : Z) (rs : list DMAVirtRange) : Prop := {
  ro_len : length rs = MAX_DMA_FREE_RANGES;
  ro_in i r : rs !! i = Some r → size r = 0 ∨ (0 < size r ∧ MMIO_BASE <= virt r ∧ virt r + size r <= hi);
  ro_apart i j r r' a : rs !! i = Some r → rs !! j = Some r' → covers r a → covers r' a → i = j
}.

Record dma_inv (d : Dma) : Prop := {
  di_ranges : ranges_ok (g_mmio_next_virt d) (g_dma_free_ranges d);
  di_next : MMIO_BASE <= g_mmio_next_virt d <= g_mmio_limit_virt
}.

(** * Lemmas *)

Lemma find_range_Some f rs k i : find_range f rs k = Some i → ∃ j r, i = (k + j)%nat ∧ rs !! j = Some r ∧ f r = true.
Proof.
  revert k. induction rs as [|r rs IH]; intros k; simpl; [done|]. destruct (f r) eqn:Hf.
  - intros [= <-]. exists 0%nat, r. split; [lia|done].
  - intros (j & r' & -> & ? & ?)%IH. exists (S j), r'. split; [lia|done].
Qed.

Lemma find_range_None f rs k : find_range f rs k = None → ∀ i r, rs !! i = Some r → f r = false.
Proof.
  revert k. induction rs as [|r rs IH]; intros k; simpl; [done|]. destruct (f r) eqn:Hf; [done|].
  intros Hn [|i] r' Hi; simplify_eq/=; [done|by eapply IH].
Qed.

(** Replacing a range: what becomes of the free addresses. *)
Lemma is_free_insert rs i r a :
  (i < length rs)%nat → is_free (<[i := r]> rs) a ↔ covers r a ∨ ∃ j r', j ≠ i ∧ rs !! j = Some r' ∧ covers r' a.
Proof.
  intros Hi. split.
  - intros (j & r' & Hj & Hc). apply list_lookup_insert_Some in Hj as [(<- & <- & _)|[? ?]]; [by left|]. right. by exists j, r'.
  - intros [?|(j & r' & Hj & Hl & Hc)].
    + exists i, r. split; [by apply list_lookup_insert_eq|done].
    + exists j, r'. split; [by rewrite list_lookup_insert_ne|done].
Qed.

Lemma covers_empty a : ¬ covers empty_range a.
Proof. unfold covers. simpl. lia. Qed.

(** A range may shrink, or grow into addresses no other range covers. *)
Lemma ranges_ok_insert hi rs i r :
  ranges_ok hi rs → size r = 0 ∨ (0 < size r ∧ MMIO_BASE <= virt r ∧ virt r + size r <= hi) →
  (∀ j r' a, j ≠ i → rs !! j = Some r' → covers r' a → ¬ covers r a) → ranges_ok hi (<[i := r]> rs).
Proof.
  intros [H1 H2 H3] Hr Ha. split.
  - by rewrite length_insert.
  - intros j r' Hj. apply list_lookup_insert_Some in Hj as [(<- & <- & _)|[? ?]]; eauto.
  - intros j k r1 r2 a Hj Hk C1 C2.
    apply list_lookup_insert_Some in Hj as [(<- & <- & _)|[? Hj]]; apply list_lookup_insert_Some in Hk as [(<- & <- & _)|[? Hk]]; try done.
    + exfalso. by eapply (Ha k r2).
    + exfalso. by eapply (Ha j r1).
    + eauto.
Qed.

Lemma ranges_ok_mono hi hi' rs : hi <= hi' → ranges_ok hi rs → ranges_ok hi' rs.
Proof. intros Hh [H1 H2 H3]. split; [done| |done]. intros i r Hi. destruct (H2 i r Hi) as [?|?]; [by left|right; lia]. Qed.

(** Addresses that have been given out and not returned. *)
Definition owned (d : Dma) (a : Z) : Prop := MMIO_BASE <= a < g_mmio_next_virt d ∧ ¬ is_free (g_dma_free_ranges d) a.

Lemma dma_alloc_spec d sz :
  dma_inv d → 0 < sz →
  (∃ msg, dma_alloc_virt_range sz d = Panic msg ∧
     (MASSIVE_MAPPING_THRESHOLD < sz ∨ g_mmio_limit_virt - g_mmio_next_virt d < sz) ∧
     ∀ i r, g_dma_free_ranges d !! i = Some r → size r < sz) ∨
  ∃ v d', dma_alloc_virt_range sz d = Ok (v, d') ∧ dma_inv d' ∧ MMIO_BASE <= v ∧ v + sz <= g_mmio_limit_virt ∧
    g_mmio_next_virt d' <= g_mmio_next_virt d + sz ∧
    (∀ a, v <= a < v + sz → ¬ owned d a) ∧ (∀ a, owned d' a ↔ owned d a ∨ v <= a < v + sz).
Proof.
  intros [Hr Hn] Hs. unfold dma_alloc_virt_range. cbv zeta. unfold owned.
  destruct (find_range _ _ _) as [i|] eqn:Ef.
  - right. destruct (find_range_Some _ _ _ _ Ef) as (j & r & -> & Hj & Hsz). simpl. rewrite Hj. pose proof Hr as [Hl Hin Hap].
    assert (Hge : sz <= size r) by (destruct (Z.ltb_spec (size r) sz); [done|lia]).
    destruct (Hin j r Hj) as [?|(_ & Hlo & Hhi)]; [lia|]. unfold MMIO_BASE, g_mmio_limit_virt in *.
    rewrite !u64_small by lia. cbn [size].
    set (r' := if size r - sz =? 0 then empty_range else mkRange (virt r + sz) (size r - sz)).
    assert (Hr' : ∀ a, covers r' a ↔ virt r + sz <= a < virt r + size r).
    { intros a. unfold r'. destruct (Z.eqb_spec (size r - sz) 0); unfold covers; simpl; lia. }
    assert (Hfree : ∀ a, is_free (<[j:=r']> (g_dma_free_ranges d)) a ↔ is_free (g_dma_free_ranges d) a ∧ ¬ (virt r <= a < virt r + sz)).
    { intros a. rewrite is_free_insert by (by eapply lookup_lt_Some). rewrite Hr'. split.
      - intros [?|(k & r2 & Hk & Hl2 & Hc)]; (split; [|]).
        + exists j, r. split; [done|]. unfold covers. lia.
        + lia.
        + by exists k, r2.
        + intros Hin'. apply Hk. apply (Hap k j r2 r a); [done|done|done|unfold covers; lia].
      - intros [(k & r2 & Hl2 & Hc) Hout]. destruct (decide (k = j)) as [->|]; [|right; by exists k, r2].
        simplify_eq. left. unfold covers in Hc. lia. }
    eexists _, _. split; [done|]. split; [split; cbn [g_dma_free_ranges g_mmio_next_virt]; [|unfold MMIO_BASE, g_mmio_limit_virt; lia]|].
    { apply ranges_ok_insert; [done| |].
      - unfold r'. destruct (Z.eqb_spec (size r - sz) 0); simpl; [by left|right; unfold MMIO_BASE; lia].
      - intros k r2 a Hk Hl2 Hc Hc'%Hr'. apply Hk. apply (Hap k j r2 r a); [done|done|done|unfold covers; lia]. }
    cbn [g_dma_free_ranges g_mmio_next_virt]. split; [lia|]. split; [lia|]. split; [lia|].
    assert (Hown : ∀ a, virt r <= a < virt r + sz → is_free (g_dma_free_ranges d) a).
    { intros a Ha. exists j, r. split; [done|]. unfold covers. lia. }
    split.
    + intros a Ha [_ Hnf]. apply Hnf. by apply Hown.
    + intros a. rewrite Hfree. split.
      * intros [Ha Hnf]. destruct (decide (virt r <= a < virt r + sz)); [by right|left]. split; [done|]. intros Hf. by apply Hnf.
      * intros [[Ha Hnf]|Ha]; (split; [|]); [done|by intros [? _]|lia|by intros [_ ?]].
  - destruct (Z.eqb_spec sz 0); [lia|]. cbn [orb].
    assert (Hsmall : ∀ i r, g_dma_free_ranges d !! i = Some r → size r < sz).
    { intros i r Hi. pose proof (find_range_None _ _ _ Ef i r Hi) as Hf%negb_false_iff. lia. }
    destruct (Z.ltb_spec MASSIVE_MAPPING_THRESHOLD sz); [left; eauto|].
    destruct (Z.ltb_spec g_mmio_limit_virt (g_mmio_next_virt d)); [lia|]. cbn [orb].
    destruct (Z.ltb_spec (g_mmio_limit_virt - g_mmio_next_virt d) sz); [left; eauto|]. right.
    unfold MMIO_BASE, g_mmio_limit_virt in *. rewrite u64_small by lia.
    assert (Hbelow : ∀ a, is_free (g_dma_free_ranges d) a → a < g_mmio_next_virt d).
    { intros a (i & r & Hi & Hc). destruct (ro_in _ _ Hr i r Hi) as [?|?]; unfold covers in Hc; lia. }
    eexists _, _. split; [done|]. cbn [g_dma_free_ranges g_mmio_next_virt]. split.
    { split; cbn [g_dma_free_ranges g_mmio_next_virt]; [by eapply ranges_ok_mono; [|exact Hr]; lia|unfold MMIO_BASE, g_mmio_limit_virt; lia]. }
    split; [lia|]. split; [lia|]. split; [lia|]. split; [intros a Ha [Ha' _]; lia|]. intros a. split.
    + intros [Ha Hnf]. destruct (decide (a < g_mmio_next_virt d)); [left; split; [lia|done]|right; lia].
    + intros [[Ha Hnf]|Ha]; (split; [lia|]); [done|]. intros Hf%Hbelow. lia.
Qed.

(** ** Returning a range *)

Section free.
Variable hi : Z.
Hypothesis Hhi : hi <= g_mmio_limit_virt.

Lemma meets_spec rs i j r r' :
  ranges_ok hi rs → rs !! i = Some r → rs !! j = Some r' → size r ≠ 0 → meets r r' = true ↔ virt r + size r = virt r'.
Proof.
  intros Hr Hi Hj Hs. destruct (ro_in _ _ Hr i r Hi) as [?|?]; [done|]. unfold meets.
  unfold MMIO_BASE, g_mmio_limit_virt in *. rewrite u64_small by lia. lia.
Qed.

(** Two ranges that meet can be replaced by their union. *)
Lemma join_ranges rs i j a b x :
  ranges_ok hi rs → i ≠ j → rs !! i = Some a → rs !! j = Some b → size a ≠ 0 → size b ≠ 0 →
  (∀ y, covers x y ↔ covers a y ∨ covers b y) → 0 < size x →
  let rs' := <[j := empty_range]> (<[i := x]> rs) in ranges_ok hi rs' ∧ ∀ y, is_free rs' y ↔ is_free rs y.
Proof.
  intros Hr Hij Hi Hj Ha Hb Hx Hsx rs'. pose proof Hr as [Hl Hin Hap].
  assert (Hr1 : ranges_ok hi (<[j := empty_range]> rs)).
  { apply ranges_ok_insert; [done|by left|]. intros k r y _ _ _ Hc. by eapply covers_empty. }
  assert (Hlt : (j < length (<[i := x]> rs))%nat) by (rewrite length_insert; by eapply lookup_lt_Some).
  assert (Elook : ∀ k r, k ≠ i → <[j := empty_range]> rs !! k = Some r → r = empty_range ∨ (k ≠ j ∧ rs !! k = Some r)).
  { intros k r Hk Hlk. apply list_lookup_insert_Some in Hlk as [(<- & <- & _)|[? ?]]; auto. }
  assert (E : rs' = <[i := x]> (<[j := empty_range]> rs)) by (unfold rs'; by rewrite list_insert_insert_ne). rewrite E. clear rs' E.
  assert (Hends : size x = 0 ∨ 0 < size x ∧ MMIO_BASE <= virt x ∧ virt x + size x <= hi).
  { right. split; [done|]. destruct (Hin i a Hi) as [?|(? & ? & ?)]; [done|]. destruct (Hin j b Hj) as [?|(? & ? & ?)]; [done|].
    assert (HL : covers x (virt x)) by (unfold covers; lia). assert (HR : covers x (virt x + size x - 1)) by (unfold covers; lia).
    apply Hx in HL, HR. unfold covers in HL, HR. lia. }
  split.
  - apply ranges_ok_insert; [done|done|]. intros k r y Hk Hlk Hc Hcx. destruct (Elook k r Hk Hlk) as [->|[Hkj Hlk']]; [by eapply covers_empty|].
    apply Hx in Hcx as [Hca|Hcb]; [apply Hk; by eapply Hap|apply Hkj; by eapply Hap].
  - intros y. rewrite is_free_insert by (rewrite length_insert; by eapply lookup_lt_Some). rewrite Hx. split.
    + intros [[?|?]|(k & r & Hk & Hlk & Hc)]; [by exists i, a|by exists j, b|].
      destruct (Elook k r Hk Hlk) as [->|[_ ?]]; [by apply covers_empty in Hc|by exists k, r].
    + intros (k & r & Hlk & Hc). destruct (decide (k = i)) as [->|]; [simplify_eq; by left; left|].
      destruct (decide (k = j)) as [->|]; [simplify_eq; by left; right|]. right. exists k, r. split; [done|].
      split; [by rewrite list_lookup_insert_ne|done].
Qed.

(** The number of ranges in use bounds the merges. *)
Definition in_use (rs : list DMAVirtRange) : nat := length (filter (λ r, size r ≠ 0) rs).

Lemma in_use_insert rs i r x :
  rs !! i = Some r →
  (in_use (<[i := x]> rs) + (if decide (size r ≠ 0%Z) then 1 else 0) = in_use rs + (if decide (size x ≠ 0%Z) then 1 else 0))%nat.
Proof.
  revert i. unfold in_use. induction rs as [|r0 rs IH]; intros [|i] Hi; simplify_eq/=.
  - rewrite !filter_cons. repeat case_decide; simpl; lia.
  - rewrite !filter_cons. specialize (IH i Hi). repeat case_decide; simpl; lia.
Qed.

Lemma in_use_le rs : (in_use rs <= length rs)%nat.
Proof. unfold in_use. apply length_filter. Qed.

Lemma in_use_join rs i j a b x :
  i ≠ j → rs !! i = Some a → rs !! j = Some b → size a ≠ 0 → size b ≠ 0 → size x ≠ 0 →
  (in_use (<[j := empty_range]> (<[i := x]> rs)) < in_use rs)%nat.
Proof.
  intros Hij Hi Hj Ha Hb Hx. pose proof (in_use_insert rs i a x Hi) as E1.
  pose proof (in_use_insert (<[i := x]> rs) j b empty_range) as E2. rewrite list_lookup_insert_ne in E2 by done.
  specialize (E2 Hj). rewrite !decide_True in E1 by done. rewrite decide_True, decide_False in E2 by (done || (simpl; lia)). lia.
Qed.

(** The merging loop ends, keeps the ranges apart and frees nothing new. *)
Lemma merge_loop_spec i rs a0 :
  ranges_ok hi rs → rs !! i = Some a0 → size a0 ≠ 0 →
  ∃ rs', loop MERGE_FUEL (merge_step i) (S i, rs) = Ok rs' ∧ ranges_ok hi rs' ∧ ∀ y, is_free rs' y ↔ is_free rs y.
Proof.
  intros Hr Hi Ha.
  apply (loop_rule (λ st, (i < st.1)%nat ∧ ranges_ok hi st.2 ∧ (∀ y, is_free st.2 y ↔ is_free rs y) ∧
                     ∃ a, st.2 !! i = Some a ∧ size a ≠ 0)
                   (λ rs', ranges_ok hi rs' ∧ ∀ y, is_free rs' y ↔ is_free rs y)
                   (λ st, in_use st.2 * 65 + (64 - st.1))%nat).
  - intros [j rs1] (Hj & Hr1 & Hf1 & a & Ha1 & Hsa). simpl in *. unfold merge_step.
    destruct (Nat.ltb_spec j MAX_DMA_FREE_RANGES) as [Hlt|]; [|by eexists].
    destruct (lookup_lt_is_Some_2 rs1 j) as [b Hb]; [by rewrite (ro_len _ _ Hr1)|]. rewrite Ha1, Hb.
    unfold MAX_DMA_FREE_RANGES in *. destruct (Z.eqb_spec (size b) 0) as [|Hsb].
    { eexists. split; [done|]. simpl. split; [|lia]. split; [lia|]. split; [done|]. split; [done|]. eauto. }
    destruct (ro_in _ _ Hr1 i a Ha1) as [?|(Ha1' & Ha2' & Ha3')]; [done|]. destruct (ro_in _ _ Hr1 j b Hb) as [?|(Hb1' & Hb2' & Hb3')]; [done|].
    assert (Hjoin : ∀ x, (∀ y, covers x y ↔ covers a y ∨ covers b y) → 0 < size x →
      ∃ o, Ok (inl (S i, <[j:=empty_range]> (<[i:=x]> rs1))) = Ok (o : _ + list DMAVirtRange) ∧
        match o with
        | inl s' => ((i < s'.1)%nat ∧ ranges_ok hi s'.2 ∧ (∀ y, is_free s'.2 y ↔ is_free rs y) ∧ ∃ a, s'.2 !! i = Some a ∧ size a ≠ 0) ∧
            (in_use s'.2 * 65 + (64 - s'.1) < in_use rs1 * 65 + (64 - j))%nat
        | inr r => ranges_ok hi r ∧ ∀ y, is_free r y ↔ is_free rs y
        end).
    { intros x Hx Hsx. eexists. split; [done|]. simpl. assert (Hij : i ≠ j) by lia.
      destruct (join_ranges rs1 i j a b x Hr1 Hij Ha1 Hb Hsa Hsb Hx Hsx) as [Hok Hfr].
      pose proof (in_use_join rs1 i j a b x Hij Ha1 Hb Hsa Hsb ltac:(lia)). split; [|lia]. split; [lia|]. split; [done|].
      split; [intros y; by rewrite Hfr|]. exists x. split; [|lia]. rewrite list_lookup_insert_ne by done.
      apply list_lookup_insert_eq. by eapply lookup_lt_Some. }
    unfold MMIO_BASE, g_mmio_limit_virt in *.
    destruct (meets a b) eqn:M1.
    { apply (meets_spec rs1 i j) in M1; [|done..]. apply Hjoin; rewrite u64_small by lia; [|simpl; lia]. intros y. unfold covers. simpl. lia. }
    destruct (meets b a) eqn:M2.
    { apply (meets_spec rs1 j i) in M2; [|done..]. apply Hjoin; rewrite u64_small by lia; [|simpl; lia]. intros y. unfold covers. simpl. lia. }
    eexists. split; [done|]. simpl. split; [|lia]. split; [lia|]. split; [done|]. split; [done|]. eauto.
  - simpl. split; [lia|]. split; [done|]. split; [done|]. eauto.
  - simpl. pose proof (in_use_le rs). rewrite (ro_len _ _ Hr) in *. unfold MAX_DMA_FREE_RANGES, MERGE_FUEL in *. lia.
Qed.

Lemma merge_all_spec n : ∀ i rs,
  (i + n = MAX_DMA_FREE_RANGES)%nat → ranges_ok hi rs →
  ∃ rs', merge_all n i rs = Ok rs' ∧ ranges_ok hi rs' ∧ ∀ y, is_free rs' y ↔ is_free rs y.
Proof.
  induction n as [|n IH]; intros i rs Hi Hr; cbn [merge_all]; [by exists rs|].
  destruct (lookup_lt_is_Some_2 rs i) as [a Ha]; [rewrite (ro_len _ _ Hr); lia|]. rewrite Ha.
  assert (∃ rs1, (if size a =? 0 then Ok rs else loop MERGE_FUEL (merge_step i) (S i, rs)) = Ok rs1 ∧ ranges_ok hi rs1 ∧
            ∀ y, is_free rs1 y ↔ is_free rs y) as (rs1 & E & Hr1 & Hf1).
  { destruct (Z.eqb_spec (size a) 0); [by exists rs|]. by apply (merge_loop_spec i rs a). }
  step_with E. destruct (IH (S i) rs1) as (rs2 & E2 & Hr2 & Hf2); [lia|done|]. exists rs2. split; [done|]. split; [done|].
  intros y. by rewrite Hf2.
Qed.

(** A slot may grow by addresses that are not free. *)
Lemma grow_range rs i r x v sz :
  ranges_ok hi rs → rs !! i = Some r → MMIO_BASE <= v → 0 < sz → v + sz <= hi → (∀ a, v <= a < v + sz → ¬ is_free rs a) →
  0 < size x → (∀ a, covers x a ↔ covers r a ∨ v <= a < v + sz) →
  ranges_ok hi (<[i := x]> rs) ∧ ∀ a, is_free (<[i := x]> rs) a ↔ is_free rs a ∨ v <= a < v + sz.
Proof.
  intros Hr Hi Hv Hs Hvs Hnf Hsx Hx. pose proof Hr as [Hl Hin Hap]. split.
  - apply ranges_ok_insert; [done| |].
    + right. split; [done|]. assert (HL : covers x (virt x)) by (unfold covers; lia).
      assert (HR : covers x (virt x + size x - 1)) by (unfold covers; lia). apply Hx in HL, HR. unfold covers in HL, HR.
      destruct (Hin i r Hi) as [?|(? & ? & ?)]; lia.
    + intros j r' a Hj Hlj Hc Hcx. apply Hx in Hcx as [Hcr|Ha]; [apply Hj; by eapply Hap|]. apply (Hnf a Ha). by exists j, r'.
  - intros a. rewrite is_free_insert by (by eapply lookup_lt_Some). rewrite Hx. split.
    + intros [[?|?]|(j & r' & _ & ? & ?)]; [left; by exists i, r|by right|left; by exists j, r'].
    + intros [(j & r' & Hlj & Hc)|?]; [|by left; right]. destruct (decide (j = i)) as [->|]; [simplify_eq; by left; left|].
      right. by exists j, r'.
Qed.

Lemma alter_lookup (f : DMAVirtRange → DMAVirtRange) (i : nat) (rs : list DMAVirtRange) r : rs !! i = Some r → alter f i rs = <[i := f r]> rs.
Proof. revert i. induction rs as [|r0 rs IH]; intros [|i] Hi; simplify_eq/=; [done|]. f_equal. by apply IH. Qed.

Lemma dma_insert_spec rs v sz :
  ranges_ok hi rs → MMIO_BASE <= v → 0 < sz → v + sz <= hi → (∀ a, v <= a < v + sz → ¬ is_free rs a) →
  ranges_ok hi (dma_insert v sz rs) ∧
  ((∀ a, is_free (dma_insert v sz rs) a ↔ is_free rs a ∨ v <= a < v + sz) ∨
   (dma_insert v sz rs = rs ∧ ∀ i r, rs !! i = Some r → size r ≠ 0)).
Proof.
  intros Hr Hv Hs Hvs Hnf. unfold dma_insert. cbv zeta. destruct (find_range _ _ _) as [i|] eqn:Ef.
  - destruct (find_range_Some _ _ _ _ Ef) as (j & r & -> & Hj & [Hsr%negb_true_iff Hm]%andb_true_iff). simpl.
    rewrite (alter_lookup _ j rs r Hj). destruct (ro_in _ _ Hr j r Hj) as [?|(Hr1 & Hr2 & Hr3)]; [lia|].
    unfold MMIO_BASE, g_mmio_limit_virt in *.
    destruct (grow_range rs j r (if meets r (mkRange v sz) then mkRange (virt r) (u64 (size r + sz)) else mkRange v (u64 (size r + sz))) v sz)
      as [? ?]; [done..| | |by split; [|left]].
    + rewrite u64_small by lia. destruct (meets _ _); simpl; lia.
    + unfold meets in *. simpl in *. rewrite !u64_small in * by lia. intros a. unfold covers.
      destruct (Z.eqb_spec (virt r + size r) v); simpl; [lia|]. destruct (Z.eqb_spec (v + sz) (virt r)); [simpl; lia|done].
  - destruct (find_range (λ r, size r =? 0) rs 0) as [i|] eqn:Ez.
    + destruct (find_range_Some _ _ _ _ Ez) as (j & r & -> & Hj & Hsr). simpl.
      destruct (grow_range rs j r (mkRange v sz) v sz) as [? ?]; [done..| |by split; [|left]].
      intros a. unfold covers. simpl. lia.
    + split; [done|]. right. split; [done|]. intros i r Hi. pose proof (find_range_None _ _ _ Ez i r Hi). simpl in *. lia.
Qed.
End free.

Lemma dma_free_spec d v sz :
  dma_inv d → 0 < sz → (∀ a, v <= a < v + sz → owned d a) →
  ∃ d', dma_free_virt_range v sz d = Ok d' ∧ dma_inv d' ∧ g_mmio_next_virt d' = g_mmio_next_virt d ∧
    ((∀ a, owned d' a ↔ owned d a ∧ ¬ (v <= a < v + sz)) ∨
     ((∀ a, owned d' a ↔ owned d a) ∧ ∀ i r, g_dma_free_ranges d !! i = Some r → size r ≠ 0)).
Proof.
  intros [Hr Hn] Hs Hown. unfold dma_free_virt_range.
  destruct (Hown v) as [Hv _]; [lia|]. destruct (Hown (v + sz - 1)) as [Hvs _]; [lia|]. destruct Hn as [Hn1 Hn2].
  assert (v ≠ 0) by (unfold MMIO_BASE in *; lia). destruct (Z.eqb_spec v 0); [done|]. destruct (Z.eqb_spec sz 0); [lia|]. cbn [orb].
  destruct (dma_insert_spec (g_mmio_next_virt d) Hn2 (g_dma_free_ranges d) v sz) as [Hr1 Hf1]; [done|lia|lia|lia|by intros a Ha; apply Hown|].
  destruct (merge_all_spec (g_mmio_next_virt d) Hn2 MAX_DMA_FREE_RANGES 0 (dma_insert v sz (g_dma_free_ranges d))) as (rs & E & Hr2 & Hf2);
    [done|done|]. step_with E. eexists. split; [done|]. split; [by split|]. split; [done|]. unfold owned.
  cbn [g_dma_free_ranges g_mmio_next_virt]. destruct Hf1 as [Hf1|[Hf1 Hfull]].
  - left. intros a. rewrite Hf2, Hf1. tauto.
  - right. split; [|done]. intros a. by rewrite Hf2, Hf1.
Qed.

(** ** Page alignment *)

Definition ranges_aligned (rs : list DMAVirtRange) : Prop :=
  ∀ i r, rs !! i = Some r → virt r mod 4096 = 0 ∧ size r mod 4096 = 0.
Definition dma_aligned (d : Dma) : Prop := g_mmio_next_virt d mod 4096 = 0 ∧ ranges_aligned (g_dma_free_ranges d).

Lemma u64_aligned x : x mod 4096 = 0 → u64 x mod 4096 = 0.
Proof. unfold u64. lia. Qed.

Lemma aligned_insert rs i v sz :
  ranges_aligned rs → v mod 4096 = 0 → sz mod 4096 = 0 → ranges_aligned (<[i := mkRange v sz]> rs).
Proof. intros Ha Hv Hs j r Hj. apply list_lookup_insert_Some in Hj as [(<- & <- & _)|[_ Hj]]; [done|by eapply Ha]. Qed.

Lemma dma_alloc_aligned d sz v d' :
  dma_aligned d → sz mod 4096 = 0 → dma_alloc_virt_range sz d = Ok (v, d') → v mod 4096 = 0 ∧ dma_aligned d'.
Proof.
  intros [Hn Ha] Hs. unfold dma_alloc_virt_range. cbv zeta. destruct (find_range _ _ _) as [i|].
  - destruct (g_dma_free_ranges d !! i) as [r|] eqn:Hi; [|done]. destruct (Ha i r Hi) as [Hv Hz]. intros [= <- <-].
    split; [done|]. split; [done|]. simpl. case_match; apply aligned_insert; try done; apply u64_aligned; lia.
  - repeat case_match; try done. intros [= <- <-]. split; [done|]. split; [|done]. simpl. apply u64_aligned. lia.
Qed.

Lemma merge_aligned n : ∀ i rs rs', ranges_aligned rs → merge_all n i rs = Ok rs' → ranges_aligned rs'.
Proof.
  induction n as [|n IH]; intros i rs rs' Ha; cbn [merge_all]; [by intros [= <-]|].
  destruct (rs !! i) as [a|] eqn:Hi; [|done].
  destruct (if size a =? 0 then Ok rs else loop MERGE_FUEL (merge_step i) (S i, rs)) as [rs1| |] eqn:E; try done.
  apply IH. case_match; [by simplify_eq|].
  apply (loop_partial (λ st, ranges_aligned st.2) ranges_aligned) in E; [done| |done].
  intros [j rs2] o Ha2. unfold merge_step. simpl in Ha2. repeat case_match; try done; intros [= <-]; try done; simpl;
    apply aligned_insert; try done; apply aligned_insert; try done;
    repeat match goal with E : rs2 !! ?k = Some ?r |- _ => destruct (Ha2 k r E); clear E end; try done; apply u64_aligned; lia.
Qed.

Lemma dma_free_aligned d v sz d' :
  dma_aligned d → v mod 4096 = 0 → sz mod 4096 = 0 → dma_free_virt_range v sz d = Ok d' → dma_aligned d'.
Proof.
  intros [Hn Ha] Hv Hs. unfold dma_free_virt_range. case_match; [by intros [= <-]|].
  assert (Hi : ranges_aligned (dma_insert v sz (g_dma_free_ranges d))).
  { unfold dma_insert. cbv zeta. destruct (find_range _ _ 0) as [i|].
    - destruct (g_dma_free_ranges d !! i) as [r|] eqn:Hi.
      + rewrite (alter_lookup _ i _ r Hi). destruct (Ha i r Hi). case_match; apply aligned_insert; try done; apply u64_aligned; lia.
      + intros j r Hj. destruct (decide (j = i)) as [->|]; [by rewrite list_lookup_alter_eq, Hi in Hj|].
        rewrite list_lookup_alter_ne in Hj by done. by eapply Ha.
    - case_match; [by apply aligned_insert|done]. }
  destruct (merge_all _ _ _) as [rs| |] eqn:E; try done. intros [= <-]. split; [done|]. by eapply merge_aligned.
Qed.

(** ** Drivers that allocate and return ranges *)

Inductive dma_op :=
  | DAlloc (sz : Z)     (* ask for a range *)
  | DFree (k : nat).    (* return the [k]-th range held *)

Definition op_size (o : dma_op) : Z := match o with DAlloc sz => sz | DFree _ => 0 end.
Definition total_size (ops : list dma_op) : Z := foldr (λ o n, op_size o + n) 0 ops.

Definition dma_boot : Dma := mkDma (replicate MAX_DMA_FREE_RANGES empty_range) MMIO_BASE.

Fixpoint dma_run (ops : list dma_op) (held : list DMAVirtRange) (d : Dma) : res (list DMAVirtRange * Dma) :=
  match ops with
  | [] => Ok (held, d)
  | DAlloc sz :: ops' => '(v, d') ← dma_alloc_virt_range sz d; dma_run ops' (held ++ [mkRange v sz]) d'
  | DFree k :: ops' =>
      match held !! k with
      | None => dma_run ops' held d
      | Some r => d' ← dma_free_virt_range (virt r) (size r) d; dma_run ops' (delete k held) d'
      end
  end.

(** The ranges a driver holds are its own. *)
Record holds (held : list DMAVirtRange) (d : Dma) : Prop := {
  ho_inv : dma_inv d;
  ho_size k r : held !! k = Some r → 0 < size r;
  ho_owned k r a : held !! k = Some r → covers r a → owned d a;
  ho_apart j k r r' a : held !! j = Some r → held !! k = Some r' → covers r a → covers r' a → j = k
}.

Lemma dma_boot_inv : dma_inv dma_boot.
Proof.
  split; [|unfold MMIO_BASE, g_mmio_limit_virt; simpl; unfold MMIO_BASE; lia]. split; [done| |].
  - intros i r [-> _]%lookup_replicate. by left.
  - intros i j r r' a [-> _]%lookup_replicate _ Hc. by apply covers_empty in Hc.
Qed.

Lemma holds_alloc held d v sz d' :
  holds held d → dma_inv d' → 0 < sz → (∀ a, v <= a < v + sz → ¬ owned d a) →
  (∀ a, owned d' a ↔ owned d a ∨ v <= a < v + sz) → holds (held ++ [mkRange v sz]) d'.
Proof.
  intros [Hi Hsz Ho Ha] Hi' Hs Hnew Hown. assert (Hnow : ∀ k r, (held ++ [mkRange v sz]) !! k = Some r →
    held !! k = Some r ∨ (k = length held ∧ r = mkRange v sz)).
  { intros k r [?|[Hk Hl]]%lookup_app_Some; [by left|right]. apply list_lookup_singleton_Some in Hl as [? <-]. split; [lia|done]. }
  split; [done| | |].
  - intros k r [?|[_ ->]]%Hnow; [eauto|done].
  - intros k r a [?|[_ ->]]%Hnow Hc; apply Hown; [left; eauto|by right].
  - intros j k r r' a [Hj|[-> ->]]%Hnow [Hk|[-> ->]]%Hnow Hc Hc'; [eauto| | |done]; exfalso; eapply Hnew; eauto.
Qed.

Lemma holds_free held d k r d' :
  holds held d → held !! k = Some r → dma_inv d' →
  (∀ a, owned d a → ¬ covers r a → owned d' a) → holds (delete k held) d'.
Proof.
  intros [Hi Hsz Ho Ha] Hk Hi' Hown.
  assert (Hdel : ∀ j x, delete k held !! j = Some x → ∃ j', j' ≠ k ∧ held !! j' = Some x ∧ (j = if decide (j' < k)%nat then j' else pred j')).
  { intros j x Hj. destruct (decide (j < k)%nat).
    - rewrite list_lookup_delete_lt in Hj by done. exists j. split; [lia|]. split; [done|]. by rewrite decide_True.
    - rewrite list_lookup_delete_ge in Hj by lia. exists (S j). split; [lia|]. split; [done|]. rewrite decide_False by lia. done. }
  split; [done| | |].
  - intros j x (j' & _ & ? & _)%Hdel. eauto.
  - intros j x a (j' & Hne & Hj & _)%Hdel Hc. apply Hown; [eauto|]. intros Hc'. apply Hne. eauto.
  - intros i j x y a (i' & Hni & Hi0 & ->)%Hdel (j' & Hnj & Hj & ->)%Hdel Hc Hc'. by rewrite (Ha i' j' x y a).
Qed.

Lemma dma_run_spec ops : ∀ held d,
  holds held d → Forall (λ o, match o with DAlloc sz => 0 < sz <= MASSIVE_MAPPING_THRESHOLD | DFree _ => True end) ops →
  g_mmio_next_virt d + total_size ops <= g_mmio_limit_virt →
  ∃ held' d', dma_run ops held d = Ok (held', d') ∧ holds held' d'.
Proof.
  induction ops as [|[sz|k] ops IH]; intros held d Hh Hops Htot; cbn [dma_run]; [by exists held, d|..].
  all: inversion Hops as [|? ? Hop Hops']; subst; cbn [total_size foldr op_size] in Htot; fold (total_size ops) in Htot.
  - assert (Hnn : 0 <= total_size ops).
    { clear -Hops'. induction Hops' as [|[?|?] ops Ho _ IHo]; simpl; lia. }
    destruct (dma_alloc_spec d sz) as [(msg & _ & Hbad & _)|(v & d' & E & Hi & _ & _ & Hnext & Hnew & Hown)]; [apply Hh|lia|lia|].
    step_with E. apply IH; [|done|lia]. by eapply holds_alloc; [| |lia| |].
  - destruct (held !! k) as [r|] eqn:Hk; [|by apply IH]. pose proof (ho_size _ _ Hh k r Hk) as Hs.
    destruct (dma_free_spec d (virt r) (size r)) as (d' & E & Hi & Hnext & Hown); [apply Hh|done| |].
    { intros a Ha. by eapply (ho_owned _ _ Hh k r a). }
    step_with E. apply IH; [|done|lia]. eapply holds_free; [done|done|done|]. intros a Ho Hc. destruct Hown as [Hown|[Hown _]]; [by apply Hown|by apply Hown].
Qed.

(** As long as the requests add up to no more than the window, drivers that allocate
    virtual ranges and return them in any order always get a range, no two ranges held at
    the same time overlap, and every range lies inside the device window. *)
Theorem dma_ranges_exclusive ops :
  Forall (λ o, match o with DAlloc sz => 0 < sz <= MASSIVE_MAPPING_THRESHOLD | DFree _ => True end) ops →
  total_size ops <= g_mmio_limit_virt - MMIO_BASE →
  ∃ held d, dma_run ops [] dma_boot = Ok (held, d) ∧
    (∀ j k r r' a, held !! j = Some r → held !! k = Some r' → covers r a → covers r' a → j = k) ∧
    (∀ k r, held !! k = Some r → MMIO_BASE <= virt r ∧ virt r + size r <= g_mmio_limit_virt).
Proof.
  intros Hops Htot. destruct (dma_run_spec ops [] dma_boot) as (held & d & E & Hh).
  - split; [apply dma_boot_inv|done..].
  - done.
  - change (g_mmio_next_virt dma_boot) with MMIO_BASE. lia.
  - exists held, d. split; [done|]. split; [apply Hh|]. intros k r Hk. pose proof (ho_size _ _ Hh k r Hk).
    destruct (ho_owned _ _ Hh k r (virt r) Hk) as [? _]; [unfold covers; lia|].
    destruct (ho_owned _ _ Hh k r (virt r + size r - 1) Hk) as [? _]; [unfold covers; lia|]. pose proof (di_next _ (ho_inv _ _ Hh)). lia.
Qed.

Lemma dma_ranges_exclusive_witness :
  let ops := [DAlloc 0x1000; DAlloc 0x2000; DAlloc 0x1000; DFree 0; DFree 0; DAlloc 0x3000] in
  total_size ops <= g_mmio_limit_virt - MMIO_BASE ∧
  (∃ d, dma_run ops [] dma_boot = Ok ([mkRange (MMIO_BASE + 0x3000) 0x1000; mkRange MMIO_BASE 0x3000], d)) ∧
  ∃ held d, dma_run ops [] dma_boot = Ok (held, d) ∧
    (∀ j k r r' a, held !! j = Some r → held !! k = Some r' → covers r a → covers r' a → j = k) ∧
    (∀ k r, held !! k = Some r → MMIO_BASE <= virt r ∧ virt r + size r <= g_mmio_limit_virt).
Proof.
  intros ops. split; [vm_compute; discriminate|]. split; [eexists; vm_compute; reflexivity|].
  apply (dma_ranges_exclusive ops); [|vm_compute; discriminate].
  repeat (apply Forall_cons; split; [vm_compute; (exact I || (split; [reflexivity|discriminate]))|]). apply Forall_nil_2.
Defined.
