(* ===== verification/Tlb.v ===== *)
(** TLB shootdown (src/mm/vmm.cpp): [vmm_invalidate_tlb_range] and the interrupt handler
    [tlb_shootdown_handler], as a step function over all cores, interleaved statement by
    statement with interrupts and with the processors' own filling of their TLBs. *)

From S2P Require Import Prelude.

(** * Model *)

(** The statements of [vmm_invalidate_tlb_range] and of the lock it takes. *)
Inductive Stage :=
  | Idle | Local | Disable | Acquire | SetAddr | SetPages | SetCores | Send | Spin | ClearAddr | ClearPages | Release.
(** The handler: it invalidates, then acknowledges. *)
Inductive Handler := HNone | HInvalidate | HAcknowledge.

#[export] Instance Stage_eq_dec : EqDecision Stage.
Proof. solve_decision. Defined.
#[export] Instance Handler_eq_dec : EqDecision Handler.
Proof. solve_decision. Defined.

(** A call in progress: the next statement and the arguments. *)
Record Call := mkCall { stage : Stage; virt_start : Z; pages : Z }.

Record TlbShootdown := mkShoot { locked : bool; target_addr : Z; num_pages : Z; active_cores : Z }.

(** One core: its TLB by page number, the interrupt flag, the flags saved by the lock, a
    pending shootdown interrupt, and what it is executing. *)
Record Core := mkCore {
  tlb : Z → option Z; iflag : bool; saved : bool; pending : bool; handler : Handler; call : Call
}.

Record System := mkSystem { translation : Z → Z; shoot : TlbShootdown; cores : nat → Core }.

Definition page (virt : Z) : Z := virt / 0x1000.

(** [invlpg] of every page, or all of the TLB for more than 32. *)
Definition invalidate (virt n : Z) (t : Z → option Z) : Z → option Z :=
  if n =? 1 then λ p, if p =? page virt then None else t p
  else if 32 <? n then λ _, None
  else λ p, if existsb (λ i, p =? page (u64 (virt + Z.of_nat i * 0x1000))) (seq 0 (Z.to_nat n)) then None else t p.

Definition update {A} (f : nat → A) (c : nat) (x : A) : nat → A := λ c', if decide (c' = c) then x else f c'.

Definition set_tlb t k := mkCore t (iflag k) (saved k) (pending k) (handler k) (call k).
Definition set_iflag b k := mkCore (tlb k) b (saved k) (pending k) (handler k) (call k).
Definition set_saved b k := mkCore (tlb k) (iflag k) b (pending k) (handler k) (call k).
Definition set_pending b k := mkCore (tlb k) (iflag k) (saved k) b (handler k) (call k).
Definition set_handler h k := mkCore (tlb k) (iflag k) (saved k) (pending k) h (call k).
Definition set_call x k := mkCore (tlb k) (iflag k) (saved k) (pending k) (handler k) x.
Definition goto st k := set_call (mkCall st (virt_start (call k)) (pages (call k))) k.

Definition set_core (c : nat) (k : Core) (s : System) : System := mkSystem (translation s) (shoot s) (update (cores s) c k).
Definition set_shoot (x : TlbShootdown) (s : System) : System := mkSystem (translation s) x (cores s).

Section tlb.
(** [apic_is_enabled], [g_cpu_online_count] and [g_tlb_shootdown_vector]. *)
Variables (apic : bool) (online : nat) (vector : Z).

Definition others : Z := Z.of_nat online - 1.

(** [apic_send_ipi_all_excluding_self] *)
Definition send_ipi (c : nat) (s : System) : System :=
  mkSystem (translation s) (shoot s) (λ c', if decide (c' ≠ c ∧ (c' < online)%nat) then set_pending true (cores s c') else cores s c').

(** The next statement of the call on core [c]; a spinning core has none. *)
Definition vmm_invalidate_tlb_range (c : nat) (s : System) : option System :=
  let k := cores s c in
  let v := virt_start (call k) in
  let n := pages (call k) in
  let x := shoot s in
  match stage (call k) with
  | Idle => None
  | Local =>
      if n =? 0 then Some (set_core c (goto Idle k) s)
      else
        let k := set_tlb (invalidate v n (tlb k)) k in
        Some (set_core c (goto (if apic && (0 <? others) then Disable else Idle) k) s)
  | Disable => Some (set_core c (goto Acquire (set_iflag false (set_saved (iflag k) k))) s)
  | Acquire =>
      if locked x then None
      else Some (set_core c (goto SetAddr k) (set_shoot (mkShoot true (target_addr x) (num_pages x) (active_cores x)) s))
  | SetAddr => Some (set_core c (goto SetPages k) (set_shoot (mkShoot (locked x) v (num_pages x) (active_cores x)) s))
  | SetPages => Some (set_core c (goto SetCores k) (set_shoot (mkShoot (locked x) (target_addr x) n (active_cores x)) s))
  | SetCores => Some (set_core c (goto Send k) (set_shoot (mkShoot (locked x) (target_addr x) (num_pages x) others) s))
  | Send =>
      let s := if vector =? 0 then s else send_ipi c s in
      Some (set_core c (goto Spin (cores s c)) s)
  | Spin => if 0 <? active_cores x then None else Some (set_core c (goto ClearAddr k) s)
  | ClearAddr => Some (set_core c (goto ClearPages k) (set_shoot (mkShoot (locked x) 0 (num_pages x) (active_cores x)) s))
  | ClearPages => Some (set_core c (goto Release k) (set_shoot (mkShoot (locked x) (target_addr x) 0 (active_cores x)) s))
  | Release =>
      Some (set_core c (goto Idle (set_iflag (saved k) k))
        (set_shoot (mkShoot false (target_addr x) (num_pages x) (active_cores x)) s))
  end.

Definition tlb_shootdown_handler (c : nat) (s : System) : option System :=
  let k := cores s c in
  let x := shoot s in
  match handler k with
  | HNone => None
  | HInvalidate =>
      let k := if target_addr x =? 0 then k else set_tlb (invalidate (target_addr x) (num_pages x) (tlb k)) k in
      Some (set_core c (set_handler HAcknowledge k) s)
  | HAcknowledge =>
      Some (set_core c (set_handler HNone (set_iflag true k))
        (set_shoot (mkShoot (locked x) (target_addr x) (num_pages x) (active_cores x - 1)) s))
  end.

(** What can happen next. [Change] is the kernel's change of page tables for a range,
    followed by the call; [Fill] and [Evict] are the processor's. *)
Inductive Action :=
  | Fill (c : nat) (p : Z) | Evict (c : nat) (p : Z) | Interrupts (c : nat) (b : bool)
  | Change (c : nat) (v n : Z) (t : Z → Z) | Run (c : nat) | Take (c : nat) | Handle (c : nat).

Definition covered (v n p : Z) : bool := existsb (λ i, p =? page (v + Z.of_nat i * 0x1000)) (seq 0 (Z.to_nat n)).

Definition outside (k : Core) : bool :=
  match stage (call k), handler k with Idle, HNone => true | _, _ => false end.

Definition act (a : Action) (s : System) : option System :=
  match a with
  | Fill c p => Some (set_core c (set_tlb (λ q, if q =? p then Some (translation s p) else tlb (cores s c) q) (cores s c)) s)
  | Evict c p => Some (set_core c (set_tlb (λ q, if q =? p then None else tlb (cores s c) q) (cores s c)) s)
  | Interrupts c b => if outside (cores s c) then Some (set_core c (set_iflag b (cores s c)) s) else None
  | Change c v n t =>
      if outside (cores s c) && (c <? online)%nat && (0 <? v) && (v + n * 0x1000 <=? 2 ^ 64) then
        let tr p := if covered v n p then t p else translation s p in
        Some (set_core c (set_call (mkCall Local v n) (cores s c)) (mkSystem tr (shoot s) (cores s)))
      else None
  | Run c => if decide (handler (cores s c) = HNone) then vmm_invalidate_tlb_range c s else None
  | Take c =>
      let k := cores s c in
      if iflag k && pending k then Some (set_core c (set_handler HInvalidate (set_pending false (set_iflag false k))) s) else None
  | Handle c => tlb_shootdown_handler c s
  end.

(** Before any call: no translation is cached, interrupts are on. *)
Definition boot (tr : Z → Z) : System :=
  mkSystem tr (mkShoot false 0 0 0) (λ _, mkCore (λ _, None) true true false HNone (mkCall Idle 0 0)).

Fixpoint acts (l : list Action) (s : System) : option System :=
  match l with [] => Some s | a :: l' => s' ← act a s; acts l' s' end.

Inductive reachable : System → Prop :=
  | reach_boot tr : reachable (boot tr)
  | reach_act a s s' : reachable s → act a s = Some s' → reachable s'.
End tlb.

(** * Specification *)

(** Between taking and releasing the lock. *)
Definition critical (st : Stage) : bool :=
  match st with Idle | Local | Disable | Acquire => false | _ => true end.

Definition busy (k : Core) : bool := pending k || negb (bool_decide (handler k = HNone)).

Fixpoint count (n : nat) (f : nat → bool) : Z :=
  match n with O => 0 | S n' => count n' f + (if f n' then 1 else 0) end.

(** The call of core [kd] has yet to make core [kc] drop its range. *)
Definition owes (d c : nat) (kd kc : Core) : Prop :=
  match stage (call kd) with
  | Local => True
  | Disable | Acquire | SetAddr | SetPages | SetCores | Send => c ≠ d
  | Spin => c ≠ d ∧ (pending kc = true ∨ handler kc = HInvalidate)
  | _ => False
  end.

Definition stale (s : System) (c : nat) (p : Z) : Prop := ∃ t, tlb (cores s c) p = Some t ∧ t ≠ translation s p.

Section spec.
Variables (online : nat).

(** What the statements of a call have established. *)
Definition posted (s : System) (k : Core) : Prop :=
  let x := shoot s in
  match stage (call k) with
  | SetPages => target_addr x = virt_start (call k)
  | SetCores => target_addr x = virt_start (call k) ∧ num_pages x = pages (call k)
  | Send => target_addr x = virt_start (call k) ∧ num_pages x = pages (call k) ∧ active_cores x = others online
  | Spin =>
      target_addr x = virt_start (call k) ∧ num_pages x = pages (call k) ∧
      active_cores x = count online (λ c, busy (cores s c))
  | _ => True
  end.

Record control (s : System) : Prop := {
  co_lock c : critical (stage (call (cores s c))) = true → locked (shoot s) = true;
  co_free : locked (shoot s) = true → ∃ c, critical (stage (call (cores s c))) = true;
  co_unique c d : critical (stage (call (cores s c))) = true → critical (stage (call (cores s d))) = true → c = d;
  co_once c : handler (cores s c) ≠ HNone → pending (cores s c) = false;
  co_busy c : busy (cores s c) = true → (c < online)%nat ∧ ∃ d, stage (call (cores s d)) = Spin ∧ d ≠ c;
  co_args c : stage (call (cores s c)) ≠ Idle →
    (c < online)%nat ∧ 0 < virt_start (call (cores s c)) ∧ virt_start (call (cores s c)) + pages (call (cores s c)) * 0x1000 <= 2 ^ 64;
  co_posted c : posted s (cores s c)
}.

(** A stale entry is the business of a call in progress. *)
Definition fresh (s : System) : Prop :=
  ∀ c p, (c < online)%nat → stale s c p →
  ∃ d, covered (virt_start (call (cores s d))) (pages (call (cores s d))) p = true ∧ owes d c (cores s d) (cores s c).
End spec.

(** * Lemmas *)

Lemma update_same {A} (f : nat → A) c x : update f c x c = x.
Proof. unfold update. by rewrite decide_True. Qed.

Lemma update_ne {A} (f : nat → A) c x c' : c' ≠ c → update f c x c' = f c'.
Proof. intros. unfold update. by rewrite decide_False. Qed.

Lemma count_ext n f g : (∀ c, (c < n)%nat → f c = g c) → count n f = count n g.
Proof. induction n as [|n IH]; intros Hfg; [done|]. cbn [count]. rewrite IH, Hfg by auto with lia. done. Qed.

Lemma count_zero n f c : count n f <= 0 → (c < n)%nat → f c = false.
Proof.
  assert (Hpos : ∀ m, 0 <= count m f) by (induction m; simpl; [lia|]; case_match; lia).
  induction n as [|n IH]; intros Hc Hn; [lia|]. cbn [count] in Hc. pose proof (Hpos n).
  destruct (f n) eqn:E; [lia|]. destruct (decide (c = n)) as [->|]; [done|]. apply IH; lia.
Qed.

Lemma count_clear n f g c :
  (c < n)%nat → f c = true → g c = false → (∀ c', c' ≠ c → g c' = f c') → count n g = count n f - 1.
Proof.
  intros Hc Hf Hg Ho. induction n as [|n IH]; [lia|]. cbn [count]. destruct (decide (c = n)) as [->|].
  - rewrite Hf, Hg, (count_ext n g f) by (intros; apply Ho; lia). lia.
  - rewrite IH, (Ho n) by lia. lia.
Qed.

Lemma count_others n f d :
  (d < n)%nat → f d = false → (∀ c, c ≠ d → (c < n)%nat → f c = true) → count n f = Z.of_nat n - 1.
Proof.
  intros Hd Hf Ho. assert (Hall : ∀ m, (m <= d)%nat → count m f = Z.of_nat m).
  { induction m as [|m IH]; intros Hm; [done|]. cbn [count]. rewrite IH, Ho by lia. lia. }
  induction n as [|n IH]; [lia|]. cbn [count]. destruct (decide (d = n)) as [->|].
  - rewrite Hf, Hall by lia. lia.
  - rewrite IH, (Ho n) by (lia || (intros; apply Ho; lia)). lia.
Qed.

Lemma count_busy n f : 0 < count n f → ∃ c, (c < n)%nat ∧ f c = true.
Proof.
  induction n as [|n IH]; cbn [count]; [lia|]. intros Hp. destruct (f n) eqn:E; [exists n; split; [lia|done]|].
  destruct IH as (c & H1 & H2); [lia|]. exists c. split; [lia|done].
Qed.

Lemma covered_true v n p : covered v n p = true ↔ ∃ i, 0 <= i < n ∧ p = page (v + i * 0x1000).
Proof.
  unfold covered. rewrite existsb_exists. split.
  - intros (i & Hi & E). apply in_seq in Hi. exists (Z.of_nat i). split; lia.
  - intros (i & Hi & ->). exists (Z.to_nat i). rewrite in_seq, Z2Nat.id by lia. split; lia.
Qed.

Lemma invalidate_some v n t p x :
  0 < v → v + n * 0x1000 <= 2 ^ 64 → invalidate v n t p = Some x → t p = Some x ∧ covered v n p = false.
Proof.
  intros Hv Hn. unfold invalidate. destruct (Z.eqb_spec n 1) as [->|].
  { destruct (Z.eqb_spec p (page v)); [done|]. intros Ht. split; [done|]. apply not_true_iff_false. rewrite covered_true.
    intros (i & Hi & Hp). assert (i = 0) as -> by lia. by rewrite Z.add_0_r in Hp. }
  destruct (32 <? n); [done|]. case_match eqn:E; [done|]. intros Ht. split; [done|]. apply not_true_iff_false. rewrite covered_true.
  intros (i & Hi & Hp). apply not_true_iff_false in E. apply E, existsb_exists. exists (Z.to_nat i).
  rewrite in_seq, Z2Nat.id by lia. split; [lia|]. unfold u64. rewrite Z.mod_small by lia. lia.
Qed.

Section facts.
Variables (apic : bool) (online : nat) (vector : Z).
Hypothesis Happic : apic = true ∨ online = 1%nat.
Hypothesis Hvector : vector ≠ 0.

Lemma boot_control tr : control online (boot tr).
Proof. split; try done. Qed.

Lemma boot_fresh tr : fresh online (boot tr).
Proof. intros c p _ (t & Ht & _). done. Qed.

(** The core that spins is the only one that can be waited for. *)
Lemma busy_spin s c d : control online s → busy (cores s c) = true → critical (stage (call (cores s d))) = true → stage (call (cores s d)) = Spin ∧ c ≠ d.
Proof.
  intros Hc Hb Hd. destruct (co_busy _ _ Hc c Hb) as (_ & e & He & Hne).
  assert (e = d) as -> by (apply (co_unique _ _ Hc); [by rewrite He|done]). done.
Qed.

(** A step of one core that keeps its call and whether it is waited for. *)
Lemma control_core s c k :
  control online s → call k = call (cores s c) → busy k = busy (cores s c) → (handler k ≠ HNone → pending k = false) →
  control online (set_core c k s).
Proof.
  intros Hc Hk Hb Ho.
  assert (Hcall : ∀ c', call (cores (set_core c k s) c') = call (cores s c')).
  { intros c'. simpl. unfold update. case_decide; [by subst|done]. }
  assert (Hbusy : ∀ c', busy (cores (set_core c k s) c') = busy (cores s c')).
  { intros c'. simpl. unfold update. case_decide; [by subst|done]. }
  split.
  - intros c'. rewrite Hcall. apply Hc.
  - intros Hl. destruct (co_free _ _ Hc Hl) as [d Hd]. exists d. by rewrite Hcall.
  - intros c' d. rewrite !Hcall. apply Hc.
  - intros c'. simpl. unfold update. case_decide; [done|apply Hc].
  - intros c'. rewrite Hbusy. intros Hb'. destruct (co_busy _ _ Hc c' Hb') as (H1 & d & H2 & H3). split; [done|]. exists d. by rewrite Hcall.
  - intros c'. rewrite Hcall. apply Hc.
  - intros c'. pose proof (co_posted _ _ Hc c') as Hp. unfold posted in *. rewrite Hcall. case_match; try done.
    rewrite (count_ext online _ (λ c0, busy (cores s c0))) by (intros; apply Hbusy). done.
Qed.

(** A step of the call of one core. *)
Lemma control_step s c k x :
  let s' := set_core c k (set_shoot x s) in
  control online s → pending k = pending (cores s c) → handler k = handler (cores s c) →
  (stage (call k) ≠ Idle → (c < online)%nat ∧ 0 < virt_start (call k) ∧ virt_start (call k) + pages (call k) * 0x1000 <= 2 ^ 64) →
  (critical (stage (call k)) = true → locked x = true ∧ ∀ d, critical (stage (call (cores s d))) = true → d = c) →
  (∀ d, d ≠ c → critical (stage (call (cores s d))) = true → x = shoot s) →
  (stage (call (cores s c)) = Spin → active_cores (shoot s) <= 0) →
  (locked x = true → critical (stage (call k)) = true ∨ (x = shoot s ∧ critical (stage (call (cores s c))) = false)) →
  posted online s' k → control online s'.
Proof.
  intros s' Hc Hp Hh Ha Hcr Hx Hsp Hlk Hpo.
  assert (Hbusy : ∀ c', busy (cores s' c') = busy (cores s c')).
  { intros c'. simpl. unfold update. case_decide; [subst; unfold busy; by rewrite Hp, Hh|done]. }
  assert (Hsame : cores s' c = k) by apply update_same.
  assert (Hother : ∀ d, d ≠ c → cores s' d = cores s d) by (intros d; apply update_ne).
  split.
  - intros d. destruct (decide (d = c)) as [->|Hd]; [rewrite Hsame; apply Hcr|]. rewrite Hother by done. intros Hcd.
    cbn [s' set_core shoot set_shoot]. rewrite (Hx d) by done. by apply (co_lock _ _ Hc d).
  - intros Hl. cbn [s' set_core shoot set_shoot] in Hl. destruct (Hlk Hl) as [Hk|[-> Hk]]; [exists c; by rewrite Hsame|].
    destruct (co_free _ _ Hc Hl) as [d Hd]. exists d. rewrite Hother; [done|]. intros ->. congruence.
  - intros d e. destruct (decide (d = c)) as [->|Hd], (decide (e = c)) as [->|He]; rewrite ?Hsame, ?Hother by done; intros H1 H2; try done.
    + symmetry. by apply Hcr.
    + by apply Hcr.
    + by apply (co_unique _ _ Hc).
  - intros d. destruct (decide (d = c)) as [->|Hd]; rewrite ?Hsame, ?Hother by done; [rewrite Hp, Hh|]; apply Hc.
  - intros c'. rewrite Hbusy. intros Hb. destruct (co_busy _ _ Hc c' Hb) as (H1 & d & H2 & H3). split; [done|]. exists d.
    destruct (decide (d = c)) as [->|Hd]; [|by rewrite Hother]. exfalso. pose proof (co_posted _ _ Hc c) as Hq. unfold posted in Hq.
    rewrite H2 in Hq. destruct Hq as (_ & _ & Hq). pose proof (count_zero online _ c' ltac:(rewrite <-Hq; auto) H1). simpl in *. congruence.
  - intros d. destruct (decide (d = c)) as [->|Hd]; rewrite ?Hsame, ?Hother by done; [done|apply Hc].
  - intros d. destruct (decide (d = c)) as [->|Hd]; rewrite ?Hsame, ?Hother by done; [done|].
    destruct (critical (stage (call (cores s d)))) eqn:Hcd.
    + pose proof (co_posted _ _ Hc d) as Hq. unfold posted in *. cbn [s' set_core shoot set_shoot]. rewrite (Hx d) by done.
      case_match; try done. rewrite (count_ext online _ (λ c0, busy (cores s c0))) by (intros; apply Hbusy). done.
    + unfold posted. by destruct (stage (call (cores s d))).
Qed.

(** A statement of the core that holds the lock. *)
Ltac step_call Est Hc Ha Hl Hcrit :=
  apply control_step;
  [done|done|done|intros _; by apply Ha|intros _; split; [by apply Hl|by apply Hcrit]|intros d Hne Hd; by destruct Hne; apply Hcrit|by rewrite Est|by left|].

Lemma set_core_shoot s c k : set_core c k s = set_core c k (set_shoot (shoot s) s).
Proof. by destruct s. Qed.

(** The sender: every other core is now waited for. *)
Lemma control_send s c s' :
  control online s → stage (call (cores s c)) = Send → vmm_invalidate_tlb_range apic online vector c s = Some s' → control online s'.
Proof.
  intros Hc Est. unfold vmm_invalidate_tlb_range. rewrite Est. destruct (Z.eqb_spec vector 0); [done|]. intros [= <-].
  assert (Hidle : ∀ d, busy (cores s d) = false).
  { intros d. apply not_true_iff_false. intros Hb. destruct (busy_spin s d c Hc Hb); [by rewrite Est|congruence]. }
  assert (Hcrit : ∀ d, critical (stage (call (cores s d))) = true → d = c).
  { intros d Hd. apply (co_unique _ _ Hc); [done|by rewrite Est]. }
  destruct (co_args _ _ Hc c) as (Hn & Hargs); [by rewrite Est|]. pose proof (co_posted _ _ Hc c) as Hp. unfold posted in Hp. rewrite Est in Hp.
  pose proof (co_lock _ _ Hc c) as Hl. rewrite Est in Hl.
  set (s' := set_core _ _ _).
  assert (Hsame : cores s' c = goto Spin (cores s c)).
  { unfold s'. cbn [set_core cores]. rewrite update_same. cbn [send_ipi cores]. rewrite decide_False; [done|]. by intros [? _]. }
  assert (Hother : ∀ d, d ≠ c → cores s' d = if decide (d < online)%nat then set_pending true (cores s d) else cores s d).
  { intros d Hd. unfold s'. cbn [set_core cores]. rewrite update_ne by done. cbn [send_ipi cores].
    destruct (decide (d < online)%nat); [by rewrite decide_True|]. rewrite decide_False; [done|]. by intros [_ ?]. }
  assert (Hcall : ∀ d, d ≠ c → call (cores s' d) = call (cores s d)) by (intros d Hd; rewrite Hother by done; by case_decide).
  assert (Hbusy : ∀ d, busy (cores s' d) = bool_decide (d ≠ c ∧ (d < online)%nat)).
  { intros d. destruct (decide (d = c)) as [->|Hd].
    - rewrite Hsame, bool_decide_false by (by intros [? _]). apply Hidle.
    - rewrite Hother by done. case_decide; [by rewrite bool_decide_true|]. rewrite Hidle, bool_decide_false by (by intros [_ ?]). done. }
  split.
  - intros d. destruct (decide (d = c)) as [->|Hd]; [intros _; by apply Hl|]. rewrite Hcall by done. apply (co_lock _ _ Hc).
  - intros _. exists c. by rewrite Hsame.
  - intros d e. destruct (decide (d = c)) as [->|Hd], (decide (e = c)) as [->|He]; intros H1 H2; try done.
    + rewrite (Hcall e He) in H2. symmetry. by apply Hcrit.
    + rewrite (Hcall d Hd) in H1. by apply Hcrit.
    + rewrite (Hcall d Hd) in H1. rewrite (Hcall e He) in H2. by apply (co_unique _ _ Hc).
  - intros d. destruct (decide (d = c)) as [->|Hd]; [rewrite Hsame; apply (co_once _ _ Hc c)|]. rewrite Hother by done.
    pose proof (Hidle d) as Hb. unfold busy in Hb. apply orb_false_iff in Hb as [_ Hb]. apply negb_false_iff, bool_decide_eq_true in Hb.
    case_decide; intros Hh; destruct Hh; done.
  - intros d. rewrite Hbusy, bool_decide_eq_true. intros [H1 H2]. split; [done|]. exists c. by rewrite Hsame.
  - intros d. destruct (decide (d = c)) as [->|Hd]; [rewrite Hsame; by intros _|]. rewrite Hcall by done. apply Hc.
  - intros d. destruct (decide (d = c)) as [->|Hd].
    + rewrite Hsame. unfold posted. cbn [goto set_call call stage virt_start pages]. cbn [s' set_core shoot send_ipi].
      destruct Hp as (H1 & H2 & H3). split; [done|]. split; [done|]. rewrite H3. unfold others. symmetry. apply (count_others _ _ c Hn).
      * rewrite Hbusy. apply bool_decide_false. by intros [? _].
      * intros d H4 H5. rewrite Hbusy. by apply bool_decide_true.
    + unfold posted. rewrite Hcall by done. destruct (critical (stage (call (cores s d)))) eqn:Hcd; [by destruct Hd; apply Hcrit|].
      by destruct (stage (call (cores s d))).
Qed.

Lemma control_run s c s' :
  control online s → vmm_invalidate_tlb_range apic online vector c s = Some s' → control online s'.
Proof.
  intros Hc. unfold vmm_invalidate_tlb_range. pose proof (co_args _ _ Hc c) as Ha. pose proof (co_posted _ _ Hc c) as Hp.
  assert (Hcrit : critical (stage (call (cores s c))) = true → ∀ d, critical (stage (call (cores s d))) = true → d = c).
  { intros H1 d H2. by apply (co_unique _ _ Hc). }
  pose proof (co_lock _ _ Hc c) as Hl. unfold posted in Hp. destruct (stage (call (cores s c))) eqn:Est; intros E.
  - done.
  - destruct (pages (call (cores s c)) =? 0); injection E as <-; rewrite set_core_shoot; apply control_step; try done.
    all: try (rewrite Est; done). all: try (intros _; right; by rewrite Est).
    all: cbn [goto set_call set_tlb call stage virt_start pages]; case_match; try done. intros _. by apply Ha.
  - injection E as <-. rewrite set_core_shoot. apply control_step; try done; [|by rewrite Est|intros _; right; by rewrite Est]. intros _. by apply Ha.
  - destruct (locked (shoot s)) eqn:El; [done|]. injection E as <-. apply control_step; try done.
    + intros _. by apply Ha.
    + intros _. split; [done|]. intros d Hd. pose proof (co_lock _ _ Hc d Hd). congruence.
    + intros d _ Hd. pose proof (co_lock _ _ Hc d Hd). congruence.
    + by rewrite Est.
    + by left.
  - injection E as <-. step_call Est Hc Ha Hl Hcrit. done.
  - injection E as <-. step_call Est Hc Ha Hl Hcrit. done.
  - injection E as <-. step_call Est Hc Ha Hl Hcrit. split; [|split]; try done; apply Hp.
  - apply (control_send s c s' Hc Est). unfold vmm_invalidate_tlb_range. by rewrite Est.
  - destruct (Z.ltb_spec 0 (active_cores (shoot s))); [done|]. injection E as <-. rewrite set_core_shoot.
    apply control_step; try done; [intros _; by apply Ha|intros _; split; [by apply Hl|by apply Hcrit]|by left].
  - injection E as <-. step_call Est Hc Ha Hl Hcrit. done.
  - injection E as <-. step_call Est Hc Ha Hl Hcrit. done.
  - injection E as <-. apply control_step; try done; [|by rewrite Est]. intros d Hne Hd. by destruct Hne; apply Hcrit.
Qed.

Lemma control_acknowledge s c :
  control online s → handler (cores s c) = HAcknowledge →
  let x := shoot s in
  control online (set_core c (set_handler HNone (set_iflag true (cores s c)))
    (set_shoot (mkShoot (locked x) (target_addr x) (num_pages x) (active_cores x - 1)) s)).
Proof.
  intros Hc Hh. cbv zeta. set (s' := set_core _ _ _).
  assert (Hb : busy (cores s c) = true) by (unfold busy; rewrite Hh; by destruct (pending _)).
  assert (Hp : pending (cores s c) = false) by (apply (co_once _ _ Hc); by rewrite Hh).
  destruct (co_busy _ _ Hc c Hb) as (Hn & d0 & Hd0 & Hne0).
  assert (Hcall : ∀ d, call (cores s' d) = call (cores s d)) by (intros d; simpl; unfold update; case_decide; [by subst|done]).
  assert (Hbusy : ∀ d, busy (cores s' d) = if decide (d = c) then false else busy (cores s d)).
  { intros d. simpl. unfold update. case_decide; [|done]. unfold busy. simpl. by rewrite Hp. }
  split.
  - intros d. rewrite Hcall. apply (co_lock _ _ Hc).
  - intros Hl. destruct (co_free _ _ Hc Hl) as [d Hd]. exists d. by rewrite Hcall.
  - intros d e. rewrite !Hcall. apply (co_unique _ _ Hc).
  - intros d. simpl. unfold update. case_decide; [done|apply (co_once _ _ Hc)].
  - intros d. rewrite Hbusy. case_decide; [done|]. intros Hbd. destruct (co_busy _ _ Hc d Hbd) as (H1 & e & H2 & H3).
    split; [done|]. exists e. by rewrite Hcall.
  - intros d. rewrite Hcall. apply (co_args _ _ Hc).
  - intros d. pose proof (co_posted _ _ Hc d) as Hq. unfold posted in *. rewrite Hcall. case_match eqn:Est; try done.
    + destruct (busy_spin s c d Hc Hb); [by rewrite Est|congruence].
    + destruct Hq as (H1 & H2 & H3). split; [done|]. split; [done|]. cbn [s' set_core set_shoot shoot active_cores]. rewrite H3. symmetry.
      apply (count_clear online _ _ c Hn Hb); [by rewrite Hbusy, decide_True|]. intros e He. by rewrite Hbusy, decide_False.
Qed.

Lemma control_act a s s' : control online s → act apic online vector a s = Some s' → control online s'.
Proof.
  intros Hc. destruct a as [c p|c p|c b|c v n t|c|c|c]; cbn [act].
  - intros [= <-]. apply control_core; try done. apply (co_once _ _ Hc).
  - intros [= <-]. apply control_core; try done. apply (co_once _ _ Hc).
  - case_match; [|done]. intros [= <-]. apply control_core; try done. apply (co_once _ _ Hc).
  - case_match eqn:E; [|done]. intros [= <-].
    rewrite !andb_true_iff in E. destruct E as (((E1 & E2) & E3) & E4). unfold outside in E1.
    destruct (stage (call (cores s c))) eqn:Est; try done.
    set (tr := λ p, if covered v n p then t p else translation s p).
    assert (Hc' : control online (set_core c (set_call (mkCall Local v n) (cores s c)) (set_shoot (shoot s) s))).
    { apply control_step; try done; [|by rewrite Est|intros _; right; by rewrite Est]. intros _. simpl. split; [by apply Nat.ltb_lt|]. lia. }
    by destruct Hc'.
  - case_decide; [|done]. by apply control_run.
  - case_match eqn:E; [|done]. apply andb_true_iff in E as [_ E]. intros [= <-]. apply control_core; try done. unfold busy. simpl. by rewrite E.
  - unfold tlb_shootdown_handler. case_match eqn:E; [done| |].
    + intros [= <-]. pose proof (co_once _ _ Hc c ltac:(by rewrite E)) as Ho. apply control_core; [done|by case_match| |by case_match].
      unfold busy. rewrite E. by case_match; simpl; rewrite Ho.
    + intros [= <-]. by apply control_acknowledge.
Qed.

(** ** Stale entries *)

(** A step of core [c] after which its TLB has no entry that is new or outdated, and which
    keeps what calls owe. *)
Lemma fresh_core s c k x :
  fresh online s →
  (∀ p t, tlb k p = Some t → t ≠ translation s p → tlb (cores s c) p = Some t) →
  (∀ d c' p, (c' < online)%nat → stale (set_core c k (set_shoot x s)) c' p →
     covered (virt_start (call (cores s d))) (pages (call (cores s d))) p = true → owes d c' (cores s d) (cores s c') →
     let s' := set_core c k (set_shoot x s) in
     ∃ d', covered (virt_start (call (cores s' d'))) (pages (call (cores s' d'))) p = true ∧ owes d' c' (cores s' d') (cores s' c')) →
  fresh online (set_core c k (set_shoot x s)).
Proof.
  intros Hf Ht Ho c' p Hc' Hst. assert (Hst' : stale s c' p).
  { destruct Hst as (t & H1 & H2). simpl in H1, H2. unfold update in H1. exists t. case_decide; [subst; split; [by apply Ht|done]|done]. }
  destruct (Hf c' p Hc' Hst') as (d & Hd1 & Hd2). by apply (Ho d c' p).
Qed.

(** The calls are the same and nothing owed is forgotten. *)
Lemma fresh_same s c k x :
  fresh online s → call k = call (cores s c) →
  (∀ p t, tlb k p = Some t → t ≠ translation s p →
     tlb (cores s c) p = Some t ∧
     ∀ d, covered (virt_start (call (cores s d))) (pages (call (cores s d))) p = true → stage (call (cores s d)) = Spin →
       pending (cores s c) = true ∨ handler (cores s c) = HInvalidate → pending k = true ∨ handler k = HInvalidate) →
  fresh online (set_core c k (set_shoot x s)).
Proof.
  intros Hf Hk Ht. apply fresh_core; [done|intros; by apply Ht|]. intros d c' p Hc' Hst Hcov Hd s'.
  assert (Hcall : ∀ d, call (cores s' d) = call (cores s d)) by (intros e; simpl; unfold update; case_decide; [by subst|done]).
  exists d. rewrite Hcall. split; [done|]. unfold owes in *. rewrite Hcall. case_match eqn:Est; try done. destruct Hd as [Hd1 Hd2]. split; [done|].
  destruct Hst as (t & H1 & H2). simpl in H1, H2 |- *. unfold update in *. case_decide; [|done]. subst c'. by apply (Ht p t H1 H2) with d.
Qed.

(** A statement of the call of core [c]: its own debts stay debts. *)
Lemma fresh_call s c k x :
  fresh online s → control online s → pending k = pending (cores s c) → handler k = handler (cores s c) →
  (∀ p t, tlb k p = Some t → tlb (cores s c) p = Some t) →
  virt_start (call k) = virt_start (call (cores s c)) → pages (call k) = pages (call (cores s c)) →
  (∀ c' p, (c' < online)%nat → stale (set_core c k (set_shoot x s)) c' p →
    covered (virt_start (call (cores s c))) (pages (call (cores s c))) p = true →
    owes c c' (cores s c) (cores s c') → owes c c' k (if decide (c' = c) then k else cores s c')) →
  fresh online (set_core c k (set_shoot x s)).
Proof.
  intros Hf Hc Hp Hh Ht Hv Hn Ho. apply fresh_core; [done|intros; by apply Ht|]. intros d c' p Hc' Hst Hcov Hd s'. exists d.
  destruct (decide (d = c)) as [->|Hne].
  - specialize (Ho c' p Hc' Hst Hcov Hd). simpl. rewrite update_same, Hv, Hn. split; [done|]. unfold update. done.
  - simpl. rewrite (update_ne _ _ _ d) by done. split; [done|]. unfold owes in *. case_match; try done. destruct Hd as [Hd1 Hd2].
    split; [done|]. unfold update. case_decide; [|done]. subst c'. by rewrite Hp, Hh.
Qed.

Lemma fresh_send s c s' :
  fresh online s → control online s → stage (call (cores s c)) = Send →
  vmm_invalidate_tlb_range apic online vector c s = Some s' → fresh online s'.
Proof.
  intros Hf Hc Est. unfold vmm_invalidate_tlb_range. rewrite Est. destruct (Z.eqb_spec vector 0); [done|]. intros [= <-] c' p Hc' Hst.
  set (s' := set_core _ _ _) in *.
  assert (Hcore : ∀ d, tlb (cores s' d) = tlb (cores s d) ∧ call (cores s' d) = (if decide (d = c) then mkCall Spin (virt_start (call (cores s c))) (pages (call (cores s c))) else call (cores s d)) ∧
    handler (cores s' d) = handler (cores s d) ∧ pending (cores s' d) = (pending (cores s d) || bool_decide (d ≠ c ∧ (d < online)%nat))).
  { intros d. simpl. unfold update. destruct (decide (d = c)) as [->|Hd]; simpl.
    - rewrite decide_False by (by intros [? _]). rewrite bool_decide_false, orb_false_r by (by intros [? _]). done.
    - case_decide as Hdd; simpl; [by rewrite bool_decide_true, orb_true_r|]. by rewrite bool_decide_false, orb_false_r. }
  destruct (Hf c' p Hc') as (d & Hcov & Hd).
  { destruct Hst as (t & H1 & H2). rewrite (proj1 (Hcore c')) in H1. by exists t. }
  exists d. unfold owes in *. destruct (Hcore d) as (_ & -> & _ & _), (Hcore c') as (_ & _ & -> & ->). case_decide as Hdc.
  - subst d. split; [done|]. simpl. rewrite Est in Hd. split; [done|]. left. rewrite bool_decide_true by done. by rewrite orb_true_r.
  - split; [done|]. case_match; try done. destruct Hd as [H1 H2]. split; [done|]. destruct H2 as [-> | ->]; [by left|by right].
Qed.

Lemma fresh_run s c s' :
  fresh online s → control online s → vmm_invalidate_tlb_range apic online vector c s = Some s' → fresh online s'.
Proof.
  intros Hf Hc E. destruct (decide (stage (call (cores s c)) = Send)) as [Est|Hns]; [by apply (fresh_send s c)|].
  unfold vmm_invalidate_tlb_range in E. pose proof (co_args _ _ Hc c) as Ha.
  destruct (stage (call (cores s c))) eqn:Est; try done.
  - destruct (Ha ltac:(done)) as (Hn & Hv & Hend). destruct (Z.eqb_spec (pages (call (cores s c))) 0) as [Hz|Hz]; injection E as <-;
      rewrite set_core_shoot.
    + apply fresh_call; try done. intros c' p _ _ Hcov _. rewrite Hz in Hcov. done.
    + apply fresh_call; try done; [intros p t; by apply invalidate_some|]. intros c' p Hc' Hst Hcov _.
      assert (Hne : c' ≠ c).
      { intros ->. destruct Hst as (t & H1 & _). simpl in H1. rewrite update_same in H1. simpl in H1.
        destruct (invalidate_some _ _ _ _ _ Hv Hend H1) as [_ H2]. congruence. }
      unfold owes. simpl. destruct (apic && (0 <? others online)) eqn:Eo; [done|]. unfold others in Eo.
      destruct Happic as [-> | ->]; [simpl in Eo|]; lia.
  - injection E as <-. rewrite set_core_shoot. apply fresh_call; try done. intros c' p _ _ _. unfold owes. by rewrite Est.
  - destruct (locked (shoot s)); [done|]. injection E as <-. apply fresh_call; try done. intros c' p _ _ _. unfold owes. by rewrite Est.
  - injection E as <-. apply fresh_call; try done. intros c' p _ _ _. unfold owes. by rewrite Est.
  - injection E as <-. apply fresh_call; try done. intros c' p _ _ _. unfold owes. by rewrite Est.
  - injection E as <-. apply fresh_call; try done. intros c' p _ _ _. unfold owes. by rewrite Est.
  - destruct (Z.ltb_spec 0 (active_cores (shoot s))) as [|Hact]; [done|]. injection E as <-. rewrite set_core_shoot.
    apply fresh_call; try done. intros c' p Hc' _ _. unfold owes. rewrite Est. intros [Hne Hb]. exfalso.
    pose proof (co_posted _ _ Hc c) as Hq. unfold posted in Hq. rewrite Est in Hq. destruct Hq as (_ & _ & Hq). rewrite Hq in Hact.
    pose proof (count_zero _ _ c' Hact Hc') as Hz. simpl in Hz. unfold busy in Hz. destruct Hb as [Hb|Hb]; rewrite Hb in Hz; [done|].
    by destruct (pending (cores s c')).
  - injection E as <-. apply fresh_call; try done. intros c' p _ _ _. unfold owes. by rewrite Est.
  - injection E as <-. apply fresh_call; try done. intros c' p _ _ _. unfold owes. by rewrite Est.
  - injection E as <-. apply fresh_call; try done. intros c' p _ _ _. unfold owes. by rewrite Est.
Qed.

Lemma fresh_handle s c s' :
  fresh online s → control online s → tlb_shootdown_handler c s = Some s' → fresh online s'.
Proof.
  intros Hf Hc. unfold tlb_shootdown_handler. destruct (handler (cores s c)) eqn:Eh; [done| |].
  - assert (Hb : busy (cores s c) = true) by (unfold busy; rewrite Eh; by destruct (pending _)).
    pose proof (co_once _ _ Hc c ltac:(by rewrite Eh)) as Ho.
    destruct (co_busy _ _ Hc c Hb) as (Hn & d & Hd & Hne). pose proof (co_posted _ _ Hc d) as Hq. unfold posted in Hq. rewrite Hd in Hq.
    destruct Hq as (H1 & H2 & _). destruct (co_args _ _ Hc d) as (_ & Hv & Hend); [by rewrite Hd|].
    destruct (Z.eqb_spec (target_addr (shoot s)) 0); [lia|]. intros [= <-]. rewrite set_core_shoot.
    apply fresh_same; [done|done|]. rewrite H1, H2. intros p t Ht _. simpl in Ht. destruct (invalidate_some _ _ _ _ _ Hv Hend Ht) as [Ht' Hcov].
    split; [done|]. intros d' Hcov' Hd' _. assert (d' = d) as -> by (apply (co_unique _ _ Hc); [by rewrite Hd'|by rewrite Hd]). congruence.
  - intros [= <-]. apply fresh_same; [done|done|]. intros p t Ht _. split; [done|]. intros d _ _. rewrite Eh. intros [?|?]; [by left|done].
Qed.

Lemma fresh_act a s s' : fresh online s → control online s → act apic online vector a s = Some s' → fresh online s'.
Proof.
  intros Hf Hc. destruct a as [c p|c p|c b|c v n t|c|c|c]; cbn [act].
  - intros [= <-]. rewrite set_core_shoot. apply fresh_same; [done|done|]. intros q t. simpl.
    destruct (Z.eqb_spec q p) as [->|]; [by intros [= <-]|]. by intros Ht _.
  - intros [= <-]. rewrite set_core_shoot. apply fresh_same; [done|done|]. intros q t. simpl.
    destruct (q =? p); [done|]. by intros Ht _.
  - case_match; [|done]. intros [= <-]. rewrite set_core_shoot. apply fresh_same; [done|done|]. by intros q t Ht _.
  - case_match eqn:E; [|done]. intros [= <-] c' p Hc' Hst. rewrite !andb_true_iff in E. destruct E as (((E1 & _) & _) & _).
    assert (Est : stage (call (cores s c)) = Idle) by (unfold outside in E1; by destruct (stage _)).
    destruct Hst as (u & Hu1 & Hu2). cbn [set_core cores translation] in *.
    assert (Htlb : tlb (cores s c') p = Some u) by (unfold update in Hu1; case_decide; [by subst|done]).
    destruct (covered v n p) eqn:Hcov.
    + exists c. rewrite update_same. done.
    + destruct (Hf c' p Hc') as (d & Hd1 & Hd2); [by exists u|]. assert (Hdc : d ≠ c) by (intros ->; unfold owes in Hd2; by rewrite Est in Hd2).
      exists d. rewrite (update_ne _ _ _ d) by done. split; [done|]. unfold owes in *. case_match; try done.
      unfold update. case_decide; [by subst|done].
  - case_decide; [|done]. by apply fresh_run.
  - case_match eqn:E; [|done]. intros [= <-]. rewrite set_core_shoot. apply fresh_same; [done|done|].
    intros q t Ht _. split; [done|]. intros. by right.
  - by apply fresh_handle.
Qed.

Lemma tlb_reachable_inv s : reachable apic online vector s → control online s ∧ fresh online s.
Proof.
  induction 1 as [tr|a s s' _ [IH1 IH2] E]; [split; [apply boot_control|apply boot_fresh]|].
  split; [by apply (control_act a s)|by apply (fresh_act a s)].
Qed.
End facts.

(** ** Progress *)

Section progress.
Variables (apic : bool) (online : nat) (vector : Z).
Hypothesis Happic : apic = true ∨ online = 1%nat.
Hypothesis Hvector : vector ≠ 0.

Abbreviation run := (acts apic online vector).

Lemma acts_app l1 l2 s s1 s2 : run l1 s = Some s1 → run l2 s1 = Some s2 → run (l1 ++ l2) s = Some s2.
Proof.
  revert s. induction l1 as [|a l1 IH]; intros s; cbn [acts app]; [by intros [= ->]|]. destruct (act apic online vector a s) as [s'|]; [|done].
  cbn [mbind option_bind]. apply IH.
Qed.

Lemma acts_control l s s' : control online s → run l s = Some s' → control online s'.
Proof.
  revert s. induction l as [|a l IH]; intros s Hc; cbn [acts]; [by intros [= ->]|].
  destruct (act apic online vector a s) as [s1|] eqn:E; [|done]. apply IH. by apply (control_act apic online vector Happic Hvector a s).
Qed.

(** Core [d] is at a statement of its call, and every other core is in no call and can take
    the interrupt. *)
Record alone (st : Stage) (d : nat) (s : System) : Prop := {
  an_control : control online s;
  an_stage : stage (call (cores s d)) = st;
  an_idle c : c ≠ d → stage (call (cores s c)) = Idle;
  an_ready c : c ≠ d → iflag (cores s c) = true ∨ handler (cores s c) ≠ HNone
}.

Lemma answer_step s d c s' a :
  alone Spin d s → c ≠ d → act apic online vector a s = Some s' → (∀ e, e ≠ c → cores s' e = cores s e) →
  call (cores s' c) = call (cores s c) → iflag (cores s' c) = true ∨ handler (cores s' c) ≠ HNone → alone Spin d s'.
Proof.
  intros [A1 A2 A3 A4] Hcd Ha Ho Hk Hc. split.
  - by apply (control_act apic online vector Happic Hvector a s).
  - by rewrite (Ho d) by done.
  - intros e He. destruct (decide (e = c)) as [->|]; [rewrite Hk; by apply A3|]. rewrite Ho by done. by apply A3.
  - intros e He. destruct (decide (e = c)) as [->|]; [done|]. rewrite Ho by done. by apply A4.
Qed.

Lemma answer s d c :
  alone Spin d s → busy (cores s c) = true →
  ∃ l s', run l s = Some s' ∧ alone Spin d s' ∧ active_cores (shoot s') = active_cores (shoot s) - 1.
Proof.
  intros Ha Hb. destruct (busy_spin online s c d (an_control _ _ _ Ha) Hb) as [_ Hcd]; [by rewrite (an_stage _ _ _ Ha)|].
  assert (Hack : ∀ s, alone Spin d s → handler (cores s c) = HAcknowledge →
    ∃ s', act apic online vector (Handle c) s = Some s' ∧ alone Spin d s' ∧ active_cores (shoot s') = active_cores (shoot s) - 1).
  { clear s Ha Hb. intros s Ha Hh. cbn [act]. unfold tlb_shootdown_handler. rewrite Hh. eexists. split; [done|]. split; [|done].
    apply (answer_step s d c _ (Handle c)); try done.
    - cbn [act]. unfold tlb_shootdown_handler. by rewrite Hh.
    - intros e He. simpl. by rewrite update_ne.
    - simpl. by rewrite update_same.
    - left. simpl. by rewrite update_same. }
  assert (Hinv : ∀ s, alone Spin d s → handler (cores s c) = HInvalidate →
    ∃ l s', run l s = Some s' ∧ alone Spin d s' ∧ active_cores (shoot s') = active_cores (shoot s) - 1).
  { clear s Ha Hb. intros s Ha Hh.
    assert (E : ∃ s1, act apic online vector (Handle c) s = Some s1 ∧ alone Spin d s1 ∧ handler (cores s1 c) = HAcknowledge ∧ shoot s1 = shoot s).
    { cbn [act]. unfold tlb_shootdown_handler. rewrite Hh. eexists. split; [done|]. split; [|simpl; by rewrite update_same].
      apply (answer_step s d c _ (Handle c)); try done.
      - cbn [act]. unfold tlb_shootdown_handler. by rewrite Hh.
      - intros e He. simpl. by rewrite update_ne.
      - simpl. rewrite update_same. by case_match.
      - right. simpl. by rewrite update_same. }
    destruct E as (s1 & E1 & A1 & H1 & X1). destruct (Hack s1 A1 H1) as (s2 & E2 & A2 & X2). exists [Handle c; Handle c], s2.
    cbn [acts]. rewrite E1. cbn [mbind option_bind]. rewrite E2. split; [done|]. split; [done|]. congruence. }
  destruct (handler (cores s c)) eqn:Hh.
  - destruct (an_ready _ _ _ Ha c Hcd) as [Hi|]; [|done]. assert (Hp : pending (cores s c) = true).
    { unfold busy in Hb. rewrite Hh in Hb. by destruct (pending (cores s c)). }
    assert (E : ∃ s1, act apic online vector (Take c) s = Some s1 ∧ alone Spin d s1 ∧ handler (cores s1 c) = HInvalidate ∧ shoot s1 = shoot s).
    { cbn [act]. rewrite Hi, Hp. eexists. split; [done|]. split; [|simpl; by rewrite update_same].
      apply (answer_step s d c _ (Take c)); try done.
      - cbn [act]. by rewrite Hi, Hp.
      - intros e He. simpl. by rewrite update_ne.
      - simpl. by rewrite update_same.
      - right. simpl. by rewrite update_same. }
    destruct E as (s1 & E1 & A1 & H1 & X1). destruct (Hinv s1 A1 H1) as (l & s2 & E2 & A2 & X2). exists (Take c :: l), s2.
    cbn [acts]. rewrite E1. cbn [mbind option_bind]. split; [done|]. split; [done|]. congruence.
  - by apply Hinv.
  - destruct (Hack s Ha Hh) as (s1 & E1 & A1 & X1). exists [Handle c], s1. cbn [acts]. by rewrite E1.
Qed.

Lemma drain n : ∀ s d,
  alone Spin d s → active_cores (shoot s) <= Z.of_nat n →
  ∃ l s', run l s = Some s' ∧ alone Spin d s' ∧ active_cores (shoot s') <= 0.
Proof.
  induction n as [|n IH]; intros s d Ha Hn; [by exists [], s|].
  destruct (decide (active_cores (shoot s) <= 0)); [by exists [], s|]. pose proof (co_posted _ _ (an_control _ _ _ Ha) d) as Hq.
  unfold posted in Hq. rewrite (an_stage _ _ _ Ha) in Hq. destruct Hq as (_ & _ & Hq).
  destruct (count_busy online (λ c, busy (cores s c))) as (c & _ & Hb); [lia|].
  destruct (answer s d c Ha Hb) as (l1 & s1 & E1 & A1 & X1). destruct (IH s1 d A1 ltac:(lia)) as (l2 & s2 & E2 & A2 & X2).
  exists (l1 ++ l2), s2. split; [by apply (acts_app l1 l2 s s1 s2)|done].
Qed.

Lemma not_busy_alone s d :
  control online s → (∀ c, c ≠ d → stage (call (cores s c)) = Idle) → busy (cores s d) = false ∧
    (stage (call (cores s d)) ≠ Spin → ∀ c, busy (cores s c) = false).
Proof.
  intros Hc Ho. assert (Hn : ∀ c, busy (cores s c) = true → c ≠ d ∧ stage (call (cores s d)) = Spin).
  { intros c Hb. destruct (co_busy _ _ Hc c Hb) as (_ & e & He & Hne). destruct (decide (e = d)) as [->|Hed]; [done|].
    rewrite Ho in He by done. done. }
  split; [|intros Hs c]; apply not_true_iff_false; intros Hb; by destruct (Hn _ Hb).
Qed.

Lemma busy_false k : busy k = false → pending k = false ∧ handler k = HNone.
Proof. unfold busy. rewrite orb_false_iff, negb_false_iff, bool_decide_eq_true. done. Qed.

(** The statement after [st], where no core waits. *)
Definition next (st : Stage) : Stage :=
  match st with
  | Idle => Idle | Local => Disable | Disable => Acquire | Acquire => SetAddr | SetAddr => SetPages | SetPages => SetCores
  | SetCores => Send | Send => Spin | Spin => Spin | ClearAddr => ClearPages | ClearPages => Release | Release => Idle
  end.

Lemma alone_run s d st s' st' :
  alone st d s → act apic online vector (Run d) s = Some s' → stage (call (cores s' d)) = st' →
  (∀ c, c ≠ d → call (cores s' c) = call (cores s c) ∧ iflag (cores s' c) = iflag (cores s c) ∧ handler (cores s' c) = handler (cores s c)) →
  alone st' d s'.
Proof.
  intros [A1 A2 A3 A4] E Hst Ho. split; [by apply (control_act apic online vector Happic Hvector (Run d) s)|done| |].
  - intros c Hc. destruct (Ho c Hc) as (-> & _). by apply A3.
  - intros c Hc. destruct (Ho c Hc) as (_ & -> & ->). by apply A4.
Qed.

Lemma alone_step s d st :
  alone st d s → st ≠ Idle → st ≠ Spin →
  ∃ s', act apic online vector (Run d) s = Some s' ∧ ∃ st', alone st' d s' ∧ (st' = next st ∨ st' = Idle).
Proof.
  intros Ha Hi Hs. pose proof (an_stage _ _ _ Ha) as Est. destruct (not_busy_alone s d (an_control _ _ _ Ha) (an_idle _ _ _ Ha)) as [Hb _].
  destruct (busy_false _ Hb) as [_ Hh].
  assert (Hlock : st = Acquire → locked (shoot s) = false).
  { intros ->. apply not_true_iff_false. intros Hl. destruct (co_free _ _ (an_control _ _ _ Ha) Hl) as [c Hc].
    destruct (decide (c = d)) as [->|Hne]; [by rewrite Est in Hc|]. by rewrite (an_idle _ _ _ Ha c Hne) in Hc. }
  assert (Hok : ∃ s', vmm_invalidate_tlb_range apic online vector d s = Some s' ∧
    (stage (call (cores s' d)) = next st ∨ stage (call (cores s' d)) = Idle) ∧
    ∀ c, c ≠ d → call (cores s' c) = call (cores s c) ∧ iflag (cores s' c) = iflag (cores s c) ∧ handler (cores s' c) = handler (cores s c)).
  { unfold vmm_invalidate_tlb_range. rewrite Est. destruct st; try done; try rewrite Hlock by done; [case_match|..];
      (eexists; split; [reflexivity|]; split; [cbn [set_core cores]; rewrite update_same; simpl|
        intros c Hc; cbn [set_core cores]; rewrite update_ne by done; simpl]); try done; try (by left); try (by right).
    - case_match; [by left|by right].
    - destruct (vector =? 0); [done|]. simpl. by case_decide. }
  destruct Hok as (s' & E & Hst & Ho). exists s'. cbn [act]. rewrite decide_True by done. split; [done|].
  exists (stage (call (cores s' d))). split; [|done]. apply (alone_run s d st); try done. cbn [act]. by rewrite decide_True.
Qed.

(** From any statement, a call whose core is alone can run to its end. *)
Lemma alone_ends n : ∀ s d st,
  alone st d s → (match st with Idle => 0 | Release => 1 | ClearPages => 2 | ClearAddr => 3 | Spin => 4 | Send => 5 | SetCores => 6
    | SetPages => 7 | SetAddr => 8 | Acquire => 9 | Disable => 10 | Local => 11 end <= n)%nat →
  ∃ l s', run l s = Some s' ∧ alone Idle d s'.
Proof.
  induction n as [|n IH]; intros s d st Ha Hn.
  - destruct st; try lia. by exists [], s.
  - destruct (decide (st = Idle)) as [->|Hi]; [by exists [], s|]. destruct (decide (st = Spin)) as [->|Hs].
    + destruct (drain (Z.to_nat (active_cores (shoot s))) s d Ha ltac:(lia)) as (l1 & s1 & E1 & A1 & X1).
      destruct (not_busy_alone s1 d (an_control _ _ _ A1) (an_idle _ _ _ A1)) as [Hb _]. destruct (busy_false _ Hb) as [_ Hh].
      assert (E2 : ∃ s2, act apic online vector (Run d) s1 = Some s2 ∧ alone ClearAddr d s2).
      { assert (Hr : act apic online vector (Run d) s1 = Some (set_core d (goto ClearAddr (cores s1 d)) s1)).
        { cbn [act]. rewrite decide_True by done. unfold vmm_invalidate_tlb_range. rewrite (an_stage _ _ _ A1).
          by destruct (Z.ltb_spec 0 (active_cores (shoot s1))); [lia|]. }
        eexists. split; [exact Hr|]. apply (alone_run s1 d Spin _ _ A1 Hr); [simpl; by rewrite update_same|].
        intros c Hc. simpl. by rewrite update_ne. }
      destruct E2 as (s2 & E2 & A2). destruct (IH s2 d ClearAddr A2 ltac:(simpl; lia)) as (l3 & s3 & E3 & A3).
      exists (l1 ++ Run d :: l3), s3. split; [|done]. apply (acts_app l1 _ s s1); [done|]. cbn [acts]. by rewrite E2.
    + destruct (alone_step s d st Ha Hi Hs) as (s1 & E1 & st' & A1 & Hst). destruct (IH s1 d st' A1) as (l2 & s2 & E2 & A2).
      { destruct Hst as [-> | ->]; [|lia]. destruct st; simpl in *; try done; lia. }
      exists (Run d :: l2), s2. split; [|done]. cbn [acts]. by rewrite E1.
Qed.
End progress.

(** * Properties *)

(** C4: No stale translation survives an invalidation: in every reachable state, whatever
    the interleaving of calls, interrupts and the processors' own use of their TLBs, a
    core that has a page cached has the translation the page tables give now, unless some
    call of [vmm_invalidate_tlb_range] for that page has not returned yet. *)
Theorem tlb_no_stale apic online vector s c p t :
  apic = true ∨ online = 1%nat → vector ≠ 0 → reachable apic online vector s → (c < online)%nat →
  (∀ d, covered (virt_start (call (cores s d))) (pages (call (cores s d))) p = true → stage (call (cores s d)) = Idle) →
  tlb (cores s c) p = Some t → t = translation s p.
Proof.
  intros Ha Hv Hr Hc Hidle Ht. destruct (decide (t = translation s p)) as [|Hne]; [done|]. exfalso.
  destruct (tlb_reachable_inv apic online vector Ha Hv s Hr) as [_ Hf]. destruct (Hf c p Hc) as (d & Hcov & Hd); [by exists t|].
  unfold owes in Hd. by rewrite (Hidle d Hcov) in Hd.
Qed.

(** C14: A call that has started while no other core is in one returns under some schedule:
    every core that takes interrupts acknowledges, and the lock is released. *)
Theorem tlb_shootdown_completes apic online vector s d :
  apic = true ∨ online = 1%nat → vector ≠ 0 → reachable apic online vector s →
  (∀ c, c ≠ d → stage (call (cores s c)) = Idle ∧ iflag (cores s c) = true) →
  ∃ l s', acts apic online vector l s = Some s' ∧ (∀ c, stage (call (cores s' c)) = Idle) ∧ locked (shoot s') = false.
Proof.
  intros Ha Hv Hr Ho. destruct (tlb_reachable_inv apic online vector Ha Hv s Hr) as [Hc _].
  destruct (alone_ends apic online vector Ha Hv 11 s d (stage (call (cores s d)))) as (l & s' & E & A).
  { split; [done|done|intros c Hne; by apply Ho|]. intros c Hne. left. by apply Ho. }
  { destruct (stage (call (cores s d))); lia. }
  exists l, s'. split; [done|]. assert (Hidle : ∀ c, stage (call (cores s' c)) = Idle).
  { intros c. destruct (decide (c = d)) as [->|]; [by apply A|]. by apply A. }
  split; [done|]. apply not_true_iff_false. intros Hl. destruct (co_free _ _ (an_control _ _ _ _ A) Hl) as [c Hcr].
  by rewrite Hidle in Hcr.
Qed.

(** ** Two calls at once *)

(** Core 0 waits for core 1, which waits for the lock with interrupts off. *)
Record stuck (s : System) : Prop := {
  st_spin : stage (call (cores s 0)) = Spin;
  st_wait : stage (call (cores s 1)) = Acquire;
  st_masked : iflag (cores s 1) = false;
  st_locked : locked (shoot s) = true;
  st_active : 0 < active_cores (shoot s);
  st_handlers c : handler (cores s c) = HNone;
  st_pending c : pending (cores s c) = true → c = 1%nat;
  st_idle c : (2 <= c)%nat → stage (call (cores s c)) = Idle
}.

Lemma stuck_core s c k :
  stuck s → call k = call (cores s c) → (c = 1%nat → iflag k = false) → handler k = HNone → pending k = pending (cores s c) →
  stuck (set_core c k s).
Proof.
  intros [S1 S2 S3 S4 S5 S6 S7 S8] Hc Hi Hh Hp. split; cbn [set_core cores shoot]; unfold update; try done; intros; repeat case_decide; subst;
    rewrite ?Hc in *; rewrite ?Hp in *; auto.
Qed.

Lemma stuck_act vector a s s' : stuck s → act true 2 vector a s = Some s' → stuck s'.
Proof.
  intros Hs. pose proof Hs as [S1 S2 S3 S4 S5 S6 S7 S8]. destruct a as [c p|c p|c b|c v n t|c|c|c]; cbn [act].
  - intros [= <-]. apply stuck_core; try done; [by intros ->|apply S6].
  - intros [= <-]. apply stuck_core; try done; [by intros ->|apply S6].
  - case_match eqn:E; [|done]. intros [= <-]. apply stuck_core; try done; [|apply S6]. intros ->. unfold outside in E. by rewrite S2 in E.
  - case_match eqn:E; [|done]. rewrite !andb_true_iff in E. destruct E as (((E1 & E2) & _) & _). unfold outside in E1.
    destruct c as [|[|c]]; [by rewrite S1 in E1|by rewrite S2 in E1|by apply Nat.ltb_lt in E2; lia].
  - case_decide; [|done]. unfold vmm_invalidate_tlb_range. destruct c as [|[|c]].
    + rewrite S1. by destruct (Z.ltb_spec 0 (active_cores (shoot s))); [|lia].
    + by rewrite S2, S4.
    + by rewrite S8 by lia.
  - case_match eqn:E; [|done]. apply andb_true_iff in E as [E1 E2]. apply S7 in E2 as ->. congruence.
  - unfold tlb_shootdown_handler. by rewrite S6.
Qed.

Lemma acts_reachable apic online vector l s s' :
  reachable apic online vector s → acts apic online vector l s = Some s' → reachable apic online vector s'.
Proof.
  revert s. induction l as [|a l IH]; intros s Hr; cbn [acts]; [by intros [= <-]|].
  destruct (act apic online vector a s) as [s1|] eqn:E; [|done]. apply IH. by apply (reach_act _ _ _ a s).
Qed.

Definition two_calls : list Action :=
  [Change 0 0x1000 1 (λ _, 7); Change 1 0x2000 1 (λ _, 8); Run 0; Run 0; Run 1; Run 1; Run 0; Run 0; Run 0; Run 0; Run 0].

(** Two cores that invalidate at the same time wait for each other for ever: the one that
    holds the lock waits for an acknowledgement, the other waits for the lock with
    interrupts disabled and cannot acknowledge. *)
Theorem tlb_shootdown_deadlock :
  ∃ s, reachable true 2 0xF0 s ∧
    ∀ l s', acts true 2 0xF0 l s = Some s' → stage (call (cores s' 0)) = Spin ∧ stage (call (cores s' 1)) = Acquire.
Proof.
  destruct (acts true 2 0xF0 two_calls (boot (λ _, 0))) as [s|] eqn:E; [|by vm_compute in E].
  exists s. split; [eapply acts_reachable; [apply reach_boot|exact E]|].
  assert (Hs : stuck s).
  { vm_compute in E. injection E as <-. split; try (vm_compute; reflexivity).
    - intros [|[|c]]; vm_compute; reflexivity.
    - intros [|[|c]]; vm_compute; intros Hc; done.
    - intros [|[|c]] Hc; [lia|lia|]. vm_compute. reflexivity. }
  clear E. intros l. revert s Hs. induction l as [|a l IH]; intros s Hs s'; cbn [acts]; [intros [= <-]; split; apply Hs|].
  destruct (act true 2 0xF0 a s) as [s1|] eqn:E; [|done]. apply IH. by apply (stuck_act 0xF0 a s).
Qed.

(** ** Witnesses *)

(** Core 0 changes a page that core 1 has cached; core 1 uses the page again afterwards. *)
Definition one_call : list Action :=
  [Fill 1 1; Change 0 0x1000 1 (λ _, 7); Run 0; Run 0; Run 0; Run 0; Run 0; Run 0; Run 0; Take 1; Handle 1; Handle 1;
   Run 0; Run 0; Run 0; Run 0; Fill 1 1].

Lemma tlb_no_stale_witness :
  ∃ s, acts true 2 0xF0 one_call (boot (λ _, 0)) = Some s ∧ tlb (cores s 1) 1 = Some 7 ∧ 7 = translation s 1.
Proof.
  destruct (acts true 2 0xF0 one_call (boot (λ _, 0))) as [s|] eqn:E; [|by vm_compute in E].
  exists s. split; [reflexivity|]. assert (Hr : reachable true 2 0xF0 s) by (eapply acts_reachable; [apply reach_boot|exact E]).
  vm_compute in E. injection E as E. rewrite <-E in *. split; [vm_compute; reflexivity|].
  apply (tlb_no_stale true 2 0xF0 _ 1 1 7 (or_introl eq_refl) ltac:(done) Hr ltac:(lia)).
  - intros [|[|d]] _; vm_compute; reflexivity.
  - vm_compute. reflexivity.
Defined.

Lemma tlb_shootdown_completes_witness :
  ∃ s, acts true 2 0xF0 [Fill 1 1; Change 0 0x1000 1 (λ _, 7)] (boot (λ _, 0)) = Some s ∧ stage (call (cores s 0)) = Local ∧
    ∃ l s', acts true 2 0xF0 l s = Some s' ∧ (∀ c, stage (call (cores s' c)) = Idle) ∧ locked (shoot s') = false.
Proof.
  destruct (acts true 2 0xF0 [Fill 1 1; Change 0 0x1000 1 (λ _, 7)] (boot (λ _, 0))) as [s|] eqn:E; [|by vm_compute in E].
  exists s. split; [reflexivity|]. assert (Hr : reachable true 2 0xF0 s) by (eapply acts_reachable; [apply reach_boot|exact E]).
  vm_compute in E. injection E as E. rewrite <-E in *. split; [vm_compute; reflexivity|].
  apply (tlb_shootdown_completes true 2 0xF0 _ 0 (or_introl eq_refl) ltac:(done) Hr).
  intros [|[|c]] Hc; [done|split; vm_compute; reflexivity|split; vm_compute; reflexivity].
Defined.
