(* ===== verification/Vma.v ===== *)
(** Virtual memory areas (src/mm/vma.cpp): the sorted list of a process's address
    ranges, with lookup, insertion, exact removal, unmapping of an arbitrary range
    (trimming and splitting areas) and cloning for fork. The linked list is a Rocq
    list; [malloc] is a stream of outcomes, so every out-of-memory path is a case. *)

From S2P Require Import Prelude.

(** * Model *)

Inductive VMAType := Generic | Text | Data | Stack | Heap | Mmio | Anonymous | Shared.

Record VMA := mkVMA {
  start : Z;
  end_ : Z;
  flags : Z;
  vtype : VMAType;
  is_cow : bool
}.

#[export] Instance VMAType_eq_dec : EqDecision VMAType.
Proof. solve_decision. Defined.
#[export] Instance VMA_eq_dec : EqDecision VMA.
Proof. solve_decision. Defined.

Fixpoint vma_find (l : list VMA) (addr : Z) : option VMA :=
  match l with
  | [] => None
  | current :: next =>
      if (start current <=? addr) && (addr <? end_ current) then Some current
      else vma_find next addr
  end.

(** The insertion loop of [vma_add], from a link of the list. *)
Fixpoint add_link (link : list VMA) (new_vma : VMA) (heap : list bool)
    : option VMA * list VMA * list bool :=
  let alloc :=
    let '(ok, heap') := malloc_next heap in
    if ok then (Some new_vma, new_vma :: link, heap') else (None, link, heap') in
  match link with
  | [] => alloc
  | cur :: next =>
      if start cur <? start new_vma then
        if start new_vma <? end_ cur then (None, link, heap)
        else let '(r, next', heap') := add_link next new_vma heap in (r, cur :: next', heap')
      else if start cur <? end_ new_vma then (None, link, heap) else alloc
  end.

Definition sentinel : VMA := mkVMA 0 0 0 Generic false.

(** The result pointer, the list head after the call, and the heap. *)
Definition vma_add (l : list VMA) (s e fl : Z) (ty : VMAType) (heap : list bool)
    : option VMA * list VMA * list bool :=
  if e <=? s then (None, l, heap)
  else
    let new_vma := mkVMA s e fl ty false in
    match l with
    | [] =>
        let '(ok, heap') := malloc_next heap in
        if ok then add_link [sentinel] new_vma heap' else (None, [], heap')
    | _ => add_link l new_vma heap
    end.

Fixpoint vma_remove (l : list VMA) (s e : Z) : list VMA :=
  match l with
  | [] => []
  | cur :: next =>
      if (start cur =? s) && (end_ cur =? e) then next else cur :: vma_remove next s e
  end.

Definition with_start (v : VMA) (s : Z) : VMA := mkVMA s (end_ v) (flags v) (vtype v) (is_cow v).
Definition with_end (v : VMA) (e : Z) : VMA := mkVMA (start v) e (flags v) (vtype v) (is_cow v).

(** The loop of [vma_unmap]: the five overlap cases, in the source's order. *)
Fixpoint unmap_link (link : list VMA) (s e : Z) (heap : list bool) : bool * list VMA * list bool :=
  match link with
  | [] => (true, [], heap)
  | curr :: next =>
      let keep (front : list VMA) heap :=
        let '(ok, next', heap') := unmap_link next s e heap in (ok, front ++ next', heap') in
      if (e <=? start curr) || (end_ curr <=? s) then keep [curr] heap
      else if (s <=? start curr) && (end_ curr <=? e) then keep [] heap
      else if (s <=? start curr) && (e <? end_ curr) then keep [with_start curr e] heap
      else if (start curr <? s) && (end_ curr <=? e) then keep [with_end curr s] heap
      else
        let '(ok, heap') := malloc_next heap in
        if ok then keep [with_end curr s; with_start curr e] heap'
        else (false, link, heap')
  end.

Definition vma_unmap (l : list VMA) (s e : Z) (heap : list bool) : bool * list VMA * list bool :=
  if e <=? s then (false, l, heap) else unmap_link l s e heap.

(** [None]: an allocation failed, the partial copy was freed and null returned. *)
Fixpoint vma_clone (src_list : list VMA) (heap : list bool) : option (list VMA) * list bool :=
  match src_list with
  | [] => (Some [], heap)
  | current :: next =>
      let '(ok, heap') := malloc_next heap in
      if ok then
        let '(r, heap'') := vma_clone next heap' in
        (option_map (cons current) r, heap'')
      else (None, heap')
  end.

(** * Specification *)

(** The address space a list stands for: what each address is mapped as. *)
Definition mapping (l : list VMA) (a : Z) : option (Z * VMAType * bool) :=
  (λ v, (flags v, vtype v, is_cow v)) <$> vma_find l a.

(** Areas in address order, not overlapping; only the list head may be empty (the
    sentinel). *)
Fixpoint ordered (lo : Z) (l : list VMA) : Prop :=
  match l with
  | [] => True
  | v :: l' => lo <= start v ∧ start v < end_ v ∧ ordered (end_ v) l'
  end.

Definition vma_wf (l : list VMA) : Prop :=
  l = [] ∨ (∃ l', l = sentinel :: l' ∧ ordered 0 l').

(** [s, e) meets no area of the list. *)
Definition unused (l : list VMA) (s e : Z) : Prop := ∀ a, s <= a < e → mapping l a = None.

(** * Lemmas *)

Lemma mapping_cons v l a :
  mapping (v :: l) a =
    if decide (start v <= a < end_ v) then Some (flags v, vtype v, is_cow v) else mapping l a.
Proof.
  unfold mapping. simpl.
  destruct (Z.leb_spec (start v) a), (Z.ltb_spec a (end_ v)); simpl; dec_goal; done || lia.
Qed.

Lemma ordered_weaken lo lo' l : lo' <= lo → ordered lo l → ordered lo' l.
Proof. destruct l; simpl; [done|]. intros ? (? & ? & ?). split_and!; [lia|done..]. Qed.

Lemma ordered_below lo l a : ordered lo l → a < lo → mapping l a = None.
Proof.
  revert lo. induction l as [|v l IH]; intros lo; simpl; [done|]. intros (H1 & H2 & H3) Ha.
  rewrite mapping_cons, decide_False by lia. apply (IH (end_ v)); [done|lia].
Qed.

Lemma mapping_sentinel l a : mapping (sentinel :: l) a = mapping l a.
Proof. rewrite mapping_cons. simpl. by rewrite decide_False by lia. Qed.

Lemma add_link_spec nv l : ∀ lo heap r l' heap',
  ordered lo l → lo <= start nv < end_ nv → add_link l nv heap = (r, l', heap') →
  (r = None ∧ l' = l ∧ (¬ unused l (start nv) (end_ nv) ∨ (malloc_next heap).1 = false)) ∨
  (r = Some nv ∧ unused l (start nv) (end_ nv) ∧ ordered lo l' ∧
   ∀ a, mapping l' a = if decide (start nv <= a < end_ nv)
                       then Some (flags nv, vtype nv, is_cow nv) else mapping l a).
Proof.
  induction l as [|v l IH]; intros lo heap r l' heap' Hl Hs E; simpl in E.
  { destruct (malloc_next heap) as [ok h] eqn:Em. destruct ok; simplify_eq; [right|left; eauto].
    split; [done|]. split; [done|]. split; [simpl; lia|]. intros a. by rewrite mapping_cons. }
  destruct Hl as (H1 & H2 & H3). destruct (Z.ltb_spec (start v) (start nv)).
  - destruct (Z.ltb_spec (start nv) (end_ v)).
    { simplify_eq. left. do 2 (split; [done|]). left. intros Hu. specialize (Hu (start nv) ltac:(lia)).
      by rewrite mapping_cons, decide_True in Hu by lia. }
    destruct (add_link l nv heap) as [[r0 l0] h0] eqn:E0. simplify_eq.
    assert (Huc : ∀ a, start nv <= a → mapping (v :: l) a = mapping l a).
    { intros a Ha. by rewrite mapping_cons, decide_False by lia. }
    destruct (IH (end_ v) heap r l0 heap' H3 ltac:(lia) E0) as [(-> & -> & Hw)|(-> & Hu & Ho & Hm)].
    + left. do 2 (split; [done|]). destruct Hw as [Hw|]; [left|by right].
      intros Hu. apply Hw. intros a Ha. by rewrite <-Huc by lia; apply Hu.
    + right. split; [done|]. split; [intros a Ha; rewrite Huc by lia; by apply Hu|].
      split; [done|]. intros a. rewrite !mapping_cons, Hm. repeat dec_goal; done || lia.
  - destruct (Z.ltb_spec (start v) (end_ nv)).
    { simplify_eq. left. do 2 (split; [done|]). left. intros Hu.
      specialize (Hu (start v) ltac:(lia)). by rewrite mapping_cons, decide_True in Hu by lia. }
    assert (Hu : unused (v :: l) (start nv) (end_ nv)).
    { intros a Ha. apply (ordered_below (end_ nv)); [simpl; done|lia]. }
    destruct (malloc_next heap) as [ok h] eqn:Em. destruct ok; simplify_eq.
    + right. split; [done|]. split; [done|]. split; [simpl; split_and!; done || lia|]. intros a. by rewrite mapping_cons.
    + left. eauto.
Qed.

(** Above [s] no area needs a split, so unmapping cannot fail. *)
Lemma unmap_link_above s e l : ∀ lo heap,
  s <= lo → ordered lo l → (unmap_link l s e heap).1.1 = true.
Proof.
  induction l as [|v l IH]; intros lo heap Hs; simpl; [done|]. intros (H1 & H2 & H3).
  assert (∀ h, (unmap_link l s e h).1.1 = true) as Hok by (intros; apply (IH (end_ v)); [lia|done]).
  specialize (Hok heap). destruct (unmap_link l s e heap) as [[ok l'] h]; simpl in *.
  destruct (Z.leb_spec e (start v)), (Z.leb_spec (end_ v) s), (Z.leb_spec s (start v)),
    (Z.leb_spec (end_ v) e), (Z.ltb_spec e (end_ v)); simpl; done || lia.
Qed.

(** What is left of area [v] after unmapping: [front] covers [v] minus [s, e). *)
Lemma unmap_front s e v front lo l l' :
  start v < end_ v → lo <= start v → s < e →
  (∀ a, mapping front a = if decide (s <= a < e) then None else mapping [v] a) →
  (∀ t, ordered (end_ v) t → ordered lo (front ++ t)) →
  ordered (end_ v) l → ordered (end_ v) l' →
  (∀ a, ¬ (s <= a < e) → mapping l' a = mapping l a) →
  ordered lo (front ++ l') ∧
  (∀ a, ¬ (s <= a < e) → mapping (front ++ l') a = mapping (v :: l) a) ∧
  ((∀ a, s <= a < e → mapping l' a = None) → ∀ a, s <= a < e → mapping (front ++ l') a = None).
Proof.
  intros Hv Hlo Hse Hf Ho Hl Hl' Hout. split; [by apply Ho|].
  assert (Happ : ∀ a, mapping (front ++ l') a =
    match mapping front a with Some x => Some x | None => mapping l' a end).
  { intros a. clear. induction front as [|u f IH]; [done|]. simpl. rewrite !mapping_cons, IH.
    by dec_goal. }
  split.
  - intros a Ha. rewrite Happ, Hf, decide_False, !mapping_cons by lia. dec_goal; [done|]. by apply Hout.
  - intros Hin a Ha. rewrite Happ, Hf, decide_True by lia. by apply Hin.
Qed.

Lemma unmap_link_spec s e l : ∀ lo heap ok l' heap',
  s < e → ordered lo l → unmap_link l s e heap = (ok, l', heap') →
  ordered lo l' ∧
  (∀ a, ¬ (s <= a < e) → mapping l' a = mapping l a) ∧
  (ok = true → ∀ a, s <= a < e → mapping l' a = None) ∧
  (ok = false → (malloc_next heap).1 = false ∧ l' = l).
Proof.
  induction l as [|v l IH]; intros lo heap ok l' heap' Hse Hl E; simpl in E; [by simplify_eq|].
  pose proof Hl as (H1 & H2 & H3).
  assert (Hrest : ∀ front h,
    (let '(ok, next', heap') := unmap_link l s e h in (ok, front ++ next', heap')) = (ok, l', heap') →
    (∀ a, mapping front a = if decide (s <= a < e) then None else mapping [v] a) →
    (∀ t, ordered (end_ v) t → ordered lo (front ++ t)) →
    (s < end_ v ∨ (front = [v] ∧ h = heap)) →
    ordered lo l' ∧ (∀ a, ¬ (s <= a < e) → mapping l' a = mapping (v :: l) a) ∧
    (ok = true → ∀ a, s <= a < e → mapping l' a = None) ∧
    (ok = false → (malloc_next heap).1 = false ∧ l' = v :: l)).
  { intros front h E' Hf Ho Hok. pose proof (unmap_link_above s e l (end_ v) h) as Hab.
    destruct (unmap_link l s e h) as [[ok0 l0] h0] eqn:E0. simplify_eq.
    destruct (IH (end_ v) h ok l0 heap' Hse H3 E0) as (G1 & G2 & G3 & G4).
    destruct (unmap_front s e v front lo l l0) as (F1 & F2 & F3); [done..|].
    split; [done|]. split; [done|]. split; [intros Hk; apply F3; by apply G3|].
    intros ->. destruct Hok as [Hok|[-> ->]]; [specialize (Hab ltac:(lia) H3); done|].
    destruct (G4 eq_refl) as [? ->]. done. }
  destruct (Z.leb_spec e (start v)), (Z.leb_spec (end_ v) s), (Z.leb_spec s (start v)),
    (Z.leb_spec (end_ v) e), (Z.ltb_spec e (end_ v)), (Z.ltb_spec (start v) s);
    simpl in E; try lia.
  all: try match type of E with context [malloc_next] =>
    destruct (malloc_next heap) as [[] h] eqn:Em; [|by simplify_eq] end.
  all: first [ eapply (Hrest [v] _ E) | eapply (Hrest [] _ E) | eapply (Hrest [with_start v e] _ E)
             | eapply (Hrest [with_end v s] _ E) | eapply (Hrest [with_end v s; with_start v e] _ E) ];
    [ intros a; rewrite ?mapping_cons; simpl; repeat dec_goal; done || lia
    | intros t Ht; simpl; try split_and!; try done; try lia; (apply (ordered_weaken (end_ v)); [lia|done])
    | lia || auto ].
Qed.

Lemma vma_unmap_spec l s e heap ok l' heap' :
  vma_wf l → 0 <= s < e → vma_unmap l s e heap = (ok, l', heap') →
  vma_wf l' ∧ (∀ a, ¬ (s <= a < e) → mapping l' a = mapping l a) ∧
  (ok = true → ∀ a, s <= a < e → mapping l' a = None) ∧
  (ok = false → (malloc_next heap).1 = false ∧ l' = l).
Proof.
  intros Hwf Hse. unfold vma_unmap. destruct (Z.leb_spec e s); [lia|].
  destruct Hwf as [->|(t & -> & Ht)]; simpl; [intros; simplify_eq; split; [by left|done]|].
  destruct (Z.leb_spec e 0); [lia|]. destruct (Z.leb_spec 0 s); [|lia]. simpl.
  destruct (unmap_link t s e heap) as [[ok0 t'] h0] eqn:E. intros. simplify_eq.
  destruct (unmap_link_spec s e t 0 heap ok t' heap') as (G1 & G2 & G3 & G4); [lia|done|done|].
  split; [right; by exists t'|].
  split; [intros a Ha; rewrite !mapping_sentinel; by apply G2|].
  split; [intros Hk a Ha; rewrite mapping_sentinel; by apply G3|].
  intros Hk. by destruct (G4 Hk) as [? ->].
Qed.

Lemma vma_add_spec l s e fl ty heap r l' heap' :
  vma_wf l → 0 <= s → vma_add l s e fl ty heap = (r, l', heap') →
  vma_wf l' ∧
  match r with
  | None => (∀ a, mapping l' a = mapping l a) ∧
      (e <= s ∨ s = 0 ∨ ¬ unused l s e ∨ ¬ (∃ h, heap = true :: true :: h))
  | Some v => v = mkVMA s e fl ty false ∧ 0 < s < e ∧ unused l s e ∧
      ∀ a, mapping l' a = if decide (s <= a < e) then Some (fl, ty, false) else mapping l a
  end.
Proof.
  intros Hwf Hs. unfold vma_add. destruct (Z.leb_spec e s); [intros; simplify_eq; auto|].
  assert (Hcore : ∀ t h, ordered 0 t → add_link (sentinel :: t) (mkVMA s e fl ty false) h = (r, l', heap') →
    vma_wf l' ∧
    match r with
    | None => (∀ a, mapping l' a = mapping t a) ∧ (s = 0 ∨ ¬ unused t s e ∨ (malloc_next h).1 = false)
    | Some v => v = mkVMA s e fl ty false ∧ 0 < s < e ∧ unused t s e ∧
        ∀ a, mapping l' a = if decide (s <= a < e) then Some (fl, ty, false) else mapping t a
    end).
  { intros t h Ht. simpl. destruct (Z.ltb_spec 0 s).
    2: { destruct (Z.ltb_spec 0 e); [|lia]. intros. simplify_eq. split; [right; by exists t|].
         split; [intros; by rewrite mapping_sentinel|left; lia]. }
    destruct (Z.ltb_spec s 0); [lia|].
    destruct (add_link t _ h) as [[r0 t'] h0] eqn:E. intros. simplify_eq.
    destruct (add_link_spec (mkVMA s e fl ty false) t 0 h r t' heap' Ht ltac:(simpl; lia) E)
      as [(-> & -> & Hw)|(-> & Hu & Ho & Hm)]; simpl in *.
    - split; [right; by exists t|]. split; [intros; by rewrite mapping_sentinel|tauto].
    - split; [right; by exists t'|]. do 2 (split; [done || lia|]). split; [done|].
      intros a. rewrite mapping_sentinel. apply Hm. }
  destruct Hwf as [->|(t & -> & Ht)].
  - destruct heap as [|[] heap]; simpl.
    + intros. simplify_eq. split; [by left|]. split; [done|]. do 3 right. by intros [].
    + intros E. destruct (Hcore [] heap I E) as [G1 G2]. split; [done|].
      destruct r; [done|]. destruct G2 as [G2 G3]. split; [done|].
      destruct G3 as [?|[?|G3]]; [auto|auto|]. do 3 right. intros [h Hh]. by simplify_eq.
    + intros. simplify_eq. split; [by left|]. split; [done|]. do 3 right. by intros [].
  - intros E. destruct (Hcore t heap Ht E) as [G1 G2]. split; [done|].
    assert (Hun : unused (sentinel :: t) s e ↔ unused t s e).
    { unfold unused. by setoid_rewrite mapping_sentinel. }
    destruct r.
    + destruct G2 as (? & ? & ? & G2). rewrite Hun. do 3 (split; [done|]).
      intros a. by rewrite G2, mapping_sentinel.
    + destruct G2 as [G2 G3]. rewrite Hun. split; [intros; by rewrite G2, mapping_sentinel|].
      destruct G3 as [?|[?|G3]]; [auto|auto|]. do 3 right. intros [h ->]. done.
Qed.

Lemma vma_clone_spec l : ∀ heap,
  vma_clone l heap =
    (if decide (take (length l) heap = replicate (length l) true) then Some l else None,
     (vma_clone l heap).2).
Proof.
  induction l as [|v l IH]; intros heap; [done|].
  destruct heap as [|[] heap]; [done| |by simpl; destruct heap].
  specialize (IH heap). simpl. destruct (vma_clone l heap) as [r h]. simpl in *.
  injection IH as ->. f_equal. repeat dec_goal; simpl; congruence.
Qed.

(** * Properties *)

(** C25: [vma_unmap] of any range leaves the areas ordered and disjoint and every
    address outside the range mapped exactly as before; on success no address of
    the range is mapped any more, however many areas it trims, drops or splits.
    It can fail only because a split found no memory, and then nothing changed. *)
Theorem vma_unmap_correct l s e heap :
  vma_wf l → 0 <= s < e →
  let '(ok, l', _) := vma_unmap l s e heap in
  vma_wf l' ∧
  if ok then ∀ a, mapping l' a = if decide (s <= a < e) then None else mapping l a
  else l' = l ∧ (malloc_next heap).1 = false.
Proof.
  intros Hwf Hse. destruct (vma_unmap l s e heap) as [[ok l'] h'] eqn:E.
  destruct (vma_unmap_spec l s e heap ok l' h') as (G1 & G2 & G3 & G4); [done..|].
  split; [done|]. destruct ok; [|by destruct (G4 eq_refl)].
  intros a. dec_goal; [by apply G3|by apply G2].
Qed.

Definition sample_vmas : list VMA :=
  [sentinel; mkVMA 0x1000 0x5000 5 Text false; mkVMA 0x5000 0x6000 7 Data true; mkVMA 0x8000 0x9000 7 Heap false].

Lemma sample_vmas_wf : vma_wf sample_vmas.
Proof. right. eexists. split; [reflexivity|]. simpl. lia. Qed.

Lemma vma_unmap_correct_witness :
  let '(ok, l', _) := vma_unmap sample_vmas 0x2000 0x3000 [true] in
  ok = true ∧ vma_wf l' ∧ mapping l' 0x2800 = None ∧ mapping l' 0x3000 = Some (5, Text, false).
Proof.
  pose proof (vma_unmap_correct sample_vmas 0x2000 0x3000 [true] sample_vmas_wf ltac:(lia)) as H.
  destruct (vma_unmap sample_vmas 0x2000 0x3000 [true]) as [[ok l'] h] eqn:E.
  vm_compute in E. injection E as <- <- _. destruct H as [H _].
  split; [reflexivity|]. split; [exact H|]. split; reflexivity.
Defined.

(** C29: [vma_add] maps exactly the requested range with the requested attributes and
    only over unused addresses, keeps the list ordered, and leaves every other
    address alone; it refuses only an empty range, a range that starts at address 0
    (the sentinel's), one that meets an existing area, or when memory is short, and
    a refusal changes no mapping. *)
Theorem vma_add_correct l s e fl ty heap :
  vma_wf l → 0 <= s →
  let '(r, l', _) := vma_add l s e fl ty heap in
  vma_wf l' ∧
  match r with
  | None => (∀ a, mapping l' a = mapping l a) ∧
      (e <= s ∨ s = 0 ∨ ¬ unused l s e ∨ ¬ (∃ h, heap = true :: true :: h))
  | Some v => v = mkVMA s e fl ty false ∧ 0 < s < e ∧ unused l s e ∧
      ∀ a, mapping l' a = if decide (s <= a < e) then Some (fl, ty, false) else mapping l a
  end.
Proof.
  intros Hwf Hs. destruct (vma_add l s e fl ty heap) as [[r l'] h'] eqn:E.
  by eapply vma_add_spec.
Qed.

Lemma vma_add_correct_witness :
  let '(r, l', _) := vma_add sample_vmas 0x6000 0x8000 3 Anonymous [true; true] in
  r = Some (mkVMA 0x6000 0x8000 3 Anonymous false) ∧ vma_wf l' ∧
  mapping l' 0x7FFF = Some (3, Anonymous, false).
Proof.
  pose proof (vma_add_correct sample_vmas 0x6000 0x8000 3 Anonymous [true; true] sample_vmas_wf ltac:(lia)) as H.
  destruct (vma_add sample_vmas 0x6000 0x8000 3 Anonymous [true; true]) as [[r l'] h] eqn:E.
  vm_compute in E. injection E as <- <- _. destruct H as [H _].
  split; [reflexivity|]. split; [exact H|reflexivity].
Defined.
