(* ===== verification/Vmm.v ===== *)
(** The rest of the virtual memory manager (src/mm/vmm.cpp): the page-fault handler with
    demand paging and copy on write, the creation of address spaces, and mappings of
    device registers and DMA buffers, which combine the page tables, the allocator of
    kernel virtual ranges and the frame allocator. *)

From S2P Require Import Prelude Bitmap Pmm Frames Paging Dma Vma.

(** * Model *)

Definition PTE_MMIO : Z := Z.lor (Z.lor (Z.lor (Z.lor PTE_PRESENT PTE_WRITABLE) PTE_PCD) PTE_PWT) PTE_NX.
Definition PTE_UC : Z := PTE_MMIO.
Definition PTE_WC : Z := Z.lor (Z.lor (Z.lor PTE_PRESENT PTE_WRITABLE) PTE_PCD) PTE_NX.

(** What the fault handler uses of a process. *)
Record Process := mkProcess { page_table : Z; vma_list : list VMA }.

(** Device mappings change the kernel's page tables and the table of ranges. *)
Record Kernel (P : Type) := mkKernel { kphys : Phys P; kdma : Dma }.
Arguments mkKernel {P} _ _.
Arguments kphys {P} _.
Arguments kdma {P} _.

Record DMAAllocation := mkAlloc { dvirt : Z; dphys : Z; dsize : Z }.
Definition no_alloc : DMAAllocation := mkAlloc 0 0 0.

Definition UINT64_MAX : Z := 2 ^ 64 - 1.

(** [memcpy(dst, src, 4096)] between frames. *)
Definition copy_frame (w : Z → Z) (dst src : Z) : Z → Z := fill_table w dst (λ i, w (src + 8 * i)).

Section vmm.
Context {P : Type} `{Frames P}.

Definition vmm_create_address_space (g_pml4 : Z) (m : Phys P) : res (Z * Phys P) :=
  '(frame, p) ← alloc_frame (frames m);
  if frame =? 0 then Ok (0, mkPhys p (words m))
  else
    let w := fill_table (words m) frame (λ _, 0) in
    Ok (frame, mkPhys p (fill_table w frame (λ i, if i <? 256 then w (frame + 8 * i) else w (g_pml4 + 8 * i)))).

(** Giving the faulting page a frame: [phys] is its translation, zero if it has none. *)
Definition fault_in (root page_vaddr map_flags phys : Z) (vma_type : VMAType) (m : Phys P) : res (bool * Phys P) :=
  if phys =? 0 then
    '(new_frame, p) ← alloc_frame (frames m);
    if new_frame =? 0 then Ok (false, mkPhys p (words m))
    else
      '(ok, m) ← vmm_map_page_in root page_vaddr new_frame map_flags (mkPhys p (fill_table (words m) new_frame (λ _, 0)));
      if (ok : bool) then Ok (true, m)
      else p ← free_frame new_frame (frames m); Ok (false, mkPhys p (words m))
  else if decide (vma_type = Shared) then
    m ← vmm_set_page_flags root page_vaddr map_flags m; Ok (true, m)
  else
    refcount ← get_refcount phys (frames m);
    if 1 <? refcount then
      '(new_frame, p) ← alloc_frame (frames m);
      if new_frame =? 0 then Ok (false, mkPhys p (words m))
      else
        '(ok, m) ← vmm_map_page_in root page_vaddr new_frame map_flags (mkPhys p (copy_frame (words m) new_frame phys));
        if (ok : bool) then p ← refcount_dec phys (frames m); Ok (true, mkPhys p (words m))
        else p ← free_frame new_frame (frames m); Ok (false, mkPhys p (words m))
    else vmm_map_page_in root page_vaddr phys map_flags m.

Definition vmm_handle_page_fault (curr : option Process) (fault_addr error_code : Z) (m : Phys P) : res (bool * Phys P) :=
  let present_fault := has error_code 1 in
  let write_fault := has error_code 2 in
  match curr with
  | None => Ok (false, m)
  | Some curr =>
      if bool_decide (vma_list curr = []) || (page_table curr =? 0) then Ok (false, m)
      else if present_fault && negb write_fault then Ok (false, m)
      else if USER_END <=? fault_addr then Ok (false, m)
      else
        match vma_find (vma_list curr) fault_addr with
        | None => Ok (false, m)
        | Some vma =>
            let page_vaddr := Z.land fault_addr (u64 (Z.lnot 0xFFF)) in
            let map_flags := Z.lor (Vma.flags vma) PTE_PRESENT in
            let map_flags := if page_vaddr <? USER_END then Z.lor map_flags PTE_USER else map_flags in
            if write_fault && negb (has (Vma.flags vma) PTE_WRITABLE) then Ok (false, m)
            else
              let phys := vmm_virt_to_phys_in (page_table curr) page_vaddr m in
              fault_in (page_table curr) page_vaddr map_flags phys (vtype vma) m
        end
  end.

(** ** Ranges of pages *)

(** [Some i]: page [i] could not be mapped. *)
Fixpoint map_range (root virt phys flags : Z) (n : nat) (i : Z) (m : Phys P) : res (option Z * Phys P) :=
  match n with
  | O => Ok (None, m)
  | S n' =>
      '(ok, m) ← vmm_map_page_in root (u64 (virt + i * 0x1000)) (u64 (phys + i * 0x1000)) flags m;
      if (ok : bool) then map_range root virt phys flags n' (i + 1) m else Ok (Some i, m)
  end.

Definition unmap_range (root virt : Z) (n : Z) (m : Phys P) : res (Phys P) :=
  for_upto (Z.to_nat n) 0 (λ j m, vmm_unmap_page_no_flush_in root (u64 (virt + j * 0x1000)) m) m.

Definition free_range (phys n : Z) (p : P) : res P :=
  for_upto (Z.to_nat n) 0 (λ frame p, free_frame (u64 (phys + frame * 0x1000)) p) p.

Definition vmm_map_mmio (g_pml4 phys_addr size : Z) (k : Kernel P) : res (Z * Kernel P) :=
  if size =? 0 then Ok (0, k)
  else
    let phys_page := Z.land phys_addr (u64 (Z.lnot 0xFFF)) in
    let offset := Z.land phys_addr 0xFFF in
    if (UINT64_MAX - offset <? size) || (UINT64_MAX - 0xFFF <? u64 (size + offset)) then Ok (0, k)
    else
      let pages := u64 (u64 (size + offset) + 0xFFF) / 0x1000 in
      if (pages =? 0) || (UINT64_MAX / 0x1000 <? pages) then Ok (0, k)
      else
        let map_size := u64 (pages * 0x1000) in
        if MASSIVE_MAPPING_THRESHOLD <? map_size then Panic "vmm: sanity check failed: massive mmio mapping requested"
        else
          let next := g_mmio_next_virt (kdma k) in
          if (g_mmio_limit_virt <? next) || (g_mmio_limit_virt - next <? map_size) then
            Panic "vmm: mmio virtual address space exhausted"
          else
            '(virt_base, d) ← dma_alloc_virt_range map_size (kdma k);
            '(failed, m) ← map_range g_pml4 virt_base phys_page PTE_MMIO (Z.to_nat pages) 0 (kphys k);
            match failed with
            | Some i =>
                m ← unmap_range g_pml4 virt_base i m;
                d ← dma_free_virt_range virt_base map_size d;
                Ok (0, mkKernel m d)
            | None => Ok (u64 (virt_base + offset), mkKernel m d)
            end.

Definition vmm_alloc_dma_with_flags (g_pml4 pages flags : Z) (k : Kernel P) : res (DMAAllocation * Kernel P) :=
  if pages =? 0 then Ok (no_alloc, k)
  else
    let m := kphys k in
    '(phys, p) ← alloc_frames pages (frames m);
    let m := mkPhys p (words m) in
    if phys =? 0 then Ok (no_alloc, mkKernel m (kdma k))
    else if UINT64_MAX / 0x1000 <? pages then
      p ← free_range phys pages p; Ok (no_alloc, mkKernel (mkPhys p (words m)) (kdma k))
    else
      let size := u64 (pages * 0x1000) in
      '(virt_base, d) ← dma_alloc_virt_range size (kdma k);
      '(failed, m) ← map_range g_pml4 virt_base phys flags (Z.to_nat pages) 0 m;
      match failed with
      | Some i =>
          m ← unmap_range g_pml4 virt_base i m;
          p ← free_range phys pages (frames m);
          d ← dma_free_virt_range virt_base size d;
          Ok (no_alloc, mkKernel (mkPhys p (words m)) d)
      | None => Ok (mkAlloc virt_base phys size, mkKernel m d)
      end.

Definition vmm_alloc_dma (g_pml4 pages : Z) (k : Kernel P) : res (DMAAllocation * Kernel P) :=
  vmm_alloc_dma_with_flags g_pml4 pages PTE_UC k.

Definition vmm_free_dma (g_pml4 : Z) (alloc : DMAAllocation) (k : Kernel P) : res (Kernel P) :=
  if dsize alloc =? 0 then Ok k
  else
    let pages := u64 (dsize alloc + 4095) / 4096 in
    m ← unmap_range g_pml4 (dvirt alloc) pages (kphys k);
    p ← free_range (dphys alloc) pages (frames m);
    d ← dma_free_virt_range (dvirt alloc) (dsize alloc) (kdma k);
    Ok (mkKernel (mkPhys p (words m)) d).

(** The page tables in use: the current process's, or the kernel's. *)
Definition current_pml4 (g_pml4 : Z) (curr : option Process) : Z :=
  match curr with
  | Some c => if page_table c =? 0 then g_pml4 else page_table c
  | None => g_pml4
  end.

Definition vmm_map_page (g_pml4 : Z) (curr : option Process) (virt phys flags : Z) (m : Phys P) : res (bool * Phys P) :=
  vmm_map_page_in (current_pml4 g_pml4 curr) virt phys flags m.

Definition vmm_virt_to_phys (g_pml4 : Z) (curr : option Process) (virt : Z) (m : Phys P) : Z :=
  vmm_virt_to_phys_in (current_pml4 g_pml4 curr) virt m.

Definition vmm_remap_framebuffer (g_pml4 : Z) (curr : option Process) (virt_addr size : Z) (m : Phys P) : res (Phys P) :=
  if size =? 0 then Ok m
  else if (UINT64_MAX - size <? virt_addr) || (UINT64_MAX - 0xFFF <? u64 (virt_addr + size)) then Ok m
  else
    let virt_start := Z.land virt_addr (u64 (Z.lnot 0xFFF)) in
    let virt_end := Z.land (u64 (virt_addr + size + 0xFFF)) (u64 (Z.lnot 0xFFF)) in
    if virt_end <? virt_start then Ok m
    else
      let pages := u64 (virt_end - virt_start) / 0x1000 in
      for_upto (Z.to_nat pages) 0 (λ i m,
        let v := u64 (virt_start + i * 0x1000) in
        let phys := vmm_virt_to_phys g_pml4 curr v m in
        if phys =? 0 then Ok m
        else
          let flags := Z.lor (Z.lor (Z.lor PTE_PRESENT PTE_WRITABLE) PTE_WC) PTE_SHARED in
          let flags := if has (entry m g_pml4 (idx4 v)) PTE_USER then Z.lor flags PTE_USER else flags in
          '(_, m) ← vmm_map_page_in (current_pml4 g_pml4 curr) v (Z.land phys (u64 (Z.lnot 0xFFF))) flags m;
          Ok m) m.
End vmm.

(** * Specification *)

Section facts.
Context {P : Type} `{Frames P} {ready : P → Prop} `{!FramesLaws P ready}.
Implicit Types m : Phys P.

(** Memory changed in free frames only. *)
Record quiet m m' : Prop := {
  q_words a : ¬ in_free m a → words m' a = words m a;
  q_refs f : frame_ok f → 0 < refs (frames m) f → 0 < refs (frames m') f;
  q_range a : 0 <= words m' a < 2 ^ 64
}.

Definition space_range m : Prop := ∀ a, 0 <= words m a < 2 ^ 64.

(** What a page fault may change: translations of one page. *)
Record faulted root m m' (v : Z) (o : Z → option Z) : Prop := {
  fa_space : space m' root;
  fa_ready : ready (frames m');
  fa_mmu v' : mmu m' root v' = if decide (same_page v v') then o v' else mmu m root v';
  fa_words : framed m m' root v;
  fa_other r :
    space m r → apart m root r → apart m r root →
    space m' r ∧ (∀ v', mmu m' r v' = mmu m r v') ∧ apart m' root r ∧ apart m' r root
}.

(** * Lemmas *)

Section quiet.
Variables m m' : Phys P.
Hypothesis Hq : quiet m m'.

Lemma quiet_entry r k v t :
  space m r → (k <= 3)%nat → node m r k v = Some t → entry m' t (idx k v) = entry m t (idx k v).
Proof.
  intros Hs Hk Hn. destruct (sp_frame m r Hs k v t Hk Hn) as [[Ht Htm] Htr]. pose proof (idx_range k v).
  apply (q_words _ _ Hq). intros (f & [_ Hfm] & Hfr & Ha). assert (f = t) as -> by lia. lia.
Qed.

Lemma quiet_node r k v : space m r → (k <= 3)%nat → node m' r k v = node m r k v.
Proof. intros Hs Hk. apply node_agree. intros j t Hj Ht. apply (quiet_entry r); [done|lia|done]. Qed.

Lemma quiet_mmu r v : space m r → mmu m' r v = mmu m r v.
Proof. intros Hs. apply mmu_agree. intros j t Hj Ht. by apply (quiet_entry r). Qed.

Lemma quiet_space r : space m r → space m' r.
Proof.
  intros Hs. split.
  - intros k v t Hk. rewrite quiet_node by done. intros Hn. destruct (sp_frame m r Hs k v t Hk Hn) as [Hf Hr].
    split; [done|by apply Hq].
  - intros k v t k' v' Hk Hk'. rewrite !quiet_node by done. by apply Hs.
  - intros k v t Hk. rewrite quiet_node by (done || lia). intros Hn. rewrite (quiet_entry r) by (done || lia). by apply (sp_zero m r Hs).
  - intros v. rewrite (quiet_entry r 0%nat v r) by (done || lia). apply Hs.
  - apply Hq.
Qed.

Lemma quiet_apart r1 r2 : space m r1 → space m r2 → apart m r1 r2 → apart m' r1 r2.
Proof. intros S1 S2 Ha v k t k' v' Hu Hk Hk'. rewrite !quiet_node by done. by apply Ha. Qed.

Lemma quiet_framed m2 root v : space m root → ready (frames m) → framed m' m2 root v → framed m m2 root v.
Proof.
  intros Hs Hr Hf a Hp Hfr. rewrite Hf; [by apply Hq| |].
  - intros (k & t & Hk & Hn & Ha). rewrite quiet_node in Hn by done. apply Hp. by exists k, t.
  - intros (f & Hf1 & Hf2 & Ha). apply Hfr. exists f. split; [done|]. split; [|done].
    pose proof (refs_nonneg (frames m) f Hr). destruct (decide (refs (frames m) f = 0)); [done|]. pose proof (q_refs _ _ Hq f Hf1). lia.
Qed.
End quiet.

(** Reference counts that change while every table keeps one. *)
Lemma refs_space m p' root :
  space m root → (∀ k v t, (k <= 3)%nat → node m root k v = Some t → 0 < refs p' t) → space (mkPhys p' (words m)) root.
Proof.
  intros Hs Hp. assert (Hn : ∀ k v, node (mkPhys p' (words m)) root k v = node m root k v) by (intros; by apply node_agree).
  split.
  - intros k v t Hk. rewrite Hn. intros Ht. split; [by eapply (sp_frame m root Hs)|by eapply Hp].
  - intros k v t k' v' Hk Hk'. rewrite !Hn. by apply Hs.
  - intros k v t Hk. rewrite Hn. by apply (sp_zero m root Hs).
  - apply (sp_top m root Hs).
  - apply (sp_word m root Hs).
Qed.

(** A fault that fills a fresh frame, changes the page's entry and settles the counts. *)
Lemma faulted_compose root m m1 m2 p3 v o :
  space m root → ready (frames m) → user_half v → quiet m m1 → changed (ready := ready) root m1 m2 v o → ready p3 →
  (∀ f, frame_ok f → 0 < refs (frames m) f → 0 < refs p3 f) →
  (∀ k u t, (k <= 3)%nat → node m2 root k u = Some t → 0 < refs p3 t) →
  faulted root m (mkPhys p3 (words m2)) v (λ v', o v').
Proof.
  intros Hs Hr Hu Hq C R3 H3 Hn3. pose proof (quiet_space m m1 Hq root Hs) as Hs1.
  assert (Hnode : ∀ r k u, node (mkPhys p3 (words m2)) r k u = node m2 r k u) by (intros; by apply node_agree).
  assert (Hmmu : ∀ r u, mmu (mkPhys p3 (words m2)) r u = mmu m2 r u) by (intros; by apply mmu_agree).
  split.
  - apply refs_space; [apply C|done].
  - done.
  - intros v'. rewrite Hmmu, (ch_mmu _ _ _ _ _ C). by rewrite (quiet_mmu m m1 Hq root).
  - intros a Hp Hf. by apply (quiet_framed m m1 Hq m2 root v Hs Hr (ch_words _ _ _ _ _ C)).
  - intros r Hsr A1 A2. pose proof (quiet_space m m1 Hq r Hsr) as Hsr1.
    destruct (changed_other (ready := ready) root r m1 m2 v o) as (K1 & K2 & K3 & K4); try done; [by apply (quiet_apart m m1 Hq)..|].
    split; [|split; [|split]].
    + apply refs_space; [done|]. intros k u t Hk Ht. destruct (sp_frame m r Hsr k u t Hk) as [? ?]; [|by apply H3].
      rewrite <-(quiet_node m m1 Hq r k u) by done. rewrite <-Ht. symmetry. apply node_agree. intros j x Hj Hx.
      apply (other_entry (ready := ready) root r m1 m2 v o); try done; [by apply (quiet_apart m m1 Hq)|lia].
    + intros v'. by rewrite Hmmu, K2, (quiet_mmu m m1 Hq r).
    + intros u k t k' u' Hu' Hk Hk'. rewrite !Hnode. by apply K3.
    + intros u k t k' u' Hu' Hk Hk'. rewrite !Hnode. by apply K4.
Qed.

(** Flags the handler may put into an entry of a user page. *)
Record user_flags (fl : Z) : Prop := {
  uf_range : 0 <= fl < 2 ^ 64;
  uf_bits n : 12 <= n < 52 → Z.testbit fl n = false;
  uf_present : has fl PTE_PRESENT = true;
  uf_user : has fl PTE_USER = true
}.

Lemma fill_quiet m p f g :
  space_range m → frame_ok f → refs (frames m) f = 0 → (∀ i, 0 <= i < 512 → 0 <= g i < 2 ^ 64) →
  (∀ x, frame_ok x → refs p x = if decide (x = f) then 1 else refs (frames m) x) →
  quiet m (mkPhys p (fill_table (words m) f g)).
Proof.
  intros Hw Hf Hfr Hg Hp. split; simpl.
  - intros a Ha. unfold fill_table. case_match eqn:E; [|done]. exfalso. apply Ha. exists f.
    split; [done|]. split; [done|]. apply andb_true_iff in E as [? ?]. lia.
  - intros x Hx Hxr. rewrite Hp by done. case_decide; lia.
  - intros a. unfold fill_table. case_match eqn:E; [|apply Hw]. apply andb_true_iff in E as [? ?]. apply Hg. lia.
Qed.

(** Mapping the page to a frame allocated and filled just before. *)
Lemma fault_new root m v fl f p g :
  space m root → ready (frames m) → ready p → 0 <= v < USER_END → user_flags fl → frame_ok f → refs (frames m) f = 0 →
  (∀ i, 0 <= i < 512 → 0 <= g i < 2 ^ 64) →
  (∀ x, frame_ok x → refs p x = if decide (x = f) then 1 else refs (frames m) x) →
  let m1 := mkPhys p (fill_table (words m) f g) in
  quiet m m1 ∧
  ∃ ok m2, vmm_map_page_in root v f fl m1 = Ok (ok, m2) ∧
    changed (ready := ready) root m1 m2 v (λ v', if ok then Some (f + v' mod 4096) else mmu m root v') ∧
    (ok = true → page_entry m2 root v = Some (Z.lor f fl)) ∧
    (∀ i, 0 <= i < 512 → words m2 (f + 8 * i) = g i) ∧ refs (frames m2) f = 1 ∧
    (∀ x, frame_ok x → 0 < refs (frames m) x → refs (frames m2) x = refs (frames m) x) ∧
    (∀ k u, (k <= 3)%nat → node m2 root k u ≠ Some f).
Proof.
  intros Hs Hr Rp Hv [F1 F2 F3 F4] Hf Hfr Hg Hp m1.
  assert (Hq : quiet m m1) by (apply fill_quiet; try done; intros a; apply Hs).
  split; [done|]. pose proof (quiet_space m m1 Hq root Hs) as Hs1. pose proof Hf as [Hf1 Hf2].
  destruct (vmm_map_page_spec (ready := ready) root m1 v f fl) as (ok & m2 & E & C & He);
    [done|done|lia|done|done|done|unfold KERNEL_STACK_TOP, USER_END in *; lia|done|].
  assert (Hnotnode : ∀ k u, (k <= 3)%nat → node m1 root k u ≠ Some f).
  { intros k u Hk. rewrite (quiet_node m m1 Hq) by done. intros Hn. destruct (sp_frame m root Hs k u f Hk Hn). lia. }
  assert (Hr1 : refs (frames m1) f = 1) by (simpl; by rewrite Hp, decide_True).
  assert (Hr2 : refs (frames m2) f = 1) by (rewrite (ch_refs _ _ _ _ _ C); [done|done|lia]).
  exists ok, m2. split; [done|]. split; [|split; [done|]; split; [|split; [done|]; split]].
  - destruct C as [C1 C2 C3 C4 C5 C6 C7]. split; try done. intros v'. rewrite C3, F3. by rewrite (quiet_mmu m m1 Hq root).
  - intros i Hi. rewrite (ch_words _ _ _ _ _ C).
    + pose proof (entry_fill m p f g f i Hf2 Hf2 Hi) as Ee. by rewrite decide_True in Ee.
    + intros (k & t & Hk & Hn & Ha). destruct (sp_frame m1 root Hs1 k v t Hk Hn) as [[_ Htm] _].
      assert (t = f) as -> by lia. by apply (Hnotnode k v).
    + intros (x & [Hx1 Hx2] & Hxr & Ha). assert (x = f) as -> by lia. lia.
  - intros x Hx Hxr. rewrite (ch_refs _ _ _ _ _ C); [simpl; rewrite Hp by done; case_decide; [subst; lia|done]|done|].
    simpl. rewrite Hp by done. case_decide; lia.
  - intros k u Hk Hn. destruct (ch_new _ _ _ _ _ C k u f Hk Hn) as [Hn'|[_ Hz]]; [by apply (Hnotnode k u)|lia].
Qed.

(** The page keeps its reference counts, except for [except]. *)
Definition refs_kept m m' (except : Z → Prop) : Prop :=
  ∀ x, frame_ok x → 0 < refs (frames m) x → ¬ except x → refs (frames m') x = refs (frames m) x.

(** A frame that was free and now backs the page [v] alone, with the given contents. *)
Definition fresh_frame root m m' v fl (contents : Z → Z) f : Prop :=
  frame_ok f ∧ refs (frames m) f = 0 ∧ refs (frames m') f = 1 ∧
  (∀ i, 0 <= i < 512 → words m' (f + 8 * i) = contents i) ∧ page_entry m' root v = Some (Z.lor f fl) ∧
  faulted root m m' v (λ v', Some (f + v' mod 4096)).

(** The outcomes of giving a faulting page a frame. *)
Definition fault_outcome root m m' v fl phys (ty : VMAType) (ok : bool) : Prop :=
  if ok then
    if decide (phys = 0) then
      ∃ f, fresh_frame root m m' v fl (λ _, 0) f ∧ refs_kept m m' (λ _, False)
    else if decide (ty = Shared) then
      faulted root m m' v (mmu m root) ∧ refs_kept m m' (λ _, False)
    else if decide (1 < refs (frames m) phys) then
      ∃ f, fresh_frame root m m' v fl (λ i, words m (phys + 8 * i)) f ∧ refs_kept m m' (eq phys) ∧
        refs (frames m') phys = refs (frames m) phys - 1
    else
      page_entry m' root v = Some (Z.lor phys fl) ∧ faulted root m m' v (λ v', Some (phys + v' mod 4096)) ∧
      refs_kept m m' (λ _, False)
  else faulted root m m' v (mmu m root) ∧ refs_kept m m' (λ _, False).

Lemma phys_eta m : mkPhys (frames m) (words m) = m.
Proof. by destruct m. Qed.

Lemma quiet_refl m : space_range m → quiet m m.
Proof. by split. Qed.

Lemma changed_faulted root m m' v o :
  space m root → ready (frames m) → user_half v → changed (ready := ready) root m m' v o → faulted root m m' v (λ v', o v').
Proof.
  intros Hs Hr Hu C. rewrite <-(phys_eta m'). eapply (faulted_compose root m m m'); try done.
  - apply quiet_refl. intros a. apply Hs.
  - apply C.
  - intros f Hf Hfr. by rewrite (ch_refs _ _ _ _ _ C).
  - intros k u t Hk Ht. apply (sp_frame m' root (ch_space _ _ _ _ _ C) k u t Hk Ht).
Qed.

(** Running out of frames while a fresh one is being mapped gives it back. *)
Lemma fault_undo root m m1 m2 v f :
  space m root → ready (frames m) → user_half v → quiet m m1 → frame_ok f → refs (frames m) f = 0 →
  changed (ready := ready) root m1 m2 v (mmu m root) → refs (frames m2) f = 1 →
  (∀ x, frame_ok x → 0 < refs (frames m) x → refs (frames m2) x = refs (frames m) x) →
  (∀ k u, (k <= 3)%nat → node m2 root k u ≠ Some f) →
  ∃ p3, free_frame f (frames m2) = Ok p3 ∧ faulted root m (mkPhys p3 (words m2)) v (mmu m root) ∧
    refs_kept m (mkPhys p3 (words m2)) (λ _, False).
Proof.
  intros Hs Hr Hu Hq Hf Hfr C Hr2 Hk Hn.
  destruct (refcount_dec_spec (frames m2) f) as (p3 & E & R3 & Hp3); [apply C|done|lia|].
  assert (H3 : ∀ x, frame_ok x → x ≠ f → refs p3 x = refs (frames m2) x) by (intros x Hx Hne; by rewrite Hp3, decide_False).
  exists p3. split; [done|]. split.
  - apply (faulted_compose root m m1 m2 p3 v (mmu m root)); try done.
    + intros x Hx Hxr. rewrite H3, Hk by (done || (intros ->; lia)). done.
    + intros k u t Hkk Ht. destruct (sp_frame m2 root (ch_space _ _ _ _ _ C) k u t Hkk Ht) as [Hto Htr].
      rewrite H3; [done|done|]. intros ->. by apply (Hn k u).
  - intros x Hx Hxr _. simpl. rewrite H3, Hk by (done || (intros ->; lia)). done.
Qed.

(** Both ways of backing a page by a fresh frame. *)
Lemma fault_fresh root m v fl g (settle : P → res P) (finish : Phys P → res (bool * Phys P)) :
  space m root → ready (frames m) → 0 <= v < USER_END → user_half v → user_flags fl →
  (∀ i, 0 <= i < 512 → 0 <= g i < 2 ^ 64) →
  (∀ f p, frame_ok f → refs (frames m) f = 0 → ready p → refs p f = 1 →
     (∀ x, frame_ok x → 0 < refs (frames m) x → refs p x = refs (frames m) x) →
     ∃ p', settle p = Ok p' ∧ ready p' ∧ (∀ x, frame_ok x → 0 < refs p x → 0 < refs p' x) ∧ refs p' f = 1) →
  (∀ m2, finish m2 = (p ← settle (frames m2); Ok (true, mkPhys p (words m2)))) →
  let r :=
    '(new_frame, p) ← alloc_frame (frames m);
    if new_frame =? 0 then Ok (false, mkPhys p (words m))
    else
      '(ok, m) ← vmm_map_page_in root v new_frame fl (mkPhys p (fill_table (words m) new_frame g));
      if (ok : bool) then finish m
      else p ← free_frame new_frame (frames m); Ok (false, mkPhys p (words m)) in
  (∃ m', r = Ok (false, m') ∧ faulted root m m' v (mmu m root) ∧ refs_kept m m' (λ _, False)) ∨
  (∃ f m' p2, r = Ok (true, m') ∧ fresh_frame root m m' v fl g f ∧ settle p2 = Ok (frames m') ∧ ready p2 ∧
     ∀ x, frame_ok x → 0 < refs (frames m) x → refs p2 x = refs (frames m) x).
Proof.
  intros Hs Hr Hv Hu Hfl Hg Hset Hfin. cbv zeta. destruct (alloc_frame_spec (frames m) Hr) as (f & p & Ea & Rp & Hc).
  step_with Ea. cbv iota. destruct Hc as [[-> Hp]|(Hf & Hfr & Hp)].
  { left. cbn [Z.eqb]. eexists. split; [done|]. split; [|intros x Hx _ _; by apply Hp].
    destruct (ext_same_refs root v m p Hs Hp) as [Hs' Hx]. apply changed_faulted; try done. by apply unchanged. }
  destruct (Z.eqb_spec f 0); [destruct Hf; lia|].
  destruct (fault_new root m v fl f p g) as (Hq & ok & m2 & E & C & He & Hw & Hr2 & Hk & Hn); try done.
  step_with E. cbv iota. destruct ok.
  - destruct (Hset f (frames m2)) as (p' & Es & Rp' & Hpos & Hrf); [done|done|apply C|done|done|]. rewrite Hfin. step_with Es.
    right. exists f, (mkPhys p' (words m2)), (frames m2). split; [done|].
    assert (Ef : faulted root m (mkPhys p' (words m2)) v (λ v', Some (f + v' mod 4096))).
    { apply (faulted_compose root m _ m2 p' v (λ v', Some (f + v' mod 4096)) Hs Hr Hu Hq C Rp').
      - intros x Hx Hxr. apply Hpos; [done|]. by rewrite Hk.
      - intros k u t Hkk Ht. destruct (sp_frame m2 root (ch_space _ _ _ _ _ C) k u t Hkk Ht). by apply Hpos. }
    split; [|split; [done|split; [apply C|done]]]. split_and!; try done.
    rewrite <-(He eq_refl). unfold page_entry. rewrite (node_agree m2 _ root 3 v) by done. done.
  - destruct (fault_undo root m _ m2 v f Hs Hr Hu Hq Hf Hfr C Hr2 Hk Hn) as (p3 & E3 & Hfa & Hke). left.
    step_with E3. eexists. done.
Qed.

Lemma user_half_below v : 0 <= v < USER_END → user_half v.
Proof. intros Hv. unfold user_half, idx, low, USER_END in *. simpl. lia. Qed.

(** The frame a page translates to. *)
Lemma mmu_frame m root v phys :
  0 <= v → v mod 4096 = 0 → mmu m root v = Some phys → 0 <= phys < 2 ^ 52 ∧ phys mod 4096 = 0.
Proof.
  intros Hv Hvm. unfold mmu.
  assert (Hleaf : ∀ e k, (k <= 3)%nat →
    0 <= Z.land e (leaf_mask k) + v mod 2 ^ low k < 2 ^ 52 ∧ (Z.land e (leaf_mask k) + v mod 2 ^ low k) mod 4096 = 0).
  { intros e k Hk. pose proof (low_range k Hk) as HL. destruct (land_mask_props e (low k) ltac:(lia)) as (H1 & H2 & H3).
    unfold leaf_mask. set (x := Z.land e (2 ^ 52 - 2 ^ low k)) in *. pose proof (Z.mod_pos_bound v (2 ^ low k) ltac:(lia)).
    assert (Hd : (4096 | 2 ^ low k)) by (exists (2 ^ (low k - 12)); change 4096 with (2 ^ 12); rewrite <-Z.pow_add_r by lia; f_equal; lia).
    assert (Hx : (2 ^ low k | x)) by (apply Z.mod_divide; lia).
    assert (H52 : (2 ^ low k | 2 ^ 52)) by (exists (2 ^ (52 - low k)); rewrite <-Z.pow_add_r by lia; f_equal; lia).
    destruct Hx as [q Hq]. destruct H52 as [q' Hq'].
    split; [nia|]. apply Z.mod_divide; [lia|]. apply Z.divide_add_r; [by apply (Z.divide_trans _ (2 ^ low k)); [|exists q]|].
    rewrite Z.mod_eq by lia. apply Z.divide_sub_r; [by apply Z.mod_divide|]. by apply Z.divide_mul_l. }
  cbn [mmu_from Nat.sub]. repeat case_match; try done; intros [= <-];
    (apply (Hleaf _ 3%nat) || apply (Hleaf _ 2%nat) || apply (Hleaf _ 1%nat)); lia.
Qed.

Lemma fault_in_spec root m v fl ty :
  space m root → ready (frames m) → 0 <= v < USER_END → v mod 4096 = 0 → user_flags fl →
  let phys := default 0 (mmu m root v) in
  ∃ ok m', fault_in root v fl phys ty m = Ok (ok, m') ∧ fault_outcome root m m' v fl phys ty ok.
Proof.
  intros Hs Hr Hv Hvm Hfl phys. pose proof (user_half_below v Hv) as Hu. assert (Hphys : phys = default 0 (mmu m root v)) by done.
  clearbody phys. unfold fault_in, fault_outcome.
  destruct (decide (phys = 0)) as [->|Hne].
  { cbn [Z.eqb]. destruct (fault_fresh root m v fl (λ _, 0) (λ p, Ok p) (λ m, Ok (true, m)))
      as [(m' & E & Hfa & Hk)|(f & m' & p2 & E & Hfr & Es & R2 & Hk)]; try done.
    - intros f p Hf Hfr Rp Hrp Hkp. by exists p.
    - intros m2. step. by rewrite phys_eta.
    - by exists false, m'.
    - exists true, m'. split; [done|]. exists f. split; [done|]. simplify_eq. intros x Hx Hxr _. by apply Hk. }
  destruct (Z.eqb_spec phys 0); [done|]. destruct (decide (ty = Shared)) as [->|Hty].
  { destruct Hfl as [F1 F2 F3 F4]. destruct (vmm_set_page_flags_spec (ready := ready) root m v fl) as (m' & E & C); try done.
    step_with E. exists true, m'. split; [done|]. split; [by apply changed_faulted|]. intros x Hx Hxr _. by apply (ch_refs _ _ _ _ _ C). }
  assert (Hpf : frame_ok phys).
  { destruct (mmu m root v) as [q|] eqn:Em; [|done]. simpl in Hphys. subst q.
    destruct (mmu_frame m root v phys) as [? ?]; try done; [lia|]. split; [lia|done]. }
  pose proof (get_refcount_spec (frames m) phys Hr Hpf) as Eg. step_with Eg.
  destruct (decide (1 < refs (frames m) phys)) as [Hgt|Hle]; destruct (Z.ltb_spec 1 (refs (frames m) phys)); try lia.
  { destruct (fault_fresh root m v fl (λ i, words m (phys + 8 * i)) (refcount_dec phys)
      (λ m, p ← refcount_dec phys (frames m); Ok (true, mkPhys p (words m))))
      as [(m' & E & Hfa & Hk)|(f & m' & p2 & E & Hfr & Es & R2 & Hk)]; try done.
    - intros i _. apply Hs.
    - intros f p Hf Hfr Rp Hrp Hkp. destruct (refcount_dec_spec p phys Rp Hpf) as (p' & E & Rp' & Hp'); [rewrite Hkp; [lia|done|lia]|].
      exists p'. split; [done|]. split; [done|]. assert (phys ≠ f) by (intros ->; lia). split.
      + intros x Hx Hxr. rewrite Hp' by done. case_decide; [|done]. subst x. rewrite Hkp by (done || lia). lia.
      + rewrite Hp' by done. by rewrite decide_False.
    - by exists false, m'.
    - exists true, m'. split; [done|]. exists f. split; [done|].
      destruct (refcount_dec_spec p2 phys R2 Hpf) as (p' & E' & Rp' & Hp'); [rewrite Hk; [lia|done|lia]|].
      rewrite Es in E'. simplify_eq. split.
      + intros x Hx Hxr Hnx. rewrite Hp' by done. rewrite decide_False by done. by apply Hk.
      + rewrite Hp', decide_True by done. by rewrite Hk by (done || lia). }
  pose proof Hfl as [F1 F2 F3 F4]. destruct Hpf as [Hpf1 Hpf2].
  destruct (vmm_map_page_spec (ready := ready) root m v phys fl) as (ok & m' & E & C & He);
    [done|done|lia|done|done|done|unfold KERNEL_STACK_TOP, USER_END in *; lia|done|].
  exists ok, m'. split; [done|]. apply changed_faulted in C as Hfa; try done. rewrite F3 in Hfa.
  assert (Hk : refs_kept m m' (λ _, False)) by (intros x Hx Hxr _; by apply (ch_refs _ _ _ _ _ C)).
  destruct ok; [split; [by apply He|split; [exact Hfa|done]]|]. split; [exact Hfa|done].
Qed.

Definition vma_flags_ok (l : list VMA) : Prop :=
  Forall (λ a, 0 <= Vma.flags a < 2 ^ 64 ∧ ∀ n, 12 <= n < 52 → Z.testbit (Vma.flags a) n = false) l.

Lemma vma_find_in l a vma : vma_find l a = Some vma → vma ∈ l.
Proof.
  induction l as [|x l IH]; simpl; [done|]. case_match; [intros [= ->]; by left|]. intros ?%IH. by right.
Qed.

Lemma fault_flags fl :
  0 <= fl < 2 ^ 64 → (∀ n, 12 <= n < 52 → Z.testbit fl n = false) → user_flags (Z.lor (Z.lor fl PTE_PRESENT) PTE_USER).
Proof.
  intros Hfl Hb. assert (Hbit : ∀ n, 0 <= n → Z.testbit (Z.lor (Z.lor fl PTE_PRESENT) PTE_USER) n = Z.testbit fl n || (n =? 0) || (n =? 2)).
  { intros n Hn. rewrite !Z.lor_spec. unfold PTE_PRESENT, PTE_USER. rewrite !Z.pow2_bits_eqb by done.
    by rewrite (Z.eqb_sym 0), (Z.eqb_sym 2). }
  split.
  - apply lor_u64; [apply lor_u64|]; done.
  - intros n Hn. rewrite Hbit, Hb by lia. destruct (Z.eqb_spec n 0), (Z.eqb_spec n 2); lia || done.
  - unfold PTE_PRESENT at 2. rewrite has_bit, Hbit by done. by rewrite orb_true_r.
  - unfold PTE_USER at 2. rewrite has_bit, Hbit by done. by rewrite orb_true_r.
Qed.

(** What the handler promises for a fault of process [c]. *)
Definition fault_handled c m m' fault_addr error_code (ok : bool) : Prop :=
  let root := page_table c in let v := fault_addr / 4096 * 4096 in
  if ok then
    ∃ vma, vma_find (vma_list c) fault_addr = Some vma ∧ fault_addr < USER_END ∧
      (has error_code 2 = true → has (Vma.flags vma) PTE_WRITABLE = true) ∧
      fault_outcome root m m' v (Z.lor (Z.lor (Vma.flags vma) PTE_PRESENT) PTE_USER) (default 0 (mmu m root v)) (vtype vma) true
  else
    space m' root ∧ ready (frames m') ∧ (∀ v', mmu m' root v' = mmu m root v') ∧ framed m m' root v ∧
    refs_kept m m' (λ _, False).

Lemma page_fault_spec c m fault_addr error_code :
  space m (page_table c) → ready (frames m) → 0 <= fault_addr < 2 ^ 64 → vma_flags_ok (vma_list c) →
  ∃ ok m', vmm_handle_page_fault (Some c) fault_addr error_code m = Ok (ok, m') ∧ fault_handled c m m' fault_addr error_code ok.
Proof.
  intros Hs Hr Hfa Hvma. set (root := page_table c) in *. set (v := fault_addr / 4096 * 4096).
  assert (Hstop : ∃ ok m', Ok (false, m) = Ok (ok, m') ∧ fault_handled c m m' fault_addr error_code ok).
  { exists false, m. split; [done|]. by split_and!. }
  unfold vmm_handle_page_fault. cbv zeta. case_match; [done|]. case_match; [done|].
  destruct (Z.leb_spec USER_END fault_addr) as [|Hlt]; [done|].
  destruct (vma_find (vma_list c) fault_addr) as [vma|] eqn:Ev; [|done].
  rewrite (land_not_fff fault_addr) by done. fold v. assert (Hv : 0 <= v < USER_END) by (unfold v, USER_END in *; lia).
  destruct (Z.ltb_spec v USER_END); [|lia]. destruct (has error_code 2 && negb (has (Vma.flags vma) PTE_WRITABLE)) eqn:Ew; [done|].
  assert (Hvf := Hvma). unfold vma_flags_ok in Hvf. rewrite Forall_forall in Hvf. destruct (Hvf vma (vma_find_in _ _ _ Ev)) as [Hf1 Hf2].
  rewrite (vmm_virt_to_phys_spec (page_table c) m v Hs) by lia.
  destruct (fault_in_spec root m v (Z.lor (Z.lor (Vma.flags vma) PTE_PRESENT) PTE_USER) (vtype vma)) as (ok & m' & E & Ho);
    [done|done|done|unfold v; lia|by apply fault_flags|].
  exists ok, m'. split; [exact E|]. destruct ok.
  - exists vma. split; [done|]. split; [done|]. split; [|done]. intros Hw. rewrite Hw in Ew. by destruct (has _ PTE_WRITABLE).
  - destruct Ho as [Hfa' Hk]. assert (Hm : ∀ v', mmu m' root v' = mmu m root v') by (intros v'; rewrite (fa_mmu _ _ _ _ _ Hfa'); by case_decide).
    destruct Hfa'. by split_and!.
Qed.

(** ** New address spaces *)

Section create.
Variables (m m' : Phys P) (g f : Z).
Hypothesis Hs : space m g.
Hypothesis Hf : frame_ok f.
Hypothesis Hfree : refs (frames m) f = 0.
Hypothesis Hq : quiet m m'.
Hypothesis Hrf : 0 < refs (frames m') f.
Hypothesis Hrest : ∀ i, 0 <= i < 512 → entry m' f i = if i <? 256 then 0 else entry m g i.

(** The user half is empty and the kernel half is that of [g]. *)
Lemma new_node k v : (k <= 2)%nat → node m' f (S k) v = if decide (user_half v) then None else node m g (S k) v.
Proof.
  induction k as [|k IH]; intros Hk.
  - cbn [node mbind option_bind]. rewrite Hrest by apply idx_range. unfold user_half. destruct (Z.ltb_spec (idx 0 v) 256); dec_goal; done || lia.
  - set (k1 := S k) in *. cbn [node]. rewrite IH by lia. destruct (decide (user_half v)); [done|].
    destruct (node m g k1 v) as [t|] eqn:Ht; [|done]. cbn [mbind option_bind]. by rewrite (quiet_entry m m' Hq g k1 v t) by (done || lia).
Qed.

Lemma new_node_old k v t : (k <= 3)%nat → node m' f k v = Some t → (k = 0%nat ∧ t = f) ∨ (k ≠ 0%nat ∧ ¬ user_half v ∧ node m g k v = Some t).
Proof.
  intros Hk. destruct k as [|k]; [intros [= <-]; by left|]. rewrite new_node by lia. case_decide; [done|]. right. done.
Qed.

Lemma old_not_new r k v : space m r → (k <= 3)%nat → node m r k v ≠ Some f.
Proof. intros Hsr Hk Hn. destruct (sp_frame m r Hsr k v f Hk Hn). lia. Qed.

Lemma new_space : space m' f.
Proof.
  split.
  - intros k v t Hk [[-> ->]|(Hk0 & _ & Hn)]%new_node_old; [done| |done].
    destruct (sp_frame m g Hs k v t Hk Hn). split; [done|by apply Hq].
  - intros k v t k' v' Hk Hk' [[-> ->]|(Hk0 & _ & Hn)]%new_node_old [[-> E]|(Hk0' & _ & Hn')]%new_node_old; try done.
    + split; [done|apply pre_0].
    + by destruct (old_not_new g k' v' Hs Hk').
    + subst. by destruct (old_not_new g k v Hs Hk).
    + by apply (sp_tree m g Hs k v t k' v').
  - intros k v t Hk Hn Hp. apply new_node_old in Hn as [[-> ->]|(Hk0 & _ & Hn)]; [| |lia].
    + rewrite Hrest in Hp |- * by apply idx_range. case_match; [done|]. by apply (sp_zero m g Hs 0%nat v g); [lia| |].
    + rewrite (quiet_entry m m' Hq g) in Hp |- * by (done || lia). by apply (sp_zero m g Hs).
  - intros v. rewrite Hrest by apply idx_range. case_match; [done|]. apply Hs.
  - apply Hq.
Qed.

Lemma new_mmu v : mmu m' f v = if decide (user_half v) then None else mmu m g v.
Proof.
  unfold mmu. change (mmu_from m' 3 f v) with
    (let e := entry m' f (idx 0 v) in
     if has e PTE_PRESENT then if has e PTE_HUGE then None else mmu_from m' 2 (Z.land e ADDR_MASK) v else None).
  cbv zeta. rewrite Hrest by apply idx_range. unfold user_half.
  destruct (Z.ltb_spec (idx 0 v) 256); dec_goal; try lia; [done|].
  change (mmu_from m 3 g v) with
    (let e := entry m g (idx 0 v) in
     if has e PTE_PRESENT then if has e PTE_HUGE then None else mmu_from m 2 (Z.land e ADDR_MASK) v else None).
  cbv zeta. set (e := entry m g (idx 0 v)). destruct (has e PTE_PRESENT) eqn:Ep; [|done]. destruct (has e PTE_HUGE) eqn:Eh; [done|].
  assert (Hn : node m g 1 v = Some (Z.land e ADDR_MASK)) by (cbn [node mbind option_bind]; fold e; by rewrite Ep, Eh).
  rewrite <-(mmu_node m g 2 1 v _ eq_refl Hn). symmetry. rewrite <-(quiet_mmu m m' Hq g v Hs).
  apply (mmu_node m' g 2 1 v); [done|]. by rewrite (quiet_node m m' Hq) by (done || lia).
Qed.

Lemma new_apart r : space m r → r = g ∨ apart m r g → apart m' f r ∧ apart m' r f.
Proof.
  intros Hsr Hr. split.
  - intros v k t k' v' Hu Hk Hk' [[-> ->]|(_ & ? & _)]%new_node_old Hn; [|done|done].
    rewrite (quiet_node m m' Hq) in Hn by done. by apply (old_not_new r k' v').
  - intros v k t k' v' Hu Hk Hk' Hn [[-> ->]|(Hk0 & Hnu & Hn')]%new_node_old; [| |done].
    + rewrite (quiet_node m m' Hq) in Hn by done. by apply (old_not_new r k v).
    + rewrite (quiet_node m m' Hq) in Hn by done. destruct Hr as [->|Ha]; [|by apply (Ha v k t k' v')].
      destruct (sp_tree m g Hs k v t k' v' Hk Hk' Hn Hn') as [-> E]. apply Hnu. unfold user_half in *.
      destruct k' as [|k']; [done|]. clear -E Hu Hk. revert E. induction k' as [|k' IH]; intros E.
      * apply pre_S_inj in E as [_ <-]; [done|lia].
      * apply pre_S_inj in E as [E _]; [|lia]. apply IH; [lia|done].
Qed.
End create.

Lemma create_spec m g :
  space m g → ready (frames m) →
  ∃ f m', vmm_create_address_space g m = Ok (f, m') ∧ ready (frames m') ∧
    ((f = 0 ∧ words m' = words m ∧ ∀ x, frame_ok x → refs (frames m') x = refs (frames m) x) ∨
     (frame_ok f ∧ refs (frames m) f = 0 ∧
      (∀ x, frame_ok x → refs (frames m') x = if decide (x = f) then 1 else refs (frames m) x) ∧
      space m' f ∧ (∀ v, mmu m' f v = if decide (user_half v) then None else mmu m g v) ∧
      ∀ r, space m r → space m' r ∧ (∀ v, mmu m' r v = mmu m r v) ∧ (r = g ∨ apart m r g → apart m' f r ∧ apart m' r f))).
Proof.
  intros Hs Hr. unfold vmm_create_address_space. destruct (alloc_frame_spec (frames m) Hr) as (f & p & Ea & Rp & Hc).
  step_with Ea. cbv iota. destruct Hc as [[-> Hp]|(Hf & Hfr & Hp)]; [eexists 0, _; split; [done|]; split; [done|by left]|].
  destruct (Z.eqb_spec f 0); [destruct Hf; lia|]. cbv zeta. set (w := fill_table (words m) f (λ _, 0)).
  set (h := λ i : Z, if i <? 256 then w (f + 8 * i) else w (g + 8 * i)). set (m' := mkPhys p (fill_table w f h)).
  destruct (sp_frame m g Hs 0 0 g ltac:(lia) eq_refl) as [[Hg1 Hg2] Hg3]. pose proof Hf as [Hf1 Hf2].
  assert (Hh : ∀ i, 0 <= i < 512 → h i = if i <? 256 then 0 else entry m g i).
  { intros i Hi. unfold h. case_match.
    - pose proof (entry_fill m p f (λ _, 0) f i Hf2 Hf2 Hi) as Ee. by rewrite decide_True in Ee.
    - pose proof (entry_fill m p f (λ _, 0) g i Hf2 Hg2 Hi) as Ee. rewrite decide_False in Ee by (intros ->; lia). done. }
  assert (Hrest : ∀ i, 0 <= i < 512 → entry m' f i = if i <? 256 then 0 else entry m g i).
  { intros i Hi. rewrite <-Hh by done. pose proof (entry_fill (mkPhys p w) p f h f i Hf2 Hf2 Hi) as Ee. by rewrite decide_True in Ee. }
  assert (Hq : quiet m m').
  { assert (Hqw : quiet m (mkPhys p w)) by (apply fill_quiet; try done; intros a; apply Hs).
    split; [|apply Hqw|].
    - intros a Ha. unfold m', fill_table. simpl. case_match eqn:E; [|by apply Hqw]. exfalso. apply Ha. exists f.
      split; [done|]. split; [done|]. apply andb_true_iff in E as [? ?]. lia.
    - intros a. unfold m', fill_table. simpl. case_match eqn:E; [|apply Hqw]. apply andb_true_iff in E as [? ?].
      unfold h. case_match; apply (q_range _ _ Hqw). }
  assert (Hrf : 0 < refs (frames m') f) by (simpl; rewrite Hp, decide_True by done; lia).
  exists f, m'. split; [done|]. split; [done|]. right. do 3 (split; [done|]).
  split; [by apply (new_space m m' g f)|]. split; [intros v; by apply (new_mmu m m' g f)|].
  intros r Hsr. split; [by apply (quiet_space m m' Hq)|]. split; [intros v; by apply (quiet_mmu m m' Hq)|].
  intros Hrr. by apply (new_apart m m' g f).
Qed.
End facts.

(** * Properties *)


(** A new address space has an empty user half and the kernel's upper half, is made of
    one fresh frame, changes no translation of any address space, and shares no user table
    with the kernel's or with any address space that shares none with the kernel's; when
    there is no frame nothing changes. *)
Theorem vmm_create_address_space_correct {P} `{Frames P} (ready : P → Prop) `{!FramesLaws P ready} (m : Phys P) g_pml4 :
  space m g_pml4 → ready (frames m) →
  ∃ f m', vmm_create_address_space g_pml4 m = Ok (f, m') ∧ ready (frames m') ∧
    ((f = 0 ∧ words m' = words m ∧ ∀ x, frame_ok x → refs (frames m') x = refs (frames m) x) ∨
     (frame_ok f ∧ refs (frames m) f = 0 ∧
      (∀ x, frame_ok x → refs (frames m') x = if decide (x = f) then 1 else refs (frames m) x) ∧
      space m' f ∧ (∀ v, mmu m' f v = if decide (user_half v) then None else mmu m g_pml4 v) ∧
      ∀ r, space m r →
        space m' r ∧ (∀ v, mmu m' r v = mmu m r v) ∧ (r = g_pml4 ∨ apart m r g_pml4 → apart m' f r ∧ apart m' r f))).
Proof. apply create_spec. Qed.

(** ** Witnesses *)

Definition sample_process : Process :=
  mkProcess 0x2000 [sentinel; mkVMA 0x400000 0x402000 (Z.lor PTE_WRITABLE PTE_USER) Vma.Heap false].

Lemma sample_flags_ok : vma_flags_ok (vma_list sample_process).
Proof.
  apply Forall_cons. split; [split; [simpl; lia|]; intros n _; apply Z.bits_0|]. apply Forall_cons. split; [|apply Forall_nil_2].
  change (Z.lor PTE_WRITABLE PTE_USER) with 6. cbn [Vma.flags]. split; [lia|]. intros n Hn. apply (testbit_ge 6 3); lia.
Qed.

#[local] Opaque sample_frames.


Lemma vmm_create_address_space_correct_witness :
  ∃ f m', vmm_create_address_space 0x2000 sample_phys = Ok (f, m') ∧ f ≠ 0 ∧ space m' f ∧ apart m' f 0x2000.
Proof.
  destruct (vmm_create_address_space_correct pmm_ready sample_phys 0x2000) as (f & m' & E & _ & Hc).
  - apply sample_space. by left.
  - apply sample_frames_spec.
  - assert (Hf : match vmm_create_address_space 0x2000 sample_phys with Ok (x, _) => x =? 0 | _ => true end = false)
      by (vm_compute; reflexivity).
    rewrite E in Hf. apply Z.eqb_neq in Hf. exists f, m'. split; [exact E|]. split; [exact Hf|].
    destruct Hc as [[Hz _]|(_ & _ & _ & Hs & _ & Hr)]; [contradiction|]. split; [exact Hs|].
    destruct (Hr 0x2000) as (_ & _ & Ha); [apply sample_space; by left|]. apply Ha. by left.
Defined.
