(* ===== verification/VmmDma.v ===== *)
(** Mappings of device registers and DMA buffers (src/mm/vmm.cpp, modelled in Vmm.v):
    page tables, the allocator of virtual ranges and the frame allocator together. Every
    address of the device window that nobody owns stays unmapped, and a buffer that is
    returned leaves translations and reference counts as they were. *)

From S2P Require Import Prelude Bitmap Pmm Frames Paging Dma Vma Vmm.

Section facts.
Context {P : Type} `{Frames P} {ready : P → Prop} `{!FramesLaws P ready}.
Implicit Types m : Phys P.

(** * Lemmas: ranges of pages *)

(** Memory in which the translations of the addresses in [D] may have changed. *)
Record kept root m m' (D : Z → Prop) : Prop := {
  ke_space : space m' root;
  ke_ready : ready (frames m');
  ke_mmu v : ¬ D v → mmu m' root v = mmu m root v;
  ke_refs f : frame_ok f → 0 < refs (frames m) f → refs (frames m') f = refs (frames m) f;
  ke_node k v t : (k <= 3)%nat → node m root k v = Some t → node m' root k v = Some t;
  ke_new k v t : (k <= 3)%nat → node m' root k v = Some t → node m root k v = Some t ∨ (frame_ok t ∧ refs (frames m) t = 0);
  ke_large v : mmu m' root v ≠ None → node m' root 3 v = None → mmu m root v ≠ None ∧ node m root 3 v = None;
  ke_words a :
    (∀ k v t, (k <= 3)%nat → node m root k v = Some t → ¬ (t <= a < t + 4096)) → ¬ in_free m a → words m' a = words m a
}.

Lemma kept_refl root m D : space m root → ready (frames m) → kept root m m D.
Proof. split; auto. Qed.

Lemma kept_weaken root m m' (D D' : Z → Prop) : kept root m m' D → (∀ v, D v → D' v) → kept root m m' D'.
Proof. intros [K1 K2 K3 K4 K5 K6 K7 K8] HD. split; auto. Qed.

Lemma kept_trans root m m1 m2 D : ready (frames m) → kept root m m1 D → kept root m1 m2 D → kept root m m2 D.
Proof.
  intros Hr [A1 A2 A3 A4 A5 A6 A7 A8] [B1 B2 B3 B4 B5 B6 B7 B8].
  assert (Hz : ∀ f, frame_ok f → refs (frames m1) f = 0 → refs (frames m) f = 0).
  { intros f Hf Hz. pose proof (refs_nonneg (frames m) f Hr). destruct (decide (refs (frames m) f = 0)); [done|].
    rewrite A4 in Hz; [done|done|lia]. }
  split; auto.
  - intros v Hv. by rewrite B3, A3.
  - intros f Hf Hr'. rewrite B4; auto. by rewrite A4.
  - intros k v t Hk [Hn|[Hf Hn]]%B6; [auto| |done]. right. auto.
  - intros v Hv Hn. destruct (B7 v Hv Hn) as [? ?]. auto.
  - intros a Ha Hf. rewrite B8; [by apply A8| |].
    + intros k v t Hk Hn Hin. destruct (A6 k v t Hk Hn) as [Hn'|[Hf' Hr']]; [by eapply Ha|]. apply Hf. by exists t.
    + intros (f & Hf1 & Hf2 & Hf3). apply Hf. exists f. auto.
Qed.

Lemma changed_kept root m m' v o :
  changed (ready := ready) root m m' v o →
  (∀ v', same_page v v' → o v' ≠ None → node m' root 3 v' = None → mmu m root v' ≠ None ∧ node m root 3 v' = None) →
  kept root m m' (same_page v).
Proof.
  intros [C1 C2 C3 C4 C5 C6 C7] Ho. split; try done.
  - intros v' Hv'. by rewrite C3, decide_False.
  - intros v' Hm Hn. rewrite C3 in Hm. destruct (decide (same_page v v')); [by apply Ho|]. split; [done|].
    destruct (node m root 3 v') as [t|] eqn:E; [|done]. rewrite (C6 3%nat v' t) in Hn by (done || lia). done.
  - intros a Ha Hf. apply C4; [|done]. intros (k & t & Hk & Hn & Hin). by apply (Ha k v t Hk Hn).
Qed.

Definition window (a : Z) : Prop := MMIO_BASE <= a < g_mmio_limit_virt.

Lemma same_page_window a b : window a → window b → same_page a b ↔ a / 4096 = b / 4096.
Proof. unfold window, MMIO_BASE, g_mmio_limit_virt, same_page, pre, low. intros Ha Hb. simpl. lia. Qed.

Lemma same_page_node m root v v' : same_page v v' → node m root 3 v = node m root 3 v'.
Proof. intros Hp. apply pre_S_inj in Hp as [Hp _]; [|lia]. by apply node_pre; [lia|]. Qed.

Lemma same_page_idx v v' k : same_page v v' → (k <= 3)%nat → idx k v = idx k v'.
Proof.
  intros Hp Hk. unfold same_page in Hp. assert (∀ n j, (j + n = 4)%nat → pre j v = pre j v') as Hpre.
  { induction n as [|n IH]; intros j Hj; [by replace j with 4%nat by lia|]. apply (pre_S_inj j); [lia|]. apply IH. lia. }
  apply (pre_S_inj k v v'); [done|]. apply (Hpre (3 - k)%nat). lia.
Qed.

(** A page is mapped as a whole. *)
Lemma mmu_page_None m root v v' : same_page v v' → mmu m root v = None → mmu m root v' = None.
Proof.
  intros Hp. unfold mmu. generalize root. assert (∀ n t, (n <= 3)%nat → mmu_from m n t v = None → mmu_from m n t v' = None) as Hn; [|auto].
  induction n as [|n IH]; intros t Hn; cbn [mmu_from]; rewrite (same_page_idx v v') by (done || lia); [by case_match|].
  repeat case_match; try done. apply IH. lia.
Qed.

(** Flags of a kernel mapping. *)
Record map_flags_ok (fl : Z) : Prop := {
  mf_range : 0 <= fl < 2 ^ 64;
  mf_bits n : 12 <= n < 52 → Z.testbit fl n = false;
  mf_present : has fl PTE_PRESENT = true
}.

(** The pages [lo, hi) of a range of virtual addresses. *)
Definition in_pages (virt lo hi : Z) (v : Z) : Prop := ∃ j, lo <= j < hi ∧ same_page (virt + j * 4096) v.

Section range.
Variables (root virt phys fl n : Z).
Hypothesis Hvirt : MMIO_BASE <= virt ∧ virt + n * 4096 <= g_mmio_limit_virt ∧ virt mod 4096 = 0.
Hypothesis Hphys : 0 <= phys ∧ phys + n * 4096 <= 2 ^ 52 ∧ phys mod 4096 = 0.
Hypothesis Hfl : map_flags_ok fl.

Lemma page_window j : 0 <= j < n → window (virt + j * 4096).
Proof. unfold window. lia. Qed.

Lemma page_inj i j : 0 <= i < n → 0 <= j < n → same_page (virt + i * 4096) (virt + j * 4096) → i = j.
Proof. intros Hi Hj Hp. apply (same_page_window _ _ (page_window i Hi) (page_window j Hj)) in Hp. lia. Qed.

(** Mapped so far: pages [0, j). *)
Definition mapped m j : Prop :=
  ∀ i v, 0 <= i < j → same_page (virt + i * 4096) v → mmu m root v = Some (phys + i * 4096 + v mod 4096) ∧ node m root 3 v ≠ None.

Lemma mapped_step m m' j :
  kept root m m' (same_page (virt + j * 4096)) → 0 <= j < n → mapped m j →
  (∀ v, same_page (virt + j * 4096) v → mmu m' root v = Some (phys + j * 4096 + v mod 4096) ∧ node m' root 3 v ≠ None) →
  mapped m' (j + 1).
Proof.
  intros K Hj Hm Hnew i v Hi Hp. destruct (decide (i = j)) as [->|Hne]; [by apply Hnew|].
  destruct (Hm i v) as [Hmm Hn]; [lia|done|]. split.
  - rewrite (ke_mmu _ _ _ _ K); [done|]. intros Hp'. apply Hne, page_inj; [lia|lia|]. unfold same_page in *. congruence.
  - destruct (node m root 3 v) as [t|] eqn:E; [|done]. by rewrite (ke_node _ _ _ _ K 3%nat v t) by (done || lia).
Qed.

Lemma map_range_spec k : ∀ j m0 m,
  kept root m0 m (in_pages virt 0 j) → ready (frames m0) → mapped m j → 0 <= j → j + Z.of_nat k = n →
  ∃ o m', map_range root virt phys fl k j m = Ok (o, m') ∧
    match o with
    | None => kept root m0 m' (in_pages virt 0 n) ∧ mapped m' n
    | Some i => 0 <= i < n ∧ kept root m0 m' (in_pages virt 0 i) ∧ mapped m' i
    end.
Proof.
  induction k as [|k IH]; intros j m0 m K R0 Hm Hj Hn; cbn [map_range].
  { exists None, m. split; [done|]. assert (j = n) as -> by lia. done. }
  pose proof (page_window j ltac:(lia)) as Hw. unfold window, MMIO_BASE, g_mmio_limit_virt in *. rewrite !u64_small by lia.
  destruct Hfl as [F1 F2 F3].
  destruct (vmm_map_page_spec (ready := ready) root m (virt + j * 4096) (phys + j * 4096) fl) as (ok & m1 & E & C & He);
    [apply K|apply K|lia|lia|done|done|unfold KERNEL_STACK_TOP; lia|unfold USER_END; lia|]. change 0x1000 with 4096. step_with E. cbv iota. rewrite F3 in C.
  assert (Hnode : ok = true → ∀ v, same_page (virt + j * 4096) v → node m1 root 3 v ≠ None).
  { intros Hok v Hp. specialize (He Hok). unfold page_entry in He. rewrite <-(same_page_node m1 root _ v Hp). by destruct (node m1 root 3 (virt + j * 4096)). }
  assert (K1 : kept root m m1 (same_page (virt + j * 4096))).
  { apply (changed_kept _ _ _ _ _ C). intros v Hp Ho Hnn. destruct ok; [by destruct (Hnode eq_refl v Hp)|]. split; [done|].
    destruct (node m root 3 v) as [t|] eqn:Et; [|done]. rewrite (ch_node _ _ _ _ _ C 3%nat v t) in Hnn by (done || lia). done. }
  destruct ok.
  - destruct (IH (j + 1) m0 m1) as (o & m' & E' & Ho); [|done| |lia|lia|eauto].
    + eapply kept_trans; [done| |]; (eapply kept_weaken; [done|]).
      * intros v (i & Hi & Hp). exists i. split; [lia|done].
      * intros v Hp. exists j. split; [lia|done].
    + apply (mapped_step m); [done|lia|done|]. intros v Hp. split; [|by apply Hnode].
      by rewrite (ch_mmu _ _ _ _ _ C), decide_True.
  - exists (Some j), m1. split; [done|]. split; [lia|].
    assert (Hmm : ∀ v, mmu m1 root v = mmu m root v) by (intros v; rewrite (ch_mmu _ _ _ _ _ C); by case_decide).
    assert (K2 : kept root m m1 (in_pages virt 0 j)) by (destruct K1; by split).
    split; [by eapply kept_trans|]. intros i v Hi Hp. destruct (Hm i v Hi Hp) as [? Hnn]. rewrite Hmm. split; [done|].
    destruct (node m root 3 v) as [t|] eqn:Et; [|done]. by rewrite (ke_node _ _ _ _ K1 3%nat v t) by (done || lia).
Qed.

(** Unmapping pages that are mapped by entries of page tables. *)
Lemma unmap_range_spec m i :
  space m root → ready (frames m) → 0 <= i <= n → (∀ j, 0 <= j < i → node m root 3 (virt + j * 4096) ≠ None) →
  ∃ m', unmap_range root virt i m = Ok m' ∧ kept root m m' (in_pages virt 0 i) ∧ ∀ v, in_pages virt 0 i v → mmu m' root v = None.
Proof.
  intros Hs Hr Hi Hn. unfold unmap_range.
  destruct (for_upto_rule (λ j m', kept root m m' (in_pages virt 0 j) ∧ ∀ v, in_pages virt 0 j v → mmu m' root v = None)
    (λ j m, vmm_unmap_page_no_flush_in root (u64 (virt + j * 0x1000)) m) (Z.to_nat i) 0 m) as (m' & E & K & Hm).
  - intros j m1 Hj [K Hm]. pose proof (page_window j ltac:(lia)) as Hw. unfold window, MMIO_BASE, g_mmio_limit_virt in *. rewrite u64_small by lia.
    change 0x1000 with 4096. destruct (vmm_unmap_page_spec (ready := ready) root m1 (virt + j * 4096)) as (ok & m2 & E & C & Hok); [apply K|apply K|].
    destruct ok.
    2: { destruct (Hn j ltac:(lia)). specialize (Hok eq_refl). destruct (node m root 3 (virt + j * 4096)) as [t|] eqn:Et; [|done].
         rewrite (ke_node _ _ _ _ K 3%nat _ t) in Hok by (done || lia). done. }
    assert (K2 : kept root m1 m2 (same_page (virt + j * 4096))) by (by apply (changed_kept _ _ _ _ _ C)).
    exists m2. split; [done|]. split.
    + eapply kept_trans; [done| |]; (eapply kept_weaken; [done|]).
      * intros v (k & Hk & Hp). exists k. split; [lia|done].
      * intros v Hp. exists j. split; [lia|done].
    + intros v (k & Hk & Hp). rewrite (ch_mmu _ _ _ _ _ C). case_decide as Hd; [done|]. apply Hm. exists k.
      split; [|done]. destruct (decide (k = j)) as [->|]; [done|lia].
  - split; [by apply kept_refl|]. intros v (k & Hk & _). lia.
  - exists m'. rewrite Z2Nat.id, Z.add_0_l in K, Hm by lia. done.
Qed.
End range.

Lemma free_range_spec phys n p :
  ready p → 0 <= n → 0 < phys → phys + n * 4096 <= 2 ^ 52 → phys mod 4096 = 0 →
  (∀ x, frame_ok x → phys <= x < phys + n * 4096 → 0 < refs p x) →
  ∃ p', free_range phys n p = Ok p' ∧ ready p' ∧
    ∀ x, frame_ok x → refs p' x = if decide (phys <= x < phys + n * 4096) then refs p x - 1 else refs p x.
Proof.
  intros Hr Hn Hp Hpn Hpm Hpos. unfold free_range.
  destruct (for_upto_rule (λ j p', ready p' ∧ ∀ x, frame_ok x → refs p' x = if decide (phys <= x < phys + j * 4096) then refs p x - 1 else refs p x)
    (λ j p, free_frame (u64 (phys + j * 0x1000)) p) (Z.to_nat n) 0 p) as (p' & E & R' & Hp').
  - intros j p1 Hj [R1 H1]. rewrite u64_small by lia. assert (Hf : frame_ok (phys + j * 0x1000)) by (split; lia).
    assert (E1 : refs p1 (phys + j * 0x1000) = refs p (phys + j * 0x1000)) by (rewrite H1 by done; by rewrite decide_False by lia).
    destruct (refcount_dec_spec p1 (phys + j * 0x1000) R1 Hf) as (p2 & E2 & R2 & H2); [rewrite E1; apply Hpos; [done|lia]|].
    exists p2. split; [done|]. split; [done|]. intros x Hx. rewrite H2 by done. pose proof Hx as [Hx1 Hx2]. destruct (decide (x = phys + j * 0x1000)) as [->|Hne].
    + rewrite E1, decide_True by lia. done.
    + rewrite H1 by done. repeat dec_goal; done || lia.
  - split; [done|]. intros x Hx. by rewrite decide_False by lia.
  - exists p'. rewrite Z2Nat.id, Z.add_0_l in Hp' by lia. done.
Qed.

(** * Lemmas: device mappings *)

(** Kernel state: addresses of the device window that nobody owns are not mapped, and no
    huge page lies in the window. *)
Record kernel_inv root (k : Kernel P) : Prop := {
  ki_space : space (kphys k) root;
  ki_ready : ready (frames (kphys k));
  ki_dma : dma_inv (kdma k);
  ki_aligned : dma_aligned (kdma k);
  ki_unowned a : window a → ¬ owned (kdma k) a → mmu (kphys k) root a = None;
  ki_small a : window a → node (kphys k) root 3 a = None → mmu (kphys k) root a = None
}.

Lemma in_pages_window virt n v :
  MMIO_BASE <= virt → virt + n * 4096 <= g_mmio_limit_virt → virt mod 4096 = 0 → window v →
  in_pages virt 0 n v ↔ virt <= v < virt + n * 4096.
Proof.
  intros H1 H2 H3 Hw. assert (Hp : ∀ j, 0 <= j < n → window (virt + j * 4096)) by (unfold window; lia). split.
  - intros (j & Hj & Hs). apply (same_page_window _ _ (Hp j Hj) Hw) in Hs. lia.
  - intros Hv. exists ((v - virt) / 4096). assert (0 <= (v - virt) / 4096 < n) as Hj by lia. split; [done|].
    apply (same_page_window _ _ (Hp _ Hj) Hw). lia.
Qed.

(** The state after the entries of [D] changed and the owned addresses with them. *)
Lemma kernel_inv_kept root k m' p' d' D :
  kernel_inv root k → kept root (kphys k) m' D → ready p' → (∀ i v t, (i <= 3)%nat → node m' root i v = Some t → 0 < refs p' t) →
  dma_inv d' → dma_aligned d' →
  (∀ a, window a → ¬ owned d' a → mmu m' root a = None ∨ (¬ D a ∧ ¬ owned (kdma k) a)) →
  kernel_inv root (mkKernel (mkPhys p' (words m')) d').
Proof.
  intros [I1 I2 I3 I4 I5 I6] K Rp Hp Hd Ha Ho. pose proof K as [K1 K2 K3 K4 K5 K6 K7 K8].
  assert (Hmmu : ∀ u, mmu (mkPhys p' (words m')) root u = mmu m' root u) by (intros; by apply mmu_agree).
  assert (Hnode : ∀ i u, node (mkPhys p' (words m')) root i u = node m' root i u) by (intros; by apply node_agree).
  split; cbn [kphys kdma frames]; try done.
  - by apply refs_space.
  - intros a Hw Hn. rewrite Hmmu. destruct (Ho a Hw Hn) as [?|[HnD Hn']]; [done|]. rewrite K3 by done. by apply I5.
  - intros a Hw. rewrite Hmmu, Hnode. intros Hn. destruct (mmu m' root a) eqn:Em; [|done].
    destruct (K7 a) as [Hm Hn']; [by rewrite Em|done|]. by rewrite I6 in Hm.
Qed.

(** A block of fresh frames is none of the tables. *)
Lemma kept_tables root m m1 m' D phys n :
  space m root → kept root m1 m' D → (∀ k v, node m1 root k v = node m root k v) →
  (∀ x, frame_ok x → phys <= x < phys + n * 4096 → refs (frames m) x = 0 ∧ refs (frames m1) x = 1) →
  ∀ i v t, (i <= 3)%nat → node m' root i v = Some t → ¬ (phys <= t < phys + n * 4096).
Proof.
  intros Hs K Hn Hf i v t Hi Ht Hin. destruct (sp_frame m' root (ke_space _ _ _ _ K) i v t Hi Ht) as [Hto _].
  destruct (Hf t Hto Hin) as [Hz H1]. destruct (ke_new _ _ _ _ K i v t Hi Ht) as [Ho|[_ Hz']]; [|lia].
  rewrite Hn in Ho. destruct (sp_frame m root Hs i v t Hi Ho). lia.
Qed.

Definition dma_mapped root (k : Kernel P) (al : DMAAllocation) : Prop :=
  ∀ o, 0 <= o < dsize al → mmu (kphys k) root (dvirt al + o) = Some (dphys al + o).
Definition dma_range (al : DMAAllocation) (a : Z) : Prop := dvirt al <= a < dvirt al + dsize al.
Definition dma_frames (al : DMAAllocation) (x : Z) : Prop := dphys al <= x < dphys al + dsize al.
Definition off_pages (al : DMAAllocation) (v : Z) : Prop := ¬ in_pages (dvirt al) 0 (dsize al / 4096) v.

(** A buffer of fresh frames at addresses that were nobody's. *)
Record dma_given root (k k' : Kernel P) (al : DMAAllocation) : Prop := {
  dg_inv : kernel_inv root k';
  dg_align : dvirt al mod 4096 = 0 ∧ dphys al mod 4096 = 0 ∧ dsize al mod 4096 = 0;
  dg_virt : MMIO_BASE <= dvirt al ∧ dvirt al + dsize al <= g_mmio_limit_virt;
  dg_phys : 0 < dphys al ∧ dphys al + dsize al <= 2 ^ 52;
  dg_size : 0 < dsize al;
  dg_map : dma_mapped root k' al;
  dg_other v : off_pages al v → mmu (kphys k') root v = mmu (kphys k) root v;
  dg_new a : dma_range al a → ¬ owned (kdma k) a ∧ mmu (kphys k) root a = None;
  dg_owned a : owned (kdma k') a ↔ owned (kdma k) a ∨ dma_range al a;
  dg_free x : frame_ok x → dma_frames al x → refs (frames (kphys k)) x = 0 ∧ refs (frames (kphys k')) x = 1;
  dg_refs x : frame_ok x → 0 < refs (frames (kphys k)) x → refs (frames (kphys k')) x = refs (frames (kphys k)) x;
  dg_tables i v t : (i <= 3)%nat → node (kphys k') root i v = Some t → ¬ dma_frames al t;
  dg_node a : dma_range al a → node (kphys k') root 3 a ≠ None
}.

(** Nothing was given: translations and counts are as before; addresses may leak. *)
Record dma_refused root (k k' : Kernel P) : Prop := {
  dr_inv : kernel_inv root k';
  dr_mmu v : mmu (kphys k') root v = mmu (kphys k) root v;
  dr_refs x : frame_ok x → 0 < refs (frames (kphys k)) x → refs (frames (kphys k')) x = refs (frames (kphys k)) x;
  dr_owned a : owned (kdma k) a → owned (kdma k') a
}.

Lemma in_pages_iff virt n v :
  MMIO_BASE <= virt → virt + n * 4096 <= g_mmio_limit_virt → virt mod 4096 = 0 →
  in_pages virt 0 n v ↔ 0 <= v mod 2 ^ 48 / 4096 - virt mod 2 ^ 48 / 4096 < n.
Proof.
  unfold MMIO_BASE, g_mmio_limit_virt. intros H1 H2 H3. unfold in_pages, same_page, pre, low. simpl.
  change (2 ^ (39 - 36 + 9)) with 4096. split.
  - intros (j & Hj & E). lia.
  - intros Hj. exists (v mod 2 ^ 48 / 4096 - virt mod 2 ^ 48 / 4096). lia.
Qed.

(** Frames that were free get their first reference. *)
Lemma kept_alloc root m p :
  space m root → ready p → (∀ x, frame_ok x → 0 < refs (frames m) x → refs p x = refs (frames m) x) →
  kept root m (mkPhys p (words m)) (λ _, False).
Proof.
  intros Hs Rp Hp. assert (Hn : ∀ k v, node (mkPhys p (words m)) root k v = node m root k v) by (intros; by apply node_agree).
  assert (Hm : ∀ v, mmu (mkPhys p (words m)) root v = mmu m root v) by (intros; by apply mmu_agree).
  split; try done.
  - apply refs_space; [done|]. intros k v t Hk Ht. destruct (sp_frame m root Hs k v t Hk Ht). by rewrite Hp.
  - intros k v t _. by rewrite Hn.
  - intros k v t _. rewrite Hn. by left.
Qed.

Lemma tables_referenced root m' : space m' root → ∀ i v t, (i <= 3)%nat → node m' root i v = Some t → 0 < refs (frames m') t.
Proof. intros Hs i v t Hi Ht. apply (sp_frame m' root Hs i v t Hi Ht). Qed.

Lemma in_pages_range virt n a : window a → MMIO_BASE <= virt → virt + n * 4096 <= g_mmio_limit_virt → virt mod 4096 = 0 →
  ¬ (virt <= a < virt + n * 4096) → ¬ in_pages virt 0 n a.
Proof. intros Hw H1 H2 H3 Ho Hp. apply Ho. by apply in_pages_window. Qed.

Section dma.
Variables (root : Z) (k : Kernel P) (pages fl phys : Z) (p : P) (virt : Z) (d : Dma).
Let m := kphys k.
Let m1 := mkPhys p (words m).
Hypothesis Hk : kernel_inv root k.
Hypothesis Hpages : 0 < pages < 2 ^ 52.
Hypothesis Hfl : map_flags_ok fl.
Hypothesis Hphys : 0 < phys ∧ phys + pages * 4096 <= 2 ^ 52 ∧ phys mod 4096 = 0.
Hypothesis Rp : ready p.
Hypothesis Hp : ∀ x, frame_ok x →
  refs p x = (if decide (phys <= x < phys + pages * 4096) then 1 else refs (frames m) x) ∧
  (phys <= x < phys + pages * 4096 → refs (frames m) x = 0).
Hypothesis Hvirt : MMIO_BASE <= virt ∧ virt + pages * 4096 <= g_mmio_limit_virt ∧ virt mod 4096 = 0.
Hypothesis Hdinv : dma_inv d.
Hypothesis Hdal : dma_aligned d.
Hypothesis Hnew : ∀ a, virt <= a < virt + pages * 4096 → ¬ owned (kdma k) a.
Hypothesis Hown : ∀ a, owned d a ↔ owned (kdma k) a ∨ virt <= a < virt + pages * 4096.

Lemma block_kept : kept root m m1 (λ _, False).
Proof.
  apply kept_alloc; [apply Hk|done|]. intros x Hx Hxr. destruct (Hp x Hx) as [-> Hz]. case_decide; [specialize (Hz ltac:(done)); lia|done].
Qed.

Lemma block_node i v : node m1 root i v = node m root i v.
Proof. by apply node_agree. Qed.

Lemma block_unmapped a : virt <= a < virt + pages * 4096 → mmu m root a = None.
Proof. intros Ha. apply (ki_unowned _ _ Hk); [unfold window; lia|by apply Hnew]. Qed.

Lemma block_pages_unmapped v : in_pages virt 0 pages v → mmu m root v = None.
Proof.
  intros (j & Hj & Hs). eapply mmu_page_None; [exact Hs|]. apply block_unmapped. lia.
Qed.

Lemma dma_given_spec m' :
  kept root m1 m' (in_pages virt 0 pages) → mapped root virt phys m' pages →
  dma_given root k (mkKernel m' d) (mkAlloc virt phys (pages * 4096)).
Proof.
  intros K Hm. destruct Hvirt as (Hv1 & Hv2 & Hv3). destruct Hphys as (Hp1 & Hp2 & Hp3).
  assert (K' : kept root m m' (in_pages virt 0 pages)).
  { eapply kept_trans; [apply Hk| |exact K]. eapply kept_weaken; [exact block_kept|done]. }
  assert (Hw : ∀ a, virt <= a < virt + pages * 4096 → window a) by (unfold window; lia).
  assert (Hin : ∀ a, virt <= a < virt + pages * 4096 → mmu m' root a = Some (phys + (a - virt)) ∧ node m' root 3 a ≠ None).
  { intros a Ha. destruct (Hm ((a - virt) / 4096) a) as [E Hn]; [lia| |rewrite E; split; [f_equal; lia|done]].
    apply same_page_window; [apply Hw; lia|by apply Hw|lia]. }
  split; cbn [dvirt dphys dsize kphys kdma]; try done; try lia.
  - rewrite <-(phys_eta m'). eapply (kernel_inv_kept root k m' (frames m') d); [done|exact K'|apply K'| |done|done|].
    + by apply tables_referenced, K'.
    + intros a Hwa Hno. right. split; [|intros ?; apply Hno, Hown; by left]. apply in_pages_range; try done.
      intros Ha. apply Hno, Hown. by right.
  - intros o Ho. cbn [dvirt dphys dsize kphys] in *. destruct (Hin (virt + o)) as [E _]; [lia|]. rewrite E. f_equal. lia.
  - intros v Hv. apply (ke_mmu _ _ _ _ K'). unfold off_pages in Hv. cbn [dvirt dsize] in Hv. by rewrite Z.div_mul in Hv.
  - intros a Ha. unfold dma_range in Ha. cbn [dvirt dsize] in Ha. split; [by apply Hnew|by apply block_unmapped].
  - intros x Hx Hf. unfold dma_frames in Hf. cbn [dphys dsize] in Hf. destruct (Hp x Hx) as [E Hz]. rewrite decide_True in E by done.
    split; [by apply Hz|]. rewrite (ke_refs _ _ _ _ K); [exact E|done|]. simpl. rewrite E. lia.
  - intros x Hx Hxr. by apply (ke_refs _ _ _ _ K').
  - intros i v t Hi Ht. unfold dma_frames. cbn [dphys dsize]. eapply (kept_tables root m m1 m'); [apply Hk|exact K|exact block_node| |done|done].
    intros x Hx Hf. destruct (Hp x Hx) as [E Hz]. rewrite decide_True in E by done. split; [by apply Hz|done].
  - intros a Ha. by apply Hin.
Qed.

Lemma dma_undo_spec m' i :
  0 <= i < pages → kept root m1 m' (in_pages virt 0 i) → mapped root virt phys m' i →
  ∃ m2 p2 d2, unmap_range root virt i m' = Ok m2 ∧ free_range phys pages (frames m2) = Ok p2 ∧
    dma_free_virt_range virt (pages * 4096) d = Ok d2 ∧ dma_refused root k (mkKernel (mkPhys p2 (words m2)) d2).
Proof.
  intros Hi K Hm. destruct Hvirt as (Hv1 & Hv2 & Hv3). destruct Hphys as (Hp1 & Hp2 & Hp3).
  destruct (unmap_range_spec root virt phys pages Hvirt m' i) as (m2 & E2 & K2 & Hnone); [apply K|apply K|lia| |].
  { intros j Hj. apply (Hm j); [done|reflexivity]. }
  assert (K12 : kept root m1 m2 (in_pages virt 0 i)) by (by eapply kept_trans; [apply Rp| |]).
  assert (K02 : kept root m m2 (in_pages virt 0 i)).
  { eapply kept_trans; [apply Hk| |exact K12]. eapply kept_weaken; [exact block_kept|done]. }
  assert (Hrefs2 : ∀ x, frame_ok x → phys <= x < phys + pages * 4096 → refs (frames m2) x = 1).
  { intros x Hx Hin. destruct (Hp x Hx) as [E _]. rewrite decide_True in E by done. rewrite (ke_refs _ _ _ _ K12); [exact E|done|]. simpl. rewrite E. lia. }
  destruct (free_range_spec phys pages (frames m2)) as (p2 & Ep & R2 & Hp2'); [apply K2|lia|lia|lia|done| |].
  { intros x Hx Hin. rewrite Hrefs2 by done. lia. }
  destruct (dma_free_spec d virt (pages * 4096)) as (d2 & Ed & Hd2 & _ & Hod); [done|lia|intros a Ha; apply Hown; by right|].
  exists m2, p2, d2. do 3 (split; [done|]).
  assert (Hall : ∀ v, mmu m2 root v = mmu m root v).
  { intros v. destruct (decide (0 <= v mod 2 ^ 48 / 4096 - virt mod 2 ^ 48 / 4096 < i)) as [Hin|Hout].
    - assert (Hpg : in_pages virt 0 i v) by (apply in_pages_iff; [lia|lia|done|done]). rewrite Hnone by done. symmetry.
      apply block_pages_unmapped. destruct Hpg as (j & Hj & ?). exists j. split; [lia|done].
    - apply (ke_mmu _ _ _ _ K02). intros Hin%in_pages_iff; try lia. }
  assert (Htab : ∀ j v t, (j <= 3)%nat → node m2 root j v = Some t → ¬ (phys <= t < phys + pages * 4096)).
  { eapply (kept_tables root m m1 m2); [apply Hk|exact K12|exact block_node|]. intros x Hx Hin.
    destruct (Hp x Hx) as [E Hz]. rewrite decide_True in E by done. split; [by apply Hz|done]. }
  split; cbn [kphys kdma frames].
  - eapply (kernel_inv_kept root k m2 p2 d2); [done|exact K02|done| |done| |].
    + intros j v t Hj Ht. destruct (sp_frame m2 root (ke_space _ _ _ _ K2) j v t Hj Ht) as [Hto Htr].
      rewrite Hp2' by done. rewrite decide_False; [done|]. by eapply Htab.
    + eapply dma_free_aligned; [exact Hdal|exact Hv3| |exact Ed]. by rewrite Z.mod_mul.
    + intros a Hwa Hno. left. rewrite Hall. destruct (decide (virt <= a < virt + pages * 4096)); [by apply block_unmapped|].
      apply (ki_unowned _ _ Hk); [done|]. intros Ho. apply Hno. destruct Hod as [Hod|[Hod _]]; apply Hod; [split; [apply Hown; by left|done]|apply Hown; by left].
  - intros v. rewrite (mmu_agree m2 _ root v) by done. apply Hall.
  - intros x Hx Hxr. rewrite Hp2' by done. rewrite decide_False; [by apply (ke_refs _ _ _ _ K02)|]. intros Hin. destruct (Hp x Hx) as [_ Hz]. specialize (Hz Hin). unfold m in Hz. lia.
  - intros a Ho. destruct Hod as [Hod|[Hod _]]; apply Hod; [split; [apply Hown; by left|]|apply Hown; by left]. intros Ha. by apply (Hnew a).
Qed.
End dma.

Definition dma_impossible (k : Kernel P) (sz : Z) : Prop :=
  (MASSIVE_MAPPING_THRESHOLD < sz ∨ g_mmio_limit_virt - g_mmio_next_virt (kdma k) < sz) ∧
  ∀ i r, g_dma_free_ranges (kdma k) !! i = Some r → size r < sz.

Lemma mapped_none root virt phys m : mapped root virt phys m 0.
Proof. intros i v Hi. lia. Qed.

Lemma alloc_dma_spec root k pages fl :
  kernel_inv root k → 0 < pages < 2 ^ 52 → map_flags_ok fl →
  (∃ msg, vmm_alloc_dma_with_flags root pages fl k = Panic msg ∧ dma_impossible k (pages * 4096)) ∨
  (∃ k', vmm_alloc_dma_with_flags root pages fl k = Ok (no_alloc, k') ∧ dma_refused root k k') ∨
  (∃ al k', vmm_alloc_dma_with_flags root pages fl k = Ok (al, k') ∧ dsize al = pages * 4096 ∧ dma_given root k k' al).
Proof.
  intros Hk Hpages Hfl. unfold vmm_alloc_dma_with_flags. destruct (Z.eqb_spec pages 0); [lia|]. cbv zeta.
  pose proof Hk as [Hs Hr Hd Ha Hun Hsm]. destruct (alloc_frames_spec (frames (kphys k)) pages Hr Hpages) as (phys & p & Ea & Rp & Hc).
  step_with Ea. cbv iota. destruct Hc as [[-> Hp]|(Hf & Hpe & Hp)].
  { right. left. cbn [Z.eqb]. eexists. split; [done|]. assert (K : kept root (kphys k) (mkPhys p (words (kphys k))) (λ _, False)).
    { apply kept_alloc; [done|done|]. intros x Hx _. by apply Hp. }
    split; cbn [kphys kdma frames]; try done.
    - eapply (kernel_inv_kept root k (mkPhys p (words (kphys k))) p (kdma k) (λ _, False)); [done|exact K|done| |done|done|].
      + apply (tables_referenced root _ (ke_space _ _ _ _ K)).
      + intros a Hw Hno. left. rewrite (ke_mmu _ _ _ _ K) by auto. by apply Hun.
    - intros x Hx _. by apply Hp. }
  destruct (Z.eqb_spec phys 0); [destruct Hf; lia|]. destruct Hf as [Hf1 Hf2].
  assert (Hmax : (UINT64_MAX / 0x1000 <? pages) = false) by (apply Z.ltb_ge; unfold UINT64_MAX; lia). rewrite Hmax.
  rewrite (u64_small (pages * 0x1000)) by lia. change 0x1000 with 4096.
  destruct (dma_alloc_spec (kdma k) (pages * 4096) Hd ltac:(lia)) as [(msg & E & Hbad & Hfit)|(virt & d & E & Hd' & Hv1 & Hv2 & _ & Hnew & Hown)].
  { left. exists msg. by rewrite E. }
  step_with E. cbv iota. destruct (dma_alloc_aligned _ _ _ _ Ha ltac:(by rewrite Z.mod_mul) E) as [Hv3 Ha'].
  set (m1 := mkPhys p (words (kphys k))).
  assert (Hp' : ∀ x, frame_ok x → 0 < refs (frames (kphys k)) x → refs p x = refs (frames (kphys k)) x).
  { intros x Hx Hxr. destruct (Hp x Hx) as [-> Hz]. case_decide; [specialize (Hz ltac:(done)); lia|done]. }
  destruct (map_range_spec root virt phys fl pages ltac:(done) ltac:(lia) Hfl (Z.to_nat pages) 0 m1 m1) as (o & m' & Em & Ho);
    [|done|apply mapped_none|lia|lia|].
  { apply kept_refl; [|done]. apply (ke_space root (kphys k) m1 (λ _, False)). by apply kept_alloc. }
  step_with Em. cbv iota. destruct o as [i|].
  - destruct Ho as (Hi & K & Hm).
    destruct (dma_undo_spec root k pages phys p virt d) with (m' := m') (i := i) as (m2 & p2 & d2 & E1 & E2 & E3 & Href); try done; [lia|].
    step_with E1. step_with E2. step_with E3. right. left. eauto.
  - destruct Ho as [K Hm]. right. right. eexists _, _. split; [done|]. split; [done|].
    apply (dma_given_spec root k pages phys p virt d); try done. lia.
Qed.

(** Returning a buffer takes back its frames, its mapping and its addresses. *)
Lemma free_dma_spec root k al :
  kernel_inv root k → 0 < dsize al → dvirt al mod 4096 = 0 → dphys al mod 4096 = 0 → dsize al mod 4096 = 0 →
  MMIO_BASE <= dvirt al → dvirt al + dsize al <= g_mmio_limit_virt → 0 < dphys al → dphys al + dsize al <= 2 ^ 52 →
  (∀ a, dma_range al a → owned (kdma k) a ∧ node (kphys k) root 3 a ≠ None) →
  (∀ x, frame_ok x → dma_frames al x → 0 < refs (frames (kphys k)) x) →
  (∀ i v t, (i <= 3)%nat → node (kphys k) root i v = Some t → ¬ dma_frames al t) →
  ∃ k', vmm_free_dma root al k = Ok k' ∧ kernel_inv root k' ∧
    (∀ v, ¬ off_pages al v → mmu (kphys k') root v = None) ∧
    (∀ v, off_pages al v → mmu (kphys k') root v = mmu (kphys k) root v) ∧
    (∀ x, frame_ok x → 0 < refs (frames (kphys k)) x →
       refs (frames (kphys k')) x = if decide (dma_frames al x) then refs (frames (kphys k)) x - 1 else refs (frames (kphys k)) x) ∧
    ((∀ a, owned (kdma k') a ↔ owned (kdma k) a ∧ ¬ dma_range al a) ∨
     (∀ a, owned (kdma k') a ↔ owned (kdma k) a)).
Proof.
  intros Hk Hsz Hv3 Hp3 Hs3 Hv1 Hv2 Hp1 Hp2 Hrange Hfr Htab. unfold vmm_free_dma. destruct (Z.eqb_spec (dsize al) 0) as [?|_]; [lia|]. cbv zeta.
  destruct al as [virt phys sz]. cbn [dvirt dphys dsize] in *. unfold dma_range, dma_frames, off_pages in *. cbn [dvirt dphys dsize] in *.
  unfold MMIO_BASE, g_mmio_limit_virt in Hv1, Hv2. rewrite (u64_small (sz + 4095)) by lia.
  set (n := sz / 4096). assert (Hn : (sz + 4095) / 4096 = n) by (unfold n; lia). rewrite Hn. assert (Hnz : sz = n * 4096) by (unfold n; lia).
  pose proof Hk as [Hs Hr Hd Ha Hun Hsm].
  assert (Hvirt : MMIO_BASE <= virt ∧ virt + n * 4096 <= g_mmio_limit_virt ∧ virt mod 4096 = 0)
    by (unfold MMIO_BASE, g_mmio_limit_virt; lia).
  destruct (unmap_range_spec root virt phys n Hvirt (kphys k) n) as (m2 & E2 & K2 & Hnone); [done|done|lia| |].
  { intros j Hj. apply Hrange. lia. }
  step_with E2.
  assert (Htab2 : ∀ i v t, (i <= 3)%nat → node m2 root i v = Some t → ¬ (phys <= t < phys + sz)).
  { intros i v t Hi Ht Hin. destruct (sp_frame m2 root (ke_space _ _ _ _ K2) i v t Hi Ht) as [Hto _].
    destruct (ke_new _ _ _ _ K2 i v t Hi Ht) as [Ho|[_ Hz]]; [by eapply Htab|]. specialize (Hfr t Hto Hin). lia. }
  destruct (free_range_spec phys n (frames m2)) as (p2 & Ep & R2 & Hrefs); [apply K2|lia|lia|lia|done| |].
  { intros x Hx Hin. rewrite (ke_refs _ _ _ _ K2) by (done || (apply Hfr; [done|lia])). apply Hfr; [done|lia]. }
  step_with Ep. destruct (dma_free_spec (kdma k) virt sz Hd Hsz) as (d2 & Ed & Hd2 & _ & Hod); [intros a Hin; by apply Hrange|].
  step_with Ed. eexists. split; [done|]. cbn [kphys kdma frames].
  assert (Hmmu : ∀ v, mmu (mkPhys p2 (words m2)) root v = mmu m2 root v) by (intros; by apply mmu_agree).
  assert (Hdec : ∀ v, in_pages virt 0 n v ∨ ¬ in_pages virt 0 n v).
  { intros v. rewrite in_pages_iff by lia. lia. }
  split; [|split; [|split; [|split]]].
  - eapply (kernel_inv_kept root k m2 p2 d2); [done|exact K2|done| |done| |].
    + intros i v t Hi Ht. destruct (sp_frame m2 root (ke_space _ _ _ _ K2) i v t Hi Ht) as [Hto Htr].
      rewrite Hrefs by done. rewrite decide_False; [done|]. rewrite <-Hnz. by eapply Htab2.
    + eapply dma_free_aligned; [exact Ha|exact Hv3|exact Hs3|exact Ed].
    + intros a Hwa Hno. destruct (decide (virt <= a < virt + sz)) as [Hin|Hout].
      * left. apply Hnone. apply in_pages_window; try lia. done.
      * right. split; [apply in_pages_range; try lia; done|].
        intros Ho. apply Hno. destruct Hod as [Hod|[Hod _]]; by apply Hod.
  - intros v Hv. rewrite Hmmu. apply Hnone. destruct (Hdec v); done.
  - intros v Hv. rewrite Hmmu. by apply (ke_mmu _ _ _ _ K2).
  - intros x Hx Hxr. rewrite Hrefs by done. rewrite (ke_refs _ _ _ _ K2) by done. by rewrite <-Hnz.
  - destruct Hod as [Hod|[Hod _]]; [by left|by right].
Qed.

(** ** Device registers *)

(** The arguments of a mapping as the code rounds them. *)
Lemma mmio_pages phys_addr sz :
  0 <= phys_addr → 0 < sz → phys_addr + sz <= 2 ^ 52 →
  let offset := phys_addr mod 4096 in let pages := (sz + offset + 4095) / 4096 in
  0 < pages ∧ sz + offset <= pages * 4096 ∧ phys_addr - offset + pages * 4096 <= 2 ^ 52.
Proof. cbv zeta. lia. Qed.

Section mmio.
Variables (root : Z) (k : Kernel P) (pages phys virt : Z) (d : Dma).
Let m := kphys k.
Hypothesis Hk : kernel_inv root k.
Hypothesis Hpages : 0 < pages.
Hypothesis Hvirt : MMIO_BASE <= virt ∧ virt + pages * 4096 <= g_mmio_limit_virt ∧ virt mod 4096 = 0.
Hypothesis Hdinv : dma_inv d.
Hypothesis Hdal : dma_aligned d.
Hypothesis Hnew : ∀ a, virt <= a < virt + pages * 4096 → ¬ owned (kdma k) a.
Hypothesis Hown : ∀ a, owned d a ↔ owned (kdma k) a ∨ virt <= a < virt + pages * 4096.

Lemma range_unmapped a : virt <= a < virt + pages * 4096 → mmu m root a = None.
Proof. intros Ha. apply (ki_unowned _ _ Hk); [unfold window; lia|by apply Hnew]. Qed.

Lemma mmio_undo m' i :
  0 <= i < pages → kept root m m' (in_pages virt 0 i) → mapped root virt phys m' i →
  ∃ m2 d2, unmap_range root virt i m' = Ok m2 ∧ dma_free_virt_range virt (pages * 4096) d = Ok d2 ∧
    dma_refused root k (mkKernel m2 d2).
Proof.
  intros Hi K Hm. destruct Hvirt as (Hv1 & Hv2 & Hv3).
  destruct (unmap_range_spec root virt phys pages Hvirt m' i) as (m2 & E2 & K2 & Hnone); [apply K|apply K|lia| |].
  { intros j Hj. apply (Hm j); [done|reflexivity]. }
  assert (K02 : kept root m m2 (in_pages virt 0 i)) by (eapply kept_trans; [apply Hk|exact K|exact K2]).
  destruct (dma_free_spec d virt (pages * 4096)) as (d2 & Ed & Hd2 & _ & Hod); [done|lia|intros a Ha; apply Hown; by right|].
  exists m2, d2. do 2 (split; [done|]).
  assert (Hall : ∀ v, mmu m2 root v = mmu m root v).
  { intros v. destruct (decide (0 <= v mod 2 ^ 48 / 4096 - virt mod 2 ^ 48 / 4096 < i)) as [Hin|Hout].
    - assert (Hpg : in_pages virt 0 i v) by (apply in_pages_iff; [lia|lia|done|done]). rewrite Hnone by done. symmetry.
      destruct Hpg as (j & Hj & Hs). eapply mmu_page_None; [exact Hs|]. apply range_unmapped. lia.
    - apply (ke_mmu _ _ _ _ K02). intros Hin%in_pages_iff; try lia. }
  assert (Howned : ∀ a, owned (kdma k) a → owned d2 a).
  { intros a Ho. destruct Hod as [Hod|[Hod _]]; apply Hod; [split; [apply Hown; by left|]|apply Hown; by left].
    intros Ha. by apply (Hnew a). }
  split; cbn [kphys kdma].
  - rewrite <-(phys_eta m2). eapply (kernel_inv_kept root k m2 (frames m2) d2); [done|exact K02|apply K02| |done| |].
    + by apply tables_referenced, K02.
    + eapply dma_free_aligned; [exact Hdal|exact Hv3| |exact Ed]. by rewrite Z.mod_mul.
    + intros a Hwa Hno. left. rewrite Hall. apply (ki_unowned _ _ Hk); [done|]. intros Ho. by apply Hno, Howned.
  - apply Hall.
  - intros x Hx Hxr. by apply (ke_refs _ _ _ _ K02).
  - done.
Qed.

Lemma mmio_given m' :
  kept root m m' (in_pages virt 0 pages) → mapped root virt phys m' pages →
  kernel_inv root (mkKernel m' d) ∧
  (∀ a, virt <= a < virt + pages * 4096 → mmu m' root a = Some (phys + (a - virt))) ∧
  (∀ a, owned (kdma k) a → mmu m' root a = mmu m root a).
Proof.
  intros K Hm. destruct Hvirt as (Hv1 & Hv2 & Hv3). split; [|split].
  - rewrite <-(phys_eta m'). eapply (kernel_inv_kept root k m' (frames m') d); [done|exact K|apply K| |done|done|].
    + by apply tables_referenced, K.
    + intros a Hwa Hno. right. split; [|intros ?; apply Hno, Hown; by left]. apply in_pages_range; try done.
      intros Ha. apply Hno, Hown. by right.
  - intros a Ha. destruct (Hm ((a - virt) / 4096) a) as [E _]; [lia| |rewrite E; f_equal; lia].
    apply same_page_window; unfold window; lia.
  - intros a Ho. apply (ke_mmu _ _ _ _ K). pose proof Ho as [Hw _]. pose proof (di_next _ (ki_dma _ _ Hk)).
    apply in_pages_range; try done; [unfold window; lia|]. intros Ha. by apply (Hnew a).
Qed.
End mmio.

Lemma mmio_flags : map_flags_ok PTE_MMIO.
Proof.
  assert (Hm : PTE_MMIO = Z.lor 27 (2 ^ 63)) by reflexivity. split.
  - rewrite Hm. apply lor_u64; lia.
  - intros n Hn. rewrite Hm, Z.lor_spec, Z.pow2_bits_false by lia. rewrite (testbit_ge 27 5) by lia. done.
  - reflexivity.
Qed.

Lemma map_mmio_spec root k phys_addr sz :
  kernel_inv root k → 0 <= phys_addr → 0 < sz → phys_addr + sz <= 2 ^ 52 →
  (∃ msg, vmm_map_mmio root phys_addr sz k = Panic msg ∧
     (MASSIVE_MAPPING_THRESHOLD < sz + 8192 ∨ g_mmio_limit_virt - g_mmio_next_virt (kdma k) < sz + 8192)) ∨
  (∃ k', vmm_map_mmio root phys_addr sz k = Ok (0, k') ∧ dma_refused root k k') ∨
  (∃ v k', vmm_map_mmio root phys_addr sz k = Ok (v, k') ∧ kernel_inv root k' ∧ MMIO_BASE <= v ∧ v + sz <= g_mmio_limit_virt ∧
     (∀ o, 0 <= o < sz → mmu (kphys k') root (v + o) = Some (phys_addr + o) ∧ owned (kdma k') (v + o) ∧ ¬ owned (kdma k) (v + o)) ∧
     (∀ a, owned (kdma k) a → owned (kdma k') a ∧ mmu (kphys k') root a = mmu (kphys k) root a) ∧
     (∀ x, frame_ok x → 0 < refs (frames (kphys k)) x → refs (frames (kphys k')) x = refs (frames (kphys k)) x)).
Proof.
  intros Hk Hpa Hsz Hend. unfold vmm_map_mmio. destruct (Z.eqb_spec sz 0); [lia|]. cbv zeta.
  rewrite (land_not_fff phys_addr) by lia. replace (Z.land phys_addr 0xFFF) with (phys_addr mod 2 ^ 12) by (symmetry; by apply (land_ones_mod phys_addr 12)).
  destruct (mmio_pages phys_addr sz Hpa Hsz Hend) as (Hp1 & Hp2 & Hp3). change (2 ^ 12) with 4096.
  set (off := phys_addr mod 4096) in *. assert (Hoff : 0 <= off < 4096) by (unfold off; lia).
  assert (G1 : (UINT64_MAX - off <? sz) || (UINT64_MAX - 0xFFF <? u64 (sz + off)) = false).
  { rewrite u64_small by lia. unfold UINT64_MAX. apply orb_false_iff. split; apply Z.ltb_ge; lia. }
  rewrite G1. rewrite (u64_small (sz + off)) by lia. rewrite (u64_small (sz + off + 0xFFF)) by lia.
  change 0x1000 with 4096. set (pages := (sz + off + 4095) / 4096) in *.
  assert (G2 : (pages =? 0) || (UINT64_MAX / 4096 <? pages) = false).
  { apply orb_false_iff. split; [apply Z.eqb_neq; lia|]. apply Z.ltb_ge. unfold UINT64_MAX. lia. }
  rewrite G2. rewrite (u64_small (pages * 4096)) by lia. assert (Hps : pages * 4096 <= sz + 8192) by (unfold pages; lia).
  destruct (Z.ltb_spec MASSIVE_MAPPING_THRESHOLD (pages * 4096)); [left; eexists; split; [done|lia]|].
  pose proof Hk as [Hs Hr Hd Ha Hun Hsm]. destruct (Z.ltb_spec g_mmio_limit_virt (g_mmio_next_virt (kdma k))); [pose proof (di_next _ Hd); lia|].
  cbn [orb]. destruct (Z.ltb_spec (g_mmio_limit_virt - g_mmio_next_virt (kdma k)) (pages * 4096)); [left; eexists; split; [done|lia]|].
  destruct (dma_alloc_spec (kdma k) (pages * 4096) Hd ltac:(lia)) as [(msg & E & Hbad & Hfit)|(virt & d & E & Hd' & Hv1 & Hv2 & _ & Hnew & Hown)]; [lia|].
  step_with E. cbv iota. destruct (dma_alloc_aligned _ _ _ _ Ha ltac:(by rewrite Z.mod_mul) E) as [Hv3 Ha'].
  set (phys := phys_addr / 4096 * 4096). assert (Hphys : phys_addr = phys + off) by (unfold phys, off; lia).
  destruct (map_range_spec root virt phys PTE_MMIO pages ltac:(done) ltac:(lia) mmio_flags (Z.to_nat pages) 0 (kphys k) (kphys k))
    as (o & m' & Em & Ho); [by apply kept_refl|done|apply mapped_none|lia|lia|].
  step_with Em. cbv iota. destruct o as [i|].
  - destruct Ho as (Hi & K & Hm).
    destruct (mmio_undo root k pages phys virt d) with (m' := m') (i := i) as (m2 & d2 & E1 & E2 & Href); try done.
    step_with E1. step_with E2. right. left. eauto.
  - destruct Ho as [K Hm]. right. right.
    destruct (mmio_given root k pages phys virt d) with (m' := m') as (G3 & G4 & G5); try done.
    unfold MMIO_BASE, g_mmio_limit_virt in *. rewrite (u64_small (virt + off)) by lia. eexists _, _. split; [done|]. split; [done|].
    split; [lia|]. split; [lia|]. cbn [kphys kdma]. split; [|split].
    + intros o Ho. rewrite G4 by lia. split; [f_equal; lia|]. split; [apply Hown; right; lia|apply Hnew; lia].
    + intros a Hoa. split; [apply Hown; by left|by apply G5].
    + intros x Hx Hxr. by apply (ke_refs _ _ _ _ K).
Qed.
End facts.

(** * Properties *)


(** Mapping device registers stops the machine only if the region is too large, is
    refused without any trace but possibly leaked addresses, or yields an address in the
    device window whose [sz] bytes translate to the registers, none of them owned before,
    while addresses owned by others translate as before and no reference count changes. *)
Theorem vmm_map_mmio_correct {P} `{Frames P} (ready : P → Prop) `{!FramesLaws P ready} root (k : Kernel P) phys_addr sz :
  kernel_inv (ready := ready) root k → 0 <= phys_addr → 0 < sz → phys_addr + sz <= 2 ^ 52 →
  (∃ msg, vmm_map_mmio root phys_addr sz k = Panic msg ∧
     (MASSIVE_MAPPING_THRESHOLD < sz + 8192 ∨ g_mmio_limit_virt - g_mmio_next_virt (kdma k) < sz + 8192)) ∨
  (∃ k', vmm_map_mmio root phys_addr sz k = Ok (0, k') ∧ dma_refused (ready := ready) root k k') ∨
  (∃ v k', vmm_map_mmio root phys_addr sz k = Ok (v, k') ∧ kernel_inv (ready := ready) root k' ∧
     MMIO_BASE <= v ∧ v + sz <= g_mmio_limit_virt ∧
     (∀ o, 0 <= o < sz → mmu (kphys k') root (v + o) = Some (phys_addr + o) ∧ owned (kdma k') (v + o) ∧ ¬ owned (kdma k) (v + o)) ∧
     (∀ a, owned (kdma k) a → owned (kdma k') a ∧ mmu (kphys k') root a = mmu (kphys k) root a) ∧
     (∀ x, frame_ok x → 0 < refs (frames (kphys k)) x → refs (frames (kphys k')) x = refs (frames (kphys k)) x)).
Proof. apply map_mmio_spec. Qed.

(** ** Witnesses *)

Definition sample_kernel : Kernel Pmm := mkKernel sample_phys dma_boot.

#[local] Opaque sample_frames.

Lemma sample_kernel_inv : kernel_inv (ready := pmm_ready) 0x2000 sample_kernel.
Proof.
  split; cbn [sample_kernel kphys kdma].
  - apply sample_space. by left.
  - apply sample_frames_spec.
  - apply dma_boot_inv.
  - split; [reflexivity|]. intros i r [-> _]%lookup_replicate. done.
  - intros a _ _. reflexivity.
  - intros a _ _. reflexivity.
Qed.


Lemma vmm_map_mmio_correct_witness :
  ∃ v k', vmm_map_mmio 0x2000 0xFEC00040 0x20 sample_kernel = Ok (v, k') ∧ mmu (kphys k') 0x2000 v = Some 0xFEC00040.
Proof.
  assert (Hok : match vmm_map_mmio 0x2000 0xFEC00040 0x20 sample_kernel with Ok (v, _) => v | _ => 0 end = MMIO_BASE + 0x40)
    by (vm_compute; reflexivity).
  destruct (vmm_map_mmio_correct pmm_ready 0x2000 sample_kernel 0xFEC00040 0x20) as [(msg & E & _)|[(k' & E & _)|(v & k' & E & _ & _ & _ & Hm & _)]].
  - apply sample_kernel_inv.
  - lia.
  - lia.
  - lia.
  - rewrite E in Hok. discriminate Hok.
  - rewrite E in Hok. discriminate Hok.
  - exists v, k'. split; [exact E|]. destruct (Hm 0) as [Hz _]; [lia|]. rewrite Z.add_0_r in Hz. exact Hz.
Defined.
