(* ===== verification/VmmClone.v ===== *)
(** Copying and releasing address spaces (src/mm/vmm.cpp): [vmm_clone_address_space], which
    fork uses to share a process's pages copy-on-write, and [vmm_free_address_space], both
    by recursion over the levels of the tables. *)

From S2P Require Import Prelude Bitmap Pmm Frames Paging Dma Vma Vmm.

(** * Model *)

Section clone.
Context {P : Type} `{Frames P}.

(** Releasing reads memory and changes the allocator only. *)
Fixpoint free_page_table_level (level : nat) (w : Z → Z) (table : Z) (p : P) : res P :=
  for_upto 512 0 (λ i p,
    let e := w (table + 8 * i) in
    if negb (has e PTE_PRESENT) then Ok p
    else
      let phys := Z.land e ADDR_MASK in
      match level with
      | O => Fault
      | 1%nat => if is_managed p phys then refcount_dec phys p else Ok p
      | S level' => p ← free_page_table_level level' w phys p; free_frame phys p
      end) p.

Definition vmm_free_address_space (g_pml4 target_pml4 : Z) (m : Phys P) : res (Phys P) :=
  if (target_pml4 =? 0) || (target_pml4 =? g_pml4) then Ok m
  else
    let w := words m in
    p ← for_upto 256 0 (λ i p,
          let e := w (target_pml4 + 8 * i) in
          if negb (has e PTE_PRESENT) then Ok p
          else
            let phys := Z.land e ADDR_MASK in
            p ← free_page_table_level 3 w phys p; free_frame phys p) (frames m);
    p ← free_frame target_pml4 p;
    Ok (mkPhys p w).

(** [false] stops the loop over the entries: the clone was given up and cleaned up. *)
Fixpoint for_entries (f : Z → Phys P → res (bool * Phys P)) (n : nat) (i : Z) (m : Phys P) : res (bool * Phys P) :=
  match n with
  | O => Ok (true, m)
  | S n' => '(ok, m) ← f i m; if (ok : bool) then for_entries f n' (i + 1) m else Ok (false, m)
  end.

(** A page: both address spaces get it read-only, unless it is shared memory. *)
Definition clone_page (src dst i : Z) (m : Phys P) : res (bool * Phys P) :=
  let e := entry m src i in
  let src_phys := Z.land e ADDR_MASK in
  let flags := Z.land e (Z.lor (Z.lor 0xFFF PTE_NX) PTE_SHARED) in
  if has flags PTE_SHARED then
    p ← refcount_inc src_phys (frames m);
    Ok (true, set_entry (mkPhys p (words m)) dst i (Z.lor src_phys flags))
  else
    p ← refcount_inc src_phys (frames m);
    let m := mkPhys p (words m) in
    if has flags PTE_WRITABLE then
      let m := set_entry m src i (Z.land (entry m src i) (u64 (Z.lnot PTE_WRITABLE))) in
      Ok (true, set_entry m dst i (Z.lor src_phys (Z.land flags (u64 (Z.lnot PTE_WRITABLE)))))
    else Ok (true, set_entry m dst i (Z.lor src_phys flags)).

(** A table: [rec] copies it, [undo] releases what the destination holds so far. *)
Definition clone_table (rec : Z → Z → Phys P → res (bool * Phys P)) (undo : Phys P → res P) (flags src_phys dst i : Z) (m : Phys P)
    : res (bool * Phys P) :=
  '(next, p) ← alloc_frame (frames m);
  if next =? 0 then
    let m := mkPhys p (words m) in p ← undo m; Ok (false, mkPhys p (words m))
  else
    let m := mkPhys p (fill_table (words m) next (λ _, 0)) in
    '(ok, m) ← rec src_phys next m;
    if (ok : bool) then Ok (true, set_entry m dst i (Z.lor next flags))
    else
      p ← free_frame next (frames m);
      let m := mkPhys p (words m) in p ← undo m; Ok (false, mkPhys p (words m)).

Fixpoint clone_page_table_level (level : nat) (src dst : Z) (m : Phys P) : res (bool * Phys P) :=
  for_entries (λ i m,
    let e := entry m src i in
    if negb (has e PTE_PRESENT) then Ok (true, set_entry m dst i 0)
    else
      match level with
      | O => Fault
      | 1%nat => clone_page src dst i m
      | S level' =>
          if has e PTE_HUGE then Panic "vmm_clone: huge pages in userspace not supported yet!"
          else
            clone_table (clone_page_table_level level') (λ m, free_page_table_level level (words m) dst (frames m))
              (Z.land e (Z.lor (Z.lor 0xFFF PTE_NX) PTE_SHARED)) (Z.land e ADDR_MASK) dst i m
      end) 512 0 m.

Definition vmm_clone_address_space (g_pml4 src_pml4 : Z) (m : Phys P) : res (Z * Phys P) :=
  if src_pml4 =? 0 then Ok (0, m)
  else
    '(frame, p) ← alloc_frame (frames m);
    if frame =? 0 then Ok (0, mkPhys p (words m))
    else
      let w := fill_table (words m) frame (λ _, 0) in
      let m := mkPhys p (fill_table w frame (λ i, if i <? 256 then w (frame + 8 * i) else w (src_pml4 + 8 * i))) in
      '(ok, m) ← for_entries (λ i m,
          let e := entry m src_pml4 i in
          if negb (has e PTE_PRESENT) then Ok (true, set_entry m frame i 0)
          else
            clone_table (clone_page_table_level 3)
              (λ m, frames <$> vmm_free_address_space g_pml4 frame m)
              (Z.land e (Z.lor 0xFFF PTE_NX)) (Z.land e ADDR_MASK) frame i m) 256 0 m;
      Ok (if (ok : bool) then frame else 0, m).
End clone.

(** * Specification *)

(** The sum of [f] over the first [n] entries. *)
Fixpoint zsum (n : nat) (f : Z → Z) : Z :=
  match n with O => 0 | S n' => zsum n' f + f (Z.of_nat n') end.

Definition paddr (e : Z) : Z := Z.land e ADDR_MASK.
Definition is_at (e x : Z) : Z := if paddr e =? x then 1 else 0.
Definition present (e : Z) : bool := has e PTE_PRESENT.

(** The entry of a private page loses its write permission; others keep all. *)
Definition protect (e : Z) : Z := if has e PTE_SHARED then e else Z.land e (u64 (Z.lnot PTE_WRITABLE)).
Definition leaf_copy (e : Z) : Z := Z.land (protect e) (Z.lor ADDR_MASK (Z.lor (Z.lor 0xFFF PTE_NX) PTE_SHARED)).
Definition ro (e e' : Z) : Prop := e' = e ∨ e' = protect e.

(** What hangs below an entry that leads to a table of level [l], or to a page for level 0:
    the pages mapped to a frame, the references held on a frame by pages and tables, and
    the tables themselves. *)
Fixpoint pages_at (w : Z → Z) (l : nat) (e x : Z) : Z :=
  if present e then
    match l with O => is_at e x | S l' => zsum 512 (λ i, pages_at w l' (w (paddr e + 8 * i)) x) end
  else 0.

Fixpoint held_at (w : Z → Z) (l : nat) (e x : Z) : Z :=
  if present e then
    is_at e x + match l with O => 0 | S l' => zsum 512 (λ i, held_at w l' (w (paddr e + 8 * i)) x) end
  else 0.

Fixpoint table_at (w : Z → Z) (l : nat) (e u : Z) : Prop :=
  present e = true ∧
  match l with
  | O => False
  | S l' => u = paddr e ∨ ∃ i, 0 <= i < 512 ∧ table_at w l' (w (paddr e + 8 * i)) u
  end.

(** No huge pages below the entry. *)
Fixpoint small_at (w : Z → Z) (l : nat) (e : Z) : Prop :=
  present e = true →
  match l with
  | O => True
  | S l' => has e PTE_HUGE = false ∧ ∀ i, 0 <= i < 512 → small_at w l' (w (paddr e + 8 * i))
  end.

(** Below [ed] in memory [w] is the copy of what was below [e] in memory [w0]. *)
Fixpoint copy_at (w0 w : Z → Z) (l : nat) (e ed : Z) : Prop :=
  if present e then
    match l with
    | O => ed = leaf_copy e
    | S l' => present ed = true ∧ has ed PTE_HUGE = false ∧
              ∀ i, 0 <= i < 512 → copy_at w0 w l' (w0 (paddr e + 8 * i)) (w (paddr ed + 8 * i))
    end
  else ed = 0.

(** No table is reached twice. *)
Fixpoint tree_at (w : Z → Z) (l : nat) (e : Z) : Prop :=
  present e = true →
  match l with
  | O => True
  | S l' =>
      (∀ i, 0 <= i < 512 → tree_at w l' (w (paddr e + 8 * i)) ∧ ¬ table_at w l' (w (paddr e + 8 * i)) (paddr e)) ∧
      (∀ i j u, 0 <= i < 512 → 0 <= j < 512 → table_at w l' (w (paddr e + 8 * i)) u →
         table_at w l' (w (paddr e + 8 * j)) u → i = j)
  end.

(** Every page below the entry is write-protected, unless it is shared memory. *)
Fixpoint protected_at (w : Z → Z) (l : nat) (e : Z) : Prop :=
  present e = true →
  match l with
  | O => protect e = e
  | S l' => ∀ i, 0 <= i < 512 → protected_at w l' (w (paddr e + 8 * i))
  end.

(** Memories that agree on the tables in [U], exactly or up to write protection. *)
Definition same_on (U : Z → Prop) (w w' : Z → Z) : Prop := ∀ u i, U u → 0 <= i < 512 → w' (u + 8 * i) = w (u + 8 * i).
Definition ro_on (U : Z → Prop) (w w' : Z → Z) : Prop := ∀ u i, U u → 0 <= i < 512 → ro (w (u + 8 * i)) (w' (u + 8 * i)).

(** * Lemmas: sums and entries *)

Lemma zsum_ext n f g : (∀ i, 0 <= i < Z.of_nat n → f i = g i) → zsum n f = zsum n g.
Proof. induction n as [|n IH]; intros E; [done|]. simpl. rewrite IH, E; [done|lia|]. intros i Hi. apply E. lia. Qed.

Lemma zsum_nonneg n f : (∀ i, 0 <= i < Z.of_nat n → 0 <= f i) → 0 <= zsum n f.
Proof.
  induction n as [|n IH]; intros E; [done|]. simpl. assert (0 <= zsum n f) by (apply IH; intros i Hi; apply E; lia).
  pose proof (E (Z.of_nat n) ltac:(lia)). lia.
Qed.

Lemma zsum_pos n f i : (∀ j, 0 <= j < Z.of_nat n → 0 <= f j) → 0 <= i < Z.of_nat n → f i <= zsum n f.
Proof.
  induction n as [|n IH]; intros E Hi; [lia|]. simpl. assert (0 <= zsum n f) by (apply zsum_nonneg; intros j Hj; apply E; lia).
  destruct (decide (i = Z.of_nat n)) as [->|]; [lia|]. assert (f i <= zsum n f) by (apply IH; [intros j Hj; apply E; lia|lia]).
  pose proof (E (Z.of_nat n) ltac:(lia)). lia.
Qed.

Lemma zsum_le n k f : (k <= n)%nat → (∀ i, 0 <= i < Z.of_nat n → 0 <= f i) → zsum k f <= zsum n f.
Proof.
  induction 1 as [|n Hle IH]; intros E; [done|]. simpl. pose proof (E (Z.of_nat n) ltac:(lia)).
  assert (zsum k f <= zsum n f) by (apply IH; intros i Hi; apply E; lia). lia.
Qed.

Lemma zsum_witness n f : (∀ j, 0 <= j < Z.of_nat n → 0 <= f j) → 0 < zsum n f → ∃ i, 0 <= i < Z.of_nat n ∧ 0 < f i.
Proof.
  induction n as [|n IH]; intros E Hpos; simpl in Hpos; [lia|]. destruct (decide (0 < f (Z.of_nat n))); [exists (Z.of_nat n); lia|].
  destruct IH as (i & Hi & ?); [intros j Hj; apply E; lia|lia|]. exists i. lia.
Qed.

Lemma zsum_S n f : zsum (S n) f = zsum n f + f (Z.of_nat n).
Proof. done. Qed.

#[local] Opaque zsum.

Lemma is_at_nonneg e x : 0 <= is_at e x.
Proof. unfold is_at. case_match; lia. Qed.

Lemma pages_nonneg w l e x : 0 <= pages_at w l e x.
Proof.
  revert e. induction l as [|l IH]; intros e; cbn [pages_at]; (case_match; [|done]); [apply is_at_nonneg|].
  apply zsum_nonneg. intros; apply IH.
Qed.

Lemma held_nonneg w l e x : 0 <= held_at w l e x.
Proof.
  revert e. induction l as [|l IH]; intros e; cbn [held_at]; (case_match; [|done]); pose proof (is_at_nonneg e x); [lia|].
  assert (0 <= zsum 512 (λ i, held_at w l (w (paddr e + 8 * i)) x)) by (apply zsum_nonneg; intros; apply IH). lia.
Qed.

(** Write protection changes neither where an entry leads nor whether it is there. *)
Lemma protect_bit e n : 0 <= n < 64 → n ≠ 1 → Z.testbit (protect e) n = Z.testbit e n.
Proof.
  intros Hn Hne. unfold protect. case_match; [done|]. unfold PTE_WRITABLE. rewrite (testbit_clear e 1 n) by lia.
  destruct (Z.eqb_spec n 1); [lia|]. by rewrite andb_true_r.
Qed.

Lemma has_ro e e' n : ro e e' → 0 <= n < 64 → n ≠ 1 → has e' (2 ^ n) = has e (2 ^ n).
Proof. intros [-> | ->] Hn Hne; [done|]. rewrite !has_bit by lia. by apply protect_bit. Qed.

Lemma present_ro e e' : ro e e' → present e' = present e.
Proof. intros Hr. by apply (has_ro e e' 0). Qed.

Lemma paddr_ro e e' : ro e e' → paddr e' = paddr e.
Proof.
  intros [-> | ->]; [done|]. unfold paddr. apply Z.bits_inj'. intros n Hn. rewrite !Z.land_spec.
  destruct (decide (12 <= n < 52)); [by rewrite protect_bit by lia|].
  change ADDR_MASK with (2 ^ 52 - 2 ^ 12). rewrite testbit_mask by lia.
  destruct (Z.leb_spec 12 n), (Z.ltb_spec n 52); try lia; by rewrite !andb_false_r.
Qed.

Lemma protect_idem e : protect (protect e) = protect e.
Proof.
  unfold protect at 1. assert (E : has (protect e) PTE_SHARED = has e PTE_SHARED) by (apply (has_ro e); [by right|lia|lia]).
  rewrite E. unfold protect. destruct (has e PTE_SHARED); [done|]. rewrite <-Z.land_assoc. f_equal.
Qed.

Lemma ro_refl e : ro e e.
Proof. by left. Qed.

Lemma ro_trans e1 e2 e3 : ro e1 e2 → ro e2 e3 → ro e1 e3.
Proof. intros [-> | ->] [-> | ->]; [by left|by right|by right|right; apply protect_idem]. Qed.

Lemma leaf_copy_ro e e' : ro e e' → leaf_copy e' = leaf_copy e.
Proof. intros [-> | ->]; [done|]. unfold leaf_copy. by rewrite protect_idem. Qed.

Lemma protect_zero : protect 0 = 0.
Proof. reflexivity. Qed.

(** * Lemmas: what a change of memory keeps *)

Lemma table_self w l e : present e = true → table_at w (S l) e (paddr e).
Proof. intros Hp. cbn [table_at]. auto. Qed.

Lemma table_child w l e i u :
  present e = true → 0 <= i < 512 → table_at w l (w (paddr e + 8 * i)) u → table_at w (S l) e u.
Proof. intros Hp Hi Ht. cbn [table_at]. split; [done|]. right. eauto. Qed.

Section ro.
Variables w w' : Z → Z.

(** Below an entry of a table that is kept up to write protection. *)
Lemma ro_child l e e' i :
  ro e e' → present e = true → ro_on (table_at w (S l) e) w w' → 0 <= i < 512 →
  ro (w (paddr e + 8 * i)) (w' (paddr e' + 8 * i)) ∧ ro_on (table_at w l (w (paddr e + 8 * i))) w w'.
Proof.
  intros Hr Hp Ho Hi. rewrite (paddr_ro e e' Hr). split; [apply Ho; [by apply table_self|done]|].
  intros u j Hu Hj. apply Ho; [exact (table_child w l e i u Hp Hi Hu)|done].
Qed.

Lemma table_ro l : ∀ e e' u, ro e e' → ro_on (table_at w l e) w w' → table_at w' l e' u ↔ table_at w l e u.
Proof.
  induction l as [|l IH]; intros e e' u Hr Ho; cbn [table_at]; rewrite (present_ro e e' Hr); [done|].
  destruct (present e) eqn:Hp; [|split; intros [Hf _]; done].
  assert (Hc : ∀ i, 0 <= i < 512 → table_at w' l (w' (paddr e' + 8 * i)) u ↔ table_at w l (w (paddr e + 8 * i)) u).
  { intros i Hi. destruct (ro_child l e e' i Hr Hp Ho Hi) as [H1 H2]. by apply IH. }
  rewrite (paddr_ro e e' Hr) in *. split; intros [_ [->|(i & Hi & Ht)]]; (split; [done|]); [by left|right|by left|right];
    exists i; (split; [done|]); by apply Hc.
Qed.

Lemma pages_ro l : ∀ e e' x, ro e e' → ro_on (table_at w l e) w w' → pages_at w' l e' x = pages_at w l e x.
Proof.
  induction l as [|l IH]; intros e e' x Hr Ho; cbn [pages_at]; rewrite (present_ro e e' Hr);
    (destruct (present e) eqn:Hp; [|done]).
  - unfold is_at. by rewrite (paddr_ro e e' Hr).
  - apply zsum_ext. intros i Hi. destruct (ro_child l e e' i Hr Hp Ho Hi) as [H1 H2]. by apply IH.
Qed.

Lemma small_ro l : ∀ e e', ro e e' → ro_on (table_at w l e) w w' → small_at w l e → small_at w' l e'.
Proof.
  induction l as [|l IH]; intros e e' Hr Ho; cbn [small_at]; rewrite (present_ro e e' Hr); [done|].
  intros Hs Hp. destruct (Hs Hp) as [Hh Hc]. split; [unfold PTE_HUGE; by rewrite (has_ro e e' 7)|]. intros i Hi.
  destruct (ro_child l e e' i Hr Hp Ho Hi) as [H1 H2]. apply (IH (w (paddr e + 8 * i))); auto.
Qed.

Lemma protected_ro l : ∀ e e', ro e e' → ro_on (table_at w l e) w w' → protected_at w l e → protected_at w' l e'.
Proof.
  induction l as [|l IH]; intros e e' Hr Ho; cbn [protected_at]; rewrite (present_ro e e' Hr).
  - intros Hs Hp. specialize (Hs Hp). destruct Hr as [-> | ->]; [done|]. by rewrite Hs.
  - intros Hs Hp i Hi. destruct (ro_child l e e' i Hr Hp Ho Hi) as [H1 H2]. apply (IH (w (paddr e + 8 * i))); auto.
Qed.

(** A copy of the protected tables is a copy of the tables. *)
Lemma copy_ro wd l : ∀ e e' ed, ro e e' → ro_on (table_at w l e) w w' → copy_at w' wd l e' ed → copy_at w wd l e ed.
Proof.
  induction l as [|l IH]; intros e e' ed Hr Ho; cbn [copy_at]; rewrite (present_ro e e' Hr);
    (destruct (present e) eqn:Hp; [|done]); [by rewrite (leaf_copy_ro e e' Hr)|].
  intros (H1 & H2 & Hc). do 2 (split; [done|]). intros i Hi. destruct (ro_child l e e' i Hr Hp Ho Hi) as [H3 H4].
  by eapply IH; [exact H3|done|apply Hc].
Qed.
End ro.

Section same.
Variables w w' : Z → Z.

Lemma same_child l e i :
  present e = true → same_on (table_at w (S l) e) w w' → 0 <= i < 512 →
  w' (paddr e + 8 * i) = w (paddr e + 8 * i) ∧ same_on (table_at w l (w (paddr e + 8 * i))) w w'.
Proof.
  intros Hp Ho Hi. split; [apply Ho; [by apply table_self|done]|]. intros u j Hu Hj. apply Ho; [exact (table_child w l e i u Hp Hi Hu)|done].
Qed.

Lemma same_ro l e : same_on (table_at w l e) w w' → ro_on (table_at w l e) w w'.
Proof. intros Hs u i Hu Hi. left. by apply Hs. Qed.

Lemma table_same l e u : same_on (table_at w l e) w w' → table_at w' l e u ↔ table_at w l e u.
Proof. intros Hs. apply table_ro; [apply ro_refl|by apply same_ro]. Qed.

Lemma held_same l : ∀ e x, same_on (table_at w l e) w w' → held_at w' l e x = held_at w l e x.
Proof.
  induction l as [|l IH]; intros e x Ho; cbn [held_at]; [done|]. destruct (present e) eqn:Hp; [|done]. apply Z.add_cancel_l.
  apply zsum_ext. intros i Hi. destruct (same_child l e i Hp Ho Hi) as [-> H2]. by apply IH.
Qed.

Lemma tree_same l : ∀ e, same_on (table_at w l e) w w' → tree_at w l e → tree_at w' l e.
Proof.
  induction l as [|l IH]; intros e Ho; cbn [tree_at]; [done|]. intros Ht Hp. destruct (Ht Hp) as [H1 H2].
  assert (Hc := λ i, same_child l e i Hp Ho). split.
  - intros i Hi. destruct (Hc i Hi) as [-> Hs]. destruct (H1 i Hi) as [? Hn]. split; [by apply IH|]. by rewrite table_same.
  - intros i j u Hi Hj. destruct (Hc i Hi) as [-> Hsi]. destruct (Hc j Hj) as [-> Hsj]. rewrite !table_same by done. by apply H2.
Qed.

Lemma copy_same w0 l : ∀ e ed, same_on (table_at w l ed) w w' → copy_at w0 w l e ed → copy_at w0 w' l e ed.
Proof.
  induction l as [|l IH]; intros e ed Ho; cbn [copy_at]; (destruct (present e); [|done]); [done|].
  intros (Hp & Hh & Hc). do 2 (split; [done|]). intros i Hi. destruct (same_child l ed i Hp Ho Hi) as [-> Hs]. by apply IH, Hc.
Qed.
End same.

(** The tables below an entry, and references they hold on each other. *)
Lemma held_table w l : ∀ e u, table_at w l e u → 0 < held_at w l e u.
Proof.
  induction l as [|l IH]; intros e u; cbn [table_at held_at]; [by intros [_ ?]|]. intros [-> Ht].
  pose proof (is_at_nonneg e u). assert (Hnn : 0 <= zsum 512 (λ i, held_at w l (w (paddr e + 8 * i)) u)).
  { apply zsum_nonneg. intros; apply held_nonneg. }
  destruct Ht as [->|(i & Hi & Ht)].
  - unfold is_at at 1. rewrite Z.eqb_refl. lia.
  - assert (held_at w l (w (paddr e + 8 * i)) u <= zsum 512 (λ i, held_at w l (w (paddr e + 8 * i)) u)).
    { apply (zsum_pos 512 (λ i, held_at w l (w (paddr e + 8 * i)) u)); [intros; apply held_nonneg|lia]. }
    specialize (IH _ _ Ht). lia.
Qed.

(** * Lemmas: releasing tables *)

Section free.
Context {P : Type} `{Frames P} {ready : P → Prop} `{!FramesLaws P ready}.

(** The body of the loop over a table whose entries lead to level [l]. *)
Definition free_body (l : nat) (w : Z → Z) (table i : Z) (p : P) : res P :=
  let e := w (table + 8 * i) in
  if negb (has e PTE_PRESENT) then Ok p
  else
    let phys := Z.land e ADDR_MASK in
    match l with
    | O => if is_managed p phys then refcount_dec phys p else Ok p
    | S _ => p ← free_page_table_level l w phys p; free_frame phys p
    end.

Lemma free_level_eq l w table p : free_page_table_level (S l) w table p = for_upto 512 0 (free_body l w table) p.
Proof. by destruct l. Qed.

(** References on [x] held by the first [n] entries of a table. *)
Definition held_by (w : Z → Z) (l n : nat) (t x : Z) : Z := zsum n (λ i, held_at w l (w (t + 8 * i)) x).

(** What releasing the first [n] entries of a table takes: the frames exist and carry the
    references. *)
Record releasable (w : Z → Z) (l n : nat) (t : Z) (p : P) : Prop := {
  rl_ready : ready p;
  rl_tables i u : 0 <= i < Z.of_nat n → table_at w l (w (t + 8 * i)) u → frame_ok u ∧ is_managed p u = true;
  rl_frames x : is_managed p x = true → 0 < held_by w l n t x → frame_ok x;
  rl_refs x : frame_ok x → is_managed p x = true → held_by w l n t x <= refs p x
}.

Definition released (w : Z → Z) (l n : nat) (t : Z) (p p' : P) : Prop :=
  ready p' ∧ (∀ x, is_managed p' x = is_managed p x) ∧
  ∀ x, frame_ok x → is_managed p x = true → refs p' x = refs p x - held_by w l n t x.

Lemma held_by_S w l n t x : held_by w l (S n) t x = held_by w l n t x + held_at w l (w (t + 8 * Z.of_nat n)) x.
Proof. apply zsum_S. Qed.

Lemma held_by_le w l k n t x : (k <= n)%nat → held_by w l k t x <= held_by w l n t x.
Proof. intros Hk. apply zsum_le; [done|]. intros. apply held_nonneg. Qed.

Lemma is_at_eq e x : is_at e x = if decide (x = paddr e) then 1 else 0.
Proof. unfold is_at. destruct (Z.eqb_spec (paddr e) x); case_decide; congruence. Qed.

Lemma dec_frame p f :
  ready p → frame_ok f → 0 < refs p f →
  ∃ p', refcount_dec f p = Ok p' ∧ ready p' ∧ (∀ x, is_managed p' x = is_managed p x) ∧
    ∀ x, frame_ok x → refs p' x = refs p x - (if decide (x = f) then 1 else 0).
Proof.
  intros Hr Hf Hp. destruct (refcount_dec_spec p f Hr Hf Hp) as (p' & E & R' & Hx). exists p'. split; [done|]. split; [done|].
  split; [by eapply refcount_dec_managed|]. intros x Hxo. rewrite Hx by done. case_decide; [by subst|lia].
Qed.

(** One entry: [held_at] references go. *)
Definition entry_released (w : Z → Z) (l : nat) (e : Z) (q q' : P) : Prop :=
  ready q' ∧ (∀ x, is_managed q' x = is_managed q x) ∧
  ∀ x, frame_ok x → is_managed q x = true → refs q' x = refs q x - held_at w l e x.

(** One entry can be released. *)
Record entry_ok (w : Z → Z) (l : nat) (e : Z) (q : P) : Prop := {
  eo_ready : ready q;
  eo_tables u : table_at w l e u → frame_ok u ∧ is_managed q u = true;
  eo_frames x : is_managed q x = true → 0 < held_at w l e x → frame_ok x;
  eo_refs x : frame_ok x → is_managed q x = true → held_at w l e x <= refs q x
}.

Lemma free_loop l n w t p :
  releasable w l n t p →
  (∀ k q, 0 <= k < Z.of_nat n → entry_ok w l (w (t + 8 * k)) q →
     ∃ q', free_body l w t k q = Ok q' ∧ entry_released w l (w (t + 8 * k)) q q') →
  ∃ p', for_upto n 0 (free_body l w t) p = Ok p' ∧ released w l n t p p'.
Proof.
  intros [R1 R2 R3 R4] Hstep.
  destruct (for_upto_rule (λ k p', released w l (Z.to_nat k) t p p') (free_body l w t) n 0 p) as (p' & E & Hp').
  - intros k q Hk (Q1 & Q2 & Q3). set (e := w (t + 8 * k)).
    assert (Hnext : ∀ x, held_by w l (Z.to_nat (k + 1)) t x = held_by w l (Z.to_nat k) t x + held_at w l e x).
    { intros x. replace (Z.to_nat (k + 1)) with (S (Z.to_nat k)) by lia. rewrite held_by_S, Z2Nat.id by lia. done. }
    assert (Hle : ∀ x, held_by w l (Z.to_nat k) t x + held_at w l e x <= held_by w l n t x).
    { intros x. rewrite <-Hnext. apply held_by_le. lia. }
    destruct (Hstep k q ltac:(lia)) as (q' & E & Q1' & Q2' & Q3').
    { split; [done| | |].
      - intros u Hu. rewrite Q2. apply (R2 k u); [lia|done].
      - intros x Hm Hpos. apply R3; [by rewrite <-Q2|]. specialize (Hle x).
        assert (0 <= held_by w l (Z.to_nat k) t x) by (apply zsum_nonneg; intros; apply held_nonneg). fold e in Hpos. lia.
      - intros x Hx Hm. rewrite Q2 in Hm. rewrite Q3 by done. specialize (R4 x Hx Hm). specialize (Hle x). fold e. lia. }
    exists q'. split; [done|]. split; [done|]. split; [intros x; by rewrite Q2'|]. intros x Hx Hm. fold e in Q3'.
    rewrite Q3', Q3, Hnext by (done || by rewrite Q2). lia.
  - split; [done|]. split; [done|]. intros x _ _. unfold held_by. change (zsum (Z.to_nat 0) _) with 0. lia.
  - exists p'. split; [exact E|]. rewrite Z.add_0_l, Nat2Z.id in Hp'. exact Hp'.
Qed.

Lemma free_entry_absent w l t k q : present (w (t + 8 * k)) = false → entry_ok w l (w (t + 8 * k)) q →
  ∃ q', free_body l w t k q = Ok q' ∧ entry_released w l (w (t + 8 * k)) q q'.
Proof.
  intros Hp Ho. exists q. unfold free_body. cbv zeta. unfold present in Hp. rewrite Hp. split; [done|]. split; [apply Ho|]. split; [done|].
  intros x _ _. destruct l; cbn [held_at]; unfold present; rewrite Hp; lia.
Qed.

Lemma release_entries_spec l : ∀ n w t p,
  releasable w l n t p → ∃ p', for_upto n 0 (free_body l w t) p = Ok p' ∧ released w l n t p p'.
Proof.
  induction l as [|l IH]; intros n w t p HR; apply free_loop; try done; intros k q Hk Ho;
    (destruct (present (w (t + 8 * k))) eqn:Hp; [|by apply free_entry_absent]);
    unfold free_body; cbv zeta; set (e := w (t + 8 * k)) in *; change (has e PTE_PRESENT) with (present e); rewrite Hp; cbn [negb]; fold (paddr e);
    assert (Hself : is_at e (paddr e) = 1) by (rewrite is_at_eq; by rewrite decide_True); destruct Ho as [O1 O2 O3 O4].
  - assert (Hh : ∀ x, held_at w 0 e x = is_at e x) by (intros x; cbn [held_at]; rewrite Hp; lia).
    destruct (is_managed q (paddr e)) eqn:Hm.
    + assert (Hf : frame_ok (paddr e)) by (apply O3; [done|]; rewrite Hh, Hself; lia).
      destruct (dec_frame q (paddr e) O1 Hf) as (q' & E & Q1' & Q2' & Q3'); [specialize (O4 _ Hf Hm); rewrite Hh, Hself in O4; lia|].
      exists q'. split; [done|]. split; [done|]. split; [done|]. intros x Hx Hmx. by rewrite Q3', Hh, is_at_eq.
    + exists q. split; [done|]. split; [done|]. split; [done|]. intros x Hx Hmx. rewrite Hh, is_at_eq.
      rewrite decide_False; [lia|]. intros ->. congruence.
  - assert (Hh : ∀ x, held_at w (S l) e x = is_at e x + held_by w l 512 (paddr e) x) by (intros x; cbn [held_at]; by rewrite Hp).
    assert (Hat : ∀ x, 0 <= is_at e x) by (intros; apply is_at_nonneg).
    destruct (IH 512%nat w (paddr e) q) as (q1 & E1 & A1 & A2 & A3).
    { split; [done| | |].
      - intros i u Hi Hu. apply O2. apply (table_child w l e i u Hp ltac:(lia) Hu).
      - intros x Hm Hpos. apply O3; [done|]. specialize (Hat x). rewrite Hh. lia.
      - intros x Hx Hm. specialize (O4 x Hx Hm). specialize (Hat x). rewrite Hh in O4. lia. }
    rewrite free_level_eq. step_with E1. unfold free_frame. destruct (O2 (paddr e)) as [Hf Hm]; [by apply table_self|].
    destruct (dec_frame q1 (paddr e) A1 Hf) as (q2 & E2 & B1 & B2 & B3).
    { rewrite A3 by done. specialize (O4 _ Hf Hm). rewrite Hh, Hself in O4. lia. }
    exists q2. split; [done|]. split; [done|]. split; [intros x; by rewrite B2, A2|]. intros x Hx Hmx.
    rewrite B3, A3, Hh, is_at_eq by done. lia.
Qed.
End free.

(** * Lemmas: copying tables *)

Section copy.
Context {P : Type} `{Frames P} {ready : P → Prop} `{!FramesLaws P ready}.
Implicit Types m : Phys P.

(** Memory moves on: allocated frames keep their contents, but for [d] and for write
    protection in the tables [S]. *)
Record evolve (S : Z → Prop) (d : Z) m m' : Prop := {
  ev_ready : ready (frames m');
  ev_range : space_range m';
  ev_managed x : is_managed (frames m') x = is_managed (frames m) x;
  ev_ro u i : frame_ok u → 0 < refs (frames m) u → u ≠ d → 0 <= i < 512 → ro (words m (u + 8 * i)) (words m' (u + 8 * i));
  ev_same u a : frame_ok u → 0 < refs (frames m) u → u ≠ d → ¬ S u → u <= a < u + 4096 → words m' a = words m a
}.

(** The tables below the first [n] entries of [s], whose entries lead to level [l], and
    the pages mapped there. *)
Definition source (w : Z → Z) (l n : nat) (s u : Z) : Prop := u = s ∨ ∃ i, 0 <= i < Z.of_nat n ∧ table_at w l (w (s + 8 * i)) u.
Definition pages_by (w : Z → Z) (l n : nat) (s x : Z) : Z := zsum n (λ i, pages_at w l (w (s + 8 * i)) x).

(** What cloning takes: allocated tables without huge pages, allocated pages, and room
    for one more reference per page. *)
Record clonable m (l n : nat) (s d : Z) : Prop := {
  ca_ready : ready (frames m);
  ca_range : space_range m;
  ca_size : (n <= 512)%nat;
  ca_dst : frame_ok d ∧ 0 < refs (frames m) d;
  ca_src u : source (words m) l n s u → frame_ok u ∧ 0 < refs (frames m) u ∧ u ≠ d;
  ca_small i : 0 <= i < Z.of_nat n → small_at (words m) l (words m (s + 8 * i));
  ca_pages i x :
    0 <= i < Z.of_nat n → 0 < pages_at (words m) l (words m (s + 8 * i)) x → is_managed (frames m) x = true →
    frame_ok x ∧ 0 < refs (frames m) x;
  ca_room x : frame_ok x → 0 < refs (frames m) x → refs (frames m) x + pages_by (words m) l n s x <= 65535
}.

(** The first [k] entries have been copied, from memory [m0] to memory [m]. *)
Record cloning m0 m (l n : nat) (s d : Z) (k : Z) : Prop := {
  cl_ev : evolve (source (words m0) l n s) d m0 m;
  cl_copy i : 0 <= i < k → copy_at (words m0) (words m) l (words m0 (s + 8 * i)) (words m (d + 8 * i));
  cl_prot i : 0 <= i < k → protected_at (words m) l (words m (s + 8 * i));
  cl_rest i : k <= i < 512 → words m (d + 8 * i) = words m0 (d + 8 * i);
  cl_tree i : 0 <= i < k → tree_at (words m) l (words m (d + 8 * i));
  cl_fresh i u : 0 <= i < k → table_at (words m) l (words m (d + 8 * i)) u →
    frame_ok u ∧ refs (frames m0) u = 0 ∧ 0 < refs (frames m) u;
  cl_apart i j u : 0 <= i < k → 0 <= j < k →
    table_at (words m) l (words m (d + 8 * i)) u → table_at (words m) l (words m (d + 8 * j)) u → i = j;
  cl_frames i x : 0 <= i < k → is_managed (frames m0) x = true → 0 < held_at (words m) l (words m (d + 8 * i)) x → frame_ok x;
  cl_refs x : frame_ok x → is_managed (frames m0) x = true →
    refs (frames m) x = refs (frames m0) x + held_by (words m) l (Z.to_nat k) d x;
  cl_held i x : 0 <= i < k → frame_ok x → 0 < refs (frames m0) x →
    held_at (words m) l (words m (d + 8 * i)) x = pages_at (words m0) l (words m0 (s + 8 * i)) x
}.

(** The clone failed and the destination's references, with [drop] on the destination
    itself, are gone. *)
Definition abandoned m0 m (l n : nat) (s d drop : Z) : Prop :=
  evolve (source (words m0) l n s) d m0 m ∧
  ∀ x, frame_ok x → is_managed (frames m0) x = true →
    refs (frames m) x = refs (frames m0) x - (if decide (x = d) then drop else 0).

Lemma refs_is_managed p x : ready p → frame_ok x → 0 < refs p x → is_managed p x = true.
Proof. intros. by eapply refs_managed. Qed.

Lemma frame_entry u i : frame_ok u → 0 <= i < 512 → u <= u + 8 * i < u + 4096.
Proof. intros _ Hi. lia. Qed.

Lemma evolve_trans S d m m1 m2 :
  (∀ x, frame_ok x → 0 < refs (frames m) x → 0 < refs (frames m1) x) → evolve S d m m1 → evolve S d m1 m2 → evolve S d m m2.
Proof.
  intros Hpos [A1 A2 A3 A4 A5] [B1 B2 B3 B4 B5]. split; try done.
  - intros x. by rewrite B3, A3.
  - intros u i Hu Hr Hd Hi. eapply ro_trans; [by apply A4|]. apply (B4 u); auto.
  - intros u a Hu Hr Hd Hs Ha. rewrite (B5 u) by auto. by apply (A5 u).
Qed.

(** References only grow while cloning. *)
Lemma cloning_pos m0 m l n s d k x :
  ready (frames m0) → cloning m0 m l n s d k → frame_ok x → 0 < refs (frames m0) x → 0 < refs (frames m) x.
Proof.
  intros R0 C Hx Hr. rewrite (cl_refs _ _ _ _ _ _ _ C) by (done || by eapply refs_is_managed).
  assert (0 <= held_by (words m) l (Z.to_nat k) d x) by (apply zsum_nonneg; intros; apply held_nonneg). lia.
Qed.

(** The tables of the copied entries are fresh, so whatever keeps allocated frames that
    are not source tables keeps them. *)
Lemma cloning_same m0 m m' l n s d k i :
  clonable m0 l n s d → cloning m0 m l n s d k → evolve (source (words m0) l n s) d m m' → 0 <= i < k →
  same_on (table_at (words m) l (words m (d + 8 * i))) (words m) (words m').
Proof.
  intros Ca C Ev Hi u j Hu Hj. destruct (cl_fresh _ _ _ _ _ _ _ C i u Hi Hu) as (Hf & Hz & Hp).
  destruct (ca_dst _ _ _ _ _ Ca) as [Hd1 Hd2]. apply (ev_same _ _ _ _ Ev u); [done|done|intros ->; lia| |lia].
  intros Hs. destruct (ca_src _ _ _ _ _ Ca u Hs) as (_ & ? & _). lia.
Qed.

(** The source tables evolve up to write protection only. *)
Lemma cloning_source m0 m m' l n s d k i :
  clonable m0 l n s d → cloning m0 m l n s d k → evolve (source (words m0) l n s) d m m' → 0 <= i < Z.of_nat n →
  ro (words m (s + 8 * i)) (words m' (s + 8 * i)) ∧ ro_on (table_at (words m) l (words m (s + 8 * i))) (words m) (words m').
Proof.
  intros Ca C Ev Hi. pose proof (ca_ready _ _ _ _ _ Ca) as R0. pose proof (cl_ev _ _ _ _ _ _ _ C) as Ev0. pose proof (ca_size _ _ _ _ _ Ca).
  assert (Hev : ∀ u j, source (words m0) l n s u → 0 <= j < 512 →
    ro (words m0 (u + 8 * j)) (words m (u + 8 * j)) ∧ ro (words m (u + 8 * j)) (words m' (u + 8 * j))).
  { intros u j Hu Hj. destruct (ca_src _ _ _ _ _ Ca u Hu) as (H1 & H2 & H3). split; [by apply (ev_ro _ _ _ _ Ev0)|].
    apply (ev_ro _ _ _ _ Ev); try done. by eapply cloning_pos. }
  split; [apply Hev; [by left|lia]|]. intros u j Hu Hj. apply Hev; [|done]. right. exists i. split; [done|].
  apply (table_ro (words m0) (words m) l _ (words m (s + 8 * i))); [apply Hev; [by left|lia]| |done].
  intros u' j' Hu' Hj'. apply Hev; [right; by exists i|done].
Qed.

Lemma cloning_start m0 l n s d : clonable m0 l n s d → cloning m0 m0 l n s d 0.
Proof.
  intros Ca. split; try (intros; lia).
  - split; try done; [apply Ca|apply Ca|]. intros. apply ro_refl.
  - intros x _ _. unfold held_by. change (zsum (Z.to_nat 0) _) with 0. lia.
Qed.

(** A copied entry more, or the same ones in a later memory. *)
Lemma cloning_keep m0 m m' l n s d k :
  clonable m0 l n s d → cloning m0 m l n s d k → evolve (source (words m0) l n s) d m m' →
  (∀ i, 0 <= i < 512 → words m' (d + 8 * i) = words m (d + 8 * i)) → 0 <= k <= Z.of_nat n →
  (∀ x, frame_ok x → is_managed (frames m0) x = true → refs (frames m') x = refs (frames m) x) →
  cloning m0 m' l n s d k.
Proof.
  intros Ca C Ev Hd Hk Hr. pose proof (ca_ready _ _ _ _ _ Ca) as R0. pose proof (ca_size _ _ _ _ _ Ca) as Hsize. pose proof (cl_ev _ _ _ _ _ _ _ C) as Ev0.
  assert (Hsame := λ i, cloning_same m0 m m' l n s d k i Ca C Ev).
  assert (Hm : ∀ x, frame_ok x → 0 < refs (frames m) x → is_managed (frames m0) x = true).
  { intros x Hx Hxr. rewrite <-(ev_managed _ _ _ _ Ev0). apply (refs_managed (ready := ready)); [apply Ev0|done|done]. }
  split.
  - eapply evolve_trans; [|exact Ev0|exact Ev]. intros x Hx Hxr. by eapply cloning_pos.
  - intros i Hi. rewrite Hd by lia. by eapply copy_same; [apply Hsame|apply C].
  - intros i Hi. destruct (cloning_source m0 m m' l n s d k i Ca C Ev ltac:(lia)) as [H1 H2]. by eapply protected_ro; [exact H1|exact H2|apply C].
  - intros i Hi. rewrite Hd by lia. by apply C.
  - intros i Hi. rewrite Hd by lia. by apply (tree_same (words m)); [apply Hsame|apply C].
  - intros i u Hi. rewrite Hd by lia. rewrite (table_same (words m)) by (by apply Hsame). intros Hu.
    destruct (cl_fresh _ _ _ _ _ _ _ C i u Hi Hu) as (? & ? & Hp). split; [done|]. split; [done|]. rewrite Hr; auto.
  - intros i j u Hi Hj. rewrite !Hd by lia. rewrite (table_same (words m) _ l (words m (d + 8 * i))), (table_same (words m) _ l (words m (d + 8 * j))) by (by apply Hsame). exact (cl_apart _ _ _ _ _ _ _ C i j u Hi Hj).
  - intros i x Hi. rewrite Hd by lia. rewrite (held_same (words m)) by (by apply Hsame). by apply (cl_frames _ _ _ _ _ _ _ C).
  - intros x Hx Hmx. rewrite Hr, (cl_refs _ _ _ _ _ _ _ C) by done. apply Z.add_cancel_l. apply zsum_ext. intros i Hi.
    rewrite Hd by lia. by rewrite (held_same (words m) (words m')) by (apply Hsame; lia).
  - intros i x Hi Hx Hxr. rewrite Hd by lia. rewrite (held_same (words m)) by (by apply Hsame). by apply (cl_held _ _ _ _ _ _ _ C).
Qed.

(** The entry [ed] written for entry [k], in terms of what it leads to. *)
Record entry_cloned m0 m m' (l n : nat) (s d k ed : Z) : Prop := {
  ec_copy : copy_at (words m0) (words m') l (words m0 (s + 8 * k)) ed;
  ec_prot : protected_at (words m') l (words m' (s + 8 * k));
  ec_tree : tree_at (words m') l ed;
  ec_fresh u : table_at (words m') l ed u → frame_ok u ∧ refs (frames m) u = 0 ∧ 0 < refs (frames m') u;
  ec_frames x : is_managed (frames m0) x = true → 0 < held_at (words m') l ed x → frame_ok x;
  ec_refs x : frame_ok x → is_managed (frames m0) x = true → refs (frames m') x = refs (frames m) x + held_at (words m') l ed x;
  ec_held x : frame_ok x → 0 < refs (frames m0) x → held_at (words m') l ed x = pages_at (words m0) l (words m0 (s + 8 * k)) x
}.

Lemma cloning_extend m0 m m' l n s d k ed :
  clonable m0 l n s d → cloning m0 m l n s d k → evolve (source (words m0) l n s) d m m' →
  words m' (d + 8 * k) = ed → (∀ i, 0 <= i < 512 → i ≠ k → words m' (d + 8 * i) = words m (d + 8 * i)) → 0 <= k < Z.of_nat n →
  entry_cloned m0 m m' l n s d k ed → cloning m0 m' l n s d (k + 1).
Proof.
  intros Ca C Ev Hed Hd Hk [E1 E0 E2 E3 E4 E5 E6]. pose proof (ca_ready _ _ _ _ _ Ca) as R0. pose proof (ca_size _ _ _ _ _ Ca) as Hsize. pose proof (cl_ev _ _ _ _ _ _ _ C) as Ev0.
  assert (Hsame := λ i, cloning_same m0 m m' l n s d k i Ca C Ev).
  assert (Hm : ∀ x, frame_ok x → 0 < refs (frames m') x → is_managed (frames m0) x = true).
  { intros x Hx Hxr. rewrite <-(ev_managed _ _ _ _ Ev0), <-(ev_managed _ _ _ _ Ev).
    apply (refs_managed (ready := ready)); [apply Ev|done|done]. }
  assert (Hcase : ∀ i, 0 <= i < k + 1 → i = k ∨ 0 <= i < k) by lia.
  assert (Hold : ∀ i, 0 <= i < k → words m' (d + 8 * i) = words m (d + 8 * i)) by (intros i Hi; apply Hd; lia).
  assert (Hheld : ∀ x, 0 <= held_by (words m) l (Z.to_nat k) d x) by (intros; apply zsum_nonneg; intros; apply held_nonneg).
  split.
  - eapply evolve_trans; [|exact Ev0|exact Ev]. intros x Hx Hxr. by eapply cloning_pos.
  - intros i [->|Hi]%Hcase; [by rewrite Hed|]. rewrite Hold by done. by eapply copy_same; [apply Hsame|apply C].
  - intros i [->|Hi]%Hcase; [done|]. destruct (cloning_source m0 m m' l n s d k i Ca C Ev ltac:(lia)) as [H1 H2].
    by eapply protected_ro; [exact H1|exact H2|apply C].
  - intros i Hi. rewrite Hd by lia. apply C. lia.
  - intros i [->|Hi]%Hcase; [by rewrite Hed|]. rewrite Hold by done. by apply (tree_same (words m)); [apply Hsame|apply C].
  - intros i u [->|Hi]%Hcase.
    + rewrite Hed. intros Hu. destruct (E3 u Hu) as (Hf & Hz & Hp). split; [done|]. split; [|done].
      pose proof (cl_refs _ _ _ _ _ _ _ C u Hf (Hm u Hf Hp)) as Eq. pose proof (refs_nonneg (frames m0) u R0). specialize (Hheld u). lia.
    + rewrite Hold by done. rewrite (table_same (words m)) by (by apply Hsame). intros Hu.
      destruct (cl_fresh _ _ _ _ _ _ _ C i u Hi Hu) as (Hf & Hz & Hp). split; [done|]. split; [done|].
      rewrite E5; [pose proof (held_nonneg (words m') l ed u); lia|done|].
      rewrite <-(ev_managed _ _ _ _ Ev0). apply (refs_managed (ready := ready)); [apply Ev0|done|done].
  - assert (Hmix : ∀ i u, 0 <= i < k → table_at (words m') l (words m' (d + 8 * k)) u → table_at (words m') l (words m' (d + 8 * i)) u → False).
    { intros i u Hi. rewrite Hed, Hold by done. rewrite (table_same (words m) _ l (words m (d + 8 * i))) by (by apply Hsame).
      intros Hu Hu'. destruct (E3 u Hu) as (_ & Hz & _). destruct (cl_fresh _ _ _ _ _ _ _ C i u Hi Hu') as (_ & _ & Hp). lia. }
    intros i j u [->|Hi]%Hcase [->|Hj]%Hcase Hui Huj; [done|by destruct (Hmix j u)|by destruct (Hmix i u)|].
    rewrite Hold in Hui, Huj by done. rewrite (table_same (words m)) in Hui by (by apply Hsame).
    rewrite (table_same (words m)) in Huj by (by apply Hsame). by apply (cl_apart _ _ _ _ _ _ _ C i j u).
  - intros i x [->|Hi]%Hcase; [rewrite Hed; by apply E4|]. rewrite Hold by done. rewrite (held_same (words m)) by (by apply Hsame).
    by apply (cl_frames _ _ _ _ _ _ _ C).
  - intros x Hx Hmx. rewrite (E5 x Hx Hmx), (cl_refs _ _ _ _ _ _ _ C x Hx Hmx). replace (Z.to_nat (k + 1)) with (S (Z.to_nat k)) by lia.
    rewrite held_by_S, Z2Nat.id, Hed, <-Z.add_assoc by lia. apply Z.add_cancel_l, Z.add_cancel_r. apply zsum_ext. intros i Hi.
    rewrite Hold by lia. by rewrite (held_same (words m) (words m')) by (apply Hsame; lia).
  - intros i x [->|Hi]%Hcase Hx Hxr; [rewrite Hed; by apply E6|]. rewrite Hold by done. rewrite (held_same (words m)) by (by apply Hsame).
    by apply (cl_held _ _ _ _ _ _ _ C).
Qed.

(** ** One entry *)

Lemma evolve_set S d m k v :
  frame_ok d → 0 <= k < 512 → 0 <= v < 2 ^ 64 → ready (frames m) → space_range m → evolve S d m (set_entry m d k v).
Proof.
  intros [_ Hd] Hk Hv Hr Hw.
  assert (Hout : ∀ u a, frame_ok u → u ≠ d → u <= a < u + 4096 → words (set_entry m d k v) a = words m a).
  { intros u a [_ Hu] Hne Ha. simpl. unfold store. destruct (Z.eqb_spec a (d + 8 * k)); [lia|done]. }
  split; try done.
  - intros a. simpl. unfold store. case_match; [done|apply Hw].
  - intros u i Hu _ Hne Hi. left. by apply (Hout u); [| |lia].
  - intros u a Hu _ Hne _ Ha. by apply (Hout u).
Qed.

Lemma set_same m d k v : words (set_entry m d k v) (d + 8 * k) = v.
Proof. apply (entry_set_same m d k v). Qed.

Lemma set_other m d k v i : i ≠ k → words (set_entry m d k v) (d + 8 * i) = words m (d + 8 * i).
Proof. intros Hi. simpl. unfold store. destruct (Z.eqb_spec (d + 8 * i) (d + 8 * k)); [lia|done]. Qed.

Section entry.
Variables (m0 m : Phys P) (l n : nat) (s d k : Z).
Hypothesis Ca : clonable m0 l n s d.
Hypothesis C : cloning m0 m l n s d k.
Hypothesis Hk : 0 <= k < Z.of_nat n.
Let e0 := words m0 (s + 8 * k).
Let e := words m (s + 8 * k).

Lemma src_ok : frame_ok s ∧ 0 < refs (frames m0) s ∧ s ≠ d.
Proof. apply (ca_src _ _ _ _ _ Ca). by left. Qed.

Lemma k_range : 0 <= k < 512.
Proof. pose proof (ca_size _ _ _ _ _ Ca). lia. Qed.

Lemma entry_ro : ro e0 e.
Proof.
  destruct src_ok as (H1 & H2 & H3). apply (ev_ro _ _ _ _ (cl_ev _ _ _ _ _ _ _ C) s k); try done. apply k_range.
Qed.

(** The tables below the entry are still there, up to write protection. *)
Lemma below_ro : ro_on (table_at (words m0) l e0) (words m0) (words m).
Proof.
  intros u i Hu Hi. destruct (ca_src _ _ _ _ _ Ca u) as (H1 & H2 & H3); [right; by exists k|].
  by apply (ev_ro _ _ _ _ (cl_ev _ _ _ _ _ _ _ C)).
Qed.

Lemma clone_absent : present e = false → cloning m0 (set_entry m d k 0) l n s d (k + 1).
Proof.
  intros Hp. pose proof k_range as Hk'. destruct (ca_dst _ _ _ _ _ Ca) as [Hd _]. pose proof (cl_ev _ _ _ _ _ _ _ C) as Ev.
  assert (Hp0 : present e0 = false) by (by rewrite <-(present_ro _ _ entry_ro)).
  assert (Hz : ∀ w x, held_at w l 0 x = 0) by (by destruct l).
  apply (cloning_extend m0 m _ l n s d k 0); try done.
  - apply evolve_set; try done; [apply Ev|apply Ev].
  - apply set_same.
  - intros i _ Hne. by apply set_other.
  - split.
    + fold e0. destruct l; cbn [copy_at]; by rewrite Hp0.
    + destruct src_ok as ([_ Hs1] & _ & Hs2). assert (Es : words (set_entry m d k 0) (s + 8 * k) = e).
      { simpl. unfold store. destruct Hd as [_ Hdm]. destruct (Z.eqb_spec (s + 8 * k) (d + 8 * k)); [lia|done]. }
      rewrite Es. destruct l; cbn [protected_at]; by rewrite Hp.
    + destruct l; cbn [tree_at]; done.
    + intros u. destruct l; cbn [table_at]; by intros [? _].
    + intros x _. rewrite Hz. lia.
    + intros x Hx Hm. rewrite Hz. simpl. lia.
    + intros x Hxo Hx. rewrite Hz. fold e0. destruct l; cbn [pages_at]; by rewrite Hp0.
Qed.

(** There is room for the references of the entry. *)
Lemma entry_room x :
  frame_ok x → 0 < refs (frames m0) x →
  refs (frames m) x = refs (frames m0) x + pages_by (words m0) l (Z.to_nat k) s x ∧
  refs (frames m) x + pages_at (words m0) l e0 x <= 65535.
Proof.
  intros Hx Hr. assert (E : refs (frames m) x = refs (frames m0) x + pages_by (words m0) l (Z.to_nat k) s x).
  { rewrite (cl_refs _ _ _ _ _ _ _ C x Hx) by (apply (refs_managed (ready := ready)); [apply Ca|done|done]).
    apply Z.add_cancel_l. apply zsum_ext. intros i Hi. apply (cl_held _ _ _ _ _ _ _ C); [lia|done|done]. }
  split; [done|]. rewrite E. pose proof (ca_room _ _ _ _ _ Ca x Hx Hr) as Hroom.
  assert (pages_by (words m0) l (S (Z.to_nat k)) s x <= pages_by (words m0) l n s x).
  { apply zsum_le; [lia|]. intros. apply pages_nonneg. }
  unfold pages_by in * |-. rewrite zsum_S, Z2Nat.id in * by lia. unfold pages_by, e0. lia.
Qed.
End entry.

(** What [clone_page] writes. *)
Lemma mask_lor e a b : Z.lor (Z.land e a) (Z.land e b) = Z.land e (Z.lor a b).
Proof. symmetry. apply Z.land_lor_distr_r. Qed.

Lemma has_mask e a b : Z.land a b = b → has (Z.land e a) b = has e b.
Proof. intros E. unfold has. by rewrite <-Z.land_assoc, E. Qed.

Lemma protect_read_only e : 0 <= e < 2 ^ 64 → has e PTE_WRITABLE = false → protect e = e.
Proof.
  intros He Hw. unfold protect. case_match; [done|]. unfold PTE_WRITABLE in *. rewrite has_bit in Hw by lia.
  apply Z.bits_inj'. intros b Hb. destruct (decide (b < 64)).
  - rewrite (testbit_clear e 1) by lia. destruct (Z.eqb_spec b 1) as [->|]; [by rewrite Hw|by rewrite andb_true_r].
  - rewrite Z.land_spec, (testbit_ge e 64) by lia. done.
Qed.

Lemma clone_page_eq src dst i m p :
  0 <= entry m src i < 2 ^ 64 → refcount_inc (paddr (entry m src i)) (frames m) = Ok p →
  ∃ w', clone_page src dst i m = Ok (true, mkPhys p w') ∧
    ∀ a, w' a = store (store (words m) (src + 8 * i) (protect (entry m src i))) (dst + 8 * i) (leaf_copy (entry m src i)) a.
Proof.
  intros He Ei. unfold clone_page. cbv zeta. set (e := entry m src i) in *. fold (paddr e).
  set (F := Z.lor (Z.lor 0xFFF PTE_NX) PTE_SHARED). rewrite (has_mask e F PTE_SHARED) by reflexivity.
  rewrite (has_mask e F PTE_WRITABLE) by reflexivity.
  assert (Hself : protect e = e → ∀ a, words m a = store (words m) (src + 8 * i) (protect e) a).
  { intros -> a. unfold store. destruct (Z.eqb_spec a (src + 8 * i)) as [->|]; done. }
  assert (Hcopy : protect e = e → Z.lor (paddr e) (Z.land e F) = leaf_copy e) by (intros E; unfold leaf_copy, paddr; rewrite E; apply mask_lor).
  destruct (has e PTE_SHARED) eqn:Hs.
  - step_with Ei. eexists. split; [done|]. intros a. assert (Hp : protect e = e) by (unfold protect; by rewrite Hs).
    cbn [set_entry words]. unfold store at 1 2. rewrite (Hcopy Hp). case_match; [done|]. by apply Hself.
  - step_with Ei. destruct (has e PTE_WRITABLE) eqn:Hw.
    + eexists. split; [done|]. intros a. cbn [set_entry words]. change (entry (mkPhys p (words m)) src i) with e.
      assert (Hp : protect e = Z.land e (u64 (Z.lnot PTE_WRITABLE))) by (unfold protect; by rewrite Hs). rewrite <-Hp.
      assert (Hl : Z.lor (paddr e) (Z.land (Z.land e F) (u64 (Z.lnot PTE_WRITABLE))) = leaf_copy e); [|by rewrite Hl].
      unfold leaf_copy. rewrite Hp, <-mask_lor. fold F. rewrite <-!Z.land_assoc. f_equal.
    + eexists. split; [done|]. intros a. pose proof (protect_read_only e He Hw) as Hp. cbn [set_entry words].
      unfold store at 1 2. rewrite (Hcopy Hp). case_match; [done|]. by apply Hself.
Qed.

Lemma leaf_copy_bits e : present (leaf_copy e) = present e ∧ paddr (leaf_copy e) = paddr e.
Proof.
  assert (Hr : ro e (protect e)) by (by right). rewrite <-(present_ro _ _ Hr), <-(paddr_ro _ _ Hr). unfold leaf_copy, present, paddr.
  split; [by apply has_mask|]. by rewrite <-Z.land_assoc.
Qed.

Section page.
Variables (m0 m : Phys P) (n : nat) (s d k : Z).
Hypothesis Ca : clonable m0 0 n s d.
Hypothesis C : cloning m0 m 0 n s d k.
Hypothesis Hk : 0 <= k < Z.of_nat n.
Let e := words m (s + 8 * k).
Hypothesis Hp : present e = true.

Lemma clone_page_step : ∃ m', clone_page s d k m = Ok (true, m') ∧ cloning m0 m' 0 n s d (k + 1).
Proof.
  assert (Hk' : 0 <= k < 512) by (pose proof (ca_size _ _ _ _ _ Ca); lia). destruct (ca_dst _ _ _ _ _ Ca) as [Hd Hdr]. pose proof (cl_ev _ _ _ _ _ _ _ C) as Ev.
  destruct (ca_src _ _ _ _ _ Ca s) as (Hs & Hsr & Hne); [by left|]. pose proof (entry_ro m0 m 0 n s d k Ca C Hk) as Hro. fold e in Hro.
  set (e0 := words m0 (s + 8 * k)) in *. assert (Hp0 : present e0 = true) by (by rewrite <-(present_ro _ _ Hro)).
  assert (Ha0 : paddr e0 = paddr e) by (by rewrite (paddr_ro _ _ Hro)).
  assert (Hpages : ∀ x, pages_at (words m0) 0 e0 x = is_at e x) by (intros x; cbn [pages_at]; rewrite Hp0; unfold is_at; by rewrite Ha0).
  assert (Hself : is_at e (paddr e) = 1) by (rewrite is_at_eq; by rewrite decide_True).
  assert (Hinc : ∃ p, refcount_inc (paddr e) (frames m) = Ok p ∧ ready p ∧ (∀ x, is_managed p x = is_managed (frames m0) x) ∧
    (is_managed (frames m0) (paddr e) = true → frame_ok (paddr e)) ∧
    ∀ x, frame_ok x → is_managed (frames m0) x = true → refs p x = refs (frames m) x + is_at e x).
  { destruct (is_managed (frames m0) (paddr e)) eqn:Hm.
    - destruct (ca_pages _ _ _ _ _ Ca k (paddr e) Hk) as [Hf Hr]; [fold e0; rewrite Hpages, Hself; lia|done|].
      destruct (entry_room m0 m 0 n s d k Ca C Hk (paddr e) Hf Hr) as [Heq Hle]. fold e0 in Hle. rewrite Hpages, Hself in Hle.
      assert (0 <= pages_by (words m0) 0 (Z.to_nat k) s (paddr e)) by (apply zsum_nonneg; intros; apply pages_nonneg).
      destruct (refcount_inc_spec (frames m) (paddr e)) as (p & E & Rp & Hx); [apply Ev|done|lia|].
      exists p. split; [done|]. split; [done|]. split; [|split; [done|]].
      + intros x. rewrite (refcount_inc_managed (frames m) (paddr e) p); [apply Ev|apply Ev|done].
      + intros x Hxo _. rewrite Hx, is_at_eq by done. case_decide; [by subst|lia].
    - exists (frames m). split; [apply refcount_inc_none; [apply Ev|by rewrite (ev_managed _ _ _ _ Ev)]|]. split; [apply Ev|].
      split; [apply Ev|]. split; [done|]. intros x Hxo Hm'. rewrite is_at_eq, decide_False; [lia|]. intros ->. congruence. }
  destruct Hinc as (p & Ei & Rp & Hmg & Hpf & Hrefs).
  destruct (clone_page_eq s d k m p) as (w' & E & Hw'); [apply Ev|exact Ei|]. change (entry m s k) with e in Hw'.
  exists (mkPhys p w'). split; [done|]. set (m' := mkPhys p w').
  destruct (leaf_copy_bits e) as [Hlp Hla].
  assert (Hother : ∀ u a, frame_ok u → u ≠ d → u <= a < u + 4096 → a ≠ s + 8 * k → w' a = words m a).
  { intros u a [_ Hu] Hud Ha Hak. rewrite Hw'. unfold store. destruct Hd as [_ Hdm].
    destruct (Z.eqb_spec a (d + 8 * k)); [lia|]. destruct (Z.eqb_spec a (s + 8 * k)); [lia|done]. }
  assert (Hlr : 0 <= leaf_copy e < 2 ^ 64 ∧ 0 <= protect e < 2 ^ 64).
  { assert (He : 0 <= e < 2 ^ 64) by apply Ev. assert (0 <= protect e < 2 ^ 64) by (unfold protect; case_match; [done|by apply land_u64]).
    split; [by apply land_u64|done]. }
  assert (Hev : evolve (source (words m0) 0 n s) d m m').
  { split; try done.
    - intros a. cbn [words m']. rewrite Hw'. unfold store. repeat case_match; try apply Hlr. apply Ev.
    - intros x. cbn [frames m']. by rewrite Hmg, (ev_managed _ _ _ _ Ev).
    - intros u i Hu _ Hud Hi. destruct (decide (u + 8 * i = s + 8 * k)) as [Ea|Hna].
      + rewrite Ea. right. cbn [words m']. rewrite Hw'. unfold store. destruct Hd as [_ Hdm], Hs as [_ Hsm].
        destruct (Z.eqb_spec (s + 8 * k) (d + 8 * k)); [lia|]. by rewrite Z.eqb_refl.
      + left. by apply (Hother u); [| |lia|].
    - intros u a Hu _ Hud Hsrc Ha. apply (Hother u); try done. intros ->. apply Hsrc. left. destruct Hu as [_ Hum], Hs as [_ Hsm]. lia. }
  apply (cloning_extend m0 m m' 0 n s d k (leaf_copy e)); try done.
  - cbn [words m']. rewrite Hw'. unfold store. by rewrite Z.eqb_refl.
  - intros i Hi Hik. cbn [words m']. rewrite Hw'. unfold store. destruct Hd as [_ Hdm], Hs as [_ Hsm].
    destruct (Z.eqb_spec (d + 8 * i) (d + 8 * k)); [lia|]. destruct (Z.eqb_spec (d + 8 * i) (s + 8 * k)); [lia|done].
  - assert (Hheld : ∀ x, held_at w' 0 (leaf_copy e) x = is_at e x).
    { intros x. cbn [held_at]. rewrite Hlp, Hp. unfold is_at. rewrite Hla. lia. }
    split.
    + cbn [copy_at]. fold e0. rewrite Hp0. by apply leaf_copy_ro.
    + intros _. cbn [words m']. assert (Es : w' (s + 8 * k) = protect e); [|rewrite Es; apply protect_idem].
      rewrite Hw'. unfold store. destruct (Z.eqb_spec (s + 8 * k) (d + 8 * k)); [lia|]. by rewrite Z.eqb_refl.
    + cbn [tree_at]. done.
    + intros u [_ []].
    + intros x Hm Hpos. cbn [words m'] in Hpos. rewrite Hheld, is_at_eq in Hpos. case_decide; [subst x; by apply Hpf|lia].
    + intros x Hx Hm. cbn [words frames m']. rewrite Hheld. by apply Hrefs.
    + intros x Hxo Hx. cbn [words m']. fold e0. by rewrite Hheld, Hpages.
Qed.
End page.

(** ** One table *)

(** A routine that copies a table whose entries lead to level [l]. *)
Definition clones (rec : Z → Z → Phys P → res (bool * Phys P)) (l : nat) : Prop :=
  ∀ s d m, clonable m l 512 s d → (∀ i, 0 <= i < 512 → words m (d + 8 * i) = 0) →
  ∃ ok m', rec s d m = Ok (ok, m') ∧ if (ok : bool) then cloning m m' l 512 s d 512 else abandoned m m' l 512 s d 0.

(** Flags of an entry that leads to a table. *)
Record table_flags (fl : Z) : Prop := {
  tf_range : 0 <= fl < 2 ^ 64;
  tf_bits b : 12 <= b < 52 → Z.testbit fl b = false;
  tf_present : Z.testbit fl 0 = true;
  tf_small : Z.testbit fl 7 = false
}.

Section table.
Variables (m0 m : Phys P) (l n : nat) (s d k : Z) (rec : Z → Z → Phys P → res (bool * Phys P)).
Hypothesis Ca : clonable m0 (S l) n s d.
Hypothesis C : cloning m0 m (S l) n s d k.
Hypothesis Hk : 0 <= k < Z.of_nat n.
Let e0 := words m0 (s + 8 * k).
Let e := words m (s + 8 * k).
Let src := source (words m0) (S l) n s.
Hypothesis Hp : present e = true.
Hypothesis Hrec : clones rec l.

(** After the new table has been allocated and cleared. *)
Variables (next : Z) (p : P).
Hypothesis Hnext : frame_ok next.
Hypothesis Hfree : refs (frames m) next = 0.
Hypothesis Rp : ready p.
Hypothesis Hpm : ∀ x, is_managed p x = is_managed (frames m) x.
Hypothesis Hrefs : ∀ x, frame_ok x → refs p x = if decide (x = next) then 1 else refs (frames m) x.
Let m1 := mkPhys p (fill_table (words m) next (λ _, 0)).

Lemma T_ev : evolve src d m0 m.
Proof. apply C. Qed.

Lemma T_ro : ro e0 e.
Proof. exact (entry_ro m0 m (S l) n s d k Ca C Hk). Qed.

Lemma T_addr : paddr e = paddr e0.
Proof. apply paddr_ro, T_ro. Qed.

Lemma T_present : present e0 = true.
Proof. by rewrite <-(present_ro _ _ T_ro). Qed.

(** Frames in use before are still there and untouched. *)
Lemma T_old u : frame_ok u → 0 < refs (frames m) u → u ≠ next ∧ 0 < refs p u ∧ ∀ a, u <= a < u + 4096 → words m1 a = words m a.
Proof.
  intros Hu Hr. assert (Hne : u ≠ next) by (intros ->; lia). split; [done|]. split; [by rewrite Hrefs, decide_False|].
  intros a Ha. cbn [words m1]. unfold fill_table. destruct (Z.leb_spec next a), (Z.ltb_spec a (next + 4096)); simpl; try done.
  destruct Hu as [_ Hu], Hnext as [_ Hn]. lia.
Qed.

Lemma T_pos u : frame_ok u → 0 < refs (frames m0) u → 0 < refs (frames m) u.
Proof. intros Hu Hr. eapply cloning_pos; [apply Ca|exact C|done|done]. Qed.

Lemma T_ev1 : evolve src d m m1.
Proof.
  split; try done.
  - intros a. cbn [words m1]. unfold fill_table. case_match; [lia|]. apply T_ev.
  - intros u i Hu Hr _ Hi. left. destruct (T_old u Hu Hr) as (_ & _ & Hw). apply Hw. lia.
  - intros u a Hu Hr _ _ Ha. destruct (T_old u Hu Hr) as (_ & _ & Hw). by apply Hw.
Qed.

Lemma T_ro1 : ro_on (table_at (words m0) (S l) e0) (words m0) (words m1).
Proof.
  intros u i Hu Hi. destruct (ca_src _ _ _ _ _ Ca u) as (H1 & H2 & H3); [right; by exists k|].
  eapply ro_trans; [by apply (ev_ro _ _ _ _ T_ev u i)|]. left. destruct (T_old u H1 (T_pos u H1 H2)) as (_ & _ & Hw). apply Hw. lia.
Qed.

Lemma T_child i : 0 <= i < 512 →
  ro (words m0 (paddr e0 + 8 * i)) (words m1 (paddr e + 8 * i)) ∧ ro_on (table_at (words m0) l (words m0 (paddr e0 + 8 * i))) (words m0) (words m1).
Proof.
  intros Hi. rewrite T_addr. destruct (ro_child (words m0) (words m1) l e0 e0 i (ro_refl _) T_present T_ro1 Hi). done.
Qed.

Lemma T_source u : source (words m1) l 512 (paddr e) u → table_at (words m0) (S l) e0 u.
Proof.
  intros [->|(i & Hi & Hu)]; [rewrite T_addr; apply table_self, T_present|].
  destruct (T_child i ltac:(lia)) as [H1 H2]. apply (table_child (words m0) l e0 i u T_present ltac:(lia)).
  by apply (table_ro (words m0) (words m1) l _ (words m1 (paddr e + 8 * i))).
Qed.

Lemma T_src u : source (words m1) l 512 (paddr e) u → src u ∧ frame_ok u ∧ 0 < refs (frames m) u ∧ u ≠ d.
Proof.
  intros Hu%T_source. assert (Hs : src u) by (right; by exists k). destruct (ca_src _ _ _ _ _ Ca u Hs) as (H1 & H2 & H3).
  split; [done|]. split; [done|]. split; [by apply T_pos|done].
Qed.

Lemma T_pages x : pages_by (words m1) l 512 (paddr e) x = pages_at (words m0) (S l) e0 x.
Proof.
  cbn [pages_at]. rewrite T_present. apply zsum_ext. intros i Hi. destruct (T_child i ltac:(lia)) as [H1 H2]. by apply pages_ro.
Qed.

Lemma T_clonable : clonable m1 l 512 (paddr e) next.
Proof.
  assert (Hin : ∀ i x, 0 <= i < 512 → 0 < pages_at (words m1) l (words m1 (paddr e + 8 * i)) x → is_managed (frames m0) x = true →
    frame_ok x ∧ 0 < refs (frames m0) x).
  { intros i x Hi Hpos Hm. apply (ca_pages _ _ _ _ _ Ca k x Hk); [|done]. fold e0. rewrite <-T_pages.
    assert (pages_at (words m1) l (words m1 (paddr e + 8 * i)) x <= pages_by (words m1) l 512 (paddr e) x); [|lia].
    apply (zsum_pos 512 (λ i, pages_at (words m1) l (words m1 (paddr e + 8 * i)) x)); [intros; apply pages_nonneg|lia]. }
  assert (Hmg : ∀ x, is_managed p x = is_managed (frames m0) x) by (intros x; by rewrite Hpm, (ev_managed _ _ _ _ T_ev)).
  split; try done.
  - apply T_ev1.
  - split; [done|]. cbn [frames m1]. rewrite Hrefs, decide_True by done. lia.
  - intros u Hu. destruct (T_src u Hu) as (_ & H1 & H2 & H3). destruct (T_old u H1 H2) as (H4 & H5 & _). done.
  - intros i Hi. destruct (T_child i ltac:(lia)) as [H1 H2]. eapply (small_ro (words m0)); [exact H1|done|].
    pose proof (ca_small _ _ _ _ _ Ca k Hk) as Hsm. fold e0 in Hsm. cbn [small_at] in Hsm. apply (Hsm T_present). lia.
  - intros i x Hi Hpos Hm. cbn [frames m1] in Hm. rewrite Hmg in Hm. destruct (Hin i x ltac:(lia) Hpos Hm) as [H1 H2].
    split; [done|]. by destruct (T_old x H1 (T_pos x H1 H2)) as (_ & ? & _).
  - intros x Hx Hr. rewrite T_pages. cbn [frames m1] in *. assert (Hmx : is_managed (frames m0) x = true).
    { rewrite <-Hmg. by apply (refs_managed (ready := ready)). }
    pose proof (refs_nonneg (frames m0) x (ca_ready _ _ _ _ _ Ca)). destruct (decide (refs (frames m0) x = 0)) as [Hz|Hnz].
    + pose proof (refs_max p x Rp). pose proof (pages_nonneg (words m0) (S l) e0 x).
      destruct (decide (pages_at (words m0) (S l) e0 x = 0)) as [->|]; [lia|].
      destruct (ca_pages _ _ _ _ _ Ca k x Hk) as [_ ?]; [fold e0; lia|done|lia].
    + destruct (entry_room m0 m (S l) n s d k Ca C Hk x Hx) as [_ Hle]; [lia|]. fold e0 in Hle.
      rewrite Hrefs by done. rewrite decide_False; [lia|]. intros ->. pose proof (T_pos next Hnext). lia.
Qed.

Lemma T_zero i : 0 <= i < 512 → words m1 (next + 8 * i) = 0.
Proof. intros Hi. destruct Hnext as [_ Hn]. pose proof (entry_fill m p next (λ _, 0) next i Hn Hn Hi) as E. by rewrite decide_True in E. Qed.

(** Whatever copying the table does, the destination and the frames in use are kept. *)
Lemma T_evolve m2 : evolve (source (words m1) l 512 (paddr e)) next m1 m2 → evolve src d m m2 ∧ ∀ i, 0 <= i < 512 → words m2 (d + 8 * i) = words m (d + 8 * i).
Proof.
  intros Ev2. split.
  - split; [apply Ev2|apply Ev2| | |].
    + intros x. rewrite (ev_managed _ _ _ _ Ev2). apply Hpm.
    + intros u i Hu Hr Hd Hi. destruct (T_old u Hu Hr) as (H1 & H2 & H3). rewrite <-H3 by lia. by apply (ev_ro _ _ _ _ Ev2).
    + intros u a Hu Hr Hd Hs Ha. destruct (T_old u Hu Hr) as (H1 & H2 & H3). rewrite <-H3 by lia. apply (ev_same _ _ _ _ Ev2 u); try done.
      intros Hs'. apply Hs. by destruct (T_src u Hs').
  - intros i Hi. destruct (ca_dst _ _ _ _ _ Ca) as [Hd Hdr]. destruct (T_old d Hd (T_pos d Hd Hdr)) as (H1 & H2 & H3).
    rewrite <-H3 by lia. apply (ev_same _ _ _ _ Ev2 d); try done; [|lia]. intros Hs'. by destruct (T_src d Hs') as (_ & _ & _ & ?).
Qed.

(** The entry of the copied table. *)
Lemma T_success m2 fl :
  cloning m1 m2 l 512 (paddr e) next 512 → table_flags fl →
  cloning m0 (set_entry m2 d k (Z.lor next fl)) (S l) n s d (k + 1).
Proof.
  intros C2 [F1 F2 F3 F4]. set (ed := Z.lor next fl). destruct (T_evolve m2 (cl_ev _ _ _ _ _ _ _ C2)) as [Ev2 Hd2].
  destruct (table_entry_ok next fl Hnext F1 F2 F3 F4) as (Hep & Heh & Hea & Her). fold ed in Hep, Heh, Hea, Her.
  change (has ed PTE_PRESENT) with (present ed) in Hep. change (Z.land ed ADDR_MASK) with (paddr ed) in Hea.
  destruct (ca_dst _ _ _ _ _ Ca) as [Hd Hdr]. assert (Hk' : 0 <= k < 512) by (pose proof (ca_size _ _ _ _ _ Ca); lia).
  destruct (T_old d Hd (T_pos d Hd Hdr)) as (Hdn & Hdp & _). set (m3 := set_entry m2 d k ed).
  assert (Hnew : evolve src d m2 m3) by (apply evolve_set; try done; apply Ev2).
  assert (Hr1n : refs p next = 1) by (rewrite Hrefs by done; by rewrite decide_True).
  (* tables below the new one *)
  assert (Hbelow : ∀ i u, 0 <= i < 512 → table_at (words m2) l (words m2 (next + 8 * i)) u →
    frame_ok u ∧ refs (frames m) u = 0 ∧ 0 < refs (frames m2) u ∧ u ≠ d ∧ u ≠ next).
  { intros i u Hi Hu. destruct (cl_fresh _ _ _ _ _ _ _ C2 i u ltac:(lia) Hu) as (H1 & H2 & H3). cbn [frames m1] in H2.
    assert (u ≠ next) by (intros ->; lia). split; [done|]. rewrite Hrefs, decide_False in H2 by done. split; [done|]. split; [done|].
    split; [|done]. intros ->. pose proof (T_pos d Hd Hdr). lia. }
  assert (Hw3 : ∀ u i, frame_ok u → u ≠ d → 0 <= i < 512 → words m3 (u + 8 * i) = words m2 (u + 8 * i)).
  { intros u i [_ Hu] Hne Hi. unfold m3. simpl. unfold store. destruct Hd as [_ Hdm]. destruct (Z.eqb_spec (u + 8 * i) (d + 8 * k)); [lia|done]. }
  assert (Hn3 : ∀ i, 0 <= i < 512 → words m3 (next + 8 * i) = words m2 (next + 8 * i)) by (intros i Hi; by apply Hw3).
  assert (Hsame : ∀ i, 0 <= i < 512 → same_on (table_at (words m2) l (words m2 (next + 8 * i))) (words m2) (words m3)).
  { intros i Hi u j Hu Hj. destruct (Hbelow i u Hi Hu) as (H1 & _ & _ & H2 & _). by apply Hw3. }
  assert (Hheld : ∀ x, held_at (words m3) (S l) ed x = (if decide (x = next) then 1 else 0) + held_by (words m2) l 512 next x).
  { intros x. cbn [held_at]. rewrite Hep, is_at_eq, Hea. apply Z.add_cancel_l. apply zsum_ext. intros i Hi. rewrite Hn3 by lia.
    apply held_same. apply Hsame. lia. }
  assert (Htab : ∀ u, table_at (words m3) (S l) ed u → u = next ∨ ∃ i, 0 <= i < 512 ∧ table_at (words m2) l (words m2 (next + 8 * i)) u).
  { intros u [_ [->|(i & Hi & Hu)]]; [by left|]. rewrite Hea, Hn3 in Hu by done. right. exists i. split; [done|].
    by apply (table_same (words m2) (words m3)); [apply Hsame|]. }
  assert (Hmg : ∀ x, is_managed (frames m2) x = is_managed (frames m0) x) by (intros x; by rewrite (ev_managed _ _ _ _ Ev2), (ev_managed _ _ _ _ T_ev)).
  assert (Hmg1 : ∀ x, is_managed p x = is_managed (frames m0) x) by (intros x; by rewrite Hpm, (ev_managed _ _ _ _ T_ev)).
  apply (cloning_extend m0 m m3 (S l) n s d k ed); try done.
  - eapply evolve_trans; [|exact Ev2|exact Hnew]. intros x Hx Hxr. destruct (T_old x Hx Hxr) as (_ & Hpos & _).
    exact (cloning_pos m1 m2 l 512 (paddr e) next 512 x Rp C2 Hx Hpos).
  - apply set_same.
  - intros i Hi Hne. unfold m3. rewrite set_other by done. by apply Hd2.
  - split.
    + cbn [copy_at]. fold e0. rewrite T_present. split; [done|]. split; [done|]. intros i Hi. rewrite Hea, Hn3 by done.
      destruct (T_child i Hi) as [H1 H2]. eapply copy_same; [by apply Hsame|]. eapply copy_ro; [exact H1|exact H2|].
      apply (cl_copy _ _ _ _ _ _ _ C2 i Hi).
    + destruct (ca_src _ _ _ _ _ Ca s) as (Hs1 & Hs2 & Hs3); [by left|]. cbn [protected_at]. rewrite Hw3 by done. intros _ i Hi.
      assert (Hse : paddr (words m2 (s + 8 * k)) = paddr e) by (apply paddr_ro, (ev_ro _ _ _ _ Ev2 s k); [done|by apply T_pos|done|done]).
      rewrite Hse. pose proof (cl_prot _ _ _ _ _ _ _ C2 i ltac:(lia)) as Hprot.
      assert (Hsub : ∀ u, source (words m2) l 512 (paddr e) u → frame_ok u ∧ u ≠ d).
      { intros u Hu. assert (Hu1 : source (words m1) l 512 (paddr e) u).
        { destruct Hu as [->|(j & Hj & Hu)]; [by left|]. right. exists j. split; [done|].
          destruct (cloning_source m1 m1 m2 l 512 (paddr e) next 0 j T_clonable (cloning_start m1 l 512 (paddr e) next T_clonable)
            (cl_ev _ _ _ _ _ _ _ C2) ltac:(lia)) as [Hx1 Hx2]. by apply (table_ro (words m1) (words m2) l _ (words m2 (paddr e + 8 * j))). }
        by destruct (T_src u Hu1) as (_ & ? & _ & ?). }
      destruct (Hsub (paddr e)) as [Hpe1 Hpe2]; [by left|]. rewrite Hw3 by done.
      eapply protected_ro; [apply ro_refl| |exact Hprot]. intros u j Hu Hj. left. destruct (Hsub u) as [? ?]; [right; exists i; split; [lia|done]|].
      by apply Hw3.
    + cbn [tree_at]. intros _. rewrite Hea. split.
      * intros i Hi. rewrite Hn3 by done. split.
        -- apply (tree_same (words m2)); [by apply Hsame|]. by apply (cl_tree _ _ _ _ _ _ _ C2).
        -- rewrite (table_same (words m2)) by (by apply Hsame). intros Hu. by destruct (Hbelow i next Hi Hu) as (_ & _ & _ & _ & ?).
      * intros i j u Hi Hj. rewrite !Hn3 by done. rewrite (table_same (words m2) _ l (words m2 (next + 8 * i))),
          (table_same (words m2) _ l (words m2 (next + 8 * j))) by (by apply Hsame). exact (cl_apart _ _ _ _ _ _ _ C2 i j u Hi Hj).
    + intros u [->|(i & Hi & Hu)]%Htab.
      * split; [done|]. split; [done|]. change (frames m3) with (frames m2).
        apply (cloning_pos m1 m2 l 512 (paddr e) next 512 next Rp C2 Hnext). cbn [frames m1]. lia.
      * by destruct (Hbelow i u Hi Hu) as (? & ? & ? & _).
    + intros x Hm Hpos. rewrite Hheld in Hpos. destruct (decide (x = next)) as [->|Hne]; [done|].
      assert (Hex : ∃ i, 0 <= i < 512 ∧ 0 < held_at (words m2) l (words m2 (next + 8 * i)) x).
      { apply (zsum_witness 512 (λ i, held_at (words m2) l (words m2 (next + 8 * i)) x)); [intros; apply held_nonneg|]. unfold held_by in Hpos. lia. }
      destruct Hex as (i & Hi & Hpi). eapply (cl_frames _ _ _ _ _ _ _ C2 i x Hi); [cbn [frames m1]; by rewrite Hmg1|done].
    + intros x Hx Hm. rewrite Hheld. change (frames m3) with (frames m2).
      rewrite (cl_refs _ _ _ _ _ _ _ C2 x Hx) by (cbn [frames m1]; by rewrite Hmg1). cbn [frames m1]. rewrite Hrefs by done.
      change (Z.to_nat 512) with 512%nat. destruct (decide (x = next)) as [->|]; lia.
    + intros x Hxo Hx. rewrite Hheld. fold e0. rewrite <-(T_pages x). unfold held_by, pages_by.
      assert (Hxne : x ≠ next) by (intros ->; pose proof (T_pos next Hnext); lia).
      rewrite decide_False, Z.add_0_l by done. apply zsum_ext. intros i Hi. apply (cl_held _ _ _ _ _ _ _ C2 i x); [lia|done|].
      cbn [frames m1]. rewrite Hrefs, decide_False by done. by apply T_pos.
Qed.

(** A table that could not be copied is released, and the entries before it stand. *)
Lemma T_failure m2 :
  abandoned m1 m2 l 512 (paddr e) next 0 →
  ∃ p3, free_frame next (frames m2) = Ok p3 ∧ cloning m0 (mkPhys p3 (words m2)) (S l) n s d k.
Proof.
  intros [Ev2 Hr2]. destruct (T_evolve m2 Ev2) as [Ev Hd2]. cbn [frames m1] in Hr2.
  assert (Hmg1 : ∀ x, is_managed p x = is_managed (frames m0) x) by (intros x; by rewrite Hpm, (ev_managed _ _ _ _ T_ev)).
  assert (Hr1n : refs p next = 1) by (rewrite Hrefs by done; by rewrite decide_True).
  assert (Hmn : is_managed p next = true) by (apply (refs_managed (ready := ready)); [done|done|lia]).
  destruct (dec_frame (frames m2) next) as (p3 & E & R3 & M3 & H3); [apply Ev|done|rewrite Hr2, decide_True by done; lia|].
  exists p3. split; [exact E|]. apply (cloning_keep m0 m _ (S l) n s d k); try done.
  - destruct Ev as [V1 V2 V3 V4 V5]. split; try done. intros x. cbn [frames]. by rewrite M3.
  - assert (0 <= k < 512) by (pose proof (ca_size _ _ _ _ _ Ca); lia). lia.
  - intros x Hx Hm. cbn [frames]. rewrite H3, Hr2, Hrefs by (done || by rewrite Hmg1).
    destruct (decide (x = next)) as [->|]; lia.
Qed.
End table.

Section steps.
Variables (m0 : Phys P) (l n : nat) (s d drop : Z).
Hypothesis Ca : clonable m0 l n s d.

Lemma for_entries_spec f :
  (∀ m k, 0 <= k < Z.of_nat n → cloning m0 m l n s d k →
     ∃ ok m', f k m = Ok (ok, m') ∧ if (ok : bool) then cloning m0 m' l n s d (k + 1) else abandoned m0 m' l n s d drop) →
  ∀ j k m, 0 <= k → k + Z.of_nat j = Z.of_nat n → cloning m0 m l n s d k →
  ∃ ok m', for_entries f j k m = Ok (ok, m') ∧
    if (ok : bool) then cloning m0 m' l n s d (Z.of_nat n) else abandoned m0 m' l n s d drop.
Proof.
  intros Hf. induction j as [|j IH]; intros k m Hk Hj C; cbn [for_entries].
  - exists true, m. split; [done|]. by replace (Z.of_nat n) with k by lia.
  - destruct (Hf m k ltac:(lia) C) as (ok & m1 & E & Ho). step_with E. cbv iota. destruct ok; [|by exists false, m1].
    apply IH; [lia|lia|done].
Qed.

(** The references the first [N] entries hold are those of the copied ones. *)
Lemma cloning_held m k N x :
  cloning m0 m l n s d k → 0 <= k <= Z.of_nat N → (N <= 512)%nat → (∀ i, k <= i < Z.of_nat N → words m0 (d + 8 * i) = 0) →
  held_by (words m) l N d x = held_by (words m) l (Z.to_nat k) d x.
Proof.
  intros C Hk HN Hz. revert Hk Hz. induction N as [|N IH]; intros Hk Hz; [by replace (Z.to_nat k) with 0%nat by lia|].
  destruct (decide (k = Z.of_nat (S N))) as [->|Hne]; [by rewrite Nat2Z.id|].
  rewrite held_by_S, IH by (lia || (intros i Hi; apply Hz; lia)). rewrite (cl_rest _ _ _ _ _ _ _ C), Hz by lia.
  assert (held_at (words m) l 0 x = 0) as -> by (by destruct l). lia.
Qed.

Lemma cloning_release m k N :
  cloning m0 m l n s d k → 0 <= k <= Z.of_nat N → (N <= 512)%nat → (∀ i, k <= i < Z.of_nat N → words m0 (d + 8 * i) = 0) →
  ∃ p', for_upto N 0 (free_body l (words m) d) (frames m) = Ok p' ∧ ready p' ∧ (∀ x, is_managed p' x = is_managed (frames m0) x) ∧
    ∀ x, frame_ok x → is_managed (frames m0) x = true → refs p' x = refs (frames m0) x.
Proof.
  intros C Hk HN Hz. pose proof (cl_ev _ _ _ _ _ _ _ C) as Ev.
  assert (Hin : ∀ i u, 0 <= i < Z.of_nat N → table_at (words m) l (words m (d + 8 * i)) u → 0 <= i < k).
  { intros i u Hi Hu. destruct (decide (i < k)); [lia|]. rewrite (cl_rest _ _ _ _ _ _ _ C), Hz in Hu by lia. destruct l; by destruct Hu. }
  destruct (release_entries_spec (ready := ready) l N (words m) d (frames m)) as (p' & E & R' & M' & F').
  { split.
    - apply Ev.
    - intros i u Hi Hu. destruct (cl_fresh _ _ _ _ _ _ _ C i u (Hin i u Hi Hu) Hu) as (H1 & _ & H3). split; [done|].
      apply (refs_managed (ready := ready)); [apply Ev|done|done].
    - intros x Hm Hpos. rewrite (ev_managed _ _ _ _ Ev) in Hm. rewrite (cloning_held m k N x) in Hpos by done.
      destruct (zsum_witness (Z.to_nat k) (λ i, held_at (words m) l (words m (d + 8 * i)) x)) as (i & Hi & Hpi);
        [intros; apply held_nonneg|exact Hpos|]. apply (cl_frames _ _ _ _ _ _ _ C i x); [lia|done|done].
    - intros x Hx Hm. rewrite (ev_managed _ _ _ _ Ev) in Hm. rewrite (cloning_held m k N x) by done.
      rewrite (cl_refs _ _ _ _ _ _ _ C x Hx Hm). pose proof (refs_nonneg (frames m0) x (ca_ready _ _ _ _ _ Ca)). lia. }
  exists p'. split; [done|]. split; [done|]. split; [intros x; by rewrite M', (ev_managed _ _ _ _ Ev)|].
  intros x Hx Hm. rewrite F' by (done || by rewrite (ev_managed _ _ _ _ Ev)). rewrite (cloning_held m k N x) by done.
  rewrite (cl_refs _ _ _ _ _ _ _ C x Hx Hm). lia.
Qed.
End steps.

(** A table entry, whatever the way to undo. *)
Lemma clone_table_step m0 m l n s d k drop rec undo fl :
  clonable m0 (S l) n s d → cloning m0 m (S l) n s d k → 0 <= k < Z.of_nat n → present (words m (s + 8 * k)) = true →
  clones rec l → table_flags fl →
  (∀ m1, cloning m0 m1 (S l) n s d k → ∃ p, undo m1 = Ok p ∧ abandoned m0 (mkPhys p (words m1)) (S l) n s d drop) →
  ∃ ok m', clone_table rec undo fl (paddr (words m (s + 8 * k))) d k m = Ok (ok, m') ∧
    if (ok : bool) then cloning m0 m' (S l) n s d (k + 1) else abandoned m0 m' (S l) n s d drop.
Proof.
  intros Ca C Hk Hp Hrec Hfl Hundo. pose proof (cl_ev _ _ _ _ _ _ _ C) as Ev. unfold clone_table.
  destruct (alloc_frame_spec (frames m)) as (next & p & Ea & Rp & Hc); [apply Ev|]. step_with Ea. cbv iota.
  pose proof (alloc_frame_managed (frames m) next p (ev_ready _ _ _ _ Ev) Ea) as Hpm.
  destruct Hc as [[-> Hrefs]|(Hnext & Hfree & Hrefs)].
  - cbn [Z.eqb]. cbv zeta. destruct (Hundo (mkPhys p (words m))) as (p' & E & Ha).
    { apply (cloning_keep m0 m _ (S l) n s d k); try done.
      - split; try done; [apply Ev|intros; apply ro_refl].
      - pose proof (ca_size _ _ _ _ _ Ca). lia.
      - intros x Hx _. by apply Hrefs. }
    step_with E. eexists false, _. done.
  - destruct (Z.eqb_spec next 0); [destruct Hnext; lia|]. cbv zeta.
    set (m1 := mkPhys p (fill_table (words m) next (λ _, 0))).
    destruct (Hrec (paddr (words m (s + 8 * k))) next m1) as (ok & m2 & E & Ho).
    { by eapply (T_clonable m0 m l n s d k). }
    { intros i Hi. by eapply (T_zero m). }
    step_with E. cbv iota. destruct ok.
    + eexists true, _. split; [done|]. by eapply (T_success m0 m l n s d k).
    + destruct (T_failure m0 m l n s d k) with (next := next) (p := p) (m2 := m2) as (p3 & E3 & C3); try done.
      step_with E3. destruct (Hundo _ C3) as (p' & E' & Ha). step_with E'. eexists false, _. done.
Qed.

Lemma clone_flags e mask :
  0 <= e < 2 ^ 64 → present e = true → has e PTE_HUGE = false → Z.testbit mask 0 = true →
  (∀ b, 12 <= b < 52 → Z.testbit mask b = false) → table_flags (Z.land e mask).
Proof.
  intros He Hp Hh Hm0 Hmb. unfold present, PTE_PRESENT, PTE_HUGE in *. rewrite has_bit in Hp, Hh by lia. split.
  - by apply land_u64.
  - intros b Hb. by rewrite Z.land_spec, Hmb, andb_false_r.
  - by rewrite Z.land_spec, Hp, Hm0.
  - by rewrite Z.land_spec, Hh.
Qed.

Lemma clone_level_spec l : clones (clone_page_table_level (S l)) l.
Proof.
  induction l as [|l IH]; intros s d m0 Ca Hz; unfold clone_page_table_level; fold (@clone_page_table_level P _).
  all: eapply (for_entries_spec m0 _ 512 s d 0); [|lia|lia|by apply cloning_start].
  all: intros m k Hk C; cbv zeta; change (has (entry m s k) PTE_PRESENT) with (present (words m (s + 8 * k)));
    destruct (present (words m (s + 8 * k))) eqn:Hp; cbn [negb];
    [|eexists true, _; split; [done|]; by apply clone_absent].
  - destruct (clone_page_step m0 m 512 s d k Ca C Hk Hp) as (m' & E & C'). by exists true, m'.
  - pose proof (ca_small _ _ _ _ _ Ca k Hk) as Hsm. pose proof (entry_ro m0 m (S l) 512 s d k Ca C Hk) as Hro.
    assert (Hh : has (entry m s k) PTE_HUGE = false).
    { unfold PTE_HUGE. change (entry m s k) with (words m (s + 8 * k)). rewrite (has_ro _ _ 7 Hro) by lia.
      cbn [small_at] in Hsm. apply Hsm. by rewrite <-(present_ro _ _ Hro). }
    rewrite Hh. change (Z.land (entry m s k) ADDR_MASK) with (paddr (words m (s + 8 * k))). apply (clone_table_step m0 m l 512 s d k 0); try done.
    + apply clone_flags; try done; [apply (cl_ev _ _ _ _ _ _ _ C)|]. intros b Hb. rewrite !Z.lor_spec. unfold PTE_NX, PTE_SHARED.
      rewrite !Z.pow2_bits_false, (testbit_ge 0xFFF 12) by lia. done.
    + intros m1 C1. cbv beta. rewrite free_level_eq.
      destruct (cloning_release m0 (S l) 512 s d Ca m1 k 512) as (p' & E & R' & M' & F'); [done|lia|lia|intros i Hi; apply Hz; lia|].
      exists p'. split; [exact E|]. destruct (cl_ev _ _ _ _ _ _ _ C1) as [V1 V2 V3 V4 V5]. split; [by split|].
      intros x Hx Hm. cbn [frames]. rewrite F' by done. case_decide; lia.
Qed.
End copy.
