(* ===== verification/Fork.v ===== *)
(** What fork gets from [vmm_clone_address_space] and exit from [vmm_free_address_space]
    (src/mm/vmm.cpp, modelled in VmmClone.v): the copy translates every address as the
    original does, private pages are write-protected in both, the two share no user
    table, and every reference is accounted for, also when memory runs out half way. *)

From S2P Require Import Prelude Bitmap Pmm Frames Paging Dma Vma Vmm VmmClone.

#[local] Opaque zsum.

(** * Lemmas: paths *)

Lemma zsum_zero n : zsum n (λ _, 0) = 0.
Proof. induction n as [|n IH]; [done|]. by rewrite zsum_S, IH. Qed.

(** The table [j] levels below the table an entry leads to, which is at depth [4 - l]. *)
Fixpoint walk (w : Z → Z) (l : nat) (e v : Z) (j : nat) : option Z :=
  if present e && negb (has e PTE_HUGE) then
    match j, l with
    | O, _ => Some (paddr e)
    | S j', S l' => walk w l' (w (paddr e + 8 * idx (4 - l) v)) v j'
    | S _, O => None
    end
  else None.

Lemma walk_snoc w j : ∀ l e v,
  (j < l <= 3)%nat →
  walk w l e v (S j) =
    t ← walk w l e v j;
    let e' := w (t + 8 * idx (4 - l + j) v) in
    if present e' && negb (has e' PTE_HUGE) then Some (paddr e') else None.
Proof.
  induction j as [|j IH]; intros l e v Hj; (destruct l as [|l]; [lia|]).
  - cbn [walk]. destruct (present e && negb (has e PTE_HUGE)); [|done]. cbn [mbind option_bind].
    replace (4 - S l + 0)%nat with (4 - S l)%nat by lia. destruct l; cbn [walk]; done.
  - change (walk w (S l) e v (S (S j))) with
      (if present e && negb (has e PTE_HUGE) then walk w l (w (paddr e + 8 * idx (4 - S l) v)) v (S j) else None).
    change (walk w (S l) e v (S j)) with
      (if present e && negb (has e PTE_HUGE) then walk w l (w (paddr e + 8 * idx (4 - S l) v)) v j else None).
    destruct (present e && negb (has e PTE_HUGE)); [|done]. rewrite IH by lia.
    replace (4 - S l + S j)%nat with (4 - l + j)%nat by lia. done.
Qed.

Section paths.
Context {P : Type} `{Frames P}.
Implicit Types m : Phys P.

Lemma node_walk m root v j : (j <= 2)%nat → node m root (S j) v = walk (words m) 3 (entry m root (idx 0 v)) v j.
Proof.
  induction j as [|j IH]; intros Hj.
  - cbn [node mbind option_bind walk]. done.
  - rewrite walk_snoc by lia. change (node m root (S (S j)) v) with
      (t ← node m root (S j) v; let e := entry m t (idx (S j) v) in
       if has e PTE_PRESENT && negb (has e PTE_HUGE) then Some (Z.land e ADDR_MASK) else None).
    rewrite IH by lia. done.
Qed.

Lemma walk_table w j : ∀ l e v u, (j < l)%nat → walk w l e v j = Some u → table_at w l e u.
Proof.
  induction j as [|j IH]; intros l e v u Hj Hw; (destruct l as [|l]; [lia|]); cbn [walk] in Hw;
    (destruct (present e) eqn:Hp; [|done]); cbn [andb] in Hw; (destruct (has e PTE_HUGE); [done|]); cbn [negb] in Hw.
  - injection Hw as <-. by apply table_self.
  - apply (table_child w l e (idx (4 - S l) v) u Hp (idx_range _ _)). apply (IH l _ v); [lia|done].
Qed.

(** In a tree the way to a table is unique. *)
Lemma walk_tree w l : ∀ e v v' j j' u,
  tree_at w l e → (j < l <= 3)%nat → (j' < l)%nat → walk w l e v j = Some u → walk w l e v' j' = Some u →
  j = j' ∧ ∀ i, (i < j)%nat → idx (4 - l + i) v = idx (4 - l + i) v'.
Proof.
  induction l as [|l IH]; intros e v v' j j' u Ht Hj Hj' Hw Hw'; [lia|].
  destruct (present e) eqn:Hp; [|destruct j; cbn [walk] in Hw; by rewrite Hp in Hw]. destruct (Ht Hp) as [T1 T2].
  assert (Hdown : ∀ v j, walk w (S l) e v (S j) = Some u → walk w l (w (paddr e + 8 * idx (4 - S l) v)) v j = Some u).
  { intros v0 j0 H0. cbn [walk] in H0. by destruct (present e && negb (has e PTE_HUGE)). }
  assert (Hup : ∀ v, walk w (S l) e v 0 = Some u → u = paddr e).
  { intros v0 H0. cbn [walk] in H0. destruct (present e && negb (has e PTE_HUGE)); [by injection H0|done]. }
  assert (Hmix : ∀ v j, (S j < S l)%nat → walk w (S l) e v (S j) = Some u → u ≠ paddr e).
  { intros v0 j0 Hj0 H0 ->. apply Hdown in H0. destruct (T1 (idx (4 - S l) v0) (idx_range _ _)) as [_ Hn]. apply Hn.
    apply (walk_table w j0 l _ v0); [lia|done]. }
  destruct j as [|j], j' as [|j'].
  - split; [done|]. intros i Hi. lia.
  - apply Hup in Hw. by apply Hmix in Hw'.
  - apply Hup in Hw'. apply Hmix in Hw; [done|lia].
  - apply Hdown in Hw, Hw'.
    assert (Ei : idx (4 - S l) v = idx (4 - S l) v').
    { apply (T2 _ _ u (idx_range _ _) (idx_range _ _)); (eapply walk_table; [|eassumption]; lia). }
    rewrite <-Ei in Hw'. destruct (T1 (idx (4 - S l) v) (idx_range _ _)) as [Ht' _].
    destruct (IH _ v v' j j' u Ht' ltac:(lia) ltac:(lia) Hw Hw') as [-> Hi']. split; [done|].
    intros [|i] Hi; [by rewrite Nat.add_0_r|]. replace (4 - S l + S i)%nat with (4 - l + i)%nat by lia. apply Hi'. lia.
Qed.

(** Every table below an entry is on the way to some address. *)
Lemma reach_index k v i : (k <= 3)%nat → 0 <= i < 512 → ∃ v', pre k v' = pre k v ∧ idx k v' = i.
Proof.
  intros Hk Hi. assert (Hl : 0 <= low k) by (unfold low; lia). exists (pre k v * 2 ^ (low k + 9) + i * 2 ^ low k).
  assert (Hb : 0 <= pre k v * 2 ^ (low k + 9) + i * 2 ^ low k < 2 ^ 48).
  { assert (H1 : 2 ^ 48 = 2 ^ (48 - (low k + 9)) * 2 ^ (low k + 9)) by (rewrite <-Z.pow_add_r by (unfold low in *; lia); f_equal; lia).
    assert (H2 : 0 <= pre k v < 2 ^ (48 - (low k + 9))).
    { unfold pre. pose proof (Z.mod_pos_bound v (2 ^ 48) ltac:(lia)). split; [apply Z.div_pos; lia|].
      apply Z.div_lt_upper_bound; [lia|]. lia. }
    rewrite (Z.pow_add_r 2 (low k) 9) in * by lia. change (2 ^ 9) with 512 in *. nia. }
  unfold pre at 1, idx. rewrite Z.mod_small by done. rewrite (Z.pow_add_r 2 (low k) 9) by lia. change (2 ^ 9) with 512.
  assert (0 < 2 ^ low k) by lia. split.
  - rewrite <-Z.div_div by lia. replace (pre k v * (2 ^ low k * 512) + i * 2 ^ low k) with ((pre k v * 512 + i) * 2 ^ low k) by lia.
    rewrite Z.div_mul by lia. lia.
  - replace (pre k v * (2 ^ low k * 512) + i * 2 ^ low k) with ((pre k v * 512 + i) * 2 ^ low k) by lia. rewrite Z.div_mul by lia. lia.
Qed.

Lemma table_node m root l : ∀ k v t i u,
  (k + l = 3)%nat → node m root k v = Some t → 0 <= i < 512 → small_at (words m) l (words m (t + 8 * i)) →
  table_at (words m) l (words m (t + 8 * i)) u →
  ∃ k' v', (k < k' <= 3)%nat ∧ node m root k' v' = Some u ∧ pre k v' = pre k v ∧ idx k v' = i.
Proof.
  induction l as [|l IH]; intros k v t i u Hk Ht Hi Hs Hu; [by destruct Hu|].
  destruct Hu as [Hp Hu]. cbn [small_at] in Hs. destruct (Hs Hp) as [Hh Hc].
  destruct (reach_index k v i ltac:(lia) Hi) as (v1 & Hpre & Hidx).
  assert (Hn : node m root (S k) v1 = Some (paddr (words m (t + 8 * i)))).
  { change (node m root (S k) v1) with
      (t ← node m root k v1; let e := entry m t (idx k v1) in
       if has e PTE_PRESENT && negb (has e PTE_HUGE) then Some (Z.land e ADDR_MASK) else None).
    rewrite (node_pre m root k v1 v) by (lia || done). rewrite Ht. cbn [mbind option_bind]. rewrite Hidx. cbv zeta.
    change (has (entry m t i) PTE_PRESENT) with (present (words m (t + 8 * i))). rewrite Hp.
    change (has (entry m t i) PTE_HUGE) with (has (words m (t + 8 * i)) PTE_HUGE). by rewrite Hh. }
  destruct Hu as [->|(j & Hj & Hu)].
  - exists (S k), v1. split; [lia|]. done.
  - destruct (IH (S k) v1 _ j u ltac:(lia) Hn Hj (Hc j Hj) Hu) as (k' & v' & Hk' & Hn' & Hp' & _).
    exists k', v'. split; [lia|]. split; [done|]. apply pre_S_inj in Hp' as [Hp1 Hp2]; [|lia]. split; congruence.
Qed.

(** ** Write protection and copies keep translations *)

Lemma leaf_mask_ro e e' k : ro e e' → (k <= 3)%nat → Z.land e' (leaf_mask k) = Z.land e (leaf_mask k).
Proof.
  intros Hr Hk. assert (E : ∀ x, Z.land x (leaf_mask k) = Z.land (paddr x) (leaf_mask k)).
  { intros x. unfold paddr. rewrite <-Z.land_assoc. f_equal. pose proof (low_range k Hk). apply Z.bits_inj'. intros b Hb.
    rewrite Z.land_spec. unfold leaf_mask. change ADDR_MASK with (2 ^ 52 - 2 ^ 12). rewrite !testbit_mask by lia.
    destruct (Z.leb_spec (low k) b), (Z.leb_spec 12 b), (Z.ltb_spec b 52); try done; lia. }
  rewrite (E e'), (E e). by rewrite (paddr_ro e e' Hr).
Qed.

Lemma ro_tables m m' root :
  (∀ k v t, (k <= 3)%nat → node m root k v = Some t → ro (entry m t (idx k v)) (entry m' t (idx k v))) →
  (∀ k v, (k <= 3)%nat → node m' root k v = node m root k v) ∧ ∀ v, mmu m' root v = mmu m root v.
Proof.
  intros Hro.
  assert (Hn : ∀ k v, (k <= 3)%nat → node m' root k v = node m root k v).
  { induction k as [|k IH]; intros v Hk; [done|]. cbn [node]. rewrite IH by lia. destruct (node m root k v) as [t|] eqn:Ht; [|done].
    cbn [mbind option_bind]. specialize (Hro k v t ltac:(lia) Ht). change (has (entry m' t (idx k v)) PTE_PRESENT) with (present (entry m' t (idx k v))).
    change (has (entry m t (idx k v)) PTE_PRESENT) with (present (entry m t (idx k v))). rewrite (present_ro _ _ Hro).
    unfold PTE_HUGE. rewrite (has_ro _ _ 7 Hro) by lia. fold (paddr (entry m' t (idx k v))) (paddr (entry m t (idx k v))). by rewrite (paddr_ro _ _ Hro). }
  split; [done|]. intros v. unfold mmu.
  assert (Hgen : ∀ n k t, (k + n = 3)%nat → node m root k v = Some t → mmu_from m' n t v = mmu_from m n t v);
    [|by apply (Hgen 3%nat 0%nat)].
  induction n as [|n IH]; intros k t Hk Ht; cbn [mmu_from].
  - replace (3 - 0)%nat with k by lia. pose proof (Hro k v t ltac:(lia) Ht) as Hr. pose proof (present_ro _ _ Hr) as Hpr. unfold present in Hpr.
    rewrite Hpr, (leaf_mask_ro _ _ k Hr) by lia. done.
  - replace (3 - S n)%nat with k by lia. pose proof (Hro k v t ltac:(lia) Ht) as Hr. pose proof (present_ro _ _ Hr) as Hpr. unfold present in Hpr.
    rewrite Hpr, (leaf_mask_ro _ _ k Hr) by lia. unfold PTE_HUGE. rewrite (has_ro _ _ 7 Hr) by lia.
    destruct (has (entry m t (idx k v)) PTE_PRESENT) eqn:Ep; [|done]. fold PTE_HUGE. destruct (has (entry m t (idx k v)) PTE_HUGE) eqn:Eh; [done|].
    fold (paddr (entry m' t (idx k v))). rewrite (paddr_ro _ _ Hr). apply (IH (S k)); [lia|].
    change (node m root (S k) v) with (t ← node m root k v; let e := entry m t (idx k v) in
       if has e PTE_PRESENT && negb (has e PTE_HUGE) then Some (Z.land e ADDR_MASK) else None).
    rewrite Ht. cbn [mbind option_bind]. cbv zeta. by rewrite Ep, Eh.
Qed.

Lemma copy_mmu m m' n : ∀ t t' v,
  (n <= 3)%nat → copy_at (words m) (words m') n (entry m t (idx (3 - n) v)) (entry m' t' (idx (3 - n) v)) →
  small_at (words m) n (entry m t (idx (3 - n) v)) → mmu_from m' n t' v = mmu_from m n t v.
Proof.
  induction n as [|n IH]; intros t t' v Hn Hc Hs; cbn [mmu_from]; set (e := entry m t _) in *; set (ed := entry m' t' _) in *;
    cbn [copy_at small_at] in Hc, Hs; unfold present in Hc, Hs; destruct (has e PTE_PRESENT) eqn:Hp.
  - rewrite Hc. destruct (leaf_copy_bits e) as [Hlp Hla]. unfold present in Hlp. rewrite Hlp, Hp. change (3 - 0)%nat with 3%nat.
    rewrite leaf_mask_3. fold (paddr (leaf_copy e)) (paddr e). by rewrite Hla.
  - by rewrite Hc.
  - destruct Hc as (Hp' & Hh' & Hc). destruct (Hs eq_refl) as [Hh Hs']. rewrite Hp', Hh', Hh.
    fold (paddr e) (paddr ed). apply IH; [lia|apply Hc, idx_range|apply Hs', idx_range].
  - by rewrite Hc.
Qed.
End paths.

(** ** Tables and copies on a path *)

Lemma copy_absent w0 w l e ed : copy_at w0 w l e ed → present ed = false → ed = 0.
Proof.
  destruct l; cbn [copy_at]; destruct (present e) eqn:Hp; try done.
  - intros ->. destruct (leaf_copy_bits e) as [-> _]. by rewrite Hp.
  - intros (-> & _). done.
Qed.

Lemma copy_walk w0 w j : ∀ l e ed v t',
  (j < l <= 3)%nat → copy_at w0 w l e ed → small_at w0 l e → walk w l ed v j = Some t' →
  ∃ t, walk w0 l e v j = Some t ∧ let i := idx (4 - l + j) v in
    copy_at w0 w (l - 1 - j) (w0 (t + 8 * i)) (w (t' + 8 * i)) ∧ small_at w0 (l - 1 - j) (w0 (t + 8 * i)).
Proof.
  induction j as [|j IH]; intros l e ed v t' Hj Hc Hs Hw; (destruct l as [|l]; [lia|]); cbn [walk copy_at small_at] in *;
    (destruct (present e) eqn:Hp; [|subst ed; by cbn in Hw]); destruct Hc as (Hp' & Hh' & Hc), (Hs eq_refl) as [Hh Hs'];
    rewrite Hp', Hh' in Hw; cbn [andb negb] in Hw; rewrite Hh; cbn [andb negb].
  - injection Hw as <-. eexists. split; [done|]. rewrite Nat.add_0_r. replace (S l - 1 - 0)%nat with l by lia.
    split; [apply Hc, idx_range|apply Hs', idx_range].
  - destruct (IH l _ _ v t' ltac:(lia) (Hc _ (idx_range _ _)) (Hs' _ (idx_range _ _)) Hw) as (t & Ht & HH). exists t. split; [done|].
    replace (4 - S l + S j)%nat with (4 - l + j)%nat by lia. replace (S l - 1 - S j)%nat with (l - 1 - j)%nat by lia. done.
Qed.

Lemma copy_walk_down w0 w j : ∀ l e ed v t,
  (j < l <= 3)%nat → copy_at w0 w l e ed → walk w0 l e v j = Some t → ∃ t', walk w l ed v j = Some t'.
Proof.
  induction j as [|j IH]; intros l e ed v t' Hj Hc Hw; (destruct l as [|l]; [lia|]); cbn [walk copy_at] in *;
    (destruct (present e) eqn:Hp; [|done]); destruct Hc as (Hp' & Hh' & Hc); rewrite Hp', Hh'; cbn [andb negb] in *;
    destruct (has e PTE_HUGE); try done; cbn [negb] in Hw.
  - by eexists.
  - eapply IH; [lia|apply Hc, idx_range|done].
Qed.

Lemma protected_walk w j : ∀ l e v t,
  (j < l <= 3)%nat → protected_at w l e → walk w l e v j = Some t →
  protected_at w (l - 1 - j) (w (t + 8 * idx (4 - l + j) v)).
Proof.
  induction j as [|j IH]; intros l e v t Hj Hq Hw; (destruct l as [|l]; [lia|]); cbn [walk protected_at] in *;
    (destruct (present e) eqn:Hp; [|done]); (destruct (has e PTE_HUGE); [done|]); cbn [andb negb] in Hw.
  - injection Hw as <-. rewrite Nat.add_0_r. replace (S l - 1 - 0)%nat with l by lia. apply Hq; [done|apply idx_range].
  - replace (4 - S l + S j)%nat with (4 - l + j)%nat by lia. replace (S l - 1 - S j)%nat with (l - 1 - j)%nat by lia.
    apply (IH l (w (paddr e + 8 * idx (4 - S l) v)) v t); [lia|apply Hq; [done|apply idx_range]|done].
Qed.

Lemma pre_indices k v v' : (k <= 3)%nat → (∀ i, (i <= k)%nat → idx i v = idx i v') → pre (S k) v = pre (S k) v'.
Proof.
  induction k as [|k IH]; intros Hk Hi; rewrite (pre_S _ v), (pre_S _ v') by lia.
  - rewrite (pre_0 v v'), Hi by lia. done.
  - rewrite IH, Hi by (lia || (intros; apply Hi; lia)). done.
Qed.

(** The root's entries decide: roots whose entries agree up to write protection lead to the
    same tables. *)
Lemma root_ro {P} `{Frames P} (m : Phys P) r r' v :
  ro (entry m r (idx 0 v)) (entry m r' (idx 0 v)) →
  mmu m r' v = mmu m r v ∧ ∀ k, node m r' (S k) v = node m r (S k) v.
Proof.
  intros Hr. pose proof (present_ro _ _ Hr) as Hp. unfold present in Hp. pose proof (has_ro _ _ 7 Hr ltac:(lia) ltac:(lia)) as Hh.
  change (2 ^ 7) with PTE_HUGE in Hh. pose proof (paddr_ro _ _ Hr) as Ha. unfold paddr in Ha. split.
  - unfold mmu. cbn [mmu_from]. change (3 - 3)%nat with 0%nat. by rewrite Hp, Hh, Ha, (leaf_mask_ro _ _ 0 Hr) by lia.
  - induction k as [|k IH].
    + cbn [node mbind option_bind]. by rewrite Hp, Hh, Ha.
    + change (node m r' (S (S k)) v) with
        (t ← node m r' (S k) v; let e := entry m t (idx (S k) v) in
         if has e PTE_PRESENT && negb (has e PTE_HUGE) then Some (Z.land e ADDR_MASK) else None).
      by rewrite IH.
Qed.

(** * Cloning an address space *)

Section fork.
Context {P : Type} `{Frames P} {ready : P → Prop} `{!FramesLaws P ready}.
Implicit Types m : Phys P.

(** What fork asks of an address space: no huge user pages, allocated user pages, and room
    in the 16-bit counts for one more reference per page. *)
Record forkable m root : Prop := {
  fk_space : space m root;
  fk_ready : ready (frames m);
  fk_small i : 0 <= i < 256 → small_at (words m) 3 (entry m root i);
  fk_pages i x :
    0 <= i < 256 → 0 < pages_at (words m) 3 (entry m root i) x → is_managed (frames m) x = true →
    frame_ok x ∧ 0 < refs (frames m) x;
  fk_room x : frame_ok x → 0 < refs (frames m) x → refs (frames m) x + pages_by (words m) 3 256 root x <= 65535
}.

(** Memory in which allocated tables are as before, up to write protection. *)
Definition settled m m' : Prop :=
  space_range m' ∧
  ∀ u, frame_ok u → 0 < refs (frames m) u →
    0 < refs (frames m') u ∧ ∀ i, 0 <= i < 512 → ro (words m (u + 8 * i)) (words m' (u + 8 * i)).

Lemma settled_space m m' r :
  settled m m' → space m r →
  space m' r ∧ (∀ k v, (k <= 3)%nat → node m' r k v = node m r k v) ∧ ∀ v, mmu m' r v = mmu m r v.
Proof.
  intros [Hrg Hse] Hs.
  assert (Hro : ∀ k v t, (k <= 3)%nat → node m r k v = Some t → ro (entry m t (idx k v)) (entry m' t (idx k v))).
  { intros k v t Hk Hn. destruct (sp_frame m r Hs k v t Hk Hn) as [Hf Hr]. apply Hse; [done|done|apply idx_range]. }
  destruct (ro_tables m m' r Hro) as [Hn Hmm]. split; [|done]. split.
  - intros k v t Hk. rewrite Hn by done. intros Ht. destruct (sp_frame m r Hs k v t Hk Ht) as [Hf Hr]. split; [done|]. by apply Hse.
  - intros k v t k' v' Hk Hk'. rewrite !Hn by done. by apply Hs.
  - intros k v t Hk. rewrite Hn by lia. intros Ht Hp. pose proof (Hro k v t ltac:(lia) Ht) as Hr.
    rewrite (present_ro _ _ Hr : has _ PTE_PRESENT = has _ PTE_PRESENT) in Hp. rewrite (sp_zero m r Hs k v t Hk Ht Hp) in Hr.
    destruct Hr as [->| ->]; [done|apply protect_zero].
  - intros v. unfold PTE_HUGE. rewrite (has_ro _ _ 7 (Hro 0%nat v r ltac:(lia) eq_refl)) by lia. apply Hs.
  - done.
Qed.

Lemma source_node m root u :
  (∀ i, 0 <= i < 256 → small_at (words m) 3 (entry m root i)) → source (words m) 3 256 root u →
  ∃ k v, (k <= 3)%nat ∧ node m root k v = Some u ∧ (k ≠ 0%nat → user_half v).
Proof.
  intros Hsm [->|(i & Hi & Hu)]; [exists 0%nat, 0; split; [lia|]; by split|].
  destruct (table_node m root 3 0 0 root i u) as (k & v & Hk & Hn & _ & Hv); try done; [lia|by apply Hsm; lia|].
  exists k, v. split; [lia|]. split; [done|]. intros _. unfold user_half. lia.
Qed.

Section run.
Variables (m : Phys P) (src f : Z) (p : P).
Hypothesis Fk : forkable m src.
Hypothesis Hf : frame_ok f.
Hypothesis Hfree : refs (frames m) f = 0.
Hypothesis Rp : ready p.
Hypothesis Hpm : ∀ x, is_managed p x = is_managed (frames m) x.
Hypothesis Hp : ∀ x, frame_ok x → refs p x = if decide (x = f) then 1 else refs (frames m) x.
Let m0 := mkPhys p (fill_table (fill_table (words m) f (λ _, 0)) f
  (λ i, if i <? 256 then fill_table (words m) f (λ _, 0) (f + 8 * i) else fill_table (words m) f (λ _, 0) (src + 8 * i))).

Lemma R_src : frame_ok src ∧ 0 < refs (frames m) src ∧ src ≠ f.
Proof.
  destruct (sp_frame m src (fk_space _ _ Fk) 0 0 src ltac:(lia) eq_refl) as [H1 H2]. split; [done|]. split; [done|]. intros ->. lia.
Qed.

Lemma R_old u a : frame_ok u → 0 < refs (frames m) u → u <= a < u + 4096 → words m0 a = words m a.
Proof.
  intros [Hu Hum] Hr Ha. assert (u ≠ f) by (intros ->; lia). destruct Hf as [Hf1 Hf2]. unfold m0, fill_table. cbn [words].
  case_match eqn:E; [|done]. apply andb_true_iff in E as [E1 E2]. exfalso. lia.
Qed.

Lemma R_new i : 0 <= i < 512 → words m0 (f + 8 * i) = if i <? 256 then 0 else words m (src + 8 * i).
Proof.
  intros Hi. destruct R_src as ((Hs1 & Hs2) & Hs3 & Hs4), Hf as [Hf1 Hf2].
  pose proof (entry_fill (mkPhys p (fill_table (words m) f (λ _, 0))) p f
    (λ i, if i <? 256 then fill_table (words m) f (λ _, 0) (f + 8 * i) else fill_table (words m) f (λ _, 0) (src + 8 * i)) f i Hf2 Hf2 Hi) as E.
  rewrite decide_True in E by done. unfold entry in E. cbn [words] in E. unfold m0. cbn [words]. rewrite E. case_match.
  - pose proof (entry_fill m p f (λ _, 0) f i Hf2 Hf2 Hi) as E'. by rewrite decide_True in E'.
  - pose proof (entry_fill m p f (λ _, 0) src i Hf2 Hs2 Hi) as E'. rewrite decide_False in E' by done. exact E'.
Qed.

Lemma R_range : space_range m0.
Proof.
  intros a. pose proof (sp_word _ _ (fk_space _ _ Fk)) as Hw. unfold m0, fill_table. cbn [words].
  repeat case_match; try apply Hw; lia.
Qed.

Lemma R_pos u : frame_ok u → 0 < refs (frames m) u → 0 < refs (frames m0) u ∧ u ≠ f.
Proof. intros Hu Hr. assert (u ≠ f) by (intros ->; lia). split; [|done]. cbn [m0 frames]. rewrite Hp by done. by case_decide. Qed.

Lemma R_entry i : 0 <= i < 512 → words m0 (src + 8 * i) = words m (src + 8 * i).
Proof. intros Hi. destruct R_src as (Hs1 & Hs2 & _). by apply (R_old src), frame_entry. Qed.

Lemma R_same i : 0 <= i < 256 → same_on (table_at (words m) 3 (words m (src + 8 * i))) (words m) (words m0).
Proof.
  intros Hi u j Hu Hj. destruct (source_node m src u (fk_small _ _ Fk)) as (k & v & Hk & Hn & _); [right; by exists i|].
  destruct (sp_frame m src (fk_space _ _ Fk) k v u Hk Hn) as [Hu1 Hu2]. by apply (R_old u), frame_entry.
Qed.

Lemma R_pages i x : 0 <= i < 256 → pages_at (words m0) 3 (words m0 (src + 8 * i)) x = pages_at (words m) 3 (words m (src + 8 * i)) x.
Proof. intros Hi. rewrite R_entry by lia. apply pages_ro; [apply ro_refl|by apply same_ro, R_same]. Qed.

Lemma R_pages_by x : pages_by (words m0) 3 256 src x = pages_by (words m) 3 256 src x.
Proof. apply zsum_ext. intros i Hi. by apply R_pages. Qed.

Lemma R_source u : source (words m0) 3 256 src u ↔ source (words m) 3 256 src u.
Proof.
  unfold source. split; (intros [?|(i & Hi & Hu)]; [by left|right; exists i; split; [done|]]).
  - rewrite R_entry in Hu by lia. by apply (table_same (words m) (words m0) 3 _ u (R_same i Hi)).
  - rewrite R_entry by lia. by apply (table_same (words m) (words m0) 3 _ u (R_same i Hi)).
Qed.

Lemma R_small i : 0 <= i < 256 → small_at (words m0) 3 (words m0 (src + 8 * i)).
Proof.
  intros Hi. rewrite R_entry by lia. eapply small_ro; [apply ro_refl|by apply same_ro, R_same|]. by apply (fk_small _ _ Fk).
Qed.

(** The new root is no page of the original. *)
Lemma R_no_page i : 0 <= i < 256 → pages_at (words m) 3 (words m (src + 8 * i)) f = 0.
Proof.
  intros Hi. pose proof (pages_nonneg (words m) 3 (words m (src + 8 * i)) f).
  destruct (decide (0 < pages_at (words m) 3 (words m (src + 8 * i)) f)) as [Hpos|]; [|lia].
  destruct (fk_pages _ _ Fk i f Hi Hpos); [|lia]. rewrite <-Hpm. apply (refs_managed (ready := ready)); [done|done|].
  rewrite Hp by done. rewrite decide_True by done. lia.
Qed.

Lemma R_clonable : clonable (ready := ready) m0 3 256 src f.
Proof.
  split.
  - done.
  - apply R_range.
  - lia.
  - split; [done|]. cbn [m0 frames]. rewrite Hp, decide_True by done. lia.
  - intros u Hu. apply R_source in Hu. destruct (source_node m src u (fk_small _ _ Fk) Hu) as (k & v & Hk & Hn & _).
    destruct (sp_frame m src (fk_space _ _ Fk) k v u Hk Hn) as [Hu1 Hu2]. split; [done|]. by apply R_pos.
  - apply R_small.
  - intros i x Hi. rewrite R_pages by done. cbn [m0 frames]. rewrite Hpm. intros Hpos Hm.
    destruct (fk_pages _ _ Fk i x Hi Hpos Hm) as [H1 H2]. split; [done|]. by apply R_pos.
  - intros x Hx. rewrite R_pages_by. cbn [m0 frames]. rewrite Hp by done. case_decide as Hc.
    + subst x. intros _. unfold pages_by. rewrite (zsum_ext 256 _ (λ _, 0)) by (intros; by apply R_no_page).
      rewrite zsum_zero. lia.
    + by apply Fk.
Qed.

Lemma unmanaged_refs q x : ready q → frame_ok x → is_managed q x = false → refs q x = 0.
Proof.
  intros Hq Hx Hm. pose proof (refs_nonneg q x Hq). destruct (decide (0 < refs q x)); [|lia].
  by rewrite (refs_managed (ready := ready) q x) in Hm.
Qed.

(** ** Giving the copy back *)

Variable g : Z.
Hypothesis Hg : f ≠ g.

Lemma R_free m1 k :
  cloning (ready := ready) m0 m1 3 256 src f k → 0 <= k <= 256 →
  ∃ p', vmm_free_address_space g f m1 = Ok (mkPhys p' (words m1)) ∧ ready p' ∧ (∀ x, is_managed p' x = is_managed (frames m) x) ∧
    ∀ x, frame_ok x → refs p' x = refs (frames m) x.
Proof.
  intros C Hk. destruct (cloning_release m0 3 256 src f R_clonable m1 k 256) as (p1 & E1 & R1 & M1 & F1); [done|lia|lia| |].
  { intros i Hi. rewrite R_new by lia. by rewrite (proj2 (Z.ltb_lt i 256)) by lia. }
  assert (Hmf : is_managed p f = true).
  { apply (refs_managed (ready := ready)); [done|done|]. rewrite Hp, decide_True by done. lia. }
  assert (Hf1 : refs p1 f = 1) by (rewrite F1 by done; cbn [m0 frames]; by rewrite Hp, decide_True).
  assert (Hf2 : 0 < refs p1 f) by lia. destruct (dec_frame p1 f R1 Hf Hf2) as (p' & E2 & R2 & M2 & F2). exists p'.
  split.
  { unfold vmm_free_address_space. destruct (Z.eqb_spec f 0); [destruct Hf; lia|]. destruct (Z.eqb_spec f g); [done|]. cbn [orb]. cbv zeta.
    change (for_upto 256 0 _ (frames m1)) with (for_upto 256 0 (free_body 3 (words m1) f) (frames m1)). step_with E1. by step_with E2. }
  split; [done|]. assert (HM : ∀ x, is_managed p' x = is_managed (frames m) x) by (intros x; rewrite M2, M1; apply Hpm).
  split; [done|]. intros x Hx. destruct (is_managed p x) eqn:Hm.
  - rewrite F2, F1 by done. cbn [m0 frames]. rewrite Hp by done. case_decide as Hc; [subst x|]; lia.
  - rewrite !unmanaged_refs; try done; [apply Fk| |]; congruence.
Qed.

Lemma R_undo m1 k :
  cloning (ready := ready) m0 m1 3 256 src f k → 0 <= k <= 256 →
  ∃ p', (frames <$> vmm_free_address_space g f m1) = Ok p' ∧ abandoned (ready := ready) m0 (mkPhys p' (words m1)) 3 256 src f 1.
Proof.
  intros C Hk. destruct (R_free m1 k C Hk) as (p' & E & R' & M' & F'). exists p'. split; [by rewrite E|].
  destruct (cl_ev _ _ _ _ _ _ _ C) as [V1 V2 V3 V4 V5]. split.
  - split; try done. intros x. cbn [m0 frames]. by rewrite M', Hpm.
  - intros x Hx Hm. cbn [m0 frames]. rewrite F', Hp by done. case_decide as Hc; [subst x|]; lia.
Qed.

Lemma R_loop :
  ∃ ok m', for_entries (λ i m,
      let e := entry m src i in
      if negb (has e PTE_PRESENT) then Ok (true, set_entry m f i 0)
      else
        clone_table (clone_page_table_level 3) (λ m, frames <$> vmm_free_address_space g f m)
          (Z.land e (Z.lor 0xFFF PTE_NX)) (Z.land e ADDR_MASK) f i m) 256 0 m0 = Ok (ok, m') ∧
    if (ok : bool) then cloning (ready := ready) m0 m' 3 256 src f 256 else abandoned (ready := ready) m0 m' 3 256 src f 1.
Proof.
  eapply (for_entries_spec m0 3 256 src f 1); [|lia|lia|by apply cloning_start, R_clonable].
  intros m1 k Hk C. cbv zeta. change (has (entry m1 src k) PTE_PRESENT) with (present (words m1 (src + 8 * k))).
  pose proof R_clonable as Ca. destruct (present (words m1 (src + 8 * k))) eqn:Hpr; cbn [negb];
    [|eexists true, _; split; [done|]; by apply clone_absent].
  change (Z.land (entry m1 src k) ADDR_MASK) with (paddr (words m1 (src + 8 * k))). apply (clone_table_step m0 m1 2 256 src f k 1); try done.
  - apply clone_level_spec.
  - apply clone_flags; try done; [apply (cl_ev _ _ _ _ _ _ _ C)| |].
    + pose proof (entry_ro m0 m1 3 256 src f k Ca C Hk) as Hro. change (entry m1 src k) with (words m1 (src + 8 * k)). unfold PTE_HUGE.
      rewrite (has_ro _ _ 7 Hro) by lia. pose proof (R_small k Hk) as Hsm. cbn [small_at] in Hsm. apply Hsm. by rewrite <-(present_ro _ _ Hro).
    + intros b Hb. rewrite Z.lor_spec. unfold PTE_NX. rewrite Z.pow2_bits_false, (testbit_ge 0xFFF 12) by lia. done.
  - intros m2 C2. apply (R_undo m2 k C2). lia.
Qed.

(** ** The copy *)

Section done.
Variable m' : Phys P.
Hypothesis C : cloning (ready := ready) m0 m' 3 256 src f 256.

Lemma S_settled : settled m m'.
Proof.
  pose proof (cl_ev _ _ _ _ _ _ _ C) as Ev. split; [apply Ev|]. intros u Hu Hr. destruct (R_pos u Hu Hr) as [Hr0 Hne]. split.
  - rewrite (cl_refs _ _ _ _ _ _ _ C u Hu).
    + assert (0 <= held_by (words m') 3 (Z.to_nat 256) f u) by (apply zsum_nonneg; intros; apply held_nonneg). lia.
    + apply (refs_managed (ready := ready)); done.
  - intros i Hi. rewrite <-(R_old u) by (done || by apply frame_entry). by apply (ev_ro _ _ _ _ Ev).
Qed.

Lemma S_user v j t :
  user_half v → (j <= 2)%nat → node m' f (S j) v = Some t →
  walk (words m') 3 (words m' (f + 8 * idx 0 v)) v j = Some t ∧
  table_at (words m') 3 (words m' (f + 8 * idx 0 v)) t ∧ frame_ok t ∧ refs (frames m) t = 0 ∧ t ≠ f ∧ 0 < refs (frames m') t.
Proof.
  intros Hv Hj Hn. rewrite node_walk in Hn by done. split; [done|].
  assert (Ht : table_at (words m') 3 (words m' (f + 8 * idx 0 v)) t) by (apply (walk_table _ j 3 _ v); [lia|done]).
  split; [done|]. pose proof (idx_range 0 v). unfold user_half in Hv.
  destruct (cl_fresh _ _ _ _ _ _ _ C (idx 0 v) t ltac:(lia) Ht) as (H1 & H2 & H3). split; [done|].
  cbn [m0 frames] in H2. rewrite Hp in H2 by done. case_decide; [lia|done].
Qed.

Lemma S_kernel v : ¬ user_half v → mmu m' f v = mmu m src v ∧ ∀ k, (k <= 2)%nat → node m' f (S k) v = node m src (S k) v.
Proof.
  intros Hv. destruct (settled_space m m' src S_settled (fk_space _ _ Fk)) as (_ & Hn & Hm). destruct R_src as (H1 & H2 & _).
  pose proof (idx_range 0 v). unfold user_half in Hv.
  destruct (root_ro m' f src v) as [Hm' Hn'].
  { unfold entry at 1. rewrite (cl_rest _ _ _ _ _ _ _ C), R_new by lia.
    destruct (Z.ltb_spec (idx 0 v) 256); [lia|]. by apply S_settled. }
  split; [by rewrite <-Hm', Hm|]. intros k Hk. rewrite <-Hn'. apply Hn. lia.
Qed.

Lemma S_copy v : user_half v → copy_at (words m0) (words m') 3 (words m0 (src + 8 * idx 0 v)) (words m' (f + 8 * idx 0 v)).
Proof. intros Hv. pose proof (idx_range 0 v). unfold user_half in Hv. apply (cl_copy _ _ _ _ _ _ _ C). lia. Qed.

Lemma S_small v : user_half v → small_at (words m0) 3 (words m0 (src + 8 * idx 0 v)).
Proof. intros Hv. pose proof (idx_range 0 v). unfold user_half in Hv. apply R_small. lia. Qed.

Lemma S_root_entry v :
  has (entry m' f (idx 0 v)) PTE_HUGE = false ∧ (has (entry m' f (idx 0 v)) PTE_PRESENT = false → entry m' f (idx 0 v) = 0).
Proof.
  destruct (decide (user_half v)) as [Hv|Hv].
  - pose proof (S_copy v Hv) as Hc. split; [|by apply (copy_absent _ _ _ _ _ Hc)]. unfold entry. cbn [copy_at] in Hc.
    case_match; [apply Hc|by rewrite Hc].
  - pose proof (idx_range 0 v). pose proof (fk_space _ _ Fk) as Hs. unfold user_half in Hv.
    assert (E : entry m' f (idx 0 v) = entry m src (idx 0 v)).
    { unfold entry. rewrite (cl_rest _ _ _ _ _ _ _ C), R_new by lia. by destruct (Z.ltb_spec (idx 0 v) 256); [lia|]. }
    rewrite E. split; [apply Hs|]. apply (sp_zero m src Hs 0 v src); [lia|done].
Qed.

Lemma S_node k v t :
  (k <= 3)%nat → node m' f k v = Some t →
  (k = 0%nat ∧ t = f) ∨
  (k ≠ 0%nat ∧ user_half v ∧ frame_ok t ∧ refs (frames m) t = 0 ∧ t ≠ f ∧ 0 < refs (frames m') t) ∨
  (k ≠ 0%nat ∧ ¬ user_half v ∧ node m src k v = Some t ∧ frame_ok t ∧ 0 < refs (frames m) t).
Proof.
  intros Hk Hn. destruct k as [|k]; [left; split; [done|by injection Hn]|]. right.
  destruct (decide (user_half v)) as [Hv|Hv].
  - left. split; [done|]. split; [done|]. apply (S_user v k t Hv ltac:(lia) Hn).
  - right. split; [done|]. split; [done|]. rewrite (proj2 (S_kernel v Hv) k) in Hn by lia. split; [done|].
    by apply (sp_frame m src (fk_space _ _ Fk) (S k) v).
Qed.

Lemma S_tree k v t k' v' :
  (k <= 3)%nat → (k' <= 3)%nat → node m' f k v = Some t → node m' f k' v' = Some t → k = k' ∧ pre k v = pre k' v'.
Proof.
  intros Hk Hk' Hn Hn'. pose proof (S_node k v t Hk Hn) as Hc. pose proof (S_node k' v' t Hk' Hn') as Hc'.
  destruct Hc as [[-> ->]|[(H1 & H2 & H3 & H4 & H5 & H6)|(H1 & H2 & H3 & H4 & H5)]],
    Hc' as [[-> H1']|[(H1' & H2' & H3' & H4' & H5' & H6')|(H1' & H2' & H3' & H4' & H5')]]; try lia; try done; try (subst t; lia).
  - split; [done|apply pre_0].
  - destruct k as [|k], k' as [|k']; try done. destruct (S_user v k t H2 ltac:(lia) Hn) as (W & T & _).
    destruct (S_user v' k' t H2' ltac:(lia) Hn') as (W' & T' & _). pose proof (idx_range 0 v). pose proof (idx_range 0 v').
    unfold user_half in H2, H2'. assert (Ei : idx 0 v = idx 0 v') by (apply (cl_apart _ _ _ _ _ _ _ C _ _ t); (done || lia)).
    rewrite <-Ei in W'. destruct (walk_tree (words m') 3 _ v v' k k' t (cl_tree _ _ _ _ _ _ _ C (idx 0 v) ltac:(lia))) as [-> Hi];
      [lia|lia|done|done|]. split; [done|]. apply pre_indices; [lia|]. intros [|i] Hii; [done|]. apply (Hi i). lia.
  - by apply (sp_tree m src (fk_space _ _ Fk) k v t k' v').
Qed.

Lemma S_space : space m' f.
Proof.
  split.
  - intros k v t Hk Hn. destruct (S_node k v t Hk Hn) as [[_ ->]|[(_ & _ & H1 & _ & _ & H2)|(_ & _ & _ & H1 & H2)]]; [|done|].
    + split; [done|]. rewrite (cl_refs _ _ _ _ _ _ _ C f Hf).
      * assert (0 <= held_by (words m') 3 (Z.to_nat 256) f f) by (apply zsum_nonneg; intros; apply held_nonneg).
        cbn [m0 frames]. rewrite Hp, decide_True by done. lia.
      * apply (refs_managed (ready := ready)); [done|done|]. cbn [m0 frames]. rewrite Hp, decide_True by done. lia.
    + split; [done|]. by apply S_settled.
  - apply S_tree.
  - intros k v t Hk Hn. destruct k as [|k]; [injection Hn as <-; apply S_root_entry|]. destruct (decide (user_half v)) as [Hv|Hv].
    + destruct (S_user v k t Hv ltac:(lia) Hn) as (W & _).
      destruct (copy_walk (words m0) (words m') k 3 _ _ v t ltac:(lia) (S_copy v Hv) (S_small v Hv) W) as (t0 & _ & Hc & _).
      apply (copy_absent _ _ _ _ _ Hc).
    + rewrite (proj2 (S_kernel v Hv) k) in Hn by lia.
      destruct (settled_space m m' src S_settled (fk_space _ _ Fk)) as (Hs & Hns & _).
      apply (sp_zero m' src Hs (S k) v t Hk). rewrite Hns; [done|lia].
  - intros v. apply S_root_entry.
  - apply S_settled.
Qed.

Lemma S_mmu v : mmu m' f v = mmu m src v.
Proof.
  destruct (decide (user_half v)) as [Hv|Hv]; [|by apply S_kernel]. transitivity (mmu m0 src v).
  - apply (copy_mmu m0 m' 3 src f v); [lia|by apply S_copy|by apply S_small].
  - apply mmu_agree. intros k t Hk Hn. destruct (sp_frame m src (fk_space _ _ Fk) k v t Hk Hn) as [H1 H2].
    apply (R_old t); [done|done|]. apply frame_entry; [done|apply idx_range].
Qed.

(** No user table is shared, with any address space that was there before. *)
Lemma S_apart r : space m r → r = src ∨ apart m r src → apart m' f r ∧ apart m' r f.
Proof.
  intros Hs Hr. destruct (settled_space m m' r S_settled Hs) as (_ & Hn & _).
  assert (Hold : ∀ k v t, (k <= 3)%nat → node m' r k v = Some t → frame_ok t ∧ 0 < refs (frames m) t).
  { intros k v t Hk. rewrite Hn by done. by apply Hs. }
  split; intros v k t k' v' Hv Hk Hk' H1 H2.
  - apply Hold in H2 as [H2 H3]; [|done]. destruct (S_node k v t Hk H1) as [[_ ->]|[(_ & _ & _ & H4 & _)|(_ & H4 & _)]]; [lia|lia|done].
  - destruct (Hold k v t Hk H1) as [H3 H4]. destruct (S_node k' v' t Hk' H2) as [[_ ->]|[(_ & _ & _ & H5 & _)|(H6 & H7 & H5 & _)]]; [lia|lia|].
    rewrite Hn in H1 by done. destruct Hr as [->|Ha]; [|by apply (Ha v k t k' v')].
    destruct (sp_tree m src Hs k v t k' v' Hk Hk' H1 H5) as [E Hpre]. subst k'. destruct k as [|j]; [done|]. apply H7. clear -Hpre Hv Hk.
    induction j as [|j IH]; apply pre_S_inj in Hpre as [Hpre Hi]; try lia; [unfold user_half in *; lia|]. apply IH; [lia|done].
Qed.

(** Every page of the original is write-protected, unless it is shared memory, and copied. *)
Lemma S_pages v e :
  user_half v → page_entry m src v = Some e → present e = true →
  page_entry m' src v = Some (protect e) ∧ page_entry m' f v = Some (leaf_copy e).
Proof.
  intros Hv He Hpe. unfold page_entry in He. destruct (node m src 3 v) as [t|] eqn:Hn; [|done]. injection He as <-.
  pose proof (fk_space _ _ Fk) as Hs. destruct (settled_space m m' src S_settled Hs) as (_ & Hns & _).
  destruct (sp_frame m src Hs 3 v t ltac:(lia) Hn) as [Ht1 Ht2]. pose proof (idx_range 3 v) as Hi3. pose proof (idx_range 0 v). pose proof Hv as Hv'.
  unfold user_half in Hv'. split.
  - unfold page_entry. rewrite Hns, Hn by lia. cbn [mbind option_bind]. f_equal.
    assert (Hro : ro (entry m t (idx 3 v)) (entry m' t (idx 3 v))) by (by apply S_settled).
    rewrite <-Hns, node_walk in Hn by lia.
    pose proof (protected_walk (words m') 2 3 _ v t ltac:(lia) (cl_prot _ _ _ _ _ _ _ C (idx 0 v) ltac:(lia)) Hn) as Hq.
    rewrite <-(present_ro _ _ Hro) in Hpe. specialize (Hq Hpe). change (4 - 3 + 2)%nat with 3%nat in Hq. fold (entry m' t (idx 3 v)) in Hq.
    destruct Hro as [E|E]; rewrite E in *; done.
  - assert (Hn0 : node m0 src 3 v = Some t).
    { rewrite <-Hn. apply node_agree. intros k u Hk Hu. destruct (sp_frame m src Hs k v u ltac:(lia) Hu) as [H1 H2].
      apply (R_old u); [done|done|]. apply frame_entry; [done|apply idx_range]. }
    rewrite node_walk in Hn0 by lia. destruct (copy_walk_down _ _ 2 3 _ _ v t ltac:(lia) (S_copy v Hv) Hn0) as [t' Hw].
    destruct (copy_walk _ _ 2 3 _ _ v t' ltac:(lia) (S_copy v Hv) (S_small v Hv) Hw) as (t0 & Hw0 & Hc & _).
    unfold entry in Hn0. rewrite Hn0 in Hw0. injection Hw0 as <-. unfold page_entry. rewrite node_walk by lia.
    change (entry m' f (idx 0 v)) with (words m' (f + 8 * idx 0 v)). rewrite Hw.
    cbn [mbind option_bind]. f_equal. change (4 - 3 + 2)%nat with 3%nat in Hc. change (3 - 1 - 2)%nat with 0%nat in Hc. cbn [copy_at] in Hc.
    rewrite (R_old t) in Hc by (done || by apply frame_entry). change (words m (t + 8 * idx 3 v)) with (entry m t (idx 3 v)) in Hc. by rewrite Hpe in Hc.
Qed.

(** Every page of the original has one more reference per mapping. *)
Lemma S_refs x : frame_ok x → 0 < refs (frames m) x → refs (frames m') x = refs (frames m) x + pages_by (words m) 3 256 src x.
Proof.
  intros Hx Hr. destruct (R_pos x Hx Hr) as [Hr0 Hne]. rewrite (cl_refs _ _ _ _ _ _ _ C x Hx) by (by apply (refs_managed (ready := ready))).
  cbn [m0 frames]. rewrite Hp, decide_False by done. f_equal. change (Z.to_nat 256) with 256%nat. apply zsum_ext. intros i Hi.
  rewrite (cl_held _ _ _ _ _ _ _ C i x) by (done || lia). apply R_pages. lia.
Qed.
End done.
End run.

(** What a successful clone has made of memory: the new root [f] is a copy of [src]. *)
Record forked m m' src f : Prop := {
  fd_ready : ready (frames m');
  fd_new : frame_ok f ∧ refs (frames m) f = 0;
  fd_space : space m' f;
  fd_mmu v : mmu m' f v = mmu m src v;
  fd_kept r :
    space m r → space m' r ∧ (∀ v, mmu m' r v = mmu m r v) ∧ (r = src ∨ apart m r src → apart m' f r ∧ apart m' r f);
  fd_pages v e :
    user_half v → page_entry m src v = Some e → present e = true →
    page_entry m' src v = Some (protect e) ∧ page_entry m' f v = Some (leaf_copy e);
  fd_refs x : frame_ok x → 0 < refs (frames m) x → refs (frames m') x = refs (frames m) x + pages_by (words m) 3 256 src x;
  fd_words x a :
    frame_ok x → 0 < refs (frames m) x → ¬ source (words m) 3 256 src x → x <= a < x + 4096 → words m' a = words m a
}.

(** A clone that was given up: every reference count and every translation is as before. *)
Record unforked m m' : Prop := {
  uf_ready : ready (frames m');
  uf_kept r : space m r → space m' r ∧ ∀ v, mmu m' r v = mmu m r v;
  uf_refs x : frame_ok x → refs (frames m') x = refs (frames m) x
}.

Lemma settled_unforked m m' : ready (frames m') → settled m m' → (∀ x, frame_ok x → refs (frames m') x = refs (frames m) x) → unforked m m'.
Proof. intros Hr Hse Hx. split; [done| |done]. intros r Hs. by destruct (settled_space m m' r Hse Hs) as (? & _ & ?). Qed.

Lemma clone_spec m g src :
  forkable m src → space m g →
  ∃ f m', vmm_clone_address_space g src m = Ok (f, m') ∧
    ((f = 0 ∧ unforked m m') ∨
     (forked m m' src f ∧
      ∃ m'', vmm_free_address_space g f m' = Ok m'' ∧ words m'' = words m' ∧ unforked m m'')).
Proof.
  intros Fk Hsg. pose proof (fk_space _ _ Fk) as Hs. pose proof (fk_ready _ _ Fk) as Hr.
  destruct (sp_frame m src Hs 0 0 src ltac:(lia) eq_refl) as [[Hs1 Hs2] Hs3].
  destruct (sp_frame m g Hsg 0 0 g ltac:(lia) eq_refl) as [_ Hg]. unfold vmm_clone_address_space.
  destruct (Z.eqb_spec src 0); [lia|]. destruct (alloc_frame_spec (frames m) Hr) as (f & p & Ea & Rp & Hc).
  pose proof (alloc_frame_managed (frames m) f p Hr Ea) as Hpm. step_with Ea. cbv iota.
  destruct Hc as [[-> Hp]|(Hf & Hfree & Hp)].
  { eexists 0, _. split; [done|]. left. split; [done|]. apply settled_unforked; [done| |done]. split; [intros a; apply Hs|].
    intros u Hu Hru. split; [cbn [frames]; by rewrite Hp|]. intros. apply ro_refl. }
  assert (Hfg : f ≠ g) by (intros ->; lia). destruct (Z.eqb_spec f 0); [destruct Hf; lia|]. cbv zeta.
  destruct (R_loop m src f p Fk Hf Hfree Rp Hpm Hp g Hfg) as (ok & m' & E & Ho). step_with E. cbv iota. destruct ok.
  - assert (Hse : settled m m') by (by apply (S_settled m src f p)).
    exists f, m'. split; [done|]. right. split.
    + split; [apply (cl_ev _ _ _ _ _ _ _ Ho)|done|by apply (S_space m src f p)|by apply (S_mmu m src f p)| | | |].
      * intros r Hsr. destruct (settled_space m m' r Hse Hsr) as (H1 & _ & H2).
        split; [done|]. split; [done|]. by apply (S_apart m src f p).
      * by apply (S_pages m src f p).
      * by apply (S_refs m src f p).
      * intros x a Hx Hrx Hns Ha. destruct (R_pos m src f p Hfree Hp x Hx Hrx) as [Hr0 Hne].
        rewrite (ev_same _ _ _ _ (cl_ev _ _ _ _ _ _ _ Ho) x a) by (done || rewrite R_source by done; done). by apply (R_old m src f p Hf Hfree x).
    + destruct (R_free m src f p Fk Hf Hfree Rp Hpm Hp g Hfg m' 256 Ho ltac:(lia)) as (p' & E' & R' & M' & F').
      eexists. split; [exact E'|]. split; [done|]. destruct Hse as [Hrg Hse].
      apply settled_unforked; [done| |done]. split; [done|]. intros u Hu Hru. split; [cbn [frames]; by rewrite F'|by apply Hse].
  - eexists 0, m'. split; [done|]. left. split; [done|]. destruct Ho as [Ev Hrefs].
    assert (Hrx : ∀ x, frame_ok x → refs (frames m') x = refs (frames m) x).
    { intros x Hx. destruct (is_managed p x) eqn:Hm.
      - rewrite Hrefs by done. cbn [frames]. rewrite Hp by done. case_decide; [subst x|]; lia.
      - rewrite !unmanaged_refs; try done; [congruence|apply Ev|]. rewrite (ev_managed _ _ _ _ Ev). done. }
    apply settled_unforked; [apply Ev| |done]. split; [apply Ev|]. intros u Hu Hru. split; [by rewrite Hrx|]. intros i Hi.
    destruct (R_pos m src f p Hfree Hp u Hu Hru) as [Hr0 Hne].
    rewrite <-(R_old m src f p Hf Hfree u) by (done || by apply frame_entry). by apply (ev_ro _ _ _ _ Ev).
Qed.
End fork.

(** * Properties *)



(** ** Witnesses: a process with one page, at address 0 *)

Definition fork_frames : Pmm := frames_after (frames_after (frames_after sample_frames)).
Definition fork_words (a : Z) : Z :=
  if a =? 0x2000 then 0x3007 else if a =? 0x3000 then 0x4007 else if a =? 0x4000 then 0x5007 else if a =? 0x5000 then 0x6007 else 0.
Definition fork_phys : Phys Pmm := mkPhys fork_frames fork_words.
Definition fork_table (k : nat) : Z := 0x2000 + 0x1000 * Z.of_nat k.

Lemma fork_frames_spec :
  pmm_ready fork_frames ∧ ∀ k, (k <= 4)%nat → frame_ok (fork_table k) ∧ refs fork_frames (fork_table k) = 1.
Proof.
  destruct sample_frames_spec as (R0 & E1 & E2).
  destruct (frames_after_spec sample_frames 0x4000 R0) as [R1 F1]; [vm_compute; reflexivity|done|].
  destruct (frames_after_spec (frames_after sample_frames) 0x5000 R1) as [R2 F2]; [vm_compute; reflexivity|done|].
  destruct (frames_after_spec (frames_after (frames_after sample_frames)) 0x6000 R2) as [R3 F3]; [vm_compute; reflexivity|done|].
  split; [exact R3|]. intros k Hk.
  assert (Hok : frame_ok (fork_table k)) by (unfold fork_table; split; [lia|]; rewrite <-(Z.mul_1_l 4096); lia).
  split; [done|]. unfold fork_frames. rewrite F3, F2, F1 by done. clear F1 F2 F3 R1 R2 R3. unfold fork_table.
  destruct k as [|[|[|[|[|k]]]]]; [..|lia].
  - rewrite !decide_False by lia. exact E1.
  - rewrite !decide_False by lia. exact E2.
  - rewrite !decide_False by lia. apply decide_True. lia.
  - rewrite decide_False by lia. apply decide_True. lia.
  - apply decide_True. lia.
Qed.

#[local] Opaque fork_frames.

Lemma fork_entry k i : (k <= 3)%nat → 0 <= i < 512 → fork_words (fork_table k + 8 * i) = if i =? 0 then fork_table (S k) + 7 else 0.
Proof.
  intros Hk Hi. unfold fork_words, fork_table. destruct (Z.eqb_spec i 0) as [->|Hne].
  - by destruct k as [|[|[|[|k]]]]; try lia.
  - repeat (case_match; [lia|]). done.
Qed.

Lemma fork_bits k : (k <= 4)%nat →
  present (fork_table k + 7) = true ∧ has (fork_table k + 7) PTE_HUGE = false ∧ paddr (fork_table k + 7) = fork_table k.
Proof. intros Hk. destruct k as [|[|[|[|[|k]]]]]; [..|lia]; (split; [|split]); reflexivity. Qed.

Lemma fork_node k v t : (k <= 3)%nat → node fork_phys 0x2000 k v = Some t → t = fork_table k ∧ ∀ j, (j < k)%nat → idx j v = 0.
Proof.
  revert t. induction k as [|k IH]; intros t Hk Hn; [injection Hn as <-; split; [done|intros; lia]|]. cbn [node] in Hn.
  destruct (node fork_phys 0x2000 k v) as [t0|]; [|done]. destruct (IH t0 ltac:(lia) eq_refl) as [-> Hi]. cbn [mbind option_bind] in Hn.
  unfold entry in Hn. cbn [fork_phys words] in Hn. rewrite fork_entry in Hn by (lia || apply idx_range).
  destruct (fork_bits (S k) ltac:(lia)) as (B1 & B2 & B3). unfold present in B1. destruct (Z.eqb_spec (idx k v) 0) as [E|]; [|done].
  rewrite B1, B2 in Hn. injection Hn as <-. split; [exact B3|]. intros j Hj. destruct (decide (j = k)) as [->|]; [done|]. apply Hi. lia.
Qed.

Lemma fork_space : space fork_phys 0x2000.
Proof.
  destruct fork_frames_spec as [_ HF]. split.
  - intros k v t Hk Hn. apply fork_node in Hn as [-> _]; [|done]. destruct (HF k ltac:(lia)) as [H1 H2]. split; [exact H1|].
    change (frames fork_phys) with fork_frames. rewrite H2. lia.
  - intros k v t k' v' Hk Hk' [-> Hi]%fork_node [E Hi']%fork_node; try done. unfold fork_table in E. assert (k = k') as <- by lia.
    split; [done|]. destruct k as [|k]; [apply pre_0|]. apply pre_indices; [lia|]. intros i Hii. rewrite Hi, Hi' by lia. done.
  - intros k v t Hk [-> _]%fork_node; [|lia]. unfold entry. cbn [fork_phys words]. rewrite fork_entry by (lia || apply idx_range).
    destruct (idx k v =? 0); [|done]. by rewrite (proj1 (fork_bits (S k) ltac:(lia)) : has _ PTE_PRESENT = _).
  - intros v. unfold entry. cbn [fork_phys words]. rewrite (fork_entry 0) by (lia || apply idx_range). by destruct (idx 0 v =? 0).
  - intros a. unfold fork_phys, fork_words. cbn [words]. repeat case_match; lia.
Qed.

Lemma zsum_first n f : (∀ i, 0 < i < Z.of_nat n → f i = 0) → (0 < n)%nat → zsum n f = f 0.
Proof.
  induction n as [|n IH]; intros Hz Hn; [lia|]. rewrite zsum_S. destruct n as [|n]; [done|].
  rewrite IH, (Hz (Z.of_nat (S n))) by (lia || (intros; apply Hz; lia)). lia.
Qed.

Lemma fork_below l : ∀ i x, (l <= 3)%nat → 0 <= i < 512 →
  small_at fork_words l (fork_words (fork_table (3 - l) + 8 * i)) ∧
  pages_at fork_words l (fork_words (fork_table (3 - l) + 8 * i)) x = if decide (i = 0 ∧ x = 0x6000) then 1 else 0.
Proof.
  induction l as [|l IH]; intros i x Hl Hi; rewrite fork_entry by lia; (destruct (Z.eqb_spec i 0) as [->|Hne];
    [|rewrite decide_False by (by intros [? _]); by split]); destruct (fork_bits (S (3 - 0)) ltac:(lia)) as (B1 & B2 & B3).
  - split; [done|]. cbn [pages_at]. rewrite B1, is_at_eq, B3. change (fork_table (S (3 - 0))) with 0x6000.
    destruct (decide (x = 0x6000)); [by rewrite decide_True|]. by rewrite decide_False by (by intros [_ ?]).
  - clear B1 B2 B3. destruct (fork_bits (S (3 - S l)) ltac:(lia)) as (B1 & B2 & B3). cbn [small_at pages_at]. rewrite B1, B2, B3.
    replace (S (3 - S l)) with (3 - l)%nat by lia. split.
    + intros _. split; [done|]. intros j Hj. by apply (IH j 0); [lia|].
    + rewrite zsum_first; [|intros j Hj; rewrite (proj2 (IH j x ltac:(lia) ltac:(lia))); apply decide_False; lia|lia].
      rewrite (proj2 (IH 0 x ltac:(lia) ltac:(lia))). done.
Qed.

Lemma fork_forkable : forkable (ready := pmm_ready) fork_phys 0x2000.
Proof.
  destruct fork_frames_spec as [HR HF]. pose proof (fork_below 3) as HB. change (fork_table (3 - 3)) with 0x2000 in HB. split.
  - apply fork_space.
  - exact HR.
  - intros i Hi. apply (HB i 0); lia.
  - intros i x Hi. unfold entry. cbn [fork_phys words]. rewrite (proj2 (HB i x ltac:(lia) ltac:(lia))). intros Hpos _.
    case_decide as Hc; [|lia]. destruct Hc as [_ ->]. change 0x6000 with (fork_table 4). destruct (HF 4%nat ltac:(lia)) as [H1 H2].
    split; [exact H1|]. change (frames fork_phys) with fork_frames. rewrite H2. lia.
  - intros x Hx Hr. change (frames fork_phys) with fork_frames in *. unfold pages_by. cbn [fork_phys words].
    rewrite zsum_first; [|intros j Hj; rewrite (proj2 (HB j x ltac:(lia) ltac:(lia))); apply decide_False; lia|lia].
    rewrite (proj2 (HB 0 x ltac:(lia) ltac:(lia))). case_decide as Hc.
    + destruct Hc as [_ ->]. change 0x6000 with (fork_table 4). rewrite (proj2 (HF 4%nat ltac:(lia))). lia.
    + pose proof (refs_max (ready := pmm_ready) fork_frames x HR). lia.
Qed.


