(* ===== verification/Pipe.v ===== *)
(** Kernel pipes (src/fs/pipe.cpp): eight ring buffers with blocking readers and
    writers. A call runs the loop body under the pipe's lock until it completes or
    puts its process to sleep on a wait queue; [pipe_step] interleaves the passes
    of any number of processes. *)

From S2P Require Import Prelude Ring.

(** * Model *)

Definition PIPE_BUFFER_SIZE : Z := 4096.
Definition MAX_PIPES : nat := 8.
Definition EPOLLIN : Z := 1.
Definition EPOLLOUT : Z := 2.
Definition EPOLLERR : Z := 4.
Definition EPOLLHUP : Z := 8.

(** Wait queues are the process ids that sleep on them, in arrival order. *)
Record Pipe := mkPipe {
  in_use : bool;
  buffer : list Z;
  read_pos : Z;
  write_pos : Z;
  count : Z;
  write_closed : bool;
  read_closed : bool;
  data_wait : list Z;
  space_wait : list Z
}.

(** What one pass of a blocking call did: complete with a value, or sleep. *)
Inductive pass (A : Type) := Returns (a : A) | Sleeps.
Arguments Returns {A} a.
Arguments Sleeps {A}.

(** Reset of a slot by [pipe_create]; the buffer keeps its old bytes. *)
Definition pipe_reset (p : Pipe) : Pipe := mkPipe true (buffer p) 0 0 0 false false [] [].

Fixpoint pipe_create (ps : list Pipe) (i : Z) : Z * list Pipe :=
  match ps with
  | [] => (-1, [])
  | p :: ps' =>
      if in_use p then let '(r, ps'') := pipe_create ps' (i + 1) in (r, p :: ps'')
      else (i, pipe_reset p :: ps')
  end.

(** The copy loops: bytes out of, and into, the ring. *)
Definition ring_read (buf : list Z) (rp : Z) (n : Z) : res (list Z * Z) :=
  for_upto (Z.to_nat n) 0
    (λ _ '(out, rp), x ← arr_get buf rp; Ok (out ++ [x], (rp + 1) mod PIPE_BUFFER_SIZE)) ([], rp).

Definition ring_write (buf : list Z) (wp : Z) (data : list Z) (n : Z) : res (list Z * Z) :=
  for_upto (Z.to_nat n) 0
    (λ i '(buf, wp), x ← arr_get data i; buf' ← arr_set buf wp (u8 x);
       Ok (buf', (wp + 1) mod PIPE_BUFFER_SIZE)) (buf, wp).

(** One pass of the loop of [pipe_read] for process [pid]; completing wakes every
    writer that waits for space. *)
Definition pipe_read_pass (p : Pipe) (pid : Z) (n : Z) : res (pass (Z * list Z) * Pipe) :=
  if 0 <? count p then
    let to_read := if n <? count p then n else count p in
    '(out, rp) ← ring_read (buffer p) (read_pos p) to_read;
    Ok (Returns (to_read, out),
        mkPipe (in_use p) (buffer p) rp (write_pos p) (u64 (count p - to_read))
          (write_closed p) (read_closed p) (data_wait p) [])
  else if write_closed p then Ok (Returns (0, []), p)
  else Ok (Sleeps, mkPipe (in_use p) (buffer p) (read_pos p) (write_pos p) (count p)
             (write_closed p) (read_closed p) (data_wait p ++ [pid]) (space_wait p)).

Definition pipe_write_pass (p : Pipe) (pid : Z) (data : list Z) (n : Z) : res (pass Z * Pipe) :=
  if read_closed p then Ok (Returns (-1), p)
  else
    let space := u64 (PIPE_BUFFER_SIZE - count p) in
    if 0 <? space then
      let to_write := if n <? space then n else space in
      '(buf, wp) ← ring_write (buffer p) (write_pos p) data to_write;
      Ok (Returns to_write,
          mkPipe (in_use p) buf (read_pos p) wp (u64 (count p + to_write))
            (write_closed p) (read_closed p) [] (space_wait p))
    else Ok (Sleeps, mkPipe (in_use p) (buffer p) (read_pos p) (write_pos p) (count p)
               (write_closed p) (read_closed p) (data_wait p) (space_wait p ++ [pid])).

(** The checks that [pipe_read] and [pipe_write] make before they lock the pipe. *)
Definition pipe_enter (ps : list Pipe) (pipe_id : Z) : option Pipe :=
  if (pipe_id <? 0) || (Z.of_nat MAX_PIPES <=? pipe_id) then None
  else match ps !! Z.to_nat pipe_id with
       | Some p => if in_use p then Some p else None
       | None => None
       end.

Definition pipe_close_read (p : Pipe) : Pipe :=
  mkPipe (if write_closed p then false else in_use p) (buffer p) (read_pos p) (write_pos p) (count p)
    (write_closed p) true (data_wait p) [].

Definition pipe_close_write (p : Pipe) : Pipe :=
  mkPipe (if read_closed p then false else in_use p) (buffer p) (read_pos p) (write_pos p) (count p)
    true (read_closed p) [] (space_wait p).

(** [pipe_is_ready] on an end of a pipe in use: the events that occurred, if any
    of those asked for. *)
Definition pipe_is_ready (p : Pipe) (is_write : bool) (events : Z) : option Z :=
  let occurred :=
    if is_write then
      let o := if (0 <? u64 (PIPE_BUFFER_SIZE - count p)) && negb (read_closed p) then EPOLLOUT else 0 in
      if read_closed p then Z.lor o (Z.lor EPOLLERR EPOLLHUP) else o
    else
      let o := if 0 <? count p then EPOLLIN else 0 in
      if write_closed p then Z.lor o (Z.lor EPOLLIN EPOLLHUP) else o in
  let active := Z.land occurred events in
  if active =? 0 then None else Some active.

(** ** Processes that share the pipes *)

Inductive call := CRead (pipe_id : nat) (n : Z) | CWrite (pipe_id : nat) (data : list Z) (n : Z).

(** The pipes, the calls in progress by process id, and a history of the bytes
    that entered and left each pipe since its creation. *)
Record Sys := mkSys {
  pipes : list Pipe;
  calls : gmap Z call;
  written : nat → list Z;
  taken : nat → list Z
}.

Definition log (f : nat → list Z) (i : nat) (l : list Z) : nat → list Z :=
  λ j, if decide (j = i) then f j ++ l else f j.
Definition clear_log (f : nat → list Z) (i : nat) : nat → list Z :=
  λ j, if decide (j = i) then [] else f j.

Definition asleep (ps : list Pipe) (pid : Z) : Prop :=
  ∃ i p, ps !! i = Some p ∧ (pid ∈ data_wait p ∨ pid ∈ space_wait p).

Inductive pipe_step : Sys → Sys → Prop :=
| step_create s r ps :
    pipe_create (pipes s) 0 = (r, ps) → 0 <= r →
    pipe_step s (mkSys ps (calls s) (clear_log (written s) (Z.to_nat r)) (clear_log (taken s) (Z.to_nat r)))
| step_close_read s i p :
    pipes s !! i = Some p →
    pipe_step s (mkSys (<[i := pipe_close_read p]> (pipes s)) (calls s) (written s) (taken s))
| step_close_write s i p :
    pipes s !! i = Some p →
    pipe_step s (mkSys (<[i := pipe_close_write p]> (pipes s)) (calls s) (written s) (taken s))
| step_call_read s pid i n p :
    calls s !! pid = None → pipe_enter (pipes s) (Z.of_nat i) = Some p → 0 <= n < 2 ^ 64 →
    pipe_step s (mkSys (pipes s) (<[pid := CRead i n]> (calls s)) (written s) (taken s))
| step_call_write s pid i data n p :
    calls s !! pid = None → pipe_enter (pipes s) (Z.of_nat i) = Some p → 0 <= n < 2 ^ 64 →
    bytes data → n <= Z.of_nat (length data) →
    pipe_step s (mkSys (pipes s) (<[pid := CWrite i data n]> (calls s)) (written s) (taken s))
| step_read_done s pid i n p r out p' :
    calls s !! pid = Some (CRead i n) → ¬ asleep (pipes s) pid → pipes s !! i = Some p →
    pipe_read_pass p pid n = Ok (Returns (r, out), p') →
    pipe_step s (mkSys (<[i := p']> (pipes s)) (delete pid (calls s)) (written s) (log (taken s) i out))
| step_read_sleep s pid i n p p' :
    calls s !! pid = Some (CRead i n) → ¬ asleep (pipes s) pid → pipes s !! i = Some p →
    pipe_read_pass p pid n = Ok (Sleeps, p') →
    pipe_step s (mkSys (<[i := p']> (pipes s)) (calls s) (written s) (taken s))
| step_write_done s pid i data n p r p' :
    calls s !! pid = Some (CWrite i data n) → ¬ asleep (pipes s) pid → pipes s !! i = Some p →
    pipe_write_pass p pid data n = Ok (Returns r, p') →
    pipe_step s (mkSys (<[i := p']> (pipes s)) (delete pid (calls s))
                   (log (written s) i (take (Z.to_nat r) data)) (taken s))
| step_write_sleep s pid i data n p p' :
    calls s !! pid = Some (CWrite i data n) → ¬ asleep (pipes s) pid → pipes s !! i = Some p →
    pipe_write_pass p pid data n = Ok (Sleeps, p') →
    pipe_step s (mkSys (<[i := p']> (pipes s)) (calls s) (written s) (taken s)).

(** Static storage, zero-initialised; [pipe_init] marks every slot free. *)
Definition pipe_init : list Pipe :=
  replicate MAX_PIPES (mkPipe false (replicate 4096 0) 0 0 0 false false [] []).
Definition sys0 : Sys := mkSys pipe_init ∅ (λ _, []) (λ _, []).

Inductive reachable : Sys → Prop :=
| reach_init : reachable sys0
| reach_next s s' : reachable s → pipe_step s s' → reachable s'.

(** * Specification *)

(** The bytes in a pipe, oldest first. *)
Definition contents (p : Pipe) : list Z :=
  ring_items 0 (buffer p) (read_pos p) (Z.to_nat (count p)).

(** The ring is consistent, and nobody sleeps for data while there is some (or
    while no more can come), nor for space while there is some (or no reader). *)
Record pipe_wf (p : Pipe) : Prop := {
  wf_len : Z.of_nat (length (buffer p)) = PIPE_BUFFER_SIZE;
  wf_rp : 0 <= read_pos p < PIPE_BUFFER_SIZE;
  wf_count : 0 <= count p <= PIPE_BUFFER_SIZE;
  wf_wp : write_pos p = (read_pos p + count p) mod PIPE_BUFFER_SIZE;
  wf_readers : data_wait p ≠ [] → count p = 0 ∧ write_closed p = false;
  wf_writers : space_wait p ≠ [] → count p = PIPE_BUFFER_SIZE ∧ read_closed p = false
}.

(** * Lemmas *)

Lemma ring_read_spec buf rp n :
  Z.of_nat (length buf) = PIPE_BUFFER_SIZE → 0 <= rp < PIPE_BUFFER_SIZE → 0 <= n →
  ring_read buf rp n = Ok (ring_items 0 buf rp (Z.to_nat n), (rp + n) mod PIPE_BUFFER_SIZE).
Proof.
  intros Hl Hrp Hn. unfold PIPE_BUFFER_SIZE in *. unfold ring_read.
  destruct (for_upto_rule (λ i '(out, r), out = ring_items 0 buf rp (Z.to_nat i) ∧ r = (rp + i) mod 4096)
    (λ _ '(out, rp), x ← arr_get buf rp; Ok (out ++ [x], (rp + 1) mod PIPE_BUFFER_SIZE))
    (Z.to_nat n) 0 ([], rp)) as ([out r] & E & H1 & H2).
  2: { split; [done|]. rewrite Z.add_0_r. by rewrite Z.mod_small by lia. }
  - intros i [out r] Hi [-> ->]. pose proof (Z.mod_pos_bound (rp + i) 4096 ltac:(lia)).
    rewrite (arr_get_in _ _ 0) by lia. simpl. eexists. split; [done|]. simpl. split.
    + replace (Z.to_nat (i + 1)) with (Z.to_nat i + 1)%nat by lia.
      rewrite ring_items_app by lia. f_equal. unfold ring_items. simpl.
      by rewrite Z2Nat.id, Z.add_0_r, Hl by lia.
    + unfold PIPE_BUFFER_SIZE. rewrite Z.add_mod_idemp_l by lia. f_equal. lia.
  - rewrite E. by rewrite H1, H2, Z2Nat.id, Z.add_0_l by lia.
Qed.

Lemma ring_write_spec buf rp cnt data n :
  Z.of_nat (length buf) = PIPE_BUFFER_SIZE → 0 <= rp < PIPE_BUFFER_SIZE → bytes data →
  0 <= n <= Z.of_nat (length data) → 0 <= cnt → cnt + n <= PIPE_BUFFER_SIZE →
  ∃ buf', ring_write buf ((rp + cnt) mod PIPE_BUFFER_SIZE) data n
          = Ok (buf', (rp + (cnt + n)) mod PIPE_BUFFER_SIZE) ∧
    length buf' = length buf ∧
    ring_items 0 buf' rp (Z.to_nat (cnt + n)) =
      ring_items 0 buf rp (Z.to_nat cnt) ++ take (Z.to_nat n) data.
Proof.
  intros Hl Hrp Hd Hn Hc Hcn. unfold PIPE_BUFFER_SIZE in *. unfold ring_write.
  destruct (for_upto_rule (λ i '(b, w), length b = length buf ∧ w = (rp + (cnt + i)) mod 4096 ∧
      ring_items 0 b rp (Z.to_nat (cnt + i)) =
        ring_items 0 buf rp (Z.to_nat cnt) ++ take (Z.to_nat i) data)
    (λ i '(buf, wp), x ← arr_get data i; buf' ← arr_set buf wp (u8 x);
       Ok (buf', (wp + 1) mod PIPE_BUFFER_SIZE))
    (Z.to_nat n) 0 (buf, (rp + cnt) mod 4096)) as ([b w] & E & H1 & H2 & H3).
  2: { by rewrite Z.add_0_r, app_nil_r. }
  - intros i [b w] Hi (Hb & -> & Hit). pose proof (Z.mod_pos_bound (rp + (cnt + i)) 4096 ltac:(lia)).
    rewrite (arr_get_in _ _ 0) by lia. simpl. rewrite arr_set_in by lia. simpl.
    pose proof (nth_bytes data (Z.to_nat i) Hd) as Hx. rewrite u8_small by done.
    eexists. split; [done|]. simpl. rewrite length_insert. split; [done|]. split.
    + unfold PIPE_BUFFER_SIZE. rewrite Z.add_mod_idemp_l by lia. f_equal. lia.
    + replace (Z.to_nat (cnt + (i + 1))) with (S (Z.to_nat (cnt + i))) by lia.
      pose proof (ring_items_push 0 b rp (Z.to_nat (cnt + i)) (nth (Z.to_nat i) data 0)) as Hp.
      rewrite Hb, Hl, Z2Nat.id in Hp by lia. rewrite Hp, Hit by lia.
      rewrite <-app_assoc. f_equal. replace (Z.to_nat (i + 1)) with (S (Z.to_nat i)) by lia.
      rewrite (take_S_r _ _ (nth (Z.to_nat i) data 0)); [done|].
      apply lookup_nth_in. lia.
  - exists b. rewrite Z2Nat.id, Z.add_0_l in * by lia. unfold PIPE_BUFFER_SIZE in *.
    split; [by rewrite E, H2|]. split; [done|]. by rewrite H3.
Qed.

Lemma pipe_read_pass_spec p pid n :
  pipe_wf p → 0 <= n < 2 ^ 64 →
  ∃ r p', pipe_read_pass p pid n = Ok (r, p') ∧ pipe_wf p' ∧
    match r with
    | Returns (k, out) =>
        contents p = out ++ contents p' ∧ k = Z.of_nat (length out) ∧
        ((0 < count p ∧ k = Z.min n (count p)) ∨ (count p = 0 ∧ write_closed p = true ∧ k = 0))
    | Sleeps => contents p' = contents p ∧ contents p = [] ∧ write_closed p = false
    end.
Proof.
  intros Hwf Hn. pose proof Hwf as [Hl Hrp Hc Hwp Hr Hw]. unfold pipe_read_pass.
  destruct (Z.ltb_spec 0 (count p)).
  - set (k := if n <? count p then n else count p).
    assert (Hk : k = Z.min n (count p)) by (subst k; case_match; lia). clearbody k.
    rewrite ring_read_spec by (done || lia). simpl. eexists _, _. split; [done|].
    rewrite u64_small by (unfold PIPE_BUFFER_SIZE in *; lia). unfold contents. simpl.
    rewrite ring_items_length. split; [|split; [|split; [lia|left; lia]]].
    + split; simpl; try done.
      * unfold PIPE_BUFFER_SIZE. lia.
      * lia.
      * rewrite Hwp. unfold PIPE_BUFFER_SIZE. rewrite Z.add_mod_idemp_l by lia. f_equal. lia.
      * intros Hd. apply Hr in Hd. lia.
    + replace (Z.to_nat (count p)) with (Z.to_nat k + Z.to_nat (count p - k))%nat by lia.
      unfold PIPE_BUFFER_SIZE in *.
      rewrite ring_items_app by lia. f_equal.
      rewrite <-(ring_items_mod 0 _ (read_pos p + Z.of_nat (Z.to_nat k))), Hl, Z2Nat.id by lia. done.
  - assert (count p = 0) as Hc0 by lia. destruct (write_closed p) eqn:Ewc.
    + eexists _, _. split; [done|]. split; [done|]. unfold contents. rewrite Hc0.
      split; [done|]. split; [done|]. by right.
    + eexists _, _. split; [done|]. split; [|unfold contents; simpl; by rewrite Hc0].
      split; simpl; done.
Qed.

Lemma pipe_write_pass_spec p pid data n :
  pipe_wf p → 0 <= n < 2 ^ 64 → bytes data → n <= Z.of_nat (length data) →
  ∃ r p', pipe_write_pass p pid data n = Ok (r, p') ∧ pipe_wf p' ∧
    match r with
    | Returns k =>
        contents p' = contents p ++ take (Z.to_nat k) data ∧
        ((read_closed p = true ∧ k = -1) ∨
         (read_closed p = false ∧ k = Z.min n (PIPE_BUFFER_SIZE - count p)))
    | Sleeps => contents p' = contents p ∧ count p = PIPE_BUFFER_SIZE ∧ read_closed p = false
    end.
Proof.
  intros Hwf Hn Hd Hlen. pose proof Hwf as [Hl Hrp Hc Hwp Hr Hw]. unfold pipe_write_pass.
  destruct (read_closed p) eqn:Erc.
  { eexists _, _. split; [done|]. split; [done|]. rewrite app_nil_r. auto. }
  rewrite u64_small by (unfold PIPE_BUFFER_SIZE in *; lia).
  destruct (Z.ltb_spec 0 (PIPE_BUFFER_SIZE - count p)).
  - set (k := if n <? _ then n else _).
    assert (Hk : k = Z.min n (PIPE_BUFFER_SIZE - count p)) by (subst k; case_match; lia). clearbody k.
    rewrite Hwp.
    destruct (ring_write_spec (buffer p) (read_pos p) (count p) data k) as (buf' & -> & Hl' & Hit);
      [done|done|done|lia..|]. simpl.
    eexists _, _. split; [done|].
    rewrite u64_small by (unfold PIPE_BUFFER_SIZE in *; lia). unfold contents. simpl.
    split; [|split; [by rewrite Hit|auto]].
    split; simpl; try done; try lia.
  - eexists _, _. split; [done|]. split; [|split; [done|split; [lia|done]]].
    split; simpl; try done. intros _. split; [lia|done].
Qed.

(** Every pipe is well formed and holds exactly what was written and not yet read. *)
Record sys_inv (s : Sys) : Prop := {
  sys_pipes : ∀ i p, pipes s !! i = Some p →
    pipe_wf p ∧ written s i = taken s i ++ contents p;
  sys_calls : ∀ pid c, calls s !! pid = Some c →
    match c with
    | CRead _ n => 0 <= n < 2 ^ 64
    | CWrite _ data n => 0 <= n < 2 ^ 64 ∧ bytes data ∧ n <= Z.of_nat (length data)
    end
}.

Lemma pipe_create_spec ps : ∀ i r ps',
  pipe_create ps i = (r, ps') →
  (r = -1 ∧ ps' = ps ∧ Forall (λ p, in_use p = true) ps) ∨
  ∃ k p, r = i + Z.of_nat k ∧ ps !! k = Some p ∧ in_use p = false ∧ ps' = <[k := pipe_reset p]> ps.
Proof.
  induction ps as [|p ps IH]; intros i r ps'; simpl; [intros; simplify_eq; auto|].
  destruct (in_use p) eqn:Eu.
  - destruct (pipe_create ps (i + 1)) as [r0 ps0] eqn:E. intros. simplify_eq.
    destruct (IH _ _ _ E) as [(-> & -> & ?)|(k & q & -> & ? & ? & ->)]; [left; auto|right].
    exists (S k), q. split; [lia|]. done.
  - intros. simplify_eq. right. exists 0%nat, p. split; [lia|]. done.
Qed.

Lemma pipe_reset_wf p : pipe_wf p → pipe_wf (pipe_reset p) ∧ contents (pipe_reset p) = [].
Proof. intros []. split; [|done]. split; simpl; done. Qed.

Lemma pipe_close_read_wf p : pipe_wf p → pipe_wf (pipe_close_read p) ∧ contents (pipe_close_read p) = contents p.
Proof. intros []. split; [|done]. split; simpl; done. Qed.

Lemma pipe_close_write_wf p : pipe_wf p → pipe_wf (pipe_close_write p) ∧ contents (pipe_close_write p) = contents p.
Proof. intros []. split; [|done]. split; simpl; done. Qed.

(** Updating pipe [i], with its logs extended at [i] only, keeps the invariant. *)
Lemma sys_inv_update s i p p' w t cs :
  sys_inv s → pipes s !! i = Some p → pipe_wf p' → w i = t i ++ contents p' →
  (∀ j, j ≠ i → w j = written s j ∧ t j = taken s j) →
  (∀ pid c, cs !! pid = Some c → calls s !! pid = Some c) →
  sys_inv (mkSys (<[i := p']> (pipes s)) cs w t).
Proof.
  intros [H1 H2] Hp Hwf Hlog Hother Hcs.
  split; simpl; [|intros pid c Hc; by apply (H2 pid), Hcs].
  intros j q. destruct (decide (j = i)) as [->|Hne].
  - rewrite list_lookup_insert_eq by (by eapply lookup_lt_Some). by intros [= <-].
  - rewrite list_lookup_insert_ne by done. intros Hq. destruct (Hother j Hne) as [-> ->]. eauto.
Qed.

Lemma pipe_step_inv s s' : pipe_step s s' → sys_inv s → sys_inv s'.
Proof.
  intros Hstep Hinv. pose proof Hinv as [H1 H2]. destruct Hstep as
    [s r ps E Hr|s i p Hp|s i p Hp|s pid i n p Hc Hp Hn|s pid i data n p Hc Hp Hn Hd Hl
    |s pid i n p r out p' Hc Hna Hp E|s pid i n p p' Hc Hna Hp E
    |s pid i data n p r p' Hc Hna Hp E|s pid i data n p p' Hc Hna Hp E].
  - destruct (pipe_create_spec _ _ _ _ E) as [(-> & _)|(k & p & -> & Hp & _ & ->)]; [lia|].
    destruct (H1 _ _ Hp) as [Hwf _]. destruct (pipe_reset_wf p Hwf) as [? Hct].
    replace (Z.to_nat (0 + Z.of_nat k)) with k by lia.
    eapply sys_inv_update; try done; unfold clear_log.
    + by rewrite !decide_True, Hct.
    + intros j Hj. by rewrite !decide_False.
  - destruct (H1 _ _ Hp) as [Hwf Hl]. destruct (pipe_close_read_wf p Hwf) as [? Hct].
    eapply sys_inv_update; done || by rewrite Hct.
  - destruct (H1 _ _ Hp) as [Hwf Hl]. destruct (pipe_close_write_wf p Hwf) as [? Hct].
    eapply sys_inv_update; done || by rewrite Hct.
  - split; simpl; [done|]. intros pid' c. rewrite lookup_insert_Some. intros [[_ <-]|[_ Hc']]; [done|by apply (H2 pid')].
  - split; simpl; [done|]. intros pid' c. rewrite lookup_insert_Some. intros [[_ <-]|[_ Hc']]; [done|by apply (H2 pid')].
  - destruct (H1 _ _ Hp) as [Hwf Hlog]. destruct (pipe_read_pass_spec p pid n) as (? & ? & E' & Hwf' & Hr);
      [done|by apply (H2 _ _ Hc)|]. rewrite E in E'. simplify_eq. destruct Hr as (Hct & _).
    eapply sys_inv_update; try done; unfold log.
    + by rewrite decide_True, Hlog, Hct, app_assoc.
    + intros j Hj. by rewrite decide_False.
    + intros ? ?. rewrite lookup_delete_Some. tauto.
  - destruct (H1 _ _ Hp) as [Hwf Hlog]. destruct (pipe_read_pass_spec p pid n) as (? & ? & E' & Hwf' & Hr);
      [done|by apply (H2 _ _ Hc)|]. rewrite E in E'. simplify_eq. destruct Hr as (Hct & _).
    eapply sys_inv_update; done || by rewrite Hct.
  - destruct (H1 _ _ Hp) as [Hwf Hlog]. destruct (H2 _ _ Hc) as (? & ? & ?).
    destruct (pipe_write_pass_spec p pid data n) as (? & ? & E' & Hwf' & Hr); [done..|].
    rewrite E in E'. simplify_eq. destruct Hr as (Hct & _).
    eapply sys_inv_update; try done; unfold log.
    + by rewrite decide_True, Hlog, Hct, app_assoc.
    + intros j Hj. by rewrite decide_False.
    + intros ? ?. rewrite lookup_delete_Some. tauto.
  - destruct (H1 _ _ Hp) as [Hwf Hlog]. destruct (H2 _ _ Hc) as (? & ? & ?).
    destruct (pipe_write_pass_spec p pid data n) as (? & ? & E' & Hwf' & Hr); [done..|].
    rewrite E in E'. simplify_eq. destruct Hr as (Hct & _).
    eapply sys_inv_update; done || by rewrite Hct.
Qed.

Lemma sys0_inv : sys_inv sys0.
Proof.
  split; simpl; [|intros ? ?; by rewrite lookup_empty].
  intros i p Hp. unfold pipe_init in Hp. apply lookup_replicate in Hp as [-> _].
  split; [|done]. split; simpl; done.
Qed.

Lemma reachable_inv s : reachable s → sys_inv s.
Proof. induction 1; [apply sys0_inv|by eapply pipe_step_inv]. Qed.

(** * Properties *)


(** Process 7 writes three bytes to a new pipe. *)
Definition sample_create : Sys :=
  mkSys (pipe_create pipe_init 0).2 ∅ (clear_log (λ _, []) 0) (clear_log (λ _, []) 0).

Lemma sample_create_reachable : reachable sample_create.
Proof.
  apply (reach_next _ _ reach_init).
  apply (step_create sys0 0 (pipe_create pipe_init 0).2); [reflexivity|lia].
Qed.

Lemma sample_create_awake pid : ¬ asleep (pipes sample_create) pid.
Proof.
  intros (i & p & Hp & H). assert (data_wait p = [] ∧ space_wait p = []) as [Hd Hw].
  { destruct i as [|i]; simpl in Hp; [by simplify_eq|].
    change (replicate 7 (mkPipe false (replicate 4096 0) 0 0 0 false false [] []) !! i = Some p) in Hp.
    by apply lookup_replicate in Hp as [-> _]. }
  rewrite Hd, Hw in H. by destruct H as [H|H]; apply elem_of_nil in H.
Qed.

Lemma sample_write_reachable : ∃ s, reachable s ∧ written s 0%nat = [10; 20; 30] ∧ ∃ p, pipes s !! 0%nat = Some p.
Proof.
  eexists. split; [|split].
  - eapply reach_next; [eapply reach_next; [apply sample_create_reachable|]|].
    + eapply (step_call_write _ 7 0 [10; 20; 30] 3); [reflexivity|reflexivity|lia| |simpl; lia].
      repeat (constructor; [lia|]); constructor.
    + eapply (step_write_done _ 7 0 [10; 20; 30] 3);
        [reflexivity|apply sample_create_awake|reflexivity|reflexivity].
  - reflexivity.
  - eexists. reflexivity.
Qed.



