(* ===== verification/Wire.v ===== *)
(** Bytes on the wire: byte order (htons and htonl of src/net/ethernet.cpp), block
    copies between buffers, stores into a packet under construction, and the lemmas
    by which a buffer that is written field by field is seen to start with a given
    packet. *)

From S2P Require Import Prelude.

(** * Model *)

Definition htons (value : Z) : Z :=
  Z.lor (Z.shiftl (Z.land value 0xFF) 8) (Z.land (Z.shiftr value 8) 0xFF).
Definition ntohs (value : Z) : Z := htons value.

Definition htonl (value : Z) : Z :=
  Z.lor (Z.lor (Z.lor (Z.shiftl (Z.land value 0xFF) 24) (Z.shiftl (Z.land value 0xFF00) 8))
               (Z.land (Z.shiftr value 8) 0xFF00))
        (Z.land (Z.shiftr value 24) 0xFF).
Definition ntohl (value : Z) : Z := htonl value.

(** [for (i = 0; i < n; i++) dst[off + i] = src[soff + i];] *)
Definition blit (dst : list Z) (off : Z) (src : list Z) (soff n : Z) : res (list Z) :=
  for_upto (Z.to_nat n) 0 (λ i d, x ← arr_get src (soff + i); arr_set d (off + i) x) dst.

(** Storing the bytes of one field at an offset of a packet. *)
Definition st (buf : list Z) (off : Z) (bs : list Z) : res (list Z) :=
  blit buf off bs 0 (Z.of_nat (length bs)).

Definition st8 (buf : list Z) (off v : Z) : res (list Z) := st buf off (le_bytes 1 v).
Definition st16 (buf : list Z) (off v : Z) : res (list Z) := st buf off (le_bytes 2 v).
Definition st32 (buf : list Z) (off v : Z) : res (list Z) := st buf off (le_bytes 4 v).

(** [n] bytes of a buffer, for the callee that is given a pointer and a length. *)
Definition view (buf : list Z) (off n : Z) : res (list Z) :=
  if (0 <=? off) && (0 <=? n) && (off + n <=? Z.of_nat (length buf))
  then Ok (take (Z.to_nat n) (drop (Z.to_nat off) buf)) else Fault.

(** Network byte order, as lists. *)
Definition be16 (v : Z) : list Z := [v / 2 ^ 8 mod 2 ^ 8; v mod 2 ^ 8].
Definition be32 (v : Z) : list Z :=
  [v / 2 ^ 24 mod 2 ^ 8; v / 2 ^ 16 mod 2 ^ 8; v / 2 ^ 8 mod 2 ^ 8; v mod 2 ^ 8].

(** * Lemmas *)

Lemma lor_add a b n : 0 <= n → 0 <= b < 2 ^ n → a mod 2 ^ n = 0 → Z.lor a b = a + b.
Proof.
  intros Hn Hb Ha. assert (Z.land a b = 0) as Hl.
  { apply Z.bits_inj'. intros i Hi. rewrite Z.land_spec, Z.bits_0.
    destruct (decide (i < n)).
    - rewrite <-(Z.mod_pow2_bits_low a n i), Ha, Z.bits_0 by lia. done.
    - replace b with (b mod 2 ^ n) by (by apply Z.mod_small).
      rewrite Z.mod_pow2_bits_high, andb_false_r by lia. done. }
  pose proof (Z.add_lor_land a b) as H. rewrite Hl in H. lia.
Qed.

Lemma htons_spec v : 0 <= v < 2 ^ 16 → htons v = v mod 2 ^ 8 * 2 ^ 8 + v / 2 ^ 8.
Proof.
  intros Hv. unfold htons. change 0xFF with (Z.ones 8).
  rewrite !Z.land_ones, Z.shiftl_mul_pow2, Z.shiftr_div_pow2 by lia.
  rewrite (lor_add _ _ 8) by lia. lia.
Qed.

Lemma land_ff00 v : Z.land v 0xFF00 = v / 2 ^ 8 mod 2 ^ 8 * 2 ^ 8.
Proof.
  replace 0xFF00 with (Z.shiftl (Z.ones 8) 8) by reflexivity.
  apply Z.bits_inj'. intros i Hi.
  rewrite Z.land_spec, Z.shiftl_spec by lia. rewrite <-Z.shiftl_mul_pow2, Z.shiftl_spec by lia.
  destruct (decide (i < 8)).
  - rewrite !(Z.testbit_neg_r _ (i - 8)) by lia. by rewrite andb_false_r.
  - destruct (decide (i < 16)).
    + rewrite Z.ones_spec_low, andb_true_r, Z.mod_pow2_bits_low, Z.div_pow2_bits by lia. f_equal. lia.
    + rewrite Z.ones_spec_high, andb_false_r, Z.mod_pow2_bits_high by lia. done.
Qed.

(** A 32-bit word by its four bytes. *)
Definition word4 (a b c d : Z) : Z := a + 2 ^ 8 * b + 2 ^ 16 * c + 2 ^ 24 * d.

Lemma word4_split v :
  0 <= v < 2 ^ 32 → ∃ a b c d, v = word4 a b c d ∧
    (0 <= a < 2 ^ 8 ∧ 0 <= b < 2 ^ 8) ∧ (0 <= c < 2 ^ 8 ∧ 0 <= d < 2 ^ 8).
Proof.
  intros Hv. exists (v mod 2 ^ 8), (v / 2 ^ 8 mod 2 ^ 8), (v / 2 ^ 16 mod 2 ^ 8), (v / 2 ^ 24).
  unfold word4. rewrite (Z.mod_eq (v / 2 ^ 8)), (Z.mod_eq (v / 2 ^ 16)), !Z.div_div by lia.
  change (2 ^ 8 * 2 ^ 8) with (2 ^ 16). change (2 ^ 16 * 2 ^ 8) with (2 ^ 24).
  split; [lia|]. split; [split; lia|]. split; lia.
Qed.

Lemma word4_bytes a b c d :
  0 <= a < 2 ^ 8 → 0 <= b < 2 ^ 8 → 0 <= c < 2 ^ 8 → 0 <= d < 2 ^ 8 →
  word4 a b c d mod 2 ^ 8 = a ∧ word4 a b c d / 2 ^ 8 mod 2 ^ 8 = b ∧
  word4 a b c d / 2 ^ 16 mod 2 ^ 8 = c ∧ word4 a b c d / 2 ^ 24 mod 2 ^ 8 = d ∧
  word4 a b c d / 2 ^ 24 = d.
Proof.
  intros Ha Hb Hc Hd. unfold word4.
  assert ((a + 2 ^ 8 * b + 2 ^ 16 * c + 2 ^ 24 * d) / 2 ^ 8 = b + 2 ^ 8 * c + 2 ^ 16 * d) as -> by lia.
  assert ((a + 2 ^ 8 * b + 2 ^ 16 * c + 2 ^ 24 * d) / 2 ^ 16 = c + 2 ^ 8 * d) as -> by lia.
  assert ((a + 2 ^ 8 * b + 2 ^ 16 * c + 2 ^ 24 * d) / 2 ^ 24 = d) as -> by lia.
  split; [lia|]. split; [lia|]. split; [lia|]. split; [lia|done].
Qed.

Lemma htonl_word4 a b c d :
  0 <= a < 2 ^ 8 → 0 <= b < 2 ^ 8 → 0 <= c < 2 ^ 8 → 0 <= d < 2 ^ 8 →
  htonl (word4 a b c d) = word4 d c b a.
Proof.
  intros Ha Hb Hc Hd. destruct (word4_bytes a b c d) as (E1 & E2 & E3 & E4 & _); [done..|].
  unfold htonl. rewrite !land_ff00. change 0xFF with (Z.ones 8).
  rewrite !Z.land_ones, !Z.shiftl_mul_pow2, !Z.shiftr_div_pow2, E1, E2, E4 by lia.
  rewrite Z.div_div by lia. change (2 ^ 8 * 2 ^ 8) with (2 ^ 16). rewrite E3.
  replace (b * 2 ^ 8 * 2 ^ 8) with (b * 2 ^ 16) by lia. clear E1 E2 E3 E4.
  rewrite (lor_add (a * 2 ^ 24) _ 24), (lor_add (_ + _) _ 16), (lor_add (_ + _) _ 8);
    unfold word4; lia.
Qed.

Lemma htons_range v : 0 <= v < 2 ^ 16 → 0 <= htons v < 2 ^ 16.
Proof. intros. rewrite htons_spec by done. lia. Qed.

Lemma ntohs_htons v : 0 <= v < 2 ^ 16 → ntohs (htons v) = v.
Proof. intros. unfold ntohs. rewrite htons_spec by (by apply htons_range). rewrite htons_spec by done. lia. Qed.

Lemma htonl_range v : 0 <= v < 2 ^ 32 → 0 <= htonl v < 2 ^ 32.
Proof.
  intros (a & b & c & d & -> & [? ?] & [? ?])%word4_split. rewrite htonl_word4 by done. unfold word4. lia.
Qed.

Lemma ntohl_htonl v : 0 <= v < 2 ^ 32 → ntohl (htonl v) = v.
Proof.
  intros (a & b & c & d & -> & [? ?] & [? ?])%word4_split. unfold ntohl. by rewrite !htonl_word4.
Qed.

Lemma word4_lor a b c d :
  0 <= a < 2 ^ 8 → 0 <= b < 2 ^ 8 → 0 <= c < 2 ^ 8 → 0 <= d < 2 ^ 8 →
  Z.lor (Z.lor (Z.lor a (Z.shiftl b 8)) (Z.shiftl c 16)) (Z.shiftl d 24) = word4 a b c d.
Proof.
  intros. rewrite !Z.shiftl_mul_pow2 by lia. unfold word4.
  rewrite (Z.lor_comm a), (lor_add (b * 2 ^ 8) a 8) by lia.
  rewrite (Z.lor_comm _ (c * 2 ^ 16)), (lor_add (c * 2 ^ 16) _ 16) by lia.
  rewrite (Z.lor_comm _ (d * 2 ^ 24)), (lor_add (d * 2 ^ 24) _ 24) by lia. lia.
Qed.

Lemma le_bytes_htons v : 0 <= v < 2 ^ 16 → le_bytes 2 (htons v) = be16 v.
Proof. intros. rewrite htons_spec by done. unfold be16. simpl. f_equal; [lia|]. f_equal. lia. Qed.

Lemma le_bytes_word4 a b c d :
  0 <= a < 2 ^ 8 → 0 <= b < 2 ^ 8 → 0 <= c < 2 ^ 8 → 0 <= d < 2 ^ 8 →
  le_bytes 4 (word4 a b c d) = [a; b; c; d].
Proof.
  intros. destruct (word4_bytes a b c d) as (E1 & E2 & E3 & E4 & _); [done..|].
  simpl. change (Z.pow_pos 2 8) with (2 ^ 8). rewrite !Z.div_div by lia.
  change (2 ^ 8 * 2 ^ 8 * 2 ^ 8) with (2 ^ 24). change (2 ^ 8 * 2 ^ 8) with (2 ^ 16).
  by rewrite E1, E2, E3, E4.
Qed.

Lemma le_bytes_htonl v : 0 <= v < 2 ^ 32 → le_bytes 4 (htonl v) = be32 v.
Proof.
  intros (a & b & c & d & -> & [? ?] & [? ?])%word4_split. rewrite htonl_word4, le_bytes_word4 by done.
  unfold be32. destruct (word4_bytes a b c d) as (E1 & E2 & E3 & E4 & _); [done..|].
  by rewrite E1, E2, E3, E4.
Qed.

Lemma bytes_le_bytes n v : bytes (le_bytes n v).
Proof. revert v. induction n; intros v; constructor; [lia|apply IHn]. Qed.

Lemma blit_spec dst off src soff n :
  0 <= off → 0 <= soff → 0 <= n → off + n <= Z.of_nat (length dst) →
  soff + n <= Z.of_nat (length src) →
  blit dst off src soff n =
    Ok (take (Z.to_nat off) dst ++ take (Z.to_nat n) (drop (Z.to_nat soff) src) ++
        drop (Z.to_nat (off + n)) dst).
Proof.
  intros Ho Hs Hn Hd Hl. unfold blit.
  destruct (for_upto_rule (λ i d, d = take (Z.to_nat off) dst ++
      take (Z.to_nat i) (drop (Z.to_nat soff) src) ++ drop (Z.to_nat (off + i)) dst)
    (λ i d, x ← arr_get src (soff + i); arr_set d (off + i) x) (Z.to_nat n) 0 dst) as (d & -> & ->).
  - intros i d Hi ->. rewrite (arr_get_in _ _ 0) by lia. simpl. rewrite arr_set_in.
    2: { rewrite !length_app, !length_take, !length_drop. lia. }
    eexists. split; [done|]. set (x := nth _ src 0).
    destruct (drop (Z.to_nat (off + i)) dst) as [|y t] eqn:Ed.
    { apply (f_equal length) in Ed. rewrite length_drop in Ed. simpl in Ed. lia. }
    assert (Ht : drop (Z.to_nat (off + (i + 1))) dst = t).
    { replace (Z.to_nat (off + (i + 1))) with (Z.to_nat (off + i) + 1)%nat by lia.
      by rewrite <-drop_drop, Ed. }
    rewrite Ht. replace (Z.to_nat (i + 1)) with (S (Z.to_nat i)) by lia.
    rewrite (take_S_r _ _ x).
    2: { rewrite lookup_drop. unfold x.
         replace (Z.to_nat soff + Z.to_nat i)%nat with (Z.to_nat (soff + i)) by lia.
         apply lookup_nth_in. lia. }
    rewrite !(assoc_L (++)). rewrite insert_app_r_alt.
    2: { rewrite !length_app, !length_take, !length_drop. lia. }
    rewrite <-!(assoc_L (++)). do 2 f_equal. simpl.
    replace (_ - _)%nat with O; [done|]. rewrite !length_app, !length_take, !length_drop. lia.
  - rewrite Z.add_0_r. simpl. by rewrite take_drop.
  - rewrite Z.add_0_l, Z2Nat.id by lia. done.
Qed.

(** Appending a field to the packet that a buffer starts with. *)
Lemma blit_append p buf src soff n :
  p `prefix_of` buf → 0 <= soff → 0 <= n → Z.of_nat (length p) + n <= Z.of_nat (length buf) →
  soff + n <= Z.of_nat (length src) →
  ∃ buf', blit buf (Z.of_nat (length p)) src soff n = Ok buf' ∧ length buf' = length buf ∧
    (p ++ take (Z.to_nat n) (drop (Z.to_nat soff) src)) `prefix_of` buf'.
Proof.
  intros [t ->] Hs Hn Hl Hsl. rewrite blit_spec by lia. eexists. split; [done|].
  rewrite Nat2Z.id, take_app_length. split.
  - rewrite length_app in Hl. rewrite !length_app, length_take, !length_drop, length_app. lia.
  - rewrite (assoc_L (++)). eexists. done.
Qed.

Lemma st_append p buf bs :
  p `prefix_of` buf → (length p + length bs <= length buf)%nat →
  ∃ buf', st buf (Z.of_nat (length p)) bs = Ok buf' ∧ length buf' = length buf ∧
    (p ++ bs) `prefix_of` buf'.
Proof.
  intros Hp Hl. unfold st.
  destruct (blit_append p buf bs 0 (Z.of_nat (length bs))) as (buf' & E & Hl' & H); [done|lia..|].
  exists buf'. split; [done|]. split; [done|].
  by rewrite Nat2Z.id, drop_0, firstn_all in H.
Qed.

(** Overwriting a field of the packet that a buffer starts with. *)
Lemma st_patch p1 old p2 buf bs :
  (p1 ++ old ++ p2) `prefix_of` buf → length bs = length old →
  ∃ buf', st buf (Z.of_nat (length p1)) bs = Ok buf' ∧ length buf' = length buf ∧
    (p1 ++ bs ++ p2) `prefix_of` buf'.
Proof.
  intros [t ->] Hb. unfold st. rewrite blit_spec; [|lia..|rewrite !length_app; lia|lia].
  eexists. split; [done|]. rewrite !Nat2Z.id, drop_0, firstn_all, <-!(assoc_L (++)), take_app_length.
  replace (Z.to_nat (Z.of_nat (length p1) + Z.of_nat (length bs)))
    with (length p1 + length old)%nat by lia.
  rewrite drop_app_add. rewrite drop_app_length. split; [rewrite !length_app; lia|].
  exists t. by rewrite <-!(assoc_L (++)).
Qed.

Lemma prefix_take (p buf : list Z) n :
  p `prefix_of` buf → Z.of_nat (length p) = n → view buf 0 n = Ok p.
Proof.
  intros [t ->] <-. unfold view. rewrite length_app, Z.add_0_l.
  rewrite !(proj2 (Z.leb_le _ _)) by lia. simpl. by rewrite Nat2Z.id, drop_0, take_app_length.
Qed.

Lemma view_drop buf off n :
  0 <= off → 0 <= n → off + n <= Z.of_nat (length buf) →
  view buf off n = Ok (take (Z.to_nat n) (drop (Z.to_nat off) buf)).
Proof.
  intros. unfold view. by rewrite !(proj2 (Z.leb_le _ _)) by lia.
Qed.

Lemma be16_length v : length (be16 v) = 2%nat.
Proof. done. Qed.
Lemma be32_length v : length (be32 v) = 4%nat.
Proof. done. Qed.
Lemma le_bytes_length n v : length (le_bytes n v) = n.
Proof. revert v. induction n; intros; simpl; auto. Qed.

(** Loads from a packet of bytes. *)
Lemma ld16_bytes data i :
  bytes data → 0 <= i → i + 2 <= Z.of_nat (length data) →
  ∃ v, ld16 data i = Ok v ∧ 0 <= v < 2 ^ 16.
Proof.
  intros Hb Hi Hl. unfold ld16. rewrite !(arr_get_in _ _ 0) by lia. simpl. eexists. split; [done|].
  pose proof (nth_bytes data (Z.to_nat i) Hb). pose proof (nth_bytes data (Z.to_nat (i + 1)) Hb). lia.
Qed.

Lemma ld32_bytes data i :
  bytes data → 0 <= i → i + 4 <= Z.of_nat (length data) →
  ∃ v, ld32 data i = Ok v ∧ 0 <= v < 2 ^ 32.
Proof.
  intros Hb Hi Hl. unfold ld32.
  destruct (ld16_bytes data i) as (v1 & -> & ?); [done|lia..|].
  destruct (ld16_bytes data (i + 2)) as (v2 & -> & ?); [done|lia..|]. simpl.
  eexists. split; [done|]. lia.
Qed.

Lemma view_bytes data off n :
  bytes data → 0 <= off → 0 <= n → off + n <= Z.of_nat (length data) →
  ∃ v, view data off n = Ok v ∧ bytes v ∧ Z.of_nat (length v) = n.
Proof.
  intros Hb Ho Hn Hl. rewrite view_drop by done. eexists. split; [done|].
  split; [by apply Forall_take, Forall_drop|]. rewrite length_take, length_drop. lia.
Qed.

(** Filling a packet buffer of [N] bytes, field after field. *)
Lemma st_at N p buf off bs :
  p `prefix_of` buf → length buf = N → off = Z.of_nat (length p) → (length p + length bs <= N)%nat →
  ∃ buf', st buf off bs = Ok buf' ∧ length buf' = N ∧ (p ++ bs) `prefix_of` buf'.
Proof. intros Hp <- -> Hl. destruct (st_append p buf bs Hp Hl) as (b & ? & ? & ?). eauto. Qed.

Lemma st_patch_at N p1 old p2 buf off bs :
  (p1 ++ old ++ p2) `prefix_of` buf → length buf = N → off = Z.of_nat (length p1) →
  length bs = length old →
  ∃ buf', st buf off bs = Ok buf' ∧ length buf' = N ∧ (p1 ++ bs ++ p2) `prefix_of` buf'.
Proof. intros Hp <- -> Hl. destruct (st_patch p1 old p2 buf bs Hp Hl) as (b & ? & ? & ?). eauto. Qed.

Lemma blit_at N p buf off src n :
  p `prefix_of` buf → length buf = N → off = Z.of_nat (length p) → n = Z.of_nat (length src) →
  (length p + length src <= N)%nat →
  ∃ buf', blit buf off src 0 n = Ok buf' ∧ length buf' = N ∧ (p ++ src) `prefix_of` buf'.
Proof.
  intros Hp <- -> -> Hl.
  destruct (blit_append p buf src 0 (Z.of_nat (length src))) as (b & E & Hb & H); [done|lia..|].
  exists b. split; [done|]. split; [done|]. by rewrite Nat2Z.id, drop_0, firstn_all in H.
Qed.

(** Advances over one field store; the field's offset and the packet so far must
    have lengths that compute. *)
Ltac put_field_of b off bs :=
  match goal with
  | P : ?p `prefix_of` b, L : length b = ?N |- _ =>
      let b' := fresh "b" in let L' := fresh "L" in let P' := fresh "P" in
      destruct (st_at N p b off bs P L) as (b' & -> & L' & P');
      [reflexivity|apply Nat.leb_le; reflexivity|]; step; clear P L; rename P' into P, L' into L
  end.
Ltac put_field :=
  unfold st8, st16, st32;
  match goal with |- context [st ?b ?off ?v] => put_field_of b off v end.

(** The same for a buffer whose size [N] is only known to be large enough. *)
Ltac put_field_in :=
  unfold st8, st16, st32;
  match goal with
  | P : ?p `prefix_of` ?b, L : length ?b = ?N |- context [st ?b ?off ?bs] =>
      let b' := fresh "b" in let L' := fresh "L" in let P' := fresh "P" in
      destruct (st_at N p b off bs P L) as (b' & -> & L' & P');
      [reflexivity|cbn; lia|]; step; clear P L; rename P' into P, L' into L
  end.

Lemma le2_value v : 0 <= v < 2 ^ 16 → v mod 2 ^ 8 + 2 ^ 8 * (v / 2 ^ 8 mod 2 ^ 8) = v.
Proof. intros. lia. Qed.

Lemma le4_value v :
  0 <= v < 2 ^ 32 →
  (v mod 2 ^ 8 + 2 ^ 8 * (v / 2 ^ 8 mod 2 ^ 8)) +
  2 ^ 16 * (v / 2 ^ 8 / 2 ^ 8 mod 2 ^ 8 + 2 ^ 8 * (v / 2 ^ 8 / 2 ^ 8 / 2 ^ 8 mod 2 ^ 8)) = v.
Proof.
  intros (a & b & c & d & -> & [? ?] & [? ?])%word4_split.
  destruct (word4_bytes a b c d) as (E1 & E2 & E3 & E4 & _); [done..|].
  rewrite !Z.div_div by lia. change (2 ^ 8 * 2 ^ 8 * 2 ^ 8) with (2 ^ 24).
  change (2 ^ 8 * 2 ^ 8) with (2 ^ 16). rewrite E1, E2, E3, E4. unfold word4. lia.
Qed.

Lemma be16_value v : 0 <= v < 2 ^ 16 → htons v = v / 2 ^ 8 mod 2 ^ 8 + 2 ^ 8 * (v mod 2 ^ 8).
Proof. intros. rewrite htons_spec by done. lia. Qed.

(** Stores and writes that only have to stay inside the buffer. *)
Lemma st_total buf off bs :
  bytes buf → bytes bs → 0 <= off → off + Z.of_nat (length bs) <= Z.of_nat (length buf) →
  ∃ b, st buf off bs = Ok b ∧ length b = length buf ∧ bytes b.
Proof.
  intros Hb Hs Ho Hl. unfold st. rewrite blit_spec by lia. eexists. split; [done|]. split.
  - rewrite !length_app, !length_take, !length_drop. lia.
  - unfold bytes. rewrite !Forall_app. auto using Forall_take, Forall_drop.
Qed.

Lemma st16_total buf off v :
  bytes buf → 0 <= off → off + 2 <= Z.of_nat (length buf) →
  ∃ b, st16 buf off v = Ok b ∧ length b = length buf ∧ bytes b.
Proof. intros. apply st_total; [done|apply bytes_le_bytes|done|]. by rewrite le_bytes_length. Qed.

Lemma arr_set_bytes buf i v :
  bytes buf → 0 <= v < 2 ^ 8 → 0 <= i < Z.of_nat (length buf) →
  ∃ b, arr_set buf i v = Ok b ∧ length b = length buf ∧ bytes b.
Proof.
  intros. rewrite arr_set_in by done. eexists. split; [done|]. rewrite length_insert. split; [done|].
  by apply Forall_insert.
Qed.

Lemma blit_take dst off src n :
  0 <= off → 0 <= n → off + n <= Z.of_nat (length dst) → n <= Z.of_nat (length src) →
  blit dst off src 0 n = blit dst off (take (Z.to_nat n) src) 0 n.
Proof.
  intros. rewrite !blit_spec; rewrite ?length_take; try lia.
  change (Z.to_nat 0) with 0%nat. by rewrite !drop_0, take_take, Nat.min_id.
Qed.

(** Filling a buffer that starts out all zero: the fields written so far, then
    zeros. A store may skip bytes, which stay zero. *)
Lemma st_zero p k off g bs :
  off = Z.of_nat (length p + g) → (g + length bs <= k)%nat →
  st (p ++ replicate k 0) off bs =
    Ok ((p ++ replicate g 0 ++ bs) ++ replicate (k - g - length bs) 0).
Proof.
  intros -> Hk. unfold st.
  rewrite blit_spec; [|lia|lia|lia|rewrite length_app, length_replicate; lia|lia].
  change (Z.to_nat 0) with 0%nat. rewrite !Nat2Z.id, drop_0, firstn_all.
  replace k with (g + (length bs + (k - g - length bs)))%nat at 1 by lia.
  rewrite !replicate_add.
  assert (E1 : take (length p + g) (p ++ replicate g 0 ++ replicate (length bs) 0 ++ replicate (k - g - length bs) 0)
               = p ++ replicate g 0).
  { rewrite (assoc_L (++)). apply take_app_length'. by rewrite length_app, length_replicate. }
  replace k with (g + (length bs + (k - g - length bs)))%nat at 2 by lia. rewrite !replicate_add.
  assert (E2 : drop (Z.to_nat (Z.of_nat (length p + g) + Z.of_nat (length bs)))
      (p ++ replicate g 0 ++ replicate (length bs) 0 ++ replicate (k - g - length bs) 0)
      = replicate (k - g - length bs) 0).
  { rewrite !(assoc_L (++)). apply drop_app_length'. rewrite !length_app, !length_replicate. lia. }
  rewrite E1, E2. by rewrite <-!(assoc_L (++)).
Qed.

Lemma arr_set_st buf i v : arr_set buf i v = st buf i [v].
Proof.
  unfold st, blit. simpl. rewrite Z.add_0_r. by destruct (arr_set buf i v).
Qed.

(** One store into a packet that is zero from there on, [g] bytes further. *)
Ltac zero_field g :=
  unfold st8, st16, st32;
  match goal with
  | |- context [st (?p ++ replicate ?k 0) ?off ?bs] =>
      rewrite (st_zero p k off g bs) by (reflexivity || (apply Nat.leb_le; reflexivity) || (cbn; lia)); step
  end.

(** A prefix as long as the list is the list. *)
Lemma prefix_full {A} (p b : list A) : p `prefix_of` b → length b = length p → b = p.
Proof. intros [t ->] Hl. rewrite length_app in Hl. destruct t; [by rewrite app_nil_r|simpl in Hl; lia]. Qed.

Lemma ld32_le v pre post :
  0 <= v < 2 ^ 32 → ld32 (pre ++ le_bytes 4 v ++ post) (Z.of_nat (length pre)) = Ok v.
Proof.
  intros Hv. unfold ld32, ld16.
  assert (G : ∀ k x, le_bytes 4 v !! k = Some x →
    arr_get (pre ++ le_bytes 4 v ++ post) (Z.of_nat (length pre) + Z.of_nat k) = Ok x).
  { intros k x Hk. unfold arr_get. destruct (Z.ltb_spec (Z.of_nat (length pre) + Z.of_nat k) 0); [lia|].
    replace (Z.to_nat (Z.of_nat (length pre) + Z.of_nat k)) with (length pre + k)%nat by lia.
    rewrite lookup_app_r by lia. replace (length pre + k - length pre)%nat with k by lia.
    by rewrite (lookup_app_l_Some _ _ _ _ Hk). }
  pose proof (G 0%nat _ eq_refl) as G0. pose proof (G 1%nat _ eq_refl) as G1.
  pose proof (G 2%nat _ eq_refl) as G2. pose proof (G 3%nat _ eq_refl) as G3. clear G.
  rewrite Z.add_0_r in G0. change (Z.of_nat 1) with 1 in G1. change (Z.of_nat 2) with 2 in G2.
  change (Z.of_nat 3) with (2 + 1) in G3. rewrite Z.add_assoc in G3.
  rewrite G0. step. rewrite G1. step. rewrite G2. step. rewrite G3. step. f_equal. by apply le4_value.
Qed.
