(* ===== verification/Disk.v ===== *)
(** Block devices (include/kernel/fs/block_dev.h), the storage guard
    (src/fs/storage_guard.cpp), and partitions (src/fs/partition.cpp): the parsers of
    both partition tables, the scan of a disk, and the device a partition is. A device
    is anything with the two operations of [BlockDevice]; a device that works keeps the
    laws below, and a partition of such a device is one again. *)

From S2P Require Import Prelude Wire.

(** * Devices *)

(** The bytes [f a .. f (a + n - 1)]. *)
Definition read_range (f : Z → Z) (a n : Z) : list Z := (λ i : nat, f (a + Z.of_nat i)) <$> seq 0 (Z.to_nat n).

(** [f] with the bytes [l] at [a]. *)
Definition write_range (f : Z → Z) (a : Z) (l : list Z) : Z → Z :=
  λ x, if (a <=? x) && (x <? a + Z.of_nat (length l)) then nth (Z.to_nat (x - a)) l 0 else f x.

(** The operations of [BlockDevice]; a negative result is [None] or [false]. *)
Class BlockDev (D : Type) := {
  block_size : D → Z;
  total_blocks : D → Z;
  read_blocks : Z → Z → D → option (list Z) * D;
  write_blocks : Z → Z → list Z → D → bool * D
}.

Class BlockDevLaws (D : Type) `{BlockDev D} (working : D → Prop) := {
  content : D → Z → Z;
  content_byte d a : working d → 0 <= content d a < 2 ^ 8;
  sizes d : working d → 0 < block_size d ∧ 0 <= total_blocks d ∧ total_blocks d * block_size d < 2 ^ 64;
  read_blocks_spec d lba count :
    working d → 0 <= lba → 0 <= count < 2 ^ 32 → lba + count <= total_blocks d →
    ∃ d', read_blocks lba count d = (Some (read_range (content d) (lba * block_size d) (count * block_size d)), d') ∧
      working d' ∧ block_size d' = block_size d ∧ total_blocks d' = total_blocks d ∧ ∀ a, content d' a = content d a;
  write_blocks_spec d lba count l :
    working d → 0 <= lba → 0 <= count < 2 ^ 32 → lba + count <= total_blocks d →
    Z.of_nat (length l) = count * block_size d → bytes l →
    ∃ d', write_blocks lba count l d = (true, d') ∧
      working d' ∧ block_size d' = block_size d ∧ total_blocks d' = total_blocks d ∧
      ∀ a, content d' a = write_range (content d) (lba * block_size d) l a
}.

(** * The storage guard *)

Definition STORAGE_MODE_OFF : Z := 0.
Definition STORAGE_MODE_READ_ONLY : Z := 1.
Definition STORAGE_MODE_WRITABLE : Z := 2.

(** The new value of [g_storage_mode]. *)
Definition storage_set_mode (mode : Z) : Z := if STORAGE_MODE_WRITABLE <? mode then STORAGE_MODE_READ_ONLY else mode.
Definition storage_reads_allowed (g_storage_mode : Z) : bool := negb (g_storage_mode =? STORAGE_MODE_OFF).
Definition storage_writes_allowed (g_storage_mode : Z) : bool := g_storage_mode =? STORAGE_MODE_WRITABLE.

(** * Partitions as devices *)

Record PartitionDevice (D : Type) := mkPart { parent : D; start_lba : Z; part_blocks : Z; g_storage_mode : Z }.
Arguments mkPart {D}.
Arguments parent {D}.
Arguments start_lba {D}.
Arguments part_blocks {D}.
Arguments g_storage_mode {D}.

Section partition.
Context {D : Type} `{BlockDev D}.

Definition with_parent (d : PartitionDevice D) (p : D) : PartitionDevice D := mkPart p (start_lba d) (part_blocks d) (g_storage_mode d).

Definition partition_read_blocks (lba count : Z) (d : PartitionDevice D) : option (list Z) * PartitionDevice D :=
  if part_blocks d <? u64 (lba + count) then (None, d)
  else let '(r, p) := read_blocks (u64 (start_lba d + lba)) count (parent d) in (r, with_parent d p).

Definition partition_write_blocks (lba count : Z) (l : list Z) (d : PartitionDevice D) : bool * PartitionDevice D :=
  if negb (storage_writes_allowed (g_storage_mode d)) then (false, d)
  else if part_blocks d <? u64 (lba + count) then (false, d)
  else let '(r, p) := write_blocks (u64 (start_lba d + lba)) count l (parent d) in (r, with_parent d p).

#[export] Instance partition_dev : BlockDev (PartitionDevice D) := {
  block_size d := block_size (parent d);
  total_blocks := part_blocks;
  read_blocks := partition_read_blocks;
  write_blocks := partition_write_blocks
}.
End partition.

(** * Partition tables *)

Record PartitionScanEntry := mkScan { se_index : Z; se_start_lba : Z; se_block_count : Z; se_label : list Z }.
Record PartitionGptInfo := mkGpt { entries_lba : Z; entry_count : Z; entry_size : Z }.

(** The entry at [446 + 16 i] of an MBR: type, first sector, sector count. *)
Definition mbr_entry (sector : list Z) (i : Z) : res (Z * Z * Z) :=
  type ← arr_get sector (446 + 16 * i + 4);
  first ← ld32 sector (446 + 16 * i + 8);
  count ← ld32 sector (446 + 16 * i + 12);
  Ok (type, first, count).

Definition mbr_step (sector : list Z) (max_entries i : Z) (out : list PartitionScanEntry) : res (list PartitionScanEntry) :=
  if max_entries <=? Z.of_nat (length out) then Ok out
  else
    '(type, first, count) ← mbr_entry sector i;
    if (type =? 0) || (count =? 0) || (type =? 0xEE) then Ok out
    else Ok (out ++ [mkScan (i + 1) first count []]).

Definition partition_parse_mbr_entries (sector : list Z) (max_entries : Z) : res (list PartitionScanEntry) :=
  if max_entries <=? 0 then Ok []
  else
    b0 ← arr_get sector 510;
    b1 ← arr_get sector 511;
    if negb ((b0 =? 0x55) && (b1 =? 0xAA)) then Ok []
    else for_upto 4 0 (mbr_step sector max_entries) [].

Definition GPT_SIGNATURE : Z := 0x5452415020494645.
Definition GPT_ENTRY_SIZE : Z := 128.

Definition partition_parse_gpt_header (sector : list Z) (block_size : Z) : res (option PartitionGptInfo) :=
  if block_size <? 512 then Ok None
  else
    signature ← ld64 sector 0;
    lba ← ld64 sector 72;
    count ← ld32 sector 80;
    size ← ld32 sector 84;
    if negb (signature =? GPT_SIGNATURE) || (size <? GPT_ENTRY_SIZE) || (count =? 0) || (block_size <? size) then Ok None
    else Ok (Some (mkGpt lba count size)).

(** [utf16le_to_ascii]: the loop over the [n] units left, with the output so far. *)
Fixpoint utf16le_to_ascii (src : list Z) (off : Z) (n : nat) (out : list Z) (out_size : Z) : res (list Z) :=
  match n with
  | O => Ok out
  | S n' =>
      if out_size <=? Z.of_nat (length out) + 1 then Ok out
      else
        cp ← ld16 src off;
        if (cp =? 0) || (cp =? 0xFFFF) then Ok out
        else utf16le_to_ascii src (off + 2) n' (out ++ [if (32 <=? cp) && (cp <? 127) then cp else 95]) out_size
  end.

Fixpoint guid_all_zero (buf : list Z) (off : Z) (n : nat) : res bool :=
  match n with
  | O => Ok true
  | S n' => b ← arr_get buf off; if b =? 0 then guid_all_zero buf (off + 1) n' else Ok false
  end.

Definition partition_parse_gpt_entry (buf : list Z) (off size partition_index : Z) : res (option PartitionScanEntry) :=
  if (size <? GPT_ENTRY_SIZE) || (partition_index =? 0) then Ok None
  else
    zero ← guid_all_zero buf off 16;
    first ← ld64 buf (off + 32);
    last ← ld64 buf (off + 40);
    if (zero : bool) || (last <? first) then Ok None
    else
      label ← utf16le_to_ascii buf (off + 56) 36 [] 64;
      Ok (Some (mkScan partition_index first (u64 (last - first + 1)) label)).

(** * Scanning a disk *)

Section scan.
Context {D : Type} `{BlockDev D}.

(** The disk, the outcomes of [malloc] and the partitions registered so far. *)
Record Scan := mkScanState { sdev : D; sheap : list bool; registered : list PartitionScanEntry }.

(** [register_partition] allocates the device and its data; both calls are made. *)
Definition register_partition (e : PartitionScanEntry) (s : Scan) : bool * Scan :=
  if se_block_count e =? 0 then (false, s)
  else
    let '(ok1, heap) := malloc_next (sheap s) in
    let '(ok2, heap) := malloc_next heap in
    if ok1 && ok2 then (true, mkScanState (sdev s) (snd (malloc_next heap)) (registered s ++ [e]))
    else (false, mkScanState (sdev s) heap (registered s)).

(** One entry: whether the loop was left, the sector in memory, the count of registered partitions. *)
Definition gpt_step (info : PartitionGptInfo) (per_sector idx : Z) (st : bool * list Z * Z * Scan) : res (bool * list Z * Z * Scan) :=
  let '(stop, sector, count, s) := st in
  if stop : bool then Ok st
  else
    let '(r, d) :=
      if idx mod per_sector =? 0 then read_blocks (u64 (entries_lba info + idx / per_sector)) 1 (sdev s)
      else (Some sector, sdev s) in
    let s := mkScanState d (sheap s) (registered s) in
    match r with
    | None => Ok (true, sector, count, s)
    | Some sector =>
        e ← partition_parse_gpt_entry sector (idx mod per_sector * entry_size info) (entry_size info) (u32 (idx + 1));
        match e with
        | None => Ok (false, sector, count, s)
        | Some e =>
            let '(ok, s) := register_partition e s in
            Ok (false, sector, if (ok : bool) then u32 (count + 1) else count, s)
        end
    end.

Definition scan_gpt (s : Scan) : res (bool * Scan) :=
  let '(ok, heap) := malloc_next (sheap s) in
  if negb ok then Ok (false, mkScanState (sdev s) heap (registered s))
  else
    let '(r, d) := read_blocks 1 1 (sdev s) in
    let s := mkScanState d heap (registered s) in
    match r with
    | None => Ok (false, s)
    | Some sector =>
        info ← partition_parse_gpt_header sector (u32 (block_size d));
        match info with
        | None => Ok (false, s)
        | Some info =>
            let per_sector := u32 (block_size d) / entry_size info in
            if per_sector =? 0 then Ok (false, s)
            else
              let '(ok, heap) := malloc_next (sheap s) in
              let s := mkScanState (sdev s) heap (registered s) in
              if negb ok then Ok (false, s)
              else
                '(_, _, count, s) ← for_upto (Z.to_nat (entry_count info)) 0 (gpt_step info per_sector) (false, [], 0, s);
                Ok (negb (count =? 0), s)
        end
    end.

Definition scan_mbr (s : Scan) : res Scan :=
  let '(ok, heap) := malloc_next (sheap s) in
  if negb ok then Ok (mkScanState (sdev s) heap (registered s))
  else
    let '(r, d) := read_blocks 0 1 (sdev s) in
    let s := mkScanState d heap (registered s) in
    match r with
    | None => Ok s
    | Some sector =>
        entries ← partition_parse_mbr_entries sector 4;
        Ok (foldl (λ s e, snd (register_partition e s)) s entries)
    end.

(** The body of [partition_scan_all] for one disk. *)
Definition partition_scan (s : Scan) : res Scan :=
  if block_size (sdev s) <? 512 then Ok s
  else '(found, s) ← scan_gpt s; if (found : bool) then Ok s else scan_mbr s.
End scan.
Arguments Scan : clear implicits.

(** * Lemmas: ranges of bytes *)

Lemma length_read_range f a n : 0 <= n → Z.of_nat (length (read_range f a n)) = n.
Proof. intros Hn. unfold read_range. rewrite length_fmap, length_seq. lia. Qed.

Lemma read_range_lookup f a n i : 0 <= i < n → read_range f a n !! Z.to_nat i = Some (f (a + i)).
Proof.
  intros Hi. unfold read_range. rewrite list_lookup_fmap, lookup_seq_lt by lia. simpl. by rewrite Z2Nat.id by lia.
Qed.

Lemma read_range_get f a n i : 0 <= i < n → arr_get (read_range f a n) i = Ok (f (a + i)).
Proof. intros Hi. apply arr_get_Ok. split; [lia|]. by apply read_range_lookup. Qed.

Lemma read_range_nth f a n i : 0 <= i < n → nth (Z.to_nat i) (read_range f a n) 0 = f (a + i).
Proof. intros Hi. apply nth_lookup_Some. by apply read_range_lookup. Qed.

Lemma read_range_ext f g a b n : (∀ i, 0 <= i < n → f (a + i) = g (b + i)) → read_range f a n = read_range g b n.
Proof.
  intros E. unfold read_range. apply list_eq. intros i. rewrite !list_lookup_fmap. destruct (decide (i < Z.to_nat n)%nat).
  - rewrite lookup_seq_lt by done. simpl. f_equal. rewrite E by lia. done.
  - by rewrite lookup_seq_ge by lia.
Qed.

Lemma bytes_read_range f a n : (∀ x, 0 <= f x < 2 ^ 8) → bytes (read_range f a n).
Proof. intros Hf. unfold bytes, read_range. apply Forall_fmap, Forall_true. intros i. apply Hf. Qed.

Lemma write_range_in f a l i : 0 <= i < Z.of_nat (length l) → write_range f a l (a + i) = nth (Z.to_nat i) l 0.
Proof.
  intros Hi. unfold write_range. destruct (Z.leb_spec a (a + i)), (Z.ltb_spec (a + i) (a + Z.of_nat (length l))); try lia.
  cbn [andb]. by replace (a + i - a) with i by lia.
Qed.

Lemma write_range_out f a l x : ¬ (a <= x < a + Z.of_nat (length l)) → write_range f a l x = f x.
Proof. intros Hx. unfold write_range. by destruct (Z.leb_spec a x), (Z.ltb_spec x (a + Z.of_nat (length l))); try lia. Qed.

(** Loads, parts and stores of a range are ranges again. *)
Lemma view_range f a n off k : 0 <= off → 0 <= k → off + k <= n → view (read_range f a n) off k = Ok (read_range f (a + off) k).
Proof.
  intros Ho Hk Hn. rewrite view_drop; [|done|done|rewrite length_read_range; lia]. f_equal. apply list_eq. intros i.
  destruct (decide (i < Z.to_nat k)%nat) as [Hi|Hi].
  - rewrite lookup_take_lt, lookup_drop by lia. rewrite <-(Nat2Z.id i) at 2. rewrite read_range_lookup by lia.
    replace (Z.to_nat off + i)%nat with (Z.to_nat (off + Z.of_nat i)) by lia. rewrite read_range_lookup by lia. do 2 f_equal. lia.
  - rewrite lookup_take_ge by lia. symmetry. apply lookup_ge_None. rewrite <-(Nat2Z.id (length _)), length_read_range by lia. lia.
Qed.

Lemma st_range f a n off l :
  0 <= off → off + Z.of_nat (length l) <= n → st (read_range f a n) off l = Ok (read_range (write_range f (a + off) l) a n).
Proof.
  intros Ho Hn. unfold st. rewrite blit_spec; [|lia|lia|lia|rewrite length_read_range; lia|lia]. f_equal. change (Z.to_nat 0) with 0%nat.
  rewrite drop_0, Nat2Z.id, firstn_all. apply list_eq. intros i. destruct (decide (i < Z.to_nat n)%nat) as [Hi|Hi].
  2: { rewrite !lookup_ge_None_2; [done| |].
       - rewrite <-(Nat2Z.id (length _)), length_read_range by lia. lia.
       - rewrite !length_app, length_take, length_drop, <-(Nat2Z.id (length (read_range f a n))), length_read_range by lia. lia. }
  rewrite <-(Nat2Z.id i) at 2. rewrite read_range_lookup by lia.
  assert (Hlen : length (take (Z.to_nat off) (read_range f a n)) = Z.to_nat off).
  { rewrite length_take, <-(Nat2Z.id (length (read_range _ _ _))), length_read_range by lia. lia. }
  destruct (decide (i < Z.to_nat off)%nat).
  { rewrite lookup_app_l, lookup_take_lt by lia. rewrite <-(Nat2Z.id i) at 1. rewrite read_range_lookup by lia. rewrite write_range_out by lia. done. }
  rewrite lookup_app_r, Hlen by lia. destruct (decide (i - Z.to_nat off < length l)%nat).
  - rewrite lookup_app_l by done. rewrite (lookup_nth_in l _ 0) by done. replace (a + Z.of_nat i) with (a + off + (Z.of_nat i - off)) by lia.
    rewrite write_range_in by lia. do 2 f_equal. lia.
  - rewrite lookup_app_r, lookup_drop by lia. rewrite write_range_out by lia.
    replace (Z.to_nat (off + Z.of_nat (length l)) + (i - Z.to_nat off - length l))%nat with (Z.to_nat (Z.of_nat i)) by lia. by rewrite read_range_lookup by lia.
Qed.

(** Writing back a part that was changed in memory. *)
Lemma write_back f a n b l x :
  a <= b → b + Z.of_nat (length l) <= a + n → 0 <= n → write_range f a (read_range (write_range f b l) a n) x = write_range f b l x.
Proof.
  intros Hb Hl Hn. destruct (decide (a <= x < a + n)) as [Hin|Hout].
  - replace x with (a + (x - a)) at 1 by lia. rewrite write_range_in by (rewrite length_read_range; lia). rewrite read_range_nth by lia. f_equal. lia.
  - rewrite write_range_out by (rewrite length_read_range; lia). rewrite write_range_out; [done|lia].
Qed.

Lemma write_range_ext f g a l x : f x = g x → write_range f a l x = write_range g a l x.
Proof. intros E. unfold write_range. by rewrite E. Qed.

Lemma bytes_write_range f a l : (∀ x, 0 <= f x < 2 ^ 8) → bytes l → ∀ x, 0 <= write_range f a l x < 2 ^ 8.
Proof. intros Hf Hl x. unfold write_range. destruct (_ && _); [by apply nth_bytes|done]. Qed.

(** The words of a range. *)
Definition le16 (f : Z → Z) (a : Z) : Z := f a + 2 ^ 8 * f (a + 1).
Definition le32 (f : Z → Z) (a : Z) : Z := le16 f a + 2 ^ 16 * le16 f (a + 2).
Definition le64 (f : Z → Z) (a : Z) : Z := le32 f a + 2 ^ 32 * le32 f (a + 4).

Lemma ld16_range f a n i : 0 <= i → i + 2 <= n → ld16 (read_range f a n) i = Ok (le16 f (a + i)).
Proof. intros Hi Hn. unfold ld16. rewrite !read_range_get by lia. step. unfold le16. by replace (a + (i + 1)) with (a + i + 1) by lia. Qed.

Lemma ld32_range f a n i : 0 <= i → i + 4 <= n → ld32 (read_range f a n) i = Ok (le32 f (a + i)).
Proof. intros Hi Hn. unfold ld32. rewrite !ld16_range by lia. step. unfold le32. by replace (a + (i + 2)) with (a + i + 2) by lia. Qed.

Lemma ld64_range f a n i : 0 <= i → i + 8 <= n → ld64 (read_range f a n) i = Ok (le64 f (a + i)).
Proof. intros Hi Hn. unfold ld64. rewrite !ld32_range by lia. step. unfold le64. by replace (a + (i + 4)) with (a + i + 4) by lia. Qed.

Lemma le16_bound f a : (∀ x, 0 <= f x < 2 ^ 8) → 0 <= le16 f a < 2 ^ 16.
Proof. intros Hf. unfold le16. pose proof (Hf a). pose proof (Hf (a + 1)). lia. Qed.
Lemma le32_bound f a : (∀ x, 0 <= f x < 2 ^ 8) → 0 <= le32 f a < 2 ^ 32.
Proof. intros Hf. unfold le32. pose proof (le16_bound f a Hf). pose proof (le16_bound f (a + 2) Hf). lia. Qed.
Lemma le64_bound f a : (∀ x, 0 <= f x < 2 ^ 8) → 0 <= le64 f a < 2 ^ 64.
Proof. intros Hf. unfold le64. pose proof (le32_bound f a Hf). pose proof (le32_bound f (a + 4) Hf). lia. Qed.

Lemma le32_ext f g a : (∀ i, 0 <= i < 4 → f (a + i) = g (a + i)) → le32 f a = le32 g a.
Proof.
  intros E. unfold le32, le16. pose proof (E 0 ltac:(lia)) as E0. rewrite Z.add_0_r in E0. rewrite E0, (E 1), (E 2) by lia.
  replace (a + 2 + 1) with (a + 3) by lia. by rewrite (E 3) by lia.
Qed.

Lemma le32_written f a v : 0 <= v < 2 ^ 32 → le32 (write_range f a (le_bytes 4 v)) a = v.
Proof.
  intros Hv. unfold le32, le16.
  assert (E : ∀ i, 0 <= i < 4 → write_range f a (le_bytes 4 v) (a + i) = nth (Z.to_nat i) (le_bytes 4 v) 0) by (intros i Hi; apply write_range_in; simpl; lia).
  pose proof (E 0 ltac:(lia)) as E0. rewrite Z.add_0_r in E0. rewrite E0, (E 1), (E 2) by lia. replace (a + 2 + 1) with (a + 3) by lia. rewrite (E 3) by lia.
  exact (le4_value v Hv).
Qed.

(** * Lemmas: a partition keeps the laws of a device *)

Section part_laws.
Context {D : Type} `{BlockDev D} {working : D → Prop} `{!BlockDevLaws D working}.

Definition part_working (d : PartitionDevice D) : Prop :=
  working (parent d) ∧ 0 <= start_lba d ∧ 0 <= part_blocks d ∧ start_lba d + part_blocks d <= total_blocks (parent d) ∧
  g_storage_mode d = STORAGE_MODE_WRITABLE.

#[export, program] Instance partition_laws : BlockDevLaws (PartitionDevice D) part_working := {
  content d a := content (parent d) (start_lba d * block_size (parent d) + a)
}.
Next Obligation. intros d a (Hw & _). by apply content_byte. Qed.
Next Obligation. intros d (Hw & H1 & H2 & H3 & _). cbn. destruct (sizes _ Hw) as (Hb & Ht & Hm). split; [done|]. split; [done|]. nia. Qed.
Next Obligation.
  intros d lba count (Hw & H1 & H2 & H3 & Hg) Hl Hc Hr. cbn in *. destruct (sizes _ Hw) as (Hb & Ht & Hm). unfold partition_read_blocks.
  rewrite !u64_small by nia. destruct (Z.ltb_spec (part_blocks d) (lba + count)); [lia|].
  destruct (read_blocks_spec (parent d) (start_lba d + lba) count Hw ltac:(lia) Hc ltac:(lia)) as (p' & E & Hw' & Eb & Et & Ec). rewrite E.
  exists (with_parent d p'). cbn [parent start_lba part_blocks with_parent]. split.
  - f_equal. f_equal. apply read_range_ext. intros i Hi. f_equal. lia.
  - split; [|split; [done|split; [done|by intros a; rewrite Eb, Ec]]]. unfold part_working. cbn [parent start_lba part_blocks g_storage_mode with_parent].
    by rewrite Et.
Qed.
Next Obligation.
  intros d lba count l (Hw & H1 & H2 & H3 & Hg) Hl Hc Hr Hlen Hby. cbn in *. destruct (sizes _ Hw) as (Hb & Ht & Hm). unfold partition_write_blocks.
  rewrite Hg. cbn [storage_writes_allowed STORAGE_MODE_WRITABLE Z.eqb Pos.eqb negb].
  rewrite !u64_small by nia. destruct (Z.ltb_spec (part_blocks d) (lba + count)); [lia|].
  destruct (write_blocks_spec (parent d) (start_lba d + lba) count l Hw ltac:(lia) Hc ltac:(lia) Hlen Hby) as (p' & E & Hw' & Eb & Et & Ec). rewrite E.
  exists (with_parent d p'). cbn [parent start_lba part_blocks with_parent]. split; [done|].
  split; [|split; [done|split; [done|]]].
  - unfold part_working. cbn [parent start_lba part_blocks g_storage_mode with_parent]. by rewrite Et.
  - intros a. rewrite Eb, Ec. unfold write_range. replace ((start_lba d + lba) * block_size (parent d)) with (start_lba d * block_size (parent d) + lba * block_size (parent d)) by lia.
    set (X := start_lba d * _). set (Y := lba * _). replace (X + a - (X + Y)) with (a - Y) by lia.
    destruct (Z.leb_spec (X + Y) (X + a)), (Z.leb_spec Y a), (Z.ltb_spec (X + a) (X + Y + Z.of_nat (length l))), (Z.ltb_spec a (Y + Z.of_nat (length l))); try done; lia.
Qed.
End part_laws.

(** * Lemmas: scanning *)

Section scan_safe.
Context {D : Type} `{BlockDev D} {working : D → Prop} `{!BlockDevLaws D working}.

(** What a scan may have registered. *)
Definition scan_entry_ok (e : PartitionScanEntry) : Prop :=
  0 < se_block_count e < 2 ^ 64 ∧ 0 <= se_start_lba e < 2 ^ 64 ∧ (length (se_label e) < 64)%nat ∧ Forall (λ c, 32 <= c < 127) (se_label e).

Definition same_disk (d d' : D) : Prop :=
  block_size d' = block_size d ∧ total_blocks d' = total_blocks d ∧ ∀ a, content d' a = content d a.

Definition scan_ok (d : D) (s : Scan D) : Prop := working (sdev s) ∧ same_disk d (sdev s) ∧ Forall scan_entry_ok (registered s).

Lemma same_disk_trans d1 d2 d3 : same_disk d1 d2 → same_disk d2 d3 → same_disk d1 d3.
Proof. intros (E1 & E2 & E3) (F1 & F2 & F3). split; [congruence|]. split; [congruence|]. intros a. by rewrite F3, E3. Qed.

Lemma utf16le_to_ascii_safe f a m size n : ∀ off out,
  0 <= off → off + 2 * Z.of_nat n <= m → (Z.of_nat (length out) < size) → Forall (λ c, 32 <= c < 127) out →
  ∃ out', utf16le_to_ascii (read_range f a m) off n out size = Ok out' ∧ Z.of_nat (length out') < size ∧ Forall (λ c, 32 <= c < 127) out'.
Proof.
  induction n as [|n IH]; intros off out Ho Hm Hl Hf; cbn [utf16le_to_ascii]; [by exists out|].
  destruct (Z.leb_spec size (Z.of_nat (length out) + 1)); [by exists out|]. rewrite ld16_range by lia. step. set (cp := le16 _ _).
  destruct ((cp =? 0) || (cp =? 0xFFFF)); [by exists out|]. apply IH; [lia|lia|rewrite length_app; simpl; lia|].
  apply Forall_app. split; [done|]. constructor; [|constructor]. destruct (Z.leb_spec 32 cp), (Z.ltb_spec cp 127); simpl; lia.
Qed.

Lemma guid_all_zero_safe f a m n : ∀ off, 0 <= off → off + Z.of_nat n <= m → ∃ b, guid_all_zero (read_range f a m) off n = Ok b.
Proof.
  induction n as [|n IH]; intros off Ho Hm; cbn [guid_all_zero]; [by exists true|]. rewrite read_range_get by lia. step.
  destruct (f (a + off) =? 0); [apply IH; lia|by exists false].
Qed.

(** An entry that does not leave the sector is parsed. *)
Lemma gpt_entry_safe f a m off size index :
  (∀ x, 0 <= f x < 2 ^ 8) → 0 <= off → off + size <= m →
  ∃ o, partition_parse_gpt_entry (read_range f a m) off size index = Ok o ∧
    match o with Some e => se_block_count e ≠ 0 → scan_entry_ok e | None => True end.
Proof.
  intros Hf Ho Hm. unfold partition_parse_gpt_entry, GPT_ENTRY_SIZE. destruct (Z.ltb_spec size 128); [by exists None|].
  destruct (index =? 0); [by exists None|]. cbn [orb]. destruct (guid_all_zero_safe f a m 16 off ltac:(lia) ltac:(lia)) as [b Eb]. step_with Eb.
  rewrite !ld64_range by lia. step. destruct b; [by exists None|]. cbn [orb]. pose proof (le64_bound f (a + (off + 32)) Hf). pose proof (le64_bound f (a + (off + 40)) Hf).
  destruct (Z.ltb_spec (le64 f (a + (off + 40))) (le64 f (a + (off + 32)))); [by exists None|].
  destruct (utf16le_to_ascii_safe f a m 64 36 (off + 56) [] ltac:(lia) ltac:(lia) ltac:(simpl; lia) ltac:(done)) as (out & E & Hl & Hp). step_with E.
  eexists. split; [done|]. intros Hne. split; [|split; [done|split; [cbn [se_label]; lia|done]]]. cbn [se_block_count] in *.
  pose proof (u64_range (le64 f (a + (off + 40)) - le64 f (a + (off + 32)) + 1)). lia.
Qed.

Lemma register_ok d e s : scan_ok d s → (se_block_count e ≠ 0 → scan_entry_ok e) → scan_ok d (snd (register_partition e s)).
Proof.
  intros (Hw & Hs & Hr) He. unfold register_partition. destruct (Z.eqb_spec (se_block_count e) 0) as [|Hne]; [done|].
  destruct (malloc_next (sheap s)) as [ok1 h1], (malloc_next h1) as [ok2 h2]. destruct (ok1 && ok2); cbn [snd]; split; cbn [sdev registered]; try done.
  split; [done|]. apply Forall_app. auto.
Qed.

Lemma mbr_entries_safe f a m :
  (∀ x, 0 <= f x < 2 ^ 8) → 512 <= m →
  ∃ l, partition_parse_mbr_entries (read_range f a m) 4 = Ok l ∧ Forall (λ e, se_block_count e ≠ 0 → scan_entry_ok e) l.
Proof.
  intros Hf Hm. unfold partition_parse_mbr_entries. cbn [Z.leb Z.compare]. rewrite !read_range_get by lia. step.
  destruct (negb _); [by exists []|].
  destruct (for_upto_rule (λ _ l, Forall (λ e, se_block_count e ≠ 0 → scan_entry_ok e) l) (mbr_step (read_range f a m) 4) 4 0 []) as (l & E & Hl); [|done|by exists l].
  intros i l Hi Hl. unfold mbr_step. destruct (Z.leb_spec 4 (Z.of_nat (length l))); [by exists l|].
  unfold mbr_entry. rewrite read_range_get, !ld32_range by lia. step. set (ty := f _). set (first := le32 _ _). set (count := le32 _ _).
  destruct (_ || _ || _); [by exists l|]. eexists. split; [done|]. apply Forall_app. split; [done|]. constructor; [|constructor].
  cbn [se_block_count]. intros Hne. pose proof (le32_bound f (a + (446 + 16 * i + 8)) Hf). pose proof (le32_bound f (a + (446 + 16 * i + 12)) Hf).
  split; [|split; [|split; [simpl; lia|done]]]; cbn [se_block_count se_start_lba]; unfold first, count in *; lia.
Qed.

Lemma scan_read d s lba :
  scan_ok d s → 0 <= lba → lba + 1 <= total_blocks d →
  ∃ d', read_blocks lba 1 (sdev s) = (Some (read_range (content d) (lba * block_size d) (block_size d)), d') ∧
    ∀ heap, scan_ok d (mkScanState d' heap (registered s)).
Proof.
  intros (Hw & Hs & Hr) Hl Ht. pose proof Hs as (E1 & E2 & E3).
  destruct (read_blocks_spec (sdev s) lba 1 Hw Hl ltac:(lia)) as (d' & E & Hw' & Eb & Et & Ec); [by rewrite E2|]. exists d'. split.
  - rewrite E, E1, Z.mul_1_l. f_equal. f_equal. apply read_range_ext. intros i _. apply E3.
  - intros heap. split; [done|]. split; [|done]. by apply (same_disk_trans d (sdev s)).
Qed.

(** A device may also refuse a read. *)
Definition reads_or_refuses (d : D) : Prop :=
  ∀ d1 lba, working d1 → same_disk d d1 → ¬ (0 <= lba ∧ lba + 1 <= total_blocks d) →
    ∃ d', read_blocks lba 1 d1 = (None, d') ∧ working d' ∧ same_disk d1 d'.

Lemma scan_read_any d s lba :
  reads_or_refuses d → scan_ok d s →
  ∃ r d', read_blocks lba 1 (sdev s) = (r, d') ∧ (∀ heap, scan_ok d (mkScanState d' heap (registered s))) ∧
    (r = None ∨ ∃ a, r = Some (read_range (content d) a (block_size d))).
Proof.
  intros Hany Hs. destruct (decide (0 <= lba ∧ lba + 1 <= total_blocks d)) as [[Hl Ht]|Hout].
  - destruct (scan_read d s lba Hs Hl Ht) as (d' & E & Hs'). eexists _, d'. split; [done|]. split; [done|]. right. by eexists.
  - pose proof Hs as (Hw & Hsd & Hr). destruct (Hany (sdev s) lba Hw Hsd Hout) as (d' & E & Hw' & Hsd'). exists None, d'. split; [done|]. split; [|by left].
    intros heap. split; [done|]. split; [|done]. by apply (same_disk_trans d (sdev s)).
Qed.

Lemma gpt_step_safe d info per idx sector count s stop :
  working d → reads_or_refuses d → scan_ok d s → 0 < per → 0 < entry_size info → per * entry_size info <= block_size d →
  (stop = false → idx mod per ≠ 0 → ∃ a, sector = read_range (content d) a (block_size d)) →
  ∃ st', gpt_step info per idx (stop, sector, count, s) = Ok st' ∧ scan_ok d (snd st') ∧
    (st'.1.1.1 = false → ∃ a, st'.1.1.2 = read_range (content d) a (block_size d)).
Proof.
  intros Hwd Hany Hs Hper Hes Hfit Hsec. unfold gpt_step. destruct stop; [eexists; split; [done|]; done|].
  assert (Hread : ∃ r d', (if idx mod per =? 0 then read_blocks (u64 (entries_lba info + idx / per)) 1 (sdev s) else (Some sector, sdev s)) = (r, d') ∧
    (∀ heap, scan_ok d (mkScanState d' heap (registered s))) ∧ (r = None ∨ ∃ a, r = Some (read_range (content d) a (block_size d)))).
  { destruct (Z.eqb_spec (idx mod per) 0) as [|Hne]; [by apply scan_read_any|]. destruct (Hsec eq_refl Hne) as [a ->].
    eexists _, _. split; [done|]. split; [intros heap; destruct Hs as (? & ? & ?); by split|]. right. by exists a. }
  destruct Hread as (r & d' & E & Hs' & Hr). rewrite E. destruct r as [sec|]; [|eexists; split; [done|]; split; [apply Hs'|done]].
  destruct Hr as [|[a Ea]]; [done|]. injection Ea as ->.
  assert (Hmod : 0 <= idx mod per < per) by by apply Z.mod_pos_bound.
  destruct (gpt_entry_safe (content d) a (block_size d) (idx mod per * entry_size info) (entry_size info) (u32 (idx + 1))) as (o & Eo & Ho);
    [intros x; by apply content_byte|nia|nia|].
  step_with Eo. destruct o as [e|]; [|eexists; split; [done|]; split; [apply Hs'|by exists a]].
  pose proof (register_ok d e _ (Hs' (sheap s)) Ho) as Hreg. destruct (register_partition _ _) as [ok s2]. eexists. split; [done|]. split; [done|by exists a].
Qed.

Lemma scan_gpt_safe d s :
  working d → reads_or_refuses d → scan_ok d s → 512 <= block_size d < 2 ^ 32 → 2 <= total_blocks d →
  ∃ b s', scan_gpt s = Ok (b, s') ∧ scan_ok d s'.
Proof.
  intros Hw Hany Hs Hb Ht. assert (Hs' : ∀ heap, scan_ok d (mkScanState (sdev s) heap (registered s))) by (intros heap; destruct Hs as (? & ? & ?); by split).
  unfold scan_gpt. destruct (malloc_next (sheap s)) as [ok heap]. destruct ok; cbn [negb]; [|eauto].
  destruct (scan_read d s 1 Hs ltac:(lia) ltac:(lia)) as (d' & E & Hsd). rewrite E. pose proof (Hsd heap) as (Hw' & (Eb & _) & _). cbn [sdev] in *.
  rewrite Eb. unfold partition_parse_gpt_header. rewrite u32_small by lia. destruct (Z.ltb_spec (block_size d) 512); [lia|].
  rewrite !ld64_range, !ld32_range by lia. step. set (lba := le64 _ (_ + 72)). set (count := le32 _ (_ + 80)). set (size := le32 _ (_ + 84)).
  destruct (_ || _ || _ || _) eqn:Eg; step; [eauto|]. rewrite !orb_false_iff in Eg. destruct Eg as (((_ & G1) & _) & G2).
  apply Z.ltb_ge in G1, G2. unfold GPT_ENTRY_SIZE in G1. cbn [entry_size entry_count]. destruct (Z.eqb_spec (block_size d / size) 0); [eauto|].
  cbn [sheap sdev registered]. destruct (malloc_next heap) as [ok2 heap2]. destruct ok2; cbn [negb]; [|eauto].
  assert (Hper : 0 < block_size d / size) by (apply Z.div_str_pos; lia).
  assert (Hfit : block_size d / size * size <= block_size d) by (rewrite Z.mul_comm; apply Z.mul_div_le; lia).
  destruct (for_upto_rule (λ k (st : bool * list Z * Z * Scan D), scan_ok d (snd st) ∧
      (st.1.1.1 = false → k mod (block_size d / size) ≠ 0 → ∃ a, st.1.1.2 = read_range (content d) a (block_size d)))
    (gpt_step (mkGpt lba count size) (block_size d / size)) (Z.to_nat count) 0 (false, [], 0, mkScanState d' heap2 (registered s)))
    as ([[[stop sec] cnt] s2] & E2 & Hs2 & _).
  - intros k [[[stop sec] cnt] s1] Hk [H1 H2]. cbn [fst snd] in *.
    destruct (gpt_step_safe d (mkGpt lba count size) (block_size d / size) k sec cnt s1 stop) as (st' & E' & H1' & H2'); try done; [cbn [entry_size]; lia|].
    exists st'. split; [done|]. split; [done|]. intros Hf _. by apply H2'.
  - cbn [fst snd]. split; [done|]. by rewrite Z.mod_0_l by lia.
  - step_with E2. cbn [snd] in Hs2. eauto.
Qed.

Lemma scan_mbr_safe d s :
  working d → scan_ok d s → 512 <= block_size d → 1 <= total_blocks d → ∃ s', scan_mbr s = Ok s' ∧ scan_ok d s'.
Proof.
  intros Hw Hs Hb Ht. unfold scan_mbr. destruct (malloc_next (sheap s)) as [ok heap]. destruct ok; cbn [negb]; [|eexists; split; [done|]; by destruct Hs as (? & ? & ?)].
  destruct (scan_read d s 0 Hs ltac:(lia) ltac:(lia)) as (d' & E & Hsd). rewrite E.
  destruct (mbr_entries_safe (content d) (0 * block_size d) (block_size d)) as (l & El & Hl); [intros x; by apply content_byte|done|]. step_with El.
  eexists. split; [done|]. generalize (mkScanState d' heap (registered s)) (Hsd heap). clear El E. induction Hl as [|e l He Hl IH]; intros s0 Hs0; [done|].
  cbn [foldl]. apply IH. by apply register_ok.
Qed.
End scan_safe.

(** * A disk in memory *)

Record RamDisk := mkRam { ram_block : Z; ram_blocks : Z; ram : Z → Z }.

#[export] Instance ram_dev : BlockDev RamDisk := {
  block_size := ram_block;
  total_blocks := ram_blocks;
  read_blocks lba count d :=
    if (0 <=? lba) && (lba + count <=? ram_blocks d) then (Some (read_range (ram d) (lba * ram_block d) (count * ram_block d)), d) else (None, d);
  write_blocks lba count l d :=
    if (0 <=? lba) && (lba + count <=? ram_blocks d) then (true, mkRam (ram_block d) (ram_blocks d) (write_range (ram d) (lba * ram_block d) l))
    else (false, d)
}.

Definition ram_working (d : RamDisk) : Prop :=
  0 < ram_block d ∧ 0 <= ram_blocks d ∧ ram_blocks d * ram_block d < 2 ^ 64 ∧ ∀ a, 0 <= ram d a < 2 ^ 8.

#[export, program] Instance ram_laws : BlockDevLaws RamDisk ram_working := { content := ram }.
Next Obligation. intros d a (_ & _ & _ & Hb). apply Hb. Qed.
Next Obligation. intros d (H1 & H2 & H3 & _). done. Qed.
Next Obligation.
  intros d lba count Hw Hl Hc Ht. cbn in *. exists d. destruct (Z.leb_spec 0 lba), (Z.leb_spec (lba + count) (ram_blocks d)); try lia. by cbn [andb].
Qed.
Next Obligation.
  intros d lba count l (H1 & H2 & H3 & H4) Hl Hc Ht Hlen Hb. cbn in *. destruct (Z.leb_spec 0 lba), (Z.leb_spec (lba + count) (ram_blocks d)); try lia. cbn [andb].
  eexists. split; [done|]. cbn [ram ram_block ram_blocks]. split; [|done]. split; [done|]. split; [done|]. split; [done|]. intros a. cbn [ram].
  unfold write_range. destruct (_ && _); [|apply H4]. by apply nth_bytes.
Qed.

(** * Properties *)


(** C21: scanning a disk for partitions is safe whatever its sectors hold and whichever
    allocations fail: it ends without an access outside a buffer, leaves the disk as it
    was, and registers only partitions with a positive number of sectors and a printable
    label that fits its field. *)
Theorem partition_scan_safe {D} `{BlockDev D} (working : D → Prop) `{!BlockDevLaws D working} (d : D) heap :
  working d → reads_or_refuses (working := working) d → 512 <= block_size d < 2 ^ 32 → 2 <= total_blocks d →
  ∃ s, partition_scan (mkScanState d heap []) = Ok s ∧ (∀ a, content (sdev s) a = content d a) ∧ Forall scan_entry_ok (registered s).
Proof.
  intros Hw Hany Hb Ht. assert (Hs : scan_ok (working := working) d (mkScanState d heap [])) by done.
  unfold partition_scan. cbn [sdev]. destruct (Z.ltb_spec (block_size d) 512); [lia|].
  destruct (scan_gpt_safe d _ Hw Hany Hs Hb Ht) as (b & s & E & Hs1). step_with E. destruct b.
  - exists s. split; [done|]. destruct Hs1 as (_ & (_ & _ & Ec) & Hf). done.
  - destruct (scan_mbr_safe d s Hw Hs1 ltac:(lia) ltac:(lia)) as (s2 & E2 & _ & (_ & _ & Ec) & Hf). by exists s2.
Qed.

(** ** Witnesses *)

(** A disk whose first sector is an MBR with one partition, of 8 sectors at sector 4. *)
Definition mbr_disk : RamDisk :=
  mkRam 512 64 (λ a, if a =? 450 then 12 else if a =? 454 then 4 else if a =? 458 then 8 else if a =? 510 then 0x55 else if a =? 511 then 0xAA else 0).

Lemma mbr_disk_working : ram_working mbr_disk.
Proof. split_and!; [done..|]. intros a. cbn [mbr_disk ram]. repeat case_match; lia. Qed.


Lemma partition_scan_safe_witness :
  ∃ s, partition_scan (mkScanState mbr_disk [true; true; true; true; true] []) = Ok s ∧ registered s = [mkScan 1 4 8 []] ∧ Forall scan_entry_ok (registered s).
Proof.
  destruct (partition_scan_safe ram_working mbr_disk [true; true; true; true; true] mbr_disk_working) as (s & E & _ & Hf).
  - intros d1 lba Hw (E1 & E2 & E3) Hout. exists d1. split; [|done]. cbn in *. destruct (Z.leb_spec 0 lba), (Z.leb_spec (lba + 1) (ram_blocks d1)); try done; lia.
  - cbn. lia.
  - cbn. lia.
  - exists s. split; [exact E|]. split; [|exact Hf]. assert (E' : match partition_scan (mkScanState mbr_disk [true; true; true; true; true] []) with Ok s => Some (registered s) | _ => None end = Some [mkScan 1 4 8 []])
      by (vm_compute; reflexivity). rewrite E in E'. by injection E'.
Defined.

(** The range test of a partition overflows: sector [2 ^ 64 - 1] of a partition is taken to
    lie in it, and is the disk's sector before the partition. *)
Example partition_escapes :
  ∃ d', partition_write_blocks (2 ^ 64 - 1) 1 (replicate 512 7) (mkPart mbr_disk 4 8 2) = (true, d') ∧ content (parent d') (3 * 512) = 7.
Proof. eexists. split; vm_compute; reflexivity. Qed.
