(* ===== verification/FatName.v ===== *)
(** Names on a FAT32 volume (src/fs/fat32/fat32.cpp): the 8.3 names and when they are
    enough, the conversion between UTF-8 and the UTF-16 units of a long name, and the
    directory entries a name is stored in. A C string is the list of its bytes without
    the terminating NUL; a read after the NUL is a fault. *)

From S2P Require Import Prelude Wire.

Definition SPACE : Z := 32.
Definition DOT : Z := 46.
Definition ENTRY : Z := 32.
Definition FAT_ATTR_VOLUME_ID : Z := 0x08.
Definition FAT_ATTR_DIRECTORY : Z := 0x10.
Definition FAT_ATTR_ARCHIVE : Z := 0x20.
Definition FAT_ATTR_LFN : Z := 0x0F.

(** The characters up to the first NUL. *)
Fixpoint c_string (l : list Z) : list Z :=
  match l with
  | [] => []
  | c :: l' => if c =? 0 then [] else c :: c_string l'
  end.

(** ** Comparing names *)

Definition ascii_upper (c : Z) : Z := if (97 <=? c) && (c <=? 122) then c - 97 + 65 else c.
Definition ascii_equal_ci (a b : Z) : bool := ascii_upper a =? ascii_upper b.

Fixpoint name_equal_ci (a b : list Z) : bool :=
  match a, b with
  | [], [] => true
  | x :: a', y :: b' => ascii_equal_ci x y && name_equal_ci a' b'
  | _, _ => false
  end.

(** [kstring::strcmp(a, b) == 0] *)
Fixpoint name_eq (a b : list Z) : bool :=
  match a, b with
  | [], [] => true
  | x :: a', y :: b' => (x =? y) && name_eq a' b'
  | _, _ => false
  end.

(** ** Short names *)

(** The punctuation an 8.3 name may have: $ % ' - _ @ ~ ` ! ( ) { } ^ # & *)
Definition short_punct (c : Z) : bool :=
  existsb (Z.eqb c) [36; 37; 39; 45; 95; 64; 126; 96; 33; 40; 41; 123; 125; 94; 35; 38].
Definition upper_or_digit (c : Z) : bool := ((65 <=? c) && (c <=? 90)) || ((48 <=? c) && (c <=? 57)).
Definition is_lower (c : Z) : bool := (97 <=? c) && (c <=? 122).

(** The loop of [name_requires_lfn]: [None] for its early returns. *)
Fixpoint classify (name : list Z) (saw_dot saw_lower : bool) (base_len ext_len : Z) : option (bool * Z * Z) :=
  match name with
  | [] => Some (saw_lower, base_len, ext_len)
  | c :: name' =>
      if c =? DOT then if saw_dot then None else classify name' true saw_lower base_len ext_len
      else
        let allowed := upper_or_digit c || short_punct c in
        if negb allowed && negb (is_lower c) then None
        else
          classify name' saw_dot (saw_lower || is_lower c) (if saw_dot then base_len else base_len + 1) (if saw_dot then ext_len + 1 else ext_len)
  end.

Definition name_requires_lfn (name : list Z) : bool :=
  match name with
  | [] => true
  | _ =>
      match classify name false false 0 0 with
      | None => true
      | Some (saw_lower, base_len, ext_len) =>
          saw_lower || (base_len =? 0) || (8 <? base_len) || (3 <? ext_len) || name_eq name [DOT] || name_eq name [DOT; DOT]
      end
  end.

Definition sanitize_short_char (c : Z) : Z :=
  let c := ascii_upper c in
  if upper_or_digit c then c else if short_punct c then c else 95.

(** The base (at most 8) and the extension (at most 3) of a name. *)
Fixpoint split_name (name base ext : list Z) (seen_dot : bool) : list Z * list Z :=
  match name with
  | [] => (base, ext)
  | c :: name' =>
      if c =? DOT then split_name name' base ext true
      else if negb seen_dot then
        split_name name' (if (length base <? 8)%nat then base ++ [sanitize_short_char c] else base) ext seen_dot
      else split_name name' base (if (length ext <? 3)%nat then ext ++ [sanitize_short_char c] else ext) seen_dot
  end.

(** [kstring::itoa] of a positive number, base 10. *)
Fixpoint itoa_digits (fuel : nat) (v : Z) (acc : list Z) : list Z :=
  match fuel with
  | O => acc
  | S n => let acc := (48 + v mod 10) :: acc in if v / 10 =? 0 then acc else itoa_digits n (v / 10) acc
  end.

(** [for (i = 0; i < n && i < length src; i++) out[off + i] = src[i]] *)
Definition put (out : list Z) (off : Z) (src : list Z) (n : nat) : res (list Z) := st out off (take n src).

Definition format_short_name (name : list Z) (suffix : Z) : res (list Z) :=
  let '(base, ext) := split_name name [] [] false in
  let out := replicate 11 SPACE in
  let base := if decide (base = []) then [95] else base in
  if suffix =? 0 then
    out ← put out 0 base 8;
    put out 8 ext 3
  else
    let digits := itoa_digits 20 suffix [] in
    let prefix_len := 8 - 1 - Z.of_nat (length digits) in
    let prefix_len := if prefix_len <? 1 then 1 else prefix_len in
    out ← put out 0 base (Z.to_nat prefix_len);
    out ← arr_set out prefix_len 126;
    out ← put out (prefix_len + 1) digits (Z.to_nat (8 - (prefix_len + 1)));
    put out 8 ext 3.

(** The text of the eleven bytes of an 8.3 name. *)
Fixpoint until_space (l : list Z) : list Z :=
  match l with
  | [] => []
  | c :: l' => if c =? SPACE then [] else c :: until_space l'
  end.

(** The output has room for 12 characters and the NUL, so that the size tests all pass. *)
Definition short_name_to_string (short_name : list Z) : list Z :=
  let base := until_space (take 8 short_name) in
  c_string
    match drop 8 short_name with
    | c :: _ => if c =? SPACE then base else base ++ [DOT] ++ until_space (drop 8 short_name)
    | [] => base
    end.

Definition lfn_checksum (short_name : list Z) : Z :=
  foldl (λ sum c, u8 ((if has sum 1 then 0x80 else 0) + Z.shiftr sum 1 + c)) 0 short_name.

(** ** Long names *)

(** [utf16_to_utf8]: the units [i .. i + n - 1] of [src]; [None] is the result -1. *)
Fixpoint utf16_to_utf8 (src : list Z) (i : Z) (n : nat) (out : list Z) (out_size : Z) : res (option (list Z)) :=
  match n with
  | O => Ok (Some out)
  | S n' =>
      cp ← arr_get src i;
      let pos := Z.of_nat (length out) in
      if (cp =? 0) || (cp =? 0xFFFF) then Ok (Some out)
      else if (0xD800 <=? cp) && (cp <=? 0xDFFF) then Ok None
      else if cp <? 0x80 then
        if out_size <=? pos + 1 then Ok None else utf16_to_utf8 src (i + 1) n' (out ++ [cp]) out_size
      else if cp <? 0x800 then
        if out_size <=? pos + 2 then Ok None
        else utf16_to_utf8 src (i + 1) n' (out ++ [Z.lor 0xC0 (Z.shiftr cp 6); Z.lor 0x80 (Z.land cp 0x3F)]) out_size
      else if out_size <=? pos + 3 then Ok None
      else
        utf16_to_utf8 src (i + 1) n'
          (out ++ [Z.lor 0xE0 (Z.shiftr cp 12); Z.lor 0x80 (Z.land (Z.shiftr cp 6) 0x3F); Z.lor 0x80 (Z.land cp 0x3F)]) out_size
  end.

Definition continuation (c : Z) : bool := Z.land c 0xC0 =? 0x80.

Fixpoint utf8_to_utf16_bmp (src : list Z) (out : list Z) (max_units : Z) : res (option (list Z)) :=
  match src with
  | [] => Ok (Some out)
  | c :: src1 =>
      if max_units <=? Z.of_nat (length out) then Ok None
      else if c <? 0x80 then utf8_to_utf16_bmp src1 (out ++ [c]) max_units
      else if Z.land c 0xE0 =? 0xC0 then
        match src1 with
        | [] => Ok None
        | c2 :: src2 =>
            if negb (continuation c2) then Ok None
            else utf8_to_utf16_bmp src2 (out ++ [Z.lor (Z.shiftl (Z.land c 0x1F) 6) (Z.land c2 0x3F)]) max_units
        end
      else if Z.land c 0xF0 =? 0xE0 then
        match src1 with
        | [] => Fault
        | c2 :: src2 =>
            match src2 with
            | [] => Ok None
            | c3 :: src3 =>
                if negb (continuation c2) || negb (continuation c3) then Ok None
                else
                  let cp := Z.lor (Z.lor (Z.shiftl (Z.land c 0x0F) 12) (Z.shiftl (Z.land c2 0x3F) 6)) (Z.land c3 0x3F) in
                  if (0xD800 <=? cp) && (cp <=? 0xDFFF) then Ok None else utf8_to_utf16_bmp src3 (out ++ [cp]) max_units
            end
        end
      else Ok None
  end.

(** ** Entries *)

Definition le16_list (l : list Z) : list Z := l ≫= le_bytes 2.

(** [name] is the eleven bytes of an 8.3 name. *)
Definition short_entry (name : list Z) (attr cluster size : Z) : list Z :=
  name ++ [attr] ++ replicate 8 0 ++ le_bytes 2 (u16 (Z.land (Z.shiftr cluster 16) 0xFFFF)) ++ replicate 4 0 ++
  le_bytes 2 (u16 (Z.land cluster 0xFFFF)) ++ le_bytes 4 size.

(** The thirteen units of part [ord]: the name, a terminating 0, and padding. *)
Definition lfn_chars (utf16 : list Z) (ord : Z) : list Z :=
  (λ i : nat,
    let idx := (ord - 1) * 13 + Z.of_nat i in
    if idx <? Z.of_nat (length utf16) then nth (Z.to_nat idx) utf16 0
    else if idx =? Z.of_nat (length utf16) then 0 else 0xFFFF) <$> seq 0 13.

Definition lfn_entry (utf16 : list Z) (checksum lfn_count entry_idx : Z) : list Z :=
  let ord := lfn_count - entry_idx in
  let chars := lfn_chars utf16 ord in
  [if entry_idx =? 0 then Z.lor (u8 ord) 0x40 else u8 ord] ++ le16_list (take 5 chars) ++ [FAT_ATTR_LFN; 0; checksum] ++
  le16_list (take 6 (drop 5 chars)) ++ [0; 0] ++ le16_list (drop 11 chars).

(** The part of [build_dir_entries] after the short name has been chosen; [None] is the result -1. *)
Definition name_entries (name short_name : list Z) (attr cluster size max_entries : Z) : res (option (list (list Z))) :=
  let short := short_entry short_name attr cluster size in
  if negb (name_requires_lfn name) then Ok (Some [short])
  else
    units ← utf8_to_utf16_bmp name [] 255;
    match units with
    | None => Ok None
    | Some utf16 =>
        let lfn_count := (Z.of_nat (length utf16) + 12) / 13 in
        if max_entries <? lfn_count + 1 then Ok None
        else
          let checksum := lfn_checksum short_name in
          Ok (Some (((λ i : nat, lfn_entry utf16 checksum lfn_count (Z.of_nat i)) <$> seq 0 (Z.to_nat lfn_count)) ++ [short]))
    end.
