(* ===== verification/Fat.v ===== *)
(** FAT32 volumes (src/fs/fat32/fat32.cpp): the boot sector, the file allocation tables,
    the FSInfo sector, and the allocation and release of clusters, over any block device.
    [malloc] is a stream of outcomes: a refusal, or a block with arbitrary contents. *)

From S2P Require Import Prelude Wire Disk FatName.

Record FAT32Filesystem := mkFs {
  bytes_per_sector : Z; sectors_per_cluster : Z; reserved_sectors : Z; fat_count : Z; sectors_per_fat : Z;
  root_dir_cluster : Z; fsinfo_sector : Z; total_sectors : Z; cluster_count : Z;
  next_free_cluster : Z; free_cluster_count : Z; volume_label : list Z
}.

(** The fields that change after the volume is mounted. *)
Definition set_alloc (next free : Z) (fs : FAT32Filesystem) : FAT32Filesystem :=
  mkFs (bytes_per_sector fs) (sectors_per_cluster fs) (reserved_sectors fs) (fat_count fs) (sectors_per_fat fs) (root_dir_cluster fs)
    (fsinfo_sector fs) (total_sectors fs) (cluster_count fs) next free (volume_label fs).

Definition FAT_CLUSTER_EOF : Z := 0x0FFFFFF8.
Definition FAT_END : Z := 0x0FFFFFFF.
Definition FAT32_FSINFO_LEAD_SIGNATURE : Z := 0x41615252.
Definition FAT32_FSINFO_STRUCT_SIGNATURE : Z := 0x61417272.
Definition FAT32_FSINFO_TRAIL_SIGNATURE : Z := 0xAA550000.
Definition FAT32_FSINFO_UNKNOWN : Z := 0xFFFFFFFF.

(** The walks along a chain have more steps than there are cluster numbers. *)
Definition CHAIN_FUEL : positive := 2 ^ 33.

(** ** The boot sector *)

(** Without trailing blanks. *)
Fixpoint trim_label (l : list Z) : list Z :=
  match l with
  | [] => []
  | c :: l' => match trim_label l' with [] => if c =? 32 then [] else [c] | r => c :: r end
  end.

Definition fat32_parse_boot_sector (bs : list Z) : res (option FAT32Filesystem) :=
  bps ← ld16 bs 11;
  spc ← arr_get bs 13;
  spf ← ld32 bs 36;
  root ← ld32 bs 44;
  fats ← arr_get bs 16;
  if (negb (bps =? 512) && negb (bps =? 4096)) || (spc =? 0) || (spf =? 0) || (root <? 2) || (fats =? 0) then Ok None
  else
    reserved ← ld16 bs 14;
    fsinfo ← ld16 bs 48;
    total16 ← ld16 bs 19;
    total32 ← ld32 bs 32;
    let total := if total16 =? 0 then total32 else total16 in
    let data_start := u32 (reserved + u32 (fats * spf)) in
    if total <=? data_start then Ok None
    else
      label ← view bs 71 11;
      Ok (Some (mkFs bps spc reserved fats spf root fsinfo total ((total - data_start) / spc) 2 FAT32_FSINFO_UNKNOWN (trim_label (c_string label)))).

(** ** State *)

Record World (D : Type) := mkWorld { dev : D; heap : Z → option (Z → Z); tick : Z }.
Arguments mkWorld {D}.
Arguments dev {D}.
Arguments heap {D}.
Arguments tick {D}.

Section fat.
Context {D : Type} `{BlockDev D}.

Definition set_dev (d : D) (w : World D) : World D := mkWorld d (heap w) (tick w).

Definition kmalloc (w : World D) : option (Z → Z) * World D := (heap w (tick w), mkWorld (dev w) (heap w) (tick w + 1)).

Definition dev_read (lba count : Z) (w : World D) : option (list Z) * World D :=
  let '(r, d) := read_blocks lba count (dev w) in (r, set_dev d w).
Definition dev_write (lba count : Z) (l : list Z) (w : World D) : bool * World D :=
  let '(r, d) := write_blocks lba count l (dev w) in (r, set_dev d w).

Definition cluster_to_lba (fs : FAT32Filesystem) (cluster : Z) : Z :=
  let data_start := u32 (reserved_sectors fs + u32 (fat_count fs * sectors_per_fat fs)) in
  u64 (data_start + u64 (u32 (cluster - 2) * sectors_per_cluster fs)).

(** [bytes_per_sector * sectors_per_cluster] *)
Definition cluster_size (fs : FAT32Filesystem) : Z := u32 (bytes_per_sector fs * sectors_per_cluster fs).

(** ** Table entries *)

Definition fat_next_cluster (fs : FAT32Filesystem) (cluster : Z) (w : World D) : res (Z * World D) :=
  let fat_offset := u32 (cluster * 4) in
  let fat_sector := u32 (reserved_sectors fs + fat_offset / bytes_per_sector fs) in
  let entry_offset := fat_offset mod bytes_per_sector fs in
  let '(buf, w) := kmalloc w in
  match buf with
  | None => Ok (FAT_END, w)
  | Some _ =>
      let '(r, w) := dev_read fat_sector 1 w in
      match r with
      | None => Ok (FAT_END, w)
      | Some sector_buf => v ← ld32 sector_buf entry_offset; Ok (Z.land v 0x0FFFFFFF, w)
      end
  end.

Definition write_copy (fs : FAT32Filesystem) (fat_offset value fat_num : Z) (w : World D) : res (World D) :=
  let sector := u32 (u32 (reserved_sectors fs + u32 (fat_num * sectors_per_fat fs)) + fat_offset / bytes_per_sector fs) in
  let sector_offset := fat_offset mod bytes_per_sector fs in
  let '(r, w) := dev_read sector 1 w in
  match r with
  | None => Ok w
  | Some sector_buf =>
      existing ← ld32 sector_buf sector_offset;
      sector_buf ← st32 sector_buf sector_offset (Z.lor (Z.land existing 0xF0000000) (Z.land value 0x0FFFFFFF));
      Ok (snd (dev_write sector 1 sector_buf w))
  end.

Definition fat32_write_entry (fs : FAT32Filesystem) (cluster value : Z) (w : World D) : res (World D) :=
  let fat_offset := u32 (cluster * 4) in
  let '(buf, w) := kmalloc w in
  match buf with
  | None => Ok w
  | Some _ => for_upto (Z.to_nat (fat_count fs)) 0 (write_copy fs fat_offset value) w
  end.

(** ** FSInfo *)

Definition fat32_fsinfo_valid (sector : list Z) : res bool :=
  lead ← ld32 sector 0;
  if negb (lead =? FAT32_FSINFO_LEAD_SIGNATURE) then Ok false
  else
    struct_ ← ld32 sector 484;
    if negb (struct_ =? FAT32_FSINFO_STRUCT_SIGNATURE) then Ok false
    else trail ← ld32 sector 508; Ok (trail =? FAT32_FSINFO_TRAIL_SIGNATURE).

(** The FSInfo sector, if there is one, it can be read and it is valid. *)
Definition fsinfo_read (fs : FAT32Filesystem) (w : World D) : res (option (list Z) * World D) :=
  if (fsinfo_sector fs =? 0) || (reserved_sectors fs <=? fsinfo_sector fs) then Ok (None, w)
  else
    let '(buf, w) := kmalloc w in
    match buf with
    | None => Ok (None, w)
    | Some _ =>
        let '(r, w) := dev_read (fsinfo_sector fs) 1 w in
        match r with
        | None => Ok (None, w)
        | Some sector_buf => ok ← fat32_fsinfo_valid sector_buf; Ok (if (ok : bool) then Some sector_buf else None, w)
        end
    end.

Definition fat32_load_fsinfo (fs : FAT32Filesystem) (w : World D) : res (FAT32Filesystem * World D) :=
  '(r, w) ← fsinfo_read fs w;
  match r with
  | None => Ok (fs, w)
  | Some sector_buf =>
      free_count ← ld32 sector_buf 488;
      next_free ← ld32 sector_buf 492;
      let free := if free_count <=? cluster_count fs then free_count else free_cluster_count fs in
      let next := if (2 <=? next_free) && (next_free <? u32 (cluster_count fs + 2)) then next_free else next_free_cluster fs in
      Ok (set_alloc next free fs, w)
  end.

Definition fat32_update_fsinfo (fs : FAT32Filesystem) (w : World D) : res (World D) :=
  '(r, w) ← fsinfo_read fs w;
  match r with
  | None => Ok w
  | Some sector_buf =>
      sector_buf ← st32 sector_buf 488 (free_cluster_count fs);
      sector_buf ← st32 sector_buf 492 (next_free_cluster fs);
      Ok (snd (dev_write (fsinfo_sector fs) 1 sector_buf w))
  end.

(** ** Allocation *)

(** What happens to the first free cluster. *)
Definition claim_cluster (fs : FAT32Filesystem) (cluster last_cluster : Z) (w : World D) : res (FAT32Filesystem * World D) :=
  w ← fat32_write_entry fs cluster FAT_END w;
  w ← (if 2 <=? last_cluster then fat32_write_entry fs last_cluster cluster w else Ok w);
  let '(zero, w) := kmalloc w in
  let w :=
    match zero with
    | None => w
    | Some _ => snd (dev_write (cluster_to_lba fs cluster) (sectors_per_cluster fs) (replicate (Z.to_nat (cluster_size fs)) 0) w)
    end in
  let next := u32 (cluster + 1) in
  let next := if u32 (cluster_count fs + 2) <=? next then 2 else next in
  let free := free_cluster_count fs in
  let free := if negb (free =? FAT32_FSINFO_UNKNOWN) && (0 <? free) then free - 1 else free in
  let fs := set_alloc next free fs in
  w ← fat32_update_fsinfo fs w;
  Ok (fs, w).

Definition try_cluster (fs : FAT32Filesystem) (start last_cluster : Z) (st : Z * World D)
    : res (Z * World D + Z * FAT32Filesystem * World D) :=
  let '(attempt, w) := st in
  if cluster_count fs <=? attempt then Ok (inr (FAT_END, fs, w))
  else
    let cluster := u32 (start + attempt) in
    let cluster := if u32 (cluster_count fs + 2) <=? cluster then u32 (2 + u32 (cluster - u32 (cluster_count fs + 2))) else cluster in
    '(next, w) ← fat_next_cluster fs cluster w;
    if next =? 0 then
      '(fs, w) ← claim_cluster fs cluster last_cluster w;
      Ok (inr (cluster, fs, w))
    else Ok (inl (attempt + 1, w)).

Definition fat32_allocate_cluster (fs : FAT32Filesystem) (last_cluster : Z) (w : World D) : res (Z * FAT32Filesystem * World D) :=
  if cluster_count fs =? 0 then Ok (FAT_END, fs, w)
  else
    let start := next_free_cluster fs in
    let start := if (start <? 2) || (u32 (cluster_count fs + 2) <=? start) then 2 else start in
    bloop CHAIN_FUEL (try_cluster fs start last_cluster) (0, w).

Definition free_step (fs : FAT32Filesystem) (st : Z * Z * Z * World D) : res (Z * Z * Z * World D + Z * Z * World D) :=
  let '(cluster, first_freed, freed_count, w) := st in
  if (2 <=? cluster) && (cluster <? FAT_CLUSTER_EOF) then
    '(next, w) ← fat_next_cluster fs cluster w;
    w ← fat32_write_entry fs cluster 0 w;
    Ok (inl (next, if (first_freed =? 0) || (cluster <? first_freed) then cluster else first_freed, u32 (freed_count + 1), w))
  else Ok (inr (first_freed, freed_count, w)).

Definition fat32_free_chain (fs : FAT32Filesystem) (cluster : Z) (w : World D) : res (FAT32Filesystem * World D) :=
  '(first_freed, freed_count, w) ← bloop CHAIN_FUEL (free_step fs) (cluster, 0, 0, w);
  let next := if first_freed =? 0 then next_free_cluster fs else first_freed in
  let free := free_cluster_count fs in
  let free := if free =? FAT32_FSINFO_UNKNOWN then free else u32 (free + freed_count) in
  let fs := set_alloc next free fs in
  w ← fat32_update_fsinfo fs w;
  Ok (fs, w).

(** ** Mounting *)

Definition fat32_init (w : World D) : res (option FAT32Filesystem * World D) :=
  let '(buf, w) := kmalloc w in
  match buf with
  | None => Ok (None, w)
  | Some f =>
      let size := if 512 <? block_size (dev w) then u32 (block_size (dev w)) else 512 in
      let '(r, w) := dev_read 0 1 w in
      match r with
      | None => Ok (None, w)
      | Some sector =>
          boot_sector ← st (read_range f 0 size) 0 sector;
          parsed ← fat32_parse_boot_sector boot_sector;
          match parsed with
          | None => Ok (None, w)
          | Some fs =>
              if negb (block_size (dev w) =? bytes_per_sector fs) then Ok (None, w)
              else '(fs, w) ← fat32_load_fsinfo fs w; Ok (Some fs, w)
          end
      end
  end.
End fat.
