(* ===== verification/FatInv.v ===== *)
(** What the volume layer of the FAT32 driver (Fat.v) does to the bytes of a working
    device: table entries and clusters as functions of the device's contents, cluster
    chains, and the effect of reading and writing a table entry, of allocating a cluster
    and of releasing a chain. *)

From Stdlib Require Import FunctionalExtensionality.
From S2P Require Import Prelude Wire Disk FatName Fat.

(** * The volume as a function of the bytes of the device *)

(** Where the entry of a cluster is in copy [k] of the table, and where the cluster is. *)
Definition fat_addr (fs : FAT32Filesystem) (k c : Z) : Z := (reserved_sectors fs + k * sectors_per_fat fs) * bytes_per_sector fs + 4 * c.
Definition csize (fs : FAT32Filesystem) : Z := bytes_per_sector fs * sectors_per_cluster fs.
Definition clu_addr (fs : FAT32Filesystem) (c : Z) : Z :=
  (reserved_sectors fs + fat_count fs * sectors_per_fat fs) * bytes_per_sector fs + (c - 2) * csize fs.

Definition fat (fs : FAT32Filesystem) (f : Z → Z) (c : Z) : Z := Z.land (le32 f (fat_addr fs 0 c)) 0x0FFFFFFF.
Definition clu (fs : FAT32Filesystem) (f : Z → Z) (c i : Z) : Z := f (clu_addr fs c + i).

Definition cluster_ok (fs : FAT32Filesystem) (c : Z) : Prop := 2 <= c < cluster_count fs + 2.

(** The clusters from [c] to the end of the chain. *)
Fixpoint linked (ft : Z → Z) (fs : FAT32Filesystem) (c : Z) (l : list Z) : Prop :=
  match l with
  | [] => False
  | x :: l' =>
      x = c ∧ cluster_ok fs c ∧
      match l' with
      | [] => FAT_CLUSTER_EOF <= ft c
      | y :: _ => ft c = y ∧ linked ft fs y l'
      end
  end.

(** A volume that fits its device and its tables. *)
Record geom (fs : FAT32Filesystem) (block blocks : Z) : Prop := {
  g_bps : bytes_per_sector fs = 512 ∨ bytes_per_sector fs = 4096;
  g_block : block = bytes_per_sector fs;
  g_spc : 0 < sectors_per_cluster fs < 2 ^ 8;
  g_fats : 0 < fat_count fs < 2 ^ 8;
  g_reserved : 0 <= reserved_sectors fs < 2 ^ 16;
  g_spf : 0 < sectors_per_fat fs;
  g_start : reserved_sectors fs + fat_count fs * sectors_per_fat fs < 2 ^ 32;
  g_clusters : 0 < cluster_count fs ∧ cluster_count fs + 2 <= FAT_CLUSTER_EOF;
  g_table : 4 * (cluster_count fs + 2) <= sectors_per_fat fs * bytes_per_sector fs;
  g_end : reserved_sectors fs + fat_count fs * sectors_per_fat fs + cluster_count fs * sectors_per_cluster fs <= blocks;
  g_bytes : blocks * block < 2 ^ 64;
  g_fsinfo : 0 <= fsinfo_sector fs
}.

Lemma geom_alloc fs next free b n : geom fs b n → geom (set_alloc next free fs) b n.
Proof. by intros []. Qed.

Section geometry.
Variables (fs : FAT32Filesystem) (b n : Z).
Hypothesis G : geom fs b n.

Lemma csize_pos : 512 <= csize fs < 2 ^ 21 ∧ csize fs mod 512 = 0.
Proof. destruct G as [[E|E] _ Hs _ _ _ _ _ _ _ _ _]; unfold csize; rewrite E; lia. Qed.

Lemma cluster_size_eq : cluster_size fs = csize fs.
Proof. unfold cluster_size. fold (csize fs). rewrite u32_small; [done|]. pose proof csize_pos. lia. Qed.

Lemma bps_pos : 512 <= bytes_per_sector fs <= 4096.
Proof. destruct (g_bps _ _ _ G) as [-> | ->]; lia. Qed.

Lemma cluster_bound c : cluster_ok fs c → 2 <= c < FAT_CLUSTER_EOF.
Proof. intros [H1 H2]. pose proof (g_clusters _ _ _ G). lia. Qed.

(** The sector of an entry, and the entry in its sector. *)
Lemma fat_offset_eq c : cluster_ok fs c → u32 (c * 4) = 4 * c.
Proof. intros Hc%cluster_bound. unfold FAT_CLUSTER_EOF in Hc. rewrite u32_small; lia. Qed.

Lemma entry_offset_range c : cluster_ok fs c → 0 <= (4 * c) mod bytes_per_sector fs ∧ (4 * c) mod bytes_per_sector fs + 4 <= bytes_per_sector fs.
Proof. intros Hc. destruct (g_bps _ _ _ G) as [-> | ->]; lia. Qed.

Lemma entry_sector_range k c : cluster_ok fs c → 0 <= k < fat_count fs →
  0 <= reserved_sectors fs + k * sectors_per_fat fs + 4 * c / bytes_per_sector fs ∧
  reserved_sectors fs + k * sectors_per_fat fs + 4 * c / bytes_per_sector fs < reserved_sectors fs + fat_count fs * sectors_per_fat fs.
Proof.
  intros Hc Hk. destruct G as [_ _ _ Hf Hr Hs _ _ Ht _ _ _]. unfold cluster_ok in Hc. pose proof bps_pos as Hb.
  assert (Hq : 0 <= 4 * c / bytes_per_sector fs < sectors_per_fat fs).
  { split; [apply Z.div_pos; lia|]. apply Z.div_lt_upper_bound; lia. }
  assert ((k + 1) * sectors_per_fat fs <= fat_count fs * sectors_per_fat fs) by (apply Z.mul_le_mono_nonneg_r; lia). nia.
Qed.

Lemma entry_sector_eq k c : cluster_ok fs c → 0 <= k < fat_count fs →
  u32 (u32 (reserved_sectors fs + u32 (k * sectors_per_fat fs)) + 4 * c / bytes_per_sector fs) =
  reserved_sectors fs + k * sectors_per_fat fs + 4 * c / bytes_per_sector fs.
Proof.
  intros Hc Hk. pose proof (entry_sector_range k c Hc Hk). destruct G as [_ _ _ Hf Hr Hs Hst _ _ _ _ _]. pose proof bps_pos as Hb.
  assert (0 <= 4 * c / bytes_per_sector fs) by (unfold cluster_ok in Hc; apply Z.div_pos; lia).
  assert (0 <= k * sectors_per_fat fs) by nia. rewrite (u32_small (k * _)) by lia. rewrite (u32_small (reserved_sectors fs + _)) by lia. by rewrite u32_small by lia.
Qed.

Lemma entry_addr k c :
  (reserved_sectors fs + k * sectors_per_fat fs + 4 * c / bytes_per_sector fs) * bytes_per_sector fs + (4 * c) mod bytes_per_sector fs = fat_addr fs k c.
Proof. unfold fat_addr. pose proof bps_pos. pose proof (Z.div_mod (4 * c) (bytes_per_sector fs) ltac:(lia)). lia. Qed.

(** The first sector of a cluster. *)
Lemma cluster_to_lba_eq c : cluster_ok fs c →
  cluster_to_lba fs c = reserved_sectors fs + fat_count fs * sectors_per_fat fs + (c - 2) * sectors_per_cluster fs ∧
  0 <= cluster_to_lba fs c ∧ cluster_to_lba fs c + sectors_per_cluster fs <= n ∧ cluster_to_lba fs c * bytes_per_sector fs = clu_addr fs c.
Proof.
  intros Hc. pose proof (cluster_bound c Hc) as Hb. destruct G as [_ Hblk Hspc Hf Hr Hs Hst Hcl _ Hend Hby _]. unfold cluster_ok in Hc. unfold FAT_CLUSTER_EOF in *.
  pose proof bps_pos.
  assert (0 <= fat_count fs * sectors_per_fat fs) by nia. assert (0 <= (c - 2) * sectors_per_cluster fs) by nia.
  assert ((c - 2 + 1) * sectors_per_cluster fs <= cluster_count fs * sectors_per_cluster fs) by (apply Z.mul_le_mono_nonneg_r; lia).
  assert (E : cluster_to_lba fs c = reserved_sectors fs + fat_count fs * sectors_per_fat fs + (c - 2) * sectors_per_cluster fs).
  { unfold cluster_to_lba. rewrite (u32_small (fat_count fs * _)) by lia. rewrite (u32_small (reserved_sectors fs + _)) by lia. rewrite (u32_small (c - 2)) by lia.
    assert ((c - 2) * sectors_per_cluster fs < 2 ^ 40) by nia. rewrite (u64_small ((c - 2) * _)) by lia. rewrite u64_small by lia. done. }
  split; [done|]. rewrite E. split; [lia|]. split; [nia|]. unfold clu_addr, csize. lia.
Qed.

(** Entries and clusters do not overlap. *)
Lemma fat_addr_apart k c k' c' : cluster_ok fs c → cluster_ok fs c' → 0 <= k → 0 <= k' → (k ≠ k' ∨ c ≠ c') →
  fat_addr fs k c + 4 <= fat_addr fs k' c' ∨ fat_addr fs k' c' + 4 <= fat_addr fs k c.
Proof.
  intros Hc Hc' Hk Hk' Hne. destruct G as [_ _ _ _ _ _ _ _ Ht _ _ _]. unfold cluster_ok in *. unfold fat_addr.
  set (S := sectors_per_fat fs * bytes_per_sector fs) in *. replace ((reserved_sectors fs + k * sectors_per_fat fs) * bytes_per_sector fs) with
    (reserved_sectors fs * bytes_per_sector fs + k * S) by (unfold S; lia).
  replace ((reserved_sectors fs + k' * sectors_per_fat fs) * bytes_per_sector fs) with (reserved_sectors fs * bytes_per_sector fs + k' * S) by (unfold S; lia).
  destruct (decide (k < k')); [|destruct (decide (k' < k))].
  - assert ((k + 1) * S <= k' * S) by (apply Z.mul_le_mono_nonneg_r; lia). lia.
  - assert ((k' + 1) * S <= k * S) by (apply Z.mul_le_mono_nonneg_r; lia). lia.
  - assert (k = k') as <- by lia. lia.
Qed.

Lemma fat_below_data k c c' : cluster_ok fs c → cluster_ok fs c' → 0 <= k < fat_count fs → fat_addr fs k c + 4 <= clu_addr fs c'.
Proof.
  intros Hc Hc' Hk. destruct G as [_ _ _ _ _ _ _ _ Ht _ _ _]. pose proof csize_pos. unfold cluster_ok in *. unfold fat_addr, clu_addr.
  set (S := sectors_per_fat fs * bytes_per_sector fs) in *. replace ((reserved_sectors fs + k * sectors_per_fat fs) * bytes_per_sector fs) with
    (reserved_sectors fs * bytes_per_sector fs + k * S) by (unfold S; lia).
  replace ((reserved_sectors fs + fat_count fs * sectors_per_fat fs) * bytes_per_sector fs) with (reserved_sectors fs * bytes_per_sector fs + fat_count fs * S) by (unfold S; lia).
  assert ((k + 1) * S <= fat_count fs * S) by (apply Z.mul_le_mono_nonneg_r; lia). assert (0 <= (c' - 2) * csize fs) by nia. lia.
Qed.

Lemma fat_above_reserved k c : cluster_ok fs c → 0 <= k → reserved_sectors fs * bytes_per_sector fs <= fat_addr fs k c.
Proof. intros Hc Hk. destruct G as [_ _ _ _ _ Hs _ _ _ _ _ _]. pose proof bps_pos. unfold cluster_ok, fat_addr in *. nia. Qed.

Lemma clu_apart c c' : c ≠ c' → clu_addr fs c + csize fs <= clu_addr fs c' ∨ clu_addr fs c' + csize fs <= clu_addr fs c.
Proof.
  intros Hne. pose proof csize_pos. unfold clu_addr. destruct (decide (c < c')).
  - assert ((c - 2 + 1) * csize fs <= (c' - 2) * csize fs) by (apply Z.mul_le_mono_nonneg_r; lia). lia.
  - assert ((c' - 2 + 1) * csize fs <= (c - 2) * csize fs) by (apply Z.mul_le_mono_nonneg_r; lia). lia.
Qed.

Lemma clu_above_reserved c : cluster_ok fs c → reserved_sectors fs * bytes_per_sector fs <= clu_addr fs c.
Proof. intros Hc. pose proof csize_pos. destruct G as [_ _ _ Hf _ Hs _ _ _ _ _ _]. pose proof bps_pos. unfold cluster_ok, clu_addr in *. nia. Qed.
End geometry.

(** * Chains *)

Section chains.
Variables (fs : FAT32Filesystem).
Hypothesis Hbound : ∀ c, cluster_ok fs c → 2 <= c < FAT_CLUSTER_EOF.

Lemma linked_ok ft l : ∀ c, linked ft fs c l → ∀ x, x ∈ l → cluster_ok fs x.
Proof.
  induction l as [|x l IH]; intros c Hl y Hy; [by apply not_elem_of_nil in Hy|]. destruct Hl as (-> & Hc & Hn). apply elem_of_cons in Hy as [->|Hy]; [done|].
  destruct l as [|z l]; [by apply not_elem_of_nil in Hy|]. destruct Hn as [_ Hn]. by apply (IH z).
Qed.

Lemma linked_head ft c l : linked ft fs c l → ∃ l', l = c :: l'.
Proof. destruct l as [|x l]; [done|]. intros (-> & _). by exists l. Qed.

Lemma chain_linked_ext ft ft' l : ∀ c, (∀ x, x ∈ l → ft' x = ft x) → linked ft fs c l → linked ft' fs c l.
Proof.
  induction l as [|x l IH]; intros c E; [done|]. intros (-> & Hc & Hn). split; [done|]. split; [done|]. rewrite E by left.
  destruct l as [|z l]; [done|]. destruct Hn as [Hz Hn]. split; [done|]. apply IH; [|done]. intros y Hy. apply E. by right.
Qed.

Lemma linked_drop ft l : ∀ c i x, linked ft fs c l → l !! i = Some x → linked ft fs x (drop i l).
Proof.
  induction l as [|y l IH]; intros c i x Hl Hi; [done|]. pose proof Hl as (-> & Hc & Hn). destruct i as [|i]; [by injection Hi as <-|].
  cbn [lookup list_lookup drop] in *. destruct l as [|z l]; [done|]. destruct Hn as [_ Hn]. by apply (IH z).
Qed.

Lemma linked_next ft c l i x y : linked ft fs c l → l !! i = Some x → l !! S i = Some y → ft x = y.
Proof.
  intros Hl Hi Hy. pose proof (linked_drop ft l c i x Hl Hi) as Hd. destruct (drop i l) as [|x' d] eqn:E; [done|]. destruct Hd as (_ & _ & Hd).
  assert (Hz : drop i l !! 1%nat = Some y) by (rewrite lookup_drop; by replace (i + 1)%nat with (S i) by lia). rewrite E in Hz. cbn [lookup list_lookup] in Hz.
  destruct d as [|z d]; [done|]. injection Hz as <-. by destruct Hd.
Qed.

Lemma linked_last ft c l i x : linked ft fs c l → l !! i = Some x → S i = length l → FAT_CLUSTER_EOF <= ft x.
Proof.
  intros Hl Hi Hy. pose proof (linked_drop ft l c i x Hl Hi) as Hd. assert (Hlen : length (drop i l) = 1%nat) by (rewrite length_drop; lia).
  destruct (drop i l) as [|x' [|z d]]; [done| |simpl in Hlen; lia]. by destruct Hd as (_ & _ & Hd).
Qed.

Lemma linked_det ft l : ∀ c l', linked ft fs c l → linked ft fs c l' → l = l'.
Proof.
  induction l as [|x l IH]; intros c l' H1 H2; [done|]. destruct l' as [|x' l']; [done|]. destruct H1 as (-> & Hc & H1), H2 as (-> & _ & H2). f_equal.
  destruct l as [|y l], l' as [|y' l']; [done| | |].
  - destruct H2 as [E (_ & Hy & _)]. pose proof (Hbound _ Hy). lia.
  - destruct H1 as [E (_ & Hy & _)]. pose proof (Hbound _ Hy). lia.
  - destruct H1 as [E1 H1], H2 as [E2 H2]. rewrite E1 in E2. subst y'. by apply (IH y).
Qed.

Lemma linked_NoDup ft c l : linked ft fs c l → NoDup l.
Proof.
  intros Hl. apply NoDup_alt. intros i j x Hi Hj. pose proof (linked_drop _ _ _ _ _ Hl Hi) as H1. pose proof (linked_drop _ _ _ _ _ Hl Hj) as H2.
  pose proof (f_equal length (linked_det _ _ _ _ H1 H2)) as E. rewrite !length_drop in E. apply lookup_lt_Some in Hi, Hj. lia.
Qed.

Lemma linked_length ft c l : linked ft fs c l → 0 < Z.of_nat (length l) <= FAT_CLUSTER_EOF.
Proof.
  intros Hl. split; [destruct (linked_head _ _ _ Hl) as [l' ->]; simpl; lia|]. pose proof (NoDup_bound l FAT_CLUSTER_EOF (linked_NoDup _ _ _ Hl)) as Hb.
  unfold FAT_CLUSTER_EOF in *. specialize (Hb ltac:(intros x Hx; pose proof (Hbound x (linked_ok _ _ _ Hl x Hx)); lia)). lia.
Qed.

(** A free cluster is on no chain. *)
Lemma linked_not_free ft c l x : linked ft fs c l → ft x = 0 → x ∉ l.
Proof.
  intros Hl E (i & Hi)%list_elem_of_lookup_1. destruct (decide (S i = length l)) as [He|He].
  - pose proof (linked_last _ _ _ _ _ Hl Hi He) as Hq. rewrite E in Hq. unfold FAT_CLUSTER_EOF in Hq. lia.
  - destruct (lookup_lt_is_Some_2 l (S i)) as [y Hy]; [apply lookup_lt_Some in Hi; lia|]. pose proof (linked_next _ _ _ _ _ _ Hl Hi Hy) as Hq.
    pose proof (linked_ok _ _ _ Hl y (list_elem_of_lookup_2 _ _ _ Hy)) as Hok. pose proof (Hbound y Hok). lia.
Qed.

(** A chain grows by one cluster. *)
Lemma linked_snoc ft ft' l : ∀ c i x y,
  linked ft fs c l → l !! i = Some x → S i = length l → cluster_ok fs y → ft' x = y → FAT_CLUSTER_EOF <= ft' y →
  (∀ z, z ∈ l → z ≠ x → ft' z = ft z) → linked ft' fs c (l ++ [y]).
Proof.
  induction l as [|w l IH]; intros c i x y Hl Hi Hlen Hy Ex Ey Eo; [done|]. pose proof (linked_NoDup _ _ _ Hl) as Hnd.
  destruct Hl as (-> & Hc & Hn). cbn [app linked]. split; [done|]. split; [done|]. destruct l as [|z l].
  - assert (i = 0%nat) as -> by (simpl in Hlen; lia). injection Hi as <-. by split.
  - destruct i as [|i]; [simpl in Hlen; lia|]. cbn [lookup list_lookup] in Hi. destruct Hn as [Ez Hn].
    assert (Hcx : c ≠ x).
    { intros ->. apply NoDup_cons in Hnd as [Hnd _]. apply Hnd. by eapply list_elem_of_lookup_2. }
    split; [rewrite Eo by (left || done); done|]. apply (IH z i x y); try done; [simpl in *; lia|]. intros v Hv. apply Eo. by right.
Qed.
End chains.

(** * Operations on a working device *)

Section ops.
Context {D : Type} `{BlockDev D} {working : D → Prop} `{!BlockDevLaws D working}.
Abbreviation W := (World D).

Definition cont (w : W) : Z → Z := content (dev w).

(** The device works, the volume fits it, and allocations succeed. *)
Record ok (fs : FAT32Filesystem) (w : W) : Prop := {
  ok_dev : working (dev w);
  ok_geom : geom fs (block_size (dev w)) (total_blocks (dev w));
  ok_heap t : ∃ f, heap w t = Some f
}.

(** The state after a step that leaves the bytes [f]. *)
Definition after (fs : FAT32Filesystem) (w : W) (f : Z → Z) : Prop := ok fs w ∧ cont w = f.

Lemma ok_alloc fs next free w : ok fs w → ok (set_alloc next free fs) w.
Proof. intros [H1 H2 H3]. split; [done|by apply geom_alloc|done]. Qed.

Lemma after_ok fs w : ok fs w → after fs w (cont w).
Proof. done. Qed.

Lemma cont_byte fs w a : ok fs w → 0 <= cont w a < 2 ^ 8.
Proof. intros Hok. apply content_byte, Hok. Qed.

Lemma kmalloc_spec fs w : ok fs w → ∃ f w', kmalloc w = (Some f, w') ∧ after fs w' (cont w).
Proof. intros [H1 H2 H3]. unfold kmalloc. destruct (H3 (tick w)) as [f ->]. eexists f, _. by split. Qed.

Lemma dev_read_spec fs w lba count :
  ok fs w → 0 <= lba → 0 <= count < 2 ^ 32 → lba + count <= total_blocks (dev w) →
  ∃ w', dev_read lba count w = (Some (read_range (cont w) (lba * bytes_per_sector fs) (count * bytes_per_sector fs)), w') ∧
    after fs w' (cont w).
Proof.
  intros [H1 H2 H3] Hl Hc Ht. destruct (read_blocks_spec (dev w) lba count H1 Hl Hc Ht) as (d' & E & Hw & Eb & Et & Ec).
  unfold dev_read. rewrite E, (g_block _ _ _ H2). eexists. split; [done|]. split; [split; cbn [dev heap set_dev]; [done|by rewrite Eb, Et|done]|].
  apply functional_extensionality. exact Ec.
Qed.

Lemma dev_write_spec fs w lba count l :
  ok fs w → 0 <= lba → 0 <= count < 2 ^ 32 → lba + count <= total_blocks (dev w) → Z.of_nat (length l) = count * bytes_per_sector fs → bytes l →
  ∃ w', dev_write lba count l w = (true, w') ∧ after fs w' (write_range (cont w) (lba * bytes_per_sector fs) l).
Proof.
  intros [H1 H2 H3] Hl Hc Ht Hlen Hb. pose proof (g_block _ _ _ H2) as Eg. rewrite <-Eg in Hlen.
  destruct (write_blocks_spec (dev w) lba count l H1 Hl Hc Ht Hlen Hb) as (d' & E & Hw & Eb & Et & Ec).
  unfold dev_write. rewrite E. eexists. split; [done|]. split; [split; cbn [dev heap set_dev]; [done|by rewrite Eb, Et|done]|].
  apply functional_extensionality. intros a. unfold cont. cbn [dev set_dev]. by rewrite Ec, Eg.
Qed.

(** Blocks of the volume are blocks of the device. *)
Lemma entry_sector_dev fs w k c : ok fs w → cluster_ok fs c → 0 <= k < fat_count fs →
  0 <= reserved_sectors fs + k * sectors_per_fat fs + 4 * c / bytes_per_sector fs ∧
  reserved_sectors fs + k * sectors_per_fat fs + 4 * c / bytes_per_sector fs + 1 <= total_blocks (dev w).
Proof.
  intros [_ G _] Hc Hk. pose proof (entry_sector_range fs _ _ G k c Hc Hk). pose proof (g_end _ _ _ G). pose proof (g_clusters _ _ _ G). pose proof (g_spc _ _ _ G). nia.
Qed.

Lemma fat_next_cluster_spec fs w c :
  ok fs w → cluster_ok fs c → ∃ w', fat_next_cluster fs c w = Ok (fat fs (cont w) c, w') ∧ after fs w' (cont w).
Proof.
  intros Hok Hc. unfold fat_next_cluster. pose proof (ok_geom _ _ Hok) as G. rewrite (fat_offset_eq _ _ _ G) by done.
  destruct (kmalloc_spec fs w Hok) as (f & w1 & E1 & Hok1 & Ec1). rewrite E1.
  pose proof (entry_sector_eq fs _ _ G 0 c Hc ltac:(pose proof (g_fats _ _ _ G); lia)) as Es. rewrite Z.mul_0_l, !Z.add_0_r in Es.
  pose proof (g_reserved _ _ _ G). rewrite (u32_small (reserved_sectors fs)) in Es by lia. rewrite Es.
  destruct (entry_sector_dev fs w1 0 c Hok1 Hc) as [Hs1 Hs2]; [pose proof (g_fats _ _ _ G); lia|]. rewrite Z.mul_0_l, Z.add_0_r in Hs1, Hs2.
  destruct (dev_read_spec fs w1 _ 1 Hok1 Hs1 ltac:(lia) Hs2) as (w2 & E2 & Ha). rewrite E2, Z.mul_1_l. destruct (entry_offset_range fs _ _ G c Hc).
  rewrite ld32_range by lia. step. exists w2. rewrite Ec1 in *. split; [|done]. unfold fat. do 3 f_equal.
  pose proof (entry_addr fs _ _ G 0 c) as Ea. rewrite Z.mul_0_l, Z.add_0_r in Ea. by rewrite Ea.
Qed.

(** Bytes that belong to the entry of a cluster in some copy of the table. *)
Definition in_entry (fs : FAT32Filesystem) (c a : Z) : Prop := ∃ k, 0 <= k < fat_count fs ∧ fat_addr fs k c <= a < fat_addr fs k c + 4.

Lemma mask28 v x : 0 <= v < 2 ^ 28 → 0 <= x < 2 ^ 32 →
  0 <= Z.lor (Z.land x 0xF0000000) (Z.land v 0x0FFFFFFF) < 2 ^ 32 ∧ Z.land (Z.lor (Z.land x 0xF0000000) (Z.land v 0x0FFFFFFF)) 0x0FFFFFFF = v.
Proof.
  intros Hv Hx. change 0x0FFFFFFF with (Z.ones 28). rewrite (Z.land_ones v), Z.mod_small by lia.
  assert (E : Z.land x 0xF0000000 = x / 2 ^ 28 * 2 ^ 28).
  { change 0xF0000000 with (Z.shiftl 15 28). rewrite <-(Z.shiftl_mul_pow2 _ 28), <-(Z.shiftr_div_pow2 x 28) by lia.
    apply Z.bits_inj'. intros n Hn. rewrite Z.land_spec, !Z.shiftl_spec by lia. destruct (decide (n < 28)).
    - rewrite !(Z.testbit_neg_r _ (n - 28)) by lia. by rewrite andb_false_r.
    - rewrite Z.shiftr_spec by lia. replace (n - 28 + 28) with n by lia. change 15 with (Z.ones 4). rewrite Z.testbit_ones by lia.
      destruct (Z.ltb_spec (n - 28) 4), (Z.leb_spec 0 (n - 28)); try lia; cbn [andb]; [by rewrite andb_true_r|rewrite andb_false_r].
      symmetry. apply Z.bits_above_log2; [lia|]. destruct (decide (x = 0)) as [->|]; [simpl; lia|]. apply Z.log2_lt_pow2; [lia|].
      apply (Z.lt_le_trans _ (2 ^ 32)); [lia|]. apply Z.pow_le_mono_r; lia. }
  assert (Hd : Z.lor (Z.land x 0xF0000000) v = x / 2 ^ 28 * 2 ^ 28 + v).
  { rewrite E. apply lor_add with 28; [lia|lia|]. apply Z.mod_mul. lia. }
  rewrite Hd. split; [lia|]. rewrite Z.land_ones by lia. rewrite Z.add_comm, Z.mod_add, Z.mod_small by lia. done.
Qed.

Lemma write_copy_spec fs w c v k :
  ok fs w → cluster_ok fs c → 0 <= v < 2 ^ 28 → 0 <= k < fat_count fs →
  ∃ w' x, write_copy fs (4 * c) v k w = Ok w' ∧ after fs w' (write_range (cont w) (fat_addr fs k c) (le_bytes 4 x)) ∧ 0 <= x < 2 ^ 32 ∧ Z.land x 0x0FFFFFFF = v.
Proof.
  intros Hok Hc Hv Hk. unfold write_copy. pose proof (ok_geom _ _ Hok) as G. rewrite (entry_sector_eq fs _ _ G k c Hc Hk).
  destruct (entry_sector_dev fs w k c Hok Hc Hk) as [Hs1 Hs2]. set (sec := _ + _ / _) in *.
  destruct (dev_read_spec fs w sec 1 Hok Hs1 ltac:(lia) Hs2) as (w1 & E1 & Hok1 & Ec1). rewrite E1, Z.mul_1_l. destruct (entry_offset_range fs _ _ G c Hc) as [Ho1 Ho2].
  rewrite ld32_range by lia. step. unfold st32. pose proof (entry_addr fs _ _ G k c) as Ea. fold sec in Ea. rewrite Ea.
  pose proof (mask28 v (le32 (cont w) (fat_addr fs k c)) Hv (le32_bound _ _ (λ a, cont_byte fs w a Hok))) as [Hx Hm]. set (x := Z.lor _ _) in *.
  rewrite st_range by (rewrite ?le_bytes_length; lia). step. rewrite Ea.
  assert (Hby : bytes (read_range (write_range (cont w) (fat_addr fs k c) (le_bytes 4 x)) (sec * bytes_per_sector fs) (bytes_per_sector fs))).
  { apply bytes_read_range, bytes_write_range; [intros a; by apply (cont_byte fs)|apply bytes_le_bytes]. }
  pose proof (bps_pos fs _ _ G) as Hbp.
  destruct (entry_sector_dev fs w1 k c Hok1 Hc Hk) as [_ Hs3]. fold sec in Hs3.
  edestruct (dev_write_spec fs w1 sec 1) as (w2 & E2 & Hok2 & Ec2); [done|done|lia|done| |exact Hby|]; [rewrite length_read_range; lia|].
  rewrite E2. exists w2, x. split; [done|]. split; [|done]. split; [done|]. rewrite Ec2, Ec1. apply functional_extensionality. intros a.
  apply write_back; rewrite ?le_bytes_length; lia.
Qed.

(** Writing an entry changes that entry in every copy of the table, and nothing else. *)
Lemma fat32_write_entry_spec fs w c v :
  ok fs w → cluster_ok fs c → 0 <= v < 2 ^ 28 →
  ∃ w', fat32_write_entry fs c v w = Ok w' ∧ ok fs w' ∧ (∀ a, ¬ in_entry fs c a → cont w' a = cont w a) ∧ fat fs (cont w') c = v.
Proof.
  intros Hok Hc Hv. unfold fat32_write_entry. pose proof (ok_geom _ _ Hok) as G. pose proof (g_fats _ _ _ G) as Hf. rewrite (fat_offset_eq _ _ _ G) by done.
  destruct (kmalloc_spec fs w Hok) as (f & w1 & E1 & Hok1 & Ec1). rewrite E1.
  destruct (for_upto_rule (λ k w', ok fs w' ∧ (∀ a, ¬ in_entry fs c a → cont w' a = cont w a) ∧ (0 < k → fat fs (cont w') c = v))
    (write_copy fs (4 * c) v) (Z.to_nat (fat_count fs)) 0 w1) as (w2 & E2 & Hok2 & Ho2 & Hv2).
  - intros k w' Hk (Hok' & Ho & Hv'). destruct (write_copy_spec fs w' c v k Hok' Hc Hv ltac:(lia)) as (w2 & x & E2 & (Hok2 & Ec2) & Hx & Hm).
    exists w2. split; [done|]. split; [done|]. rewrite Ec2. split.
    + intros a Ha. rewrite write_range_out; [by apply Ho|]. rewrite le_bytes_length. intros Hin. apply Ha. exists k. split; [lia|done].
    + intros _. unfold fat. destruct (decide (k = 0)) as [->|Hne]; [by rewrite le32_written|]. rewrite <-Hv' by lia. unfold fat. f_equal. apply le32_ext.
      intros i Hi. apply write_range_out. rewrite le_bytes_length. destruct (fat_addr_apart fs _ _ G k c 0 c Hc Hc ltac:(lia) ltac:(lia) ltac:(lia)); lia.
  - split; [done|]. split; [by rewrite Ec1|lia].
  - exists w2. split; [done|]. split; [done|]. split; [done|]. apply Hv2. lia.
Qed.

(** The same seen at the level of entries and clusters. *)
Lemma entry_other fs w f c c' : ok fs w → cluster_ok fs c → cluster_ok fs c' → c ≠ c' →
  (∀ a, ¬ in_entry fs c a → f a = cont w a) → fat fs f c' = fat fs (cont w) c'.
Proof.
  intros Hok Hc Hc' Hne E. pose proof (ok_geom _ _ Hok) as G. unfold fat. f_equal. apply le32_ext. intros i Hi. apply E. intros (k & Hk & Ha).
  destruct (fat_addr_apart fs _ _ G k c 0 c' Hc Hc' ltac:(lia) ltac:(lia) ltac:(lia)); lia.
Qed.

Lemma entry_clu fs w f c c' i : ok fs w → cluster_ok fs c → cluster_ok fs c' → 0 <= i →
  (∀ a, ¬ in_entry fs c a → f a = cont w a) → clu fs f c' i = clu fs (cont w) c' i.
Proof.
  intros Hok Hc Hc' Hi E. pose proof (ok_geom _ _ Hok) as G. apply E. intros (k & Hk & Ha). pose proof (fat_below_data fs _ _ G k c c' Hc Hc' Hk). lia.
Qed.

(** Bytes of the reserved sectors are not seen in entries and clusters. *)
Lemma reserved_fat fs w f c : ok fs w → cluster_ok fs c → (∀ a, reserved_sectors fs * bytes_per_sector fs <= a → f a = cont w a) →
  fat fs f c = fat fs (cont w) c ∧ ∀ i, 0 <= i → clu fs f c i = clu fs (cont w) c i.
Proof.
  intros Hok Hc E. pose proof (ok_geom _ _ Hok) as G. split.
  - unfold fat. f_equal. apply le32_ext. intros i Hi. apply E. pose proof (fat_above_reserved fs _ _ G 0 c Hc ltac:(lia)). lia.
  - intros i Hi. apply E. pose proof (clu_above_reserved fs _ _ G c Hc). lia.
Qed.

Lemma fsinfo_read_spec fs w :
  ok fs w → ∃ r w', fsinfo_read fs w = Ok (r, w') ∧ after fs w' (cont w) ∧
    (r = None ∨ (0 <= fsinfo_sector fs < reserved_sectors fs ∧
                 r = Some (read_range (cont w) (fsinfo_sector fs * bytes_per_sector fs) (bytes_per_sector fs)))).
Proof.
  intros Hok. pose proof (ok_geom _ _ Hok) as G. unfold fsinfo_read. pose proof (g_fsinfo _ _ _ G). pose proof (bps_pos fs _ _ G).
  destruct (Z.eqb_spec (fsinfo_sector fs) 0); [eexists _, w; split; [done|]; split; [done|]; by left|].
  destruct (Z.leb_spec (reserved_sectors fs) (fsinfo_sector fs)); [eexists _, w; split; [done|]; split; [done|]; by left|]. cbn [orb].
  destruct (kmalloc_spec fs w Hok) as (f & w1 & E1 & Hok1 & Ec1). rewrite E1. pose proof (ok_geom _ _ Hok1) as G1.
  assert (Hend : fsinfo_sector fs + 1 <= total_blocks (dev w1)).
  { pose proof (g_end _ _ _ G1). pose proof (g_fats _ _ _ G). pose proof (g_spf _ _ _ G). pose proof (g_clusters _ _ _ G). pose proof (g_spc _ _ _ G). nia. }
  destruct (dev_read_spec fs w1 (fsinfo_sector fs) 1 Hok1 ltac:(lia) ltac:(lia) Hend) as (w2 & E2 & Ha). rewrite E2, Z.mul_1_l.
  unfold fat32_fsinfo_valid. rewrite Ec1 in *. rewrite !ld32_range by lia. step.
  repeat match goal with |- context [negb (?x =? ?y)] => destruct (x =? y); cbn [negb]; step end;
    try (eexists _, w2; split; [done|]; split; [done|]; by left).
  destruct (_ =? _); eexists _, w2; (split; [done|]; split; [done|]); [right|by left]. split; [lia|done].
Qed.

Lemma fat32_update_fsinfo_spec fs w :
  ok fs w → ∃ w', fat32_update_fsinfo fs w = Ok w' ∧ ok fs w' ∧ ∀ a, reserved_sectors fs * bytes_per_sector fs <= a → cont w' a = cont w a.
Proof.
  intros Hok. pose proof (ok_geom _ _ Hok) as G. unfold fat32_update_fsinfo. destruct (fsinfo_read_spec fs w Hok) as (r & w1 & E1 & (Hok1 & Ec1) & Hr). step_with E1.
  pose proof (bps_pos fs _ _ G). destruct Hr as [->|(Hs & ->)]; [exists w1; rewrite Ec1; by split_and!|].
  unfold st32. rewrite st_range by (rewrite ?le_bytes_length; lia). step. rewrite st_range by (rewrite ?le_bytes_length; lia). step.
  set (f2 := write_range _ _ _). pose proof (ok_geom _ _ Hok1) as G1.
  assert (Hend : fsinfo_sector fs + 1 <= total_blocks (dev w1)).
  { pose proof (g_end _ _ _ G1). pose proof (g_fats _ _ _ G). pose proof (g_spf _ _ _ G). pose proof (g_clusters _ _ _ G). pose proof (g_spc _ _ _ G). nia. }
  edestruct (dev_write_spec fs w1 (fsinfo_sector fs) 1 (read_range f2 (fsinfo_sector fs * bytes_per_sector fs) (bytes_per_sector fs))) as (w2 & E2 & Hok2 & Ec2); [done|lia|lia|done|rewrite length_read_range; lia| |].
  { apply bytes_read_range. unfold f2. apply bytes_write_range; [apply bytes_write_range|]; try apply bytes_le_bytes. intros a. by apply (cont_byte fs). }
  rewrite E2. exists w2. split; [done|]. split; [done|]. intros a Ha. rewrite Ec2, Ec1. apply write_range_out. rewrite length_read_range by lia. nia.
Qed.

(** ** Allocation *)

(** The same volume with other allocation hints. *)
Definition alike (fs' fs : FAT32Filesystem) : Prop := ∃ next free, fs' = set_alloc next free fs.

Lemma alike_refl fs : alike fs fs.
Proof. destruct fs. by eexists _, _. Qed.

Lemma alike_trans fs1 fs2 fs3 : alike fs1 fs2 → alike fs2 fs3 → alike fs1 fs3.
Proof. intros (a & b & ->) (c & d & ->). by eexists _, _. Qed.

Lemma alike_ok fs fs' w : alike fs' fs → ok fs w → ok fs' w.
Proof. intros (a & b & ->). apply ok_alloc. Qed.

Definition full (fs : FAT32Filesystem) (f : Z → Z) : Prop := ∀ c, cluster_ok fs c → fat fs f c ≠ 0.

(** Cluster [c] was free and is now the end of a chain, after [last] unless that is 0, and cleared. *)
Record grows (fs : FAT32Filesystem) (f f' : Z → Z) (last c : Z) : Prop := {
  gr_ok : cluster_ok fs c;
  gr_free : fat fs f c = 0;
  gr_end : fat fs f' c = FAT_END;
  gr_last : cluster_ok fs last → fat fs f' last = c;
  gr_fat x : cluster_ok fs x → x ≠ c → x ≠ last → fat fs f' x = fat fs f x;
  gr_zero i : 0 <= i < csize fs → clu fs f' c i = 0;
  gr_clu x i : cluster_ok fs x → x ≠ c → 0 <= i < csize fs → clu fs f' x i = clu fs f x i
}.

Lemma nth_replicate_0 k n : nth k (replicate n 0) 0 = 0.
Proof. revert k. induction n as [|n IH]; intros [|k]; simpl; auto. Qed.

(** Clearing a cluster. *)
Lemma zero_cluster_spec fs w c :
  ok fs w → cluster_ok fs c →
  ∃ w', dev_write (cluster_to_lba fs c) (sectors_per_cluster fs) (replicate (Z.to_nat (cluster_size fs)) 0) w = (true, w') ∧
    after fs w' (write_range (cont w) (clu_addr fs c) (replicate (Z.to_nat (csize fs)) 0)).
Proof.
  intros Hok Hc. pose proof (ok_geom _ _ Hok) as G. rewrite (cluster_size_eq _ _ _ G). destruct (cluster_to_lba_eq _ _ _ G c Hc) as (_ & H1 & H2 & H3).
  pose proof (g_spc _ _ _ G). pose proof (csize_pos _ _ _ G).
  destruct (dev_write_spec fs w (cluster_to_lba fs c) (sectors_per_cluster fs) (replicate (Z.to_nat (csize fs)) 0)) as (w' & E & Ha); try done; [lia| | |].
  - rewrite length_replicate, Z2Nat.id by lia. unfold csize. lia.
  - by apply Forall_replicate.
  - exists w'. by rewrite H3 in Ha.
Qed.

Lemma claim_cluster_spec fs w c last :
  ok fs w → cluster_ok fs c → fat fs (cont w) c = 0 → (last = 0 ∨ (cluster_ok fs last ∧ last ≠ c)) →
  ∃ fs' w', claim_cluster fs c last w = Ok (fs', w') ∧ alike fs' fs ∧ ok fs' w' ∧ grows fs (cont w) (cont w') last c.
Proof.
  intros Hok Hc Hfree Hlast. pose proof (ok_geom _ _ Hok) as G. pose proof (csize_pos _ _ _ G) as Hcs.
  destruct (fat32_write_entry_spec fs w c FAT_END Hok Hc ltac:(by unfold FAT_END)) as (w1 & E1 & Hok1 & Ho1 & Hv1).
  assert (Hsecond : ∃ w2, (if 2 <=? last then fat32_write_entry fs last c w1 else Ok w1) = Ok w2 ∧ ok fs w2 ∧
    (∀ a, ¬ (cluster_ok fs last ∧ in_entry fs last a) → cont w2 a = cont w1 a) ∧ (cluster_ok fs last → fat fs (cont w2) last = c)).
  { destruct Hlast as [->|[Hlok Hne]]; [exists w1; split_and!; try done; intros [? ?]; lia|].
    destruct (Z.leb_spec 2 last); [|unfold cluster_ok in Hlok; lia].
    destruct (fat32_write_entry_spec fs w1 last c Hok1 Hlok) as (w2 & E2 & Hok2 & Ho2 & Hv2).
    { pose proof (cluster_bound _ _ _ G c Hc). unfold FAT_CLUSTER_EOF in *. lia. }
    exists w2. split_and!; try done. intros a Ha. apply Ho2. tauto. }
  destruct Hsecond as (w2 & E2 & Hok2 & Ho2 & Hv2). unfold claim_cluster. step_with E1. step_with E2.
  destruct (kmalloc_spec fs w2 Hok2) as (f & w3 & E3 & Hok3 & Ec3). rewrite E3. destruct (zero_cluster_spec fs w3 c Hok3 Hc) as (w4 & E4 & Hok4 & Ec4). rewrite E4. cbn [snd].
  set (fs' := set_alloc _ _ fs). destruct (fat32_update_fsinfo_spec fs' w4) as (w5 & E5 & Hok5 & Hr5); [by apply ok_alloc|]. step_with E5.
  exists fs', w5. split; [done|]. split; [by eexists _, _|]. split; [done|]. rewrite Ec3 in Ec4. change (reserved_sectors fs') with (reserved_sectors fs) in Hr5.
  change (bytes_per_sector fs') with (bytes_per_sector fs) in Hr5.
  assert (HF5 : ∀ x, cluster_ok fs x → fat fs (cont w5) x = fat fs (cont w2) x).
  { intros x Hx. rewrite (proj1 (reserved_fat fs w4 (cont w5) x Hok4 Hx Hr5)). unfold fat. rewrite Ec4. f_equal. apply le32_ext. intros i Hi. apply write_range_out.
    rewrite length_replicate. pose proof (fat_below_data _ _ _ G 0 x c Hx Hc ltac:(pose proof (g_fats _ _ _ G); lia)). lia. }
  assert (HC5 : ∀ x i, cluster_ok fs x → 0 <= i → clu fs (cont w5) x i = write_range (cont w2) (clu_addr fs c) (replicate (Z.to_nat (csize fs)) 0) (clu_addr fs x + i)).
  { intros x i Hx Hi. rewrite (proj2 (reserved_fat fs w4 (cont w5) x Hok4 Hx Hr5)) by done. unfold clu. by rewrite Ec4. }
  assert (HF1 : ∀ x, cluster_ok fs x → x ≠ last → fat fs (cont w2) x = fat fs (cont w1) x).
  { intros x Hx Hne. destruct Hlast as [->|[Hlok _]].
    - unfold fat. f_equal. apply le32_ext. intros i Hi. apply Ho2. intros [[? ?] _]. lia.
    - apply (entry_other fs w1 (cont w2) last x); try done. intros a Ha. apply Ho2. tauto. }
  assert (HC1 : ∀ x i, cluster_ok fs x → 0 <= i → clu fs (cont w2) x i = clu fs (cont w) x i).
  { intros x i Hx Hi. transitivity (clu fs (cont w1) x i); [|by apply (entry_clu fs w (cont w1) c x i)]. destruct Hlast as [->|[Hlok _]].
    - apply Ho2. intros [[? ?] _]. lia.
    - apply (entry_clu fs w1 (cont w2) last x i); try done. intros a Ha. apply Ho2. tauto. }
  split; [done|done| | | | |].
  - rewrite HF5 by done. destruct (decide (c = last)) as [->|Hne]; [destruct Hlast as [->|[_ ?]]; [unfold cluster_ok in Hc; lia|done]|]. by rewrite HF1.
  - intros Hl. rewrite HF5 by done. by apply Hv2.
  - intros x Hx Hxc Hxl. rewrite HF5, HF1 by done. by apply (entry_other fs w (cont w1) c x).
  - intros i Hi. rewrite HC5 by (done || lia). rewrite write_range_in by (rewrite length_replicate; lia). apply nth_replicate_0.
  - intros x i Hx Hne Hi. rewrite HC5 by (done || lia). rewrite write_range_out; [by apply HC1; [|lia]|]. rewrite length_replicate.
    destruct (clu_apart _ _ _ G x c Hne); lia.
Qed.

(** The cluster looked at in attempt [j] of a search from [start]. *)
Definition probe_cluster (fs : FAT32Filesystem) (start j : Z) : Z := if cluster_count fs + 2 <=? start + j then start + j - cluster_count fs else start + j.

Lemma probe_cluster_all fs start c : cluster_ok fs start → cluster_ok fs c → ∃ j, 0 <= j < cluster_count fs ∧ probe_cluster fs start j = c.
Proof.
  unfold cluster_ok, probe_cluster. intros Hs Hc. destruct (decide (start <= c)).
  - exists (c - start). split; [lia|]. destruct (Z.leb_spec (cluster_count fs + 2) (start + (c - start))); lia.
  - exists (c - start + cluster_count fs). split; [lia|]. destruct (Z.leb_spec (cluster_count fs + 2) (start + (c - start + cluster_count fs))); lia.
Qed.

Lemma fat32_allocate_cluster_spec fs w last :
  ok fs w → (last = 0 ∨ (cluster_ok fs last ∧ fat fs (cont w) last ≠ 0)) →
  ∃ c fs' w', fat32_allocate_cluster fs last w = Ok (c, fs', w') ∧ alike fs' fs ∧ ok fs' w' ∧
    ((c = FAT_END ∧ full fs (cont w) ∧ cont w' = cont w) ∨ grows fs (cont w) (cont w') last c).
Proof.
  intros Hok Hlast. pose proof (ok_geom _ _ Hok) as G. pose proof (g_clusters _ _ _ G) as Hcl. unfold FAT_CLUSTER_EOF in Hcl. unfold fat32_allocate_cluster.
  destruct (Z.eqb_spec (cluster_count fs) 0); [lia|]. rewrite (u32_small (cluster_count fs + 2)) by lia. set (start := if _ || _ then _ else _).
  assert (Hs : cluster_ok fs start).
  { unfold start, cluster_ok. destruct (Z.ltb_spec (next_free_cluster fs) 2), (Z.leb_spec (cluster_count fs + 2) (next_free_cluster fs)); cbn [orb]; lia. }
  clearbody start.
  destruct (bloop_rule (λ n (s : Z * W), n = cluster_count fs - s.1 ∧ 0 <= s.1 <= cluster_count fs ∧ after fs s.2 (cont w) ∧
        ∀ j, 0 <= j < s.1 → fat fs (cont w) (probe_cluster fs start j) ≠ 0)
     (λ r : Z * FAT32Filesystem * W, alike r.1.2 fs ∧ ok r.1.2 r.2 ∧
        ((r.1.1 = FAT_END ∧ full fs (cont w) ∧ cont r.2 = cont w) ∨ grows fs (cont w) (cont r.2) last r.1.1))
     (try_cluster fs start last)) with CHAIN_FUEL (cluster_count fs) (0, w) as ([[c fs'] w'] & E & Hp).
  - intros n' [j w'] (-> & Hr & _). cbn [fst] in *. lia.
  - intros n' [j w1] (-> & Hr & (Hok1 & Ec1) & Hj). cbn [fst snd] in *. unfold try_cluster. destruct (Z.leb_spec (cluster_count fs) j).
    { eexists. split; [done|]. cbn [fst snd]. split; [apply alike_refl|]. split; [done|]. left. split; [done|]. split; [|done].
      intros x Hx. destruct (probe_cluster_all fs start x Hs Hx) as (i & Hi & <-). apply Hj. lia. }
    rewrite (u32_small (cluster_count fs + 2)) by lia. unfold cluster_ok in Hs. rewrite (u32_small (start + j)) by lia.
    assert (Ep : (if cluster_count fs + 2 <=? start + j then u32 (2 + u32 (start + j - (cluster_count fs + 2))) else start + j) = probe_cluster fs start j).
    { unfold probe_cluster. destruct (Z.leb_spec (cluster_count fs + 2) (start + j)); [|done]. rewrite !u32_small by (rewrite ?u32_small by lia; lia). lia. }
    rewrite Ep. assert (Hpc : cluster_ok fs (probe_cluster fs start j)).
    { unfold cluster_ok, probe_cluster. destruct (Z.leb_spec (cluster_count fs + 2) (start + j)); lia. }
    destruct (fat_next_cluster_spec fs w1 _ Hok1 Hpc) as (w2 & E2 & Hok2 & Ec2). step_with E2. rewrite Ec1 in *.
    destruct (Z.eqb_spec (fat fs (cont w) (probe_cluster fs start j)) 0) as [E0|Hn0].
    + destruct (claim_cluster_spec fs w2 (probe_cluster fs start j) last Hok2 Hpc) as (fs' & w3 & E3 & Hal & Hok3 & Hg); [by rewrite Ec2| |].
      { destruct Hlast as [->|[Hl1 Hl2]]; [by left|right]. split; [done|]. congruence. }
      step_with E3. eexists. split; [done|]. cbn [fst snd]. rewrite Ec2 in Hg. split; [done|]. split; [done|]. by right.
    + eexists. split; [done|]. exists (cluster_count fs - (j + 1)). cbn [fst snd]. split; [lia|]. split; [done|]. split; [lia|]. split; [done|].
      intros i Hi. destruct (decide (i = j)) as [->|]; [done|]. apply Hj. lia.
  - cbn [fst snd]. split; [lia|]. split; [lia|]. split; [done|]. intros j Hj. lia.
  - unfold CHAIN_FUEL. lia.
  - cbn [fst snd] in Hp. destruct Hp as (H1 & H2 & H3). by exists c, fs', w'.
Qed.

(** ** Release *)

(** The clusters [l] are free, everything else is as it was. *)
Record freed (fs : FAT32Filesystem) (f f' : Z → Z) (l : list Z) : Prop := {
  fr_zero x : x ∈ l → fat fs f' x = 0;
  fr_fat x : cluster_ok fs x → x ∉ l → fat fs f' x = fat fs f x;
  fr_clu x i : cluster_ok fs x → 0 <= i < csize fs → clu fs f' x i = clu fs f x i
}.

Lemma fat32_free_chain_spec fs w c l :
  ok fs w → linked (fat fs (cont w)) fs c l →
  ∃ fs' w', fat32_free_chain fs c w = Ok (fs', w') ∧ alike fs' fs ∧ ok fs' w' ∧ freed fs (cont w) (cont w') l.
Proof.
  intros Hok Hl. pose proof (ok_geom _ _ Hok) as G. pose proof (cluster_bound _ _ _ G) as Hbd. pose proof (linked_length fs Hbd _ _ _ Hl) as Hlen.
  pose proof (linked_ok fs _ _ _ Hl) as Hlo. pose proof (linked_NoDup fs Hbd _ _ _ Hl) as Hnd.
  destruct (bloop_rule (λ n (s : Z * Z * Z * W), ∃ done rest, l = done ++ rest ∧ n = Z.of_nat (length rest) ∧ ok fs s.2 ∧
        match rest with [] => FAT_CLUSTER_EOF <= s.1.1.1 | x :: _ => s.1.1.1 = x end ∧ freed fs (cont w) (cont s.2) done)
     (λ r : Z * Z * W, ok fs r.2 ∧ freed fs (cont w) (cont r.2) l) (free_step fs)) with CHAIN_FUEL (Z.of_nat (length l)) (c, 0, 0, w) as ([[ff fc] w'] & E & Hp).
  - intros n' s (d & rest & _ & -> & _). lia.
  - intros n' [[[x ff] fc] w1] (d & rest & El & -> & Hok1 & Hx & Hf). cbn [fst snd] in *. unfold free_step. destruct rest as [|y rest].
    { destruct (Z.leb_spec 2 x), (Z.ltb_spec x FAT_CLUSTER_EOF); cbn [andb]; try lia; (eexists; split; [done|]; cbn [snd]; rewrite El, app_nil_r; done). }
    subst y. assert (Hxl : x ∈ l) by (rewrite El; apply elem_of_app; right; left). pose proof (Hlo x Hxl) as Hxo. pose proof (Hbd x Hxo) as Hxb.
    assert (Hxd : x ∉ d) by (rewrite El in Hnd; apply NoDup_app in Hnd as (_ & Hnd & _); intros Hx; apply (Hnd x Hx); left).
    destruct (Z.leb_spec 2 x), (Z.ltb_spec x FAT_CLUSTER_EOF); cbn [andb]; try lia.
    destruct (fat_next_cluster_spec fs w1 x Hok1 Hxo) as (w2 & E2 & Hok2 & Ec2). step_with E2.
    destruct (fat32_write_entry_spec fs w2 x 0 Hok2 Hxo ltac:(lia)) as (w3 & E3 & Hok3 & Ho3 & Hv3). step_with E3. eexists. split; [done|]. exists (Z.of_nat (length rest)).
    split; [simpl; lia|]. exists (d ++ [x]), rest. cbn [fst snd]. split; [by rewrite El, <-(assoc_L (++))|]. split; [done|]. split; [done|]. split.
    + assert (Hi : l !! length d = Some x) by (rewrite El; apply list_lookup_middle; done). rewrite (fr_fat _ _ _ _ Hf) by done. destruct rest as [|y rest].
      * apply (linked_last fs _ c l (length d)); [done|done|]. rewrite El, length_app. simpl. lia.
      * apply (linked_next fs _ c l (length d)); [done|done|]. rewrite El, lookup_app_r by lia. by replace (S (length d) - length d)%nat with 1%nat by lia.
    + rewrite Ec2 in *. split.
      * intros z [Hz| ->%list_elem_of_singleton]%elem_of_app; [|done]. rewrite (entry_other fs w2 (cont w3) x z); try done; [rewrite Ec2; by apply Hf| |congruence|by rewrite Ec2].
        apply Hlo. rewrite El. apply elem_of_app. by left.
      * intros z Hz [Hzd Hzx]%not_elem_of_app. rewrite (entry_other fs w2 (cont w3) x z); try done; [rewrite Ec2; by apply Hf| |by rewrite Ec2]. intros ->. apply Hzx. left.
      * intros z i Hz Hi. rewrite (entry_clu fs w2 (cont w3) x z i); try done; [rewrite Ec2; by apply Hf|lia|by rewrite Ec2].
  - exists [], l. cbn [fst snd]. split; [done|]. split; [done|]. split; [done|]. destruct (linked_head fs _ _ _ Hl) as [l' ->]. split; [done|].
    split; [intros x Hx; by apply not_elem_of_nil in Hx|done|done].
  - unfold CHAIN_FUEL, FAT_CLUSTER_EOF in *. lia.
  - unfold fat32_free_chain. step_with E. cbn [fst snd] in Hp. destruct Hp as [Hok1 Hf]. set (fs' := set_alloc _ _ fs).
    destruct (fat32_update_fsinfo_spec fs' w') as (w5 & E5 & Hok5 & Hr5); [by apply ok_alloc|]. step_with E5. exists fs', w5. split; [done|]. split; [by eexists _, _|].
    split; [done|]. split.
    + intros x Hx. rewrite (proj1 (reserved_fat fs w' (cont w5) x Hok1 (Hlo x Hx) Hr5)). by apply Hf.
    + intros x Hx Hxl. rewrite (proj1 (reserved_fat fs w' (cont w5) x Hok1 Hx Hr5)). by apply Hf.
    + intros x i Hx Hi. rewrite (proj2 (reserved_fat fs w' (cont w5) x Hok1 Hx Hr5)) by lia. by apply Hf.
Qed.
End ops.
