(* ===== verification/FatDir.v ===== *)
(** Directories of a FAT32 volume (src/fs/fat32/fat32.cpp): loading a directory's cluster
    chain into memory and saving it, the scan that turns entries into records, the search
    for free entries, and the directory operations of the virtual file system. *)

From S2P Require Import Prelude Wire Disk FatName Fat.

Record DirChain := mkChain { dc_count : Z; dc_size : Z; dc_total : Z; dc_clusters : list Z; dc_data : list Z }.

Record DirRecord := mkRecord {
  r_name : list Z; r_short : list Z; r_attr : Z; r_is_dir : bool; r_cluster : Z; r_size : Z; r_start : Z; r_count : Z
}.

(** [VNode] with its [FAT32Node]. *)
Record Node := mkNode { inode_id : Z; n_size : Z; is_dir : bool; dir_cluster : Z; entry_start_index : Z; node_entry_count : Z }.

Section dir.
Context {D : Type} `{BlockDev D}.
Abbreviation W := (World D).
Abbreviation Fs := FAT32Filesystem.

(** ** Chains in memory *)

(** The first walk counts the clusters. *)
Definition count_step (fs : Fs) (s : Z * Z * W) : res (Z * Z * W + Z * W) :=
  let '(cluster, count, w) := s in
  if (2 <=? cluster) && (cluster <? FAT_CLUSTER_EOF) then
    '(next, w) ← fat_next_cluster fs cluster w;
    if FAT_CLUSTER_EOF <=? next then Ok (inr (u32 (count + 1), w)) else Ok (inl (next, u32 (count + 1), w))
  else Ok (inr (count, w)).

(** The second walk reads them; [Some ok] leaves the loop. *)
Definition load_step (fs : Fs) (count : Z) (s : Z * Z * list Z * list Z * W) : res (Z * Z * list Z * list Z * W + bool * list Z * list Z * W) :=
  let '(i, cluster, clusters, data, w) := s in
  if count <=? i then Ok (inr (true, clusters, data, w))
  else
    clusters ← arr_set clusters i cluster;
    let '(r, w) := dev_read (cluster_to_lba fs cluster) (sectors_per_cluster fs) w in
    match r with
    | None => Ok (inr (false, clusters, data, w))
    | Some l =>
        data ← st data (u32 (i * cluster_size fs)) l;
        '(next, w) ← fat_next_cluster fs cluster w;
        if FAT_CLUSTER_EOF <=? next then Ok (inr (true, clusters, data, w)) else Ok (inl (i + 1, next, clusters, data, w))
    end.

Definition dir_chain_load (fs : Fs) (cluster : Z) (w : W) : res (option DirChain * W) :=
  if cluster <? 2 then Ok (None, w)
  else
    '(count, w) ← bloop CHAIN_FUEL (count_step fs) (cluster, 0, w);
    if count =? 0 then Ok (None, w)
    else
      let '(c, w) := kmalloc w in
      let '(d, w) := kmalloc w in
      match c, d with
      | Some c, Some d =>
          let data := read_range d 0 (u32 (cluster_size fs * count)) in
          '(ok, clusters, data, w) ← bloop CHAIN_FUEL (load_step fs count) (0, cluster, read_range c 0 count, data, w);
          if (ok : bool) then
            Ok (Some (mkChain count (cluster_size fs) (u32 (count * (cluster_size fs / ENTRY))) clusters data), w)
          else Ok (None, w)
      | _, _ => Ok (None, w)
      end.

(** [dir_chain_entry]: the entry's offset in the data. *)
Definition dir_chain_entry (ch : DirChain) (index : Z) : option Z :=
  if dc_total ch <=? index then None else Some (index * ENTRY).

Definition save_step (fs : Fs) (ch : DirChain) (i : Z) (s : bool * W) : res (bool * W) :=
  let '(ok, w) := s in
  if negb ok then Ok s
  else
    cluster ← arr_get (dc_clusters ch) i;
    l ← view (dc_data ch) (u32 (i * dc_size ch)) (sectors_per_cluster fs * bytes_per_sector fs);
    Ok (dev_write (cluster_to_lba fs cluster) (sectors_per_cluster fs) l w).

Definition dir_chain_save (fs : Fs) (ch : DirChain) (w : W) : res (bool * W) :=
  for_upto (Z.to_nat (dc_count ch)) 0 (save_step fs ch) (true, w).

(** One cluster more; [realloc] keeps the old contents and the new cluster is cleared. *)
Definition extend_step (required : Z) (s : Fs * DirChain * W) : res (Fs * DirChain * W + bool * Fs * DirChain * W) :=
  let '(fs, ch, w) := s in
  if required <=? dc_total ch then Ok (inr (true, fs, ch, w))
  else
    last ← arr_get (dc_clusters ch) (dc_count ch - 1);
    '(new, fs, w) ← fat32_allocate_cluster fs last w;
    if FAT_CLUSTER_EOF <=? new then Ok (inr (false, fs, ch, w))
    else
      let '(c, w) := kmalloc w in
      let '(d, w) := kmalloc w in
      match c, d with
      | Some _, Some _ =>
          let count := u32 (dc_count ch + 1) in
          Ok (inl (fs, mkChain count (dc_size ch) (u32 (count * (dc_size ch / ENTRY))) (dc_clusters ch ++ [new])
            (dc_data ch ++ replicate (Z.to_nat (dc_size ch)) 0), w))
      | _, _ => Ok (inr (false, fs, ch, w))
      end.

Definition dir_chain_extend (fs : Fs) (ch : DirChain) (required : Z) (w : W) : res (bool * Fs * DirChain * W) :=
  bloop CHAIN_FUEL (extend_step required) (fs, ch, w).

(** ** Records *)

Definition dir_record_cluster (e : list Z) : res Z :=
  hi ← ld16 e 20; lo ← ld16 e 26; Ok (Z.lor (Z.shiftl hi 16) lo).

(** [lfn_copy_name_part] *)
Definition lfn_part (e : list Z) : res (list Z) :=
  mapM (λ k, ld16 e k) [1; 3; 5; 7; 9; 14; 16; 18; 20; 22; 24; 28; 30].

(** The long name collected so far: its slots, its checksum, its 260 units. *)
Definition Lfn : Type := option (Z * Z * list Z).

Definition lfn_store (base : Z) (part units : list Z) : res (list Z) :=
  for_upto 13 0 (λ i units, if base + i <? 260 then v ← arr_get part i; arr_set units (base + i) v else Ok units) units.

Definition lfn_collect (e : list Z) (lfn : Lfn) : res Lfn :=
  ord_byte ← arr_get e 0;
  sum ← arr_get e 13;
  let ord := Z.land ord_byte 0x1F in
  let lfn := if has ord_byte 0x40 then Some (ord, sum, replicate 260 0xFFFF) else lfn in
  match lfn with
  | Some (slots, sum, units) =>
      if (0 <? ord) && (ord <=? 20) then
        part ← lfn_part e;
        units ← lfn_store ((ord - 1) * 13) part units;
        Ok (Some (slots, sum, units))
      else Ok lfn
  | None => Ok None
  end.

Definition entry_record (e : list Z) (cursor : Z) (lfn : Lfn) : res DirRecord :=
  attr ← arr_get e 11;
  cluster ← dir_record_cluster e;
  size ← ld32 e 28;
  let short := take 11 e in
  let count := match lfn with Some (slots, _, _) => slots + 1 | None => 1 end in
  name ← match lfn with
         | Some (slots, sum, units) =>
             if sum =? lfn_checksum short then
               long ← utf16_to_utf8 units 0 (Z.to_nat (slots * 13)) [] 256;
               Ok (match long with Some long => long | None => short_name_to_string short end)
             else Ok (short_name_to_string short)
         | None => Ok (short_name_to_string short)
         end;
  Ok (mkRecord name short attr (has attr FAT_ATTR_DIRECTORY) cluster size (u32 (cursor + 1 - count)) count).

(** One entry: [inr] leaves the loop. *)
Definition scan_step (ch : DirChain) (s : Z * Lfn) : res (Z * Lfn + option (DirRecord * Z)) :=
  let '(cursor, lfn) := s in
  match dir_chain_entry ch cursor with
  | None => Ok (inr None)
  | Some off =>
      e ← view (dc_data ch) off ENTRY;
      first ← arr_get e 0;
      attr ← arr_get e 11;
      if first =? 0 then Ok (inr None)
      else if first =? 0xE5 then Ok (inl (cursor + 1, None))
      else if attr =? FAT_ATTR_LFN then lfn ← lfn_collect e lfn; Ok (inl (cursor + 1, lfn))
      else if has attr FAT_ATTR_VOLUME_ID then Ok (inl (cursor + 1, None))
      else r ← entry_record e cursor lfn; Ok (inr (Some (r, cursor + 1)))
  end.

(** The next record from [cursor] on, and the new cursor. *)
Definition dir_scan_record (ch : DirChain) (cursor : Z) : res (option (DirRecord * Z)) :=
  bloop CHAIN_FUEL (scan_step ch) (cursor, None).

(** The loops over all records: the first one that [p] accepts. *)
Definition find_step (ch : DirChain) (p : DirRecord → bool) (cursor : Z) : res (Z + option DirRecord) :=
  r ← dir_scan_record ch cursor;
  match r with
  | None => Ok (inr None)
  | Some (record, cursor) => if p record then Ok (inr (Some record)) else Ok (inl cursor)
  end.

Definition find_record (ch : DirChain) (p : DirRecord → bool) : res (option DirRecord) := bloop CHAIN_FUEL (find_step ch p) 0.

Definition dir_find_record (ch : DirChain) (name : list Z) : res (option DirRecord) := find_record ch (λ r, name_equal_ci (r_name r) name).

Definition short_name_used (ch : DirChain) (short : list Z) : res bool :=
  r ← find_record ch (λ r, bool_decide (r_short r = short)); Ok (bool_decide (r ≠ None)).

(** ** New entries *)

Definition FILE_BIN : list Z := [70; 73; 76; 69; 32; 32; 32; 32; 66; 73; 78].

Definition suffix_step (ch : DirChain) (name : list Z) (suffix : Z) : res (Z + list Z) :=
  if 1000 <=? suffix then Ok (inr FILE_BIN)
  else
    candidate ← format_short_name name suffix;
    used ← short_name_used ch candidate;
    if (used : bool) then Ok (inl (suffix + 1)) else Ok (inr candidate).

Definition generate_short_name (ch : DirChain) (name : list Z) : res (list Z) :=
  out ← format_short_name name 0;
  used ← short_name_used ch out;
  if negb used && negb (name_requires_lfn name) then Ok out
  else loop 1001 (suffix_step ch name) 1.

Definition build_dir_entries (ch : DirChain) (name : list Z) (attr cluster size max_entries : Z) : res (option (list (list Z))) :=
  if max_entries <=? 0 then Ok None
  else
    short_name ← generate_short_name ch name;
    name_entries name short_name attr cluster size max_entries.

(** The scan for a run of free entries. *)
Definition range_step (ch : DirChain) (needed : Z) (s : Z * Z * Z) : res (Z * Z * Z + option Z) :=
  let '(i, run_start, run) := s in
  match dir_chain_entry ch i with
  | None => Ok (inr None)
  | Some off =>
      first ← arr_get (dc_data ch) off;
      if (first =? 0) || (first =? 0xE5) then
        let run_start := if run =? 0 then i else run_start in
        if needed <=? run + 1 then Ok (inr (Some run_start)) else Ok (inl (i + 1, run_start, run + 1))
      else Ok (inl (i + 1, run_start, 0))
  end.

Definition dir_find_free_range (fs : Fs) (ch : DirChain) (needed : Z) (w : W) : res (option Z * Fs * DirChain * W) :=
  r ← bloop CHAIN_FUEL (range_step ch needed) (0, 0, 0);
  match r with
  | Some i => Ok (Some i, fs, ch, w)
  | None =>
      '(ok, fs, ch', w) ← dir_chain_extend fs ch (u32 (dc_total ch + needed)) w;
      Ok (if (ok : bool) then Some (dc_total ch) else None, fs, ch', w)
  end.

(** [*dir_chain_entry(chain, index) = entry]: a null pointer is a fault. *)
Definition store_entry (ch : DirChain) (index : Z) (bs : list Z) : res DirChain :=
  match dir_chain_entry ch index with
  | None => Fault
  | Some off => data ← st (dc_data ch) off bs; Ok (mkChain (dc_count ch) (dc_size ch) (dc_total ch) (dc_clusters ch) data)
  end.

Fixpoint place_entries (ch : DirChain) (start : Z) (entries : list (list Z)) : res DirChain :=
  match entries with
  | [] => Ok ch
  | e :: entries' => ch ← store_entry ch (u32 start) e; place_entries ch (start + 1) entries'
  end.

(** Marks the entries of a record as deleted. *)
Definition erase_entries (ch : DirChain) (r : DirRecord) : res DirChain :=
  for_upto (Z.to_nat (r_count r)) 0 (λ i ch, store_entry ch (u32 (r_start r + i)) [0xE5]) ch.

(** Free entries are found, written and saved: the end that create, mkdir and rename share. *)
Definition add_entries (fs : Fs) (ch : DirChain) (entries : list (list Z)) (w : W) : res (bool * Fs * W) :=
  '(start, fs, ch, w) ← dir_find_free_range fs ch (Z.of_nat (length entries)) w;
  match start with
  | None => Ok (false, fs, w)
  | Some start =>
      ch ← place_entries ch start entries;
      '(ok, w) ← dir_chain_save fs ch w;
      Ok (ok, fs, w)
  end.

(** ** Operations on a directory *)

Definition make_vnode (cluster : Z) (r : DirRecord) (w : W) : option Node * W :=
  let '(a, w) := kmalloc w in
  match a with
  | None => (None, w)
  | Some _ =>
      let '(b, w) := kmalloc w in
      match b with
      | None => (None, w)
      | Some _ => (Some (mkNode (r_cluster r) (r_size r) (r_is_dir r) cluster (r_start r) (r_count r)), w)
      end
  end.

Definition fat32_vfs_lookup (fs : Fs) (dir : Node) (name : list Z) (w : W) : res (option Node * W) :=
  if negb (is_dir dir) then Ok (None, w)
  else
    '(ch, w) ← dir_chain_load fs (u32 (inode_id dir)) w;
    match ch with
    | None => Ok (None, w)
    | Some ch =>
        r ← dir_find_record ch name;
        match r with
        | None => Ok (None, w)
        | Some r => Ok (make_vnode (u32 (inode_id dir)) r w)
        end
    end.

Definition readdir_step (ch : DirChain) (index : Z) (s : Z * Z) : res (Z * Z + option (list Z)) :=
  let '(cursor, current) := s in
  r ← dir_scan_record ch cursor;
  match r with
  | None => Ok (inr None)
  | Some (record, cursor) => if current =? index then Ok (inr (Some (take 255 (r_name record)))) else Ok (inl (cursor, current + 1))
  end.

Definition fat32_vfs_readdir (fs : Fs) (node : Node) (index : Z) (w : W) : res (option (list Z) * W) :=
  if negb (is_dir node) then Ok (None, w)
  else
    '(ch, w) ← dir_chain_load fs (u32 (inode_id node)) w;
    match ch with
    | None => Ok (None, w)
    | Some ch => name ← bloop CHAIN_FUEL (readdir_step ch index) (0, 0); Ok (name, w)
    end.

(** The result 0 is [true], -1 is [false]. *)
Definition fat32_vfs_create (fs : Fs) (dir : Node) (name : list Z) (w : W) : res (bool * Fs * W) :=
  if decide (name = []) then Ok (false, fs, w)
  else
    '(ch, w) ← dir_chain_load fs (u32 (inode_id dir)) w;
    match ch with
    | None => Ok (false, fs, w)
    | Some ch =>
        r ← dir_find_record ch name;
        match r with
        | Some _ => Ok (false, fs, w)
        | None =>
            entries ← build_dir_entries ch name FAT_ATTR_ARCHIVE 0 0 21;
            match entries with
            | None => Ok (false, fs, w)
            | Some entries => add_entries fs ch entries w
            end
        end
    end.

Definition dot_name (dots : list Z) : list Z := dots ++ replicate (11 - length dots) SPACE.

(** The entries "." and ".." of a new directory. *)
Definition dot_entries (fs : Fs) (new_cluster parent : Z) : list Z * list Z :=
  let parent := if parent =? root_dir_cluster fs then 0 else parent in
  (short_entry (dot_name [DOT]) FAT_ATTR_DIRECTORY new_cluster 0, short_entry (dot_name [DOT; DOT]) FAT_ATTR_DIRECTORY parent 0).

Definition init_directory (fs : Fs) (new_cluster parent : Z) (w : W) : res (bool * Fs * W) :=
  '(ch, w) ← dir_chain_load fs new_cluster w;
  match ch with
  | None => Ok (false, fs, w)
  | Some ch =>
      match dir_chain_entry ch 0, dir_chain_entry ch 1 with
      | Some _, Some _ =>
          let '(dot, dotdot) := dot_entries fs new_cluster parent in
          ch ← store_entry ch 0 dot;
          ch ← store_entry ch 1 dotdot;
          '(ok, w) ← dir_chain_save fs ch w;
          Ok (ok, fs, w)
      | _, _ => Ok (false, fs, w)
      end
  end.

Definition fat32_vfs_mkdir (fs : Fs) (dir : Node) (name : list Z) (w : W) : res (bool * Fs * W) :=
  if decide (name = []) then Ok (false, fs, w)
  else
    '(ch, w) ← dir_chain_load fs (u32 (inode_id dir)) w;
    match ch with
    | None => Ok (false, fs, w)
    | Some ch =>
        r ← dir_find_record ch name;
        match r with
        | Some _ => Ok (false, fs, w)
        | None =>
            '(new_cluster, fs, w) ← fat32_allocate_cluster fs 0 w;
            if FAT_CLUSTER_EOF <=? new_cluster then Ok (false, fs, w)
            else
              entries ← build_dir_entries ch name FAT_ATTR_DIRECTORY new_cluster 0 21;
              match entries with
              | None => Ok (false, fs, w)
              | Some entries =>
                  '(ok, fs, w) ← add_entries fs ch entries w;
                  if negb ok then Ok (false, fs, w) else init_directory fs new_cluster (u32 (inode_id dir)) w
              end
        end
    end.

Definition is_dot (name : list Z) : bool := name_eq name [DOT] || name_eq name [DOT; DOT].

Definition fat32_dir_is_empty (fs : Fs) (cluster : Z) (w : W) : res (bool * W) :=
  '(ch, w) ← dir_chain_load fs cluster w;
  match ch with
  | None => Ok (false, w)
  | Some ch => r ← find_record ch (λ r, negb (is_dot (r_name r))); Ok (bool_decide (r = None), w)
  end.

Definition fat32_vfs_unlink (fs : Fs) (dir : Node) (name : list Z) (w : W) : res (bool * Fs * W) :=
  if decide (name = []) then Ok (false, fs, w)
  else
    '(ch, w) ← dir_chain_load fs (u32 (inode_id dir)) w;
    match ch with
    | None => Ok (false, fs, w)
    | Some ch =>
        r ← dir_find_record ch name;
        match r with
        | None => Ok (false, fs, w)
        | Some r =>
            '(ok, w) ← (if r_is_dir r then fat32_dir_is_empty fs (r_cluster r) w else Ok (true, w));
            if negb ok then Ok (false, fs, w)
            else
              ch ← erase_entries ch r;
              '(ok, w) ← dir_chain_save fs ch w;
              if negb ok then Ok (false, fs, w)
              else if 2 <=? r_cluster r then '(fs, w) ← fat32_free_chain fs (r_cluster r) w; Ok (true, fs, w)
              else Ok (true, fs, w)
        end
    end.

Definition cluster_fields (cluster : Z) : list Z * list Z :=
  (le_bytes 2 (u16 (Z.land (Z.shiftr cluster 16) 0xFFFF)), le_bytes 2 (u16 (Z.land cluster 0xFFFF))).

(** Stores into the fields of entry [index]. *)
Definition set_field (ch : DirChain) (index off : Z) (bs : list Z) : res DirChain :=
  match dir_chain_entry ch index with
  | None => Fault
  | Some o => data ← st (dc_data ch) (o + off) bs; Ok (mkChain (dc_count ch) (dc_size ch) (dc_total ch) (dc_clusters ch) data)
  end.

Definition set_entry_cluster (cluster : Z) (ch : DirChain) (index : Z) : res DirChain :=
  let '(hi, lo) := cluster_fields cluster in
  ch ← set_field ch index 26 lo; set_field ch index 20 hi.

Definition set_entry_size (size : Z) (ch : DirChain) (index : Z) : res DirChain := set_field ch index 28 (le_bytes 4 size).

Definition update_directory_parent (fs : Fs) (cluster new_parent : Z) (w : W) : res (bool * W) :=
  '(ch, w) ← dir_chain_load fs cluster w;
  match ch with
  | None => Ok (false, w)
  | Some ch =>
      match dir_chain_entry ch 1 with
      | None => Ok (false, w)
      | Some _ =>
          ch ← set_entry_cluster (if new_parent =? root_dir_cluster fs then 0 else new_parent) ch 1;
          dir_chain_save fs ch w
      end
  end.

(** Both names are in one directory, whose chain is [ch]. *)
Definition rename_within (fs : Fs) (ch : DirChain) (r : DirRecord) (old_name new_name : list Z) (w : W) : res (bool * Fs * W) :=
  let case_only := name_equal_ci old_name new_name && negb (name_eq old_name new_name) in
  if negb case_only && name_equal_ci old_name new_name then Ok (true, fs, w)
  else
    taken ← (if negb case_only then r ← dir_find_record ch new_name; Ok (bool_decide (r ≠ None)) else Ok false);
    if taken : bool then Ok (false, fs, w)
    else
      ch ← erase_entries ch r;
      entries ← build_dir_entries ch new_name (r_attr r) (r_cluster r) (r_size r) 21;
      match entries with
      | None => Ok (false, fs, w)
      | Some entries => add_entries fs ch entries w
      end.

Definition rename_across (fs : Fs) (old_ch : DirChain) (r : DirRecord) (new_dir : Node) (new_name : list Z) (w : W) : res (bool * Fs * W) :=
  '(new_ch, w) ← dir_chain_load fs (u32 (inode_id new_dir)) w;
  match new_ch with
  | None => Ok (false, fs, w)
  | Some new_ch =>
      taken ← dir_find_record new_ch new_name;
      match taken with
      | Some _ => Ok (false, fs, w)
      | None =>
          entries ← build_dir_entries new_ch new_name (r_attr r) (r_cluster r) (r_size r) 21;
          match entries with
          | None => Ok (false, fs, w)
          | Some entries =>
              '(ok, fs, w) ← add_entries fs new_ch entries w;
              if negb ok then Ok (false, fs, w)
              else
                old_ch ← erase_entries old_ch r;
                '(ok, w) ← dir_chain_save fs old_ch w;
                if negb ok then Ok (false, fs, w)
                else if r_is_dir r then '(_, w) ← update_directory_parent fs (r_cluster r) (u32 (inode_id new_dir)) w; Ok (true, fs, w)
                else Ok (true, fs, w)
          end
      end
  end.

Definition fat32_vfs_rename (fs : Fs) (old_dir : Node) (old_name : list Z) (new_dir : Node) (new_name : list Z) (w : W) : res (bool * Fs * W) :=
  '(ch, w) ← dir_chain_load fs (u32 (inode_id old_dir)) w;
  match ch with
  | None => Ok (false, fs, w)
  | Some ch =>
      r ← dir_find_record ch old_name;
      match r with
      | None => Ok (false, fs, w)
      | Some r =>
          if u32 (inode_id old_dir) =? u32 (inode_id new_dir) then rename_within fs ch r old_name new_name w
          else rename_across fs ch r new_dir new_name w
      end
  end.

Definition fat32_get_root (fs : Fs) (w : W) : option Node * W :=
  make_vnode (root_dir_cluster fs) (mkRecord [] [] 0 true (root_dir_cluster fs) 0 0 0) w.
End dir.
