(* ===== verification/FatFile.v ===== *)
(** Files of a FAT32 volume (src/fs/fat32/fat32.cpp): reading, writing and truncating a
    file through its cluster chain, and the update of its directory entry. *)

From S2P Require Import Prelude Wire Disk FatName Fat FatDir.

Section file.
Context {D : Type} `{BlockDev D}.
Abbreviation W := (World D).
Abbreviation Fs := FAT32Filesystem.

Definition set_inode (c : Z) (n : Node) : Node := mkNode c (n_size n) (is_dir n) (dir_cluster n) (entry_start_index n) (node_entry_count n).
Definition set_size (s : Z) (n : Node) : Node := mkNode (inode_id n) s (is_dir n) (dir_cluster n) (entry_start_index n) (node_entry_count n).

(** [mutator] is [set_entry_size] or [set_entry_cluster]. *)
Definition dir_update_short_entry (fs : Fs) (node : Node) (mutator : DirChain → Z → res DirChain) (w : W) : res (bool * W) :=
  '(ch, w) ← dir_chain_load fs (dir_cluster node) w;
  match ch with
  | None => Ok (false, w)
  | Some ch =>
      let index := u32 (entry_start_index node + node_entry_count node - 1) in
      match dir_chain_entry ch index with
      | None => Ok (false, w)
      | Some _ => ch ← mutator ch index; dir_chain_save fs ch w
      end
  end.

Definition fat32_vfs_truncate (fs : Fs) (node : Node) (size : Z) (w : W) : res (bool * Fs * Node * W) :=
  if is_dir node || negb (size =? 0) then Ok (false, fs, node, w)
  else
    '(fs, w) ← fat32_free_chain fs (u32 (inode_id node)) w;
    let node := set_size 0 (set_inode 0 node) in
    '(_, w) ← dir_update_short_entry fs node (set_entry_cluster 0) w;
    '(_, w) ← dir_update_short_entry fs node (set_entry_size 0) w;
    Ok (true, fs, node, w).

(** ** Reading *)

(** The walk to the first cluster read; [None] is the result -1. *)
Definition skip_step (fs : Fs) (skip : Z) (s : Z * Z * W) : res (Z * Z * W + option Z * W) :=
  let '(i, cluster, w) := s in
  if skip <=? i then Ok (inr (Some cluster, w))
  else
    '(next, w) ← fat_next_cluster fs cluster w;
    if FAT_CLUSTER_EOF <=? next then Ok (inr (None, w)) else Ok (inl (i + 1, next, w)).

(** One cluster: the bytes read so far, the offset in the cluster. *)
Definition read_step (fs : Fs) (to_read : Z) (s : list Z * Z * Z * W) : res (list Z * Z * Z * W + list Z * W) :=
  let '(out, cluster, cluster_offset, w) := s in
  let bytes_read := Z.of_nat (length out) in
  if (bytes_read <? to_read) && (2 <=? cluster) && (cluster <? FAT_CLUSTER_EOF) then
    let '(r, w) := dev_read (cluster_to_lba fs cluster) (sectors_per_cluster fs) w in
    match r with
    | None => Ok (inr (out, w))
    | Some cluster_buf =>
        let chunk := cluster_size fs - cluster_offset in
        let chunk := if to_read - bytes_read <? chunk then to_read - bytes_read else chunk in
        l ← view cluster_buf cluster_offset chunk;
        let out := out ++ l in
        '(cluster, w) ← (if bytes_read + chunk <? to_read then fat_next_cluster fs cluster w else Ok (cluster, w));
        Ok (inl (out, cluster, 0, w))
    end
  else Ok (inr (out, w)).

Definition FILE_FUEL : positive := 2 ^ 64.

(** The bytes read; [None] is the result -1. *)
Definition fat32_vfs_read (fs : Fs) (node : Node) (size offset : Z) (w : W) : res (option (list Z) * W) :=
  if (n_size node <=? offset) || (inode_id node =? 0) then Ok (Some [], w)
  else
    let to_read := if size <? n_size node - offset then size else n_size node - offset in
    '(cluster, w) ← bloop FILE_FUEL (skip_step fs (offset / cluster_size fs)) (0, u32 (inode_id node), w);
    match cluster with
    | None => Ok (None, w)
    | Some cluster =>
        let '(buf, w) := kmalloc w in
        match buf with
        | None => Ok (None, w)
        | Some _ =>
            '(out, w) ← bloop FILE_FUEL (read_step fs to_read) ([], cluster, offset mod cluster_size fs, w);
            Ok (Some out, w)
        end
    end.

(** ** Writing *)

(** The next cluster of the chain, which gets a new one at its end. *)
Definition next_or_new (fs : Fs) (cluster : Z) (w : W) : res (Z * Fs * W) :=
  '(next, w) ← fat_next_cluster fs cluster w;
  if FAT_CLUSTER_EOF <=? next then fat32_allocate_cluster fs cluster w else Ok (next, fs, w).

Definition seek_step (cluster_index : Z) (s : Z * Z * Fs * W) : res (Z * Z * Fs * W + option Z * Fs * W) :=
  let '(i, cluster, fs, w) := s in
  if cluster_index <=? i then Ok (inr (Some cluster, fs, w))
  else
    '(next, fs, w) ← next_or_new fs cluster w;
    if FAT_CLUSTER_EOF <=? next then Ok (inr (None, fs, w)) else Ok (inl (i + 1, next, fs, w)).

(** One sector. *)
Definition write_step (buf : list Z) (offset : Z) (s : Z * Z * Fs * W) : res (Z * Z * Fs * W + Z * Fs * W) :=
  let '(bytes_written, cluster, fs, w) := s in
  let size := Z.of_nat (length buf) in
  if size <=? bytes_written then Ok (inr (bytes_written, fs, w))
  else
    let cluster_offset := u64 (offset + bytes_written) mod cluster_size fs in
    let sector_in_cluster := cluster_offset / bytes_per_sector fs in
    let sector_offset := cluster_offset mod bytes_per_sector fs in
    let chunk := bytes_per_sector fs - sector_offset in
    let chunk := if size - bytes_written <? chunk then size - bytes_written else chunk in
    let lba := u64 (cluster_to_lba fs cluster + sector_in_cluster) in
    let '(r, w) := dev_read lba 1 w in
    match r with
    | None => Ok (inr (bytes_written, fs, w))
    | Some sector_buf =>
        src ← view buf bytes_written chunk;
        sector_buf ← st sector_buf sector_offset src;
        let '(ok, w) := dev_write lba 1 sector_buf w in
        if negb ok then Ok (inr (bytes_written, fs, w))
        else
          let bytes_written := bytes_written + chunk in
          if (bytes_written <? size) && (cluster_offset + chunk =? cluster_size fs) then
            '(next, fs, w) ← next_or_new fs cluster w;
            if FAT_CLUSTER_EOF <=? next then Ok (inr (bytes_written, fs, w)) else Ok (inl (bytes_written, next, fs, w))
          else Ok (inl (bytes_written, cluster, fs, w))
    end.

(** The first cluster of the file, which gets one if it has none. *)
Definition first_cluster (fs : Fs) (node : Node) (w : W) : res (option Z * Fs * Node * W) :=
  let cluster := u32 (inode_id node) in
  if cluster =? 0 then
    '(cluster, fs, w) ← fat32_allocate_cluster fs 0 w;
    if FAT_CLUSTER_EOF <=? cluster then Ok (None, fs, node, w)
    else
      let node := set_inode cluster node in
      '(_, w) ← dir_update_short_entry fs node (set_entry_cluster cluster) w;
      Ok (Some cluster, fs, node, w)
  else Ok (Some cluster, fs, node, w).

(** The number of bytes written; [None] is the result -1. *)
Definition fat32_vfs_write (fs : Fs) (node : Node) (buf : list Z) (offset : Z) (w : W) : res (option Z * Fs * Node * W) :=
  '(cluster, fs, node, w) ← first_cluster fs node w;
  match cluster with
  | None => Ok (None, fs, node, w)
  | Some cluster =>
      '(cluster, fs, w) ← bloop FILE_FUEL (seek_step (u32 (offset / cluster_size fs))) (0, cluster, fs, w);
      match cluster with
      | None => Ok (None, fs, node, w)
      | Some cluster =>
          let '(sector_buf, w) := kmalloc w in
          match sector_buf with
          | None => Ok (None, fs, node, w)
          | Some _ =>
              '(bytes_written, fs, w) ← bloop FILE_FUEL (write_step buf offset) (0, cluster, fs, w);
              if n_size node <? u64 (offset + bytes_written) then
                let node := set_size (u64 (offset + bytes_written)) node in
                '(_, w) ← dir_update_short_entry fs node (set_entry_size (u32 (n_size node))) w;
                Ok (Some bytes_written, fs, node, w)
              else Ok (Some bytes_written, fs, node, w)
          end
      end
  end.
End file.
