(* ===== verification/FatDirInv.v ===== *)
(** Directories in memory (FatDir.v): loading a chain gives its bytes, saving it puts them
    back and touches nothing else, and updating one field of an entry changes that field
    only. *)

From Stdlib Require Import FunctionalExtensionality.
From S2P Require Import Prelude Wire Disk FatName Fat FatDir FatInv FatFile.

(** Byte [p] of the file or directory whose chain is [l]. *)
Definition fbyte (fs : FAT32Filesystem) (f : Z → Z) (l : list Z) (p : Z) : Z :=
  f (clu_addr fs (nth (Z.to_nat (p / csize fs)) l 0) + p mod csize fs).

Definition span (fs : FAT32Filesystem) (l : list Z) : Z := Z.of_nat (length l) * csize fs.

(** A directory in memory: its bytes are those of [g]. *)
Record chain_of (fs : FAT32Filesystem) (g : Z → Z) (l : list Z) (ch : DirChain) : Prop := {
  co_count : dc_count ch = Z.of_nat (length l);
  co_size : dc_size ch = csize fs;
  co_total : dc_total ch = span fs l / ENTRY;
  co_clusters : dc_clusters ch = l;
  co_data : dc_data ch = read_range g 0 (span fs l)
}.

Definition in_clusters (fs : FAT32Filesystem) (l : list Z) (a : Z) : Prop := ∃ c, c ∈ l ∧ clu_addr fs c <= a < clu_addr fs c + csize fs.

Section dirs.
Context {D : Type} `{BlockDev D} {working : D → Prop} `{!BlockDevLaws D working}.
Abbreviation W := (World D).
Abbreviation ok := (ok (working := working)).
Abbreviation after := (after (working := working)).
Variables (fs : FAT32Filesystem).

Lemma fbyte_in_cluster f l j i c : 0 < csize fs → l !! j = Some c → 0 <= i < csize fs → fbyte fs f l (Z.of_nat j * csize fs + i) = clu fs f c i.
Proof.
  intros Hc Hj Hi. unfold fbyte, clu. rewrite Z.div_add_l, Z.div_small by lia. rewrite Z.add_0_r, Nat2Z.id. rewrite (nth_lookup_Some _ _ _ _ Hj).
  do 2 f_equal. rewrite Z.add_comm, Z.mod_add, Z.mod_small by lia. done.
Qed.

Lemma fbyte_split p l : 0 < csize fs → 0 <= p < span fs l → ∃ j c i, l !! j = Some c ∧ 0 <= i < csize fs ∧ p = Z.of_nat j * csize fs + i.
Proof.
  intros Hc Hp. unfold span in Hp. assert (Hj : 0 <= p / csize fs < Z.of_nat (length l)) by (split; [apply Z.div_pos; lia|apply Z.div_lt_upper_bound; lia]).
  destruct (lookup_lt_is_Some_2 l (Z.to_nat (p / csize fs))) as [c Hl]; [lia|]. exists (Z.to_nat (p / csize fs)), c, (p mod csize fs). split; [done|].
  pose proof (Z.mod_pos_bound p (csize fs) Hc). split; [done|]. rewrite Z2Nat.id by lia. pose proof (Z.div_mod p (csize fs) ltac:(lia)). lia.
Qed.

(** Contents that agree on the clusters of a chain agree on its bytes. *)
Lemma fbyte_ext f f' l p : 0 < csize fs → 0 <= p < span fs l → (∀ c i, c ∈ l → 0 <= i < csize fs → clu fs f' c i = clu fs f c i) → fbyte fs f' l p = fbyte fs f l p.
Proof.
  intros Hc Hp E. destruct (fbyte_split p l Hc Hp) as (j & c & i & Hj & Hi & ->). rewrite !(fbyte_in_cluster _ _ _ _ c) by done. apply E; [|done].
  by eapply list_elem_of_lookup_2.
Qed.

Lemma read_cluster_spec w c : ok fs w → cluster_ok fs c →
  ∃ w', dev_read (cluster_to_lba fs c) (sectors_per_cluster fs) w = (Some (read_range (cont w) (clu_addr fs c) (csize fs)), w') ∧ after fs w' (cont w).
Proof.
  intros Hok Hc. pose proof (ok_geom _ _ Hok) as G. destruct (cluster_to_lba_eq _ _ _ G c Hc) as (_ & H1 & H2 & H3). pose proof (g_spc _ _ _ G).
  destruct (dev_read_spec fs w (cluster_to_lba fs c) (sectors_per_cluster fs) Hok H1 ltac:(lia) H2) as (w' & E & Ha). exists w'. split; [|done].
  rewrite E, H3. unfold csize. by rewrite Z.mul_comm.
Qed.

Lemma dir_count_spec w c l : ok fs w → linked (fat fs (cont w)) fs c l →
  ∃ w', bloop CHAIN_FUEL (count_step fs) (c, 0, w) = Ok (Z.of_nat (length l), w') ∧ after fs w' (cont w).
Proof.
  intros Hok Hl. pose proof (ok_geom _ _ Hok) as G. pose proof (cluster_bound _ _ _ G) as Hbd. pose proof (linked_length fs Hbd _ _ _ Hl) as Hlen. unfold FAT_CLUSTER_EOF in Hlen.
  destruct (bloop_rule (λ n (s : Z * Z * W), ∃ i, l !! i = Some s.1.1 ∧ s.1.2 = Z.of_nat i ∧ n = Z.of_nat (length l) - Z.of_nat i ∧ after fs s.2 (cont w))
     (λ r : Z * W, r.1 = Z.of_nat (length l) ∧ after fs r.2 (cont w)) (count_step fs)) with CHAIN_FUEL (Z.of_nat (length l)) (c, 0, w) as ([r w'] & E & Er & Ha).
  - intros n s (i & Hi & _ & -> & _). apply lookup_lt_Some in Hi. lia.
  - intros n [[x cnt] w1] (i & Hi & Hcnt & -> & (Hok1 & Ec1)). cbn [fst snd] in *. subst cnt. pose proof (linked_ok fs _ _ _ Hl x (list_elem_of_lookup_2 _ _ _ Hi)) as Hx.
    pose proof (Hbd x Hx). unfold count_step. destruct (Z.leb_spec 2 x), (Z.ltb_spec x FAT_CLUSTER_EOF); try lia. cbn [andb].
    destruct (fat_next_cluster_spec fs w1 x Hok1 Hx) as (w2 & E2 & Ha2). step_with E2. rewrite Ec1 in *. pose proof (lookup_lt_Some _ _ _ Hi). rewrite u32_small by lia.
    destruct (decide (S i = length l)) as [He|He].
    + pose proof (linked_last fs _ _ _ _ _ Hl Hi He). destruct (Z.leb_spec FAT_CLUSTER_EOF (fat fs (cont w) x)); [|lia]. eexists. split; [done|]. cbn [fst snd]. split; [lia|done].
    + destruct (lookup_lt_is_Some_2 l (S i)) as [y Hy]; [lia|]. rewrite (linked_next fs _ _ _ _ _ _ Hl Hi Hy).
      pose proof (Hbd y (linked_ok fs _ _ _ Hl y (list_elem_of_lookup_2 _ _ _ Hy))). destruct (Z.leb_spec FAT_CLUSTER_EOF y); [lia|]. eexists. split; [done|].
      exists (Z.of_nat (length l) - Z.of_nat (S i)). split; [lia|]. exists (S i). cbn [fst snd]. split; [done|]. split; [lia|]. done.
  - exists 0%nat. cbn [fst snd]. destruct (linked_head fs _ _ _ Hl) as [l' ->]. split; [done|]. split; [done|]. split; [lia|done].
  - unfold CHAIN_FUEL. lia.
  - cbn [fst snd] in *. subst r. by exists w'.
Qed.

Lemma dir_chain_load_spec w c l :
  ok fs w → linked (fat fs (cont w)) fs c l → span fs l < 2 ^ 32 →
  ∃ ch w', dir_chain_load fs c w = Ok (Some ch, w') ∧ after fs w' (cont w) ∧ chain_of fs (fbyte fs (cont w) l) l ch.
Proof.
  intros Hok Hl Hsp. pose proof (ok_geom _ _ Hok) as G. pose proof (cluster_bound _ _ _ G) as Hbd. pose proof (linked_length fs Hbd _ _ _ Hl) as Hlen. unfold FAT_CLUSTER_EOF in Hlen.
  pose proof (csize_pos _ _ _ G) as Hcs. unfold dir_chain_load. assert (Hc : cluster_ok fs c).
  { destruct (linked_head fs _ _ _ Hl) as [l' ->]. by destruct Hl as (_ & Hc & _). }
  destruct (Z.ltb_spec c 2); [unfold cluster_ok in Hc; lia|]. destruct (dir_count_spec w c l Hok Hl) as (w1 & E1 & Hok1 & Ec1). step_with E1.
  destruct (Z.eqb_spec (Z.of_nat (length l)) 0); [lia|]. destruct (kmalloc_spec fs w1 Hok1) as (f1 & w2 & E2 & Hok2 & Ec2). rewrite E2.
  destruct (kmalloc_spec fs w2 Hok2) as (f2 & w3 & E3 & Hok3 & Ec3). rewrite E3. rewrite (cluster_size_eq _ _ _ G).
  replace (csize fs * Z.of_nat (length l)) with (span fs l) by (unfold span; lia). rewrite (u32_small (span fs l)) by (unfold span in *; nia).
  destruct (bloop_rule (λ n (s : Z * Z * list Z * list Z * W), ∃ i g tl, l !! i = Some s.1.1.1.2 ∧ s.1.1.1.1 = Z.of_nat i ∧ n = Z.of_nat (length l) - Z.of_nat i ∧
        s.1.1.2 = take i l ++ tl ∧ length tl = (length l - i)%nat ∧ s.1.2 = read_range g 0 (span fs l) ∧
        (∀ p, 0 <= p < Z.of_nat i * csize fs → g p = fbyte fs (cont w) l p) ∧ after fs s.2 (cont w))
     (λ r : bool * list Z * list Z * W, r.1.1.1 = true ∧ r.1.1.2 = l ∧ r.1.2 = read_range (fbyte fs (cont w) l) 0 (span fs l) ∧ after fs r.2 (cont w))
     (load_step fs (Z.of_nat (length l)))) with CHAIN_FUEL (Z.of_nat (length l))
     (0, c, read_range f1 0 (Z.of_nat (length l)), read_range f2 0 (span fs l), w3) as ([[[b cl] data] w'] & E & Hp).
  - intros n0 s (i & g & tl & Hi & _ & -> & _). apply lookup_lt_Some in Hi. lia.
  - intros n0 [[[[i0 x] cl] data] w4] (i & g & tl & Hi & Ei & -> & Ecl & Htl & Eda & Hg & (Hok4 & Ec4)). cbn [fst snd] in *. subst i0 cl data.
    pose proof (linked_ok fs _ _ _ Hl x (list_elem_of_lookup_2 _ _ _ Hi)) as Hx. pose proof (lookup_lt_Some _ _ _ Hi) as Hil.
    unfold load_step. destruct (Z.leb_spec (Z.of_nat (length l)) (Z.of_nat i)); [lia|].
    rewrite arr_set_in by (rewrite length_app, length_take; lia). step. rewrite Nat2Z.id.
    assert (Eins : <[i:=x]> (take i l ++ tl) = take (S i) l ++ drop 1 tl).
    { destruct tl as [|t tl]; [simpl in Htl; lia|]. rewrite insert_app_r_alt by (rewrite length_take; lia). rewrite length_take.
      replace (i - i `min` length l)%nat with 0%nat by lia. simpl. rewrite (take_S_r _ _ x) by done. by rewrite <-(assoc_L (++)). }
    rewrite Eins. destruct (read_cluster_spec w4 x Hok4 Hx) as (w5 & E5 & Hok5 & Ec5). rewrite E5. rewrite Ec4 in *.
    assert (Hr32 : Z.of_nat i * csize fs + csize fs <= span fs l) by (unfold span; nia).
    rewrite (cluster_size_eq _ _ _ G), u32_small by nia. rewrite st_range by (rewrite ?length_read_range by lia; nia). step.
    set (g' := write_range g _ _).
    assert (Hg' : ∀ p, 0 <= p < Z.of_nat (S i) * csize fs → g' p = fbyte fs (cont w) l p).
    { intros p Hpr. unfold g'. destruct (decide (p < Z.of_nat i * csize fs)).
      - rewrite write_range_out by (rewrite length_read_range; lia). apply Hg. lia.
      - replace p with (0 + Z.of_nat i * csize fs + (p - Z.of_nat i * csize fs)) at 1 by lia. rewrite write_range_in by (rewrite length_read_range; lia). rewrite read_range_nth by lia.
        replace p with (Z.of_nat i * csize fs + (p - Z.of_nat i * csize fs)) at 2 by lia. by rewrite (fbyte_in_cluster _ _ _ _ x) by (done || lia). }
    destruct (fat_next_cluster_spec fs w5 x Hok5 Hx) as (w6 & E6 & Ha6). step_with E6. rewrite Ec5 in *. destruct (decide (S i = length l)) as [He|He].
    + pose proof (linked_last fs _ _ _ _ _ Hl Hi He). destruct (Z.leb_spec FAT_CLUSTER_EOF (fat fs (cont w) x)); [|lia]. eexists. split; [done|]. cbn [fst snd].
      split; [done|]. split; [|split; [|done]].
      * rewrite He, firstn_all. destruct tl as [|t [|t2 tl]]; [simpl in Htl; lia|apply app_nil_r|simpl in Htl; lia].
      * apply read_range_ext. intros p Hpr. apply Hg'. unfold span in Hpr. rewrite He. lia.
    + destruct (lookup_lt_is_Some_2 l (S i)) as [y Hy]; [lia|]. rewrite (linked_next fs _ _ _ _ _ _ Hl Hi Hy).
      pose proof (Hbd y (linked_ok fs _ _ _ Hl y (list_elem_of_lookup_2 _ _ _ Hy))). destruct (Z.leb_spec FAT_CLUSTER_EOF y); [lia|]. eexists. split; [done|].
      exists (Z.of_nat (length l) - Z.of_nat (S i)). split; [lia|]. exists (S i), g', (drop 1 tl). cbn [fst snd]. split; [done|]. split; [lia|]. split; [done|].
      split; [done|]. split; [rewrite length_drop; lia|]. split; [done|]. by split.
  - exists 0%nat, f2, (read_range f1 0 (Z.of_nat (length l))). cbn [fst snd]. destruct (linked_head fs _ _ _ Hl) as [l' El]. split; [by rewrite El|]. split; [done|].
    split; [lia|]. split; [done|]. split; [rewrite <-(Nat2Z.id (length (read_range _ _ _))), length_read_range by lia; lia|]. split; [done|]. split; [lia|]. by rewrite <-Ec1, <-Ec2, <-Ec3.
  - unfold CHAIN_FUEL. lia.
  - step_with E. cbn [fst snd] in Hp. destruct Hp as (-> & -> & -> & Ha). eexists _, w'. split; [done|]. split; [done|].
    assert (Htot : Z.of_nat (length l) * (csize fs / ENTRY) = span fs l / ENTRY).
    { unfold span, ENTRY. assert (E32 : csize fs = csize fs / 32 * 32) by lia. rewrite E32 at 2. by rewrite Z.mul_assoc, Z.div_mul. }
    assert (0 <= span fs l) by (unfold span; nia).
    split; cbn [dc_count dc_size dc_total dc_clusters dc_data]; try done. rewrite Htot. apply u32_small. unfold ENTRY. lia.
Qed.

(** ** Saving *)

(** The clusters of [l] hold the bytes of [g], and no other byte changed. *)
Record saved (l : list Z) (g f f' : Z → Z) : Prop := {
  sv_clu j c i : l !! j = Some c → 0 <= i < csize fs → clu fs f' c i = g (Z.of_nat j * csize fs + i);
  sv_other a : ¬ in_clusters fs l a → f' a = f a
}.

Lemma saved_fat b n l g f f' c : geom fs b n → (∀ x, x ∈ l → cluster_ok fs x) → saved l g f f' → cluster_ok fs c → fat fs f' c = fat fs f c.
Proof.
  intros G Hl [_ Ho] Hc. unfold fat. f_equal. apply le32_ext. intros i Hi. apply Ho. intros (x & Hx & Ha).
  pose proof (fat_below_data _ _ _ G 0 c x Hc (Hl x Hx) ltac:(pose proof (g_fats _ _ _ G); lia)). lia.
Qed.

Lemma saved_clu b n l g f f' c i : geom fs b n → saved l g f f' → c ∉ l → 0 <= i < csize fs → clu fs f' c i = clu fs f c i.
Proof.
  intros G [_ Ho] Hc Hi. apply Ho. intros (x & Hx & Ha). destruct (clu_apart _ _ _ G c x ltac:(congruence)); lia.
Qed.

Lemma saved_fbyte b n l g f f' p : geom fs b n → saved l g f f' → 0 <= p < span fs l → fbyte fs f' l p = g p.
Proof.
  intros G [Hs _] Hp. pose proof (csize_pos _ _ _ G). destruct (fbyte_split p l ltac:(lia) Hp) as (j & c & i & Hj & Hi & ->).
  rewrite (fbyte_in_cluster _ _ _ _ c) by (done || lia). by apply Hs.
Qed.

Lemma dir_chain_save_spec w l g ch :
  ok fs w → (∀ x, x ∈ l → cluster_ok fs x) → NoDup l → span fs l < 2 ^ 32 → chain_of fs g l ch → (∀ p, 0 <= g p < 2 ^ 8) →
  ∃ w', dir_chain_save fs ch w = Ok (true, w') ∧ ok fs w' ∧ saved l g (cont w) (cont w').
Proof.
  intros Hok Hlo Hnd Hsp [C1 C2 C3 C4 C5] Hg. pose proof (ok_geom _ _ Hok) as G. pose proof (csize_pos _ _ _ G) as Hcs. unfold dir_chain_save. rewrite C1, Nat2Z.id.
  destruct (for_upto_rule (λ k (s : bool * W), s.1 = true ∧ ok fs s.2 ∧
      (∀ j c i, Z.of_nat j < k → l !! j = Some c → 0 <= i < csize fs → clu fs (cont s.2) c i = g (Z.of_nat j * csize fs + i)) ∧
      (∀ a, ¬ in_clusters fs l a → cont s.2 a = cont w a)) (save_step fs ch) (length l) 0 (true, w)) as ([b w'] & E & Hb & Hok' & Hc' & Ho').
  - intros k [b w1] Hk (Hb & Hok1 & Hc1 & Ho1). cbn [fst snd] in *. subst b. unfold save_step. cbn [negb]. rewrite C4, C2, C5.
    destruct (lookup_lt_is_Some_2 l (Z.to_nat k)) as [c Hl]; [lia|]. rewrite (proj2 (arr_get_Ok l k c)) by (split; [lia|done]). step.
    assert (Hks : k * csize fs + csize fs <= span fs l) by (unfold span; nia). rewrite u32_small by nia.
    replace (sectors_per_cluster fs * bytes_per_sector fs) with (csize fs) by (unfold csize; lia). rewrite view_range by nia. step. rewrite Z.add_0_l.
    pose proof (Hlo c (list_elem_of_lookup_2 _ _ _ Hl)) as Hc. destruct (cluster_to_lba_eq _ _ _ (ok_geom _ _ Hok1) c Hc) as (_ & L1 & L2 & L3). pose proof (g_spc _ _ _ G).
    destruct (dev_write_spec fs w1 (cluster_to_lba fs c) (sectors_per_cluster fs) (read_range g (k * csize fs) (csize fs))) as (w2 & E2 & Hok2 & Ec2);
      [done|done|lia|done|rewrite length_read_range by lia; unfold csize; lia|by apply bytes_read_range|].
    rewrite E2. eexists. split; [done|]. cbn [fst snd]. split; [done|]. split; [done|]. rewrite Ec2, L3. split.
    + intros j c' i Hj Hl' Hi. destruct (decide (j = Z.to_nat k)) as [->|Hne].
      * assert (c' = c) as -> by congruence. unfold clu. rewrite write_range_in by (rewrite length_read_range; lia). rewrite read_range_nth by lia. f_equal. lia.
      * unfold clu. rewrite write_range_out; [apply Hc1; [lia|done|done]|]. rewrite length_read_range by lia.
        assert (c' ≠ c) by (intros ->; apply Hne; by eapply NoDup_lookup). destruct (clu_apart _ _ _ G c' c ltac:(done)); lia.
    + intros a Ha. rewrite write_range_out; [by apply Ho1|]. rewrite length_read_range by lia. intros Hin. apply Ha. exists c. split; [by eapply list_elem_of_lookup_2|done].
  - cbn [fst snd]. split; [done|]. split; [done|]. split; [lia|done].
  - cbn [fst snd] in *. subst b. exists w'. split; [done|]. split; [done|]. split; [|done]. intros j c i Hl Hi. apply Hc'; [|done|done]. apply lookup_lt_Some in Hl. lia.
Qed.

(** ** One entry *)

(** [m] replaces bytes of entry [index] as [upd] says. *)
Definition mutates (m : DirChain → Z → res DirChain) (index : Z) (upd : (Z → Z) → Z → Z) : Prop :=
  (∀ g l ch, 0 <= index → (index + 1) * ENTRY <= span fs l → chain_of fs g l ch → ∃ ch', m ch index = Ok ch' ∧ chain_of fs (upd g) l ch') ∧
  (∀ g, (∀ p, 0 <= g p < 2 ^ 8) → ∀ p, 0 <= upd g p < 2 ^ 8) ∧
  (∀ g g' p, g p = g' p → upd g p = upd g' p).

Lemma set_field_spec g l ch index off bs :
  0 <= index → 0 <= off → off + Z.of_nat (length bs) <= ENTRY → (index + 1) * ENTRY <= span fs l → chain_of fs g l ch →
  ∃ ch', set_field ch index off bs = Ok ch' ∧ chain_of fs (write_range g (index * ENTRY + off) bs) l ch'.
Proof.
  intros Hi Ho Hb Hs [C1 C2 C3 C4 C5]. unfold set_field, dir_chain_entry. rewrite C3. unfold ENTRY in *.
  destruct (Z.leb_spec (span fs l / 32) index); [lia|]. rewrite C5, st_range by lia. step. eexists. split; [done|]. rewrite Z.add_0_l.
  split; cbn [dc_count dc_size dc_total dc_clusters dc_data]; done.
Qed.

Definition size_field (index size : Z) (g : Z → Z) : Z → Z := write_range g (index * ENTRY + 28) (le_bytes 4 size).
Definition cluster_field (index cluster : Z) (g : Z → Z) : Z → Z :=
  write_range (write_range g (index * ENTRY + 26) (cluster_fields cluster).2) (index * ENTRY + 20) (cluster_fields cluster).1.

Lemma set_entry_size_mutates size index : mutates (set_entry_size size) index (size_field index size).
Proof.
  split; [|split].
  - intros g l ch Hi Hs Hc. apply set_field_spec; try done; rewrite ?le_bytes_length; unfold ENTRY; lia.
  - intros g Hg. apply bytes_write_range; [done|apply bytes_le_bytes].
  - intros g g' p E. by apply write_range_ext.
Qed.

Lemma set_entry_cluster_mutates cluster index : mutates (set_entry_cluster cluster) index (cluster_field index cluster).
Proof.
  split; [|split].
  - intros g l ch Hi Hs Hc. unfold set_entry_cluster, cluster_fields.
    destruct (set_field_spec g l ch index 26 (cluster_fields cluster).2) as (ch1 & E1 & Hc1); [done|lia| |done|done|]; [unfold cluster_fields, ENTRY; cbn [snd]; rewrite le_bytes_length; lia|].
    cbn [cluster_fields snd] in E1. step_with E1.
    apply set_field_spec; try done; rewrite ?le_bytes_length; unfold ENTRY; lia.
  - intros g Hg. apply bytes_write_range; [apply bytes_write_range; [done|]|]; apply bytes_le_bytes.
  - intros g g' p E. by apply write_range_ext, write_range_ext.
Qed.

(** The entry of a node. *)
Definition node_index (node : Node) : Z := entry_start_index node + node_entry_count node - 1.

Record node_ok (node : Node) (f : Z → Z) (ld : list Z) : Prop := {
  no_dir : linked (fat fs f) fs (dir_cluster node) ld;
  no_span : span fs ld < 2 ^ 32;
  no_index : 0 <= node_index node ∧ (node_index node + 1) * ENTRY <= span fs ld
}.

Lemma dir_update_short_entry_spec w node ld m upd :
  ok fs w → node_ok node (cont w) ld → mutates m (node_index node) upd →
  ∃ w', dir_update_short_entry fs node m w = Ok (true, w') ∧ ok fs w' ∧ saved ld (upd (fbyte fs (cont w) ld)) (cont w) (cont w').
Proof.
  intros Hok [N1 N2 N3] (M1 & M2 & _). pose proof (ok_geom _ _ Hok) as G. pose proof (cluster_bound _ _ _ G) as Hbd. unfold dir_update_short_entry.
  destruct (dir_chain_load_spec w (dir_cluster node) ld Hok N1 N2) as (ch & w1 & E1 & (Hok1 & Ec1) & Hc). step_with E1. fold (node_index node).
  rewrite (u32_small (node_index node)) by (unfold ENTRY in *; lia). unfold dir_chain_entry. rewrite (co_total _ _ _ _ Hc).
  destruct (Z.leb_spec (span fs ld / ENTRY) (node_index node)); [unfold ENTRY in *; lia|].
  destruct (M1 _ ld ch (proj1 N3) (proj2 N3) Hc) as (ch' & E2 & Hc'). step_with E2. rewrite <-Ec1.
  apply (dir_chain_save_spec w1 ld _ ch'); [done|by apply (linked_ok fs _ _ _ N1)|by apply (linked_NoDup fs Hbd _ _ _ N1)|done|by rewrite Ec1|].
  apply M2. intros p. rewrite Ec1. by apply (cont_byte fs w).
Qed.
End dirs.
