(* ===== verification/FatFileInv.v ===== *)
(** Files of a FAT32 volume (FatFile.v): what reading, writing and truncating a file do to
    its bytes, its chain and its directory entry, and that no other chain changes. *)

From Stdlib Require Import FunctionalExtensionality.
From S2P Require Import Prelude Wire Disk FatName Fat FatDir FatInv FatFile FatDirInv.

Lemma geom_back fs next free b n : geom (set_alloc next free fs) b n → geom fs b n.
Proof. by intros []. Qed.

Lemma write_range_app f a l1 l2 : write_range (write_range f a l1) (a + Z.of_nat (length l1)) l2 = write_range f a (l1 ++ l2).
Proof.
  apply functional_extensionality. intros x. unfold write_range. rewrite length_app.
  destruct (Z.leb_spec (a + Z.of_nat (length l1)) x), (Z.ltb_spec x (a + Z.of_nat (length l1) + Z.of_nat (length l2))), (Z.leb_spec a x),
    (Z.ltb_spec x (a + Z.of_nat (length l1))), (Z.ltb_spec x (a + Z.of_nat (length l1 + length l2))); cbn [andb]; try lia; try done.
  - rewrite app_nth2 by lia. f_equal. lia.
  - rewrite app_nth1 by lia. done.
Qed.

Lemma write_range_nil f a : write_range f a [] = f.
Proof. apply functional_extensionality. intros x. apply write_range_out. simpl. lia. Qed.

(** The sector or cluster of an offset ends inside its cluster or chain. *)
Lemma unit_end B s o : 0 < B → 0 <= o < B * s → o - o mod B + B <= B * s.
Proof.
  intros HB Ho. pose proof (Z.div_mod o B ltac:(lia)) as E. assert (o / B < s) by (apply Z.div_lt_upper_bound; lia).
  assert (B * (o / B + 1) <= B * s) by (apply Z.mul_le_mono_nonneg_l; lia). lia.
Qed.

Lemma span_reaches C (l : list Z) p x : 0 < C → 0 <= p → l !! Z.to_nat (p / C) = Some x → p - p mod C + C <= Z.of_nat (length l) * C.
Proof.
  intros HC Hp Hx%lookup_lt_Some. rewrite (Z.mul_comm _ C). apply unit_end; [done|]. split; [done|]. pose proof (Z.div_mod p C ltac:(lia)) as E.
  pose proof (Z.mod_pos_bound p C HC). assert (C * (p / C + 1) <= C * Z.of_nat (length l)) by (apply Z.mul_le_mono_nonneg_l; lia). lia.
Qed.

(** * The bytes of a file *)

(** The bytes of a file, zero after its last cluster. *)
Definition padded (fs : FAT32Filesystem) (f : Z → Z) (l : list Z) (p : Z) : Z := if p <? span fs l then fbyte fs f l p else 0.

Lemma span_mono fs l l' : 0 <= csize fs → l `prefix_of` l' → span fs l <= span fs l'.
Proof. intros Hc Hp%prefix_length. apply Z.mul_le_mono_nonneg_r; lia. Qed.

(** From the bytes [f0] of the volume to [f]: the chain [l0] of a file became [l] by new
    clusters, the file has the bytes [g] and the directory [ld] the bytes [gd], and nothing
    else changed. *)
Record stage (fs : FAT32Filesystem) (f0 : Z → Z) (l0 ld : list Z) (f : Z → Z) (l : list Z) (g gd : Z → Z) : Prop := {
  sg_prefix : l0 `prefix_of` l;
  sg_new x : x ∈ l → x ∉ l0 → fat fs f0 x = 0;
  sg_link c : head l = Some c → linked (fat fs f) fs c l;
  sg_fat x : cluster_ok fs x → x ∉ l → fat fs f x = fat fs f0 x;
  sg_clu x i : cluster_ok fs x → x ∉ l → x ∉ ld → 0 <= i < csize fs → clu fs f x i = clu fs f0 x i;
  sg_file p : 0 <= p < span fs l → fbyte fs f l p = g p;
  sg_dir p : 0 <= p < span fs ld → fbyte fs f ld p = gd p
}.

Section stages.
Context (fs : FAT32Filesystem) (b n : Z) (G : geom fs b n) (f0 : Z → Z) (l0 ld : list Z) (cd : Z).
Hypothesis Hd : linked (fat fs f0) fs cd ld.
Hypothesis Hapart : ∀ x, x ∈ ld → x ∉ l0.

Let Hbd : ∀ c, cluster_ok fs c → 2 <= c < FAT_CLUSTER_EOF := cluster_bound fs b n G.

Lemma stage_start c : (l0 = [] ∨ linked (fat fs f0) fs c l0) → stage fs f0 l0 ld f0 l0 (padded fs f0 l0) (fbyte fs f0 ld).
Proof.
  intros Hl. split; try done.
  - intros x Hx. destruct Hl as [->|Hl]; [done|]. destruct (linked_head fs _ _ _ Hl) as [l' ->]. by injection Hx as <-.
  - intros p Hp. unfold padded. destruct (Z.ltb_spec p (span fs l0)); [done|lia].
Qed.

Lemma stage_apart f l g gd x : stage fs f0 l0 ld f l g gd → x ∈ ld → x ∉ l.
Proof.
  intros S Hx Hl. apply (linked_not_free fs Hbd _ _ _ x Hd); [|done]. apply (sg_new _ _ _ _ _ _ _ _ S); [done|by apply Hapart].
Qed.

Lemma stage_dir f l g gd : stage fs f0 l0 ld f l g gd → linked (fat fs f) fs cd ld.
Proof.
  intros S. apply (chain_linked_ext fs (fat fs f0)); [|done]. intros x Hx. apply (sg_fat _ _ _ _ _ _ _ _ S); [by apply (linked_ok fs _ _ _ Hd)|by apply (stage_apart _ _ _ _ _ S)].
Qed.

Lemma stage_ok f l g gd x : stage fs f0 l0 ld f l g gd → x ∈ l → cluster_ok fs x.
Proof.
  intros S Hx. destruct l as [|c l]; [by apply not_elem_of_nil in Hx|]. by apply (linked_ok fs _ _ _ (sg_link _ _ _ _ _ _ _ _ S c eq_refl)).
Qed.

(** A chain that is neither the file nor its directory. *)
Lemma stage_frame f l g gd c2 l2 : stage fs f0 l0 ld f l g gd → linked (fat fs f0) fs c2 l2 → (∀ x, x ∈ l2 → (x ∉ l0) ∧ (x ∉ ld)) →
  linked (fat fs f) fs c2 l2 ∧ ∀ p, 0 <= p < span fs l2 → fbyte fs f l2 p = fbyte fs f0 l2 p.
Proof.
  intros S H2 Ha. assert (Hl : ∀ x, x ∈ l2 → x ∉ l).
  { intros x Hx Hl. apply (linked_not_free fs Hbd _ _ _ x H2); [|done]. apply (sg_new _ _ _ _ _ _ _ _ S); [done|by apply Ha]. }
  pose proof (linked_ok fs _ _ _ H2) as Hok. split.
  - apply (chain_linked_ext fs (fat fs f0)); [|done]. intros x Hx. apply (sg_fat _ _ _ _ _ _ _ _ S); [by apply Hok|by apply Hl].
  - intros p Hp. pose proof (csize_pos _ _ _ G). apply fbyte_ext; [lia|done|]. intros c i Hc Hi.
    apply (sg_clu _ _ _ _ _ _ _ _ S); [by apply Hok|by apply Hl|by apply Ha|done].
Qed.

Lemma span_snoc l c : span fs (l ++ [c]) = span fs l + csize fs.
Proof. unfold span. rewrite length_app. simpl. lia. Qed.

(** A new cluster at the end of the chain. *)
Lemma stage_alloc f f' l g gd last c :
  stage fs f0 l0 ld f l g gd → grows fs f f' last c → (l = [] ∧ ¬ cluster_ok fs last ∨ ∃ i, l !! i = Some last ∧ S i = length l) →
  (∀ p, span fs l <= p → g p = 0) → stage fs f0 l0 ld f' (l ++ [c]) g gd.
Proof.
  intros S Gr Hlast Hz. pose proof (csize_pos _ _ _ G) as Hcs. destruct Gr as [g1 g2 g3 g4 g5 g6 g7]. pose proof (stage_dir _ _ _ _ S) as Hd'.
  assert (Hcl : c ∉ l).
  { destruct l as [|x l]; [apply not_elem_of_nil|]. by apply (linked_not_free fs Hbd _ _ _ c (sg_link _ _ _ _ _ _ _ _ S x eq_refl)). }
  assert (Hcd : c ∉ ld) by (by apply (linked_not_free fs Hbd _ _ _ c Hd')).
  assert (Hll : ∀ x, cluster_ok fs x → x ∉ l → x ≠ last).
  { intros x Hx Hxl ->. destruct Hlast as [[_ Hn]|(i & Hi & _)]; [done|]. apply Hxl. by eapply list_elem_of_lookup_2. }
  split.
  - by apply prefix_app_r, S.
  - intros x [Hx| ->%list_elem_of_singleton]%elem_of_app Hx0; [by apply S|]. by rewrite <-(sg_fat _ _ _ _ _ _ _ _ S).
  - intros x Hx. destruct l as [|y l].
    + injection Hx as <-. split; [done|]. split; [done|]. rewrite g3. unfold FAT_CLUSTER_EOF, FAT_END. lia.
    + injection Hx as <-. destruct Hlast as [[? _]|(i & Hi & Hlen)]; [done|]. pose proof (sg_link _ _ _ _ _ _ _ _ S y eq_refl) as Hl.
      assert (Hlo : cluster_ok fs last) by (apply (linked_ok fs _ _ _ Hl); by eapply list_elem_of_lookup_2).
      apply (linked_snoc fs Hbd (fat fs f) _ _ y i last c); [done|done|done|done|by apply g4|rewrite g3; unfold FAT_CLUSTER_EOF, FAT_END; lia|].
      intros z Hz' Hne. apply g5; [by apply (linked_ok fs _ _ _ Hl)|congruence|done].
  - intros x Hx [Hxl Hxc]%not_elem_of_app. rewrite g5; [by apply S|done| |by apply Hll]. intros ->. apply Hxc. left.
  - intros x i Hx [Hxl Hxc]%not_elem_of_app Hxd Hi. rewrite g7; [by apply S|done| |done]. intros ->. apply Hxc. left.
  - intros p Hp. rewrite span_snoc in Hp. destruct (fbyte_split fs p (l ++ [c])) as (j & x & i & Hj & Hi & ->); [lia|by rewrite span_snoc|].
    rewrite (fbyte_in_cluster _ _ _ _ _ x) by (done || lia). destruct (decide (j < length l)%nat) as [Hlt|Hge].
    + rewrite lookup_app_l in Hj by done. assert (Hxl : x ∈ l) by (by eapply list_elem_of_lookup_2).
      rewrite g7; [|by apply (stage_ok _ _ _ _ _ S)|congruence|done]. rewrite <-(fbyte_in_cluster fs f l j i x) by (done || lia).
      apply (sg_file _ _ _ _ _ _ _ _ S). unfold span. nia.
    + pose proof (lookup_lt_Some _ _ _ Hj) as Hjl. rewrite length_app in Hjl. simpl in Hjl. assert (j = length l) as -> by lia.
      rewrite lookup_app_r, Nat.sub_diag in Hj by lia. injection Hj as <-. rewrite g6 by done. symmetry. apply Hz. unfold span. lia.
  - intros p Hp. rewrite <-(sg_dir _ _ _ _ _ _ _ _ S p Hp). apply fbyte_ext; [lia|done|]. intros x i Hx Hi. apply g7; [by apply (linked_ok fs _ _ _ Hd)|congruence|done].
Qed.

(** Bytes written inside one cluster of the chain. *)
Lemma stage_write f l g gd j c o src :
  stage fs f0 l0 ld f l g gd → l !! j = Some c → 0 <= o → o + Z.of_nat (length src) <= csize fs →
  stage fs f0 l0 ld (write_range f (clu_addr fs c + o) src) l (write_range g (Z.of_nat j * csize fs + o) src) gd.
Proof.
  intros S Hj Ho Hlen. pose proof (csize_pos _ _ _ G) as Hcs. set (f' := write_range _ _ _). assert (Hcl : c ∈ l) by (by eapply list_elem_of_lookup_2).
  pose proof (stage_ok _ _ _ _ _ S Hcl) as Hc.
  assert (Hfat : ∀ x, cluster_ok fs x → fat fs f' x = fat fs f x).
  { intros x Hx. unfold fat. f_equal. apply le32_ext. intros i Hi. apply write_range_out.
    pose proof (fat_below_data _ _ _ G 0 x c Hx Hc ltac:(pose proof (g_fats _ _ _ G); lia)). lia. }
  assert (Hclu : ∀ x i, x ≠ c → 0 <= i < csize fs → clu fs f' x i = clu fs f x i).
  { intros x i Hne Hi. unfold clu. apply write_range_out. destruct (clu_apart _ _ _ G x c Hne); lia. }
  split.
  - apply S.
  - apply S.
  - intros y Hy. pose proof (sg_link _ _ _ _ _ _ _ _ S y Hy) as Hl. apply (chain_linked_ext fs (fat fs f)); [|done]. intros x Hx. apply Hfat. by apply (linked_ok fs _ _ _ Hl).
  - intros x Hx Hxl. rewrite Hfat by done. by apply S.
  - intros x i Hx Hxl Hxd Hi. rewrite Hclu by (congruence || done). by apply S.
  - intros p Hp. destruct (fbyte_split fs p l) as (j' & x & i & Hj' & Hi & ->); [lia|done|]. rewrite (fbyte_in_cluster _ _ _ _ _ x) by (done || lia).
    pose proof (sg_file _ _ _ _ _ _ _ _ S _ Hp) as Hf. rewrite (fbyte_in_cluster _ _ _ _ _ x) in Hf by (done || lia). destruct (decide (j' = j)) as [->|Hne].
    + assert (x = c) as -> by congruence. unfold clu, f', write_range. unfold clu in Hf. rewrite <-Hf.
      replace (Z.of_nat j * csize fs + i - (Z.of_nat j * csize fs + o)) with (clu_addr fs c + i - (clu_addr fs c + o)) by lia.
      destruct (Z.leb_spec (clu_addr fs c + o) (clu_addr fs c + i)), (Z.leb_spec (Z.of_nat j * csize fs + o) (Z.of_nat j * csize fs + i)); try lia; [|done].
      destruct (Z.ltb_spec (clu_addr fs c + i) (clu_addr fs c + o + Z.of_nat (length src))),
        (Z.ltb_spec (Z.of_nat j * csize fs + i) (Z.of_nat j * csize fs + o + Z.of_nat (length src))); try lia; done.
    + assert (x ≠ c).
      { intros ->. apply Hne. destruct l as [|y l]; [done|].
        apply (NoDup_lookup (y :: l) j' j c (linked_NoDup fs Hbd _ _ _ (sg_link _ _ _ _ _ _ _ _ S y eq_refl)) Hj' Hj). }
      rewrite Hclu by done. rewrite Hf. symmetry. apply write_range_out. nia.
  - intros p Hp. rewrite <-(sg_dir _ _ _ _ _ _ _ _ S p Hp). apply fbyte_ext; [lia|done|]. intros x i Hx Hi. apply Hclu; [|done].
    intros ->. by apply (stage_apart _ _ _ _ _ S Hx).
Qed.

(** The directory saved with one entry changed. *)
Lemma stage_saved f f' l g gd m index upd :
  stage fs f0 l0 ld f l g gd → mutates fs m index upd → saved fs ld (upd (fbyte fs f ld)) f f' → stage fs f0 l0 ld f' l g (upd gd).
Proof.
  intros S (_ & _ & M) Sv. pose proof (csize_pos _ _ _ G) as Hcs. pose proof (linked_ok fs _ _ _ Hd) as Hdo. split.
  - apply S.
  - apply S.
  - intros y Hy. pose proof (sg_link _ _ _ _ _ _ _ _ S y Hy) as Hl. apply (chain_linked_ext fs (fat fs f)); [|done]. intros x Hx.
    apply (saved_fat fs b n ld _ _ _ x G Hdo Sv). by apply (linked_ok fs _ _ _ Hl).
  - intros x Hx Hxl. rewrite (saved_fat fs b n ld _ _ _ x G Hdo Sv Hx). by apply S.
  - intros x i Hx Hxl Hxd Hi. rewrite (saved_clu fs b n ld _ _ _ x i G Sv Hxd Hi). by apply S.
  - intros p Hp. rewrite <-(sg_file _ _ _ _ _ _ _ _ S p Hp). apply fbyte_ext; [lia|done|]. intros x i Hx Hi. apply (saved_clu fs b n ld _ _ _ x i G Sv); [|done].
    intros Hxd. by apply (stage_apart _ _ _ _ _ S Hxd).
  - intros p Hp. rewrite (saved_fbyte fs b n ld _ _ _ p G Sv Hp). apply M. by apply S.
Qed.
End stages.

(** ** Nodes *)

(** A node of an open file: its chain [l], its directory [ld] and the size of the file. *)
Record file_node (fs : FAT32Filesystem) (node : Node) (f : Z → Z) (l ld : list Z) : Prop := {
  fn_chain : (l = [] ∧ inode_id node = 0) ∨ linked (fat fs f) fs (inode_id node) l;
  fn_node : node_ok fs node f ld;
  fn_apart x : x ∈ ld → x ∉ l;
  fn_size : 0 <= n_size node < 2 ^ 32 ∧ n_size node <= span fs l
}.

(** The directory after the node changed from [node] to [node']. *)
Definition entry_bytes (node node' : Node) (gd : Z → Z) : Z → Z :=
  let gd := if inode_id node =? inode_id node' then gd else cluster_field (node_index node) (inode_id node') gd in
  if n_size node =? n_size node' then gd else size_field (node_index node) (n_size node') gd.

Lemma alike_same fs fs' : alike fs' fs → cluster_size fs' = cluster_size fs ∧ bytes_per_sector fs' = bytes_per_sector fs ∧ cluster_to_lba fs' = cluster_to_lba fs.
Proof. by intros (a & b & ->). Qed.

Lemma linked_alloc ft fs a b l : ∀ c, linked ft fs c l → linked ft (set_alloc a b fs) c l.
Proof. induction l as [|x l IH]; intros c; [done|]. intros (-> & Hc & Hn). split; [done|]. split; [done|]. destruct l; [done|]. destruct Hn as [E Hn]. split; [done|by apply IH]. Qed.

Lemma grows_back fs a b f f' last c : grows (set_alloc a b fs) f f' last c → grows fs f f' last c.
Proof. by intros []. Qed.

Lemma freed_back fs a b f f' l : freed (set_alloc a b fs) f f' l → freed fs f f' l.
Proof. by intros []. Qed.

Section ops.
Context {D : Type} `{BlockDev D} {working : D → Prop} `{!BlockDevLaws D working}.
Abbreviation W := (World D).
Abbreviation ok := (ok (working := working)).
Abbreviation after := (after (working := working)).

Lemma ok_back fs fs' w : alike fs' fs → ok fs' w → ok fs w.
Proof. intros (a & b & ->) [H1 H2 H3]. split; [done|by eapply geom_back|done]. Qed.

Section writing.
Context (fs : FAT32Filesystem) (f0 : Z → Z) (l0 ld : list Z) (cd : Z).
Hypothesis Hd : linked (fat fs f0) fs cd ld.
Hypothesis Hapart : ∀ x, x ∈ ld → x ∉ l0.
Abbreviation stage := (stage fs f0 l0 ld).

Lemma next_or_new_spec fs1 w l g gd i x :
  alike fs1 fs → ok fs w → stage (cont w) l g gd → l !! i = Some x → (∀ p, span fs l <= p → g p = 0) →
  ∃ nx fs' w', next_or_new fs1 x w = Ok (nx, fs', w') ∧ alike fs' fs ∧ ok fs w' ∧
    ((FAT_CLUSTER_EOF <= nx ∧ full fs (cont w') ∧ cont w' = cont w) ∨
     (nx < FAT_CLUSTER_EOF ∧ ∃ l', l `prefix_of` l' ∧ stage (cont w') l' g gd ∧ l' !! S i = Some nx)).
Proof.
  intros Hal Hok S Hi Hz. pose proof (ok_geom _ _ Hok) as G. pose proof (cluster_bound _ _ _ G) as Hbd. pose proof (alike_ok _ _ _ Hal Hok) as Hok1.
  assert (Hxl : x ∈ l) by (by eapply list_elem_of_lookup_2). pose proof (stage_ok fs f0 l0 ld _ _ _ _ _ S Hxl) as Hx.
  assert (Hl : ∃ c, linked (fat fs (cont w)) fs c l) by (destruct l as [|c l]; [done|]; exists c; by apply S). destruct Hl as [c Hl].
  pose proof Hal as (a & b & ->). destruct (fat_next_cluster_spec (set_alloc a b fs) w x Hok1 Hx) as (w1 & E1 & Hok2 & Ec1).
  change (fat (set_alloc a b fs)) with (fat fs) in E1. unfold next_or_new. step_with E1. destruct (decide (length l = Datatypes.S i)) as [He|He].
  - pose proof (linked_last fs _ _ _ _ _ Hl Hi (eq_sym He)) as Hend. destruct (Z.leb_spec FAT_CLUSTER_EOF (fat fs (cont w) x)); [|lia].
    destruct (fat32_allocate_cluster_spec (set_alloc a b fs) w1 x Hok2) as (y & fs' & w2 & E2 & Hal2 & Hok3 & Hr).
    { right. split; [done|]. rewrite Ec1. change (fat (set_alloc a b fs)) with (fat fs). unfold FAT_CLUSTER_EOF in *. lia. }
    pose proof (alike_trans _ _ _ Hal2 Hal) as Hal3. exists y, fs', w2. split; [done|]. split; [done|]. split; [by apply (ok_back _ _ _ Hal3)|].
    rewrite Ec1 in Hr. destruct Hr as [(-> & Hfull & Ec2)|Hg%grows_back].
    + left. split; [unfold FAT_CLUSTER_EOF, FAT_END; lia|]. split; [|done]. by rewrite Ec2.
    + right. split; [by apply Hbd, Hg|]. exists (l ++ [y]). split; [by apply prefix_app_r|].
      split; [apply (stage_alloc fs _ _ G f0 l0 ld cd Hd Hapart (cont w) _ l g gd x y S Hg); [right; by exists i|done]|].
      rewrite lookup_app_r by lia. by replace (Datatypes.S i - length l)%nat with 0%nat by lia.
  - destruct (lookup_lt_is_Some_2 l (Datatypes.S i)) as [y Hy]; [apply lookup_lt_Some in Hi; lia|]. rewrite (linked_next fs _ _ _ _ _ _ Hl Hi Hy).
    pose proof (Hbd y (linked_ok fs _ _ _ Hl y (list_elem_of_lookup_2 _ _ _ Hy))). destruct (Z.leb_spec FAT_CLUSTER_EOF y); [lia|].
    exists y, (set_alloc a b fs), w1. split; [done|]. split; [done|]. split; [by apply (ok_back _ _ _ Hal)|]. right. split; [lia|]. exists l. split; [done|]. split; [by rewrite Ec1|done].
Qed.

Lemma padded_after f l l' : l `prefix_of` l' → 0 < csize fs → ∀ p, span fs l' <= p → padded fs f l p = 0.
Proof. intros Hp%prefix_length Hc p Hs. unfold padded, span in *. destruct (Z.ltb_spec p (Z.of_nat (length l) * csize fs)); [nia|done]. Qed.

Lemma seek_spec fs1 w l gd k c :
  alike fs1 fs → ok fs w → stage (cont w) l (padded fs f0 l0) gd → l !! 0%nat = Some c → 0 <= k < 2 ^ 32 →
  ∃ r fs' w' l', bloop FILE_FUEL (seek_step k) (0, c, fs1, w) = Ok (r, fs', w') ∧ alike fs' fs ∧ ok fs w' ∧
    stage (cont w') l' (padded fs f0 l0) gd ∧ l `prefix_of` l' ∧ ((r = None ∧ full fs (cont w')) ∨ ∃ c', r = Some c' ∧ l' !! Z.to_nat k = Some c').
Proof.
  intros Hal Hok S Hc Hk. pose proof (ok_geom _ _ Hok) as G. pose proof (csize_pos _ _ _ G) as Hcs.
  destruct (bloop_rule (λ n (s : Z * Z * FAT32Filesystem * W), n = k - s.1.1.1 ∧ 0 <= s.1.1.1 <= k ∧ alike s.1.2 fs ∧ ok fs s.2 ∧
       ∃ l', l `prefix_of` l' ∧ stage (cont s.2) l' (padded fs f0 l0) gd ∧ l' !! Z.to_nat s.1.1.1 = Some s.1.1.2)
     (λ r : option Z * FAT32Filesystem * W, alike r.1.2 fs ∧ ok fs r.2 ∧ ∃ l', l `prefix_of` l' ∧ stage (cont r.2) l' (padded fs f0 l0) gd ∧
       ((r.1.1 = None ∧ full fs (cont r.2)) ∨ ∃ c', r.1.1 = Some c' ∧ l' !! Z.to_nat k = Some c')) (seek_step k)) with FILE_FUEL k (0, c, fs1, w)
    as ([[r fs'] w'] & E & Hp).
  - intros n s (-> & ? & _). lia.
  - intros n [[[i x] fs2] w1] (-> & Hi & Hal1 & Hok1 & l1 & Hp1 & S1 & Hx). cbn [fst snd] in *. unfold seek_step. destruct (Z.leb_spec k i).
    { assert (i = k) as -> by lia. eexists. split; [done|]. cbn [fst snd]. split; [done|]. split; [done|]. exists l1. split; [done|]. split; [done|]. right. by exists x. }
    destruct (next_or_new_spec fs2 w1 l1 _ gd _ x Hal1 Hok1 S1 Hx) as (nx & fs3 & w2 & E2 & Hal2 & Hok2 & Hr).
    { apply padded_after; [apply S1|lia]. }
    step_with E2. destruct Hr as [(Hge & Hfull & Ec)|(Hlt & l2 & Hp2 & S2 & Hx2)].
    + destruct (Z.leb_spec FAT_CLUSTER_EOF nx); [|lia]. eexists. split; [done|]. cbn [fst snd]. split; [done|]. split; [done|]. exists l1. split; [done|].
      split; [by rewrite Ec|]. by left.
    + destruct (Z.leb_spec FAT_CLUSTER_EOF nx); [lia|]. eexists. split; [done|]. exists (k - (i + 1)). cbn [fst snd]. split; [lia|]. split; [done|]. split; [lia|]. split; [done|].
      split; [done|]. exists l2. split; [by etrans|]. split; [done|]. by replace (Z.to_nat (i + 1)) with (Datatypes.S (Z.to_nat i)) by lia.
  - cbn [fst snd]. split; [lia|]. split; [lia|]. split; [done|]. split; [done|]. exists l. split; [done|]. by split.
  - unfold FILE_FUEL. lia.
  - cbn [fst snd] in Hp. destruct Hp as (H1 & H2 & l' & H3 & H4 & H5). exists r, fs', w', l'. by split_and!.
Qed.

(** Bytes of one sector of a cluster, read, changed and written back. *)
Lemma write_sector_spec w c o src :
  ok fs w → cluster_ok fs c → 0 <= o < csize fs → o mod bytes_per_sector fs + Z.of_nat (length src) <= bytes_per_sector fs → bytes src →
  ∃ buf sb w1 w2, dev_read (u64 (cluster_to_lba fs c + o / bytes_per_sector fs)) 1 w = (Some buf, w1) ∧ st buf (o mod bytes_per_sector fs) src = Ok sb ∧
    dev_write (u64 (cluster_to_lba fs c + o / bytes_per_sector fs)) 1 sb w1 = (true, w2) ∧ after fs w2 (write_range (cont w) (clu_addr fs c + o) src).
Proof.
  intros Hok Hc Ho Hlen Hb. pose proof (ok_geom _ _ Hok) as G. destruct (cluster_to_lba_eq _ _ _ G c Hc) as (_ & L1 & L2 & L3). pose proof (bps_pos fs _ _ G) as Hbp.
  pose proof (g_bytes _ _ _ G) as Hby. rewrite (g_block _ _ _ G) in Hby. set (B := bytes_per_sector fs) in *.
  assert (Hs : 0 <= o / B < sectors_per_cluster fs) by (split; [apply Z.div_pos; lia|apply Z.div_lt_upper_bound; [lia|]; unfold csize in Ho; fold B in Ho; lia]).
  pose proof (Z.div_mod o B ltac:(lia)) as Eo. pose proof (Z.mod_pos_bound o B ltac:(lia)) as Hm. rewrite u64_small by nia. set (lba := cluster_to_lba fs c + o / B).
  destruct (dev_read_spec fs w lba 1 Hok) as (w1 & E1 & Hok1 & Ec1); [lia|lia|lia|]. rewrite Z.mul_1_l in E1. fold B in E1.
  assert (Ea : lba * B + o mod B = clu_addr fs c + o) by (unfold lba; rewrite <-L3; lia).
  destruct (dev_write_spec fs w1 lba 1 (read_range (write_range (cont w) (clu_addr fs c + o) src) (lba * B) B)) as (w2 & E2 & Hok2 & Ec2); [done|lia|lia| | | |].
  - pose proof (g_end _ _ _ (ok_geom _ _ Hok1)). pose proof (cluster_to_lba_eq _ _ _ (ok_geom _ _ Hok1) c Hc) as (_ & _ & L2' & _). lia.
  - rewrite length_read_range by lia. fold B. lia.
  - apply bytes_read_range. intros x. apply bytes_write_range; [|done]. intros y. by apply (cont_byte fs w).
  - eexists _, _, w1, w2. split; [exact E1|]. rewrite st_range, Ea by lia. split; [done|]. split; [done|]. split; [done|].
    rewrite Ec2, Ec1. fold B. apply functional_extensionality. intros x. apply write_back; lia.
Qed.

Lemma write_loop_spec fs1 w l gd buf offset c :
  alike fs1 fs → ok fs w → stage (cont w) l (padded fs f0 l0) gd → bytes buf → 0 <= offset → offset + Z.of_nat (length buf) < 2 ^ 32 →
  l !! Z.to_nat (offset / csize fs) = Some c →
  ∃ k fs' w' l', bloop FILE_FUEL (write_step buf offset) (0, c, fs1, w) = Ok (k, fs', w') ∧ alike fs' fs ∧ ok fs w' ∧
    stage (cont w') l' (write_range (padded fs f0 l0) offset (take (Z.to_nat k) buf)) gd ∧ l `prefix_of` l' ∧ 0 <= k <= Z.of_nat (length buf) ∧
    offset + k <= span fs l' ∧ (k < Z.of_nat (length buf) → full fs (cont w')).
Proof.
  intros Hal Hok S Hb Ho Hlen Hc. pose proof (ok_geom _ _ Hok) as G. pose proof (csize_pos _ _ _ G) as Hcs. pose proof (cluster_bound _ _ _ G) as Hbd.
  pose proof (bps_pos fs _ _ G) as Hbp. set (size := Z.of_nat (length buf)) in *. set (B := bytes_per_sector fs) in *. set (C := csize fs) in *.
  destruct (bloop_rule (λ n (s : Z * Z * FAT32Filesystem * W), n = size - s.1.1.1 ∧ 0 <= s.1.1.1 <= size ∧ alike s.1.2 fs ∧ ok fs s.2 ∧
       ∃ l', l `prefix_of` l' ∧ stage (cont s.2) l' (write_range (padded fs f0 l0) offset (take (Z.to_nat s.1.1.1) buf)) gd ∧ offset + s.1.1.1 <= span fs l' ∧
         (s.1.1.1 < size → l' !! Z.to_nat ((offset + s.1.1.1) / C) = Some s.1.1.2))
     (λ r : Z * FAT32Filesystem * W, alike r.1.2 fs ∧ ok fs r.2 ∧ 0 <= r.1.1 <= size ∧
       ∃ l', l `prefix_of` l' ∧ stage (cont r.2) l' (write_range (padded fs f0 l0) offset (take (Z.to_nat r.1.1) buf)) gd ∧ offset + r.1.1 <= span fs l' ∧
         (r.1.1 < size → full fs (cont r.2))) (write_step buf offset)) with FILE_FUEL size (0, c, fs1, w)
    as ([[k fs'] w'] & E & Hp).
  - intros n s (-> & ? & _). lia.
  - intros n [[[bw x] fs2] w1] (-> & Hi & Hal1 & Hok1 & l1 & Hp1 & S1 & Hsp & Hx). cbn [fst snd] in *. unfold write_step. fold size. destruct (Z.leb_spec size bw).
    { eexists. split; [done|]. cbn [fst snd]. split; [done|]. split; [done|]. split; [done|]. exists l1. split; [done|]. split; [done|]. split; [done|]. lia. }
    specialize (Hx ltac:(lia)). pose proof (alike_same _ _ Hal1) as (-> & -> & ->). rewrite (cluster_size_eq _ _ _ G). fold B C.
    rewrite (u64_small (offset + bw)) by lia. set (p := offset + bw) in *. set (o := p mod C). pose proof (Z.mod_pos_bound p C ltac:(lia)) as Hom. fold o in Hom.
    pose proof (Z.mod_pos_bound o B ltac:(lia)) as Hob. set (chunk := if _ <? _ then _ else _).
    assert (Hch : 0 < chunk ∧ chunk <= B - o mod B ∧ chunk <= size - bw ∧ (chunk < size - bw → chunk = B - o mod B)).
    { unfold chunk. destruct (Z.ltb_spec (size - bw) (B - o mod B)); lia. }
    clearbody chunk. set (src := take (Z.to_nat chunk) (drop (Z.to_nat bw) buf)).
    assert (Hsrc : Z.of_nat (length src) = chunk) by (unfold src; rewrite length_take, length_drop; lia).
    assert (Hxo : cluster_ok fs x) by (apply (stage_ok fs f0 l0 ld _ _ _ _ _ S1); by eapply list_elem_of_lookup_2).
    assert (HoC : o + chunk <= C).
    { pose proof (unit_end B (sectors_per_cluster fs) o ltac:(lia) Hom) as Hu. change (B * sectors_per_cluster fs) with C in Hu. lia. }
    destruct (write_sector_spec w1 x o src Hok1 Hxo Hom) as (sbuf & sb & w2 & w3 & E1 & E2 & E3 & Hok3 & Ec3); [fold B; lia|by apply Forall_take, Forall_drop|]. fold B in E1, E2, E3.
    rewrite E1. assert (Ev : view buf bw chunk = Ok src).
    { unfold view. destruct (Z.leb_spec 0 bw), (Z.leb_spec 0 chunk), (Z.leb_spec (bw + chunk) (Z.of_nat (length buf))); try lia. done. }
    step_with Ev. step_with E2. rewrite E3. cbn [negb].
    assert (S3 : stage (cont w3) l1 (write_range (padded fs f0 l0) offset (take (Z.to_nat (bw + chunk)) buf)) gd).
    { rewrite Ec3. pose proof (stage_write fs _ _ G f0 l0 ld cd Hd Hapart _ l1 _ gd _ x o src S1 Hx ltac:(lia) ltac:(fold C; lia)) as S2. fold C in S2.
      assert (Hp0 : 0 <= p / C) by (apply Z.div_pos; lia). rewrite Z2Nat.id in S2 by done. pose proof (Z.div_mod p C ltac:(lia)) as Ep. fold o in Ep.
      replace (p / C * C + o) with (offset + Z.of_nat (length (take (Z.to_nat bw) buf))) in S2 by (rewrite length_take; unfold p in *; lia).
      rewrite write_range_app in S2. unfold src in S2. rewrite take_take_drop in S2. by replace (Z.to_nat bw + Z.to_nat chunk)%nat with (Z.to_nat (bw + chunk)) in S2 by lia. }
    assert (Hsp3 : offset + (bw + chunk) <= span fs l1).
    { pose proof (span_reaches C l1 p x ltac:(lia) ltac:(lia) Hx) as Hu. change (Z.of_nat (length l1) * C) with (span fs l1) in Hu. fold o in Hu. unfold p in Hu. lia. }
    destruct (Z.ltb_spec (bw + chunk) size) as [Hmore|Hdone], (Z.eqb_spec (o + chunk) C) as [HC|HC]; cbn [andb].
    + destruct (next_or_new_spec fs2 w3 l1 _ gd _ x Hal1 Hok3 S3 Hx) as (nx & fs3 & w4 & E4 & Hal4 & Hok4 & Hr).
      { intros q Hq. rewrite write_range_out by (rewrite length_take; lia). apply (padded_after f0 l0 l1); [apply S1|fold C; lia|done]. }
      step_with E4. destruct Hr as [(Hge & Hfull & Ec)|(Hlt & l2 & Hp2 & S4 & Hx2)].
      * destruct (Z.leb_spec FAT_CLUSTER_EOF nx); [|lia]. eexists. split; [done|]. cbn [fst snd]. split; [done|]. split; [done|]. split; [lia|]. exists l1. split; [done|].
        split; [by rewrite Ec|]. by split.
      * destruct (Z.leb_spec FAT_CLUSTER_EOF nx); [lia|]. eexists. split; [done|]. exists (size - (bw + chunk)). cbn [fst snd]. split; [lia|]. split; [done|]. split; [lia|].
        split; [done|]. split; [done|]. exists l2. split; [by etrans|]. split; [done|]. split; [pose proof (span_mono fs _ _ ltac:(lia) Hp2); lia|]. intros _.
        rewrite <-Hx2. f_equal. pose proof (Z.div_mod p C ltac:(lia)) as Ep. fold o in Ep. replace (offset + (bw + chunk)) with ((p / C + 1) * C) by (unfold p in *; lia).
        rewrite Z.div_mul by lia. pose proof (Z.div_pos p C ltac:(lia) ltac:(lia)). lia.
    + eexists. split; [done|]. exists (size - (bw + chunk)). cbn [fst snd]. split; [lia|]. split; [done|]. split; [lia|]. split; [done|]. split; [done|]. exists l1. split; [done|].
      split; [done|]. split; [done|]. intros _. rewrite <-Hx. do 2 f_equal. pose proof (Z.div_mod p C ltac:(lia)) as Ep. fold o in Ep.
      symmetry. apply (Z.div_unique _ _ _ (o + chunk)); unfold p in *; lia.
    + eexists. split; [done|]. exists (size - (bw + chunk)). cbn [fst snd]. split; [lia|]. split; [done|]. split; [lia|]. split; [done|]. split; [done|]. exists l1. split; [done|].
      split; [done|]. split; [done|]. lia.
    + eexists. split; [done|]. exists (size - (bw + chunk)). cbn [fst snd]. split; [lia|]. split; [done|]. split; [lia|]. split; [done|]. split; [done|]. exists l1. split; [done|].
      split; [done|]. split; [done|]. lia.
  - cbn [fst snd]. split; [lia|]. split; [lia|]. split; [done|]. split; [done|]. exists l. split; [done|]. cbn [Z.to_nat]. rewrite take_0, write_range_nil, Z.add_0_r. split; [done|].
    split; [|done]. pose proof (span_reaches C l offset c ltac:(lia) ltac:(lia) Hc) as Hu. change (Z.of_nat (length l) * C) with (span fs l) in Hu.
    pose proof (Z.mod_pos_bound offset C ltac:(lia)). lia.
  - unfold FILE_FUEL. lia.
  - cbn [fst snd] in Hp. destruct Hp as (H1 & H2 & H3 & l' & H4 & H5 & H6 & H7). exists k, fs', w', l'. split_and!; (done || lia).
Qed.
End writing.

Lemma dir_update_alike fs fs1 w node ld m upd :
  alike fs1 fs → ok fs w → node_ok fs node (cont w) ld → (∀ fs, mutates fs m (node_index node) upd) →
  ∃ w', dir_update_short_entry fs1 node m w = Ok (true, w') ∧ ok fs w' ∧ saved fs ld (upd (fbyte fs (cont w) ld)) (cont w) (cont w').
Proof.
  intros Hal Hok [N1 N2 N3] Hm. pose proof (alike_ok _ _ _ Hal Hok) as Hok1. pose proof Hal as (a & b & ->).
  destruct (dir_update_short_entry_spec (set_alloc a b fs) w node ld m upd Hok1) as (w' & E & Hok' & [S1 S2]); [split; [by apply linked_alloc|exact N2|exact N3]|apply Hm|].
  exists w'. split; [done|]. split; [by apply (ok_back _ _ _ Hal)|]. by split.
Qed.

(** The node of a file and its directory entry follow the chain. *)
Lemma stage_node fs f0 l0 ld b n f l g gd node node' :
  geom fs b n → file_node fs node f0 l0 ld → stage fs f0 l0 ld f l g gd → dir_cluster node' = dir_cluster node → node_index node' = node_index node →
  ((l = [] ∧ inode_id node' = 0) ∨ head l = Some (inode_id node')) → 0 <= n_size node' < 2 ^ 32 → n_size node' <= span fs l → file_node fs node' f l ld.
Proof.
  intros G [F1 [N1 N2 N3] F3 F4] S Ed Ei Hh Hs1 Hs2. split.
  - destruct Hh as [Hh|Hh]; [by left|right]. by apply S.
  - split; [rewrite Ed; by apply (stage_dir fs b n G f0 l0 ld _ N1 F3 _ _ _ _ S)|done|by rewrite Ei].
  - intros x. by apply (stage_apart fs b n G f0 l0 ld _ N1 F3 _ _ _ _ _ S).
  - done.
Qed.

Lemma first_cluster_spec fs w node l0 ld :
  ok fs w → file_node fs node (cont w) l0 ld →
  ∃ r fs' node' w', first_cluster fs node w = Ok (r, fs', node', w') ∧ alike fs' fs ∧ ok fs w' ∧ node' = set_inode (inode_id node') node ∧
    ((r = None ∧ node' = node ∧ cont w' = cont w ∧ full fs (cont w')) ∨
     (∃ l, r = Some (inode_id node') ∧ l !! 0%nat = Some (inode_id node') ∧ l0 `prefix_of` l ∧
       stage fs (cont w) l0 ld (cont w') l (padded fs (cont w) l0) (entry_bytes node node' (fbyte fs (cont w) ld)))).
Proof.
  intros Hok F. pose proof (ok_geom _ _ Hok) as G. pose proof (cluster_bound _ _ _ G) as Hbd. pose proof F as [F1 [N1 N2 N3] F3 F4]. unfold first_cluster.
  assert (Eb : entry_bytes node node (fbyte fs (cont w) ld) = fbyte fs (cont w) ld) by (unfold entry_bytes; by rewrite !Z.eqb_refl).
  destruct F1 as [[-> Hi]|Hl].
  - rewrite Hi, u32_small by lia. cbn [Z.eqb]. destruct (fat32_allocate_cluster_spec fs w 0 Hok ltac:(by left)) as (c & fs1 & w1 & E1 & Hal & Hok1 & Hr). step_with E1.
    destruct Hr as [(-> & Hf & Ec)|Hg].
    + eexists _, _, node, _. split; [done|]. split; [done|]. split; [by apply (ok_back _ _ _ Hal)|]. split; [by destruct node|]. left. by rewrite Ec.
    + pose proof (gr_ok _ _ _ _ _ Hg) as Hc. pose proof (Hbd c Hc). destruct (Z.leb_spec FAT_CLUSTER_EOF c); [lia|].
      pose proof (stage_start fs (cont w) [] ld F3 0 ltac:(by left)) as S0.
      assert (S1 : stage fs (cont w) [] ld (cont w1) ([] ++ [c]) (padded fs (cont w) []) (fbyte fs (cont w) ld)).
      { apply (stage_alloc fs _ _ G _ [] ld _ N1 F3 (cont w) _ [] _ _ 0); [done|done|left; split; [done|intros [? ?]; lia]|].
        intros p Hp. unfold padded. destruct (Z.ltb_spec p (span fs [])); [lia|done]. }
      assert (N' : node_ok fs (set_inode c node) (cont w1) ld) by (split; [by apply (stage_dir fs _ _ G (cont w) [] ld _ N1 F3 _ _ _ _ S1)|done|done]).
      destruct (dir_update_alike fs fs1 w1 (set_inode c node) ld (set_entry_cluster c) (cluster_field (node_index node) c) Hal (ok_back _ _ _ Hal Hok1) N') as (w2 & E2 & Hok2 & Sv).
      { intros fs2. apply set_entry_cluster_mutates. }
      step_with E2. eexists _, _, (set_inode c node), _. split; [done|]. split; [done|]. split; [done|]. split; [done|]. right. exists [c]. split; [done|]. split; [done|].
      split; [apply prefix_nil|]. replace (entry_bytes node (set_inode c node) (fbyte fs (cont w) ld)) with (cluster_field (node_index node) c (fbyte fs (cont w) ld)).
      * apply (stage_saved fs _ _ G (cont w) [] ld _ N1 F3 (cont w1) _ [c] _ _ _ _ _ S1 (set_entry_cluster_mutates fs c (node_index node)) Sv).
      * unfold entry_bytes. cbn [inode_id n_size set_inode]. rewrite Hi, Z.eqb_refl. destruct (Z.eqb_spec 0 c); [lia|done].
  - destruct (linked_head fs _ _ _ Hl) as [l' El]. assert (Hc : cluster_ok fs (inode_id node)) by (apply (linked_ok fs _ _ _ Hl); rewrite El; left).
    pose proof (Hbd _ Hc) as Hb. unfold FAT_CLUSTER_EOF in Hb. rewrite u32_small by lia. destruct (Z.eqb_spec (inode_id node) 0); [lia|].
    eexists _, _, node, _. split; [done|]. split; [apply alike_refl|]. split; [done|]. split; [by destruct node|]. right. exists l0. split; [done|]. split; [by rewrite El|].
    split; [done|]. rewrite Eb. apply (stage_start fs (cont w) l0 ld F3 (inode_id node)). by right.
Qed.

Lemma fat32_vfs_write_spec fs w node buf offset l0 ld :
  ok fs w → file_node fs node (cont w) l0 ld → bytes buf → 0 <= offset → offset + Z.of_nat (length buf) < 2 ^ 32 →
  ∃ r fs' node' w' l g, fat32_vfs_write fs node buf offset w = Ok (r, fs', node', w') ∧ alike fs' fs ∧ ok fs' w' ∧
    stage fs (cont w) l0 ld (cont w') l g (entry_bytes node node' (fbyte fs (cont w) ld)) ∧ file_node fs node' (cont w') l ld ∧
    node' = set_size (n_size node') (set_inode (inode_id node') node) ∧
    match r with
    | None => g = padded fs (cont w) l0 ∧ n_size node' = n_size node ∧ full fs (cont w')
    | Some k => 0 <= k <= Z.of_nat (length buf) ∧ g = write_range (padded fs (cont w) l0) offset (take (Z.to_nat k) buf) ∧
        n_size node' = Z.max (n_size node) (offset + k) ∧ (k < Z.of_nat (length buf) → full fs (cont w'))
    end.
Proof.
  intros Hok F Hb Ho Hlen. pose proof (ok_geom _ _ Hok) as G. pose proof (csize_pos _ _ _ G) as Hcs. pose proof F as [F1 [N1 N2 N3] F3 F4].
  destruct (first_cluster_spec fs w node l0 ld Hok F) as (r1 & fs1 & node1 & w1 & E1 & Hal1 & Hok1 & En1 & Hr1). unfold fat32_vfs_write. step_with E1.
  destruct Hr1 as [(-> & -> & Ec1 & Hf)|(l1 & -> & Hl1 & Hp1 & S1)].
  { eexists None, fs1, node, w1, l0, _. split; [done|]. split; [done|]. split; [by apply (alike_ok _ _ _ Hal1)|]. rewrite Ec1 in *.
    assert (Eb : entry_bytes node node (fbyte fs (cont w) ld) = fbyte fs (cont w) ld) by (unfold entry_bytes; by rewrite !Z.eqb_refl). rewrite Eb.
    split; [apply (stage_start fs (cont w) l0 ld F3 (inode_id node)); tauto|]. split; [done|]. split; [by destruct node|]. done. }
  assert (Hn1 : n_size node1 = n_size node) by (rewrite En1; done).
  assert (Hnode : ∀ f l g gd s, stage fs (cont w) l0 ld f l g gd → l1 `prefix_of` l → 0 <= s < 2 ^ 32 → s <= span fs l →
    file_node fs (set_size s node1) f l ld).
  { intros f l g gd s S Hp Hs1 Hs2. apply (stage_node fs (cont w) l0 ld _ _ f l g gd node (set_size s node1) G F S); try done; [by rewrite En1|by rewrite En1|].
    right. destruct Hp as [e ->]. destruct l1; [done|]. cbn in *. congruence. }
  pose proof (alike_same _ _ Hal1) as (Ecs & _). rewrite Ecs, (cluster_size_eq _ _ _ G).
  assert (Hk : 0 <= offset / csize fs <= offset) by (split; [apply Z.div_pos; lia|apply Z.div_le_upper_bound; nia]). rewrite u32_small by lia.
  destruct (seek_spec fs (cont w) l0 ld _ N1 F3 fs1 w1 l1 _ (offset / csize fs) (inode_id node1) Hal1 Hok1 S1 Hl1 ltac:(lia))
    as (r2 & fs2 & w2 & l2 & E2 & Hal2 & Hok2 & S2 & Hp2 & Hr2). step_with E2. destruct Hr2 as [(-> & Hf)|(c & -> & Hc)].
  { eexists None, fs2, node1, w2, l2, _. split; [done|]. split; [done|]. split; [by apply (alike_ok _ _ _ Hal2)|]. split; [done|].
    split; [|split; [rewrite Hn1, En1 at 1; by destruct node|done]]. replace node1 with (set_size (n_size node) node1) by (rewrite <-Hn1; by destruct node1).
    eapply Hnode; try done; [lia|]. pose proof (span_mono fs l0 l2 ltac:(lia) ltac:(by etrans)). lia. }
  destruct (kmalloc_spec fs w2 Hok2) as (fh & w3 & E3 & Hok3 & Ec3). rewrite E3. rewrite <-Ec3 in S2.
  destruct (write_loop_spec fs (cont w) l0 ld _ N1 F3 fs2 w3 l2 _ buf offset c Hal2 Hok3 S2 Hb Ho Hlen Hc)
    as (k & fs4 & w4 & l4 & E4 & Hal4 & Hok4 & S4 & Hp4 & Hk4 & Hsp4 & Hf4). step_with E4. rewrite u64_small, Hn1 by lia.
  assert (Hp14 : l1 `prefix_of` l4) by (by etrans). pose proof (span_mono fs l0 l4 ltac:(lia) ltac:(by etrans)) as Hs04.
  destruct (Z.ltb_spec (n_size node) (offset + k)).
  - cbn [n_size set_size]. rewrite u32_small by lia. pose proof (Hnode _ _ _ _ (offset + k) S4 Hp14 ltac:(lia) Hsp4) as F5.
    destruct (dir_update_alike fs fs4 w4 (set_size (offset + k) node1) ld (set_entry_size (offset + k)) (size_field (node_index node) (offset + k)) Hal4 Hok4) as (w5 & E5 & Hok5 & Sv);
      [apply F5| |].
    { intros fs5. replace (node_index node) with (node_index (set_size (offset + k) node1)) by (by rewrite En1). apply set_entry_size_mutates. }
    step_with E5. pose proof (stage_saved fs _ _ G (cont w) l0 ld _ N1 F3 (cont w4) _ l4 _ _ _ _ _ S4 (set_entry_size_mutates fs (offset + k) (node_index node)) Sv) as S5.
    eexists (Some k), fs4, _, w5, l4, _. split; [done|]. split; [done|]. split; [by apply (alike_ok _ _ _ Hal4)|]. split; [|split; [|split]].
    + replace (entry_bytes node (set_size (offset + k) node1) (fbyte fs (cont w) ld)) with
        (size_field (node_index node) (offset + k) (entry_bytes node node1 (fbyte fs (cont w) ld))); [exact S5|].
      unfold entry_bytes. cbn [n_size inode_id set_size]. rewrite Hn1, Z.eqb_refl. destruct (Z.eqb_spec (n_size node) (offset + k)); [lia|done].
    + eapply Hnode; [exact S5|done|lia|lia].
    + rewrite En1. done.
    + cbn [n_size set_size]. split; [done|]. split; [done|]. split; [lia|]. intros Hlt c' Hc'. rewrite (saved_fat fs _ _ ld _ _ _ c' G (linked_ok fs _ _ _ N1) Sv Hc'). by apply Hf4.
  - eexists (Some k), fs4, node1, w4, l4, _. split; [done|]. split; [done|]. split; [by apply (alike_ok _ _ _ Hal4)|]. split; [done|]. split; [|split].
    + replace node1 with (set_size (n_size node) node1) by (rewrite <-Hn1; by destruct node1). eapply Hnode; try done; lia.
    + rewrite Hn1, En1 at 1. by destruct node.
    + split; [done|]. split; [done|]. split; [lia|done].
Qed.

(** ** Reading *)

Lemma read_range_app f a n m : 0 <= n → 0 <= m → read_range f a n ++ read_range f (a + n) m = read_range f a (n + m).
Proof.
  intros Hn Hm. apply list_eq. intros i. destruct (decide (Z.of_nat i < n)).
  - rewrite lookup_app_l by (pose proof (length_read_range f a n); lia). rewrite <-(Nat2Z.id i), !read_range_lookup by lia. done.
  - pose proof (length_read_range f a n Hn). rewrite lookup_app_r by lia. destruct (decide (Z.of_nat i < n + m)).
    + replace (i - length (read_range f a n))%nat with (Z.to_nat (Z.of_nat i - n)) by lia. rewrite <-(Nat2Z.id i) at 2. rewrite !read_range_lookup by lia. do 2 f_equal. lia.
    + rewrite !lookup_ge_None_2; [done| |]; apply Nat2Z.inj_le; [rewrite length_read_range by lia|rewrite Nat2Z.inj_sub, length_read_range by lia]; lia.
Qed.

Lemma skip_spec fs w c l k :
  ok fs w → linked (fat fs (cont w)) fs c l → 0 <= k < Z.of_nat (length l) →
  ∃ x w', bloop FILE_FUEL (skip_step fs k) (0, c, w) = Ok (Some x, w') ∧ after fs w' (cont w) ∧ l !! Z.to_nat k = Some x.
Proof.
  intros Hok Hl Hk. pose proof (ok_geom _ _ Hok) as G. pose proof (cluster_bound _ _ _ G) as Hbd. pose proof (linked_length fs Hbd _ _ _ Hl) as Hlen. unfold FAT_CLUSTER_EOF in Hlen.
  destruct (bloop_rule (λ n (s : Z * Z * W), n = k - s.1.1 ∧ 0 <= s.1.1 <= k ∧ after fs s.2 (cont w) ∧ l !! Z.to_nat s.1.1 = Some s.1.2)
     (λ r : option Z * W, after fs r.2 (cont w) ∧ ∃ x, r.1 = Some x ∧ l !! Z.to_nat k = Some x) (skip_step fs k)) with FILE_FUEL k (0, c, w) as ([r w'] & E & Ha & x & Er & Hx).
  - intros n s (-> & ? & _). lia.
  - intros n [[i x] w1] (-> & Hi & (Hok1 & Ec1) & Hx). cbn [fst snd] in *. unfold skip_step. destruct (Z.leb_spec k i).
    { assert (i = k) as -> by lia. eexists. split; [done|]. cbn [fst snd]. split; [done|]. by exists x. }
    destruct (fat_next_cluster_spec fs w1 x Hok1 (linked_ok fs _ _ _ Hl x (list_elem_of_lookup_2 _ _ _ Hx))) as (w2 & E2 & Ha2). step_with E2. rewrite Ec1 in *.
    destruct (lookup_lt_is_Some_2 l (S (Z.to_nat i))) as [y Hy]; [lia|]. rewrite (linked_next fs _ _ _ _ _ _ Hl Hx Hy).
    pose proof (Hbd y (linked_ok fs _ _ _ Hl y (list_elem_of_lookup_2 _ _ _ Hy))). destruct (Z.leb_spec FAT_CLUSTER_EOF y); [lia|]. eexists. split; [done|].
    exists (k - (i + 1)). cbn [fst snd]. split; [lia|]. split; [done|]. split; [lia|]. split; [done|]. by replace (Z.to_nat (i + 1)) with (S (Z.to_nat i)) by lia.
  - cbn [fst snd]. split; [lia|]. split; [lia|]. split; [done|]. destruct (linked_head fs _ _ _ Hl) as [l' ->]. done.
  - unfold FILE_FUEL. lia.
  - cbn [fst snd] in *. subst r. by exists x, w'.
Qed.

Lemma fbyte_range fs f l p x m : 0 < csize fs → 0 <= p → l !! Z.to_nat (p / csize fs) = Some x → p mod csize fs + m <= csize fs →
  read_range f (clu_addr fs x + p mod csize fs) m = read_range (fbyte fs f l) p m.
Proof.
  intros Hc Hp Hx Hm. apply read_range_ext. intros i Hi. pose proof (Z.div_pos p (csize fs) Hp Hc). pose proof (Z.mod_pos_bound p (csize fs) Hc).
  replace (p + i) with (Z.of_nat (Z.to_nat (p / csize fs)) * csize fs + (p mod csize fs + i)) by (pose proof (Z.div_mod p (csize fs) ltac:(lia)); lia).
  rewrite (fbyte_in_cluster fs f l _ _ x) by (done || lia). unfold clu. f_equal. lia.
Qed.

Lemma read_loop_spec fs w c l offset to_read x :
  ok fs w → linked (fat fs (cont w)) fs c l → 0 <= offset → 0 <= to_read < 2 ^ 32 → offset + to_read <= span fs l → l !! Z.to_nat (offset / csize fs) = Some x →
  ∃ w', bloop FILE_FUEL (read_step fs to_read) ([], x, offset mod csize fs, w) = Ok (read_range (fbyte fs (cont w) l) offset to_read, w') ∧ after fs w' (cont w).
Proof.
  intros Hok Hl Ho Ht Hsp Hx0. pose proof (ok_geom _ _ Hok) as G. pose proof (csize_pos _ _ _ G) as Hcs. pose proof (cluster_bound _ _ _ G) as Hbd. set (F := fbyte fs (cont w) l).
  set (C := csize fs) in *. assert (Hlink : ∀ p, 0 <= p < span fs l → (Z.to_nat (p / C) < length l)%nat).
  { intros p Hp. unfold span in Hp. fold C in Hp. assert (p / C < Z.of_nat (length l)) by (apply Z.div_lt_upper_bound; lia). pose proof (Z.div_pos p C ltac:(lia) ltac:(lia)). lia. }
  destruct (bloop_rule (λ n (s : list Z * Z * Z * W), let k := Z.of_nat (length s.1.1.1) in n = to_read - k ∧ k <= to_read ∧ after fs s.2 (cont w) ∧
       s.1.1.1 = read_range F offset k ∧ (k < to_read → l !! Z.to_nat ((offset + k) / C) = Some s.1.1.2 ∧ s.1.2 = (offset + k) mod C))
     (λ r : list Z * W, after fs r.2 (cont w) ∧ r.1 = read_range F offset to_read) (read_step fs to_read)) with FILE_FUEL to_read ([] : list Z, x, offset mod C, w)
    as ([r w'] & E & Ha & Er).
  - intros n s (-> & ? & _). lia.
  - intros n [[[out y] co] w1] Hinv. cbn [fst snd] in Hinv. cbv zeta in Hinv. set (k := Z.of_nat (length out)) in *. destruct Hinv as (-> & Hk & (Hok1 & Ec1) & Eout & Hy).
    unfold read_step. fold k. destruct (Z.ltb_spec k to_read) as [Hlt|Hge]; cbn [andb].
    2:{ eexists. split; [done|]. cbn [fst snd]. split; [done|]. by replace to_read with k by lia. }
    destruct (Hy Hlt) as [Hyl ->]. set (p := offset + k) in *. pose proof (linked_ok fs _ _ _ Hl y (list_elem_of_lookup_2 _ _ _ Hyl)) as Hyo. pose proof (Hbd y Hyo).
    destruct (Z.leb_spec 2 y), (Z.ltb_spec y FAT_CLUSTER_EOF); try lia. cbn [andb].
    destruct (read_cluster_spec fs w1 y Hok1 Hyo) as (w2 & E2 & (Hok2 & Ec2)). rewrite E2, (cluster_size_eq _ _ _ G). fold C. rewrite Ec1 in *.
    pose proof (Z.mod_pos_bound p C ltac:(lia)) as Hm. set (chunk := if to_read - k <? _ then _ else _).
    assert (Hch : 0 < chunk ∧ chunk <= C - p mod C ∧ chunk <= to_read - k ∧ (chunk < to_read - k → chunk = C - p mod C)).
    { unfold chunk. destruct (Z.ltb_spec (to_read - k) (C - p mod C)); lia. }
    clearbody chunk. rewrite view_range by lia. step. rewrite (fbyte_range fs (cont w) l p y chunk) by (done || (fold C; lia)). fold F.
    assert (Eo : out ++ read_range F p chunk = read_range F offset (k + chunk)) by (rewrite Eout; apply read_range_app; lia).
    assert (Hlen : Z.of_nat (length (out ++ read_range F p chunk)) = k + chunk) by (rewrite Eo, length_read_range; lia).
    destruct (Z.ltb_spec (k + chunk) to_read) as [Hmore|Hdone].
    + destruct (fat_next_cluster_spec fs w2 y Hok2 Hyo) as (w3 & E3 & Ha3). step_with E3. rewrite Ec2 in *. eexists. split; [done|]. exists (to_read - (k + chunk)). cbn [fst snd]. cbv zeta.
      rewrite Hlen. split; [lia|]. split; [lia|]. split; [lia|]. split; [done|]. split; [done|]. intros _.
      assert (Ep : offset + (k + chunk) = (p / C + 1) * C) by (pose proof (Z.div_mod p C ltac:(lia)); unfold p in *; lia).
      pose proof (Hlink (offset + (k + chunk)) ltac:(lia)) as Hin. pose proof (Z.div_pos p C ltac:(lia) ltac:(lia)). rewrite Ep, Z.div_mul in Hin |- * by lia. rewrite Z.mod_mul by lia. split; [|done].
      replace (Z.to_nat (p / C + 1)) with (S (Z.to_nat (p / C))) in Hin |- * by lia. destruct (lookup_lt_is_Some_2 l _ Hin) as [z Hz].
      rewrite Hz. f_equal. symmetry. by apply (linked_next fs _ _ _ _ _ _ Hl Hyl Hz).
    + step. eexists. split; [done|]. exists (to_read - (k + chunk)). cbn [fst snd]. cbv zeta. rewrite Hlen. split; [lia|]. split; [lia|]. split; [lia|]. split; [done|]. split; [done|]. lia.
  - cbn [fst snd length]. cbv zeta. rewrite Z.add_0_r. split; [lia|]. split; [lia|]. split; [done|]. split; [done|]. done.
  - unfold FILE_FUEL. lia.
  - cbn [fst snd] in *. subst r. by exists w'.
Qed.

Lemma fat32_vfs_read_spec fs w node size offset l ld :
  ok fs w → file_node fs node (cont w) l ld → 0 <= size → 0 <= offset →
  ∃ w', fat32_vfs_read fs node size offset w = Ok (Some (read_range (fbyte fs (cont w) l) offset (Z.min size (n_size node - offset))), w') ∧ after fs w' (cont w).
Proof.
  intros Hok [F1 _ _ F4] Hs Ho. pose proof (ok_geom _ _ Hok) as G. pose proof (csize_pos _ _ _ G) as Hcs. unfold fat32_vfs_read.
  destruct (Z.leb_spec (n_size node) offset) as [Hle|Hgt]; cbn [orb].
  { exists w. split; [|done]. unfold read_range. by replace (Z.to_nat (Z.min size (n_size node - offset))) with 0%nat by lia. }
  destruct F1 as [[-> _]|Hl]; [unfold span in F4; simpl in F4; lia|]. pose proof (cluster_bound _ _ _ G) as Hbd.
  assert (Hi : cluster_ok fs (inode_id node)) by (apply (linked_ok fs _ _ _ Hl); destruct (linked_head fs _ _ _ Hl) as [l' ->]; left). pose proof (Hbd _ Hi) as Hb. unfold FAT_CLUSTER_EOF in Hb.
  destruct (Z.eqb_spec (inode_id node) 0); [lia|]. rewrite u32_small by lia. rewrite (cluster_size_eq _ _ _ G). set (to_read := if _ <? _ then _ else _).
  assert (Et : to_read = Z.min size (n_size node - offset)) by (unfold to_read; destruct (Z.ltb_spec size (n_size node - offset)); lia). rewrite <-Et. clearbody to_read.
  destruct (skip_spec fs w _ l (offset / csize fs) Hok Hl) as (x & w1 & E1 & (Hok1 & Ec1) & Hx).
  { split; [apply Z.div_pos; lia|]. apply Z.div_lt_upper_bound; [lia|]. unfold span in F4. lia. }
  step_with E1. destruct (kmalloc_spec fs w1 Hok1) as (fh & w2 & E2 & Hok2 & Ec2). rewrite E2. rewrite Ec1 in Ec2. rewrite <-Ec2 in Hl.
  destruct (read_loop_spec fs w2 _ l offset to_read x Hok2 Hl) as (w3 & E3 & Ha3); [lia|lia|lia|done|]. step_with E3. rewrite Ec2 in *. by exists w3.
Qed.

(** ** Truncation *)

Lemma fat32_free_chain_none fs w : ok fs w → ∃ fs' w', fat32_free_chain fs 0 w = Ok (fs', w') ∧ alike fs' fs ∧ ok fs w' ∧ freed fs (cont w) (cont w') [].
Proof.
  intros Hok. destruct (bloop_rule (λ n s, n = 0 ∧ s = (0, 0, 0, w)) (λ r, r = (0, 0, w)) (free_step fs)) with CHAIN_FUEL 0 (0, 0, 0, w) as (r & E & ->).
  - intros n s [-> _]. done.
  - intros n s [-> ->]. eexists. by split.
  - done.
  - unfold CHAIN_FUEL. lia.
  - unfold fat32_free_chain. step_with E. set (fs' := set_alloc _ _ fs). destruct (fat32_update_fsinfo_spec fs' w) as (w5 & E5 & Hok5 & Hr5); [by apply ok_alloc|]. step_with E5.
    assert (Hal : alike fs' fs) by (by eexists _, _). exists fs', w5. split; [done|]. split; [done|]. split; [by apply (ok_back _ _ _ Hal)|]. split.
    + intros x Hx. by apply not_elem_of_nil in Hx.
    + intros x Hx _. by apply (reserved_fat fs w).
    + intros x i Hx Hi. apply (reserved_fat fs w); [done|done|done|lia].
Qed.

(** The clusters of the file are free and its entry is empty; nothing else changed. *)
Record truncated (fs : FAT32Filesystem) (f f' : Z → Z) (l ld : list Z) (gd : Z → Z) : Prop := {
  tr_zero x : x ∈ l → fat fs f' x = 0;
  tr_fat x : cluster_ok fs x → x ∉ l → fat fs f' x = fat fs f x;
  tr_clu x i : cluster_ok fs x → x ∉ ld → 0 <= i < csize fs → clu fs f' x i = clu fs f x i;
  tr_dir p : 0 <= p < span fs ld → fbyte fs f' ld p = gd p
}.

Lemma fat32_vfs_truncate_spec fs w node l ld :
  ok fs w → file_node fs node (cont w) l ld → is_dir node = false →
  ∃ fs' w', let node' := set_size 0 (set_inode 0 node) in fat32_vfs_truncate fs node 0 w = Ok (true, fs', node', w') ∧ alike fs' fs ∧ ok fs' w' ∧
    truncated fs (cont w) (cont w') l ld (size_field (node_index node) 0 (cluster_field (node_index node) 0 (fbyte fs (cont w) ld))) ∧
    file_node fs node' (cont w') [] ld.
Proof.
  intros Hok [F1 [N1 N2 N3] F3 F4] Hdir. pose proof (ok_geom _ _ Hok) as G. pose proof (csize_pos _ _ _ G) as Hcs. pose proof (cluster_bound _ _ _ G) as Hbd.
  pose proof (linked_ok fs _ _ _ N1) as Hdo.
  assert (Hfree : ∃ fs1 w1, fat32_free_chain fs (u32 (inode_id node)) w = Ok (fs1, w1) ∧ alike fs1 fs ∧ ok fs w1 ∧ freed fs (cont w) (cont w1) l).
  { destruct F1 as [[-> ->]|Hl]; [by apply fat32_free_chain_none|].
    assert (Hi : cluster_ok fs (inode_id node)) by (apply (linked_ok fs _ _ _ Hl); destruct (linked_head fs _ _ _ Hl) as [l' ->]; left). pose proof (Hbd _ Hi) as Hb. unfold FAT_CLUSTER_EOF in Hb.
    rewrite u32_small by lia. destruct (fat32_free_chain_spec fs w _ l Hok Hl) as (fs1 & w1 & E1 & Hal & Hok1 & Hf). exists fs1, w1. split; [done|]. split; [done|].
    split; [by apply (ok_back _ _ _ Hal)|done]. }
  destruct Hfree as (fs1 & w1 & E1 & Hal & Hok1 & [R1 R2 R3]). unfold fat32_vfs_truncate. rewrite Hdir. cbn [orb negb Z.eqb]. step_with E1. set (node' := set_size 0 (set_inode 0 node)).
  assert (D1 : linked (fat fs (cont w1)) fs (dir_cluster node) ld) by (apply (chain_linked_ext fs (fat fs (cont w))); [|done]; intros x Hx; apply R2; [by apply Hdo|by apply F3]).
  destruct (dir_update_alike fs fs1 w1 node' ld (set_entry_cluster 0) (cluster_field (node_index node) 0) Hal Hok1) as (w2 & E2 & Hok2 & V2);
    [by split|intros fs2; apply set_entry_cluster_mutates|]. step_with E2.
  assert (D2 : linked (fat fs (cont w2)) fs (dir_cluster node) ld).
  { apply (chain_linked_ext fs (fat fs (cont w1))); [|done]. intros x Hx. apply (saved_fat fs _ _ ld _ _ _ x G Hdo V2). by apply Hdo. }
  destruct (dir_update_alike fs fs1 w2 node' ld (set_entry_size 0) (size_field (node_index node) 0) Hal Hok2) as (w3 & E3 & Hok3 & V3);
    [by split|intros fs2; apply set_entry_size_mutates|]. step_with E3.
  assert (Hfat : ∀ x, cluster_ok fs x → fat fs (cont w3) x = fat fs (cont w1) x).
  { intros x Hx. by rewrite (saved_fat fs _ _ ld _ _ _ x G Hdo V3 Hx), (saved_fat fs _ _ ld _ _ _ x G Hdo V2 Hx). }
  assert (Hlo : ∀ x, x ∈ l → cluster_ok fs x) by (destruct F1 as [[-> _]|Hl]; [intros x Hx; by apply not_elem_of_nil in Hx|apply (linked_ok fs _ _ _ Hl)]).
  exists fs1, w3. split; [done|]. split; [done|]. split; [by apply (alike_ok _ _ _ Hal)|]. split.
  - split.
    + intros x Hx. rewrite Hfat by (by apply Hlo). by apply R1.
    + intros x Hx Hxl. rewrite Hfat by done. by apply R2.
    + intros x i Hx Hxd Hi. rewrite (saved_clu fs _ _ ld _ _ _ x i G V3 Hxd Hi), (saved_clu fs _ _ ld _ _ _ x i G V2 Hxd Hi). by apply R3.
    + intros p Hp. rewrite (saved_fbyte fs _ _ ld _ _ _ p G V3 Hp). apply (set_entry_size_mutates fs 0 (node_index node)). rewrite (saved_fbyte fs _ _ ld _ _ _ p G V2 Hp).
      apply (set_entry_cluster_mutates fs 0 (node_index node)). apply fbyte_ext; [lia|done|]. intros x i Hx Hi. apply R3; [by apply Hdo|done].
  - split; [by left| |intros x _; apply not_elem_of_nil|unfold span; simpl; lia]. split; [|done|done].
    apply (chain_linked_ext fs (fat fs (cont w2))); [|done]. intros x Hx. apply (saved_fat fs _ _ ld _ _ _ x G Hdo V3). by apply Hdo.
Qed.
End ops.

(** ** The directory entry *)

Lemma le16_ext f g a : (∀ i, 0 <= i < 2 → f (a + i) = g (a + i)) → le16 f a = le16 g a.
Proof. intros E. unfold le16. pose proof (E 0 ltac:(lia)) as E0. rewrite Z.add_0_r in E0. by rewrite E0, (E 1) by lia. Qed.

Lemma le16_written f a v : 0 <= v < 2 ^ 16 → le16 (write_range f a (le_bytes 2 v)) a = v.
Proof.
  intros Hv. assert (E : ∀ i, 0 <= i < 2 → write_range f a (le_bytes 2 v) (a + i) = nth (Z.to_nat i) (le_bytes 2 v) 0) by (intros i Hi; apply write_range_in; simpl; lia).
  unfold le16. pose proof (E 0 ltac:(lia)) as E0. rewrite Z.add_0_r in E0. rewrite E0, (E 1) by lia. change (Z.to_nat 0) with 0%nat. change (Z.to_nat 1) with 1%nat. cbn [nth le_bytes]. lia.
Qed.

(** Entry [index] of a directory with the bytes [gd] has this first cluster and size. *)
Record entry_says (gd : Z → Z) (index cluster size : Z) : Prop := {
  es_low : le16 gd (index * ENTRY + 26) = cluster mod 2 ^ 16;
  es_high : le16 gd (index * ENTRY + 20) = cluster / 2 ^ 16;
  es_size : le32 gd (index * ENTRY + 28) = size
}.

(** The bytes of the two cluster fields and of the size of entry [index]. *)
Definition entry_fields (index p : Z) : Prop := index * ENTRY + 20 <= p < index * ENTRY + 22 ∨ index * ENTRY + 26 <= p < index * ENTRY + 32.

Lemma entry_says_ext gd gd' index c s : (∀ p, index * ENTRY <= p < (index + 1) * ENTRY → gd' p = gd p) → entry_says gd index c s → entry_says gd' index c s.
Proof.
  unfold ENTRY. intros E [H1 H2 H3]. split; [rewrite <-H1; apply le16_ext|rewrite <-H2; apply le16_ext|rewrite <-H3; apply le32_ext]; intros i Hi; apply E; unfold ENTRY; lia.
Qed.

Lemma cluster_fields_eq c : 0 <= c < 2 ^ 32 → cluster_fields c = (le_bytes 2 (c / 2 ^ 16), le_bytes 2 (c mod 2 ^ 16)).
Proof.
  intros Hc. unfold cluster_fields. change 0xFFFF with (Z.ones 16). rewrite !Z.land_ones, Z.shiftr_div_pow2 by lia.
  rewrite (Z.mod_small (c / 2 ^ 16)) by (split; [apply Z.div_pos; lia|apply Z.div_lt_upper_bound; lia]).
  rewrite !u16_small; [done|lia|split; [apply Z.div_pos; lia|apply Z.div_lt_upper_bound; lia]].
Qed.

Lemma cluster_field_says gd index c0 c s : 0 <= c < 2 ^ 32 → entry_says gd index c0 s → entry_says (cluster_field index c gd) index c s.
Proof.
  intros Hc [H1 H2 H3]. unfold cluster_field. rewrite cluster_fields_eq by done. cbn [fst snd]. split.
  - rewrite <-(le16_written gd (index * ENTRY + 26) (c mod 2 ^ 16)) at 2 by lia. apply le16_ext. intros i Hi. apply write_range_out. rewrite le_bytes_length. lia.
  - apply le16_written. split; [apply Z.div_pos; lia|apply Z.div_lt_upper_bound; lia].
  - rewrite <-H3. apply le32_ext. intros i Hi. rewrite !write_range_out; [done|rewrite le_bytes_length; lia..].
Qed.

Lemma size_field_says gd index c s0 s : 0 <= s < 2 ^ 32 → entry_says gd index c s0 → entry_says (size_field index s gd) index c s.
Proof.
  intros Hs [H1 H2 H3]. unfold size_field. split; [rewrite <-H1; apply le16_ext|rewrite <-H2; apply le16_ext|by apply le32_written];
    intros i Hi; apply write_range_out; rewrite le_bytes_length; lia.
Qed.

Lemma cluster_field_other index c gd p : ¬ entry_fields index p → cluster_field index c gd p = gd p.
Proof. unfold entry_fields, cluster_field, cluster_fields. intros Hp. cbn [fst snd]. rewrite !write_range_out; [done|rewrite le_bytes_length; lia..]. Qed.

Lemma size_field_other index s gd p : ¬ entry_fields index p → size_field index s gd p = gd p.
Proof. unfold entry_fields, size_field. intros Hp. apply write_range_out. rewrite le_bytes_length. lia. Qed.

Lemma entry_bytes_says node node' gd :
  0 <= inode_id node' < 2 ^ 32 → 0 <= n_size node' < 2 ^ 32 → entry_says gd (node_index node) (inode_id node) (n_size node) →
  entry_says (entry_bytes node node' gd) (node_index node) (inode_id node') (n_size node').
Proof.
  intros Hi Hs He. unfold entry_bytes.
  assert (H1 : entry_says (if inode_id node =? inode_id node' then gd else cluster_field (node_index node) (inode_id node') gd) (node_index node) (inode_id node') (n_size node)).
  { destruct (Z.eqb_spec (inode_id node) (inode_id node')) as [<-|]; [done|by apply (cluster_field_says _ _ (inode_id node))]. }
  destruct (Z.eqb_spec (n_size node) (n_size node')) as [<-|]; [done|by apply (size_field_says _ _ _ (n_size node))].
Qed.

Lemma entry_bytes_other node node' gd p : ¬ entry_fields (node_index node) p → entry_bytes node node' gd p = gd p.
Proof.
  intros Hp. unfold entry_bytes. destruct (Z.eqb _ _), (Z.eqb _ _); rewrite ?size_field_other, ?cluster_field_other by done; done.
Qed.

Lemma file_node_inode fs b n node f l ld : geom fs b n → file_node fs node f l ld → 0 <= inode_id node < 2 ^ 32.
Proof.
  intros G [[[_ ->]|Hl] _ _ _]; [lia|]. pose proof (cluster_bound _ _ _ G (inode_id node)) as Hb. unfold FAT_CLUSTER_EOF in Hb.
  destruct (linked_head fs _ _ _ Hl) as [l' ->]. pose proof (Hb ltac:(apply (linked_ok fs _ _ _ Hl); left)). lia.
Qed.

(** * Properties *)

(** C10: a write on a healthy volume puts its bytes into the file and nowhere else. It writes
    all of the buffer unless the volume is full; the file has the written bytes at the offset,
    its old bytes elsewhere and zeros in clusters it gained; its chain grew only by clusters
    that were free; its size is the larger of the old one and the end of the write; and no
    other chain of the volume, directory or file, changed. *)
Theorem fat32_write_correct {D} `{BlockDev D} (working : D → Prop) `{!BlockDevLaws D working} fs (w : World D) node buf offset l0 ld :
  ok (working := working) fs w → file_node fs node (cont w) l0 ld → bytes buf → 0 <= offset → offset + Z.of_nat (length buf) < 2 ^ 32 →
  ∃ r fs' node' w' l, fat32_vfs_write fs node buf offset w = Ok (r, fs', node', w') ∧
    let k := default 0 r in
    ok (working := working) fs' w' ∧ file_node fs node' (cont w') l ld ∧
    l0 `prefix_of` l ∧ (∀ x, x ∈ l → x ∉ l0 → fat fs (cont w) x = 0) ∧
    0 <= k <= Z.of_nat (length buf) ∧ (r ≠ Some (Z.of_nat (length buf)) → full fs (cont w')) ∧
    n_size node' = (if r is Some _ then Z.max (n_size node) (offset + k) else n_size node) ∧
    (∀ p, 0 <= p < span fs l → fbyte fs (cont w') l p =
       if (offset <=? p) && (p <? offset + k) then nth (Z.to_nat (p - offset)) buf 0 else padded fs (cont w) l0 p) ∧
    ∀ c2 l2, linked (fat fs (cont w)) fs c2 l2 → (∀ x, x ∈ l2 → (x ∉ l0) ∧ (x ∉ ld)) →
      linked (fat fs (cont w')) fs c2 l2 ∧ ∀ p, 0 <= p < span fs l2 → fbyte fs (cont w') l2 p = fbyte fs (cont w) l2 p.
Proof.
  intros Hok F Hb Ho Hlen. pose proof (ok_geom _ _ Hok) as G. destruct (fat32_vfs_write_spec fs w node buf offset l0 ld Hok F Hb Ho Hlen)
    as (r & fs' & node' & w' & l & g & E & Hal & Hok' & S & F' & _ & Hr).
  exists r, fs', node', w', l. split; [done|]. cbv zeta. split; [done|]. split; [done|]. split; [apply S|]. split; [apply S|].
  assert (Hframe : ∀ c2 l2, linked (fat fs (cont w)) fs c2 l2 → (∀ x, x ∈ l2 → (x ∉ l0) ∧ (x ∉ ld)) →
      linked (fat fs (cont w')) fs c2 l2 ∧ ∀ p, 0 <= p < span fs l2 → fbyte fs (cont w') l2 p = fbyte fs (cont w) l2 p).
  { intros c2 l2. apply (stage_frame fs _ _ G (cont w) l0 ld _ _ _ _ _ _ S). }
  destruct r as [k|]; unfold default, from_option, id.
  - destruct Hr as (Hk & -> & Hn & Hf). split; [done|]. split; [intros Hne; apply Hf; destruct (decide (k = Z.of_nat (length buf))); [congruence|lia]|]. split; [done|].
    split; [|done]. intros p Hp. rewrite (sg_file _ _ _ _ _ _ _ _ S p Hp). unfold write_range. rewrite length_take. replace (Z.of_nat (Z.to_nat k `min` length buf)) with k by lia.
    destruct (Z.leb_spec offset p), (Z.ltb_spec p (offset + k)); cbn [andb]; try done.
    by rewrite !nth_lookup, lookup_take_lt by lia.
  - destruct Hr as (-> & Hn & Hf). split; [lia|]. split; [done|]. split; [done|]. split; [|done]. intros p Hp. rewrite (sg_file _ _ _ _ _ _ _ _ S p Hp).
    destruct (Z.leb_spec offset p), (Z.ltb_spec p (offset + 0)); cbn [andb]; try done. lia.
Qed.


(** C19: a read returns the bytes of the file from the offset, as many as asked for but none
    after the end of the file, and leaves the volume as it was. *)
Theorem fat32_read_correct {D} `{BlockDev D} (working : D → Prop) `{!BlockDevLaws D working} fs (w : World D) node size offset l ld :
  ok (working := working) fs w → file_node fs node (cont w) l ld → 0 <= size → 0 <= offset →
  ∃ out w', fat32_vfs_read fs node size offset w = Ok (Some out, w') ∧ ok (working := working) fs w' ∧ cont w' = cont w ∧
    Z.of_nat (length out) = Z.max 0 (Z.min size (n_size node - offset)) ∧
    ∀ i, 0 <= i < Z.of_nat (length out) → nth (Z.to_nat i) out 0 = fbyte fs (cont w) l (offset + i).
Proof.
  intros Hok F Hs Ho. destruct (fat32_vfs_read_spec fs w node size offset l ld Hok F Hs Ho) as (w' & E & Hok' & Ec). eexists _, w'. split; [exact E|]. split; [done|]. split; [done|].
  assert (Hlen : Z.of_nat (length (read_range (fbyte fs (cont w) l) offset (Z.min size (n_size node - offset)))) = Z.max 0 (Z.min size (n_size node - offset))).
  { destruct (decide (0 <= Z.min size (n_size node - offset))); [rewrite length_read_range by done; lia|]. unfold read_range. rewrite length_fmap, length_seq. lia. }
  split; [done|]. rewrite Hlen. intros i Hi. apply read_range_nth. lia.
Qed.

(** C17: what a write stored is what a read of the file at the same place gives back, for any
    part of the buffer that was written. *)
Theorem fat32_write_read {D} `{BlockDev D} (working : D → Prop) `{!BlockDevLaws D working} fs (w : World D) node buf offset l0 ld :
  ok (working := working) fs w → file_node fs node (cont w) l0 ld → bytes buf → 0 <= offset → offset + Z.of_nat (length buf) < 2 ^ 32 →
  ∃ r fs' node' w', fat32_vfs_write fs node buf offset w = Ok (r, fs', node', w') ∧
    ∀ k, r = Some k → ∃ w'', fat32_vfs_read fs' node' k offset w' = Ok (Some (take (Z.to_nat k) buf), w'').
Proof.
  intros Hok F Hb Ho Hlen. pose proof (ok_geom _ _ Hok) as G. destruct (fat32_vfs_write_spec fs w node buf offset l0 ld Hok F Hb Ho Hlen)
    as (r & fs' & node' & w' & l & g & E & Hal & Hok' & S & F' & _ & Hr).
  exists r, fs', node', w'. split; [done|]. intros k ->. destruct Hr as (Hk & -> & Hn & _).
  assert (F2 : file_node fs' node' (cont w') l ld).
  { pose proof Hal as (a & b & ->). destruct F' as [H1 [H2 H3 H4] H5 H6]. split; [|split|done|done]; [|by apply linked_alloc|done|done].
    destruct H1 as [H1|H1]; [by left|right; by apply linked_alloc]. }
  destruct (fat32_vfs_read_spec fs' w' node' k offset l ld Hok' F2) as (w'' & E'' & _); [lia|lia|]. exists w''. rewrite E''. do 3 f_equal.
  replace (Z.min k (n_size node' - offset)) with k by lia. pose proof Hal as (a & b & ->).
  assert (Hlt : Z.of_nat (length (take (Z.to_nat k) buf)) = k) by (rewrite length_take; lia).
  apply nth_ext with 0 0; [apply Nat2Z.inj; rewrite length_read_range by lia; lia|]. intros i Hi. apply Nat2Z.inj_lt in Hi. rewrite length_read_range in Hi by lia.
  rewrite <-(Nat2Z.id i), read_range_nth by lia. change (fbyte (set_alloc a b fs)) with (fbyte fs). rewrite (sg_file _ _ _ _ _ _ _ _ S).
  - apply write_range_in. lia.
  - pose proof (fn_size _ _ _ _ _ F'). lia.
Qed.

(** C18: truncating a file to nothing frees every cluster of its chain, leaves every other
    cluster and every other chain as it was, and clears the first cluster and the size in its
    directory entry and no other byte of the directory. *)
Theorem fat32_truncate_correct {D} `{BlockDev D} (working : D → Prop) `{!BlockDevLaws D working} fs (w : World D) node l ld :
  ok (working := working) fs w → file_node fs node (cont w) l ld → is_dir node = false →
  entry_says (fbyte fs (cont w) ld) (node_index node) (inode_id node) (n_size node) →
  ∃ fs' node' w', fat32_vfs_truncate fs node 0 w = Ok (true, fs', node', w') ∧ ok (working := working) fs' w' ∧
    inode_id node' = 0 ∧ n_size node' = 0 ∧ file_node fs node' (cont w') [] ld ∧
    (∀ x, x ∈ l → fat fs (cont w') x = 0) ∧ (∀ x, cluster_ok fs x → x ∉ l → fat fs (cont w') x = fat fs (cont w) x) ∧
    entry_says (fbyte fs (cont w') ld) (node_index node) 0 0 ∧
    (∀ p, 0 <= p < span fs ld → ¬ entry_fields (node_index node) p → fbyte fs (cont w') ld p = fbyte fs (cont w) ld p) ∧
    ∀ c2 l2, linked (fat fs (cont w)) fs c2 l2 → (∀ x, x ∈ l2 → (x ∉ l) ∧ (x ∉ ld)) →
      linked (fat fs (cont w')) fs c2 l2 ∧ ∀ p, 0 <= p < span fs l2 → fbyte fs (cont w') l2 p = fbyte fs (cont w) l2 p.
Proof.
  intros Hok F Hdir He. pose proof (ok_geom _ _ Hok) as G. pose proof (csize_pos _ _ _ G) as Hcs.
  destruct (fat32_vfs_truncate_spec fs w node l ld Hok F Hdir) as (fs' & w' & E & Hal & Hok' & [T1 T2 T3 T4] & F'). cbv zeta in E.
  eexists fs', _, w'. split; [exact E|]. split; [done|]. split; [done|]. split; [done|]. split; [done|]. split; [done|]. split; [done|]. split; [|split].
  - pose proof (no_index _ _ _ _ (fn_node _ _ _ _ _ F)) as Hi. unfold ENTRY in Hi.
    apply (entry_says_ext (size_field (node_index node) 0 (cluster_field (node_index node) 0 (fbyte fs (cont w) ld)))).
    + intros p Hp. unfold ENTRY in Hp. apply T4. lia.
    + apply (size_field_says _ _ _ (n_size node)); [lia|]. by apply (cluster_field_says _ _ (inode_id node)).
  - intros p Hp Hn. rewrite T4 by done. by rewrite size_field_other, cluster_field_other.
  - intros c2 l2 H2 Ha. pose proof (linked_ok fs _ _ _ H2) as Ho. split.
    + apply (chain_linked_ext fs (fat fs (cont w))); [|done]. intros x Hx. apply T2; [by apply Ho|by apply Ha].
    + intros p Hp. apply fbyte_ext; [lia|done|]. intros c i Hc Hi. apply T3; [by apply Ho|by apply Ha|done].
Qed.

(** ** A small volume *)

(** 60 clusters of one sector; the root directory is cluster 2, its first entry is a file of
    five bytes in cluster 3, and cluster 4 is another chain. *)
Definition small_fs : FAT32Filesystem := mkFs 512 1 2 2 1 2 0 64 60 2 FAT32_FSINFO_UNKNOWN [].
Definition small_bytes (a : Z) : Z :=
  if ((1032 <=? a) && (a <? 1044)) || ((1544 <=? a) && (a <? 1556)) then (if a mod 4 =? 3 then 0x0F else 0xFF)
  else if a =? 2048 + 26 then 3 else if a =? 2048 + 28 then 5 else if (2560 <=? a) && (a <? 2565) then a - 2560 + 65 else 0.
Definition small_world : World RamDisk := mkWorld (mkRam 512 64 small_bytes) (λ _, Some (λ _, 170)) 0.
Definition small_node : Node := mkNode 3 5 false 2 0 1.

Lemma small_ok : ok (working := ram_working) small_fs small_world.
Proof.
  split.
  - repeat split; try (cbn; lia); cbn [dev small_world ram]; unfold small_bytes; repeat case_match; try lia.
    all: apply andb_true_iff in H2 as [? ?]; lia.
  - split; cbn; unfold FAT_CLUSTER_EOF; lia.
  - intros t. by eexists.
Qed.

Lemma small_file : file_node small_fs small_node (cont small_world) [3] [2].
Proof.
  split.
  - right. cbn [linked]. unfold cluster_ok. cbn [cluster_count small_fs inode_id small_node]. split; [done|]. split; [lia|]. vm_compute. congruence.
  - split; [|vm_compute; congruence|vm_compute; split; congruence]. cbn [linked]. unfold cluster_ok. cbn [cluster_count small_fs dir_cluster small_node]. split; [done|]. split; [lia|].
    vm_compute. congruence.
  - intros x ->%list_elem_of_singleton Hx%list_elem_of_singleton. done.
  - vm_compute. repeat split; congruence.
Qed.

Lemma fat32_write_correct_witness :
  ∃ r fs' node' w' l, fat32_vfs_write small_fs small_node [1; 2; 3] 511 small_world = Ok (r, fs', node', w') ∧
    r = Some 3 ∧ n_size node' = 514 ∧ [3] `prefix_of` l ∧ linked (fat small_fs (cont w')) small_fs 4 [4].
Proof.
  destruct (fat32_write_correct ram_working small_fs small_world small_node [1; 2; 3] 511 [3] [2] small_ok small_file) as (r & fs' & node' & w' & l & E & H);
    [repeat constructor; lia|lia|cbn; lia|].
  cbv zeta in H. destruct H as (_ & _ & H1 & _ & _ & _ & H2 & _ & H3). exists r, fs', node', w', l. split; [exact E|].
  assert (Er : r = Some 3).
  { assert (Ev : match fat32_vfs_write small_fs small_node [1; 2; 3] 511 small_world with Ok (r, _, _, _) => r | _ => None end = Some 3) by (vm_compute; reflexivity).
    by rewrite E in Ev. }
  subst r. split; [done|]. split; [exact H2|]. split; [exact H1|]. apply H3.
  - cbn [linked]. unfold cluster_ok. cbn [cluster_count small_fs]. split; [done|]. split; [lia|]. vm_compute. congruence.
  - intros x ->%list_elem_of_singleton. split; intros Hx%list_elem_of_singleton; done.
Defined.

Lemma small_entry : entry_says (fbyte small_fs (cont small_world) [2]) (node_index small_node) (inode_id small_node) (n_size small_node).
Proof. split; vm_compute; reflexivity. Qed.


Lemma fat32_read_correct_witness : ∃ out w', fat32_vfs_read small_fs small_node 9 2 small_world = Ok (Some out, w') ∧ Z.of_nat (length out) = 3 ∧ nth 0 out 0 = 67.
Proof.
  destruct (fat32_read_correct ram_working small_fs small_world small_node 9 2 [3] [2] small_ok small_file) as (out & w' & E & _ & _ & Hl & Hn); [lia|lia|].
  exists out, w'. split; [exact E|]. cbn [n_size small_node] in Hl. split; [rewrite Hl; reflexivity|]. pose proof (Hn 0 ltac:(lia)) as H0. change (Z.to_nat 0) with 0%nat in H0. rewrite H0. vm_compute. reflexivity.
Defined.

Lemma fat32_write_read_witness :
  ∃ r fs' node' w', fat32_vfs_write small_fs small_node [1; 2; 3] 511 small_world = Ok (r, fs', node', w') ∧
    ∀ k, r = Some k → ∃ w'', fat32_vfs_read fs' node' k 511 w' = Ok (Some (take (Z.to_nat k) [1; 2; 3]), w'').
Proof.
  apply (fat32_write_read ram_working small_fs small_world small_node [1; 2; 3] 511 [3] [2] small_ok small_file); [repeat constructor; lia|lia|cbn; lia].
Defined.

Lemma fat32_truncate_correct_witness :
  ∃ fs' node' w', fat32_vfs_truncate small_fs small_node 0 small_world = Ok (true, fs', node', w') ∧ fat small_fs (cont w') 3 = 0 ∧ entry_says (fbyte small_fs (cont w') [2]) 0 0 0.
Proof.
  destruct (fat32_truncate_correct ram_working small_fs small_world small_node [3] [2] small_ok small_file eq_refl small_entry) as (fs' & node' & w' & E & _ & _ & _ & _ & H1 & _ & H2 & _).
  exists fs', node', w'. split; [exact E|]. split; [apply H1; left|exact H2].
Defined.
