(* ===== verification/FatCases.v ===== *)
(** Cases of the FAT32 driver that go wrong, evaluated on a small volume in memory: names
    that are created but not found again, and a name that is read past its end. *)

From S2P Require Import Prelude Wire Disk FatName Fat FatDir.

Definition case_fs : FAT32Filesystem := mkFs 512 1 2 2 1 2 0 64 60 2 FAT32_FSINFO_UNKNOWN [].

(** The root directory is cluster 2 and has [used] short entries. *)
Definition case_bytes (used a : Z) : Z :=
  if ((1032 <=? a) && (a <? 1036)) || ((1544 <=? a) && (a <? 1548)) then (if a mod 4 =? 3 then 0x0F else 0xFF)
  else if (2048 <=? a) && (a <? 2048 + 32 * used) && ((a - 2048) mod 32 <? 11) then (if (a - 2048) mod 32 =? 0 then 65 + (a - 2048) / 32 else SPACE)
  else 0.
Definition case_world (used : Z) : World RamDisk := mkWorld (mkRam 512 64 (case_bytes used)) (λ _, Some (λ _, 170)) 0.
Definition case_root : Node := mkNode 2 0 true 2 0 0.

Definition create_and_look_up (used : Z) (names : list (list Z)) (name : list Z) : res (bool * option Node) :=
  '(fs, w) ← foldl (λ s n, '(fs, w) ← s; '(_, fs, w) ← fat32_vfs_create fs case_root n w; Ok (fs, w)) (Ok (case_fs, case_world used)) names;
  '(ok, fs, w) ← fat32_vfs_create fs case_root name w;
  '(node, _) ← fat32_vfs_lookup fs case_root name w;
  Ok (ok, node).

(** With 14 entries in use, two entries that fit the sector are found again; with 15 in use
    they go into a new cluster behind an entry that still marks the end of the directory. *)
Definition long_name : list Z := [108; 111; 110; 103; 32; 110; 97; 109; 101].

Example create_found : ∃ node, create_and_look_up 14 [] long_name = Ok (true, Some node).
Proof. eexists. vm_compute. reflexivity. Qed.

Example create_behind_end : create_and_look_up 15 [] long_name = Ok (true, None).
Proof. vm_compute. reflexivity. Qed.

(** "FOO." is stored as the short name "FOO". *)
Example create_trailing_dot : create_and_look_up 0 [] [70; 79; 79; 46] = Ok (true, None).
Proof. vm_compute. reflexivity. Qed.

(** "LONG_N~1" is stored as "LONG_N~2" once "long name" has taken its short name. *)
Example create_taken_short_name : create_and_look_up 0 [long_name] [76; 79; 78; 71; 95; 78; 126; 49] = Ok (true, None).
Proof. vm_compute. reflexivity. Qed.

(** A name that ends in the first byte of a three-byte character is read past its NUL. *)
Example create_reads_past_name : create_and_look_up 0 [] [97; 0xE0] = Fault.
Proof. vm_compute. reflexivity. Qed.
