(* ===== verification/Sched.v ===== *)
(** The scheduler (src/kernel/sched/scheduler.cpp): processes with the pointers that link
    them into the process list, the ready, sleep and wait queues and the lists of children;
    scheduling, waiting, waking, sleeping, creation, exit and reaping.

    A process is named by its address, 0 is the null pointer, and a process that has been
    freed is no longer in the memory, so that an access to it is a fault. Everything runs
    under the scheduler's lock on one core and is one step; what a process does after
    [switch_to_task] is another step, taken when it is the current process again. *)

From S2P Require Import Prelude.

(** * Processes *)

Inductive ProcessState := Ready | Running | Blocked | Sleeping | Zombie | Waiting.

#[export] Instance ProcessState_eq_dec : EqDecision ProcessState.
Proof. solve_decision. Defined.

(** A wait queue, named by where it is: in a process, the queue of epoll, or elsewhere
    (pipes, mutexes, futexes). *)
Inductive WaitQueueId := QChild (p : Z) | QEvent (p : Z) | QEpoll | QOther (a : Z).

#[export] Instance WaitQueueId_eq_dec : EqDecision WaitQueueId.
Proof. solve_decision. Defined.

Record Process := mkProcess {
  pid : Z;
  parent_pid : Z;
  state : ProcessState;
  exit_status : Z;
  wait_for_pid : Z;
  wake_time : Z;
  exec_done : bool;
  exec_exit_status : Z;
  priority : Z;
  time_slice : Z;
  cpu_time : Z;
  last_run_time : Z;
  page_table : Z;
  vma_list : Z;
  stack_phys : Z;
  children_list : Z;
  sibling_next : Z;
  next : Z;
  queue_next : Z;
  waiting_queue : option WaitQueueId;
  preempt_count : Z;
  preempt_pending : bool
}.

Definition set_parent_pid (v : Z) (x : Process) : Process :=
  mkProcess (pid x) v (state x) (exit_status x) (wait_for_pid x) (wake_time x) (exec_done x) (exec_exit_status x) (priority x) (time_slice x) (cpu_time x) (last_run_time x) (page_table x) (vma_list x) (stack_phys x) (children_list x) (sibling_next x) (next x) (queue_next x) (waiting_queue x) (preempt_count x) (preempt_pending x).
Definition set_state (v : ProcessState) (x : Process) : Process :=
  mkProcess (pid x) (parent_pid x) v (exit_status x) (wait_for_pid x) (wake_time x) (exec_done x) (exec_exit_status x) (priority x) (time_slice x) (cpu_time x) (last_run_time x) (page_table x) (vma_list x) (stack_phys x) (children_list x) (sibling_next x) (next x) (queue_next x) (waiting_queue x) (preempt_count x) (preempt_pending x).
Definition set_exit_status (v : Z) (x : Process) : Process :=
  mkProcess (pid x) (parent_pid x) (state x) v (wait_for_pid x) (wake_time x) (exec_done x) (exec_exit_status x) (priority x) (time_slice x) (cpu_time x) (last_run_time x) (page_table x) (vma_list x) (stack_phys x) (children_list x) (sibling_next x) (next x) (queue_next x) (waiting_queue x) (preempt_count x) (preempt_pending x).
Definition set_wait_for_pid (v : Z) (x : Process) : Process :=
  mkProcess (pid x) (parent_pid x) (state x) (exit_status x) v (wake_time x) (exec_done x) (exec_exit_status x) (priority x) (time_slice x) (cpu_time x) (last_run_time x) (page_table x) (vma_list x) (stack_phys x) (children_list x) (sibling_next x) (next x) (queue_next x) (waiting_queue x) (preempt_count x) (preempt_pending x).
Definition set_wake_time (v : Z) (x : Process) : Process :=
  mkProcess (pid x) (parent_pid x) (state x) (exit_status x) (wait_for_pid x) v (exec_done x) (exec_exit_status x) (priority x) (time_slice x) (cpu_time x) (last_run_time x) (page_table x) (vma_list x) (stack_phys x) (children_list x) (sibling_next x) (next x) (queue_next x) (waiting_queue x) (preempt_count x) (preempt_pending x).
Definition set_exec_done (v : bool) (x : Process) : Process :=
  mkProcess (pid x) (parent_pid x) (state x) (exit_status x) (wait_for_pid x) (wake_time x) v (exec_exit_status x) (priority x) (time_slice x) (cpu_time x) (last_run_time x) (page_table x) (vma_list x) (stack_phys x) (children_list x) (sibling_next x) (next x) (queue_next x) (waiting_queue x) (preempt_count x) (preempt_pending x).
Definition set_exec_exit_status (v : Z) (x : Process) : Process :=
  mkProcess (pid x) (parent_pid x) (state x) (exit_status x) (wait_for_pid x) (wake_time x) (exec_done x) v (priority x) (time_slice x) (cpu_time x) (last_run_time x) (page_table x) (vma_list x) (stack_phys x) (children_list x) (sibling_next x) (next x) (queue_next x) (waiting_queue x) (preempt_count x) (preempt_pending x).
Definition set_priority (v : Z) (x : Process) : Process :=
  mkProcess (pid x) (parent_pid x) (state x) (exit_status x) (wait_for_pid x) (wake_time x) (exec_done x) (exec_exit_status x) v (time_slice x) (cpu_time x) (last_run_time x) (page_table x) (vma_list x) (stack_phys x) (children_list x) (sibling_next x) (next x) (queue_next x) (waiting_queue x) (preempt_count x) (preempt_pending x).
Definition set_time_slice (v : Z) (x : Process) : Process :=
  mkProcess (pid x) (parent_pid x) (state x) (exit_status x) (wait_for_pid x) (wake_time x) (exec_done x) (exec_exit_status x) (priority x) v (cpu_time x) (last_run_time x) (page_table x) (vma_list x) (stack_phys x) (children_list x) (sibling_next x) (next x) (queue_next x) (waiting_queue x) (preempt_count x) (preempt_pending x).
Definition set_cpu_time (v : Z) (x : Process) : Process :=
  mkProcess (pid x) (parent_pid x) (state x) (exit_status x) (wait_for_pid x) (wake_time x) (exec_done x) (exec_exit_status x) (priority x) (time_slice x) v (last_run_time x) (page_table x) (vma_list x) (stack_phys x) (children_list x) (sibling_next x) (next x) (queue_next x) (waiting_queue x) (preempt_count x) (preempt_pending x).
Definition set_last_run_time (v : Z) (x : Process) : Process :=
  mkProcess (pid x) (parent_pid x) (state x) (exit_status x) (wait_for_pid x) (wake_time x) (exec_done x) (exec_exit_status x) (priority x) (time_slice x) (cpu_time x) v (page_table x) (vma_list x) (stack_phys x) (children_list x) (sibling_next x) (next x) (queue_next x) (waiting_queue x) (preempt_count x) (preempt_pending x).
Definition set_children_list (v : Z) (x : Process) : Process :=
  mkProcess (pid x) (parent_pid x) (state x) (exit_status x) (wait_for_pid x) (wake_time x) (exec_done x) (exec_exit_status x) (priority x) (time_slice x) (cpu_time x) (last_run_time x) (page_table x) (vma_list x) (stack_phys x) v (sibling_next x) (next x) (queue_next x) (waiting_queue x) (preempt_count x) (preempt_pending x).
Definition set_sibling_next (v : Z) (x : Process) : Process :=
  mkProcess (pid x) (parent_pid x) (state x) (exit_status x) (wait_for_pid x) (wake_time x) (exec_done x) (exec_exit_status x) (priority x) (time_slice x) (cpu_time x) (last_run_time x) (page_table x) (vma_list x) (stack_phys x) (children_list x) v (next x) (queue_next x) (waiting_queue x) (preempt_count x) (preempt_pending x).
Definition set_next (v : Z) (x : Process) : Process :=
  mkProcess (pid x) (parent_pid x) (state x) (exit_status x) (wait_for_pid x) (wake_time x) (exec_done x) (exec_exit_status x) (priority x) (time_slice x) (cpu_time x) (last_run_time x) (page_table x) (vma_list x) (stack_phys x) (children_list x) (sibling_next x) v (queue_next x) (waiting_queue x) (preempt_count x) (preempt_pending x).
Definition set_queue_next (v : Z) (x : Process) : Process :=
  mkProcess (pid x) (parent_pid x) (state x) (exit_status x) (wait_for_pid x) (wake_time x) (exec_done x) (exec_exit_status x) (priority x) (time_slice x) (cpu_time x) (last_run_time x) (page_table x) (vma_list x) (stack_phys x) (children_list x) (sibling_next x) (next x) v (waiting_queue x) (preempt_count x) (preempt_pending x).
Definition set_waiting_queue (v : option WaitQueueId) (x : Process) : Process :=
  mkProcess (pid x) (parent_pid x) (state x) (exit_status x) (wait_for_pid x) (wake_time x) (exec_done x) (exec_exit_status x) (priority x) (time_slice x) (cpu_time x) (last_run_time x) (page_table x) (vma_list x) (stack_phys x) (children_list x) (sibling_next x) (next x) (queue_next x) v (preempt_count x) (preempt_pending x).
Definition set_preempt_count (v : Z) (x : Process) : Process :=
  mkProcess (pid x) (parent_pid x) (state x) (exit_status x) (wait_for_pid x) (wake_time x) (exec_done x) (exec_exit_status x) (priority x) (time_slice x) (cpu_time x) (last_run_time x) (page_table x) (vma_list x) (stack_phys x) (children_list x) (sibling_next x) (next x) (queue_next x) (waiting_queue x) v (preempt_pending x).
Definition set_preempt_pending (v : bool) (x : Process) : Process :=
  mkProcess (pid x) (parent_pid x) (state x) (exit_status x) (wait_for_pid x) (wake_time x) (exec_done x) (exec_exit_status x) (priority x) (time_slice x) (cpu_time x) (last_run_time x) (page_table x) (vma_list x) (stack_phys x) (children_list x) (sibling_next x) (next x) (queue_next x) (waiting_queue x) (preempt_count x) v.

Record WaitQueue := mkQueue { head : Z; tail : Z }.

(** What reaping a process gives back. *)
Inductive Released := RFrame (phys : Z) | RSpace (page_table : Z) | RAreas (vma_list : Z).

(** [g_now] is the tick counter; [g_wm_pid] and [g_focus_pid] are kept by the window system. *)
Record Sched := mkSched {
  procs : gmap Z Process;
  g_current_proc : Z;
  g_proc_list : Z;
  g_proc_tail : Z;
  g_next_pid : Z;
  g_ready_queues : list Z;
  g_ready_tails : list Z;
  g_sleep_queue : Z;
  g_last_sleep_tick : Z;
  wait_queues : WaitQueueId → WaitQueue;
  g_now : Z;
  g_wm_pid : Z;
  g_focus_pid : Z;
  released : list Released
}.

Definition with_procs (v : gmap Z Process) (s : Sched) : Sched :=
  mkSched v (g_current_proc s) (g_proc_list s) (g_proc_tail s) (g_next_pid s) (g_ready_queues s) (g_ready_tails s) (g_sleep_queue s) (g_last_sleep_tick s) (wait_queues s) (g_now s) (g_wm_pid s) (g_focus_pid s) (released s).
Definition with_current (v : Z) (s : Sched) : Sched :=
  mkSched (procs s) v (g_proc_list s) (g_proc_tail s) (g_next_pid s) (g_ready_queues s) (g_ready_tails s) (g_sleep_queue s) (g_last_sleep_tick s) (wait_queues s) (g_now s) (g_wm_pid s) (g_focus_pid s) (released s).
Definition with_next_pid (v : Z) (s : Sched) : Sched :=
  mkSched (procs s) (g_current_proc s) (g_proc_list s) (g_proc_tail s) v (g_ready_queues s) (g_ready_tails s) (g_sleep_queue s) (g_last_sleep_tick s) (wait_queues s) (g_now s) (g_wm_pid s) (g_focus_pid s) (released s).
Definition with_sleep (v : Z) (s : Sched) : Sched :=
  mkSched (procs s) (g_current_proc s) (g_proc_list s) (g_proc_tail s) (g_next_pid s) (g_ready_queues s) (g_ready_tails s) v (g_last_sleep_tick s) (wait_queues s) (g_now s) (g_wm_pid s) (g_focus_pid s) (released s).
Definition with_last_tick (v : Z) (s : Sched) : Sched :=
  mkSched (procs s) (g_current_proc s) (g_proc_list s) (g_proc_tail s) (g_next_pid s) (g_ready_queues s) (g_ready_tails s) (g_sleep_queue s) v (wait_queues s) (g_now s) (g_wm_pid s) (g_focus_pid s) (released s).
Definition with_queues (v : WaitQueueId → WaitQueue) (s : Sched) : Sched :=
  mkSched (procs s) (g_current_proc s) (g_proc_list s) (g_proc_tail s) (g_next_pid s) (g_ready_queues s) (g_ready_tails s) (g_sleep_queue s) (g_last_sleep_tick s) v (g_now s) (g_wm_pid s) (g_focus_pid s) (released s).
Definition with_released (v : list Released) (s : Sched) : Sched :=
  mkSched (procs s) (g_current_proc s) (g_proc_list s) (g_proc_tail s) (g_next_pid s) (g_ready_queues s) (g_ready_tails s) (g_sleep_queue s) (g_last_sleep_tick s) (wait_queues s) (g_now s) (g_wm_pid s) (g_focus_pid s) v.
Definition with_ready (h t : list Z) (s : Sched) : Sched :=
  mkSched (procs s) (g_current_proc s) (g_proc_list s) (g_proc_tail s) (g_next_pid s) h t (g_sleep_queue s) (g_last_sleep_tick s) (wait_queues s) (g_now s) (g_wm_pid s) (g_focus_pid s) (released s).
Definition with_list (l t : Z) (s : Sched) : Sched :=
  mkSched (procs s) (g_current_proc s) l t (g_next_pid s) (g_ready_queues s) (g_ready_tails s) (g_sleep_queue s) (g_last_sleep_tick s) (wait_queues s) (g_now s) (g_wm_pid s) (g_focus_pid s) (released s).

(** [p->field] and [p->field = v]. *)
Definition fetch (p : Z) (s : Sched) : res Process := match procs s !! p with Some x => Ok x | None => Fault end.
Definition update (p : Z) (f : Process → Process) (s : Sched) : res Sched :=
  match procs s !! p with Some x => Ok (with_procs (<[p := f x]> (procs s)) s) | None => Fault end.

(** The queue [q] of a process is part of the process. *)
Definition queue_live (q : WaitQueueId) (s : Sched) : bool :=
  match q with QChild p | QEvent p => bool_decide (is_Some (procs s !! p)) | _ => true end.
Definition get_queue (q : WaitQueueId) (s : Sched) : res WaitQueue := if queue_live q s then Ok (wait_queues s q) else Fault.
Definition set_queue (q : WaitQueueId) (v : WaitQueue) (s : Sched) : res Sched :=
  if queue_live q s then Ok (with_queues (λ q', if decide (q' = q) then v else wait_queues s q') s) else Fault.

(** Walks along linked processes; an address is below 2^64. *)
Definition SCHED_FUEL : positive := 2 ^ 64.

Definition NUM_PRIORITY_LEVELS : Z := 3.

(** * Ready queues *)

Definition interactive_boost_if_needed (p : Z) (s : Sched) : res Sched :=
  x ← fetch p s;
  let wm := g_wm_pid s in
  let focus := g_focus_pid s in
  if negb (pid x =? 0) &&
     ((negb (wm =? 0) && ((pid x =? wm) || (parent_pid x =? wm))) || (negb (focus =? 0) && ((pid x =? focus) || (parent_pid x =? focus))))
  then update p (set_priority 0) s
  else Ok s.

Definition ready_queue_push (p : Z) (s : Sched) : res Sched :=
  x ← fetch p s;
  let prio := if NUM_PRIORITY_LEVELS <=? priority x then NUM_PRIORITY_LEVELS - 1 else priority x in
  s ← update p (set_queue_next 0) s;
  t ← arr_get (g_ready_tails s) prio;
  if t =? 0 then
    heads ← arr_set (g_ready_queues s) prio p;
    tails ← arr_set (g_ready_tails s) prio p;
    Ok (with_ready heads tails s)
  else
    s ← update t (set_queue_next p) s;
    tails ← arr_set (g_ready_tails s) prio p;
    Ok (with_ready (g_ready_queues s) tails s).

(** One level of [ready_queue_pop]. *)
Definition pop_level (i : Z) (r : option Z * Sched) : res (option Z * Sched) :=
  let '(found, s) := r in
  match found with
  | Some _ => Ok r
  | None =>
      p ← arr_get (g_ready_queues s) i;
      if p =? 0 then Ok (None, s)
      else
        x ← fetch p s;
        heads ← arr_set (g_ready_queues s) i (queue_next x);
        tails ← (if queue_next x =? 0 then arr_set (g_ready_tails s) i 0 else Ok (g_ready_tails s));
        s ← update p (set_queue_next 0) (with_ready heads tails s);
        Ok (Some p, s)
  end.

(** The null pointer is 0. *)
Definition ready_queue_pop (s : Sched) : res (Z * Sched) :=
  '(p, s) ← for_upto (Z.to_nat NUM_PRIORITY_LEVELS) 0 pop_level (None, s);
  Ok (default 0 p, s).

(** The walk to [p] in a list; the predecessor is 0 at the front, [None] if [p] is not there. *)
Definition find_prev_step (p : Z) (s : Sched) (st : Z * Z) : res (Z * Z + option Z) :=
  let '(prev, curr) := st in
  if curr =? 0 then Ok (inr None)
  else if curr =? p then Ok (inr (Some prev))
  else x ← fetch curr s; Ok (inl (curr, queue_next x)).

Definition find_prev (p h : Z) (s : Sched) : res (option Z) := bloop SCHED_FUEL (find_prev_step p s) (0, h).

Definition remove_level (p i : Z) (r : bool * Sched) : res (bool * Sched) :=
  let '(done, s) := r in
  if (done : bool) then Ok r
  else
    h ← arr_get (g_ready_queues s) i;
    found ← find_prev p h s;
    match found with
    | None => Ok (false, s)
    | Some prev =>
        x ← fetch p s;
        s ← (if prev =? 0 then heads ← arr_set (g_ready_queues s) i (queue_next x); Ok (with_ready heads (g_ready_tails s) s)
             else update prev (set_queue_next (queue_next x)) s);
        t ← arr_get (g_ready_tails s) i;
        s ← (if t =? p then tails ← arr_set (g_ready_tails s) i prev; Ok (with_ready (g_ready_queues s) tails s) else Ok s);
        s ← update p (set_queue_next 0) s;
        Ok (true, s)
    end.

Definition scheduler_remove_from_ready_queue (p : Z) (s : Sched) : res Sched :=
  '(_, s) ← for_upto (Z.to_nat NUM_PRIORITY_LEVELS) 0 (remove_level p) (false, s);
  Ok s.

Definition scheduler_boost_process_priority (p new_priority : Z) (s : Sched) : res Sched :=
  if p =? 0 then Ok s
  else
    x ← fetch p s;
    if new_priority <? priority x then
      s ← scheduler_remove_from_ready_queue p s;
      s ← update p (set_priority new_priority) s;
      if decide (state x = Ready) then ready_queue_push p s else Ok s
    else Ok s.

(** * The sleep queue *)

(** The walk of [sleep_queue_push]: the processes that wake earlier are passed. *)
Definition sleep_step (s : Sched) (st : Z * Z * Z) : res (Z * Z * Z + Z * Z * Z) :=
  let '(prev, curr, remaining) := st in
  if curr =? 0 then Ok (inr st)
  else
    x ← fetch curr s;
    if wake_time x <=? remaining then Ok (inl (curr, queue_next x, remaining - wake_time x)) else Ok (inr st).

Definition sleep_queue_push (p ticks : Z) (s : Sched) : res Sched :=
  s ← update p (set_state Sleeping) s;
  if g_sleep_queue s =? 0 then
    s ← update p (λ x, set_queue_next 0 (set_wake_time ticks x)) s;
    Ok (with_last_tick (g_now s) (with_sleep p s))
  else
    '(prev, curr, remaining) ← bloop SCHED_FUEL (sleep_step s) (0, g_sleep_queue s, ticks);
    s ← update p (λ x, set_queue_next curr (set_wake_time remaining x)) s;
    s ← (if prev =? 0 then Ok (with_sleep p s) else update prev (set_queue_next p) s);
    if curr =? 0 then Ok s else update curr (λ x, set_wake_time (u64 (wake_time x - remaining)) x) s.

Definition wake_step (st : Z * Sched) : res (Z * Sched + Sched) :=
  let '(diff, s) := st in
  if (0 <? diff) && negb (g_sleep_queue s =? 0) then
    let p := g_sleep_queue s in
    x ← fetch p s;
    if wake_time x <=? diff then
      s ← update p (λ x, set_queue_next 0 (set_state Ready (set_wake_time 0 x))) (with_sleep (queue_next x) s);
      s ← (if (0 <? priority x) && negb (pid x =? 0) then update p (set_priority (priority x - 1)) s else Ok s);
      s ← interactive_boost_if_needed p s;
      s ← ready_queue_push p s;
      Ok (inl (diff - wake_time x, s))
    else
      s ← update p (set_wake_time (wake_time x - diff)) s;
      Ok (inl (0, s))
  else Ok (inr s).

Definition wake_sleeping_processes (s : Sched) : res Sched :=
  if g_sleep_queue s =? 0 then Ok s
  else if g_now s <=? g_last_sleep_tick s then Ok s
  else bloop SCHED_FUEL wake_step (g_now s - g_last_sleep_tick s, with_last_tick (g_now s) s).

(** * Wait queues *)

Definition wait_queue_remove (q : WaitQueueId) (p : Z) (s : Sched) : res Sched :=
  wq ← get_queue q s;
  found ← find_prev p (head wq) s;
  match found with
  | None => Ok s
  | Some prev =>
      x ← fetch p s;
      s ← (if prev =? 0 then set_queue q (mkQueue (queue_next x) (tail wq)) s else update prev (set_queue_next (queue_next x)) s);
      wq ← get_queue q s;
      s ← (if tail wq =? p then set_queue q (mkQueue (head wq) prev) s else Ok s);
      update p (λ x, set_waiting_queue None (set_queue_next 0 x)) s
  end.

Definition wait_queue_push (q : WaitQueueId) (p : Z) (s : Sched) : res Sched :=
  s ← update p (λ x, set_waiting_queue (Some q) (set_queue_next 0 (set_state Waiting x))) s;
  wq ← get_queue q s;
  if tail wq =? 0 then set_queue q (mkQueue p p) s
  else
    s ← update (tail wq) (set_queue_next p) s;
    set_queue q (mkQueue (head wq) p) s.

(** A process taken off a wait queue becomes ready if it waited. *)
Definition make_ready (p : Z) (s : Sched) : res Sched :=
  x ← fetch p s;
  if decide (state x = Waiting ∨ state x = Blocked) then
    s ← update p (set_state Ready) s;
    s ← interactive_boost_if_needed p s;
    ready_queue_push p s
  else Ok s.

Definition wake_all_step (st : Z * Sched) : res (Z * Sched + Sched) :=
  let '(p, s) := st in
  if p =? 0 then Ok (inr s)
  else
    x ← fetch p s;
    s ← update p (λ x, set_queue_next 0 (set_waiting_queue None x)) s;
    s ← make_ready p s;
    Ok (inl (queue_next x, s)).

Definition wait_queue_wake_all (q : WaitQueueId) (s : Sched) : res Sched :=
  wq ← get_queue q s;
  s ← bloop SCHED_FUEL wake_all_step (head wq, s);
  set_queue q (mkQueue 0 0) s.

Definition scheduler_wake_process (p : Z) (s : Sched) : res Sched :=
  if p =? 0 then Ok s
  else
    x ← fetch p s;
    s ← (match waiting_queue x with Some q => wait_queue_remove q p s | None => Ok s end);
    make_ready p s.

Definition scheduler_wake_all (q : WaitQueueId) (s : Sched) : res Sched :=
  s ← wait_queue_wake_all q s;
  if decide (q = QEpoll) then Ok s else wait_queue_wake_all QEpoll s.

(** The head of a queue is detached and made ready. *)
Definition wake_head (q : WaitQueueId) (s : Sched) : res Sched :=
  wq ← get_queue q s;
  let p := head wq in
  x ← fetch p s;
  s ← set_queue q (mkQueue (queue_next x) (if queue_next x =? 0 then 0 else tail wq)) s;
  s ← update p (λ x, set_waiting_queue None (set_queue_next 0 x)) s;
  make_ready p s.

Definition scheduler_wake_one (q : WaitQueueId) (s : Sched) : res Sched :=
  wq ← get_queue q s;
  if head wq =? 0 then Ok s
  else
    s ← wake_head q s;
    if decide (q ≠ QEpoll ∧ head (wait_queues s QEpoll) ≠ 0) then wake_head QEpoll s else Ok s.

(** * Scheduling *)

(** [while (p->pid != 0) p = p->next;] *)
Definition kernel_step (s : Sched) (p : Z) : res (Z + Z) :=
  x ← fetch p s;
  if pid x =? 0 then Ok (inr p) else Ok (inl (next x)).

Definition max_slice (priority : Z) : Z := if priority =? 0 then 5 else if priority =? 1 then 20 else 50.

(** The process that runs next is the new [g_current_proc]. *)
Definition scheduler_schedule_internal (s : Sched) : res Sched :=
  s ← update (g_current_proc s) (λ x, set_time_slice (u32 (time_slice x + 1)) (set_cpu_time (u64 (cpu_time x + 1)) x)) s;
  s ← wake_sleeping_processes s;
  let cur := g_current_proc s in
  x ← fetch cur s;
  s ← (if decide (state x = Running) then
         s ← (if max_slice (priority x) <=? time_slice x then
                s ← (if (priority x <? NUM_PRIORITY_LEVELS - 1) && negb (pid x =? 0) then update cur (set_priority (priority x + 1)) s else Ok s);
                update cur (set_time_slice 0) s
              else Ok s);
         s ← update cur (set_state Ready) s;
         ready_queue_push cur s
       else Ok s);
  '(nxt, s) ← ready_queue_pop s;
  x ← fetch cur s;
  nxt ← (if nxt =? 0 then
           if decide (state x = Running ∨ state x = Ready) then Ok cur else bloop SCHED_FUEL (kernel_step s) (g_proc_list s)
         else Ok nxt);
  s ← (if (nxt =? cur) || negb (bool_decide (state x = Running)) then Ok s else update cur (set_state Ready) s);
  update nxt (λ x, set_last_run_time (g_now s) (set_state Running x)) (with_current nxt s).

Definition scheduler_wait (q : WaitQueueId) (s : Sched) : res Sched :=
  if g_current_proc s =? 0 then Ok s
  else
    s ← wait_queue_push q (g_current_proc s) s;
    scheduler_schedule_internal s.

Definition scheduler_sleep (ticks : Z) (s : Sched) : res Sched :=
  if g_current_proc s =? 0 then Ok s
  else
    s ← sleep_queue_push (g_current_proc s) ticks s;
    scheduler_schedule_internal s.

(** The ticks of [scheduler_sleep_ms]; [None] if it does not sleep on the scheduler. *)
Definition sleep_ticks (ms freq : Z) : option Z :=
  if (ms =? 0) || (freq =? 0) then None
  else
    let ticks := u64 (ms / 1000 * freq) in
    let rem_ticks := u64 (u64 (ms mod 1000 * freq) + 999) / 1000 in
    let ticks := if 2 ^ 64 - 1 - ticks <? rem_ticks then 2 ^ 64 - 1 else ticks + rem_ticks in
    Some (if ticks =? 0 then 1 else ticks).

Definition scheduler_sleep_ms (ms freq : Z) (s : Sched) : res Sched :=
  match sleep_ticks ms freq with Some ticks => scheduler_sleep ticks s | None => Ok s end.

(** * The process list *)

(** [do { ... p = p->next; } while (p != g_proc_list)]: the first process that satisfies [f]. *)
Definition list_step (f : Z → Process → bool) (s : Sched) (p : Z) : res (Z + option Z) :=
  x ← fetch p s;
  if f p x then Ok (inr (Some p)) else if next x =? g_proc_list s then Ok (inr None) else Ok (inl (next x)).

Definition list_find (f : Z → Process → bool) (s : Sched) : res (option Z) :=
  if g_proc_list s =? 0 then Ok None else bloop SCHED_FUEL (list_step f s) (g_proc_list s).

(** The null pointer is 0. *)
Definition process_find_by_pid (n : Z) (s : Sched) : res Z := p ← list_find (λ _ x, pid x =? n) s; Ok (default 0 p).

(** A new process at the end of the list, the first child of [parent], on a ready queue. *)
Definition link_process (p parent : Z) (s : Sched) : res Sched :=
  s ← update (g_proc_tail s) (set_next p) s;
  s ← update p (set_next (g_proc_list s)) s;
  let s := with_list (g_proc_list s) p s in
  s ← update p (set_children_list 0) s;
  s ← (if parent =? 0 then update p (set_sibling_next 0) s
       else
         x ← fetch parent s;
         s ← update p (set_sibling_next (children_list x)) s;
         update parent (set_children_list p) s);
  ready_queue_push p s.

Definition new_process (n parent priority page_table vma_list stack now : Z) : Process :=
  mkProcess n parent Ready 0 0 0 false 0 priority 0 0 now page_table vma_list stack 0 0 0 0 None 0 false.

(** The first process; [a] is the result of [aligned_alloc]. *)
Definition scheduler_init (a now wm focus : Z) : res Sched :=
  if a =? 0 then Panic "Failed to allocate initial process!"
  else
    let x := set_next a (set_state Running (new_process 0 0 2 0 0 0 0)) in
    Ok (mkSched {[a := x]} a a a 1 [0; 0; 0] [0; 0; 0] 0 0 (λ _, mkQueue 0 0) now wm focus []).

(** The allocations are inputs: [a] the process, [stack] the kernel stack; 0 is failure. *)
Definition scheduler_create_task (a stack : Z) (s : Sched) : res (Z * Sched) :=
  if a =? 0 then Ok (0, s)
  else
    let n := g_next_pid s in
    let s := with_next_pid (u64 (n + 1)) s in
    parent ← (if g_current_proc s =? 0 then Ok 0 else x ← fetch (g_current_proc s) s; Ok (pid x));
    if stack =? 0 then Ok (0, s)
    else
      let s := with_procs (<[a := new_process n parent 1 0 0 stack (g_now s)]> (procs s)) s in
      s ← link_process a (g_current_proc s) s;
      Ok (a, s).

Definition release (l : list Released) (s : Sched) : Sched := with_released (released s ++ l) s.

(** [pt] and [areas] are the results of cloning the address space and the areas of the
    caller; the result is the pid of the child, [None] for -1. *)
Definition process_fork (a pt areas stack : Z) (s : Sched) : res (option Z * Sched) :=
  if a =? 0 then Ok (None, s)
  else
    let n := g_next_pid s in
    let s := with_next_pid (u64 (n + 1)) s in
    x ← fetch (g_current_proc s) s;
    if pt =? 0 then Ok (None, s)
    else if negb (vma_list x =? 0) && (areas =? 0) then Ok (None, release [RSpace pt] s)
    else if stack =? 0 then Ok (None, release ((if areas =? 0 then [] else [RAreas areas]) ++ [RSpace pt]) s)
    else
      let s := with_procs (<[a := new_process n (pid x) (priority x) pt areas stack (g_now s)]> (procs s)) s in
      s ← link_process a (g_current_proc s) s;
      Ok (Some n, s).

(** A thread shares the address space and the areas of its creator; [args_ok] says that the
    arguments are not null. *)
Definition sys_thread_create (args_ok : bool) (a stack : Z) (s : Sched) : res (Z * Sched) :=
  if negb args_ok then Ok (-22, s)
  else if (g_current_proc s =? 0) || (a =? 0) then Ok (-1, s)
  else
    let n := g_next_pid s in
    let s := with_next_pid (u64 (n + 1)) s in
    x ← fetch (g_current_proc s) s;
    if stack =? 0 then Ok (-1, s)
    else
      let s := with_procs (<[a := new_process n (pid x) (priority x) (page_table x) (vma_list x) stack (g_now s)]> (procs s)) s in
      s ← link_process a (g_current_proc s) s;
      Ok (n, s).

(** * Reaping *)

Definition KERNEL_STACK_PAGES : nat := 16.

(** Whether another process of the list uses the page table, and the areas, of [target]. *)
Definition share_step (target : Z) (t : Process) (s : Sched) (st : Z * bool * bool) : res (Z * bool * bool + bool * bool) :=
  let '(p, spt, svma) := st in
  x ← fetch p s;
  let spt' := if p =? target then spt else spt || (page_table x =? page_table t) in
  let svma' := if p =? target then svma else svma || (vma_list x =? vma_list t) in
  if (spt' && svma' && negb (p =? target)) || (next x =? g_proc_list s) then Ok (inr (spt', svma')) else Ok (inl (next x, spt', svma')).

Definition process_free_reaped (target : Z) (s : Sched) : res Sched :=
  t ← fetch target s;
  let s := if stack_phys t =? 0 then s else release ((λ i : nat, RFrame (u64 (stack_phys t + 4096 * Z.of_nat i))) <$> seq 0 KERNEL_STACK_PAGES) s in
  '(spt, svma) ← (if g_proc_list s =? 0 then Ok (false, false) else bloop SCHED_FUEL (share_step target t s) (g_proc_list s, false, false));
  let s := if negb (page_table t =? 0) && negb spt then release [RSpace (page_table t)] s else s in
  let s := if negb (vma_list t =? 0) && negb svma then release [RAreas (vma_list t)] s else s in
  Ok (with_procs (delete target (procs s)) s).

(** The walk along the children of a process to the one that satisfies [f], with its
    predecessor, 0 at the front. *)
Definition child_step (f : Z → Process → bool) (s : Sched) (st : Z * Z) : res (Z * Z + option (Z * Z)) :=
  let '(prev, p) := st in
  if p =? 0 then Ok (inr None)
  else
    x ← fetch p s;
    if f p x then Ok (inr (Some (prev, p))) else Ok (inl (p, sibling_next x)).

Definition child_find (f : Z → Process → bool) (first : Z) (s : Sched) : res (option (Z * Z)) := bloop SCHED_FUEL (child_step f s) (0, first).

Definition unlink_child (parent prev target : Z) (s : Sched) : res Sched :=
  t ← fetch target s;
  if prev =? 0 then update parent (set_children_list (sibling_next t)) s else update prev (set_sibling_next (sibling_next t)) s.

(** The predecessor of [target] in the list of processes. *)
Definition prev_step (target : Z) (s : Sched) (prev : Z) : res (Z + Z) :=
  x ← fetch prev s;
  if (next x =? target) || (next x =? g_proc_list s) then Ok (inr prev) else Ok (inl (next x)).

Definition unlink_process (prev target : Z) (s : Sched) : res Sched :=
  t ← fetch target s;
  s ← update prev (set_next (next t)) s;
  Ok (with_list (if g_proc_list s =? target then next t else g_proc_list s) (if g_proc_tail s =? target then prev else g_proc_tail s) s).

(** A zombie whose parent is the kernel, taken out of the lists. *)
Definition zombie_step (s : Sched) (st : Z * Z) : res (Z * Z + option (Z * Z)) :=
  let '(prev, p) := st in
  x ← fetch p s;
  if negb (p =? g_current_proc s) && negb (pid x =? 0) && (parent_pid x =? 0) && bool_decide (state x = Zombie) then Ok (inr (Some (prev, p)))
  else if next x =? g_proc_list s then Ok (inr None) else Ok (inl (p, next x)).

Definition detach_kernel_zombie_locked (s : Sched) : res (option Z * Sched) :=
  if g_proc_list s =? 0 then Ok (None, s)
  else
    found ← bloop SCHED_FUEL (zombie_step s) (g_proc_tail s, g_proc_list s);
    match found with
    | None => Ok (None, s)
    | Some (prev, target) =>
        kernel ← list_find (λ _ x, pid x =? 0) s;
        s ← (match kernel with
             | None => Ok s
             | Some k =>
                 kx ← fetch k s;
                 c ← child_find (λ p _, p =? target) (children_list kx) s;
                 match c with Some (prev_child, _) => unlink_child k prev_child target s | None => Ok s end
             end);
        t ← fetch target s;
        s ← (if next t =? target then Ok (with_list 0 0 s) else unlink_process prev target s);
        s ← update target (λ x, set_sibling_next 0 (set_next 0 x)) s;
        Ok (Some target, s)
    end.

Definition reap_step (s : Sched) : res (Sched + Sched) :=
  '(target, s) ← detach_kernel_zombie_locked s;
  match target with None => Ok (inr s) | Some t => s ← process_free_reaped t s; Ok (inl s) end.

Definition reap_kernel_zombies (s : Sched) : res Sched := bloop SCHED_FUEL reap_step s.

(** [canary] says that the words at the base of the kernel stack are intact. *)
Definition scheduler_schedule (canary : bool) (s : Sched) : res Sched :=
  if g_current_proc s =? 0 then Ok s
  else if negb canary then Panic "Stack overflow detected!"
  else
    s ← scheduler_schedule_internal s;
    reap_kernel_zombies s.

(** * Exit and waiting for children *)

(** The children get [init] as their parent; the result is the last child. *)
Definition adopt_step (st : Z * Sched) : res (Z * Sched + Z * Sched) :=
  let '(last, s) := st in
  s ← update last (set_parent_pid 1) s;
  x ← fetch last s;
  if sibling_next x =? 0 then Ok (inr (last, s)) else Ok (inl (sibling_next x, s)).

Definition adopt_children (s : Sched) : res Sched :=
  let cur := g_current_proc s in
  x ← fetch cur s;
  if children_list x =? 0 then Ok s
  else
    init ← list_find (λ _ x, pid x =? 1) s;
    s ← (match init with
         | None => Ok s
         | Some i =>
             '(last, s) ← bloop SCHED_FUEL adopt_step (children_list x, s);
             ix ← fetch i s;
             s ← update last (set_sibling_next (children_list ix)) s;
             x ← fetch cur s;
             update i (set_children_list (children_list x)) s
         end);
    update cur (set_children_list 0) s.

(** The parent is woken and told the status. *)
Definition tell_parent (status : Z) (s : Sched) : res Sched :=
  x ← fetch (g_current_proc s) s;
  parent ← list_find (λ _ y, pid y =? parent_pid x) s;
  match parent with
  | None => Ok s
  | Some q =>
      y ← fetch q s;
      s ← (if bool_decide (state y = Waiting) && (wait_for_pid y =? 0) then scheduler_wake_process q s else Ok s);
      update q (λ y, set_exec_exit_status status (set_exec_done true y)) s
  end.

Definition process_exit (status : Z) (s : Sched) : res Sched :=
  let cur := g_current_proc s in
  s ← update cur (λ x, set_exit_status status (set_state Zombie x)) s;
  s ← adopt_children s;
  s ← wait_queue_wake_all (QChild cur) s;
  s ← tell_parent status s;
  scheduler_schedule_internal s.

(** One pass of [process_waitpid]: the result and the status that is stored, or [None] when
    the caller waits and then makes another pass. [n] is -1 for any child. *)
Definition waitpid_block (n : Z) (s : Sched) : res (option (Z * option Z) * Sched) :=
  let cur := g_current_proc s in
  if n =? -1 then
    s ← update cur (λ x, set_wait_for_pid 0 (set_state Waiting x)) s;
    s ← scheduler_schedule_internal s;
    Ok (None, s)
  else
    x ← fetch cur s;
    c ← child_find (λ _ y, pid y =? u64 n) (children_list x) s;
    match c with
    | None => Ok (Some (-1, None), s)
    | Some (_, child) =>
        s ← wait_queue_push (QChild child) cur s;
        s ← scheduler_schedule_internal s;
        Ok (None, s)
    end.

Definition waitpid_nohang (n : Z) (s : Sched) : res (option (Z * option Z) * Sched) :=
  x ← fetch (g_current_proc s) s;
  if children_list x =? 0 then Ok (Some (-1, None), s)
  else if n =? -1 then Ok (Some (0, None), s)
  else
    c ← child_find (λ _ y, pid y =? u64 n) (children_list x) s;
    match c with None => Ok (Some (-1, None), s) | Some _ => Ok (Some (0, None), s) end.

Definition waitpid_reap (prev target : Z) (s : Sched) : res (option (Z * option Z) * Sched) :=
  t ← fetch target s;
  s ← unlink_child (g_current_proc s) prev target s;
  pv ← bloop SCHED_FUEL (prev_step target s) (g_proc_list s);
  y ← fetch pv s;
  s ← (if next y =? target then unlink_process pv target s else Ok s);
  s ← process_free_reaped target s;
  Ok (Some (pid t, Some (exit_status t)), s).

Definition process_waitpid (n : Z) (nohang : bool) (s : Sched) : res (option (Z * option Z) * Sched) :=
  x ← fetch (g_current_proc s) s;
  target ← child_find (λ _ y, bool_decide (state y = Zombie) && ((n =? -1) || (u64 n =? pid y))) (children_list x) s;
  match target with
  | Some (prev, t) => waitpid_reap prev t s
  | None => if nohang then waitpid_nohang n s else waitpid_block n s
  end.

(** * Other *)

Definition notify_step (st : Z * Sched) : res (Z * Sched + Sched) :=
  let '(p, s) := st in
  s ← wait_queue_wake_all (QEvent p) s;
  x ← fetch p s;
  if next x =? g_proc_list s then Ok (inr s) else Ok (inl (next x, s)).

Definition scheduler_notify_input_waiters (s : Sched) : res Sched :=
  if g_proc_list s =? 0 then Ok s else bloop SCHED_FUEL notify_step (g_proc_list s, s).

Definition preempt_disable (s : Sched) : res Sched :=
  if g_current_proc s =? 0 then Ok s else update (g_current_proc s) (λ x, set_preempt_count (u32 (preempt_count x + 1)) x) s.

(** Whether the caller yields. *)
Definition preempt_enable (s : Sched) : res (bool * Sched) :=
  if g_current_proc s =? 0 then Ok (false, s)
  else
    x ← fetch (g_current_proc s) s;
    let count := if 0 <? preempt_count x then preempt_count x - 1 else preempt_count x in
    let yield := (count =? 0) && preempt_pending x in
    s ← update (g_current_proc s) (λ x, set_preempt_pending (preempt_pending x && negb yield) (set_preempt_count count x)) s;
    Ok (yield, s).

Definition shutdown_mark_user_processes_zombie (s : Sched) : res Sched :=
  if g_proc_list s =? 0 then Ok s
  else bloop SCHED_FUEL
    (λ '(p, s),
      x ← fetch p s;
      s ← (if (1 <? pid x) && negb (p =? g_current_proc s) then update p (set_state Zombie) s else Ok s);
      if next x =? g_proc_list s then Ok (inr s) else Ok (inl (next x, s)))
    (g_proc_list s, s).
