(* ===== verification/SchedInv.v ===== *)
(** The queues of the scheduler (Sched.v): every process is on at most one queue, the one
    its state says, and the linked lists hold exactly the processes they should. *)

From S2P Require Import Prelude Sched.

#[local] Strategy opaque [bloop].

(** * Linked lists *)

Fixpoint chain (nx : Z → Z) (h : Z) (l : list Z) : Prop :=
  match l with
  | [] => h = 0
  | p :: l' => h = p ∧ p ≠ 0 ∧ chain nx (nx p) l'
  end.

Definition last0 (l : list Z) : Z := List.last l 0.

Section chains.
Implicit Types (nx : Z → Z) (l : list Z).

Lemma chain_ext nx nx' h l : (∀ p, p ∈ l → nx' p = nx p) → chain nx h l → chain nx' h l.
Proof.
  revert h. induction l as [|p l IH]; intros h E; [done|]. intros (-> & Hp & Hl). split; [done|]. split; [done|]. rewrite E by left. apply IH; [|done].
  intros q Hq. apply E. by right.
Qed.

Lemma chain_nil nx l : chain nx 0 l → l = [].
Proof. destruct l; [done|]. intros (E & Hp & _). congruence. Qed.

Lemma chain_cons nx h l : h ≠ 0 → chain nx h l → ∃ l', l = h :: l' ∧ chain nx (nx h) l'.
Proof. destruct l as [|p l]; [done|]. intros _ (-> & _ & Hl). by exists l. Qed.

Lemma last0_snoc l p : last0 (l ++ [p]) = p.
Proof. unfold last0. apply last_last. Qed.

Lemma last0_elem l : l ≠ [] → last0 l ∈ l.
Proof. intros Hl. destruct (exists_last Hl) as (l' & p & ->). rewrite last0_snoc. apply elem_of_app. right. left. Qed.

Lemma last0_cons p l : l ≠ [] → last0 (p :: l) = last0 l.
Proof. by destruct l. Qed.

Lemma last0_app l1 l2 : l2 ≠ [] → last0 (l1 ++ l2) = last0 l2.
Proof. intros Hl. destruct (exists_last Hl) as (l' & p & ->). by rewrite (assoc_L (++)), !last0_snoc. Qed.

Lemma chain_last nx h l : chain nx h l → (l = [] ↔ last0 l = 0).
Proof.
  intros Hl. split; [by intros ->|]. intros E. destruct (decide (l = [])) as [|Hn]; [done|]. pose proof (last0_elem l Hn) as Hin. rewrite E in Hin. exfalso.
  clear E Hn. revert h Hl. induction l as [|p l IH]; [by apply not_elem_of_nil in Hin|]. intros h (-> & Hp & Hl). apply elem_of_cons in Hin as [Hq|Hq]; [congruence|by eapply IH].
Qed.

Lemma chain_split nx h l1 p l2 : chain nx h (l1 ++ p :: l2) → p ≠ 0 ∧ chain nx (nx p) l2 ∧ (l1 = [] → h = p) ∧ (l1 ≠ [] → h ≠ 0 ∧ nx (last0 l1) = p).
Proof.
  revert h. induction l1 as [|q l1 IH]; intros h.
  - intros (-> & Hp & Hl). done.
  - intros (-> & Hq & Hl). destruct (IH _ Hl) as (H1 & H2 & H3 & H4). split; [done|]. split; [done|]. split; [done|]. intros _. split; [done|].
    destruct l1 as [|r l1]; [by apply H3|]. rewrite last0_cons by done. by apply H4.
Qed.

(** A new end for a list. *)
Lemma chain_graft nx nx' h l1 l2 h2 l2' :
  chain nx h (l1 ++ l2) → NoDup l1 → (∀ q, q ∈ l1 → q ≠ last0 l1 → nx' q = nx q) → (l1 ≠ [] → nx' (last0 l1) = h2) → chain nx' h2 l2' →
  chain nx' (if decide (l1 = []) then h2 else h) (l1 ++ l2').
Proof.
  revert h. induction l1 as [|p l1 IH]; intros h Hc Hnd E Hlast Hl2; [done|]. cbn [app] in *. destruct (decide (p :: l1 = [])) as [|_]; [done|].
  destruct Hc as (-> & Hp & Hc). apply NoDup_cons in Hnd as [Hpl Hnd]. split; [done|]. split; [done|]. destruct l1 as [|q l1].
  - cbn [app]. specialize (Hlast ltac:(done)). change (last0 [p]) with p in Hlast. by rewrite Hlast.
  - rewrite E; [|left|intros Heq; apply Hpl; rewrite last0_cons in Heq by done; rewrite Heq; by apply last0_elem].
    specialize (IH _ Hc Hnd). destruct (decide (q :: l1 = [])) as [|_]; [done|]. apply IH; [|by intros _; rewrite <-(last0_cons p) by done; apply Hlast|done].
    intros r Hr Hne. apply E; [by right|by rewrite last0_cons].
Qed.
End chains.

(** * The queues *)

Inductive QKey := KReady (i : nat) | KSleep | KWait (q : WaitQueueId).

#[export] Instance QKey_eq_dec : EqDecision QKey.
Proof. solve_decision. Defined.

Definition khead (s : Sched) (k : QKey) : Z :=
  match k with KReady i => nth i (g_ready_queues s) 0 | KSleep => g_sleep_queue s | KWait q => head (wait_queues s q) end.
Definition ktail (s : Sched) (k : QKey) : Z :=
  match k with KReady i => nth i (g_ready_tails s) 0 | KSleep => 0 | KWait q => tail (wait_queues s q) end.

Definition nx (s : Sched) (p : Z) : Z := match procs s !! p with Some x => queue_next x | None => 0 end.

(** What the rest of the kernel sees of the place of a process. *)
Definition vis (x : Process) : ProcessState * option WaitQueueId := (state x, waiting_queue x).
Definition look (s : Sched) (p : Z) : option (ProcessState * option WaitQueueId) := vis <$> procs s !! p.
Definition kview (k : QKey) : ProcessState * option WaitQueueId :=
  match k with KReady _ => (Ready, None) | KSleep => (Sleeping, None) | KWait q => (Waiting, Some q) end.

(** A process that is on no queue. *)
Definition off_queue (s : Sched) (p : Z) (v : ProcessState * option WaitQueueId) : Prop :=
  (v = (Running, None) ∧ p = g_current_proc s) ∨ v = (Zombie, None) ∨ v = (Waiting, None).

Definition proc_ok (p : Z) (x : Process) : Prop := 0 < p < 2 ^ 64 ∧ 0 <= priority x.

(** [L k] are the processes of queue [k] in order; [ex] is a process that is being moved, 0
    for none. *)
Record qinv (ex : Z) (s : Sched) (L : QKey → list Z) : Prop := {
  qi_levels : length (g_ready_queues s) = 3%nat ∧ length (g_ready_tails s) = 3%nat;
  qi_chain k : chain (nx s) (khead s k) (L k);
  qi_tail k : k ≠ KSleep → ktail s k = last0 (L k);
  qi_dup k : NoDup (L k);
  qi_uniq k k' p : p ∈ L k → p ∈ L k' → k = k';
  qi_mem k p : p ∈ L k → look s p = Some (kview k);
  qi_ex k : ex ∉ L k;
  qi_where p v : p ≠ ex → look s p = Some v → (∃ k, p ∈ L k) ∨ off_queue s p v;
  qi_proc p x : procs s !! p = Some x → proc_ok p x;
  qi_live q p : p ∈ L (KWait q) → queue_live q s = true
}.

Lemma live_mono s s' q : (∀ p, is_Some (procs s !! p) → is_Some (procs s' !! p)) → queue_live q s = true → queue_live q s' = true.
Proof. intros Hd. destruct q; cbn; try done; intros Hq%bool_decide_eq_true; apply bool_decide_eq_true; by apply Hd. Qed.

Definition ins (k : QKey) (l : list Z) (L : QKey → list Z) : QKey → list Z := λ k', if decide (k' = k) then l else L k'.

Lemma ins_eq k l L : ins k l L k = l.
Proof. unfold ins. by rewrite decide_True. Qed.
Lemma ins_ne k k' l L : k' ≠ k → ins k l L k' = L k'.
Proof. intros H. unfold ins. by rewrite decide_False. Qed.

(** One queue changes: [ex] may have joined it and [ex'] may have left it. *)
Lemma qinv_change ex ex' k0 l' s s' L :
  qinv ex s L →
  length (g_ready_queues s') = 3%nat ∧ length (g_ready_tails s') = 3%nat →
  (∀ k, k ≠ k0 → khead s' k = khead s k ∧ ktail s' k = ktail s k) →
  (∀ k q, k ≠ k0 → q ∈ L k → nx s' q = nx s q) →
  chain (nx s') (khead s' k0) l' → (k0 ≠ KSleep → ktail s' k0 = last0 l') → NoDup l' →
  (∀ q, q ∈ l' → q ≠ ex' ∧ (q ∈ L k0 ∨ q = ex ∧ look s' q = Some (kview k0))) →
  (∀ q, q ∈ L k0 → q ∈ l' ∨ q = ex') →
  (ex ≠ 0 → ex ≠ ex' → ex ∈ l' ∨ ∃ v, look s' ex = Some v ∧ off_queue s' ex v) →
  (ex' = 0 ∨ ex' = ex ∨ ex' ∈ L k0) →
  (∀ q, q ≠ ex → q ≠ ex' → look s' q = look s q) → g_current_proc s' = g_current_proc s →
  (∀ q x, procs s' !! q = Some x → proc_ok q x) →
  (∀ p, is_Some (procs s !! p) → is_Some (procs s' !! p)) →
  (∀ q p, k0 = KWait q → p ∈ l' → queue_live q s' = true) →
  qinv ex' s' (ins k0 l' L).
Proof.
  intros [I1 I2 I3 I4 I5 I6 I7 I8 I9 I10] Hlen Hk Hnx Hc Ht Hnd Hin Hout Hex Hex' Hlook Hcur Hproc Hdom Hlive.
  assert (Hother : ∀ k q, k ≠ k0 → q ∈ L k → q ≠ ex ∧ q ≠ ex').
  { intros k q Hne Hq. split; [intros ->; by apply (I7 k)|]. intros ->. destruct Hex' as [->|[->|Hx]]; [| |by apply Hne, (I5 k k0 ex')].
    - pose proof (I6 k 0 Hq) as E. unfold look in E. destruct (procs s !! 0) as [x|] eqn:Ex; [|done]. destruct (I9 _ _ Ex). lia.
    - by apply (I7 k). }
  assert (Hsub : ∀ k q, q ∈ ins k0 l' L k → q ≠ ex').
  { intros k q Hq. destruct (decide (k = k0)) as [->|Hne]; [rewrite ins_eq in Hq; by apply Hin|rewrite ins_ne in Hq by done; by apply (Hother k)]. }
  assert (Huniq : ∀ k q, k ≠ k0 → q ∈ L k → q ∉ l').
  { intros k q Hne Hq Hq'. destruct (proj2 (Hin q Hq')) as [Hq0|[-> _]]; [by apply Hne, (I5 k k0 q)|by apply (I7 k)]. }
  split; [done|..].
  - intros k. destruct (decide (k = k0)) as [->|Hne]; [by rewrite ins_eq|]. rewrite ins_ne by done. rewrite (proj1 (Hk k Hne)). apply (chain_ext (nx s)); [|apply I2]. intros p Hp. by apply (Hnx k).
  - intros k Hks. destruct (decide (k = k0)) as [->|Hne]; [by rewrite ins_eq, Ht|]. rewrite ins_ne by done. rewrite (proj2 (Hk k Hne)). by apply I3.
  - intros k. destruct (decide (k = k0)) as [->|Hne]; [by rewrite ins_eq|]. rewrite ins_ne by done. apply I4.
  - intros k k' p. destruct (decide (k = k0)) as [->|Hne], (decide (k' = k0)) as [->|Hne']; rewrite ?ins_eq, ?ins_ne by done; intros Hp Hp'; [done| | |by eapply I5].
    + exfalso. by apply (Huniq k' p).
    + exfalso. by apply (Huniq k p).
  - intros k p Hp. destruct (decide (k = k0)) as [->|Hne]; [rewrite ins_eq in Hp|rewrite ins_ne in Hp by done].
    + destruct (Hin p Hp) as [Hp' [Hp0|[-> E]]]; [|done]. rewrite Hlook; [by apply I6| |done]. intros ->. by apply (I7 k0).
    + destruct (Hother k p Hne Hp). rewrite Hlook by done. by apply I6.
  - intros k Hq. by apply (Hsub k ex').
  - intros p v Hp Hv. destruct (decide (p = ex)) as [->|Hpe].
    + assert (ex ≠ 0). { intros ->. unfold look in Hv. destruct (procs s' !! 0) as [x|] eqn:Ex; [|done]. destruct (Hproc _ _ Ex). lia. }
      destruct Hex as [Hl|(v' & E & Ho)]; [done|done| |].
      * left. exists k0. by rewrite ins_eq.
      * right. rewrite E in Hv. by injection Hv as <-.
    + rewrite Hlook in Hv by done. destruct (I8 p v Hpe Hv) as [[k Hk']|Ho].
      * left. destruct (decide (k = k0)) as [->|Hne]; [|exists k; by rewrite ins_ne]. exists k0. rewrite ins_eq. by destruct (Hout p Hk').
      * right. unfold off_queue in *. by rewrite Hcur.
  - done.
  - intros q p. destruct (decide (KWait q = k0)) as [<-|Hne]; [rewrite ins_eq; by apply Hlive|rewrite ins_ne by done].
    intros Hp. apply (live_mono s); [done|]. by apply (I10 q p).
Qed.

Lemma qinv_frame ex s s' L :
  qinv ex s L → length (g_ready_queues s') = 3%nat ∧ length (g_ready_tails s') = 3%nat →
  (∀ k, khead s' k = khead s k ∧ ktail s' k = ktail s k) → (∀ k q, q ∈ L k → nx s' q = nx s q) →
  (∀ q, q ≠ ex → look s' q = look s q) → g_current_proc s' = g_current_proc s → (∀ q x, procs s' !! q = Some x → proc_ok q x) →
  (∀ p, is_Some (procs s !! p) → is_Some (procs s' !! p)) → qinv ex s' L.
Proof.
  intros [I1 I2 I3 I4 I5 I6 I7 I8 I9 I10] Hlen Hk Hnx Hlook Hcur Hproc Hdom. split; try done.
  - intros k. rewrite (proj1 (Hk k)). apply (chain_ext (nx s)); [|apply I2]. intros q Hq. by apply (Hnx k).
  - intros k Hks. rewrite (proj2 (Hk k)). by apply I3.
  - intros k p Hp. rewrite Hlook; [by apply I6|]. intros ->. by apply (I7 k).
  - intros p v Hp Hv. rewrite Hlook in Hv by done. destruct (I8 p v Hp Hv) as [Hq|Ho]; [by left|right]. unfold off_queue in *. by rewrite Hcur.
  - intros q p Hp. apply (live_mono s); [done|]. by apply (I10 q p).
Qed.

Lemma qinv_mark p s L : qinv 0 s L → (∀ k, p ∉ L k) → qinv p s L.
Proof.
  intros [I1 I2 I3 I4 I5 I6 I7 I8 I9 I10] Hp. split; try done. intros q v Hq Hv. apply I8; [|done]. intros ->. unfold look in Hv.
  destruct (procs s !! 0) as [x|] eqn:E; [|done]. destruct (I9 _ _ E). lia.
Qed.

Lemma qinv_unmark p s L : qinv p s L → (∀ v, look s p = Some v → off_queue s p v) → qinv 0 s L.
Proof.
  intros [I1 I2 I3 I4 I5 I6 I7 I8 I9 I10] Hp. split; try done.
  - intros k Hk. pose proof (I6 k 0 Hk) as Hv. unfold look in Hv. destruct (procs s !! 0) as [x|] eqn:E; [|done]. destruct (I9 _ _ E). lia.
  - intros q v _ Hv. destruct (decide (q = p)) as [->|]; [right; by apply Hp|by apply I8].
Qed.

Lemma qinv_nonzero ex s L k p : qinv ex s L → p ∈ L k → 0 < p < 2 ^ 64.
Proof.
  intros I Hp. pose proof (qi_mem _ _ _ I k p Hp) as Hv. unfold look in Hv. destruct (procs s !! p) as [x|] eqn:E; [|done]. apply (qi_proc _ _ _ I _ _ E).
Qed.

Lemma qinv_off s L p v : qinv 0 s L → look s p = Some v → (∀ k, v ≠ kview k) → ∀ k, p ∉ L k.
Proof. intros I Hv Hn k Hp. rewrite (qi_mem _ _ _ I k p Hp) in Hv. injection Hv as <-. by apply (Hn k). Qed.

Lemma queue_length ex s L k : qinv ex s L → Z.of_nat (length (L k)) < 2 ^ 64.
Proof.
  intros I. assert (H0 : 0 ∉ L k) by (intros Hp; pose proof (qinv_nonzero _ _ _ _ _ I Hp); lia).
  pose proof (NoDup_bound (0 :: L k) (2 ^ 64) ltac:(constructor; [done|apply I])) as Hb. cbn [length] in Hb.
  assert (Hx : ∀ x, x ∈ 0 :: L k → 0 <= x < 2 ^ 64) by (intros x [->|Hp]%elem_of_cons; [lia|pose proof (qinv_nonzero _ _ _ _ _ I Hp); lia]).
  specialize (Hb Hx). lia.
Qed.

(** What a step of the queues leaves alone. *)
Definition rest (x : Process) : Z * Z * Z * Z * Z * Z * Z * Z * Z :=
  (pid x, parent_pid x, exit_status x, page_table x, vma_list x, stack_phys x, children_list x, sibling_next x, next x).

Record rest_same (s s' : Sched) : Prop := {
  rs_proc p : rest <$> procs s' !! p = rest <$> procs s !! p;
  rs_list : g_proc_list s' = g_proc_list s;
  rs_tail : g_proc_tail s' = g_proc_tail s;
  rs_next_pid : g_next_pid s' = g_next_pid s;
  rs_now : g_now s' = g_now s;
  rs_released : released s' = released s
}.

Lemma rest_refl s : rest_same s s.
Proof. done. Qed.

Lemma rest_trans s1 s2 s3 : rest_same s1 s2 → rest_same s2 s3 → rest_same s1 s3.
Proof. intros [A1 A2 A3 A4 A5 A6] [B1 B2 B3 B4 B5 B6]. split; [intros p; by rewrite B1|congruence..]. Qed.

Lemma rest_live s s' p : rest_same s s' → is_Some (procs s !! p) → is_Some (procs s' !! p).
Proof. intros R [x E]. pose proof (rs_proc _ _ R p) as Hp. rewrite E in Hp. destruct (procs s' !! p); [by eexists|done]. Qed.

(** Single updates. *)
Lemma update_Ok p f s x : procs s !! p = Some x → update p f s = Ok (with_procs (<[p := f x]> (procs s)) s).
Proof. intros E. unfold update. by rewrite E. Qed.

Lemma fetch_Ok p s x : procs s !! p = Some x → fetch p s = Ok x.
Proof. intros E. unfold fetch. by rewrite E. Qed.

Lemma look_Some s p v : look s p = Some v → ∃ x, procs s !! p = Some x ∧ vis x = v.
Proof. unfold look. destruct (procs s !! p) as [x|]; [|done]. intros [= <-]. by exists x. Qed.

Lemma nx_insert p y s q : nx (with_procs (<[p := y]> (procs s)) s) q = if decide (q = p) then queue_next y else nx s q.
Proof. unfold nx. cbn [procs with_procs]. case_decide as E; [subst; by rewrite lookup_insert_eq|]. by rewrite lookup_insert_ne. Qed.

Lemma look_insert p y s q : look (with_procs (<[p := y]> (procs s)) s) q = if decide (q = p) then Some (vis y) else look s q.
Proof. unfold look. cbn [procs with_procs]. case_decide as E; [subst; by rewrite lookup_insert_eq|]. by rewrite lookup_insert_ne. Qed.

Lemma procs_insert_ok p y s : (∀ q x, procs s !! q = Some x → proc_ok q x) → proc_ok p y → ∀ q x, procs (with_procs (<[p := y]> (procs s)) s) !! q = Some x → proc_ok q x.
Proof. intros Hp Hy q x. cbn [procs with_procs]. destruct (decide (q = p)) as [->|]; [rewrite lookup_insert_eq; by intros [= <-]|rewrite lookup_insert_ne by done; apply Hp]. Qed.

Lemma live_insert p y s q : is_Some (procs s !! q) → is_Some (procs (with_procs (<[p := y]> (procs s)) s) !! q).
Proof. cbn [procs with_procs]. intros Hq. destruct (decide (q = p)) as [->|]; [rewrite lookup_insert_eq; by eexists|by rewrite lookup_insert_ne]. Qed.

Lemma rest_insert p x y s : procs s !! p = Some x → rest y = rest x → rest_same s (with_procs (<[p := y]> (procs s)) s).
Proof.
  intros Hx E. split; try done. intros q. cbn [procs with_procs]. destruct (decide (q = p)) as [->|]; [|by rewrite lookup_insert_ne].
  rewrite lookup_insert_eq, Hx. cbn. by rewrite E.
Qed.

(** A field that is no link and no state. *)
Lemma qinv_field ex s L p x y :
  qinv ex s L → procs s !! p = Some x → queue_next y = queue_next x → (vis y = vis x ∨ p = ex) → 0 <= priority y →
  qinv ex (with_procs (<[p := y]> (procs s)) s) L.
Proof.
  intros I Hx Hn Hv Hp. apply (qinv_frame ex s); [done|apply I|done| | |done| |].
  - intros k q Hq. rewrite nx_insert. case_decide as E; [|done]. subst q. unfold nx. by rewrite Hx.
  - intros q Hq. rewrite look_insert. case_decide as E; [|done]. subst q. destruct Hv as [Hv|Hv]; [|congruence]. unfold look. rewrite Hx. cbn. by rewrite Hv.
  - apply procs_insert_ok; [apply I|]. split; [apply (qi_proc _ _ _ I _ _ Hx)|done].
  - intros q. apply live_insert.
Qed.

(** ** Ready queues *)

Definition level (x : Process) : nat := Z.to_nat (if NUM_PRIORITY_LEVELS <=? priority x then NUM_PRIORITY_LEVELS - 1 else priority x).

Lemma level_lt x : 0 <= priority x → (level x < 3)%nat.
Proof. unfold level, NUM_PRIORITY_LEVELS. intros. destruct (Z.leb_spec 3 (priority x)); lia. Qed.

Lemma nth_insert_ne {A} i j (v d : A) l : i ≠ j → nth i (<[j := v]> l) d = nth i l d.
Proof. intros Hne. rewrite !nth_lookup. by rewrite list_lookup_insert_ne. Qed.
Lemma nth_insert_eq {A} i (v d : A) l : (i < length l)%nat → nth i (<[i := v]> l) d = v.
Proof. intros Hi. rewrite nth_lookup. by rewrite list_lookup_insert_eq. Qed.

Lemma arr_get_level (l : list Z) i : (i < length l)%nat → arr_get l (Z.of_nat i) = Ok (nth i l 0).
Proof. intros Hi. apply arr_get_Ok. rewrite Nat2Z.id. split; [lia|]. destruct (lookup_lt_is_Some_2 l i Hi) as [v Hv]. rewrite Hv. by rewrite (nth_lookup_Some _ _ _ _ Hv). Qed.
Lemma arr_set_level (l : list Z) i v : (i < length l)%nat → arr_set l (Z.of_nat i) v = Ok (<[i := v]> l).
Proof. intros Hi. unfold arr_set. destruct (Z.leb_spec 0 (Z.of_nat i)), (Z.ltb_spec (Z.of_nat i) (Z.of_nat (length l))); try lia. by rewrite Nat2Z.id. Qed.

(** Everything a push changes besides the queue. *)
Record pushed (s s' : Sched) : Prop := {
  ps_rest : rest_same s s';
  ps_cur : g_current_proc s' = g_current_proc s;
  ps_look q : look s' q = look s q;
  ps_wake q : wake_time <$> procs s' !! q = wake_time <$> procs s !! q;
  ps_queues : wait_queues s' = wait_queues s;
  ps_sleep : g_sleep_queue s' = g_sleep_queue s;
  ps_tick : g_last_sleep_tick s' = g_last_sleep_tick s
}.

Lemma pushed_insert p x y s : procs s !! p = Some x → rest y = rest x → vis y = vis x → wake_time y = wake_time x → pushed s (with_procs (<[p := y]> (procs s)) s).
Proof.
  intros Hx Hr Hv Hw. split; try done; [by apply (rest_insert p x)|..].
  - intros q. rewrite look_insert. case_decide as E; [|done]. subst. unfold look. rewrite Hx. cbn. by rewrite Hv.
  - intros q. cbn [procs with_procs]. destruct (decide (q = p)) as [->|]; [rewrite lookup_insert_eq, Hx; cbn; by rewrite Hw|by rewrite lookup_insert_ne].
Qed.

Lemma pushed_trans s1 s2 s3 : pushed s1 s2 → pushed s2 s3 → pushed s1 s3.
Proof.
  intros [A1 A2 A3 A4 A5 A6 A7] [B1 B2 B3 B4 B5 B6 B7]. split; [by eapply rest_trans|congruence|intros q; by rewrite B3|intros q; by rewrite B4|congruence..].
Qed.

Lemma pushed_ready h t s : pushed s (with_ready h t s).
Proof. by split. Qed.

Lemma insert_alter_id (m : gmap Z Process) p x g : m !! p = Some x → alter g p m = <[p := g x]> m.
Proof. intros Hx. apply map_eq. intros q. destruct (decide (q = p)) as [->|]; [by rewrite lookup_alter_eq, lookup_insert_eq, Hx|by rewrite lookup_alter_ne, lookup_insert_ne]. Qed.

(** [p] joins queue [k0] at the end. *)
Lemma qinv_append p k0 s s' L :
  qinv p s L → k0 ≠ KSleep → look s' p = Some (kview k0) → p ≠ 0 →
  length (g_ready_queues s') = 3%nat ∧ length (g_ready_tails s') = 3%nat → (∀ k, k ≠ k0 → khead s' k = khead s k ∧ ktail s' k = ktail s k) →
  khead s' k0 = (if decide (L k0 = []) then p else khead s k0) → ktail s' k0 = p →
  (∀ q, nx s' q = if decide (q = p) then 0 else if decide (L k0 ≠ [] ∧ q = last0 (L k0)) then p else nx s q) →
  (∀ q, q ≠ p → look s' q = look s q) → g_current_proc s' = g_current_proc s → (∀ q x, procs s' !! q = Some x → proc_ok q x) →
  (∀ q, is_Some (procs s !! q) → is_Some (procs s' !! q)) → (∀ q, k0 = KWait q → queue_live q s = true) → qinv 0 s' (ins k0 (L k0 ++ [p]) L).
Proof.
  intros I Hks Hv Hp0 Hlen Hk Hh Ht N Hlook Hcur Hproc Hdom Hlive.
  assert (Hex : ∀ k q, q ∈ L k → q ≠ p) by (intros k q Hq ->; by apply (qi_ex _ _ _ I) in Hq).
  apply (qinv_change p 0 k0 (L k0 ++ [p]) s s' L I); try done.
  - intros k q Hne Hq. rewrite N, (decide_False (P := q = p)) by (by eapply Hex). rewrite decide_False; [done|]. intros [Hn ->]. apply Hne. apply (qi_uniq _ _ _ I k k0 (last0 (L k0))); [done|by apply last0_elem].
  - rewrite Hh. apply (chain_graft (nx s) (nx s') (khead s k0) (L k0) [] p [p]); [rewrite app_nil_r; apply I|apply I| | |].
    + intros q Hq Hqt. rewrite N, (decide_False (P := q = p)) by (by eapply Hex). rewrite decide_False; [done|]. by intros [_ ?].
    + intros Hn. rewrite N, (decide_False (P := last0 (L k0) = p)) by (eapply Hex; by apply last0_elem). by rewrite decide_True.
    + split; [done|]. split; [done|]. by rewrite N, decide_True.
  - intros _. by rewrite last0_snoc.
  - apply NoDup_app. split; [apply I|]. split; [|apply NoDup_singleton]. intros q Hq ->%list_elem_of_singleton. by apply (Hex k0 p).
  - intros q [Hq| ->%list_elem_of_singleton]%elem_of_app; [|split; [done|]; by right].
    split; [pose proof (qinv_nonzero _ _ _ _ _ I Hq); lia|by left].
  - intros q Hq. left. apply elem_of_app. by left.
  - intros _ _. left. apply elem_of_app. right. left.
  - by left.
  - intros q Hq _. by apply Hlook.
  - intros q r -> _. apply (live_mono s); [done|]. by apply Hlive.
Qed.

(** The processes after [p] has been linked behind [t], 0 for an empty queue. *)
Definition appended (t p : Z) (y : Process) (m : gmap Z Process) : gmap Z Process :=
  if t =? 0 then <[p := y]> m else alter (set_queue_next p) t (<[p := y]> m).

Lemma appended_facts t p x y s s' : procs s !! p = Some x → t ≠ p → (t ≠ 0 → is_Some (procs s !! t)) → procs s' = appended t p y (procs s) → rest y = rest x → priority y = priority x →
  (∀ q, nx s' q = if decide (q = p) then queue_next y else if decide (t ≠ 0 ∧ q = t) then p else nx s q) ∧
  (∀ q, look s' q = if decide (q = p) then Some (vis y) else look s q) ∧ (∀ q, rest <$> procs s' !! q = rest <$> procs s !! q) ∧ (∀ q, priority <$> procs s' !! q = priority <$> procs s !! q) ∧
  (∀ q, q ≠ p → wake_time <$> procs s' !! q = wake_time <$> procs s !! q).
Proof.
  intros Hx Ht Hl E Hr Hp. assert (El : ∀ q, procs s' !! q = if decide (q = p) then Some y else if decide (t ≠ 0 ∧ q = t) then set_queue_next p <$> procs s !! q else procs s !! q).
  { intros q. rewrite E. unfold appended. destruct (Z.eqb_spec t 0) as [->|Ht0].
    - destruct (decide (q = p)) as [->|]; [by rewrite lookup_insert_eq|]. rewrite lookup_insert_ne by done. rewrite decide_False; [done|tauto].
    - destruct (decide (q = p)) as [->|]; [rewrite lookup_alter_ne by done; by rewrite lookup_insert_eq|]. case_decide as Hq.
      + destruct Hq as [_ ->]. by rewrite lookup_alter_eq, lookup_insert_ne.
      + rewrite lookup_alter_ne, lookup_insert_ne by (done || (intros <-; tauto)). done. }
  split_and!; intros q; unfold nx, look; rewrite El.
  - destruct (decide (q = p)); [done|]. destruct (decide (t ≠ 0 ∧ q = t)) as [[H0 ->]|]; [|done]. by destruct (Hl H0) as [z ->].
  - destruct (decide (q = p)); [done|]. destruct (decide (t ≠ 0 ∧ q = t)); [|done]. by destruct (procs s !! q).
  - destruct (decide (q = p)) as [->|]; [rewrite Hx; cbn; by rewrite <-Hr|]. destruct (decide (t ≠ 0 ∧ q = t)); [by destruct (procs s !! q)|done].
  - destruct (decide (q = p)) as [->|]; [rewrite Hx; cbn; by rewrite <-Hp|]. destruct (decide (t ≠ 0 ∧ q = t)); [by destruct (procs s !! q)|done].
  - intros Hq. rewrite decide_False by done. destruct (decide (t ≠ 0 ∧ q = t)); [by destruct (procs s !! q)|done].
Qed.

Lemma qinv_link p k0 s s' L x y :
  qinv p s L → k0 ≠ KSleep → procs s !! p = Some x → procs s' = appended (last0 (L k0)) p y (procs s) → rest y = rest x → priority y = priority x → queue_next y = 0 → vis y = kview k0 →
  length (g_ready_queues s') = 3%nat ∧ length (g_ready_tails s') = 3%nat → (∀ k, k ≠ k0 → khead s' k = khead s k ∧ ktail s' k = ktail s k) →
  khead s' k0 = (if decide (L k0 = []) then p else khead s k0) → ktail s' k0 = p → g_current_proc s' = g_current_proc s → (∀ q, k0 = KWait q → queue_live q s = true) →
  qinv 0 s' (ins k0 (L k0 ++ [p]) L) ∧ (∀ q, look s' q = if decide (q = p) then Some (vis y) else look s q) ∧ (∀ q, rest <$> procs s' !! q = rest <$> procs s !! q) ∧
  (∀ q, q ≠ p → wake_time <$> procs s' !! q = wake_time <$> procs s !! q).
Proof.
  intros I Hks Hx Epr Hr Hpr Hny Hvy Hlen Hk Hh Ht Hcur Hlive. pose proof (qi_proc _ _ _ I _ _ Hx) as [Hp0 _]. pose proof (qi_chain _ _ _ I k0) as Hc.
  assert (E0 : last0 (L k0) ≠ 0 ↔ L k0 ≠ []) by (pose proof (chain_last _ _ _ Hc); tauto).
  assert (Hin : L k0 ≠ [] → last0 (L k0) ∈ L k0) by apply last0_elem.
  assert (Htp : last0 (L k0) ≠ p). { intros E. destruct (decide (L k0 = [])) as [En|Hn]; [rewrite En in E; cbn in E; lia|]. specialize (Hin Hn). rewrite E in Hin. by apply (qi_ex _ _ _ I) in Hin. }
  destruct (appended_facts (last0 (L k0)) p x y s s' Hx Htp) as (F1 & F2 & F3 & F4 & F5); try done.
  { intros Hn. apply E0 in Hn. destruct (look_Some _ _ _ (qi_mem _ _ _ I _ _ (Hin Hn))) as (z & Hz & _). by exists z. }
  split_and!; [|done|done|done]. apply (qinv_append p k0 s s'); try done.
  - rewrite F2, decide_True by done. by rewrite Hvy.
  - lia.
  - intros q. rewrite F1. repeat case_decide; try done; tauto.
  - intros q Hq. rewrite F2. by rewrite decide_False.
  - intros q z Hz. pose proof (F4 q) as E. rewrite Hz in E. destruct (procs s !! q) as [w|] eqn:Hw; [|done]. injection E as E. destruct (qi_proc _ _ _ I _ _ Hw). split; [done|]. by rewrite E.
  - intros q [z Hz]. pose proof (F3 q) as E. rewrite Hz in E. destruct (procs s' !! q); [by eexists|done].
Qed.

Lemma ready_queue_push_spec p s L x :
  qinv p s L → procs s !! p = Some x → vis x = (Ready, None) →
  ∃ s', ready_queue_push p s = Ok s' ∧ qinv 0 s' (ins (KReady (level x)) (L (KReady (level x)) ++ [p]) L) ∧ pushed s s'.
Proof.
  intros I Hx Hv. pose proof (qi_proc _ _ _ I _ _ Hx) as [Hp0 Hpr]. pose proof (level_lt x Hpr) as Hi. pose proof (qi_levels _ _ _ I) as [Hl1 Hl2]. set (k0 := KReady (level x)).
  unfold ready_queue_push. rewrite (fetch_Ok _ _ _ Hx). step. rewrite (update_Ok _ _ _ _ Hx). step. set (s1 := with_procs _ s).
  assert (Ei : (if NUM_PRIORITY_LEVELS <=? priority x then NUM_PRIORITY_LEVELS - 1 else priority x) = Z.of_nat (level x)).
  { unfold level. rewrite Z2Nat.id; [done|]. unfold NUM_PRIORITY_LEVELS. destruct (Z.leb_spec 3 (priority x)); lia. }
  rewrite Ei, arr_get_level by (cbn; lia). step. assert (Et : nth (level x) (g_ready_tails s1) 0 = last0 (L k0)) by (apply (qi_tail _ _ _ I k0); done). rewrite Et.
  pose proof (chain_last _ _ _ (qi_chain _ _ _ I k0)) as Hcl.
  assert (Hpush : ∃ s', (if last0 (L k0) =? 0 then heads ← arr_set (g_ready_queues s1) (Z.of_nat (level x)) p; tails ← arr_set (g_ready_tails s1) (Z.of_nat (level x)) p; Ok (with_ready heads tails s1)
      else s2 ← update (last0 (L k0)) (set_queue_next p) s1; tails ← arr_set (g_ready_tails s2) (Z.of_nat (level x)) p; Ok (with_ready (g_ready_queues s2) tails s2)) = Ok s' ∧
      s' = with_ready (if decide (L k0 = []) then <[level x := p]> (g_ready_queues s) else g_ready_queues s) (<[level x := p]> (g_ready_tails s)) (with_procs (appended (last0 (L k0)) p (set_queue_next 0 x) (procs s)) s)).
  { unfold appended. destruct (Z.eqb_spec (last0 (L k0)) 0) as [E0|Hn0].
    - rewrite !arr_set_level by (cbn; lia). step. eexists. split; [done|]. rewrite decide_True by tauto. done.
    - assert (Hne : L k0 ≠ []) by tauto. pose proof (last0_elem _ Hne) as Hin. destruct (look_Some _ _ _ (qi_mem _ _ _ I _ _ Hin)) as (xt & Hxt & _).
      assert (Hxt1 : procs s1 !! last0 (L k0) = Some xt) by (unfold s1; cbn; rewrite lookup_insert_ne; [done|]; intros E; rewrite <-E in Hin; by apply (qi_ex _ _ _ I) in Hin).
      rewrite (update_Ok _ _ _ _ Hxt1). step. rewrite arr_set_level by (cbn; lia). step. eexists. split; [done|]. rewrite decide_False by tauto.
      unfold s1 in Hxt1. cbn [procs with_procs] in Hxt1. rewrite (insert_alter_id _ _ _ (set_queue_next p) Hxt1). done. }
  destruct Hpush as (s' & -> & Es'). exists s'. split; [done|].
  destruct (qinv_link p k0 s s' L x (set_queue_next 0 x) I) as (Q1 & Q2 & Q3 & Q4); try (by rewrite Es'); try done.
  - rewrite Es'. cbn. case_decide; by rewrite !length_insert.
  - intros k Hk. rewrite Es'. destruct k as [i| |q]; [|done|done]. assert (i ≠ level x) by (intros ->; done). cbn. case_decide; rewrite !nth_insert_ne by done; done.
  - rewrite Es'. cbn. case_decide; [by rewrite nth_insert_eq by lia|done].
  - rewrite Es'. cbn. by rewrite nth_insert_eq by lia.
  - split; [done|]. split; [split; [apply Q3|by rewrite Es'..]|by rewrite Es'| | |by rewrite Es'..].
    + intros q. rewrite Q2. destruct (decide (q = p)) as [->|]; [|done]. unfold look. by rewrite Hx.
    + intros q. destruct (decide (q = p)) as [->|]; [|by apply Q4]. rewrite Es'. cbn. unfold appended. destruct (Z.eqb_spec (last0 (L k0)) 0) as [E0|Hn0]; [by rewrite lookup_insert_eq, Hx|].
      rewrite lookup_alter_ne; [by rewrite lookup_insert_eq, Hx|]. intros E. assert (Hne : L k0 ≠ []) by tauto. pose proof (last0_elem _ Hne) as Hin. rewrite E in Hin. by apply (qi_ex _ _ _ I) in Hin.
Qed.

Lemma pop_level_spec i s L :
  qinv 0 s L → (i < 3)%nat →
  (L (KReady i) = [] ∧ pop_level (Z.of_nat i) (None, s) = Ok (None, s)) ∨
  ∃ p l s', L (KReady i) = p :: l ∧ pop_level (Z.of_nat i) (None, s) = Ok (Some p, s') ∧ qinv p s' (ins (KReady i) l L) ∧ pushed s s'.
Proof.
  intros I Hi. pose proof (qi_levels _ _ _ I) as [Hl1 Hl2]. set (k0 := KReady i). unfold pop_level. rewrite arr_get_level by lia. step.
  change (nth i (g_ready_queues s) 0) with (khead s k0). pose proof (qi_chain _ _ _ I k0) as Hc. destruct (Z.eqb_spec (khead s k0) 0) as [E0|Hn0].
  { left. split; [|done]. rewrite E0 in Hc. by apply chain_nil in Hc. }
  right. destruct (chain_cons _ _ _ Hn0 Hc) as (l & El & Hl). set (p := khead s k0) in *. assert (Hp : p ∈ L k0) by (rewrite El; left).
  destruct (look_Some _ _ _ (qi_mem _ _ _ I _ _ Hp)) as (x & Hx & Hv). exists p, l. rewrite (fetch_Ok _ _ _ Hx). step. rewrite (arr_set_level (g_ready_queues s)) by lia. step.
  pose proof (qi_dup _ _ _ I k0) as Hnd. rewrite El in Hnd. apply NoDup_cons in Hnd as [Hpl Hnd].
  set (heads := <[i := queue_next x]> (g_ready_queues s)). set (tails := if queue_next x =? 0 then <[i := 0]> (g_ready_tails s) else g_ready_tails s).
  assert (Etl : (if queue_next x =? 0 then arr_set (g_ready_tails s) (Z.of_nat i) 0 else Ok (g_ready_tails s)) = Ok tails).
  { unfold tails. destruct (Z.eqb_spec (queue_next x) 0); [by apply arr_set_level; lia|done]. }
  rewrite Etl. step. rewrite (update_Ok p _ (with_ready heads tails s) x Hx). step. set (s1 := with_ready heads tails s). set (s2 := with_procs _ s1). exists s2. split; [done|]. split; [done|].
  assert (P1 : pushed s1 s2) by (by apply (pushed_insert p x)).
  assert (N2 : ∀ q, nx s2 q = if decide (q = p) then 0 else nx s q) by (intros q; unfold s2; rewrite nx_insert; done).
  assert (Enx : nx s p = queue_next x) by (unfold nx; by rewrite Hx). split; [|by eapply pushed_trans; [apply pushed_ready|exact P1]].
  apply (qinv_change 0 p k0 l s s2 L I); try done.
  - split; [unfold s2, s1, heads; cbn; by rewrite length_insert|]. unfold s2, s1, tails. cbn. destruct (queue_next x =? 0); [by rewrite length_insert|done].
  - intros k Hk. destruct k as [j| |q]; [|done|done]. assert (Hj : j ≠ i) by (intros ->; done). unfold s2, s1, heads, tails. cbn.
    destruct (queue_next x =? 0); rewrite ?nth_insert_ne by done; done.
  - intros k q Hk Hq. rewrite N2, decide_False; [done|]. intros ->. apply Hk. by apply (qi_uniq _ _ _ I k k0 p).
  - assert (Eh : khead s2 k0 = queue_next x) by (unfold s2, s1, heads; cbn; by rewrite nth_insert_eq by lia). rewrite Eh, <-Enx. apply (chain_ext (nx s)); [|done].
    intros q Hq. rewrite N2, decide_False; [done|]. by intros ->.
  - intros _. unfold s2, s1, tails. cbn. pose proof (qi_tail _ _ _ I k0 ltac:(done)) as Ht. cbn in Ht. rewrite El in Ht. rewrite Enx in Hl. destruct (Z.eqb_spec (queue_next x) 0) as [Eq|Hq].
    + rewrite Eq in Hl. apply chain_nil in Hl. subst l. by rewrite nth_insert_eq by lia.
    + rewrite Ht. apply last0_cons. intros ->. done.
  - intros q Hq. split; [by intros ->|]. left. rewrite El. by right.
  - intros q Hq. rewrite El in Hq. apply elem_of_cons in Hq as [->|Hq]; [by right|by left].
  - right. by right.
  - intros q _ _. rewrite (ps_look _ _ P1). done.
  - apply procs_insert_ok; [apply I|]. split; [by apply (qinv_nonzero _ _ _ _ _ I Hp)|]. apply (qi_proc _ _ _ I _ _ Hx).
  - intros q Hq. by apply (live_insert p _ s1).
Qed.

(** The next process is the head of the first queue that is not empty. *)
Lemma ready_queue_pop_spec s L :
  qinv 0 s L →
  ((∀ i, L (KReady i) = []) ∧ ready_queue_pop s = Ok (0, s)) ∨
  ∃ i p l s', (∀ j, (j < i)%nat → L (KReady j) = []) ∧ L (KReady i) = p :: l ∧ ready_queue_pop s = Ok (p, s') ∧ qinv p s' (ins (KReady i) l L) ∧ pushed s s'.
Proof.
  intros I. unfold ready_queue_pop. change (Z.to_nat NUM_PRIORITY_LEVELS) with 3%nat. cbn [for_upto].
  assert (Hsome : ∀ i p s', pop_level i (Some p, s') = Ok (Some p, s')) by done.
  destruct (pop_level_spec 0 s L I ltac:(lia)) as [[E0 E]|(p & l & s' & El & E & I' & P')]; change (Z.of_nat 0) with 0 in E; rewrite E; step.
  2:{ right. exists 0%nat, p, l, s'. rewrite !Hsome. step. rewrite !Hsome. step. split; [lia|]. done. }
  destruct (pop_level_spec 1 s L I ltac:(lia)) as [[E1 Ep]|(p & l & s' & El & Ep & I' & P')]; change (Z.of_nat 1) with (0 + 1) in Ep; rewrite Ep; step.
  2:{ right. exists 1%nat, p, l, s'. rewrite !Hsome. step. split; [intros j Hj; by replace j with 0%nat by lia|]. done. }
  destruct (pop_level_spec 2 s L I ltac:(lia)) as [[E2 Eq]|(p & l & s' & El & Eq & I' & P')]; change (Z.of_nat 2) with (0 + 1 + 1) in Eq; rewrite Eq; step.
  2:{ right. exists 2%nat, p, l, s'. split; [intros [|[|j]] Hj; [done|done|lia]|]. done. }
  left. split; [|done]. intros [|[|[|i]]]; [done|done|done|]. pose proof (qi_chain _ _ _ I (KReady (S (S (S i))))) as Hc. cbn [khead] in Hc.
  rewrite nth_overflow in Hc by (pose proof (qi_levels _ _ _ I); lia). by apply chain_nil in Hc.
Qed.

(** ** Removal *)

Lemma chain_remove f f' h l1 p l2 :
  chain f h (l1 ++ p :: l2) → NoDup (l1 ++ p :: l2) → (∀ q, q ∈ l1 → q ≠ last0 l1 → f' q = f q) → (l1 ≠ [] → f' (last0 l1) = f p) → (∀ q, q ∈ l2 → f' q = f q) →
  chain f' (if decide (l1 = []) then f p else h) (l1 ++ l2).
Proof.
  intros Hc Hnd H1 H2 H3. apply NoDup_app in Hnd as (Hnd & _ & _). apply (chain_graft f f' h l1 (p :: l2)); [done|done|done|done|]. apply (chain_ext f); [done|].
  by apply (chain_split _ _ _ _ _ Hc).
Qed.

Lemma last0_remove l1 p l2 : NoDup (l1 ++ p :: l2) → last0 (l1 ++ l2) = if decide (last0 (l1 ++ p :: l2) = p) then last0 l1 else last0 (l1 ++ p :: l2).
Proof.
  intros Hnd. rewrite (last0_app l1 (p :: l2)) by done. destruct l2 as [|q l2]; [by rewrite app_nil_r, decide_True|]. rewrite (last0_app l1 (q :: l2)), (last0_cons p (q :: l2)) by done.
  rewrite decide_False; [done|]. intros E. apply NoDup_app in Hnd as (_ & _ & Hnd). apply NoDup_cons in Hnd as [Hn _]. apply Hn. rewrite <-E. by apply last0_elem.
Qed.

Lemma find_prev_spec p s h l :
  chain (nx s) h l → NoDup l → Z.of_nat (length l) < 2 ^ 64 → (∀ q, q ∈ l → is_Some (procs s !! q)) →
  ((p ∉ l) ∧ find_prev p h s = Ok None) ∨ ∃ l1 l2, l = l1 ++ p :: l2 ∧ find_prev p h s = Ok (Some (last0 l1)).
Proof.
  intros Hc Hnd Hlen Hin.
  destruct (bloop_rule (λ n (st : Z * Z), ∃ l1 l2, l = l1 ++ l2 ∧ (p ∉ l1) ∧ st.1 = last0 l1 ∧ chain (nx s) st.2 l2 ∧ n = Z.of_nat (length l2))
     (λ r : option Z, ((p ∉ l) ∧ r = None) ∨ ∃ l1 l2, l = l1 ++ p :: l2 ∧ r = Some (last0 l1)) (find_prev_step p s)) with SCHED_FUEL (Z.of_nat (length l)) (0, h) as (r & E & Hr).
  - intros n st (l1 & l2 & _ & _ & _ & _ & ->). lia.
  - intros n [prev curr] (l1 & l2 & El & Hp & Epv & Hc2 & ->). cbn [fst snd] in *. subst prev. unfold find_prev_step. destruct (Z.eqb_spec curr 0) as [->|Hn0].
    { apply chain_nil in Hc2. subst l2. rewrite app_nil_r in El. subst l. eexists. split; [done|]. by left. }
    destruct (chain_cons _ _ _ Hn0 Hc2) as (l3 & -> & Hc3). destruct (Z.eqb_spec curr p) as [->|Hne]; [eexists; split; [done|]; right; by exists l1, l3|].
    destruct (Hin curr ltac:(rewrite El; apply elem_of_app; right; left)) as [x Hx]. rewrite (fetch_Ok _ _ _ Hx). step. eexists. split; [done|]. exists (Z.of_nat (length l3)).
    split; [simpl; lia|]. exists (l1 ++ [curr]), l3. cbn [fst snd]. split; [by rewrite <-(assoc_L (++))|].
    split; [apply not_elem_of_app; split; [done|]; by intros ->%list_elem_of_singleton|]. split; [by rewrite last0_snoc|]. split; [|done]. unfold nx in Hc3. by rewrite Hx in Hc3.
  - exists [], l. cbn [fst snd]. split; [done|]. split; [apply not_elem_of_nil|]. done.
  - unfold SCHED_FUEL. lia.
  - unfold find_prev. rewrite E. destruct Hr as [[Hp ->]|(l1 & l2 & El & ->)]; [by left|right; by exists l1, l2].
Qed.

Lemma queue_live_procs ex s L k q : qinv ex s L → q ∈ L k → is_Some (procs s !! q).
Proof. intros I Hq. destruct (look_Some _ _ _ (qi_mem _ _ _ I _ _ Hq)) as (x & Hx & _). by exists x. Qed.

(** [p] leaves queue [k0]. *)
Lemma qinv_remove p k0 l1 l2 s s' L x :
  qinv 0 s L → L k0 = l1 ++ p :: l2 → procs s !! p = Some x →
  length (g_ready_queues s') = 3%nat ∧ length (g_ready_tails s') = 3%nat → (∀ k, k ≠ k0 → khead s' k = khead s k ∧ ktail s' k = ktail s k) →
  khead s' k0 = (if decide (l1 = []) then queue_next x else khead s k0) →
  (k0 ≠ KSleep → ktail s' k0 = if decide (last0 (L k0) = p) then last0 l1 else last0 (L k0)) →
  (∀ q, nx s' q = if decide (q = p) then 0 else if decide (l1 ≠ [] ∧ q = last0 l1) then queue_next x else nx s q) →
  (∀ q, q ≠ p → look s' q = look s q) → g_current_proc s' = g_current_proc s → (∀ q x, procs s' !! q = Some x → proc_ok q x) →
  (∀ p, is_Some (procs s !! p) → is_Some (procs s' !! p)) → qinv p s' (ins k0 (l1 ++ l2) L).
Proof.
  intros I El Hx Hlen Hk Hh Ht N Hlook Hcur Hproc Hdom. pose proof (qi_chain _ _ _ I k0) as Hc. pose proof (qi_dup _ _ _ I k0) as Hnd.
  assert (Enx : nx s p = queue_next x) by (unfold nx; by rewrite Hx). assert (Hpk : p ∈ L k0) by (rewrite El; apply elem_of_app; right; left). rewrite El in Hc, Hnd.
  pose proof Hnd as (Hn1 & Hn2 & Hn3)%NoDup_app. pose proof Hn3 as [Hpl2 Hnd2]%NoDup_cons.
  assert (Hpl1 : p ∉ l1) by (intros Hq; apply (Hn2 p Hq); left).
  assert (Hlast : l1 ≠ [] → last0 l1 ∈ L k0 ∧ (last0 l1 ∉ l2)).
  { intros Hn. pose proof (last0_elem l1 Hn) as Hin. split; [rewrite El; apply elem_of_app; by left|]. intros Hq. apply (Hn2 _ Hin). by right. }
  assert (Hsub : ∀ q, q ∈ l1 ++ l2 → q ∈ L k0 ∧ q ≠ p).
  { intros q Hq. rewrite El. apply elem_of_app in Hq as [Hq|Hq]; (split; [|by intros ->]); apply elem_of_app; [by left|right; by right]. }
  apply (qinv_change 0 p k0 (l1 ++ l2) s s' L I); try done.
  - intros k q Hne Hq. rewrite N, decide_False, decide_False; [done|..].
    + intros [Hn ->]. apply Hne, (qi_uniq _ _ _ I k k0 (last0 l1)); [done|by apply Hlast].
    + intros ->. by apply Hne, (qi_uniq _ _ _ I k k0 p).
  - rewrite Hh, <-Enx. apply (chain_remove (nx s)); [done|done| | |].
    + intros q Hq Hne. rewrite N, decide_False, decide_False; [done|intros [_ ?]; done|by intros ->].
    + intros Hn. rewrite N, decide_False, decide_True; [done|done|]. intros E. apply Hpl1. rewrite <-E. by apply last0_elem.
    + intros q Hq. rewrite N, decide_False, decide_False; [done|intros [Hn ->]; by apply (Hlast Hn)|by intros ->].
  - intros Hs. rewrite (Ht Hs), (last0_remove l1 p l2 Hnd), <-El. done.
  - apply NoDup_app. split; [done|]. split; [|done]. intros q Hq Hq2. apply (Hn2 q Hq). by right.
  - intros q Hq. split; [by apply Hsub|left; by apply Hsub].
  - intros q Hq. rewrite El in Hq. apply elem_of_app in Hq as [Hq|Hq]; [left; apply elem_of_app; by left|]. apply elem_of_cons in Hq as [->|Hq]; [by right|left; apply elem_of_app; by right].
  - right. by right.
  - intros q _ Hq. by apply Hlook.
  - intros q r -> Hr. apply (live_mono s); [done|]. apply (qi_live _ _ _ I q p). by rewrite El; apply elem_of_app; right; left.
Qed.

(** The predecessor is 0 exactly at the front. *)
Lemma prev_front s L k l1 p l2 : qinv 0 s L → L k = l1 ++ p :: l2 → (last0 l1 = 0 ↔ l1 = []) ∧ (l1 ≠ [] → (last0 l1 ∈ L k) ∧ last0 l1 ≠ p).
Proof.
  intros I El. pose proof (qi_dup _ _ _ I k) as Hnd. rewrite El in Hnd. apply NoDup_app in Hnd as (_ & Hnd & _).
  assert (Hin : l1 ≠ [] → last0 l1 ∈ L k) by (intros Hn; rewrite El; apply elem_of_app; left; by apply last0_elem). split; [split; [|by intros ->]|].
  - intros E0. destruct (decide (l1 = [])) as [|Hn]; [done|]. pose proof (qinv_nonzero _ _ _ _ _ I (Hin Hn)). lia.
  - intros Hn. split; [by apply Hin|]. intros E. apply (Hnd (last0 l1)); [by apply last0_elem|rewrite E; left].
Qed.

(** The processes after the links of [p] and of its predecessor have changed. *)
Definition unlinked (l1 : list Z) (p : Z) (x : Process) (f : Process → Process) (m : gmap Z Process) : gmap Z Process :=
  <[p := set_queue_next 0 (f x)]> (if decide (l1 = []) then m else alter (set_queue_next (queue_next x)) (last0 l1) m).

Lemma unlinked_lookup l1 p x f m q : m !! p = Some x → (l1 ≠ [] → last0 l1 ≠ p) →
  unlinked l1 p x f m !! q = if decide (q = p) then Some (set_queue_next 0 (f x)) else if decide (l1 ≠ [] ∧ q = last0 l1) then set_queue_next (queue_next x) <$> m !! q else m !! q.
Proof.
  intros Hx Hl. unfold unlinked. destruct (decide (q = p)) as [->|Hq]; [by rewrite lookup_insert_eq|]. rewrite lookup_insert_ne by done. destruct (decide (l1 = [])) as [->|Hn]; [by rewrite decide_False by tauto|].
  case_decide as Hq2; [destruct Hq2 as [_ ->]; by rewrite lookup_alter_eq|]. rewrite lookup_alter_ne; [done|]. intros E. by apply Hq2.
Qed.

Lemma unlinked_facts l1 p x f s s' : procs s !! p = Some x → (l1 ≠ [] → last0 l1 ≠ p) → procs s' = unlinked l1 p x f (procs s) → rest (f x) = rest x → (f x = x ∨ priority (f x) = priority x) →
  (∀ q, nx s' q = if decide (q = p) then 0 else if decide (l1 ≠ [] ∧ q = last0 l1) then (if procs s !! q is Some _ then queue_next x else 0) else nx s q) ∧
  (∀ q, q ≠ p → look s' q = look s q) ∧ (∀ q, rest <$> procs s' !! q = rest <$> procs s !! q) ∧ (∀ q, priority <$> procs s' !! q = priority <$> procs s !! q) ∧
  (∀ q, q ≠ p → wake_time <$> procs s' !! q = wake_time <$> procs s !! q).
Proof.
  intros Hx Hl E Hr Hp. split_and!; intros q; unfold nx, look; rewrite E, (unlinked_lookup l1 p x f (procs s) q Hx Hl).
  - repeat case_decide; try done. by destruct (procs s !! q).
  - intros Hq. rewrite decide_False by done. case_decide; [|done]. by destruct (procs s !! q).
  - repeat case_decide; [subst; rewrite Hx; cbn; by rewrite <-Hr|by destruct (procs s !! q)|done].
  - repeat case_decide; [subst; rewrite Hx; cbn; destruct Hp as [->| ->]; done|by destruct (procs s !! q)|done].
  - intros Hq. rewrite decide_False by done. case_decide; [by destruct (procs s !! q)|done].
Qed.

Lemma qinv_unlink p k0 l1 l2 s s' L x f :
  qinv 0 s L → L k0 = l1 ++ p :: l2 → procs s !! p = Some x → procs s' = unlinked l1 p x f (procs s) → rest (f x) = rest x → priority (f x) = priority x →
  length (g_ready_queues s') = 3%nat ∧ length (g_ready_tails s') = 3%nat → (∀ k, k ≠ k0 → khead s' k = khead s k ∧ ktail s' k = ktail s k) →
  khead s' k0 = (if decide (l1 = []) then queue_next x else khead s k0) →
  (k0 ≠ KSleep → ktail s' k0 = if decide (last0 (L k0) = p) then last0 l1 else last0 (L k0)) → g_current_proc s' = g_current_proc s →
  qinv p s' (ins k0 (l1 ++ l2) L) ∧ (∀ q, q ≠ p → look s' q = look s q) ∧ (∀ q, rest <$> procs s' !! q = rest <$> procs s !! q) ∧
  (∀ q, q ≠ p → wake_time <$> procs s' !! q = wake_time <$> procs s !! q) ∧ procs s' !! p = Some (set_queue_next 0 (f x)).
Proof.
  intros I El Hx Epr Hr Hpr Hlen Hk Hh Ht Hcur. destruct (prev_front s L k0 l1 p l2 I El) as [_ Hl1]. assert (Hl : l1 ≠ [] → last0 l1 ≠ p) by (intros Hn; by apply Hl1).
  destruct (unlinked_facts l1 p x f s s' Hx Hl Epr Hr (or_intror Hpr)) as (F1 & F2 & F3 & F4 & F5).
  assert (Hdom : ∀ q, is_Some (procs s !! q) → is_Some (procs s' !! q)).
  { intros q [y Hy]. pose proof (F3 q) as E. rewrite Hy in E. destruct (procs s' !! q); [by eexists|done]. }
  split_and!; [|done|done|done|rewrite Epr, unlinked_lookup by done; by rewrite decide_True]. apply (qinv_remove p k0 l1 l2 s s' L x); try done.
  - intros q. rewrite F1. destruct (decide (q = p)); [done|]. destruct (decide (l1 ≠ [] ∧ q = last0 l1)) as [Hq|]; [|done]. destruct Hq as [Hn ->]. destruct (queue_live_procs _ _ _ _ _ I (proj1 (Hl1 Hn))) as [y Hy]. by rewrite Hy.
  - intros q y Hy. pose proof (F4 q) as E. rewrite Hy in E. destruct (procs s !! q) as [z|] eqn:Hz; [|done]. injection E as E. destruct (qi_proc _ _ _ I _ _ Hz). split; [done|]. by rewrite E.
Qed.

Lemma remove_level_spec p i s L :
  qinv 0 s L → (i < 3)%nat →
  ((p ∉ L (KReady i)) ∧ remove_level p (Z.of_nat i) (false, s) = Ok (false, s)) ∨
  ∃ l1 l2 s', L (KReady i) = l1 ++ p :: l2 ∧ remove_level p (Z.of_nat i) (false, s) = Ok (true, s') ∧ qinv p s' (ins (KReady i) (l1 ++ l2) L) ∧ pushed s s'.
Proof.
  intros I Hi. pose proof (qi_levels _ _ _ I) as [Hl1 Hl2]. set (k0 := KReady i).
  assert (Hc : chain (nx s) (nth i (g_ready_queues s) 0) (L k0)) by apply (qi_chain _ _ _ I k0). pose proof (qi_dup _ _ _ I k0) as Hnd.
  assert (Eg : arr_get (g_ready_queues s) (Z.of_nat i) = Ok (nth i (g_ready_queues s) 0)) by (apply arr_get_level; lia).
  destruct (find_prev_spec p s _ _ Hc Hnd (queue_length _ _ _ k0 I)) as [[Hp E]|(l1 & l2 & El & E)]; [intros q Hq; by apply (queue_live_procs _ _ _ k0 q I)|left; split; [done|]; unfold remove_level; step_with Eg; step_with E; done|].
  right. exists l1, l2. unfold remove_level. step_with Eg. step_with E. assert (Hp : p ∈ L k0) by (rewrite El; apply elem_of_app; right; left). destruct (look_Some _ _ _ (qi_mem _ _ _ I _ _ Hp)) as (x & Hx & Hv).
  rewrite (fetch_Ok _ _ _ Hx). step. destruct (prev_front s L k0 l1 p l2 I El) as [Hf Hf']. set (pv := last0 l1) in *.
  set (heads := if decide (l1 = []) then <[i := queue_next x]> (g_ready_queues s) else g_ready_queues s).
  set (m := if decide (l1 = []) then procs s else alter (set_queue_next (queue_next x)) pv (procs s)).
  set (s1 := with_procs m (with_ready heads (g_ready_tails s) s)).
  assert (E1 : (if pv =? 0 then heads ← arr_set (g_ready_queues s) (Z.of_nat i) (queue_next x); Ok (with_ready heads (g_ready_tails s) s)
                else update pv (set_queue_next (queue_next x)) s) = Ok s1).
  { unfold s1, m, heads. destruct (Z.eqb_spec pv 0) as [E0|Hn0]; case_decide as Hd; try tauto; [rewrite arr_set_level by lia; done|].
    destruct (queue_live_procs _ _ _ _ _ I (proj1 (Hf' Hd))) as [y Hy]. rewrite (update_Ok _ _ _ _ Hy), (insert_alter_id _ _ _ _ Hy). by destruct s. }
  step_with E1. change (g_ready_tails s1) with (g_ready_tails s). rewrite arr_get_level by lia. step.
  pose proof (qi_tail _ _ _ I k0 ltac:(done)) as Ht. cbn [ktail k0] in Ht. rewrite Ht.
  set (tails := if decide (last0 (L k0) = p) then <[i := pv]> (g_ready_tails s) else g_ready_tails s). set (s2 := with_ready heads tails s1).
  assert (E2 : (if last0 (L k0) =? p then tails ← arr_set (g_ready_tails s) (Z.of_nat i) pv; Ok (with_ready (g_ready_queues s1) tails s1) else Ok s1) = Ok s2).
  { unfold s2, tails. destruct (Z.eqb_spec (last0 (L k0)) p); [rewrite decide_True, arr_set_level by (done || lia); done|]. by rewrite decide_False. }
  step_with E2. assert (Hx2 : procs s2 !! p = Some x).
  { cbn. unfold m. case_decide as Hd; [done|]. rewrite lookup_alter_ne; [done|]. by apply Hf'. }
  rewrite (update_Ok _ _ _ _ Hx2). step. set (s3 := with_procs _ s2). exists s3. split; [done|]. split; [done|].
  destruct (qinv_unlink p k0 l1 l2 s s3 L x id I El Hx) as (Q1 & Q2 & Q3 & Q4 & Q5); try done.
  - split; cbn; [unfold heads; case_decide; [by rewrite length_insert|done]|unfold tails; case_decide; [by rewrite length_insert|done]].
  - intros k Hk. destruct k as [j| |q]; [|done|done]. assert (Hj : j ≠ i) by (intros ->; done). cbn. unfold heads, tails. split; case_decide; rewrite ?nth_insert_ne by done; done.
  - cbn. unfold heads. case_decide; [by rewrite nth_insert_eq by lia|done].
  - intros _. cbn. unfold tails. case_decide; [by rewrite nth_insert_eq by lia|done].
  - split; [done|]. split; try done.
    + intros q. destruct (decide (q = p)) as [->|]; [unfold look; by rewrite Q5, Hx|by apply Q2].
    + intros q. destruct (decide (q = p)) as [->|]; [by rewrite Q5, Hx|by apply Q4].
Qed.
