(* ===== verification/SchedOps.v ===== *)
(** The operations on the queues of the scheduler (Sched.v): waiting, waking and priority
    changes keep every process on the one queue its state says. *)

From S2P Require Import Prelude Sched SchedInv.

#[local] Strategy opaque [bloop].

(** * What waking changes *)

Definition asleep (v : ProcessState * option WaitQueueId) : Prop := v.1 = Waiting ∨ v.1 = Sleeping.

(** Exactly the processes [W] become ready, and they were asleep. *)
Record woken (W : list Z) (s s' : Sched) : Prop := {
  wk_rest : rest_same s s';
  wk_cur : g_current_proc s' = g_current_proc s;
  wk_look q : look s' q = if decide (q ∈ W) then Some (Ready, None) else look s q;
  wk_asleep q : q ∈ W → ∃ v, look s q = Some v ∧ asleep v
}.

(** The sleepers are left alone. *)
Record sleep_same (s s' : Sched) : Prop := {
  ss_wake q : wake_time <$> procs s' !! q = wake_time <$> procs s !! q;
  ss_sleep : g_sleep_queue s' = g_sleep_queue s;
  ss_tick : g_last_sleep_tick s' = g_last_sleep_tick s
}.

Lemma sleep_refl s : sleep_same s s.
Proof. done. Qed.

Lemma sleep_trans s1 s2 s3 : sleep_same s1 s2 → sleep_same s2 s3 → sleep_same s1 s3.
Proof. intros [A1 A2 A3] [B1 B2 B3]. split; [intros q; by rewrite B1|congruence..]. Qed.

Lemma pushed_sleep s s' : pushed s s' → sleep_same s s'.
Proof. intros [A1 A2 A3 A4 A5 A6 A7]. done. Qed.

Lemma pushed_woken s s' : pushed s s' → woken [] s s'.
Proof. intros [A1 A2 A3 A4 A5 A6 A7]. split; [done|done|intros q; rewrite A3, decide_False; [done|apply not_elem_of_nil]|]. intros q Hq. by apply not_elem_of_nil in Hq. Qed.

Lemma woken_refl s : woken [] s s.
Proof. by apply pushed_woken. Qed.

Lemma woken_trans W1 W2 s1 s2 s3 : woken W1 s1 s2 → woken W2 s2 s3 → woken (W1 ++ W2) s1 s3.
Proof.
  intros [A1 A2 A3 A4] [B1 B2 B3 B4]. split; [by eapply rest_trans|congruence|..].
  - intros q. rewrite B3, A3. destruct (decide (q ∈ W2)), (decide (q ∈ W1)); [rewrite decide_True..|rewrite decide_False]; rewrite ?elem_of_app; tauto.
  - intros q Hq. destruct (decide (q ∈ W1)) as [H1|H1]; [by apply A4|]. apply elem_of_app in Hq as [?|Hq]; [done|]. destruct (B4 q Hq) as (v & E & Hv). rewrite A3, decide_False in E by done. by exists v.
Qed.

(** * Making a process ready *)

Lemma boost_spec ex p s L x :
  qinv ex s L → procs s !! p = Some x →
  ∃ s' x', interactive_boost_if_needed p s = Ok s' ∧ qinv ex s' L ∧ pushed s s' ∧ procs s' !! p = Some x' ∧ vis x' = vis x ∧ (∀ q, q ≠ p → procs s' !! q = procs s !! q).
Proof.
  intros I Hx. unfold interactive_boost_if_needed. rewrite (fetch_Ok _ _ _ Hx). step. case_match.
  - rewrite (update_Ok _ _ _ _ Hx). eexists _, _. split; [done|]. split; [by apply (qinv_field _ _ _ p x); [| | |left| ]|]. split; [by apply (pushed_insert p x)|].
    cbn [procs with_procs]. split; [by rewrite lookup_insert_eq|]. split; [done|]. intros q Hq. by rewrite lookup_insert_ne.
  - exists s, x. split_and!; done.
Qed.

Lemma make_ready_spec p s L :
  qinv p s L → look s p = Some (Waiting, None) →
  ∃ s' i, make_ready p s = Ok s' ∧ qinv 0 s' (ins (KReady i) (L (KReady i) ++ [p]) L) ∧ woken [p] s s' ∧ sleep_same s s' ∧ wait_queues s' = wait_queues s.
Proof.
  intros I Hv. destruct (look_Some _ _ _ Hv) as (x & Hx & Ev). injection Ev as Est Ewq. unfold make_ready. rewrite (fetch_Ok _ _ _ Hx). step. rewrite decide_True by (by left).
  rewrite (update_Ok _ _ _ _ Hx). step. set (s1 := with_procs _ s).
  assert (I1 : qinv p s1 L) by (apply (qinv_field _ _ _ p x); [done|done|done|by right|apply (qi_proc _ _ _ I _ _ Hx)]).
  assert (Hx1 : procs s1 !! p = Some (set_state Ready x)) by (unfold s1; cbn; by rewrite lookup_insert_eq).
  destruct (boost_spec p p s1 L _ I1 Hx1) as (s2 & x2 & E2 & I2 & P2 & Hx2 & V2 & O2). step_with E2.
  destruct (ready_queue_push_spec p s2 L x2 I2 Hx2) as (s3 & E3 & I3 & P3); [rewrite V2; unfold vis; cbn; by rewrite Ewq|].
  rewrite E3. exists s3, (level x2). split; [done|]. split; [done|]. pose proof (pushed_trans _ _ _ P2 P3) as P. split; [|split; [|by rewrite (ps_queues _ _ P)]].
  - split; [eapply rest_trans; [|apply P]; by apply (rest_insert p x)|by rewrite (ps_cur _ _ P)|..].
    + intros q. rewrite (ps_look _ _ P). unfold s1. rewrite look_insert. destruct (decide (q = p)) as [->|Hq]; [rewrite decide_True by left; unfold vis; cbn; by rewrite Ewq|].
      rewrite decide_False; [done|]. by intros ->%list_elem_of_singleton.
    + intros q ->%list_elem_of_singleton. exists (Waiting, None). split; [done|]. by left.
  - eapply sleep_trans; [|by apply pushed_sleep]. split; [|done..]. intros q. cbn. destruct (decide (q = p)) as [->|]; [by rewrite lookup_insert_eq, Hx|by rewrite lookup_insert_ne].
Qed.

(** ** Nothing here looks at the wait queues *)

Section queues.
Implicit Types (w : WaitQueueId → WaitQueue) (s : Sched).

Lemma update_queues p f w s : update p f (with_queues w s) = with_queues w <$> update p f s.
Proof. unfold update. cbn. by destruct (procs s !! p). Qed.

Lemma boost_queues p w s : interactive_boost_if_needed p (with_queues w s) = with_queues w <$> interactive_boost_if_needed p s.
Proof.
  unfold interactive_boost_if_needed. change (fetch p (with_queues w s)) with (fetch p s). destruct (fetch p s) as [x| |]; [|done..]. step. cbn [g_wm_pid g_focus_pid with_queues].
  case_match; [apply update_queues|done].
Qed.

Lemma push_queues p w s : ready_queue_push p (with_queues w s) = with_queues w <$> ready_queue_push p s.
Proof.
  unfold ready_queue_push. change (fetch p (with_queues w s)) with (fetch p s). destruct (fetch p s) as [x| |]; [|done..]. step. rewrite update_queues. destruct (update p _ s) as [s1| |]; [|done..]. step.
  cbn [g_ready_tails g_ready_queues with_queues]. destruct (arr_get _ _) as [t| |]; [|done..]. step. destruct (t =? 0).
  - destruct (arr_set (g_ready_queues s1) _ _); [|done..]. step. by destruct (arr_set _ _ _).
  - rewrite update_queues. destruct (update t _ s1) as [s2| |]; [|done..]. step. cbn [g_ready_tails g_ready_queues with_queues]. by destruct (arr_set _ _ _).
Qed.

Lemma make_ready_queues p w s : make_ready p (with_queues w s) = with_queues w <$> make_ready p s.
Proof.
  unfold make_ready. change (fetch p (with_queues w s)) with (fetch p s). destruct (fetch p s) as [x| |]; [|done..]. step. case_decide; [|done]. rewrite update_queues.
  destruct (update p _ s) as [s1| |]; [|done..]. step. rewrite boost_queues. destruct (interactive_boost_if_needed p s1) as [s2| |]; [|done..]. step. apply push_queues.
Qed.
End queues.

(** * Wait queues *)

Lemma live_procs s s' q : (∀ p, is_Some (procs s !! p) ↔ is_Some (procs s' !! p)) → queue_live q s' = queue_live q s.
Proof. intros H. destruct q; cbn; [apply bool_decide_ext; symmetry; apply H..|done|done]. Qed.

(** The queues with a new value for [q]. *)
Definition put_queue (q : WaitQueueId) (v : WaitQueue) (s : Sched) : WaitQueueId → WaitQueue := λ q', if decide (q' = q) then v else wait_queues s q'.

Lemma set_queue_Ok q v s : queue_live q s = true → set_queue q v s = Ok (with_queues (put_queue q v s) s).
Proof. intros H. unfold set_queue. by rewrite H. Qed.

Lemma get_queue_Ok q s : queue_live q s = true → get_queue q s = Ok (wait_queues s q).
Proof. intros H. unfold get_queue. by rewrite H. Qed.

Lemma khead_put q v s k : k ≠ KWait q → khead (with_queues (put_queue q v s) s) k = khead s k ∧ ktail (with_queues (put_queue q v s) s) k = ktail s k.
Proof. intros Hk. destruct k as [i| |r]; [done|done|]. cbn. unfold put_queue. rewrite decide_False; [done|]. by intros ->. Qed.

Lemma wait_queue_push_spec q p s L x :
  qinv p s L → procs s !! p = Some x → queue_live q s = true →
  ∃ s', wait_queue_push q p s = Ok s' ∧ qinv 0 s' (ins (KWait q) (L (KWait q) ++ [p]) L) ∧ rest_same s s' ∧ g_current_proc s' = g_current_proc s ∧
  (∀ r, look s' r = if decide (r = p) then Some (Waiting, Some q) else look s r) ∧ sleep_same s s'.
Proof.
  intros I Hx Hlive. pose proof (qi_proc _ _ _ I _ _ Hx) as [Hp0 Hpr]. set (k0 := KWait q). unfold wait_queue_push. rewrite (update_Ok _ _ _ _ Hx). step.
  set (y := set_waiting_queue _ _). set (s1 := with_procs _ s). assert (Hlive1 : queue_live q s1 = true) by (apply (live_mono s); [intros r; by apply live_insert|done]).
  rewrite (get_queue_Ok _ _ Hlive1). step. assert (Et : tail (wait_queues s1 q) = last0 (L k0)) by (apply (qi_tail _ _ _ I k0); done). rewrite Et.
  pose proof (chain_last _ _ _ (qi_chain _ _ _ I k0)) as Hcl. assert (Hpl : p ∉ L k0) by apply (qi_ex _ _ _ I).
  assert (Hpush : ∃ s', (if last0 (L k0) =? 0 then set_queue q (mkQueue p p) s1 else s2 ← update (last0 (L k0)) (set_queue_next p) s1; set_queue q (mkQueue (head (wait_queues s1 q)) p) s2) = Ok s' ∧
      s' = with_queues (put_queue q (mkQueue (if decide (L k0 = []) then p else head (wait_queues s q)) p) s) (with_procs (appended (last0 (L k0)) p y (procs s)) s)).
  { unfold appended. destruct (Z.eqb_spec (last0 (L k0)) 0) as [E0|Hn0].
    - rewrite (set_queue_Ok _ _ _ Hlive1). eexists. split; [done|]. by rewrite decide_True by tauto.
    - assert (Hne : L k0 ≠ []) by tauto. pose proof (last0_elem _ Hne) as Hin. destruct (look_Some _ _ _ (qi_mem _ _ _ I _ _ Hin)) as (xt & Hxt & _).
      assert (Hxt1 : procs s1 !! last0 (L k0) = Some xt) by (unfold s1; cbn; rewrite lookup_insert_ne; [done|]; congruence).
      rewrite (update_Ok _ _ _ _ Hxt1). step. rewrite set_queue_Ok by (apply (live_mono s1); [intros r; by apply live_insert|done]). eexists. split; [done|]. rewrite decide_False by tauto.
      unfold s1 in Hxt1. cbn [procs with_procs] in Hxt1. by rewrite (insert_alter_id _ _ _ (set_queue_next p) Hxt1). }
  destruct Hpush as (s' & -> & Es'). exists s'. split; [done|].
  destruct (qinv_link p k0 s s' L x y I) as (Q1 & Q2 & Q3 & Q4); try (by rewrite Es'); try done.
  - rewrite Es'. apply I.
  - intros k Hk. rewrite Es'. by apply (khead_put q _ s).
  - rewrite Es'. cbn. unfold put_queue. by rewrite decide_True.
  - rewrite Es'. cbn. unfold put_queue. by rewrite decide_True.
  - intros r [= <-]. done.
  - split; [done|]. split; [split; [apply Q3|by rewrite Es'..]|]. split; [by rewrite Es'|]. split; [done|]. split; [|by rewrite Es'..].
    intros r. destruct (decide (r = p)) as [->|]; [|by apply Q4]. rewrite Es'. cbn. unfold appended. destruct (Z.eqb_spec (last0 (L k0)) 0) as [E0|Hn0]; [by rewrite lookup_insert_eq, Hx|].
    rewrite lookup_alter_ne; [by rewrite lookup_insert_eq, Hx|]. intros E. apply Hpl. rewrite <-E. apply last0_elem. tauto.
Qed.

Lemma wait_queue_remove_spec q p s L :
  qinv 0 s L → p ∈ L (KWait q) →
  ∃ l1 l2 s', L (KWait q) = l1 ++ p :: l2 ∧ wait_queue_remove q p s = Ok s' ∧ qinv p s' (ins (KWait q) (l1 ++ l2) L) ∧ rest_same s s' ∧ g_current_proc s' = g_current_proc s ∧
  (∀ r, look s' r = if decide (r = p) then Some (Waiting, None) else look s r) ∧ sleep_same s s'.
Proof.
  intros I Hp. set (k0 := KWait q). pose proof (qi_live _ _ _ I q p Hp) as Hlive. assert (Hc : chain (nx s) (head (wait_queues s q)) (L k0)) by apply (qi_chain _ _ _ I k0).
  pose proof (qi_dup _ _ _ I k0) as Hnd. destruct (find_prev_spec p s _ _ Hc Hnd (queue_length _ _ _ k0 I)) as [[Hn _]|(l1 & l2 & El & E)]; [intros r Hr; by apply (queue_live_procs _ _ _ k0 r I)|done|].
  exists l1, l2. unfold wait_queue_remove. step_with (get_queue_Ok _ _ Hlive). step_with E. destruct (look_Some _ _ _ (qi_mem _ _ _ I _ _ Hp)) as (x & Hx & Hv). injection Hv as Est Ewq.
  rewrite (fetch_Ok _ _ _ Hx). step. destruct (prev_front s L k0 l1 p l2 I El) as [Hf Hf']. set (pv := last0 l1) in *.
  set (m := if decide (l1 = []) then procs s else alter (set_queue_next (queue_next x)) pv (procs s)).
  set (h := if decide (l1 = []) then queue_next x else head (wait_queues s q)). set (t := if decide (last0 (L k0) = p) then pv else last0 (L k0)).
  assert (Hlm : ∀ w, queue_live q (with_queues w (with_procs m s)) = true).
  { intros w. apply (live_mono s); [|done]. intros r Hr. cbn. unfold m. case_decide; [done|]. destruct (decide (r = pv)) as [->|]; [rewrite lookup_alter_eq; destruct Hr as [z ->]; by eexists|by rewrite lookup_alter_ne]. }
  assert (Ht : tail (wait_queues s q) = last0 (L k0)) by (apply (qi_tail _ _ _ I k0); done).
  assert (E1 : ∃ w, (if pv =? 0 then set_queue q (mkQueue (queue_next x) (tail (wait_queues s q))) s else update pv (set_queue_next (queue_next x)) s) = Ok (with_queues w (with_procs m s)) ∧
     ∀ r, w r = put_queue q (mkQueue h (last0 (L k0))) s r).
  { unfold m, h, put_queue. destruct (Z.eqb_spec pv 0) as [E0|Hn0]; case_decide as Hd; try tauto.
    - rewrite (set_queue_Ok _ _ _ Hlive). eexists. split; [by destruct s|]. intros r. unfold put_queue. by rewrite Ht.
    - destruct (queue_live_procs _ _ _ _ _ I (proj1 (Hf' Hd))) as [y Hy]. rewrite (update_Ok _ _ _ _ Hy), (insert_alter_id _ _ _ _ Hy). exists (wait_queues s). split; [by destruct s|].
      intros r. destruct (decide (r = q)) as [->|]; [|done]. rewrite <-Ht. by destruct (wait_queues s q). }
  destruct E1 as (w & E1 & Hw). step_with E1. step_with (get_queue_Ok _ _ (Hlm w)). cbn [wait_queues with_queues]. rewrite (Hw q). unfold put_queue at 1 2. rewrite decide_True by done. cbn [head tail].
  assert (E2 : ∃ w', (if last0 (L k0) =? p then set_queue q (mkQueue h pv) (with_queues w (with_procs m s)) else Ok (with_queues w (with_procs m s))) = Ok (with_queues w' (with_procs m s)) ∧ ∀ r, w' r = put_queue q (mkQueue h t) s r).
  { unfold t. destruct (Z.eqb_spec (last0 (L k0)) p) as [Ep|Hn].
    - rewrite (set_queue_Ok _ _ _ (Hlm w)). eexists. split; [done|]. intros r. unfold put_queue. cbn. rewrite (decide_True (P := last0 (L k0) = p)) by done. destruct (decide (r = q)) as [|Hr]; [done|]. rewrite Hw. unfold put_queue. by rewrite decide_False.
    - exists w. split; [done|]. by rewrite (decide_False (P := last0 (L k0) = p)). }
  destruct E2 as (w' & E2 & Hw'). step_with E2. assert (Hx2 : procs (with_queues w' (with_procs m s)) !! p = Some x).
  { cbn. unfold m. case_decide as Hd; [done|]. rewrite lookup_alter_ne; [done|]. by apply Hf'. }
  rewrite (update_Ok _ _ _ _ Hx2). set (s3 := with_procs _ _). exists s3. split; [done|]. split; [done|].
  destruct (qinv_unlink p k0 l1 l2 s s3 L x (set_waiting_queue None) I El Hx) as (Q1 & Q2 & Q3 & Q4 & Q5); try done.
  - apply I.
  - intros k Hk. destruct k as [j| |r]; [done|done|]. unfold khead, ktail, s3. cbn. rewrite Hw'. unfold put_queue. rewrite decide_False; [done|]. by intros ->.
  - unfold khead, s3. cbn. rewrite Hw'. unfold put_queue. by rewrite decide_True.
  - intros _. unfold ktail, s3. cbn. rewrite Hw'. unfold put_queue. by rewrite decide_True.
  - split; [done|]. split; [split; [apply Q3|done..]|]. split; [done|]. split; [|split; [|done..]].
    + intros r. destruct (decide (r = p)) as [->|]; [unfold look; rewrite Q5; unfold vis; cbn; by rewrite Est|by apply Q2].
    + intros r. destruct (decide (r = p)) as [->|]; [by rewrite Q5, Hx|by apply Q4].
Qed.

(** ** Waking *)

(** The state between taking the head off a queue and making it ready. *)
Definition detached (q : WaitQueueId) (p : Z) (x : Process) (s : Sched) : Sched :=
  with_procs (<[p := set_waiting_queue None (set_queue_next 0 x)]> (procs s))
    (with_queues (put_queue q (mkQueue (queue_next x) (if queue_next x =? 0 then 0 else tail (wait_queues s q))) s) s).

Lemma detached_spec q p l s L x :
  qinv 0 s L → L (KWait q) = p :: l → procs s !! p = Some x →
  qinv p (detached q p x s) (ins (KWait q) l L) ∧ rest_same s (detached q p x s) ∧ sleep_same s (detached q p x s) ∧
  (∀ r, look (detached q p x s) r = if decide (r = p) then Some (Waiting, None) else look s r) ∧
  look s p = Some (Waiting, Some q) ∧ chain (nx s) (queue_next x) l ∧ (if queue_next x =? 0 then 0 else tail (wait_queues s q)) = last0 l.
Proof.
  intros I El Hx. set (k0 := KWait q). assert (Hp : p ∈ L k0) by (unfold k0; rewrite El; left). pose proof (qi_mem _ _ _ I _ _ Hp) as Hv. pose proof Hv as Hv'. unfold look in Hv'. rewrite Hx in Hv'. injection Hv' as Est Ewq.
  pose proof (qi_chain _ _ _ I k0) as Hc. unfold k0 in Hc. rewrite El in Hc. destruct Hc as (_ & Hp0 & Hc). assert (En : nx s p = queue_next x) by (unfold nx; by rewrite Hx). rewrite En in Hc.
  assert (Ht : tail (wait_queues s q) = last0 (p :: l)) by (rewrite <-El; apply (qi_tail _ _ _ I k0); done).
  assert (E0 : (if queue_next x =? 0 then 0 else tail (wait_queues s q)) = last0 l).
  { destruct (Z.eqb_spec (queue_next x) 0) as [Ez|Hn]; [rewrite Ez in Hc; apply chain_nil in Hc; by subst l|]. rewrite Ht. apply last0_cons. intros ->. done. }
  pose proof (qi_dup _ _ _ I k0) as Hnd. unfold k0 in Hnd. rewrite El in Hnd. apply NoDup_cons in Hnd as [Hpl Hnd].
  destruct (qinv_unlink p k0 [] l s (detached q p x s) L x (set_waiting_queue None) I El Hx) as (Q1 & Q2 & Q3 & Q4 & Q5); try done.
  - apply I.
  - intros k Hk. by apply (khead_put q _ s).
  - cbn. unfold put_queue. by rewrite decide_True.
  - intros _. unfold k0. rewrite El. cbn [ktail detached with_procs with_queues wait_queues]. unfold put_queue. rewrite (decide_True (P := q = q)) by done. cbn [tail]. rewrite E0. case_decide as Hd.
    + destruct (decide (l = [])) as [->|Hl]; [done|]. rewrite last0_cons in Hd by done. exfalso. apply Hpl. rewrite <-Hd. by apply last0_elem.
    + destruct l; [by destruct Hd|symmetry; by apply last0_cons].
  - split; [done|]. split; [by split; [apply Q3|..]|]. split; [|split; [|done]].
    + split; [|done..]. intros r. destruct (decide (r = p)) as [->|]; [by rewrite Q5, Hx|by apply Q4].
    + intros r. destruct (decide (r = p)) as [->|]; [unfold look; rewrite Q5; unfold vis; cbn; by rewrite Est|by apply Q2].
Qed.

Lemma detached_woken q p s s1 s2 :
  look s p = Some (Waiting, Some q) → rest_same s s1 → g_current_proc s1 = g_current_proc s → (∀ r, look s1 r = if decide (r = p) then Some (Waiting, None) else look s r) → woken [p] s1 s2 → woken [p] s s2.
Proof.
  intros Hv R Hc Hl [A1 A2 A3 A4]. split; [by eapply rest_trans|congruence|..].
  - intros r. rewrite A3, Hl. destruct (decide (r = p)) as [->|]; [rewrite !decide_True by left; done|]. by rewrite !decide_False by (by intros ->%list_elem_of_singleton).
  - intros r ->%list_elem_of_singleton. eexists. split; [done|]. by left.
Qed.

Lemma wake_head_spec q p l s L :
  qinv 0 s L → L (KWait q) = p :: l →
  ∃ s' i, wake_head q s = Ok s' ∧ qinv 0 s' (ins (KReady i) (L (KReady i) ++ [p]) (ins (KWait q) l L)) ∧ woken [p] s s' ∧ sleep_same s s'.
Proof.
  intros I El. assert (Hp : p ∈ L (KWait q)) by (rewrite El; left). destruct (queue_live_procs _ _ _ _ _ I Hp) as [x Hx]. pose proof (qi_live _ _ _ I q p Hp) as Hlive.
  destruct (detached_spec q p l s L x I El Hx) as (I1 & R1 & S1 & L1 & Hv & _ & _). unfold wake_head. rewrite (get_queue_Ok _ _ Hlive). step.
  assert (Eh : head (wait_queues s q) = p) by (pose proof (qi_chain _ _ _ I (KWait q)) as Hc; rewrite El in Hc; apply Hc). rewrite Eh, (fetch_Ok _ _ _ Hx). step.
  rewrite (set_queue_Ok _ _ _ Hlive). step. rewrite (update_Ok p _ (with_queues _ s) x Hx). step. fold (detached q p x s).
  destruct (make_ready_spec p _ _ I1) as (s' & i & E & I2 & W2 & S2 & _); [by rewrite L1, decide_True|]. rewrite ins_ne in I2 by done. exists s', i. split; [done|]. split; [done|].
  split; [by apply (detached_woken q p s (detached q p x s))|by eapply sleep_trans].
Qed.

(** [l] is what is left of queue [q], whose head is [p], although the queue still has its old head. *)
Definition draining (q : WaitQueueId) (p : Z) (l : list Z) (s : Sched) : Sched := with_queues (put_queue q (mkQueue p (last0 l)) s) s.

Lemma qinv_heads ex s s' L w : qinv ex s L → s' = with_queues w s → (∀ r, w r = wait_queues s r) → qinv ex s' L.
Proof.
  intros I -> Hw. apply (qinv_frame ex s); try done; [apply I|..].
  - intros [i| |r]; cbn; rewrite ?Hw; done.
  - apply (qi_proc _ _ _ I).
Qed.

Lemma wake_all_one q p l s L :
  qinv 0 (draining q p l s) L → L (KWait q) = l → p ≠ 0 →
  ∃ l' s' i x, l = p :: l' ∧ wake_all_step (p, s) = Ok (inl (queue_next x, s')) ∧ qinv 0 (draining q (queue_next x) l' s') (ins (KReady i) (L (KReady i) ++ [p]) (ins (KWait q) l' L)) ∧
  woken [p] s s' ∧ sleep_same s s' ∧ wait_queues s' = wait_queues s.
Proof.
  intros I El Hp0. set (v := draining q p l s) in *. assert (Eh : khead v (KWait q) = p) by (cbn; unfold put_queue; by rewrite decide_True).
  destruct (chain_cons (nx v) (khead v (KWait q)) (L (KWait q))) as (l' & El' & _); [congruence|apply I|]. rewrite Eh in El'. assert (Hp : p ∈ L (KWait q)) by (rewrite El'; left).
  destruct (queue_live_procs _ _ _ _ _ I Hp) as [x Hx]. destruct (detached_spec q p l' v L x I El' Hx) as (I1 & R1 & S1 & L1 & Hv & Hc1 & Et).
  destruct (make_ready_spec p _ _ I1) as (sv & i & E & I2 & W2 & S2 & Q2); [by rewrite L1, decide_True|]. rewrite ins_ne in I2 by done.
  set (s1 := with_procs (<[p := set_queue_next 0 (set_waiting_queue None x)]> (procs s)) s).
  change (detached q p x v) with (with_queues (wait_queues (detached q p x v)) s1) in E. rewrite make_ready_queues in E. destruct (make_ready p s1) as [s'| |] eqn:E'; [|done..]. injection E as E.
  assert (Hs' : wait_queues s' = wait_queues s).
  { pose proof (make_ready_queues p (wait_queues s) s1) as Hm. rewrite E' in Hm. cbn [fmap res_fmap] in Hm. change (with_queues (wait_queues s) s1) with (with_queues (wait_queues s1) s1) in Hm.
    replace (with_queues (wait_queues s1) s1) with s1 in Hm by (by destruct s). rewrite E' in Hm. injection Hm as Hm. rewrite Hm. done. }
  exists l', s', i, x. split; [congruence|]. unfold wake_all_step. destruct (Z.eqb_spec p 0) as [|_]; [done|]. rewrite (fetch_Ok p s x) by done. step. rewrite (update_Ok p _ s x) by done. step. fold s1. rewrite E'. step. split; [done|].
  split; [|split; [|split; [|done]]].
  - apply (qinv_heads 0 sv _ _ (put_queue q (mkQueue (queue_next x) (last0 l')) s')); [done|by rewrite <-E|]. intros r. rewrite <-E. change (wait_queues (with_queues _ s') r) with (put_queue q (mkQueue (queue_next x) (if queue_next x =? 0 then 0 else tail (wait_queues v q))) v r). rewrite Et.
    unfold put_queue. destruct (decide (r = q)) as [->|Hr]; [done|]. rewrite Hs'. unfold v, draining. cbn [wait_queues with_queues]. unfold put_queue. by rewrite decide_False.
  - assert (W : woken [p] v sv) by (by apply (detached_woken q p v (detached q p x v))). rewrite <-E in W. destruct W as [A1 A2 A3 A4]. split; [|done..]. destruct A1 as [B1 B2 B3 B4 B5 B6]. done.
  - pose proof (sleep_trans _ _ _ S1 S2) as T. rewrite <-E in T. destruct T as [T1 T2 T3]. done.
Qed.

(** The queues of [L'] are those of [L], except the ready queues and the queues in [Q]. *)
Definition same_but (Q : list WaitQueueId) (L L' : QKey → list Z) : Prop :=
  L' KSleep = L KSleep ∧ ∀ q, q ∉ Q → L' (KWait q) = L (KWait q).

Lemma same_but_trans Q Q' L1 L2 L3 : same_but Q L1 L2 → same_but Q' L2 L3 → same_but (Q ++ Q') L1 L3.
Proof. intros [A1 A2] [B1 B2]. split; [congruence|]. intros q Hq. apply not_elem_of_app in Hq as [H1 H2]. rewrite B2 by done. by apply A2. Qed.

Lemma same_but_ready i l Q L L' : same_but Q L L' → same_but Q L (ins (KReady i) l L').
Proof. intros [A1 A2]. split; [by rewrite ins_ne|]. intros q Hq. rewrite ins_ne by done. by apply A2. Qed.

Lemma same_but_wait q l Q L L' : same_but Q L L' → q ∈ Q → same_but Q L (ins (KWait q) l L').
Proof. intros [A1 A2] Hq. split; [by rewrite ins_ne|]. intros r Hr. rewrite ins_ne; [by apply A2|]. intros [= ->]. done. Qed.

Lemma same_but_refl Q L : same_but Q L L.
Proof. done. Qed.

Lemma wait_queue_wake_all_spec q s L :
  qinv 0 s L → queue_live q s = true →
  ∃ s' L', wait_queue_wake_all q s = Ok s' ∧ qinv 0 s' L' ∧ woken (L (KWait q)) s s' ∧ sleep_same s s' ∧ L' (KWait q) = [] ∧ same_but [q] L L'.
Proof.
  intros I Hlive. unfold wait_queue_wake_all. step_with (get_queue_Ok _ _ Hlive).
  destruct (bloop_rule (λ n (st : Z * Sched), ∃ l W Lc, qinv 0 (draining q st.1 l st.2) Lc ∧ Lc (KWait q) = l ∧ L (KWait q) = W ++ l ∧ woken W s st.2 ∧ sleep_same s st.2 ∧ wait_queues st.2 = wait_queues s ∧ same_but [q] L Lc ∧ n = Z.of_nat (length l))
     (λ r : Sched, ∃ Lc, qinv 0 (draining q 0 [] r) Lc ∧ Lc (KWait q) = [] ∧ woken (L (KWait q)) s r ∧ sleep_same s r ∧ same_but [q] L Lc) wake_all_step)
     with SCHED_FUEL (Z.of_nat (length (L (KWait q)))) (head (wait_queues s q), s) as (r & E & Lc & I' & El & W & S & Hs).
  - intros n st (l & W & Lc & _ & _ & _ & _ & _ & _ & _ & ->). lia.
  - intros n [p s1] (l & W & Lc & I1 & El & EL & Wk & S & Hq & Hs & ->). cbn [fst snd] in *. destruct (decide (p = 0)) as [->|Hp0].
    + assert (l = []) as ->. { pose proof (qi_chain _ _ _ I1 (KWait q)) as Hc. cbn [khead draining with_queues wait_queues] in Hc. unfold put_queue in Hc. rewrite decide_True in Hc by done. rewrite El in Hc. by apply chain_nil in Hc. }
      rewrite app_nil_r in EL. subst W. eexists. split; [done|]. by exists Lc.
    + destruct (wake_all_one q p l s1 Lc I1 El Hp0) as (l' & s' & i & x & -> & E & I2 & W2 & S2 & Q2). rewrite E. eexists. split; [done|]. exists (Z.of_nat (length l')). split; [simpl; lia|].
      eexists l', (W ++ [p]), _. cbn [fst snd]. split; [done|]. split; [by rewrite ins_ne, ins_eq by done|]. split; [by rewrite <-(assoc_L (++))|].
      split; [by eapply woken_trans|]. split; [by eapply sleep_trans|]. split; [congruence|]. split; [|done]. apply same_but_ready, same_but_wait; [done|left].
  - exists (L (KWait q)), [], L. cbn [fst snd]. split; [|split_and!; try done; apply woken_refl].
    apply (qinv_heads 0 s _ _ (put_queue q (mkQueue (head (wait_queues s q)) (last0 (L (KWait q)))) s)); [done|done|]. intros r. unfold put_queue. destruct (decide (r = q)) as [->|]; [|done].
    pose proof (qi_tail _ _ _ I (KWait q) ltac:(done)) as Ht. cbn in Ht. rewrite <-Ht. by destruct (wait_queues s q).
  - pose proof (queue_length _ _ _ (KWait q) I). unfold SCHED_FUEL. lia.
  - step_with E. rewrite set_queue_Ok by (apply (live_mono s); [intros p; by apply rest_live, W|done]). eexists _, Lc. split; [done|]. split; [done|]. split; [|split; [|done]].
    + destruct W as [[B1 B2 B3 B4 B5 B6] A2 A3 A4]. done.
    + by destruct S.
Qed.

Lemma scheduler_wake_all_spec q s L :
  qinv 0 s L → queue_live q s = true →
  ∃ s' L' W, scheduler_wake_all q s = Ok s' ∧ qinv 0 s' L' ∧ woken W s s' ∧ (∀ p, p ∈ W ↔ p ∈ L (KWait q) ∨ p ∈ L (KWait QEpoll)) ∧ sleep_same s s' ∧ L' (KWait q) = [] ∧ L' (KWait QEpoll) = [] ∧ same_but [q; QEpoll] L L'.
Proof.
  intros I Hlive. unfold scheduler_wake_all. destruct (wait_queue_wake_all_spec q s L I Hlive) as (s1 & L1 & E1 & I1 & W1 & S1 & El1 & B1). step_with E1.
  case_decide as Hq.
  - subst q. exists s1, L1, (L (KWait QEpoll)). split_and!; try done; [tauto|..]. split; [apply B1|]. intros r Hr. apply B1. intros ->%list_elem_of_singleton. apply Hr. left.
  - destruct (wait_queue_wake_all_spec QEpoll s1 L1 I1) as (s2 & L2 & E2 & I2 & W2 & S2 & El2 & B2); [done|]. exists s2, L2, (L (KWait q) ++ L1 (KWait QEpoll)). split; [done|]. split; [done|].
    split; [by eapply woken_trans|]. assert (Ee : L1 (KWait QEpoll) = L (KWait QEpoll)) by (apply B1; intros Eq%list_elem_of_singleton; congruence). rewrite Ee.
    split; [intros p; apply elem_of_app|]. split; [by eapply sleep_trans|]. split; [rewrite (proj2 B2); [done|by intros ->%list_elem_of_singleton]|]. split; [done|]. by apply (same_but_trans [q] [QEpoll] _ L1).
Qed.

Lemma scheduler_wake_one_spec q s L :
  qinv 0 s L → queue_live q s = true →
  ∃ s' L' W, scheduler_wake_one q s = Ok s' ∧ qinv 0 s' L' ∧ woken W s s' ∧ sleep_same s s' ∧ L' (KWait q) = List.tl (L (KWait q)) ∧ same_but [q; QEpoll] L L' ∧
  (∀ p, p ∈ W ↔ ∃ l, L (KWait q) = p :: l ∨ L (KWait q) ≠ [] ∧ L (KWait QEpoll) = p :: l).
Proof.
  intros I Hlive. unfold scheduler_wake_one. rewrite (get_queue_Ok _ _ Hlive). step. assert (Hc : chain (nx s) (head (wait_queues s q)) (L (KWait q))) by apply (qi_chain _ _ _ I (KWait q)).
  destruct (Z.eqb_spec (head (wait_queues s q)) 0) as [E0|Hn0].
  { rewrite E0 in Hc. apply chain_nil in Hc. exists s, L, []. split_and!; try done; [apply woken_refl|by rewrite Hc|]. intros p. rewrite Hc. split; [by intros ?%not_elem_of_nil|]. intros (l & [?|[? _]]); done. }
  destruct (chain_cons _ _ _ Hn0 Hc) as (l & El & _). set (p := head (wait_queues s q)) in *. destruct (wake_head_spec q p l s L I El) as (s1 & i & E1 & I1 & W1 & S1). rewrite E1. step.
  set (L1 := ins (KReady i) _ _) in *. assert (B1 : same_but [q] L L1) by (apply same_but_ready, same_but_wait; [done|left]). assert (Eq1 : L1 (KWait q) = l) by (unfold L1; by rewrite ins_ne, ins_eq by done).
  destruct (decide (q = QEpoll)) as [->|Hq].
  { rewrite decide_False by tauto. exists s1, L1, [p]. split_and!; try done; [by rewrite El|..].
    - split; [apply B1|]. intros r Hr. apply B1. intros ->%list_elem_of_singleton. apply Hr. left.
    - intros r. rewrite El. split; [intros ->%list_elem_of_singleton; exists l; by left|]. intros (l' & [[= <- _]|[_ [= <- _]]]); left. }
  assert (Ee : L1 (KWait QEpoll) = L (KWait QEpoll)) by (apply B1; intros Eq%list_elem_of_singleton; congruence). assert (Hc1 : chain (nx s1) (head (wait_queues s1 QEpoll)) (L (KWait QEpoll))) by (rewrite <-Ee; apply (qi_chain _ _ _ I1 (KWait QEpoll))).
  destruct (decide (head (wait_queues s1 QEpoll) = 0)) as [E0|He0].
  - rewrite decide_False by tauto. rewrite E0 in Hc1. apply chain_nil in Hc1. exists s1, L1, [p]. split_and!; try done; [by rewrite El, Eq1|..].
    + split; [apply B1|]. intros r Hr. apply B1. intros ->%list_elem_of_singleton. apply Hr. left.
    + intros r. rewrite El, Hc1. split; [intros ->%list_elem_of_singleton; exists l; by left|]. intros (l' & [[= <- _]|[_ [=]]]); left.
  - rewrite decide_True by tauto. destruct (chain_cons _ _ _ He0 Hc1) as (le & Ele & _). set (pe := head (wait_queues s1 QEpoll)) in *.
    destruct (wake_head_spec QEpoll pe le s1 L1 I1) as (s2 & j & E2 & I2 & W2 & S2); [by rewrite Ee|]. rewrite E2. eexists s2, _, ([p] ++ [pe]). split; [done|]. split; [done|]. split; [by eapply woken_trans|].
    split; [by eapply sleep_trans|]. split; [rewrite ins_ne, ins_ne by congruence; by rewrite Eq1, El|]. split.
    + apply (same_but_trans [q] [QEpoll] _ L1); [done|]. apply same_but_ready, same_but_wait; [done|left].
    + intros r. rewrite El, Ele. split.
      * intros [->%list_elem_of_singleton| ->%list_elem_of_singleton]%elem_of_app; [exists l; by left|exists le; by right].
      * intros (l' & [[= <- _]|[_ [= <- _]]]); apply elem_of_app; [left; left|right; left].
Qed.

(** A process that waits becomes ready, whatever queue it is on; nothing happens to another. *)
Lemma scheduler_wake_process_spec p s L v :
  qinv 0 s L → look s p = Some v →
  ∃ s' L', scheduler_wake_process p s = Ok s' ∧ qinv 0 s' L' ∧ woken (if decide (v.1 = Waiting) then [p] else []) s s' ∧ sleep_same s s' ∧ same_but (if v.2 is Some q then [q] else []) L L'.
Proof.
  intros I Hv. destruct (look_Some _ _ _ Hv) as (x & Hx & Ev). pose proof (qi_proc _ _ _ I _ _ Hx) as [Hp0 _]. unfold scheduler_wake_process. destruct (Z.eqb_spec p 0) as [|_]; [lia|].
  rewrite (fetch_Ok _ _ _ Hx). step. assert (Ewq : waiting_queue x = v.2) by (by rewrite <-Ev). assert (Est : state x = v.1) by (by rewrite <-Ev). rewrite Ewq.
  assert (Hidle : v.2 = None → v.1 ≠ Waiting → v.1 ≠ Blocked → ∃ s' L', (s ← (if v.2 is Some q then wait_queue_remove q p s else Ok s); make_ready p s) = Ok s' ∧ qinv 0 s' L' ∧ woken (if decide (v.1 = Waiting) then [p] else []) s s' ∧ sleep_same s s' ∧ same_but (if v.2 is Some q then [q] else []) L L').
  { intros -> H1 H2. step. unfold make_ready. rewrite (fetch_Ok _ _ _ Hx). step. rewrite (decide_False (P := state x = Waiting ∨ _)) by (rewrite Est; tauto). rewrite decide_False by done. exists s, L. split_and!; try done. apply woken_refl. }
  destruct (qi_where _ _ _ I p v ltac:(lia) Hv) as [[k Hk]|Ho].
  - pose proof (qi_mem _ _ _ I k p Hk) as Hm. rewrite Hv in Hm. injection Hm as ->. destruct k as [i| |q]; [by apply Hidle|by apply Hidle|]. cbn [kview fst snd] in *.
    destruct (wait_queue_remove_spec q p s L I Hk) as (l1 & l2 & s1 & El & E1 & I1 & R1 & C1 & K1 & S1). step_with E1.
    destruct (make_ready_spec p s1 _ I1) as (s2 & i & E2 & I2 & W2 & S2 & _); [by rewrite K1, decide_True|]. rewrite ins_ne in I2 by done. rewrite decide_True by done. eexists s2, _. split; [done|]. split; [done|].
    split; [by apply (detached_woken q p s s1)|]. split; [by eapply sleep_trans|]. apply same_but_ready, same_but_wait; [done|left].
  - destruct Ho as [[-> _]|[->| ->]]; [by apply Hidle|by apply Hidle|]. cbn [fst snd] in *. step.
    assert (Hoff : ∀ k, p ∉ L k) by (apply (qinv_off s L p _ I Hv); by intros []). destruct (make_ready_spec p s L) as (s2 & i & E2 & I2 & W2 & S2 & _); [by apply qinv_mark|done|].
    rewrite decide_True by done. eexists s2, _. split; [done|]. split; [done|]. split; [done|]. split; [done|]. by apply same_but_ready.
Qed.

(** * Priorities *)

Lemma remove_from_ready_spec p s L :
  qinv 0 s L →
  ((∀ i, p ∉ L (KReady i)) ∧ scheduler_remove_from_ready_queue p s = Ok s) ∨
  ∃ i l1 l2 s', L (KReady i) = l1 ++ p :: l2 ∧ scheduler_remove_from_ready_queue p s = Ok s' ∧ qinv p s' (ins (KReady i) (l1 ++ l2) L) ∧ pushed s s'.
Proof.
  intros I. unfold scheduler_remove_from_ready_queue. change (Z.to_nat NUM_PRIORITY_LEVELS) with 3%nat. cbn [for_upto].
  assert (Hdone : ∀ i s', remove_level p i (true, s') = Ok (true, s')) by done.
  destruct (remove_level_spec p 0 s L I ltac:(lia)) as [[N0 E0]|(l1 & l2 & s' & El & E & I' & P')]; [change (Z.of_nat 0) with 0 in E0|change (Z.of_nat 0) with 0 in E].
  2:{ right. exists 0%nat, l1, l2, s'. split; [done|]. rewrite E. cbn [mbind res_bind]. rewrite Hdone. cbn [mbind res_bind]. rewrite Hdone. done. }
  destruct (remove_level_spec p 1 s L I ltac:(lia)) as [[N1 E1]|(l1 & l2 & s' & El & E & I' & P')]; [change (Z.of_nat 1) with (0 + 1) in E1|change (Z.of_nat 1) with (0 + 1) in E].
  2:{ right. exists 1%nat, l1, l2, s'. split; [done|]. rewrite E0. cbn [mbind res_bind]. rewrite E. cbn [mbind res_bind]. rewrite Hdone. done. }
  destruct (remove_level_spec p 2 s L I ltac:(lia)) as [[N2 E2]|(l1 & l2 & s' & El & E & I' & P')]; [change (Z.of_nat 2) with (0 + 1 + 1) in E2|change (Z.of_nat 2) with (0 + 1 + 1) in E].
  2:{ right. exists 2%nat, l1, l2, s'. split; [done|]. rewrite E0. cbn [mbind res_bind]. rewrite E1. cbn [mbind res_bind]. rewrite E. done. }
  left. split; [|rewrite E0; cbn [mbind res_bind]; rewrite E1; cbn [mbind res_bind]; rewrite E2; done]. intros [|[|[|i]]]; [done|done|done|]. intros Hp.
  pose proof (qi_chain _ _ _ I (KReady (S (S (S i))))) as Hc. cbn [khead] in Hc. rewrite nth_overflow in Hc by (pose proof (qi_levels _ _ _ I); lia). apply chain_nil in Hc. rewrite Hc in Hp. by apply not_elem_of_nil in Hp.
Qed.

Lemma scheduler_boost_spec p n s L :
  qinv 0 s L → is_Some (procs s !! p) → 0 <= n →
  ∃ s' L', scheduler_boost_process_priority p n s = Ok s' ∧ qinv 0 s' L' ∧ woken [] s s' ∧ sleep_same s s' ∧ same_but [] L L'.
Proof.
  intros I [x Hx] Hn. pose proof (qi_proc _ _ _ I _ _ Hx) as [Hp0 _]. unfold scheduler_boost_process_priority. rewrite (proj2 (Z.eqb_neq p 0)) by lia.
  step_with (fetch_Ok _ _ _ Hx). destruct (Z.ltb_spec n (priority x)) as [Hlt|]; [|exists s, L; split_and!; try done; apply woken_refl].
  destruct (remove_from_ready_spec p s L I) as [[Hoff E]|(i & l1 & l2 & s1 & El & E & I1 & P1)]; step_with E.
  - rewrite (update_Ok _ _ _ _ Hx). step. destruct (decide (state x = Ready)) as [Er|Hr].
    + exfalso. destruct (qi_where _ _ _ I p (vis x) ltac:(lia)) as [[k Hk]|Ho]; [unfold look; by rewrite Hx| |].
      * pose proof (qi_mem _ _ _ I k p Hk) as Hm. unfold look in Hm. rewrite Hx in Hm. destruct k as [i| |q]; [by apply (Hoff i)|injection Hm as Hst _; congruence..].
      * unfold off_queue, vis in Ho. rewrite Er in Ho. destruct Ho as [[? _]|[?|?]]; done.
    + eexists _, L. split; [done|]. assert (P : pushed s (with_procs (<[p := set_priority n x]> (procs s)) s)) by (by apply (pushed_insert p x)). split; [apply (qinv_field _ _ _ p x); try done; by left|].
      split; [by apply pushed_woken|]. split; [by apply pushed_sleep|done].
  - assert (Hv : look s p = Some (Ready, None)) by (apply (qi_mem _ _ _ I (KReady i)); rewrite El; apply elem_of_app; right; left). pose proof Hv as Hv1. rewrite <-(ps_look _ _ P1) in Hv1.
    destruct (look_Some _ _ _ Hv1) as (x1 & Hx1 & V1). rewrite (update_Ok _ _ _ _ Hx1). step. rewrite decide_True by (unfold look in Hv; rewrite Hx in Hv; by injection Hv). set (s2 := with_procs _ s1).
    assert (Hx2 : procs s2 !! p = Some (set_priority n x1)) by (unfold s2; cbn; by rewrite lookup_insert_eq).
    assert (I2 : qinv p s2 (ins (KReady i) (l1 ++ l2) L)) by (apply (qinv_field _ _ _ p x1); try done; by left). assert (P2 : pushed s1 s2) by (by apply (pushed_insert p x1)).
    destruct (ready_queue_push_spec p s2 _ _ I2 Hx2 V1) as (s3 & E3 & I3 & P3). rewrite E3. eexists s3, _. split; [done|]. split; [done|].
    pose proof (pushed_trans _ _ _ P1 (pushed_trans _ _ _ P2 P3)) as P. split; [by apply pushed_woken|]. split; [by apply pushed_sleep|]. by apply same_but_ready, same_but_ready.
Qed.
