(* ===== verification/SchedSleep.v ===== *)
(** The sleep queue of the scheduler (Sched.v). Each process holds the ticks after its
    predecessor at which it wakes; here the queue is read as a list of processes with the
    ticks at which they are due. *)

From S2P Require Import Prelude Sched SchedInv SchedOps.

#[local] Strategy opaque [bloop].

(** * Due times *)

Definition wt (s : Sched) (p : Z) : Z := match procs s !! p with Some x => wake_time x | None => 0 end.

Fixpoint dues (f : Z → Z) (t : Z) (l : list Z) : list (Z * Z) :=
  match l with
  | [] => []
  | p :: l' => (p, t + f p) :: dues f (t + f p) l'
  end.

Fixpoint total (f : Z → Z) (l : list Z) : Z := match l with [] => 0 | p :: l' => f p + total f l' end.

Section dues.
Implicit Types (f : Z → Z) (l : list Z).

Lemma dues_ext f f' t l : (∀ p, p ∈ l → f' p = f p) → dues f' t l = dues f t l.
Proof. revert t. induction l as [|p l IH]; intros t E; [done|]. cbn. rewrite E by left. f_equal. apply IH. intros q Hq. apply E. by right. Qed.

Lemma dues_app f t l1 l2 : dues f t (l1 ++ l2) = dues f t l1 ++ dues f (t + total f l1) l2.
Proof. revert t. induction l1 as [|p l1 IH]; intros t; cbn; [by rewrite Z.add_0_r|]. rewrite IH. do 3 f_equal. lia. Qed.

Lemma dues_fst f t l : (dues f t l).*1 = l.
Proof. revert t. induction l as [|p l IH]; intros t; [done|]. cbn. by rewrite IH. Qed.

Lemma dues_ge f t l q u : (∀ p, p ∈ l → 0 <= f p) → (q, u) ∈ dues f t l → t <= u.
Proof.
  revert t. induction l as [|p l IH]; intros t Hf; cbn; [by intros ?%not_elem_of_nil|]. intros [[= -> ->]|Hq]%elem_of_cons; [pose proof (Hf p ltac:(left)); lia|].
  specialize (IH (t + f p) ltac:(intros r Hr; apply Hf; by right) Hq). pose proof (Hf p ltac:(left)). lia.
Qed.

Lemma dues_le f t l q u : (∀ p, p ∈ l → 0 <= f p) → (q, u) ∈ dues f t l → u <= t + total f l.
Proof.
  revert t. induction l as [|p l IH]; intros t Hf; cbn; [by intros ?%not_elem_of_nil|]. assert (Hf' : ∀ r, r ∈ l → 0 <= f r) by (intros r Hr; apply Hf; by right).
  intros [[= -> ->]|Hq]%elem_of_cons; [|specialize (IH (t + f p) Hf' Hq); lia]. assert (0 <= total f l); [|lia]. clear IH Hf. induction l as [|r l IH]; [done|]. cbn.
  pose proof (Hf' r ltac:(left)). assert (0 <= total f l) by (apply IH; intros q Hq; apply Hf'; by right). lia.
Qed.
End dues.

(** Ticks are 64-bit numbers. *)
Definition timed (s : Sched) : Prop := ∀ p x, procs s !! p = Some x → 0 <= wake_time x < 2 ^ 64.

Lemma timed_wt s p : timed s → 0 <= wt s p < 2 ^ 64.
Proof. intros T. unfold wt. destruct (procs s !! p) as [x|] eqn:E; [by apply (T p)|lia]. Qed.

Lemma timed_same s s' : sleep_same s s' → timed s → timed s'.
Proof. intros S T p x Hx. pose proof (ss_wake _ _ S p) as E. rewrite Hx in E. destruct (procs s !! p) as [y|] eqn:Hy; [|done]. injection E as ->. by apply (T p). Qed.

Lemma wt_same s s' p : sleep_same s s' → wt s' p = wt s p.
Proof. intros S. pose proof (ss_wake _ _ S p) as E. unfold wt. destruct (procs s' !! p), (procs s !! p); try done. by injection E. Qed.

(** A field that a change does not touch. *)
Lemma alter_field {A} (f : Process → A) g k (m : gmap Z Process) q : (∀ x, f (g x) = f x) → f <$> alter g k m !! q = f <$> m !! q.
Proof. intros E. destruct (decide (q = k)) as [->|]; [rewrite lookup_alter_eq; destruct (m !! k); cbn; by rewrite ?E|by rewrite lookup_alter_ne]. Qed.

(** * Going to sleep *)

(** The processes after [p] has been linked between [l1] and [l2]. *)
Definition slept (l1 l2 : list Z) (p rem : Z) (y : Process) (m : gmap Z Process) : gmap Z Process :=
  let m1 := <[p := y]> m in
  let m2 := if decide (l1 = []) then m1 else alter (set_queue_next p) (last0 l1) m1 in
  match l2 with [] => m2 | c :: _ => alter (λ x, set_wake_time (u64 (wake_time x - rem)) x) c m2 end.

Lemma slept_field {A} (f : Process → A) l1 l2 p rem y m q :
  (∀ v x, f (set_queue_next v x) = f x) → (∀ v x, f (set_wake_time v x) = f x) → f <$> slept l1 l2 p rem y m !! q = if decide (q = p) then Some (f y) else f <$> m !! q.
Proof.
  intros H1 H2. unfold slept. assert (E : ∀ m' : gmap Z Process, f <$> match l2 with [] => m' | c :: _ => alter (λ x, set_wake_time (u64 (wake_time x - rem)) x) c m' end !! q = f <$> m' !! q).
  { intros m'. destruct l2; [done|]. by apply alter_field. }
  rewrite E. assert (E2 : f <$> (if decide (l1 = []) then <[p := y]> m else alter (set_queue_next p) (last0 l1) (<[p := y]> m)) !! q = f <$> <[p := y]> m !! q).
  { destruct (decide (l1 = [])); [done|]. by apply alter_field. }
  rewrite E2. destruct (decide (q = p)) as [->|]; [by rewrite lookup_insert_eq|by rewrite lookup_insert_ne].
Qed.

Lemma slept_next l1 l2 p rem y m q : (l1 ≠ [] → is_Some (m !! last0 l1) ∧ last0 l1 ≠ p) →
  queue_next <$> slept l1 l2 p rem y m !! q = if decide (q = p) then Some (queue_next y) else if decide (l1 ≠ [] ∧ q = last0 l1) then Some p else queue_next <$> m !! q.
Proof.
  intros Hl. unfold slept. assert (E : ∀ m' : gmap Z Process, queue_next <$> match l2 with [] => m' | c :: _ => alter (λ x, set_wake_time (u64 (wake_time x - rem)) x) c m' end !! q = queue_next <$> m' !! q).
  { intros m'. destruct l2; [done|]. by apply alter_field. }
  rewrite E. clear E. destruct (decide (l1 = [])) as [->|Hn].
  - rewrite (decide_False (P := _ ∧ _)) by tauto. destruct (decide (q = p)) as [->|]; [by rewrite lookup_insert_eq|by rewrite lookup_insert_ne].
  - destruct (Hl Hn) as [[z Hz] Hp]. destruct (decide (q = p)) as [->|Hq]; [rewrite lookup_alter_ne by done; by rewrite lookup_insert_eq|].
    destruct (decide (l1 ≠ [] ∧ q = last0 l1)) as [[_ ->]|Hq2]; [rewrite lookup_alter_eq, lookup_insert_ne by done; by rewrite Hz|].
    rewrite lookup_alter_ne, lookup_insert_ne by (done || (intros <-; tauto)). done.
Qed.

Lemma slept_wake l1 l2 p rem y m q : p ∉ l2 →
  wake_time <$> slept l1 l2 p rem y m !! q = if decide (q = p) then Some (wake_time y) else if decide (hd_error l2 = Some q) then (λ x, u64 (wake_time x - rem)) <$> m !! q else wake_time <$> m !! q.
Proof.
  intros Hp. unfold slept. set (m2 := if decide (l1 = []) then _ else _). assert (E2 : ∀ r, wake_time <$> m2 !! r = wake_time <$> <[p := y]> m !! r).
  { intros r. unfold m2. destruct (decide (l1 = [])); [done|]. by apply alter_field. }
  assert (E3 : wake_time <$> <[p := y]> m !! q = if decide (q = p) then Some (wake_time y) else wake_time <$> m !! q).
  { destruct (decide (q = p)) as [->|]; [by rewrite lookup_insert_eq|by rewrite lookup_insert_ne]. }
  destruct l2 as [|c l2]; [rewrite (decide_False (P := hd_error [] = Some q)) by done; by rewrite E2|]. cbn [hd_error]. destruct (decide (q = c)) as [->|Hc].
  - rewrite lookup_alter_eq. assert (c ≠ p) by (intros ->; apply Hp; left). destruct (decide (c = p)) as [|_]; [done|]. rewrite (decide_True (P := Some c = Some c)) by done. rewrite <-E2 in E3.
    destruct (m2 !! c) as [z|], (m !! c) as [w|]; cbn in E3 |- *; try done. injection E3 as E3. by rewrite E3.
  - rewrite lookup_alter_ne by congruence. rewrite (decide_False (P := Some c = Some q)) by congruence. by rewrite E2.
Qed.

Lemma total_ext f f' l : (∀ p, p ∈ l → f' p = f p) → total f' l = total f l.
Proof. induction l as [|p l IH]; intros E; [done|]. cbn. rewrite E by left. f_equal. apply IH. intros q Hq. apply E. by right. Qed.

(** The new process is due after [ticks]; the others stay due when they were. *)
Lemma slept_dues l1 l2 p rem ticks y s s' t :
  procs s' = slept l1 l2 p rem y (procs s) → wake_time y = rem → total (wt s) l1 + rem = ticks → timed s → 0 <= rem → (∀ c l3, l2 = c :: l3 → rem < wt s c) → NoDup (l1 ++ l2) → (p ∉ l1 ++ l2) →
  dues (wt s') t (l1 ++ p :: l2) = dues (wt s) t l1 ++ (p, t + ticks) :: dues (wt s) (t + total (wt s) l1) l2.
Proof.
  intros Ep Ey Et Ht H0 Hc Hnd Hp. apply not_elem_of_app in Hp as [Hp1 Hp2]. apply NoDup_app in Hnd as (_ & Hdis & Hnd2).
  assert (E : ∀ q, wt s' q = if decide (q = p) then rem else if decide (hd_error l2 = Some q) then (if procs s !! q is Some _ then u64 (wt s q - rem) else 0) else wt s q).
  { intros q. pose proof (slept_wake l1 l2 p rem y (procs s) q Hp2) as E. rewrite <-Ep in E. unfold wt. destruct (decide (q = p)); [destruct (procs s' !! q); [injection E as ->; done|done]|].
    destruct (decide (hd_error l2 = Some q)); destruct (procs s' !! q), (procs s !! q); cbn in E; try done; by injection E. }
  assert (E1 : ∀ q, q ∈ l1 → wt s' q = wt s q).
  { intros q Hq. rewrite E, decide_False by (by intros ->). rewrite decide_False; [done|]. intros Hh. apply (Hdis q Hq). destruct l2; [done|]. injection Hh as ->. left. }
  rewrite dues_app, (dues_ext _ _ _ _ E1), (total_ext _ _ _ E1). f_equal. cbn [dues]. rewrite (E p), (decide_True (P := p = p)) by done. replace (t + total (wt s) l1 + rem) with (t + ticks) by lia. f_equal.
  destruct l2 as [|c l2]; [done|]. apply NoDup_cons in Hnd2 as [Hcl _]. cbn [dues]. assert (Hcp : c ≠ p) by (intros ->; apply Hp2; left). specialize (Hc c l2 eq_refl). pose proof (timed_wt s c Ht) as Hw.
  assert (Ec : wt s' c = wt s c - rem).
  { rewrite E, decide_False, decide_True by done. unfold wt in Hc, Hw |- *. destruct (procs s !! c); [|lia]. apply u64_small. lia. }
  rewrite Ec. replace (t + ticks + (wt s c - rem)) with (t + total (wt s) l1 + wt s c) by lia. f_equal. apply dues_ext. intros q Hq. rewrite E, decide_False by (intros ->; apply Hp2; by right).
  rewrite decide_False; [done|]. intros [= ->]. done.
Qed.

(** The walk stops behind the processes that are due before [ticks] from now. *)
Lemma sleep_walk s L ticks ex :
  qinv ex s L → timed s → 0 <= ticks →
  ∃ l1 l2 curr rem, bloop SCHED_FUEL (sleep_step s) (0, g_sleep_queue s, ticks) = Ok (last0 l1, curr, rem) ∧ L KSleep = l1 ++ l2 ∧ chain (nx s) curr l2 ∧ total (wt s) l1 + rem = ticks ∧ 0 <= rem ∧
  (∀ c l3, l2 = c :: l3 → rem < wt s c).
Proof.
  intros I T Ht.
  destruct (bloop_rule (λ n (st : Z * Z * Z), ∃ l1 l2, L KSleep = l1 ++ l2 ∧ st.1.1 = last0 l1 ∧ chain (nx s) st.1.2 l2 ∧ total (wt s) l1 + st.2 = ticks ∧ 0 <= st.2 ∧ n = Z.of_nat (length l2))
     (λ r : Z * Z * Z, ∃ l1 l2, L KSleep = l1 ++ l2 ∧ r.1.1 = last0 l1 ∧ chain (nx s) r.1.2 l2 ∧ total (wt s) l1 + r.2 = ticks ∧ 0 <= r.2 ∧ (∀ c l3, l2 = c :: l3 → r.2 < wt s c)) (sleep_step s))
     with SCHED_FUEL (Z.of_nat (length (L KSleep))) (0, g_sleep_queue s, ticks) as ([[pv curr] rem] & E & l1 & l2 & El & Epv & Hc & Hr).
  - intros n st (l1 & l2 & _ & _ & _ & _ & _ & ->). lia.
  - intros n [[prev curr] rem] (l1 & l2 & El & Epv & Hc & Hr & H0 & ->). cbn [fst snd] in *. unfold sleep_step. destruct (Z.eqb_spec curr 0) as [->|Hn0].
    { apply chain_nil in Hc. subst l2. eexists. split; [done|]. exists l1, []. cbn [fst snd]. split_and!; try done. }
    destruct (chain_cons _ _ _ Hn0 Hc) as (l3 & -> & Hc3). assert (Hin : curr ∈ L KSleep) by (rewrite El; apply elem_of_app; right; left).
    destruct (queue_live_procs _ _ _ _ _ I Hin) as [x Hx]. rewrite (fetch_Ok _ _ _ Hx). step. assert (Ew : wt s curr = wake_time x) by (unfold wt; by rewrite Hx).
    destruct (Z.leb_spec (wake_time x) rem) as [Hle|Hgt]; eexists; (split; [done|]).
    + exists (Z.of_nat (length l3)). split; [simpl; lia|]. exists (l1 ++ [curr]), l3. cbn [fst snd]. split; [by rewrite <-(assoc_L (++))|]. split; [by rewrite last0_snoc|].
      split; [unfold nx in Hc3; by rewrite Hx in Hc3|]. split; [|split; [lia|done]]. clear -Ew Hr. revert ticks Hr. induction l1 as [|q l1 IH]; intros ticks Hr; cbn in *; [lia|]. specialize (IH (ticks - wt s q)). lia.
    + exists l1, (curr :: l3). cbn [fst snd]. split_and!; try done. intros c l4 [= <- _]. lia.
  - exists [], (L KSleep). cbn [fst snd]. split; [done|]. split; [done|]. split; [apply (qi_chain _ _ _ I KSleep)|]. cbn. split; [lia|]. done.
  - pose proof (queue_length _ _ _ KSleep I). unfold SCHED_FUEL. lia.
  - cbn [fst snd] in *. subst pv. exists l1, l2, curr, rem. split; [done|]. split; [done|]. split; [done|]. done.
Qed.

Definition asleep_at (curr rem : Z) (x : Process) : Process := set_queue_next curr (set_wake_time rem (set_state Sleeping x)).

Lemma slept_spec l1 l2 p curr rem x s s' L :
  qinv p s L → procs s !! p = Some x → waiting_queue x = None → L KSleep = l1 ++ l2 → chain (nx s) curr l2 → timed s → 0 <= rem < 2 ^ 64 →
  procs s' = slept l1 l2 p rem (asleep_at curr rem x) (procs s) → g_sleep_queue s' = (if decide (l1 = []) then p else g_sleep_queue s) →
  g_ready_queues s' = g_ready_queues s → g_ready_tails s' = g_ready_tails s → wait_queues s' = wait_queues s → g_current_proc s' = g_current_proc s →
  qinv 0 s' (ins KSleep (l1 ++ p :: l2) L) ∧ (∀ q, rest <$> procs s' !! q = rest <$> procs s !! q) ∧ timed s' ∧ (∀ q, look s' q = if decide (q = p) then Some (Sleeping, None) else look s q).
Proof.
  intros I Hx Hwq El Hc T Hrem Ep Eh Er Et Ew Ecur. pose proof (qi_proc _ _ _ I _ _ Hx) as [Hp0 Hpr]. pose proof (qi_dup _ _ _ I KSleep) as Hnd. pose proof (qi_ex _ _ _ I KSleep) as Hp. rewrite El in Hnd, Hp.
  pose proof Hnd as (Hn1 & Hdis & Hn2)%NoDup_app. apply not_elem_of_app in Hp as [Hp1 Hp2].
  assert (Hl : l1 ≠ [] → is_Some (procs s !! last0 l1) ∧ last0 l1 ≠ p).
  { intros Hn. pose proof (last0_elem _ Hn) as Hin. split; [apply (queue_live_procs _ _ _ KSleep _ I); rewrite El; apply elem_of_app; by left|]. by intros <-. }
  assert (Hlook : ∀ q, look s' q = if decide (q = p) then Some (Sleeping, None) else look s q).
  { intros q. unfold look. rewrite Ep, slept_field by done. unfold vis. cbn. by rewrite Hwq. }
  assert (Hrest : ∀ q, rest <$> procs s' !! q = rest <$> procs s !! q).
  { intros q. rewrite Ep, slept_field by done. destruct (decide (q = p)) as [->|]; [by rewrite Hx|done]. }
  assert (Hprio : ∀ q, priority <$> procs s' !! q = priority <$> procs s !! q).
  { intros q. rewrite Ep, slept_field by done. destruct (decide (q = p)) as [->|]; [by rewrite Hx|done]. }
  assert (N : ∀ q, nx s' q = if decide (q = p) then curr else if decide (l1 ≠ [] ∧ q = last0 l1) then p else nx s q).
  { intros q. pose proof (slept_next l1 l2 p rem (asleep_at curr rem x) (procs s) q Hl) as E. rewrite <-Ep in E. unfold nx. destruct (decide (q = p)); [destruct (procs s' !! q); [by injection E|done]|].
    destruct (decide (l1 ≠ [] ∧ q = last0 l1)); destruct (procs s' !! q), (procs s !! q); cbn in E; try done; by injection E. }
  split; [|split; [done|split; [|done]]].
  - apply (qinv_change p 0 KSleep (l1 ++ p :: l2) s s' L I); try done.
    + rewrite Er, Et. apply I.
    + intros k Hk. destruct k; cbn; rewrite ?Er, ?Et, ?Ew; done.
    + intros k q Hk Hq. rewrite N, (decide_False (P := q = p)) by (intros ->; by apply (qi_ex _ _ _ I) in Hq). rewrite decide_False; [done|]. intros [Hn ->]. apply Hk, (qi_uniq _ _ _ I k KSleep (last0 l1)); [done|].
      rewrite El. apply elem_of_app. left. by apply last0_elem.
    + pose proof (qi_chain _ _ _ I KSleep) as Hc0. rewrite El in Hc0. cbn [khead] in Hc0 |- *. rewrite Eh. apply (chain_graft (nx s) (nx s') (g_sleep_queue s) l1 l2 p (p :: l2)); [done|done| | |].
      * intros q Hq Hne. rewrite N, (decide_False (P := q = p)) by (by intros ->). rewrite decide_False; [done|]. by intros [_ ?].
      * intros Hn. rewrite N, (decide_False (P := last0 l1 = p)) by (by apply Hl). by rewrite decide_True.
      * split; [done|]. split; [lia|]. rewrite N, (decide_True (P := p = p)) by done. apply (chain_ext (nx s)); [|done]. intros q Hq. rewrite N, (decide_False (P := q = p)) by (by intros ->). rewrite decide_False; [done|].
        intros [Hn ->]. by apply (Hdis (last0 l1)); [apply last0_elem|].
    + apply NoDup_app. split; [done|]. split; [|by apply NoDup_cons]. intros q Hq [->|Hq2]%elem_of_cons; [done|by apply (Hdis q)].
    + intros q [Hq|[->|Hq]%elem_of_cons]%elem_of_app.
      * split; [|left; rewrite El; apply elem_of_app; by left]. assert (Hq' : q ∈ L KSleep) by (rewrite El; apply elem_of_app; by left). pose proof (qinv_nonzero _ _ _ _ _ I Hq'). lia.
      * split; [lia|]. right. split; [done|]. rewrite Hlook. by rewrite decide_True.
      * split; [|left; rewrite El; apply elem_of_app; by right]. assert (Hq' : q ∈ L KSleep) by (rewrite El; apply elem_of_app; by right). pose proof (qinv_nonzero _ _ _ _ _ I Hq'). lia.
    + intros q Hq. left. rewrite El in Hq. apply elem_of_app in Hq as [Hq|Hq]; apply elem_of_app; [by left|right; by right].
    + intros _ _. left. apply elem_of_app. right. left.
    + by left.
    + intros q Hq _. rewrite Hlook. by rewrite decide_False.
    + intros q z Hz. pose proof (Hprio q) as E. rewrite Hz in E. destruct (procs s !! q) as [w|] eqn:Hw; [|done]. injection E as E. destruct (qi_proc _ _ _ I _ _ Hw). split; [done|]. by rewrite E.
    + intros q [z Hz]. pose proof (Hrest q) as E. rewrite Hz in E. destruct (procs s' !! q); [by eexists|done].
  - intros q z Hz. pose proof (slept_wake l1 l2 p rem (asleep_at curr rem x) (procs s) q Hp2) as E. rewrite <-Ep, Hz in E. cbn in E. destruct (decide (q = p)); [injection E as ->; done|].
    destruct (decide (hd_error l2 = Some q)); destruct (procs s !! q) as [w|] eqn:Hw; cbn in E; try done; injection E as ->; [apply u64_range|by apply (T q)].
Qed.

Lemma dues_sorted f t l1 l2 ticks rem : (∀ p, p ∈ l1 ++ l2 → 0 <= f p) → total f l1 + rem = ticks → 0 <= rem → (∀ c l3, l2 = c :: l3 → rem < f c) →
  (∀ q u, (q, u) ∈ dues f t l1 → u <= t + ticks) ∧ (∀ q u, (q, u) ∈ dues f (t + total f l1) l2 → t + ticks < u).
Proof.
  intros Hf Et H0 Hc. assert (Hf1 : ∀ p, p ∈ l1 → 0 <= f p) by (intros p Hp; apply Hf, elem_of_app; by left). split.
  - intros q u Hq. pose proof (dues_le f t l1 q u Hf1 Hq). lia.
  - intros q u Hq. destruct l2 as [|c l3]; [by apply not_elem_of_nil in Hq|]. specialize (Hc c l3 eq_refl). cbn in Hq. apply elem_of_cons in Hq as [[= -> ->]|Hq]; [lia|].
    apply dues_ge in Hq; [lia|]. intros p Hp. apply Hf, elem_of_app. right. by right.
Qed.

(** A process goes to sleep: it is due [ticks] after the tick the queue counts from, behind
    those due at the same tick, and the others stay due when they were. *)
Lemma sleep_queue_push_spec p ticks s L x :
  qinv p s L → procs s !! p = Some x → waiting_queue x = None → timed s → 0 <= ticks < 2 ^ 64 →
  let base := if decide (L KSleep = []) then g_now s else g_last_sleep_tick s in
  ∃ s' l1 l2 D1 D2, sleep_queue_push p ticks s = Ok s' ∧ L KSleep = l1 ++ l2 ∧ qinv 0 s' (ins KSleep (l1 ++ p :: l2) L) ∧ rest_same s s' ∧ g_current_proc s' = g_current_proc s ∧
  (∀ q, look s' q = if decide (q = p) then Some (Sleeping, None) else look s q) ∧ timed s' ∧ g_last_sleep_tick s' = base ∧
  dues (wt s) base (L KSleep) = D1 ++ D2 ∧ dues (wt s') base (l1 ++ p :: l2) = D1 ++ (p, base + ticks) :: D2 ∧
  (∀ q t, (q, t) ∈ D1 → t <= base + ticks) ∧ (∀ q t, (q, t) ∈ D2 → base + ticks < t).
Proof.
  intros I Hx Hwq T Htk base. unfold sleep_queue_push. rewrite (bind_Ok _ _ _ (update_Ok _ _ _ _ Hx)); cbv beta. set (s0 := with_procs _ s). set (x0 := set_state Sleeping x) in *.
  assert (Hx0 : procs s0 !! p = Some x0) by (unfold s0; cbn; by rewrite lookup_insert_eq).
  assert (I0 : qinv p s0 L) by (apply (qinv_field _ _ _ p x); [done|done|done|by right|apply (qi_proc _ _ _ I _ _ Hx)]).
  assert (S0 : sleep_same s s0). { split; [|done..]. intros q. unfold s0. cbn. destruct (decide (q = p)) as [->|]; [by rewrite lookup_insert_eq, Hx|by rewrite lookup_insert_ne]. }
  pose proof (timed_same _ _ S0 T) as T0. assert (R0 : rest_same s s0) by (by apply (rest_insert p x)).
  assert (Hgo : ∃ s' l1 l2 curr rem, (if g_sleep_queue s0 =? 0 then
         s1 ← update p (λ x, set_queue_next 0 (set_wake_time ticks x)) s0; Ok (with_last_tick (g_now s1) (with_sleep p s1))
       else
         '(prev, curr, remaining) ← bloop SCHED_FUEL (sleep_step s0) (0, g_sleep_queue s0, ticks);
         s1 ← update p (λ x, set_queue_next curr (set_wake_time remaining x)) s0;
         s1 ← (if prev =? 0 then Ok (with_sleep p s1) else update prev (set_queue_next p) s1);
         if curr =? 0 then Ok s1 else update curr (λ x, set_wake_time (u64 (wake_time x - remaining)) x) s1) = Ok s' ∧
       L KSleep = l1 ++ l2 ∧ chain (nx s0) curr l2 ∧ total (wt s0) l1 + rem = ticks ∧ 0 <= rem ∧ (∀ c l3, l2 = c :: l3 → rem < wt s0 c) ∧
       s' = with_last_tick base (with_sleep (if decide (l1 = []) then p else g_sleep_queue s0) (with_procs (slept l1 l2 p rem (asleep_at curr rem x0) (procs s0)) s0))).
  { pose proof (qi_chain _ _ _ I0 KSleep) as Hc. cbn [khead] in Hc. destruct (Z.eqb_spec (g_sleep_queue s0) 0) as [E0|Hn0].
    - rewrite E0 in Hc. apply chain_nil in Hc. rewrite (update_Ok _ _ _ _ Hx0). step. eexists _, [], [], 0, ticks. split; [done|]. split; [done|]. split; [done|]. split; [cbn; lia|]. split; [lia|]. split; [done|].
      unfold base. by rewrite decide_True.
    - destruct (sleep_walk s0 L ticks p I0 T0 ltac:(lia)) as (l1 & l2 & curr & rem & E & El & Hcur & Htot & H0 & Hlt). rewrite E. clear E. cbn [mbind res_bind].
      rewrite (update_Ok _ _ _ _ Hx0). cbn [mbind res_bind]. set (s1 := with_procs _ s0). pose proof (qi_ex _ _ _ I0 KSleep) as Hpl. rewrite El in Hpl. apply not_elem_of_app in Hpl as [Hp1 Hp2].
      assert (Hbase : base = g_last_sleep_tick s0). { unfold base. rewrite decide_False; [done|]. intros En. rewrite En in Hc. cbn in Hc. done. }
      assert (Hlive : ∀ q, q ∈ l1 ++ l2 → is_Some (procs s1 !! q)) by (intros q Hq; rewrite <-El in Hq; by apply live_insert, (queue_live_procs _ _ _ KSleep q I0)).
      assert (E2 : (if last0 l1 =? 0 then Ok (with_sleep p s1) else update (last0 l1) (set_queue_next p) s1) =
        Ok (with_sleep (if decide (l1 = []) then p else g_sleep_queue s0) (with_procs (if decide (l1 = []) then procs s1 else alter (set_queue_next p) (last0 l1) (procs s1)) s1))).
      { destruct (decide (l1 = [])) as [->|Hn]; [done|]. pose proof (last0_elem _ Hn) as Hin. destruct (Z.eqb_spec (last0 l1) 0) as [Ez|_].
        - exfalso. assert (Hin' : last0 l1 ∈ L KSleep) by (rewrite El; apply elem_of_app; by left). pose proof (qinv_nonzero _ _ _ _ _ I0 Hin'). lia.
        - destruct (Hlive (last0 l1)) as [z Hz]; [apply elem_of_app; by left|]. rewrite (update_Ok _ _ _ _ Hz), (insert_alter_id _ _ _ _ Hz). done. }
      rewrite E2. cbn [mbind res_bind]. set (s2 := with_sleep _ _). destruct l2 as [|c l3].
      + cbn in Hcur. subst curr. rewrite Z.eqb_refl. eexists _, l1, [], 0, rem. split; [done|]. rewrite Hbase. split_and!; done.
      + pose proof Hcur as (-> & Hc0 & _). destruct (Z.eqb_spec c 0) as [|_]; [done|]. assert (Hz : ∃ z, procs s2 !! c = Some z).
        { destruct (Hlive c) as [z Hz]; [apply elem_of_app; right; left|]. unfold s2. cbn [procs with_sleep with_procs]. case_decide; [by exists z|]. destruct (decide (c = last0 l1)) as [->|]; [rewrite lookup_alter_eq, Hz; by eexists|].
          rewrite lookup_alter_ne by done. by exists z. }
        destruct Hz as [z Hz]. rewrite (update_Ok _ _ _ _ Hz), <-(insert_alter_id _ _ _ (λ x, set_wake_time (u64 (wake_time x - rem)) x) Hz). eexists _, l1, (c :: l3), c, rem. split; [done|]. rewrite Hbase. split_and!; done. }
  destruct Hgo as (s' & l1 & l2 & curr & rem & -> & El & Hc & Htot & H0 & Hlt & Es').
  destruct (slept_spec l1 l2 p curr rem x0 s0 s' L I0 Hx0 Hwq El Hc T0) as (Q1 & Q2 & Q3 & Q4); try (by rewrite Es').
  { split; [done|]. assert (0 <= total (wt s0) l1); [|lia]. clear -T0. induction l1 as [|q l1 IH]; cbn; [done|]. pose proof (timed_wt s0 q T0). lia. }
  exists s', l1, l2, (dues (wt s0) base l1), (dues (wt s0) (base + total (wt s0) l1) l2). split; [done|]. split; [done|]. split; [done|].
  split; [eapply rest_trans; [exact R0|split; [done|by rewrite Es'..]]|]. split; [by rewrite Es'|].
  split; [intros q; rewrite Q4; unfold s0; rewrite look_insert; by destruct (decide (q = p))|]. split; [done|]. split; [by rewrite Es'|]. split; [|split].
  - rewrite (dues_ext (wt s0)); [by rewrite El, dues_app|]. intros q _. symmetry. by apply wt_same.
  - apply (slept_dues l1 l2 p rem ticks (asleep_at curr rem x0) s0); try done; [by rewrite Es'|rewrite <-El; apply I0|rewrite <-El; apply I0].
  - apply (dues_sorted _ _ _ _ _ rem); try done. intros q _. by apply timed_wt.
Qed.

(** * Waking sleepers *)

(** What stays of the sleepers [l] when another process has been woken. *)
Definition sleepers_same (l : list Z) (s s' : Sched) : Prop := ∀ q, q ∈ l → wt s' q = wt s q.

Lemma wake_one p l s L x :
  qinv 0 s L → L KSleep = p :: l → procs s !! p = Some x → timed s →
  ∃ s' i, (s1 ← update p (λ x, set_queue_next 0 (set_state Ready (set_wake_time 0 x))) (with_sleep (queue_next x) s);
           s1 ← (if (0 <? priority x) && negb (pid x =? 0) then update p (set_priority (priority x - 1)) s1 else Ok s1);
           s1 ← interactive_boost_if_needed p s1;
           ready_queue_push p s1) = Ok s' ∧
  qinv 0 s' (ins (KReady i) (L (KReady i) ++ [p]) (ins KSleep l L)) ∧ woken [p] s s' ∧ timed s' ∧ sleepers_same l s s' ∧ g_last_sleep_tick s' = g_last_sleep_tick s.
Proof.
  intros I El Hx T. assert (Hp : p ∈ L KSleep) by (rewrite El; left). pose proof (qi_mem _ _ _ I _ _ Hp) as Hv. pose proof Hv as Hv'. unfold look in Hv'. rewrite Hx in Hv'. injection Hv' as Est Ewq.
  rewrite (update_Ok p _ (with_sleep (queue_next x) s) x Hx). step. set (s1 := with_procs _ _). pose proof (qi_proc _ _ _ I _ _ Hx) as [Hp0 Hpr].
  pose proof (qi_dup _ _ _ I KSleep) as Hnd. rewrite El in Hnd. apply NoDup_cons in Hnd as [Hpl _].
  destruct (qinv_unlink p KSleep [] l s s1 L x (λ x, set_state Ready (set_wake_time 0 x)) I El Hx) as (Q1 & Q2 & Q3 & Q4 & Q5); try done; [apply I|by intros [] ?|].
  set (x1 := set_queue_next 0 (set_state Ready (set_wake_time 0 x))) in *.
  assert (Hprio : ∃ s2 x2, (if (0 <? priority x) && negb (pid x =? 0) then update p (set_priority (priority x - 1)) s1 else Ok s1) = Ok s2 ∧ qinv p s2 (ins KSleep l L) ∧ pushed s1 s2 ∧ procs s2 !! p = Some x2 ∧ vis x2 = vis x1).
  { case_match eqn:Ec; [|by exists s1, x1]. apply andb_true_iff in Ec as [Ec%Z.ltb_lt _]. rewrite (update_Ok _ _ _ _ Q5). eexists _, _. split; [done|]. split; [apply (qinv_field _ _ _ p x1); try done; [by left|cbn; lia]|].
    split; [by apply (pushed_insert p x1)|]. cbn. by rewrite lookup_insert_eq. }
  destruct Hprio as (s2 & x2 & E2 & I2 & P2 & Hx2 & V2). rewrite E2. step. destruct (boost_spec p p s2 _ _ I2 Hx2) as (s3 & x3 & E3 & I3 & P3 & Hx3 & V3 & _). rewrite E3. step.
  destruct (ready_queue_push_spec p s3 _ x3 I3 Hx3) as (s4 & E4 & I4 & P4); [rewrite V3, V2; unfold vis; cbn; by rewrite Ewq|]. rewrite E4. exists s4, (level x3). split; [done|]. rewrite ins_ne in I4 by done.
  pose proof (pushed_trans _ _ _ P2 (pushed_trans _ _ _ P3 P4)) as P. split; [done|]. split; [|split; [|split]].
  - split; [eapply rest_trans; [|apply P]; by split|by rewrite (ps_cur _ _ P)|..].
    + intros q. rewrite (ps_look _ _ P). destruct (decide (q = p)) as [->|Hq]; [rewrite decide_True by left; unfold look; rewrite Q5; unfold vis; cbn; by rewrite Ewq|].
      rewrite decide_False by (by intros ->%list_elem_of_singleton). by apply Q2.
    + intros q ->%list_elem_of_singleton. eexists. split; [done|]. by right.
  - apply (timed_same s1); [by apply pushed_sleep|]. intros q y Hy. destruct (decide (q = p)) as [->|Hq]; [rewrite Q5 in Hy; injection Hy as <-; cbn; lia|].
    specialize (Q4 q Hq). rewrite Hy in Q4. destruct (procs s !! q) as [z|] eqn:Hz; [|done]. injection Q4 as ->. by apply (T q).
  - intros q Hq. rewrite (wt_same s1) by (by apply pushed_sleep). assert (Hne : q ≠ p) by (by intros ->). specialize (Q4 q Hne). unfold wt. destruct (procs s1 !! q), (procs s !! q); try done. by injection Q4.
  - by rewrite (ps_tick _ _ P).
Qed.

(** The processes that are due are woken, except that one due at this very tick may stay until the next. *)
Lemma wake_sleeping_spec s L :
  qinv 0 s L → timed s →
  ∃ s' L' D1 D2, wake_sleeping_processes s = Ok s' ∧ qinv 0 s' L' ∧ woken D1.*1 s s' ∧ timed s' ∧ (∀ q, L' (KWait q) = L (KWait q)) ∧
  dues (wt s) (g_last_sleep_tick s) (L KSleep) = D1 ++ D2 ∧ dues (wt s') (g_last_sleep_tick s') (L' KSleep) = D2 ∧
  (∀ q t, (q, t) ∈ D1 → t <= g_now s) ∧ (∀ q t, (q, t) ∈ D2 → g_now s <= t).
Proof.
  intros I T. unfold wake_sleeping_processes. pose proof (qi_chain _ _ _ I KSleep) as Hc. cbn [khead] in Hc.
  assert (Hge : ∀ q t, (q, t) ∈ dues (wt s) (g_last_sleep_tick s) (L KSleep) → g_last_sleep_tick s <= t) by (intros q t; apply dues_ge; intros p _; by apply timed_wt).
  destruct (Z.eqb_spec (g_sleep_queue s) 0) as [E0|Hn0].
  { rewrite E0 in Hc. apply chain_nil in Hc. exists s, L, [], []. rewrite Hc. split_and!; try done; [apply woken_refl|intros q t Hq; by apply not_elem_of_nil in Hq..]. }
  destruct (Z.leb_spec (g_now s) (g_last_sleep_tick s)) as [Hle|Hlt].
  { exists s, L, [], (dues (wt s) (g_last_sleep_tick s) (L KSleep)). split_and!; try done; [apply woken_refl|intros q t Hq; by apply not_elem_of_nil in Hq|]. intros q t Hq. specialize (Hge q t Hq). lia. }
  set (now := g_now s) in *. set (D := dues (wt s) (g_last_sleep_tick s) (L KSleep)) in *. set (s0 := with_last_tick now s).
  destruct (bloop_rule (λ n (st : Z * Sched), ∃ Lc D1 D2, qinv 0 st.2 Lc ∧ woken D1.*1 s st.2 ∧ timed st.2 ∧ (∀ q, Lc (KWait q) = L (KWait q)) ∧ D = D1 ++ D2 ∧ dues (wt st.2) (now - st.1) (Lc KSleep) = D2 ∧
        (∀ q t, (q, t) ∈ D1 → t <= now) ∧ 0 <= st.1 ∧ g_last_sleep_tick st.2 = now ∧ n = if st.1 =? 0 then 0 else Z.of_nat (length (Lc KSleep)))
     (λ r : Sched, ∃ Lc D1 D2, qinv 0 r Lc ∧ woken D1.*1 s r ∧ timed r ∧ (∀ q, Lc (KWait q) = L (KWait q)) ∧ D = D1 ++ D2 ∧ dues (wt r) now (Lc KSleep) = D2 ∧
        (∀ q t, (q, t) ∈ D1 → t <= now) ∧ g_last_sleep_tick r = now) wake_step)
     with SCHED_FUEL (Z.of_nat (length (L KSleep))) (now - g_last_sleep_tick s, s0) as (r & E & Lc & D1 & D2 & I' & W & T' & B & ED & ED2 & H1 & Htick).
  - intros n st (Lc & D1 & D2 & _ & _ & _ & _ & _ & _ & _ & _ & _ & ->). destruct (st.1 =? 0); lia.
  - intros n [diff s1] (Lc & D1 & D2 & I1 & W & T1 & B & ED & ED2 & H1 & Hd & Htick & ->). cbn [fst snd] in *. unfold wake_step. pose proof (qi_chain _ _ _ I1 KSleep) as Hc1. cbn [khead] in Hc1.
    destruct (Z.ltb_spec 0 diff) as [Hpos|Hz]; cbn [andb].
    2:{ assert (diff = 0) as -> by lia. eexists. split; [done|]. exists Lc, D1, D2. rewrite Z.sub_0_r in ED2. split_and!; done. }
    destruct (Z.eqb_spec (g_sleep_queue s1) 0) as [Eq0|Hq0]; cbn [negb].
    { rewrite Eq0 in Hc1. apply chain_nil in Hc1. eexists. split; [done|]. exists Lc, D1, D2. rewrite Hc1 in ED2 |- *. split_and!; done. }
    destruct (chain_cons _ _ _ Hq0 Hc1) as (l & El & _). set (p := g_sleep_queue s1) in *. assert (Hp : p ∈ Lc KSleep) by (rewrite El; left). destruct (queue_live_procs _ _ _ _ _ I1 Hp) as [x Hx].
    rewrite (fetch_Ok _ _ _ Hx). cbn [mbind res_bind]. assert (Ew : wt s1 p = wake_time x) by (unfold wt; by rewrite Hx). pose proof (T1 p x Hx) as Hwx. rewrite El in ED2. cbn [dues] in ED2. rewrite Ew in ED2.
    destruct (Z.eqb_spec diff 0) as [|_]; [lia|]. destruct (Z.leb_spec (wake_time x) diff) as [Hle2|Hgt].
    + destruct (wake_one p l s1 Lc x I1 El Hx T1) as (s2 & i & E2 & I2 & W2 & T2 & Sl2 & Ht2). eexists. split.
      { revert E2. destruct (update p _ _) as [sa| |]; [|done..]. cbn [mbind res_bind]. match goal with |- context [if ?b then update p ?f sa else Ok sa] => destruct (if b then update p f sa else Ok sa) as [sb| |] end; [|done..]. cbn [mbind res_bind]. destruct (interactive_boost_if_needed p sb) as [sc| |]; [|done..].
        cbn [mbind res_bind]. intros ->. done. }
      exists (if diff - wake_time x =? 0 then 0 else Z.of_nat (length l)). split; [rewrite El; cbn [length]; destruct (diff - wake_time x =? 0); lia|].
      eexists _, (D1 ++ [(p, now - diff + wake_time x)]), (dues (wt s1) (now - diff + wake_time x) l). cbn [fst snd]. split; [done|].
      split; [rewrite fmap_app; by eapply woken_trans|]. split; [done|]. split; [intros q; rewrite ins_ne, ins_ne by done; apply B|]. split; [rewrite ED, <-ED2, <-(assoc_L (++)); done|].
      rewrite ins_ne, ins_eq by done. split; [replace (now - (diff - wake_time x)) with (now - diff + wake_time x) by lia; by apply dues_ext|]. split; [|split; [lia|split; [congruence|done]]].
      intros q t [Hq|[= -> ->]%list_elem_of_singleton]%elem_of_app; [by eapply H1|lia].
    + rewrite (update_Ok _ _ _ _ Hx). cbn [mbind res_bind]. eexists. split; [done|]. exists 0. split; [rewrite El; cbn [length]; lia|]. set (s2 := with_procs _ s1).
      assert (Hwt : ∀ q, wt s2 q = if decide (q = p) then wake_time x - diff else wt s1 q).
      { intros q. unfold wt, s2. cbn. destruct (decide (q = p)) as [->|]; [by rewrite lookup_insert_eq|by rewrite lookup_insert_ne]. }
      exists Lc, D1, D2. cbn [fst snd]. split; [apply (qinv_field _ _ _ p x); [done|done|done|by left|apply (qi_proc _ _ _ I1 _ _ Hx)]|]. split.
      { rewrite <-(app_nil_r D1.*1). eapply woken_trans; [exact W|]. split; [by apply (rest_insert p x)|done|..].
        - intros q. unfold s2. rewrite look_insert. rewrite (decide_False (P := q ∈ ([] : list Z))) by apply not_elem_of_nil. destruct (decide (q = p)) as [->|]; [|done]. unfold look. by rewrite Hx.
        - intros q Hq. by apply not_elem_of_nil in Hq. }
      split. { intros q y. unfold s2. cbn. destruct (decide (q = p)) as [->|]; [rewrite lookup_insert_eq; intros [= <-]; cbn; lia|rewrite lookup_insert_ne by done; apply T1]. }
      split; [done|]. split; [done|]. split; [|split; [done|split; [lia|split; [done|done]]]]. rewrite <-ED2, El. cbn [dues]. rewrite Hwt, decide_True by done. replace (now - 0 + (wake_time x - diff)) with (now - diff + wake_time x) by lia.
      f_equal. apply dues_ext. intros q Hq. rewrite Hwt, decide_False; [done|]. intros ->. pose proof (qi_dup _ _ _ I1 KSleep) as Hnd. rewrite El in Hnd. by apply NoDup_cons in Hnd as [? _].
  - exists L, [], D. cbn [fst snd]. split.
    { apply (qinv_frame 0 s); try done; [apply I|]. apply (qi_proc _ _ _ I). }
    split; [split; [done|done|intros q; by rewrite decide_False by apply not_elem_of_nil|intros q Hq; by apply not_elem_of_nil in Hq]|]. split; [done|]. split; [done|]. split; [done|].
    split; [unfold D; f_equal; lia|]. split; [intros q t Hq; by apply not_elem_of_nil in Hq|]. split; [lia|]. split; [done|]. destruct (Z.eqb_spec (now - g_last_sleep_tick s) 0); [lia|done].
  - pose proof (queue_length _ _ _ KSleep I). unfold SCHED_FUEL. lia.
  - exists r, Lc, D1, D2. split; [done|]. split_and!; try done; [by rewrite Htick|]. intros q t Hq. rewrite <-ED2 in Hq. apply dues_ge in Hq; [done|]. intros p' _. by apply timed_wt.
Qed.
