(* ===== verification/SchedRun.v ===== *)
(** Choosing the next process (Sched.v): the scheduler runs the head of the first ready
    queue that is not empty, and every other process stays on the queue its state says. *)

From S2P Require Import Prelude Sched SchedInv SchedOps SchedSleep.

#[local] Strategy opaque [bloop].

Definition active (v : ProcessState * option WaitQueueId) : Prop := v = (Ready, None) ∨ v = (Running, None).

(** What a change of the current process leaves alone. *)
Record switched (s s' : Sched) : Prop := {
  sw_rest : rest_same s s';
  sw_look q : look s' q = look s q ∨ ∃ v v', look s q = Some v ∧ v.1 ≠ Zombie ∧ look s' q = Some v' ∧ active v'
}.

Lemma woken_switched W s s' : woken W s s' → switched s s'.
Proof.
  intros [A1 A2 A3 A4]. split; [done|]. intros q. rewrite A3. destruct (decide (q ∈ W)) as [Hq|]; [right|by left]. destruct (A4 q Hq) as (v & E & Hv). exists v, (Ready, None).
  split; [done|]. split; [destruct Hv as [-> | ->]; done|]. split; [done|by left].
Qed.

Lemma switched_trans s1 s2 s3 : switched s1 s2 → switched s2 s3 → switched s1 s3.
Proof.
  intros [A1 A2] [B1 B2]. split; [by eapply rest_trans|]. intros q. destruct (B2 q) as [E|(v & v' & E & Hv & E' & Ha)]; [rewrite E; apply A2|].
  right. destruct (A2 q) as [E2|(w & w' & E2 & Hw & E3 & Hb)]; [rewrite E2 in E; by exists v, v'|by exists w, v'].
Qed.

Lemma switched_pushed s s' : pushed s s' → switched s s'.
Proof. intros P. by eapply woken_switched, pushed_woken. Qed.

Lemma switched_active s s' q v : switched s s' → look s q = Some v → active v → ∃ v', look s' q = Some v' ∧ active v'.
Proof. intros [_ A] E Hv. destruct (A q) as [E2|(w & w' & _ & _ & E2 & Hw)]; [exists v; by rewrite E2|by exists w']. Qed.

(** A process that is ready or running is on a ready queue or is the current one. *)
Lemma ready_queued s L p : qinv 0 s L → look s p = Some (Ready, None) → ∃ i, p ∈ L (KReady i).
Proof.
  intros I Hv. destruct (look_Some _ _ _ Hv) as (x & Hx & _). destruct (qi_proc _ _ _ I _ _ Hx) as [Hp0 _].
  destruct (qi_where _ _ _ I p _ ltac:(lia) Hv) as [[k Hk]|[[? _]|[?|?]]]; [|done..]. pose proof (qi_mem _ _ _ I k p Hk) as E. rewrite Hv in E. destruct k as [i| |q]; [by exists i|done|done].
Qed.

Lemma running_current s L p : qinv 0 s L → look s p = Some (Running, None) → p = g_current_proc s.
Proof.
  intros I Hv. destruct (look_Some _ _ _ Hv) as (x & Hx & _). destruct (qi_proc _ _ _ I _ _ Hx) as [Hp0 _].
  destruct (qi_where _ _ _ I p _ ltac:(lia) Hv) as [[k Hk]|[[_ E]|[?|?]]]; [|done..]. pose proof (qi_mem _ _ _ I k p Hk) as E. rewrite Hv in E. by destruct k.
Qed.

(** The process taken off the ready queues becomes the current one. *)
Lemma qinv_switch p s L x y :
  qinv p s L → procs s !! p = Some x → (∀ q, q ≠ p → look s q ≠ Some (Running, None)) → vis y = (Running, None) → queue_next y = queue_next x → priority y = priority x →
  qinv 0 (with_procs (<[p := y]> (procs s)) (with_current p s)) L.
Proof.
  intros I Hx Hrun Hv Hn Hpr. set (s1 := with_current p s). assert (I1 : qinv p s1 L).
  { destruct I as [I1 I2 I3 I4 I5 I6 I7 I8 I9 I10]. split; try done. intros q v Hq Hv'. destruct (I8 q v Hq Hv') as [?|[[-> _]|?]]; [by left|by destruct (Hrun q Hq)|right; by right]. }
  apply (qinv_unmark p).
  - apply (qinv_field p s1 L p x); [done|done|done|by right|]. rewrite Hpr. apply (qi_proc _ _ _ I _ _ Hx).
  - intros v. rewrite (look_insert p y s1), decide_True by done. intros [= <-]. left. by rewrite Hv.
Qed.

(** The current process, if it runs, goes to the end of its queue. *)
Lemma requeue_spec s L x :
  let cur := g_current_proc s in
  qinv 0 s L → timed s → procs s !! cur = Some x →
  ∃ s' L', (if decide (state x = Running) then
              s1 ← (if max_slice (priority x) <=? time_slice x then
                      s1 ← (if (priority x <? NUM_PRIORITY_LEVELS - 1) && negb (pid x =? 0) then update cur (set_priority (priority x + 1)) s else Ok s);
                      update cur (set_time_slice 0) s1
                    else Ok s);
              s1 ← update cur (set_state Ready) s1;
              ready_queue_push cur s1
            else Ok s) = Ok s' ∧
  qinv 0 s' L' ∧ timed s' ∧ switched s s' ∧ g_current_proc s' = cur ∧ (∀ q, L' (KWait q) = L (KWait q)) ∧ L' KSleep = L KSleep ∧ sleep_same s s' ∧ (∀ q, look s' q ≠ Some (Running, None)) ∧
  (∀ q, look s' q = if decide (look s q = Some (Running, None)) then Some (Ready, None) else look s q) ∧
  (∀ i, L' (KReady i) = L (KReady i) ∨ state x = Running ∧ L' (KReady i) = L (KReady i) ++ [cur]).
Proof.
  intros cur I T Hx. pose proof (qi_proc _ _ _ I _ _ Hx) as [Hp0 Hpr]. assert (Hcur : look s cur = Some (vis x)) by (unfold look; by rewrite Hx).
  destruct (decide (state x = Running)) as [Er|Hr].
  2:{ assert (Hno : ∀ q, look s q ≠ Some (Running, None)). { intros q Hq. pose proof (running_current _ _ _ I Hq) as ->. fold cur in Hq. rewrite Hcur in Hq. by injection Hq. }
      exists s, L. split_and!; try done; [by apply switched_pushed|intros q; by rewrite decide_False by apply Hno|intros i; by left]. }
  assert (Hoff : ∀ k, cur ∉ L k) by (apply (qinv_off s L cur _ I Hcur); unfold vis; rewrite Er; by intros []).
  assert (Hwq : waiting_queue x = None). { destruct (qi_where _ _ _ I cur _ ltac:(lia) Hcur) as [[k Hk]|[[E _]|[E|E]]]; [by apply Hoff in Hk|by injection E|by injection E|by injection E]. }
  pose proof (qinv_mark cur s L I Hoff) as I0.
  assert (Hslice : ∃ s1 x1, (if max_slice (priority x) <=? time_slice x then
                      s1 ← (if (priority x <? NUM_PRIORITY_LEVELS - 1) && negb (pid x =? 0) then update cur (set_priority (priority x + 1)) s else Ok s);
                      update cur (set_time_slice 0) s1
                    else Ok s) = Ok s1 ∧ qinv cur s1 L ∧ pushed s s1 ∧ procs s1 !! cur = Some x1 ∧ vis x1 = vis x).
  { destruct (max_slice (priority x) <=? time_slice x); [|by exists s, x].
    assert (Hdem : ∃ s1 x1, (if (priority x <? NUM_PRIORITY_LEVELS - 1) && negb (pid x =? 0) then update cur (set_priority (priority x + 1)) s else Ok s) = Ok s1 ∧ qinv cur s1 L ∧ pushed s s1 ∧ procs s1 !! cur = Some x1 ∧ vis x1 = vis x).
    { case_match; [|by exists s, x]. rewrite (update_Ok _ _ _ _ Hx). eexists _, _. split; [done|]. split; [apply (qinv_field _ _ _ cur x); try done; [by left|cbn; lia]|]. split; [by apply (pushed_insert cur x)|]. cbn. by rewrite lookup_insert_eq. }
    destruct Hdem as (s1 & x1 & E1 & I1 & P1 & Hx1 & V1). rewrite E1. step. rewrite (update_Ok _ _ _ _ Hx1). eexists _, _. split; [done|].
    split; [apply (qinv_field _ _ _ cur x1); try done; [by left|apply (qi_proc _ _ _ I1 _ _ Hx1)]|]. split; [eapply pushed_trans; [done|]; by apply (pushed_insert cur x1)|]. cbn. by rewrite lookup_insert_eq. }
  destruct Hslice as (s1 & x1 & E1 & I1 & P1 & Hx1 & V1). rewrite E1. step. rewrite (update_Ok _ _ _ _ Hx1). step. set (s2 := with_procs _ s1).
  assert (Hx2 : procs s2 !! cur = Some (set_state Ready x1)) by (unfold s2; cbn; by rewrite lookup_insert_eq).
  assert (I2 : qinv cur s2 L) by (apply (qinv_field _ _ _ cur x1); [done|done|done|by right|apply (qi_proc _ _ _ I1 _ _ Hx1)]).
  assert (Hv2 : vis (set_state Ready x1) = (Ready, None)) by (injection V1 as _ V1; unfold vis; cbn; by rewrite V1, Hwq).
  destruct (ready_queue_push_spec cur s2 L _ I2 Hx2 Hv2) as (s3 & E3 & I3 & P3). rewrite E3. eexists s3, _. split; [done|]. split; [done|].
  assert (S12 : sleep_same s1 s2). { split; [|done..]. intros q. unfold s2. cbn. destruct (decide (q = cur)) as [->|]; [by rewrite lookup_insert_eq, Hx1|by rewrite lookup_insert_ne]. }
  pose proof (sleep_trans _ _ _ (pushed_sleep _ _ P1) (sleep_trans _ _ _ S12 (pushed_sleep _ _ P3))) as S.
  assert (Hlook : ∀ q, look s3 q = if decide (look s q = Some (Running, None)) then Some (Ready, None) else look s q).
  { intros q. rewrite (ps_look _ _ P3). unfold s2. rewrite look_insert, Hv2, (ps_look _ _ P1). destruct (decide (q = cur)) as [->|Hq].
    - rewrite decide_True; [done|]. rewrite Hcur. unfold vis. by rewrite Er, Hwq.
    - rewrite decide_False; [done|]. intros Hq2. by apply Hq, (running_current s L). }
  split; [by apply (timed_same s)|]. split; [|split; [by rewrite (ps_cur _ _ P3); apply (ps_cur _ _ P1)|]].
  - split; [eapply rest_trans; [apply P1|eapply rest_trans; [|apply P3]]; by apply (rest_insert cur x1)|]. intros q. rewrite Hlook. case_decide as Hd; [right; rewrite Hd; exists (Running, None), (Ready, None); split_and!; try done; by left|by left].
  - split; [intros q; by rewrite ins_ne|]. split; [by rewrite ins_ne|]. split; [done|]. split; [|split; [done|]].
    + intros q. rewrite Hlook. by case_decide.
    + intros i. destruct (decide (KReady i = KReady (level (set_state Ready x1)))) as [[= ->]|Hne]; [right; by rewrite ins_eq|left; by rewrite ins_ne].
Qed.

(** There is a process to run. *)
Definition runnable (s : Sched) : Prop := ∃ d v, look s d = Some v ∧ active v.

Lemma schedule_internal_spec s L :
  qinv 0 s L → timed s → is_Some (procs s !! g_current_proc s) → runnable s →
  ∃ s' L', scheduler_schedule_internal s = Ok s' ∧ qinv 0 s' L' ∧ timed s' ∧ switched s s' ∧ look s' (g_current_proc s') = Some (Running, None) ∧ (∀ q, L' (KWait q) = L (KWait q)) ∧
  ∃ D1 D2 L1 i l,
    dues (wt s) (g_last_sleep_tick s) (L KSleep) = D1 ++ D2 ∧ dues (wt s') (g_last_sleep_tick s') (L' KSleep) = D2 ∧ (∀ q t, (q, t) ∈ D1 → t <= g_now s) ∧ (∀ q t, (q, t) ∈ D2 → g_now s <= t) ∧
    L1 (KReady i) = g_current_proc s' :: l ∧ (∀ j, (j < i)%nat → L1 (KReady j) = []) ∧ (∀ j, L' (KReady j) = if decide (j = i) then l else L1 (KReady j)) ∧
    (∀ q, (∃ j, q ∈ L1 (KReady j)) ↔ (∃ v, look s q = Some v ∧ active v) ∨ q ∈ D1.*1).
Proof.
  intros I T [x Hx] (d & vd & Hd & Ha). set (cur := g_current_proc s) in *. unfold scheduler_schedule_internal. fold cur. step_with (update_Ok _ (λ x, set_time_slice (u32 (time_slice x + 1)) (set_cpu_time (u64 (cpu_time x + 1)) x)) _ _ Hx). set (s1 := with_procs _ s).
  assert (P1 : pushed s s1) by (by apply (pushed_insert cur x)). assert (I1 : qinv 0 s1 L) by (apply (qinv_field _ _ _ cur x); [done|done|done|by left|apply (qi_proc _ _ _ I _ _ Hx)]).
  pose proof (timed_same _ _ (pushed_sleep _ _ P1) T) as T1. destruct (wake_sleeping_spec s1 L I1 T1) as (s2 & L2 & D1 & D2 & E2 & I2 & W2 & T2 & B2 & ED & ED2 & HD1 & HD2). step_with E2.
  assert (Ec2 : g_current_proc s2 = cur) by apply (wk_cur _ _ _ W2). rewrite Ec2. assert (Hx2 : ∃ x2, procs s2 !! cur = Some x2).
  { apply (rest_live s1); [apply W2|]. by apply (rest_live s); [apply P1|exists x]. }
  destruct Hx2 as [x2 Hx2]. step_with (fetch_Ok _ _ _ Hx2). destruct (requeue_spec s2 L2 x2 I2 T2) as (s3 & L3 & E3 & I3 & T3 & W3 & Ec3 & B3 & K3 & S3 & N3 & Lk3 & Q3); [by rewrite Ec2|]. rewrite Ec2 in *. step_with E3.
  assert (W13 : switched s s3) by (eapply switched_trans; [by apply switched_pushed|eapply switched_trans; [by eapply woken_switched|done]]).
  assert (Hready : ∀ q, (∃ j, q ∈ L3 (KReady j)) ↔ look s3 q = Some (Ready, None)).
  { intros q. split; [intros [j Hj]; apply (qi_mem _ _ _ I3 _ _ Hj)|by apply (ready_queued s3)]. }
  assert (Hset : ∀ q, look s3 q = Some (Ready, None) ↔ (∃ v, look s q = Some v ∧ active v) ∨ q ∈ D1.*1).
  { intros q. rewrite Lk3, (wk_look _ _ _ W2), (ps_look _ _ P1). destruct (decide (q ∈ D1.*1)) as [Hq|Hq]; [rewrite decide_False by done; tauto|]. destruct (decide (look s q = Some (Running, None))) as [Hr|Hr].
    - split; [intros _; left; exists (Running, None); split; [done|by right]|by intros].
    - split; [intros E; left; exists (Ready, None); split; [done|by left]|]. intros [(v & E & [->| ->])|]; done. }
  destruct (ready_queue_pop_spec s3 L3 I3) as [[Hempty _]|(i & p & l & s4 & Hj & El & E4 & I4 & P4)].
  { exfalso. destruct (Hready d) as [_ Hr]. destruct Hr as [j Hj]; [apply Hset; left; by exists vd|]. rewrite Hempty in Hj. by apply not_elem_of_nil in Hj. }
  step_with E4. assert (Hp : p ∈ L3 (KReady i)) by (rewrite El; left). pose proof (qinv_nonzero _ _ _ _ _ I3 Hp) as Hp0.
  assert (Hc4 : ∃ x4, procs s4 !! cur = Some x4) by (apply (rest_live s3); [apply P4|]; apply (rest_live s2); [apply W3|by exists x2]). destruct Hc4 as [x4 Hx4]. step_with (fetch_Ok _ _ _ Hx4).
  destruct (Z.eqb_spec p 0) as [|_]; [lia|]. cbn [mbind res_bind].
  assert (Hnr : state x4 ≠ Running).
  { intros Er. destruct (vis x4) as [st wq] eqn:Ev. assert (Hv4 : look s3 cur = Some (Running, wq)) by (rewrite <-(ps_look _ _ P4); unfold look; rewrite Hx4; cbn; injection Ev as Es Ew; rewrite <-Ew; unfold vis; by rewrite Er).
    destruct (qi_proc _ _ _ I2 _ _ Hx2) as [Hc0 _]. destruct (qi_where _ _ _ I3 cur _ ltac:(lia) Hv4) as [[k Hk]|[[E _]|[E|E]]]; [pose proof (qi_mem _ _ _ I3 _ _ Hk) as E; rewrite Hv4 in E; by destruct k| |done|done].
    injection E as ->. by apply (N3 cur). }
  rewrite (bool_decide_eq_false_2 _ Hnr), orb_true_r. cbn [mbind res_bind].
  assert (Hv : look s4 p = Some (Ready, None)) by (rewrite (ps_look _ _ P4); apply (qi_mem _ _ _ I3 _ _ Hp)). destruct (look_Some _ _ _ Hv) as (y & Hy & Vy). injection Vy as Vy1 Vy2.
  rewrite (update_Ok p _ (with_current p s4) y Hy). set (s5 := with_procs _ (with_current p s4)).
  assert (Hy5 : vis (set_last_run_time (g_now s4) (set_state Running y)) = (Running, None)) by (unfold vis; cbn; by rewrite Vy2).
  assert (S35 : switched s3 s5).
  { eapply switched_trans; [by apply switched_pushed|]. split.
    - split; try done. intros q. unfold s5. cbn. destruct (decide (q = p)) as [->|]; [by rewrite lookup_insert_eq, Hy|by rewrite lookup_insert_ne].
    - intros q. unfold s5. rewrite (look_insert p _ (with_current p s4)), Hy5. destruct (decide (q = p)) as [->|]; [right; exists (Ready, None), (Running, None); split_and!; try done; by right|by left]. }
  assert (S45 : sleep_same s4 s5). { split; [|done..]. intros q. unfold s5. cbn. destruct (decide (q = p)) as [->|]; [by rewrite lookup_insert_eq, Hy|by rewrite lookup_insert_ne]. }
  pose proof (sleep_trans _ _ _ S3 (sleep_trans _ _ _ (pushed_sleep _ _ P4) S45)) as S25.
  exists s5, (ins (KReady i) l L3). split; [done|]. split.
  { apply (qinv_switch p s4 _ y); try done. intros q Hq. rewrite (ps_look _ _ P4). apply N3. }
  split; [by apply (timed_same s2)|]. split; [by eapply switched_trans|]. split; [unfold s5; rewrite (look_insert p _ (with_current p s4)), decide_True by done; by rewrite Hy5|].
  split; [intros q; rewrite ins_ne by done; by rewrite B3, B2|]. exists D1, D2, L3, i, l. change (g_current_proc s5) with p.
  split; [rewrite <-ED; symmetry; apply dues_ext; intros q _; by apply wt_same, pushed_sleep|].
  split; [rewrite ins_ne, K3, (ss_tick _ _ S25) by done; rewrite <-ED2; apply dues_ext; intros q _; by apply wt_same|].
  split; [done|]. split; [done|]. split; [done|]. split; [done|]. split.
  - intros j. destruct (decide (j = i)) as [->|Hne]; [by rewrite ins_eq|]. rewrite ins_ne by congruence. done.
  - intros q. by rewrite Hready, Hset.
Qed.
