(* ===== verification/SchedTree.v ===== *)
(** The list of processes and the lists of children (Sched.v): the list is a ring that holds
    every process once, and each process links its children. *)

From S2P Require Import Prelude Sched SchedInv SchedOps SchedSleep SchedRun.

#[local] Strategy opaque [bloop].

(** * Paths *)

(** The links of [l] lead from [h] to [e]. *)
Fixpoint path (f : Z → Z) (h : Z) (l : list Z) (e : Z) : Prop :=
  match l with
  | [] => h = e
  | p :: l' => h = p ∧ path f (f p) l' e
  end.

Section paths.
Implicit Types (f : Z → Z) (l : list Z).

Lemma path_app f h l1 l2 e : path f h (l1 ++ l2) e ↔ ∃ m, path f h l1 m ∧ path f m l2 e.
Proof.
  revert h. induction l1 as [|p l1 IH]; intros h; cbn.
  - split; [intros Hp; by exists h|intros (m & -> & Hp); done].
  - rewrite IH. split; [intros (-> & m & H1 & H2); by exists m|intros (m & (-> & H1) & H2); split; [done|by exists m]].
Qed.

Lemma path_ext f f' h l e : (∀ p, p ∈ l → f' p = f p) → path f h l e → path f' h l e.
Proof.
  revert h. induction l as [|p l IH]; intros h E; [done|]. intros (-> & Hl). split; [done|]. rewrite E by left. apply IH; [|done]. intros q Hq. apply E. by right.
Qed.

(** Another successor for the last one. *)
Lemma path_end f f' h l e e' : path f h l e → NoDup l → (∀ q, q ∈ l → q ≠ last0 l → f' q = f q) → (l ≠ [] → f' (last0 l) = e') → path f' (if decide (l = []) then e' else h) l e'.
Proof.
  revert h. induction l as [|p l IH]; intros h Hp Hnd E He; [done|]. destruct (decide (p :: l = [])) as [|_]; [done|]. destruct Hp as (-> & Hp). split; [done|]. apply NoDup_cons in Hnd as [Hpl Hnd].
  destruct l as [|q l].
  - cbn. rewrite <-(He ltac:(done)). done.
  - specialize (IH _ Hp Hnd). destruct (decide (q :: l = [])) as [|_]; [done|]. rewrite E; [|left|intros Eq; apply Hpl; rewrite last0_cons in Eq by done; rewrite Eq; by apply last0_elem].
    apply IH; [|intros _; rewrite <-(last0_cons p) by done; by apply He]. intros r Hr Hne. apply E; [by right|by rewrite last0_cons].
Qed.

Lemma path_hd f h l e : l ≠ [] → path f h l e → h = hd 0 l.
Proof. destruct l; [done|]. by intros _ [-> _]. Qed.
End paths.

(** * The invariant *)

Definition link (s : Sched) (p : Z) : Z := match procs s !! p with Some x => next x | None => 0 end.
Definition sib (s : Sched) (p : Z) : Z := match procs s !! p with Some x => sibling_next x | None => 0 end.
Definition kids (s : Sched) (p : Z) : Z := match procs s !! p with Some x => children_list x | None => 0 end.

(** [P] are the processes in the order of the list, [C p] the children of [p]. *)
Record tinv (s : Sched) (P : list Z) (C : Z → list Z) : Prop := {
  ti_dom q : q ∈ P ↔ is_Some (procs s !! q);
  ti_dup : NoDup P;
  ti_ne : P ≠ [];
  ti_ring : path (link s) (g_proc_list s) P (g_proc_list s);
  ti_tail : g_proc_tail s = last0 P;
  ti_zero : 0 ∉ P;
  ti_range q : q ∈ P → 0 < q < 2 ^ 64;
  ti_pid p q x y : procs s !! p = Some x → procs s !! q = Some y → pid x = pid y → p = q;
  ti_fresh p x : procs s !! p = Some x → 0 <= pid x < g_next_pid s;
  ti_kids p : p ∈ P → chain (sib s) (kids s p) (C p);
  ti_cdup p : NoDup (C p);
  ti_parent p c : c ∈ C p → ∃ x y, procs s !! p = Some x ∧ procs s !! c = Some y ∧ parent_pid y = pid x
}.

Lemma tinv_uniq s P C p p' c : tinv s P C → c ∈ C p → c ∈ C p' → p = p'.
Proof.
  intros T H1 H2. destruct (ti_parent _ _ _ T p c H1) as (x & y & Hx & Hy & E). destruct (ti_parent _ _ _ T p' c H2) as (x' & y' & Hx' & Hy' & E').
  apply (ti_pid _ _ _ T p p' x x'); congruence.
Qed.

Lemma tinv_hd s P C : tinv s P C → g_proc_list s = hd 0 P.
Proof. intros T. eapply path_hd; apply T. Qed.

Lemma tinv_list s P C : tinv s P C → g_proc_list s ∈ P.
Proof. intros T. rewrite (tinv_hd _ _ _ T). pose proof (ti_ne _ _ _ T). destruct P; [done|left]. Qed.

Lemma tinv_length s P C : tinv s P C → Z.of_nat (length P) < 2 ^ 64.
Proof.
  intros T. pose proof (NoDup_bound (0 :: P) (2 ^ 64) ltac:(constructor; apply T)) as Hb. cbn [length] in Hb.
  assert (Hx : ∀ x, x ∈ 0 :: P → 0 <= x < 2 ^ 64) by (intros x [->|Hp]%elem_of_cons; [lia|pose proof (ti_range _ _ _ T x Hp); lia]). specialize (Hb Hx). lia.
Qed.

(** Only these fields matter. *)
Lemma rest_field {A} (f : Process → A) s s' q : (∀ x y, rest x = rest y → f x = f y) → rest <$> procs s' !! q = rest <$> procs s !! q → f <$> procs s' !! q = f <$> procs s !! q.
Proof. intros Hf E. destruct (procs s' !! q), (procs s !! q); try done. cbn in *. f_equal. apply Hf. congruence. Qed.

Definition tpart (x : Process) : Z * Z * Z * Z * Z := (pid x, parent_pid x, children_list x, sibling_next x, next x).

Record tsame (s s' : Sched) : Prop := {
  ts_proc q : tpart <$> procs s' !! q = tpart <$> procs s !! q;
  ts_list : g_proc_list s' = g_proc_list s;
  ts_tail : g_proc_tail s' = g_proc_tail s;
  ts_next_pid : g_next_pid s' = g_next_pid s
}.

Lemma tinv_tsame s s' P C : tinv s P C → tsame s s' → tinv s' P C.
Proof.
  intros T [R1 R2 R3 R4].
  assert (Hback : ∀ q y, procs s' !! q = Some y → ∃ x, procs s !! q = Some x ∧ tpart y = tpart x).
  { intros q y Hy. pose proof (R1 q) as E. rewrite Hy in E. destruct (procs s !! q) as [x|]; [|done]. exists x. split; [done|]. cbn in E. congruence. }
  assert (Hfwd : ∀ q x, procs s !! q = Some x → ∃ y, procs s' !! q = Some y ∧ tpart y = tpart x).
  { intros q x Hx. pose proof (R1 q) as E. rewrite Hx in E. destruct (procs s' !! q) as [y|]; [|done]. exists y. split; [done|]. cbn in E. congruence. }
  assert (Elink : ∀ q, link s' q = link s q) by (intros q; unfold link; pose proof (R1 q) as E; destruct (procs s' !! q), (procs s !! q); try done; by injection E).
  assert (Esib : ∀ q, sib s' q = sib s q) by (intros q; unfold sib; pose proof (R1 q) as E; destruct (procs s' !! q), (procs s !! q); try done; by injection E).
  assert (Ekids : ∀ q, kids s' q = kids s q) by (intros q; unfold kids; pose proof (R1 q) as E; destruct (procs s' !! q), (procs s !! q); try done; by injection E).
  destruct T as [T1 T2 T3 T4 T5 T6 T7 T8 T9 T10 T11 T12]. split; try done.
  - intros q. rewrite T1. split; intros [x Hx]; [destruct (Hfwd q x Hx) as (y & Hy & _)|destruct (Hback q x Hx) as (y & Hy & _)]; by exists y.
  - rewrite R2. apply (path_ext (link s)); [|done]. intros q _. apply Elink.
  - congruence.
  - intros p q x y Hx Hy E. destruct (Hback p x Hx) as (x' & Hx' & Ex), (Hback q y Hy) as (y' & Hy' & Ey). apply (T8 p q x' y'); [done|done|]. unfold tpart in *. congruence.
  - intros p x Hx. destruct (Hback p x Hx) as (x' & Hx' & Ex). rewrite R4. assert (pid x = pid x') as -> by (unfold tpart in Ex; congruence). by apply (T9 p).
  - intros p Hp. rewrite Ekids. apply (chain_ext (sib s)); [|by apply T10]. intros q _. apply Esib.
  - intros p c Hc. destruct (T12 p c Hc) as (x & y & Hx & Hy & E). destruct (Hfwd p x Hx) as (x' & Hx' & Ex), (Hfwd c y Hy) as (y' & Hy' & Ey). exists x', y'. split; [done|]. split; [done|]. unfold tpart in *. congruence.
Qed.

Lemma rest_tsame s s' : rest_same s s' → tsame s s'.
Proof. intros [R1 R2 R3 R4 R5 R6]. split; [|done..]. intros q. apply (rest_field tpart); [|done]. intros x y E. unfold rest in E. unfold tpart. congruence. Qed.

Lemma tinv_rest s s' P C : tinv s P C → rest_same s s' → tinv s' P C.
Proof. intros T R. by apply (tinv_tsame s), rest_tsame. Qed.

(** * Walking *)

(** One step along the ring: the end is reached exactly at the last process. *)
Lemma ring_next s P C l1 p l2 : tinv s P C → P = l1 ++ p :: l2 → path (link s) (link s p) l2 (g_proc_list s) ∧ (link s p = g_proc_list s ↔ l2 = []) ∧ is_Some (procs s !! p).
Proof.
  intros T EP. pose proof (ti_ring _ _ _ T) as Hr. rewrite EP in Hr. apply path_app in Hr as (m & _ & -> & Hr). split; [done|]. split.
  - split; [|intros ->; done]. intros E. destruct l2 as [|q l2]; [done|]. destruct Hr as [Eq _]. pose proof (ti_dup _ _ _ T) as Hnd. rewrite EP in Hnd. apply NoDup_app in Hnd as (_ & Hdis & Hnd).
    rewrite (tinv_hd _ _ _ T), EP, Eq in E. clear Eq. exfalso. destruct l1 as [|r l1]; cbn in E; rewrite E in *.
    + apply NoDup_cons in Hnd as [Hn _]. apply Hn. left.
    + apply (Hdis r); [left|right; left].
  - apply (ti_dom _ _ _ T). rewrite EP. apply elem_of_app. right. left.
Qed.

Lemma list_find_spec f s P C :
  tinv s P C →
  (list_find f s = Ok None ∧ ∀ p x, procs s !! p = Some x → f p x = false) ∨
  ∃ l1 p l2 x, list_find f s = Ok (Some p) ∧ P = l1 ++ p :: l2 ∧ procs s !! p = Some x ∧ f p x = true ∧ (∀ q y, q ∈ l1 → procs s !! q = Some y → f q y = false).
Proof.
  intros T. pose proof (tinv_list _ _ _ T) as Hin. pose proof (tinv_hd _ _ _ T) as Hhd. pose proof (ti_range _ _ _ T _ Hin) as Hr. unfold list_find. destruct (Z.eqb_spec (g_proc_list s) 0) as [|_]; [lia|].
  destruct (bloop_rule (λ n (p : Z), ∃ l1 l2, P = l1 ++ p :: l2 ∧ (∀ q y, q ∈ l1 → procs s !! q = Some y → f q y = false) ∧ n = Z.of_nat (length l2))
     (λ r : option Z, (r = None ∧ ∀ p x, procs s !! p = Some x → f p x = false) ∨ ∃ l1 p l2 x, r = Some p ∧ P = l1 ++ p :: l2 ∧ procs s !! p = Some x ∧ f p x = true ∧ (∀ q y, q ∈ l1 → procs s !! q = Some y → f q y = false)) (list_step f s))
     with SCHED_FUEL (Z.of_nat (length P) - 1) (g_proc_list s) as (r & E & Hp).
  - intros n p (l1 & l2 & _ & _ & ->). lia.
  - intros n p (l1 & l2 & EP & Hf & ->). destruct (ring_next s P C l1 p l2 T EP) as (Hpath & Hend & [x Hx]). unfold list_step. rewrite (fetch_Ok _ _ _ Hx). cbn [mbind res_bind]. assert (El : link s p = next x) by (unfold link; by rewrite Hx).
    destruct (f p x) eqn:Ef; [eexists; split; [done|]; right; by exists l1, p, l2, x|]. assert (Hf' : ∀ q y, q ∈ l1 ++ [p] → procs s !! q = Some y → f q y = false).
    { intros q y [Hq| ->%list_elem_of_singleton]%elem_of_app Hy; [by apply Hf|congruence]. }
    destruct (Z.eqb_spec (next x) (g_proc_list s)) as [En|Hn]; eexists; (split; [done|]).
    + left. split; [done|]. rewrite El in Hend. apply Hend in En. subst l2. intros q y Hy. apply Hf'; [|done]. rewrite <-EP. apply (ti_dom _ _ _ T). by exists y.
    + destruct l2 as [|q l2]; [rewrite El in Hend; tauto|]. exists (Z.of_nat (length l2)). split; [simpl; lia|]. exists (l1 ++ [p]), l2. destruct Hpath as [Eq _]. rewrite <-El, Eq, <-(assoc_L (++)). done.
  - pose proof (ti_ne _ _ _ T). destruct P as [|p P']; [done|]. cbn in Hhd. exists [], P'. rewrite Hhd. split; [done|]. split; [intros q y Hq; by apply not_elem_of_nil in Hq|cbn [length]; lia].
  - pose proof (tinv_length _ _ _ T). unfold SCHED_FUEL. lia.
  - rewrite E. destruct Hp as [[-> Hp]|(l1 & p & l2 & x & -> & Hp)]; [by left|right]. by exists l1, p, l2, x.
Qed.

(** The walk along the children of a process. *)
Lemma child_find_spec f s h l :
  chain (sib s) h l → NoDup l → Z.of_nat (length l) < 2 ^ 64 → (∀ q, q ∈ l → is_Some (procs s !! q)) →
  (child_find f h s = Ok None ∧ ∀ p x, p ∈ l → procs s !! p = Some x → f p x = false) ∨
  ∃ l1 p l2 x, child_find f h s = Ok (Some (last0 l1, p)) ∧ l = l1 ++ p :: l2 ∧ procs s !! p = Some x ∧ f p x = true ∧ (∀ q y, q ∈ l1 → procs s !! q = Some y → f q y = false).
Proof.
  intros Hc Hnd Hlen Hin. unfold child_find.
  destruct (bloop_rule (λ n (st : Z * Z), ∃ l1 l2, l = l1 ++ l2 ∧ st.1 = last0 l1 ∧ chain (sib s) st.2 l2 ∧ (∀ q y, q ∈ l1 → procs s !! q = Some y → f q y = false) ∧ n = Z.of_nat (length l2))
     (λ r : option (Z * Z), (r = None ∧ ∀ p x, p ∈ l → procs s !! p = Some x → f p x = false) ∨
        ∃ l1 p l2 x, r = Some (last0 l1, p) ∧ l = l1 ++ p :: l2 ∧ procs s !! p = Some x ∧ f p x = true ∧ (∀ q y, q ∈ l1 → procs s !! q = Some y → f q y = false)) (child_step f s))
     with SCHED_FUEL (Z.of_nat (length l)) (0, h) as (r & E & Hp).
  - intros n st (l1 & l2 & _ & _ & _ & _ & ->). lia.
  - intros n [prev p] (l1 & l2 & El & Epv & Hc2 & Hf & ->). cbn [fst snd] in *. subst prev. unfold child_step. destruct (Z.eqb_spec p 0) as [->|Hn0].
    { apply chain_nil in Hc2. subst l2. rewrite app_nil_r in El. subst l. eexists. split; [done|]. by left. }
    destruct (chain_cons _ _ _ Hn0 Hc2) as (l3 & -> & Hc3). destruct (Hin p) as [x Hx]; [rewrite El; apply elem_of_app; right; left|]. rewrite (fetch_Ok _ _ _ Hx). cbn [mbind res_bind].
    destruct (f p x) eqn:Ef; eexists; (split; [done|]); [right; by exists l1, p, l3, x|]. exists (Z.of_nat (length l3)). split; [simpl; lia|]. exists (l1 ++ [p]), l3. cbn [fst snd].
    split; [by rewrite <-(assoc_L (++))|]. split; [by rewrite last0_snoc|]. split; [unfold sib in Hc3; by rewrite Hx in Hc3|]. split; [|done]. intros q y [Hq| ->%list_elem_of_singleton]%elem_of_app Hy; [by apply Hf|congruence].
  - exists [], l. cbn [fst snd]. split; [done|]. split; [done|]. split; [done|]. split; [|done]. intros q y Hq. by apply not_elem_of_nil in Hq.
  - unfold SCHED_FUEL. lia.
  - rewrite E. destruct Hp as [[-> Hp]|(l1 & p & l2 & x & -> & Hp)]; [by left|right]. by exists l1, p, l2, x.
Qed.

(** * What the queues do not see *)

Definition qpart (x : Process) : ProcessState * option WaitQueueId * Z * Z * Z := (state x, waiting_queue x, queue_next x, priority x, wake_time x).

Record qsame (s s' : Sched) : Prop := {
  qs_proc q : qpart <$> procs s' !! q = qpart <$> procs s !! q;
  qs_ready : g_ready_queues s' = g_ready_queues s;
  qs_tails : g_ready_tails s' = g_ready_tails s;
  qs_sleep : g_sleep_queue s' = g_sleep_queue s;
  qs_tick : g_last_sleep_tick s' = g_last_sleep_tick s;
  qs_wait : wait_queues s' = wait_queues s;
  qs_cur : g_current_proc s' = g_current_proc s
}.

Lemma qsame_back s s' q y : qsame s s' → procs s' !! q = Some y → ∃ x, procs s !! q = Some x ∧ qpart y = qpart x.
Proof. intros Q Hy. pose proof (qs_proc _ _ Q q) as E. rewrite Hy in E. destruct (procs s !! q) as [x|]; [|done]. exists x. split; [done|]. cbn in E. congruence. Qed.

Lemma qsame_look s s' q : qsame s s' → look s' q = look s q.
Proof. intros Q. pose proof (qs_proc _ _ Q q) as E. unfold look. destruct (procs s' !! q), (procs s !! q); try done. cbn in E |- *. unfold qpart in E. unfold vis. congruence. Qed.

Lemma qsame_wt s s' q : qsame s s' → wt s' q = wt s q.
Proof. intros Q. pose proof (qs_proc _ _ Q q) as E. unfold wt. destruct (procs s' !! q), (procs s !! q); try done. cbn in E. unfold qpart in E. congruence. Qed.

Lemma qsame_live s s' q : qsame s s' → is_Some (procs s !! q) ↔ is_Some (procs s' !! q).
Proof. intros Q. pose proof (qs_proc _ _ Q q) as E. by destruct (procs s' !! q), (procs s !! q). Qed.

Lemma qinv_qsame ex s s' L : qinv ex s L → qsame s s' → qinv ex s' L.
Proof.
  intros I Q. apply (qinv_frame ex s); [done|rewrite (qs_ready _ _ Q), (qs_tails _ _ Q); apply I|..|apply Q| |].
  - intros k. destruct k; cbn; rewrite ?(qs_ready _ _ Q), ?(qs_tails _ _ Q), ?(qs_sleep _ _ Q), ?(qs_wait _ _ Q); done.
  - intros k q _. pose proof (qs_proc _ _ Q q) as E. unfold nx. destruct (procs s' !! q), (procs s !! q); try done. cbn in E. unfold qpart in E. congruence.
  - intros q _. by apply qsame_look.
  - intros q y Hy. destruct (qsame_back _ _ _ _ Q Hy) as (x & Hx & E). destruct (qi_proc _ _ _ I _ _ Hx). split; [done|]. unfold qpart in E. assert (priority y = priority x) as -> by congruence. done.
  - intros q Hq. by apply (qsame_live s s' q Q).
Qed.

Lemma timed_qsame s s' : timed s → qsame s s' → timed s'.
Proof. intros T Q q y Hy. destruct (qsame_back _ _ _ _ Q Hy) as (x & Hx & E). unfold qpart in E. assert (wake_time y = wake_time x) as -> by congruence. by apply (T q). Qed.

Lemma qsame_trans s1 s2 s3 : qsame s1 s2 → qsame s2 s3 → qsame s1 s3.
Proof. intros [A1 A2 A3 A4 A5 A6 A7] [B1 B2 B3 B4 B5 B6 B7]. split; [intros q; by rewrite B1|congruence..]. Qed.

Lemma qsame_update p f s s' : (∀ x, qpart (f x) = qpart x) → update p f s = Ok s' → qsame s s'.
Proof.
  intros Hf. unfold update. destruct (procs s !! p) as [x|] eqn:Hx; [|done]. intros [= <-]. split; try done. intros q. cbn. destruct (decide (q = p)) as [->|]; [rewrite lookup_insert_eq, Hx; cbn; by rewrite Hf|by rewrite lookup_insert_ne].
Qed.

(** A process that is new in memory. *)
Lemma qinv_new a y s L : qinv 0 s L → procs s !! a = None → proc_ok a y → qinv a (with_procs (<[a := y]> (procs s)) s) L.
Proof.
  intros I Ha Hy. assert (Hn : ∀ k, a ∉ L k) by (intros k Hk; destruct (queue_live_procs _ _ _ _ _ I Hk) as [x Hx]; congruence).
  apply (qinv_frame a s); [by apply qinv_mark|apply I|done| | |done|by apply procs_insert_ok; [apply I|]|intros q; by apply live_insert].
  - intros k q Hq. rewrite nx_insert. rewrite decide_False; [done|]. intros ->. by apply (Hn k).
  - intros q Hq. rewrite look_insert. by rewrite decide_False.
Qed.

(** * A new process *)

(** The identity and the memory of a process. *)
Definition space (x : Process) : Z * Z * Z * Z := (page_table x, vma_list x, stack_phys x, pid x).

Definition spawned (a : Z) (y : Process) (s : Sched) : gmap Z Process :=
  alter (set_children_list a) (g_current_proc s) (alter (set_sibling_next (kids s (g_current_proc s))) a (alter (set_children_list 0) a (alter (set_next (g_proc_list s)) a
    (alter (set_next a) (g_proc_tail s) (<[a := y]> (procs s)))))).

Lemma spawned_lookup a y s q : g_current_proc s ≠ a → g_proc_tail s ≠ a →
  spawned a y s !! q = if decide (q = a) then Some (set_sibling_next (kids s (g_current_proc s)) (set_children_list 0 (set_next (g_proc_list s) y)))
    else (λ x, (if decide (q = g_current_proc s) then set_children_list a else id) ((if decide (q = g_proc_tail s) then set_next a else id) x)) <$> procs s !! q.
Proof.
  intros Hc Ht. unfold spawned. destruct (decide (q = a)) as [->|Hq].
  - rewrite lookup_alter_ne by done. rewrite !lookup_alter_eq, lookup_alter_ne by done. by rewrite lookup_insert_eq.
  - destruct (decide (q = g_current_proc s)) as [->|Hqc].
    + rewrite lookup_alter_eq, !lookup_alter_ne by done. destruct (decide (g_current_proc s = g_proc_tail s)) as [E|Hqt]; [rewrite E, lookup_alter_eq, lookup_insert_ne by done; by destruct (procs s !! g_proc_tail s)|].
      rewrite lookup_alter_ne, lookup_insert_ne by done. by destruct (procs s !! g_current_proc s).
    + rewrite !lookup_alter_ne by done. destruct (decide (q = g_proc_tail s)) as [->|Hqt]; [rewrite lookup_alter_eq, lookup_insert_ne by done; by destruct (procs s !! g_proc_tail s)|].
      rewrite lookup_alter_ne, lookup_insert_ne by done. by destruct (procs s !! q).
Qed.

(** The pointers of the new process and of its parent are set. *)
Lemma link_tree a s x y :
  procs s !! g_current_proc s = Some x → is_Some (procs s !! g_proc_tail s) → g_current_proc s ≠ 0 → g_current_proc s ≠ a → g_proc_tail s ≠ a →
  link_process a (g_current_proc s) (with_procs (<[a := y]> (procs s)) s) = ready_queue_push a (with_list (g_proc_list s) a (with_procs (spawned a y s) s)).
Proof.
  intros Hx [z Hz] Hc0 Hca Hta. unfold link_process. cbn [g_proc_tail g_proc_list with_procs]. set (s0 := with_procs _ s).
  assert (Hz0 : procs s0 !! g_proc_tail s = Some z) by (unfold s0; cbn; by rewrite lookup_insert_ne). rewrite (update_Ok _ _ _ _ Hz0), <-(insert_alter_id _ _ _ _ Hz0). cbn [mbind res_bind]. set (s1 := with_procs _ s0).
  assert (Hy1 : procs s1 !! a = Some y) by (unfold s1, s0; cbn; rewrite lookup_alter_ne by done; by rewrite lookup_insert_eq). change (g_proc_list s1) with (g_proc_list s).
  rewrite (update_Ok _ _ _ _ Hy1), <-(insert_alter_id _ _ _ _ Hy1). cbn [mbind res_bind]. set (s2 := with_list _ _ _).
  assert (Hy2 : procs s2 !! a = Some (set_next (g_proc_list s) y)) by (change (procs s2) with (alter (set_next (g_proc_list s)) a (procs s1)); by rewrite lookup_alter_eq, Hy1).
  rewrite (update_Ok _ _ _ _ Hy2), <-(insert_alter_id _ _ _ _ Hy2). cbn [mbind res_bind]. set (s3 := with_procs _ s2). destruct (Z.eqb_spec (g_current_proc s) 0) as [|_]; [done|].
  assert (Hx3 : ∃ x3, procs s3 !! g_current_proc s = Some x3 ∧ children_list x3 = children_list x).
  { unfold s3, s2, s1, s0. cbn. rewrite !(lookup_alter_ne _ _ a) by done. destruct (decide (g_proc_tail s = g_current_proc s)) as [E|]; [rewrite E, lookup_alter_eq, lookup_insert_ne by done; rewrite Hx; by eexists|].
    rewrite lookup_alter_ne, lookup_insert_ne by done. by exists x. }
  destruct Hx3 as (x3 & Hx3 & E3). rewrite (fetch_Ok _ _ _ Hx3). cbn [mbind res_bind]. rewrite E3.
  assert (Hy3 : procs s3 !! a = Some (set_children_list 0 (set_next (g_proc_list s) y))) by (change (procs s3) with (alter (set_children_list 0) a (procs s2)); by rewrite lookup_alter_eq, Hy2).
  rewrite (update_Ok _ _ _ _ Hy3), <-(insert_alter_id _ _ _ _ Hy3). cbn [mbind res_bind]. set (s4 := with_procs _ s3).
  assert (Hx4 : procs s4 !! g_current_proc s = Some x3) by (change (procs s4) with (alter (set_sibling_next (children_list x)) a (procs s3)); by rewrite lookup_alter_ne). rewrite (update_Ok _ _ _ _ Hx4), <-(insert_alter_id _ _ _ _ Hx4). cbn [mbind res_bind].
  f_equal. unfold s4, s3, s2, s1, s0, spawned, kids. rewrite Hx. by destruct s.
Qed.

Definition with_child (p a : Z) (C : Z → list Z) : Z → list Z := λ q, if decide (q = a) then [] else if decide (q = p) then a :: C p else C q.

Lemma tinv_spawn a y s s' P C x :
  tinv s P C → procs s !! a = None → 0 < a < 2 ^ 64 → procs s !! g_current_proc s = Some x → pid y = g_next_pid s → parent_pid y = pid x →
  procs s' = spawned a y s → g_proc_list s' = g_proc_list s → g_proc_tail s' = a → g_next_pid s' = g_next_pid s + 1 →
  tinv s' (P ++ [a]) (with_child (g_current_proc s) a C).
Proof.
  intros T Ha Har Hx Hpid Hpar Ep El Et En. set (cur := g_current_proc s) in *. assert (Hca : cur ≠ a) by congruence. pose proof (ti_ne _ _ _ T) as Hne. pose proof (last0_elem _ Hne) as Htl. pose proof (ti_tail _ _ _ T) as Htail.
  assert (HaP : a ∉ P) by (rewrite (ti_dom _ _ _ T), Ha; by intros []). assert (Hta : g_proc_tail s ≠ a) by congruence. assert (HcP : cur ∈ P) by (apply (ti_dom _ _ _ T); by exists x).
  assert (Elk : ∀ q, procs s' !! q = if decide (q = a) then Some (set_sibling_next (kids s cur) (set_children_list 0 (set_next (g_proc_list s) y)))
    else (λ x, (if decide (q = cur) then set_children_list a else id) ((if decide (q = g_proc_tail s) then set_next a else id) x)) <$> procs s !! q) by (intros q; rewrite Ep; by apply spawned_lookup).
  assert (Hold : ∀ q z, q ≠ a → procs s' !! q = Some z → ∃ w, procs s !! q = Some w ∧ pid z = pid w ∧ parent_pid z = parent_pid w).
  { intros q z Hq Hz. rewrite Elk, (decide_False (P := q = a)) in Hz by done. destruct (procs s !! q) as [w|]; [|done]. injection Hz as <-. exists w. split; [done|]. by destruct (decide (q = cur)), (decide (q = g_proc_tail s)). }
  assert (Hnew : ∀ z, procs s' !! a = Some z → pid z = g_next_pid s ∧ parent_pid z = pid x).
  { intros z Hz. rewrite Elk, decide_True in Hz by done. injection Hz as <-. done. }
  assert (Hfwd : ∀ q w, procs s !! q = Some w → ∃ z, procs s' !! q = Some z ∧ pid z = pid w ∧ parent_pid z = parent_pid w).
  { intros q w Hw. assert (Hq : q ≠ a) by congruence. rewrite Elk, (decide_False (P := q = a)), Hw by done. eexists. split; [done|]. by destruct (decide (q = cur)), (decide (q = g_proc_tail s)). }
  assert (Na : ∃ z, procs s' !! a = Some z) by (rewrite Elk, decide_True by done; by eexists).
  assert (Hlink : ∀ q, q ∈ P → q ≠ last0 P → link s' q = link s q).
  { intros q Hq Hql. unfold link. rewrite Elk, (decide_False (P := q = a)) by congruence. rewrite (decide_False (P := q = g_proc_tail s)) by congruence. destruct (procs s !! q); [|done]. by destruct (decide (q = cur)). }
  assert (Hsib : ∀ q, q ≠ a → sib s' q = sib s q).
  { intros q Hq. unfold sib. rewrite Elk, (decide_False (P := q = a)) by done. destruct (procs s !! q); [|done]. by destruct (decide (q = cur)), (decide (q = g_proc_tail s)). }
  assert (Hkids : ∀ q, q ≠ a → q ≠ cur → kids s' q = kids s q).
  { intros q Hq Hqc. unfold kids. rewrite Elk, (decide_False (P := q = a)), (decide_False (P := q = cur)) by done. destruct (procs s !! q); [|done]. by destruct (decide (q = g_proc_tail s)). }
  assert (HaC : ∀ p, a ∉ C p) by (intros p Hp; destruct (ti_parent _ _ _ T p a Hp) as (? & ? & _ & E & _); congruence).
  assert (Hafter : ∀ p, kids s' p = if decide (p = a) then 0 else if decide (p = cur) then (if procs s !! p is Some _ then a else 0) else kids s p).
  { intros p. destruct (decide (p = a)) as [->|Hpa]; [unfold kids; rewrite Elk; by rewrite decide_True|]. destruct (decide (p = cur)) as [->|Hpc]; [|by apply Hkids]. unfold kids. rewrite Elk, (decide_False (P := cur = a)), decide_True by done.
    by destruct (procs s !! cur). }
  split.
  - intros q. rewrite elem_of_app, list_elem_of_singleton, (ti_dom _ _ _ T). split.
    + intros [[w Hw]| ->]; [destruct (Hfwd q w Hw) as (z & Hz & _); by exists z|done].
    + intros [z Hz]. destruct (decide (q = a)) as [->|Hq]; [by right|left]. destruct (Hold q z Hq Hz) as (w & Hw & _). by exists w.
  - apply NoDup_app. split; [apply T|]. split; [|apply NoDup_singleton]. intros q Hq ->%list_elem_of_singleton. done.
  - by destruct P.
  - rewrite El. apply path_app. exists a. split.
    + pose proof (path_end (link s) (link s') (g_proc_list s) P (g_proc_list s) a (ti_ring _ _ _ T) (ti_dup _ _ _ T) Hlink) as Hpe. rewrite (decide_False (P := P = [])) in Hpe by done. apply Hpe. intros _.
      rewrite <-Htail. unfold link. rewrite Elk, (decide_False (P := _ = a)) by done. rewrite (decide_True (P := g_proc_tail s = g_proc_tail s)) by done.
      destruct (ti_dom _ _ _ T (g_proc_tail s)) as [Hd _]. destruct Hd as [z ->]; [by rewrite Htail|]. cbn. by destruct (decide (g_proc_tail s = cur)).
    + cbn. split; [done|]. unfold link. by rewrite Elk, decide_True.
  - by rewrite Et, last0_snoc.
  - intros [Hq|Hq%list_elem_of_singleton]%elem_of_app; [by apply (ti_zero _ _ _ T)|lia].
  - intros q [Hq| ->%list_elem_of_singleton]%elem_of_app; [by apply (ti_range _ _ _ T)|done].
  - intros p q z w Hz Hw E. destruct (decide (p = a)) as [->|Hp], (decide (q = a)) as [->|Hq]; [done| | |].
    + exfalso. destruct (Hold q w Hq Hw) as (w' & Hw' & E' & _). pose proof (ti_fresh _ _ _ T q w' Hw'). destruct (Hnew z Hz). lia.
    + exfalso. destruct (Hold p z Hp Hz) as (z' & Hz' & E' & _). pose proof (ti_fresh _ _ _ T p z' Hz'). destruct (Hnew w Hw). lia.
    + destruct (Hold p z Hp Hz) as (z' & Hz' & E1 & _), (Hold q w Hq Hw) as (w' & Hw' & E2 & _). apply (ti_pid _ _ _ T p q z' w'); congruence.
  - intros p z Hz. rewrite En. destruct (decide (p = a)) as [->|Hp]; [destruct (Hnew z Hz) as [-> _]; pose proof (ti_fresh _ _ _ T cur x Hx); lia|]. destruct (Hold p z Hp Hz) as (w & Hw & -> & _). pose proof (ti_fresh _ _ _ T p w Hw). lia.
  - intros p Hp. rewrite Hafter. unfold with_child. destruct (decide (p = a)) as [->|Hpa]; [done|]. assert (HpP : p ∈ P) by (apply elem_of_app in Hp as [?|?%list_elem_of_singleton]; done).
    destruct (decide (p = cur)) as [->|Hpc].
    + rewrite Hx. split; [done|]. split; [lia|]. assert (Es : sib s' a = kids s cur) by (unfold sib; rewrite Elk; by rewrite decide_True). rewrite Es. apply (chain_ext (sib s)); [|by apply (ti_kids _ _ _ T)]. intros q Hq. apply Hsib. intros ->. by apply (HaC cur).
    + apply (chain_ext (sib s)); [|by apply (ti_kids _ _ _ T)]. intros q Hq. apply Hsib. intros ->. by apply (HaC p).
  - intros p. unfold with_child. destruct (decide (p = a)); [apply NoDup_nil_2|]. destruct (decide (p = cur)); [|apply T]. apply NoDup_cons. split; [apply HaC|apply T].
  - intros p c. unfold with_child. destruct (decide (p = a)) as [->|Hpa]; [by intros ?%not_elem_of_nil|]. intros Hc. assert (Hcase : c ∈ C p ∨ p = cur ∧ c = a).
    { destruct (decide (p = cur)) as [->|]; [apply elem_of_cons in Hc as [->|Hc]; [by right|by left]|by left]. }
    destruct Hcase as [Hc'|[-> ->]].
    + destruct (ti_parent _ _ _ T p c Hc') as (u & v & Hu & Hv & E). destruct (Hfwd p u Hu) as (u' & Hu' & E1 & _), (Hfwd c v Hv) as (v' & Hv' & _ & E2). exists u', v'. split; [done|]. split; [done|]. congruence.
    + destruct Na as [z Hz]. destruct (Hfwd cur x Hx) as (x' & Hx' & E1 & _). exists x', z. split; [done|]. split; [done|]. destruct (Hnew z Hz). congruence.
Qed.

Lemma spawn_spec a y s L P C x :
  qinv 0 s L → timed s → tinv s P C → procs s !! a = None → 0 < a < 2 ^ 64 → procs s !! g_current_proc s = Some x → g_next_pid s + 1 < 2 ^ 64 →
  pid y = g_next_pid s → parent_pid y = pid x → vis y = (Ready, None) → 0 <= priority y → wake_time y = 0 →
  let s1 := with_next_pid (u64 (g_next_pid s + 1)) s in
  ∃ s' L', link_process a (g_current_proc s) (with_procs (<[a := y]> (procs s1)) s1) = Ok s' ∧ qinv 0 s' L' ∧ timed s' ∧ tinv s' (P ++ [a]) (with_child (g_current_proc s) a C) ∧
  (∀ q, look s' q = if decide (q = a) then Some (Ready, None) else look s q) ∧ (∀ q, L' (KWait q) = L (KWait q)) ∧ g_current_proc s' = g_current_proc s ∧
  (∀ q, space <$> procs s' !! q = if decide (q = a) then Some (space y) else space <$> procs s !! q) ∧ released s' = released s.
Proof.
  intros I T Ti Ha Har Hx Hn Hpid Hpar Hv Hpr Hwt s1. pose proof (ti_fresh _ _ _ Ti _ _ Hx) as Hf. assert (En : u64 (g_next_pid s + 1) = g_next_pid s + 1) by (apply u64_small; lia).
  assert (Ht : is_Some (procs s !! g_proc_tail s)) by (apply (ti_dom _ _ _ Ti); rewrite (ti_tail _ _ _ Ti); apply last0_elem, Ti). assert (Hca : g_current_proc s ≠ a) by congruence.
  assert (Hta : g_proc_tail s ≠ a) by (intros E; rewrite E, Ha in Ht; by destruct Ht). destruct (qi_proc _ _ _ I _ _ Hx) as [Hc0 _].
  change (g_current_proc s) with (g_current_proc s1). rewrite (link_tree a s1 x y) by (done || (cbn; lia)). change (g_current_proc s1) with (g_current_proc s). set (s2 := with_list _ _ _). set (s0 := with_procs (<[a := y]> (procs s)) s).
  pose proof (qinv_new a y s L I Ha (conj Har Hpr)) as I0. assert (T0 : timed s0).
  { intros q z. unfold s0. cbn. destruct (decide (q = a)) as [->|]; [rewrite lookup_insert_eq; intros [= <-]; lia|rewrite lookup_insert_ne by done; apply T]. }
  assert (Elk : ∀ q, procs s2 !! q = if decide (q = a) then Some (set_sibling_next (kids s (g_current_proc s)) (set_children_list 0 (set_next (g_proc_list s) y)))
    else (λ x, (if decide (q = g_current_proc s) then set_children_list a else id) ((if decide (q = g_proc_tail s) then set_next a else id) x)) <$> procs s !! q) by (intros q; by apply (spawned_lookup a y s1)).
  assert (Q : qsame s0 s2).
  { split; try done. intros q. rewrite Elk. unfold s0. cbn [procs with_procs]. destruct (decide (q = a)) as [->|Hq]; [by rewrite lookup_insert_eq|]. rewrite lookup_insert_ne by done. destruct (procs s !! q); [|done]. cbn.
    by destruct (decide (q = g_current_proc s)), (decide (q = g_proc_tail s)). }
  pose proof (qinv_qsame _ _ _ _ I0 Q) as I2. pose proof (timed_qsame _ _ T0 Q) as T2.
  destruct (ready_queue_push_spec a s2 L (set_sibling_next (kids s (g_current_proc s)) (set_children_list 0 (set_next (g_proc_list s) y))) I2) as (s3 & E3 & I3 & P3); [rewrite Elk; by rewrite decide_True|done|].
  eexists s3, _. split; [done|]. split; [done|]. split; [by apply (timed_same s2); [apply pushed_sleep|]|]. split; [|split; [|split; [|split; [|split]]]].
  - apply (tinv_rest s2); [|apply P3]. by apply (tinv_spawn a y s s2 P C x).
  - intros q. rewrite (ps_look _ _ P3), (qsame_look s0 s2 q Q). unfold s0. rewrite look_insert. by rewrite Hv.
  - intros q. by rewrite ins_ne.
  - by rewrite (ps_cur _ _ P3).
  - intros q. assert (Es : space <$> procs s3 !! q = space <$> procs s2 !! q) by (apply (rest_field space); [intros u v E; unfold rest in E; unfold space; congruence|apply P3]). rewrite Es, Elk.
    destruct (decide (q = a)); [done|]. destruct (procs s !! q); [|done]. cbn. by destruct (decide (q = g_current_proc s)), (decide (q = g_proc_tail s)).
  - by rewrite (rs_released _ _ (ps_rest _ _ P3)).
Qed.
