(* ===== verification/SchedExit.v ===== *)
(** The end of a process (Sched.v): its children are adopted, those that wait for it are
    woken, and its parent is told. *)

From S2P Require Import Prelude Sched SchedInv SchedOps SchedSleep SchedRun SchedTree.

#[local] Strategy opaque [bloop].

(** * Adoption *)

Definition adopt (l : list Z) (m : gmap Z Process) (q : Z) : option Process := (λ x, if decide (q ∈ l) then set_parent_pid 1 x else x) <$> m !! q.

Lemma adopt_loop s h l :
  chain (sib s) h l → l ≠ [] → Z.of_nat (length l) < 2 ^ 64 → (∀ q, q ∈ l → is_Some (procs s !! q)) →
  ∃ m, bloop SCHED_FUEL adopt_step (h, s) = Ok (last0 l, with_procs m s) ∧ ∀ q, m !! q = adopt l (procs s) q.
Proof.
  intros Hc Hl Hlen Hin.
  destruct (bloop_rule (λ n (st : Z * Sched), ∃ l1 l2 m, l = l1 ++ st.1 :: l2 ∧ chain (sib s) st.1 (st.1 :: l2) ∧ st.2 = with_procs m s ∧ (∀ q, m !! q = adopt l1 (procs s) q) ∧ n = Z.of_nat (length l2))
     (λ r : Z * Sched, ∃ m, r = (last0 l, with_procs m s) ∧ ∀ q, m !! q = adopt l (procs s) q) adopt_step) with SCHED_FUEL (Z.of_nat (length l) - 1) (h, s) as (r & E & m & -> & Hm).
  - intros n st (l1 & l2 & m & _ & _ & _ & _ & ->). lia.
  - intros n [p s1] (l1 & l2 & m & El & Hc2 & Es & Hm & ->). cbn [fst snd] in *. subst s1. destruct (Hin p) as [x Hx]; [rewrite El; apply elem_of_app; right; left|].
    set (x1 := if decide (p ∈ l1) then set_parent_pid 1 x else x). assert (Hx1 : procs (with_procs m s) !! p = Some x1) by (cbn; rewrite Hm; unfold adopt; by rewrite Hx).
    unfold adopt_step. rewrite (update_Ok _ _ _ _ Hx1). cbn [mbind res_bind]. set (s2 := with_procs _ _). assert (Hx2 : procs s2 !! p = Some (set_parent_pid 1 x1)) by (unfold s2; cbn; by rewrite lookup_insert_eq).
    rewrite (fetch_Ok _ _ _ Hx2). cbn [mbind res_bind]. assert (Esib : sibling_next (set_parent_pid 1 x1) = sib s p) by (unfold sib, x1; rewrite Hx; by destruct (decide (p ∈ l1))). rewrite Esib.
    assert (Hm2 : ∀ q, procs s2 !! q = adopt (l1 ++ [p]) (procs s) q).
    { intros q. unfold s2, adopt. cbn. destruct (decide (q = p)) as [->|Hq].
      - rewrite lookup_insert_eq, Hx. cbn. rewrite (decide_True (P := p ∈ l1 ++ [p])) by (apply elem_of_app; right; left). unfold x1. by destruct (decide (p ∈ l1)).
      - rewrite lookup_insert_ne, Hm by done. unfold adopt. destruct (procs s !! q); [|done]. cbn. destruct (decide (q ∈ l1)); [rewrite decide_True; [done|apply elem_of_app; by left]|].
        rewrite decide_False; [done|]. intros [?|?%list_elem_of_singleton]%elem_of_app; done. }
    destruct Hc2 as (_ & Hp0 & Hc3). destruct (Z.eqb_spec (sib s p) 0) as [E0|Hn0]; eexists; (split; [done|]).
    + rewrite E0 in Hc3. apply chain_nil in Hc3. subst l2. exists (procs s2). split; [rewrite El, last0_snoc; by destruct s|]. intros q. by rewrite El.
    + destruct (chain_cons _ _ _ Hn0 Hc3) as (l3 & -> & Hc4). exists (Z.of_nat (length l3)). split; [simpl; lia|]. exists (l1 ++ [p]), l3, (procs s2). cbn [fst snd]. split; [by rewrite <-(assoc_L (++))|].
      split; [split; [done|]; by split|]. split; [by destruct s|done].
  - destruct l as [|p l]; [done|]. pose proof Hc as (-> & _ & _). exists [], l, (procs s). cbn [fst snd app]. split; [done|]. split; [done|]. split; [by destruct s|]. split; [|cbn [length]; lia].
    intros q. unfold adopt. destruct (procs s !! q); [|done]. cbn. rewrite decide_False; [done|apply not_elem_of_nil].
  - destruct l; [done|]. cbn [length] in *. unfold SCHED_FUEL. lia.
  - exists m. done.
Qed.

(** The children of [cur] go to [i]. *)
Definition moved (cur i : Z) (C : Z → list Z) : Z → list Z := λ q, if decide (q = cur) then [] else if decide (q = i) then C cur ++ C i else C q.

(** What stays of a process when the links to its relatives change. *)
Definition core (x : Process) : Z * Z * (Z * Z * Z * Z) * Z := (pid x, next x, space x, exit_status x).

Record relinked (s s' : Sched) : Prop := {
  rl_queues : qsame s s';
  rl_core q : core <$> procs s' !! q = core <$> procs s !! q;
  rl_list : g_proc_list s' = g_proc_list s;
  rl_tail : g_proc_tail s' = g_proc_tail s;
  rl_next_pid : g_next_pid s' = g_next_pid s;
  rl_released : released s' = released s
}.

(** The parts of the invariant that the links to relatives do not touch. *)
Lemma tinv_relinked s s' P C C' :
  tinv s P C → relinked s s' →
  (∀ p, p ∈ P → chain (sib s') (kids s' p) (C' p)) → (∀ p, NoDup (C' p)) → (∀ p c, c ∈ C' p → ∃ x y, procs s' !! p = Some x ∧ procs s' !! c = Some y ∧ parent_pid y = pid x) → tinv s' P C'.
Proof.
  intros [T1 T2 T3 T4 T5 T6 T7 T8 T9 T10 T11 T12] [R1 R2 R3 R4 R5 R6] Hk Hd Hp.
  assert (Hback : ∀ q y, procs s' !! q = Some y → ∃ x, procs s !! q = Some x ∧ pid y = pid x).
  { intros q y Hy. pose proof (R2 q) as E. rewrite Hy in E. destruct (procs s !! q) as [x|]; [|done]. exists x. split; [done|]. cbn in E. unfold core in E. congruence. }
  split; try done.
  - intros q. rewrite T1. by apply (qsame_live s s').
  - rewrite R3. apply (path_ext (link s)); [|done]. intros q _. unfold link. pose proof (R2 q) as E. destruct (procs s' !! q), (procs s !! q); try done. cbn in E. unfold core in E. congruence.
  - congruence.
  - intros p q x y Hx Hy E. destruct (Hback p x Hx) as (x' & Hx' & Ex), (Hback q y Hy) as (y' & Hy' & Ey). apply (T8 p q x' y'); congruence.
  - intros p x Hx. destruct (Hback p x Hx) as (x' & Hx' & ->). rewrite R5. by apply (T9 p).
Qed.

Lemma children_length s P C p : tinv s P C → p ∈ P → Z.of_nat (length (C p)) < 2 ^ 64.
Proof.
  intros T Hp. assert (Hsub : ∀ c, c ∈ C p → c ∈ P). { intros c Hc. apply (ti_dom _ _ _ T). destruct (ti_parent _ _ _ T p c Hc) as (x & y & _ & Hy & _). by exists y. }
  pose proof (tinv_length _ _ _ T). assert (length (C p) <= length P)%nat; [|lia]. apply submseteq_length, NoDup_submseteq; [apply T|done].
Qed.

Lemma children_live s P C p c : tinv s P C → c ∈ C p → is_Some (procs s !! c).
Proof. intros T Hc. destruct (ti_parent _ _ _ T p c Hc) as (x & y & _ & Hy & _). by exists y. Qed.

Definition given (cur i last ki kc : Z) (l : list Z) (q : Z) (x : Process) : Process :=
  (if decide (q = cur) then set_children_list 0 else id) ((if decide (q = i) then set_children_list kc else id) ((if decide (q = last) then set_sibling_next ki else id) (if decide (q ∈ l) then set_parent_pid 1 x else x))).

(** The links after the children [l] of the current process have been given to [i]. *)
Lemma adopt_given s i l :
  let cur := g_current_proc s in
  chain (sib s) (kids s cur) l → l ≠ [] → Z.of_nat (length l) < 2 ^ 64 → (∀ q, q ∈ l → is_Some (procs s !! q)) → is_Some (procs s !! cur) → is_Some (procs s !! i) →
  ∃ m, ('(last, s1) ← bloop SCHED_FUEL adopt_step (kids s cur, s);
        ix ← fetch i s1;
        s1 ← update last (set_sibling_next (children_list ix)) s1;
        x ← fetch cur s1;
        s1 ← update i (set_children_list (children_list x)) s1;
        update cur (set_children_list 0) s1) = Ok (with_procs m s) ∧
  ∀ q, m !! q = given cur i (last0 l) (kids s i) (kids s cur) l q <$> procs s !! q.
Proof.
  intros cur Hc Hl Hlen Hin [xc Hxc] [xi Hxi]. destruct (adopt_loop s _ l Hc Hl Hlen Hin) as (m & E & Hm). rewrite E. cbn [mbind res_bind]. clear E.
  set (ad := λ q x, if decide (q ∈ l) then set_parent_pid 1 x else x). assert (Hm' : ∀ q x, procs s !! q = Some x → m !! q = Some (ad q x)) by (intros q x Hx; rewrite Hm; unfold adopt; by rewrite Hx).
  rewrite (fetch_Ok i (with_procs m s) _ (Hm' i xi Hxi)). cbn [mbind res_bind]. assert (Eki : children_list (ad i xi) = kids s i) by (unfold ad, kids; rewrite Hxi; by destruct (decide (i ∈ l))). rewrite Eki.
  pose proof (last0_elem _ Hl) as Hlast. destruct (Hin _ Hlast) as [xl Hxl]. rewrite (update_Ok (last0 l) _ (with_procs m s) _ (Hm' _ xl Hxl)), <-(insert_alter_id _ _ _ _ (Hm' _ xl Hxl)). cbn [mbind res_bind]. set (s1 := with_procs _ _).
  assert (H1 : ∀ q x, procs s !! q = Some x → procs s1 !! q = Some ((if decide (q = last0 l) then set_sibling_next (kids s i) else id) (ad q x))).
  { intros q x Hx. unfold s1. cbn [procs with_procs]. destruct (decide (q = last0 l)) as [->|Hq]; [by rewrite lookup_alter_eq, (Hm' _ x Hx)|by rewrite lookup_alter_ne, (Hm' _ x Hx)]. }
  rewrite (fetch_Ok cur s1 _ (H1 cur xc Hxc)). cbn [mbind res_bind]. set (x1 := _ (ad cur xc)). assert (Ekc : children_list x1 = kids s cur).
  { unfold x1, ad, kids. rewrite Hxc. by destruct (decide (cur = last0 l)), (decide (cur ∈ l)). }
  rewrite Ekc, (update_Ok i _ s1 _ (H1 i xi Hxi)), <-(insert_alter_id _ _ _ _ (H1 i xi Hxi)). cbn [mbind res_bind]. set (s2 := with_procs _ s1).
  assert (H2 : ∀ q x, procs s !! q = Some x → procs s2 !! q = Some ((if decide (q = i) then set_children_list (kids s cur) else id) ((if decide (q = last0 l) then set_sibling_next (kids s i) else id) (ad q x)))).
  { intros q x Hx. change (procs s2) with (alter (set_children_list (kids s cur)) i (procs s1)). destruct (decide (q = i)) as [->|Hq]; [by rewrite lookup_alter_eq, (H1 _ x Hx)|by rewrite lookup_alter_ne, (H1 _ x Hx)]. }
  rewrite (update_Ok cur _ s2 _ (H2 cur xc Hxc)), <-(insert_alter_id _ _ _ _ (H2 cur xc Hxc)). exists (alter (set_children_list 0) cur (procs s2)). split; [by destruct s|].
  intros q. destruct (procs s !! q) as [x|] eqn:Hx.
  - unfold given. fold (ad q x). destruct (decide (q = cur)) as [->|Hq]; [by rewrite lookup_alter_eq, (H2 _ x Hx)|by rewrite lookup_alter_ne, (H2 _ x Hx)].
  - cbn. assert (m !! q = None) by (rewrite Hm; unfold adopt; by rewrite Hx). change (procs s2) with (alter (set_children_list (kids s cur)) i (procs s1)). unfold s1. cbn [procs with_procs].
    rewrite !lookup_alter_None. done.
Qed.

Lemma given_relinked s m cur i last ki kc l : (∀ q, m !! q = given cur i last ki kc l q <$> procs s !! q) → relinked s (with_procs m s).
Proof.
  intros Hm. assert (E : ∀ q {A} (f : Process → A), (∀ x v, f (set_parent_pid v x) = f x) → (∀ x v, f (set_sibling_next v x) = f x) → (∀ x v, f (set_children_list v x) = f x) → f <$> m !! q = f <$> procs s !! q).
  { intros q A f H1 H2 H3. rewrite Hm. destruct (procs s !! q) as [x|]; [|done]. cbn. f_equal. unfold given.
    destruct (decide (q = cur)), (decide (q = i)), (decide (q = last)), (decide (q ∈ l)); cbn; by rewrite ?H3, ?H2, ?H1. }
  split; [split|..]; try done; intros q; cbn [procs with_procs]; by apply E.
Qed.

(** Every child of the current process becomes a child of [i], or of nobody if [i] is the current process. *)
Lemma given_tinv s m P C i xi :
  let cur := g_current_proc s in
  tinv s P C → cur ∈ P → C cur ≠ [] → procs s !! i = Some xi → pid xi = 1 → (∀ q, m !! q = given cur i (last0 (C cur)) (kids s i) (kids s cur) (C cur) q <$> procs s !! q) →
  tinv (with_procs m s) P (moved cur i C).
Proof.
  intros cur T Hc Hl Hxi Hpi Hm. pose proof (given_relinked _ _ _ _ _ _ _ _ Hm) as R. set (s' := with_procs m s) in *. pose proof (last0_elem _ Hl) as Hlast. assert (HiP : i ∈ P) by (apply (ti_dom _ _ _ T); by exists xi).
  assert (Hdis : ∀ p c, p ≠ cur → c ∈ C p → c ∉ C cur) by (intros p c Hp H1 H2; by apply Hp, (tinv_uniq s P C p cur c T)).
  assert (Hsib : ∀ q, q ≠ last0 (C cur) → sib s' q = sib s q).
  { intros q Hq. unfold sib, s'. cbn [procs with_procs]. rewrite Hm. destruct (procs s !! q); [|done]. cbn. unfold given. rewrite (decide_False (P := q = last0 _)) by done. by destruct (decide (q = cur)), (decide (q = i)), (decide (q ∈ C cur)). }
  assert (Hsibl : sib s' (last0 (C cur)) = kids s i).
  { unfold sib, s'. cbn [procs with_procs]. rewrite Hm. destruct (children_live _ _ _ _ _ T Hlast) as [z ->]. cbn. unfold given. rewrite (decide_True (P := last0 _ = last0 _)) by done. by destruct (decide (_ = cur)), (decide (_ = i)). }
  assert (Hkids : ∀ q, kids s' q = if decide (q = cur) then 0 else if decide (q = i) then (if procs s !! q is Some _ then kids s cur else 0) else kids s q).
  { intros q. unfold kids, s'. cbn [procs with_procs]. rewrite Hm. unfold given. destruct (procs s !! q); cbn; destruct (decide (q = cur)), (decide (q = i)); try done. by destruct (decide (q = last0 (C cur))), (decide (q ∈ C cur)). }
  assert (Hpid : ∀ q z, procs s' !! q = Some z → ∃ w, procs s !! q = Some w ∧ pid z = pid w ∧ parent_pid z = if decide (q ∈ C cur) then 1 else parent_pid w).
  { intros q z. unfold s'. cbn [procs with_procs]. rewrite Hm. destruct (procs s !! q) as [w|]; [|done]. cbn. intros [= <-]. exists w. split; [done|]. unfold given.
    destruct (decide (q = cur)), (decide (q = i)), (decide (q = last0 (C cur))), (decide (q ∈ C cur)); done. }
  assert (Hlive : ∀ q w, procs s !! q = Some w → ∃ z, procs s' !! q = Some z) by (intros q w Hw; unfold s'; cbn [procs with_procs]; rewrite Hm, Hw; by eexists).
  apply (tinv_relinked s s' P C); [done|done|..].
  - intros p Hp. rewrite Hkids. unfold moved. destruct (decide (p = cur)) as [->|Hpc]; [done|]. destruct (decide (p = i)) as [->|Hpi'].
    + rewrite Hxi. pose proof (chain_graft (sib s) (sib s') (kids s cur) (C cur) [] (kids s i) (C i)) as G. rewrite app_nil_r, (decide_False (P := C cur = [])) in G by done. apply G; [by apply (ti_kids _ _ _ T)|apply T|intros q _ Hq; by apply Hsib|done|].
      apply (chain_ext (sib s)); [|by apply (ti_kids _ _ _ T)]. intros q Hq. apply Hsib. intros ->. by apply (Hdis i (last0 (C cur))).
    + apply (chain_ext (sib s)); [|by apply (ti_kids _ _ _ T)]. intros q Hq. apply Hsib. intros ->. by apply (Hdis p (last0 (C cur))).
  - intros p. unfold moved. destruct (decide (p = cur)); [apply NoDup_nil_2|]. destruct (decide (p = i)) as [->|]; [|apply T]. apply NoDup_app. split; [apply T|]. split; [|apply T]. intros q Hq Hq2. by apply (Hdis i q).
  - intros p c. unfold moved. destruct (decide (p = cur)) as [->|Hpc]; [by intros ?%not_elem_of_nil|]. intros Hcc.
    assert (Hcase : c ∈ C p ∧ (c ∉ C cur) ∨ p = i ∧ c ∈ C cur). { destruct (decide (p = i)) as [->|]; [apply elem_of_app in Hcc as [?|Hcc]; [by right|left]|left]; (split; [done|by eapply Hdis]). }
    destruct Hcase as [[Hcp Hcn]|[-> Hcc']].
    + destruct (ti_parent _ _ _ T p c Hcp) as (u & v & Hu & Hv & E). destruct (Hlive p u Hu) as [u' Hu'], (Hlive c v Hv) as [v' Hv']. exists u', v'. split; [done|]. split; [done|].
      destruct (Hpid p u' Hu') as (u2 & Hu2 & E1 & _), (Hpid c v' Hv') as (v2 & Hv2 & _ & E2). rewrite decide_False in E2 by done. congruence.
    + destruct (ti_parent _ _ _ T cur c Hcc') as (u & v & Hu & Hv & E). destruct (Hlive i xi Hxi) as [u' Hu'], (Hlive c v Hv) as [v' Hv']. exists u', v'. split; [done|]. split; [done|].
      destruct (Hpid i u' Hu') as (u2 & Hu2 & E1 & _), (Hpid c v' Hv') as (v2 & Hv2 & _ & E2). rewrite decide_True in E2 by done. congruence.
Qed.

Lemma kids_nil s P C p : tinv s P C → p ∈ P → (kids s p = 0 ↔ C p = []).
Proof. intros T Hp. pose proof (ti_kids _ _ _ T p Hp) as Hc. split; [intros E; rewrite E in Hc; by apply chain_nil in Hc|intros E; by rewrite E in Hc]. Qed.

Lemma qsame_refl s : qsame s s.
Proof. done. Qed.

Lemma relinked_refl s : relinked s s.
Proof. done. Qed.

(** A process without children. *)
Lemma orphan_spec s P C x :
  let cur := g_current_proc s in
  tinv s P C → procs s !! cur = Some x → let s' := with_procs (<[cur := set_children_list 0 x]> (procs s)) s in
  relinked s s' ∧ tinv s' P (λ q, if decide (q = cur) then [] else C q).
Proof.
  intros cur T Hx s'. assert (E : ∀ q {A} (f : Process → A), (∀ y v, f (set_children_list v y) = f y) → f <$> procs s' !! q = f <$> procs s !! q).
  { intros q A f H. unfold s'. cbn. destruct (decide (q = cur)) as [->|]; [rewrite lookup_insert_eq, Hx; cbn; by rewrite H|by rewrite lookup_insert_ne]. }
  assert (R : relinked s s') by (split; [split|..]; try done; intros q; by apply E). split; [done|].
  assert (Hsib : ∀ q, sib s' q = sib s q). { intros q. pose proof (E q _ sibling_next ltac:(done)) as Eq. unfold sib. destruct (procs s' !! q), (procs s !! q); try done. by injection Eq. }
  apply (tinv_relinked s s' P C); [done|done|..].
  - intros p Hp. destruct (decide (p = cur)) as [->|Hpc]; [unfold kids, s'; cbn; by rewrite lookup_insert_eq|]. assert (Ek : kids s' p = kids s p) by (unfold kids, s'; cbn; by rewrite lookup_insert_ne).
    rewrite Ek. apply (chain_ext (sib s)); [|by apply (ti_kids _ _ _ T)]. intros q _. apply Hsib.
  - intros p. destruct (decide (p = cur)); [apply NoDup_nil_2|apply T].
  - intros p c. destruct (decide (p = cur)); [by intros ?%not_elem_of_nil|]. intros Hc. destruct (ti_parent _ _ _ T p c Hc) as (u & v & Hu & Hv & Ep).
    pose proof (E p _ pid ltac:(done)) as E1. pose proof (E c _ parent_pid ltac:(done)) as E2. rewrite Hu in E1. rewrite Hv in E2. destruct (procs s' !! p) as [u'|]; [|done]. destruct (procs s' !! c) as [v'|]; [|done]. exists u', v'.
    split; [done|]. split; [done|]. cbn in E1, E2. congruence.
Qed.

Lemma adopt_children_spec s P C :
  let cur := g_current_proc s in
  tinv s P C → cur ∈ P →
  ∃ s' C', adopt_children s = Ok s' ∧ relinked s s' ∧ tinv s' P C' ∧ C' cur = [] ∧ ∀ p c, p ≠ cur → c ∈ C p → c ∈ C' p.
Proof.
  intros cur T Hc. destruct (proj1 (ti_dom _ _ _ T cur) Hc) as [x Hx]. assert (Ek : children_list x = kids s cur) by (unfold kids; by rewrite Hx). pose proof (kids_nil s P C cur T Hc) as Hn.
  unfold adopt_children. fold cur. step_with (fetch_Ok _ _ _ Hx). rewrite Ek. destruct (Z.eqb_spec (kids s cur) 0) as [E0|Hn0]; [exists s, C; split_and!; try done; tauto|].
  assert (Hl : C cur ≠ []) by tauto. destruct (list_find_spec (λ _ x, pid x =? 1) s P C T) as [[E _]|(l1 & i & l2 & xi & E & EP & Hxi & Hpi & _)]; step_with E.
  - cbn [mbind res_bind]. rewrite (update_Ok _ _ _ _ Hx). destruct (orphan_spec s P C x T Hx) as [R T']. eexists _, _. split; [done|]. split; [done|]. split; [done|]. fold cur. split; [by rewrite decide_True|]. intros p c Hp Hcc. by rewrite decide_False.
  - apply Z.eqb_eq in Hpi. destruct (adopt_given s i (C cur)) as (m & E2 & Hm); try done; [by apply (ti_kids _ _ _ T)|by eapply children_length|intros q Hq; by eapply children_live|].
    assert (Hcode : (s1 ← ('(last, s1) ← bloop SCHED_FUEL adopt_step (kids s cur, s);
        ix ← fetch i s1;
        s1 ← update last (set_sibling_next (children_list ix)) s1;
        x ← fetch cur s1;
        update i (set_children_list (children_list x)) s1); update cur (set_children_list 0) s1) = Ok (with_procs m s)).
    { fold cur in E2. revert E2. destruct (bloop SCHED_FUEL adopt_step (kids s cur, s)) as [[last s1]| |]; [|done..]. cbn [mbind res_bind]. destruct (fetch i s1) as [ix| |]; [|done..]. cbn [mbind res_bind].
      destruct (update last _ s1) as [s2| |]; [|done..]. cbn [mbind res_bind]. destruct (fetch cur s2) as [y| |]; [|done..]. cbn [mbind res_bind]. done. }
    exists (with_procs m s), (moved cur i C). split; [exact Hcode|]. split; [by eapply given_relinked|]. split; [by apply (given_tinv s m P C i xi)|]. unfold moved. split; [by rewrite decide_True|].
    intros p c Hp Hcc. rewrite decide_False by done. destruct (decide (p = i)) as [->|]; [apply elem_of_app; by right|done].
Qed.

(** * The whole invariant *)

(** Who waits for a process is its parent and the process has not ended; only the owner
    waits on the event queue of a process. *)
Record zinv (s : Sched) (C : Z → list Z) : Prop := {
  zi_child p c : look s p = Some (Waiting, Some (QChild c)) → c ∈ C p ∧ ∃ v, look s c = Some v ∧ v.1 ≠ Zombie;
  zi_event p r : look s p = Some (Waiting, Some (QEvent r)) → r = p
}.

(** [d] is a process that never blocks. *)
Record good (d : Z) (s : Sched) (L : QKey → list Z) (P : list Z) (C : Z → list Z) : Prop := {
  gd_queues : qinv 0 s L;
  gd_timed : timed s;
  gd_tree : tinv s P C;
  gd_wait : zinv s C;
  gd_idle : ∃ v, look s d = Some v ∧ active v;
  gd_cur : is_Some (procs s !! g_current_proc s)
}.

Lemma zinv_switched s s' C : zinv s C → switched s s' → zinv s' C.
Proof.
  intros [Z1 Z2] W. assert (Hw : ∀ p q, look s' p = Some (Waiting, q) → look s p = Some (Waiting, q)).
  { intros p q E. destruct (sw_look _ _ W p) as [E'|(v & v' & _ & _ & E' & [->| ->])]; [congruence|congruence|congruence]. }
  split.
  - intros p c E. destruct (Z1 p c (Hw _ _ E)) as (Hc & v & Hv & Hz). split; [done|]. destruct (sw_look _ _ W c) as [E'|(_ & v' & _ & _ & E' & Ha)]; [exists v; by rewrite E'|]. exists v'. split; [done|]. by destruct Ha as [->| ->].
  - intros p r E. by apply (Z2 p), Hw.
Qed.

Lemma good_switched d s s' L L' P C : good d s L P C → switched s s' → qinv 0 s' L' → timed s' → is_Some (procs s' !! g_current_proc s') → good d s' L' P C.
Proof.
  intros [G1 G2 G3 G4 (v & Gv & Ga) G6] W I T Hc. split; [done|done|by apply (tinv_rest s), W|by eapply zinv_switched|by eapply switched_active|done].
Qed.

Lemma good_woken d s s' L L' P C W : good d s L P C → woken W s s' → sleep_same s s' → qinv 0 s' L' → good d s' L' P C.
Proof.
  intros G Wk S I. apply (good_switched d s _ L); [done|by eapply woken_switched|done|apply (timed_same s); [done|apply G]|]. rewrite (wk_cur _ _ _ Wk). apply (rest_live s); [apply Wk|apply (gd_cur _ _ _ _ _ G)].
Qed.

Lemma schedule_good d s L P C :
  good d s L P C → ∃ s' L', scheduler_schedule_internal s = Ok s' ∧ good d s' L' P C ∧ look s' (g_current_proc s') = Some (Running, None) ∧ switched s s' ∧ ∀ q, L' (KWait q) = L (KWait q).
Proof.
  intros G. destruct (gd_idle _ _ _ _ _ G) as (v & Hv & Ha). destruct (schedule_internal_spec s L) as (s' & L' & E & I & T & W & R & B & _); [apply G|apply G|apply (gd_cur _ _ _ _ _ G)|by exists d, v|].
  exists s', L'. split; [done|]. split; [|done]. apply (good_switched d s _ L); try done. destruct (look_Some _ _ _ R) as (x & Hx & _). by exists x.
Qed.

(** The current process goes to sleep or waits. *)
Lemma good_blocked d s s1 L L1 P C v :
  let cur := g_current_proc s in
  good d s L P C → cur ≠ d → v.1 ≠ Zombie → (∀ c, v = (Waiting, Some (QChild c)) → c ∈ C cur ∧ ∃ w, look s c = Some w ∧ w.1 ≠ Zombie) → (∀ r, v = (Waiting, Some (QEvent r)) → r = cur) →
  qinv 0 s1 L1 → timed s1 → rest_same s s1 → g_current_proc s1 = cur → (∀ q, look s1 q = if decide (q = cur) then Some v else look s q) → good d s1 L1 P C.
Proof.
  intros cur G Hd Hz Hc He I1 T1 R1 Ecur Hlk. destruct (gd_wait _ _ _ _ _ G) as [Z1 Z2]. assert (Hnon : ∀ q, (∃ w, look s q = Some w ∧ w.1 ≠ Zombie) → ∃ w, look s1 q = Some w ∧ w.1 ≠ Zombie).
  { intros q (w & Hw & Hwz). rewrite Hlk. destruct (decide (q = cur)); [by exists v|by exists w]. }
  split; [done|done|apply (tinv_rest s); [apply G|done]|split| |].
  - intros p c. rewrite Hlk. destruct (decide (p = cur)) as [->|]; [intros [= E]; destruct (Hc c E); split; [done|by apply Hnon]|]. intros E. destruct (Z1 p c E). split; [done|by apply Hnon].
  - intros p r. rewrite Hlk. destruct (decide (p = cur)) as [->|]; [intros [= E]; by apply He|apply Z2].
  - destruct (gd_idle _ _ _ _ _ G) as (w & Hw & Ha). exists w. rewrite Hlk. by rewrite decide_False.
  - rewrite Ecur. apply (rest_live s); [done|apply (gd_cur _ _ _ _ _ G)].
Qed.

(** What a step does to the processes: the current one takes the state [bv], if given; then
    some become ready and one becomes the current one; zombies may go and new ones may come. *)
Record evolves (bv : option (ProcessState * option WaitQueueId)) (s s' : Sched) : Prop := {
  ev_look q v : look s q = Some v → let v0 := if decide (q = g_current_proc s) then default v bv else v in
    look s' q = Some v0 ∨ (v0.1 ≠ Zombie ∧ ∃ v', look s' q = Some v' ∧ active v') ∨ v0.1 = Zombie ∧ look s' q = None;
  ev_new q : look s q = None → look s' q = None ∨ look s' q = Some (Ready, None);
  ev_pid q x' : procs s' !! q = Some x' → (∃ x, procs s !! q = Some x ∧ pid x' = pid x) ∨ procs s !! q = None ∧ pid x' = g_next_pid s;
  ev_next : g_next_pid s <= g_next_pid s'
}.

Lemma evolves_block v s s1 s' :
  (∀ q, look s1 q = if decide (q = g_current_proc s) then Some v else look s q) → is_Some (procs s !! g_current_proc s) → (∀ q, look s' q = look s1 q ∨ ∃ v v', look s1 q = Some v ∧ v.1 ≠ Zombie ∧ look s' q = Some v' ∧ active v') →
  (∀ q, space <$> procs s' !! q = space <$> procs s !! q) → g_next_pid s' = g_next_pid s → evolves (Some v) s s'.
Proof.
  intros H1 Hc H2 Hs Hn. split; [..|lia].
  - intros q w Hq v0. assert (E1 : look s1 q = Some v0) by (rewrite H1; unfold v0; by destruct (decide (q = g_current_proc s))). destruct (H2 q) as [E|(u & v' & Eu & Hz & E & Ha)]; [left; congruence|]. right. left. assert (u = v0) as -> by congruence. split; [done|by exists v'].
  - intros q Hq. assert (E1 : look s1 q = None). { rewrite H1. destruct (decide (q = g_current_proc s)) as [->|]; [|done]. destruct Hc as [x Hx]. unfold look in Hq. by rewrite Hx in Hq. } left. destruct (H2 q) as [E|(u & v' & Eu & _)]; congruence.
  - intros q x' Hx'. left. specialize (Hs q). rewrite Hx' in Hs. destruct (procs s !! q) as [x|]; [|done]. exists x. split; [done|]. cbn in Hs. unfold space in Hs. congruence.
Qed.

Lemma evolves_none s s' :
  (∀ q, look s' q = look s q ∨ ∃ v v', look s q = Some v ∧ v.1 ≠ Zombie ∧ look s' q = Some v' ∧ active v') → (∀ q, space <$> procs s' !! q = space <$> procs s !! q) → g_next_pid s' = g_next_pid s → evolves None s s'.
Proof.
  intros H2 Hs Hn. split; [..|lia].
  - intros q w Hq v0. assert (v0 = w) as -> by (unfold v0; by destruct (decide (q = g_current_proc s))). destruct (H2 q) as [E|(u & v' & Eu & Hz & E & Ha)]; [left; congruence|]. right. left. assert (u = w) as -> by congruence. split; [done|by exists v'].
  - intros q Hq. left. destruct (H2 q) as [E|(u & v' & Eu & _)]; congruence.
  - intros q x' Hx'. left. specialize (Hs q). rewrite Hx' in Hs. destruct (procs s !! q) as [x|]; [|done]. exists x. split; [done|]. cbn in Hs. unfold space in Hs. congruence.
Qed.

Lemma rest_space s s' q : rest_same s s' → space <$> procs s' !! q = space <$> procs s !! q.
Proof. intros R. apply (rest_field space); [intros u v E; unfold rest in E; unfold space; congruence|apply R]. Qed.

Lemma evolves_switched s s' : switched s s' → evolves None s s'.
Proof. intros W. apply evolves_none; [apply W|intros q; apply rest_space, W|apply W]. Qed.

Lemma evolves_blocked v s s1 s' : (∀ q, look s1 q = if decide (q = g_current_proc s) then Some v else look s q) → is_Some (procs s !! g_current_proc s) → rest_same s s1 → switched s1 s' → evolves (Some v) s s'.
Proof. intros H1 Hc R W. apply (evolves_block v s s1 s' H1 Hc); [apply W|intros q; rewrite (rest_space s1 s' q (sw_rest _ _ W)); by apply rest_space|rewrite (rs_next_pid _ _ (sw_rest _ _ W)); apply R]. Qed.

(** A process that waits is on the queue it says. *)
Lemma waits_queued s L p q : qinv 0 s L → look s p = Some (Waiting, Some q) → p ∈ L (KWait q).
Proof.
  intros I Hv. destruct (look_Some _ _ _ Hv) as (y & Hy & _). destruct (qi_proc _ _ _ I _ _ Hy) as [Hp0 _].
  destruct (qi_where _ _ _ I p _ ltac:(lia) Hv) as [[k Hk]|[[? _]|[?|?]]]; [|done..]. pose proof (qi_mem _ _ _ I _ _ Hk) as Em. rewrite Hv in Em. destruct k as [| |r]; [done|done|]. by injection Em as <-.
Qed.

(** * The end of a process *)

Lemma zombie_spec status s L P C x :
  let cur := g_current_proc s in
  qinv 0 s L → timed s → tinv s P C → procs s !! cur = Some x → look s cur = Some (Running, None) →
  let s' := with_procs (<[cur := set_exit_status status (set_state Zombie x)]> (procs s)) s in
  qinv 0 s' L ∧ timed s' ∧ tinv s' P C ∧ (∀ q, look s' q = if decide (q = cur) then Some (Zombie, None) else look s q).
Proof.
  intros cur I T Ti Hx Hr s'. pose proof Hr as Hv. unfold look in Hv. rewrite Hx in Hv. injection Hv as Est Ewq.
  assert (Hlook : ∀ q, look s' q = if decide (q = cur) then Some (Zombie, None) else look s q) by (intros q; unfold s'; rewrite look_insert; unfold vis; cbn; by rewrite Ewq).
  assert (Hoff : ∀ k, cur ∉ L k) by (apply (qinv_off s L cur _ I Hr); by intros []). split; [|split; [|split; [|done]]].
  - apply (qinv_unmark cur); [apply (qinv_field cur s L cur x); [by apply qinv_mark|done|done|by right|apply (qi_proc _ _ _ I _ _ Hx)]|]. intros v. rewrite Hlook, decide_True by done. intros [= <-]. right. by left.
  - intros q y. unfold s'. cbn. destruct (decide (q = cur)) as [->|]; [rewrite lookup_insert_eq; intros [= <-]; apply (T cur x Hx)|rewrite lookup_insert_ne by done; apply T].
  - apply (tinv_tsame s); [done|]. split; try done. intros q. unfold s'. cbn. destruct (decide (q = cur)) as [->|]; [by rewrite lookup_insert_eq, Hx|by rewrite lookup_insert_ne].
Qed.

Lemma relinked_good s s' L : qinv 0 s L → timed s → relinked s s' → qinv 0 s' L ∧ timed s'.
Proof. intros I T R. split; [by eapply qinv_qsame, R|by eapply timed_qsame, R]. Qed.

(** A waiting parent is woken and told. *)
Lemma tell_parent_spec d status s L P C :
  good d s L P C →
  ∃ s' L' W, tell_parent status s = Ok s' ∧ good d s' L' P C ∧ woken W s s'.
Proof.
  intros G. destruct (gd_cur _ _ _ _ _ G) as [x Hx]. unfold tell_parent. step_with (fetch_Ok _ _ _ Hx).
  destruct (list_find_spec (λ _ y, pid y =? parent_pid x) s P C (gd_tree _ _ _ _ _ G)) as [[E _]|(l1 & q & l2 & y & E & _ & Hy & _)]; step_with E; [exists s, L, []; split; [done|]; split; [done|apply woken_refl]|].
  step_with (fetch_Ok _ _ _ Hy). assert (Hw : ∃ s1 L1 W, (if bool_decide (state y = Waiting) && (wait_for_pid y =? 0) then scheduler_wake_process q s else Ok s) = Ok s1 ∧ qinv 0 s1 L1 ∧ woken W s s1 ∧ sleep_same s s1).
  { case_match; [|exists s, L, []; split_and!; try done; [apply G|apply woken_refl]]. destruct (scheduler_wake_process_spec q s L (vis y)) as (s1 & L1 & E1 & I1 & W1 & S1 & _); [apply G|unfold look; by rewrite Hy|]. eexists s1, L1, _. done. }
  destruct Hw as (s1 & L1 & W & E1 & I1 & W1 & S1). step_with E1. destruct (rest_live s s1 q) as [y1 Hy1]; [apply W1|by exists y|]. rewrite (update_Ok _ _ _ _ Hy1). set (s2 := with_procs _ s1).
  assert (Ps : pushed s1 s2) by (by apply (pushed_insert q y1)). pose proof (woken_trans _ _ _ _ _ W1 (pushed_woken _ _ Ps)) as W2. rewrite app_nil_r in W2. exists s2, L1, W. split; [done|]. split; [|done].
  apply (good_woken d s _ L _ _ _ W); [done|done|eapply sleep_trans; [done|by apply pushed_sleep]|]. apply (qinv_field _ _ _ q y1); [done|done|done|by left|apply (qi_proc _ _ _ I1 _ _ Hy1)].
Qed.

Lemma process_exit_spec d status s L P C :
  let cur := g_current_proc s in
  good d s L P C → look s cur = Some (Running, None) → cur ≠ d →
  ∃ s' L' C', process_exit status s = Ok s' ∧ good d s' L' P C' ∧ look s' (g_current_proc s') = Some (Running, None) ∧ look s' cur = Some (Zombie, None) ∧
  (∀ p, look s p = Some (Waiting, Some (QChild cur)) → ∃ v, look s' p = Some v ∧ active v) ∧
  (∀ q, space <$> procs s' !! q = space <$> procs s !! q) ∧ released s' = released s ∧ exit_status <$> procs s' !! cur = Some status ∧ evolves (Some (Zombie, None)) s s'.
Proof.
  intros cur G Hr Hd. destruct (gd_cur _ _ _ _ _ G) as [x Hx]. fold cur in Hx. unfold process_exit. fold cur. step_with (update_Ok _ (λ x, set_exit_status status (set_state Zombie x)) _ _ Hx). set (s1 := with_procs _ s).
  destruct (zombie_spec status s L P C x) as (I1 & T1 & Ti1 & Lk1); [apply G|apply G|apply G|done|done|]. fold cur s1 in I1, T1, Ti1, Lk1.
  assert (HcP : cur ∈ P) by (apply (ti_dom _ _ _ Ti1); unfold s1; cbn; rewrite lookup_insert_eq; by eexists).
  destruct (adopt_children_spec s1 P C Ti1 HcP) as (s2 & C2 & E2 & R2 & Ti2 & Hc2 & Hsub). step_with E2. destruct (relinked_good s1 s2 L I1 T1 R2) as [I2 T2].
  assert (Lk2 : ∀ q, look s2 q = if decide (q = cur) then Some (Zombie, None) else look s q) by (intros q; rewrite (qsame_look s1 s2 q (rl_queues _ _ R2)); apply Lk1).
  assert (Ec2 : g_current_proc s2 = cur) by (by rewrite (qs_cur _ _ (rl_queues _ _ R2))).
  assert (Hlive : queue_live (QChild cur) s2 = true) by (cbn; apply bool_decide_eq_true; by apply (ti_dom _ _ _ Ti2)).
  destruct (wait_queue_wake_all_spec (QChild cur) s2 L I2 Hlive) as (s3 & L3 & E3 & I3 & W3 & S3 & El3 & _). step_with E3.
  assert (G3 : good d s3 L3 P C2).
  { destruct (gd_wait _ _ _ _ _ G) as [Z1 Z2]. assert (Hback : ∀ p q, look s3 p = Some (Waiting, q) → look s p = Some (Waiting, q) ∧ p ≠ cur ∧ (p ∉ L (KWait (QChild cur)))).
    { intros p q E. rewrite (wk_look _ _ _ W3), Lk2 in E. destruct (decide (p ∈ L (KWait (QChild cur)))); [done|]. by destruct (decide (p = cur)). }
    split; [done|by apply (timed_same s2)|by apply (tinv_rest s2), W3|split| |].
    - intros p c E. destruct (Hback _ _ E) as (E' & Hp & Hn). destruct (Z1 p c E') as (Hc & v & Hv & Hz). split; [by apply Hsub|]. rewrite (wk_look _ _ _ W3), Lk2.
      destruct (decide (c ∈ L (KWait (QChild cur)))); [by exists (Ready, None)|]. destruct (decide (c = cur)) as [->|]; [|by exists v]. exfalso. apply Hn. apply (waits_queued s); [apply G|done].
    - intros p r E. apply (Z2 p). by apply Hback.
    - destruct (gd_idle _ _ _ _ _ G) as (v & Hv & Ha). rewrite (wk_look _ _ _ W3), Lk2. destruct (decide (d ∈ L (KWait (QChild cur)))); [exists (Ready, None); split; [done|by left]|]. rewrite decide_False by done. by exists v.
    - rewrite (wk_cur _ _ _ W3), Ec2. apply (rest_live s2); [apply W3|]. by apply (ti_dom _ _ _ Ti2). }
  destruct (tell_parent_spec d status s3 L3 P C2 G3) as (s4 & L4 & W4 & E4 & G4 & Wk4). step_with E4. destruct (schedule_good d s4 L4 P C2 G4) as (s5 & L5 & E5 & G5 & R5 & W5 & _). exists s5, L5, C2. split; [done|].
  split; [done|]. split; [done|]. assert (Lz : look s4 cur = Some (Zombie, None)).
  { rewrite (wk_look _ _ _ Wk4), decide_False.
    - rewrite (wk_look _ _ _ W3), decide_False; [rewrite Lk2; by rewrite decide_True|]. intros Hin. pose proof (qi_mem _ _ _ I2 _ _ Hin) as E. rewrite Lk2, decide_True in E by done. done.
    - intros Hin. destruct (wk_asleep _ _ _ Wk4 cur Hin) as (v & Ev & Hv). rewrite (wk_look _ _ _ W3), Lk2 in Ev. rewrite (decide_True (P := cur = cur)) in Ev by done.
      destruct (decide (cur ∈ L (KWait (QChild cur)))) as [Hin'|]; [pose proof (qi_mem _ _ _ I2 _ _ Hin') as E; rewrite Lk2, decide_True in E by done; done|]. injection Ev as <-. by destruct Hv. }
  pose proof (rest_trans _ _ _ (wk_rest _ _ _ W3) (rest_trans _ _ _ (wk_rest _ _ _ Wk4) (sw_rest _ _ W5))) as R25.
  assert (Hsp : ∀ q, space <$> procs s5 !! q = space <$> procs s !! q).
  { intros q. rewrite (rest_space s2 s5 q R25). assert (E12 : space <$> procs s2 !! q = space <$> procs s1 !! q) by (pose proof (rl_core _ _ R2 q) as E; destruct (procs s2 !! q), (procs s1 !! q); try done; cbn in E |- *; unfold core in E; congruence).
    rewrite E12. unfold s1. cbn. destruct (decide (q = cur)) as [->|]; [by rewrite lookup_insert_eq, Hx|by rewrite lookup_insert_ne]. }
  split; [|split; [|split; [done|split; [|split]]]].
  - destruct (sw_look _ _ W5 cur) as [E|(v & v' & Ev & Hz & _)]; [by rewrite E|]. rewrite Lz in Ev. by injection Ev as <-.
  - intros p Hp. assert (Hin : p ∈ L (KWait (QChild cur))) by (apply (waits_queued s); [apply G|done]).
    assert (E3' : look s3 p = Some (Ready, None)) by (rewrite (wk_look _ _ _ W3); by rewrite decide_True). eapply switched_active; [|exact E3'|by left]. eapply switched_trans; [by eapply woken_switched|done].
  - rewrite (rs_released _ _ (sw_rest _ _ W5)), (rs_released _ _ (wk_rest _ _ _ Wk4)), (rs_released _ _ (wk_rest _ _ _ W3)). apply (rl_released _ _ R2).
  - assert (E25 : exit_status <$> procs s5 !! cur = exit_status <$> procs s2 !! cur) by (apply (rest_field exit_status); [intros u v E; unfold rest in E; congruence|]; apply R25).
    rewrite E25. pose proof (rl_core _ _ R2 cur) as E. unfold s1 in E. cbn in E. rewrite lookup_insert_eq in E. destruct (procs s2 !! cur); [|done]. cbn in E |- *. unfold core in E. cbn in E. congruence.
  - apply (evolves_block _ s s2); [done|by exists x| |done|].
    + apply (switched_trans s2 s3 s5); [by eapply woken_switched|]. eapply switched_trans; [by eapply woken_switched|done].
    + rewrite (rs_next_pid _ _ R25). apply (rl_next_pid _ _ R2).
Qed.
