(* ===== verification/SchedReap.v ===== *)
(** Reaping (Sched.v): a process that has ended is taken out of every list before its memory
    is freed, and its address space is freed when no other process uses it. *)

From S2P Require Import Prelude Sched SchedInv SchedOps SchedSleep SchedRun SchedTree SchedExit.

#[local] Strategy opaque [bloop].

(** * Taking a process out of the lists *)

Definition without (t : Z) (s : Sched) : Sched := with_procs (delete t (procs s)) s.

Definition cut (p : Z) (l : list Z) (C : Z → list Z) : Z → list Z := λ q, if decide (q = p) then l else C q.

Lemma unlink_child_spec s P C p l1 t l2 :
  tinv s P C → C p = l1 ++ t :: l2 →
  ∃ s', unlink_child p (last0 l1) t s = Ok s' ∧ relinked s s' ∧ tinv s' P (cut p (l1 ++ l2) C).
Proof.
  intros T El. assert (Ht : t ∈ C p) by (rewrite El; apply elem_of_app; right; left). destruct (ti_parent _ _ _ T p t Ht) as (xp & xt & Hxp & Hxt & _). assert (HpP : p ∈ P) by (apply (ti_dom _ _ _ T); by exists xp).
  pose proof (ti_cdup _ _ _ T p) as Hnd. pose proof (ti_kids _ _ _ T p HpP) as Hc. rewrite El in Hnd, Hc. pose proof Hnd as (Hn1 & Hdis & Hn2)%NoDup_app. unfold unlink_child. step_with (fetch_Ok _ _ _ Hxt). assert (Est : sibling_next xt = sib s t) by (unfold sib; by rewrite Hxt). rewrite Est.
  destruct (chain_split _ _ _ _ _ Hc) as (Ht0 & Hc2 & _ & Hc3).
  assert (Hgo : ∃ s', (if last0 l1 =? 0 then update p (set_children_list (sib s t)) s else update (last0 l1) (set_sibling_next (sib s t)) s) = Ok s' ∧ relinked s s' ∧ (∀ q, parent_pid <$> procs s' !! q = parent_pid <$> procs s !! q) ∧
     (∀ q, kids s' q = if decide (q = p ∧ l1 = []) then sib s t else kids s q) ∧ (∀ q, sib s' q = if decide (l1 ≠ [] ∧ q = last0 l1) then sib s t else sib s q)).
  { destruct (Z.eqb_spec (last0 l1) 0) as [E0|Hn0].
    - assert (l1 = []) as ->. { destruct (decide (l1 = [])) as [|Hn]; [done|]. pose proof (last0_elem _ Hn) as Hin. assert (Hin' : last0 l1 ∈ C p) by (rewrite El; apply elem_of_app; by left). destruct (children_live _ _ _ _ _ T Hin') as [z Hz].
        rewrite E0 in Hz. exfalso. apply (ti_zero _ _ _ T), (ti_dom _ _ _ T). by exists z. }
      rewrite (update_Ok _ _ _ _ Hxp). eexists. split; [done|]. split; [|split; [|split]].
      + split; [split|..]; try done; intros q; cbn; (destruct (decide (q = p)) as [->|]; [by rewrite lookup_insert_eq, Hxp|by rewrite lookup_insert_ne]).
      + intros q. cbn. destruct (decide (q = p)) as [->|]; [by rewrite lookup_insert_eq, Hxp|by rewrite lookup_insert_ne].
      + intros q. unfold kids. cbn. destruct (decide (q = p)) as [->|]; [rewrite lookup_insert_eq; by rewrite decide_True|]. rewrite lookup_insert_ne by done. by rewrite decide_False by tauto.
      + intros q. rewrite decide_False by tauto. unfold sib. cbn. destruct (decide (q = p)) as [->|]; [by rewrite lookup_insert_eq, Hxp|by rewrite lookup_insert_ne].
    - assert (Hl : l1 ≠ []) by (intros ->; done). pose proof (last0_elem _ Hl) as Hin. assert (Hin' : last0 l1 ∈ C p) by (rewrite El; apply elem_of_app; by left). destruct (children_live _ _ _ _ _ T Hin') as [z Hz].
      rewrite (update_Ok _ _ _ _ Hz). eexists. split; [done|]. split; [|split; [|split]].
      + split; [split|..]; try done; intros q; cbn; (destruct (decide (q = last0 l1)) as [->|]; [by rewrite lookup_insert_eq, Hz|by rewrite lookup_insert_ne]).
      + intros q. cbn. destruct (decide (q = last0 l1)) as [->|]; [by rewrite lookup_insert_eq, Hz|by rewrite lookup_insert_ne].
      + intros q. rewrite decide_False by tauto. unfold kids. cbn. destruct (decide (q = last0 l1)) as [->|]; [by rewrite lookup_insert_eq, Hz|by rewrite lookup_insert_ne].
      + intros q. unfold sib. cbn. destruct (decide (q = last0 l1)) as [->|]; [rewrite lookup_insert_eq; by rewrite decide_True|]. rewrite lookup_insert_ne by done. by rewrite decide_False by tauto. }
  destruct Hgo as (s' & E & R & Hpar & Hk & Hs). exists s'. split; [done|]. split; [done|]. apply (tinv_relinked s s' P C); [done|done|..].
  - intros q Hq. unfold cut. rewrite Hk. destruct (decide (q = p)) as [->|Hqp].
    + replace (if decide (p = p ∧ l1 = []) then sib s t else kids s p) with (if decide (l1 = []) then sib s t else kids s p) by (destruct (decide (l1 = [])); [by rewrite decide_True|by rewrite decide_False by tauto]).
      apply (chain_remove (sib s)); [done|done| | |].
      * intros r Hr Hne. rewrite Hs, decide_False; [done|]. by intros [_ ?].
      * intros Hn. rewrite Hs. by rewrite decide_True.
      * intros r Hr. rewrite Hs, decide_False; [done|]. intros [Hn ->]. apply (Hdis (last0 l1)); [by apply last0_elem|by right].
    + rewrite decide_False by tauto. apply (chain_ext (sib s)); [|by apply (ti_kids _ _ _ T)]. intros r Hr. rewrite Hs, decide_False; [done|]. intros [Hn ->]. apply Hqp, (tinv_uniq s P C q p (last0 l1)); [done|done|].
      rewrite El. apply elem_of_app. left. by apply last0_elem.
  - intros q. unfold cut. destruct (decide (q = p)); [|apply T]. apply NoDup_app. apply NoDup_cons in Hn2 as [_ Hn2]. split; [done|]. split; [|done]. intros r Hr Hr2. apply (Hdis r Hr). by right.
  - intros q c. unfold cut. intros Hcc. assert (Hcq : c ∈ C q). { destruct (decide (q = p)) as [->|]; [|done]. rewrite El. apply elem_of_app in Hcc as [?|?]; apply elem_of_app; [by left|right; by right]. }
    destruct (ti_parent _ _ _ T q c Hcq) as (u & v & Hu & Hv & Ep). pose proof (rl_core _ _ R q) as E1. pose proof (Hpar c) as E2. rewrite Hu in E1. rewrite Hv in E2. destruct (procs s' !! q) as [u'|]; [|done]. destruct (procs s' !! c) as [v'|]; [|done].
    exists u', v'. split; [done|]. split; [done|]. cbn in E1, E2. unfold core in E1. congruence.
Qed.

(** The predecessor in the ring. *)
Definition pred (l1 P : list Z) : Z := if decide (l1 = []) then last0 P else last0 l1.

Lemma unlink_process_spec s P C l1 t l2 :
  tinv s P C → P = l1 ++ t :: l2 → l1 ++ l2 ≠ [] → (∀ p, t ∉ C p) →
  ∃ s', unlink_process (pred l1 P) t s = Ok s' ∧ qsame s s' ∧ (∀ q, space <$> procs s' !! q = space <$> procs s !! q) ∧ released s' = released s ∧ g_next_pid s' = g_next_pid s ∧ tinv (without t s') (l1 ++ l2) (cut t [] C).
Proof.
  intros T EP Hne HtC. pose proof (ti_dup _ _ _ T) as Hnd. pose proof (ti_ring _ _ _ T) as Hr. rewrite EP in Hnd. pose proof Hnd as (Hn1 & Hdis & Hn2)%NoDup_app. apply NoDup_cons in Hn2 as [Ht2 Hn2].
  assert (Ht1 : t ∉ l1) by (intros Hin; apply (Hdis t Hin); left). assert (HtP : t ∈ P) by (rewrite EP; apply elem_of_app; right; left). destruct (proj1 (ti_dom _ _ _ T t) HtP) as [xt Hxt].
  assert (Elink : next xt = link s t) by (unfold link; by rewrite Hxt). set (pv := pred l1 P).
  assert (Hpv : pv ∈ l1 ++ l2 ∧ pv ≠ t ∧ pv = last0 (if decide (l1 = []) then l2 else l1)).
  { unfold pv, pred. rewrite EP. destruct (decide (l1 = [])) as [->|Hn]; cbn [app] in *.
    - rewrite last0_cons by done. pose proof (last0_elem _ Hne) as Hin. split; [done|]. split; [|done]. intros E. by rewrite E in Hin.
    - pose proof (last0_elem _ Hn) as Hin. split; [apply elem_of_app; by left|]. split; [|done]. intros E. by rewrite E in Hin. }
  destruct Hpv as (HpvI & Hpvt & Epv). assert (HpvP : pv ∈ P) by (rewrite EP; apply elem_of_app in HpvI as [?|?]; apply elem_of_app; [by left|right; by right]). destruct (proj1 (ti_dom _ _ _ T pv) HpvP) as [xv Hxv].
  unfold unlink_process. step_with (fetch_Ok _ _ _ Hxt). rewrite (update_Ok _ _ _ _ Hxv). cbn [mbind res_bind]. rewrite Elink. set (s1 := with_procs _ s). eexists. split; [done|]. set (s' := with_list _ _ s1).
  assert (Efield : ∀ q {A} (f : Process → A), (∀ y v, f (set_next v y) = f y) → f <$> procs s' !! q = f <$> procs s !! q).
  { intros q A f Hf. unfold s', s1. cbn. destruct (decide (q = pv)) as [->|]; [rewrite lookup_insert_eq, Hxv; cbn; by rewrite Hf|by rewrite lookup_insert_ne]. }
  split; [split; try done; intros q; by apply Efield|]. split; [intros q; by apply Efield|]. split; [done|]. split; [done|].
  set (s0 := without t s'). assert (Hlk : ∀ q, link s0 q = if decide (q = t) then 0 else if decide (q = pv) then link s t else link s q).
  { intros q. unfold link at 1, s0, without, s', s1. cbn. destruct (decide (q = t)) as [->|Hq]; [by rewrite lookup_delete_eq|]. rewrite lookup_delete_ne by done. destruct (decide (q = pv)) as [->|]; [by rewrite lookup_insert_eq|by rewrite lookup_insert_ne]. }
  assert (Hold : ∀ q z, procs s0 !! q = Some z → q ≠ t ∧ ∃ w, procs s !! q = Some w ∧ pid z = pid w ∧ parent_pid z = parent_pid w).
  { intros q z. unfold s0, without. cbn [procs with_procs]. rewrite lookup_delete_Some. intros [Hq Hz]. split; [done|]. pose proof (Efield q _ (λ y, (pid y, parent_pid y)) ltac:(done)) as E. rewrite Hz in E.
    destruct (procs s !! q) as [w|]; [|done]. exists w. split; [done|]. cbn in E. split; congruence. }
  assert (Hfwd : ∀ q w, q ≠ t → procs s !! q = Some w → ∃ z, procs s0 !! q = Some z ∧ pid z = pid w ∧ parent_pid z = parent_pid w).
  { intros q w Hq Hw. unfold s0, without. cbn [procs with_procs]. rewrite lookup_delete_ne by done. pose proof (Efield q _ (λ y, (pid y, parent_pid y)) ltac:(done)) as E. rewrite Hw in E.
    destruct (procs s' !! q) as [z|]; [|done]. exists z. split; [done|]. cbn in E. split; congruence. }
  assert (Hks : ∀ q, q ≠ t → kids s0 q = kids s q ∧ sib s0 q = sib s q).
  { intros q Hq. unfold kids, sib, s0, without. cbn [procs with_procs]. rewrite lookup_delete_ne by done. pose proof (Efield q _ (λ y, (children_list y, sibling_next y)) ltac:(done)) as E.
    destruct (procs s' !! q), (procs s !! q); try done. cbn in E. split; congruence. }
  rewrite EP in Hr. apply path_app in Hr as (m & Hr1 & Em & Hr2). subst m. rewrite (tinv_hd _ _ _ T) in Hr1, Hr2.
  split.
  - intros q. rewrite elem_of_app. split.
    + intros Hq. assert (HqP : q ∈ P) by (rewrite EP; apply elem_of_app; destruct Hq; [by left|right; by right]). assert (Hqt : q ≠ t) by (intros ->; tauto). destruct (proj1 (ti_dom _ _ _ T q) HqP) as [w Hw]. destruct (Hfwd q w Hqt Hw) as (z & Hz & _). by exists z.
    + intros [z Hz]. destruct (Hold q z Hz) as (Hq & w & Hw & _). assert (HqP : q ∈ P) by (apply (ti_dom _ _ _ T); by exists w). rewrite EP in HqP. apply elem_of_app in HqP as [?|HqP]; [by left|]. apply elem_of_cons in HqP as [?|?]; [done|by right].
  - apply NoDup_app. split; [done|]. split; [|done]. intros q Hq Hq2. apply (Hdis q Hq). by right.
  - done.
  - change (g_proc_list s0) with (if g_proc_list s =? t then link s t else g_proc_list s). rewrite (tinv_hd _ _ _ T). rewrite EP in Hr1, Hr2 |- *. destruct l1 as [|r l1].
    + cbn [app hd] in *. rewrite Z.eqb_refl. destruct l2 as [|q l2]; [done|]. pose proof (path_end (link s) (link s0) (link s t) (q :: l2) t (link s t) Hr2 Hn2) as Hpe. rewrite (decide_False (P := q :: l2 = [])) in Hpe by done.
      rewrite decide_True in Epv by done. apply Hpe.
      * intros u Hu Hul. rewrite Hlk, (decide_False (P := u = t)) by (by intros ->). rewrite decide_False; [done|]. congruence.
      * intros _. rewrite <-Epv, Hlk, (decide_False (P := pv = t)) by done. by rewrite decide_True.
    + cbn [app hd] in *. destruct (Z.eqb_spec r t) as [->|_]; [exfalso; apply Ht1; left|]. rewrite decide_False in Epv by done. change (r :: l1 ++ l2) with ((r :: l1) ++ l2). apply path_app. exists (link s t). split.
      * pose proof (path_end (link s) (link s0) r (r :: l1) t (link s t) Hr1 Hn1) as Hpe. rewrite (decide_False (P := r :: l1 = [])) in Hpe by done. apply Hpe.
        -- intros u Hu Hul. rewrite Hlk, (decide_False (P := u = t)) by (by intros ->). rewrite decide_False; [done|]. congruence.
        -- intros _. rewrite <-Epv, Hlk, (decide_False (P := pv = t)) by done. by rewrite decide_True.
      * apply (path_ext (link s)); [|done]. intros u Hu. rewrite Hlk, (decide_False (P := u = t)) by (by intros ->). rewrite decide_False; [done|]. intros ->. apply (Hdis pv); [|by right]. rewrite Epv. by apply last0_elem.
  - change (g_proc_tail s0) with (if g_proc_tail s =? t then pv else g_proc_tail s). rewrite (ti_tail _ _ _ T), EP. destruct (decide (l2 = [])) as [->|Hl2].
    + rewrite last0_snoc, Z.eqb_refl, app_nil_r. rewrite app_nil_r in Hne. by rewrite decide_False in Epv by done.
    + rewrite last0_app, last0_cons by done. destruct (Z.eqb_spec (last0 l2) t) as [E|_]; [exfalso; apply Ht2; rewrite <-E; by apply last0_elem|]. by rewrite last0_app.
  - intros Hq. apply (ti_zero _ _ _ T). rewrite EP. apply elem_of_app in Hq as [?|?]; apply elem_of_app; [by left|right; by right].
  - intros q Hq. apply (ti_range _ _ _ T). rewrite EP. apply elem_of_app in Hq as [?|?]; apply elem_of_app; [by left|right; by right].
  - intros p q x y Hx Hy E. destruct (Hold p x Hx) as (_ & x' & Hx' & Ex & _), (Hold q y Hy) as (_ & y' & Hy' & Ey & _). apply (ti_pid _ _ _ T p q x' y'); congruence.
  - intros p x Hx. destruct (Hold p x Hx) as (_ & x' & Hx' & -> & _). apply (ti_fresh _ _ _ T p x' Hx').
  - intros p Hp. assert (Hpt : p ≠ t) by (intros ->; apply elem_of_app in Hp; tauto). unfold cut. rewrite (decide_False (P := p = t)) by done. rewrite (proj1 (Hks p Hpt)). apply (chain_ext (sib s)).
    + intros q Hq. apply Hks. intros ->. by apply (HtC p).
    + apply (ti_kids _ _ _ T). rewrite EP. apply elem_of_app in Hp as [?|?]; apply elem_of_app; [by left|right; by right].
  - intros p. unfold cut. destruct (decide (p = t)); [apply NoDup_nil_2|apply T].
  - intros p c. unfold cut. destruct (decide (p = t)) as [|Hp]; [by intros ?%not_elem_of_nil|]. intros Hc. destruct (ti_parent _ _ _ T p c Hc) as (u & v & Hu & Hv & E). assert (Hct : c ≠ t) by (intros ->; by apply (HtC p)).
    destruct (Hfwd p u Hp Hu) as (u' & Hu' & E1 & _), (Hfwd c v Hct Hv) as (v' & Hv' & _ & E2). exists u', v'. split; [done|]. split; [done|]. congruence.
Qed.

(** * Freeing *)

Definition uses_space (pt : Z) (s : Sched) : Prop := ∃ q x, procs s !! q = Some x ∧ page_table x = pt.
Definition uses_areas (v : Z) (s : Sched) : Prop := ∃ q x, procs s !! q = Some x ∧ vma_list x = v.

Definition stack_frames (phys : Z) : list Released := if phys =? 0 then [] else (λ i : nat, RFrame (u64 (phys + 4096 * Z.of_nat i))) <$> seq 0 KERNEL_STACK_PAGES.

(** The walk over the other processes finds out whether they share the address space. *)
Lemma share_walk t x s P C :
  tinv (without t s) P C → t ∉ P →
  ∃ spt svma, bloop SCHED_FUEL (share_step t x s) (g_proc_list s, false, false) = Ok (spt, svma) ∧ (spt = true ↔ uses_space (page_table x) (without t s)) ∧ (svma = true ↔ uses_areas (vma_list x) (without t s)).
Proof.
  intros T Ht. set (s0 := without t s) in *. pose proof (tinv_hd _ _ _ T) as Hhd. pose proof (ti_ne _ _ _ T) as Hne.
  assert (Hlk : ∀ q, q ≠ t → procs s0 !! q = procs s !! q) by (intros q Hq; unfold s0, without; cbn; by rewrite lookup_delete_ne).
  set (sh := λ (l : list Z) (f : Process → Z) (v : Z), ∃ q y, q ∈ l ∧ procs s0 !! q = Some y ∧ f y = v).
  destruct (bloop_rule (λ n (st : Z * bool * bool), ∃ l1 l2, P = l1 ++ st.1.1 :: l2 ∧ (st.1.2 = true ↔ sh l1 page_table (page_table x)) ∧ (st.2 = true ↔ sh l1 vma_list (vma_list x)) ∧ n = Z.of_nat (length l2))
     (λ r : bool * bool, (r.1 = true ↔ uses_space (page_table x) s0) ∧ (r.2 = true ↔ uses_areas (vma_list x) s0)) (share_step t x s))
     with SCHED_FUEL (Z.of_nat (length P) - 1) (g_proc_list s, false, false) as ([spt svma] & E & Hp).
  - intros n st (l1 & l2 & _ & _ & _ & ->). lia.
  - intros n [[p b1] b2] (l1 & l2 & EP & H1 & H2 & ->). cbn [fst snd] in *. destruct (ring_next s0 P C l1 p l2 T EP) as (Hpath & Hend & [y Hy]).
    assert (Hpt : p ≠ t) by (intros ->; apply Ht; rewrite EP; apply elem_of_app; right; left). pose proof Hy as Hy'. rewrite (Hlk p Hpt) in Hy'. unfold share_step. rewrite (fetch_Ok _ _ _ Hy'). cbn [mbind res_bind].
    destruct (Z.eqb_spec p t) as [|_]; [done|]. assert (El : link s0 p = next y) by (unfold link; by rewrite Hy).
    assert (Hsh : ∀ f v b, (b = true ↔ sh l1 f v) → ((b || (f y =? v)) = true ↔ sh (l1 ++ [p]) f v)).
    { intros f v b Hb. rewrite orb_true_iff, Hb, Z.eqb_eq. split.
      - intros [(q & z & Hq & Hz & Ez)|Ey]; [exists q, z; split_and!; try done; apply elem_of_app; by left|]. exists p, y. split_and!; try done. apply elem_of_app. right. left.
      - intros (q & z & [Hq| ->%list_elem_of_singleton]%elem_of_app & Hz & Ez); [left; by exists q, z|right; congruence]. }
    pose proof (Hsh page_table _ _ H1) as H1'. pose proof (Hsh vma_list _ _ H2) as H2'. set (c1 := b1 || _) in *. set (c2 := b2 || _) in *. cbn [negb]. rewrite andb_true_r.
    assert (Hall : l2 = [] → ∀ f v, sh (l1 ++ [p]) f v ↔ ∃ q z, procs s0 !! q = Some z ∧ f z = v).
    { intros -> f v. rewrite <-EP. split; [intros (q & z & _ & Hz); by exists q, z|]. intros (q & z & Hz & Ez). exists q, z. split; [apply (ti_dom _ _ _ T); by exists z|done]. }
    destruct (c1 && c2) eqn:Eb; cbn [orb].
    + apply andb_true_iff in Eb as [Eb1 Eb2]. eexists. split; [done|]. cbn [fst snd]. split; (split; [intros _|done]); [apply H1' in Eb1 as (q & z & _ & Hz & Ez)|apply H2' in Eb2 as (q & z & _ & Hz & Ez)]; by exists q, z.
    + change (g_proc_list s) with (g_proc_list s0). destruct (Z.eqb_spec (next y) (g_proc_list s0)) as [En|Hn]; eexists; (split; [done|]).
      * rewrite El in Hend. apply Hend in En. cbn [fst snd]. rewrite H1', H2'. split; by apply Hall.
      * destruct l2 as [|q l2]; [rewrite El in Hend; tauto|]. exists (Z.of_nat (length l2)). split; [simpl; lia|]. exists (l1 ++ [p]), l2. cbn [fst snd]. destruct Hpath as [Eq _]. rewrite <-El, Eq, <-(assoc_L (++)). done.
  - destruct P as [|p P']; [done|]. exists [], P'. cbn [fst snd app]. change (g_proc_list s) with (g_proc_list s0). rewrite Hhd. split; [done|]. split; [|split; [|cbn [length]; lia]]; (split; [done|]; intros (q & y & Hq & _); by apply not_elem_of_nil in Hq).
  - pose proof (tinv_length _ _ _ T). unfold SCHED_FUEL. lia.
  - exists spt, svma. done.
Qed.

Lemma process_free_reaped_spec t x s P C :
  tinv (without t s) P C → t ∉ P → procs s !! t = Some x →
  ∃ new, process_free_reaped t s = Ok (with_released (released s ++ stack_frames (stack_phys x) ++ new) (without t s)) ∧
  (∀ r, r ∈ new ↔ r = RSpace (page_table x) ∧ page_table x ≠ 0 ∧ ¬ uses_space (page_table x) (without t s) ∨ r = RAreas (vma_list x) ∧ vma_list x ≠ 0 ∧ ¬ uses_areas (vma_list x) (without t s)).
Proof.
  intros T Ht Hx. unfold process_free_reaped. step_with (fetch_Ok _ _ _ Hx). set (s1 := if stack_phys x =? 0 then s else _). assert (E1 : s1 = with_released (released s ++ stack_frames (stack_phys x)) s).
  { unfold s1, stack_frames. destruct (stack_phys x =? 0); [rewrite app_nil_r; by destruct s|done]. }
  rewrite E1. assert (Hg : g_proc_list s ≠ 0). { pose proof (tinv_list _ _ _ T) as Hin. pose proof (ti_range _ _ _ T _ Hin) as Hr. cbn in Hr. lia. }
  destruct (share_walk t x (with_released (released s ++ stack_frames (stack_phys x)) s) P C) as (spt & svma & E & H1 & H2); [|done|].
  { by apply (tinv_tsame (without t s)). }
  cbn [g_proc_list with_released] in E |- *. destruct (Z.eqb_spec (g_proc_list s) 0) as [|_]; [done|]. step_with E.
  exists ((if negb (page_table x =? 0) && negb spt then [RSpace (page_table x)] else []) ++ (if negb (vma_list x =? 0) && negb svma then [RAreas (vma_list x)] else [])). split.
  - f_equal. unfold release, without. destruct (negb (page_table x =? 0) && negb spt), (negb (vma_list x =? 0) && negb svma); destruct s; cbn; rewrite ?app_nil_r, <-?(assoc_L (++)); done.
  - intros r. change (uses_space (page_table x) (without t (with_released (released s ++ stack_frames (stack_phys x)) s))) with (uses_space (page_table x) (without t s)) in H1.
    change (uses_areas (vma_list x) (without t (with_released (released s ++ stack_frames (stack_phys x)) s))) with (uses_areas (vma_list x) (without t s)) in H2. rewrite elem_of_app.
    assert (Hone : ∀ (v : Z) b (A : Prop) R, (b = true ↔ A) → (r ∈ (if negb (v =? 0) && negb b then [R] else []) ↔ r = R ∧ v ≠ 0 ∧ ¬ A)).
    { intros v b A R Hb. destruct (Z.eqb_spec v 0) as [->|Hv]; cbn [negb andb]; [split; [by intros ?%not_elem_of_nil|tauto]|]. destruct b; cbn [negb]; [split; [by intros ?%not_elem_of_nil|tauto]|].
      rewrite list_elem_of_singleton. split; [intros ->; split; [done|]; split; [done|]; intros HA%Hb; done|tauto]. }
    by rewrite (Hone _ _ _ _ H1), (Hone _ _ _ _ H2).
Qed.

(** * The queues without the process *)

Lemma qinv_delete t s L :
  qinv 0 s L → (∀ k, t ∉ L k) → t ≠ g_current_proc s → L (KWait (QChild t)) = [] → L (KWait (QEvent t)) = [] → qinv 0 (without t s) L.
Proof.
  intros I Ht Hcur Hc He. destruct I as [I1 I2 I3 I4 I5 I6 I7 I8 I9 I10].
  assert (Hlk : ∀ q, q ≠ t → procs (without t s) !! q = procs s !! q) by (intros q Hq; unfold without; cbn; by rewrite lookup_delete_ne). split; try done.
  - intros k. apply (chain_ext (nx s)); [|apply I2]. intros q Hq. unfold nx. rewrite Hlk; [done|]. intros ->. by apply (Ht k).
  - intros k p Hp. unfold look. rewrite Hlk; [by apply I6|]. intros ->. by apply (Ht k).
  - intros p v Hp Hv. assert (Hpt : p ≠ t). { intros ->. unfold look, without in Hv. cbn in Hv. by rewrite lookup_delete_eq in Hv. } unfold look in Hv. rewrite Hlk in Hv by done. by apply (I8 p v Hp).
  - intros p x Hx. assert (Hpt : p ≠ t). { intros ->. unfold without in Hx. cbn in Hx. by rewrite lookup_delete_eq in Hx. } rewrite Hlk in Hx by done. by apply (I9 p).
  - intros q p Hp. specialize (I10 q p Hp). destruct q as [c|c| |a]; cbn in *; try done; apply bool_decide_eq_true in I10; apply bool_decide_eq_true; rewrite lookup_delete_ne; try done; intros <-; [rewrite Hc in Hp|rewrite He in Hp]; by apply not_elem_of_nil in Hp.
Qed.

(** A process that has ended can go. *)
Lemma good_delete d t s s' L P C P' C' :
  good d s L P C → look s t = Some (Zombie, None) → t ≠ g_current_proc s → qsame s s' → tinv (without t s') P' C' → (∀ p c, p ≠ t → c ≠ t → c ∈ C p → c ∈ C' p) → good d (without t s') L P' C'.
Proof.
  intros G Hz Hcur Q T' HC. pose proof (gd_queues _ _ _ _ _ G) as I. destruct (gd_wait _ _ _ _ _ G) as [Z1 Z2]. pose proof (qinv_qsame _ _ _ _ I Q) as I'.
  assert (Hlk : ∀ q, look (without t s') q = if decide (q = t) then None else look s q).
  { intros q. rewrite <-(qsame_look s s' q Q). unfold look, without. cbn. destruct (decide (q = t)) as [->|]; [by rewrite lookup_delete_eq|by rewrite lookup_delete_ne]. }
  assert (Hempty : ∀ q, q = QChild t ∨ q = QEvent t → L (KWait q) = []).
  { intros q Hq. destruct (L (KWait q)) as [|p l] eqn:El; [done|]. assert (Hin : p ∈ L (KWait q)) by (rewrite El; left). pose proof (qi_mem _ _ _ I _ _ Hin) as Hm. cbn [kview] in Hm. destruct Hq as [->| ->].
    - destruct (Z1 p t Hm) as (_ & v & Hv & Hn). rewrite Hz in Hv. by injection Hv as <-.
    - pose proof (Z2 p t Hm) as <-. congruence. }
  split.
  - apply qinv_delete; [done| |by rewrite (qs_cur _ _ Q)|apply Hempty; by left|apply Hempty; by right]. apply (qinv_off s L t _ I Hz). by intros [].
  - intros q x. unfold without. cbn. rewrite lookup_delete_Some. intros [_ Hx]. pose proof (timed_qsame s s' (gd_timed _ _ _ _ _ G) Q) as T. by apply (T q).
  - done.
  - split.
    + intros p c. rewrite Hlk. destruct (decide (p = t)) as [|Hp]; [done|]. intros E. destruct (Z1 p c E) as (Hc & v & Hv & Hn). assert (Hct : c ≠ t) by (intros ->; rewrite Hz in Hv; by injection Hv as <-).
      split; [by apply HC|]. exists v. rewrite Hlk. by rewrite decide_False.
    + intros p r. rewrite Hlk. destruct (decide (p = t)) as [|Hp]; [done|]. apply Z2.
  - destruct (gd_idle _ _ _ _ _ G) as (v & Hv & Ha). exists v. rewrite Hlk, decide_False; [done|]. intros ->. rewrite Hz in Hv. injection Hv as <-. by destruct Ha.
  - change (g_current_proc (without t s')) with (g_current_proc s'). rewrite (qs_cur _ _ Q). unfold without. cbn. rewrite lookup_delete_ne by done. apply (qsame_live s s' _ Q), (gd_cur _ _ _ _ _ G).
Qed.

Lemma good_released d r s L P C : good d s L P C → good d (with_released r s) L P C.
Proof.
  intros [G1 G2 G3 G4 G5 G6]. split; try done; [by apply (qinv_qsame 0 s)|by apply (tinv_tsame s)|]. destruct G4 as [Z1 Z2]. split; done.
Qed.

(** What reaping [t] does: it is gone, the others are as before, and exactly the address
    spaces that nobody uses any more are freed. *)
Record reaped (t : Z) (x : Process) (s s' : Sched) : Prop := {
  rp_look q : look s' q = if decide (q = t) then None else look s q;
  rp_space q : space <$> procs s' !! q = if decide (q = t) then None else space <$> procs s !! q;
  rp_cur : g_current_proc s' = g_current_proc s;
  rp_next : g_next_pid s' = g_next_pid s;
  rp_released : ∃ new, released s' = released s ++ stack_frames (stack_phys x) ++ new ∧
    ∀ r, r ∈ new ↔ (∃ pt, r = RSpace pt ∧ pt ≠ 0 ∧ uses_space pt s ∧ ¬ uses_space pt s') ∨ (∃ v, r = RAreas v ∧ v ≠ 0 ∧ uses_areas v s ∧ ¬ uses_areas v s')
}.

Lemma uses_but {A} (f : Process → A) t x (s s' : Sched) v :
  procs s !! t = Some x → (∀ q, f <$> procs s' !! q = if decide (q = t) then None else f <$> procs s !! q) →
  ((∃ q y, procs s !! q = Some y ∧ f y = v) ∧ ¬ (∃ q y, procs s' !! q = Some y ∧ f y = v)) ↔ v = f x ∧ ¬ (∃ q y, procs s' !! q = Some y ∧ f y = v).
Proof.
  intros Hx E. split.
  - intros [(q & y & Hy & Ey) Hn]. split; [|done]. destruct (decide (q = t)) as [->|Hq]; [congruence|]. exfalso. apply Hn. specialize (E q). rewrite (decide_False (P := q = t)), Hy in E by done.
    destruct (procs s' !! q) as [z|] eqn:Hz; [|done]. exists q, z. split; [done|]. cbn in E. congruence.
  - intros [-> Hn]. split; [by exists t, x|done].
Qed.

(** The process is out of the lists; its memory is freed. *)
Lemma reap_spec d t x s s1 L P C P' C' :
  good d s L P C → procs s !! t = Some x → look s t = Some (Zombie, None) → t ≠ g_current_proc s →
  qsame s s1 → (∀ q, space <$> procs s1 !! q = space <$> procs s !! q) → released s1 = released s → g_next_pid s1 = g_next_pid s → tinv (without t s1) P' C' → (∀ p c, p ≠ t → c ≠ t → c ∈ C p → c ∈ C' p) →
  ∃ s', process_free_reaped t s1 = Ok s' ∧ good d s' L P' C' ∧ reaped t x s s'.
Proof.
  intros G Hx Hz Hcur Q Hsp Hrel Hnp T' HC. assert (Ht : t ∉ P') by (rewrite (ti_dom _ _ _ T'); unfold without; cbn; rewrite lookup_delete_eq; by intros []).
  destruct (proj1 (qsame_live s s1 t Q)) as [x1 Hx1]; [by exists x|]. pose proof (Hsp t) as Esp. rewrite Hx, Hx1 in Esp. cbn in Esp. injection Esp as Ept Ev Est _.
  destruct (process_free_reaped_spec t x1 s1 P' C' T' Ht Hx1) as (new & E & Hnew). rewrite Hrel, Est in E. rewrite Ept, Ev in Hnew. eexists. split; [done|]. split; [by apply good_released, (good_delete d t s s1 L P C)|].
  assert (Es' : ∀ q, space <$> procs (without t s1) !! q = if decide (q = t) then None else space <$> procs s !! q).
  { intros q. unfold without. cbn. destruct (decide (q = t)) as [->|]; [by rewrite lookup_delete_eq|]. rewrite lookup_delete_ne by done. apply Hsp. }
  split; [|done|by rewrite <-(qs_cur _ _ Q)|done|].
  - intros q. rewrite <-(qsame_look s s1 q Q). unfold look, without. cbn. destruct (decide (q = t)) as [->|]; [by rewrite lookup_delete_eq|by rewrite lookup_delete_ne].
  - exists new. split; [done|]. intros r. rewrite Hnew.
    assert (Ef : ∀ {A} (f : Process → A) (g : Z * Z * Z * Z → A), (∀ y, f y = g (space y)) → ∀ q, f <$> procs (without t s1) !! q = if decide (q = t) then None else f <$> procs s !! q).
    { intros A f g Hfg q. specialize (Es' q). destruct (decide (q = t)); [by destruct (procs (without t s1) !! q)|]. destruct (procs (without t s1) !! q), (procs s !! q); try done. cbn in Es' |- *. rewrite !Hfg. congruence. }
    pose proof (λ v, uses_but page_table t x s (without t s1) v Hx (Ef _ page_table (λ p, p.1.1.1) ltac:(done))) as U1. pose proof (λ v, uses_but vma_list t x s (without t s1) v Hx (Ef _ vma_list (λ p, p.1.1.2) ltac:(done))) as U2. split.
    + intros [(-> & H0 & Hn)|(-> & H0 & Hn)]; [left; exists (page_table x)|right; exists (vma_list x)]; (split; [done|]; split; [done|]); [by apply U1|by apply U2].
    + intros [(pt & -> & H0 & H1 & H2)|(v & -> & H0 & H1 & H2)]; [left|right]; [destruct (proj1 (U1 pt)) as [-> _]; done|destruct (proj1 (U2 v)) as [-> _]; done].
Qed.

(** ** The predecessor of a process *)

Lemma prev_walk s P C l1 t l2 :
  tinv s P C → P = l1 ++ t :: l2 → ∃ y, bloop SCHED_FUEL (prev_step t s) (g_proc_list s) = Ok (pred l1 P) ∧ procs s !! pred l1 P = Some y ∧ next y = t.
Proof.
  intros T EP. pose proof (tinv_hd _ _ _ T) as Hhd. pose proof (ti_dup _ _ _ T) as Hnd. pose proof (ti_ne _ _ _ T) as Hne.
  assert (Hpred : ∃ la pv lb, P = la ++ pv :: lb ∧ pv = pred l1 P ∧ link s pv = t ∧ (∀ q, q ∈ la → link s q ≠ t)).
  { unfold pred. assert (Hafter : ∀ la pv lb, P = la ++ pv :: lb → link s pv = hd (hd 0 P) lb).
    { intros la pv lb Ea. destruct (ring_next s P C la pv lb T Ea) as (Hp & Hi & _). destruct lb as [|q lb]; [cbn; rewrite <-Hhd; by apply Hi|]. by destruct Hp as [-> _]. }
    assert (Hinj : ∀ la pv lb q, P = la ++ pv :: lb → q ∈ la → link s q ≠ link s pv).
    { intros la pv lb q Ea Hq E. apply list_elem_of_split in Hq as (l3 & l4 & ->). assert (Eb : P = l3 ++ q :: (l4 ++ pv :: lb)) by (by rewrite Ea, <-(assoc_L (++))). rewrite (Hafter _ _ _ Ea), (Hafter _ _ _ Eb) in E.
      assert (Ec : P = (l3 ++ [q]) ++ (l4 ++ [pv]) ++ lb) by (by rewrite Eb, <-!(assoc_L (++))). assert (Hu : hd (hd 0 P) (l4 ++ pv :: lb) ∈ l4 ++ [pv]) by (destruct l4; cbn; left).
      rewrite Ec in Hnd. apply NoDup_app in Hnd as (_ & Hd1 & Hnd). apply NoDup_app in Hnd as (_ & Hd2 & _). rewrite E in Hu. destruct lb as [|w lb]; cbn [hd] in Hu.
      - apply (Hd1 (hd 0 P)); [rewrite Ec; destruct l3; cbn; left|apply elem_of_app; by left].
      - apply (Hd2 w); [done|left]. }
    destruct (decide (l1 = [])) as [->|Hn].
    - destruct (exists_last Hne) as (la & pv & Ela). exists la, pv, []. split; [done|]. split; [by rewrite Ela, last0_snoc|]. assert (El : link s pv = t) by (rewrite (Hafter la pv [] Ela); cbn; by rewrite EP). split; [done|].
      intros q Hq. rewrite <-El. by apply (Hinj la pv []).
    - destruct (exists_last Hn) as (la & pv & Ela). assert (EP2 : P = la ++ pv :: t :: l2) by (by rewrite EP, Ela, <-(assoc_L (++))). exists la, pv, (t :: l2). split; [done|]. split; [by rewrite Ela, last0_snoc|].
      assert (El : link s pv = t) by (by rewrite (Hafter _ _ _ EP2)). split; [done|]. intros q Hq. rewrite <-El. by apply (Hinj la pv (t :: l2)). }
  destruct Hpred as (la & pv & lb & Ea & <- & Elink & Hnot).
  destruct (bloop_rule (λ n (p : Z), ∃ k1 k2, la ++ [pv] = k1 ++ p :: k2 ∧ n = Z.of_nat (length k2)) (λ r : Z, r = pv) (prev_step t s)) with SCHED_FUEL (Z.of_nat (length la)) (g_proc_list s) as (r & E & ->).
  - intros n p (k1 & k2 & _ & ->). lia.
  - intros n p (k1 & k2 & Ek & ->). assert (EP2 : P = k1 ++ p :: k2 ++ lb).
    { change (k1 ++ p :: k2 ++ lb) with (k1 ++ (p :: k2) ++ lb). rewrite (assoc_L (++)), <-Ek, <-(assoc_L (++)). done. }
    destruct (ring_next s P C k1 p (k2 ++ lb) T EP2) as (Hpath & Hend & [y Hy]). unfold prev_step. rewrite (fetch_Ok _ _ _ Hy). cbn [mbind res_bind]. assert (El : link s p = next y) by (unfold link; by rewrite Hy). rewrite <-El.
    destruct k2 as [|q k2].
    + apply app_inj_tail in Ek as [-> ->]. rewrite Elink, Z.eqb_refl. cbn [orb]. eexists. split; [done|]. done.
    + assert (Hp : p ∈ la). { destruct (exists_last (l := q :: k2)) as (k3 & w & Ek3); [done|]. rewrite Ek3 in Ek. change (p :: k3 ++ [w]) with ((p :: k3) ++ [w]) in Ek. rewrite (assoc_L (++)) in Ek. apply app_inj_tail in Ek as [-> _]. apply elem_of_app. right. left. }
      destruct (Z.eqb_spec (link s p) t) as [En|_]; [by apply Hnot in Hp|]. destruct (Z.eqb_spec (link s p) (g_proc_list s)) as [En|_]; [by apply Hend in En|]. cbn [orb]. eexists. split; [done|].
      exists (Z.of_nat (length k2)). split; [simpl; lia|]. exists (k1 ++ [p]), k2. destruct Hpath as [-> _]. by rewrite <-(assoc_L (++)).
  - rewrite Hhd, Ea. destruct la as [|w la]; cbn [app hd]; [exists [], []; split; [done|cbn; lia]|]. exists [], (la ++ [pv]). split; [done|]. rewrite length_app. cbn. lia.
  - pose proof (tinv_length _ _ _ T) as Hlen. rewrite Ea, length_app in Hlen. unfold SCHED_FUEL. lia.
  - assert (Hin : pv ∈ P) by (rewrite Ea; apply elem_of_app; right; left). destruct (proj1 (ti_dom _ _ _ T pv) Hin) as [y Hy]. exists y. split; [done|]. split; [done|]. unfold link in Elink. by rewrite Hy in Elink.
Qed.

(** * Waiting for children *)

Lemma zombie_look s L t x : qinv 0 s L → procs s !! t = Some x → state x = Zombie → look s t = Some (Zombie, None).
Proof.
  intros I Hx Hz. assert (Hv : look s t = Some (Zombie, waiting_queue x)) by (unfold look, vis; rewrite Hx; cbn; by rewrite Hz). destruct (qi_proc _ _ _ I _ _ Hx) as [Ht0 _].
  destruct (qi_where _ _ _ I t _ ltac:(lia) Hv) as [[k Hk]|[[E _]|[E|E]]]; [|congruence..]. pose proof (qi_mem _ _ _ I _ _ Hk) as E. rewrite Hv in E. by destruct k.
Qed.

Lemma waitpid_reap_spec d s L P C l1 t l2 x :
  good d s L P C → look s (g_current_proc s) = Some (Running, None) → C (g_current_proc s) = l1 ++ t :: l2 → procs s !! t = Some x → state x = Zombie →
  ∃ s' P' C', waitpid_reap (last0 l1) t s = Ok (Some (pid x, Some (exit_status x)), s') ∧ good d s' L P' C' ∧ reaped t x s s'.
Proof.
  intros G Hr El Hx Hz. set (cur := g_current_proc s) in *. pose proof (gd_tree _ _ _ _ _ G) as T. pose proof (zombie_look s L t x (gd_queues _ _ _ _ _ G) Hx Hz) as Hv.
  assert (Htc : t ≠ cur) by (intros ->; congruence). unfold waitpid_reap. step_with (fetch_Ok _ _ _ Hx). fold cur. destruct (unlink_child_spec s P C cur l1 t l2 T El) as (s1 & E1 & R1 & T1). step_with E1.
  assert (HtP : t ∈ P) by (apply (ti_dom _ _ _ T); by exists x). assert (HcP : cur ∈ P) by (apply (ti_dom _ _ _ T), (gd_cur _ _ _ _ _ G)). apply list_elem_of_split in HtP as (k1 & k2 & EP).
  destruct (prev_walk s1 P _ k1 t k2 T1 EP) as (y & E2 & Hy & Hny). step_with E2. step_with (fetch_Ok _ _ _ Hy). rewrite Hny, Z.eqb_refl.
  assert (Hne : k1 ++ k2 ≠ []). { intros [-> ->]%app_eq_nil. rewrite EP in HcP. apply list_elem_of_singleton in HcP. done. }
  assert (HtC : ∀ p, t ∉ cut cur (l1 ++ l2) C p).
  { intros p. pose proof (ti_cdup _ _ _ T cur) as Hnd. rewrite El in Hnd. apply NoDup_app in Hnd as (_ & Hd & Hnd). apply NoDup_cons in Hnd as [Hn2 _]. unfold cut. destruct (decide (p = cur)) as [->|Hp].
    - intros [Hin|?]%elem_of_app; [apply (Hd t Hin); left|done].
    - intros Hin. apply Hp, (tinv_uniq s P C p cur t T Hin). rewrite El. apply elem_of_app. right. left. }
  destruct (unlink_process_spec s1 P _ k1 t k2 T1 EP Hne HtC) as (s2 & E3 & Q2 & Sp2 & Rl2 & Np2 & T2). step_with E3.
  destruct (reap_spec d t x s s2 L P C (k1 ++ k2) (cut t [] (cut cur (l1 ++ l2) C)) G Hx Hv Htc) as (s3 & E4 & G3 & R3).
  - eapply qsame_trans; [apply R1|done].
  - intros q. rewrite Sp2. pose proof (rl_core _ _ R1 q) as E. destruct (procs s1 !! q), (procs s !! q); try done. cbn in E |- *. unfold core in E. congruence.
  - by rewrite Rl2, (rl_released _ _ R1).
  - by rewrite Np2, (rl_next_pid _ _ R1).
  - done.
  - intros p c Hp Hc Hin. unfold cut. rewrite decide_False by done. destruct (decide (p = cur)) as [->|]; [|done]. rewrite El in Hin. apply elem_of_app in Hin as [?|Hin]; apply elem_of_app; [by left|]. apply elem_of_cons in Hin as [?|?]; [done|by right].
  - step_with E4. eexists s3, _, _. split; [done|]. split; done.
Qed.

(** The caller blocks until a child ends, or until the child [n] ends. *)
Lemma waitpid_block_spec d n s L P C :
  good d s L P C → look s (g_current_proc s) = Some (Running, None) → g_current_proc s ≠ d → (n ≠ -1 → ∀ c x, c ∈ C (g_current_proc s) → procs s !! c = Some x → pid x = u64 n → state x ≠ Zombie) →
  ∃ r s' L', waitpid_block n s = Ok (r, s') ∧ good d s' L' P C ∧ look s' (g_current_proc s') = Some (Running, None) ∧ rest_same s s' ∧ ((r = Some (-1, None) ∧ s' = s) ∨ r = None ∧ ∃ v, v.1 = Waiting ∧ (v.2 = None ∨ ∃ c, v.2 = Some (QChild c)) ∧ evolves (Some v) s s').
Proof.
  intros G Hr Hd Hnz. set (cur := g_current_proc s) in *. destruct (gd_cur _ _ _ _ _ G) as [x Hx]. fold cur in Hx. pose proof (gd_queues _ _ _ _ _ G) as I. pose proof (gd_tree _ _ _ _ _ G) as T.
  assert (HcP : cur ∈ P) by (apply (ti_dom _ _ _ T); by exists x). pose proof Hr as Hv. unfold look in Hv. rewrite Hx in Hv. injection Hv as Est Ewq. assert (Hoff : ∀ k, cur ∉ L k) by (apply (qinv_off s L cur _ I Hr); by intros []).
  unfold waitpid_block. fold cur. destruct (Z.eqb_spec n (-1)) as [->|Hn1].
  - step_with (update_Ok cur (λ x, set_wait_for_pid 0 (set_state Waiting x)) s x Hx). set (s1 := with_procs _ s). assert (Hlk : ∀ q, look s1 q = if decide (q = cur) then Some (Waiting, None) else look s q).
    { intros q. unfold s1. rewrite look_insert. unfold vis. cbn. by rewrite Ewq. }
    assert (G1 : good d s1 L P C).
    { apply (good_blocked d s s1 L L P C (Waiting, None) G Hd); try done; [..|by apply (rest_insert cur x)].
      - apply (qinv_unmark cur); [apply (qinv_field cur s L cur x); [by apply qinv_mark|done|done|by right|apply (qi_proc _ _ _ I _ _ Hx)]|]. intros v. rewrite Hlk, decide_True by done. intros [= <-]. right. by right.
      - intros q y. unfold s1. cbn. destruct (decide (q = cur)) as [->|]; [rewrite lookup_insert_eq; intros [= <-]; apply (gd_timed _ _ _ _ _ G cur x Hx)|rewrite lookup_insert_ne by done; apply G]. }
    destruct (schedule_good d s1 L P C G1) as (s2 & L2 & E2 & G2 & R2 & W2 & _). step_with E2. eexists None, s2, L2. split; [done|]. split; [done|]. split; [done|]. assert (R1 : rest_same s s1) by (by apply (rest_insert cur x)). split; [eapply rest_trans; [done|apply W2]|]. right. split; [done|]. exists (Waiting, None).
    split; [done|]. split; [by left|]. apply (evolves_blocked _ s s1); [done|by exists x|done|done].
  - step_with (fetch_Ok _ _ _ Hx). assert (Ek : children_list x = kids s cur) by (unfold kids; by rewrite Hx). rewrite Ek.
    destruct (child_find_spec (λ _ y, pid y =? u64 n) s (kids s cur) (C cur)) as [[E _]|(l1 & c & l2 & y & E & El & Hy & Hp & _)]; [by apply (ti_kids _ _ _ T)|apply T|by eapply children_length|intros q Hq; by eapply children_live| |]; step_with E.
    { exists (Some (-1, None)), s, L. split; [done|]. split; [done|]. split; [done|]. split; [done|]. by left. }
    apply Z.eqb_eq in Hp. assert (Hc : c ∈ C cur) by (rewrite El; apply elem_of_app; right; left). assert (Hlive : queue_live (QChild c) s = true) by (cbn; apply bool_decide_eq_true; by exists y).
    destruct (wait_queue_push_spec (QChild c) cur s L x (qinv_mark cur s L I Hoff) Hx Hlive) as (s1 & E1 & I1 & R1 & Ec1 & Hlk & S1). step_with E1.
    assert (G1 : good d s1 (ins (KWait (QChild c)) (L (KWait (QChild c)) ++ [cur]) L) P C).
    { apply (good_blocked d s s1 L _ P C (Waiting, Some (QChild c)) G Hd); try done; [|apply (timed_same s); [done|apply G]]. intros c' [= <-]. split; [done|]. exists (vis y). split; [unfold look; by rewrite Hy|]. cbn. by apply (Hnz Hn1 c y). }
    destruct (schedule_good d s1 _ P C G1) as (s2 & L2 & E2 & G2 & R2 & W2 & _). step_with E2. eexists None, s2, L2. split; [done|]. split; [done|]. split; [done|]. split; [eapply rest_trans; [done|apply W2]|]. right. split; [done|]. exists (Waiting, Some (QChild c)). split; [done|]. split; [right; by exists c|].
    apply (evolves_blocked _ s s1); [done|by exists x|done|done].
Qed.

(** One pass of [process_waitpid]. *)
Lemma process_waitpid_spec d n nohang s L P C :
  good d s L P C → look s (g_current_proc s) = Some (Running, None) → g_current_proc s ≠ d →
  ∃ r s' L' P' C', process_waitpid n nohang s = Ok (r, s') ∧ good d s' L' P' C' ∧ look s' (g_current_proc s') = Some (Running, None) ∧
  ((∃ t x, t ∈ C (g_current_proc s) ∧ procs s !! t = Some x ∧ state x = Zombie ∧ (n = -1 ∨ u64 n = pid x) ∧ r = Some (pid x, Some (exit_status x)) ∧ reaped t x s s') ∨
   (∀ t x, t ∈ C (g_current_proc s) → procs s !! t = Some x → state x = Zombie → n ≠ -1 ∧ u64 n ≠ pid x) ∧ rest_same s s' ∧
   (r = Some (0, None) ∧ s' = s ∧ nohang = true ∨ r = Some (-1, None) ∧ s' = s ∨ r = None ∧ nohang = false ∧ ∃ v, v.1 = Waiting ∧ (v.2 = None ∨ ∃ c, v.2 = Some (QChild c)) ∧ evolves (Some v) s s')).
Proof.
  intros G Hr Hd. set (cur := g_current_proc s) in *. destruct (gd_cur _ _ _ _ _ G) as [x Hx]. fold cur in Hx. pose proof (gd_tree _ _ _ _ _ G) as T. assert (HcP : cur ∈ P) by (apply (ti_dom _ _ _ T); by exists x).
  unfold process_waitpid. fold cur. step_with (fetch_Ok _ _ _ Hx). assert (Ek : children_list x = kids s cur) by (unfold kids; by rewrite Hx). rewrite Ek.
  assert (Hfind : ∀ f, _) by (intros f; apply (child_find_spec f s (kids s cur) (C cur)); [by apply (ti_kids _ _ _ T)|apply T|by eapply children_length|intros q Hq; by eapply children_live]).
  destruct (Hfind (λ _ y, bool_decide (state y = Zombie) && ((n =? -1) || (u64 n =? pid y)))) as [[E Hno]|(l1 & t & l2 & y & E & El & Hy & Hf & _)]; step_with E.
  - assert (Hnone : ∀ t y, t ∈ C cur → procs s !! t = Some y → state y = Zombie → n ≠ -1 ∧ u64 n ≠ pid y).
    { intros t y Ht Hy Hz. specialize (Hno t y Ht Hy). rewrite bool_decide_eq_true_2 in Hno by done. cbn [andb] in Hno. apply orb_false_iff in Hno as [H1%Z.eqb_neq H2%Z.eqb_neq]. done. }
    destruct nohang.
    + unfold waitpid_nohang. fold cur. step_with (fetch_Ok _ _ _ Hx). rewrite Ek. destruct (kids s cur =? 0); [eexists _, s, L, P, C; split; [done|]; split; [done|]; split; [done|]; right; split; [done|]; split; [done|]; right; by left|].
      destruct (n =? -1); [eexists _, s, L, P, C; split; [done|]; split; [done|]; split; [done|]; right; split; [done|]; split; [done|]; by left|].
      destruct (Hfind (λ _ y, pid y =? u64 n)) as [[E2 _]|(m1 & c & m2 & z & E2 & _)]; step_with E2; eexists _, s, L, P, C; (split; [done|]; split; [done|]; split; [done|]; right; split; [done|]; split; [done|]); [right; by left|by left].
    + destruct (waitpid_block_spec d n s L P C G Hr Hd) as (r & s' & L' & E2 & G2 & R2 & Rs & Hcase).
      { intros Hn1 c z Hc Hz Hp Hzz. destruct (Hnone c z Hc Hz Hzz) as [_ H2]. congruence. }
      exists r, s', L', P, C. split; [done|]. split; [done|]. split; [done|]. right. split; [done|]. split; [done|]. destruct Hcase as [[-> ->]|[-> Hev]]; [right; by left|right; by right].
  - apply andb_true_iff in Hf as [Hz%bool_decide_eq_true Hn]. destruct (waitpid_reap_spec d s L P C l1 t l2 y G Hr El Hy Hz) as (s' & P' & C' & E2 & G2 & R2).
    exists (Some (pid y, Some (exit_status y))), s', L, P', C'. split; [done|]. split; [done|]. split.
    + rewrite (rp_cur _ _ _ _ R2), (rp_look _ _ _ _ R2). fold cur. rewrite decide_False; [done|]. intros Ec. assert (Hlz := zombie_look s L t y (gd_queues _ _ _ _ _ G) Hy Hz). rewrite <-Ec, Hr in Hlz. done.
    + left. exists t, y. split; [rewrite El; apply elem_of_app; right; left|]. split_and!; try done. apply orb_true_iff in Hn as [?%Z.eqb_eq|?%Z.eqb_eq]; [by left|by right].
Qed.

(** * Zombies of the kernel *)

Definition kernel_zombie (s : Sched) (t : Z) (x : Process) : Prop := procs s !! t = Some x ∧ t ≠ g_current_proc s ∧ pid x ≠ 0 ∧ parent_pid x = 0 ∧ state x = Zombie.

Lemma zombie_walk s P C :
  tinv s P C →
  (bloop SCHED_FUEL (zombie_step s) (g_proc_tail s, g_proc_list s) = Ok None ∧ ∀ t x, ¬ kernel_zombie s t x) ∨
  ∃ l1 t l2 x, bloop SCHED_FUEL (zombie_step s) (g_proc_tail s, g_proc_list s) = Ok (Some (pred l1 P, t)) ∧ P = l1 ++ t :: l2 ∧ kernel_zombie s t x.
Proof.
  intros T. pose proof (tinv_hd _ _ _ T) as Hhd. pose proof (ti_ne _ _ _ T) as Hne.
  destruct (bloop_rule (λ n (st : Z * Z), ∃ l1 l2, P = l1 ++ st.2 :: l2 ∧ st.1 = pred l1 P ∧ (∀ t x, t ∈ l1 → ¬ kernel_zombie s t x) ∧ n = Z.of_nat (length l2))
     (λ r : option (Z * Z), (r = None ∧ ∀ t x, ¬ kernel_zombie s t x) ∨ ∃ l1 t l2 x, r = Some (pred l1 P, t) ∧ P = l1 ++ t :: l2 ∧ kernel_zombie s t x) (zombie_step s))
     with SCHED_FUEL (Z.of_nat (length P) - 1) (g_proc_tail s, g_proc_list s) as (r & E & Hp).
  - intros n st (l1 & l2 & _ & _ & _ & ->). lia.
  - intros n [prev p] (l1 & l2 & EP & Epv & Hno & ->). cbn [fst snd] in *. subst prev. destruct (ring_next s P C l1 p l2 T EP) as (Hpath & Hend & [x Hx]). unfold zombie_step. rewrite (fetch_Ok _ _ _ Hx). cbn [mbind res_bind].
    assert (El : link s p = next x) by (unfold link; by rewrite Hx). case_match eqn:Ez.
    + apply andb_true_iff in Ez as [[[E1%negb_true_iff%Z.eqb_neq E2%negb_true_iff%Z.eqb_neq]%andb_true_iff E3%Z.eqb_eq]%andb_true_iff E4%bool_decide_eq_true]. eexists. split; [done|]. right. exists l1, p, l2, x. split_and!; done.
    + assert (Hno' : ∀ t y, t ∈ l1 ++ [p] → ¬ kernel_zombie s t y).
      { intros t y [Ht| ->%list_elem_of_singleton]%elem_of_app; [by apply Hno|]. intros (Hy & H1 & H2 & H3 & H4). assert (y = x) as -> by congruence.
        apply Z.eqb_neq in H1, H2. rewrite H1, H2, H3, (bool_decide_eq_true_2 _ H4) in Ez. done. }
      destruct (Z.eqb_spec (next x) (g_proc_list s)) as [En|Hn]; eexists; (split; [done|]).
      * left. split; [done|]. rewrite El in Hend. apply Hend in En. subst l2. intros t y Hk. apply (Hno' t y); [|done]. rewrite <-EP. apply (ti_dom _ _ _ T). destruct Hk as [Hy _]. by exists y.
      * destruct l2 as [|q l2]; [rewrite El in Hend; tauto|]. exists (Z.of_nat (length l2)). split; [simpl; lia|]. exists (l1 ++ [p]), l2. cbn [fst snd]. destruct Hpath as [Eq _]. rewrite <-El, Eq, <-(assoc_L (++)). split; [done|]. split; [|done].
        unfold pred. rewrite decide_False by (by destruct l1). by rewrite last0_snoc.
  - destruct P as [|p P']; [done|]. exists [], P'. cbn [fst snd app]. rewrite Hhd. split; [done|]. split; [unfold pred; rewrite decide_True by done; apply (ti_tail _ _ _ T)|]. split; [intros t x Ht; by apply not_elem_of_nil in Ht|cbn [length]; lia].
  - pose proof (tinv_length _ _ _ T). unfold SCHED_FUEL. lia.
  - rewrite E. destruct Hp as [[-> Hp]|(l1 & t & l2 & x & -> & Hp)]; [by left|right]. by exists l1, t, l2, x.
Qed.

(** The zombie is unlinked from its parent, the kernel, if it is linked there. *)
Lemma detach_child s P C t x :
  tinv s P C → procs s !! t = Some x → parent_pid x = 0 →
  ∃ s1 C1, (kernel ← list_find (λ _ x, pid x =? 0) s;
            match kernel with
            | None => Ok s
            | Some k =>
                kx ← fetch k s;
                c ← child_find (λ p _, p =? t) (children_list kx) s;
                match c with Some (prev_child, _) => unlink_child k prev_child t s | None => Ok s end
            end) = Ok s1 ∧ relinked s s1 ∧ tinv s1 P C1 ∧ (∀ p, t ∉ C1 p) ∧ (∀ p c, c ≠ t → c ∈ C p → c ∈ C1 p).
Proof.
  intros T Hx Hpar. assert (Hpar' : ∀ p, t ∈ C p → ∃ y, procs s !! p = Some y ∧ pid y = 0) by (intros p Hp; destruct (ti_parent _ _ _ T p t Hp) as (u & v & Hu & Hv & E); exists u; split; congruence).
  destruct (list_find_spec (λ _ x, pid x =? 0) s P C T) as [[E Hno]|(l1 & k & l2 & kx & E & EP & Hk & Hpk & _)]; step_with E.
  - exists s, C. split_and!; try done. intros p Hp. destruct (Hpar' p Hp) as (y & Hy & E0). specialize (Hno p y Hy). cbn in Hno. by apply Z.eqb_neq in Hno.
  - apply Z.eqb_eq in Hpk. assert (HkP : k ∈ P) by (apply (ti_dom _ _ _ T); by exists kx). step_with (fetch_Ok _ _ _ Hk). assert (Ek : children_list kx = kids s k) by (unfold kids; by rewrite Hk). rewrite Ek.
    assert (Honly : ∀ p, t ∈ C p → p = k) by (intros p Hp; destruct (Hpar' p Hp) as (y & Hy & E0); apply (ti_pid _ _ _ T p k y kx); congruence).
    destruct (child_find_spec (λ p _, p =? t) s (kids s k) (C k)) as [[E2 Hno]|(m1 & c & m2 & y & E2 & El & Hy & Hc & _)]; [by apply (ti_kids _ _ _ T)|apply T|by eapply children_length|intros q Hq; by eapply children_live| |]; step_with E2.
    + exists s, C. split_and!; try done. intros p Hp. pose proof (Honly p Hp) as ->. specialize (Hno t x Hp Hx). cbn in Hno. by apply Z.eqb_neq in Hno.
    + apply Z.eqb_eq in Hc. subst c. destruct (unlink_child_spec s P C k m1 t m2 T El) as (s1 & E3 & R1 & T1). exists s1, (cut k (m1 ++ m2) C). split; [done|]. split; [done|]. split; [done|]. unfold cut. split.
      * intros p. pose proof (ti_cdup _ _ _ T k) as Hnd. rewrite El in Hnd. apply NoDup_app in Hnd as (_ & Hd & Hnd). apply NoDup_cons in Hnd as [Hn2 _]. destruct (decide (p = k)) as [->|Hp]; [|intros Hin; by apply Hp, Honly].
        intros [Hin|?]%elem_of_app; [apply (Hd t Hin); left|done].
      * intros p c Hct Hc. destruct (decide (p = k)) as [->|]; [|done]. rewrite El in Hc. apply elem_of_app in Hc as [?|Hc]; apply elem_of_app; [by left|]. apply elem_of_cons in Hc as [?|?]; [done|by right].
Qed.

Lemma detach_spec d s L P C :
  good d s L P C → (∃ p, p ∈ P ∧ p = g_current_proc s) →
  (detach_kernel_zombie_locked s = Ok (None, s) ∧ ∀ t x, ¬ kernel_zombie s t x) ∨
  ∃ t x s1 P' C', detach_kernel_zombie_locked s = Ok (Some t, s1) ∧ kernel_zombie s t x ∧ qsame s s1 ∧ (∀ q, space <$> procs s1 !! q = space <$> procs s !! q) ∧ released s1 = released s ∧ g_next_pid s1 = g_next_pid s ∧
    tinv (without t s1) P' C' ∧ (∀ p c, p ≠ t → c ≠ t → c ∈ C p → c ∈ C' p) ∧ (length P' < length P)%nat.
Proof.
  intros G (cur & HcP & Ecur). pose proof (gd_tree _ _ _ _ _ G) as T. pose proof (tinv_list _ _ _ T) as Hin. pose proof (ti_range _ _ _ T _ Hin) as Hr. unfold detach_kernel_zombie_locked.
  destruct (Z.eqb_spec (g_proc_list s) 0) as [|_]; [lia|]. destruct (zombie_walk s P C T) as [[E Hno]|(l1 & t & l2 & x & E & EP & Hk)]; step_with E; [by left|right].
  destruct Hk as (Hx & Htc & Hp0 & Hpar & Hz). destruct (detach_child s P C t x T Hx Hpar) as (s1 & C1 & E1 & R1 & T1 & HtC & Hsub).
  revert E1. destruct (list_find (λ _ x, pid x =? 0) s) as [kernel| |]; [|done..]. cbn [mbind res_bind]. intros E1. rewrite (bind_Ok _ _ _ E1); cbv beta.
  destruct (proj1 (qsame_live s s1 t (rl_queues _ _ R1))) as [x1 Hx1]; [by exists x|]. step_with (fetch_Ok _ _ _ Hx1).
  assert (Hne : l1 ++ l2 ≠ []). { intros [-> ->]%app_eq_nil. rewrite EP in HcP. apply list_elem_of_singleton in HcP. congruence. }
  destruct (Z.eqb_spec (next x1) t) as [Et|_].
  { exfalso. destruct (ring_next s1 P C1 l1 t l2 T1 EP) as (Hpath & Hend & _). assert (El : link s1 t = t) by (unfold link; by rewrite Hx1). rewrite El in Hpath, Hend. pose proof (ti_dup _ _ _ T1) as Hnd. rewrite EP in Hnd. apply NoDup_app in Hnd as (_ & Hd & Hnd). apply NoDup_cons in Hnd as [Hn2 _].
    destruct l2 as [|q l2]; [|destruct Hpath as [-> _]; apply Hn2; left]. pose proof (proj2 Hend eq_refl) as Eh. rewrite (tinv_hd _ _ _ T1), EP in Eh. destruct l1 as [|r l1]; [done|]. cbn in Eh. subst r. apply (Hd t); left. }
  destruct (unlink_process_spec s1 P C1 l1 t l2 T1 EP Hne HtC) as (s2 & E2 & Q2 & Sp2 & Rl2 & Np2 & T2). step_with E2. destruct (proj1 (qsame_live s1 s2 t Q2)) as [x2 Hx2]; [by exists x1|].
  step_with (update_Ok t (λ x, set_sibling_next 0 (set_next 0 x)) s2 x2 Hx2). set (s3 := with_procs _ s2). eexists t, x, s3, (l1 ++ l2), (cut t [] C1). split; [done|]. split; [by split_and!|].
  assert (Ef : ∀ q {A} (f : Process → A), f (set_sibling_next 0 (set_next 0 x2)) = f x2 → f <$> procs s3 !! q = f <$> procs s2 !! q).
  { intros q A f Hf. unfold s3. cbn. destruct (decide (q = t)) as [->|]; [rewrite lookup_insert_eq, Hx2; cbn; by rewrite Hf|by rewrite lookup_insert_ne]. }
  split; [eapply qsame_trans; [apply R1|eapply qsame_trans; [done|]]; split; try done; intros q; by apply Ef|]. split.
  { intros q. rewrite (Ef q _ space) by done. rewrite Sp2. pose proof (rl_core _ _ R1 q) as Eq. destruct (procs s1 !! q), (procs s !! q); try done. cbn in Eq |- *. unfold core in Eq. congruence. }
  split; [change (released s3) with (released s2); by rewrite Rl2, (rl_released _ _ R1)|]. split; [change (g_next_pid s3) with (g_next_pid s2); by rewrite Np2, (rl_next_pid _ _ R1)|]. split.
  { assert (Ed : without t s3 = without t s2) by (unfold without, s3; cbn; by rewrite delete_insert_eq). by rewrite Ed. }
  split; [|rewrite EP, !length_app; cbn [length]; lia]. intros p c Hp Hc Hcc. unfold cut. rewrite decide_False by done. by apply Hsub.
Qed.
