(* ===== verification/SchedSafe.v ===== *)
(** The scheduler as a whole (Sched.v): every sequence of operations keeps the queues, the
    list of processes and the lists of children intact and never touches a freed process. *)

From S2P Require Import Prelude Sched SchedInv SchedOps SchedSleep SchedRun SchedTree SchedExit SchedReap.

#[local] Strategy opaque [bloop].

(** [d] is the idle process. *)
Definition safe (d : Z) (s : Sched) : Prop := ∃ L P C, good d s L P C ∧ look s (g_current_proc s) = Some (Running, None).

(** * Reaping the zombies of the kernel *)

#[export] Instance uses_dec {A} `{EqDecision A} (f : Process → A) (s : Sched) (v : A) : Decision (∃ q x, procs s !! q = Some x ∧ f x = v).
Proof.
  destruct (decide (Exists (λ p : Z * Process, f p.2 = v) (map_to_list (procs s)))) as [H|H]; [left|right].
  - apply Exists_exists in H as ([q x] & Hin%elem_of_map_to_list & E). by exists q, x.
  - intros (q & x & Hx & E). apply H, Exists_exists. exists (q, x). split; [by apply elem_of_map_to_list|done].
Defined.

(** Exactly the address spaces and areas that are no longer used have been freed. *)
Record accounts (s s' : Sched) : Prop := {
  ac_space pt : uses_space pt s' → uses_space pt s;
  ac_areas v : uses_areas v s' → uses_areas v s;
  ac_new : ∃ new, released s' = released s ++ new ∧ (∀ pt, RSpace pt ∈ new ↔ pt ≠ 0 ∧ uses_space pt s ∧ ¬ uses_space pt s') ∧ (∀ v, RAreas v ∈ new ↔ v ≠ 0 ∧ uses_areas v s ∧ ¬ uses_areas v s')
}.

Lemma space_uses s s' : (∀ q, space <$> procs s' !! q = space <$> procs s !! q) → (∀ pt, uses_space pt s' ↔ uses_space pt s) ∧ (∀ v, uses_areas v s' ↔ uses_areas v s).
Proof.
  intros E. split; intros v; (split; intros (q & x & Hx & <-); specialize (E q); rewrite Hx in E; [destruct (procs s !! q) as [y|] eqn:Hy|destruct (procs s' !! q) as [y|] eqn:Hy]; try done; exists q, y; (split; [done|]); cbn in E; unfold space in E; congruence).
Qed.

Lemma accounts_same s s' : (∀ q, space <$> procs s' !! q = space <$> procs s !! q) → released s' = released s → accounts s s'.
Proof.
  intros E Er. destruct (space_uses s s' E) as [U1 U2]. split; [intros pt; apply U1|intros v; apply U2|]. exists []. split; [by rewrite app_nil_r|]. split; intros v; rewrite ?U1, ?U2; (split; [by intros ?%not_elem_of_nil|tauto]).
Qed.

Lemma accounts_rest s s' : rest_same s s' → accounts s s'.
Proof. intros R. apply accounts_same; [|apply R]. intros q. apply (rest_field space); [intros x y E; unfold rest in E; unfold space; congruence|apply R]. Qed.

Lemma accounts_trans s1 s2 s3 : accounts s1 s2 → accounts s2 s3 → accounts s1 s3.
Proof.
  intros [A1 A2 (n1 & En1 & A3 & A4)] [B1 B2 (n2 & En2 & B3 & B4)]. split; [intros pt H; by apply A1, B1|intros v H; by apply A2, B2|]. exists (n1 ++ n2). split; [by rewrite En2, En1, (assoc_L (++))|]. split.
  - intros pt. rewrite elem_of_app, A3, B3. destruct (uses_dec page_table s2 pt) as [H|H]; fold (uses_space pt s2) in H; specialize (A1 pt); specialize (B1 pt); tauto.
  - intros v. rewrite elem_of_app, A4, B4. destruct (uses_dec vma_list s2 v) as [H|H]; fold (uses_areas v s2) in H; specialize (A2 v); specialize (B2 v); tauto.
Qed.

Lemma accounts_reaped t x s s' : reaped t x s s' → accounts s s'.
Proof.
  intros [R1 R2 R3 _ (new & En & Hn)].
  assert (Hback : ∀ q y, procs s' !! q = Some y → ∃ z, procs s !! q = Some z ∧ space y = space z).
  { intros q y Hy. specialize (R2 q). rewrite Hy in R2. destruct (decide (q = t)); [done|]. destruct (procs s !! q) as [z|]; [|done]. exists z. split; [done|]. cbn in R2. congruence. }
  split.
  - intros pt (q & y & Hy & <-). destruct (Hback q y Hy) as (z & Hz & E). exists q, z. split; [done|]. unfold space in E. congruence.
  - intros v (q & y & Hy & <-). destruct (Hback q y Hy) as (z & Hz & E). exists q, z. split; [done|]. unfold space in E. congruence.
  - exists (stack_frames (stack_phys x) ++ new). split; [done|]. assert (Hf : ∀ r, r ∈ stack_frames (stack_phys x) → ∃ a, r = RFrame a).
    { intros r. unfold stack_frames. destruct (_ =? _); [by intros ?%not_elem_of_nil|]. intros (i & -> & _)%list_elem_of_fmap. by eexists. }
    split; intros v; rewrite elem_of_app, Hn; (split; [intros [H|[H|H]]|intros (H0 & H1 & H2)]).
    + apply Hf in H as [a ?]. done.
    + destruct H as (pt & [= ->] & H). done.
    + by destruct H as (? & ? & _).
    + right. left. by exists v.
    + apply Hf in H as [a ?]. done.
    + by destruct H as (? & ? & _).
    + destruct H as (pt & [= ->] & H). done.
    + right. right. by exists v.
Qed.

(** What the removal of zombies leaves alone. *)
Record swept (s s' : Sched) : Prop := {
  sp_cur : g_current_proc s' = g_current_proc s;
  sp_look q : look s' q = look s q ∨ look s q = Some (Zombie, None) ∧ look s' q = None;
  sp_accounts : accounts s s'
}.

Lemma reap_kernel_zombies_spec d s L P C :
  good d s L P C → look s (g_current_proc s) = Some (Running, None) →
  ∃ s' P' C', reap_kernel_zombies s = Ok s' ∧ good d s' L P' C' ∧ swept s s' ∧ ∀ t x, ¬ kernel_zombie s' t x.
Proof.
  intros G Hr.
  destruct (bloop_rule (λ n (s1 : Sched), ∃ P1 C1, good d s1 L P1 C1 ∧ swept s s1 ∧ n = Z.of_nat (length P1)) (λ s' : Sched, ∃ P' C', good d s' L P' C' ∧ swept s s' ∧ ∀ t x, ¬ kernel_zombie s' t x) reap_step)
     with SCHED_FUEL (Z.of_nat (length P)) s as (s' & E & P' & C' & Hp).
  - intros n s1 (P1 & C1 & _ & _ & ->). lia.
  - intros n s1 (P1 & C1 & G1 & W1 & ->). assert (Hr1 : look s1 (g_current_proc s1) = Some (Running, None)).
    { rewrite (sp_cur _ _ W1). destruct (sp_look _ _ W1 (g_current_proc s)) as [->|[Ez _]]; [done|congruence]. }
    assert (HcP : ∃ p, p ∈ P1 ∧ p = g_current_proc s1) by (eexists; split; [apply (ti_dom _ _ _ (gd_tree _ _ _ _ _ G1)), (gd_cur _ _ _ _ _ G1)|done]).
    unfold reap_step. destruct (detach_spec d s1 L P1 C1 G1 HcP) as [[E Hno]|(t & x & s2 & P2 & C2 & E & (Hx & Htc & Hp0 & Hpar & Hz) & Q2 & Sp2 & Rl2 & Np2 & T2 & HC & Hlen)]; rewrite E; cbn [mbind res_bind].
    { eexists. split; [done|]. by exists P1, C1. }
    pose proof (zombie_look s1 L t x (gd_queues _ _ _ _ _ G1) Hx Hz) as Hv. destruct (reap_spec d t x s1 s2 L P1 C1 P2 C2 G1 Hx Hv Htc Q2 Sp2 Rl2 Np2 T2 HC) as (s3 & E3 & G3 & R3). rewrite E3. cbn [mbind res_bind]. eexists. split; [done|].
    exists (Z.of_nat (length P2)). split; [lia|]. exists P2, C2. split; [done|]. split; [|done]. split; [rewrite (rp_cur _ _ _ _ R3); apply W1| |eapply accounts_trans; [apply W1|by eapply accounts_reaped]].
    intros q. rewrite (rp_look _ _ _ _ R3). destruct (sp_look _ _ W1 q) as [E1|[E1 E2]]; destruct (decide (q = t)) as [->|]; [|by left| |].
    + right. split; [congruence|done].
    + by right.
    + by right.
  - exists P, C. split; [done|]. split; [|done]. split; [done|intros q; by left|by apply accounts_same].
  - pose proof (tinv_length _ _ _ (gd_tree _ _ _ _ _ G)). unfold SCHED_FUEL. lia.
  - exists s', P', C'. done.
Qed.

Lemma scheduler_schedule_spec d s L P C :
  good d s L P C →
  ∃ s' L' P' C', scheduler_schedule true s = Ok s' ∧ good d s' L' P' C' ∧ look s' (g_current_proc s') = Some (Running, None) ∧ accounts s s' ∧ ∀ t x, ¬ kernel_zombie s' t x.
Proof.
  intros G. destruct (gd_cur _ _ _ _ _ G) as [x Hx]. destruct (qi_proc _ _ _ (gd_queues _ _ _ _ _ G) _ _ Hx) as [Hc0 _]. unfold scheduler_schedule. destruct (Z.eqb_spec (g_current_proc s) 0) as [|_]; [lia|]. cbn [negb].
  destruct (schedule_good d s L P C G) as (s1 & L1 & E1 & G1 & R1 & W1 & _). step_with E1. destruct (reap_kernel_zombies_spec d s1 L1 P C G1 R1) as (s2 & P2 & C2 & E2 & G2 & W2 & Hno). exists s2, L1, P2, C2. split; [done|]. split; [done|]. split.
  - rewrite (sp_cur _ _ W2). destruct (sp_look _ _ W2 (g_current_proc s1)) as [->|[Ez _]]; [done|congruence].
  - split; [|done]. eapply accounts_trans; [apply accounts_rest, W1|apply W2].
Qed.

(** * Blocking *)

(** The queues a process may wait on by itself. *)
Definition may_wait (q : WaitQueueId) (s : Sched) : bool :=
  match q with QChild _ => false | QEvent p => p =? g_current_proc s | _ => true end.

Lemma running_facts d s L P C : good d s L P C → look s (g_current_proc s) = Some (Running, None) →
  ∃ x, procs s !! g_current_proc s = Some x ∧ waiting_queue x = None ∧ g_current_proc s ≠ 0 ∧ qinv (g_current_proc s) s L.
Proof.
  intros G Hr. pose proof (gd_queues _ _ _ _ _ G) as I. destruct (look_Some _ _ _ Hr) as (x & Hx & Hv). injection Hv as _ Hwq. destruct (qi_proc _ _ _ I _ _ Hx) as [Hc0 _]. exists x. split; [done|]. split; [done|]. split; [lia|].
  apply qinv_mark; [done|]. apply (qinv_off s L _ _ I Hr). by intros [].
Qed.

Lemma scheduler_wait_spec d q s L P C :
  good d s L P C → look s (g_current_proc s) = Some (Running, None) → g_current_proc s ≠ d → may_wait q s = true →
  ∃ s' L', scheduler_wait q s = Ok s' ∧ good d s' L' P C ∧ look s' (g_current_proc s') = Some (Running, None) ∧ rest_same s s' ∧ L' (KWait q) = L (KWait q) ++ [g_current_proc s].
Proof.
  intros G Hr Hd Hq. destruct (running_facts d s L P C G Hr) as (x & Hx & Hwq & Hc0 & Im). unfold scheduler_wait. destruct (Z.eqb_spec (g_current_proc s) 0) as [|_]; [done|].
  assert (Hlive : queue_live q s = true) by (destruct q as [c|p| |a]; cbn in *; try done; apply Z.eqb_eq in Hq; subst p; apply bool_decide_eq_true; by exists x).
  destruct (wait_queue_push_spec q _ s L x Im Hx Hlive) as (s1 & E1 & I1 & R1 & Ec1 & Hlk & S1). step_with E1.
  assert (G1 : good d s1 (ins (KWait q) (L (KWait q) ++ [g_current_proc s]) L) P C).
  { apply (good_blocked d s s1 L _ P C (Waiting, Some q) G Hd); try done; [| |apply (timed_same s); [done|apply G]]; intros r [= ->]; cbn in Hq; [done|by apply Z.eqb_eq in Hq]. }
  destruct (schedule_good d s1 _ P C G1) as (s2 & L2 & E2 & G2 & R2 & W2 & B2). exists s2, L2. split; [done|]. split; [done|]. split; [done|]. split; [eapply rest_trans; [done|apply W2]|]. by rewrite B2, ins_eq.
Qed.

Lemma scheduler_sleep_spec d ticks s L P C :
  good d s L P C → look s (g_current_proc s) = Some (Running, None) → g_current_proc s ≠ d → 0 <= ticks < 2 ^ 64 →
  ∃ s' L', scheduler_sleep ticks s = Ok s' ∧ good d s' L' P C ∧ look s' (g_current_proc s') = Some (Running, None) ∧ rest_same s s'.
Proof.
  intros G Hr Hd Ht. destruct (running_facts d s L P C G Hr) as (x & Hx & Hwq & Hc0 & Im). unfold scheduler_sleep. destruct (Z.eqb_spec (g_current_proc s) 0) as [|_]; [done|].
  destruct (sleep_queue_push_spec _ ticks s L x Im Hx Hwq (gd_timed _ _ _ _ _ G) Ht) as (s1 & l1 & l2 & D1 & D2 & E1 & _ & I1 & R1 & Ec1 & Hlk & T1 & _). step_with E1.
  assert (G1 : good d s1 (ins KSleep (l1 ++ g_current_proc s :: l2) L) P C) by (by apply (good_blocked d s s1 L _ P C (Sleeping, None) G Hd)).
  destruct (schedule_good d s1 _ P C G1) as (s2 & L2 & E2 & G2 & R2 & W2 & B2). exists s2, L2. split; [done|]. split; [done|]. split; [done|]. eapply rest_trans; [done|apply W2].
Qed.

Lemma sleep_ticks_range ms freq ticks : sleep_ticks ms freq = Some ticks → 0 <= ticks < 2 ^ 64.
Proof.
  unfold sleep_ticks. destruct (_ || _); [done|]. intros [= <-]. pose proof (u64_range (ms / 1000 * freq)) as H1. pose proof (u64_range (u64 (ms mod 1000 * freq) + 999)) as H2. set (a := u64 (ms / 1000 * freq)) in *. set (b := u64 (_ + 999)) in *.
  assert (0 <= b / 1000 < 2 ^ 64) by (split; [apply Z.div_pos; lia|apply Z.div_lt_upper_bound; lia]). destruct (Z.ltb_spec (2 ^ 64 - 1 - a) (b / 1000)); [done|]. destruct (Z.eqb_spec (a + b / 1000) 0); lia.
Qed.

(** * Waking *)

Lemma safe_woken d s s' L L' P C W : good d s L P C → look s (g_current_proc s) = Some (Running, None) → woken W s s' → sleep_same s s' → qinv 0 s' L' → safe d s' ∧ accounts s s'.
Proof.
  intros G Hr Wk S I. split; [exists L', P, C; split; [by eapply good_woken|]|apply accounts_rest, Wk]. rewrite (wk_cur _ _ _ Wk), (wk_look _ _ _ Wk), decide_False; [done|]. intros Hin. destruct (wk_asleep _ _ _ Wk _ Hin) as (v & Hv & Ha). rewrite Hr in Hv. injection Hv as <-. by destruct Ha.
Qed.

Lemma notify_spec d s L P C :
  good d s L P C → ∃ s' L' W, scheduler_notify_input_waiters s = Ok s' ∧ good d s' L' P C ∧ woken W s s' ∧ sleep_same s s'.
Proof.
  intros G. pose proof (gd_tree _ _ _ _ _ G) as T. pose proof (tinv_list _ _ _ T) as Hin. pose proof (ti_range _ _ _ T _ Hin) as Hr. unfold scheduler_notify_input_waiters. destruct (Z.eqb_spec (g_proc_list s) 0) as [|_]; [lia|].
  destruct (bloop_rule (λ n (st : Z * Sched), ∃ l1 l2 L1 W, P = l1 ++ st.1 :: l2 ∧ good d st.2 L1 P C ∧ woken W s st.2 ∧ sleep_same s st.2 ∧ n = Z.of_nat (length l2))
     (λ r : Sched, ∃ L1 W, good d r L1 P C ∧ woken W s r ∧ sleep_same s r) notify_step) with SCHED_FUEL (Z.of_nat (length P) - 1) (g_proc_list s, s) as (s' & E & L' & W & Hp).
  - intros n st (l1 & l2 & L1 & W & _ & _ & _ & _ & ->). lia.
  - intros n [p s1] (l1 & l2 & L1 & W & EP & G1 & W1 & S1 & ->). cbn [fst snd] in *. unfold notify_step. assert (HpP : p ∈ P) by (rewrite EP; apply elem_of_app; right; left).
    assert (Hlive : queue_live (QEvent p) s1 = true) by (cbn; apply bool_decide_eq_true; by apply (ti_dom _ _ _ (gd_tree _ _ _ _ _ G1))).
    destruct (wait_queue_wake_all_spec (QEvent p) s1 L1 (gd_queues _ _ _ _ _ G1) Hlive) as (s2 & L2 & E2 & I2 & W2 & S2 & _). rewrite E2. cbn [mbind res_bind]. pose proof (good_woken d s1 s2 L1 L2 P C _ G1 W2 S2 I2) as G2.
    destruct (ring_next s2 P C l1 p l2 (gd_tree _ _ _ _ _ G2) EP) as (Hpath & Hend & [x Hx]). rewrite (fetch_Ok _ _ _ Hx). cbn [mbind res_bind]. assert (El : link s2 p = next x) by (unfold link; by rewrite Hx). rewrite <-El.
    pose proof (woken_trans _ _ _ _ _ W1 W2) as W12. pose proof (sleep_trans _ _ _ S1 S2) as S12. destruct (Z.eqb_spec (link s2 p) (g_proc_list s2)) as [En|Hn]; eexists; (split; [done|]); [by eexists L2, _|].
    destruct l2 as [|q l2]; [tauto|]. exists (Z.of_nat (length l2)). split; [simpl; lia|]. eexists (l1 ++ [p]), l2, L2, _. cbn [fst snd]. destruct Hpath as [-> _]. split; [by rewrite <-(assoc_L (++))|]. done.
  - pose proof (tinv_hd _ _ _ T) as Hhd. pose proof (ti_ne _ _ _ T). destruct P as [|p P']; [done|]. exists [], P', L, []. cbn [fst snd app]. rewrite Hhd. split; [done|]. split; [done|]. split; [apply woken_refl|]. split; [done|cbn [length]; lia].
  - pose proof (tinv_length _ _ _ T). unfold SCHED_FUEL. lia.
  - exists s', L', W. done.
Qed.

(** * New processes *)

Definition fresh (a : Z) (s : Sched) : Prop := 0 < a < 2 ^ 64 ∧ procs s !! a = None.

Lemma good_spawn d a y s L P C x :
  good d s L P C → look s (g_current_proc s) = Some (Running, None) → fresh a s → g_next_pid s + 1 < 2 ^ 64 → procs s !! g_current_proc s = Some x →
  pid y = g_next_pid s → parent_pid y = pid x → vis y = (Ready, None) → 0 <= priority y → wake_time y = 0 →
  let s1 := with_next_pid (u64 (g_next_pid s + 1)) s in
  ∃ s', link_process a (g_current_proc s) (with_procs (<[a := y]> (procs s1)) s1) = Ok s' ∧ safe d s' ∧ released s' = released s ∧ look s' a = Some (Ready, None) ∧
  (∀ q, space <$> procs s' !! q = if decide (q = a) then Some (space y) else space <$> procs s !! q).
Proof.
  intros G Hr [Har Ha] Hn Hx Hpid Hpar Hv Hpr Hwt s1. destruct (spawn_spec a y s L P C x) as (s' & L' & E & I' & T' & Ti' & Hlk & B & Ec & Hsp & Hrel); try done; [apply G..|]. exists s'. split; [done|].
  split; [|split; [done|]; split; [|done]; rewrite Hlk; by rewrite decide_True]. assert (Hca : g_current_proc s ≠ a) by congruence. destruct (gd_wait _ _ _ _ _ G) as [Z1 Z2].
  exists L', (P ++ [a]), (with_child (g_current_proc s) a C). split; [split; [done|done|done|split| |]|].
  - intros p c. rewrite Hlk. destruct (decide (p = a)) as [|Hp]; [done|]. intros Ep. destruct (Z1 p c Ep) as (Hc & v & Hcv & Hz). split.
    + unfold with_child. rewrite decide_False by done. destruct (decide (p = g_current_proc s)) as [->|]; [by right|done].
    + exists v. rewrite Hlk, decide_False; [done|]. intros ->. unfold look in Hcv. by rewrite Ha in Hcv.
  - intros p r. rewrite Hlk. destruct (decide (p = a)) as [|Hp]; [done|]. apply Z2.
  - destruct (gd_idle _ _ _ _ _ G) as (v & Hdv & Hda). rewrite Hlk. destruct (decide (d = a)); [exists (Ready, None); split; [done|by left]|by exists v].
  - rewrite Ec. destruct (look_Some s' (g_current_proc s) (Running, None)) as (z & Hz & _); [by rewrite Hlk, decide_False|by exists z].
  - rewrite Ec, Hlk. by rewrite decide_False.
Qed.

(** A pid is consumed even when an allocation fails. *)
Lemma good_next_pid d s L P C : good d s L P C → g_next_pid s + 1 < 2 ^ 64 → good d (with_next_pid (u64 (g_next_pid s + 1)) s) L P C.
Proof.
  intros [G1 G2 G3 G4 G5 G6] Hn. split; try done; [by apply (qinv_qsame 0 s)| |destruct G4 as [Z1 Z2]; split; done]. destruct G3 as [T1 T2 T3 T4 T5 T6 T7 T8 T9 T10 T11 T12]. split; try done. intros p x Hx. cbn. specialize (T9 p x Hx). rewrite u64_small; lia.
Qed.

(** * Sequences of operations *)

(** The clock and the window system move on by themselves; the rest is done by the current
    process. The allocations of a new process are inputs. *)
Inductive Op :=
  | OTime (now : Z) | OFocus (wm focus : Z) | OYield | OWait (q : WaitQueueId) | OSleep (ms freq : Z) | OWakeAll (q : WaitQueueId) | OWakeOne (q : WaitQueueId) | OWakeProcess (p : Z)
  | OBoost (p prio : Z) | ONotify | OCreate (a stack : Z) | OFork (a pt areas stack : Z) | OThread (args_ok : bool) (a stack : Z) | OExit (status : Z) | OWaitpid (n : Z) (nohang : bool) | ODisable | OEnable.

Definition with_clock (now wm focus : Z) (s : Sched) : Sched :=
  mkSched (procs s) (g_current_proc s) (g_proc_list s) (g_proc_tail s) (g_next_pid s) (g_ready_queues s) (g_ready_tails s) (g_sleep_queue s) (g_last_sleep_tick s) (wait_queues s) now wm focus (released s).

Definition exec (o : Op) (s : Sched) : res Sched :=
  match o with
  | OTime now => Ok (with_clock now (g_wm_pid s) (g_focus_pid s) s)
  | OFocus wm focus => Ok (with_clock (g_now s) wm focus s)
  | OYield => scheduler_schedule true s
  | OWait q => scheduler_wait q s
  | OSleep ms freq => scheduler_sleep_ms ms freq s
  | OWakeAll q => scheduler_wake_all q s
  | OWakeOne q => scheduler_wake_one q s
  | OWakeProcess p => scheduler_wake_process p s
  | OBoost p prio => scheduler_boost_process_priority p prio s
  | ONotify => scheduler_notify_input_waiters s
  | OCreate a stack => '(_, s) ← scheduler_create_task a stack s; Ok s
  | OFork a pt areas stack => '(_, s) ← process_fork a pt areas stack s; Ok s
  | OThread args_ok a stack => '(_, s) ← sys_thread_create args_ok a stack s; Ok s
  | OExit status => process_exit status s
  | OWaitpid n nohang => '(_, s) ← process_waitpid n nohang s; Ok s
  | ODisable => preempt_disable s
  | OEnable => '(_, s) ← preempt_enable s; Ok s
  end.

(** What the callers see to: the idle process does not block, a pointer points to a process
    or to nothing, memory that is allocated is not in use, and pids do not run out. *)
Definition allowed (d : Z) (o : Op) (s : Sched) : Prop :=
  match o with
  | OTime _ | OFocus _ _ | OYield | ONotify | ODisable | OEnable => True
  | OWait q => g_current_proc s ≠ d ∧ may_wait q s = true
  | OSleep _ _ | OExit _ | OWaitpid _ _ => g_current_proc s ≠ d
  | OWakeAll q | OWakeOne q => queue_live q s = true
  | OWakeProcess p => p = 0 ∨ is_Some (procs s !! p)
  | OBoost p prio => is_Some (procs s !! p) ∧ 0 <= prio
  | OCreate a stack | OThread _ a stack => (a = 0 ∨ fresh a s) ∧ g_next_pid s + 1 < 2 ^ 64
  | OFork a pt areas stack => (a = 0 ∨ fresh a s) ∧ g_next_pid s + 1 < 2 ^ 64 ∧ ¬ uses_space pt s ∧ ¬ uses_areas areas s
  end.

(** Nothing that has been freed is in use. *)
Definition frees_unused (s s' : Sched) : Prop :=
  ∃ new, released s' = released s ++ new ∧ (∀ pt, RSpace pt ∈ new → ¬ uses_space pt s') ∧ (∀ v, RAreas v ∈ new → ¬ uses_areas v s').

Lemma accounts_frees s s' : accounts s s' → frees_unused s s'.
Proof. intros [_ _ (new & E & A3 & A4)]. exists new. split; [done|]. split; [intros pt Hp; by apply A3 in Hp as (_ & _ & ?)|intros v Hv; by apply A4 in Hv as (_ & _ & ?)]. Qed.

Lemma frees_same s s' : released s' = released s → frees_unused s s'.
Proof. intros E. exists []. split; [by rewrite app_nil_r|]. split; intros v Hv; by apply not_elem_of_nil in Hv. Qed.

Lemma safe_pushed d s s' L P C : good d s L P C → look s (g_current_proc s) = Some (Running, None) → pushed s s' → qinv 0 s' L → safe d s' ∧ frees_unused s s'.
Proof. intros G Hr Ps I. destruct (safe_woken d s s' L L P C [] G Hr (pushed_woken _ _ Ps) (pushed_sleep _ _ Ps) I) as [S A]. split; [done|by apply accounts_frees]. Qed.

Section ops.
Context (d : Z) (s : Sched) (L : QKey → list Z) (P : list Z) (C : Z → list Z).
Hypothesis G : good d s L P C.
Hypothesis Hr : look s (g_current_proc s) = Some (Running, None).

Lemma create_safe a stack : (a = 0 ∨ fresh a s) → g_next_pid s + 1 < 2 ^ 64 → ∃ n s', scheduler_create_task a stack s = Ok (n, s') ∧ safe d s' ∧ frees_unused s s' ∧ (n ≠ 0 → n = a ∧ look s' a = Some (Ready, None)).
Proof.
  intros Ha Hn. destruct (running_facts d s L P C G Hr) as (x & Hx & _ & Hc0 & _). unfold scheduler_create_task. destruct (Z.eqb_spec a 0) as [->|Ha0]; [exists 0, s; split; [done|]; split; [by exists L, P, C|]; split; [by apply frees_same|done]|].
  destruct Ha as [|Ha]; [done|]. set (s1 := with_next_pid _ s). change (g_current_proc s1) with (g_current_proc s). destruct (Z.eqb_spec (g_current_proc s) 0) as [|_]; [done|]. rewrite (fetch_Ok (g_current_proc s) s1 x Hx). cbn [mbind res_bind].
  destruct (stack =? 0).
  - exists 0, s1. split; [done|]. split; [exists L, P, C; split; [by apply good_next_pid|done]|]. split; [by apply frees_same|done].
  - destruct (good_spawn d a (new_process (g_next_pid s) (pid x) 1 0 0 stack (g_now s1)) s L P C x) as (s' & E & S & Rl & Hlk & Hsp); try done. exists a, s'. change (g_current_proc s1) with (g_current_proc s). fold s1 in E. change (g_current_proc (with_procs _ s1)) with (g_current_proc s).
    rewrite (bind_Ok _ _ _ E); cbv beta. split; [done|]. split; [done|]. split; [by apply frees_same|done].
Qed.

Lemma thread_safe args_ok a stack : (a = 0 ∨ fresh a s) → g_next_pid s + 1 < 2 ^ 64 → ∃ n s', sys_thread_create args_ok a stack s = Ok (n, s') ∧ safe d s' ∧ frees_unused s s'.
Proof.
  intros Ha Hn. destruct (running_facts d s L P C G Hr) as (x & Hx & _ & Hc0 & _). unfold sys_thread_create. destruct args_ok; cbn [negb]; [|exists (-22), s; split; [done|]; split; [by exists L, P, C|by apply frees_same]]. destruct (Z.eqb_spec (g_current_proc s) 0) as [|_]; [done|]. cbn [orb].
  destruct (Z.eqb_spec a 0) as [->|Ha0]; [exists (-1), s; split; [done|]; split; [by exists L, P, C|by apply frees_same]|]. destruct Ha as [|Ha]; [done|].
  set (s1 := with_next_pid _ s). change (g_current_proc s1) with (g_current_proc s). rewrite (fetch_Ok (g_current_proc s) s1 x Hx). cbn [mbind res_bind]. destruct (stack =? 0).
  - exists (-1), s1. split; [done|]. split; [exists L, P, C; split; [by apply good_next_pid|done]|by apply frees_same].
  - destruct (good_spawn d a (new_process (g_next_pid s) (pid x) (priority x) (page_table x) (vma_list x) stack (g_now s1)) s L P C x) as (s' & E & S & Rl & Hlk & Hsp); try done; [apply (qi_proc _ _ _ (gd_queues _ _ _ _ _ G) _ _ Hx)|].
    exists (g_next_pid s), s'. fold s1 in E. change (g_current_proc (with_procs _ s1)) with (g_current_proc s). rewrite (bind_Ok _ _ _ E); cbv beta. split; [done|]. split; [done|by apply frees_same].
Qed.

Lemma fork_safe a pt areas stack : (a = 0 ∨ fresh a s) → g_next_pid s + 1 < 2 ^ 64 → ¬ uses_space pt s → ¬ uses_areas areas s → ∃ n s', process_fork a pt areas stack s = Ok (n, s') ∧ safe d s' ∧ frees_unused s s'.
Proof.
  intros Ha Hn Hpt Har. destruct (running_facts d s L P C G Hr) as (x & Hx & _ & Hc0 & _). unfold process_fork. destruct (Z.eqb_spec a 0) as [->|Ha0]; [exists None, s; split; [done|]; split; [by exists L, P, C|by apply frees_same]|]. destruct Ha as [|Ha]; [done|].
  set (s1 := with_next_pid _ s). change (g_current_proc s1) with (g_current_proc s). rewrite (fetch_Ok (g_current_proc s) s1 x Hx). cbn [mbind res_bind].
  assert (S1 : ∀ r, safe d (with_released r s1)) by (intros r; exists L, P, C; split; [by apply good_released, good_next_pid|done]).
  destruct (pt =? 0); [exists None, s1; split; [done|]; split; [exists L, P, C; split; [by apply good_next_pid|done]|by apply frees_same]|].
  destruct (negb (vma_list x =? 0) && (areas =? 0)).
  { eexists None, _. split; [done|]. split; [apply S1|]. exists [RSpace pt]. split; [done|]. split; [by intros v [= ->]%list_elem_of_singleton|by intros v ?%list_elem_of_singleton]. }
  destruct (stack =? 0).
  { eexists None, _. split; [done|]. split; [apply S1|]. eexists. split; [done|]. split; intros v [Hv|Hv]%elem_of_app.
    - destruct (areas =? 0); [by apply not_elem_of_nil in Hv|by apply list_elem_of_singleton in Hv].
    - by apply list_elem_of_singleton in Hv as [= ->].
    - destruct (areas =? 0); [by apply not_elem_of_nil in Hv|by apply list_elem_of_singleton in Hv as [= ->]].
    - by apply list_elem_of_singleton in Hv. }
  destruct (good_spawn d a (new_process (g_next_pid s) (pid x) (priority x) pt areas stack (g_now s1)) s L P C x) as (s' & E & S & Rl & Hlk & Hsp); try done; [apply (qi_proc _ _ _ (gd_queues _ _ _ _ _ G) _ _ Hx)|].
  exists (Some (g_next_pid s)), s'. fold s1 in E. change (g_current_proc (with_procs _ s1)) with (g_current_proc s). rewrite (bind_Ok _ _ _ E); cbv beta. split; [done|]. split; [done|by apply frees_same].
Qed.

Lemma preempt_safe f : (∀ x, rest (f x) = rest x ∧ vis (f x) = vis x ∧ wake_time (f x) = wake_time x ∧ queue_next (f x) = queue_next x ∧ priority (f x) = priority x) →
  ∃ s', update (g_current_proc s) f s = Ok s' ∧ safe d s' ∧ frees_unused s s'.
Proof.
  intros Hf. destruct (running_facts d s L P C G Hr) as (x & Hx & _ & Hc0 & _). destruct (Hf x) as (H1 & H2 & H3 & H4 & H5). rewrite (update_Ok _ _ _ _ Hx). eexists. split; [done|]. apply (safe_pushed d s _ L P C G Hr); [by apply (pushed_insert _ x)|].
  apply (qinv_field _ _ _ _ x); [apply G|done|done|by left|]. rewrite H5. apply (qi_proc _ _ _ (gd_queues _ _ _ _ _ G) _ _ Hx).
Qed.

(** Every operation succeeds and keeps the invariant. *)
Lemma exec_safe o : allowed d o s → ∃ s', exec o s = Ok s' ∧ safe d s' ∧ frees_unused s s'.
Proof.
  intros Ha. destruct (running_facts d s L P C G Hr) as (x & Hx & _ & Hc0 & _). assert (Hsame : ∀ s', rest_same s s' → frees_unused s s') by (intros s' R; by apply frees_same, R). pose proof (gd_queues _ _ _ _ _ G) as I.
  assert (Hwk : ∀ s' L' W, woken W s s' → sleep_same s s' → qinv 0 s' L' → safe d s' ∧ frees_unused s s').
  { intros s' L' W Wk S I'. destruct (safe_woken d s s' L L' P C W G Hr Wk S I') as [? ?]. split; [done|by apply accounts_frees]. }
  assert (Hclock : ∀ now wm focus, safe d (with_clock now wm focus s) ∧ frees_unused s (with_clock now wm focus s)).
  { intros now wm focus. split; [|by apply frees_same]. exists L, P, C. split; [|done]. destruct G as [G1 G2 G3 G4 G5 G6]. split; try done; [by apply (qinv_qsame 0 s)|by apply (tinv_tsame s)|destruct G4 as [Z1 Z2]; split; done]. }
  destruct o; cbn [exec allowed] in *.
  - eexists. split; [done|apply Hclock].
  - eexists. split; [done|apply Hclock].
  - destruct (scheduler_schedule_spec d s L P C G) as (s' & L' & P' & C' & E & G' & R' & A & _). exists s'. split; [done|]. split; [by exists L', P', C'|by apply accounts_frees].
  - destruct Ha as [Hd Hq]. destruct (scheduler_wait_spec d q s L P C G Hr Hd Hq) as (s' & L' & E & G' & R' & Rs & _). exists s'. split; [done|]. split; [by exists L', P, C|by apply Hsame].
  - unfold scheduler_sleep_ms. destruct (sleep_ticks ms freq) as [ticks|] eqn:Et; [|exists s; split; [done|]; split; [by exists L, P, C|by apply frees_same]].
    destruct (scheduler_sleep_spec d ticks s L P C G Hr Ha (sleep_ticks_range _ _ _ Et)) as (s' & L' & E & G' & R' & Rs). exists s'. split; [done|]. split; [by exists L', P, C|by apply Hsame].
  - destruct (scheduler_wake_all_spec q s L I Ha) as (s' & L' & W & E & I' & Wk & _ & S & _). exists s'. split; [done|by eapply Hwk].
  - destruct (scheduler_wake_one_spec q s L I Ha) as (s' & L' & W & E & I' & Wk & S & _). exists s'. split; [done|by eapply Hwk].
  - destruct Ha as [->|[y Hy]]; [exists s; split; [done|]; split; [by exists L, P, C|by apply frees_same]|]. destruct (scheduler_wake_process_spec p s L (vis y) I) as (s' & L' & E & I' & Wk & S & _); [unfold look; by rewrite Hy|]. exists s'. split; [done|by eapply Hwk].
  - destruct Ha as [Hp Hn]. destruct (scheduler_boost_spec p prio s L I Hp Hn) as (s' & L' & E & I' & Wk & S & _). exists s'. split; [done|by eapply Hwk].
  - destruct (notify_spec d s L P C G) as (s' & L' & W & E & G' & Wk & S). exists s'. split; [done|]. eapply Hwk; [done|done|apply G'].
  - destruct Ha as [Ha Hn]. destruct (create_safe a stack Ha Hn) as (n & s' & E & S & F & _). rewrite E. by exists s'.
  - destruct Ha as (Ha & Hn & H1 & H2). destruct (fork_safe a pt areas stack Ha Hn H1 H2) as (n & s' & E & S & F). rewrite E. by exists s'.
  - destruct Ha as [Ha Hn]. destruct (thread_safe args_ok a stack Ha Hn) as (n & s' & E & S & F). rewrite E. by exists s'.
  - destruct (process_exit_spec d status s L P C G Hr Ha) as (s' & L' & C' & E & G' & R' & _ & _ & Sp & Rl & _). exists s'. split; [done|]. split; [by exists L', P, C'|by apply frees_same].
  - destruct (process_waitpid_spec d n nohang s L P C G Hr Ha) as (r & s' & L' & P' & C' & E & G' & R' & Hcase). rewrite E. exists s'. split; [done|]. split; [by exists L', P', C'|].
    destruct Hcase as [(t & y & _ & _ & _ & _ & _ & Rp)|(_ & Rs & _)]; [by eapply accounts_frees, accounts_reaped|by apply Hsame].
  - unfold preempt_disable. destruct (Z.eqb_spec (g_current_proc s) 0) as [|_]; [done|]. by apply preempt_safe.
  - unfold preempt_enable. destruct (Z.eqb_spec (g_current_proc s) 0) as [|_]; [done|]. rewrite (fetch_Ok _ _ _ Hx). cbn [mbind res_bind]. set (count := if 0 <? preempt_count x then _ else _).
    destruct (preempt_safe (λ y, set_preempt_pending (preempt_pending y && negb ((count =? 0) && preempt_pending x)) (set_preempt_count count y))) as (s' & E & S); [done|]. rewrite E. by exists s'.
Qed.
End ops.

Fixpoint run (os : list Op) (s : Sched) : res Sched := match os with [] => Ok s | o :: os' => s' ← exec o s; run os' s' end.

(** The callers behave at every step of the sequence. *)
Fixpoint run_allowed (d : Z) (os : list Op) (s : Sched) : Prop := match os with [] => True | o :: os' => allowed d o s ∧ ∀ s', exec o s = Ok s' → run_allowed d os' s' end.

Lemma run_safe d os s : safe d s → run_allowed d os s → ∃ s', run os s = Ok s' ∧ safe d s'.
Proof.
  revert s. induction os as [|o os IH]; intros s Hs Ha; [by exists s|]. destruct Ha as [Ha Hn]. destruct Hs as (L & P & C & G & Hr). destruct (exec_safe d s L P C G Hr o Ha) as (s1 & E & Hs1 & _). destruct (IH s1 Hs1 (Hn s1 E)) as (s2 & E2 & Hs2). exists s2. cbn [run]. step_with E. done.
Qed.

(** The rules can be checked on a concrete sequence. *)
#[export] Instance allowed_dec d o s : Decision (allowed d o s).
Proof. destruct o; cbn [allowed]; unfold fresh, uses_space, uses_areas; apply _. Defined.

Fixpoint run_check (d : Z) (os : list Op) (s : Sched) : bool :=
  match os with [] => true | o :: os' => bool_decide (allowed d o s) && match exec o s with Ok s' => run_check d os' s' | _ => true end end.

Lemma run_check_allowed d os s : run_check d os s = true → run_allowed d os s.
Proof.
  revert s. induction os as [|o os IH]; intros s Hc; [done|]. cbn [run_check] in Hc. apply andb_true_iff in Hc as [Ha%bool_decide_eq_true Hn]. split; [done|]. intros s' E. rewrite E in Hn. by apply IH.
Qed.
