(* ===== verification/SchedMain.v ===== *)
(** What the scheduler promises (Sched.v), from the start of the kernel on. *)

From S2P Require Import Prelude Sched SchedInv SchedOps SchedSleep SchedRun SchedTree SchedExit SchedReap SchedSafe.

#[local] Strategy opaque [bloop].

(** * The start *)

Lemma safe_idle d e s v : safe d s → look s e = Some v → active v → safe e s.
Proof. intros (L & P & C & [G1 G2 G3 G4 G5 G6] & Hr) He Ha. exists L, P, C. split; [|done]. split; try done. by exists v. Qed.

Lemma init_safe a now wm focus : 0 < a < 2 ^ 64 → ∃ s, scheduler_init a now wm focus = Ok s ∧ safe a s ∧ g_next_pid s = 1 ∧ (∀ q, q ≠ a → procs s !! q = None).
Proof.
  intros Ha. unfold scheduler_init. destruct (Z.eqb_spec a 0) as [|_]; [lia|]. set (x := set_next a _). eexists. split; [done|]. set (s := mkSched _ _ _ _ _ _ _ _ _ _ _ _ _ _).
  assert (Hx : procs s !! a = Some x) by (cbn; by rewrite lookup_singleton_eq). assert (Hn : ∀ q, q ≠ a → procs s !! q = None) by (intros q Hq; cbn; by rewrite lookup_singleton_ne).
  assert (Hlk : ∀ q, look s q = if decide (q = a) then Some (Running, None) else None) by (intros q; unfold look; destruct (decide (q = a)) as [->|Hq]; [by rewrite Hx|by rewrite Hn]).
  assert (Hone : ∀ q z, procs s !! q = Some z → q = a ∧ z = x). { intros q z Hz. destruct (decide (q = a)) as [->|Hq]; [split; congruence|rewrite Hn in Hz by done; done]. }
  split; [|done]. exists (λ _, []), [a], (λ _, []). split; [|cbn; rewrite Hlk; by rewrite decide_True]. split.
  - split; try done.
    + intros k. destruct k as [[|[|[|[|i]]]]| |q]; done.
    + intros k _. destruct k as [[|[|[|[|i]]]]| |q]; done.
    + intros k. apply NoDup_nil_2.
    + intros k k' p Hp. by apply not_elem_of_nil in Hp.
    + intros k p Hp. by apply not_elem_of_nil in Hp.
    + intros k Hp. by apply not_elem_of_nil in Hp.
    + intros p v _ Hv. right. rewrite Hlk in Hv. destruct (decide (p = a)) as [->|]; [|done]. injection Hv as <-. by left.
    + intros p z Hz. destruct (Hone p z Hz) as [-> ->]. done.
    + intros q p Hp. by apply not_elem_of_nil in Hp.
  - intros p z Hz. destruct (Hone p z Hz) as [-> ->]. cbn. lia.
  - split; try done.
    + intros q. rewrite list_elem_of_singleton. split; [intros ->; by exists x|]. intros [z Hz]. by apply (Hone q z).
    + apply NoDup_singleton.
    + cbn. split; [done|]. unfold link. by rewrite Hx.
    + intros Hq%list_elem_of_singleton. lia.
    + intros q ->%list_elem_of_singleton. done.
    + intros p q y z Hy Hz _. destruct (Hone p y Hy) as [-> _], (Hone q z Hz) as [-> _]. done.
    + intros p z Hz. destruct (Hone p z Hz) as [-> ->]. cbn. lia.
    + intros p ->%list_elem_of_singleton. unfold kids. by rewrite Hx.
    + intros p. apply NoDup_nil_2.
    + intros p c Hc. by apply not_elem_of_nil in Hc.
  - split; intros p c; rewrite Hlk; by destruct (decide (p = a)).
  - exists (Running, None). rewrite Hlk, decide_True by done. split; [done|by right].
  - by exists x.
Qed.

Lemma boot_safe a b stack now wm focus : 0 < a < 2 ^ 64 → 0 < b < 2 ^ 64 → a ≠ b → stack ≠ 0 →
  ∃ s0 s1, scheduler_init a now wm focus = Ok s0 ∧ scheduler_create_task b stack s0 = Ok (b, s1) ∧ safe b s1.
Proof.
  intros Ha Hb Hab Hst. destruct (init_safe a now wm focus Ha) as (s0 & E0 & S0 & Hp & Hn). destruct S0 as (L & P & C & G & Hr). destruct (create_safe a s0 L P C G Hr b stack) as (n & s1 & E1 & S1 & _ & Hlk); [right; split; [done|by apply Hn]|rewrite Hp; lia|].
  assert (n = b) as ->. { revert E1. unfold scheduler_create_task. destruct (Z.eqb_spec b 0) as [|_]; [lia|]. match goal with |- context [if g_current_proc ?t =? 0 then ?u else ?w] => destruct (if g_current_proc t =? 0 then u else w) as [par| |] end; [|done..]. cbn [mbind res_bind]. destruct (Z.eqb_spec stack 0) as [|_]; [done|].
    destruct (link_process b _ _) as [s2| |]; [|done..]. cbn [mbind res_bind]. by intros [= -> _]. }
  exists s0, s1. split; [done|]. split; [done|]. apply (safe_idle a b s1 (Ready, None)); [done|apply Hlk; lia|by left].
Qed.

(** * Sleeping *)

(** The queue that a tick finds: every sleeper whose tick has passed is woken, no other. *)
Lemma due_split f t l D1 D2 q u : dues f t l = D1 ++ D2 → NoDup l → (q, u) ∈ dues f t l → (q ∈ D1.*1 → (q, u) ∈ D1) ∧ ((q ∉ D1.*1) → (q, u) ∈ D2).
Proof.
  intros E Hnd Hq. split.
  - intros Hin. rewrite E in Hq. apply elem_of_app in Hq as [?|Hq]; [done|]. exfalso. pose proof (dues_fst f t l) as Hf. rewrite E, fmap_app in Hf. rewrite <-Hf in Hnd. apply NoDup_app in Hnd as (_ & Hd & _). apply (Hd q Hin), list_elem_of_fmap. by exists (q, u).
  - intros Hin. rewrite E in Hq. apply elem_of_app in Hq as [Hq|?]; [|done]. exfalso. apply Hin, list_elem_of_fmap. by exists (q, u).
Qed.

Lemma wake_sleeping_due s L :
  qinv 0 s L → timed s →
  ∃ s' L', wake_sleeping_processes s = Ok s' ∧ qinv 0 s' L' ∧ timed s' ∧ ∀ q t, (q, t) ∈ dues (wt s) (g_last_sleep_tick s) (L KSleep) →
  (t < g_now s → look s' q = Some (Ready, None)) ∧ (g_now s < t → look s' q = Some (Sleeping, None) ∧ (q, t) ∈ dues (wt s') (g_last_sleep_tick s') (L' KSleep)).
Proof.
  intros I T. destruct (wake_sleeping_spec s L I T) as (s' & L' & D1 & D2 & E & I' & W & T' & _ & ED & ED2 & H1 & H2). exists s', L'. split; [done|]. split; [done|]. split; [done|]. intros q t Hq.
  destruct (due_split _ _ _ _ _ q t ED (qi_dup _ _ _ I KSleep) Hq) as [Hin Hout]. split.
  - intros Ht. rewrite (wk_look _ _ _ W). destruct (decide (q ∈ D1.*1)) as [|Hn]; [done|]. specialize (H2 q t (Hout Hn)). lia.
  - intros Ht. assert (Hn : q ∉ D1.*1) by (intros Hd; specialize (H1 q t (Hin Hd)); lia). split; [|rewrite ED2; by apply Hout]. rewrite (wk_look _ _ _ W), decide_False by done. apply (qi_mem _ _ _ I KSleep).
    rewrite <-(dues_fst (wt s) (g_last_sleep_tick s) (L KSleep)). apply list_elem_of_fmap. by exists (q, t).
Qed.

(** The current process goes to sleep in [s] and the clock is then read as [now]. *)
Definition sleep_then (p ticks now : Z) (s : Sched) : res Sched :=
  s ← sleep_queue_push p ticks s;
  wake_sleeping_processes (with_clock now (g_wm_pid s) (g_focus_pid s) s).

Lemma sleep_then_spec p ticks now s L x :
  qinv p s L → procs s !! p = Some x → waiting_queue x = None → timed s → 0 <= ticks < 2 ^ 64 →
  let base := if decide (L KSleep = []) then g_now s else g_last_sleep_tick s in
  ∃ s', sleep_then p ticks now s = Ok s' ∧ (base + ticks < now → look s' p = Some (Ready, None)) ∧ (now < base + ticks → look s' p = Some (Sleeping, None)) ∧
  ∀ q t, (q, t) ∈ dues (wt s) base (L KSleep) → (t < now → look s' q = Some (Ready, None)) ∧ (now < t → look s' q = Some (Sleeping, None)).
Proof.
  intros I Hx Hwq T Ht base. destruct (sleep_queue_push_spec p ticks s L x I Hx Hwq T Ht) as (s1 & l1 & l2 & D1 & D2 & E1 & El & I1 & R1 & Ec & Hlk & T1 & Etick & ED & ED' & _). fold base in Etick, ED, ED'.
  unfold sleep_then. step_with E1. set (s2 := with_clock _ _ _ s1). assert (I2 : qinv 0 s2 (ins KSleep (l1 ++ p :: l2) L)) by (by apply (qinv_qsame 0 s1)). assert (T2 : timed s2) by done.
  destruct (wake_sleeping_due s2 _ I2 T2) as (s' & L' & E & I' & T' & Hdue). exists s'. split; [done|]. rewrite ins_eq in Hdue. change (wt s2) with (wt s1) in Hdue. change (g_last_sleep_tick s2) with (g_last_sleep_tick s1) in Hdue. change (g_now s2) with now in Hdue. rewrite Etick, ED' in Hdue.
  destruct (Hdue p (base + ticks)) as [P1 P2]; [apply elem_of_app; right; left|]. split; [done|]. split; [intros H; by apply P2|]. intros q t Hq. rewrite ED in Hq. destruct (Hdue q t) as [Q1 Q2]; [apply elem_of_app in Hq as [?|?]; apply elem_of_app; [by left|right; by right]|].
  split; [done|]. intros H. by apply Q2.
Qed.

(** * The properties *)

(** A running kernel: the first process at 4096 and the idle process at 8192. *)
Definition kernel_start : Sched :=
  match s0 ← scheduler_init 4096 0 0 0; '(_, s1) ← scheduler_create_task 8192 0x4000 s0; Ok s1 with Ok s => s | _ => mkSched ∅ 0 0 0 0 [] [] 0 0 (λ _, mkQueue 0 0) 0 0 0 [] end.

(** A process at 12288 is created, runs, forks a child at 16384 and waits for it; the child
    ends and is reaped; the process waits on a queue, is woken and sleeps. *)
Definition life : list Op :=
  [OCreate 12288 0x5000; OYield; OYield; OFork 16384 0x9000 0xa000 0x6000; OWaitpid 3 false; OYield; OExit 7; OYield; OWaitpid 3 false; OWait (QOther 5); OWakeAll (QOther 5); OYield; OSleep 100 1000; OTime 200; OYield].

Definition after (n : nat) : Sched := match run (take n life) kernel_start with Ok s => s | _ => kernel_start end.

Lemma kernel_start_safe : safe 8192 kernel_start.
Proof.
  destruct (boot_safe 4096 8192 0x4000 0 0 0) as (s0 & s1 & E0 & E1 & S); [lia..|]. unfold kernel_start. step_with E0. step_with E1. done.
Qed.

Lemma after_safe n : (n <= 15)%nat → safe 8192 (after n).
Proof.
  intros Hn. assert (Hc : run_check 8192 (take n life) kernel_start = true) by (do 16 (destruct n as [|n]; [by vm_compute|]); lia).
  destruct (run_safe 8192 (take n life) kernel_start kernel_start_safe (run_check_allowed _ _ _ Hc)) as (s' & E & S). unfold after. by rewrite E.
Qed.

(** C0: From the start of the kernel (the first process and the idle task), every sequence of
    scheduler operations whose callers keep to the rules ends without a fault or a panic, and
    leaves every process on exactly the queue its state says, the ring of processes and the lists
    of children intact, and a running current process. No operation reads a freed process. *)
Theorem scheduler_never_faults a b stack now wm focus os s0 s1 :
  0 < a < 2 ^ 64 → 0 < b < 2 ^ 64 → a ≠ b → stack ≠ 0 → scheduler_init a now wm focus = Ok s0 → scheduler_create_task b stack s0 = Ok (b, s1) → run_allowed b os s1 →
  ∃ s', run os s1 = Ok s' ∧ safe b s'.
Proof.
  intros Ha Hb Hab Hst E0 E1 Hos. destruct (boot_safe a b stack now wm focus Ha Hb Hab Hst) as (t0 & t1 & F0 & F1 & S). rewrite E0 in F0. injection F0 as <-. rewrite E1 in F1. injection F1 as <-. by apply run_safe.
Qed.

Lemma scheduler_never_faults_witness : ∃ s', run life kernel_start = Ok s' ∧ safe 8192 s'.
Proof.
  destruct (scheduler_init 4096 0 0 0) as [s0| |] eqn:E0; [|done..]. assert (E1 : scheduler_create_task 8192 0x4000 s0 = Ok (8192, kernel_start)) by (injection E0 as <-; by vm_compute).
  apply (scheduler_never_faults 4096 8192 0x4000 0 0 0 life s0 kernel_start); [lia|lia|lia|lia|exact E0|exact E1|]. apply run_check_allowed. by vm_compute.
Defined.

(** C0: Whatever an operation of the scheduler frees, an address space or the areas of one, no
    process that is left uses it, and the operation keeps the invariant. *)
Theorem scheduler_frees_unused d o s : safe d s → allowed d o s → ∃ s', exec o s = Ok s' ∧ safe d s' ∧ frees_unused s s'.
Proof. intros (L & P & C & G & Hr) Ha. by apply (exec_safe d s L P C G Hr). Qed.

Lemma scheduler_frees_unused_witness : ∃ s', exec (OWaitpid 3 false) (after 8) = Ok s' ∧ safe 8192 s' ∧ frees_unused (after 8) s'.
Proof. apply (scheduler_frees_unused 8192 (OWaitpid 3 false) (after 8)); [apply after_safe; lia|]. apply (bool_decide_eq_true_1 (allowed 8192 (OWaitpid 3 false) (after 8))). by vm_compute. Defined.

(** C0: The scheduler runs the process at the head of the first ready queue that is not empty.
    At that moment the ready queues hold exactly the processes that were ready or running and
    the sleepers whose time has come; the rest of the queues stays in order, nobody due later
    is woken, and sleepers that stay are still due when they were. *)
Theorem scheduler_picks_first_ready d s L P C :
  good d s L P C →
  ∃ s' L' D1 D2 L1 i l,
    scheduler_schedule_internal s = Ok s' ∧ good d s' L' P C ∧ look s' (g_current_proc s') = Some (Running, None) ∧
    L1 (KReady i) = g_current_proc s' :: l ∧ (∀ j, (j < i)%nat → L1 (KReady j) = []) ∧ (∀ j, L' (KReady j) = if decide (j = i) then l else L1 (KReady j)) ∧
    (∀ q, (∃ j, q ∈ L1 (KReady j)) ↔ (∃ v, look s q = Some v ∧ active v) ∨ q ∈ D1.*1) ∧
    dues (wt s) (g_last_sleep_tick s) (L KSleep) = D1 ++ D2 ∧ dues (wt s') (g_last_sleep_tick s') (L' KSleep) = D2 ∧
    (∀ q t, (q, t) ∈ D1 → t <= g_now s) ∧ (∀ q t, (q, t) ∈ D2 → g_now s <= t) ∧ (∀ q, L' (KWait q) = L (KWait q)).
Proof.
  intros G. destruct (gd_idle _ _ _ _ _ G) as (v & Hv & Ha). destruct (schedule_internal_spec s L) as (s' & L' & E & I & T & W & R & B & D1 & D2 & L1 & i & l & H1 & H2 & H3 & H4 & H5 & H6 & H7 & H8); [apply G|apply G|apply (gd_cur _ _ _ _ _ G)|by exists d, v|].
  exists s', L', D1, D2, L1, i, l. split; [done|]. split; [|by split_and!]. apply (good_switched d s _ L); try done. destruct (look_Some _ _ _ R) as (x & Hx & _). by exists x.
Qed.

Lemma scheduler_picks_first_ready_witness : ∃ s' L' P C, scheduler_schedule_internal (after 14) = Ok s' ∧ good 8192 s' L' P C ∧ g_current_proc s' = 12288.
Proof.
  destruct (after_safe 14 ltac:(lia)) as (L & P & C & G & _). destruct (scheduler_picks_first_ready 8192 (after 14) L P C G) as (s' & L' & D1 & D2 & L1 & i & l & E & G' & _). exists s', L', P, C. split; [done|]. split; [done|].
  assert (Ec : (g_current_proc <$> scheduler_schedule_internal (after 14)) = Ok 12288) by (by vm_compute). rewrite E in Ec. by injection Ec.
Defined.

(** C0: A process put to sleep for [ticks] is due [ticks] after the tick from which the queue
    counts, which is the present one if nobody sleeps. When the clock reads [now] it is woken if
    that tick has passed and sleeps on if it is still to come, and so does everybody who slept
    before, at the tick it was due before. *)
Theorem sleep_wakes_on_time p ticks now s L x :
  qinv p s L → procs s !! p = Some x → waiting_queue x = None → timed s → 0 <= ticks < 2 ^ 64 →
  let base := if decide (L KSleep = []) then g_now s else g_last_sleep_tick s in
  ∃ s', sleep_then p ticks now s = Ok s' ∧ (base + ticks < now → look s' p = Some (Ready, None)) ∧ (now < base + ticks → look s' p = Some (Sleeping, None)) ∧
  ∀ q t, (q, t) ∈ dues (wt s) base (L KSleep) → (t < now → look s' q = Some (Ready, None)) ∧ (now < t → look s' q = Some (Sleeping, None)).
Proof. apply sleep_then_spec. Qed.

Lemma sleep_wakes_on_time_witness : ∃ s', sleep_then 12288 100 200 (after 12) = Ok s' ∧ look s' 12288 = Some (Ready, None).
Proof.
  destruct (after_safe 12 ltac:(lia)) as (L & P & C & G & Hr). destruct (running_facts 8192 (after 12) L P C G Hr) as (x & Hx & Hwq & _ & I).
  assert (Ec : g_current_proc (after 12) = 12288) by (by vm_compute). assert (En : g_now (after 12) = 0) by (by vm_compute). assert (El : g_last_sleep_tick (after 12) = 0) by (by vm_compute). rewrite Ec in Hx, I.
  destruct (sleep_wakes_on_time 12288 100 200 (after 12) L x I Hx Hwq (gd_timed _ _ _ _ _ G) ltac:(lia)) as (s' & E & H1 & _). exists s'. split; [done|]. apply H1.
  rewrite En, El. by destruct (decide (L KSleep = [])).
Defined.

(** C0: A process that ends becomes a zombie with its status, everybody who waits for it can run again, its
    children belong to the process with pid 1 or to nobody, and another process runs. *)
Theorem process_exit_correct d status s L P C :
  let cur := g_current_proc s in
  good d s L P C → look s cur = Some (Running, None) → cur ≠ d →
  ∃ s' L' C', process_exit status s = Ok s' ∧ good d s' L' P C' ∧ look s' (g_current_proc s') = Some (Running, None) ∧ look s' cur = Some (Zombie, None) ∧ exit_status <$> procs s' !! cur = Some status ∧
  (∀ p, look s p = Some (Waiting, Some (QChild cur)) → ∃ v, look s' p = Some v ∧ active v).
Proof. intros cur G Hr Hd. destruct (process_exit_spec d status s L P C G Hr Hd) as (s' & L' & C' & E & G' & R' & Hz & Hw & _ & _ & Hs & _). exists s', L', C'. by split_and!. Qed.

Lemma process_exit_correct_witness : ∃ s' L' P C', process_exit 7 (after 6) = Ok s' ∧ good 8192 s' L' P C' ∧ look s' 16384 = Some (Zombie, None) ∧ ∃ v, look s' 12288 = Some v ∧ active v.
Proof.
  destruct (after_safe 6 ltac:(lia)) as (L & P & C & G & Hr). assert (Ec : g_current_proc (after 6) = 16384) by (by vm_compute).
  destruct (process_exit_correct 8192 7 (after 6) L P C G Hr ltac:(by rewrite Ec)) as (s' & L' & C' & E & G' & R' & Hz & _ & Hw). rewrite Ec in Hz, Hw. exists s', L', P, C'. split; [done|]. split; [done|]. split; [done|]. apply Hw. by vm_compute.
Defined.

(** C0: One pass of [process_waitpid] reaps a child that has ended and matches, if there is one:
    it returns its pid and its exit status, the child is gone, everybody else is as before, and exactly the address
    space and the areas that nobody uses any more are freed. Otherwise it reports that no child
    has ended or that there is no such child and changes nothing, or it blocks. *)
Theorem process_waitpid_correct d n nohang s L P C :
  good d s L P C → look s (g_current_proc s) = Some (Running, None) → g_current_proc s ≠ d →
  ∃ r s' L' P' C', process_waitpid n nohang s = Ok (r, s') ∧ good d s' L' P' C' ∧ look s' (g_current_proc s') = Some (Running, None) ∧
  ((∃ t x, t ∈ C (g_current_proc s) ∧ procs s !! t = Some x ∧ state x = Zombie ∧ (n = -1 ∨ u64 n = pid x) ∧ r = Some (pid x, Some (exit_status x)) ∧ reaped t x s s') ∨
   (∀ t x, t ∈ C (g_current_proc s) → procs s !! t = Some x → state x = Zombie → n ≠ -1 ∧ u64 n ≠ pid x) ∧
   (r = Some (0, None) ∧ s' = s ∧ nohang = true ∨ r = Some (-1, None) ∧ s' = s ∨ r = None ∧ nohang = false)).
Proof.
  intros G Hr Hd. destruct (process_waitpid_spec d n nohang s L P C G Hr Hd) as (r & s' & L' & P' & C' & E & G' & R' & Hcase). exists r, s', L', P', C'. split; [done|]. split; [done|]. split; [done|].
  destruct Hcase as [?|(H1 & _ & H2)]; [by left|right]. split; [done|]. destruct H2 as [?|[?|(? & ? & _)]]; [by left|right; by left|right; by right].
Qed.

Lemma process_waitpid_correct_witness : ∃ s' L' P' C', process_waitpid 3 false (after 8) = Ok (Some (3, Some 7), s') ∧ good 8192 s' L' P' C' ∧ look s' 16384 = None.
Proof.
  destruct (after_safe 8 ltac:(lia)) as (L & P & C & G & Hr). assert (Ec : g_current_proc (after 8) = 12288) by (by vm_compute).
  destruct (process_waitpid_correct 8192 3 false (after 8) L P C G Hr ltac:(by rewrite Ec)) as (r & s' & L' & P' & C' & E & G' & _). exists s', L', P', C'.
  assert (Ev : ((λ x, (x.1, look x.2 16384)) <$> process_waitpid 3 false (after 8)) = Ok (Some (3, Some 7), None)) by (by vm_compute). rewrite E in Ev. cbn in Ev. injection Ev as -> Ev. split; [done|]. split; [done|exact Ev].
Defined.

(** C0: Waking one waiter takes the one that has waited longest, and with it the longest waiter
    for any descriptor; everybody else keeps waiting in the same order. *)
Theorem scheduler_wake_one_correct q s L :
  qinv 0 s L → queue_live q s = true →
  ∃ s' L' W, scheduler_wake_one q s = Ok s' ∧ qinv 0 s' L' ∧ woken W s s' ∧ L' (KWait q) = List.tl (L (KWait q)) ∧ same_but [q; QEpoll] L L' ∧
  (∀ p, p ∈ W ↔ ∃ l, L (KWait q) = p :: l ∨ L (KWait q) ≠ [] ∧ L (KWait QEpoll) = p :: l).
Proof. intros I Hq. destruct (scheduler_wake_one_spec q s L I Hq) as (s' & L' & W & E & I' & Wk & _ & Ht & B & HW). exists s', L', W. by split_and!. Qed.

Lemma scheduler_wake_one_correct_witness : ∃ s' L', scheduler_wake_one (QOther 5) (after 10) = Ok s' ∧ qinv 0 s' L' ∧ look s' 12288 = Some (Ready, None).
Proof.
  destruct (after_safe 10 ltac:(lia)) as (L & P & C & G & Hr). destruct (scheduler_wake_one_correct (QOther 5) (after 10) L (gd_queues _ _ _ _ _ G) eq_refl) as (s' & L' & W & E & I' & _). exists s', L'. split; [done|]. split; [done|].
  assert (Ev : ((λ x, look x 12288) <$> scheduler_wake_one (QOther 5) (after 10)) = Ok (Some (Ready, None))) by (by vm_compute). rewrite E in Ev. by injection Ev.
Defined.
