(* ===== verification/SchedCases.v ===== *)
(** Concrete runs of the scheduler (Sched.v) that show what it does in corner cases. *)

From S2P Require Import Prelude Sched SchedInv SchedOps SchedSleep SchedRun SchedTree SchedExit SchedReap SchedSafe SchedMain.

Definition outcome {A} (os : list Op) (f : Sched → A) : res A := s ← run os kernel_start; Ok (f s).

Definition field {A} (f : Process → A) (p : Z) (s : Sched) : option A := f <$> procs s !! p.

(** A process forks and ends; its child belongs to the process with pid 1, which is the idle
    task, the first one that is created, and stays a zombie when it ends. *)
Example orphan_goes_to_idle :
  outcome [OCreate 12288 0x5000; OYield; OYield; OFork 16384 0x9000 0xa000 0x6000; OExit 0; OYield; OExit 0; OYield; OYield; OYield] (λ s, (field pid 8192 s, field parent_pid 16384 s, field children_list 8192 s, field state 16384 s)) =
  Ok (Some 1, Some 1, Some 16384, Some Zombie).
Proof. vm_compute. reflexivity. Qed.

(** A process without children waits for any child, and nothing wakes it. *)
Example waitpid_without_children :
  outcome [OCreate 12288 0x5000; OYield; OYield; OWaitpid (-1) false; OYield; OYield] (λ s, (field children_list 12288 s, field state 12288 s, field waiting_queue 12288 s)) = Ok (Some 0, Some Waiting, Some None).
Proof. vm_compute. reflexivity. Qed.

(** Two processes are due at tick 10; the tick wakes one of them. *)
Example same_tick_wakes_one :
  outcome [OCreate 12288 0x5000; OCreate 16384 0x6000; OYield; OYield; OSleep 10 1000; OSleep 10 1000; OTime 10; OYield] (λ s, (field state 12288 s, field state 16384 s)) = Ok (Some Running, Some Sleeping).
Proof. vm_compute. reflexivity. Qed.

(** A process sleeps for 10 ticks at tick 5 while another sleeps since tick 0: it is due at
    tick 10. *)
Example sleep_counts_from_last_tick :
  outcome [OCreate 12288 0x5000; OCreate 16384 0x6000; OYield; OYield; OSleep 100 1000; OTime 5] (λ s, (g_now s, g_current_proc s, (λ s', look s' 16384) <$> sleep_then 16384 10 11 s)) = Ok (5, 16384, Ok (Some (Ready, None))).
Proof. vm_compute. reflexivity. Qed.

(** A process that the shutdown has marked as ended runs again. *)
Example shutdown_zombie_runs :
  (s ← run [OCreate 12288 0x5000; OYield] kernel_start; s ← shutdown_mark_user_processes_zombie s; s1 ← scheduler_schedule_internal s; Ok (field state 12288 s, g_current_proc s1, field state 12288 s1)) =
  Ok (Some Zombie, 12288, Some Running).
Proof. vm_compute. reflexivity. Qed.
