(* ===== verification/Ethernet.v ===== *)
(** The link layer: network configuration and NIC selection (src/net/net.cpp) and
    Ethernet II framing (src/net/ethernet.cpp). A NIC driver is seen through what it
    reports: its MAC address and, frame by frame, whether it took the frame. *)

From S2P Require Import Prelude Wire.

(** * Model *)

Record NetConfig := mkNetConfig {
  ip : Z;
  netmask : Z;
  gateway : Z;
  dns : Z;
  configured : bool
}.

Inductive NicType := NIC_NONE | NIC_E1000 | NIC_RTL8139.

(** [hw_mac]: the address the active driver reports; [tx_results]: its answers to
    the sends to come; [tx]: the frames handed to it, oldest first. *)
Record Net := mkNet {
  g_net_config : NetConfig;
  g_active_nic : NicType;
  hw_mac : list Z;
  tx_results : list bool;
  tx : list (list Z)
}.

Definition nic_send (data : list Z) (n : Net) : bool * Net :=
  match g_active_nic n with
  | NIC_NONE => (false, n)
  | _ =>
      let '(ok, rest) := match tx_results n with [] => (false, []) | r :: rs => (r, rs) end in
      (ok, mkNet (g_net_config n) (g_active_nic n) (hw_mac n) rest (tx n ++ [data]))
  end.

Definition nic_get_mac (n : Net) : list Z :=
  match g_active_nic n with NIC_NONE => replicate 6 0 | _ => hw_mac n end.

Definition net_send_raw (data : list Z) (length : Z) (n : Net) : bool * Net :=
  if length =? 0 then (false, n) else nic_send data n.
Definition net_get_mac (n : Net) : list Z := nic_get_mac n.

Definition net_get_ip (n : Net) : Z := ip (g_net_config n).
Definition net_get_netmask (n : Net) : Z := netmask (g_net_config n).
Definition net_get_gateway (n : Net) : Z := gateway (g_net_config n).

Definition net_set_ip (a : Z) (c : NetConfig) : NetConfig :=
  if a =? 0 then mkNetConfig 0 0 0 0 false
  else mkNetConfig a (netmask c) (gateway c) (dns c) true.
Definition net_set_netmask (mask : Z) (c : NetConfig) : NetConfig :=
  mkNetConfig (ip c) mask (gateway c) (dns c) (configured c).
Definition net_set_gateway (gw : Z) (c : NetConfig) : NetConfig :=
  mkNetConfig (ip c) (netmask c) gw (dns c) (configured c).
Definition net_set_dns (d : Z) (c : NetConfig) : NetConfig :=
  mkNetConfig (ip c) (netmask c) (gateway c) d (configured c).

Definition ETH_HLEN : Z := 14.
Definition ETH_DATA_LEN : Z := 1500.
Definition ETH_MIN_PAYLOAD_LEN : Z := 46.
Definition ETH_TYPE_IPV4 : Z := 0x0800.
Definition ETH_TYPE_ARP : Z := 0x0806.
Definition ETH_BROADCAST_MAC : list Z := replicate 6 0xFF.

(** [for (i = 0; i < 6; i++) if (mac1[i] != mac2[i]) return false;] *)
Definition eth_mac_equals (mac1 mac2 : list Z) : bool :=
  forallb (λ i, nth i mac1 0 =? nth i mac2 0) (seq 0 6).
Definition eth_mac_is_broadcast (mac : list Z) : bool := eth_mac_equals mac ETH_BROADCAST_MAC.
Definition eth_mac_is_zero (mac : list Z) : bool := forallb (λ i, nth i mac 0 =? 0) (seq 0 6).

(** The link layer with its static transmit buffer. *)
Record Eth := mkEth { net : Net; eth_tx_buffer : list Z }.

Definition ethernet_send (dst_mac : list Z) (ethertype : Z) (data : list Z) (length : Z) (e : Eth)
    : res (bool * Eth) :=
  if eth_mac_is_zero dst_mac then Ok (false, e)
  else if ETH_DATA_LEN <? length then Ok (false, e)
  else
    let payload_length := if length <? ETH_MIN_PAYLOAD_LEN then ETH_MIN_PAYLOAD_LEN else length in
    b1 ← st (eth_tx_buffer e) 0 dst_mac;
    b2 ← st b1 6 (net_get_mac (net e));
    b3 ← st16 b2 12 (htons ethertype);
    b4 ← blit b3 ETH_HLEN data 0 length;
    b5 ← for_upto (Z.to_nat (payload_length - length)) length
           (λ i b, arr_set b (ETH_HLEN + i) 0) b4;
    frame ← view b5 0 (ETH_HLEN + payload_length);
    let '(result, n) := net_send_raw frame (ETH_HLEN + payload_length) (net e) in
    Ok (result, mkEth n b5).

(** Where [ethernet_receive] hands a frame. *)
Inductive eth_dispatch :=
  | ToArp (payload : list Z) (src_mac : list Z)
  | ToIpv4 (payload : list Z)
  | EthDrop.

Definition ethernet_receive (our_mac : list Z) (frame : list Z) (length : Z) : res eth_dispatch :=
  if length <? ETH_HLEN then Ok EthDrop
  else
    let payload_len := u16 (length - ETH_HLEN) in
    dst_mac ← view frame 0 6;
    if negb (eth_mac_equals dst_mac our_mac) && negb (eth_mac_is_broadcast dst_mac) then Ok EthDrop
    else
      ty ← ld16 frame 12;
      let ethertype := ntohs ty in
      if ethertype =? ETH_TYPE_ARP then
        payload ← view frame ETH_HLEN payload_len;
        src_mac ← view frame 6 6;
        Ok (ToArp payload src_mac)
      else if ethertype =? ETH_TYPE_IPV4 then
        payload ← view frame ETH_HLEN payload_len;
        Ok (ToIpv4 payload)
      else Ok EthDrop.

(** * Specification *)

Definition mac_ok (m : list Z) : Prop := length m = 6%nat ∧ bytes m.

(** A frame as the standard lays it out, padded to the minimum length. *)
Definition eth_frame (dst src : list Z) (ethertype : Z) (data : list Z) : list Z :=
  dst ++ src ++ be16 ethertype ++ data ++ replicate (46 - length data) 0.

Record eth_wf (e : Eth) : Prop := {
  eth_buf : length (eth_tx_buffer e) = 1600%nat;
  eth_mac : mac_ok (hw_mac (net e));
  eth_nic : g_active_nic (net e) ≠ NIC_NONE
}.

(** * Lemmas *)

Lemma mac_equals_spec m1 m2 :
  mac_ok m1 → mac_ok m2 → eth_mac_equals m1 m2 = bool_decide (m1 = m2).
Proof.
  intros [H1 _] [H2 _]. unfold eth_mac_equals. simpl.
  do 6 (destruct m1 as [|? m1]; [done|]). do 6 (destruct m2 as [|? m2]; [done|]).
  destruct m1; [|done]. destruct m2; [|done]. simpl.
  repeat match goal with |- context [?a =? ?b] => destruct (Z.eqb_spec a b); simpl end;
    subst; symmetry; try (by apply bool_decide_eq_true_2); apply bool_decide_eq_false_2; congruence.
Qed.

Lemma broadcast_mac_ok : mac_ok ETH_BROADCAST_MAC.
Proof. split; [done|]. unfold ETH_BROADCAST_MAC. repeat (constructor; [lia|]). constructor. Qed.

(** The padding loop fills with zeros. *)
Lemma pad_loop p buf k :
  p `prefix_of` buf → (length p + k <= length buf)%nat →
  ∃ buf', for_upto k (Z.of_nat (length p)) (λ i b, arr_set b i 0) buf = Ok buf' ∧
    length buf' = length buf ∧ (p ++ replicate k 0) `prefix_of` buf'.
Proof.
  revert p buf. induction k as [|k IH]; intros p buf Hp Hl; simpl.
  { exists buf. by rewrite app_nil_r. }
  destruct (st_append p buf [0]) as (b1 & E & Hl1 & Hp1); [done|simpl; lia|].
  unfold st, blit in E. simpl in E. rewrite Z.add_0_r in E.
  destruct (arr_set buf (Z.of_nat (length p)) 0) as [b| |]; simpl in *; simplify_eq.
  destruct (IH (p ++ [0]) b1) as (b2 & E2 & Hl2 & Hp2); [done|rewrite length_app; simpl; lia|].
  rewrite length_app in E2. simpl in E2. rewrite Nat2Z.inj_add in E2. change (Z.of_nat 1) with 1 in E2. rewrite E2.
  exists b2. split; [done|]. split; [lia|]. by rewrite <-(assoc_L (++)) in Hp2.
Qed.

Lemma for_upto_shift {St} n i c (f : Z → St → res St) s :
  for_upto n i (λ k, f (c + k)) s = for_upto n (c + i) f s.
Proof.
  revert i s. induction n as [|n IH]; intros i s; simpl; [done|].
  destruct (f (c + i) s); simpl; [|done..]. rewrite IH. f_equal. lia.
Qed.

Lemma ethernet_send_spec dst ethertype data e :
  eth_wf e → mac_ok dst → eth_mac_is_zero dst = false → 0 <= ethertype < 2 ^ 16 →
  Z.of_nat (length data) <= ETH_DATA_LEN →
  ∃ r e', ethernet_send dst ethertype data (Z.of_nat (length data)) e = Ok (r, e') ∧ eth_wf e' ∧
    tx (net e') = tx (net e) ++ [eth_frame dst (hw_mac (net e)) ethertype data] ∧
    r = hd false (tx_results (net e)) ∧ tx_results (net e') = tl (tx_results (net e)) ∧
    g_net_config (net e') = g_net_config (net e) ∧ hw_mac (net e') = hw_mac (net e) ∧
    g_active_nic (net e') = g_active_nic (net e).
Proof.
  intros [Hbuf [Hm Hmb] Hnic] [Hd Hdb] Hz Hty Hlen. unfold ethernet_send, ETH_DATA_LEN, ETH_HLEN in *.
  rewrite Hz. destruct (Z.ltb_spec 1500 (Z.of_nat (length data))); [lia|].
  assert (Hmac : net_get_mac (net e) = hw_mac (net e)).
  { unfold net_get_mac, nic_get_mac. by destruct (g_active_nic (net e)). }
  rewrite Hmac. set (src := hw_mac (net e)) in *.
  destruct (st_append [] (eth_tx_buffer e) dst) as (b1 & E1 & L1 & P1); [apply prefix_nil|simpl; lia|].
  simpl in P1. change (Z.of_nat (length [])) with 0 in E1. rewrite E1. simpl.
  destruct (st_append dst b1 src) as (b2 & E2 & L2 & P2); [done|lia|].
  rewrite Hd in E2. change (Z.of_nat 6) with 6 in E2. rewrite E2. simpl.
  destruct (st_append (dst ++ src) b2 (be16 ethertype)) as (b3 & E3 & L3 & P3);
    [done|rewrite length_app; simpl; lia|].
  rewrite length_app, Hd, Hm in E3. change (Z.of_nat (6 + 6)) with 12 in E3.
  unfold st16. rewrite le_bytes_htons by done. rewrite E3. simpl.
  destruct (blit_append ((dst ++ src) ++ be16 ethertype) b3 data 0 (Z.of_nat (length data)))
    as (b4 & E4 & L4 & P4); [done|lia|lia|rewrite !length_app; simpl; lia|lia|].
  rewrite !length_app, Hd, Hm in E4. change (Z.of_nat (6 + 6 + length (be16 ethertype))) with 14 in E4.
  rewrite E4. simpl. rewrite Nat2Z.id, drop_0, firstn_all in P4.
  set (plen := if _ <? _ then _ else _).
  assert (Hpl : plen - Z.of_nat (length data) = Z.of_nat (46 - length data)).
  { unfold plen, ETH_MIN_PAYLOAD_LEN. case_match; lia. }
  rewrite Hpl, Nat2Z.id. rewrite (for_upto_shift _ _ 14 (λ k b, arr_set b k 0)).
  destruct (pad_loop (((dst ++ src) ++ be16 ethertype) ++ data) b4 (46 - length data)) as (b5 & E5 & L5 & P5);
    [done|rewrite !length_app; simpl; lia|].
  rewrite !length_app, Hd, Hm in E5.
  replace (Z.of_nat (6 + 6 + length (be16 ethertype) + length data)) with (14 + Z.of_nat (length data)) in E5
    by (rewrite be16_length; lia).
  rewrite E5. simpl. rewrite <-!(assoc_L (++)) in P5. fold (eth_frame dst src ethertype data) in P5.
  assert (Hfl : Z.of_nat (length (eth_frame dst src ethertype data)) = 14 + plen).
  { unfold eth_frame. rewrite !length_app, length_replicate, be16_length. lia. }
  rewrite (prefix_take _ _ _ P5 Hfl). simpl. unfold net_send_raw, nic_send.
  destruct (Z.eqb_spec (14 + plen) 0); [lia|].
  destruct (g_active_nic (net e)) eqn:En; [done|..];
    (destruct (tx_results (net e)); eexists _, _; (split; [done|]); simpl; rewrite ?En;
     (split; [split; simpl; done || congruence || lia|done])).
Qed.

(** Receiving a frame addressed to this host. *)
Lemma ethernet_receive_spec our dst src ethertype data :
  mac_ok our → mac_ok dst → mac_ok src → 0 <= ethertype < 2 ^ 16 →
  Z.of_nat (length data) <= ETH_DATA_LEN → dst = our ∨ dst = ETH_BROADCAST_MAC →
  let frame := eth_frame dst src ethertype data in
  let payload := data ++ replicate (46 - length data) 0 in
  ethernet_receive our frame (Z.of_nat (length frame)) =
    Ok (if ethertype =? ETH_TYPE_ARP then ToArp payload src
        else if ethertype =? ETH_TYPE_IPV4 then ToIpv4 payload else EthDrop).
Proof.
  intros Hour Hdst Hsrc Hty Hlen Hto frame payload. unfold ETH_DATA_LEN in Hlen.
  assert (Hmatch : eth_mac_equals dst our = true ∨ eth_mac_is_broadcast dst = true).
  { unfold eth_mac_is_broadcast. rewrite !mac_equals_spec by (done || apply broadcast_mac_ok).
    destruct Hto as [-> | ->]; [left|right]; by apply bool_decide_eq_true_2. }
  assert (Hpl : (length payload <= 1500)%nat).
  { unfold payload. rewrite length_app, length_replicate. lia. }
  assert (Hfl : length frame = (14 + length payload)%nat).
  { unfold frame, eth_frame, payload. destruct Hdst, Hsrc. rewrite !length_app, be16_length. lia. }
  rewrite Hfl. unfold ethernet_receive, ETH_HLEN.
  destruct (Z.ltb_spec (Z.of_nat (14 + length payload)) 14); [lia|].
  assert (Hv1 : view frame 0 6 = Ok dst).
  { apply prefix_take; [|by destruct Hdst as [-> _]]. by eexists. }
  assert (Hv2 : view frame 6 6 = Ok src).
  { rewrite view_drop by lia. unfold frame, eth_frame. destruct Hdst as [Hd _], Hsrc as [Hs _].
    rewrite drop_app_length' by (rewrite Hd; lia).
    by rewrite take_app_length' by (rewrite Hs; lia). }
  assert (Hv3 : view frame 14 (u16 (Z.of_nat (14 + length payload) - 14)) = Ok payload).
  { rewrite u16_small, view_drop by lia. unfold frame, eth_frame. fold payload.
    destruct Hdst as [Hd _], Hsrc as [Hs _]. rewrite !(assoc_L (++) dst), (assoc_L (++) _ _ payload).
    rewrite drop_app_length' by (rewrite !length_app, be16_length; lia).
    rewrite take_ge by lia. done. }
  assert (Hv4 : ld16 frame 12 = Ok (htons ethertype)).
  { unfold frame, eth_frame. destruct Hdst as [Hd _], Hsrc as [Hs _].
    do 6 (destruct dst as [|? dst]; [done|]). do 6 (destruct src as [|? src]; [done|]).
    destruct dst; [|done]. destruct src; [|done]. unfold ld16. simpl.
    rewrite htons_spec by done. f_equal. lia. }
  rewrite Hv1, Hv2, Hv3, Hv4. simpl.
  replace (negb (eth_mac_equals dst our) && negb (eth_mac_is_broadcast dst)) with false
    by (destruct Hmatch as [-> | ->]; [done|by rewrite andb_false_r]).
  rewrite ntohs_htons by done. by repeat case_match.
Qed.
