(* ===== verification/Arp.v ===== *)
(** Address resolution (src/net/arp.cpp): the 32-entry table, ARP packets in and
    out, and the resolution that waits for a reply. [arp_resolve] polls the network
    while it waits; what each poll delivers to [arp_receive] is the next element of
    [inbox], and running out of polls is the timeout. *)

From S2P Require Import Prelude Wire Ethernet.

(** * Model *)

Definition ARP_HW_ETHERNET : Z := 1.
Definition ARP_OP_REQUEST : Z := 1.
Definition ARP_OP_REPLY : Z := 2.
Definition ARP_TABLE_SIZE : nat := 32.
Definition ARP_PACKET_SIZE : Z := 28.
Definition IP_BROADCAST : Z := 0xFFFFFFFF.

Record ArpEntry := mkArpEntry { e_ip : Z; e_mac : list Z; e_valid : bool }.

Record Arp := mkArp {
  eth : Eth;
  arp_table : list ArpEntry;
  arp_waiting : bool;
  arp_waiting_ip : Z;
  arp_waiting_mac : list Z;
  arp_resolved : bool;
  inbox : list (list (list Z))
}.

Definition with_eth (e : Eth) (a : Arp) : Arp :=
  mkArp e (arp_table a) (arp_waiting a) (arp_waiting_ip a) (arp_waiting_mac a) (arp_resolved a) (inbox a).
Definition with_table (t : list ArpEntry) (a : Arp) : Arp :=
  mkArp (eth a) t (arp_waiting a) (arp_waiting_ip a) (arp_waiting_mac a) (arp_resolved a) (inbox a).
Definition with_wait (w : bool) (wip : Z) (wmac : list Z) (r : bool) (a : Arp) : Arp :=
  mkArp (eth a) (arp_table a) w wip wmac r (inbox a).
Definition with_inbox (i : list (list (list Z))) (a : Arp) : Arp :=
  mkArp (eth a) (arp_table a) (arp_waiting a) (arp_waiting_ip a) (arp_waiting_mac a) (arp_resolved a) i.

Definition arp_mac_is_unusable (mac : list Z) : bool :=
  forallb (λ i, nth i mac 0 =? 0) (seq 0 6) || forallb (λ i, nth i mac 0 =? 0xFF) (seq 0 6).

Definition arp_init (t : list ArpEntry) : list ArpEntry :=
  (λ e, mkArpEntry (e_ip e) (e_mac e) false) <$> t.

(** First index from [i] on whose entry satisfies [f]. *)
Fixpoint find_entry (f : ArpEntry → bool) (t : list ArpEntry) (i : nat) : option nat :=
  match t with
  | [] => None
  | e :: t' => if f e then Some i else find_entry f t' (S i)
  end.

Definition entry_for (a : Z) (e : ArpEntry) : bool := e_valid e && (e_ip e =? a).

Definition arp_add_entry (a : Z) (mac : list Z) (t : list ArpEntry) : list ArpEntry :=
  if (a =? 0) || (a =? IP_BROADCAST) || arp_mac_is_unusable mac then t
  else
    match find_entry (entry_for a) t 0 with
    | Some i => alter (λ e, mkArpEntry (e_ip e) mac (e_valid e)) i t
    | None =>
        match find_entry (λ e, negb (e_valid e)) t 0 with
        | Some i => <[i := mkArpEntry a mac true]> t
        | None => <[0%nat := mkArpEntry a mac true]> t
        end
    end.

Definition arp_lookup (a : Z) (t : list ArpEntry) : option (list Z) :=
  if a =? 0 then None
  else match find_entry (entry_for a) t 0 with
       | Some i => e_mac <$> t !! i
       | None => None
       end.

(** The packed [ArpPacket] structure. *)
Definition arp_packet (op : Z) (smac : list Z) (sip : Z) (tmac : list Z) (tip : Z) : list Z :=
  le_bytes 2 (htons ARP_HW_ETHERNET) ++ le_bytes 2 (htons ETH_TYPE_IPV4) ++ [6; 4] ++
  le_bytes 2 (htons op) ++ smac ++ le_bytes 4 sip ++ tmac ++ le_bytes 4 tip.

Definition arp_send_request (target_ip : Z) (e : Eth) : res Eth :=
  if (target_ip =? 0) || (target_ip =? IP_BROADCAST) then Ok e
  else
    let arp := arp_packet ARP_OP_REQUEST (net_get_mac (net e)) (net_get_ip (net e))
                 (replicate 6 0) target_ip in
    '(_, e') ← ethernet_send ETH_BROADCAST_MAC ETH_TYPE_ARP arp ARP_PACKET_SIZE e;
    Ok e'.

Definition arp_send_reply (target_ip : Z) (target_mac : list Z) (e : Eth) : res Eth :=
  if (target_ip =? 0) || arp_mac_is_unusable target_mac then Ok e
  else
    let arp := arp_packet ARP_OP_REPLY (net_get_mac (net e)) (net_get_ip (net e))
                 target_mac target_ip in
    '(_, e') ← ethernet_send target_mac ETH_TYPE_ARP arp ARP_PACKET_SIZE e;
    Ok e'.

Definition arp_receive (data : list Z) (length : Z) (a : Arp) : res Arp :=
  if length <? ARP_PACKET_SIZE then Ok a
  else
    hw_type ← ld16 data 0; proto_type ← ld16 data 2;
    hw_len ← arr_get data 4; proto_len ← arr_get data 5;
    if negb (ntohs hw_type =? ARP_HW_ETHERNET) || negb (ntohs proto_type =? ETH_TYPE_IPV4)
       || negb (hw_len =? 6) || negb (proto_len =? 4) then Ok a
    else
      operation ← ld16 data 6; sender_mac ← view data 8 6; sender_ip ← ld32 data 14;
      target_ip ← ld32 data 24;
      let a1 := with_table (arp_add_entry sender_ip sender_mac (arp_table a)) a in
      let a2 := if arp_waiting a1 && (sender_ip =? arp_waiting_ip a1)
                then with_wait (arp_waiting a1) (arp_waiting_ip a1) sender_mac true a1 else a1 in
      if (ntohs operation =? ARP_OP_REQUEST) && (target_ip =? net_get_ip (net (eth a2))) then
        e ← arp_send_reply sender_ip sender_mac (eth a2); Ok (with_eth e a2)
      else Ok a2.

(** One poll: the ARP packets it delivers, in order. *)
Fixpoint arp_deliver (packets : list (list Z)) (a : Arp) : res Arp :=
  match packets with
  | [] => Ok a
  | p :: ps => a' ← arp_receive p (Z.of_nat (length p)) a; arp_deliver ps a'
  end.

(** The waiting loop: poll until resolved or out of time. *)
Fixpoint arp_wait (polls : list (list (list Z))) (a : Arp) : res Arp :=
  if arp_resolved a then Ok (with_inbox polls a)
  else match polls with
       | [] => Ok (with_inbox [] a)
       | p :: ps => a' ← arp_deliver p a; arp_wait ps a'
       end.

(** The part of [arp_resolve] before the loop: an answer, or a pending request. *)
Definition arp_resolve_begin (a : Z) (s : Arp) : res (option (list Z) * Arp) :=
  if a =? IP_BROADCAST then Ok (Some ETH_BROADCAST_MAC, s)
  else match arp_lookup a (arp_table s) with
       | Some mac => Ok (Some mac, s)
       | None =>
           let s1 := with_wait true a (arp_waiting_mac s) false s in
           e ← arp_send_request a (eth s1);
           Ok (None, with_eth e s1)
       end.

(** ... and the part after it. *)
Definition arp_resolve_end (s : Arp) : option (list Z) * Arp :=
  (if arp_resolved s then Some (arp_waiting_mac s) else None,
   with_wait false (arp_waiting_ip s) (arp_waiting_mac s) (arp_resolved s) s).

Definition arp_resolve (a : Z) (s : Arp) : res (option (list Z) * Arp) :=
  if a =? 0 then Ok (None, s)
  else
    '(r, s1) ← arp_resolve_begin a s;
    match r with
    | Some mac => Ok (Some mac, s1)
    | None => s2 ← arp_wait (inbox s1) s1; Ok (arp_resolve_end s2)
    end.

(** * Specification *)

Definition entry_ok (e : ArpEntry) : Prop :=
  mac_ok (e_mac e) ∧ 0 <= e_ip e < 2 ^ 32 ∧
  (e_valid e = true → e_ip e ≠ 0 ∧ e_ip e ≠ IP_BROADCAST ∧ arp_mac_is_unusable (e_mac e) = false).

(** The table never holds two entries for one address. *)
Definition unique_ips (t : list ArpEntry) : Prop :=
  ∀ i j e1 e2, t !! i = Some e1 → t !! j = Some e2 →
    e_valid e1 = true → e_valid e2 = true → e_ip e1 = e_ip e2 → i = j.

Record table_ok (t : list ArpEntry) : Prop := {
  tab_len : length t = ARP_TABLE_SIZE;
  tab_entries : Forall entry_ok t;
  tab_unique : unique_ips t
}.

Record arp_wf (a : Arp) : Prop := {
  arp_eth : eth_wf (eth a);
  arp_tab : table_ok (arp_table a);
  arp_wmac : mac_ok (arp_waiting_mac a);
  arp_inbox : Forall (Forall bytes) (inbox a);
  arp_ip : 0 <= ip (g_net_config (net (eth a))) < 2 ^ 32
}.

(** * Lemmas *)

Lemma find_entry_Some f t i0 k :
  find_entry f t i0 = Some k →
  ∃ i e, k = (i0 + i)%nat ∧ t !! i = Some e ∧ f e = true ∧ ∀ j e', (j < i)%nat → t !! j = Some e' → f e' = false.
Proof.
  revert i0. induction t as [|e t IH]; intros i0; simpl; [done|]. destruct (f e) eqn:E.
  - intros [= <-]. exists 0%nat, e. split; [lia|]. split; [done|]. split; [done|]. lia.
  - intros H. destruct (IH _ H) as (i & e' & -> & Hi & Hf & Hlt). exists (S i), e'.
    split; [lia|]. split; [done|]. split; [done|]. intros [|j] e'' Hj; simpl; [by intros [= <-]|].
    apply Hlt. lia.
Qed.

Lemma find_entry_None f t i0 :
  find_entry f t i0 = None → ∀ j e, t !! j = Some e → f e = false.
Proof.
  revert i0. induction t as [|e t IH]; intros i0; simpl; [done|]. destruct (f e) eqn:E; [done|].
  intros H [|j] e'; simpl; [by intros [= <-]|]. by apply (IH (S i0)).
Qed.

Lemma entry_for_true a e : entry_for a e = true ↔ e_valid e = true ∧ e_ip e = a.
Proof. unfold entry_for. rewrite andb_true_iff, Z.eqb_eq. done. Qed.

(** With unique addresses the lookup is determined by membership. *)
Lemma arp_lookup_iff a t mac :
  unique_ips t → a ≠ 0 →
  arp_lookup a t = Some mac ↔ ∃ i e, t !! i = Some e ∧ e_valid e = true ∧ e_ip e = a ∧ e_mac e = mac.
Proof.
  intros Hu Ha. unfold arp_lookup. destruct (Z.eqb_spec a 0); [done|].
  destruct (find_entry (entry_for a) t 0) as [k|] eqn:E.
  - destruct (find_entry_Some _ _ _ _ E) as (i & e & -> & Hi & Hf & _). simpl. rewrite Hi. simpl.
    apply entry_for_true in Hf as [Hv Hip]. split.
    + intros [= <-]. eauto 10.
    + intros (j & e' & Hj & Hv' & Hip' & <-). f_equal.
      assert (i = j) as -> by (eapply Hu; eauto; congruence). congruence.
  - split; [done|]. intros (i & e & Hi & Hv & Hip & _).
    pose proof (find_entry_None _ _ _ E i e Hi) as Hf.
    rewrite (proj2 (entry_for_true a e)) in Hf by done. done.
Qed.

(** What [arp_add_entry] does: nothing, or write one slot that no other valid
    entry for the address competes with. *)
Lemma arp_add_entry_cases a mac t :
  table_ok t →
  (arp_add_entry a mac t = t ∧ (a = 0 ∨ a = IP_BROADCAST ∨ arp_mac_is_unusable mac = true)) ∨
  (a ≠ 0 ∧ a ≠ IP_BROADCAST ∧ arp_mac_is_unusable mac = false ∧
   ∃ i e, t !! i = Some e ∧ arp_add_entry a mac t = <[i := mkArpEntry a mac true]> t ∧
     (∀ j e', j ≠ i → t !! j = Some e' → e_valid e' = true → e_ip e' ≠ a) ∧
     (e_valid e = true → e_ip e = a ∨
        (i = 0%nat ∧ Forall (λ e, e_valid e = true) t))).
Proof.
  intros [Hlen _ Hu]. unfold arp_add_entry.
  destruct (Z.eqb_spec a 0); [left; auto|]. destruct (Z.eqb_spec a IP_BROADCAST); [left; auto|].
  destruct (arp_mac_is_unusable mac); simpl; [left; auto|right]. do 3 (split; [done|]).
  destruct (find_entry (entry_for a) t 0) as [k|] eqn:E.
  - destruct (find_entry_Some _ _ _ _ E) as (i & e & -> & Hi & [Hv Hip]%entry_for_true & _).
    exists i, e. split; [done|]. split; [|split; [|auto]].
    + simpl. rewrite list_insert_alter. apply list_alter_ext; [|done].
      intros x Hx. simplify_eq. by rewrite Hv.
    + intros j e' Hne Hj Hv' Hip'. apply Hne. eapply Hu; eauto; congruence.
  - assert (Hno : ∀ j e', t !! j = Some e' → e_valid e' = true → e_ip e' ≠ a).
    { intros j e' Hj Hv Hip. pose proof (find_entry_None _ _ _ E j e' Hj) as Hf.
      by rewrite (proj2 (entry_for_true a e')) in Hf. }
    destruct (find_entry (λ e, negb (e_valid e)) t 0) as [k|] eqn:E2.
    + destruct (find_entry_Some _ _ _ _ E2) as (i & e & -> & Hi & Hf & _).
      exists i, e. split; [done|]. split; [done|]. split; [eauto|].
      intros Hv. rewrite Hv in Hf. done.
    + destruct t as [|e t]; [done|]. exists 0%nat, e. split; [done|]. split; [done|]. split; [eauto|].
      intros _. right. split; [done|]. apply Forall_lookup. intros j e' Hj.
      pose proof (find_entry_None _ _ _ E2 j e' Hj) as Hf. simpl in Hf. by destruct (e_valid e').
Qed.

Lemma arp_add_entry_ok a mac t :
  table_ok t → mac_ok mac → 0 <= a < 2 ^ 32 → table_ok (arp_add_entry a mac t).
Proof.
  intros Ht Hm Ha.
  destruct (arp_add_entry_cases a mac t Ht) as [[-> _]|(H0 & Hb & Hun & i & e & Hi & -> & Hno & _)]; [done|].
  destruct Ht as [Hlen He Hu]. split.
  - by rewrite length_insert.
  - apply Forall_insert; [done|]. split; [done|]. split; [done|]. done.
  - intros j1 j2 e1 e2. pose proof (lookup_lt_Some _ _ _ Hi).
    rewrite !list_lookup_insert_Some. intros [(-> & <- & _)|[? ?]] [(-> & <- & _)|[? ?]]; simpl;
      intros; [done|exfalso; eapply Hno; eauto; congruence..|eapply Hu; eauto].
Qed.

Lemma arp_add_entry_lookup a mac t :
  table_ok t → a ≠ 0 → a ≠ IP_BROADCAST → arp_mac_is_unusable mac = false → mac_ok mac →
  0 <= a < 2 ^ 32 → arp_lookup a (arp_add_entry a mac t) = Some mac.
Proof.
  intros Ht H0 Hb Hun Hm Ha. pose proof (arp_add_entry_ok a mac t Ht Hm Ha) as [_ _ Hu].
  apply arp_lookup_iff; [done|done|].
  destruct (arp_add_entry_cases a mac t Ht) as [[_ ?]|(_ & _ & _ & i & e & Hi & -> & _)]; [destruct_or?; congruence|].
  exists i, (mkArpEntry a mac true). rewrite list_lookup_insert_eq by (by eapply lookup_lt_Some). done.
Qed.

(** Learning an address disturbs another one only by evicting slot 0 of a full table. *)
Lemma arp_add_entry_other a mac t b :
  table_ok t → mac_ok mac → 0 <= a < 2 ^ 32 → b ≠ a → b ≠ 0 →
  arp_lookup b (arp_add_entry a mac t) = arp_lookup b t ∨
  (Forall (λ e, e_valid e = true) t ∧ ∃ e, t !! 0%nat = Some e ∧ e_ip e = b).
Proof.
  intros Ht Hm Ha Hne Hb0. pose proof (arp_add_entry_ok a mac t Ht Hm Ha) as [_ _ Hu'].
  destruct (arp_add_entry_cases a mac t Ht) as [[-> _]|(H0 & Hb & Hun & i & e & Hi & E & Hno & Hev)]; [by left|].
  destruct Ht as [Hlen _ Hu].
  destruct (decide (e_valid e = true ∧ e_ip e = b)) as [[Hv Hip]|Hkeep].
  { destruct (Hev Hv) as [|[-> Hfull]]; [congruence|]. right. eauto. }
  left. apply option_eq. intros m. rewrite !arp_lookup_iff by done. rewrite E. split.
  - intros (j & e' & Hj & Hv & Hip & Hm'). apply list_lookup_insert_Some in Hj as [(-> & <- & _)|[? ?]];
      [simpl in *; congruence|eauto 10].
  - intros (j & e' & Hj & Hv & Hip & Hm'). exists j, e'. split; [|done].
    rewrite list_lookup_insert_ne; [done|]. intros ->. rewrite Hi in Hj. simplify_eq. by destruct Hkeep.
Qed.

(** The host's identity, which no transmission changes. *)
Definition same_host (e e' : Eth) : Prop :=
  g_net_config (net e') = g_net_config (net e) ∧ hw_mac (net e') = hw_mac (net e) ∧
  g_active_nic (net e') = g_active_nic (net e).

Lemma same_host_refl e : same_host e e.
Proof. done. Qed.

Lemma arp_packet_length op smac sip tmac tip :
  length smac = 6%nat → length tmac = 6%nat → length (arp_packet op smac sip tmac tip) = 28%nat.
Proof. intros H1 H2. unfold arp_packet. rewrite !length_app, !le_bytes_length, H1, H2. done. Qed.

Lemma net_get_mac_length e : eth_wf e → length (net_get_mac (net e)) = 6%nat.
Proof.
  intros [_ [Hm _] _]. unfold net_get_mac, nic_get_mac.
  by destruct (g_active_nic (net e)); rewrite ?length_replicate.
Qed.

Lemma arp_send_spec op smac sip tmac tip dst e :
  eth_wf e → length smac = 6%nat → length tmac = 6%nat → mac_ok dst → eth_mac_is_zero dst = false →
  ∃ r e', ethernet_send dst ETH_TYPE_ARP (arp_packet op smac sip tmac tip) ARP_PACKET_SIZE e = Ok (r, e') ∧
    eth_wf e' ∧ same_host e e' ∧
    tx (net e') = tx (net e) ++ [eth_frame dst (hw_mac (net e)) ETH_TYPE_ARP (arp_packet op smac sip tmac tip)].
Proof.
  intros Hwf Hs Ht Hd Hz. pose proof (arp_packet_length op smac sip tmac tip Hs Ht) as Hl.
  destruct (ethernet_send_spec dst ETH_TYPE_ARP (arp_packet op smac sip tmac tip) e)
    as (r & e' & E & Hwf' & Htx & _ & _ & H); [done..|rewrite Hl; done|].
  rewrite Hl in E. exists r, e'. split; [exact E|]. split; [done|]. split; [done|]. done.
Qed.

Lemma arp_send_request_spec a e :
  eth_wf e → ∃ e', arp_send_request a e = Ok e' ∧ eth_wf e' ∧ same_host e e'.
Proof.
  intros Hwf. unfold arp_send_request. destruct (_ || _); [eauto using same_host_refl|].
  destruct (arp_send_spec ARP_OP_REQUEST (net_get_mac (net e)) (net_get_ip (net e)) (replicate 6 0) a
    ETH_BROADCAST_MAC e) as (r & e' & -> & ? & ? & _);
    [done|by apply net_get_mac_length|done|apply broadcast_mac_ok|done|]. simpl. eauto.
Qed.

Lemma arp_send_reply_spec a mac e :
  eth_wf e → mac_ok mac → ∃ e', arp_send_reply a mac e = Ok e' ∧ eth_wf e' ∧ same_host e e'.
Proof.
  intros Hwf Hm. unfold arp_send_reply. destruct (a =? 0); [eauto using same_host_refl|].
  destruct (arp_mac_is_unusable mac) eqn:Hu; [eauto using same_host_refl|]. simpl.
  destruct (arp_send_spec ARP_OP_REPLY (net_get_mac (net e)) (net_get_ip (net e)) mac a mac e)
    as (r & e' & -> & ? & ? & _); [done|by apply net_get_mac_length|apply Hm|done| |].
  { unfold arp_mac_is_unusable in Hu. by apply orb_false_iff in Hu as [? _]. }
  simpl. eauto.
Qed.

(** [arp_receive] copes with any bytes: it never reads outside the packet, keeps
    the table well formed, and leaves the host's identity and inbox alone. *)
Lemma arp_receive_spec data a :
  arp_wf a → bytes data →
  ∃ a', arp_receive data (Z.of_nat (length data)) a = Ok a' ∧ arp_wf a' ∧
    same_host (eth a) (eth a') ∧ inbox a' = inbox a ∧
    arp_waiting a' = arp_waiting a ∧ arp_waiting_ip a' = arp_waiting_ip a.
Proof.
  intros Hwf Hb. pose proof Hwf as [He Ht Hw Hin Hip]. unfold arp_receive, ARP_PACKET_SIZE.
  destruct (Z.ltb_spec (Z.of_nat (length data)) 28).
  { exists a. split; [done|]. done. }
  destruct (ld16_bytes data 0) as (v1 & -> & _); [done|lia..|]. simpl.
  destruct (ld16_bytes data 2) as (v2 & -> & _); [done|lia..|]. simpl.
  rewrite !(arr_get_in _ _ 0) by lia. simpl.
  destruct (_ || _ || _ || _); [exists a; split; [done|]; done|].
  destruct (ld16_bytes data 6) as (v3 & -> & _); [done|lia..|]. simpl.
  destruct (view_bytes data 8 6) as (smac & -> & Hsb & Hsl); [done|lia..|]. simpl.
  assert (Hsm : mac_ok smac) by (split; [lia|done]).
  destruct (ld32_bytes data 14) as (sip & -> & Hsip); [done|lia..|]. simpl.
  destruct (ld32_bytes data 24) as (tip & -> & Htip); [done|lia..|]. simpl.
  set (a2 := if _ && (sip =? _) then _ else _).
  assert (H2 : arp_wf a2 ∧ eth a2 = eth a ∧ inbox a2 = inbox a ∧
    arp_waiting a2 = arp_waiting a ∧ arp_waiting_ip a2 = arp_waiting_ip a).
  { pose proof (arp_add_entry_ok sip smac _ Ht Hsm Hsip). unfold a2. by destruct (_ && _). }
  clearbody a2. destruct H2 as (Hwf2 & He2 & Hi2 & Hw2 & Hwi2).
  destruct (_ && _).
  - destruct (arp_send_reply_spec sip smac (eth a2)) as (e & -> & He' & Hsame); [by rewrite He2|done|].
    simpl. eexists. split; [done|]. simpl. rewrite <-He2. split; [|done].
    destruct Hwf2, Hsame as (Hc & _). split; simpl; try done. by rewrite Hc.
  - exists a2. rewrite He2. done.
Qed.

Lemma arp_deliver_spec ps : ∀ a,
  arp_wf a → Forall bytes ps →
  ∃ a', arp_deliver ps a = Ok a' ∧ arp_wf a' ∧ same_host (eth a) (eth a') ∧ inbox a' = inbox a ∧
    arp_waiting a' = arp_waiting a ∧ arp_waiting_ip a' = arp_waiting_ip a.
Proof.
  induction ps as [|p ps IH]; intros a Hwf Hps; simpl; [exists a; split; [done|]; done|].
  inversion_clear Hps. destruct (arp_receive_spec p a) as (a1 & -> & H1 & (S1 & S2 & S3) & H2 & H3 & H4); [done..|].
  simpl. destruct (IH a1) as (a2 & -> & G1 & (T1 & T2 & T3) & G2 & G3 & G4); [done..|].
  exists a2. split; [done|]. split; [done|]. split; [split; [|split]; congruence|]. split_and!; congruence.
Qed.

Lemma arp_wait_spec polls : ∀ a,
  arp_wf a → Forall (Forall bytes) polls →
  ∃ a', arp_wait polls a = Ok a' ∧ arp_wf a' ∧ same_host (eth a) (eth a').
Proof.
  induction polls as [|p polls IH]; intros a Hwf Hps; simpl; destruct (arp_resolved a).
  - eexists. split; [done|]. destruct Hwf. by split.
  - eexists. split; [done|]. destruct Hwf. by split.
  - eexists. split; [done|]. destruct Hwf. by split.
  - inversion_clear Hps. destruct (arp_deliver_spec p a) as (a1 & -> & H1 & (S1 & S2 & S3) & _); [done..|].
    simpl. destruct (IH a1) as (a2 & -> & G1 & (T1 & T2 & T3)); [done..|].
    exists a2. split; [done|]. split; [done|]. split; [|split]; congruence.
Qed.

Lemma arp_lookup_ok a t mac : table_ok t → arp_lookup a t = Some mac → mac_ok mac ∧ arp_mac_is_unusable mac = false.
Proof.
  intros [_ He Hu] Hl. destruct (decide (a = 0)) as [->|Ha]; [done|].
  apply arp_lookup_iff in Hl as (i & e & Hi & Hv & _ & <-); [|done..].
  destruct (Forall_lookup_1 _ _ _ _ He Hi) as (? & _ & Hx). by destruct (Hx Hv) as (_ & _ & ?).
Qed.

Lemma arp_resolve_spec a s :
  arp_wf s → 0 <= a < 2 ^ 32 →
  ∃ r s', arp_resolve a s = Ok (r, s') ∧ arp_wf s' ∧ same_host (eth s) (eth s') ∧
    (∀ mac, r = Some mac → mac_ok mac) ∧
    (a = IP_BROADCAST → r = Some ETH_BROADCAST_MAC ∧ s' = s) ∧
    (∀ mac, a ≠ IP_BROADCAST → arp_lookup a (arp_table s) = Some mac → r = Some mac ∧ s' = s).
Proof.
  intros Hwf Ha. unfold arp_resolve, arp_resolve_begin.
  destruct (Z.eqb_spec a 0) as [->|Ha0].
  { exists None, s. do 4 (split; [done|]). done. }
  destruct (Z.eqb_spec a IP_BROADCAST) as [->|Hab].
  { eexists _, s. do 3 (split; [done|]). split; [intros mac [= <-]; apply broadcast_mac_ok|done]. }
  destruct (arp_lookup a (arp_table s)) as [mac|] eqn:El; simpl.
  { eexists _, s. do 3 (split; [done|]). split; [|split; [done|]].
    - intros ? [= <-]. apply (arp_lookup_ok a (arp_table s)); [apply Hwf|done].
    - intros ? _ [= <-]. done. }
  destruct Hwf as [He Ht Hw Hin Hip].
  destruct (arp_send_request_spec a (eth s)) as (e & -> & He' & Hsame); [done|]. simpl.
  destruct (arp_wait_spec (inbox s) (with_eth e (with_wait true a (arp_waiting_mac s) false s)))
    as (s2 & -> & Hwf2 & Hs2); [|done|].
  { split; simpl; try done. by destruct Hsame as [-> _]. }
  simpl in *. eexists _, _. split; [done|]. split; [by destruct Hwf2|].
  split. { destruct Hsame as (?&?&?), Hs2 as (?&?&?). split; [|split]; simpl; congruence. }
  split; [|done]. intros mac. case_match; [|done]. intros [= <-]. apply Hwf2.
Qed.

(** [data] is an ARP packet for Ethernet and IPv4 in which [a] claims [mac]. *)
Definition announces (data : list Z) (a : Z) (mac : list Z) : Prop :=
  28 <= Z.of_nat (length data) ∧ take 6 data = [0; 1; 8; 0; 6; 4] ∧
  view data 8 6 = Ok mac ∧ ld32 data 14 = Ok a.

Lemma arp_header_bytes data v1 v2 :
  bytes data → 28 <= Z.of_nat (length data) → ld16 data 0 = Ok v1 → ld16 data 2 = Ok v2 →
  ntohs v1 = ARP_HW_ETHERNET → ntohs v2 = ETH_TYPE_IPV4 →
  nth 4 data 0 = 6 → nth 5 data 0 = 4 → take 6 data = [0; 1; 8; 0; 6; 4].
Proof.
  intros Hb Hl. do 6 (destruct data as [|? data]; [simpl in Hl; lia|]).
  unfold bytes in Hb. rewrite !Forall_cons in Hb. destruct_and! Hb. unfold ld16. simpl.
  intros [= <-] [= <-] G1 G2 -> ->. unfold ntohs, ARP_HW_ETHERNET, ETH_TYPE_IPV4 in *.
  rewrite htons_spec in G1, G2 by lia.
  assert (z = 0 ∧ z0 = 1) as [-> ->] by (clear G2; lia).
  assert (z1 = 8 ∧ z2 = 0) as [-> ->] by (clear G1; lia). done.
Qed.

Lemma arp_receive_resolved data a a' :
  bytes data → arp_receive data (Z.of_nat (length data)) a = Ok a' → arp_resolved a' = true →
  (arp_resolved a = true ∧ arp_waiting_mac a' = arp_waiting_mac a) ∨
  (arp_waiting a = true ∧ announces data (arp_waiting_ip a) (arp_waiting_mac a')).
Proof.
  intros Hb. unfold arp_receive, ARP_PACKET_SIZE.
  destruct (Z.ltb_spec (Z.of_nat (length data)) 28) as [|Hl]; [intros [= <-]; auto|].
  destruct (ld16_bytes data 0) as (v1 & E1 & _); [done|lia..|]. rewrite E1. simpl.
  destruct (ld16_bytes data 2) as (v2 & E2 & _); [done|lia..|]. rewrite E2. simpl.
  rewrite !(arr_get_in _ _ 0) by lia. simpl.
  destruct (_ || _ || _ || _) eqn:Ev; [intros [= <-]; auto|].
  apply orb_false_iff in Ev as [[[Ev1 Ev2]%orb_false_iff Ev3]%orb_false_iff Ev4].
  apply negb_false_iff, Z.eqb_eq in Ev1, Ev2, Ev3, Ev4.
  destruct (ld16_bytes data 6) as (v3 & -> & _); [done|lia..|]. simpl.
  destruct (view_bytes data 8 6) as (smac & Em & _); [done|lia..|]. rewrite Em. simpl.
  destruct (ld32_bytes data 14) as (sip & Es & _); [done|lia..|]. rewrite Es. simpl.
  destruct (ld32_bytes data 24) as (tip & -> & _); [done|lia..|]. simpl.
  assert (Hann : announces data sip smac) by (split; [done|]; split; [by eapply arp_header_bytes|done]).
  set (a2 := if _ && (sip =? _) then _ else _). intros E Hr.
  assert (arp_resolved a2 = true ∧ arp_waiting_mac a' = arp_waiting_mac a2) as [Hr2 Hm2].
  { clearbody a2. revert E. destruct (_ && _); [|by intros [= ->]].
    destruct (arp_send_reply sip smac (eth a2)); simpl; [|done..]. by intros [= <-]. }
  rewrite Hm2. clear E Hm2. unfold a2 in *. clear a2. destruct (arp_waiting a) eqn:Ew; [|auto].
  simpl in *. destruct (Z.eqb_spec sip (arp_waiting_ip a)); simpl in *; [subst; auto|auto].
Qed.

(** A resolution in progress has only been answered by packets in [S]. *)
Definition answered_by (S : list Z → Prop) (a : Arp) : Prop :=
  arp_resolved a = true → ∃ p, S p ∧ announces p (arp_waiting_ip a) (arp_waiting_mac a).

Lemma arp_deliver_answered S ps : ∀ a a',
  arp_wf a → Forall bytes ps → Forall S ps → arp_deliver ps a = Ok a' →
  answered_by S a → answered_by S a'.
Proof.
  induction ps as [|p ps IH]; intros a a' Hwf Hps HS E Ha; simpl in E; [by simplify_eq|].
  inversion_clear Hps as [|? ? Hp Hps']. inversion_clear HS as [|? ? Hp' HS'].
  destruct (arp_receive_spec p a) as (a1 & E1 & Hwf1 & _ & _ & _ & Hi1); [done..|].
  rewrite E1 in E. simpl in E. eapply IH; try done. intros Hr.
  destruct (arp_receive_resolved p a a1 Hp E1 Hr) as [[Hr0 Hm]|[_ Hann]]; rewrite Hi1.
  - rewrite Hm. by apply Ha.
  - by exists p.
Qed.

Lemma arp_wait_answered S polls : ∀ a a',
  arp_wf a → Forall (Forall bytes) polls → Forall (Forall S) polls → arp_wait polls a = Ok a' →
  answered_by S a → answered_by S a' ∧ arp_waiting_ip a' = arp_waiting_ip a.
Proof.
  induction polls as [|p polls IH]; intros a a' Hwf Hps HS E Ha; simpl in E;
    destruct (arp_resolved a) eqn:Er; try (by simplify_eq).
  inversion_clear Hps as [|? ? Hp Hps']. inversion_clear HS as [|? ? Hp' HS'].
  destruct (arp_deliver_spec p a) as (a1 & E1 & Hwf1 & _ & _ & _ & Hi1); [done..|].
  rewrite E1 in E. simpl in E.
  destruct (IH a1 a') as [H1 H2]; try done; [by apply (arp_deliver_answered S p a)|]. split; [done|congruence].
Qed.

Lemma arp_resolve_answered a s mac s' :
  arp_wf s → 0 <= a < 2 ^ 32 → arp_resolve a s = Ok (Some mac, s') →
  (a = IP_BROADCAST ∧ mac = ETH_BROADCAST_MAC) ∨ arp_lookup a (arp_table s) = Some mac ∨
  (∃ batch p, batch ∈ inbox s ∧ p ∈ batch ∧ announces p a mac).
Proof.
  intros Hwf Ha. unfold arp_resolve, arp_resolve_begin.
  destruct (Z.eqb_spec a 0) as [->|Ha0]; [done|].
  destruct (Z.eqb_spec a IP_BROADCAST) as [->|Hab]; simpl; [intros; simplify_eq; auto|].
  destruct (arp_lookup a (arp_table s)) as [m|] eqn:El; simpl; [intros; simplify_eq; auto|].
  destruct Hwf as [He Ht Hw Hin Hip].
  destruct (arp_send_request_spec a (eth s)) as (e & -> & He' & Hsame); [done|]. simpl.
  set (s1 := with_eth e _). assert (Hwf1 : arp_wf s1).
  { split; simpl; try done. by destruct Hsame as [-> _]. }
  destruct (arp_wait_spec (inbox s) s1) as (s2 & E & _); [done..|]. rewrite E. simpl.
  destruct (arp_wait_answered (λ p, ∃ batch, batch ∈ inbox s ∧ p ∈ batch) (inbox s) s1 s2)
    as [Hans Hwip]; try done.
  { apply Forall_forall. intros b Hb. apply Forall_forall. eauto. }
  unfold arp_resolve_end. destruct (arp_resolved s2) eqn:Er; [|done]. intros. simplify_eq.
  destruct (Hans Er) as (p & (batch & Hb & Hp) & Hann). rewrite Hwip in Hann. right. right. eauto.
Qed.

(** * Properties *)


Definition sample_mac (k : Z) : list Z := [2; 0; 0; 0; 0; k].
Definition no_entry : ArpEntry := mkArpEntry 0 (replicate 6 0) false.

(** A host with an e1000 at 10.0.0.1/24, an ARP table and pending ARP traffic. *)
Definition sample_arp (table : list ArpEntry) (polls : list (list (list Z))) : Arp :=
  mkArp (mkEth (mkNet (mkNetConfig 0x0100000A 0x00FFFFFF 0 0 true) NIC_E1000 (sample_mac 1) [true; true] [])
           (replicate 1600 0))
    table false 0 (replicate 6 0) false polls.

Lemma sample_mac_ok k : 0 <= k < 2 ^ 8 → mac_ok (sample_mac k).
Proof. intros. split; [done|]. repeat (constructor; [lia|]). constructor. Qed.

Lemma zero_mac_ok : mac_ok (replicate 6 0).
Proof. split; [done|]. by apply Forall_replicate. Qed.

Lemma sample_arp_wf e polls :
  entry_ok e → Forall (Forall bytes) polls → arp_wf (sample_arp (e :: replicate 31 no_entry) polls).
Proof.
  intros He Hp. split.
  - split; [apply length_replicate|by apply sample_mac_ok|done].
  - split; [done| |].
    + apply Forall_cons. split; [done|]. apply Forall_replicate. split; [apply zero_mac_ok|]. split; [simpl; lia|done].
    + assert (Hv : ∀ i x, (e :: replicate 31 no_entry) !! i = Some x → e_valid x = true → i = 0%nat).
      { intros [|i] x Hi Hx; [done|]. change (replicate 31 no_entry !! i = Some x) in Hi.
        apply lookup_replicate in Hi as [-> _]. done. }
      intros i j e1 e2 H1 H2 V1 V2 _. by rewrite (Hv i e1 H1 V1), (Hv j e2 H2 V2).
  - apply zero_mac_ok.
  - done.
  - done.
Qed.

Definition sample_reply : list Z := arp_packet ARP_OP_REPLY (sample_mac 2) 0x0200000A (sample_mac 1) 0x0100000A.

