(* ===== verification/Ipv4.v ===== *)
(** IPv4 (src/net/ipv4.cpp): the Internet checksum, header construction and
    validation, next-hop choice, and dispatch to the transport protocols. *)

From S2P Require Import Prelude Wire Ethernet Arp.

(** * Model *)

Definition IP_PROTO_ICMP : Z := 1.
Definition IP_PROTO_TCP : Z := 6.
Definition IP_PROTO_UDP : Z := 17.
Definition IPV4_HEADER_SIZE : Z := 20.
Definition IPV4_DEFAULT_TTL : Z := 64.

(** [while (length > 1) { sum += *ptr++; length -= 2; }]; [ptr] is a byte offset. *)
Definition sum_words (data : list Z) (length : Z) : res (Z * Z * Z) :=
  loop (S (Z.to_nat length))
    (λ '(sum, ptr, length),
       if 1 <? length then
         w ← ld16 data ptr; Ok (inl (u32 (sum + w), ptr + 2, u16 (length - 2)))
       else Ok (inr (sum, ptr, length)))
    (0, 0, length).

(** [while (sum >> 16) sum = (sum & 0xFFFF) + (sum >> 16);] — two rounds at most. *)
Definition fold_sum (sum : Z) : res Z :=
  loop 4 (λ sum,
    if Z.shiftr sum 16 =? 0 then Ok (inr sum)
    else Ok (inl (u32 (Z.land sum 0xFFFF + Z.shiftr sum 16)))) sum.

Definition ipv4_checksum (data : list Z) (length : Z) : res Z :=
  '(sum, ptr, rest) ← sum_words data length;
  sum' ← (if 0 <? rest then b ← arr_get data ptr; Ok (u32 (sum + b)) else Ok sum);
  folded ← fold_sum sum';
  Ok (u16 (Z.lnot folded)).

Definition ip_make (a b c d : Z) : Z :=
  Z.lor (Z.lor (Z.lor a (Z.shiftl b 8)) (Z.shiftl c 16)) (Z.shiftl d 24).

(** [append_num] and [ip_format]: dotted decimal, as characters. *)
Definition append_num (n : Z) : list Z :=
  (if 100 <=? n then [48 + n / 100] else []) ++
  (if 10 <=? n then [48 + (n / 10) mod 10] else []) ++ [48 + n mod 10].

Definition ip_format (a : Z) : list Z :=
  append_num (Z.land a 0xFF) ++ [46] ++ append_num (Z.land (Z.shiftr a 8) 0xFF) ++ [46] ++
  append_num (Z.land (Z.shiftr a 16) 0xFF) ++ [46] ++ append_num (Z.land (Z.shiftr a 24) 0xFF) ++ [0].

(** Where [ipv4_receive] hands a packet. *)
Inductive ip_dispatch :=
  | ToIcmp (payload : list Z) (src_ip : Z)
  | ToUdp (payload : list Z) (src_ip dst_ip : Z)
  | ToTcp (payload : list Z) (src_ip dst_ip : Z)
  | IpDrop.

Definition ipv4_receive (our_ip : Z) (data : list Z) (length : Z) : res ip_dispatch :=
  if length <? IPV4_HEADER_SIZE then Ok IpDrop
  else
    ihl_version ← arr_get data 0;
    let version := Z.land (Z.shiftr ihl_version 4) 0x0F in
    if negb (version =? 4) then Ok IpDrop
    else
    let ihl := u8 (Z.land ihl_version 0x0F * 4) in
    if (ihl <? 20) || (length <? ihl) then Ok IpDrop
    else
    orig_checksum ← ld16 data 10;
    good ← (if orig_checksum =? 0 then Ok true
            else
              copy ← blit (replicate 60 0) 0 data 0 ihl;
              copy' ← st16 copy 10 0;
              c ← ipv4_checksum copy' ihl;
              Ok (c =? orig_checksum));
    if negb good then Ok IpDrop
    else
    dst_ip ← ld32 data 16;
    if negb (dst_ip =? our_ip) && negb (dst_ip =? IP_BROADCAST)
       && negb (Z.land dst_ip 0xFF000000 =? 0xFF000000) then Ok IpDrop
    else
    tl ← ld16 data 2;
    let total_length := ntohs tl in
    if (total_length <? ihl) || (length <? total_length) then Ok IpDrop
    else
    let payload_len := u16 (total_length - ihl) in
    payload ← view data ihl payload_len;
    protocol ← arr_get data 9;
    src_ip ← ld32 data 12;
    Ok (if protocol =? IP_PROTO_ICMP then ToIcmp payload src_ip
        else if protocol =? IP_PROTO_UDP then ToUdp payload src_ip dst_ip
        else if protocol =? IP_PROTO_TCP then ToTcp payload src_ip dst_ip
        else IpDrop).

(** The network layer with its static transmit buffer. *)
Record Ip := mkIp { arp : Arp; ip_id_counter : Z; ip_tx_buffer : list Z }.

Definition ip_net (s : Ip) : Net := net (eth (arp s)).

(** The address whose MAC the packet is sent to. *)
Definition next_hop (n : Net) (dst_ip : Z) : Z :=
  if dst_ip =? IP_BROADCAST then dst_ip
  else if Z.land dst_ip (net_get_netmask n) =? Z.land (net_get_ip n) (net_get_netmask n) then dst_ip
  else if negb (net_get_gateway n =? 0) then net_get_gateway n
  else dst_ip.

(** The header and payload, field by field, into the transmit buffer. *)
Definition build_packet (buf : list Z) (id our_ip dst_ip protocol : Z) (data : list Z) (length : Z)
    : res (list Z) :=
  b ← st8 buf 0 0x45;
  b ← st8 b 1 0;
  b ← st16 b 2 (htons (u16 (IPV4_HEADER_SIZE + length)));
  b ← st16 b 4 (htons id);
  b ← st16 b 6 0;
  b ← st8 b 8 IPV4_DEFAULT_TTL;
  b ← st8 b 9 protocol;
  b ← st16 b 10 0;
  b ← st32 b 12 our_ip;
  b ← st32 b 16 dst_ip;
  c ← ipv4_checksum b IPV4_HEADER_SIZE;
  b ← st16 b 10 c;
  blit b IPV4_HEADER_SIZE data 0 length.

Definition ipv4_send (dst_ip protocol : Z) (data : list Z) (length : Z) (s : Ip) : res (bool * Ip) :=
  if dst_ip =? 0 then Ok (false, s)
  else if 1480 <? length then Ok (false, s)
  else
    '(r, a) ← arp_resolve (next_hop (ip_net s) dst_ip) (arp s);
    let s1 := mkIp a (ip_id_counter s) (ip_tx_buffer s) in
    match r with
    | None => Ok (false, s1)
    | Some dst_mac =>
        b ← build_packet (ip_tx_buffer s1) (ip_id_counter s1) (net_get_ip (ip_net s1)) dst_ip protocol data length;
        packet ← view b 0 (IPV4_HEADER_SIZE + length);
        '(ok, e) ← ethernet_send dst_mac ETH_TYPE_IPV4 packet (IPV4_HEADER_SIZE + length) (eth (arp s1));
        Ok (ok, mkIp (with_eth e (arp s1)) (u16 (ip_id_counter s1 + 1)) b)
    end.

(** * Specification *)

(** The sum of the little-endian words of a buffer, an odd last byte included. *)
Fixpoint word_sum (l : list Z) : Z :=
  match l with
  | a :: b :: l' => a + 2 ^ 8 * b + word_sum l'
  | [a] => a
  | [] => 0
  end.

(** One's complement folding of a sum to 16 bits. *)
Definition ones_fold (s : Z) : Z := if s =? 0 then 0 else (s - 1) mod 65535 + 1.

(** * Lemmas: the checksum *)

Lemma word_sum_range l : bytes l → 0 <= word_sum l <= 2 ^ 15 * Z.of_nat (length l) + 2 ^ 15.
Proof.
  assert (∀ n l, (length l <= n)%nat → bytes l → 0 <= word_sum l <= 2 ^ 15 * Z.of_nat (length l) + 2 ^ 15) as H.
  { clear. induction n as [|n IH]; intros [|a [|b l]] Hn Hb; simpl in *; try lia.
    - unfold bytes in Hb. rewrite Forall_singleton in Hb. lia.
    - unfold bytes in Hb. rewrite !Forall_cons in Hb. destruct Hb as (? & ? & Hb).
      specialize (IH l ltac:(lia) Hb). lia. }
  intros. by apply (H (length l)).
Qed.

Lemma fold_sum_spec s : 0 <= s < 2 ^ 32 → fold_sum s = Ok (ones_fold s).
Proof.
  intros Hs.
  assert (Hstop : ∀ k s, 0 <= s < 2 ^ 16 → loop (S k) (λ sum,
    if Z.shiftr sum 16 =? 0 then Ok (inr sum)
    else Ok (inl (u32 (Z.land sum 0xFFFF + Z.shiftr sum 16)))) s = Ok (ones_fold s)).
  { intros k t Ht. cbn [loop]. rewrite Z.shiftr_div_pow2 by lia.
    rewrite (Z.div_small t) by lia. cbn [Z.eqb]. step. unfold ones_fold. f_equal.
    destruct (Z.eqb_spec t 0); [done|]. rewrite Z.mod_small by lia. lia. }
  assert (Hstep : ∀ k t, 2 ^ 16 <= t < 2 ^ 32 → loop (S k) (λ sum,
    if Z.shiftr sum 16 =? 0 then Ok (inr sum)
    else Ok (inl (u32 (Z.land sum 0xFFFF + Z.shiftr sum 16)))) t =
    loop k (λ sum, if Z.shiftr sum 16 =? 0 then Ok (inr sum)
    else Ok (inl (u32 (Z.land sum 0xFFFF + Z.shiftr sum 16)))) (t mod 2 ^ 16 + t / 2 ^ 16) ∧
    ones_fold t = ones_fold (t mod 2 ^ 16 + t / 2 ^ 16) ∧ 0 < t mod 2 ^ 16 + t / 2 ^ 16 <= 2 ^ 17 - 2).
  { intros k t Ht. change 0xFFFF with (Z.ones 16). split; [|split].
    - cbn [loop]. rewrite Z.shiftr_div_pow2, Z.land_ones by lia.
      destruct (Z.eqb_spec (t / 2 ^ 16) 0); [lia|]. step. by rewrite u32_small by lia.
    - unfold ones_fold. destruct (Z.eqb_spec t 0), (Z.eqb_spec (t mod 2 ^ 16 + t / 2 ^ 16) 0); lia.
    - lia. }
  unfold fold_sum. destruct (decide (s < 2 ^ 16)); [apply (Hstop 3%nat); lia|].
  destruct (Hstep 3%nat s) as (-> & -> & Hr1); [lia|]. set (s1 := s mod 2 ^ 16 + s / 2 ^ 16) in *.
  clearbody s1. destruct (decide (s1 < 2 ^ 16)); [apply (Hstop 2%nat); lia|].
  assert (0 <= s1 mod 2 ^ 16 + s1 / 2 ^ 16 < 2 ^ 16) by lia.
  destruct (Hstep 2%nat s1) as (-> & -> & Hr2); [lia|]. apply (Hstop 1%nat). lia.
Qed.

Lemma ones_fold_range s : 0 <= ones_fold s <= 65535.
Proof.
  unfold ones_fold. destruct (s =? 0); [lia|].
  pose proof (Z.mod_pos_bound (s - 1) 65535 ltac:(lia)). lia.
Qed.

Lemma drop_take_cons (data : list Z) ptr n :
  0 <= ptr → ptr < n → n <= Z.of_nat (length data) →
  drop (Z.to_nat ptr) (take (Z.to_nat n) data) =
    nth (Z.to_nat ptr) data 0 :: drop (Z.to_nat (ptr + 1)) (take (Z.to_nat n) data).
Proof.
  intros. replace (Z.to_nat (ptr + 1)) with (S (Z.to_nat ptr)) by lia.
  apply drop_S. rewrite lookup_take_lt by lia. apply lookup_nth_in. lia.
Qed.

Lemma sum_words_spec data n :
  bytes (take (Z.to_nat n) data) → 0 <= n < 2 ^ 16 → n <= Z.of_nat (length data) →
  ∃ sum ptr rest, sum_words data n = Ok (sum, ptr, rest) ∧ 0 <= rest <= 1 ∧ ptr + rest = n ∧
    0 <= ptr ∧ 0 <= sum ∧
    sum + word_sum (drop (Z.to_nat ptr) (take (Z.to_nat n) data)) = word_sum (take (Z.to_nat n) data).
Proof.
  intros Hall Hn Hl.
  assert (Hb : ∀ i, 0 <= i < n → 0 <= nth (Z.to_nat i) data 0 < 2 ^ 8).
  { intros i Hi. pose proof (nth_bytes _ (Z.to_nat i) Hall) as H.
    by rewrite nth_lookup, lookup_take_lt, <-nth_lookup in H by lia. }
  set (all := take (Z.to_nat n) data) in *.
  assert (HT : 0 <= word_sum all < 2 ^ 32).
  { pose proof (word_sum_range all Hall). subst all. rewrite length_take in *. lia. }
  unfold sum_words.
  edestruct (loop_rule
    (λ '(sum, ptr, len), ptr + len = n ∧ 0 <= ptr ∧ 0 <= len ∧ 0 <= sum ∧
       sum + word_sum (drop (Z.to_nat ptr) all) = word_sum all)
    (λ '(sum, ptr, len), 0 <= len <= 1 ∧ ptr + len = n ∧ 0 <= ptr ∧ 0 <= sum ∧
       sum + word_sum (drop (Z.to_nat ptr) all) = word_sum all)
    (λ '(_, _, len), Z.to_nat len)) as (r & E & Hpost); [| | |rewrite E].
  - intros [[sum ptr] len] (H1 & H2 & H3 & H4 & H5). destruct (Z.ltb_spec 1 len).
    2: { eexists. split; [done|]. simpl. lia. }
    unfold ld16. rewrite !(arr_get_in _ _ 0) by lia. simpl. eexists. split; [done|]. simpl.
    unfold all in H5. rewrite drop_take_cons, (drop_take_cons _ (ptr + 1)) in H5 by lia.
    fold all in H5. cbn [word_sum] in H5. replace (ptr + 1 + 1) with (ptr + 2) in H5 by lia.
    pose proof (Hb ptr ltac:(lia)). pose proof (Hb (ptr + 1) ltac:(lia)).
    pose proof (word_sum_range (drop (Z.to_nat (ptr + 2)) all) ltac:(by apply Forall_drop)) as [Hd _].
    rewrite u32_small, u16_small by lia. split; [|lia]. split; [lia|]. split; [lia|]. split; [lia|].
    split; [lia|]. lia.
  - simpl. rewrite drop_0. lia.
  - simpl. lia.
  - destruct r as [[sum ptr] rest]. exists sum, ptr, rest. split; [done|]. lia.
Qed.

Lemma ipv4_checksum_spec data n :
  bytes (take (Z.to_nat n) data) → 0 <= n < 2 ^ 16 → n <= Z.of_nat (length data) →
  ipv4_checksum data n = Ok (65535 - ones_fold (word_sum (take (Z.to_nat n) data))).
Proof.
  intros Hb Hn Hl. unfold ipv4_checksum.
  destruct (sum_words_spec data n) as (sum & ptr & rest & -> & Hr & Hp & Hp0 & Hs & HT); [done..|]. step.
  set (T := word_sum (take (Z.to_nat n) data)) in *.
  assert (HTr : 0 <= T < 2 ^ 32).
  { pose proof (word_sum_range (take (Z.to_nat n) data) Hb).
    unfold T. rewrite length_take in *. lia. }
  assert (Hfold : fold_sum T = Ok (ones_fold T)) by (by apply fold_sum_spec).
  assert (Hlast : (if 0 <? rest then b ← arr_get data ptr; Ok (u32 (sum + b)) else Ok sum) = Ok T).
  { destruct (Z.ltb_spec 0 rest).
    - rewrite (arr_get_in _ _ 0) by lia. simpl. rewrite drop_take_cons in HT by lia.
      rewrite (drop_ge _ (Z.to_nat (ptr + 1))) in HT by (rewrite length_take; lia). simpl in HT.
      rewrite u32_small by lia. f_equal. lia.
    - rewrite drop_ge in HT by (rewrite length_take; lia). simpl in HT. f_equal. lia. }
  rewrite Hlast. step. rewrite Hfold. step. f_equal.
  pose proof (ones_fold_range T) as Hf. clearbody T. generalize (ones_fold T), Hf. clear.
  intros f Hf. unfold u16, Z.lnot. lia.
Qed.

Lemma word_sum_app l1 l2 : Nat.Even (length l1) → word_sum (l1 ++ l2) = word_sum l1 + word_sum l2.
Proof.
  assert (∀ n l1, (length l1 <= n)%nat → Nat.Even (length l1) →
    word_sum (l1 ++ l2) = word_sum l1 + word_sum l2) as H.
  { clear. induction n as [|n IH]; intros [|a [|b l]] Hn He; simpl in *; try lia; [by destruct He; lia|].
    rewrite IH; [lia|lia|]. destruct He as [k Hk]. exists (k - 1)%nat. lia. }
  by apply (H (length l1)).
Qed.

(** A buffer whose checksum field holds the complement of the rest verifies. *)
Lemma ones_fold_complement T : 0 <= T → ones_fold (T + (65535 - ones_fold T)) = 65535.
Proof.
  intros HT. unfold ones_fold at 2. destruct (Z.eqb_spec T 0) as [->|]; [done|].
  unfold ones_fold. destruct (Z.eqb_spec (T + (65535 - ((T - 1) mod 65535 + 1))) 0); [lia|].
  pose proof (Z.div_mod (T - 1) 65535 ltac:(lia)) as E.
  replace (T + (65535 - ((T - 1) mod 65535 + 1)) - 1) with (65534 + ((T - 1) / 65535) * 65535) by lia.
  rewrite Z.mod_add by lia. done.
Qed.

Lemma word_sum_le_bytes v : 0 <= v < 2 ^ 16 → word_sum (le_bytes 2 v) = v.
Proof. intros. cbn [le_bytes word_sum]. lia. Qed.

(** The header the sender builds, with checksum field [c]. *)
Definition ip_header (total id protocol c src dst : Z) : list Z :=
  [0x45; 0] ++ be16 total ++ be16 id ++ [0; 0; 64] ++ le_bytes 1 protocol ++ le_bytes 2 c ++
  le_bytes 4 src ++ le_bytes 4 dst.

Lemma ip_header_length total id protocol c src dst : length (ip_header total id protocol c src dst) = 20%nat.
Proof. done. Qed.

Lemma ip_header_bytes total id protocol c src dst : bytes (ip_header total id protocol c src dst).
Proof.
  unfold bytes, ip_header, be16. rewrite !Forall_app.
  pose proof (bytes_le_bytes 1 protocol). pose proof (bytes_le_bytes 2 c). pose proof (bytes_le_bytes 4 src). pose proof (bytes_le_bytes 4 dst).
  repeat split; try done; repeat (constructor; [lia|]); constructor.
Qed.

Definition header_checksum (total id protocol src dst : Z) : Z :=
  65535 - ones_fold (word_sum (ip_header total id protocol 0 src dst)).

(** The packet on the wire. *)
Definition ip_packet (id protocol src dst : Z) (data : list Z) : list Z :=
  let total := 20 + Z.of_nat (length data) in
  ip_header total id protocol (header_checksum total id protocol src dst) src dst ++ data.

(** * Lemmas: sending *)

Lemma checksum_prefix p buf n :
  p `prefix_of` buf → bytes p → n = Z.of_nat (length p) → n < 2 ^ 16 →
  ipv4_checksum buf n = Ok (65535 - ones_fold (word_sum p)).
Proof.
  intros [t ->] Hb -> Hn. rewrite ipv4_checksum_spec; rewrite ?Nat2Z.id, ?take_app_length;
    [done|done|lia|rewrite length_app; lia].
Qed.

Lemma build_packet_spec buf id our_ip dst_ip protocol data :
  length buf = 1600%nat → 0 <= id < 2 ^ 16 → 0 <= protocol < 2 ^ 8 →
  (length data <= 1480)%nat →
  ∃ b, build_packet buf id our_ip dst_ip protocol data (Z.of_nat (length data)) = Ok b ∧
    length b = 1600%nat ∧ ip_packet id protocol our_ip dst_ip data `prefix_of` b.
Proof.
  intros L Hid Hp Hl. unfold build_packet, IPV4_HEADER_SIZE.
  set (total := 20 + Z.of_nat (length data)). assert (Htot : 0 <= total < 2 ^ 16) by (unfold total; lia).
  pose proof (prefix_nil buf) as P.
  repeat put_field.
  rewrite (u16_small total), !le_bytes_htons in * by done.
  set (h := ip_header total id protocol 0 our_ip dst_ip).
  assert (Ph : h `prefix_of` b8) by exact P. clear P.
  rewrite (checksum_prefix h b8 20) by (done || apply ip_header_bytes). step.
  set (c := header_checksum total id protocol our_ip dst_ip).
  change (65535 - ones_fold (word_sum h)) with c.
  destruct (st_patch_at 1600 (take 10 h) [0; 0] (drop 12 h) b8 10 (le_bytes 2 c)) as (b9 & -> & L9 & P9);
    [exact Ph|done|done|done|]. step.
  destruct (blit_at 1600 (ip_header total id protocol c our_ip dst_ip) b9 20 data (Z.of_nat (length data)))
    as (b10 & -> & L10 & P10); [exact P9|done|done|done|rewrite ip_header_length; lia|].
  eexists. split; [done|]. split; [done|]. exact P10.
Qed.

(** ** The network layer *)

Record ip_wf (s : Ip) : Prop := {
  ip_arp : arp_wf (arp s);
  ip_id : 0 <= ip_id_counter s < 2 ^ 16;
  ip_buf : length (ip_tx_buffer s) = 1600%nat;
  ip_cfg : 0 <= gateway (g_net_config (ip_net s)) < 2 ^ 32
}.

Lemma next_hop_range n d : 0 <= d < 2 ^ 32 → 0 <= gateway (g_net_config n) < 2 ^ 32 → 0 <= next_hop n d < 2 ^ 32.
Proof. intros. unfold next_hop, net_get_gateway. repeat case_match; lia. Qed.

(** Sending is total, keeps the host well formed, and when the next hop's address
    is known puts exactly the packet, framed to that address, on the wire. *)
Lemma ipv4_send_spec dst_ip protocol data s :
  ip_wf s → 0 <= dst_ip < 2 ^ 32 → 0 <= protocol < 2 ^ 8 → Z.of_nat (length data) < 2 ^ 16 →
  ∃ ok s', ipv4_send dst_ip protocol data (Z.of_nat (length data)) s = Ok (ok, s') ∧ ip_wf s' ∧
    same_host (eth (arp s)) (eth (arp s')) ∧
    ∀ mac, dst_ip ≠ 0 → Z.of_nat (length data) <= 1480 →
      arp_resolve (next_hop (ip_net s) dst_ip) (arp s) = Ok (Some mac, arp s) →
      eth_mac_is_zero mac = false →
      tx (ip_net s') = tx (ip_net s) ++
        [eth_frame mac (hw_mac (ip_net s)) ETH_TYPE_IPV4
           (ip_packet (ip_id_counter s) protocol (net_get_ip (ip_net s)) dst_ip data)] ∧
      ok = hd false (tx_results (ip_net s)).
Proof.
  intros Hwf Hd Hp Hl. pose proof Hwf as [Ha Hid Hb Hg]. unfold ipv4_send.
  destruct (Z.eqb_spec dst_ip 0); [eexists _, s; split; [done|]; done|].
  destruct (Z.ltb_spec 1480 (Z.of_nat (length data))); [eexists _, s; split; [done|]; split; [done|]; split; [done|]; lia|].
  destruct (arp_resolve_spec (next_hop (ip_net s) dst_ip) (arp s)) as (r & a' & Er & Ha' & Hs & Hm & _);
    [done|by apply next_hop_range|]. rewrite Er. step.
  assert (Hcfg : g_net_config (net (eth a')) = g_net_config (ip_net s)) by apply Hs.
  destruct r as [mac|].
  2: { eexists _, _. split; [done|]. split; [split; simpl; try done; unfold ip_net; simpl; by rewrite Hcfg|].
       split; [done|]. intros mac _ _ [=]. }
  destruct (build_packet_spec (ip_tx_buffer s) (ip_id_counter s) (net_get_ip (ip_net (mkIp a' (ip_id_counter s) (ip_tx_buffer s))))
    dst_ip protocol data) as (b & Eb & Lb & Pb); [done|done|done|lia|].
  simpl. rewrite Eb. step. unfold IPV4_HEADER_SIZE.
  set (pkt := ip_packet _ _ _ _ _) in *.
  assert (Hpl : length pkt = (20 + length data)%nat) by (unfold pkt, ip_packet; by rewrite length_app, ip_header_length).
  rewrite (prefix_take pkt b) by (done || lia). step.
  replace (20 + Z.of_nat (length data)) with (Z.of_nat (length pkt)) by lia.
  destruct (eth_mac_is_zero mac) eqn:Hz.
  { unfold ethernet_send. rewrite Hz. step. eexists _, _. split; [done|].
    split; [split; simpl; try done; [by destruct Ha'|unfold u16; lia|unfold ip_net; simpl; by rewrite Hcfg]|].
    split; [done|]. congruence. }
  destruct (ethernet_send_spec mac ETH_TYPE_IPV4 pkt (eth a')) as (ok & e & Ee & He & Htx & Hok & _ & Hc & Hh & Hn);
    [apply Ha'|by apply Hm|done|done|unfold ETH_DATA_LEN; lia|].
  rewrite Ee. step. eexists _, _. split; [done|]. split; [|split].
  - split; simpl; try done; [destruct Ha'; by split; simpl; rewrite ?Hc|unfold u16; lia|].
    unfold ip_net. simpl. by rewrite Hc, Hcfg.
  - destruct Hs as (?&?&?). split; [|split]; simpl; congruence.
  - intros mac' _ _ [= <- ->] _. unfold ip_net. simpl. done.
Qed.

(** * Lemmas: receiving *)

(** Whatever the bytes, [ipv4_receive] stays inside the packet, and what it passes
    on is part of it. *)
Definition ip_dispatch_ok (data : list Z) (d : ip_dispatch) : Prop :=
  match d with
  | ToIcmp p src => bytes p ∧ (length p + 20 <= length data)%nat ∧ 0 <= src < 2 ^ 32
  | ToUdp p src dst | ToTcp p src dst =>
      bytes p ∧ (length p + 20 <= length data)%nat ∧ 0 <= src < 2 ^ 32 ∧ 0 <= dst < 2 ^ 32
  | IpDrop => True
  end.

Lemma header_check_ok data ihl :
  bytes data → 20 <= ihl <= 60 → ihl <= Z.of_nat (length data) →
  ∃ copy, blit (replicate 60 0) 0 data 0 ihl = Ok copy ∧
  ∃ copy' c, st16 copy 10 0 = Ok copy' ∧ ipv4_checksum copy' ihl = Ok c.
Proof.
  intros Hb Hi Hl. assert (Hr : length (replicate 60 0) = 60%nat ∧ bytes (replicate 60 0)).
  { split; [done|by apply Forall_replicate]. }
  generalize (replicate 60 0), Hr. intros rep [Lr Br]. rewrite blit_spec by lia.
  eexists. split; [done|]. set (copy := _ ++ _). assert (Lc : length copy = 60%nat).
  { unfold copy. rewrite !length_app, !length_take, !length_drop. lia. }
  assert (Hc : bytes copy).
  { unfold copy, bytes. rewrite !Forall_app.
    split; [by apply Forall_take|]. split; [by apply Forall_take, Forall_drop|by apply Forall_drop]. }
  clearbody copy. unfold st16, st. change (Z.of_nat (length (le_bytes 2 0))) with 2.
  rewrite blit_spec by (simpl; lia). eexists _, _. split; [done|]. apply ipv4_checksum_spec.
  - apply Forall_take. unfold bytes. rewrite !Forall_app.
    split; [by apply Forall_take|]. split; [|by apply Forall_drop].
    apply Forall_take, Forall_drop, bytes_le_bytes.
  - lia.
  - rewrite !length_app, !length_take, !length_drop. rewrite le_bytes_length. lia.
Qed.

Lemma ihl_range b : 0 <= u8 (Z.land b 0x0F * 4) <= 60.
Proof.
  change 0x0F with (Z.ones 4). rewrite Z.land_ones by lia. unfold u8.
  rewrite Z.mod_small; [|pose proof (Z.mod_pos_bound b (2 ^ 4) ltac:(lia)); lia].
  pose proof (Z.mod_pos_bound b (2 ^ 4) ltac:(lia)). lia.
Qed.

Lemma ipv4_receive_total our_ip data :
  bytes data → Z.of_nat (length data) < 2 ^ 16 →
  ∃ d, ipv4_receive our_ip data (Z.of_nat (length data)) = Ok d ∧ ip_dispatch_ok data d.
Proof.
  intros Hb Hl. unfold ipv4_receive, IPV4_HEADER_SIZE.
  destruct (Z.ltb_spec (Z.of_nat (length data)) 20); [by exists IpDrop|].
  rewrite (arr_get_in data 0 0) by lia. step. set (b0 := nth _ data 0).
  destruct (negb _); [by exists IpDrop|].
  pose proof (ihl_range b0) as Hihl. set (ihl := u8 _) in *. clearbody ihl.
  destruct (Z.ltb_spec ihl 20); [by exists IpDrop|].
  destruct (Z.ltb_spec (Z.of_nat (length data)) ihl); [by exists IpDrop|]. cbn [orb].
  destruct (ld16_bytes data 10) as (oc & -> & _); [done|lia..|]. step.
  match goal with |- context [mbind _ (if oc =? 0 then ?A else ?B)] =>
    assert (∃ g, (if oc =? 0 then A else B) = Ok g) as [g ->] end.
  { destruct (oc =? 0); [by eexists|].
    destruct (header_check_ok data ihl) as (copy & E1 & copy' & c & E2 & E3); [done|lia|lia|].
    rewrite E1. step. rewrite E2. step. rewrite E3. by eexists. }
  step. destruct (negb g); [by exists IpDrop|].
  destruct (ld32_bytes data 16) as (dst & -> & Hdst); [done|lia..|]. step.
  destruct (_ && _); [by exists IpDrop|].
  destruct (ld16_bytes data 2) as (tl & -> & Htl); [done|lia..|]. step.
  assert (Htot : 0 <= ntohs tl < 2 ^ 16) by (by apply htons_range).
  set (total := ntohs tl) in *. clearbody total.
  destruct (Z.ltb_spec total ihl); [by exists IpDrop|].
  destruct (Z.ltb_spec (Z.of_nat (length data)) total); [by exists IpDrop|]. cbn [orb].
  rewrite u16_small by lia.
  destruct (view_bytes data ihl (total - ihl)) as (payload & -> & Hpb & Hpl); [done|lia..|]. step.
  rewrite (arr_get_in data 9 0) by lia. step.
  destruct (ld32_bytes data 12) as (src & -> & Hsrc); [done|lia..|]. step.
  eexists. split; [done|]. repeat case_match; simpl; try done; split_and!; done || lia.
Qed.

(** A packet built by a sender reaches the right protocol with its payload intact,
    whatever padding the link added after it. *)
Lemma ipv4_receive_packet our_ip id protocol src dst data pad :
  bytes data → 0 <= id < 2 ^ 16 → 0 <= protocol < 2 ^ 8 → 0 <= src < 2 ^ 32 → 0 <= dst < 2 ^ 32 →
  (length data <= 1480)%nat → (length pad <= 46)%nat → dst = our_ip ∨ dst = IP_BROADCAST →
  let pkt := ip_packet id protocol src dst data ++ pad in
  ipv4_receive our_ip pkt (Z.of_nat (length pkt)) =
    Ok (if protocol =? IP_PROTO_ICMP then ToIcmp data src
        else if protocol =? IP_PROTO_UDP then ToUdp data src dst
        else if protocol =? IP_PROTO_TCP then ToTcp data src dst else IpDrop).
Proof.
  intros Hb Hid Hp Hs Hd Hl Hpad Hto pkt.
  set (total := 20 + Z.of_nat (length data)). assert (Htot : 0 <= total < 2 ^ 16) by (unfold total; lia).
  set (c := header_checksum total id protocol src dst).
  assert (Hc : 0 <= c < 2 ^ 16).
  { unfold c, header_checksum. pose proof (ones_fold_range (word_sum (ip_header total id protocol 0 src dst))). lia. }
  assert (Epkt : pkt = ip_header total id protocol c src dst ++ data ++ pad).
  { unfold pkt, ip_packet. by rewrite <-(assoc_L (++)). }
  assert (Hlen : length pkt = (20 + length data + length pad)%nat).
  { rewrite Epkt, !length_app, ip_header_length. lia. }
  clearbody pkt. unfold ipv4_receive, IPV4_HEADER_SIZE.
  destruct (Z.ltb_spec (Z.of_nat (length pkt)) 20); [lia|].
  assert (H0 : arr_get pkt 0 = Ok 0x45) by (by rewrite Epkt). rewrite H0. step.
  change (negb (Z.land (Z.shiftr 0x45 4) 0x0F =? 4)) with false. cbv iota.
  change (u8 (Z.land 0x45 0x0F * 4)) with 20. change (20 <? 20) with false. cbn [orb].
  destruct (Z.ltb_spec (Z.of_nat (length pkt)) 20); [lia|].
  assert (H10 : ld16 pkt 10 = Ok c) by (rewrite Epkt; rewrite <-(le2_value c Hc) at 2; reflexivity).
  rewrite H10. step.
  assert (Hcopy : ∃ copy, blit (replicate 60 0) 0 pkt 0 20 = Ok copy ∧ length copy = 60%nat ∧
    ip_header total id protocol c src dst `prefix_of` copy).
  { rewrite blit_spec by (simpl; lia). eexists. split; [done|].
    rewrite Epkt. split; [done|]. by eexists. }
  destruct Hcopy as (copy & -> & Lc & Pc). step.
  destruct (st_patch_at 60 (take 10 (ip_header total id protocol c src dst)) (le_bytes 2 c)
    (drop 12 (ip_header total id protocol c src dst)) copy 10 (le_bytes 2 0)) as (copy' & E & Lc' & Pc');
    [exact Pc|done|done|done|]. unfold st16. rewrite E. step.
  assert (Pc2 : ip_header total id protocol 0 src dst `prefix_of` copy') by exact Pc'.
  rewrite (checksum_prefix _ copy' 20 Pc2) by (done || apply ip_header_bytes). step.
  change (65535 - ones_fold (word_sum (ip_header total id protocol 0 src dst))) with c.
  rewrite Z.eqb_refl. replace (if c =? 0 then Ok true else Ok true) with (Ok true) by (by case_match). step.
  assert (H16 : ld32 pkt 16 = Ok dst) by (rewrite Epkt; rewrite <-(le4_value dst Hd) at 2; reflexivity).
  rewrite H16. step. cbn [negb].
  replace (negb (dst =? our_ip) && negb (dst =? IP_BROADCAST) && negb (Z.land dst 4278190080 =? 4278190080))
    with false.
  2: { destruct Hto as [-> | ->]; rewrite Z.eqb_refl; cbn [negb andb]; [done|]. by rewrite andb_false_r. }
  assert (H2 : ld16 pkt 2 = Ok (htons total)).
  { rewrite Epkt, (be16_value total Htot). reflexivity. }
  rewrite H2. step. rewrite ntohs_htons by done.
  destruct (Z.ltb_spec total 20); [lia|]. destruct (Z.ltb_spec (Z.of_nat (length pkt)) total); [lia|]. cbn [orb].
  rewrite u16_small, view_drop by lia. step.
  assert (Hpay : take (Z.to_nat (total - 20)) (drop (Z.to_nat 20) pkt) = data).
  { rewrite Epkt. rewrite drop_app_length' by (by rewrite ip_header_length).
    apply take_app_length'. lia. }
  rewrite Hpay.
  assert (H9 : arr_get pkt 9 = Ok protocol).
  { rewrite Epkt. rewrite <-(Z.mod_small protocol (2 ^ 8) Hp) at 2. reflexivity. }
  assert (H12 : ld32 pkt 12 = Ok src) by (rewrite Epkt; rewrite <-(le4_value src Hs) at 2; reflexivity).
  rewrite H9. step. rewrite H12. step. done.
Qed.

(** The receive path of a host up to the transport protocols. *)
Definition receive_frame (our_mac : list Z) (our_ip : Z) (frame : list Z) : res ip_dispatch :=
  d ← ethernet_receive our_mac frame (Z.of_nat (length frame));
  match d with
  | ToIpv4 payload => ipv4_receive our_ip payload (Z.of_nat (length payload))
  | _ => Ok IpDrop
  end.

(** The transport payload as the receiving host sees it. *)
Definition ip_deliver (protocol : Z) (data : list Z) (src dst : Z) : ip_dispatch :=
  if protocol =? IP_PROTO_ICMP then ToIcmp data src
  else if protocol =? IP_PROTO_UDP then ToUdp data src dst
  else if protocol =? IP_PROTO_TCP then ToTcp data src dst else IpDrop.

(** One hop from [ipv4_send] to the peer's transport layer. *)
Lemma ip_hop_spec dst_ip protocol data s mac :
  ip_wf s → 0 < dst_ip < 2 ^ 32 → 0 <= protocol < 2 ^ 8 → bytes data → Z.of_nat (length data) <= 1480 →
  arp_resolve (next_hop (ip_net s) dst_ip) (arp s) = Ok (Some mac, arp s) → mac_ok mac → eth_mac_is_zero mac = false →
  ∃ ok s' frame, ipv4_send dst_ip protocol data (Z.of_nat (length data)) s = Ok (ok, s') ∧ ip_wf s' ∧
    tx (ip_net s') = tx (ip_net s) ++ [frame] ∧
    ∀ our_mac, mac_ok our_mac → mac = our_mac ∨ mac = ETH_BROADCAST_MAC →
    ∀ our_ip, dst_ip = our_ip ∨ dst_ip = IP_BROADCAST →
      receive_frame our_mac our_ip frame = Ok (ip_deliver protocol data (net_get_ip (ip_net s)) dst_ip).
Proof.
  intros Hwf Hd Hp Hb Hl Hr Hm Hz.
  destruct (ipv4_send_spec dst_ip protocol data s) as (ok & s' & E & Hwf' & _ & H); [done|lia|done|lia|].
  destruct (H mac) as [Htx _]; [lia|lia|done|done|].
  eexists ok, s', _. split; [done|]. split; [done|]. split; [done|].
  intros our_mac Hom Hto our_ip Hdst. unfold receive_frame.
  pose proof Hwf as [[[_ Hsm _] _ _ _ Hip] Hid _ _]. set (pkt := ip_packet _ _ _ _ _).
  assert (Hpl : length pkt = (20 + length data)%nat) by (unfold pkt, ip_packet; by rewrite length_app, ip_header_length).
  rewrite (ethernet_receive_spec our_mac mac (hw_mac (ip_net s)) ETH_TYPE_IPV4 pkt);
    [|done..|unfold ETH_DATA_LEN; lia|done]. step.
  change (ETH_TYPE_IPV4 =? ETH_TYPE_ARP) with false. change (ETH_TYPE_IPV4 =? ETH_TYPE_IPV4) with true. cbv iota.
  pose proof (ipv4_receive_packet our_ip (ip_id_counter s) protocol (net_get_ip (ip_net s)) dst_ip data
    (replicate (46 - length pkt) 0)) as Hrec.
  cbv zeta in Hrec. fold pkt in Hrec. rewrite Hrec;
    [done|done|done|done|done|lia|lia|rewrite length_replicate; lia|done].
Qed.

(** ** Damaged headers *)

(** Replaces the 16-bit word at offset [k]. *)
Definition corrupt (k : nat) (w : Z) (pkt : list Z) : list Z :=
  take k pkt ++ le_bytes 2 w ++ drop (k + 2) pkt.

Lemma ones_fold_eq a b : 0 < a → 0 < b → ones_fold a = ones_fold b → (a - b) mod 65535 = 0.
Proof.
  intros Ha Hb. unfold ones_fold. destruct (Z.eqb_spec a 0), (Z.eqb_spec b 0); lia.
Qed.

Lemma word_sum_corrupt l k w x y :
  Nat.Even k → (k + 2 <= length l)%nat → l !! k = Some x → l !! (k + 1)%nat = Some y → 0 <= w < 2 ^ 16 →
  word_sum (corrupt k w l) = word_sum l - (x + 2 ^ 8 * y) + w.
Proof.
  intros He Hl Hx Hy Hw. unfold corrupt.
  assert (El : l = take k l ++ [x; y] ++ drop (k + 2) l).
  { rewrite <-(take_drop k l) at 1. f_equal. rewrite (drop_S l x k Hx).
    replace (S k) with (k + 1)%nat by lia. rewrite (drop_S l y (k + 1) Hy). by replace (S (k + 1)) with (k + 2)%nat by lia. }
  assert (Ek : length (take k l) = k) by (rewrite length_take; lia).
  assert (S1 : word_sum l = word_sum (take k l) + (x + 2 ^ 8 * y + word_sum (drop (k + 2) l))).
  { rewrite El at 1. by rewrite word_sum_app by (by rewrite Ek). }
  rewrite S1, word_sum_app by (by rewrite Ek). cbn [le_bytes app word_sum]. pose proof (le2_value w Hw). lia.
Qed.

(** The checksum field as a receiver of [h], the first 20 bytes, recomputes it. *)
Lemma ipv4_receive_bad_checksum our_ip pkt c :
  bytes pkt → 20 <= Z.of_nat (length pkt) < 2 ^ 16 → nth 0 pkt 0 = 0x45 → ld16 pkt 10 = Ok c → c ≠ 0 →
  65535 - ones_fold (word_sum (corrupt 10 0 (take 20 pkt))) ≠ c →
  ipv4_receive our_ip pkt (Z.of_nat (length pkt)) = Ok IpDrop.
Proof.
  intros Hb Hl H0 Hc Hc0 Hbad. unfold ipv4_receive, IPV4_HEADER_SIZE.
  destruct (Z.ltb_spec (Z.of_nat (length pkt)) 20); [lia|].
  rewrite (arr_get_in pkt 0 0) by lia. change (Z.to_nat 0) with 0%nat. rewrite H0. step.
  change (negb (Z.land (Z.shiftr 0x45 4) 0x0F =? 4)) with false. cbv iota.
  change (u8 (Z.land 0x45 0x0F * 4)) with 20. change (20 <? 20) with false. cbn [orb].
  destruct (Z.ltb_spec (Z.of_nat (length pkt)) 20); [lia|]. rewrite Hc. step.
  destruct (Z.eqb_spec c 0); [done|].
  set (h := take 20 pkt) in *. assert (Lh : length h = 20%nat) by (unfold h; rewrite length_take; lia).
  assert (Hh : bytes h) by (by apply Forall_take).
  assert (Hcopy : ∃ copy, blit (replicate 60 0) 0 pkt 0 20 = Ok copy ∧ length copy = 60%nat ∧ h `prefix_of` copy).
  { rewrite blit_spec by (simpl; lia). eexists. split; [done|]. split; [|by eexists].
    rewrite !length_app, !length_take, !length_drop, length_replicate. lia. }
  destruct Hcopy as (copy & -> & Lc & Pc). step.
  assert (Eh : h = take 10 h ++ take 2 (drop 10 h) ++ drop 12 h).
  { rewrite <-(take_drop 10 h) at 1. f_equal. rewrite <-(take_drop 2 (drop 10 h)) at 1. f_equal. by rewrite drop_drop. }
  rewrite Eh in Pc.
  destruct (st_patch_at 60 _ _ _ copy 10 (le_bytes 2 0) Pc) as (copy' & E & _ & Pc'); [done|..].
  { rewrite length_take. lia. }
  { by rewrite le_bytes_length, length_take, length_drop, Lh. }
  unfold st16. rewrite E. step.
  change (take 10 h ++ le_bytes 2 0 ++ drop 12 h) with (corrupt 10 0 h) in Pc'.
  rewrite (checksum_prefix _ copy' 20 Pc'); [| |unfold corrupt; rewrite !length_app, length_take, length_drop, le_bytes_length; lia|done].
  2: { unfold corrupt, bytes. rewrite !Forall_app. split; [by apply Forall_take|].
       split; [apply bytes_le_bytes|by apply Forall_drop]. }
  step. destruct (Z.eqb_spec (65535 - ones_fold (word_sum (corrupt 10 0 h))) c); done.
Qed.

Definition word_at (l : list Z) (k : nat) : Z := nth k l 0 + 2 ^ 8 * nth (k + 1) l 0.

Lemma bytes_corrupt k w l : bytes l → bytes (corrupt k w l).
Proof.
  intros. unfold corrupt, bytes. rewrite !Forall_app.
  split; [by apply Forall_take|]. split; [apply bytes_le_bytes|by apply Forall_drop].
Qed.

Lemma word_sum_pos a b l : 0 < a → bytes (b :: l) → 0 < word_sum (a :: b :: l).
Proof.
  intros Ha Hb. unfold bytes in Hb. rewrite Forall_cons in Hb. destruct Hb as [? Hb].
  cbn [word_sum]. pose proof (word_sum_range l Hb). lia.
Qed.

Lemma ip_packet_damage our_ip id protocol src dst data pad k w :
  bytes data → bytes pad → (length data <= 1480)%nat → (length pad <= 46)%nat →
  0 <= id < 2 ^ 16 → 0 <= protocol < 2 ^ 8 → 0 <= src < 2 ^ 32 → 0 <= dst < 2 ^ 32 →
  k ∈ [2; 4; 6; 8; 12; 14; 16; 18]%nat → 0 <= w < 2 ^ 16 →
  let pkt := ip_packet id protocol src dst data ++ pad in
  header_checksum (20 + Z.of_nat (length data)) id protocol src dst ≠ 0 →
  (w - word_at pkt k) mod 65535 ≠ 0 →
  ipv4_receive our_ip (corrupt k w pkt) (Z.of_nat (length (corrupt k w pkt))) = Ok IpDrop.
Proof.
  intros Hb Hpb Hl Hpl Hid Hp Hs Hd Hk Hw pkt Hc0 Hdiff.
  set (total := 20 + Z.of_nat (length data)) in *.
  set (c := header_checksum total id protocol src dst) in *.
  assert (Hc : 0 <= c < 2 ^ 16).
  { unfold c, header_checksum. pose proof (ones_fold_range (word_sum (ip_header total id protocol 0 src dst))). lia. }
  assert (Epkt : pkt = ip_header total id protocol c src dst ++ data ++ pad).
  { unfold pkt, ip_packet. by rewrite <-(assoc_L (++)). }
  set (h0 := ip_header total id protocol 0 src dst).
  assert (Hbp : bytes pkt).
  { rewrite Epkt. unfold bytes. rewrite !Forall_app. split; [apply ip_header_bytes|done]. }
  assert (Hlen : length (corrupt k w pkt) = (20 + length data + length pad)%nat).
  { unfold corrupt. rewrite !length_app, length_take, length_drop, le_bytes_length.
    rewrite Epkt, !length_app, ip_header_length.
    assert (k <= 18)%nat by (repeat (apply elem_of_cons in Hk as [->|Hk]; [lia|]); by apply elem_of_nil in Hk). lia. }
  clearbody pkt.
  assert (Hpos : 0 < word_sum h0).
  { apply word_sum_pos; [lia|]. apply (Forall_inv_tail (ip_header_bytes total id protocol 0 src dst)). }
  assert (Hfacts : nth 0 (corrupt k w pkt) 0 = 0x45 ∧ ld16 (corrupt k w pkt) 10 = Ok (c mod 2 ^ 8 + 2 ^ 8 * (c / 2 ^ 8 mod 2 ^ 8)) ∧
    corrupt 10 0 (take 20 (corrupt k w pkt)) = corrupt k w h0 ∧ Nat.Even k ∧ (k + 2 <= length h0)%nat ∧
    h0 !! k = Some (nth k pkt 0) ∧ h0 !! (k + 1)%nat = Some (nth (k + 1) pkt 0) ∧ (2 <= k)%nat).
  { rewrite Epkt.
    repeat (apply elem_of_cons in Hk as [->|Hk];
      [do 3 (split; [reflexivity|]); split; [by apply Nat.even_spec|];
       split; [apply Nat.leb_le; reflexivity|]; split; [reflexivity|]; split; [reflexivity|lia]|]).
    by apply elem_of_nil in Hk. }
  destruct Hfacts as (F1 & F2 & F3 & F4 & F5 & F6 & F7 & F8). rewrite le2_value in F2 by done.
  eapply ipv4_receive_bad_checksum; [by apply bytes_corrupt|lia|done|done|done|].
  rewrite F3, (word_sum_corrupt h0 k w _ _ F4 F5 F6 F7 Hw).
  fold (word_at pkt k). unfold c, header_checksum. fold h0. intros Heq.
  assert (Hpos' : 0 < word_sum h0 - word_at pkt k + w).
  { pose proof (word_sum_corrupt h0 k w _ _ F4 F5 F6 F7 Hw) as Hws.
    unfold word_at. rewrite <-Hws. unfold corrupt.
    destruct k as [|[|k]]; [lia..|]. apply word_sum_pos; [lia|].
    apply (Forall_inv_tail (bytes_corrupt (S (S k)) w h0 (ip_header_bytes total id protocol 0 src dst))). }
  apply Hdiff. assert (ones_fold (word_sum h0 - word_at pkt k + w) = ones_fold (word_sum h0)) as E by lia.
  apply ones_fold_eq in E; [|done..]. rewrite <-E. f_equal. lia.
Qed.

(** * What the network layer promises to the transport protocols *)

(** [ip_send] is [ipv4_send], [ip_addr] the host's own address. *)
Class IpLayer (W : Type) := {
  ip_send : Z → Z → list Z → Z → W → res (bool * W);
  ip_addr : W → Z
}.

(** Sending any packet from a ready layer returns and leaves the layer ready, with
    the address it had. *)
Class IpLayerLaws (W : Type) `{IpLayer W} (ready : W → Prop) : Prop := {
  ip_send_returns w dst protocol data :
    ready w → 0 <= dst < 2 ^ 32 → 0 <= protocol < 2 ^ 8 → Z.of_nat (length data) < 2 ^ 16 →
    ∃ ok w', ip_send dst protocol data (Z.of_nat (length data)) w = Ok (ok, w') ∧ ready w' ∧
      ip_addr w' = ip_addr w;
  ip_addr_range w : ready w → 0 <= ip_addr w < 2 ^ 32
}.

#[export] Instance ipv4_layer : IpLayer Ip := {
  ip_send := ipv4_send;
  ip_addr s := net_get_ip (ip_net s)
}.

#[export] Instance ipv4_layer_laws : IpLayerLaws Ip ip_wf.
Proof.
  split.
  - intros w dst protocol data Hw Hd Hp Hl.
    destruct (ipv4_send_spec dst protocol data w) as (ok & w' & E & Hw' & (Hc & _) & _); [done..|].
    exists ok, w'. split; [done|]. split; [done|]. unfold ip_addr. simpl. unfold net_get_ip, ip_net. by rewrite Hc.
  - intros w Hw. apply Hw.
Qed.

(** * Properties *)

(** C31: [ipv4_checksum] is the Internet checksum: the one's complement of the one's
    complement sum of the buffer's 16-bit words, an odd last byte padded with zero,
    for every length it can be given; both its loops terminate within their fuel and
    it reads only the bytes it is asked to sum. *)
Theorem ipv4_checksum_rfc1071 data n :
  bytes data → 0 <= n < 2 ^ 16 → n <= Z.of_nat (length data) →
  ipv4_checksum data n = Ok (65535 - ones_fold (word_sum (take (Z.to_nat n) data))).
Proof. intros. apply ipv4_checksum_spec; [by apply Forall_take|done..]. Qed.

Lemma ipv4_checksum_rfc1071_witness :
  ipv4_checksum [0x45; 0; 0; 0x73; 0; 0; 0x40; 0; 0x40; 0x11; 0; 0; 0xc0; 0xa8; 0; 1; 0xc0; 0xa8; 0; 0xc7] 20
  = Ok 0x61b8.
Proof.
  rewrite ipv4_checksum_rfc1071; [reflexivity|repeat (constructor; [lia|]); constructor|lia|simpl; lia].
Defined.

(** [ipv4_receive] is safe on hostile input: for any bytes the network delivers
    it returns without touching memory outside the packet (or its 60-byte header
    copy), and what it hands to ICMP, UDP or TCP lies inside the packet. *)
Theorem ipv4_receive_safe our_ip data :
  bytes data → Z.of_nat (length data) < 2 ^ 16 →
  ∃ d, ipv4_receive our_ip data (Z.of_nat (length data)) = Ok d ∧ ip_dispatch_ok data d.
Proof. apply ipv4_receive_total. Qed.

Lemma ipv4_receive_safe_witness :
  ∃ d, ipv4_receive 0x0100000A [0x4F; 0; 0; 0x18; 0; 0; 0; 0; 64; 17; 0; 0; 10; 0; 0; 2; 10; 0; 0; 1; 1; 2; 3; 4] 24 = Ok d ∧ d = IpDrop.
Proof.
  destruct (ipv4_receive_safe 0x0100000A
    [0x4F; 0; 0; 0x18; 0; 0; 0; 0; 64; 17; 0; 0; 10; 0; 0; 2; 10; 0; 0; 1; 1; 2; 3; 4]) as (d & E & _);
    [repeat (constructor; [lia|]); constructor|simpl; lia|].
  exists d. split; [exact E|]. vm_compute in E. by injection E as <-.
Defined.

(** C32: a packet damaged in any one 16-bit word of its header after the first
    (its checksum apart) is dropped, unless the damage is invisible to one's
    complement arithmetic (0x0000 against 0xFFFF) or the sender's checksum was zero. *)
Theorem ipv4_detects_damage our_ip id protocol src dst data pad k w :
  bytes data → bytes pad → (length data <= 1480)%nat → (length pad <= 46)%nat →
  0 <= id < 2 ^ 16 → 0 <= protocol < 2 ^ 8 → 0 <= src < 2 ^ 32 → 0 <= dst < 2 ^ 32 →
  k ∈ [2; 4; 6; 8; 12; 14; 16; 18]%nat → 0 <= w < 2 ^ 16 →
  let pkt := ip_packet id protocol src dst data ++ pad in
  header_checksum (20 + Z.of_nat (length data)) id protocol src dst ≠ 0 →
  (w - word_at pkt k) mod 65535 ≠ 0 →
  ipv4_receive our_ip (corrupt k w pkt) (Z.of_nat (length (corrupt k w pkt))) = Ok IpDrop.
Proof. intros. by apply ip_packet_damage. Qed.

Lemma ipv4_detects_damage_witness :
  ipv4_receive 0x0100000A (ip_packet 7 17 0x0200000A 0x0100000A [1; 2; 3] ++ []) 23
    = Ok (ToUdp [1; 2; 3] 0x0200000A 0x0100000A) ∧
  ipv4_receive 0x0100000A (corrupt 12 0x0203 (ip_packet 7 17 0x0200000A 0x0100000A [1; 2; 3] ++ []))
    (Z.of_nat (length (corrupt 12 0x0203 (ip_packet 7 17 0x0200000A 0x0100000A [1; 2; 3] ++ [])))) = Ok IpDrop.
Proof.
  split; [vm_compute; reflexivity|].
  apply (ipv4_detects_damage 0x0100000A 7 17 0x0200000A 0x0100000A [1; 2; 3] [] 12 0x0203);
    [repeat (constructor; [lia|]); constructor|constructor|simpl; lia|simpl; lia|lia|lia|lia|lia
    |by repeat constructor|lia|vm_compute; discriminate|vm_compute; discriminate].
Defined.

(** A sender that knows 10.0.0.2 as [sample_mac 2]. *)
Definition sample_host : Ip :=
  mkIp (sample_arp (mkArpEntry 0x0200000A (sample_mac 2) true :: replicate 31 no_entry) []) 7 (replicate 1600 0).

Lemma sample_host_wf : ip_wf sample_host.
Proof.
  split; [|simpl; lia|apply length_replicate|simpl; lia].
  apply sample_arp_wf; [|constructor]. split; [by apply sample_mac_ok|]. split; [simpl; lia|done].
Qed.
