(* ===== verification/Udp.v ===== *)
(** UDP (src/net/udp.cpp): sixteen sockets with a one-datagram receive buffer each,
    header and pseudo-header checksum, demultiplexing by port. The layer below is
    any [IpLayer]. *)

From S2P Require Import Prelude Wire Ethernet Arp Ipv4.

(** * Model *)

Definition UDP_HEADER_SIZE : Z := 8.
Definition UDP_MAX_SOCKETS : nat := 16.

Record UdpSocket := mkUdpSocket {
  in_use : bool;
  port : Z;
  bound : bool;
  rx_buffer : list Z;
  rx_length : Z;
  rx_src_ip : Z;
  rx_src_port : Z;
  rx_ready : bool
}.

Record Udp := mkUdp {
  sockets : list UdpSocket;
  udp_tx_buffer : list Z;
  udp_chk_buffer : list Z
}.

Definition udp_init (ss : list UdpSocket) : list UdpSocket :=
  (λ s, mkUdpSocket false (port s) false (rx_buffer s) (rx_length s) (rx_src_ip s) (rx_src_port s) false) <$> ss.

(** The checksum and the checksum buffer it was computed in. *)
Definition udp_checksum (buf : list Z) (src_ip dst_ip : Z) (udp_data : list Z) (length : Z)
    : res (Z * list Z) :=
  b ← st32 buf 0 src_ip;
  b ← st32 b 4 dst_ip;
  b ← st8 b 8 0;
  b ← st8 b 9 IP_PROTO_UDP;
  b ← st16 b 10 (htons length);
  b ← blit b 12 udp_data 0 length;
  r ← ipv4_checksum b (12 + length);
  Ok (r, b).

(** The first socket that is bound to [p]. *)
Definition bound_to (p : Z) (s : UdpSocket) : bool := in_use s && bound s && (port s =? p).

Fixpoint find_socket (f : UdpSocket → bool) (ss : list UdpSocket) (i : nat) : option nat :=
  match ss with
  | [] => None
  | s :: ss' => if f s then Some i else find_socket f ss' (S i)
  end.

(** The second component is the payload handed to [dhcp_receive], if any. *)
Definition udp_receive (data : list Z) (length src_ip : Z) (u : Udp) : res (Udp * option (list Z)) :=
  if length <? UDP_HEADER_SIZE then Ok (u, None)
  else
    sp ← ld16 data 0; dp ← ld16 data 2; ul ← ld16 data 4;
    let src_port := ntohs sp in
    let dst_port := ntohs dp in
    let udp_len := ntohs ul in
    if (udp_len <? UDP_HEADER_SIZE) || (length <? udp_len) then Ok (u, None)
    else
      let payload_len := u16 (udp_len - UDP_HEADER_SIZE) in
      match find_socket (bound_to dst_port) (sockets u) 0 with
      | Some i =>
          match sockets u !! i with
          | Some s =>
              let stored_len := if 1500 <? payload_len then 1500 else payload_len in
              buf ← blit (rx_buffer s) 0 data UDP_HEADER_SIZE stored_len;
              let s' := mkUdpSocket (in_use s) (port s) (bound s) buf stored_len src_ip src_port true in
              Ok (mkUdp (<[i := s']> (sockets u)) (udp_tx_buffer u) (udp_chk_buffer u), None)
          | None => Fault
          end
      | None =>
          if dst_port =? 68 then
            payload ← view data UDP_HEADER_SIZE payload_len; Ok (u, Some payload)
          else Ok (u, None)
      end.

Section send.
Context {W : Type} `{IpLayer W}.

Definition udp_send (dst_ip src_port dst_port : Z) (data : list Z) (length : Z) (u : Udp) (w : W)
    : res (bool * Udp * W) :=
  if (dst_ip =? 0) || (src_port =? 0) || (dst_port =? 0) then Ok (false, u, w)
  else if 1472 <? length then Ok (false, u, w)
  else
    b ← st16 (udp_tx_buffer u) 0 (htons src_port);
    b ← st16 b 2 (htons dst_port);
    b ← st16 b 4 (htons (u16 (UDP_HEADER_SIZE + length)));
    b ← st16 b 6 0;
    b ← blit b UDP_HEADER_SIZE data 0 length;
    '(c, chk) ← udp_checksum (udp_chk_buffer u) (ip_addr w) dst_ip b (u16 (UDP_HEADER_SIZE + length));
    let c' := if c =? 0 then 0xFFFF else c in
    b ← st16 b 6 c';
    packet ← view b 0 (UDP_HEADER_SIZE + length);
    '(ok, w') ← ip_send dst_ip IP_PROTO_UDP packet (UDP_HEADER_SIZE + length) w;
    Ok (ok, mkUdp (sockets u) b chk, w').

Definition udp_sendto (sock dst_ip dst_port : Z) (data : list Z) (length : Z) (u : Udp) (w : W)
    : res (bool * Udp * W) :=
  if (sock <? 0) || (Z.of_nat UDP_MAX_SOCKETS <=? sock) then Ok (false, u, w)
  else match sockets u !! Z.to_nat sock with
       | None => Fault
       | Some s =>
           if negb (in_use s) then Ok (false, u, w)
           else udp_send dst_ip (if bound s then port s else 49152) dst_port data length u w
       end.
End send.

Definition with_sockets (ss : list UdpSocket) (u : Udp) : Udp := mkUdp ss (udp_tx_buffer u) (udp_chk_buffer u).

Definition udp_socket (u : Udp) : Z * Udp :=
  match find_socket (λ s, negb (in_use s)) (sockets u) 0 with
  | Some i =>
      (Z.of_nat i,
       with_sockets (alter (λ s, mkUdpSocket true (port s) false (rx_buffer s) (rx_length s)
                                   (rx_src_ip s) (rx_src_port s) false) i (sockets u)) u)
  | None => (-1, u)
  end.

Definition udp_bind (sock p : Z) (u : Udp) : bool * Udp :=
  if (sock <? 0) || (Z.of_nat UDP_MAX_SOCKETS <=? sock) then (false, u)
  else match sockets u !! Z.to_nat sock with
       | None => (false, u)
       | Some s =>
           if negb (in_use s) then (false, u)
           else match find_socket (bound_to p) (sockets u) 0 with
                | Some _ => (false, u)
                | None =>
                    (true, with_sockets (<[Z.to_nat sock := mkUdpSocket (in_use s) p true (rx_buffer s)
                       (rx_length s) (rx_src_ip s) (rx_src_port s) false]> (sockets u)) u)
                end
       end.

(** The result, the bytes stored in the caller's buffer, and the sender. *)
Definition udp_recvfrom (sock max_len : Z) (u : Udp) : res (Z * list Z * (Z * Z) * Udp) :=
  if (sock <? 0) || (Z.of_nat UDP_MAX_SOCKETS <=? sock) then Ok (-1, [], (0, 0), u)
  else match sockets u !! Z.to_nat sock with
       | None => Fault
       | Some s =>
           if negb (in_use s) || negb (bound s) then Ok (-1, [], (0, 0), u)
           else if negb (rx_ready s) then Ok (0, [], (0, 0), u)
           else
             let len := if max_len <? rx_length s then max_len else rx_length s in
             out ← view (rx_buffer s) 0 len;
             Ok (len, out, (rx_src_ip s, rx_src_port s),
                 with_sockets (<[Z.to_nat sock := mkUdpSocket (in_use s) (port s) (bound s) (rx_buffer s)
                   (rx_length s) (rx_src_ip s) (rx_src_port s) false]> (sockets u)) u)
       end.

Definition udp_close (sock : Z) (u : Udp) : Udp :=
  if (0 <=? sock) && (sock <? Z.of_nat UDP_MAX_SOCKETS) then
    with_sockets (alter (λ s, mkUdpSocket false (port s) false (rx_buffer s) (rx_length s)
                                (rx_src_ip s) (rx_src_port s) false) (Z.to_nat sock) (sockets u)) u
  else u.

(** * Specification *)

Record socket_ok (s : UdpSocket) : Prop := {
  sk_buf : length (rx_buffer s) = 1500%nat;
  sk_bytes : bytes (rx_buffer s);
  sk_len : 0 <= rx_length s <= 1500;
  sk_ports : 0 <= port s < 2 ^ 16 ∧ 0 <= rx_src_port s < 2 ^ 16
}.

(** No two open sockets are bound to the same port. *)
Definition ports_unique (ss : list UdpSocket) : Prop :=
  ∀ i j s1 s2 p, ss !! i = Some s1 → ss !! j = Some s2 →
    bound_to p s1 = true → bound_to p s2 = true → i = j.

Record udp_wf (u : Udp) : Prop := {
  udp_len : length (sockets u) = UDP_MAX_SOCKETS;
  udp_socks : Forall socket_ok (sockets u);
  udp_ports : ports_unique (sockets u);
  udp_tx : length (udp_tx_buffer u) = 1600%nat;
  udp_chk : length (udp_chk_buffer u) = 1600%nat
}.

(** Which sockets are open. *)
Definition opened (u : Udp) : list bool := in_use <$> sockets u.

Definition udp_header (sp dp len c : Z) : list Z := be16 sp ++ be16 dp ++ be16 len ++ le_bytes 2 c.

(** The checksum of RFC 768, as it is transmitted. *)
Definition udp_sum (src dst sp dp : Z) (data : list Z) : Z :=
  let len := 8 + Z.of_nat (length data) in
  let c := 65535 - ones_fold (word_sum (le_bytes 4 src ++ le_bytes 4 dst ++ [0; 17] ++ be16 len ++
                                        udp_header sp dp len 0 ++ data)) in
  if c =? 0 then 0xFFFF else c.

Definition udp_datagram (src dst sp dp : Z) (data : list Z) : list Z :=
  udp_header sp dp (8 + Z.of_nat (length data)) (udp_sum src dst sp dp data) ++ data.

(** * Lemmas *)

Lemma find_socket_Some f ss i0 k :
  find_socket f ss i0 = Some k →
  ∃ i s, k = (i0 + i)%nat ∧ ss !! i = Some s ∧ f s = true.
Proof.
  revert i0. induction ss as [|s ss IH]; intros i0; simpl; [done|]. destruct (f s) eqn:E.
  - intros [= <-]. exists 0%nat, s. split; [lia|done].
  - intros Hf. destruct (IH _ Hf) as (i & s' & -> & ? & ?). exists (S i), s'. split; [lia|done].
Qed.

Lemma find_socket_None f ss i0 :
  find_socket f ss i0 = None → ∀ j s, ss !! j = Some s → f s = false.
Proof.
  revert i0. induction ss as [|s ss IH]; intros i0; simpl; [done|]. destruct (f s) eqn:E; [done|].
  intros Hf [|j] s'; simpl; [by intros [= <-]|]. by apply (IH (S i0)).
Qed.

(** With unique ports, a bound socket is the one that is found. *)
Lemma find_bound ss p i s :
  ports_unique ss → ss !! i = Some s → bound_to p s = true → find_socket (bound_to p) ss 0 = Some i.
Proof.
  intros Hu Hi Hb. destruct (find_socket (bound_to p) ss 0) as [k|] eqn:E.
  - destruct (find_socket_Some _ _ _ _ E) as (j & s' & -> & Hj & Hf). f_equal. simpl. by eapply Hu.
  - by rewrite (find_socket_None _ _ _ E i s Hi) in Hb.
Qed.

Lemma udp_header_length sp dp len c : length (udp_header sp dp len c) = 8%nat.
Proof. done. Qed.

Lemma udp_header_bytes sp dp len c : bytes (udp_header sp dp len c).
Proof.
  unfold udp_header, be16, bytes. rewrite !Forall_app. pose proof (bytes_le_bytes 2 c).
  repeat split; try done; repeat (constructor; [lia|]); constructor.
Qed.

Lemma udp_checksum_spec buf src dst p pkt :
  length buf = 1600%nat → p `prefix_of` pkt → bytes p → (length p <= 1480)%nat →
  ∃ b, udp_checksum buf src dst pkt (Z.of_nat (length p)) =
    Ok (65535 - ones_fold (word_sum (le_bytes 4 src ++ le_bytes 4 dst ++ [0; 17] ++
          be16 (Z.of_nat (length p)) ++ p)), b) ∧ length b = 1600%nat.
Proof.
  intros L [t ->] Hb Hl. unfold udp_checksum. pose proof (prefix_nil buf) as P.
  repeat put_field. rewrite le_bytes_htons in P by lia.
  set (h := _ ++ be16 _) in P. assert (Lh : length h = 12%nat) by done.
  match goal with |- context [blit ?b 12] =>
    destruct (blit_append h b (p ++ t) 0 (Z.of_nat (length p))) as (b' & E & L' & P') end;
    [done|lia|lia|lia|rewrite length_app; lia|].
  rewrite Lh in E. change (Z.of_nat 12) with 12 in E. rewrite E. step.
  rewrite Nat2Z.id, drop_0, take_app_length in P'.
  rewrite (checksum_prefix (h ++ p) b'); [|done| |rewrite length_app; lia|lia].
  - step. exists b'. split; [done|lia].
  - unfold bytes. rewrite Forall_app. split; [|done]. unfold h. rewrite !Forall_app.
    pose proof (bytes_le_bytes 4 src). pose proof (bytes_le_bytes 4 dst). pose proof (bytes_le_bytes 1 0).
    pose proof (bytes_le_bytes 1 IP_PROTO_UDP).
    repeat split; try done. repeat (constructor; [lia|]). constructor.
Qed.

Section send_lemmas.
Context {W : Type} `{IpLayer W} {ready : W → Prop} `{!IpLayerLaws W ready}.

Lemma udp_sum_range src dst sp dp data : 0 <= udp_sum src dst sp dp data < 2 ^ 16.
Proof.
  unfold udp_sum. set (c := word_sum _). pose proof (ones_fold_range c). case_match; lia.
Qed.

(** A valid request hands the network layer exactly the RFC 768 datagram. *)
Lemma udp_send_spec dst sp dp data u w :
  udp_wf u → ready w → 0 < dst < 2 ^ 32 → 0 < sp < 2 ^ 16 → 0 < dp < 2 ^ 16 → bytes data →
  Z.of_nat (length data) <= 1472 →
  ∃ ok u' w', udp_send dst sp dp data (Z.of_nat (length data)) u w = Ok (ok, u', w') ∧
    udp_wf u' ∧ sockets u' = sockets u ∧ ready w' ∧
    ip_send dst IP_PROTO_UDP (udp_datagram (ip_addr w) dst sp dp data)
      (Z.of_nat (length (udp_datagram (ip_addr w) dst sp dp data))) w = Ok (ok, w').
Proof.
  intros Hu Hw Hd Hs Hp Hb Hl. pose proof Hu as [Hn Hss Hpu L Hck]. unfold udp_send, UDP_HEADER_SIZE.
  destruct (Z.eqb_spec dst 0), (Z.eqb_spec sp 0), (Z.eqb_spec dp 0); try lia. cbn [orb].
  destruct (Z.ltb_spec 1472 (Z.of_nat (length data))); [lia|].
  set (len := 8 + Z.of_nat (length data)). assert (Hlen : 0 <= len < 2 ^ 16) by (unfold len; lia).
  rewrite (u16_small len) by done.
  pose proof (prefix_nil (udp_tx_buffer u)) as P. repeat put_field.
  rewrite !le_bytes_htons in P by lia.
  assert (Ph : udp_header sp dp len 0 `prefix_of` b2) by exact P. clear P.
  destruct (blit_at 1600 (udp_header sp dp len 0) b2 8 data (Z.of_nat (length data)))
    as (b3 & -> & L3 & P3); [done..|rewrite udp_header_length; lia|]. step.
  assert (Hpl : length (udp_header sp dp len 0 ++ data) = (8 + length data)%nat)
    by (by rewrite length_app, udp_header_length).
  destruct (udp_checksum_spec (udp_chk_buffer u) (ip_addr w) dst (udp_header sp dp len 0 ++ data) b3)
    as (chk & Ec & Lc); [done|done| |lia|].
  { unfold bytes. rewrite Forall_app. split; [apply udp_header_bytes|done]. }
  rewrite Hpl in Ec. replace (Z.of_nat (8 + length data)) with len in Ec by (unfold len; lia).
  rewrite Ec. step. set (c := if _ =? 0 then _ else _).
  assert (Hc : c = udp_sum (ip_addr w) dst sp dp data) by done. clearbody c.
  destruct (st_patch_at 1600 (take 6 (udp_header sp dp len 0)) [0; 0] data b3 6 (le_bytes 2 c))
    as (b4 & -> & L4 & P4); [exact P3|done|done|done|]. step.
  assert (P5 : udp_datagram (ip_addr w) dst sp dp data `prefix_of` b4) by (rewrite Hc in P4; exact P4).
  set (pkt := udp_datagram (ip_addr w) dst sp dp data) in *.
  assert (Lp : Z.of_nat (length pkt) = len).
  { unfold pkt, udp_datagram. rewrite length_app, udp_header_length. unfold len. lia. }
  rewrite (prefix_take pkt b4 len P5 Lp). step. rewrite <-Lp.
  destruct (ip_send_returns w dst IP_PROTO_UDP pkt) as (ok & w' & -> & Hw' & _);
    [done|lia|unfold IP_PROTO_UDP; lia|lia|]. step.
  eexists _, _, _. split; [done|]. split; [|done]. by split.
Qed.

(** Only the bytes the caller asked for are sent. *)
Lemma udp_send_take dst sp dp data n u w :
  udp_wf u → 0 <= n <= Z.of_nat (length data) →
  udp_send dst sp dp data n u w = udp_send dst sp dp (take (Z.to_nat n) data) n u w.
Proof.
  intros [_ _ _ L _] Hn. unfold udp_send. case_match; [done|].
  destruct (Z.ltb_spec 1472 n); [done|].
  pose proof (prefix_nil (udp_tx_buffer u)) as P. repeat put_field.
  rewrite (blit_take b2 UDP_HEADER_SIZE data n); [done|unfold UDP_HEADER_SIZE; lia..].
Qed.

Lemma udp_sendto_spec sock dst dp data n u w :
  udp_wf u → ready w → 0 < dst < 2 ^ 32 → 0 < dp < 2 ^ 16 → bytes data → 0 <= n <= Z.of_nat (length data) →
  (∀ s, sockets u !! Z.to_nat sock = Some s → 0 < port s) → n <= 1472 →
  ∃ ok u' w', udp_sendto sock dst dp data n u w = Ok (ok, u', w') ∧
    udp_wf u' ∧ sockets u' = sockets u ∧ ready w'.
Proof.
  intros Hu Hw Hd Hp Hb Hn Hport Hm. unfold udp_sendto.
  destruct (Z.ltb_spec sock 0); [by eexists _, _, _|].
  destruct (Z.leb_spec (Z.of_nat UDP_MAX_SOCKETS) sock); [by eexists _, _, _|]. cbn [orb].
  destruct (lookup_lt_is_Some_2 (sockets u) (Z.to_nat sock)) as [s Hs]; [destruct Hu; lia|]. rewrite Hs.
  destruct (negb (in_use s)); [by eexists _, _, _|].
  assert (0 < (if bound s then port s else 49152) < 2 ^ 16).
  { destruct (bound s); [|lia]. split; [by apply Hport|].
    by destruct (Forall_lookup_1 _ _ _ _ (udp_socks _ Hu) Hs) as [_ _ _ [[_ ?] _]]. }
  rewrite udp_send_take by done.
  destruct (udp_send_spec dst (if bound s then port s else 49152) dp (take (Z.to_nat n) data) u w)
    as (ok & u' & w' & E & ? & ? & ? & _);
    [done..|by apply Forall_take|rewrite length_take; lia|].
  rewrite length_take in E. replace (Z.of_nat (Z.to_nat n `min` length data)) with n in E by lia. eauto 10.
Qed.
End send_lemmas.

(** Rewriting a socket that keeps its binding keeps the ports unique. *)
Lemma ports_unique_insert ss i s s' :
  ports_unique ss → ss !! i = Some s →
  (∀ p, bound_to p s' = true → bound_to p s = true ∨
          (∀ j t, ss !! j = Some t → bound_to p t = false)) →
  ports_unique (<[i := s']> ss).
Proof.
  intros Hu Hi Hs k1 k2 s1 s2 p. rewrite !list_lookup_insert_Some.
  intros [(-> & <- & _)|[? H1]] [(-> & <- & _)|[? H2]] B1 B2; [done| | |by eapply Hu].
  - destruct (Hs p B1) as [B|Hno]; [by eapply Hu|]. rewrite (Hno _ _ H2) in B2. done.
  - destruct (Hs p B2) as [B|Hno]; [by eapply Hu|]. rewrite (Hno _ _ H1) in B1. done.
Qed.

Lemma opened_insert (ss : list UdpSocket) i s s' :
  ss !! i = Some s → in_use s' = in_use s → in_use <$> <[i := s']> ss = in_use <$> ss.
Proof.
  intros Hi Hs. rewrite list_fmap_insert, Hs. apply list_insert_id. by rewrite list_lookup_fmap, Hi.
Qed.

(** Receiving copes with any bytes and keeps the sockets well formed. *)
Lemma udp_receive_total data src u :
  udp_wf u → bytes data → Z.of_nat (length data) < 2 ^ 16 →
  ∃ u' d, udp_receive data (Z.of_nat (length data)) src u = Ok (u', d) ∧ udp_wf u' ∧
    (∀ p, d = Some p → bytes p ∧ (length p + 8 <= length data)%nat) ∧ opened u' = opened u.
Proof.
  intros Hu Hb Hl. pose proof Hu as [Hn Hss Hpu Htx Hck]. unfold udp_receive, UDP_HEADER_SIZE.
  destruct (Z.ltb_spec (Z.of_nat (length data)) 8); [eexists _, _; split; [done|]; done|].
  destruct (ld16_bytes data 0) as (sp & -> & Hsp); [done|lia..|]. step.
  destruct (ld16_bytes data 2) as (dp & -> & Hdp); [done|lia..|]. step.
  destruct (ld16_bytes data 4) as (ul & -> & Hul); [done|lia..|]. step.
  assert (0 <= ntohs ul < 2 ^ 16) by (by apply htons_range).
  assert (Hspr : 0 <= ntohs sp < 2 ^ 16) by (by apply htons_range).
  set (len := ntohs ul) in *. clearbody len.
  destruct (Z.ltb_spec len 8), (Z.ltb_spec (Z.of_nat (length data)) len); cbn [orb];
    try (eexists _, _; split; [done|]; done). rewrite u16_small by lia.
  destruct (find_socket _ _ 0) as [i|] eqn:E.
  - destruct (find_socket_Some _ _ _ _ E) as (j & s & -> & Hj & Hf). simpl. rewrite Hj.
    destruct (Forall_lookup_1 _ _ _ _ Hss Hj) as [Sb Sy Sl Sp].
    set (n := if 1500 <? len - 8 then 1500 else len - 8). assert (0 <= n <= 1500 ∧ n <= len - 8) as [? ?]
      by (unfold n; case_match; lia). clearbody n.
    rewrite blit_spec by lia. step. eexists _, _. split; [done|].
    split; [|split; [done|by apply (opened_insert _ _ s)]].
    split; simpl; try done; [by rewrite length_insert| |].
    + apply Forall_insert; [done|]. split; simpl; try done; try lia.
      * rewrite !length_app, !length_take, !length_drop. lia.
      * unfold bytes. rewrite ?Forall_app. repeat split; auto using Forall_take, Forall_drop.
    + apply (ports_unique_insert _ _ s); [done|done|]. intros p. auto.
  - destruct (_ =? 68); [|eexists _, _; split; [done|]; done].
    destruct (view_bytes data 8 (len - 8)) as (p & -> & ? & ?); [done|lia..|]. step.
    eexists _, _. split; [done|]. split; [done|]. split; [|done]. intros ? [= <-]. split; [done|lia].
Qed.

(** A datagram for a bound port ends in that socket, byte for byte. *)
Lemma udp_receive_datagram src dst sp dp data u i s :
  udp_wf u → bytes data → 0 < sp < 2 ^ 16 → 0 < dp < 2 ^ 16 → Z.of_nat (length data) <= 1472 →
  sockets u !! i = Some s → bound_to dp s = true →
  ∃ buf, udp_receive (udp_datagram src dst sp dp data)
      (Z.of_nat (length (udp_datagram src dst sp dp data))) src u =
    Ok (with_sockets (<[i := mkUdpSocket (in_use s) (port s) (bound s) buf (Z.of_nat (length data)) src sp true]>
          (sockets u)) u, None) ∧ data `prefix_of` buf.
Proof.
  intros Hu Hb Hsp Hdp Hl Hi Hbd. pose proof Hu as [Hn Hss Hpu _ _].
  set (c := udp_sum src dst sp dp data). set (len := 8 + Z.of_nat (length data)).
  assert (Hlen : 0 <= len < 2 ^ 16) by (unfold len; lia).
  assert (Ed : udp_datagram src dst sp dp data = udp_header sp dp len c ++ data) by done.
  rewrite Ed. assert (Lp : length (udp_header sp dp len c ++ data) = (8 + length data)%nat)
    by (by rewrite length_app, udp_header_length).
  rewrite Lp. unfold udp_receive, UDP_HEADER_SIZE.
  destruct (Z.ltb_spec (Z.of_nat (8 + length data)) 8); [lia|].
  assert (H0 : ld16 (udp_header sp dp len c ++ data) 0 = Ok (htons sp)) by (rewrite be16_value by lia; reflexivity).
  assert (H2 : ld16 (udp_header sp dp len c ++ data) 2 = Ok (htons dp)) by (rewrite be16_value by lia; reflexivity).
  assert (H4 : ld16 (udp_header sp dp len c ++ data) 4 = Ok (htons len)) by (rewrite be16_value by lia; reflexivity).
  rewrite H0. step. rewrite H2. step. rewrite H4. step. rewrite !ntohs_htons by lia.
  destruct (Z.ltb_spec len 8), (Z.ltb_spec (Z.of_nat (8 + length data)) len); try (unfold len in *; lia). cbn [orb].
  rewrite (find_bound _ _ _ _ Hpu Hi Hbd), Hi.
  replace (u16 (len - 8)) with (Z.of_nat (length data)) by (unfold len; rewrite u16_small; lia).
  destruct (Z.ltb_spec 1500 (Z.of_nat (length data))); [lia|].
  destruct (Forall_lookup_1 _ _ _ _ Hss Hi) as [Sb _ _ _].
  rewrite blit_spec by lia. step. eexists. split; [done|].
  change (take (Z.to_nat 0) (rx_buffer s)) with (@nil Z). cbn [app].
  rewrite Nat2Z.id, drop_app_length' by done. rewrite firstn_all. by eexists.
Qed.

Lemma udp_recvfrom_datagram u i s buf data src sp max :
  (i < UDP_MAX_SOCKETS)%nat → sockets u !! i = Some s → in_use s = true → bound s = true →
  data `prefix_of` buf → rx_buffer s = buf → rx_length s = Z.of_nat (length data) →
  rx_src_ip s = src → rx_src_port s = sp → rx_ready s = true → Z.of_nat (length data) <= max →
  ∃ u', udp_recvfrom (Z.of_nat i) max u = Ok (Z.of_nat (length data), data, (src, sp), u').
Proof.
  intros Hi Hs Hin Hbd Hp Hbuf Hl Hsrc Hsp Hr Hm. unfold udp_recvfrom.
  destruct (Z.ltb_spec (Z.of_nat i) 0); [lia|].
  destruct (Z.leb_spec (Z.of_nat UDP_MAX_SOCKETS) (Z.of_nat i)); [lia|]. cbn [orb].
  rewrite Nat2Z.id, Hs, Hin, Hbd, Hr, Hl. cbn [negb orb].
  destruct (Z.ltb_spec max (Z.of_nat (length data))); [lia|].
  rewrite Hbuf, (prefix_take data buf _ Hp eq_refl). step. rewrite Hsrc, Hsp. by eexists.
Qed.

(** ** Socket operations keep the sockets well formed *)

Lemma udp_wf_sockets u ss :
  udp_wf u → length ss = UDP_MAX_SOCKETS → Forall socket_ok ss → ports_unique ss →
  udp_wf (with_sockets ss u).
Proof. intros [] ? ? ?. by split. Qed.

Lemma ports_unique_alter ss i f :
  ports_unique ss → (∀ s p, bound_to p (f s) = true → bound_to p s = true) → ports_unique (alter f i ss).
Proof.
  intros Hu Hf. destruct (ss !! i) as [s|] eqn:Hs.
  - assert (alter f i ss = <[i := f s]> ss) as ->.
    { rewrite list_insert_alter. apply list_alter_ext; [|done]. intros x Hx. by simplify_eq. }
    apply (ports_unique_insert _ _ s); [done|done|]. intros p Hp. left. by apply Hf.
  - assert (alter f i ss = ss) as ->; [|done]. apply list_eq. intros j.
    destruct (decide (i = j)) as [->|]; [rewrite list_lookup_alter_eq, Hs; done|by rewrite list_lookup_alter_ne].
Qed.

Lemma udp_socket_wf u : udp_wf u → udp_wf (udp_socket u).2.
Proof.
  intros Hu. pose proof Hu as [Hn Hss Hpu _ _]. unfold udp_socket. case_match; [|done]. simpl.
  apply udp_wf_sockets; [done|by rewrite length_alter| |].
  - apply Forall_alter; [done|]. intros s _ []. by split.
  - apply ports_unique_alter; [done|]. intros s p. by unfold bound_to.
Qed.

Lemma udp_close_wf sock u : udp_wf u → udp_wf (udp_close sock u).
Proof.
  intros Hu. pose proof Hu as [Hn Hss Hpu _ _]. unfold udp_close. case_match; [|done].
  apply udp_wf_sockets; [done|by rewrite length_alter| |].
  - apply Forall_alter; [done|]. intros s _ []. by split.
  - apply ports_unique_alter; [done|]. intros s p. by unfold bound_to.
Qed.

Lemma udp_bind_wf sock p u : udp_wf u → 0 <= p < 2 ^ 16 → udp_wf (udp_bind sock p u).2.
Proof.
  intros Hu Hp. pose proof Hu as [Hn Hss Hpu _ _]. unfold udp_bind.
  destruct (_ || _); [done|]. destruct (sockets u !! Z.to_nat sock) as [s|] eqn:Hs; [|done].
  destruct (negb _); [done|]. destruct (find_socket (bound_to p) (sockets u) 0) eqn:Hf; [done|]. simpl.
  destruct (Forall_lookup_1 _ _ _ _ Hss Hs) as [Sb Sy Sl [Sp1 Sp2]].
  apply udp_wf_sockets; [done|by rewrite length_insert| |].
  - apply Forall_insert; [done|]. by split; simpl.
  - apply (ports_unique_insert _ _ s); [done|done|]. intros q. unfold bound_to. simpl.
    destruct (Z.eqb_spec p q) as [->|]; [|by rewrite andb_false_r]. intros _. right.
    apply (find_socket_None _ _ _ Hf).
Qed.

Lemma udp_recvfrom_wf sock max u :
  udp_wf u → 0 <= max →
  ∃ r, udp_recvfrom sock max u = Ok r ∧ udp_wf r.2 ∧ Z.of_nat (length r.1.1.2) <= max ∧
    bytes r.1.1.2 ∧ (0 < r.1.1.1 → r.1.1.1 = Z.of_nat (length r.1.1.2)) ∧ opened r.2 = opened u.
Proof.
  intros Hu Hm. pose proof Hu as [Hn Hss Hpu _ _]. unfold udp_recvfrom.
  destruct (Z.ltb_spec sock 0); [eexists; split; [done|]; split_and!; simpl; try done; constructor|].
  destruct (Z.leb_spec (Z.of_nat UDP_MAX_SOCKETS) sock); [eexists; split; [done|]; split_and!; simpl; try done; constructor|]. cbn [orb].
  destruct (lookup_lt_is_Some_2 (sockets u) (Z.to_nat sock)) as [s Hs]; [lia|]. rewrite Hs.
  destruct (Forall_lookup_1 _ _ _ _ Hss Hs) as [Sb Sy Sl Sp].
  destruct (_ || _); [eexists; split; [done|]; split_and!; simpl; try done; constructor|].
  destruct (negb (rx_ready s)); [eexists; split; [done|]; split_and!; simpl; try done; constructor|].
  set (len := if _ <? _ then _ else _). assert (0 <= len <= max ∧ len <= 1500) as [? ?]
    by (unfold len; case_match; lia). clearbody len.
  destruct (view_bytes (rx_buffer s) 0 len) as (out & -> & Hob & Ho); [done|lia..|]. step.
  eexists. split; [done|]. simpl.
  split; [|split; [lia|split; [done|split; [lia|by apply (opened_insert _ _ s)]]]].
  apply udp_wf_sockets; [done|by rewrite length_insert| |].
  - apply Forall_insert; [done|]. by split; simpl.
  - apply (ports_unique_insert _ _ s); [done|done|]. intros q. by left.
Qed.

(** * Properties *)

(** C8: a datagram that one host sends to a port another host has bound is what the
    other host's [udp_recvfrom] returns, byte for byte and with the right sender,
    through UDP, IPv4 and Ethernet on both sides, when the sender's ARP table maps
    the next hop to the receiver. *)
Theorem udp_end_to_end uA sA uB macB ipB i sock sp dp data :
  udp_wf uA → ip_wf sA → udp_wf uB → 0 < ipB < 2 ^ 32 →
  0 < sp < 2 ^ 16 → 0 < dp < 2 ^ 16 → bytes data → Z.of_nat (length data) <= 1472 →
  next_hop (ip_net sA) ipB ≠ IP_BROADCAST →
  arp_lookup (next_hop (ip_net sA) ipB) (arp_table (arp sA)) = Some macB →
  sockets uB !! i = Some sock → bound_to dp sock = true →
  ∃ ok uA' sA' frame d src dst uB' uB'',
    udp_send ipB sp dp data (Z.of_nat (length data)) uA sA = Ok (ok, uA', sA') ∧
    tx (ip_net sA') = tx (ip_net sA) ++ [frame] ∧
    receive_frame macB ipB frame = Ok (ToUdp d src dst) ∧
    udp_receive d (Z.of_nat (length d)) src uB = Ok (uB', None) ∧
    udp_recvfrom (Z.of_nat i) 1500 uB' =
      Ok (Z.of_nat (length data), data, (net_get_ip (ip_net sA), sp), uB'').
Proof.
  intros HuA HsA HuB Hip Hsp Hdp Hb Hl Hnb Harp Hi Hbd.
  pose proof HsA as [Ha _ _ Hg].
  destruct (arp_lookup_ok _ _ _ (arp_tab _ Ha) Harp) as [Hm Hun].
  assert (Hz : eth_mac_is_zero macB = false).
  { unfold arp_mac_is_unusable in Hun. by apply orb_false_iff in Hun as [? _]. }
  destruct (arp_resolve_spec (next_hop (ip_net sA) ipB) (arp sA)) as (r & a' & Er & _ & _ & _ & _ & Hc);
    [done|apply next_hop_range; [lia|done]|]. destruct (Hc macB Hnb Harp) as [-> ->].
  destruct (udp_send_spec ipB sp dp data uA sA) as (ok & uA' & sA' & Es & _ & _ & _ & Eip); [done..|].
  set (src := net_get_ip (ip_net sA)). set (pkt := udp_datagram src ipB sp dp data).
  assert (Hpb : bytes pkt).
  { unfold pkt, udp_datagram, bytes. rewrite Forall_app. split; [apply udp_header_bytes|done]. }
  assert (Hpl : Z.of_nat (length pkt) <= 1480).
  { unfold pkt, udp_datagram. rewrite length_app, udp_header_length. lia. }
  destruct (ip_hop_spec ipB IP_PROTO_UDP pkt sA macB) as (ok' & s'' & frame & E2 & _ & Htx & Hrec);
    [done|done|unfold IP_PROTO_UDP; lia|done|done|done|done|done|].
  change (ip_send ipB IP_PROTO_UDP pkt (Z.of_nat (length pkt)) sA = Ok (ok, sA')) in Eip.
  change (ip_send ipB IP_PROTO_UDP pkt (Z.of_nat (length pkt)) sA = Ok (ok', s'')) in E2.
  rewrite Eip in E2. simplify_eq.
  destruct (udp_receive_datagram src ipB sp dp data uB i sock) as (buf & Eu & Hbuf); [done..|].
  pose proof (lookup_lt_Some _ _ _ Hi) as Hlt. rewrite (udp_len _ HuB) in Hlt.
  unfold bound_to in Hbd. apply andb_true_iff in Hbd as [[Hin Hbnd]%andb_true_iff _].
  set (t := mkUdpSocket (in_use sock) (port sock) (bound sock) buf (Z.of_nat (length data)) src sp true) in *.
  destruct (udp_recvfrom_datagram (with_sockets (<[i := t]> (sockets uB)) uB) i t buf data src sp 1500)
    as (uB'' & Er2);
    [done|simpl; rewrite list_lookup_insert_eq; [done|by eapply lookup_lt_Some]|done|done|exact Hbuf|done..|lia|].
  eexists _, _, _, frame, pkt, src, ipB, _, uB''. split; [done|]. split; [done|].
  split; [apply Hrec; [done|by left|by left]|]. split; [exact Eu|exact Er2].
Qed.

(** Two hosts: the sender of [sample_host], and a receiver that has bound port 53. *)
Definition closed_socket : UdpSocket := mkUdpSocket false 0 false (replicate 1500 0) 0 0 0 false.
Definition sample_udp (s : UdpSocket) : Udp :=
  mkUdp (s :: replicate 15 closed_socket) (replicate 1600 0) (replicate 1600 0).
Definition dns_socket : UdpSocket := mkUdpSocket true 53 true (replicate 1500 0) 0 0 0 false.

Lemma sample_udp_wf s : socket_ok s → udp_wf (sample_udp s).
Proof.
  intros Hs. split; [done| | |apply length_replicate|apply length_replicate].
  - apply Forall_cons. split; [done|]. apply Forall_replicate.
    split; [apply length_replicate|by apply Forall_replicate|simpl; lia|simpl; lia].
  - assert (Hv : ∀ i x p, sockets (sample_udp s) !! i = Some x → bound_to p x = true → i = 0%nat).
    { intros [|i] x p Hi Hx; [done|]. change (replicate 15 closed_socket !! i = Some x) in Hi.
      apply lookup_replicate in Hi as [-> _]. done. }
    intros i j s1 s2 p H1 H2 V1 V2. by rewrite (Hv i s1 p H1 V1), (Hv j s2 p H2 V2).
Qed.

Lemma zero_socket_ok b p b' : 0 <= p < 2 ^ 16 → socket_ok (mkUdpSocket b p b' (replicate 1500 0) 0 0 0 false).
Proof.
  intros. split; [apply length_replicate|by apply Forall_replicate|simpl; lia|simpl; lia].
Qed.

Lemma udp_end_to_end_witness :
  ∃ ok uA' sA' frame d src dst uB' uB'',
    udp_send 0x0200000A 1000 53 [104; 105] 2 (sample_udp closed_socket) sample_host = Ok (ok, uA', sA') ∧
    tx (ip_net sA') = [frame] ∧
    receive_frame (sample_mac 2) 0x0200000A frame = Ok (ToUdp d src dst) ∧
    udp_receive d (Z.of_nat (length d)) src (sample_udp dns_socket) = Ok (uB', None) ∧
    udp_recvfrom 0 1500 uB' = Ok (2, [104; 105], (0x0100000A, 1000), uB'').
Proof.
  apply (udp_end_to_end (sample_udp closed_socket) sample_host (sample_udp dns_socket) (sample_mac 2)
    0x0200000A 0 dns_socket 1000 53 [104; 105]);
    [apply sample_udp_wf, zero_socket_ok; lia|apply sample_host_wf|apply sample_udp_wf, zero_socket_ok; lia
    |lia|lia|lia|repeat (constructor; [lia|]); constructor|simpl; lia|vm_compute; discriminate|vm_compute; reflexivity
    |reflexivity|reflexivity].
Defined.

(** C38: [udp_receive] is safe on hostile input (any bytes, any claimed length) and
    keeps every socket well formed and every bound port unique, as do opening,
    binding, receiving on and closing sockets in any order. *)
Theorem udp_sockets_safe u :
  udp_wf u →
  (∀ data src, bytes data → Z.of_nat (length data) < 2 ^ 16 →
     ∃ u' d, udp_receive data (Z.of_nat (length data)) src u = Ok (u', d) ∧ udp_wf u') ∧
  udp_wf (udp_socket u).2 ∧
  (∀ sock p, 0 <= p < 2 ^ 16 → udp_wf (udp_bind sock p u).2) ∧
  (∀ sock max, 0 <= max →
     ∃ r, udp_recvfrom sock max u = Ok r ∧ udp_wf r.2 ∧ Z.of_nat (length r.1.1.2) <= max) ∧
  (∀ sock, udp_wf (udp_close sock u)).
Proof.
  intros Hu. split; [|split; [|split; [|split]]].
  - intros data src Hb Hl. destruct (udp_receive_total data src u Hu Hb Hl) as (u' & d & E & H & _). eauto.
  - by apply udp_socket_wf.
  - intros. by apply udp_bind_wf.
  - intros sock max Hm. destruct (udp_recvfrom_wf sock max u Hu Hm) as (r & ? & ? & ? & _). eauto.
  - intros. by apply udp_close_wf.
Qed.

Lemma udp_sockets_safe_witness : udp_wf (udp_socket (sample_udp dns_socket)).2.
Proof.
  apply (udp_sockets_safe (sample_udp dns_socket)). apply sample_udp_wf, zero_socket_ok. lia.
Defined.
