(* ===== verification/Dns.v ===== *)
(** DNS client (src/net/dns.cpp): dotted-decimal parsing, name encoding, query
    construction, response parsing, and [dns_resolve] over a UDP socket. Strings are
    lists of character codes without the terminating NUL. *)

From S2P Require Import Prelude Wire Ethernet Arp Ipv4 Udp.

(** * Model *)

Definition DNS_PORT : Z := 53.
Definition DNS_MAX_NAME_LEN : Z := 256.
Definition DNS_HEADER_SIZE : Z := 12.
Definition DNS_FLAG_QR : Z := 0x8000.
Definition DNS_FLAG_RD : Z := 0x0100.
Definition DNS_FLAG_RCODE : Z := 0x000F.
Definition DNS_TYPE_A : Z := 1.
Definition DNS_CLASS_IN : Z := 1.

Definition is_digit (c : Z) : bool := (48 <=? c) && (c <=? 57).

Fixpoint is_ip_loop (str : list Z) (dots : Z) (has_digit : bool) (octet_value : Z) : bool :=
  match str with
  | [] => (dots =? 3) && has_digit
  | c :: str' =>
      if is_digit c then
        let v := octet_value * 10 + (c - 48) in
        if 255 <? v then false else is_ip_loop str' dots true v
      else if c =? 46 then
        if negb has_digit then false else is_ip_loop str' (dots + 1) false 0
      else false
  end.

Definition dns_is_ip_address (str : list Z) : bool :=
  match str with [] => false | _ => is_ip_loop str 0 false 0 end.

(** [octets] is the four-element array; [None] is the early [return 0]. *)
Fixpoint parse_ip_loop (str : list Z) (octets : list Z) (octet_idx : nat) : option (list Z) :=
  match str with
  | [] => Some octets
  | c :: str' =>
      if Nat.leb 4 octet_idx then Some octets
      else if is_digit c then
        let v := u32 (nth octet_idx octets 0 * 10 + (c - 48)) in
        if 255 <? v then None else parse_ip_loop str' (<[octet_idx := v]> octets) octet_idx
      else if c =? 46 then parse_ip_loop str' octets (S octet_idx)
      else parse_ip_loop str' octets octet_idx
  end.

Definition dns_parse_ip (str : list Z) : Z :=
  if negb (dns_is_ip_address str) then 0
  else match parse_ip_loop str [0; 0; 0; 0] 0 with
       | Some [a; b; c; d] =>
           Z.lor (Z.lor (Z.lor a (Z.shiftl b 8)) (Z.shiftl c 16)) (Z.shiftl d 24)
       | _ => 0
       end.

(** The loop of [dns_encode_name]; [base] is where [out] starts in the buffer and
    [None] is a [return 0]. *)
Fixpoint encode_loop (hostname : list Z) (base : Z) (out : list Z) (pos label_pos label_len : Z)
    : res (list Z * option (Z * Z * Z)) :=
  match hostname with
  | [] => Ok (out, Some (pos, label_pos, label_len))
  | c :: rest =>
      if c =? 46 then
        if label_len =? 0 then Ok (out, None)
        else
          out' ← arr_set out (base + label_pos) (u8 label_len);
          if DNS_MAX_NAME_LEN <=? pos + 1 then Ok (out', None)
          else encode_loop rest base out' (pos + 1) pos 0
      else if (63 <=? label_len) || (DNS_MAX_NAME_LEN <=? pos) then Ok (out, None)
      else
        out' ← arr_set out (base + pos) (u8 c);
        encode_loop rest base out' (pos + 1) label_pos (label_len + 1)
  end.

(** The length returned (0 for a bad name) and the buffer. *)
Definition dns_encode_name (hostname : list Z) (base : Z) (out : list Z) : res (Z * list Z) :=
  match hostname with
  | [] => Ok (0, out)
  | _ =>
      '(out, r) ← encode_loop hostname base out 1 0 0;
      match r with
      | None => Ok (0, out)
      | Some (pos, label_pos, label_len) =>
          if label_len =? 0 then Ok (0, out)
          else
            out ← arr_set out (base + label_pos) (u8 label_len);
            out ← arr_set out (base + pos) 0;
            Ok (pos + 1, out)
      end
  end.

(** The query length, the buffer and the transaction id after the call. *)
Definition dns_build_query (hostname : list Z) (buffer : list Z) (tid : Z) : res (Z * list Z * Z) :=
  let tid := u16 (tid + 1) in
  b ← st16 buffer 0 (htons tid);
  b ← st16 b 2 (htons DNS_FLAG_RD);
  b ← st16 b 4 (htons 1);
  b ← st16 b 6 0;
  b ← st16 b 8 0;
  b ← st16 b 10 0;
  '(name_len, b) ← dns_encode_name hostname DNS_HEADER_SIZE b;
  if name_len <=? 1 then Ok (0, b, tid)
  else
    let pos := DNS_HEADER_SIZE + name_len in
    b ← arr_set b pos DNS_TYPE_A;
    b ← arr_set b (pos + 1) DNS_CLASS_IN;
    Ok (pos + 2, b, tid).

(** Skipping a possibly compressed name; [None] is a [return 0]. *)
Definition skip_name (buffer : list Z) (length pos : Z) : res (option Z) :=
  loop (S (Z.to_nat (length - pos)))
    (λ pos,
       if pos <? length then
         len ← arr_get buffer pos;
         if len =? 0 then Ok (inr (Some (pos + 1)))
         else if Z.land len 0xC0 =? 0xC0 then
           if length <=? pos + 1 then Ok (inr None) else Ok (inr (Some (pos + 2)))
         else if length <? pos + 1 + len then Ok (inr None)
         else Ok (inl (pos + len + 1))
       else Ok (inr (Some pos)))
    pos.

(** [for (i = 0; i < qdcount && pos < length; i++)] over the questions. *)
Fixpoint skip_questions (n : nat) (buffer : list Z) (length pos : Z) : res (option Z) :=
  match n with
  | O => Ok (Some pos)
  | S n' =>
      if pos <? length then
        r ← skip_name buffer length pos;
        match r with
        | None => Ok None
        | Some pos => if length <? pos + 4 then Ok None else skip_questions n' buffer length (pos + 4)
        end
      else Ok (Some pos)
  end.

Definition be16_at (buffer : list Z) (pos : Z) : res Z :=
  hi ← arr_get buffer pos; lo ← arr_get buffer (pos + 1);
  Ok (u16 (Z.lor (Z.shiftl hi 8) lo)).

Fixpoint scan_answers (n : nat) (buffer : list Z) (length pos : Z) : res Z :=
  match n with
  | O => Ok 0
  | S n' =>
      if pos <? length then
        r ← skip_name buffer length pos;
        match r with
        | None => Ok 0
        | Some pos =>
            if length <? pos + 10 then Ok 0
            else
              type ← be16_at buffer pos;
              rdlength ← be16_at buffer (pos + 8);
              let pos := pos + 10 in
              if (type =? DNS_TYPE_A) && (rdlength =? 4) && (pos + 4 <=? length) then
                b0 ← arr_get buffer pos; b1 ← arr_get buffer (pos + 1);
                b2 ← arr_get buffer (pos + 2); b3 ← arr_get buffer (pos + 3);
                Ok (Z.lor (Z.lor (Z.lor b0 (Z.shiftl b1 8)) (Z.shiftl b2 16)) (Z.shiftl b3 24))
              else if length <? pos + rdlength then Ok 0
              else scan_answers n' buffer length (pos + rdlength)
        end
      else Ok 0
  end.

Definition dns_parse_response (buffer : list Z) (length tid : Z) : res Z :=
  if length <? DNS_HEADER_SIZE then Ok 0
  else
    id ← ld16 buffer 0;
    if negb (ntohs id =? tid) then Ok 0
    else
      fl ← ld16 buffer 2;
      let flags := ntohs fl in
      if Z.land flags DNS_FLAG_QR =? 0 then Ok 0
      else if negb (Z.land flags DNS_FLAG_RCODE =? 0) then Ok 0
      else
        qd ← ld16 buffer 4; an ← ld16 buffer 6;
        let qdcount := ntohs qd in
        let ancount := ntohs an in
        if ancount =? 0 then Ok 0
        else
          r ← skip_questions (Z.to_nat qdcount) buffer length DNS_HEADER_SIZE;
          match r with
          | None => Ok 0
          | Some pos => scan_answers (Z.to_nat ancount) buffer length pos
          end.

(** UDP segments that one network poll delivers: bytes and source address. *)
Fixpoint udp_deliver (segs : list (list Z * Z)) (u : Udp) : res Udp :=
  match segs with
  | [] => Ok u
  | (d, src) :: segs' => '(u', _) ← udp_receive d (Z.of_nat (length d)) src u; udp_deliver segs' u'
  end.

(** The waiting loop: poll, receive, parse, until an address or out of polls. *)
Fixpoint dns_wait (polls : list (list (list Z * Z))) (sock tid : Z) (u : Udp) : res (Z * Udp) :=
  match polls with
  | [] => Ok (0, u)
  | segs :: polls' =>
      u1 ← udp_deliver segs u;
      '(len, buffer, _, u2) ← udp_recvfrom sock 512 u1;
      if 0 <? len then
        resolved ← dns_parse_response buffer len tid;
        if resolved =? 0 then dns_wait polls' sock tid u2 else Ok (resolved, u2)
      else dns_wait polls' sock tid u2
  end.

Section resolve.
Context {W : Type} `{IpLayer W}.

(** [query] is the uninitialised 512-byte buffer, [dns_server] the configured
    server; the result is the address and the transaction id, sockets and network
    layer afterwards. *)
Definition dns_resolve (hostname query : list Z) (dns_server tid : Z)
    (polls : list (list (list Z * Z))) (u : Udp) (w : W) : res (Z * Z * Udp * W) :=
  match hostname with
  | [] => Ok (0, tid, u, w)
  | _ =>
      if dns_is_ip_address hostname then Ok (dns_parse_ip hostname, tid, u, w)
      else
        let dns_server := if dns_server =? 0 then dns_parse_ip [56; 46; 56; 46; 56; 46; 56]
                          else dns_server in
        '(query_len, query, tid) ← dns_build_query hostname query tid;
        if query_len <=? 0 then Ok (0, tid, u, w)
        else
          let '(sock, u) := udp_socket u in
          if sock <? 0 then Ok (0, tid, u, w)
          else
            let '(ok, u) := udp_bind sock (50000 + tid mod 1000) u in
            if negb ok then Ok (0, tid, udp_close sock u, w)
            else
              '(sent, u, w) ← udp_sendto sock dns_server DNS_PORT query query_len u w;
              if negb sent then Ok (0, tid, udp_close sock u, w)
              else
                '(r, u) ← dns_wait polls sock tid u;
                Ok (r, tid, udp_close sock u, w)
  end.
End resolve.

(** * Specification *)

(** A name as RFC 1035 encodes it: length-prefixed labels, then the root. *)
Definition dns_name (labels : list (list Z)) : list Z :=
  concat ((λ l, Z.of_nat (length l) :: l) <$> labels) ++ [0].

(** The dotted form of a name. *)
Fixpoint dotted (labels : list (list Z)) : list Z :=
  match labels with
  | [] => []
  | [l] => l
  | l :: ls => l ++ [46] ++ dotted ls
  end.

Definition label_ok (l : list Z) : Prop :=
  (1 <= length l <= 63)%nat ∧ Forall (λ c, 0 < c < 2 ^ 8 ∧ c ≠ 46) l.

(** * Lemmas: dotted decimal *)

Lemma append_num_ip n str dots :
  0 <= n < 2 ^ 8 →
  is_ip_loop (append_num n ++ str) dots false 0 = is_ip_loop str dots true n ∧
  ∀ octets k, (k < 4)%nat → length octets = 4%nat → nth k octets 0 = 0 →
    parse_ip_loop (append_num n ++ str) octets k = parse_ip_loop str (<[k := n]> octets) k.
Proof.
  intros Hn. unfold append_num.
  assert (Hdig : ∀ d, 0 <= d < 10 → is_digit (48 + d) = true).
  { intros d Hd. unfold is_digit. destruct (Z.leb_spec 48 (48 + d)), (Z.leb_spec (48 + d) 57); done || lia. }
  assert (Hstep : ∀ d v s b, 0 <= d < 10 → v * 10 + d <= 255 →
    is_ip_loop (48 + d :: s) dots b v = is_ip_loop s dots true (v * 10 + d)).
  { intros d v s b Hd Hv. cbn [is_ip_loop]. rewrite Hdig by done.
    replace (v * 10 + (48 + d - 48)) with (v * 10 + d) by lia.
    destruct (Z.ltb_spec 255 (v * 10 + d)); [lia|done]. }
  assert (Hstep2 : ∀ d s octets k, 0 <= d < 10 → (k < 4)%nat → 0 <= nth k octets 0 * 10 + d <= 255 →
    parse_ip_loop (48 + d :: s) octets k = parse_ip_loop s (<[k := nth k octets 0 * 10 + d]> octets) k).
  { intros d s octets k Hd Hk Hv. cbn [parse_ip_loop]. destruct (Nat.leb_spec 4 k); [lia|].
    rewrite Hdig by done. replace (nth k octets 0 * 10 + (48 + d - 48)) with (nth k octets 0 * 10 + d) by lia.
    rewrite u32_small by lia. destruct (Z.ltb_spec 255 (nth k octets 0 * 10 + d)); [lia|done]. }
  assert (Hnth : ∀ (octets : list Z) k v, (k < length octets)%nat → nth k (<[k := v]> octets) 0 = v).
  { intros octets k v Hk. by rewrite nth_lookup, list_lookup_insert_eq. }
  destruct (Z.leb_spec 100 n), (Z.leb_spec 10 n); try lia; cbn [app]; split.
  - rewrite !Hstep by lia. f_equal. lia.
  - intros octets k Hk Hl Hz. rewrite !Hstep2; rewrite ?Hnth; rewrite ?length_insert; try lia.
    rewrite !list_insert_insert_eq, Hz. do 2 f_equal. lia.
  - rewrite !Hstep by lia. f_equal. lia.
  - intros octets k Hk Hl Hz. rewrite !Hstep2; rewrite ?Hnth; rewrite ?length_insert; try lia.
    rewrite !list_insert_insert_eq, Hz. do 2 f_equal. lia.
  - rewrite !Hstep by lia. f_equal. lia.
  - intros octets k Hk Hl Hz. rewrite !Hstep2 by lia. rewrite Hz. do 2 f_equal. lia.
Qed.

Lemma land_ff v : Z.land v 0xFF = v mod 2 ^ 8.
Proof. change 0xFF with (Z.ones 8). by rewrite Z.land_ones by lia. Qed.

Lemma is_ip_dot str dots v : is_ip_loop (46 :: str) dots true v = is_ip_loop str (dots + 1) false 0.
Proof. done. Qed.

Lemma parse_ip_dot str octets k : (k < 4)%nat → parse_ip_loop (46 :: str) octets k = parse_ip_loop str octets (S k).
Proof. intros. cbn [parse_ip_loop]. destruct (Nat.leb_spec 4 k); [lia|done]. Qed.

Lemma append_num_cons n str : ∃ c rest, append_num n ++ str = c :: rest.
Proof. unfold append_num. repeat case_match; simpl; eauto. Qed.

Lemma ip_text_roundtrip a :
  0 <= a < 2 ^ 32 →
  ∃ text, ip_format a = text ++ [0] ∧ dns_is_ip_address text = true ∧ dns_parse_ip text = a.
Proof.
  intros (x & y & z & t & -> & [Hx Hy] & [Hz Ht])%word4_split.
  exists (append_num x ++ [46] ++ append_num y ++ [46] ++ append_num z ++ [46] ++ append_num t ++ []).
  destruct (word4_bytes x y z t) as (E1 & E2 & E3 & E4 & _); [done..|].
  set (text := _ ++ [46] ++ _).
  assert (Hip : dns_is_ip_address text = true).
  { unfold text. destruct (append_num_cons x ([46] ++ append_num y ++ [46] ++ append_num z ++ [46] ++ append_num t ++ []))
      as (c & rest & E). unfold dns_is_ip_address. rewrite E, <-E.
    rewrite (proj1 (append_num_ip x _ _ Hx)). cbn [app]. rewrite is_ip_dot.
    rewrite (proj1 (append_num_ip y _ _ Hy)), is_ip_dot.
    rewrite (proj1 (append_num_ip z _ _ Hz)), is_ip_dot.
    by rewrite (proj1 (append_num_ip t _ _ Ht)). }
  split; [|split; [done|]].
  - unfold text, ip_format. rewrite !land_ff, !Z.shiftr_div_pow2, E1, E2, E3, E4 by lia.
    by rewrite app_nil_r, <-!(assoc_L (++)).
  - unfold dns_parse_ip. rewrite Hip. unfold text. cbn [negb].
    rewrite (proj2 (append_num_ip x _ 0 Hx)) by (done || lia). cbn [app]. rewrite parse_ip_dot by lia.
    rewrite (proj2 (append_num_ip y _ 0 Hy)) by (done || lia). rewrite parse_ip_dot by lia.
    rewrite (proj2 (append_num_ip z _ 0 Hz)) by (done || lia). rewrite parse_ip_dot by lia.
    rewrite (proj2 (append_num_ip t _ 0 Ht)) by (done || lia). cbn [parse_ip_loop list_insert insert].
    by apply word4_lor.
Qed.

(** * Lemmas: response parsing *)

Lemma skip_name_spec buffer length pos :
  bytes buffer → length <= Z.of_nat (List.length buffer) → 0 <= pos →
  ∃ r, skip_name buffer length pos = Ok r ∧ ∀ p, r = Some p → 0 <= p.
Proof.
  intros Hb Hl Hp. unfold skip_name.
  edestruct (loop_rule (λ pos, 0 <= pos) (λ r, ∀ p, r = Some p → 0 <= p) (λ pos, Z.to_nat (length - pos)))
    as (r & E & H); [| | |exists r; split; [exact E|exact H]]; [|done|lia].
  intros p Hp'. cbv beta. destruct (Z.ltb_spec p length); [|eexists; split; [done|]; intros ? [= <-]; done].
  rewrite (arr_get_in _ _ 0) by lia. step. pose proof (nth_bytes buffer (Z.to_nat p) Hb).
  set (len := nth _ buffer 0) in *. clearbody len.
  destruct (Z.eqb_spec len 0); [eexists; split; [done|]; intros ? [= <-]; lia|].
  destruct (_ =? _).
  - destruct (_ <=? _); eexists; (split; [done|]); [done|]. intros ? [= <-]. lia.
  - destruct (_ <? _); eexists; (split; [done|]); [done|]. split; lia.
Qed.

Lemma skip_questions_spec n buffer length : ∀ pos,
  bytes buffer → length <= Z.of_nat (List.length buffer) → 0 <= pos →
  ∃ r, skip_questions n buffer length pos = Ok r ∧ ∀ p, r = Some p → 0 <= p.
Proof.
  induction n as [|n IH]; intros pos Hb Hl Hp; simpl.
  { eexists. split; [done|]. by intros ? [= <-]. }
  destruct (pos <? length); [|eexists; split; [done|]; by intros ? [= <-]].
  destruct (skip_name_spec buffer length pos) as ([p|] & -> & H); [done..| |]; step; [|by eexists].
  destruct (length <? p + 4); [by eexists|]. apply IH; [done|done|]. specialize (H p eq_refl). lia.
Qed.

Lemma be16_at_in buffer pos :
  bytes buffer → 0 <= pos → pos + 2 <= Z.of_nat (length buffer) →
  be16_at buffer pos = Ok (2 ^ 8 * nth (Z.to_nat pos) buffer 0 + nth (Z.to_nat (pos + 1)) buffer 0).
Proof.
  intros Hb Hp Hl. unfold be16_at. rewrite !(arr_get_in _ _ 0) by lia. step.
  pose proof (nth_bytes buffer (Z.to_nat pos) Hb). pose proof (nth_bytes buffer (Z.to_nat (pos + 1)) Hb).
  rewrite Z.shiftl_mul_pow2 by lia. rewrite (lor_add _ _ 8) by lia. rewrite u16_small by lia. f_equal. lia.
Qed.

Lemma scan_answers_spec n buffer length : ∀ pos,
  bytes buffer → length <= Z.of_nat (List.length buffer) → 0 <= pos →
  ∃ r, scan_answers n buffer length pos = Ok r ∧ 0 <= r < 2 ^ 32.
Proof.
  induction n as [|n IH]; intros pos Hb Hl Hp; simpl; [by exists 0|].
  destruct (pos <? length); [|by exists 0].
  destruct (skip_name_spec buffer length pos) as ([p|] & -> & H); [done..| |]; step; [|by exists 0].
  specialize (H p eq_refl). destruct (Z.ltb_spec length (p + 10)); [by exists 0|].
  rewrite !be16_at_in by (done || lia). step.
  pose proof (nth_bytes buffer (Z.to_nat (p + 8)) Hb). pose proof (nth_bytes buffer (Z.to_nat (p + 8 + 1)) Hb).
  set (rd := 2 ^ 8 * nth (Z.to_nat (p + 8)) buffer 0 + _). assert (0 <= rd) by lia. clearbody rd.
  destruct (Z.leb_spec (p + 10 + 4) length).
  2: { rewrite andb_false_r. destruct (length <? _); [by exists 0|]. apply IH; [done|done|lia]. }
  destruct (_ && _ && true); [|destruct (length <? _); [by exists 0|]; apply IH; [done|done|lia]].
  rewrite !(arr_get_in _ _ 0) by lia. step. eexists. split; [done|].
  rewrite word4_lor by (apply nth_bytes; done). unfold word4.
  pose proof (nth_bytes buffer (Z.to_nat (p + 10)) Hb). pose proof (nth_bytes buffer (Z.to_nat (p + 10 + 1)) Hb).
  pose proof (nth_bytes buffer (Z.to_nat (p + 10 + 2)) Hb). pose proof (nth_bytes buffer (Z.to_nat (p + 10 + 3)) Hb). lia.
Qed.

Lemma dns_parse_response_total buffer tid :
  bytes buffer →
  ∃ r, dns_parse_response buffer (Z.of_nat (length buffer)) tid = Ok r ∧ 0 <= r < 2 ^ 32.
Proof.
  intros Hb. unfold dns_parse_response, DNS_HEADER_SIZE.
  destruct (Z.ltb_spec (Z.of_nat (length buffer)) 12); [by exists 0|].
  destruct (ld16_bytes buffer 0) as (v0 & -> & _); [done|lia..|]. step. destruct (negb _); [by exists 0|].
  destruct (ld16_bytes buffer 2) as (v2 & -> & _); [done|lia..|]. step.
  destruct (_ =? 0); [by exists 0|]. destruct (negb _); [by exists 0|].
  destruct (ld16_bytes buffer 4) as (v4 & -> & _); [done|lia..|]. step.
  destruct (ld16_bytes buffer 6) as (v6 & -> & _); [done|lia..|]. step.
  destruct (_ =? 0); [by exists 0|].
  destruct (skip_questions_spec (Z.to_nat (ntohs v4)) buffer (Z.of_nat (length buffer)) 12)
    as ([p|] & -> & Hq); [done|lia|lia| |]; step; [|by exists 0].
  apply scan_answers_spec; [done|lia|by apply Hq].
Qed.

(** * Lemmas: name encoding *)

Lemma arr_set_prefix (p out : list Z) v :
  p `prefix_of` out → (length p < length out)%nat →
  ∃ out', arr_set out (Z.of_nat (length p)) v = Ok out' ∧ length out' = length out ∧ (p ++ [v]) `prefix_of` out'.
Proof.
  intros Hp Hl. destruct (st_append p out [v] Hp) as (b & E & Hb & Hpre); [simpl; lia|].
  exists b. split; [|done]. unfold st, blit in E. simpl in E. rewrite Z.add_0_r in E.
  destruct (arr_set out (Z.of_nat (length p)) v) as [o| |]; simpl in E; by simplify_eq.
Qed.

Lemma arr_set_patch (p : list Z) x q out v :
  (p ++ [x] ++ q) `prefix_of` out →
  ∃ out', arr_set out (Z.of_nat (length p)) v = Ok out' ∧ length out' = length out ∧
    (p ++ [v] ++ q) `prefix_of` out'.
Proof.
  intros Hp. destruct (st_patch p [x] q out [v] Hp) as (b & E & Hb & Hpre); [done|].
  exists b. split; [|done]. unfold st, blit in E. simpl in E. rewrite Z.add_0_r in E.
  destruct (arr_set out (Z.of_nat (length p)) v) as [o| |]; simpl in E; by simplify_eq.
Qed.

(** Encoding never writes past the 257 bytes a name can take. *)
Lemma encode_loop_total h base : ∀ out pos label_pos label_len,
  bytes out → 0 <= base → base + 257 <= Z.of_nat (length out) → 0 <= label_pos < pos → pos <= 256 →
  0 <= label_len →
  ∃ o r, encode_loop h base out pos label_pos label_len = Ok (o, r) ∧ length o = length out ∧ bytes o ∧
    ∀ p lp ll, r = Some (p, lp, ll) → 0 <= lp < p ∧ p <= 256 ∧ 0 <= ll.
Proof.
  induction h as [|c h IH]; intros out pos lp ll Hy Hb Hl Hlp Hp Hll; simpl.
  { eexists _, _. split; [done|]. split; [done|]. split; [done|]. by intros ??? [= <- <- <-]. }
  destruct (c =? 46).
  - destruct (ll =? 0); [by eexists _, _|].
    destruct (arr_set_bytes out (base + lp) (u8 ll)) as (o1 & -> & L1 & Y1); [done|unfold u8; lia|lia|]. step.
    unfold DNS_MAX_NAME_LEN. destruct (Z.leb_spec 256 (pos + 1)); [by eexists _, _|].
    destruct (IH o1 (pos + 1) pos 0) as (o & r & -> & Ho & Hr); [done|lia..|]. rewrite L1 in Ho. eauto.
  - unfold DNS_MAX_NAME_LEN. destruct (63 <=? ll); [by eexists _, _|]. cbn [orb].
    destruct (Z.leb_spec 256 pos); [by eexists _, _|].
    destruct (arr_set_bytes out (base + pos) (u8 c)) as (o1 & -> & L1 & Y1); [done|unfold u8; lia|lia|]. step.
    destruct (IH o1 (pos + 1) lp (ll + 1)) as (o & r & -> & Ho & Hr); [done|lia..|]. rewrite L1 in Ho. eauto.
Qed.

Lemma dns_encode_name_total h base out :
  bytes out → 0 <= base → base + 257 <= Z.of_nat (length out) →
  ∃ n out', dns_encode_name h base out = Ok (n, out') ∧ 0 <= n <= 257 ∧ length out' = length out ∧ bytes out'.
Proof.
  intros Hy Hb Hl. unfold dns_encode_name. destruct h as [|c h]; [by exists 0, out|].
  destruct (encode_loop_total (c :: h) base out 1 0 0) as (o & r & -> & Ho & Yo & Hr); [done|lia..|]. step.
  destruct r as [[[p lp] ll]|]; [|by exists 0, o].
  destruct (Hr _ _ _ eq_refl) as (? & ? & ?). destruct (ll =? 0); [by exists 0, o|].
  destruct (arr_set_bytes o (base + lp) (u8 ll)) as (o1 & -> & L1 & Y1); [done|unfold u8; lia|lia|]. step.
  destruct (arr_set_bytes o1 (base + p) 0) as (o2 & -> & L2 & Y2); [done|lia..|]. step.
  eexists _, _. split; [done|]. split; [lia|]. split; [lia|done].
Qed.

(** The characters of one label. *)
Lemma encode_label l : ∀ rest base out p pos lp k,
  Forall (λ c, 0 < c < 2 ^ 8 ∧ c ≠ 46) l → p `prefix_of` out → base + pos = Z.of_nat (length p) →
  0 <= k → k + Z.of_nat (length l) <= 63 → pos + Z.of_nat (length l) <= 256 →
  base + 257 <= Z.of_nat (length out) →
  ∃ out', encode_loop (l ++ rest) base out pos lp k =
    encode_loop rest base out' (pos + Z.of_nat (length l)) lp (k + Z.of_nat (length l)) ∧
    length out' = length out ∧ (p ++ l) `prefix_of` out'.
Proof.
  induction l as [|c l IH]; intros rest base out p pos lp k Hl Hp Hpos Hk H63 H256 Hout.
  { exists out. rewrite app_nil_r, !Z.add_0_r. done. }
  inversion_clear Hl as [|? ? [Hc Hne] Hl']. simpl length in *. cbn [app encode_loop].
  destruct (Z.eqb_spec c 46); [done|]. unfold DNS_MAX_NAME_LEN.
  destruct (Z.leb_spec 63 k); [lia|]. destruct (Z.leb_spec 256 pos); [lia|]. cbn [orb].
  rewrite Hpos, u8_small by lia.
  destruct (arr_set_prefix p out c) as (o1 & -> & L1 & P1); [done|lia|]. step.
  destruct (IH rest base o1 (p ++ [c]) (pos + 1) lp (k + 1)) as (o2 & -> & L2 & P2);
    [done|done|rewrite length_app; simpl; lia|lia..|].
  exists o2. split; [f_equal; lia|]. split; [lia|]. by rewrite <-(assoc_L (++)) in P2.
Qed.

(** A whole dotted name: the bytes laid down before the last length byte and the
    terminator are written. *)
Lemma encode_labels labels : ∀ base out p x pos,
  Forall label_ok labels → labels ≠ [] →
  (p ++ [x]) `prefix_of` out → base + pos = Z.of_nat (length p + 1) →
  pos + Z.of_nat (length (dotted labels)) <= 256 → base + 257 <= Z.of_nat (length out) →
  ∃ out' q y l, encode_loop (dotted labels) base out pos (pos - 1) 0 =
      Ok (out', Some (pos + Z.of_nat (length (dotted labels)), Z.of_nat (length q) - base, Z.of_nat (length l))) ∧
    length out' = length out ∧ label_ok l ∧ (q ++ [y] ++ l) `prefix_of` out' ∧
    (length q + 1 + length l)%nat = (length p + 1 + length (dotted labels))%nat ∧
    q ++ [Z.of_nat (length l)] ++ l ++ [0] = p ++ dns_name labels.
Proof.
  induction labels as [|l labels IH]; intros base out p x pos Hok Hne Hp Hpos Hlen Hout; [done|].
  apply Forall_cons in Hok as [Hl Hok]. pose proof Hl as [Hl63 Hlc]. destruct labels as [|l2 labels].
  - cbn [dotted] in *.
    destruct (encode_label l [] base out (p ++ [x]) pos (pos - 1) 0) as (o & E & Lo & Po);
      [done|done|rewrite length_app; simpl; lia|lia..|]. rewrite app_nil_r in E.
    exists o, p, x, l. rewrite E. cbn [encode_loop]. rewrite <-(assoc_L (++)) in Po.
    split; [do 5 f_equal; lia|]. split; [done|]. split; [done|]. split; [done|]. split; [lia|].
    unfold dns_name. simpl. by rewrite app_nil_r.
  - change (dotted (l :: l2 :: labels)) with (l ++ [46] ++ dotted (l2 :: labels)) in *.
    rewrite !length_app in Hlen. cbn [length] in Hlen.
    destruct (encode_label l ([46] ++ dotted (l2 :: labels)) base out (p ++ [x]) pos (pos - 1) 0)
      as (o & E & Lo & Po); [done|done|rewrite length_app; simpl; lia|lia..|]. rewrite E.
    cbn [app encode_loop]. change (46 =? 46) with true. cbv iota.
    destruct (Z.eqb_spec (0 + Z.of_nat (length l)) 0); [lia|].
    replace (base + (pos - 1)) with (Z.of_nat (length p)) by lia.
    rewrite u8_small by lia. rewrite <-(assoc_L (++)) in Po.
    destruct (arr_set_patch p x l o (0 + Z.of_nat (length l)) Po) as (o2 & -> & L2 & P2). step.
    unfold DNS_MAX_NAME_LEN. assert (1 <= length (dotted (l2 :: labels)))%nat.
    { apply Forall_cons in Hok as [[? _] _]. destruct labels; cbn [dotted]; rewrite ?length_app; lia. }
    destruct (Z.leb_spec 256 (pos + Z.of_nat (length l) + 1)); [lia|].
    set (p' := p ++ [Z.of_nat (length l)] ++ l).
    assert (Hp' : p' `prefix_of` o2) by done.
    assert (Lp' : length p' = (length p + 1 + length l)%nat) by (unfold p'; rewrite !length_app; simpl; lia).
    assert (∃ y, (p' ++ [y]) `prefix_of` o2) as [y Hy].
    { destruct Hp' as [[|y t] Ht]; [apply (f_equal length) in Ht; rewrite app_nil_r in Ht; lia|].
      exists y. exists t. by rewrite <-(assoc_L (++)). }
    destruct (IH base o2 p' y (pos + Z.of_nat (length l) + 1)) as (o3 & q & z & k & E3 & L3 & Hk & P3 & Hq & En);
      [done|done|done|lia..|].
    replace (pos + Z.of_nat (length l) + 1 - 1) with (pos + Z.of_nat (length l)) in E3 by lia.
    exists o3, q, z, k. rewrite E3. rewrite !length_app. cbn [length].
    split; [do 5 f_equal; lia|]. split; [lia|]. split; [done|]. split; [done|]. split; [lia|].
    etrans; [exact En|]. unfold p', dns_name. by list_simplifier.
Qed.

Lemma dotted_cons labels : Forall label_ok labels → labels ≠ [] → ∃ c h, dotted labels = c :: h.
Proof.
  intros Hok Hne. destruct labels as [|l labels]; [done|]. apply Forall_cons in Hok as [[Hl _] _].
  destruct l as [|c l]; [simpl in Hl; lia|]. destruct labels; simpl; eauto.
Qed.

Lemma dns_name_length labels : labels ≠ [] → length (dns_name labels) = (length (dotted labels) + 2)%nat.
Proof.
  intros Hne. induction labels as [|l labels IH]; [done|]. destruct labels as [|l2 labels].
  - unfold dns_name. simpl. rewrite !length_app. simpl. lia.
  - change (dotted (l :: l2 :: labels)) with (l ++ [46] ++ dotted (l2 :: labels)).
    change (dns_name (l :: l2 :: labels)) with ((Z.of_nat (length l) :: l ++ concat ((λ l, Z.of_nat (length l) :: l) <$> (l2 :: labels))) ++ [0]).
    specialize (IH ltac:(done)). unfold dns_name in IH. rewrite length_app in IH.
    simpl length in *. rewrite !length_app in *. simpl length in *. rewrite length_app. lia.
Qed.

Lemma dns_encode_name_spec labels base out p :
  Forall label_ok labels → labels ≠ [] → (length (dotted labels) <= 255)%nat →
  p `prefix_of` out → base = Z.of_nat (length p) → base + 257 <= Z.of_nat (length out) →
  ∃ out', dns_encode_name (dotted labels) base out = Ok (Z.of_nat (length (dns_name labels)), out') ∧
    length out' = length out ∧ (p ++ dns_name labels) `prefix_of` out'.
Proof.
  intros Hok Hne Hlen Hp Hb Hout. unfold dns_encode_name.
  destruct (dotted_cons labels Hok Hne) as (c & h & E). rewrite E, <-E.
  assert (∃ y, (p ++ [y]) `prefix_of` out) as [y Hy].
  { destruct Hp as [[|y t] Ht]; [apply (f_equal length) in Ht; rewrite app_nil_r in Ht; lia|].
    exists y. exists t. by rewrite <-(assoc_L (++)). }
  destruct (encode_labels labels base out p y 1) as (o & q & z & k & E1 & L1 & [Hk _] & P1 & Hq & En);
    [done|done|done|lia..|].
  change (1 - 1) with 0 in E1. rewrite E1. step.
  destruct (Z.eqb_spec (Z.of_nat (length k)) 0); [lia|].
  replace (base + (Z.of_nat (length q) - base)) with (Z.of_nat (length q)) by lia. rewrite u8_small by lia.
  destruct (arr_set_patch q z k o (Z.of_nat (length k)) P1) as (o2 & -> & L2 & P2). step.
  assert (Lq : length (q ++ [Z.of_nat (length k)] ++ k) = (length q + 1 + length k)%nat)
    by (rewrite !length_app; simpl; lia).
  replace (base + (1 + Z.of_nat (length (dotted labels)))) with (Z.of_nat (length (q ++ [Z.of_nat (length k)] ++ k)))
    by lia.
  destruct (arr_set_prefix _ o2 0 P2) as (o3 & -> & L3 & P3); [lia|]. step.
  exists o3. rewrite dns_name_length by done. split; [do 2 f_equal; lia|]. split; [lia|].
  by rewrite <-!(assoc_L (++)), En in P3.
Qed.

(** * Lemmas: queries *)

Lemma dns_build_query_total h buf tid :
  bytes buf → length buf = 512%nat →
  ∃ n b, dns_build_query h buf tid = Ok (n, b, u16 (tid + 1)) ∧ 0 <= n <= 512 ∧ length b = 512%nat ∧ bytes b.
Proof.
  intros Y L. unfold dns_build_query.
  do 6 (match goal with
        | Y : bytes ?b, L : length ?b = _ |- context [st16 ?b ?off ?v] =>
            let b' := fresh "b" in let L' := fresh "L" in let Y' := fresh "Y" in
            destruct (st16_total b off v) as (b' & -> & L' & Y'); [done|lia..|]; step;
            rewrite L in L'; clear Y L; rename Y' into Y, L' into L
        end).
  destruct (dns_encode_name_total h DNS_HEADER_SIZE b4) as (n & o & -> & Hn & Lo & Yo); [done|unfold DNS_HEADER_SIZE; lia..|]. step.
  destruct (Z.leb_spec n 1); [exists 0, o; split; [done|]; split; [lia|]; split; [lia|done]|].
  unfold DNS_HEADER_SIZE.
  destruct (arr_set_bytes o (12 + n) DNS_TYPE_A) as (o1 & -> & L1 & Y1); [done|done|lia|]. step.
  destruct (arr_set_bytes o1 (12 + n + 1) DNS_CLASS_IN) as (o2 & -> & L2 & Y2); [done|done|lia|]. step.
  eexists _, _. split; [done|]. split; [lia|]. split; [lia|done].
Qed.

(** The query the code sends: the header, the name, then one byte of type and one
    byte of class. *)
Definition dns_header (tid : Z) : list Z := be16 tid ++ be16 DNS_FLAG_RD ++ be16 1 ++ [0; 0; 0; 0; 0; 0].

Lemma dns_build_query_spec labels buf tid :
  Forall label_ok labels → labels ≠ [] → (length (dotted labels) <= 255)%nat → length buf = 512%nat →
  ∃ b, let q := dns_header (u16 (tid + 1)) ++ dns_name labels ++ [DNS_TYPE_A; DNS_CLASS_IN] in
    dns_build_query (dotted labels) buf tid = Ok (Z.of_nat (length q), b, u16 (tid + 1)) ∧
    q `prefix_of` b ∧ length b = 512%nat.
Proof.
  intros Hok Hne Hlen L. unfold dns_build_query. set (t := u16 (tid + 1)).
  assert (Ht : 0 <= t < 2 ^ 16) by (unfold t, u16; lia). clearbody t.
  pose proof (prefix_nil buf) as P. repeat put_field.
  rewrite !le_bytes_htons in P by (unfold DNS_FLAG_RD; lia).
  assert (Ph : dns_header t `prefix_of` b4) by exact P. clear P.
  destruct (dns_encode_name_spec labels DNS_HEADER_SIZE b4 (dns_header t)) as (o & -> & Lo & Po); [done..|unfold DNS_HEADER_SIZE; lia|]. step.
  rewrite (dns_name_length labels Hne). destruct (Z.leb_spec (Z.of_nat (length (dotted labels) + 2)) 1); [lia|].
  rewrite <-(dns_name_length labels Hne). unfold DNS_HEADER_SIZE.
  assert (Lh : length (dns_header t) = 12%nat) by done.
  assert (Ln : length (dns_header t ++ dns_name labels) = (12 + length (dns_name labels))%nat)
    by (by rewrite length_app, Lh).
  pose proof (dns_name_length labels Hne).
  replace (12 + Z.of_nat (length (dns_name labels))) with (Z.of_nat (length (dns_header t ++ dns_name labels))) by lia.
  destruct (arr_set_prefix _ o DNS_TYPE_A Po) as (o1 & -> & L1 & P1); [lia|]. step.
  assert (length ((dns_header t ++ dns_name labels) ++ [DNS_TYPE_A]) = S (length (dns_header t ++ dns_name labels)))
    by (rewrite length_app; simpl; lia).
  replace (Z.of_nat (length (dns_header t ++ dns_name labels)) + 1)
    with (Z.of_nat (length ((dns_header t ++ dns_name labels) ++ [DNS_TYPE_A]))) by lia.
  destruct (arr_set_prefix _ o1 DNS_CLASS_IN P1) as (o2 & -> & L2 & P2); [lia|]. step.
  exists o2. cbv zeta. rewrite <-!(assoc_L (++)) in P2. cbn [app] in P2. split; [|split; [exact P2|lia]].
  rewrite (assoc_L (++)), (length_app (_ ++ _)). simpl. do 3 f_equal. lia.
Qed.

(** * Lemmas: resolution *)

(** What a poll of the network can deliver. *)
Definition segments_ok (segs : list (list Z * Z)) : Prop :=
  Forall (λ s, bytes s.1 ∧ Z.of_nat (length s.1) < 2 ^ 16) segs.

Lemma udp_deliver_total segs : ∀ u,
  udp_wf u → segments_ok segs → ∃ u', udp_deliver segs u = Ok u' ∧ udp_wf u' ∧ opened u' = opened u.
Proof.
  induction segs as [|[d src] segs IH]; intros u Hu Hs; simpl; [eauto|].
  apply Forall_cons in Hs as [[Hb Hl] Hs]. simpl in Hb, Hl.
  destruct (udp_receive_total d src u Hu Hb Hl) as (u1 & p & -> & H1 & _ & O1). step.
  destruct (IH u1 H1 Hs) as (u2 & -> & H2 & O2). exists u2. split; [done|]. split; [done|congruence].
Qed.

Lemma dns_wait_total polls sock tid : ∀ u,
  udp_wf u → Forall segments_ok polls →
  ∃ r u', dns_wait polls sock tid u = Ok (r, u') ∧ udp_wf u' ∧ opened u' = opened u ∧ 0 <= r < 2 ^ 32.
Proof.
  induction polls as [|segs polls IH]; intros u Hu Hp; simpl; [by exists 0, u|].
  apply Forall_cons in Hp as [Hs Hp].
  destruct (udp_deliver_total segs u Hu Hs) as (u1 & -> & H1 & O1). step.
  destruct (udp_recvfrom_wf sock 512 u1 H1) as ([[[len buf] from] u2] & -> & H2 & Hm & Yb & Hlen & O2); [lia|].
  step. simpl in *.
  destruct (IH u2 H2 Hp) as (r' & u3 & E & H3 & O3 & Hr').
  destruct (Z.ltb_spec 0 len); [|exists r', u3; rewrite O3; split; [done|]; split; [done|]; split; [congruence|done]].
  rewrite Hlen by done. destruct (dns_parse_response_total buf tid Yb) as (r & -> & Hr). step.
  destruct (Z.eqb_spec r 0).
  - exists r', u3. rewrite O3. split; [done|]. split; [done|]. split; [congruence|done].
  - exists r, u2. split; [done|]. split; [done|]. split; [congruence|done].
Qed.

Lemma opened_alter (ss : list UdpSocket) i f b :
  (∀ s, in_use (f s) = b) → in_use <$> alter f i ss = <[i := b]> (in_use <$> ss).
Proof.
  intros Hf. rewrite list_insert_alter. apply list_fmap_alter. apply Forall_forall. intros s _. apply Hf.
Qed.

Lemma udp_socket_opened u sock u1 :
  udp_wf u → udp_socket u = (sock, u1) →
  sock < 0 ∧ u1 = u ∨
  ∃ i, sock = Z.of_nat i ∧ (i < UDP_MAX_SOCKETS)%nat ∧ opened u !! i = Some false ∧
    opened u1 = <[i := true]> (opened u).
Proof.
  intros Hu. unfold udp_socket. destruct (find_socket _ _ _) as [i|] eqn:E; intros [= <- <-]; [right|left; split; [lia|done]].
  destruct (find_socket_Some _ _ _ _ E) as (j & s & -> & Hj & Hf). exists j. split; [done|].
  split; [apply lookup_lt_Some in Hj; destruct Hu; lia|]. unfold opened. split.
  - rewrite list_lookup_fmap, Hj. simpl. by destruct (in_use s).
  - simpl. by apply opened_alter.
Qed.

Lemma udp_close_opened i u :
  (i < UDP_MAX_SOCKETS)%nat → opened (udp_close (Z.of_nat i) u) = <[i := false]> (opened u).
Proof.
  intros Hi. unfold udp_close. destruct (Z.leb_spec 0 (Z.of_nat i)); [|lia].
  destruct (Z.ltb_spec (Z.of_nat i) (Z.of_nat UDP_MAX_SOCKETS)); [|lia]. cbn [andb].
  rewrite Nat2Z.id. unfold opened. simpl. by apply opened_alter.
Qed.

Lemma udp_bind_opened sock p u : opened (udp_bind sock p u).2 = opened u.
Proof.
  unfold udp_bind. case_match; [done|]. destruct (sockets u !! Z.to_nat sock) as [s|] eqn:E; [|done].
  case_match; [done|]. case_match; [done|]. unfold opened. simpl. by apply (opened_insert _ _ s).
Qed.

Lemma udp_bind_port sock p u s :
  (udp_bind sock p u).1 = true → sockets (udp_bind sock p u).2 !! Z.to_nat sock = Some s → port s = p.
Proof.
  unfold udp_bind. case_match; [done|]. destruct (sockets u !! Z.to_nat sock) as [s0|] eqn:E; [|done].
  case_match; [done|]. case_match; [done|]. simpl. intros _.
  rewrite list_lookup_insert_eq by (by eapply lookup_lt_Some). by intros [= <-].
Qed.

Section resolve_lemmas.
Context {W : Type} `{IpLayer W} {ready : W → Prop} `{!IpLayerLaws W ready}.

(** Resolution always returns, and gives back the socket it opened on every path. *)
Lemma dns_resolve_spec h query server tid polls u w :
  udp_wf u → ready w → bytes query → length query = 512%nat → 0 <= server < 2 ^ 32 →
  Forall segments_ok polls →
  ∃ r tid' u' w', dns_resolve h query server tid polls u w = Ok (r, tid', u', w') ∧
    udp_wf u' ∧ opened u' = opened u ∧ ready w'.
Proof.
  intros Hu Hw Yq Lq Hsv Hp. unfold dns_resolve. destruct h as [|c h]; [by eexists _, _, _, _|].
  case_match; [by eexists _, _, _, _|]. cbv zeta. set (sv := if server =? 0 then _ else _).
  assert (0 < sv < 2 ^ 32) as Hsv'.
  { unfold sv. destruct (Z.eqb_spec server 0); [vm_compute; done|lia]. } clearbody sv.
  destruct (dns_build_query_total (c :: h) query tid Yq Lq) as (n & b & -> & Hn & Lb & Yb). step.
  set (t := u16 (tid + 1)). assert (0 <= t mod 1000 < 1000) by (apply Z.mod_pos_bound; lia). clearbody t.
  destruct (Z.leb_spec n 0); [by eexists _, _, _, _|].
  pose proof (udp_socket_wf u Hu) as G1. destruct (udp_socket u) as [sock u1] eqn:Es. simpl in G1.
  destruct (udp_socket_opened u sock u1 Hu Es) as [[? ->]|(i & -> & Hi & Ho & O1)].
  { destruct (Z.ltb_spec sock 0); [by eexists _, _, _, _|lia]. }
  destruct (Z.ltb_spec (Z.of_nat i) 0); [lia|].
  assert (Hclose : ∀ u', udp_wf u' → opened u' = opened u1 →
    udp_wf (udp_close (Z.of_nat i) u') ∧ opened (udp_close (Z.of_nat i) u') = opened u).
  { intros u' Hu' Ou'. split; [by apply udp_close_wf|]. rewrite udp_close_opened, Ou', O1 by done.
    rewrite list_insert_insert_eq. by apply list_insert_id. }
  pose proof (udp_bind_wf (Z.of_nat i) (50000 + t mod 1000) u1 G1 ltac:(lia)) as G2.
  pose proof (udp_bind_opened (Z.of_nat i) (50000 + t mod 1000) u1) as O2.
  pose proof (λ s, udp_bind_port (Z.of_nat i) (50000 + t mod 1000) u1 s) as Hport.
  destruct (udp_bind _ _ u1) as [ok u2]. simpl in *.
  destruct (Hclose u2) as [??]; [done..|].
  destruct ok; cbn [negb]; [|by eexists _, _, _, _].
  destruct (udp_sendto_spec (Z.of_nat i) sv DNS_PORT b n u2 w) as (sent & u3 & w' & -> & G3 & O3 & Hw');
    [done..|lia| |lia|].
  { intros s Hs. rewrite (Hport s eq_refl Hs). lia. }
  step. assert (opened u3 = opened u2) by (unfold opened; by rewrite O3).
  destruct (Hclose u3) as [??]; [done|congruence|].
  destruct sent; cbn [negb]; [|by eexists _, _, _, _].
  destruct (dns_wait_total polls (Z.of_nat i) t u3 G3 Hp) as (r & u4 & -> & G4 & O4 & _). step.
  destruct (Hclose u4) as [??]; [done|congruence|]. by eexists _, _, _, _.
Qed.
End resolve_lemmas.

(** * Properties *)

(** [ip_format] and the resolver's parser agree: the text [ip_format] prints for an
    address is recognised as an address by [dns_is_ip_address], and [dns_parse_ip]
    reads the same address back. *)
Theorem ip_format_parse_roundtrip a :
  0 <= a < 2 ^ 32 →
  ∃ text, ip_format a = text ++ [0] ∧ dns_is_ip_address text = true ∧ dns_parse_ip text = a.
Proof. apply ip_text_roundtrip. Qed.

Lemma ip_format_parse_roundtrip_witness :
  ∃ text, ip_format 0x0101A8C0 = text ++ [0] ∧ dns_is_ip_address text = true ∧ dns_parse_ip text = 0x0101A8C0.
Proof. apply (ip_format_parse_roundtrip 0x0101A8C0). lia. Defined.

(** C40: a query for a host name made of labels of 1 to 63 characters, at most 255
    characters in all, is the header with a fresh transaction id, the RFC 1035
    encoding of the name, and then the type and the class in a single byte each, two
    bytes short of the question RFC 1035 defines and of the four bytes
    [dns_parse_response] skips after a name. *)
Theorem dns_query_layout labels buf tid :
  Forall label_ok labels → labels ≠ [] → (length (dotted labels) <= 255)%nat → length buf = 512%nat →
  ∃ b, let q := dns_header (u16 (tid + 1)) ++ dns_name labels ++ [DNS_TYPE_A; DNS_CLASS_IN] in
    dns_build_query (dotted labels) buf tid = Ok (Z.of_nat (length q), b, u16 (tid + 1)) ∧
    q `prefix_of` b ∧ length b = 512%nat.
Proof. apply dns_build_query_spec. Qed.

(** The name "a.io". *)
Lemma dns_query_layout_witness :
  ∃ b, let q := dns_header 1 ++ [1; 97; 2; 105; 111; 0; 1; 1] in
    dns_build_query [97; 46; 105; 111] (replicate 512 0) 0 = Ok (Z.of_nat (length q), b, 1) ∧
    q `prefix_of` b ∧ length b = 512%nat.
Proof.
  apply (dns_query_layout [[97]; [105; 111]] (replicate 512 0) 0);
    [|done|simpl; lia|by rewrite length_replicate].
  repeat (constructor; [split; [simpl; lia|repeat (constructor; [lia|]); constructor]|]). constructor.
Defined.


