(* ===== verification/Icmp.v ===== *)
(** ICMP (src/net/icmp.cpp): answering echo requests, sending them, and matching the
    replies. The reply and request buffers are the uninitialised stack arrays of the
    code and are arguments of the model, as are the timer's ticks and frequency. *)

From S2P Require Import Prelude Wire Ethernet Arp Ipv4.

(** * Model *)

Definition ICMP_TYPE_ECHO_REPLY : Z := 0.
Definition ICMP_TYPE_ECHO_REQUEST : Z := 8.
Definition ICMP_HEADER_SIZE : Z := 8.

Record Icmp := mkIcmp {
  g_ping_callback : bool;
  g_ping_id : Z;
  g_ping_seq : Z;
  g_ping_sent_time : Z
}.

Definition icmp_init (s : Icmp) : Icmp := mkIcmp false 1234 0 (g_ping_sent_time s).

Definition icmp_set_ping_callback (installed : bool) (s : Icmp) : Icmp :=
  mkIcmp installed (g_ping_id s) (g_ping_seq s) (g_ping_sent_time s).

Section icmp.
Context {W : Type} `{IpLayer W}.

(** Writing the header and the payload of a message, and then its checksum; the
    payload is [n] bytes of [src] from [soff]. *)
Definition icmp_fill (buf : list Z) (type id seq : Z) (src : list Z) (soff n : Z) : res (list Z) :=
  b ← st8 buf 0 type;
  b ← st8 b 1 0;
  b ← st16 b 2 0;
  b ← st16 b 4 id;
  b ← st16 b 6 seq;
  b ← blit b ICMP_HEADER_SIZE src soff n;
  c ← ipv4_checksum b (ICMP_HEADER_SIZE + n);
  st16 b 2 c.

(** The arguments of the ping callback when it is called, and the network layer. *)
Definition icmp_receive (reply : list Z) (now freq : Z) (data : list Z) (length src_ip : Z)
    (s : Icmp) (w : W) : res (option (Z * Z * Z * bool) * W) :=
  if length <? ICMP_HEADER_SIZE then Ok (None, w)
  else
    let payload_len := u16 (length - ICMP_HEADER_SIZE) in
    type ← arr_get data 0;
    if type =? ICMP_TYPE_ECHO_REQUEST then
      let reply_payload_len := if 1480 - ICMP_HEADER_SIZE <? payload_len then 1480 - ICMP_HEADER_SIZE
                               else payload_len in
      id ← ld16 data 4; seq ← ld16 data 6;
      b ← icmp_fill reply ICMP_TYPE_ECHO_REPLY id seq data ICMP_HEADER_SIZE reply_payload_len;
      packet ← view b 0 (ICMP_HEADER_SIZE + reply_payload_len);
      '(_, w') ← ip_send src_ip IP_PROTO_ICMP packet (ICMP_HEADER_SIZE + reply_payload_len) w;
      Ok (None, w')
    else if type =? ICMP_TYPE_ECHO_REPLY then
      id ← ld16 data 4;
      if ntohs id =? g_ping_id s then
        sq ← ld16 data 6;
        let seq := ntohs sq in
        let rtt_ticks := u64 (now - g_ping_sent_time s) in
        if freq =? 0 then Fault
        else
          let rtt_ms := u16 (u64 (rtt_ticks * 1000) / freq) in
          Ok (if g_ping_callback s then Some (src_ip, seq, rtt_ms, true) else None, w)
      else Ok (None, w)
    else Ok (None, w).

(** The 56 payload bytes 0, 1, ..., 55. *)
Definition ping_payload : list Z := Z.of_nat <$> seq 0 56.

Definition icmp_send_echo_request (packet : list Z) (now dst_ip id seq : Z) (s : Icmp) (w : W)
    : res (bool * Icmp * W) :=
  if dst_ip =? 0 then Ok (false, s, w)
  else
    b ← icmp_fill packet ICMP_TYPE_ECHO_REQUEST (htons id) (htons seq) ping_payload 0 56;
    pkt ← view b 0 (ICMP_HEADER_SIZE + 56);
    '(ok, w') ← ip_send dst_ip IP_PROTO_ICMP pkt (ICMP_HEADER_SIZE + 56) w;
    Ok (ok, mkIcmp (g_ping_callback s) id seq now, w').
End icmp.

(** * Specification *)

Definition icmp_header (type c id seq : Z) : list Z :=
  [type; 0] ++ le_bytes 2 c ++ le_bytes 2 id ++ le_bytes 2 seq.

(** The message of RFC 792, [id] and [seq] being the words as they stand in memory. *)
Definition icmp_message (type id seq : Z) (payload : list Z) : list Z :=
  icmp_header type (65535 - ones_fold (word_sum (icmp_header type 0 id seq ++ payload))) id seq ++ payload.

(** * Lemmas *)

Lemma icmp_header_bytes type c id seq : 0 <= type < 2 ^ 8 → bytes (icmp_header type c id seq).
Proof.
  intros. unfold icmp_header, bytes. rewrite !Forall_app.
  split; [repeat (constructor; [lia|]); constructor|]. split; [|split]; apply bytes_le_bytes.
Qed.

Lemma icmp_message_bytes type id seq payload :
  0 <= type < 2 ^ 8 → bytes payload → bytes (icmp_message type id seq payload).
Proof. intros. apply Forall_app. split; [by apply icmp_header_bytes|done]. Qed.

Lemma icmp_message_length type id seq payload :
  length (icmp_message type id seq payload) = (8 + length payload)%nat.
Proof. done. Qed.

Lemma icmp_header_sum type c id seq payload :
  0 <= c < 2 ^ 16 →
  word_sum (icmp_header type c id seq ++ payload) = word_sum (icmp_header type 0 id seq ++ payload) + c.
Proof.
  intros Hc. unfold icmp_header. rewrite <-!(assoc_L (++)), !(word_sum_app [type; 0]) by (by exists 1%nat).
  rewrite !(word_sum_app (le_bytes 2 c)), !(word_sum_app (le_bytes 2 0)) by (by exists 1%nat).
  rewrite (word_sum_le_bytes c), (word_sum_le_bytes 0) by lia. lia.
Qed.

(** The receiver's checksum over the whole message is zero. *)
Lemma icmp_message_verifies type id seq payload :
  0 <= type < 2 ^ 8 → bytes payload → (length payload <= 1472)%nat →
  ipv4_checksum (icmp_message type id seq payload) (8 + Z.of_nat (length payload)) = Ok 0.
Proof.
  intros Ht Hb Hl. pose proof (icmp_message_length type id seq payload) as Hlen.
  pose proof (icmp_message_bytes type id seq payload Ht Hb) as Hm.
  rewrite ipv4_checksum_spec; [|by apply Forall_take|lia|rewrite Hlen; lia].
  rewrite take_ge by (rewrite Hlen; lia). do 2 f_equal.
  unfold icmp_message. set (T := word_sum (icmp_header type 0 id seq ++ payload)).
  assert (HT : 0 <= T) by (apply word_sum_range, Forall_app; split; [by apply icmp_header_bytes|done]).
  pose proof (ones_fold_range T) as HF.
  rewrite icmp_header_sum by lia. fold T.
  rewrite ones_fold_complement by done. done.
Qed.

Lemma icmp_fill_spec N buf type id seq payload src soff :
  length buf = N → (8 + length payload <= N)%nat → (N <= 1480)%nat → 0 <= type < 2 ^ 8 → bytes payload →
  0 <= soff → soff + Z.of_nat (length payload) <= Z.of_nat (length src) →
  take (length payload) (drop (Z.to_nat soff) src) = payload →
  ∃ b, icmp_fill buf type id seq src soff (Z.of_nat (length payload)) = Ok b ∧ length b = N ∧
    icmp_message type id seq payload `prefix_of` b.
Proof.
  intros L Hl HN Ht Hb Hs Hsl Hsrc. unfold icmp_fill. pose proof (prefix_nil buf) as P.
  assert (H8 : (8 <= N)%nat) by lia. do 5 put_field_in.
  assert (Ph : icmp_header type 0 id seq `prefix_of` b3).
  { unfold icmp_header. replace [type; 0] with ([type mod 2 ^ 8; 0]); [exact P|]. do 2 f_equal. lia. } clear P.
  destruct (blit_append (icmp_header type 0 id seq) b3 src soff (Z.of_nat (length payload)))
    as (b4 & E & L4 & P4); [done..|lia|change (length (icmp_header type 0 id seq)) with 8%nat; lia|done|].
  change (Z.of_nat (length (icmp_header type 0 id seq))) with ICMP_HEADER_SIZE in E. rewrite E. step.
  rewrite Nat2Z.id, Hsrc in P4.
  assert (Lm : length (icmp_header type 0 id seq ++ payload) = (8 + length payload)%nat) by done.
  rewrite (checksum_prefix (icmp_header type 0 id seq ++ payload) b4);
    [|done|apply Forall_app; split; [by apply icmp_header_bytes|done]|rewrite Lm; unfold ICMP_HEADER_SIZE; lia
     |unfold ICMP_HEADER_SIZE; lia]. step.
  set (c := 65535 - _).
  destruct (st_patch_at N [type; 0] [0; 0] (le_bytes 2 id ++ le_bytes 2 seq ++ payload) b4 2 (le_bytes 2 c))
    as (b5 & E5 & L5 & P5); [|lia|done..|].
  { unfold icmp_header in P4. by rewrite <-!(assoc_L (++)) in P4. }
  unfold st16. exists b5. split; [done|]. split; [done|]. unfold icmp_message, icmp_header. fold c.
  by rewrite <-!(assoc_L (++)).
Qed.

Section icmp_lemmas.
Context {W : Type} `{IpLayer W} {ready : W → Prop} `{!IpLayerLaws W ready}.

(** The payload of an echo reply: what the request carried, up to a full frame. *)
Definition echo_payload (data : list Z) : list Z := take 1472 (drop 8 data).

Lemma icmp_receive_request reply now freq data src s (w : W) :
  bytes data → (8 <= length data)%nat → Z.of_nat (length data) < 2 ^ 16 → length reply = 1480%nat →
  ready w → 0 <= src < 2 ^ 32 → data !! 0%nat = Some ICMP_TYPE_ECHO_REQUEST →
  ∃ id seq w' ok, ld16 data 4 = Ok id ∧ ld16 data 6 = Ok seq ∧
    let m := icmp_message ICMP_TYPE_ECHO_REPLY id seq (echo_payload data) in
    ip_send src IP_PROTO_ICMP m (Z.of_nat (length m)) w = Ok (ok, w') ∧ ready w' ∧
    icmp_receive reply now freq data (Z.of_nat (length data)) src s w = Ok (None, w').
Proof.
  intros Hb H8 Hl Lr Hw Hsrc Ht. unfold icmp_receive, ICMP_HEADER_SIZE.
  destruct (Z.ltb_spec (Z.of_nat (length data)) 8); [lia|].
  rewrite (arr_get_in data 0 0) by lia. step. rewrite nth_lookup. change (Z.to_nat 0) with 0%nat.
  rewrite Ht. simpl default. change (8 =? 8) with true. cbv iota.
  destruct (ld16_bytes data 4) as (id & E4 & _); [done|lia..|].
  destruct (ld16_bytes data 6) as (sq & E6 & _); [done|lia..|]. rewrite E4. step. rewrite E6. step.
  rewrite u16_small by lia.
  set (n := if _ <? _ then _ else _).
  assert (Hn : n = Z.of_nat (length (echo_payload data))).
  { unfold n, echo_payload. rewrite length_take, length_drop. case_match; lia. }
  rewrite Hn. assert (Hn' : (length (echo_payload data) <= 1472)%nat) by (unfold echo_payload; rewrite length_take; lia).
  assert (Hbp : bytes (echo_payload data)) by (by apply Forall_take, Forall_drop).
  assert (Hle : 8 + Z.of_nat (length (echo_payload data)) <= Z.of_nat (length data))
    by (unfold echo_payload; rewrite length_take, length_drop; lia).
  destruct (icmp_fill_spec 1480 reply ICMP_TYPE_ECHO_REPLY id sq (echo_payload data) data 8)
    as (b & -> & Lb & Pb); [done|lia..|done|done|lia|lia| |].
  { unfold echo_payload. change (Z.to_nat 8) with 8%nat.
    rewrite <-(take_drop 1472 (drop 8 data)) at 2. by rewrite take_app_length. }
  step. rewrite (prefix_take _ b _ Pb) by (rewrite icmp_message_length; lia). step.
  set (m := icmp_message _ _ _ _).
  assert (Lm : Z.of_nat (length m) = 8 + Z.of_nat (length (echo_payload data)))
    by (unfold m; rewrite icmp_message_length; lia). rewrite <-Lm.
  destruct (ip_send_returns w src IP_PROTO_ICMP m) as (ok & w' & E & Hw' & _);
    [done|done|unfold IP_PROTO_ICMP; lia|lia|].
  rewrite E. step. by exists id, sq, w', ok.
Qed.

Lemma icmp_receive_total reply now freq data src s (w : W) :
  bytes data → Z.of_nat (length data) < 2 ^ 16 → length reply = 1480%nat →
  ready w → 0 <= src < 2 ^ 32 → freq ≠ 0 →
  ∃ c w', icmp_receive reply now freq data (Z.of_nat (length data)) src s w = Ok (c, w') ∧ ready w'.
Proof.
  intros Hb Hl Lr Hw Hsrc Hf. destruct (decide (8 <= length data)%nat) as [H8|H8].
  2: { unfold icmp_receive, ICMP_HEADER_SIZE. destruct (Z.ltb_spec (Z.of_nat (length data)) 8); [eauto|lia]. }
  destruct (lookup_lt_is_Some_2 data 0) as [t Ht]; [lia|].
  destruct (decide (t = ICMP_TYPE_ECHO_REQUEST)) as [->|Hne].
  { destruct (icmp_receive_request reply now freq data src s w) as (? & ? & w' & ? & _ & _ & _ & ? & ?); eauto. }
  unfold icmp_receive, ICMP_HEADER_SIZE. destruct (Z.ltb_spec (Z.of_nat (length data)) 8); [lia|].
  rewrite (arr_get_in data 0 0) by lia. step. rewrite nth_lookup. change (Z.to_nat 0) with 0%nat. rewrite Ht. simpl default.
  destruct (Z.eqb_spec t ICMP_TYPE_ECHO_REQUEST); [done|]. destruct (t =? _); [|eauto].
  destruct (ld16_bytes data 4) as (id & -> & _); [done|lia..|]. step. destruct (_ =? _); [|eauto].
  destruct (ld16_bytes data 6) as (sq & -> & _); [done|lia..|]. step. destruct (Z.eqb_spec freq 0); [done|]. eauto.
Qed.

Lemma icmp_send_spec packet now dst id seq s (w : W) :
  length packet = 64%nat → ready w → 0 < dst < 2 ^ 32 →
  let m := icmp_message ICMP_TYPE_ECHO_REQUEST (htons id) (htons seq) ping_payload in
  ∃ ok w', ip_send dst IP_PROTO_ICMP m (Z.of_nat (length m)) w = Ok (ok, w') ∧ ready w' ∧
    icmp_send_echo_request packet now dst id seq s w = Ok (ok, mkIcmp (g_ping_callback s) id seq now, w').
Proof.
  intros L Hw Hd m. unfold icmp_send_echo_request. destruct (Z.eqb_spec dst 0); [lia|].
  assert (Hbp : bytes ping_payload) by (unfold ping_payload; repeat (constructor; [lia|]); constructor).
  destruct (icmp_fill_spec 64 packet ICMP_TYPE_ECHO_REQUEST (htons id) (htons seq) ping_payload ping_payload 0)
    as (b & E & Lb & Pb); [done|simpl; lia|lia|done|done|lia|lia|done|].
  change (Z.of_nat (length ping_payload)) with 56 in E. rewrite E. step.
  rewrite (prefix_take m b _ Pb) by done. step.
  destruct (ip_send_returns w dst IP_PROTO_ICMP m) as (ok & w' & E' & Hw' & _);
    [done|lia|unfold IP_PROTO_ICMP; lia|done|].
  change (ICMP_HEADER_SIZE + 56) with (Z.of_nat (length m)). rewrite E'. step. by exists ok, w'.
Qed.

(** A reply to the outstanding request reaches the callback. *)
Lemma icmp_receive_reply reply now freq id seq payload src s (w : W) :
  0 <= id < 2 ^ 16 → 0 <= seq < 2 ^ 16 → (length payload <= 1472)%nat → g_ping_id s = id →
  g_ping_callback s = true → freq ≠ 0 →
  icmp_receive reply now freq (icmp_message ICMP_TYPE_ECHO_REPLY (htons id) (htons seq) payload)
    (8 + Z.of_nat (length payload)) src s w =
  Ok (Some (src, seq, u16 (u64 (u64 (now - g_ping_sent_time s) * 1000) / freq), true), w).
Proof.
  intros Hid Hsq Hl Hg Hc Hf. unfold icmp_receive, ICMP_HEADER_SIZE.
  destruct (Z.ltb_spec (8 + Z.of_nat (length payload)) 8); [lia|].
  unfold icmp_message, icmp_header. set (c := 65535 - _). clearbody c. rewrite !le_bytes_htons by done.
  set (d := (_ ++ _) ++ payload).
  change (arr_get d 0) with (Ok 0). step. change (0 =? ICMP_TYPE_ECHO_REQUEST) with false.
  change (0 =? ICMP_TYPE_ECHO_REPLY) with true. cbv iota.
  assert (E4 : ld16 d 4 = Ok (htons id)) by (rewrite be16_value by lia; reflexivity).
  assert (E6 : ld16 d 6 = Ok (htons seq)) by (rewrite be16_value by lia; reflexivity).
  rewrite E4. step. rewrite E6, !ntohs_htons, Hg, Z.eqb_refl, Hc by done. step.
  destruct (Z.eqb_spec freq 0) as [Hz|_]; [done|]. by rewrite ntohs_htons.
Qed.
End icmp_lemmas.

Lemma ping_payload_bytes : bytes ping_payload.
Proof. unfold ping_payload. repeat (constructor; [lia|]). constructor. Qed.

Lemma ping_payload_short : (length ping_payload <= 1472)%nat.
Proof. apply Nat.leb_le. reflexivity. Qed.

Lemma icmp_message_fields type id seq payload :
  0 <= id < 2 ^ 16 → 0 <= seq < 2 ^ 16 →
  ld16 (icmp_message type (htons id) (htons seq) payload) 4 = Ok (htons id) ∧
  ld16 (icmp_message type (htons id) (htons seq) payload) 6 = Ok (htons seq).
Proof.
  intros Hid Hsq. unfold icmp_message, icmp_header. set (c := 65535 - _). clearbody c.
  rewrite !le_bytes_htons by done. split; rewrite be16_value by done; reflexivity.
Qed.

(** * Properties *)

(** Ping answers ping. When a host sends an echo request with
    [icmp_send_echo_request], the message it hands to IP is well formed and its
    checksum verifies; a host that receives that message sends back, to the sender,
    the echo reply with the same identifier, sequence number and payload, again with
    a checksum that verifies; and when the first host receives this reply its
    callback is told the sequence number of the request. *)
Theorem icmp_ping_roundtrip pktA repA repB (sA sB : Icmp) (wA wB wA2 : Ip) dst srcA id seq t0 t1 freq :
  length pktA = 64%nat → length repB = 1480%nat → ip_wf wA → ip_wf wB →
  0 < dst < 2 ^ 32 → 0 <= srcA < 2 ^ 32 → 0 <= id < 2 ^ 16 → 0 <= seq < 2 ^ 16 →
  g_ping_callback sA = true → freq ≠ 0 →
  let req := icmp_message ICMP_TYPE_ECHO_REQUEST (htons id) (htons seq) ping_payload in
  let rep := icmp_message ICMP_TYPE_ECHO_REPLY (htons id) (htons seq) ping_payload in
  ipv4_checksum req 64 = Ok 0 ∧ ipv4_checksum rep 64 = Ok 0 ∧
  ∃ okA okB sA' wA' wB',
    ipv4_send dst IP_PROTO_ICMP req 64 wA = Ok (okA, wA') ∧
    icmp_send_echo_request pktA t0 dst id seq sA wA = Ok (okA, sA', wA') ∧
    ipv4_send srcA IP_PROTO_ICMP rep 64 wB = Ok (okB, wB') ∧
    icmp_receive repB t0 freq req 64 srcA sB wB = Ok (None, wB') ∧
    icmp_receive repA t1 freq rep 64 dst sA' wA2 =
      Ok (Some (dst, seq, u16 (u64 (u64 (t1 - t0) * 1000) / freq), true), wA2).
Proof.
  intros LA LB HA HB Hd Hs Hid Hsq Hc Hf req rep.
  pose proof ping_payload_bytes as Hbp.
  assert (Lr : length req = 64%nat) by apply icmp_message_length.
  split; [apply (icmp_message_verifies 8 _ _ ping_payload); [lia|done|apply ping_payload_short]|].
  split; [apply (icmp_message_verifies 0 _ _ ping_payload); [lia|done|apply ping_payload_short]|].
  destruct (icmp_send_spec pktA t0 dst id seq sA wA LA HA Hd) as (okA & wA' & E1 & _ & E2).
  assert (Hbr : bytes req) by (apply icmp_message_bytes; [unfold ICMP_TYPE_ECHO_REQUEST; lia|done]).
  destruct (icmp_receive_request repB t0 freq req srcA sB wB) as (i & q & wB' & okB & Ei & Eq & E3 & _ & E4);
    [done|lia|lia|done|done|done|reflexivity|].
  destruct (icmp_message_fields ICMP_TYPE_ECHO_REQUEST id seq ping_payload Hid Hsq) as [F4 F6].
  fold req in F4, F6. rewrite F4 in Ei. rewrite F6 in Eq. injection Ei as <-. injection Eq as <-.
  fold req in E1. rewrite Lr in E1, E4.
  assert (Ep : echo_payload req = ping_payload) by reflexivity. rewrite Ep, icmp_message_length in E3.
  eexists okA, okB, _, wA', wB'. split; [exact E1|]. split; [exact E2|]. split; [exact E3|].
  split; [exact E4|].
  apply (icmp_receive_reply repA t1 freq id seq ping_payload); try done; apply ping_payload_short.
Qed.

(** The host of the sample pings 10.0.0.2 with identifier 7 and sequence number 1. *)
Lemma icmp_ping_roundtrip_witness :
  let sA := icmp_set_ping_callback true (icmp_init (mkIcmp false 0 0 0)) in
  let rep := icmp_message ICMP_TYPE_ECHO_REPLY (htons 7) (htons 1) ping_payload in
  ∃ okA sA' wA', icmp_send_echo_request (replicate 64 0) 5000 0x0200000A 7 1 sA sample_host = Ok (okA, sA', wA') ∧
    icmp_receive [] 5002 1000 rep 64 0x0200000A sA' wA' = Ok (Some (0x0200000A, 1, 2, true), wA').
Proof.
  intros sA rep.
  destruct (icmp_send_spec (ready := ip_wf) (replicate 64 0) 5000 0x0200000A 7 1 sA sample_host)
    as (ok & wA' & _ & _ & E); [by rewrite length_replicate|apply sample_host_wf|lia|].
  destruct (icmp_ping_roundtrip (replicate 64 0) [] (replicate 1480 0) sA sA sample_host sample_host wA'
    0x0200000A 0x0100000A 7 1 5000 5002 1000) as (_ & _ & okA & okB & sA' & wA2 & wB' & _ & E1 & _ & _ & E2);
    [by rewrite length_replicate|by rewrite length_replicate|apply sample_host_wf|apply sample_host_wf
    |lia|lia|lia|lia|reflexivity|lia|].
  rewrite E in E1. injection E1 as <- <- <-. exists ok, (mkIcmp true 7 1 5000), wA'. split; [exact E|exact E2].
Defined.

(** [icmp_receive] copes with any bytes: it returns, inside its buffers, leaving
    the network layer well formed, when the timer's frequency is not zero. *)
Theorem icmp_receive_safe reply now freq data src s (w : Ip) :
  bytes data → Z.of_nat (length data) < 2 ^ 16 → length reply = 1480%nat →
  ip_wf w → 0 <= src < 2 ^ 32 → freq ≠ 0 →
  ∃ c w', icmp_receive reply now freq data (Z.of_nat (length data)) src s w = Ok (c, w') ∧ ip_wf w'.
Proof. apply icmp_receive_total. Qed.

Lemma icmp_receive_safe_witness :
  ∃ c w', icmp_receive (replicate 1480 0) 0 1000 [8; 0; 0; 0; 0; 1; 0; 1; 65] 9 1
            (icmp_init (mkIcmp true 0 0 0)) sample_host = Ok (c, w') ∧ ip_wf w'.
Proof.
  apply (icmp_receive_safe (replicate 1480 0) 0 1000 [8; 0; 0; 0; 0; 1; 0; 1; 65]);
    [repeat (constructor; [lia|]); constructor|simpl; lia|by rewrite length_replicate|apply sample_host_wf|lia|lia].
Defined.
