(* ===== verification/Dhcp.v ===== *)
(** The DHCP client (src/net/dhcp.cpp): option encoding and parsing, the message
    builder, the hand-made UDP/IP broadcast, reception, and the blocking request.
    The payloads that reach [dhcp_receive] at each network poll are an input stream;
    a request that runs out of polls has timed out. *)

From S2P Require Import Prelude Wire Ethernet Arp Ipv4 Udp.

(** * Model *)

Definition DHCP_DISCOVER : Z := 1.
Definition DHCP_OFFER : Z := 2.
Definition DHCP_REQUEST : Z := 3.
Definition DHCP_ACK : Z := 5.

Definition DHCP_OPT_PAD : Z := 0.
Definition DHCP_OPT_SUBNET_MASK : Z := 1.
Definition DHCP_OPT_ROUTER : Z := 3.
Definition DHCP_OPT_DNS : Z := 6.
Definition DHCP_OPT_REQUESTED_IP : Z := 50.
Definition DHCP_OPT_MSG_TYPE : Z := 53.
Definition DHCP_OPT_SERVER_ID : Z := 54.
Definition DHCP_OPT_PARAM_REQ : Z := 55.
Definition DHCP_OPT_END : Z := 255.

Definition DHCP_SERVER_PORT : Z := 67.
Definition DHCP_CLIENT_PORT : Z := 68.
Definition DHCP_MAGIC_COOKIE : Z := 0x63825363.

(** [sizeof(DhcpPacket)], and where its options start and how many bytes they have. *)
Definition DHCP_PACKET_SIZE : nat := 548.
Definition OPTIONS_AT : Z := 240.
Definition OPTIONS_SIZE : Z := 308.

Record Dhcp := mkDhcp {
  dhcp_xid : Z;
  dhcp_server_ip : Z;
  dhcp_offered_ip : Z;
  dhcp_subnet_mask : Z;
  dhcp_gateway : Z;
  dhcp_dns : Z;
  dhcp_got_offer : bool;
  dhcp_got_ack : bool;
  dhcp_tx_buffer : list Z
}.

Definition dhcp_init (ticks : Z) (s : Dhcp) : Dhcp :=
  mkDhcp (Z.land ticks 0xFFFFFFFF) 0 0 0 0 0 false false (dhcp_tx_buffer s).

(** The result, the packet and the index after the call; the options are the bytes of
    the packet from [OPTIONS_AT]. *)
Definition dhcp_put_option (pkt : list Z) (idx opt_capacity code : Z) (data : list Z) (len : Z)
    : res (bool * list Z * Z) :=
  if idx <? 0 then Ok (false, pkt, idx)
  else if opt_capacity <? idx + 2 + len then Ok (false, pkt, idx)
  else
    b ← arr_set pkt (OPTIONS_AT + idx) code;
    b ← arr_set b (OPTIONS_AT + (idx + 1)) len;
    b ← blit b (OPTIONS_AT + (idx + 2)) data 0 len;
    Ok (true, b, idx + 2 + len).

Definition dhcp_put_u32_le_wire (pkt : list Z) (idx opt_capacity code value : Z) : res (bool * list Z * Z) :=
  dhcp_put_option pkt idx opt_capacity code
    [Z.land value 0xFF; Z.land (Z.shiftr value 8) 0xFF; Z.land (Z.shiftr value 16) 0xFF;
     Z.land (Z.shiftr value 24) 0xFF] 4.

(** The fixed part of the packet. *)
Definition dhcp_fixed (mac : list Z) (s : Dhcp) : res (list Z) :=
  let p := replicate DHCP_PACKET_SIZE 0 in
  p ← st8 p 0 1;
  p ← st8 p 1 1;
  p ← st8 p 2 6;
  p ← st8 p 3 0;
  p ← st32 p 4 (htonl (dhcp_xid s));
  p ← st16 p 8 0;
  p ← st16 p 10 (htons 0x8000);
  p ← st p 28 mac;
  st32 p 236 (htonl DHCP_MAGIC_COOKIE).

(** The length, 0 on failure, and the packet. *)
Definition dhcp_build_packet (mac : list Z) (msg_type : Z) (s : Dhcp) : res (Z * list Z) :=
  p ← dhcp_fixed mac s;
  '(ok, p, idx) ← dhcp_put_option p 0 OPTIONS_SIZE DHCP_OPT_MSG_TYPE [msg_type] 1;
  if negb ok then Ok (0, p)
  else
    '(ok, p, idx) ←
      (if msg_type =? DHCP_REQUEST then
         '(ok, p, idx) ← dhcp_put_u32_le_wire p idx OPTIONS_SIZE DHCP_OPT_REQUESTED_IP (dhcp_offered_ip s);
         if negb ok then Ok (false, p, idx)
         else if negb (dhcp_server_ip s =? 0)
         then dhcp_put_u32_le_wire p idx OPTIONS_SIZE DHCP_OPT_SERVER_ID (dhcp_server_ip s)
         else Ok (true, p, idx)
       else Ok (true, p, idx));
    if negb ok then Ok (0, p)
    else
      '(ok, p, idx) ← dhcp_put_option p idx OPTIONS_SIZE DHCP_OPT_PARAM_REQ
                        [DHCP_OPT_SUBNET_MASK; DHCP_OPT_ROUTER; DHCP_OPT_DNS] 3;
      if negb ok then Ok (0, p)
      else if OPTIONS_SIZE <=? idx then Ok (0, p)
      else
        p ← arr_set p (OPTIONS_AT + idx) DHCP_OPT_END;
        Ok (u16 (Z.of_nat DHCP_PACKET_SIZE - OPTIONS_SIZE + (idx + 1)), p).

(** The two headers the client fills in on its stack. *)
Definition dhcp_udp_header (length : Z) : res (list Z) :=
  let u := replicate 8 0 in
  u ← st16 u 0 (htons DHCP_CLIENT_PORT);
  u ← st16 u 2 (htons DHCP_SERVER_PORT);
  u ← st16 u 4 (htons (8 + length));
  st16 u 6 0.

Definition dhcp_ip_header (length : Z) : res (list Z) :=
  let h := replicate 20 0 in
  h ← st8 h 0 0x45;
  h ← st8 h 1 0;
  h ← st16 h 2 (htons (20 + 8 + length));
  h ← st16 h 4 0;
  h ← st16 h 6 0;
  h ← st8 h 8 64;
  h ← st8 h 9 17;
  h ← st16 h 10 0;
  h ← st32 h 12 0;
  h ← st32 h 16 0xFFFFFFFF;
  c ← ipv4_checksum h 20;
  st16 h 10 c.

Definition dhcp_send (pkt : list Z) (length : Z) (s : Dhcp) (e : Eth) : res (bool * Dhcp * Eth) :=
  if (length =? 0) || (ETH_DATA_LEN <? 20 + 8 + length) then Ok (false, s, e)
  else
    udp ← dhcp_udp_header length;
    ip ← dhcp_ip_header length;
    p ← blit (dhcp_tx_buffer s) 0 ip 0 20;
    p ← blit p 20 udp 0 8;
    p ← blit p 28 pkt 0 length;
    frame ← view p 0 (20 + 8 + length);
    '(result, e') ← ethernet_send ETH_BROADCAST_MAC ETH_TYPE_IPV4 frame (20 + 8 + length) e;
    Ok (result, mkDhcp (dhcp_xid s) (dhcp_server_ip s) (dhcp_offered_ip s) (dhcp_subnet_mask s)
                  (dhcp_gateway s) (dhcp_dns s) (dhcp_got_offer s) (dhcp_got_ack s) p, e').

(** Assignments to the file-scope variables. *)
Definition set_mask (v : Z) (s : Dhcp) : Dhcp :=
  mkDhcp (dhcp_xid s) (dhcp_server_ip s) (dhcp_offered_ip s) v (dhcp_gateway s) (dhcp_dns s)
    (dhcp_got_offer s) (dhcp_got_ack s) (dhcp_tx_buffer s).
Definition set_gateway (v : Z) (s : Dhcp) : Dhcp :=
  mkDhcp (dhcp_xid s) (dhcp_server_ip s) (dhcp_offered_ip s) (dhcp_subnet_mask s) v (dhcp_dns s)
    (dhcp_got_offer s) (dhcp_got_ack s) (dhcp_tx_buffer s).
Definition set_dns (v : Z) (s : Dhcp) : Dhcp :=
  mkDhcp (dhcp_xid s) (dhcp_server_ip s) (dhcp_offered_ip s) (dhcp_subnet_mask s) (dhcp_gateway s) v
    (dhcp_got_offer s) (dhcp_got_ack s) (dhcp_tx_buffer s).
Definition set_server (v : Z) (s : Dhcp) : Dhcp :=
  mkDhcp (dhcp_xid s) v (dhcp_offered_ip s) (dhcp_subnet_mask s) (dhcp_gateway s) (dhcp_dns s)
    (dhcp_got_offer s) (dhcp_got_ack s) (dhcp_tx_buffer s).
Definition set_offered (v : Z) (s : Dhcp) : Dhcp :=
  mkDhcp (dhcp_xid s) (dhcp_server_ip s) v (dhcp_subnet_mask s) (dhcp_gateway s) (dhcp_dns s)
    (dhcp_got_offer s) (dhcp_got_ack s) (dhcp_tx_buffer s).
Definition set_got (offer ack : bool) (s : Dhcp) : Dhcp :=
  mkDhcp (dhcp_xid s) (dhcp_server_ip s) (dhcp_offered_ip s) (dhcp_subnet_mask s) (dhcp_gateway s)
    (dhcp_dns s) offer ack (dhcp_tx_buffer s).

(** [options[i] | options[i + 1] << 8 | options[i + 2] << 16 | options[i + 3] << 24] *)
Definition option_u32 (options : list Z) (i : Z) : res Z :=
  b0 ← arr_get options i; b1 ← arr_get options (i + 1);
  b2 ← arr_get options (i + 2); b3 ← arr_get options (i + 3);
  Ok (u32 (Z.lor (Z.lor (Z.lor b0 (Z.shiftl b1 8)) (Z.shiftl b2 16)) (Z.shiftl b3 24))).

(** The [switch] over the option's code. *)
Definition dhcp_take_option (opt len : Z) (options : list Z) (i : Z) (s : Dhcp) : res Dhcp :=
  if opt =? DHCP_OPT_SUBNET_MASK then
    if 4 <=? len then v ← option_u32 options i; Ok (set_mask v s) else Ok s
  else if opt =? DHCP_OPT_ROUTER then
    if 4 <=? len then v ← option_u32 options i; Ok (set_gateway v s) else Ok s
  else if opt =? DHCP_OPT_DNS then
    if 4 <=? len then v ← option_u32 options i; Ok (set_dns v s) else Ok s
  else if opt =? DHCP_OPT_SERVER_ID then
    if 4 <=? len then v ← option_u32 options i; Ok (set_server v s) else Ok s
  else Ok s.

Definition parse_step (options : list Z) (length : Z) (st : Z * Dhcp) : res (Z * Dhcp + Dhcp) :=
  let '(i, s) := st in
  if i <? length then
    opt ← arr_get options i;
    let i := u16 (i + 1) in
    if opt =? DHCP_OPT_PAD then Ok (inl (i, s))
    else if opt =? DHCP_OPT_END then Ok (inr s)
    else if length <=? i then Ok (inr s)
    else
      len ← arr_get options i;
      let i := u16 (i + 1) in
      if u16 (length - i) <? len then Ok (inr s)
      else
        s' ← dhcp_take_option opt len options i s;
        Ok (inl (u16 (i + len), s'))
  else Ok (inr s).

Definition dhcp_parse_options (options : list Z) (length : Z) (s : Dhcp) : res Dhcp :=
  loop (S (Z.to_nat length)) (parse_step options length) (0, s).

(** The loop of [dhcp_receive] that looks for the message type. *)
Definition type_step (opt : list Z) (opt_len : Z) (st : Z * Z) : res (Z * Z + Z) :=
  let '(i, msg_type) := st in
  if i <? opt_len then
    c ← arr_get opt i;
    if c =? DHCP_OPT_PAD then Ok (inl (u16 (i + 1), msg_type))
    else if c =? DHCP_OPT_END then Ok (inr msg_type)
    else if opt_len <=? i + 1 then Ok (inr msg_type)
    else
      code ← arr_get opt i;
      let i := u16 (i + 1) in
      len ← arr_get opt i;
      let i := u16 (i + 1) in
      if u16 (opt_len - i) <? len then Ok (inr msg_type)
      else
        msg_type ← (if (code =? DHCP_OPT_MSG_TYPE) && (1 <=? len) then arr_get opt i else Ok msg_type);
        Ok (inl (u16 (i + len), msg_type))
  else Ok (inr msg_type).

Definition dhcp_find_type (opt : list Z) (opt_len : Z) : res Z :=
  loop (S (Z.to_nat opt_len)) (type_step opt opt_len) (0, 0).

Definition dhcp_receive (our_mac : list Z) (data : list Z) (length : Z) (s : Dhcp) : res Dhcp :=
  if length <? Z.of_nat DHCP_PACKET_SIZE - 308 then Ok s
  else
    op ← arr_get data 0;
    if negb (op =? 2) then Ok s
    else
      xid ← ld32 data 4;
      if negb (ntohl xid =? dhcp_xid s) then Ok s
      else
        chaddr ← view data 28 6;
        if negb (eth_mac_equals chaddr our_mac) then Ok s
        else
          magic ← ld32 data 236;
          if negb (ntohl magic =? DHCP_MAGIC_COOKIE) then Ok s
          else if length <? OPTIONS_AT then Ok s
          else
            let opt_len := u16 (length - OPTIONS_AT) in
            options ← view data OPTIONS_AT opt_len;
            msg_type ← dhcp_find_type options opt_len;
            yiaddr ← ld32 data 16;
            if msg_type =? DHCP_OFFER then
              s' ← dhcp_parse_options options opt_len (set_offered yiaddr s);
              Ok (set_got true (dhcp_got_ack s') s')
            else if msg_type =? DHCP_ACK then
              s' ← dhcp_parse_options options opt_len (set_offered yiaddr s);
              Ok (set_got (dhcp_got_offer s') true s')
            else Ok s.

(** The payloads for port 68 that one network poll hands to [dhcp_receive]. *)
Fixpoint dhcp_deliver (our_mac : list Z) (batch : list (list Z)) (s : Dhcp) : res Dhcp :=
  match batch with
  | [] => Ok s
  | d :: batch' => s' ← dhcp_receive our_mac d (Z.of_nat (length d)) s; dhcp_deliver our_mac batch' s'
  end.

(** [while (!got && ...) net_poll();] *)
Fixpoint dhcp_wait (got : Dhcp → bool) (our_mac : list Z) (polls : list (list (list Z))) (s : Dhcp) : res Dhcp :=
  if got s then Ok s
  else match polls with
       | [] => Ok s
       | batch :: polls' => s' ← dhcp_deliver our_mac batch s; dhcp_wait got our_mac polls' s'
       end.

Definition with_config (c : NetConfig) (e : Eth) : Eth :=
  mkEth (mkNet c (g_active_nic (net e)) (hw_mac (net e)) (tx_results (net e)) (tx (net e))) (eth_tx_buffer e).

Definition dhcp_request (ticks : Z) (offers acks : list (list (list Z))) (s : Dhcp) (e : Eth)
    : res (bool * Dhcp * Eth) :=
  let mac := net_get_mac (net e) in
  let s := dhcp_init ticks s in
  '(len, pkt) ← dhcp_build_packet mac DHCP_DISCOVER s;
  '(sent, s, e) ← (if len =? 0 then Ok (false, s, e) else dhcp_send pkt len s e);
  if negb sent then Ok (false, s, e)
  else
    s ← dhcp_wait dhcp_got_offer mac offers s;
    if negb (dhcp_got_offer s) then Ok (false, s, e)
    else
      '(len, pkt) ← dhcp_build_packet mac DHCP_REQUEST s;
      '(sent, s, e) ← (if len =? 0 then Ok (false, s, e) else dhcp_send pkt len s e);
      if negb sent then Ok (false, s, e)
      else
        s ← dhcp_wait dhcp_got_ack mac acks s;
        if negb (dhcp_got_ack s) then Ok (false, s, e)
        else
          let c := net_set_dns (dhcp_dns s) (net_set_gateway (dhcp_gateway s)
                     (net_set_netmask (dhcp_subnet_mask s)
                        (net_set_ip (dhcp_offered_ip s) (g_net_config (net e))))) in
          Ok (true, s, with_config c e).

(** * Specification *)

(** Options as a list, and their encoding. *)
Inductive dhcp_opt := Pad | Opt (code : Z) (data : list Z).

Definition encode_opt (o : dhcp_opt) : list Z :=
  match o with
  | Pad => [DHCP_OPT_PAD]
  | Opt code data => code :: Z.of_nat (length data) :: data
  end.
Definition encode_opts (os : list dhcp_opt) : list Z := concat (encode_opt <$> os).

Definition opt_ok (o : dhcp_opt) : Prop :=
  match o with
  | Pad => True
  | Opt code data => 0 < code < 255 ∧ bytes data ∧ (length data <= 255)%nat
  end.

(** The little-endian word the first four bytes hold. *)
Definition le32 (d : list Z) : Z :=
  word4 (nth 0 d 0) (nth 1 d 0) (nth 2 d 0) (nth 3 d 0).

(** What one option changes, and what the options before the end marker change. *)
Definition apply_opt (s : Dhcp) (o : dhcp_opt) : Dhcp :=
  match o with
  | Pad => s
  | Opt code data =>
      if (4 <=? length data)%nat then
        if code =? DHCP_OPT_SUBNET_MASK then set_mask (le32 data) s
        else if code =? DHCP_OPT_ROUTER then set_gateway (le32 data) s
        else if code =? DHCP_OPT_DNS then set_dns (le32 data) s
        else if code =? DHCP_OPT_SERVER_ID then set_server (le32 data) s
        else s
      else s
  end.
Definition apply_opts (os : list dhcp_opt) (s : Dhcp) : Dhcp := foldl apply_opt s os.

(** The message type: the last such option wins. *)
Definition type_of_opt (t : Z) (o : dhcp_opt) : Z :=
  match o with
  | Opt code (v :: _) => if code =? DHCP_OPT_MSG_TYPE then v else t
  | _ => t
  end.
Definition opts_type (os : list dhcp_opt) : Z := foldl type_of_opt 0 os.

(** Where a parser stops: the end of the buffer, or the end marker and then anything. *)
Definition opts_end (tail : list Z) : Prop := tail = [] ∨ hd 0 tail = DHCP_OPT_END.

(** * Lemmas: options *)

Lemma option_u32_spec pre d post :
  bytes d → (4 <= length d)%nat → option_u32 (pre ++ d ++ post) (Z.of_nat (length pre)) = Ok (le32 d).
Proof.
  intros Hb Hl. destruct d as [|b0 [|b1 [|b2 [|b3 d]]]]; simpl in Hl; try lia.
  unfold bytes in Hb. rewrite !Forall_cons in Hb. destruct Hb as (? & ? & ? & ? & _).
  assert (G : ∀ k v, (b0 :: b1 :: b2 :: b3 :: d) !! k = Some v →
    arr_get (pre ++ (b0 :: b1 :: b2 :: b3 :: d) ++ post) (Z.of_nat (length pre) + Z.of_nat k) = Ok v).
  { intros k v Hk. unfold arr_get. destruct (Z.ltb_spec (Z.of_nat (length pre) + Z.of_nat k) 0); [lia|].
    replace (Z.to_nat (Z.of_nat (length pre) + Z.of_nat k)) with (length pre + k)%nat by lia.
    rewrite lookup_app_r by lia. replace (length pre + k - length pre)%nat with k by lia.
    by rewrite (lookup_app_l_Some _ _ _ _ Hk). }
  pose proof (G 0%nat b0 eq_refl) as G0. pose proof (G 1%nat b1 eq_refl) as G1.
  pose proof (G 2%nat b2 eq_refl) as G2. pose proof (G 3%nat b3 eq_refl) as G3.
  rewrite Z.add_0_r in G0. change (Z.of_nat 1) with 1 in G1. change (Z.of_nat 2) with 2 in G2.
  change (Z.of_nat 3) with 3 in G3. unfold option_u32.
  rewrite G0. step. rewrite G1. step. rewrite G2. step. rewrite G3. step.
  rewrite word4_lor, u32_small; [done|unfold word4; lia|done..].
Qed.

(** Reading the byte after a prefix. *)
Lemma arr_get_app pre (x : Z) post : arr_get (pre ++ x :: post) (Z.of_nat (length pre)) = Ok x.
Proof.
  unfold arr_get. destruct (Z.ltb_spec (Z.of_nat (length pre)) 0); [lia|].
  by rewrite Nat2Z.id, lookup_app_r, Nat.sub_diag by lia.
Qed.

Lemma take_option_spec code d pre post s :
  bytes d → (length d <= 255)%nat →
  dhcp_take_option code (Z.of_nat (length d)) (pre ++ d ++ post) (Z.of_nat (length pre)) s =
    Ok (apply_opt s (Opt code d)).
Proof.
  intros Hb Hl. unfold dhcp_take_option, apply_opt.
  destruct (Nat.leb_spec 4 (length d)), (Z.leb_spec 4 (Z.of_nat (length d))); try lia.
  - rewrite !option_u32_spec by done. by repeat case_match.
  - by repeat case_match.
Qed.

Lemma encode_opts_cons o os : encode_opts (o :: os) = encode_opt o ++ encode_opts os.
Proof. done. Qed.

Lemma encode_opts_length os : (length os <= length (encode_opts os))%nat.
Proof.
  induction os as [|o os IH]; [done|]. rewrite encode_opts_cons, length_app. destruct o; simpl; lia.
Qed.

(** What a parser reads at an option. *)
Lemma opt_reads code d pre post :
  let buf := pre ++ encode_opt (Opt code d) ++ post in
  arr_get buf (Z.of_nat (length pre)) = Ok code ∧
  arr_get buf (Z.of_nat (length pre) + 1) = Ok (Z.of_nat (length d)) ∧
  buf = (pre ++ [code; Z.of_nat (length d)]) ++ d ++ post ∧
  length (pre ++ [code; Z.of_nat (length d)]) = (length pre + 2)%nat ∧
  length buf = (length pre + 2 + length d + length post)%nat.
Proof.
  simpl. split; [apply arr_get_app|]. split.
  - replace (pre ++ code :: Z.of_nat (length d) :: d ++ post)
      with ((pre ++ [code]) ++ Z.of_nat (length d) :: d ++ post) by (by rewrite <-(assoc_L (++))).
    replace (Z.of_nat (length pre) + 1) with (Z.of_nat (length (pre ++ [code]))) by (rewrite length_app; simpl; lia).
    apply arr_get_app.
  - split; [by rewrite <-(assoc_L (++))|]. rewrite !length_app. simpl. rewrite length_app. lia.
Qed.

Lemma pad_reads pre post :
  arr_get (pre ++ encode_opt Pad ++ post) (Z.of_nat (length pre)) = Ok DHCP_OPT_PAD.
Proof. apply arr_get_app. Qed.

Lemma parse_step_opt o pre post s :
  opt_ok o → let buf := pre ++ encode_opt o ++ post in Z.of_nat (length buf) < 2 ^ 16 →
  parse_step buf (Z.of_nat (length buf)) (Z.of_nat (length pre), s) =
    Ok (inl (Z.of_nat (length (pre ++ encode_opt o)), apply_opt s o)).
Proof.
  intros Ho buf Hl. unfold parse_step. destruct o as [|code d].
  - pose proof (pad_reads pre post) as E. fold buf in E.
    assert (length buf = (length pre + 1 + length post)%nat) by (unfold buf; rewrite !length_app; simpl; lia).
    destruct (Z.ltb_spec (Z.of_nat (length pre)) (Z.of_nat (length buf))); [|lia].
    rewrite E. step. change (DHCP_OPT_PAD =? DHCP_OPT_PAD) with true. cbv iota.
    rewrite u16_small by lia. do 3 f_equal. rewrite length_app. simpl. lia.
  - destruct Ho as (Hc & Hb & Hd). destruct (opt_reads code d pre post) as (E0 & E1 & Eb & L2 & L).
    fold buf in E0, E1, Eb, L. destruct (Z.ltb_spec (Z.of_nat (length pre)) (Z.of_nat (length buf))); [|lia].
    rewrite E0. step.
    destruct (Z.eqb_spec code DHCP_OPT_PAD) as [->|_]; [unfold DHCP_OPT_PAD in Hc; lia|].
    destruct (Z.eqb_spec code DHCP_OPT_END) as [->|_]; [unfold DHCP_OPT_END in Hc; lia|].
    rewrite (u16_small (Z.of_nat (length pre) + 1)) by lia.
    destruct (Z.leb_spec (Z.of_nat (length buf)) (Z.of_nat (length pre) + 1)); [lia|].
    rewrite E1. step. rewrite (u16_small (_ + 1 + 1)), (u16_small (_ - _)) by lia.
    destruct (Z.ltb_spec (Z.of_nat (length buf) - (Z.of_nat (length pre) + 1 + 1)) (Z.of_nat (length d))); [lia|].
    replace (Z.of_nat (length pre) + 1 + 1) with (Z.of_nat (length (pre ++ [code; Z.of_nat (length d)]))) by lia.
    rewrite Eb at 1. rewrite take_option_spec by done. step. do 3 f_equal.
    rewrite u16_small by lia. rewrite !length_app. simpl. lia.
Qed.

Lemma type_step_opt o pre post t :
  opt_ok o → let buf := pre ++ encode_opt o ++ post in Z.of_nat (length buf) < 2 ^ 16 →
  type_step buf (Z.of_nat (length buf)) (Z.of_nat (length pre), t) =
    Ok (inl (Z.of_nat (length (pre ++ encode_opt o)), type_of_opt t o)).
Proof.
  intros Ho buf Hl. unfold type_step. destruct o as [|code d].
  - pose proof (pad_reads pre post) as E. fold buf in E.
    assert (length buf = (length pre + 1 + length post)%nat) by (unfold buf; rewrite !length_app; simpl; lia).
    destruct (Z.ltb_spec (Z.of_nat (length pre)) (Z.of_nat (length buf))); [|lia].
    rewrite E. step. change (DHCP_OPT_PAD =? DHCP_OPT_PAD) with true. cbv iota.
    rewrite u16_small by lia. do 3 f_equal. rewrite length_app. simpl. lia.
  - destruct Ho as (Hc & Hb & Hd). destruct (opt_reads code d pre post) as (E0 & E1 & Eb & L2 & L).
    fold buf in E0, E1, Eb, L. destruct (Z.ltb_spec (Z.of_nat (length pre)) (Z.of_nat (length buf))); [|lia].
    rewrite E0. step.
    destruct (Z.eqb_spec code DHCP_OPT_PAD) as [->|_]; [unfold DHCP_OPT_PAD in Hc; lia|].
    destruct (Z.eqb_spec code DHCP_OPT_END) as [->|_]; [unfold DHCP_OPT_END in Hc; lia|].
    destruct (Z.leb_spec (Z.of_nat (length buf)) (Z.of_nat (length pre) + 1)); [lia|].
    rewrite (u16_small (Z.of_nat (length pre) + 1)) by lia.
    rewrite E1. step. rewrite (u16_small (_ + 1 + 1)), (u16_small (_ - _)) by lia.
    destruct (Z.ltb_spec (Z.of_nat (length buf) - (Z.of_nat (length pre) + 1 + 1)) (Z.of_nat (length d))); [lia|].
    replace (Z.of_nat (length pre) + 1 + 1) with (Z.of_nat (length (pre ++ [code; Z.of_nat (length d)]))) by lia.
    assert (Hr : (if (code =? DHCP_OPT_MSG_TYPE) && (1 <=? Z.of_nat (length d))
                  then arr_get buf (Z.of_nat (length (pre ++ [code; Z.of_nat (length d)]))) else Ok t) =
                 Ok (type_of_opt t (Opt code d))).
    { destruct d as [|v d]; [by rewrite andb_false_r|]. rewrite Eb.
      replace (1 <=? Z.of_nat (length (v :: d))) with true by (symmetry; apply Z.leb_le; simpl; lia).
      rewrite andb_true_r.
      change ((v :: d) ++ post) with (v :: d ++ post). rewrite arr_get_app. simpl. by case_match. }
    rewrite Hr. step. do 3 f_equal. rewrite u16_small by lia. rewrite !length_app. simpl. lia.
Qed.

(** A parser that takes one option at a time agrees with the fold over the list. *)
Section opts_loop.
Context {St : Type} (pstep : list Z → Z → Z * St → res (Z * St + St)) (apply : St → dhcp_opt → St).
Hypothesis pstep_opt : ∀ o pre post s,
  opt_ok o → let buf := pre ++ encode_opt o ++ post in Z.of_nat (length buf) < 2 ^ 16 →
  pstep buf (Z.of_nat (length buf)) (Z.of_nat (length pre), s) =
    Ok (inl (Z.of_nat (length (pre ++ encode_opt o)), apply s o)).
Hypothesis pstep_end : ∀ pre tail s,
  opts_end tail → let buf := pre ++ tail in
  pstep buf (Z.of_nat (length buf)) (Z.of_nat (length pre), s) = Ok (inr s).

Lemma opts_loop os : ∀ fuel pre tail s,
  Forall opt_ok os → opts_end tail → (length os < fuel)%nat →
  let buf := pre ++ encode_opts os ++ tail in Z.of_nat (length buf) < 2 ^ 16 →
  loop fuel (pstep buf (Z.of_nat (length buf))) (Z.of_nat (length pre), s) = Ok (foldl apply s os).
Proof.
  induction os as [|o os IH]; intros fuel pre tail s Ho Ht Hf buf Hl;
    (destruct fuel as [|fuel]; [simpl in Hf; lia|]); cbn [loop].
  - unfold buf. change (encode_opts [] ++ tail) with tail. by rewrite pstep_end.
  - apply Forall_cons in Ho as [Ho Hos].
    assert (Eb : buf = pre ++ encode_opt o ++ encode_opts os ++ tail)
      by (unfold buf; by rewrite encode_opts_cons, <-(assoc_L (++))).
    rewrite Eb in Hl |- *. rewrite pstep_opt by done. step.
    rewrite (assoc_L (++)) in Hl |- *. apply IH; [done|done|simpl in Hf; lia|done].
Qed.
End opts_loop.

Lemma parse_step_end pre tail s :
  opts_end tail → let buf := pre ++ tail in
  parse_step buf (Z.of_nat (length buf)) (Z.of_nat (length pre), s) = Ok (inr s).
Proof.
  intros Ht buf. unfold parse_step, buf. destruct tail as [|c tail]; [by rewrite app_nil_r, Z.ltb_irrefl|].
  destruct Ht as [?|Ht]; [done|]. simpl in Ht. subst c. rewrite arr_get_app. by case_match.
Qed.

Lemma type_step_end pre tail t :
  opts_end tail → let buf := pre ++ tail in
  type_step buf (Z.of_nat (length buf)) (Z.of_nat (length pre), t) = Ok (inr t).
Proof.
  intros Ht buf. unfold type_step, buf. destruct tail as [|c tail]; [by rewrite app_nil_r, Z.ltb_irrefl|].
  destruct Ht as [?|Ht]; [done|]. simpl in Ht. subst c. rewrite arr_get_app. by case_match.
Qed.

Lemma dhcp_parse_options_spec os tail s :
  Forall opt_ok os → opts_end tail → let buf := encode_opts os ++ tail in Z.of_nat (length buf) < 2 ^ 16 →
  dhcp_parse_options buf (Z.of_nat (length buf)) s = Ok (apply_opts os s) ∧
  dhcp_find_type buf (Z.of_nat (length buf)) = Ok (opts_type os).
Proof.
  intros Ho Ht buf Hl. pose proof (encode_opts_length os).
  assert (length os < S (Z.to_nat (Z.of_nat (length buf))))%nat
    by (unfold buf; rewrite Nat2Z.id, length_app; lia).
  split.
  - apply (opts_loop _ _ parse_step_opt parse_step_end os _ []); done.
  - apply (opts_loop _ _ type_step_opt type_step_end os _ []); done.
Qed.

(** * Lemmas: hostile options *)

Definition u32_ok (v : Z) : Prop := 0 <= v < 2 ^ 32.

Record dhcp_wf (s : Dhcp) : Prop := {
  wf_xid : u32_ok (dhcp_xid s);
  wf_server : u32_ok (dhcp_server_ip s);
  wf_offered : u32_ok (dhcp_offered_ip s);
  wf_mask : u32_ok (dhcp_subnet_mask s);
  wf_gateway : u32_ok (dhcp_gateway s);
  wf_dns : u32_ok (dhcp_dns s);
  wf_tx : length (dhcp_tx_buffer s) = 1600%nat
}.

(** What parsing leaves alone. *)
Definition dhcp_same (s s' : Dhcp) : Prop :=
  dhcp_xid s' = dhcp_xid s ∧ dhcp_got_offer s' = dhcp_got_offer s ∧ dhcp_got_ack s' = dhcp_got_ack s.

Lemma option_u32_total options i :
  bytes options → 0 <= i → i + 4 <= Z.of_nat (length options) →
  ∃ v, option_u32 options i = Ok v ∧ u32_ok v.
Proof.
  intros Hb Hi Hl. unfold option_u32. rewrite !(arr_get_in options _ 0) by lia. step.
  eexists. split; [done|]. apply u32_range.
Qed.

Lemma take_option_total code len options i s :
  bytes options → 0 <= i → i + len <= Z.of_nat (length options) → dhcp_wf s →
  ∃ s', dhcp_take_option code len options i s = Ok s' ∧ dhcp_wf s' ∧ dhcp_same s s'.
Proof.
  intros Hb Hi Hl Hs. pose proof Hs as []. unfold dhcp_take_option.
  destruct (Z.leb_spec 4 len); [|exists s; by repeat case_match].
  destruct (option_u32_total options i) as (v & E & Hv); [done|lia..|]. rewrite !E. step.
  repeat case_match; eexists; (split; [done|]); (split; [by split|done]).
Qed.

Lemma dhcp_parse_options_total options s :
  bytes options → Z.of_nat (length options) < 2 ^ 16 → dhcp_wf s →
  ∃ s', dhcp_parse_options options (Z.of_nat (length options)) s = Ok s' ∧ dhcp_wf s' ∧ dhcp_same s s'.
Proof.
  intros Hb Hl Hs. unfold dhcp_parse_options. set (n := Z.of_nat (length options)) in *.
  edestruct (loop_rule (λ st, 0 <= st.1 ∧ dhcp_wf st.2 ∧ dhcp_same s st.2)
    (λ s', dhcp_wf s' ∧ dhcp_same s s') (λ st, Z.to_nat (n - st.1)))
    as (r & E & H); [| | |exists r; split; [exact E|exact H]]; [|done|simpl; lia].
  intros [i s'] (Hi & Hw & Hsm). simpl in *. unfold parse_step.
  destruct (Z.ltb_spec i n); [|by eexists]. rewrite (arr_get_in options i 0) by lia. step.
  set (c := nth _ _ _). clearbody c. rewrite (u16_small (i + 1)) by lia.
  destruct (c =? DHCP_OPT_PAD); [eexists; split; [done|]; simpl; split; [split; [lia|done]|lia]|].
  destruct (c =? DHCP_OPT_END); [by eexists|].
  destruct (Z.leb_spec n (i + 1)); [by eexists|]. rewrite (arr_get_in options (i + 1) 0) by lia. step.
  pose proof (nth_bytes options (Z.to_nat (i + 1)) Hb) as Hlen. set (len := nth _ options _) in *. clearbody len.
  rewrite (u16_small (i + 1 + 1)), (u16_small (n - _)) by lia.
  destruct (Z.ltb_spec (n - (i + 1 + 1)) len); [by eexists|].
  destruct (take_option_total c len options (i + 1 + 1) s') as (s2 & -> & Hw2 & (? & ? & ?)); [done|lia|lia|done|]. step.
  eexists. split; [done|]. simpl. rewrite u16_small by lia. destruct Hsm as (? & ? & ?).
  split; [split; [lia|split; [done|split; [congruence|split; congruence]]]|lia].
Qed.

Lemma dhcp_find_type_total options :
  bytes options → Z.of_nat (length options) < 2 ^ 16 →
  ∃ t, dhcp_find_type options (Z.of_nat (length options)) = Ok t.
Proof.
  intros Hb Hl. unfold dhcp_find_type. set (n := Z.of_nat (length options)) in *.
  edestruct (loop_rule (λ st : Z * Z, 0 <= st.1) (λ _ : Z, True) (λ st, Z.to_nat (n - st.1)))
    as (r & E & H); [| | |exists r; exact E]; [|simpl; lia|simpl; lia].
  intros [i t] Hi. simpl in *. unfold type_step.
  destruct (Z.ltb_spec i n); [|by eexists]. rewrite (arr_get_in options i 0) by lia. step.
  set (c := nth _ _ _). clearbody c.
  destruct (c =? DHCP_OPT_PAD); [eexists; split; [done|]; simpl; rewrite u16_small by lia; lia|].
  destruct (c =? DHCP_OPT_END); [by eexists|].
  destruct (Z.leb_spec n (i + 1)); [by eexists|]. rewrite (u16_small (i + 1)) by lia.
  rewrite (arr_get_in options (i + 1) 0) by lia. step.
  pose proof (nth_bytes options (Z.to_nat (i + 1)) Hb) as Hlen. set (len := nth _ options _) in *. clearbody len.
  rewrite (u16_small (i + 1 + 1)), (u16_small (n - _)) by lia.
  destruct (Z.ltb_spec (n - (i + 1 + 1)) len); [by eexists|].
  destruct (_ =? _); cbn [andb].
  - destruct (Z.leb_spec 1 len); [rewrite (arr_get_in options (i + 1 + 1) 0) by lia|]; step;
      (eexists; split; [done|]; simpl; rewrite u16_small by lia; lia).
  - step. eexists; split; [done|]; simpl; rewrite u16_small by lia; lia.
Qed.

(** Reception copes with any bytes. *)
Lemma dhcp_receive_total our_mac data s :
  bytes data → Z.of_nat (length data) < 2 ^ 16 → dhcp_wf s →
  ∃ s', dhcp_receive our_mac data (Z.of_nat (length data)) s = Ok s' ∧ dhcp_wf s' ∧ dhcp_xid s' = dhcp_xid s.
Proof.
  intros Hb Hl Hs. unfold dhcp_receive, DHCP_PACKET_SIZE, OPTIONS_AT.
  destruct (Z.ltb_spec (Z.of_nat (length data)) (Z.of_nat 548 - 308)); [by exists s|].
  rewrite (arr_get_in data 0 0) by lia. step. destruct (_ =? 2); cbn [negb]; [|by exists s].
  destruct (ld32_bytes data 4) as (xid & -> & _); [done|lia..|]. step. destruct (_ =? _); cbn [negb]; [|by exists s].
  destruct (view_bytes data 28 6) as (ch & -> & _); [done|lia..|]. step. destruct (eth_mac_equals _ _); cbn [negb]; [|by exists s].
  destruct (ld32_bytes data 236) as (mg & -> & _); [done|lia..|]. step. destruct (_ =? _); cbn [negb]; [|by exists s].
  destruct (Z.ltb_spec (Z.of_nat (length data)) 240); [lia|]. rewrite u16_small by lia.
  destruct (view_bytes data 240 (Z.of_nat (length data) - 240)) as (o & -> & Ho & Lo); [done|lia..|]. step.
  rewrite <-Lo. destruct (dhcp_find_type_total o Ho) as (t & ->); [lia|]. step.
  destruct (ld32_bytes data 16) as (yi & -> & Hyi); [done|lia..|]. step.
  assert (Hs' : dhcp_wf (set_offered yi s)) by (destruct Hs; by split).
  destruct (dhcp_parse_options_total o (set_offered yi s) Ho) as (s' & E & [] & (? & _)); [lia|done|].
  destruct (_ =? _); [rewrite E; step; eexists; split; [done|]; split; [by split|done]|].
  destruct (_ =? _); [rewrite E; step; eexists; split; [done|]; split; [by split|done]|]. by exists s.
Qed.

(** * Lemmas: messages *)

(** The packet up to its options. *)
Definition dhcp_head (mac : list Z) (s : Dhcp) : list Z :=
  [1; 1; 6; 0] ++ be32 (dhcp_xid s) ++ [0; 0] ++ be16 0x8000 ++ replicate 16 0 ++ mac ++
  replicate 202 0 ++ be32 DHCP_MAGIC_COOKIE.

(** The options of a client message. *)
Definition dhcp_client_opts (msg_type : Z) (s : Dhcp) : list dhcp_opt :=
  [Opt DHCP_OPT_MSG_TYPE [msg_type]] ++
  (if msg_type =? DHCP_REQUEST then
     Opt DHCP_OPT_REQUESTED_IP (le_bytes 4 (dhcp_offered_ip s)) ::
     (if dhcp_server_ip s =? 0 then [] else [Opt DHCP_OPT_SERVER_ID (le_bytes 4 (dhcp_server_ip s))])
   else []) ++
  [Opt DHCP_OPT_PARAM_REQ [DHCP_OPT_SUBNET_MASK; DHCP_OPT_ROUTER; DHCP_OPT_DNS]].

Definition dhcp_message (mac : list Z) (msg_type : Z) (s : Dhcp) : list Z :=
  dhcp_head mac s ++ encode_opts (dhcp_client_opts msg_type s) ++ [DHCP_OPT_END].

Lemma dhcp_head_length mac s : length mac = 6%nat → length (dhcp_head mac s) = 240%nat.
Proof. intros Hm. unfold dhcp_head. rewrite !length_app, !length_replicate, Hm. reflexivity. Qed.

Lemma dhcp_fixed_spec mac s :
  length mac = 6%nat → u32_ok (dhcp_xid s) → dhcp_fixed mac s = Ok (dhcp_head mac s ++ replicate 308 0).
Proof.
  intros Hm Hx. do 6 (destruct mac as [|? mac]; [done|]). destruct mac; [|done].
  unfold dhcp_fixed. change (replicate DHCP_PACKET_SIZE 0) with ([] ++ replicate 548 0).
  do 7 zero_field 0%nat. zero_field 16%nat. zero_field 202%nat.
  rewrite !le_bytes_htonl by (done || (unfold DHCP_MAGIC_COOKIE; lia)). rewrite !le_bytes_htons by lia. reflexivity.
Qed.

(** Appending an option. *)
Lemma dhcp_put_option_spec p k idx code data len :
  len = Z.of_nat (length data) → OPTIONS_AT + idx = Z.of_nat (length p) → 0 <= idx →
  idx + Z.of_nat k = OPTIONS_SIZE → (2 + length data <= k)%nat →
  dhcp_put_option (p ++ replicate k 0) idx OPTIONS_SIZE code data len =
    Ok (true, (p ++ encode_opt (Opt code data)) ++ replicate (k - (2 + length data)) 0,
        idx + 2 + Z.of_nat (length data)).
Proof.
  intros -> Hp Hi Hk Hd. unfold dhcp_put_option. destruct (Z.ltb_spec idx 0); [lia|].
  destruct (Z.ltb_spec OPTIONS_SIZE (idx + 2 + Z.of_nat (length data))); [lia|].
  rewrite arr_set_st, (st_zero p k _ 0 [code]) by (simpl; lia). step. cbn [replicate app length].
  assert (L1 : length (p ++ [code]) = S (length p)) by (rewrite length_app; simpl; lia).
  rewrite arr_set_st, (st_zero (p ++ [code]) _ _ 0 [Z.of_nat (length data)]) by (simpl; lia). step.
  cbn [replicate app length]. rewrite <-(assoc_L (++) p). cbn [app].
  assert (L2 : length (p ++ [code; Z.of_nat (length data)]) = S (S (length p))) by (rewrite length_app; simpl; lia).
  change (blit (?a) ?b data 0 ?n) with (st a b data).
  rewrite (st_zero (p ++ [code; Z.of_nat (length data)]) _ _ 0 data) by lia. step.
  cbn [replicate app encode_opt]. do 4 f_equal; [|f_equal; lia]. by rewrite <-(assoc_L (++)).
Qed.

Lemma u32_wire v : 0 <= v < 2 ^ 32 →
  [Z.land v 0xFF; Z.land (Z.shiftr v 8) 0xFF; Z.land (Z.shiftr v 16) 0xFF; Z.land (Z.shiftr v 24) 0xFF] = le_bytes 4 v.
Proof.
  intros Hv. change 0xFF with (Z.ones 8). rewrite !Z.land_ones, !Z.shiftr_div_pow2 by lia.
  cbn [le_bytes]. rewrite !Z.div_div by lia. reflexivity.
Qed.

Lemma dhcp_build_packet_spec mac t s :
  length mac = 6%nat → dhcp_wf s →
  ∃ p, dhcp_build_packet mac t s = Ok (Z.of_nat (length (dhcp_message mac t s)), p) ∧
    dhcp_message mac t s `prefix_of` p.
Proof.
  intros Hm [Hx Hsv Hof _ _ _ _]. pose proof (dhcp_head_length mac s Hm) as Lh.
  unfold dhcp_build_packet, dhcp_put_u32_le_wire. rewrite dhcp_fixed_spec by done. step.
  rewrite (dhcp_put_option_spec (dhcp_head mac s) 308 0) by (done || (rewrite Lh; done) || (simpl; lia)).
  step. cbn [negb]. set (o1 := Opt DHCP_OPT_MSG_TYPE [t]).
  set (r := if t =? DHCP_REQUEST then _ else Ok _).
  set (mid := if t =? DHCP_REQUEST then
     Opt DHCP_OPT_REQUESTED_IP (le_bytes 4 (dhcp_offered_ip s)) ::
     (if dhcp_server_ip s =? 0 then [] else [Opt DHCP_OPT_SERVER_ID (le_bytes 4 (dhcp_server_ip s))]) else []).
  assert (Lm : (length (encode_opts mid) <= 12)%nat).
  { unfold mid. destruct (t =? _), (dhcp_server_ip s =? 0); simpl; lia. }
  assert (Er : r = Ok (true, ((dhcp_head mac s ++ encode_opt o1) ++ encode_opts mid) ++
                    replicate (305 - length (encode_opts mid)) 0, 3 + Z.of_nat (length (encode_opts mid)))).
  { unfold r, mid. destruct (t =? DHCP_REQUEST); [|by rewrite app_nil_r].
    rewrite !u32_wire by done.
    rewrite (dhcp_put_option_spec (dhcp_head mac s ++ encode_opt o1) 305 3);
      [|done|rewrite length_app, Lh; reflexivity|done|done|simpl; lia].
    step. cbn [negb]. destruct (dhcp_server_ip s =? 0); cbn [negb]; [by rewrite encode_opts_cons, app_nil_r|].
    rewrite dhcp_put_option_spec;
      [|done|rewrite !length_app, Lh; reflexivity|simpl; lia|reflexivity|simpl; lia].
    rewrite !encode_opts_cons. change (encode_opts []) with (@nil Z). rewrite app_nil_r, (assoc_L (++)). reflexivity. }
  rewrite Er. step. cbn [negb]. clear Er r.
  set (n := length (encode_opts mid)) in *.
  assert (L1 : length ((dhcp_head mac s ++ encode_opt o1) ++ encode_opts mid) = (243 + n)%nat)
    by (rewrite !length_app, Lh; reflexivity).
  rewrite dhcp_put_option_spec;
    [|done|rewrite L1; unfold OPTIONS_AT; lia|lia|unfold OPTIONS_SIZE; lia|simpl; lia].
  step. cbn [negb length]. set (o2 := Opt DHCP_OPT_PARAM_REQ _).
  destruct (Z.leb_spec OPTIONS_SIZE (3 + Z.of_nat n + 2 + Z.of_nat 3)); [unfold OPTIONS_SIZE in *; lia|].
  rewrite arr_set_st, (st_zero _ _ _ 0 [DHCP_OPT_END]);
    [|rewrite length_app, L1; simpl; unfold OPTIONS_AT; lia|simpl; lia]. step.
  assert (Em : dhcp_message mac t s =
    (((dhcp_head mac s ++ encode_opt o1) ++ encode_opts mid) ++ encode_opt o2) ++ replicate 0 0 ++ [DHCP_OPT_END]).
  { unfold dhcp_message, dhcp_client_opts. fold mid o1 o2. rewrite <-!(assoc_L (++)).
    unfold encode_opts. rewrite !fmap_app, !concat_app. simpl. rewrite ?app_nil_r, <-?(assoc_L (++)). reflexivity. }
  rewrite Em. eexists. split; [|by eexists]. do 3 f_equal. rewrite (length_app (_ ++ encode_opt o2)), (length_app _ (encode_opt o2)), L1.
  unfold DHCP_PACKET_SIZE, OPTIONS_SIZE. rewrite u16_small; simpl; lia.
Qed.

Lemma dhcp_udp_header_spec n :
  0 <= n → 8 + n < 2 ^ 16 → dhcp_udp_header n = Ok (udp_header DHCP_CLIENT_PORT DHCP_SERVER_PORT (8 + n) 0).
Proof.
  intros Hn Hl. unfold dhcp_udp_header.
  assert (L : length (replicate 8 0) = 8%nat) by apply length_replicate.
  pose proof (prefix_nil (replicate 8 0)) as P. generalize dependent (replicate 8 0). intros b0 L P.
  do 3 put_field. unfold st16.
  match type of P with ?q `prefix_of` ?b => destruct (st_at 8 q b 6 (le_bytes 2 0) P L) as (b' & -> & L' & P') end;
    [reflexivity|apply Nat.leb_le; reflexivity|].
  rewrite !le_bytes_htons in P' by (unfold DHCP_CLIENT_PORT, DHCP_SERVER_PORT; lia).
  f_equal. exact (prefix_full _ _ P' L').
Qed.

Lemma dhcp_ip_header_spec n total :
  0 <= n → 28 + n < 2 ^ 16 → total = 20 + (8 + n) →
  dhcp_ip_header n = Ok (ip_header total 0 17 (header_checksum total 0 17 0 IP_BROADCAST) 0 IP_BROADCAST).
Proof.
  intros Hn Hl Et. unfold dhcp_ip_header. replace (20 + 8 + n) with total by lia.
  assert (Ht : 0 <= total < 2 ^ 16) by lia. clear Et.
  assert (L : length (replicate 20 0) = 20%nat) by apply length_replicate.
  pose proof (prefix_nil (replicate 20 0)) as P. generalize dependent (replicate 20 0). intros b0 L P.
  do 10 put_field. rewrite !le_bytes_htons in P by lia.
  set (h := ip_header total 0 17 0 0 IP_BROADCAST).
  match type of P with _ `prefix_of` ?b => assert (Ph : h `prefix_of` b) by exact P; rewrite (checksum_prefix h b 20)
    by (done || apply ip_header_bytes); step;
    destruct (st_patch_at 20 (take 10 h) [0; 0] (drop 12 h) b 10 (le_bytes 2 (header_checksum total 0 17 0 IP_BROADCAST)))
      as (b' & E & L' & P') end; [exact Ph|done|done|done|].
  unfold st16. etrans; [exact E|]. f_equal. exact (prefix_full _ _ P' L').
Qed.

(** The datagram a client message travels in. *)
Definition dhcp_datagram (msg : list Z) : list Z :=
  udp_header DHCP_CLIENT_PORT DHCP_SERVER_PORT (8 + Z.of_nat (length msg)) 0 ++ msg.

Definition with_tx (b : list Z) (s : Dhcp) : Dhcp :=
  mkDhcp (dhcp_xid s) (dhcp_server_ip s) (dhcp_offered_ip s) (dhcp_subnet_mask s)
    (dhcp_gateway s) (dhcp_dns s) (dhcp_got_offer s) (dhcp_got_ack s) b.

Lemma dhcp_packet_eq msg :
  let n := Z.of_nat (length msg) in let total := 20 + (8 + n) in
  (ip_header total 0 17 (header_checksum total 0 17 0 IP_BROADCAST) 0 IP_BROADCAST ++
   udp_header DHCP_CLIENT_PORT DHCP_SERVER_PORT (8 + n) 0) ++ msg =
  ip_packet 0 17 0 IP_BROADCAST (dhcp_datagram msg).
Proof.
  cbv zeta. unfold ip_packet, dhcp_datagram. rewrite (length_app (udp_header _ _ _ _)), udp_header_length.
  replace (20 + Z.of_nat (8 + length msg)) with (20 + (8 + Z.of_nat (length msg))) by lia.
  by rewrite <-(assoc_L (++)).
Qed.

Lemma dhcp_send_spec msg pkt s e :
  dhcp_wf s → eth_wf e → msg `prefix_of` pkt → (0 < length msg <= 1472)%nat →
  ∃ r b e', dhcp_send pkt (Z.of_nat (length msg)) s e = Ok (r, with_tx b s, e') ∧
    dhcp_wf (with_tx b s) ∧ eth_wf e' ∧
    tx (net e') = tx (net e) ++ [eth_frame ETH_BROADCAST_MAC (hw_mac (net e)) ETH_TYPE_IPV4
                                   (ip_packet 0 17 0 IP_BROADCAST (dhcp_datagram msg))] ∧
    r = hd false (tx_results (net e)) ∧ tx_results (net e') = tl (tx_results (net e)) ∧
    g_net_config (net e') = g_net_config (net e) ∧ hw_mac (net e') = hw_mac (net e) ∧
    g_active_nic (net e') = g_active_nic (net e).
Proof.
  intros Hs He [t ->] Hl. unfold dhcp_send, ETH_DATA_LEN. set (n := Z.of_nat (length msg)).
  assert (Hn : 0 < n <= 1472) by (unfold n; lia).
  destruct (Z.eqb_spec n 0); [lia|]. destruct (Z.ltb_spec 1500 (20 + 8 + n)); [lia|]. cbn [orb].
  step_with (dhcp_udp_header_spec n ltac:(lia) ltac:(lia)).
  step_with (dhcp_ip_header_spec n (20 + (8 + n)) ltac:(lia) ltac:(lia) eq_refl).
  pose proof (dhcp_packet_eq msg) as Ep. cbv zeta in Ep. fold n in Ep.
  set (hip := ip_header _ _ _ _ _ _) in *. set (hu := udp_header _ _ _ _) in *.
  assert (Lip : length hip = 20%nat) by apply ip_header_length.
  assert (Lhu : length hu = 8%nat) by apply udp_header_length.
  clearbody hip hu. assert (Lh : length (hip ++ hu) = 28%nat) by (rewrite length_app; lia).
  assert (Lb : length (dhcp_tx_buffer s) = 1600%nat) by apply Hs.
  destruct (blit_at 1600 [] (dhcp_tx_buffer s) 0 hip 20) as (b1 & -> & L1 & P1);
    [apply prefix_nil|done|done|lia|rewrite Lip; apply Nat.leb_le; reflexivity|]. step.
  destruct (blit_at 1600 hip b1 20 hu 8) as (b2 & -> & L2 & P2);
    [done|done|lia|lia|lia|]. step.
  rewrite blit_take; [|lia|lia|lia|unfold n; rewrite length_app; lia].
  replace (take (Z.to_nat n) (msg ++ t)) with msg by (unfold n; by rewrite Nat2Z.id, take_app_length).
  destruct (blit_at 1600 (hip ++ hu) b2 28 msg n) as (b3 & -> & L3 & P3); [done|done|lia|done|lia|]. step.
  rewrite Ep in P3. set (pk := ip_packet _ _ _ _ _) in *.
  assert (Lp : Z.of_nat (length pk) = 20 + 8 + n) by (rewrite <-Ep, length_app, Lh; unfold n; lia).
  rewrite (prefix_take pk b3 _ P3 Lp). step. rewrite <-Lp.
  destruct (ethernet_send_spec ETH_BROADCAST_MAC ETH_TYPE_IPV4 pk e) as (r & e' & -> & He' & Htx & Hr & Hrs & Hc & Hm & Hg);
    [done|apply broadcast_mac_ok|done|unfold ETH_TYPE_IPV4; lia|unfold ETH_DATA_LEN; lia|]. step.
  exists r, b3, e'. split; [done|]. split; [destruct Hs; by split|].
  split; [exact He'|]. split; [exact Htx|]. split; [exact Hr|]. split; [exact Hrs|]. split; [exact Hc|].
  split; [exact Hm|exact Hg].
Qed.

(** * Lemmas: the exchange *)

(** A server's reply to the client with hardware address [mac]. *)
Definition reply_head (mac : list Z) (xid yiaddr : Z) : list Z :=
  [2; 1; 6; 0] ++ be32 xid ++ [0; 0; 0; 0; 0; 0; 0; 0] ++ le_bytes 4 yiaddr ++ replicate 8 0 ++ mac ++
  replicate 202 0 ++ be32 DHCP_MAGIC_COOKIE.
Definition dhcp_reply (mac : list Z) (xid yiaddr : Z) (os : list dhcp_opt) : list Z :=
  reply_head mac xid yiaddr ++ encode_opts os ++ [DHCP_OPT_END].

Definition on_reply (yiaddr : Z) (os : list dhcp_opt) (s : Dhcp) : Dhcp :=
  let s' := apply_opts os (set_offered yiaddr s) in
  if opts_type os =? DHCP_OFFER then set_got true (dhcp_got_ack s') s'
  else if opts_type os =? DHCP_ACK then set_got (dhcp_got_offer s') true s'
  else s.

Lemma dhcp_receive_reply mac xid yiaddr os s :
  mac_ok mac → u32_ok xid → u32_ok yiaddr → Forall opt_ok os → dhcp_xid s = xid →
  (length (encode_opts os) <= 1200)%nat →
  let d := dhcp_reply mac xid yiaddr os in
  dhcp_receive mac d (Z.of_nat (length d)) s = Ok (on_reply yiaddr os s).
Proof.
  intros Hm Hx Hy Ho Hs Hl d.
  assert (Lh : length (reply_head mac xid yiaddr) = 240%nat).
  { destruct Hm as [Hm _]. unfold reply_head. rewrite !length_app, !length_replicate, Hm. reflexivity. }
  assert (Ld : length d = (240 + length (encode_opts os) + 1)%nat)
    by (unfold d, dhcp_reply; rewrite !length_app, Lh; simpl; lia).
  assert (E0 : arr_get d 0 = Ok 2) by reflexivity.
  assert (E4 : ld32 d 4 = Ok (htonl xid)).
  { unfold d, dhcp_reply, reply_head. rewrite <-(le_bytes_htonl xid Hx), <-!(assoc_L (++)).
    apply (ld32_le (htonl xid) [2; 1; 6; 0]). by apply htonl_range. }
  assert (E16 : ld32 d 16 = Ok yiaddr).
  { unfold d, dhcp_reply, reply_head. rewrite <-!(assoc_L (++)).
    apply (ld32_le yiaddr ([2; 1; 6; 0] ++ be32 xid ++ [0; 0; 0; 0; 0; 0; 0; 0])). done. }
  assert (Ev : view d 28 6 = Ok mac).
  { rewrite view_drop by lia. change (Z.to_nat 28) with 28%nat. change (Z.to_nat 6) with 6%nat. f_equal.
    destruct Hm as [Hm _]. do 6 (destruct mac as [|? mac]; [done|]). destruct mac; [|done]. reflexivity. }
  assert (E236 : ld32 d 236 = Ok (htonl DHCP_MAGIC_COOKIE)).
  { destruct Hm as [Hm _]. do 6 (destruct mac as [|? mac]; [done|]). destruct mac; [|done]. reflexivity. }
  assert (Eo : view d 240 (Z.of_nat (length d) - 240) = Ok (encode_opts os ++ [DHCP_OPT_END])).
  { rewrite view_drop by lia. change (Z.to_nat 240) with 240%nat. f_equal.
    unfold d, dhcp_reply. rewrite drop_app_length' by done. apply take_ge. rewrite !length_app, Lh. simpl. lia. }
  destruct (dhcp_parse_options_spec os [DHCP_OPT_END] (set_offered yiaddr s)) as [Ep Et];
    [done|by right|rewrite length_app; simpl; lia|].
  clearbody d.
  assert (Lo : Z.of_nat (length (encode_opts os ++ [DHCP_OPT_END])) = Z.of_nat (length d) - 240)
    by (rewrite length_app; cbn [length]; lia).
  rewrite Lo in Ep, Et. unfold dhcp_receive, DHCP_PACKET_SIZE, OPTIONS_AT.
  destruct (Z.ltb_spec (Z.of_nat (length d)) (Z.of_nat 548 - 308)); [lia|].
  step_with E0. change (negb (2 =? 2)) with false. cbv iota.
  step_with E4. rewrite (ntohl_htonl xid Hx), Hs, Z.eqb_refl. cbn [negb].
  step_with Ev. rewrite mac_equals_spec, bool_decide_true by done. cbn [negb].
  step_with E236. change (negb (ntohl (htonl DHCP_MAGIC_COOKIE) =? DHCP_MAGIC_COOKIE)) with false. cbv iota.
  destruct (Z.ltb_spec (Z.of_nat (length d)) 240); [lia|]. rewrite u16_small by lia.
  step_with Eo. step_with Et. step_with E16. unfold on_reply. rewrite Ep. step. by repeat case_match.
Qed.

(** A payload the client ignores while [xid] is its transaction. *)
Definition foreign (mac : list Z) (xid : Z) (d : list Z) : Prop :=
  ∀ s, dhcp_xid s = xid → dhcp_receive mac d (Z.of_nat (length d)) s = Ok s.

(** Replies to another transaction are foreign. *)
Lemma foreign_xid mac xid xid' yiaddr os :
  length mac = 6%nat → u32_ok xid' → xid' ≠ xid → foreign mac xid (dhcp_reply mac xid' yiaddr os).
Proof.
  intros Hm Hx Hne s Hs. unfold dhcp_receive. case_match; [done|].
  step_with (eq_refl : arr_get (dhcp_reply mac xid' yiaddr os) 0 = Ok 2).
  change (negb (2 =? 2)) with false. cbv iota.
  assert (E4 : ld32 (dhcp_reply mac xid' yiaddr os) 4 = Ok (htonl xid')).
  { unfold dhcp_reply, reply_head. rewrite <-(le_bytes_htonl xid' Hx), <-!(assoc_L (++)).
    apply (ld32_le (htonl xid') [2; 1; 6; 0]). by apply htonl_range. }
  step_with E4. rewrite ntohl_htonl, Hs by done. destruct (Z.eqb_spec xid' xid); done.
Qed.

Lemma dhcp_deliver_foreign mac batch s :
  Forall (foreign mac (dhcp_xid s)) batch → dhcp_deliver mac batch s = Ok s.
Proof. induction 1 as [|d batch Hd _ IH]; simpl; [done|]. by rewrite (Hd s). Qed.

Lemma dhcp_wait_reply got mac noise d more s s' :
  Forall (Forall (foreign mac (dhcp_xid s))) noise → got s = false → got s' = true →
  dhcp_receive mac d (Z.of_nat (length d)) s = Ok s' →
  dhcp_wait got mac (noise ++ [d] :: more) s = Ok s'.
Proof.
  intros Hn Hg Hg' Hd. induction Hn as [|batch noise Hb _ IH]; simpl; rewrite Hg.
  - rewrite Hd. step. destruct more; simpl; by rewrite Hg'.
  - rewrite dhcp_deliver_foreign by done. step. exact IH.
Qed.

Lemma dhcp_deliver_total mac batch s :
  Forall (λ d, bytes d ∧ Z.of_nat (length d) < 2 ^ 16) batch → dhcp_wf s →
  ∃ s', dhcp_deliver mac batch s = Ok s' ∧ dhcp_wf s'.
Proof.
  intros Hb. revert s. induction Hb as [|d batch [Hd Hl] _ IH]; intros s Hs; simpl; [by exists s|].
  destruct (dhcp_receive_total mac d s Hd Hl Hs) as (s1 & -> & H1 & _). step. by apply IH.
Qed.

Lemma dhcp_wait_total got mac polls s :
  Forall (Forall (λ d, bytes d ∧ Z.of_nat (length d) < 2 ^ 16)) polls → dhcp_wf s →
  ∃ s', dhcp_wait got mac polls s = Ok s' ∧ dhcp_wf s'.
Proof.
  intros Hp. revert s. induction Hp as [|batch polls Hb _ IH]; intros s Hs; simpl; [case_match; by exists s|].
  case_match; [by exists s|]. destruct (dhcp_deliver_total mac batch s Hb Hs) as (s1 & -> & H1). step. by apply IH.
Qed.

(** The last value of an option, or [d]. *)
Definition opt_value (code : Z) (os : list dhcp_opt) (d : Z) : Z :=
  foldl (λ v o, match o with
                | Opt c data => if (c =? code) && (4 <=? length data)%nat then le32 data else v
                | Pad => v
                end) d os.

Lemma opt_value_app code os1 os2 d : opt_value code (os1 ++ os2) d = opt_value code os2 (opt_value code os1 d).
Proof. apply foldl_app. Qed.

Lemma apply_opts_values os s :
  dhcp_subnet_mask (apply_opts os s) = opt_value DHCP_OPT_SUBNET_MASK os (dhcp_subnet_mask s) ∧
  dhcp_gateway (apply_opts os s) = opt_value DHCP_OPT_ROUTER os (dhcp_gateway s) ∧
  dhcp_dns (apply_opts os s) = opt_value DHCP_OPT_DNS os (dhcp_dns s) ∧
  dhcp_server_ip (apply_opts os s) = opt_value DHCP_OPT_SERVER_ID os (dhcp_server_ip s) ∧
  dhcp_offered_ip (apply_opts os s) = dhcp_offered_ip s ∧ dhcp_xid (apply_opts os s) = dhcp_xid s ∧
  dhcp_got_offer (apply_opts os s) = dhcp_got_offer s ∧ dhcp_got_ack (apply_opts os s) = dhcp_got_ack s ∧
  dhcp_tx_buffer (apply_opts os s) = dhcp_tx_buffer s.
Proof.
  revert s. induction os as [|o os IH]; intros s; [done|].
  change (apply_opts (o :: os) s) with (apply_opts os (apply_opt s o)).
  change (opt_value ?c (o :: os) ?d) with (opt_value c os (opt_value c [o] d)).
  destruct (IH (apply_opt s o)) as (-> & -> & -> & -> & -> & -> & -> & -> & ->).
  destruct o as [|code data]; [done|]. unfold opt_value, apply_opt. cbn [foldl].
  destruct (Nat.leb_spec 4 (length data)); [rewrite !andb_true_r|by rewrite !andb_false_r].
  destruct (Z.eqb_spec code DHCP_OPT_SUBNET_MASK) as [->|]; [done|].
  destruct (Z.eqb_spec code DHCP_OPT_ROUTER) as [->|]; [done|].
  destruct (Z.eqb_spec code DHCP_OPT_DNS) as [->|]; [done|].
  by destruct (Z.eqb_spec code DHCP_OPT_SERVER_ID) as [->|].
Qed.

Lemma land_u32 v : u32_ok (Z.land v 0xFFFFFFFF).
Proof. change 0xFFFFFFFF with (Z.ones 32). rewrite Z.land_ones by lia. by apply Z.mod_pos_bound. Qed.

Lemma dhcp_init_wf ticks s : length (dhcp_tx_buffer s) = 1600%nat → dhcp_wf (dhcp_init ticks s).
Proof. intros. split; try done. apply land_u32. Qed.

Lemma dhcp_message_length mac t s :
  length mac = 6%nat → (0 < length (dhcp_message mac t s) <= 264)%nat.
Proof.
  intros Hm. unfold dhcp_message. rewrite length_app, dhcp_head_length by done.
  unfold dhcp_client_opts. destruct (t =? _), (dhcp_server_ip s =? 0); simpl; lia.
Qed.

(** Building and sending one client message. *)
Lemma dhcp_transmit mac t s e :
  mac = net_get_mac (net e) → dhcp_wf s → eth_wf e →
  ∃ p b e', dhcp_build_packet mac t s = Ok (Z.of_nat (length (dhcp_message mac t s)), p) ∧
    dhcp_send p (Z.of_nat (length (dhcp_message mac t s))) s e =
      Ok (hd false (tx_results (net e)), with_tx b s, e') ∧
    dhcp_wf (with_tx b s) ∧ eth_wf e' ∧
    tx (net e') = tx (net e) ++ [eth_frame ETH_BROADCAST_MAC mac ETH_TYPE_IPV4
                                   (ip_packet 0 17 0 IP_BROADCAST (dhcp_datagram (dhcp_message mac t s)))] ∧
    tx_results (net e') = tl (tx_results (net e)) ∧ g_net_config (net e') = g_net_config (net e) ∧
    net_get_mac (net e') = mac.
Proof.
  intros Em Hs He. pose proof He as [_ [Hm _] Hnic].
  assert (Ehw : net_get_mac (net e) = hw_mac (net e))
    by (unfold net_get_mac, nic_get_mac; by destruct (g_active_nic (net e))).
  rewrite Ehw in Em. assert (Lm : length mac = 6%nat) by (by rewrite Em).
  destruct (dhcp_build_packet_spec mac t s Lm Hs) as (p & Ep & Pp).
  pose proof (dhcp_message_length mac t s Lm).
  destruct (dhcp_send_spec (dhcp_message mac t s) p s e Hs He Pp) as (r & b & e' & E & Hw & He' & Htx & -> & Hrs & Hc & Hmac & Hg);
    [lia|]. exists p, b, e'. rewrite <-Em in Htx.
  split; [exact Ep|]. split; [exact E|]. split; [exact Hw|]. split; [exact He'|]. split; [exact Htx|].
  split; [exact Hrs|]. split; [exact Hc|]. unfold net_get_mac, nic_get_mac. rewrite Hg, Hmac.
  destruct (g_active_nic (net e)); [done|by rewrite Em..].
Qed.

(** The configuration a request installs. *)
Definition dhcp_config (s : Dhcp) (c : NetConfig) : NetConfig :=
  net_set_dns (dhcp_dns s) (net_set_gateway (dhcp_gateway s)
    (net_set_netmask (dhcp_subnet_mask s) (net_set_ip (dhcp_offered_ip s) c))).

Lemma with_config_wf c e : eth_wf e → eth_wf (with_config c e).
Proof. intros []. by split. Qed.

Lemma message_length_nonzero mac t s :
  length mac = 6%nat → (Z.of_nat (length (dhcp_message mac t s)) =? 0) = false.
Proof. intros Hm. apply Z.eqb_neq. pose proof (dhcp_message_length mac t s Hm). lia. Qed.

Lemma dhcp_request_spec ticks offers acks s e :
  length (dhcp_tx_buffer s) = 1600%nat → eth_wf e →
  Forall (Forall (λ d, bytes d ∧ Z.of_nat (length d) < 2 ^ 16)) offers →
  Forall (Forall (λ d, bytes d ∧ Z.of_nat (length d) < 2 ^ 16)) acks →
  ∃ ok s' e', dhcp_request ticks offers acks s e = Ok (ok, s', e') ∧ dhcp_wf s' ∧ eth_wf e' ∧
    g_net_config (net e') = if ok then dhcp_config s' (g_net_config (net e)) else g_net_config (net e).
Proof.
  intros Hb He Ho Ha. unfold dhcp_request. set (mac := net_get_mac (net e)).
  pose proof (dhcp_init_wf ticks s Hb) as Hs0. set (s0 := dhcp_init ticks s) in *. clearbody s0.
  assert (Lm : length mac = 6%nat).
  { destruct He as [_ [Hm _] Hn]. unfold mac, net_get_mac, nic_get_mac. by destruct (g_active_nic (net e)). }
  destruct (dhcp_transmit mac DHCP_DISCOVER s0 e eq_refl Hs0 He)
    as (p1 & b1 & e1 & E1 & E2 & W1 & He1 & _ & Hr1 & Hc1 & Hm1).
  step_with E1. cbv iota. rewrite message_length_nonzero by done. step_with E2. cbv iota.
  destruct (hd false (tx_results (net e))); cbn [negb]; [|by eexists _, _, _].
  destruct (dhcp_wait_total dhcp_got_offer mac offers (with_tx b1 s0) Ho W1) as (s1 & E3 & W2). step_with E3.
  destruct (dhcp_got_offer s1); cbn [negb]; [|by eexists _, _, _].
  destruct (dhcp_transmit mac DHCP_REQUEST s1 e1 (eq_sym Hm1) W2 He1)
    as (p2 & b2 & e2 & E4 & E5 & W3 & He2 & _ & Hr2 & Hc2 & Hm2).
  step_with E4. cbv iota. rewrite message_length_nonzero by done. step_with E5. cbv iota.
  destruct (hd false (tx_results (net e1))); cbn [negb];
    [|eexists _, _, _; split; [done|]; split; [done|]; split; [done|congruence]].
  destruct (dhcp_wait_total dhcp_got_ack mac acks (with_tx b2 s1) Ha W3) as (s2 & E6 & W4). step_with E6.
  destruct (dhcp_got_ack s2); cbn [negb];
    [|eexists _, _, _; split; [done|]; split; [done|]; split; [done|congruence]].
  eexists _, _, _. split; [done|]. split; [done|]. split; [by apply with_config_wf|].
  unfold dhcp_config. simpl. by rewrite Hc2, Hc1.
Qed.

(** Options change neither the buffer nor the flags, and need neither. *)
Lemma apply_opts_comm os b o a s :
  apply_opts os (with_tx b (set_got o a s)) = with_tx b (set_got o a (apply_opts os s)).
Proof.
  revert s. induction os as [|x os IH]; intros s; [done|].
  change (apply_opts (x :: os) ?t) with (apply_opts os (apply_opt t x)). rewrite <-IH. f_equal.
  destruct x as [|code data]; [done|]. unfold apply_opt. by repeat case_match.
Qed.

Lemma le32_range d : bytes d → u32_ok (le32 d).
Proof.
  intros Hb. pose proof (nth_bytes d 0 Hb). pose proof (nth_bytes d 1 Hb).
  pose proof (nth_bytes d 2 Hb). pose proof (nth_bytes d 3 Hb). unfold u32_ok, le32, word4. lia.
Qed.

Lemma apply_opts_wf os s : Forall opt_ok os → dhcp_wf s → dhcp_wf (apply_opts os s).
Proof.
  intros Ho. revert s. induction Ho as [|o os Ho _ IH]; intros s Hs; [done|].
  change (dhcp_wf (apply_opts os (apply_opt s o))). apply IH. destruct o as [|code data]; [done|].
  destruct Ho as (_ & Hb & _). pose proof (le32_range data Hb). destruct Hs. unfold apply_opt.
  repeat case_match; by split.
Qed.

Lemma dhcp_request_exchange ticks noise1 y1 os1 more1 noise2 y2 os2 more2 s e rest :
  length (dhcp_tx_buffer s) = 1600%nat → eth_wf e → tx_results (net e) = true :: true :: rest →
  Forall opt_ok os1 → Forall opt_ok os2 → u32_ok y1 → u32_ok y2 →
  (length (encode_opts os1) <= 1200)%nat → (length (encode_opts os2) <= 1200)%nat →
  opts_type os1 = DHCP_OFFER → opts_type os2 = DHCP_ACK →
  let mac := hw_mac (net e) in let xid := Z.land ticks 0xFFFFFFFF in
  Forall (Forall (foreign mac xid)) noise1 → Forall (Forall (foreign mac xid)) noise2 →
  let s0 := dhcp_init ticks s in
  let s1 := apply_opts os1 (set_offered y1 s0) in
  let frame m := eth_frame ETH_BROADCAST_MAC mac ETH_TYPE_IPV4 (ip_packet 0 17 0 IP_BROADCAST (dhcp_datagram m)) in
  ∃ s' e',
    dhcp_request ticks (noise1 ++ [dhcp_reply mac xid y1 os1] :: more1)
      (noise2 ++ [dhcp_reply mac xid y2 os2] :: more2) s e = Ok (true, s', e') ∧
    tx (net e') = tx (net e) ++ [frame (dhcp_message mac DHCP_DISCOVER s0); frame (dhcp_message mac DHCP_REQUEST s1)] ∧
    g_net_config (net e') = dhcp_config (apply_opts os2 (set_offered y2 s1)) (g_net_config (net e)).
Proof.
  intros Hb He Hr Ho1 Ho2 Hy1 Hy2 Hl1 Hl2 T1 T2 mac xid Hn1 Hn2 s0 s1 frame.
  pose proof (dhcp_init_wf ticks s Hb) as Hs0. fold s0 in Hs0.
  pose proof He as [_ Hmac Hnic]. fold mac in Hmac.
  assert (Em : net_get_mac (net e) = mac) by (unfold net_get_mac, nic_get_mac; by destruct (g_active_nic (net e))).
  assert (Lm : length mac = 6%nat) by apply Hmac. unfold dhcp_request. rewrite Em. fold s0.
  destruct (dhcp_transmit mac DHCP_DISCOVER s0 e (eq_sym Em) Hs0 He)
    as (p1 & b1 & e1 & E1 & E2 & W1 & He1 & Htx1 & Hr1 & Hc1 & Hm1).
  step_with E1. cbv iota. rewrite message_length_nonzero by done. step_with E2. cbv iota.
  rewrite Hr in Hr1 |- *. cbn [hd negb]. cbn [tl] in Hr1.
  assert (Hx1 : dhcp_xid s1 = xid) by (unfold s1; by destruct (apply_opts_values os1 (set_offered y1 s0)) as (_ & _ & _ & _ & _ & -> & _)).
  assert (R1 : dhcp_receive mac (dhcp_reply mac xid y1 os1) (Z.of_nat (length (dhcp_reply mac xid y1 os1))) (with_tx b1 s0)
               = Ok (with_tx b1 (set_got true false s1))).
  { rewrite dhcp_receive_reply by (done || apply land_u32). unfold on_reply. rewrite T1.
    change (DHCP_OFFER =? DHCP_OFFER) with true. cbv iota.
    change (set_offered y1 (with_tx b1 s0)) with (with_tx b1 (set_got false false (set_offered y1 s0))).
    by rewrite apply_opts_comm. }
  step_with (dhcp_wait_reply dhcp_got_offer mac noise1 _ more1 (with_tx b1 s0)
    (with_tx b1 (set_got true false s1)) Hn1 eq_refl eq_refl R1).
  cbn [negb dhcp_got_offer with_tx set_got]. fold (set_got true false s1). fold (with_tx b1 (set_got true false s1)).
  assert (Hs1 : dhcp_wf s1) by (apply apply_opts_wf; [done|]; destruct Hs0; by split).
  assert (W2 : dhcp_wf (with_tx b1 (set_got true false s1))) by (destruct Hs1, W1; by split).
  destruct (dhcp_transmit mac DHCP_REQUEST (with_tx b1 (set_got true false s1)) e1 (eq_sym Hm1) W2 He1)
    as (p2 & b2 & e2 & E4 & E5 & W3 & He2 & Htx2 & Hr2 & Hc2 & Hm2).
  change (dhcp_message mac DHCP_REQUEST (with_tx b1 (set_got true false s1))) with (dhcp_message mac DHCP_REQUEST s1) in *.
  step_with E4. cbv iota. rewrite message_length_nonzero by done. step_with E5. cbv iota.
  rewrite Hr1. cbn [hd negb].
  assert (R2 : dhcp_receive mac (dhcp_reply mac xid y2 os2) (Z.of_nat (length (dhcp_reply mac xid y2 os2)))
                 (with_tx b2 (with_tx b1 (set_got true false s1)))
               = Ok (with_tx b2 (set_got true true (apply_opts os2 (set_offered y2 s1))))).
  { rewrite dhcp_receive_reply by (done || apply land_u32). unfold on_reply. rewrite T2.
    change (DHCP_ACK =? DHCP_OFFER) with false. change (DHCP_ACK =? DHCP_ACK) with true. cbv iota.
    change (set_offered y2 (with_tx b2 (with_tx b1 (set_got true false s1))))
      with (with_tx b2 (set_got true false (set_offered y2 s1))). by rewrite apply_opts_comm. }
  assert (Hn2' : Forall (Forall (foreign mac (dhcp_xid (with_tx b2 (with_tx b1 (set_got true false s1)))))) noise2)
    by (change (dhcp_xid (with_tx b2 (with_tx b1 (set_got true false s1)))) with (dhcp_xid s1); by rewrite Hx1).
  assert (Hga : dhcp_got_ack (with_tx b2 (with_tx b1 (set_got true false s1))) = false) by done.
  step_with (dhcp_wait_reply dhcp_got_ack mac noise2 _ more2 _
    (with_tx b2 (set_got true true (apply_opts os2 (set_offered y2 s1)))) Hn2' Hga eq_refl R2).
  cbn [negb dhcp_got_ack with_tx set_got]. eexists _, _. split; [reflexivity|]. split.
  - cbn [net tx with_config]. rewrite Htx2, Htx1, <-(assoc_L (++)). reflexivity.
  - cbn [net g_net_config with_config]. unfold dhcp_config. rewrite Hc2, Hc1. reflexivity.
Qed.

(** ** A client message on the wire *)

Lemma dhcp_message_bytes mac t s :
  mac_ok mac → 0 <= t < 2 ^ 8 → bytes (dhcp_message mac t s).
Proof.
  intros [_ Hm] Ht.
  assert (H0 : ∀ n, bytes (replicate n 0)) by (intros; apply Forall_replicate; lia).
  assert (H4 : ∀ v, bytes (be32 v)) by (intros; unfold be32; repeat (constructor; [lia|]); constructor).
  pose proof (bytes_le_bytes 4 (dhcp_offered_ip s)) as B1. pose proof (bytes_le_bytes 4 (dhcp_server_ip s)) as B2.
  unfold dhcp_message, dhcp_head, dhcp_client_opts, encode_opts, bytes.
  rewrite !fmap_app, !concat_app, !Forall_app.
  assert (Hs : ∀ c d, 0 <= c < 2 ^ 8 → (length d <= 255)%nat → bytes d → bytes (encode_opt (Opt c d))).
  { intros c d Hc Hl Hd. constructor; [done|]. constructor; [lia|done]. }
  assert (H1 : ∀ o, bytes (encode_opt o) → bytes (concat (encode_opt <$> [o])))
    by (intros; simpl; by rewrite app_nil_r).
  assert (Hlist : ∀ l, forallb (λ b, (0 <=? b) && (b <? 256)) l = true → bytes l).
  { intros l Hl. apply Forall_forall. intros b Hb%list_elem_of_In. rewrite forallb_forall in Hl.
    specialize (Hl b Hb). lia. }
  split_and!; try (by apply H4); try (by apply H0); try (by apply Hlist); try done.
  - apply H1, Hs; [done|simpl; lia|]. constructor; [done|constructor].
  - destruct (t =? DHCP_REQUEST); [|constructor]. simpl.
    apply (Forall_app_2 _ (encode_opt (Opt DHCP_OPT_REQUESTED_IP (le_bytes 4 (dhcp_offered_ip s))))); [by apply Hs; [|simpl; lia|]|].
    destruct (dhcp_server_ip s =? 0); [constructor|]. apply H1, Hs; [done|simpl; lia|done].
Qed.

(** Any host on the link gets the message as a UDP datagram for the server's port. *)
Lemma dhcp_frame_received mac t s our_mac our_ip :
  mac_ok mac → 0 <= t < 2 ^ 8 → mac_ok our_mac →
  receive_frame our_mac our_ip
    (eth_frame ETH_BROADCAST_MAC mac ETH_TYPE_IPV4
       (ip_packet 0 17 0 IP_BROADCAST (dhcp_datagram (dhcp_message mac t s)))) =
  Ok (ToUdp (dhcp_datagram (dhcp_message mac t s)) 0 IP_BROADCAST).
Proof.
  intros Hm Ht Ho. pose proof (dhcp_message_length mac t s (proj1 Hm)) as Lm.
  set (msg := dhcp_message mac t s) in *.
  assert (Ld : length (dhcp_datagram msg) = (8 + length msg)%nat)
    by (unfold dhcp_datagram; by rewrite length_app, udp_header_length).
  assert (Bd : bytes (dhcp_datagram msg)).
  { apply Forall_app. split; [apply udp_header_bytes|by apply dhcp_message_bytes]. }
  assert (Lp : length (ip_packet 0 17 0 IP_BROADCAST (dhcp_datagram msg)) = (28 + length msg)%nat)
    by (unfold ip_packet; rewrite length_app, ip_header_length; lia).
  unfold receive_frame.
  rewrite (ethernet_receive_spec our_mac ETH_BROADCAST_MAC mac ETH_TYPE_IPV4 (ip_packet 0 17 0 IP_BROADCAST (dhcp_datagram msg)));
    [|done|apply broadcast_mac_ok|done|unfold ETH_TYPE_IPV4; lia|unfold ETH_DATA_LEN; lia|by right]. step.
  change (ETH_TYPE_IPV4 =? ETH_TYPE_ARP) with false. change (ETH_TYPE_IPV4 =? ETH_TYPE_IPV4) with true. cbv iota.
  pose proof (ipv4_receive_packet our_ip 0 17 0 IP_BROADCAST (dhcp_datagram msg)
    (replicate (46 - length (ip_packet 0 17 0 IP_BROADCAST (dhcp_datagram msg))) 0)) as Hrec.
  cbv zeta in Hrec. rewrite Hrec;
    [reflexivity|done|lia|lia|lia|unfold IP_BROADCAST; lia|lia|rewrite length_replicate; lia|by right].
Qed.

(** * Properties *)


(** A card at 02:00:00:00:00:02 whose first two transmissions succeed. *)
Definition sample_eth : Eth :=
  mkEth (mkNet (mkNetConfig 0 0 0 0 false) NIC_E1000 [2; 0; 0; 0; 0; 2] [true; true] []) (replicate 1600 0).
Definition sample_dhcp : Dhcp := mkDhcp 0 0 0 0 0 0 false false (replicate 1600 0).
(** An offer and an acknowledgement of 10.0.2.15 by the server 10.0.2.2. *)
Definition sample_opts (t : Z) : list dhcp_opt :=
  [Opt DHCP_OPT_MSG_TYPE [t]; Pad; Opt DHCP_OPT_SERVER_ID [10; 0; 2; 2];
   Opt DHCP_OPT_SUBNET_MASK [255; 255; 255; 0]; Opt DHCP_OPT_ROUTER [10; 0; 2; 2]; Opt DHCP_OPT_DNS [10; 0; 2; 3]].

Lemma sample_eth_wf : eth_wf sample_eth.
Proof.
  split; [apply length_replicate|split; [done|repeat (constructor; [lia|]); constructor]|done].
Qed.

Lemma sample_opts_ok t : 0 <= t < 2 ^ 8 → Forall opt_ok (sample_opts t).
Proof.
  intros Ht. unfold sample_opts.
  repeat (constructor; [first [exact I|split; [done|split; [repeat (constructor; [lia|]); constructor|simpl; lia]]]|]).
  constructor.
Qed.


(** C36: the client survives anything that arrives while it waits, and a failed request
    changes no configuration: whatever payloads each poll delivers, whatever the card
    answers, [dhcp_request] returns within its buffers; when it fails, the network
    configuration is what it was, and when it succeeds, it is exactly what the state
    of the client says. *)
Theorem dhcp_request_robust ticks offers acks s e :
  length (dhcp_tx_buffer s) = 1600%nat → eth_wf e →
  Forall (Forall (λ d, bytes d ∧ Z.of_nat (length d) < 2 ^ 16)) offers →
  Forall (Forall (λ d, bytes d ∧ Z.of_nat (length d) < 2 ^ 16)) acks →
  ∃ ok s' e', dhcp_request ticks offers acks s e = Ok (ok, s', e') ∧ dhcp_wf s' ∧ eth_wf e' ∧
    g_net_config (net e') = if ok then dhcp_config s' (g_net_config (net e)) else g_net_config (net e).
Proof. apply dhcp_request_spec. Qed.

Lemma dhcp_request_robust_witness :
  ∃ ok s' e', dhcp_request 7 [[[2; 1; 6]]; []] [] sample_dhcp sample_eth = Ok (ok, s', e') ∧ dhcp_wf s' ∧ eth_wf e' ∧
    g_net_config (net e') = if ok then dhcp_config s' (g_net_config (net sample_eth)) else g_net_config (net sample_eth).
Proof.
  apply (dhcp_request_robust 7 [[[2; 1; 6]]; []] []); [apply length_replicate|apply sample_eth_wf| |constructor].
  constructor; [|repeat constructor]. constructor; [|constructor].
  split; [repeat (constructor; [lia|]); constructor|simpl; lia].
Defined.

(** Option parsing inverts option encoding. On the encoding of any list of options
    and paddings, followed by nothing or by an end marker and then any bytes,
    [dhcp_parse_options] assigns exactly the values the options carry, the last one
    of a kind winning, and the scan of [dhcp_receive] finds the message type. *)
Theorem dhcp_options_roundtrip os tail s :
  Forall opt_ok os → opts_end tail → let buf := encode_opts os ++ tail in Z.of_nat (length buf) < 2 ^ 16 →
  ∃ s', dhcp_parse_options buf (Z.of_nat (length buf)) s = Ok s' ∧
    dhcp_find_type buf (Z.of_nat (length buf)) = Ok (opts_type os) ∧
    dhcp_subnet_mask s' = opt_value DHCP_OPT_SUBNET_MASK os (dhcp_subnet_mask s) ∧
    dhcp_gateway s' = opt_value DHCP_OPT_ROUTER os (dhcp_gateway s) ∧
    dhcp_dns s' = opt_value DHCP_OPT_DNS os (dhcp_dns s) ∧
    dhcp_server_ip s' = opt_value DHCP_OPT_SERVER_ID os (dhcp_server_ip s) ∧
    dhcp_offered_ip s' = dhcp_offered_ip s.
Proof.
  intros Ho Ht buf Hl. destruct (dhcp_parse_options_spec os tail s Ho Ht Hl) as [E1 E2].
  exists (apply_opts os s). split; [exact E1|]. split; [exact E2|].
  destruct (apply_opts_values os s) as (? & ? & ? & ? & ? & _). done.
Qed.

Lemma dhcp_options_roundtrip_witness :
  ∃ s', dhcp_parse_options (encode_opts (sample_opts 5) ++ [255; 1; 2]) 31 sample_dhcp = Ok s' ∧
    dhcp_find_type (encode_opts (sample_opts 5) ++ [255; 1; 2]) 31 = Ok 5 ∧ dhcp_gateway s' = 0x0202000A.
Proof.
  destruct (dhcp_options_roundtrip (sample_opts 5) [255; 1; 2] sample_dhcp) as (s' & E1 & E2 & _ & Hg & _);
    [by apply sample_opts_ok|by right|simpl; lia|].
  exists s'. split; [exact E1|]. split; [exact E2|exact Hg].
Defined.
