(* ===== verification/Tcp.v ===== *)
(** TCP (src/net/tcp.cpp): 32 connection blocks with a receive ring and one
    retransmission slot each, segment construction and checking, the connection
    state machine, the socket calls and the retransmission timer. The layer below is
    any [IpLayer]; the clock, the outcomes of [malloc] and the segments that arrive
    at each network poll are inputs. Every socket operation runs under the socket's
    spinlock and is one step here; the locks themselves are not modelled. *)

From S2P Require Import Prelude Ring Wire Ethernet Arp Ipv4.

(** * Model *)

Definition TCP_FLAG_FIN : Z := 0x01.
Definition TCP_FLAG_SYN : Z := 0x02.
Definition TCP_FLAG_RST : Z := 0x04.
Definition TCP_FLAG_PSH : Z := 0x08.
Definition TCP_FLAG_ACK : Z := 0x10.
Definition TCP_HEADER_SIZE : Z := 20.
Definition TCP_MAX_SOCKETS : nat := 32.
Definition TCP_WINDOW_SIZE : Z := 65535.
Definition TCP_RX_BUFFER_SIZE : Z := 65536.
Definition EPHEMERAL_PORT_MIN : Z := 49152.

Inductive TcpState :=
  | TCP_CLOSED | TCP_LISTEN | TCP_SYN_SENT | TCP_SYN_RECEIVED | TCP_ESTABLISHED | TCP_FIN_WAIT_1
  | TCP_FIN_WAIT_2 | TCP_CLOSE_WAIT | TCP_CLOSING | TCP_LAST_ACK | TCP_TIME_WAIT.

#[export] Instance TcpState_eq_dec : EqDecision TcpState.
Proof. solve_decision. Defined.

Record RetransmitPacket := mkRetransmit {
  rt_in_use : bool;
  rt_seq_num : Z;
  rt_length : Z;
  rt_flags : Z;
  rt_sent_time : Z;
  rt_retries : Z;
  rt_rto_ms : Z;
  rt_data : list Z
}.

Record TcpSocket := mkTcpSocket {
  sk_in_use : bool;
  sk_state : TcpState;
  local_port : Z;
  remote_port : Z;
  remote_ip : Z;
  seq_num : Z;
  ack_num : Z;
  send_next : Z;
  send_una : Z;
  rx_buf : list Z;
  rx_head : Z;
  rx_tail : Z;
  pending_ack : bool;
  last_activity : Z;
  retransmit : RetransmitPacket
}.

(** Assignments to the fields of a socket. *)
Definition set_in_use (b : bool) (s : TcpSocket) : TcpSocket :=
  mkTcpSocket b (sk_state s) (local_port s) (remote_port s) (remote_ip s) (seq_num s) (ack_num s) (send_next s)
    (send_una s) (rx_buf s) (rx_head s) (rx_tail s) (pending_ack s) (last_activity s) (retransmit s).
Definition set_state (x : TcpState) (s : TcpSocket) : TcpSocket :=
  mkTcpSocket (sk_in_use s) x (local_port s) (remote_port s) (remote_ip s) (seq_num s) (ack_num s) (send_next s)
    (send_una s) (rx_buf s) (rx_head s) (rx_tail s) (pending_ack s) (last_activity s) (retransmit s).
Definition set_local_port (p : Z) (s : TcpSocket) : TcpSocket :=
  mkTcpSocket (sk_in_use s) (sk_state s) p (remote_port s) (remote_ip s) (seq_num s) (ack_num s) (send_next s)
    (send_una s) (rx_buf s) (rx_head s) (rx_tail s) (pending_ack s) (last_activity s) (retransmit s).
Definition set_remote (a p : Z) (s : TcpSocket) : TcpSocket :=
  mkTcpSocket (sk_in_use s) (sk_state s) (local_port s) p a (seq_num s) (ack_num s) (send_next s)
    (send_una s) (rx_buf s) (rx_head s) (rx_tail s) (pending_ack s) (last_activity s) (retransmit s).
Definition set_ack (v : Z) (s : TcpSocket) : TcpSocket :=
  mkTcpSocket (sk_in_use s) (sk_state s) (local_port s) (remote_port s) (remote_ip s) (seq_num s) v (send_next s)
    (send_una s) (rx_buf s) (rx_head s) (rx_tail s) (pending_ack s) (last_activity s) (retransmit s).
(** [seq_num = send_next = v] *)
Definition set_isn (v : Z) (s : TcpSocket) : TcpSocket :=
  mkTcpSocket (sk_in_use s) (sk_state s) (local_port s) (remote_port s) (remote_ip s) v (ack_num s) v
    (send_una s) (rx_buf s) (rx_head s) (rx_tail s) (pending_ack s) (last_activity s) (retransmit s).
Definition set_una (v : Z) (s : TcpSocket) : TcpSocket :=
  mkTcpSocket (sk_in_use s) (sk_state s) (local_port s) (remote_port s) (remote_ip s) (seq_num s) (ack_num s)
    (send_next s) v (rx_buf s) (rx_head s) (rx_tail s) (pending_ack s) (last_activity s) (retransmit s).
Definition set_rx (buf : list Z) (head tail : Z) (s : TcpSocket) : TcpSocket :=
  mkTcpSocket (sk_in_use s) (sk_state s) (local_port s) (remote_port s) (remote_ip s) (seq_num s) (ack_num s)
    (send_next s) (send_una s) buf head tail (pending_ack s) (last_activity s) (retransmit s).
Definition set_pending (b : bool) (s : TcpSocket) : TcpSocket :=
  mkTcpSocket (sk_in_use s) (sk_state s) (local_port s) (remote_port s) (remote_ip s) (seq_num s) (ack_num s)
    (send_next s) (send_una s) (rx_buf s) (rx_head s) (rx_tail s) b (last_activity s) (retransmit s).
Definition set_retransmit (r : RetransmitPacket) (s : TcpSocket) : TcpSocket :=
  mkTcpSocket (sk_in_use s) (sk_state s) (local_port s) (remote_port s) (remote_ip s) (seq_num s) (ack_num s)
    (send_next s) (send_una s) (rx_buf s) (rx_head s) (rx_tail s) (pending_ack s) (last_activity s) r.
(** After a segment was sent: the next sequence number and the time. *)
Definition set_sent (next now : Z) (s : TcpSocket) : TcpSocket :=
  mkTcpSocket (sk_in_use s) (sk_state s) (local_port s) (remote_port s) (remote_ip s) (seq_num s) (ack_num s)
    next (send_una s) (rx_buf s) (rx_head s) (rx_tail s) (pending_ack s) now (retransmit s).

(** [retransmit.in_use = false] *)
Definition rt_clear (r : RetransmitPacket) : RetransmitPacket :=
  mkRetransmit false (rt_seq_num r) (rt_length r) (rt_flags r) (rt_sent_time r) (rt_retries r) (rt_rto_ms r) (rt_data r).
Definition clear_retransmit (s : TcpSocket) : TcpSocket := set_retransmit (rt_clear (retransmit s)) s.

(** FNV-1a over the connection's addresses and the boot-time secret. *)
Definition fnv_step (hash b : Z) : Z := u32 (Z.lxor hash b * 16777619).
Definition tcp_generate_isn (secret ticks local_ip remote_ip local_port remote_port : Z) : Z :=
  let data := le_bytes 4 local_ip ++ le_bytes 4 remote_ip ++ le_bytes 2 local_port ++
              le_bytes 2 remote_port ++ le_bytes 4 secret in
  u32 (foldl fnv_step 2166136261 data + Z.land ticks 0xFFFFFFFF).

(** One round of the search for a free port: the port taken, or another round. *)
Definition port_in_use (ss : list TcpSocket) (port : Z) : bool :=
  existsb (λ s, sk_in_use s && (local_port s =? port)) ss.

Definition ephemeral_round (ss : list TcpSocket) (start_port next : Z) : res (Z + Z * Z) :=
  let port := next in
  let next := u16 (next + 1) in
  let next := if next =? 0 then EPHEMERAL_PORT_MIN else next in
  if negb (port_in_use ss port) then Ok (inr (port, next))
  else if next =? start_port then Ok (inr (0, next))
  else Ok (inl next).

(** The port (0 when there is none) and the new [next_ephemeral_port]. *)
Definition get_ephemeral_port (ss : list TcpSocket) (next_ephemeral_port : Z) : res (Z * Z) :=
  let next := if next_ephemeral_port <? EPHEMERAL_PORT_MIN then EPHEMERAL_PORT_MIN else next_ephemeral_port in
  loop (Z.to_nat 16385) (ephemeral_round ss next) next.

Definition tcp_init_socket (s : TcpSocket) : TcpSocket :=
  clear_retransmit (set_state TCP_CLOSED (set_in_use false s)).
(** The sockets and the secret. *)
Definition tcp_init (tsc ticks : Z) (ss : list TcpSocket) : list TcpSocket * Z :=
  (tcp_init_socket <$> ss, u32 (Z.lxor (Z.lxor tsc (Z.shiftr tsc 32)) ticks)).

Definition tcp_checksum (src_ip dst_ip : Z) (tcp_data : list Z) (length : Z) : res Z :=
  if (length =? 0) || (1600 <? 12 + length) then Ok 0
  else
    let b := replicate 1600 0 in
    b ← st32 b 0 src_ip;
    b ← st32 b 4 dst_ip;
    b ← st8 b 8 0;
    b ← st8 b 9 IP_PROTO_TCP;
    b ← st16 b 10 (htons length);
    b ← blit b 12 tcp_data 0 length;
    ipv4_checksum b (12 + length).

(** The segment, in a fresh heap block. *)
Definition tcp_build (our_ip remote_ip local_port remote_port seq ack flags : Z) (data : list Z) : res (list Z) :=
  let len := Z.of_nat (length data) in
  let b := replicate (20 + length data) 0 in
  b ← st16 b 0 (htons local_port);
  b ← st16 b 2 (htons remote_port);
  b ← st32 b 4 (htonl seq);
  b ← st32 b 8 (if has flags TCP_FLAG_ACK then htonl ack else 0);
  b ← st8 b 12 (Z.shiftl (TCP_HEADER_SIZE / 4) 4);
  b ← st8 b 13 flags;
  b ← st16 b 14 (htons TCP_WINDOW_SIZE);
  b ← st16 b 16 0;
  b ← st16 b 18 0;
  b ← blit b TCP_HEADER_SIZE data 0 len;
  c ← tcp_checksum our_ip remote_ip b (TCP_HEADER_SIZE + len);
  st16 b 16 c.

(** The protocol's file-scope state, with the heap and the layer below. *)
Record Tcp (W : Type) := mkTcp {
  socks : list TcpSocket;
  tcp_isn_secret : Z;
  next_ephemeral_port : Z;
  heap : list bool;
  below : W
}.
Arguments mkTcp {W} _ _ _ _ _.
Arguments socks {W} _.
Arguments tcp_isn_secret {W} _.
Arguments next_ephemeral_port {W} _.
Arguments heap {W} _.
Arguments below {W} _.

(** Storing the payload in the receive ring until it is full: the buffer, the head
    and the number of bytes stored. *)
Fixpoint tcp_store (payload buf : list Z) (head tail stored : Z) : res (list Z * Z * Z) :=
  match payload with
  | [] => Ok (buf, head, stored)
  | x :: payload' =>
      let next := u16 (u32 (head + 1) mod TCP_RX_BUFFER_SIZE) in
      if next =? tail then Ok (buf, head, stored)
      else
        buf' ← arr_set buf head x;
        tcp_store payload' buf' next tail (u16 (stored + 1))
  end.

Fixpoint find_sock (f : TcpSocket → bool) (ss : list TcpSocket) (i : nat) : option nat :=
  match ss with
  | [] => None
  | s :: ss' => if f s then Some i else find_sock f ss' (S i)
  end.

Definition connected_to (src_ip src_port dst_port : Z) (s : TcpSocket) : bool :=
  sk_in_use s && negb (bool_decide (sk_state s = TCP_LISTEN)) && (local_port s =? dst_port) &&
  (remote_port s =? src_port) && (remote_ip s =? src_ip).
Definition listening_on (dst_port : Z) (s : TcpSocket) : bool :=
  sk_in_use s && bool_decide (sk_state s = TCP_LISTEN) && (local_port s =? dst_port).

Definition tcp_find_socket (src_ip src_port dst_port : Z) (ss : list TcpSocket) : option nat :=
  match find_sock (connected_to src_ip src_port dst_port) ss 0 with
  | Some i => Some i
  | None => find_sock (listening_on dst_port) ss 0
  end.

(** [flags & (TCP_FLAG_SYN | TCP_FLAG_FIN) ? 1 : 0] *)
Definition syn_fin (flags : Z) : Z := if has flags (Z.lor TCP_FLAG_SYN TCP_FLAG_FIN) then 1 else 0.

(** The central processing of an acknowledgement. *)
Definition tcp_take_ack (ack : Z) (s : TcpSocket) : TcpSocket :=
  let s := set_una ack s in
  let r := retransmit s in
  if rt_in_use r then
    let diff := i32 (u32 (ack - u32 (rt_seq_num r + rt_length r + syn_fin (rt_flags r)))) in
    if 0 <=? diff then clear_retransmit s else s
  else s.

Section tcp.
Context {W : Type} `{IpLayer W}.

Definition tcp_send_segment (now : Z) (flags : Z) (data : list Z) (s : TcpSocket) (h : list bool) (w : W)
    : res (bool * TcpSocket * list bool * W) :=
  let len := Z.of_nat (length data) in
  if 1460 <? len then Ok (false, s, h, w)
  else
    let '(packet_ok, h) := malloc_next h in
    if negb packet_ok then Ok (false, s, h, w)
    else
      let packet_seq := send_next s in
      packet ← tcp_build (ip_addr w) (remote_ip s) (local_port s) (remote_port s) packet_seq (ack_num s) flags data;
      '(result, w) ← ip_send (remote_ip s) IP_PROTO_TCP packet (TCP_HEADER_SIZE + len) w;
      if (result : bool) then
        let next := u32 (packet_seq + len) in
        let next := if has flags (Z.lor TCP_FLAG_SYN TCP_FLAG_FIN) then u32 (next + 1) else next in
        let s := set_sent next now s in
        if (0 <? len) || has flags (Z.lor TCP_FLAG_SYN TCP_FLAG_FIN) then
          d ← (if 0 <? len then blit (rt_data (retransmit s)) 0 data 0 len else Ok (rt_data (retransmit s)));
          Ok (true, set_retransmit (mkRetransmit true packet_seq len flags now 0 500 d) s, h, w)
        else Ok (true, s, h, w)
      else Ok (false, s, h, w).

(** A control segment whose outcome the caller ignores. *)
Definition tcp_control (now flags : Z) (s : TcpSocket) (h : list bool) (w : W) : res (TcpSocket * list bool * W) :=
  '(_, s, h, w) ← tcp_send_segment now flags [] s h w; Ok (s, h, w).

Definition with_socks (ss : list TcpSocket) (h : list bool) (w : W) (t : Tcp W) : Tcp W :=
  mkTcp ss (tcp_isn_secret t) (next_ephemeral_port t) h w.

(** The connection block a SYN to a listening socket is given. *)
Definition tcp_passive (secret now seq src_ip dst_ip src_port dst_port : Z) (n : TcpSocket) : TcpSocket :=
  let n := set_state TCP_SYN_RECEIVED (set_in_use true n) in
  let n := set_ack (u32 (seq + 1)) (set_remote src_ip src_port (set_local_port dst_port n)) in
  let n := set_isn (tcp_generate_isn secret now dst_ip src_ip dst_port src_port) n in
  clear_retransmit (set_rx (rx_buf n) 0 0 n).

(** The case [TCP_ESTABLISHED]. *)
Definition tcp_established (now flags seq : Z) (payload : list Z) (s : TcpSocket) (h : list bool) (w : W)
    : res (TcpSocket * list bool * W) :=
  let payload_len := Z.of_nat (length payload) in
  s ← (if 0 <? payload_len then
         '(buf, head, stored) ← tcp_store payload (rx_buf s) (rx_head s) (rx_tail s) 0;
         let s := set_rx buf head (rx_tail s) s in
         Ok (if 0 <? stored then set_pending true (set_ack (u32 (seq + stored)) s) else s)
       else Ok s);
  '(s, h, w) ← (if has flags TCP_FLAG_FIN then
                  tcp_control now TCP_FLAG_ACK
                    (set_state TCP_CLOSE_WAIT (set_ack (u32 (seq + payload_len + 1)) s)) h w
                else Ok (s, h, w));
  if pending_ack s then
    '(s, h, w) ← tcp_control now TCP_FLAG_ACK s h w; Ok (set_pending false s, h, w)
  else Ok (s, h, w).

(** The [switch] of [tcp_receive] for the socket's own state, [TCP_LISTEN] apart. *)
Definition tcp_switch (now flags seq ack : Z) (payload : list Z) (s : TcpSocket) (h : list bool) (w : W)
    : res (TcpSocket * list bool * W) :=
  match sk_state s with
  | TCP_SYN_SENT =>
      if (Z.land flags (Z.lor TCP_FLAG_SYN TCP_FLAG_ACK) =? Z.lor TCP_FLAG_SYN TCP_FLAG_ACK) && (ack =? send_next s)
      then tcp_control now TCP_FLAG_ACK (set_state TCP_ESTABLISHED (set_ack (u32 (seq + 1)) s)) h w
      else Ok (s, h, w)
  | TCP_SYN_RECEIVED =>
      if has flags TCP_FLAG_ACK then Ok (set_state TCP_ESTABLISHED s, h, w) else Ok (s, h, w)
  | TCP_ESTABLISHED => tcp_established now flags seq payload s h w
  | TCP_FIN_WAIT_1 =>
      if has flags TCP_FLAG_ACK && has flags TCP_FLAG_FIN then
        '(s, h, w) ← tcp_control now TCP_FLAG_ACK (set_ack (u32 (seq + 1)) s) h w;
        Ok (set_state TCP_TIME_WAIT s, h, w)
      else if has flags TCP_FLAG_ACK then Ok (set_state TCP_FIN_WAIT_2 s, h, w)
      else if has flags TCP_FLAG_FIN then
        '(s, h, w) ← tcp_control now TCP_FLAG_ACK (set_ack (u32 (seq + 1)) s) h w;
        Ok (set_state TCP_CLOSING s, h, w)
      else Ok (s, h, w)
  | TCP_FIN_WAIT_2 =>
      if has flags TCP_FLAG_FIN then
        '(s, h, w) ← tcp_control now TCP_FLAG_ACK (set_ack (u32 (seq + 1)) s) h w;
        Ok (set_state TCP_TIME_WAIT s, h, w)
      else Ok (s, h, w)
  | TCP_CLOSING => if has flags TCP_FLAG_ACK then Ok (set_state TCP_TIME_WAIT s, h, w) else Ok (s, h, w)
  | TCP_LAST_ACK =>
      if has flags TCP_FLAG_ACK then Ok (set_in_use false (set_state TCP_CLOSED s), h, w) else Ok (s, h, w)
  | TCP_TIME_WAIT => if has flags TCP_FLAG_FIN then tcp_control now TCP_FLAG_ACK s h w else Ok (s, h, w)
  | _ => Ok (s, h, w)
  end.

(** The case [TCP_LISTEN]: a SYN opens a second connection block. *)
Definition tcp_accept_syn (now flags seq src_ip dst_ip src_port dst_port : Z) (t : Tcp W) : res (Tcp W) :=
  if has flags TCP_FLAG_SYN then
    match find_sock (λ s, negb (sk_in_use s)) (socks t) 0 with
    | Some j =>
        match socks t !! j with
        | None => Fault
        | Some n =>
            let n := tcp_passive (tcp_isn_secret t) now seq src_ip dst_ip src_port dst_port n in
            '(n, h, w) ← tcp_control now (Z.lor TCP_FLAG_SYN TCP_FLAG_ACK) n (heap t) (below t);
            Ok (with_socks (<[j := n]> (socks t)) h w t)
        end
    | None => Ok t
    end
  else Ok t.

(** A segment for socket [i]. *)
Definition tcp_dispatch (now flags seq ack : Z) (payload : list Z) (src_ip dst_ip src_port dst_port : Z)
    (i : nat) (s : TcpSocket) (t : Tcp W) : res (Tcp W) :=
  if has flags TCP_FLAG_RST then
    Ok (with_socks (<[i := clear_retransmit (set_in_use false (set_state TCP_CLOSED s))]> (socks t)) (heap t) (below t) t)
  else
    let s := if has flags TCP_FLAG_ACK then tcp_take_ack ack s else s in
    let t := with_socks (<[i := s]> (socks t)) (heap t) (below t) t in
    if decide (sk_state s = TCP_LISTEN) then tcp_accept_syn now flags seq src_ip dst_ip src_port dst_port t
    else
      '(s, h, w) ← tcp_switch now flags seq ack payload s (heap t) (below t);
      Ok (with_socks (<[i := s]> (socks t)) h w t).

Definition tcp_receive (now : Z) (data : list Z) (length src_ip dst_ip : Z) (t : Tcp W) : res (Tcp W) :=
  if length <? TCP_HEADER_SIZE then Ok t
  else
    sp ← ld16 data 0; dp ← ld16 data 2; sq ← ld32 data 4; ak ← ld32 data 8;
    flags ← arr_get data 13;
    off ← arr_get data 12;
    let src_port := ntohs sp in
    let dst_port := ntohs dp in
    let seq := ntohl sq in
    let ack := ntohl ak in
    let header_len := u8 (Z.shiftr off 4 * 4) in
    if (header_len <? TCP_HEADER_SIZE) || (length <? header_len) then Ok t
    else
      ck ← ld16 data 16;
      bad ← (if negb (ck =? 0) then c ← tcp_checksum src_ip dst_ip data length; Ok (negb (c =? 0)) else Ok false);
      if (bad : bool) then Ok t
      else
        payload ← view data header_len (u16 (length - header_len));
        match tcp_find_socket src_ip src_port dst_port (socks t) with
        | None => Ok t
        | Some i =>
            match socks t !! i with
            | None => Fault
            | Some s => tcp_dispatch now flags seq ack payload src_ip dst_ip src_port dst_port i s t
            end
        end.

Definition valid_index (sock : Z) : bool := (0 <=? sock) && (sock <? Z.of_nat TCP_MAX_SOCKETS).

Definition tcp_open (s : TcpSocket) : TcpSocket :=
  clear_retransmit (set_pending false (set_rx (rx_buf s) 0 0 (set_state TCP_CLOSED (set_in_use true s)))).

Definition tcp_socket (t : Tcp W) : Z * Tcp W :=
  match find_sock (λ s, negb (sk_in_use s)) (socks t) 0 with
  | Some i => (Z.of_nat i, with_socks (alter tcp_open i (socks t)) (heap t) (below t) t)
  | None => (-1, t)
  end.

(** Does another socket that is not closed hold the port? *)
Definition port_taken (ss : list TcpSocket) (sock : nat) (port : Z) : bool :=
  existsb (λ p, negb (p.1 =? sock)%nat && sk_in_use p.2 && (local_port p.2 =? port) &&
                negb (bool_decide (sk_state p.2 = TCP_CLOSED)))
    (zip (seq 0 (length ss)) ss).

Definition tcp_bind (sock port : Z) (t : Tcp W) : res (bool * Tcp W) :=
  if negb (valid_index sock) || (port =? 0) then Ok (false, t)
  else
    s ← arr_get (socks t) sock;
    if negb (sk_in_use s) then Ok (false, t)
    else if port_taken (socks t) (Z.to_nat sock) port then Ok (false, t)
    else Ok (true, with_socks (<[Z.to_nat sock := set_local_port port s]> (socks t)) (heap t) (below t) t).

Definition tcp_listen (sock : Z) (t : Tcp W) : res (bool * Tcp W) :=
  if negb (valid_index sock) then Ok (false, t)
  else
    s ← arr_get (socks t) sock;
    if negb (sk_in_use s) || (local_port s =? 0) then Ok (false, t)
    else Ok (true, with_socks (<[Z.to_nat sock := set_state TCP_LISTEN s]> (socks t)) (heap t) (below t) t).

Fixpoint find_established (ss : list TcpSocket) (i sock : nat) (port : Z) : Z :=
  match ss with
  | [] => -1
  | s :: ss' =>
      if negb (i =? sock)%nat && sk_in_use s && (local_port s =? port) && bool_decide (sk_state s = TCP_ESTABLISHED)
      then Z.of_nat i else find_established ss' (S i) sock port
  end.

Definition tcp_accept (sock : Z) (t : Tcp W) : res Z :=
  if negb (valid_index sock) then Ok (-1)
  else
    s ← arr_get (socks t) sock;
    if negb (sk_in_use s) || negb (bool_decide (sk_state s = TCP_LISTEN)) then Ok (-1)
    else Ok (find_established (socks t) 0 (Z.to_nat sock) (local_port s)).

(** One timeout of the retransmission slot, [timeout] being its length in ticks. *)
Definition tcp_rearm (now : Z) (r : RetransmitPacket) : RetransmitPacket :=
  let rto := u32 (rt_rto_ms r * 2) in
  mkRetransmit (rt_in_use r) (rt_seq_num r) (rt_length r) (rt_flags r) now (u32 (rt_retries r + 1))
    (if 10000 <? rto then 10000 else rto) (rt_data r).

(** One iteration of [tcp_poll]. *)
Definition tcp_poll_socket (now freq : Z) (s : TcpSocket) (h : list bool) (w : W) : res (TcpSocket * list bool * W) :=
  if negb (sk_in_use s) || bool_decide (sk_state s = TCP_CLOSED) || bool_decide (sk_state s = TCP_LISTEN)
  then Ok (s, h, w)
  else
    let r := retransmit s in
    if rt_in_use r then
      let elapsed := u64 (now - rt_sent_time r) in
      let timeout := u32 (rt_rto_ms r * freq) / 1000 in
      if timeout <=? elapsed then
        if 5 <=? rt_retries r then Ok (clear_retransmit (set_in_use false (set_state TCP_CLOSED s)), h, w)
        else
          let r := tcp_rearm now r in
          let s := set_retransmit r s in
          let '(packet_ok, h) := malloc_next h in
          if packet_ok then
            payload ← view (rt_data r) 0 (rt_length r);
            packet ← tcp_build (ip_addr w) (remote_ip s) (local_port s) (remote_port s) (rt_seq_num r) (ack_num s)
                       (rt_flags r) payload;
            '(_, w) ← ip_send (remote_ip s) IP_PROTO_TCP packet (TCP_HEADER_SIZE + rt_length r) w;
            Ok (s, h, w)
          else Ok (s, h, w)
      else Ok (s, h, w)
    else Ok (s, h, w).

Fixpoint tcp_poll_from (now freq : Z) (n : nat) (i : nat) (t : Tcp W) : res (Tcp W) :=
  match n with
  | O => Ok t
  | S n' =>
      match socks t !! i with
      | None => Fault
      | Some s =>
          '(s, h, w) ← tcp_poll_socket now freq s (heap t) (below t);
          tcp_poll_from now freq n' (S i) (with_socks (<[i := s]> (socks t)) h w t)
      end
  end.

Definition tcp_poll (now freq : Z) (t : Tcp W) : res (Tcp W) := tcp_poll_from now freq TCP_MAX_SOCKETS 0 t.

(** What a network poll does to TCP: the segments that arrived, with source and
    destination address, and then the retransmissions. *)
Record poll := mkPoll { poll_time : Z; poll_segments : list (list Z * Z * Z) }.

Fixpoint tcp_deliver (now : Z) (segs : list (list Z * Z * Z)) (t : Tcp W) : res (Tcp W) :=
  match segs with
  | [] => Ok t
  | (d, src, dst) :: segs' => t' ← tcp_receive now d (Z.of_nat (length d)) src dst t; tcp_deliver now segs' t'
  end.

Definition tcp_net_poll (freq : Z) (p : poll) (t : Tcp W) : res (Tcp W) :=
  t' ← tcp_deliver (poll_time p) (poll_segments p) t; tcp_poll (poll_time p) freq t'.

(** [while (s->state == TCP_SYN_SENT && ...) net_poll();], running out of polls
    being the timeout. *)
Fixpoint tcp_await (freq : Z) (i : nat) (polls : list poll) (t : Tcp W) : res (Tcp W) :=
  match socks t !! i with
  | None => Fault
  | Some s =>
      if decide (sk_state s = TCP_SYN_SENT) then
        match polls with
        | [] => Ok t
        | p :: polls' => t' ← tcp_net_poll freq p t; tcp_await freq i polls' t'
        end
      else Ok t
  end.

Definition tcp_start (isn ephem_port : Z) (s : TcpSocket) : TcpSocket :=
  let s := set_isn isn (set_local_port ephem_port s) in
  let s := set_pending false (set_ack 0 (set_una isn s)) in
  clear_retransmit (set_state TCP_SYN_SENT s).

Definition tcp_connect (now freq sock dst_ip dst_port : Z) (polls : list poll) (t : Tcp W) : res (bool * Tcp W) :=
  if negb (valid_index sock) || (dst_ip =? 0) || (dst_port =? 0) then Ok (false, t)
  else
    let i := Z.to_nat sock in
    s ← arr_get (socks t) sock;
    if negb (sk_in_use s) then Ok (false, t)
    else
      let s := set_remote dst_ip dst_port s in
      let ss := <[i := s]> (socks t) in
      '(ephem_port, next) ← get_ephemeral_port ss (next_ephemeral_port t);
      let t := mkTcp ss (tcp_isn_secret t) next (heap t) (below t) in
      if ephem_port =? 0 then Ok (false, t)
      else
        let isn := tcp_generate_isn (tcp_isn_secret t) now (ip_addr (below t)) dst_ip ephem_port dst_port in
        '(sent, s, h, w) ← tcp_send_segment now TCP_FLAG_SYN [] (tcp_start isn ephem_port s) (heap t) (below t);
        if negb sent then
          Ok (false, with_socks (<[i := set_local_port 0 (set_state TCP_CLOSED s)]> (socks t)) h w t)
        else
          t ← tcp_await freq i polls (with_socks (<[i := s]> (socks t)) h w t);
          s ← arr_get (socks t) sock;
          if decide (sk_state s = TCP_ESTABLISHED) then Ok (true, t)
          else
            Ok (false, with_socks (<[i := clear_retransmit (set_local_port 0 (set_state TCP_CLOSED s))]> (socks t))
                         (heap t) (below t) t).

(** Is the socket still connected? *)
Definition sk_usable (s : TcpSocket) : bool := sk_in_use s && bool_decide (sk_state s = TCP_ESTABLISHED).

(** Waiting for the retransmission slot: the polls that are left when it is free, or
    [None] when the connection is gone. The call is still waiting when the polls run
    out, and the result is then [inl]. *)
Fixpoint tcp_await_slot (freq : Z) (i : nat) (polls : list poll) (t : Tcp W)
    : res (Tcp W + option (list poll) * Tcp W) :=
  match socks t !! i with
  | None => Fault
  | Some s =>
      if negb (sk_usable s) then Ok (inr (None, t))
      else if rt_in_use (retransmit s) then
        match polls with
        | [] => Ok (inl t)
        | p :: polls' => t' ← tcp_net_poll freq p t; tcp_await_slot freq i polls' t'
        end
      else Ok (inr (Some polls, t))
  end.

(** The loop of [tcp_send]: [fuel] bounds the number of chunks. *)
Fixpoint tcp_send_chunks (fuel : nat) (now freq : Z) (i : nat) (data : list Z) (sent : Z) (polls : list poll) (t : Tcp W)
    : res (Tcp W + Z * Tcp W) :=
  let partial := if 0 <? sent then sent else -1 in
  if sent <? Z.of_nat (length data) then
    match fuel with
    | O => Fault
    | S fuel' =>
        r ← tcp_await_slot freq i polls t;
        match r with
        | inl t => Ok (inl t)
        | inr (None, t) => Ok (inr (partial, t))
        | inr (Some polls, t) =>
            match socks t !! i with
            | None => Fault
            | Some s =>
                let chunk_len := u16 (Z.of_nat (length data) - sent) in
                let chunk_len := if 1400 <? chunk_len then 1400 else chunk_len in
                chunk ← view data sent chunk_len;
                '(ok, s, h, w) ← tcp_send_segment now (Z.lor TCP_FLAG_ACK TCP_FLAG_PSH) chunk s (heap t) (below t);
                let t := with_socks (<[i := s]> (socks t)) h w t in
                if negb ok then Ok (inr (partial, t))
                else tcp_send_chunks fuel' now freq i data (sent + chunk_len) polls t
            end
        end
    end
  else Ok (inr (sent, t)).

Definition tcp_send (now freq sock : Z) (data : list Z) (polls : list poll) (t : Tcp W) : res (Tcp W + Z * Tcp W) :=
  if negb (valid_index sock) then Ok (inr (-1, t))
  else if Z.of_nat (length data) =? 0 then Ok (inr (0, t))
  else tcp_send_chunks (length data) now freq (Z.to_nat sock) data 0 polls t.

(** The copy loop of [tcp_recv], [n] being the space that is left. *)
Fixpoint tcp_drain (n : nat) (buf : list Z) (head tail : Z) : res (list Z * Z) :=
  match n with
  | O => Ok ([], tail)
  | S n' =>
      if head =? tail then Ok ([], tail)
      else
        x ← arr_get buf tail;
        '(out, tail') ← tcp_drain n' buf head (u32 (tail + 1) mod TCP_RX_BUFFER_SIZE);
        Ok (x :: out, tail')
  end.

(** The result and the bytes stored in the caller's buffer. *)
Definition tcp_recv (sock max_len : Z) (t : Tcp W) : res (Z * list Z * Tcp W) :=
  if negb (valid_index sock) || (max_len =? 0) then Ok (-1, [], t)
  else
    s ← arr_get (socks t) sock;
    if negb (sk_in_use s) then Ok (-1, [], t)
    else
      '(out, tail) ← tcp_drain (Z.to_nat max_len) (rx_buf s) (rx_head s) (rx_tail s);
      Ok (Z.of_nat (length out), out,
          with_socks (<[Z.to_nat sock := set_rx (rx_buf s) (rx_head s) tail s]> (socks t)) (heap t) (below t) t).

Definition tcp_close (now sock : Z) (t : Tcp W) : res (Tcp W) :=
  if negb (valid_index sock) then Ok t
  else
    let i := Z.to_nat sock in
    s ← arr_get (socks t) sock;
    if negb (sk_in_use s) then Ok t
    else
      '(s, h, w) ←
        match sk_state s with
        | TCP_ESTABLISHED =>
            tcp_control now (Z.lor TCP_FLAG_FIN TCP_FLAG_ACK) (set_state TCP_FIN_WAIT_1 s) (heap t) (below t)
        | TCP_CLOSE_WAIT =>
            tcp_control now (Z.lor TCP_FLAG_FIN TCP_FLAG_ACK) (set_state TCP_LAST_ACK s) (heap t) (below t)
        | _ => Ok (clear_retransmit (set_in_use false (set_state TCP_CLOSED s)), heap t, below t)
        end;
      Ok (with_socks (<[i := s]> (socks t)) h w t).

Definition tcp_get_state (sock : Z) (t : Tcp W) : res TcpState :=
  if negb (valid_index sock) then Ok TCP_CLOSED
  else s ← arr_get (socks t) sock; Ok (sk_state s).
End tcp.

(** * Specification: segments *)

(** The acknowledgement field is only filled in when its flag is set. *)
Definition ack_field (flags ack : Z) : Z := if has flags TCP_FLAG_ACK then ack else 0.

Definition tcp_header (lport rport seq ack flags c : Z) : list Z :=
  be16 lport ++ be16 rport ++ be32 seq ++ be32 (ack_field flags ack) ++ [0x50; flags] ++
  be16 TCP_WINDOW_SIZE ++ le_bytes 2 c ++ [0; 0].

Definition tcp_pseudo (src dst len : Z) : list Z := le_bytes 4 src ++ le_bytes 4 dst ++ [0; 6] ++ be16 len.

(** The checksum of RFC 793 over the pseudo header and the segment. *)
Definition tcp_sum (src dst : Z) (seg : list Z) : Z :=
  65535 - ones_fold (word_sum (tcp_pseudo src dst (Z.of_nat (length seg)) ++ seg)).

Definition tcp_segment (src dst lport rport seq ack flags : Z) (data : list Z) : list Z :=
  tcp_header lport rport seq ack flags (tcp_sum src dst (tcp_header lport rport seq ack flags 0 ++ data)) ++ data.

(** * Lemmas: segments *)

Lemma tcp_header_length lport rport seq ack flags c : length (tcp_header lport rport seq ack flags c) = 20%nat.
Proof. done. Qed.

Lemma bytes_be16 v : bytes (be16 v).
Proof. unfold be16. repeat (constructor; [lia|]). constructor. Qed.
Lemma bytes_be32 v : bytes (be32 v).
Proof. unfold be32. repeat (constructor; [lia|]). constructor. Qed.

Lemma tcp_header_bytes lport rport seq ack flags c :
  0 <= flags < 2 ^ 8 → bytes (tcp_header lport rport seq ack flags c).
Proof.
  intros Hf. unfold tcp_header, bytes. rewrite !Forall_app.
  split_and!; first [apply bytes_be16|apply bytes_be32|apply bytes_le_bytes|repeat (constructor; [lia|]); constructor].
Qed.

Lemma tcp_pseudo_bytes src dst len : bytes (tcp_pseudo src dst len).
Proof.
  unfold tcp_pseudo, bytes. rewrite !Forall_app.
  split_and!; first [apply bytes_le_bytes|apply bytes_be16|repeat (constructor; [lia|]); constructor].
Qed.

Lemma tcp_segment_length src dst lport rport seq ack flags data :
  length (tcp_segment src dst lport rport seq ack flags data) = (20 + length data)%nat.
Proof. unfold tcp_segment. by rewrite length_app, tcp_header_length. Qed.

Lemma tcp_segment_bytes src dst lport rport seq ack flags data :
  0 <= flags < 2 ^ 8 → bytes data → bytes (tcp_segment src dst lport rport seq ack flags data).
Proof. intros. apply Forall_app. split; [by apply tcp_header_bytes|done]. Qed.

Lemma tcp_sum_range src dst seg : 0 <= tcp_sum src dst seg < 2 ^ 16.
Proof. unfold tcp_sum. pose proof (ones_fold_range (word_sum (tcp_pseudo src dst (Z.of_nat (length seg)) ++ seg))). lia. Qed.

Lemma tcp_checksum_spec src dst seg :
  bytes seg → (0 < length seg <= 1588)%nat →
  tcp_checksum src dst seg (Z.of_nat (length seg)) = Ok (tcp_sum src dst seg).
Proof.
  intros Hb Hl. unfold tcp_checksum. destruct (Z.eqb_spec (Z.of_nat (length seg)) 0); [lia|].
  destruct (Z.ltb_spec 1600 (12 + Z.of_nat (length seg))); [lia|]. cbn [orb].
  assert (L : length (replicate 1600 0) = 1600%nat) by apply length_replicate.
  pose proof (prefix_nil (replicate 1600 0)) as P. generalize dependent (replicate 1600 0). intros b0 L P.
  do 5 put_field. rewrite !le_bytes_htons in P by lia.
  match type of P with _ `prefix_of` ?b =>
    assert (Ph : tcp_pseudo src dst (Z.of_nat (length seg)) `prefix_of` b) by exact P; clear P;
    destruct (blit_at 1600 (tcp_pseudo src dst (Z.of_nat (length seg))) b 12 seg (Z.of_nat (length seg)))
      as (b5 & E5 & L5 & P5) end; [done|done|done|done|simpl; lia|].
  rewrite E5. step. rewrite (checksum_prefix (tcp_pseudo src dst (Z.of_nat (length seg)) ++ seg) b5);
    [done|done|apply Forall_app; split; [apply tcp_pseudo_bytes|done]|rewrite length_app; simpl; lia|lia].
Qed.

Lemma tcp_build_spec src dst lport rport seq ack flags data :
  0 <= lport < 2 ^ 16 → 0 <= rport < 2 ^ 16 → 0 <= seq < 2 ^ 32 → 0 <= ack < 2 ^ 32 → 0 <= flags < 2 ^ 8 →
  bytes data → (length data <= 1460)%nat →
  tcp_build src dst lport rport seq ack flags data = Ok (tcp_segment src dst lport rport seq ack flags data).
Proof.
  intros Hlp Hrp Hs Ha Hf Hb Hl. unfold tcp_build. cbv zeta.
  set (N := (20 + length data)%nat).
  assert (L : length (replicate N 0) = N) by apply length_replicate.
  pose proof (prefix_nil (replicate N 0)) as P. generalize dependent (replicate N 0). intros b0 L P.
  assert (HN : (20 <= N)%nat) by (unfold N; lia).
  replace (if has flags TCP_FLAG_ACK then htonl ack else 0) with (htonl (ack_field flags ack))
    by (unfold ack_field; by destruct (has flags TCP_FLAG_ACK)).
  assert (Haf : 0 <= ack_field flags ack < 2 ^ 32) by (unfold ack_field; case_match; lia).
  do 9 put_field_in. rewrite !le_bytes_htons, !le_bytes_htonl in P by (done || (unfold TCP_WINDOW_SIZE; lia)).
  set (h := tcp_header lport rport seq ack flags 0).
  assert (Hh : ∀ b, ((((((((([] ++ be16 lport) ++ be16 rport) ++ be32 seq) ++ be32 (ack_field flags ack)) ++
      le_bytes 1 (Z.shiftl (TCP_HEADER_SIZE / 4) 4)) ++ le_bytes 1 flags) ++ be16 TCP_WINDOW_SIZE) ++ le_bytes 2 0) ++
      le_bytes 2 0) `prefix_of` b → h `prefix_of` b).
  { intros bb Hp. replace (le_bytes 1 flags) with [flags] in Hp; [exact Hp|]. cbn [le_bytes]. f_equal. lia. }
  apply Hh in P. clear Hh.
  match goal with |- context [blit ?b TCP_HEADER_SIZE data 0 _] =>
    destruct (blit_at N h b TCP_HEADER_SIZE data (Z.of_nat (length data))) as (b9 & E9 & L9 & P9) end;
    [done|done|done|done|unfold N; change (length h) with 20%nat; lia|].
  rewrite (bind_Ok _ _ _ E9). cbv beta.
  assert (Eb : b9 = h ++ data).
  { apply prefix_full; [done|]. rewrite length_app. change (length h) with 20%nat. done. }
  assert (Lh : Z.of_nat (length (h ++ data)) = TCP_HEADER_SIZE + Z.of_nat (length data))
    by (rewrite length_app; change (length h) with 20%nat; unfold TCP_HEADER_SIZE; lia).
  assert (Ec : tcp_checksum src dst b9 (TCP_HEADER_SIZE + Z.of_nat (length data)) = Ok (tcp_sum src dst (h ++ data))).
  { rewrite Eb, <-Lh. apply tcp_checksum_spec; [apply Forall_app; split; [by apply tcp_header_bytes|done]|].
    rewrite length_app. change (length h) with 20%nat. lia. }
  rewrite (bind_Ok _ _ _ Ec). cbv beta. set (c := tcp_sum src dst (h ++ data)).
  destruct (st_patch_at N (take 16 h) [0; 0] ([0; 0] ++ data) b9 16 (le_bytes 2 c)) as (b10 & E10 & L10 & P10);
    [rewrite Eb; exists []; by rewrite app_nil_r|done|done|done|].
  unfold st16. rewrite E10. f_equal. apply prefix_full; [|rewrite tcp_segment_length; done].
  exact P10.
Qed.

(** A segment verifies at the receiver. *)
Lemma tcp_segment_verifies src dst lport rport seq ack flags data :
  0 <= flags < 2 ^ 8 → bytes data → tcp_sum src dst (tcp_segment src dst lport rport seq ack flags data) = 0.
Proof.
  intros Hf Hb. unfold tcp_sum at 1. rewrite tcp_segment_length. unfold tcp_segment.
  set (h := tcp_header lport rport seq ack flags). set (c := tcp_sum src dst (h 0 ++ data)).
  set (ps := tcp_pseudo src dst _).
  assert (Ec : c = 65535 - ones_fold (word_sum (ps ++ h 0 ++ data))).
  { unfold c, tcp_sum, ps. rewrite (length_app (h 0)). reflexivity. }
  assert (Hc : 0 <= c < 2 ^ 16) by apply tcp_sum_range.
  assert (E : word_sum (ps ++ h c ++ data) = word_sum (ps ++ h 0 ++ data) + c).
  { assert (Es : ∀ x, ps ++ h x ++ data = (ps ++ take 16 (h 0)) ++ le_bytes 2 x ++ [0; 0] ++ data)
      by (intros; by rewrite <-(assoc_L (++))).
    rewrite !Es, !(word_sum_app (ps ++ take 16 (h 0))) by (exists 14%nat; reflexivity).
    rewrite !(word_sum_app (le_bytes 2 c)), !(word_sum_app (le_bytes 2 0)) by (exists 1%nat; reflexivity).
    rewrite !word_sum_le_bytes by lia. lia. }
  rewrite E, Ec, ones_fold_complement; [done|]. apply word_sum_range. unfold bytes. rewrite !Forall_app.
  split; [apply tcp_pseudo_bytes|]. split; [by apply tcp_header_bytes|done].
Qed.

Section receive.
Context {W : Type} `{IpLayer W}.

(** What [tcp_receive] makes of a well-formed segment. *)
Lemma tcp_receive_segment now src dst lport rport seq ack flags data (t : Tcp W) :
  0 <= lport < 2 ^ 16 → 0 <= rport < 2 ^ 16 → 0 <= seq < 2 ^ 32 → 0 <= ack < 2 ^ 32 → 0 <= flags < 2 ^ 8 →
  bytes data → (length data <= 1460)%nat →
  let seg := tcp_segment src dst lport rport seq ack flags data in
  tcp_receive now seg (Z.of_nat (length seg)) src dst t =
    match tcp_find_socket src lport rport (socks t) with
    | None => Ok t
    | Some i =>
        match socks t !! i with
        | None => Fault
        | Some s => tcp_dispatch now flags seq (ack_field flags ack) data src dst lport rport i s t
        end
    end.
Proof.
  intros Hlp Hrp Hs Ha Hf Hb Hl seg.
  assert (Haf : 0 <= ack_field flags ack < 2 ^ 32) by (unfold ack_field; case_match; lia).
  assert (Lseg : length seg = (20 + length data)%nat) by apply tcp_segment_length.
  pose proof (tcp_segment_verifies src dst lport rport seq ack flags data Hf Hb) as Hv. fold seg in Hv.
  pose proof (tcp_segment_bytes src dst lport rport seq ack flags data Hf Hb) as Hbs. fold seg in Hbs.
  set (c := tcp_sum src dst (tcp_header lport rport seq ack flags 0 ++ data)).
  assert (Eseg : seg = tcp_header lport rport seq ack flags c ++ data) by done.
  assert (Hc : 0 <= c < 2 ^ 16) by apply tcp_sum_range.
  assert (E0 : ld16 seg 0 = Ok (htons lport)) by (rewrite be16_value by done; reflexivity).
  assert (E2 : ld16 seg 2 = Ok (htons rport)) by (rewrite be16_value by done; reflexivity).
  assert (E4 : ld32 seg 4 = Ok (htonl seq)).
  { rewrite Eseg. unfold tcp_header. rewrite <-(le_bytes_htonl seq), <-!(assoc_L (++)) by done.
    apply (ld32_le (htonl seq) (be16 lport ++ be16 rport)). by apply htonl_range. }
  assert (E8 : ld32 seg 8 = Ok (htonl (ack_field flags ack))).
  { rewrite Eseg. unfold tcp_header. rewrite <-(le_bytes_htonl (ack_field flags ack)), <-!(assoc_L (++)) by done.
    apply (ld32_le (htonl (ack_field flags ack)) (be16 lport ++ be16 rport ++ be32 seq)). by apply htonl_range. }
  assert (E13 : arr_get seg 13 = Ok flags) by reflexivity.
  assert (E12 : arr_get seg 12 = Ok 0x50) by reflexivity.
  assert (E16 : ld16 seg 16 = Ok c) by (rewrite Eseg; rewrite <-(le2_value c Hc) at 2; reflexivity).
  assert (Ev : view seg 20 (u16 (Z.of_nat (length seg) - 20)) = Ok data).
  { rewrite u16_small, view_drop by lia. rewrite Eseg. change (Z.to_nat 20) with 20%nat.
    rewrite drop_app_length' by done. f_equal. apply take_ge. rewrite <-Eseg. lia. }
  assert (Ek : tcp_checksum src dst seg (Z.of_nat (length seg)) = Ok 0)
    by (rewrite tcp_checksum_spec by (done || lia); by rewrite Hv).
  clearbody seg. unfold tcp_receive, TCP_HEADER_SIZE. destruct (Z.ltb_spec (Z.of_nat (length seg)) 20); [lia|].
  step_with E0. step_with E2. step_with E4. step_with E8. step_with E13. step_with E12. cbv zeta.
  change (u8 (Z.shiftr 0x50 4 * 4)) with 20. change (20 <? 20) with false. cbn [orb].
  destruct (Z.ltb_spec (Z.of_nat (length seg)) 20); [lia|].
  step_with E16. rewrite !ntohs_htons, !ntohl_htonl by done. rewrite Ek.
  replace (if negb (c =? 0) then Ok 0 ≫= λ c0, Ok (negb (c0 =? 0)) else Ok false) with (Ok false) by (by case_match).
  step. step_with Ev. done.
Qed.
End receive.
