(* ===== verification/TcpInv.v ===== *)
(** Well-formedness of the TCP connection blocks, its preservation by every
    operation whatever arrives, the queue that a receive ring stands for, and the
    state transitions that network events can cause. *)

From S2P Require Import Prelude Ring Wire Ethernet Arp Ipv4 Tcp.

(** * Specification *)

Record rt_wf (r : RetransmitPacket) : Prop := {
  rtw_seq : 0 <= rt_seq_num r < 2 ^ 32;
  rtw_len : 0 <= rt_length r <= 1460;
  rtw_flags : 0 <= rt_flags r < 2 ^ 8;
  rtw_retries : 0 <= rt_retries r;
  rtw_data : length (rt_data r) = 1460%nat;
  rtw_bytes : bytes (rt_data r)
}.

Record sock_wf (s : TcpSocket) : Prop := {
  sw_lport : 0 <= local_port s < 2 ^ 16;
  sw_rport : 0 <= remote_port s < 2 ^ 16;
  sw_ip : 0 <= remote_ip s < 2 ^ 32;
  sw_ack : 0 <= ack_num s < 2 ^ 32;
  sw_next : 0 <= send_next s < 2 ^ 32;
  sw_buf : Z.of_nat (length (rx_buf s)) = TCP_RX_BUFFER_SIZE;
  sw_bytes : bytes (rx_buf s);
  sw_head : 0 <= rx_head s < TCP_RX_BUFFER_SIZE;
  sw_tail : 0 <= rx_tail s < TCP_RX_BUFFER_SIZE;
  sw_rt : rt_wf (retransmit s)
}.

(** The bytes that have arrived and not been read. *)
Definition rx_count (s : TcpSocket) : Z := (rx_head s - rx_tail s) mod TCP_RX_BUFFER_SIZE.
Definition rx_queue (s : TcpSocket) : list Z := ring_items 0 (rx_buf s) (rx_tail s) (Z.to_nat (rx_count s)).

(** What sending a segment leaves alone. *)
Definition same_conn (s s' : TcpSocket) : Prop :=
  sk_in_use s' = sk_in_use s ∧ sk_state s' = sk_state s ∧ local_port s' = local_port s ∧
  remote_port s' = remote_port s ∧ remote_ip s' = remote_ip s ∧ ack_num s' = ack_num s ∧
  rx_buf s' = rx_buf s ∧ rx_head s' = rx_head s ∧ rx_tail s' = rx_tail s ∧ pending_ack s' = pending_ack s.

Lemma same_conn_refl s : same_conn s s.
Proof. done. Qed.
Lemma same_conn_trans s1 s2 s3 : same_conn s1 s2 → same_conn s2 s3 → same_conn s1 s3.
Proof.
  intros (? & ? & ? & ? & ? & ? & ? & ? & ? & ?) (? & ? & ? & ? & ? & ? & ? & ? & ? & ?).
  unfold same_conn. split_and!; congruence.
Qed.
#[export] Hint Resolve same_conn_refl : kernel.

Lemma rx_queue_same s s' : same_conn s s' → rx_queue s' = rx_queue s.
Proof.
  intros (_ & _ & _ & _ & _ & _ & Eb & Eh & Et & _). unfold rx_queue, rx_count. by rewrite Eb, Eh, Et.
Qed.

(** * Lemmas: the receive ring *)

Lemma rx_push s x :
  sock_wf s → 0 <= x < 2 ^ 8 → (rx_head s + 1) mod TCP_RX_BUFFER_SIZE ≠ rx_tail s →
  let s' := set_rx (<[Z.to_nat (rx_head s) := x]> (rx_buf s)) ((rx_head s + 1) mod TCP_RX_BUFFER_SIZE) (rx_tail s) s in
  sock_wf s' ∧ rx_queue s' = rx_queue s ++ [x] ∧ rx_count s' = rx_count s + 1.
Proof.
  intros [] Hx Hfull s'. unfold TCP_RX_BUFFER_SIZE in *.
  assert (Hc : rx_count s' = rx_count s + 1).
  { unfold rx_count, s', TCP_RX_BUFFER_SIZE. simpl rx_head. simpl rx_tail. lia. }
  assert (H0 : 0 <= rx_count s < 65536) by (unfold rx_count, TCP_RX_BUFFER_SIZE; lia).
  assert (Hlt : (Z.to_nat (rx_count s) < length (rx_buf s))%nat) by lia.
  split; [|split; [|done]].
  - split; simpl; try done; try lia.
    + by rewrite length_insert.
    + by apply Forall_insert.
    + by apply Z.mod_pos_bound.
  - unfold rx_queue. rewrite Hc. simpl rx_buf. simpl rx_tail.
    replace (Z.to_nat (rx_count s + 1)) with (S (Z.to_nat (rx_count s))) by lia.
    rewrite <-(ring_items_push 0 (rx_buf s) (rx_tail s) (Z.to_nat (rx_count s)) x Hlt). do 3 f_equal.
    rewrite sw_buf0, Z2Nat.id by lia. unfold rx_count, TCP_RX_BUFFER_SIZE. lia.
Qed.

(** The ring holds one byte less than its size. *)
Lemma rx_full s :
  sock_wf s → (rx_head s + 1) mod TCP_RX_BUFFER_SIZE = rx_tail s ↔ rx_count s = 65535.
Proof. intros []. unfold rx_count, TCP_RX_BUFFER_SIZE in *. lia. Qed.

Lemma rx_count_range s : sock_wf s → 0 <= rx_count s <= 65535.
Proof. intros []. unfold rx_count, TCP_RX_BUFFER_SIZE in *. lia. Qed.

Lemma set_rx_id s : set_rx (rx_buf s) (rx_head s) (rx_tail s) s = s.
Proof. by destruct s. Qed.

(** Storing a payload appends as much of it as fits. *)
Lemma tcp_store_spec payload : ∀ s k,
  sock_wf s → bytes payload → 0 <= k → k + Z.of_nat (length payload) < 2 ^ 16 →
  let n := Z.min (Z.of_nat (length payload)) (65535 - rx_count s) in
  ∃ buf head, tcp_store payload (rx_buf s) (rx_head s) (rx_tail s) k = Ok (buf, head, k + n) ∧
    let s' := set_rx buf head (rx_tail s) s in
    sock_wf s' ∧ rx_queue s' = rx_queue s ++ take (Z.to_nat n) payload.
Proof.
  induction payload as [|x payload IH]; intros s k Hs Hb Hk Hl n.
  { pose proof (rx_count_range s Hs). exists (rx_buf s), (rx_head s). cbn [tcp_store].
    replace (k + n) with k by (unfold n; simpl; lia).
    split; [done|]. rewrite set_rx_id, take_nil, app_nil_r. done. }
  pose proof (rx_count_range s Hs) as Hcnt. pose proof Hs as [_ _ _ _ _ Hlb _ Hh Ht _]. cbn [tcp_store].
  apply Forall_cons in Hb as [Hx Hb].
  assert (En : u16 (u32 (rx_head s + 1) mod TCP_RX_BUFFER_SIZE) = (rx_head s + 1) mod TCP_RX_BUFFER_SIZE).
  { unfold TCP_RX_BUFFER_SIZE in *. rewrite (u32_small (rx_head s + 1)) by lia. apply u16_small. by apply Z.mod_pos_bound. }
  rewrite En. destruct (Z.eqb_spec ((rx_head s + 1) mod TCP_RX_BUFFER_SIZE) (rx_tail s)) as [Hf|Hf].
  - exists (rx_buf s), (rx_head s). apply (rx_full s Hs) in Hf.
    replace n with 0 by (unfold n; lia). rewrite Z.add_0_r. split; [done|].
    change (Z.to_nat 0) with 0%nat.
    rewrite set_rx_id, take_0, app_nil_r. done.
  - rewrite arr_set_in by (rewrite Hlb; done). step.
    destruct (rx_push s x Hs Hx Hf) as (Hs' & Hq & Hc). cbv zeta in Hs', Hq, Hc.
    set (s1 := set_rx _ _ _ s) in *. cbn [length] in Hl.
    rewrite u16_small by lia.
    assert (Hnf : rx_count s ≠ 65535) by (intros E; by apply (rx_full s Hs) in E).
    destruct (IH s1 (k + 1)) as (buf & head & E & Hw & Hq'); [done|done|lia|lia|].
    change (rx_buf s1) with (<[Z.to_nat (rx_head s) := x]> (rx_buf s)) in E.
    change (rx_head s1) with ((rx_head s + 1) mod TCP_RX_BUFFER_SIZE) in E.
    change (rx_tail s1) with (rx_tail s) in E, Hw, Hq'.
    change (set_rx buf head (rx_tail s) s1) with (set_rx buf head (rx_tail s) s) in Hw, Hq'.
    rewrite E. exists buf, head. rewrite Hc in *. cbv zeta.
    set (m := Z.min (Z.of_nat (length payload)) (65535 - (rx_count s + 1))) in *.
    assert (n = m + 1 ∧ 0 <= m) as [Hn Hm].
    { clear -Hcnt Hnf. unfold n, m. cbn [length]. lia. }
    clearbody m n. subst n.
    split; [do 2 f_equal; lia|]. split; [done|]. rewrite Hq', Hq, <-(assoc_L (++)).
    replace (Z.to_nat (m + 1)) with (S (Z.to_nat m)) by lia. done.
Qed.

Lemma rx_pop s :
  sock_wf s → rx_head s ≠ rx_tail s →
  let s' := set_rx (rx_buf s) (rx_head s) ((rx_tail s + 1) mod TCP_RX_BUFFER_SIZE) s in
  sock_wf s' ∧ rx_queue s = nth (Z.to_nat (rx_tail s)) (rx_buf s) 0 :: rx_queue s'.
Proof.
  intros [] Hne s'. unfold TCP_RX_BUFFER_SIZE in *. split.
  - split; simpl; try done. by apply Z.mod_pos_bound.
  - unfold rx_queue. assert (Hc : Z.to_nat (rx_count s) = S (Z.to_nat (rx_count s'))).
    { unfold rx_count, s', TCP_RX_BUFFER_SIZE. simpl rx_head. simpl rx_tail. lia. }
    rewrite Hc, ring_items_pop by lia. rewrite sw_buf0.
    rewrite (Z.mod_small (rx_tail s)) by lia. done.
Qed.

(** Reading takes from the front. *)
Lemma tcp_drain_spec n : ∀ s,
  sock_wf s →
  ∃ tail, tcp_drain n (rx_buf s) (rx_head s) (rx_tail s) = Ok (take n (rx_queue s), tail) ∧
    let s' := set_rx (rx_buf s) (rx_head s) tail s in sock_wf s' ∧ rx_queue s' = drop n (rx_queue s).
Proof.
  induction n as [|n IH]; intros s Hs; cbn [tcp_drain].
  { exists (rx_tail s). rewrite set_rx_id, take_0, drop_0. done. }
  destruct (Z.eqb_spec (rx_head s) (rx_tail s)) as [E|Hne].
  - exists (rx_tail s). assert (rx_queue s = []) as ->.
    { unfold rx_queue, rx_count. rewrite E, Z.sub_diag. done. }
    rewrite set_rx_id, take_nil, drop_nil. split; [done|]. split; [done|].
    unfold rx_queue, rx_count. by rewrite E, Z.sub_diag.
  - destruct (rx_pop s Hs Hne) as [Hs' Hq]. cbv zeta in Hs', Hq.
    pose proof Hs as [_ _ _ _ _ Hlb _ _ Ht _].
    rewrite (arr_get_in (rx_buf s) (rx_tail s) 0) by (rewrite Hlb; done). step.
    rewrite u32_small by (unfold TCP_RX_BUFFER_SIZE in *; lia).
    set (s1 := set_rx _ _ _ s) in *. destruct (IH s1 Hs') as (tail & E & Hw & Hq').
    change (rx_buf s1) with (rx_buf s) in E, Hw, Hq'. change (rx_head s1) with (rx_head s) in E, Hw, Hq'.
    change (rx_tail s1) with ((rx_tail s + 1) mod TCP_RX_BUFFER_SIZE) in E. rewrite E. step.
    exists tail. rewrite Hq. split; [done|]. split; [done|]. exact Hq'.
Qed.

(** * Lemmas: sending *)

(** The sequence number after a segment. *)
Definition seq_after (seq len flags : Z) : Z := u32 (u32 (seq + len) + syn_fin flags).

Lemma seq_after_range seq len flags : 0 <= seq_after seq len flags < 2 ^ 32.
Proof. apply u32_range. Qed.

(** The retransmission slot after a segment was sent. *)
Definition rt_after (now flags : Z) (data : list Z) (s : TcpSocket) : RetransmitPacket :=
  if (0 <? Z.of_nat (length data)) || has flags (Z.lor TCP_FLAG_SYN TCP_FLAG_FIN)
  then mkRetransmit true (send_next s) (Z.of_nat (length data)) flags now 0 500
         (data ++ drop (length data) (rt_data (retransmit s)))
  else retransmit s.

Definition sock_after (now flags : Z) (data : list Z) (s : TcpSocket) : TcpSocket :=
  set_retransmit (rt_after now flags data s)
    (set_sent (seq_after (send_next s) (Z.of_nat (length data)) flags) now s).

Lemma sock_after_wf now flags data s :
  sock_wf s → 0 <= flags < 2 ^ 8 → bytes data → (length data <= 1460)%nat → sock_wf (sock_after now flags data s).
Proof.
  intros [? ? ? ? ? ? ? ? ? []] Hf Hb Hl. split; cbn [local_port remote_port remote_ip ack_num send_next rx_buf rx_head rx_tail retransmit sock_after set_retransmit set_sent];
    try assumption; [apply seq_after_range|].
  unfold rt_after. case_match; [|by split]. split; simpl; try done; try lia.
  - rewrite length_app, length_drop. lia.
  - apply Forall_app. split; [done|by apply Forall_drop].
Qed.

Lemma sock_after_same now flags data s : same_conn s (sock_after now flags data s).
Proof. done. Qed.
#[export] Hint Resolve sock_after_same : kernel.

Section send.
Context {W : Type} `{IpLayer W} {ready : W → Prop} `{!IpLayerLaws W ready}.

(** The segment that [s] sends. *)
Definition out_segment (flags : Z) (data : list Z) (s : TcpSocket) (w : W) : list Z :=
  tcp_segment (ip_addr w) (remote_ip s) (local_port s) (remote_port s) (send_next s) (ack_num s) flags data.

Lemma tcp_send_segment_eq now flags data s h (w : W) :
  sock_wf s → 0 <= flags < 2 ^ 8 → bytes data → (length data <= 1460)%nat →
  tcp_send_segment now flags data s h w =
    if (malloc_next h).1 then
      (λ r : bool * W, (r.1, if r.1 then sock_after now flags data s else s, (malloc_next h).2, r.2)) <$>
        ip_send (remote_ip s) IP_PROTO_TCP (out_segment flags data s w) (Z.of_nat (length (out_segment flags data s w))) w
    else Ok (false, s, (malloc_next h).2, w).
Proof.
  intros Hs Hf Hb Hl. pose proof Hs as [Hlp Hrp Hip Hack Hnext _ _ _ _ Hrt]. unfold tcp_send_segment.
  destruct (Z.ltb_spec 1460 (Z.of_nat (length data))); [lia|].
  destruct (malloc_next h) as [[] h']; cbn [negb fst snd]; [|done].
  pose proof (tcp_build_spec (ip_addr w) (remote_ip s) (local_port s) (remote_port s) (send_next s) (ack_num s) flags data
    Hlp Hrp Hnext Hack Hf Hb Hl) as Eb. step_with Eb. fold (out_segment flags data s w).
  set (seg := out_segment flags data s w).
  assert (Lseg : Z.of_nat (length seg) = TCP_HEADER_SIZE + Z.of_nat (length data))
    by (unfold seg, out_segment; rewrite tcp_segment_length; unfold TCP_HEADER_SIZE; lia).
  clearbody seg. rewrite <-Lseg. destruct (ip_send _ _ _ _ _) as [[ok w']| |]; [|done|done]. step. cbn [fst snd].
  destruct ok; [|done].
  assert (En : (if has flags (Z.lor TCP_FLAG_SYN TCP_FLAG_FIN)
                then u32 (u32 (send_next s + Z.of_nat (length data)) + 1)
                else u32 (send_next s + Z.of_nat (length data))) = seq_after (send_next s) (Z.of_nat (length data)) flags).
  { unfold seq_after, syn_fin. case_match; [done|]. rewrite Z.add_0_r. symmetry. apply u32_small, u32_range. }
  rewrite En. unfold sock_after, rt_after.
  destruct ((0 <? Z.of_nat (length data)) || has flags (Z.lor TCP_FLAG_SYN TCP_FLAG_FIN)); [|by destruct s].
  assert (Ed : (if 0 <? Z.of_nat (length data)
      then blit (rt_data (retransmit s)) 0 data 0 (Z.of_nat (length data)) else Ok (rt_data (retransmit s))) =
      Ok (data ++ drop (length data) (rt_data (retransmit s)))).
  { destruct Hrt as [_ _ _ _ Hrl _]. destruct (Z.ltb_spec 0 (Z.of_nat (length data))).
    - rewrite blit_spec by lia. change (Z.to_nat 0) with 0%nat. rewrite take_0, drop_0, Nat2Z.id, firstn_all, Z.add_0_l, Nat2Z.id. done.
    - destruct data; [done|simpl in *; lia]. }
  cbn [retransmit set_sent]. by step_with Ed.
Qed.

Lemma tcp_send_segment_spec now flags data s h (w : W) :
  sock_wf s → ready w → 0 <= flags < 2 ^ 8 → bytes data → (length data <= 1460)%nat →
  ∃ ok s' h' w', tcp_send_segment now flags data s h w = Ok (ok, s', h', w') ∧
    sock_wf s' ∧ ready w' ∧ ip_addr w' = ip_addr w ∧ same_conn s s'.
Proof.
  intros Hs Hw Hf Hb Hl. rewrite tcp_send_segment_eq by done.
  destruct (malloc_next h) as [[] h']; cbn [fst snd]; [|by eexists _, _, _, _].
  set (seg := out_segment flags data s w).
  assert (Lseg : (length seg = 20 + length data)%nat) by apply tcp_segment_length. clearbody seg.
  destruct (ip_send_returns w (remote_ip s) IP_PROTO_TCP seg) as (ok & w' & E & Hw' & Ha);
    [done|apply Hs|unfold IP_PROTO_TCP; lia|lia|].
  rewrite E. step. cbn [fst snd]. eexists _, _, _, _. split; [done|].
  destruct ok; [|by split_and!]. split; [by apply sock_after_wf|]. split; [done|]. split; [done|apply sock_after_same].
Qed.
End send.

(** ** Assignments keep a socket well formed *)

Ltac keep_wf :=
  split; cbn [local_port remote_port remote_ip ack_num send_next rx_buf rx_head rx_tail retransmit set_state set_in_use
    set_pending set_una set_ack set_isn set_local_port set_remote clear_retransmit set_retransmit set_rx]; try assumption.

Lemma set_state_wf x s : sock_wf s → sock_wf (set_state x s).
Proof. intros []. keep_wf. Qed.
Lemma set_in_use_wf b s : sock_wf s → sock_wf (set_in_use b s).
Proof. intros []. keep_wf. Qed.
Lemma set_pending_wf b s : sock_wf s → sock_wf (set_pending b s).
Proof. intros []. keep_wf. Qed.
Lemma set_una_wf v s : sock_wf s → sock_wf (set_una v s).
Proof. intros []. keep_wf. Qed.
Lemma set_ack_wf v s : sock_wf s → sock_wf (set_ack (u32 v) s).
Proof. intros []. keep_wf. apply u32_range. Qed.
Lemma set_isn_wf v s : 0 <= v < 2 ^ 32 → sock_wf s → sock_wf (set_isn v s).
Proof. intros ? []. keep_wf. Qed.
Lemma set_local_port_wf p s : 0 <= p < 2 ^ 16 → sock_wf s → sock_wf (set_local_port p s).
Proof. intros ? []. keep_wf. Qed.
Lemma free_port_wf s : sock_wf s → sock_wf (set_local_port 0 s).
Proof. by apply set_local_port_wf. Qed.
Lemma set_remote_wf a p s : 0 <= a < 2 ^ 32 → 0 <= p < 2 ^ 16 → sock_wf s → sock_wf (set_remote a p s).
Proof. intros ? ? []. keep_wf. Qed.
Lemma set_retransmit_wf r s : rt_wf r → sock_wf s → sock_wf (set_retransmit r s).
Proof. intros ? []. keep_wf. Qed.
Lemma rt_clear_wf r : rt_wf r → rt_wf (rt_clear r).
Proof. intros []. by split. Qed.
Lemma clear_retransmit_wf s : sock_wf s → sock_wf (clear_retransmit s).
Proof. intros Hs. apply set_retransmit_wf; [apply rt_clear_wf, Hs|done]. Qed.
Lemma reset_rx_wf s : sock_wf s → sock_wf (set_rx (rx_buf s) 0 0 s).
Proof. intros []. keep_wf; done. Qed.
Lemma tcp_take_ack_wf ack s : sock_wf s → sock_wf (tcp_take_ack ack s).
Proof. intros Hs. unfold tcp_take_ack. repeat case_match; auto using clear_retransmit_wf, set_una_wf. Qed.
#[export] Hint Resolve set_state_wf set_in_use_wf set_pending_wf set_una_wf set_ack_wf set_isn_wf set_local_port_wf
  free_port_wf set_remote_wf clear_retransmit_wf reset_rx_wf tcp_take_ack_wf : kernel.

Lemma tcp_generate_isn_range secret ticks a b p q : 0 <= tcp_generate_isn secret ticks a b p q < 2 ^ 32.
Proof. apply u32_range. Qed.
#[export] Hint Resolve tcp_generate_isn_range : kernel.

(** * Transitions *)

(** The state of a connection block, free blocks being closed. *)
Definition status (s : TcpSocket) : TcpState := if sk_in_use s then sk_state s else TCP_CLOSED.

(** The transitions of RFC 793 that an arriving segment or a timeout may cause. A
    block that goes from closed to SYN-RECEIVED is the one a listening socket gives
    to a new connection. *)
Inductive net_edge : TcpState → TcpState → Prop :=
  | edge_stay x : net_edge x x
  | edge_reset x : net_edge x TCP_CLOSED
  | edge_passive : net_edge TCP_CLOSED TCP_SYN_RECEIVED
  | edge_connected : net_edge TCP_SYN_SENT TCP_ESTABLISHED
  | edge_accepted : net_edge TCP_SYN_RECEIVED TCP_ESTABLISHED
  | edge_peer_closed : net_edge TCP_ESTABLISHED TCP_CLOSE_WAIT
  | edge_fin_acked : net_edge TCP_FIN_WAIT_1 TCP_FIN_WAIT_2
  | edge_both_fin : net_edge TCP_FIN_WAIT_1 TCP_TIME_WAIT
  | edge_simultaneous : net_edge TCP_FIN_WAIT_1 TCP_CLOSING
  | edge_peer_fin : net_edge TCP_FIN_WAIT_2 TCP_TIME_WAIT
  | edge_closing_acked : net_edge TCP_CLOSING TCP_TIME_WAIT.
#[export] Hint Constructors net_edge : kernel.

Lemma status_same s s' : same_conn s s' → status s' = status s.
Proof. intros (Eu & Es & _). unfold status. by rewrite Eu, Es. Qed.

Lemma status_in_use s : sk_in_use s = true → status s = sk_state s.
Proof. intros E. unfold status. by rewrite E. Qed.

Section ops.
Context {W : Type} `{IpLayer W} {ready : W → Prop} `{!IpLayerLaws W ready}.

(** A socket with the heap and the layer after an action on it. *)
Definition sock_step (P : TcpSocket → Prop) (w : W) (r : res (TcpSocket * list bool * W)) : Prop :=
  ∃ s' h' w', r = Ok (s', h', w') ∧ sock_wf s' ∧ ready w' ∧ ip_addr w' = ip_addr w ∧ P s'.

Lemma tcp_control_spec now flags s h (w : W) :
  sock_wf s → ready w → 0 <= flags < 2 ^ 8 → sock_step (same_conn s) w (tcp_control now flags s h w).
Proof.
  intros Hs Hw Hf. unfold tcp_control.
  destruct (tcp_send_segment_spec now flags [] s h w) as (ok & s' & h' & w' & E & Hs' & Hw' & Ha & Hc);
    [done|done|done|constructor|simpl; lia|].
  step_with E. by exists s', h', w'.
Qed.

(** Sending an acknowledgement and then moving to state [x]. *)
Lemma tcp_control_then now x s h (w : W) :
  sock_wf s → ready w → sk_in_use s = true →
  sock_step (λ s', status s' = x) w
    ('(s, h, w) ← tcp_control now TCP_FLAG_ACK s h w; Ok (set_state x s, h, w)).
Proof.
  intros Hs Hw Hu. destruct (tcp_control_spec now TCP_FLAG_ACK s h w) as (s' & h' & w' & E & Hs' & Hw' & Ha & Hc);
    [done|done|unfold TCP_FLAG_ACK; lia|].
  step_with E. cbv iota. eexists _, _, _. split; [done|]. split; [auto with kernel|]. split; [done|]. split; [done|].
  apply status_in_use. simpl. destruct Hc as (-> & _). done.
Qed.

Lemma sock_step_weaken (P Q : TcpSocket → Prop) w r : (∀ s, P s → Q s) → sock_step P w r → sock_step Q w r.
Proof. intros HPQ (s' & h' & w' & ? & ? & ? & ? & ?). exists s', h', w'. auto 10. Qed.

Lemma sock_step_ret (P : TcpSocket → Prop) s h (w : W) : sock_wf s → ready w → P s → sock_step P w (Ok (s, h, w)).
Proof. intros. by exists s, h, w. Qed.

(** The first part of the case [TCP_ESTABLISHED]. *)
Lemma tcp_store_phase seq payload s :
  sock_wf s → bytes payload → Z.of_nat (length payload) < 2 ^ 16 →
  let n := Z.min (Z.of_nat (length payload)) (65535 - rx_count s) in
  ∃ s1, (if 0 <? Z.of_nat (length payload) then
           '(buf, head, stored) ← tcp_store payload (rx_buf s) (rx_head s) (rx_tail s) 0;
           Ok (if 0 <? stored then set_pending true (set_ack (u32 (seq + stored)) (set_rx buf head (rx_tail s) s))
               else set_rx buf head (rx_tail s) s)
         else Ok s) = Ok s1 ∧ sock_wf s1 ∧ rx_queue s1 = rx_queue s ++ take (Z.to_nat n) payload ∧
    ack_num s1 = (if 0 <? n then u32 (seq + n) else ack_num s) ∧ sk_in_use s1 = sk_in_use s ∧ sk_state s1 = sk_state s ∧
    local_port s1 = local_port s ∧ remote_port s1 = remote_port s ∧ remote_ip s1 = remote_ip s ∧
    send_next s1 = send_next s ∧ retransmit s1 = retransmit s ∧ (0 < n → pending_ack s1 = true).
Proof.
  intros Hs Hb Hl n. pose proof (rx_count_range s Hs). destruct (Z.ltb_spec 0 (Z.of_nat (length payload))).
  - destruct (tcp_store_spec payload s 0) as (buf & head & E & Hw & Hq); [done|done|lia|lia|].
    fold n in E, Hq. rewrite Z.add_0_l in E. step_with E. cbv iota.
    eexists. split; [done|]. destruct (Z.ltb_spec 0 n); [|split_and!; try done; lia].
    split; [auto with kernel|]. by split_and!.
  - exists s. assert (n = 0) as -> by lia. rewrite take_0, app_nil_r. by split_and!.
Qed.

Lemma tcp_established_spec now flags seq payload s h (w : W) :
  sock_wf s → ready w → bytes payload → Z.of_nat (length payload) < 2 ^ 16 →
  sk_in_use s = true → sk_state s = TCP_ESTABLISHED →
  let n := Z.min (Z.of_nat (length payload)) (65535 - rx_count s) in
  sock_step (λ s', status s' = (if has flags TCP_FLAG_FIN then TCP_CLOSE_WAIT else TCP_ESTABLISHED) ∧
                   rx_queue s' = rx_queue s ++ take (Z.to_nat n) payload ∧
                   ack_num s' = (if has flags TCP_FLAG_FIN then u32 (seq + Z.of_nat (length payload) + 1)
                                 else if 0 <? n then u32 (seq + n) else ack_num s) ∧
                   pending_ack s' = false ∧
                   local_port s' = local_port s ∧ remote_port s' = remote_port s ∧ remote_ip s' = remote_ip s)
    w (tcp_established now flags seq payload s h w).
Proof.
  intros Hs Hw Hb Hl Hu Hst n. unfold tcp_established. cbv zeta.
  destruct (tcp_store_phase seq payload s Hs Hb Hl) as (s1 & E1 & Hs1 & Hq1 & Ha1 & Hu1 & Hst1 & Hlp1 & Hrp1 & Hip1 & _).
  fold n in Hq1, Ha1. step_with E1.
  assert (P2 : sock_step (λ s2, status s2 = (if has flags TCP_FLAG_FIN then TCP_CLOSE_WAIT else TCP_ESTABLISHED) ∧
      rx_queue s2 = rx_queue s1 ∧
      ack_num s2 = (if has flags TCP_FLAG_FIN then u32 (seq + Z.of_nat (length payload) + 1) else ack_num s1) ∧
      local_port s2 = local_port s ∧ remote_port s2 = remote_port s ∧ remote_ip s2 = remote_ip s) w
    (if has flags TCP_FLAG_FIN then
       tcp_control now TCP_FLAG_ACK (set_state TCP_CLOSE_WAIT (set_ack (u32 (seq + Z.of_nat (length payload) + 1)) s1)) h w
     else Ok (s1, h, w))).
  { destruct (has flags TCP_FLAG_FIN).
    - eapply sock_step_weaken; [|apply tcp_control_spec; [auto with kernel|done|unfold TCP_FLAG_ACK; lia]].
      intros s2 Hc. rewrite (status_same _ _ Hc), (rx_queue_same _ _ Hc), status_in_use by (simpl; congruence).
      destruct Hc as (_ & _ & -> & -> & -> & -> & _). by split_and!.
    - apply sock_step_ret; [done|done|]. rewrite status_in_use by congruence. split_and!; congruence. }
  destruct P2 as (s2 & h2 & w2 & E2 & Hs2 & Hw2 & Had2 & Hst2 & Hq2 & Ha2 & Hlp2 & Hrp2 & Hip2).
  step_with E2. cbv iota.
  assert (Hfin : status s2 = (if has flags TCP_FLAG_FIN then TCP_CLOSE_WAIT else TCP_ESTABLISHED) ∧
    rx_queue s2 = rx_queue s ++ take (Z.to_nat n) payload ∧
    ack_num s2 = (if has flags TCP_FLAG_FIN then u32 (seq + Z.of_nat (length payload) + 1)
                  else if 0 <? n then u32 (seq + n) else ack_num s)).
  { split; [done|]. split; [congruence|]. rewrite Ha2. by destruct (has flags TCP_FLAG_FIN). }
  destruct Hfin as (F1 & F2 & F3). destruct (pending_ack s2) eqn:Hp.
  - destruct (tcp_control_spec now TCP_FLAG_ACK s2 h2 w2) as (s3 & h3 & w3 & E3 & Hs3 & Hw3 & Had3 & Hc);
      [done|done|unfold TCP_FLAG_ACK; lia|]. step_with E3. cbv iota.
    eexists _, _, _. split; [done|]. split; [auto with kernel|]. split; [done|]. split; [congruence|].
    change (status (set_pending false s3)) with (status s3). change (rx_queue (set_pending false s3)) with (rx_queue s3).
    rewrite (status_same _ _ Hc), (rx_queue_same _ _ Hc). destruct Hc as (_ & _ & Hx1 & Hx2 & Hx3 & Hx4 & _).
    cbn [ack_num pending_ack local_port remote_port remote_ip set_pending]. split_and!; congruence.
  - exists s2, h2, w2. split; [done|]. split; [done|]. split; [done|]. split; [done|]. split_and!; congruence.
Qed.

(** Whatever the segment, the switch follows an edge. *)
Lemma tcp_switch_spec now flags seq ack payload s h (w : W) :
  sock_wf s → ready w → bytes payload → Z.of_nat (length payload) < 2 ^ 16 → sk_in_use s = true →
  sock_step (λ s', net_edge (status s) (status s')) w (tcp_switch now flags seq ack payload s h w).
Proof.
  intros Hs Hw Hb Hl Hu. rewrite (status_in_use s Hu). unfold tcp_switch.
  assert (Hstay : sock_step (λ s', net_edge (sk_state s) (status s')) w (Ok (s, h, w))).
  { apply sock_step_ret; [done|done|]. rewrite status_in_use by done. constructor. }
  assert (Hctl : ∀ s1 x, sock_wf s1 → sk_in_use s1 = true →
    net_edge (sk_state s) x → sock_step (λ s', net_edge (sk_state s) (status s')) w
      ('(s, h, w) ← tcp_control now TCP_FLAG_ACK s1 h w; Ok (set_state x s, h, w))).
  { intros s1 x Hs1 Hu1 He. eapply sock_step_weaken; [|by apply tcp_control_then]. by intros s' ->. }
  assert (Hset : ∀ x, net_edge (sk_state s) x →
    sock_step (λ s', net_edge (sk_state s) (status s')) w (Ok (set_state x s, h, w))).
  { intros x He. apply sock_step_ret; [auto with kernel|done|]. by rewrite status_in_use. }
  assert (Hack : sock_wf (set_ack (u32 (seq + 1)) s)) by auto with kernel.
  destruct (sk_state s) eqn:Hst; try exact Hstay.
  - case_match; [|exact Hstay].
    eapply sock_step_weaken; [|apply tcp_control_spec; [auto with kernel|done|unfold TCP_FLAG_ACK; lia]].
    intros s' Hc. rewrite (status_same _ _ Hc), status_in_use by done. constructor.
  - case_match; [apply Hset; constructor|exact Hstay].
  - eapply sock_step_weaken; [|by apply tcp_established_spec].
    intros s' (-> & _). case_match; constructor.
  - case_match; [apply Hctl; [done|done|constructor]|]. case_match; [apply Hset; constructor|].
    case_match; [apply Hctl; [done|done|constructor]|exact Hstay].
  - case_match; [apply Hctl; [done|done|constructor]|exact Hstay].
  - case_match; [apply Hset; constructor|exact Hstay].
  - case_match; [|exact Hstay]. apply sock_step_ret; [auto with kernel|done|constructor].
  - case_match; [|exact Hstay].
    eapply sock_step_weaken; [|apply tcp_control_spec; [done|done|unfold TCP_FLAG_ACK; lia]].
    intros s' Hc. rewrite (status_same _ _ Hc), status_in_use, Hst by done. constructor.
Qed.

Record tcp_wf (t : Tcp W) : Prop := {
  tw_count : length (socks t) = TCP_MAX_SOCKETS;
  tw_socks : Forall sock_wf (socks t);
  tw_port : 0 <= next_ephemeral_port t < 2 ^ 16;
  tw_ready : ready (below t)
}.

(** Every connection block followed an edge. *)
Definition edges (ss ss' : list TcpSocket) : Prop :=
  ∀ i s s', ss !! i = Some s → ss' !! i = Some s' → net_edge (status s) (status s').

Lemma edges_refl ss : edges ss ss.
Proof. intros i s s' H1 H2. simplify_eq. constructor. Qed.

Lemma edges_insert ss i s s' :
  ss !! i = Some s → net_edge (status s) (status s') → edges ss (<[i := s']> ss).
Proof.
  intros Hi He j s1 s2 H1 H2. apply list_lookup_insert_Some in H2 as [(<- & <- & _)|[_ H2]]; simplify_eq; [done|constructor].
Qed.

Lemma with_socks_wf (t : Tcp W) i s h w :
  tcp_wf t → sock_wf s → ready w → tcp_wf (with_socks (<[i := s]> (socks t)) h w t).
Proof.
  intros [] Hs Hw. split; simpl; [by rewrite length_insert|by apply Forall_insert|done|done].
Qed.

Lemma tcp_wf_lookup (t : Tcp W) i s : tcp_wf t → socks t !! i = Some s → sock_wf s.
Proof. intros [_ Hs _ _] Hi. by apply (Forall_lookup_1 _ _ _ _ Hs Hi). Qed.

Lemma find_sock_Some f ss i0 k :
  find_sock f ss i0 = Some k → ∃ j s, k = (i0 + j)%nat ∧ ss !! j = Some s ∧ f s = true.
Proof.
  revert i0. induction ss as [|s ss IH]; intros i0; simpl; [done|]. destruct (f s) eqn:Hf.
  - intros [= <-]. exists 0%nat, s. by rewrite Nat.add_0_r.
  - intros (j & s' & -> & ? & ?)%IH. exists (S j), s'. split; [lia|done].
Qed.

Lemma tcp_passive_wf secret now seq src dst sp dp n :
  sock_wf n → 0 <= src < 2 ^ 32 → 0 <= sp < 2 ^ 16 → 0 <= dp < 2 ^ 16 →
  sock_wf (tcp_passive secret now seq src dst sp dp n).
Proof. intros. unfold tcp_passive. cbv zeta. auto 10 with kernel. Qed.

(** The outcome of an event: the new state is well formed, nothing else of the host
    changed, and every block followed an edge. *)
Definition net_step (t : Tcp W) (r : res (Tcp W)) : Prop :=
  ∃ t', r = Ok t' ∧ tcp_wf t' ∧ ip_addr (below t') = ip_addr (below t) ∧ edges (socks t) (socks t').

Lemma tcp_accept_syn_spec now flags seq src dst sp dp (t : Tcp W) :
  tcp_wf t → 0 <= src < 2 ^ 32 → 0 <= sp < 2 ^ 16 → 0 <= dp < 2 ^ 16 →
  net_step t (tcp_accept_syn now flags seq src dst sp dp t).
Proof.
  intros Ht Hsrc Hsp Hdp. unfold tcp_accept_syn.
  assert (Hstay : net_step t (Ok t)) by (exists t; auto using edges_refl).
  case_match; [|exact Hstay]. destruct (find_sock _ _ _) as [j|] eqn:Ef; [|exact Hstay].
  destruct (find_sock_Some _ _ _ _ Ef) as (k & n & -> & Hk & Hfree). simpl. rewrite Hk. cbv zeta.
  pose proof (tcp_passive_wf (tcp_isn_secret t) now seq src dst sp dp n) as Hp.
  destruct (tcp_control_spec now (Z.lor TCP_FLAG_SYN TCP_FLAG_ACK)
    (tcp_passive (tcp_isn_secret t) now seq src dst sp dp n) (heap t) (below t))
    as (n' & h' & w' & E & Hn' & Hw' & Ha & Hc); [eauto using tcp_wf_lookup|apply Ht|done|].
  step_with E. cbv iota. eexists. split; [done|]. split; [by apply with_socks_wf|]. split; [done|].
  apply (edges_insert _ _ n); [done|]. rewrite (status_same _ _ Hc). unfold status at 1.
  destruct (sk_in_use n); [done|]. constructor.
Qed.

Lemma status_take_ack ack s : status (tcp_take_ack ack s) = status s.
Proof. unfold tcp_take_ack. by repeat case_match. Qed.

Lemma edges_trans_insert ss ss' i s s1 :
  ss !! i = Some s → status s1 = status s → edges (<[i := s1]> ss) ss' → edges ss ss'.
Proof.
  intros Hi Hst He j a b Ha Hb. destruct (decide (i = j)) as [->|].
  - simplify_eq. rewrite <-Hst. apply (He j); [|done]. apply list_lookup_insert_eq. by eapply lookup_lt_Some.
  - apply (He j); [|done]. by rewrite list_lookup_insert_ne.
Qed.

Lemma tcp_dispatch_spec now flags seq ack payload src dst sp dp i s (t : Tcp W) :
  tcp_wf t → socks t !! i = Some s → sk_in_use s = true → bytes payload → Z.of_nat (length payload) < 2 ^ 16 →
  0 <= src < 2 ^ 32 → 0 <= sp < 2 ^ 16 → 0 <= dp < 2 ^ 16 →
  net_step t (tcp_dispatch now flags seq ack payload src dst sp dp i s t).
Proof.
  intros Ht Hi Hu Hb Hl Hsrc Hsp Hdp. pose proof (tcp_wf_lookup t i s Ht Hi) as Hs. unfold tcp_dispatch.
  assert (Hrd : ready (below t)) by apply Ht.
  case_match.
  { eexists. split; [done|]. split; [apply with_socks_wf; auto with kernel|]. split; [done|].
    apply (edges_insert _ _ s); [done|]. constructor. }
  cbv zeta. set (s1 := if has flags TCP_FLAG_ACK then tcp_take_ack ack s else s).
  assert (Hs1 : sock_wf s1) by (unfold s1; case_match; auto with kernel).
  assert (Hst1 : status s1 = status s) by (unfold s1; case_match; auto using status_take_ack).
  assert (Hu1 : sk_in_use s1 = true) by (unfold s1, tcp_take_ack; by repeat case_match).
  set (t1 := with_socks (<[i := s1]> (socks t)) (heap t) (below t) t).
  assert (Ht1 : tcp_wf t1) by (by apply with_socks_wf).
  case_decide.
  - destruct (tcp_accept_syn_spec now flags seq src dst sp dp t1) as (t' & -> & Ht' & Ha & He); [done..|].
    exists t'. split; [done|]. split; [done|]. split; [done|]. by apply (edges_trans_insert _ _ i s s1).
  - destruct (tcp_switch_spec now flags seq ack payload s1 (heap t1) (below t1)) as (s2 & h2 & w2 & E & Hs2 & Hw2 & Ha & He);
      [done..|]. step_with E. cbv iota. eexists. split; [done|]. split; [by apply with_socks_wf|]. split; [done|].
    apply (edges_trans_insert _ _ i s s1); [done|done|]. apply (edges_insert _ _ s1); [|done].
    apply list_lookup_insert_eq. by eapply lookup_lt_Some.
Qed.

Lemma tcp_find_socket_Some src sp dp ss i :
  tcp_find_socket src sp dp ss = Some i → ∃ s, ss !! i = Some s ∧ sk_in_use s = true ∧ local_port s = dp.
Proof.
  unfold tcp_find_socket. destruct (find_sock _ ss 0) as [j|] eqn:E.
  - intros [= ->]. destruct (find_sock_Some _ _ _ _ E) as (k & s & -> & Hk & Hf). exists s. split; [done|].
    unfold connected_to in Hf. rewrite !andb_true_iff in Hf. destruct Hf as ((((-> & _) & Hp) & _) & _). split; [done|lia].
  - intros E'. destruct (find_sock_Some _ _ _ _ E') as (k & s & -> & Hk & Hf). exists s. split; [done|].
    unfold listening_on in Hf. rewrite !andb_true_iff in Hf. destruct Hf as ((-> & _) & Hp). split; [done|lia].
Qed.

Lemma tcp_checksum_total src dst data :
  bytes data → ∃ c, tcp_checksum src dst data (Z.of_nat (length data)) = Ok c.
Proof.
  intros Hb. destruct (decide (0 < length data <= 1588)%nat) as [Hl|Hl].
  - eexists. by apply tcp_checksum_spec.
  - exists 0. unfold tcp_checksum. destruct (Z.eqb_spec (Z.of_nat (length data)) 0); [done|].
    destruct (Z.ltb_spec 1600 (12 + Z.of_nat (length data))); [done|lia].
Qed.

(** Any bytes at all: the handler returns, and follows an edge. *)
Lemma tcp_receive_spec now data src dst (t : Tcp W) :
  tcp_wf t → bytes data → Z.of_nat (length data) < 2 ^ 16 → 0 <= src < 2 ^ 32 →
  net_step t (tcp_receive now data (Z.of_nat (length data)) src dst t).
Proof.
  intros Ht Hb Hl Hsrc. assert (Hstay : net_step t (Ok t)) by (exists t; auto using edges_refl).
  unfold tcp_receive, TCP_HEADER_SIZE. destruct (Z.ltb_spec (Z.of_nat (length data)) 20); [exact Hstay|].
  destruct (ld16_bytes data 0) as (sp & E & Hsp); [done|lia..|]. step_with E.
  destruct (ld16_bytes data 2) as (dp & E2 & Hdp); [done|lia..|]. step_with E2.
  destruct (ld32_bytes data 4) as (sq & E4 & _); [done|lia..|]. step_with E4.
  destruct (ld32_bytes data 8) as (ak & E8 & _); [done|lia..|]. step_with E8.
  step_with (arr_get_in data 13 0 ltac:(lia)). step_with (arr_get_in data 12 0 ltac:(lia)). cbv zeta.
  set (hl := u8 _). assert (Hhl : 0 <= hl < 2 ^ 8) by apply u8_range. clearbody hl.
  destruct (Z.ltb_spec hl 20); [exact Hstay|]. cbn [orb].
  destruct (Z.ltb_spec (Z.of_nat (length data)) hl); [exact Hstay|].
  destruct (ld16_bytes data 16) as (ck & E16 & _); [done|lia..|]. step_with E16.
  assert (∃ bad, (if negb (ck =? 0) then c ← tcp_checksum src dst data (Z.of_nat (length data)); Ok (negb (c =? 0))
                  else Ok false) = Ok bad) as [bad Ebad].
  { case_match; [|eauto]. destruct (tcp_checksum_total src dst data Hb) as [c ->]. step. eauto. }
  step_with Ebad. destruct bad; [exact Hstay|]. rewrite u16_small by lia.
  destruct (view_bytes data hl (Z.of_nat (length data) - hl)) as (payload & Ev & Hpb & Hpl); [done|lia..|]. step_with Ev.
  destruct (tcp_find_socket _ _ _ _) as [i|] eqn:Ef; [|exact Hstay].
  destruct (tcp_find_socket_Some _ _ _ _ _ Ef) as (s & Hi & Hu & _). rewrite Hi.
  apply tcp_dispatch_spec; [done|done|done|done|lia|done|by apply htons_range|by apply htons_range].
Qed.

(** ** The retransmission timer *)

Lemma tcp_rearm_wf now r : rt_wf r → rt_wf (tcp_rearm now r).
Proof. intros []. split; simpl; try assumption. apply u32_range. Qed.

Lemma tcp_poll_socket_spec now freq s h (w : W) :
  sock_wf s → ready w →
  sock_step (λ s', net_edge (status s) (status s')) w (tcp_poll_socket now freq s h w).
Proof.
  intros Hs Hw. unfold tcp_poll_socket. cbv zeta.
  assert (Hstay : ∀ h', sock_step (λ s', net_edge (status s) (status s')) w (Ok (s, h', w))).
  { intros h'. apply sock_step_ret; [done|done|constructor]. }
  case_match; [done|]. case_match; [|done]. case_match; [|done]. case_match.
  { apply sock_step_ret; [auto with kernel|done|constructor]. }
  set (r := tcp_rearm now (retransmit s)). assert (Hr : rt_wf r) by (by apply tcp_rearm_wf, Hs).
  pose proof (set_retransmit_wf r s Hr Hs) as Hs'.
  destruct (malloc_next h) as [[] h']; [|apply sock_step_ret; [done|done|constructor]].
  pose proof Hr as [Hseq Hlen Hfl _ Hdl Hdb].
  destruct (view_bytes (rt_data r) 0 (rt_length r)) as (payload & Ev & Hpb & Hpl); [done|lia..|]. step_with Ev.
  pose proof Hs' as [Hlp Hrp Hip Hack _ _ _ _ _ _].
  pose proof (tcp_build_spec (ip_addr w) (remote_ip s) (local_port s) (remote_port s) (rt_seq_num r) (ack_num s)
    (rt_flags r) payload Hlp Hrp Hseq Hack Hfl Hpb ltac:(lia)) as Eb.
  cbn [remote_ip local_port remote_port ack_num set_retransmit]. step_with Eb.
  set (seg := tcp_segment _ _ _ _ _ _ _ _).
  assert (Lseg : Z.of_nat (length seg) = TCP_HEADER_SIZE + rt_length r)
    by (unfold seg; rewrite tcp_segment_length; unfold TCP_HEADER_SIZE; lia).
  clearbody seg. rewrite <-Lseg.
  destruct (ip_send_returns w (remote_ip s) IP_PROTO_TCP seg) as (ok & w' & E & Hw' & Ha);
    [done|done|unfold IP_PROTO_TCP; lia|unfold TCP_HEADER_SIZE in *; lia|].
  step_with E. cbv iota. eexists _, _, _. split; [done|]. split; [done|]. split; [done|]. split; [done|constructor].
Qed.

Lemma tcp_poll_from_spec now freq n : ∀ i (t : Tcp W),
  tcp_wf t → (i + n <= TCP_MAX_SOCKETS)%nat →
  ∃ t', tcp_poll_from now freq n i t = Ok t' ∧ tcp_wf t' ∧ ip_addr (below t') = ip_addr (below t) ∧
    (∀ j, (j < i)%nat → socks t' !! j = socks t !! j) ∧ edges (socks t) (socks t').
Proof.
  induction n as [|n IH]; intros i t Ht Hn; cbn [tcp_poll_from]; [exists t; auto using edges_refl|].
  destruct (lookup_lt_is_Some_2 (socks t) i) as [s Hi]; [rewrite (tw_count t Ht); lia|]. rewrite Hi.
  destruct (tcp_poll_socket_spec now freq s (heap t) (below t)) as (s' & h' & w' & E & Hs' & Hw' & Ha & He);
    [by eapply tcp_wf_lookup|apply Ht|]. step_with E. cbv iota.
  destruct (IH (S i) (with_socks (<[i := s']> (socks t)) h' w' t)) as (t' & E' & Ht' & Ha' & Hlt & He');
    [by apply with_socks_wf|lia|].
  exists t'. split; [exact E'|]. split; [done|]. split; [simpl in Ha'; congruence|]. split.
  - intros j Hj. rewrite Hlt by lia. simpl. by rewrite list_lookup_insert_ne by lia.
  - intros j a b H1 H2. destruct (decide (i = j)) as [<-|].
    + simplify_eq. rewrite Hlt in H2 by lia. simpl in H2.
      rewrite list_lookup_insert_eq in H2 by (by eapply lookup_lt_Some). by simplify_eq.
    + apply (He' j); [|done]. simpl. by rewrite list_lookup_insert_ne.
Qed.

Lemma tcp_poll_spec now freq (t : Tcp W) : tcp_wf t → net_step t (tcp_poll now freq t).
Proof.
  intros Ht. destruct (tcp_poll_from_spec now freq TCP_MAX_SOCKETS 0 t Ht) as (t' & E & ? & ? & _ & ?); [lia|].
  exists t'. auto.
Qed.
End ops.

(** * Ephemeral ports *)

Section ephemeral.
Variables (ss : list TcpSocket) (start : Z).
Hypothesis Hss : (length ss <= TCP_MAX_SOCKETS)%nat.
Hypothesis Hstart : EPHEMERAL_PORT_MIN <= start < 2 ^ 16.

(** The [k]-th port the search tries. *)
Definition candidate (k : nat) : Z := 49152 + (start - 49152 + Z.of_nat k) mod 16384.

Lemma candidate_inj i j : Z.of_nat i < 16384 → Z.of_nat j < 16384 → candidate i = candidate j → i = j.
Proof.
  intros Hi Hj E. unfold candidate in E.
  assert (E' : (start - 49152 + Z.of_nat i) mod 16384 = (start - 49152 + Z.of_nat j) mod 16384) by lia.
  destruct (decide (i <= j)%nat).
  - apply mod_eq_small in E'; lia.
  - symmetry in E'. apply mod_eq_small in E'; lia.
Qed.

(** At most as many candidates are taken as there are connection blocks. *)
Lemma candidates_taken k :
  Z.of_nat k <= 16384 → (∀ j, (j < k)%nat → port_in_use ss (candidate j) = true) → (k <= 32)%nat.
Proof.
  intros Hk Hall. transitivity (length ss); [|exact Hss].
  assert (Hnd : NoDup (candidate <$> seq 0 k)).
  { apply NoDup_fmap_2_strong; [|apply NoDup_seq]. intros i j Hi%elem_of_seq Hj%elem_of_seq. apply candidate_inj; lia. }
  assert (Hsub : (candidate <$> seq 0 k) ⊆ (local_port <$> ss)).
  { intros p (j & -> & Hj%elem_of_seq)%list_elem_of_fmap. specialize (Hall j ltac:(lia)).
    unfold port_in_use in Hall. apply existsb_exists in Hall as (s & Hs & Hp).
    apply list_elem_of_fmap. exists s. apply andb_true_iff in Hp as [_ Hp]. split; [lia|by apply list_elem_of_In]. }
  pose proof (submseteq_length _ _ (NoDup_submseteq _ _ Hnd Hsub)) as Hle.
  by rewrite !length_fmap, length_seq in Hle.
Qed.

Lemma ephemeral_round_eq k :
  ephemeral_round ss start (candidate k) =
    if negb (port_in_use ss (candidate k)) then Ok (inr (candidate k, candidate (S k)))
    else if candidate (S k) =? start then Ok (inr (0, candidate (S k))) else Ok (inl (candidate (S k))).
Proof.
  unfold ephemeral_round. cbv zeta.
  replace (if u16 (candidate k + 1) =? 0 then EPHEMERAL_PORT_MIN else u16 (candidate k + 1)) with (candidate (S k)); [done|].
  unfold u16, candidate, EPHEMERAL_PORT_MIN in *.
  destruct (Z.eqb_spec ((49152 + (start - 49152 + Z.of_nat k) mod 16384 + 1) mod 2 ^ 16) 0); lia.
Qed.

Lemma ephemeral_search m : ∀ k fuel,
  (k + m = 33)%nat → (m < fuel)%nat → (∀ j, (j < k)%nat → port_in_use ss (candidate j) = true) →
  ∃ k', loop fuel (ephemeral_round ss start) (candidate k) = Ok (candidate k', candidate (S k')) ∧
    port_in_use ss (candidate k') = false ∧ (k <= k')%nat ∧ (∀ j, (k <= j < k')%nat → port_in_use ss (candidate j) = true).
Proof.
  induction m as [|m IH]; intros k fuel Hkm Hf Hall.
  { pose proof (candidates_taken k ltac:(lia) Hall). lia. }
  destruct fuel as [|fuel]; [lia|]. cbn [loop].
  rewrite ephemeral_round_eq.
  destruct (port_in_use ss (candidate k)) eqn:Hu; cbn [negb].
  - assert (Hall' : ∀ j, (j < S k)%nat → port_in_use ss (candidate j) = true).
    { intros j Hj. destruct (decide (j = k)) as [->|]; [done|apply Hall; lia]. }
    pose proof (candidates_taken (S k) ltac:(lia) Hall').
    assert (candidate 0 = start) as Hc0 by (unfold candidate, EPHEMERAL_PORT_MIN in *; lia).
    destruct (Z.eqb_spec (candidate (S k)) start) as [E|_].
    { rewrite <-Hc0 in E. apply candidate_inj in E; lia. }
    step. destruct (IH (S k) fuel) as (k' & E & Hfree & Hle & Hbetween); [lia|lia|done|].
    exists k'. split; [exact E|]. split; [done|]. split; [lia|]. intros j Hj.
    destruct (decide (j = k)) as [->|]; [done|apply Hbetween; lia].
  - step. exists k. split; [done|]. split; [done|]. split; [done|]. intros; lia.
Qed.
End ephemeral.

Lemma get_ephemeral_port_spec ss next :
  (length ss <= TCP_MAX_SOCKETS)%nat → 0 <= next < 2 ^ 16 →
  ∃ p next', get_ephemeral_port ss next = Ok (p, next') ∧
    EPHEMERAL_PORT_MIN <= p < 2 ^ 16 ∧ port_in_use ss p = false ∧ EPHEMERAL_PORT_MIN <= next' < 2 ^ 16.
Proof.
  intros Hss Hn. unfold get_ephemeral_port. cbv zeta.
  set (start := if next <? EPHEMERAL_PORT_MIN then EPHEMERAL_PORT_MIN else next).
  assert (Hst : EPHEMERAL_PORT_MIN <= start < 2 ^ 16)
    by (unfold start, EPHEMERAL_PORT_MIN in *; destruct (Z.ltb_spec next 49152); lia).
  clearbody start. assert (Hc0 : candidate start 0 = start) by (unfold candidate, EPHEMERAL_PORT_MIN in *; lia).
  destruct (ephemeral_search ss start Hss Hst 33 0 (Z.to_nat 16385)) as (k & E & Hfree & _); [lia|lia|lia|].
  rewrite Hc0 in E. exists (candidate start k), (candidate start (S k)). split; [exact E|].
  unfold candidate, EPHEMERAL_PORT_MIN in *. split; [lia|]. split; [done|lia].
Qed.

(** * The socket calls *)

Definition segment_ok (x : list Z * Z * Z) : Prop :=
  let '(d, src, _) := x in bytes d ∧ Z.of_nat (length d) < 2 ^ 16 ∧ 0 <= src < 2 ^ 32.
Definition poll_ok (p : poll) : Prop := Forall segment_ok (poll_segments p).

Section calls.
Context {W : Type} `{IpLayer W} {ready : W → Prop} `{!IpLayerLaws W ready}.
Abbreviation tcp_wf := (tcp_wf (ready := ready)).
Implicit Types t : Tcp W.

Lemma tcp_deliver_wf now segs t :
  tcp_wf t → Forall segment_ok segs → ∃ t', tcp_deliver now segs t = Ok t' ∧ tcp_wf t'.
Proof.
  intros Ht Hs. revert t Ht. induction Hs as [|[[d src] dst] segs (Hb & Hl & Hsrc) _ IH]; intros t Ht; simpl; [eauto|].
  destruct (tcp_receive_spec now d src dst t Ht Hb Hl Hsrc) as (t1 & E & Ht1 & _). step_with E. by apply IH.
Qed.

Lemma tcp_net_poll_wf freq p t : tcp_wf t → poll_ok p → ∃ t', tcp_net_poll freq p t = Ok t' ∧ tcp_wf t'.
Proof.
  intros Ht Hp. unfold tcp_net_poll. destruct (tcp_deliver_wf (poll_time p) (poll_segments p) t Ht Hp) as (t1 & E & Ht1).
  step_with E. destruct (tcp_poll_spec (poll_time p) freq t1 Ht1) as (t2 & E2 & Ht2 & _). eauto.
Qed.

Lemma tcp_lookup i t : tcp_wf t → (i < TCP_MAX_SOCKETS)%nat → ∃ s, socks t !! i = Some s ∧ sock_wf s.
Proof.
  intros Ht Hi. destruct (lookup_lt_is_Some_2 (socks t) i) as [s Hs]; [rewrite (tw_count t Ht); done|].
  exists s. split; [done|]. by eapply tcp_wf_lookup.
Qed.

Lemma valid_index_spec sock : valid_index sock = true ↔ 0 <= sock < Z.of_nat TCP_MAX_SOCKETS.
Proof. unfold valid_index. lia. Qed.

(** Reading a socket by the index of the system call. *)
Lemma tcp_get_sock sock t :
  tcp_wf t → valid_index sock = true →
  ∃ s, arr_get (socks t) sock = Ok s ∧ socks t !! Z.to_nat sock = Some s ∧ sock_wf s ∧ (Z.to_nat sock < TCP_MAX_SOCKETS)%nat.
Proof.
  intros Ht Hv%valid_index_spec. destruct (tcp_lookup (Z.to_nat sock) t Ht) as (s & Hs & Hw); [lia|].
  exists s. split; [|split; [done|split; [done|lia]]]. apply arr_get_Ok. split; [lia|done].
Qed.

Lemma tcp_open_wf s : sock_wf s → sock_wf (tcp_open s).
Proof.
  intros Hs. apply clear_retransmit_wf, set_pending_wf, (reset_rx_wf (set_state TCP_CLOSED (set_in_use true s))).
  auto with kernel.
Qed.

Lemma tcp_socket_wf t : tcp_wf t → tcp_wf (tcp_socket t).2.
Proof.
  intros Ht. pose proof Ht as []. unfold tcp_socket. case_match; [|done]. simpl.
  split; simpl; [by rewrite length_alter| |done|done]. apply Forall_alter; [done|]. intros s _. apply tcp_open_wf.
Qed.

Lemma tcp_bind_wf sock port t :
  tcp_wf t → 0 <= port < 2 ^ 16 → ∃ r t', tcp_bind sock port t = Ok (r, t') ∧ tcp_wf t'.
Proof.
  intros Ht Hp. unfold tcp_bind. destruct (valid_index sock) eqn:Hv; cbn [negb orb]; [|eauto].
  case_match; [eauto|]. destruct (tcp_get_sock sock t Ht Hv) as (s & E & Hs & Hw & _). step_with E.
  case_match; [eauto|]. case_match; [eauto|]. eexists _, _. split; [done|].
  apply with_socks_wf; [done|auto with kernel|apply Ht].
Qed.

Lemma tcp_listen_wf sock t : tcp_wf t → ∃ r t', tcp_listen sock t = Ok (r, t') ∧ tcp_wf t'.
Proof.
  intros Ht. unfold tcp_listen. destruct (valid_index sock) eqn:Hv; cbn [negb]; [|eauto].
  destruct (tcp_get_sock sock t Ht Hv) as (s & E & Hs & Hw & _). step_with E. case_match; [eauto|].
  eexists _, _. split; [done|]. apply with_socks_wf; [done|auto with kernel|apply Ht].
Qed.

Lemma tcp_accept_total sock t : tcp_wf t → ∃ r, tcp_accept sock t = Ok r.
Proof.
  intros Ht. unfold tcp_accept. destruct (valid_index sock) eqn:Hv; cbn [negb]; [|eauto].
  destruct (tcp_get_sock sock t Ht Hv) as (s & E & _). step_with E. case_match; eauto.
Qed.

Lemma tcp_await_wf freq i polls t :
  tcp_wf t → Forall poll_ok polls → (i < TCP_MAX_SOCKETS)%nat → ∃ t', tcp_await freq i polls t = Ok t' ∧ tcp_wf t'.
Proof.
  intros Ht Hp Hi. revert t Ht. induction Hp as [|p polls Hp _ IH]; intros t Ht; cbn [tcp_await];
    destruct (tcp_lookup i t Ht Hi) as (s & Hs & _); rewrite Hs; (case_decide; [|eauto]); [eauto|].
  destruct (tcp_net_poll_wf freq p t Ht Hp) as (t1 & E & Ht1). step_with E. by apply IH.
Qed.

Lemma tcp_start_wf isn p s :
  0 <= isn < 2 ^ 32 → 0 <= p < 2 ^ 16 → sock_wf s → sock_wf (tcp_start isn p s).
Proof.
  intros. unfold tcp_start. cbv zeta. apply clear_retransmit_wf, set_state_wf, set_pending_wf.
  change 0 with (u32 0). auto with kernel.
Qed.

Lemma tcp_connect_wf now freq sock dst port polls t :
  tcp_wf t → Forall poll_ok polls → 0 <= dst < 2 ^ 32 → 0 <= port < 2 ^ 16 →
  ∃ r t', tcp_connect now freq sock dst port polls t = Ok (r, t') ∧ tcp_wf t'.
Proof.
  intros Ht Hp Hd Hpt. unfold tcp_connect. destruct (valid_index sock) eqn:Hv; cbn [negb orb]; [|eauto].
  case_match; [eauto|]. destruct (tcp_get_sock sock t Ht Hv) as (s & E & Hs & Hw & Hi). step_with E.
  case_match; [eauto|]. cbv zeta. set (s1 := set_remote dst port s).
  assert (Hs1 : sock_wf s1) by (unfold s1; auto with kernel). pose proof Ht as [Hc Hss Hnp Hrd].
  destruct (get_ephemeral_port_spec (<[Z.to_nat sock := s1]> (socks t)) (next_ephemeral_port t))
    as (ep & next & Ee & Hep & _ & Hnext); [rewrite length_insert; lia|done|]. step_with Ee. cbv iota zeta.
  set (t1 := mkTcp (<[Z.to_nat sock := s1]> (socks t)) (tcp_isn_secret t) next (heap t) (below t)).
  assert (Ht1 : tcp_wf t1).
  { split; simpl; [by rewrite length_insert|by apply Forall_insert|unfold EPHEMERAL_PORT_MIN in *; lia|done]. }
  case_match; [eauto|]. cbn [tcp_isn_secret below heap t1].
  set (isn := tcp_generate_isn _ _ _ _ _ _).
  destruct (tcp_send_segment_spec now TCP_FLAG_SYN [] (tcp_start isn ep s1) (heap t) (below t))
    as (ok & s2 & h2 & w2 & Es & Hs2 & Hw2 & _);
    [apply tcp_start_wf; [apply tcp_generate_isn_range|unfold EPHEMERAL_PORT_MIN in *; lia|done]|done|unfold TCP_FLAG_SYN; lia
    |constructor|simpl; lia|].
  step_with Es. cbv iota. destruct ok; cbn [negb].
  2: { eexists _, _. split; [done|]. apply with_socks_wf; [done|auto with kernel|done]. }
  destruct (tcp_await_wf freq (Z.to_nat sock) polls (with_socks (<[Z.to_nat sock := s2]> (socks t1)) h2 w2 t1))
    as (t2 & Ea & Ht2); [by apply with_socks_wf|done|done|]. step_with Ea.
  destruct (tcp_get_sock sock t2 Ht2 Hv) as (s3 & E3 & _ & Hs3 & _). step_with E3.
  case_decide; [eauto|]. eexists _, _. split; [done|]. apply with_socks_wf; [done|auto with kernel|apply Ht2].
Qed.

Lemma tcp_await_slot_wf freq i polls t :
  tcp_wf t → Forall poll_ok polls → (i < TCP_MAX_SOCKETS)%nat →
  ∃ r, tcp_await_slot freq i polls t = Ok r ∧
    match r with
    | inl t' => tcp_wf t'
    | inr (o, t') => tcp_wf t' ∧ match o with Some ps => Forall poll_ok ps | None => True end
    end.
Proof.
  intros Ht Hp Hi. revert t Ht. induction Hp as [|p polls Hp Hps IH]; intros t Ht; cbn [tcp_await_slot];
    destruct (tcp_lookup i t Ht Hi) as (s & Hs & _); rewrite Hs;
    (case_match; [by eexists|]); (case_match; [|eexists; split; [reflexivity|]; split; [done|]; by (apply Forall_nil_2 || constructor)]).
  - by eexists.
  - destruct (tcp_net_poll_wf freq p t Ht Hp) as (t1 & E & Ht1). step_with E. by apply IH.
Qed.

Lemma tcp_send_chunks_wf fuel : ∀ now freq i data sent polls t,
  tcp_wf t → Forall poll_ok polls → (i < TCP_MAX_SOCKETS)%nat → bytes data → Z.of_nat (length data) < 2 ^ 16 →
  0 <= sent → Z.of_nat (length data) - sent <= Z.of_nat fuel →
  ∃ r, tcp_send_chunks fuel now freq i data sent polls t = Ok r ∧ match r with inl t' => tcp_wf t' | inr (_, t') => tcp_wf t' end.
Proof.
  induction fuel as [|fuel IH]; intros now freq i data sent polls t Ht Hp Hi Hb Hl Hs Hf; cbn [tcp_send_chunks]; cbv zeta.
  { destruct (Z.ltb_spec sent (Z.of_nat (length data))); [lia|]. by eexists. }
  destruct (Z.ltb_spec sent (Z.of_nat (length data))); [|by eexists].
  destruct (tcp_await_slot_wf freq i polls t Ht Hp Hi) as (r & E & Hr). step_with E.
  destruct r as [t1|[[ps|] t1]]; [by eexists| |by destruct Hr; eexists]. destruct Hr as [Ht1 Hps].
  destruct (tcp_lookup i t1 Ht1 Hi) as (s & Hsk & Hw). rewrite Hsk. rewrite u16_small by lia.
  set (n := if 1400 <? Z.of_nat (length data) - sent then 1400 else Z.of_nat (length data) - sent).
  assert (Hn : 0 < n <= 1400 ∧ sent + n <= Z.of_nat (length data))
    by (unfold n; destruct (Z.ltb_spec 1400 (Z.of_nat (length data) - sent)); lia). clearbody n.
  destruct (view_bytes data sent n) as (chunk & Ev & Hcb & Hcl); [done|lia..|]. step_with Ev.
  destruct (tcp_send_segment_spec now (Z.lor TCP_FLAG_ACK TCP_FLAG_PSH) chunk s (heap t1) (below t1))
    as (ok & s2 & h2 & w2 & Es & Hs2 & Hw2 & _); [done|apply Ht1|vm_compute; split; congruence|done|lia|].
  step_with Es. cbv iota. assert (Ht2 : tcp_wf (with_socks (<[i := s2]> (socks t1)) h2 w2 t1)) by (by apply with_socks_wf).
  destruct ok; cbn [negb]; [|by eexists]. apply IH; [done|done|done|done|done|lia|lia].
Qed.

Lemma tcp_send_wf now freq sock data polls t :
  tcp_wf t → Forall poll_ok polls → bytes data → Z.of_nat (length data) < 2 ^ 16 →
  ∃ r, tcp_send now freq sock data polls t = Ok r ∧ match r with inl t' => tcp_wf t' | inr (_, t') => tcp_wf t' end.
Proof.
  intros Ht Hp Hb Hl. unfold tcp_send. destruct (valid_index sock) eqn:Hv; cbn [negb]; [|by eexists].
  case_match; [by eexists|]. apply valid_index_spec in Hv. apply tcp_send_chunks_wf; [done|done|lia|done|done|lia|lia].
Qed.

(** Reading takes the front of the queue. *)
Lemma tcp_recv_spec sock max_len t :
  tcp_wf t → 0 <= max_len < 2 ^ 16 →
  ∃ r out t', tcp_recv sock max_len t = Ok (r, out, t') ∧ tcp_wf t' ∧
    (∀ s, valid_index sock = true → max_len ≠ 0 → socks t !! Z.to_nat sock = Some s → sk_in_use s = true →
       r = Z.of_nat (length out) ∧ out = take (Z.to_nat max_len) (rx_queue s) ∧
       ∃ s', socks t' = <[Z.to_nat sock := s']> (socks t) ∧ rx_queue s' = drop (Z.to_nat max_len) (rx_queue s) ∧
         status s' = status s).
Proof.
  intros Ht Hm. unfold tcp_recv. destruct (valid_index sock) eqn:Hv; cbn [negb orb];
    [|eexists _, _, _; split; [done|]; split; [done|]; done].
  destruct (Z.eqb_spec max_len 0); [eexists _, _, _; split; [done|]; split; [done|]; done|].
  destruct (tcp_get_sock sock t Ht Hv) as (s & E & Hs & Hw & _). step_with E.
  destruct (sk_in_use s) eqn:Hu; cbn [negb].
  2: { eexists _, _, _. split; [done|]. split; [done|]. intros s0 _ _ Hs0 Hu0. congruence. }
  destruct (tcp_drain_spec (Z.to_nat max_len) s Hw) as (tail & Ed & Hw' & Hq). step_with Ed. cbv iota.
  eexists _, _, _. split; [done|]. split; [apply with_socks_wf; [done|done|apply Ht]|].
  intros s0 _ _ Hs0 _. assert (s0 = s) as -> by congruence. split; [done|]. split; [done|].
  eexists. split; [done|]. split; [exact Hq|done].
Qed.

Lemma tcp_close_wf now sock t : tcp_wf t → ∃ t', tcp_close now sock t = Ok t' ∧ tcp_wf t'.
Proof.
  intros Ht. unfold tcp_close. destruct (valid_index sock) eqn:Hv; cbn [negb]; [|eauto]. cbv zeta.
  destruct (tcp_get_sock sock t Ht Hv) as (s & E & Hs & Hw & _). step_with E. case_match; [eauto|].
  assert (Hrd : ready (below t)) by apply Ht.
  set (r := match sk_state s with TCP_ESTABLISHED => _ | TCP_CLOSE_WAIT => _ | _ => _ end).
  assert (sock_step (ready := ready) (λ _, True) (below t) r) as (s' & h' & w' & E' & Hs' & Hw' & _).
  { assert (Hctl : ∀ x, sock_step (ready := ready) (λ _, True) (below t)
      (tcp_control now (Z.lor TCP_FLAG_FIN TCP_FLAG_ACK) (set_state x s) (heap t) (below t))).
    { intros x. eapply sock_step_weaken; [|apply tcp_control_spec; [auto with kernel|done|vm_compute; split; congruence]]. done. }
    unfold r. destruct (sk_state s); first [apply Hctl|apply sock_step_ret; [auto with kernel|done|done]]. }
  step_with E'. cbv iota. eexists. split; [done|]. by apply with_socks_wf.
Qed.
End calls.
