(* ===== verification/TcpConn.v ===== *)
(** Two TCP hosts joined by a link: the three-way handshake, the transfer of data
    with its acknowledgements, and whole sessions of socket calls from boot. The link
    is an [IpLayer] that keeps what was sent on it. *)

From S2P Require Import Prelude Ring Wire Ethernet Arp Ipv4 Tcp TcpInv.

(** Nothing here depends on how initial sequence numbers and segments are made. *)
#[local] Opaque tcp_generate_isn tcp_segment.

(** * A link that records the packets sent *)

Record Link := mkLink { link_addr : Z; link_sent : list (Z * Z * list Z) }.

Definition post (dst : Z) (seg : list Z) (l : Link) : Link :=
  mkLink (link_addr l) (link_sent l ++ [(dst, IP_PROTO_TCP, seg)]).

#[export] Instance link_layer : IpLayer Link := {
  ip_send dst protocol data len l :=
    Ok (true, mkLink (link_addr l) (link_sent l ++ [(dst, protocol, take (Z.to_nat len) data)]));
  ip_addr := link_addr
}.

(** The link has the address of [l] and has sent what [l] had, and perhaps more. *)
Definition later (l l' : Link) : Prop :=
  0 <= link_addr l < 2 ^ 32 ∧ link_addr l' = link_addr l ∧ link_sent l `prefix_of` link_sent l'.

#[export] Instance link_layer_laws l : IpLayerLaws Link (later l).
Proof.
  split; simpl.
  - intros w dst protocol data (Hr & Ha & Hp) _ _ _. eexists _, _. split; [done|]. split; [|done].
    split; [done|]. split; [done|]. simpl. by apply prefix_app_r.
  - intros w (Hr & -> & _). done.
Qed.

Lemma later_refl l : 0 <= link_addr l < 2 ^ 32 → later l l.
Proof. done. Qed.

Lemma later_post dst seg l : 0 <= link_addr l < 2 ^ 32 → later l (post dst seg l).
Proof. intros. split; [done|]. split; [done|]. simpl. by apply prefix_app_r. Qed.

(** The invariant does not depend on how much was sent. *)
Definition host_wf (t : Tcp Link) : Prop := tcp_wf (W := Link) (ready := later (below t)) t.

Lemma host_wf_later l t : tcp_wf (W := Link) (ready := later l) t → host_wf t.
Proof. intros [? ? ? (Hr & Ha & _)]. split; [done..|]. apply later_refl. by rewrite Ha. Qed.

(** * Sending on the link *)

Lemma tcp_send_segment_link now flags data s h (l : Link) :
  sock_wf s → 0 <= flags < 2 ^ 8 → bytes data → (length data <= 1460)%nat →
  tcp_send_segment now flags data s (true :: h) l =
    Ok (true, sock_after now flags data s, h, post (remote_ip s) (out_segment flags data s l) l).
Proof.
  intros. rewrite tcp_send_segment_eq by done. cbn [malloc_next fst snd]. set (seg := out_segment _ _ _ _). clearbody seg.
  unfold ip_send, link_layer. cbn [fmap res_fmap fst snd]. by rewrite Nat2Z.id, firstn_all.
Qed.

Lemma tcp_control_link now flags s h (l : Link) :
  sock_wf s → 0 <= flags < 2 ^ 8 →
  tcp_control now flags s (true :: h) l =
    Ok (sock_after now flags [] s, h, post (remote_ip s) (out_segment flags [] s l) l).
Proof.
  intros. unfold tcp_control. step_with (tcp_send_segment_link now flags [] s h l ltac:(done) ltac:(done) ltac:(constructor) ltac:(simpl; lia)).
  done.
Qed.

(** * Finding a socket *)

Lemma find_sock_insert_same f ss k i s s' :
  ss !! i = Some s → f s' = f s → find_sock f (<[i := s']> ss) k = find_sock f ss k.
Proof.
  revert k i. induction ss as [|a ss IH]; intros k [|i] Hi Hf; simplify_eq/=; [by rewrite Hf|]. by rewrite IH.
Qed.

Lemma find_sock_insert_new f ss k i s s' :
  find_sock f ss k = None → ss !! i = Some s → f s' = true → find_sock f (<[i := s']> ss) k = Some (k + i)%nat.
Proof.
  revert k i. induction ss as [|a ss IH]; intros k [|i] Hn Hi Hf; simplify_eq/=.
  - rewrite Hf. f_equal. lia.
  - destruct (f a); [done|]. rewrite (IH (S k)) by done. f_equal. lia.
Qed.

Lemma find_sock_None f ss k : (∀ s, s ∈ ss → f s = false) → find_sock f ss k = None.
Proof.
  revert k. induction ss as [|a ss IH]; intros k Hf; simpl; [done|].
  rewrite Hf by set_solver. apply IH. set_solver.
Qed.

(** * The handshake *)

Definition SYN_ACK : Z := Z.lor TCP_FLAG_SYN TCP_FLAG_ACK.

(** The acknowledgement that a segment with a SYN asks for frees the slot. *)
Lemma take_ack_syn now flags s :
  0 <= send_next s < 2 ^ 32 → has flags (Z.lor TCP_FLAG_SYN TCP_FLAG_FIN) = true →
  tcp_take_ack (u32 (send_next s + 1)) (sock_after now flags [] s) =
    clear_retransmit (set_una (u32 (send_next s + 1)) (sock_after now flags [] s)).
Proof.
  intros Hs Hf. unfold tcp_take_ack, sock_after, rt_after, syn_fin. rewrite Hf, orb_true_r. cbn [length].
  cbn [retransmit set_una set_retransmit set_sent rt_in_use rt_seq_num rt_length rt_flags].
  change (Z.of_nat 0) with 0. rewrite Hf.
  replace (u32 (send_next s + 0 + 1)) with (u32 (send_next s + 1)) by (f_equal; lia).
  rewrite Z.sub_diag. done.
Qed.

Lemma seq_after_syn seq flags :
  0 <= seq < 2 ^ 32 → has flags (Z.lor TCP_FLAG_SYN TCP_FLAG_FIN) = true → seq_after seq 0 flags = u32 (seq + 1).
Proof. intros Hs Hf. unfold seq_after, syn_fin. rewrite Hf, Z.add_0_r, (u32_small seq) by done. done. Qed.

Section server.
Variables (t : Tcp Link) (cip cport : Z) (p : Z) (i j : nat) (ls n : TcpSocket) (isn now : Z) (h : list bool).
Hypothesis Hwf : host_wf t.
Hypothesis Hheap : heap t = true :: h.
Hypothesis Hcip : 0 <= cip < 2 ^ 32.
Hypothesis Hcport : 0 <= cport < 2 ^ 16.
Hypothesis Hp : 0 <= p < 2 ^ 16.
Hypothesis Hisn : 0 <= isn < 2 ^ 32.
Hypothesis Hnone : find_sock (connected_to cip cport p) (socks t) 0 = None.
Hypothesis Hlisten : find_sock (listening_on p) (socks t) 0 = Some i.
Hypothesis Hfree : find_sock (λ s, negb (sk_in_use s)) (socks t) 0 = Some j.
Hypothesis Hn : socks t !! j = Some n.

(** The block the connection gets, and the state after the SYN. *)
Definition passive : TcpSocket :=
  tcp_passive (tcp_isn_secret t) now isn cip (link_addr (below t)) cport p n.
Definition after_syn : Tcp Link :=
  with_socks (<[j := sock_after now SYN_ACK [] passive]> (socks t)) h
    (post cip (out_segment SYN_ACK [] passive (below t)) (below t)) t.

Lemma passive_wf : sock_wf passive.
Proof. apply tcp_passive_wf; [|done..]. by eapply tcp_wf_lookup. Qed.

Lemma server_syn :
  let seg := tcp_segment cip (link_addr (below t)) cport p isn 0 TCP_FLAG_SYN [] in
  tcp_receive now seg (Z.of_nat (length seg)) cip (link_addr (below t)) t = Ok after_syn.
Proof.
  pose proof passive_wf as Hpw. cbv zeta. rewrite tcp_receive_segment; [|done|done|done|done|done|constructor|simpl; lia].
  unfold tcp_find_socket. rewrite Hnone, Hlisten. destruct (find_sock_Some _ _ _ _ Hlisten) as (k & s & Hk & Hs & Hl).
  simpl in Hk. subst k. rewrite Hs. unfold tcp_dispatch. change (has TCP_FLAG_SYN TCP_FLAG_RST) with false.
  change (has TCP_FLAG_SYN TCP_FLAG_ACK) with false. cbv zeta iota.
  rewrite list_insert_id by done. unfold listening_on in Hl. rewrite !andb_true_iff in Hl. destruct Hl as ((_ & Hst%bool_decide_eq_true) & _).
  rewrite decide_True by done. unfold tcp_accept_syn. change (has TCP_FLAG_SYN TCP_FLAG_SYN) with true. cbv iota.
  cbn [socks with_socks heap below tcp_isn_secret]. rewrite Hfree, Hn, Hheap. fold passive.
  step_with (tcp_control_link now SYN_ACK passive h (below t) Hpw ltac:(vm_compute; split; congruence)). done.
Qed.

Lemma after_syn_wf : host_wf after_syn.
Proof.
  eapply host_wf_later. apply with_socks_wf; [exact Hwf| |apply later_post; apply Hwf].
  apply sock_after_wf; [apply passive_wf|done|constructor|simpl; lia].
Qed.

(** The acknowledgement of the SYN-ACK completes the connection. *)
Lemma server_ack now' ack :
  let seg := tcp_segment cip (link_addr (below t)) cport p (u32 (isn + 1)) ack TCP_FLAG_ACK [] in
  ack = u32 (send_next passive + 1) →
  tcp_receive now' seg (Z.of_nat (length seg)) cip (link_addr (below t)) after_syn =
    Ok (with_socks (<[j := set_state TCP_ESTABLISHED (clear_retransmit (set_una ack (sock_after now SYN_ACK [] passive)))]>
          (socks t)) h (below after_syn) t).
Proof.
  intros seg Ha. unfold seg. rewrite tcp_receive_segment;
    [|done|done|apply u32_range|rewrite Ha; apply u32_range|done|constructor|simpl; lia].
  unfold tcp_find_socket. cbn [after_syn socks with_socks]. rewrite (find_sock_insert_new _ _ 0 j n); [|done|done|].
  2: { unfold connected_to. cbn -[Z.eqb]. by rewrite !Z.eqb_refl. }
  cbn [Nat.add]. rewrite list_lookup_insert_eq by (by eapply lookup_lt_Some).
  unfold tcp_dispatch. change (has TCP_FLAG_ACK TCP_FLAG_RST) with false. change (has TCP_FLAG_ACK TCP_FLAG_ACK) with true.
  cbv zeta iota. unfold ack_field. change (has TCP_FLAG_ACK TCP_FLAG_ACK) with true. cbv iota.
  rewrite Ha, take_ack_syn; [|apply passive_wf|done]. rewrite decide_False by done.
  unfold tcp_switch. cbn [sk_state clear_retransmit set_una set_retransmit sock_after set_sent passive tcp_passive
    set_rx set_isn set_ack set_remote set_local_port set_state set_in_use].
  change (has TCP_FLAG_ACK TCP_FLAG_ACK) with true. cbv iota. step. cbn [socks with_socks heap below].
  unfold after_syn, with_socks. cbn [socks heap below tcp_isn_secret next_ephemeral_port]. by rewrite !list_insert_insert_eq.
Qed.
End server.

(** ** What the timer leaves alone *)

Definition poll_rel (s s' : TcpSocket) : Prop :=
  (sk_in_use s' = true → same_conn s s') ∧ (rt_in_use (retransmit s) = false → s' = s).

Lemma poll_rel_refl s : poll_rel s s.
Proof. split; auto with kernel. Qed.
Lemma poll_rel_trans s1 s2 s3 : poll_rel s1 s2 → poll_rel s2 s3 → poll_rel s1 s3.
Proof.
  intros [H1 H1'] [H2 H2']. split.
  - intros Hu. pose proof (H2 Hu) as Hc. apply (same_conn_trans _ s2); [|done]. apply H1. by destruct Hc as (<- & _).
  - intros Hr. pose proof (H1' Hr) as ->. auto.
Qed.

Lemma tcp_poll_socket_rel now freq s h (l : Link) s' h' l' :
  tcp_poll_socket now freq s h l = Ok (s', h', l') → poll_rel s s'.
Proof.
  unfold tcp_poll_socket. cbv zeta. intros E.
  case_match; [simplify_eq; apply poll_rel_refl|]. destruct (rt_in_use (retransmit s)) eqn:Hr; [|simplify_eq; apply poll_rel_refl].
  case_match; [|simplify_eq; apply poll_rel_refl].
  assert (Hk : ∀ r, poll_rel s (set_retransmit r s)) by (intros r; split; [done|congruence]).
  case_match; [simplify_eq; split; [done|congruence]|]. destruct (malloc_next h) as [[] h1]; [|by simplify_eq].
  destruct (view _ _ _) as [payload| |]; [|done|done]. cbn [mbind res_bind] in E.
  destruct (tcp_build _ _ _ _ _ _ _ _) as [seg| |]; [|done|done]. cbn [mbind res_bind] in E. simpl in E. by simplify_eq.
Qed.

Lemma tcp_poll_from_rel now freq n : ∀ i (t t' : Tcp Link),
  tcp_poll_from now freq n i t = Ok t' →
  ∀ k s, socks t !! k = Some s → ∃ s', socks t' !! k = Some s' ∧ poll_rel s s'.
Proof.
  induction n as [|n IH]; intros i t t' E k s Hk; cbn [tcp_poll_from] in E.
  { simplify_eq. eauto using poll_rel_refl. }
  destruct (socks t !! i) as [a|] eqn:Hi; [|done].
  destruct (tcp_poll_socket now freq a (heap t) (below t)) as [[[a' h'] l']| |] eqn:Ea; [|done|done].
  cbn [mbind res_bind] in E. apply tcp_poll_socket_rel in Ea. destruct (decide (i = k)) as [->|Hne].
  - simplify_eq. destruct (IH _ _ _ E k a') as (s' & Hs' & Hr);
      [simpl; apply list_lookup_insert_eq; by eapply lookup_lt_Some|]. eauto using poll_rel_trans.
  - apply (IH _ _ _ E k s). simpl. by rewrite list_lookup_insert_ne.
Qed.

Lemma tcp_poll_rel now freq (t t' : Tcp Link) :
  tcp_poll now freq t = Ok t' → ∀ k s, socks t !! k = Some s → ∃ s', socks t' !! k = Some s' ∧ poll_rel s s'.
Proof. apply tcp_poll_from_rel. Qed.

Lemma find_sock_only f ss i s k0 :
  ss !! i = Some s → f s = true → (∀ k s', k ≠ i → ss !! k = Some s' → f s' = false) → find_sock f ss k0 = Some (k0 + i)%nat.
Proof.
  revert i k0. induction ss as [|a ss IH]; intros [|i] k0 Hi Hf Ho; simplify_eq/=.
  - rewrite Hf. f_equal. lia.
  - rewrite (Ho 0%nat a) by done. rewrite (IH i) by (eauto || (intros k s' Hk Hs'; apply (Ho (S k)); [lia|done])). f_equal. lia.
Qed.

(** ** The client *)

Section client.
Variables (t : Tcp Link) (sock sip p now now2 freq : Z) (s0 : TcpSocket) (h : list bool).
Hypothesis Hwf : host_wf t.
Hypothesis Hheap : heap t = true :: true :: h.
Hypothesis Hv : valid_index sock = true.
Hypothesis Hs0 : socks t !! Z.to_nat sock = Some s0.
Hypothesis Hu0 : sk_in_use s0 = true.
Hypothesis Hsip : 0 < sip < 2 ^ 32.
Hypothesis Hp : 0 < p < 2 ^ 16.
Variables (ep next : Z).
Hypothesis Hep : EPHEMERAL_PORT_MIN <= ep < 2 ^ 16.
Hypothesis Hnext : 0 <= next < 2 ^ 16.
Hypothesis Eep : get_ephemeral_port (<[Z.to_nat sock := set_remote sip p s0]> (socks t)) (next_ephemeral_port t) = Ok (ep, next).
Hypothesis Hunused : port_in_use (<[Z.to_nat sock := set_remote sip p s0]> (socks t)) ep = false.

Definition cip : Z := ip_addr (below t).
Definition isn : Z := tcp_generate_isn (tcp_isn_secret t) now (ip_addr (below t)) sip ep p.
Definition starting : TcpSocket := tcp_start isn ep (set_remote sip p s0).
Definition connecting : Tcp Link :=
  mkTcp (<[Z.to_nat sock := sock_after now TCP_FLAG_SYN [] starting]> (<[Z.to_nat sock := set_remote sip p s0]> (socks t)))
    (tcp_isn_secret t) next (true :: h) (post sip (tcp_segment cip sip ep p isn 0 TCP_FLAG_SYN []) (below t)).

Lemma starting_wf : sock_wf starting.
Proof.
  apply tcp_start_wf; [apply tcp_generate_isn_range|unfold EPHEMERAL_PORT_MIN in *; lia|].
  apply set_remote_wf; [lia|lia|]. by eapply tcp_wf_lookup.
Qed.

Lemma client_start polls :
  tcp_connect now freq sock sip p polls t =
    (t ← tcp_await freq (Z.to_nat sock) polls connecting;
     s ← arr_get (socks t) sock;
     if decide (sk_state s = TCP_ESTABLISHED) then Ok (true, t)
     else Ok (false, with_socks (<[Z.to_nat sock := clear_retransmit (set_local_port 0 (set_state TCP_CLOSED s))]> (socks t))
                       (heap t) (below t) t)).
Proof.
  unfold tcp_connect. rewrite Hv. cbn [negb orb]. destruct (Z.eqb_spec sip 0); [lia|]. destruct (Z.eqb_spec p 0); [lia|].
  destruct (tcp_get_sock sock t Hwf Hv) as (s & E & Hs & _). assert (s = s0) as -> by congruence. step_with E.
  rewrite Hu0. cbn [negb orb]. cbv zeta. step_with Eep. cbv iota zeta. cbn [tcp_isn_secret below heap].
  destruct (Z.eqb_spec ep 0); [unfold EPHEMERAL_PORT_MIN in *; lia|]. rewrite Hheap.
  pose proof starting_wf as Hst. unfold connecting. unfold starting, isn in *.
  set (i0 := tcp_generate_isn _ _ _ _ _ _) in *. clearbody i0. set (c := tcp_start i0 ep (set_remote sip p s0)) in *.
  step_with (tcp_send_segment_link now TCP_FLAG_SYN [] c (true :: h) (below t) Hst
    ltac:(done) ltac:(constructor) ltac:(simpl; lia)). cbv iota. cbn [negb].
  assert (Eo : out_segment TCP_FLAG_SYN [] c (below t) = tcp_segment cip sip ep p i0 0 TCP_FLAG_SYN []) by reflexivity.
  rewrite Eo. reflexivity.
Qed.

Lemma connecting_wf : host_wf connecting.
Proof.
  pose proof Hwf as [Hc Hss _ Hr]. split; cbn [socks connecting next_ephemeral_port below].
  - by rewrite !length_insert.
  - apply Forall_insert; [apply Forall_insert; [done|]|].
    + apply set_remote_wf; [lia|lia|]. by eapply tcp_wf_lookup.
    + apply sock_after_wf; [apply starting_wf|done|constructor|simpl; lia].
  - done.
  - apply later_refl. apply Hr.
Qed.

(** Only the new connection has its local port. *)
Lemma connecting_other k s :
  k ≠ Z.to_nat sock → socks connecting !! k = Some s → sk_in_use s = true → local_port s ≠ ep.
Proof.
  intros Hk Hs Hu Hlp. cbn [socks connecting] in Hs. rewrite list_lookup_insert_ne in Hs by done.
  unfold port_in_use in Hunused. rewrite <-not_true_iff_false in Hunused. apply Hunused. apply existsb_exists.
  exists s. split; [apply list_elem_of_In; by eapply list_elem_of_lookup_2|]. rewrite Hu. cbn [andb]. lia.
Qed.

Lemma connecting_lookup : socks connecting !! Z.to_nat sock = Some (sock_after now TCP_FLAG_SYN [] starting).
Proof.
  cbn [socks connecting]. apply list_lookup_insert_eq. rewrite length_insert. by eapply lookup_lt_Some.
Qed.

Lemma find_client_port (t' : Tcp Link) s :
  socks t' !! Z.to_nat sock = Some s → connected_to sip p ep s = true →
  (∀ k s, k ≠ Z.to_nat sock → socks t' !! k = Some s → sk_in_use s = true → local_port s ≠ ep) →
  tcp_find_socket sip p ep (socks t') = Some (Z.to_nat sock).
Proof.
  intros Hs Hc Ho. unfold tcp_find_socket. rewrite (find_sock_only _ _ (Z.to_nat sock) s 0); [done|done|done|].
  intros k s' Hk Hs'. unfold connected_to. destruct (sk_in_use s') eqn:Hu; [|done].
  specialize (Ho k s' Hk Hs' Hu). cbn [andb]. destruct (negb _); [|done]. cbn [andb].
  destruct (Z.eqb_spec (local_port s') ep); [lia|done].
Qed.

(** The SYN-ACK arrives. *)
Definition half_open : TcpSocket := clear_retransmit (set_una (u32 (isn + 1)) (sock_after now TCP_FLAG_SYN [] starting)).
Definition opened (sseq : Z) : TcpSocket := set_state TCP_ESTABLISHED (set_ack (u32 (sseq + 1)) half_open).
Definition client_ack (sseq : Z) : list Z :=
  tcp_segment cip sip ep p (u32 (isn + 1)) (u32 (sseq + 1)) TCP_FLAG_ACK [].
Definition established (sseq : Z) : Tcp Link :=
  with_socks (<[Z.to_nat sock := sock_after now2 TCP_FLAG_ACK [] (opened sseq)]> (socks connecting)) h
    (post sip (client_ack sseq) (below connecting)) connecting.

Lemma half_open_next : send_next half_open = u32 (isn + 1).
Proof. apply (seq_after_syn isn); [apply tcp_generate_isn_range|done]. Qed.

Lemma opened_wf sseq : sock_wf (opened sseq).
Proof.
  apply set_state_wf, set_ack_wf, clear_retransmit_wf, set_una_wf, sock_after_wf; [apply starting_wf|done|constructor|simpl; lia].
Qed.

Lemma client_synack sseq :
  0 <= sseq < 2 ^ 32 →
  let seg := tcp_segment sip cip p ep sseq (u32 (isn + 1)) SYN_ACK [] in
  tcp_receive now2 seg (Z.of_nat (length seg)) sip cip connecting = Ok (established sseq).
Proof.
  intros Hs seg. unfold seg. rewrite tcp_receive_segment;
    [|lia|unfold EPHEMERAL_PORT_MIN in *; lia|done|apply u32_range|done|constructor|simpl; lia].
  rewrite (find_client_port connecting (sock_after now TCP_FLAG_SYN [] starting)); [|apply connecting_lookup| |apply connecting_other].
  2: { unfold connected_to. cbn -[Z.eqb isn]. by rewrite Hu0, !Z.eqb_refl. }
  rewrite connecting_lookup. unfold tcp_dispatch, ack_field. change (has SYN_ACK TCP_FLAG_RST) with false.
  change (has SYN_ACK TCP_FLAG_ACK) with true. cbv zeta iota.
  assert (Eta : tcp_take_ack (u32 (isn + 1)) (sock_after now TCP_FLAG_SYN [] starting) = half_open)
    by (apply (take_ack_syn now TCP_FLAG_SYN starting); [apply tcp_generate_isn_range|done]).
  rewrite Eta, decide_False by done. unfold tcp_switch.
  change (sk_state half_open) with TCP_SYN_SENT. cbv iota.
  rewrite half_open_next, (Z.eqb_refl (u32 (isn + 1))).
  change (Z.land SYN_ACK (Z.lor TCP_FLAG_SYN TCP_FLAG_ACK) =? Z.lor TCP_FLAG_SYN TCP_FLAG_ACK) with true. cbn [andb].
  fold (opened sseq). cbn [heap below with_socks].
  assert (Eh : heap connecting = true :: h) by reflexivity. rewrite Eh.
  step_with (tcp_control_link now2 TCP_FLAG_ACK (opened sseq) h (below connecting) (opened_wf sseq) ltac:(done)).
  cbv iota. cbn [socks with_socks]. rewrite list_insert_insert_eq.
  assert (Eo : out_segment TCP_FLAG_ACK [] (opened sseq) (below connecting) = client_ack sseq).
  { unfold out_segment, client_ack. rewrite <-half_open_next. reflexivity. }
  rewrite Eo. reflexivity.
Qed.

Lemma established_wf sseq : host_wf (established sseq).
Proof.
  eapply host_wf_later. apply with_socks_wf; [exact connecting_wf| |apply later_post; apply connecting_wf].
  apply sock_after_wf; [apply opened_wf|done|constructor|simpl; lia].
Qed.

Definition client_syn : list Z := tcp_segment cip sip ep p isn 0 TCP_FLAG_SYN [].

Lemma client_connect sseq :
  0 <= sseq < 2 ^ 32 →
  let seg := tcp_segment sip cip p ep sseq (u32 (isn + 1)) SYN_ACK [] in
  ∃ t', tcp_connect now freq sock sip p [mkPoll now2 [(seg, sip, cip)]] t = Ok (true, t') ∧ host_wf t' ∧
    link_addr (below t') = cip ∧
    link_sent (below t) ++ [(sip, IP_PROTO_TCP, client_syn); (sip, IP_PROTO_TCP, client_ack sseq)]
      `prefix_of` link_sent (below t') ∧
    socks t' !! Z.to_nat sock = Some (sock_after now2 TCP_FLAG_ACK [] (opened sseq)) ∧
    tcp_find_socket sip p ep (socks t') = Some (Z.to_nat sock).
Proof.
  intros Hs seg. rewrite client_start. cbn [tcp_await]. rewrite connecting_lookup, decide_True by done.
  unfold tcp_net_poll. cbn [poll_time poll_segments tcp_deliver].
  pose proof (client_synack sseq Hs) as Er. cbv zeta in Er. fold seg in Er. clearbody seg. step_with Er. step.
  pose proof (established_wf sseq) as He.
  destruct (tcp_poll_spec now2 freq (established sseq) He) as (t' & Ep & Hw' & _ & _).
  assert (Hl : socks (established sseq) !! Z.to_nat sock = Some (sock_after now2 TCP_FLAG_ACK [] (opened sseq))).
  { cbn [socks established with_socks]. apply list_lookup_insert_eq. eapply lookup_lt_Some, connecting_lookup. }
  pose proof (tcp_poll_rel _ _ _ _ Ep) as Hrel. destruct (Hrel _ _ Hl) as (c' & Hc' & _ & Hsame).
  rewrite (Hsame eq_refl) in Hc'. clear Hsame. step_with Ep.
  assert (Hst : sk_state (sock_after now2 TCP_FLAG_ACK [] (opened sseq)) = TCP_ESTABLISHED) by done.
  rewrite Hc', decide_False by (rewrite Hst; done).
  step. rewrite (proj2 (arr_get_Ok _ _ _)) by (split; [|exact Hc']; apply valid_index_spec in Hv; lia). step.
  rewrite decide_True by done. exists t'. split; [done|]. split; [by eapply host_wf_later|].
  pose proof (tw_ready _ Hw') as (_ & Ha & Hpre). split; [exact Ha|]. split.
  { etrans; [|exact Hpre]. cbn [below established connecting with_socks post link_sent]. by rewrite <-(assoc_L (++)). }
  split; [done|]. apply (find_client_port _ _ Hc').
  { unfold connected_to. cbn -[Z.eqb isn]. by rewrite Hu0, !Z.eqb_refl. }
  intros k s Hk Hks Hu. destruct (lookup_lt_is_Some_2 (socks (established sseq)) k) as [s1 Hs1].
  { apply lookup_lt_Some in Hks. by rewrite (tw_count _ He), <-(tw_count _ Hw'). }
  destruct (Hrel k s1 Hs1) as (s' & Hs' & Hcn & _). simplify_eq. destruct (Hcn Hu) as (Hu1 & _ & -> & _).
  cbn [socks established with_socks] in Hs1. rewrite list_lookup_insert_ne in Hs1 by done.
  apply (connecting_other k s1 Hk Hs1). congruence.
Qed.
End client.

(** Two ends of one connection, each expecting what the other sends next, with
    nothing unacknowledged. *)
Record paired (ca sa : Z) (c s : TcpSocket) : Prop := {
  pr_in_use : sk_in_use c = true ∧ sk_in_use s = true;
  pr_state : sk_state c = TCP_ESTABLISHED ∧ sk_state s = TCP_ESTABLISHED;
  pr_addr : remote_ip c = sa ∧ remote_ip s = ca;
  pr_port : remote_port c = local_port s ∧ remote_port s = local_port c;
  pr_seq : ack_num s = send_next c ∧ ack_num c = send_next s;
  pr_slot : rt_in_use (retransmit c) = false ∧ rt_in_use (retransmit s) = false;
  pr_pending : pending_ack c = false
}.

(** Hosts [tc] and [ts] have a connection on their sockets [i] and [j], which
    segments from the other end reach. *)
Record connected (tc ts : Tcp Link) (i j : nat) (c s : TcpSocket) : Prop := {
  cn_client : host_wf tc;
  cn_server : host_wf ts;
  cn_c : socks tc !! i = Some c;
  cn_s : socks ts !! j = Some s;
  cn_pair : paired (link_addr (below tc)) (link_addr (below ts)) c s;
  cn_find_c : tcp_find_socket (remote_ip c) (remote_port c) (local_port c) (socks tc) = Some i;
  cn_find_s : tcp_find_socket (remote_ip s) (remote_port s) (local_port s) (socks ts) = Some j
}.

(** An acknowledgement takes no sequence number. *)
Lemma seq_after_ack seq : 0 <= seq < 2 ^ 32 → seq_after seq 0 TCP_FLAG_ACK = seq.
Proof. intros Hs. unfold seq_after. change (syn_fin TCP_FLAG_ACK) with 0. by rewrite !Z.add_0_r, !(u32_small seq). Qed.

(** The two ends after the handshake. *)
Lemma handshake_paired tc ts sip cport p s0 n sisn now now1 now2 :
  let cip := link_addr (below tc) in
  let cisn := isn tc sip p now cport in
  let n1 := passive ts cip cport p n cisn now1 in
  sk_in_use s0 = true → sisn = send_next n1 →
  paired cip sip (sock_after now2 TCP_FLAG_ACK [] (opened tc sip p now s0 cport sisn))
    (set_state TCP_ESTABLISHED (clear_retransmit (set_una (u32 (sisn + 1)) (sock_after now1 SYN_ACK [] n1)))).
Proof.
  intros cip cisn n1 Hu ->. assert (Hcisn : 0 <= cisn < 2 ^ 32) by apply tcp_generate_isn_range.
  assert (Hsisn : 0 <= send_next n1 < 2 ^ 32) by apply tcp_generate_isn_range.
  split; [done|done|done|done| |done|done]. split.
  - transitivity (u32 (cisn + 1)); [done|]. symmetry.
    transitivity (seq_after (u32 (cisn + 1)) 0 TCP_FLAG_ACK); [|apply seq_after_ack, u32_range].
    unfold sock_after, set_retransmit, set_sent. cbn [send_next length]. change (Z.of_nat 0) with 0. f_equal.
    exact (half_open_next tc sip p now s0 cport).
  - transitivity (u32 (send_next n1 + 1)); [done|]. symmetry. by apply seq_after_syn.
Qed.

(** What a connection attempt needs of the two hosts: a socket on the client, a
    listener without a connection from that client and a free block on the server,
    and memory for the segments. *)
Record can_connect (tc ts : Tcp Link) (sock p : Z) (s0 : TcpSocket) (j : nat) : Prop := {
  cc_client : host_wf tc;
  cc_server : host_wf ts;
  cc_addr : link_addr (below ts) ≠ 0;
  cc_port : 0 < p < 2 ^ 16;
  cc_index : valid_index sock = true;
  cc_sock : socks tc !! Z.to_nat sock = Some s0 ∧ sk_in_use s0 = true;
  cc_fresh cport : find_sock (connected_to (link_addr (below tc)) cport p) (socks ts) 0 = None;
  cc_listen : is_Some (find_sock (listening_on p) (socks ts) 0);
  cc_free : find_sock (λ s, negb (sk_in_use s)) (socks ts) 0 = Some j;
  cc_heap_c : take 2 (heap tc) = [true; true];
  cc_heap_s : take 1 (heap ts) = [true]
}.

(** [l'] holds what [l] had sent, then [segs] to [dst]. *)
Definition sends (l : Link) (dst : Z) (segs : list (list Z)) (l' : Link) : Prop :=
  link_sent l ++ ((λ seg, (dst, IP_PROTO_TCP, seg)) <$> segs) `prefix_of` link_sent l'.

Lemma handshake_spec now now1 now2 now3 freq sock p s0 j tc ts :
  can_connect tc ts sock p s0 j →
  let cip := link_addr (below tc) in
  let sip := link_addr (below ts) in
  ∃ syn synack ack ts1 tc' ts' c s,
    tcp_receive now1 syn (Z.of_nat (length syn)) cip sip ts = Ok ts1 ∧
    sends (below ts) cip [synack] (below ts1) ∧
    tcp_connect now freq sock sip p [mkPoll now2 [(synack, sip, cip)]] tc = Ok (true, tc') ∧
    sends (below tc) sip [syn; ack] (below tc') ∧
    tcp_receive now3 ack (Z.of_nat (length ack)) cip sip ts1 = Ok ts' ∧
    connected tc' ts' (Z.to_nat sock) j c s ∧ rx_queue s = [] ∧ remote_port c = p ∧ heap ts' = drop 1 (heap ts).
Proof.
  intros [Hc Hs Hsip0 Hp Hv [Hs0 Hu0] Hfresh [i Hlisten] Hfree Hhc Hhs] cip sip.
  assert (Hsip : 0 <= sip < 2 ^ 32) by apply Hs. assert (Hcip : 0 <= cip < 2 ^ 32) by apply Hc.
  destruct (heap tc) as [|[] [|[] hc]] eqn:Ehc; try done. destruct (heap ts) as [|[] hs] eqn:Ehs; try done.
  destruct (find_sock_Some _ _ _ _ Hfree) as (j' & n & Hj & Hn & _). simpl in Hj. subst j'.
  destruct (get_ephemeral_port_spec (<[Z.to_nat sock := set_remote sip p s0]> (socks tc)) (next_ephemeral_port tc))
    as (ep & next & Eep & Hep & Hun & Hnext); [rewrite length_insert; by rewrite (tw_count _ Hc)|apply Hc|].
  assert (Hep' : 0 <= ep < 2 ^ 16) by (unfold EPHEMERAL_PORT_MIN in *; lia).
  assert (Hnext' : 0 <= next < 2 ^ 16) by (unfold EPHEMERAL_PORT_MIN in *; lia).
  assert (Hsip' : 0 < sip < 2 ^ 32) by lia. assert (Hp' : 0 <= p < 2 ^ 16) by lia.
  set (cisn := isn tc sip p now ep). assert (Hcisn : 0 <= cisn < 2 ^ 32) by apply tcp_generate_isn_range.
  pose proof (server_syn ts cip ep p i j n cisn now1 hs Hs Ehs Hcip Hep' Hp' Hcisn (Hfresh ep) Hlisten Hfree Hn) as R1.
  set (n1 := passive ts cip ep p n cisn now1) in *. set (sisn := send_next n1).
  assert (Hsisn : 0 <= sisn < 2 ^ 32) by apply tcp_generate_isn_range.
  destruct (client_connect tc sock sip p now now2 freq s0 hc Hc Ehc Hv Hs0 Hu0 Hsip' Hp ep next Hep Hnext' Eep Hun sisn Hsisn)
    as (tc' & E & Htc' & Hac & Hsent & Hlc & Hfc).
  pose proof (server_ack ts cip ep p j n cisn now1 hs Hs Hcip Hep' Hp' Hcisn (Hfresh ep) Hn now3 (u32 (sisn + 1)) eq_refl) as R2.
  pose proof (after_syn_wf ts cip ep p j n cisn now1 hs Hs Hcip Hep' Hp' Hcisn Hn) as Hw1.
  set (s' := set_state TCP_ESTABLISHED _) in R2.
  exists (client_syn tc sip p now ep), (tcp_segment sip cip p ep sisn (u32 (cisn + 1)) SYN_ACK []),
    (client_ack tc sip p now ep sisn), (after_syn ts cip ep p j n cisn now1 hs), tc',
    (with_socks (<[j := s']> (socks ts)) hs (below (after_syn ts cip ep p j n cisn now1 hs)) ts),
    (sock_after now2 TCP_FLAG_ACK [] (opened tc sip p now s0 ep sisn)), s'.
  split; [exact R1|]. split; [exact (reflexivity _)|]. split; [exact E|]. split; [exact Hsent|].
  split; [exact R2|]. split; [|done]. split.
  - exact Htc'.
  - eapply host_wf_later, with_socks_wf; [exact Hs| |apply later_post; apply Hs].
    apply set_state_wf, clear_retransmit_wf, set_una_wf, sock_after_wf; [by apply (passive_wf _ _ _ _ j)|done|constructor|simpl; lia].
  - exact Hlc.
  - cbn [socks with_socks]. apply list_lookup_insert_eq. by eapply lookup_lt_Some.
  - rewrite Hac. by apply handshake_paired.
  - exact Hfc.
  - unfold tcp_find_socket. cbn [socks with_socks]. rewrite (find_sock_insert_new _ _ 0 j n); [done|exact (Hfresh ep)|done|].
    unfold connected_to. rewrite !Z.eqb_refl. done.
Qed.

(** * Data transfer *)

Definition DATA : Z := Z.lor TCP_FLAG_ACK TCP_FLAG_PSH.

(** Data for an established socket with room for it is stored and acknowledged. *)
Lemma established_data now flags seq payload s h (l : Link) :
  sock_wf s → bytes payload → 0 < Z.of_nat (length payload) → rx_count s + Z.of_nat (length payload) <= 65535 →
  has flags TCP_FLAG_FIN = false →
  ∃ s', tcp_established now flags seq payload s (true :: h) l =
      Ok (s', h, post (remote_ip s) (tcp_segment (link_addr l) (remote_ip s) (local_port s) (remote_port s) (send_next s)
                                        (u32 (seq + Z.of_nat (length payload))) TCP_FLAG_ACK []) l) ∧
    sock_wf s' ∧ rx_queue s' = rx_queue s ++ payload ∧ ack_num s' = u32 (seq + Z.of_nat (length payload)) ∧
    sk_in_use s' = sk_in_use s ∧ sk_state s' = sk_state s ∧ local_port s' = local_port s ∧
    remote_port s' = remote_port s ∧ remote_ip s' = remote_ip s ∧ send_next s' = send_next s ∧ retransmit s' = retransmit s.
Proof.
  intros Hs Hb Hl Hroom Hfin. pose proof (rx_count_range s Hs). unfold tcp_established. cbv zeta.
  destruct (tcp_store_phase seq payload s Hs Hb ltac:(lia))
    as (s1 & E1 & Hs1 & Hq & Ha & Hu & Hst & Hlp & Hrp & Hip & Hn & Hrt & Hpend).
  rewrite Z.min_l in Hq, Ha, Hpend by lia. rewrite Nat2Z.id, firstn_all in Hq.
  destruct (Z.ltb_spec 0 (Z.of_nat (length payload))); [|lia]. step_with E1. rewrite Hfin. step. rewrite (Hpend ltac:(lia)).
  step_with (tcp_control_link now TCP_FLAG_ACK s1 h l Hs1 ltac:(done)). cbv iota.
  unfold out_segment. change (ip_addr l) with (link_addr l). rewrite Hip, Hlp, Hrp, Hn, Ha.
  assert (Hnr : 0 <= send_next s < 2 ^ 32) by apply Hs.
  eexists. split; [reflexivity|]. split; [apply set_pending_wf, sock_after_wf; [done|done|constructor|simpl; lia]|].
  change (rx_queue (set_pending false (sock_after now TCP_FLAG_ACK [] s1))) with (rx_queue s1).
  cbn [ack_num sk_in_use sk_state local_port remote_port remote_ip send_next retransmit set_pending sock_after
    set_retransmit set_sent length]. change (Z.of_nat 0) with 0. rewrite Hn, seq_after_ack by done. by split_and!.
Qed.

(** An acknowledgement without data leaves an established socket alone. *)
Lemma established_nothing now seq s h (l : Link) :
  pending_ack s = false → tcp_established now TCP_FLAG_ACK seq [] s h l = Ok (s, h, l).
Proof.
  intros Hp. unfold tcp_established. change (0 <? Z.of_nat (length [])) with false. cbv zeta iota. step.
  change (has TCP_FLAG_ACK TCP_FLAG_FIN) with false. cbv iota. step. by rewrite Hp.
Qed.

(** The acknowledgement of the segment in the slot frees it. *)
Lemma take_ack_data now data s :
  0 <= send_next s < 2 ^ 32 → (0 < length data)%nat →
  tcp_take_ack (u32 (send_next s + Z.of_nat (length data))) (sock_after now DATA data s) =
    clear_retransmit (set_una (u32 (send_next s + Z.of_nat (length data))) (sock_after now DATA data s)).
Proof.
  intros Hs Hl. unfold tcp_take_ack, sock_after, rt_after. destruct (Z.ltb_spec 0 (Z.of_nat (length data))); [|lia].
  cbn [orb retransmit set_una set_retransmit set_sent rt_in_use rt_seq_num rt_length rt_flags].
  change (syn_fin DATA) with 0. rewrite Z.add_0_r, Z.sub_diag. done.
Qed.

Lemma find_socket_insert ss i s s' src sp dp :
  ss !! i = Some s → sk_state s ≠ TCP_LISTEN → sk_state s' = sk_state s → sk_in_use s' = sk_in_use s → local_port s' = local_port s →
  remote_port s' = remote_port s → remote_ip s' = remote_ip s →
  tcp_find_socket src sp dp (<[i := s']> ss) = tcp_find_socket src sp dp ss.
Proof.
  intros Hi Hne Hst Hu Hlp Hrp Hip. unfold tcp_find_socket.
  rewrite (find_sock_insert_same _ _ _ _ s) by (done || (unfold connected_to; by rewrite Hst, Hu, Hlp, Hrp, Hip)).
  rewrite (find_sock_insert_same (listening_on dp) _ _ _ s) by (done || (unfold listening_on; by rewrite Hst, Hu, Hlp)). done.
Qed.

Section transfer.
Variables (tc ts : Tcp Link) (sock now freq : Z) (j : nat) (c s : TcpSocket) (data : list Z) (hc hs : list bool).
Let i := Z.to_nat sock.
Hypothesis Hv : valid_index sock = true.
Hypothesis Hcn : connected tc ts i j c s.
Hypothesis Hheap_c : heap tc = true :: hc.
Hypothesis Hheap_s : heap ts = true :: hs.
Hypothesis Hb : bytes data.
Hypothesis Hlen : (0 < length data <= 1400)%nat.
Hypothesis Hroom : rx_count s + Z.of_nat (length data) <= 65535.

Let len := Z.of_nat (length data).
Let ca := link_addr (below tc).
Let sa := link_addr (below ts).

Lemma c_wf : sock_wf c.
Proof. eapply tcp_wf_lookup; [apply (cn_client _ _ _ _ _ _ Hcn)|apply Hcn]. Qed.
Lemma s_wf : sock_wf s.
Proof. eapply tcp_wf_lookup; [apply (cn_server _ _ _ _ _ _ Hcn)|apply Hcn]. Qed.

Definition data_segment : list Z :=
  tcp_segment ca sa (local_port c) (remote_port c) (send_next c) (ack_num c) DATA data.
Definition ack_segment : list Z :=
  tcp_segment sa ca (local_port s) (remote_port s) (send_next s) (u32 (send_next c + len)) TCP_FLAG_ACK [].

Definition sent : Tcp Link :=
  with_socks (<[i := sock_after now DATA data c]> (socks tc)) hc (post sa data_segment (below tc)) tc.

(** One call of [tcp_send] puts the data on the link. *)
Lemma transfer_send : tcp_send now freq sock data [] tc = Ok (inr (len, sent)).
Proof.
  pose proof c_wf as Hcw. destruct Hcn as [_ _ Hc _ [[Hu _] [Hst _] [Hra _] _ _ [Hslot _] _] _ _].
  unfold tcp_send. rewrite Hv. cbn [negb]. fold len. destruct (Z.eqb_spec len 0); [lia|].
  destruct (length data) as [|fuel] eqn:El; [lia|]. cbn [tcp_send_chunks]. cbv zeta. rewrite El. fold i.
  destruct (Z.ltb_spec 0 (Z.of_nat (S fuel))); [|lia]. cbn [tcp_await_slot]. rewrite Hc. unfold sk_usable.
  rewrite Hu, Hst, Hslot. cbn [negb andb bool_decide]. rewrite bool_decide_true by done. cbn [negb]. step. rewrite Hc.
  assert (Eu : u16 (Z.of_nat (S fuel) - 0) = len) by (unfold len; rewrite u16_small; lia). rewrite Eu.
  destruct (Z.ltb_spec 1400 len); [lia|].
  assert (Ev : view data 0 len = Ok data).
  { rewrite view_drop by (unfold len; lia). unfold len. change (Z.to_nat 0) with 0%nat. by rewrite drop_0, take_ge by lia. }
  step_with Ev. fold DATA. rewrite Hheap_c.
  step_with (tcp_send_segment_link now DATA data c hc (below tc) Hcw ltac:(vm_compute; split; congruence) Hb ltac:(lia)).
  cbv iota. cbn [negb]. unfold out_segment. rewrite Hra. change (ip_addr (below tc)) with ca. fold sa.
  fold data_segment. fold sent. destruct fuel; cbn [tcp_send_chunks]; cbv zeta; (destruct (Z.ltb_spec (0 + len) (Z.of_nat (length data))); [lia|]); by rewrite Z.add_0_l.
Qed.

(** The server stores the data and answers. *)
Lemma transfer_receive :
  ∃ s' ts', tcp_receive now data_segment (Z.of_nat (length data_segment)) ca sa ts = Ok ts' ∧
    ts' = with_socks (<[j := s']> (socks ts)) hs (post ca ack_segment (below ts)) ts ∧
    sock_wf s' ∧ rx_queue s' = rx_queue s ++ data ∧ ack_num s' = u32 (send_next c + len) ∧
    sk_in_use s' = sk_in_use s ∧ sk_state s' = sk_state s ∧ local_port s' = local_port s ∧
    remote_port s' = remote_port s ∧ remote_ip s' = remote_ip s ∧ send_next s' = send_next s ∧ retransmit s' = retransmit s.
Proof.
  pose proof c_wf as Hcw. pose proof s_wf as Hsw.
  destruct Hcn as [_ _ _ Hs [_ [_ Hst] [_ Hra] [Hp1 Hp2] _ [_ Hslot] _] _ Hf]. rewrite Hra, Hp2, <-Hp1 in Hf.
  unfold data_segment. rewrite tcp_receive_segment; [|apply Hcw|apply Hcw|apply Hcw|apply Hcw|vm_compute; split; congruence|done|lia].
  fold ca in Hf. rewrite Hf, Hs. unfold tcp_dispatch, ack_field. change (has DATA TCP_FLAG_RST) with false.
  change (has DATA TCP_FLAG_ACK) with true. cbv zeta iota.
  assert (Eta : tcp_take_ack (ack_num c) s = set_una (ack_num c) s) by (unfold tcp_take_ack; cbn [retransmit set_una]; by rewrite Hslot).
  rewrite Eta, decide_False by (cbn [sk_state set_una]; by rewrite Hst). unfold tcp_switch.
  cbn [sk_state set_una heap below with_socks]. rewrite Hst, Hheap_s.
  destruct (established_data now DATA (send_next c) data (set_una (ack_num c) s) hs (below ts))
    as (s' & E & Hw' & Hq & Ha & Hrest); [by apply set_una_wf|done|lia|done|done|].
  cbn [remote_ip local_port remote_port send_next set_una] in E. fold sa in E. step_with E. cbv iota.
  rewrite Hra. fold ack_segment. cbn [socks with_socks]. rewrite list_insert_insert_eq.
  exists s'. eexists. split; [reflexivity|]. split; [done|]. split; [done|]. split; [exact Hq|]. split; [exact Ha|].
  cbn [sk_in_use sk_state local_port remote_port remote_ip send_next retransmit set_una] in Hrest.
  by rewrite Hst, Hra in Hrest.
Qed.

(** The acknowledgement frees the client's slot. *)
Definition acked : TcpSocket := clear_retransmit (set_una (u32 (send_next c + len)) (sock_after now DATA data c)).

Lemma transfer_ack :
  tcp_receive now ack_segment (Z.of_nat (length ack_segment)) sa ca sent =
    Ok (with_socks (<[i := acked]> (socks tc)) hc (below sent) tc).
Proof.
  pose proof c_wf as Hcw. pose proof s_wf as Hsw.
  destruct Hcn as [_ _ Hc _ [_ [Hst _] [Hra _] [Hp1 Hp2] _ _ Hpend] Hf _]. rewrite Hra, Hp1, <-Hp2 in Hf.
  unfold ack_segment. rewrite tcp_receive_segment;
    [|apply Hsw|apply Hsw|apply Hsw|apply u32_range|done|constructor|simpl; lia].
  assert (Ef : tcp_find_socket sa (local_port s) (remote_port s) (socks sent) = Some i).
  { cbn [socks sent with_socks]. rewrite (find_socket_insert _ _ c); [done|done|by rewrite Hst|done..]. }
  assert (El : socks sent !! i = Some (sock_after now DATA data c)).
  { cbn [socks sent with_socks]. apply list_lookup_insert_eq. by eapply lookup_lt_Some. }
  rewrite Ef, El. unfold tcp_dispatch, ack_field. change (has TCP_FLAG_ACK TCP_FLAG_RST) with false.
  change (has TCP_FLAG_ACK TCP_FLAG_ACK) with true. cbv zeta iota. unfold len.
  rewrite take_ack_data by (apply Hcw || lia). fold len. fold acked.
  rewrite decide_False by (change (sk_state acked) with (sk_state c); by rewrite Hst).
  unfold tcp_switch. change (sk_state acked) with (sk_state c). rewrite Hst. cbv iota.
  rewrite established_nothing by exact Hpend. step. cbn [socks with_socks heap below sent].
  unfold with_socks. cbn [socks heap below tcp_isn_secret next_ephemeral_port]. by rewrite !list_insert_insert_eq.
Qed.
End transfer.

(** ** Messages *)

Definition last_segment (l : Link) : list Z := (default (0, 0, []) (last (link_sent l))).2.

(** A message on an idle connection: the call, the segment to the server and its
    acknowledgement to the client. *)
Definition exchange (now freq sock : Z) (data : list Z) (hosts : Tcp Link * Tcp Link) : res (Tcp Link * Tcp Link) :=
  let '(tc, ts) := hosts in
  let ca := link_addr (below tc) in
  let sa := link_addr (below ts) in
  r ← tcp_send now freq sock data [] tc;
  match r with
  | inl _ => Fault
  | inr (_, tc) =>
      let seg := last_segment (below tc) in
      ts ← tcp_receive now seg (Z.of_nat (length seg)) ca sa ts;
      let ack := last_segment (below ts) in
      tc ← tcp_receive now ack (Z.of_nat (length ack)) sa ca tc;
      Ok (tc, ts)
  end.

Fixpoint exchanges (now freq sock : Z) (msgs : list (list Z)) (hosts : Tcp Link * Tcp Link) : res (Tcp Link * Tcp Link) :=
  match msgs with
  | [] => Ok hosts
  | m :: msgs' => hosts' ← exchange now freq sock m hosts; exchanges now freq sock msgs' hosts'
  end.

Lemma last_segment_post dst seg l : last_segment (post dst seg l) = seg.
Proof. unfold last_segment, post. simpl. by rewrite last_snoc. Qed.

Lemma rx_queue_length s : sock_wf s → Z.of_nat (length (rx_queue s)) = rx_count s.
Proof. intros Hs. pose proof (rx_count_range s Hs). unfold rx_queue. rewrite ring_items_length. lia. Qed.

Lemma exchange_spec now freq sock data tc ts j c s hc hs :
  valid_index sock = true → connected tc ts (Z.to_nat sock) j c s → heap tc = true :: hc → heap ts = true :: hs →
  bytes data → (0 < length data <= 1400)%nat → Z.of_nat (length (rx_queue s) + length data) <= 65535 →
  ∃ tc' ts' c' s', exchange now freq sock data (tc, ts) = Ok (tc', ts') ∧ connected tc' ts' (Z.to_nat sock) j c' s' ∧
    rx_queue s' = rx_queue s ++ data ∧ heap tc' = hc ∧ heap ts' = hs.
Proof.
  intros Hv Hcn Hhc Hhs Hb Hl Hroom. pose proof (c_wf tc ts sock j c s Hcn) as Hcw. pose proof (s_wf tc ts sock j c s Hcn) as Hsw.
  pose proof (rx_queue_length s Hsw) as Hq.
  destruct (transfer_receive tc ts sock now j c s data hs Hcn Hhs Hb Hl) as (s' & ts' & Er & Ets & Hw' & Hq' & Ha & Hu & Hst & Hlp & Hrp & Hip & Hn & Hrt);
    [lia|].
  pose proof (transfer_send tc ts sock now freq j c s data hc Hv Hcn Hhc Hb Hl ltac:(lia)) as Es.
  pose proof (transfer_ack tc ts sock now j c s data hc Hcn Hl) as Ea.
  set (tc' := with_socks _ _ _ _) in Ea.
  exists tc', ts', (acked now c data), s'. split; [|split; [|split; [done|split; [done|by rewrite Ets]]]].
  { unfold exchange. step_with Es. cbn [sent below with_socks]. rewrite last_segment_post. step_with Er.
    rewrite Ets. cbn [below with_socks]. rewrite last_segment_post. by step_with Ea. }
  destruct Hcn as [Hc Hs Hlc Hls [[Hu1 Hu2] [Hs1 Hs2] [Ha1 Ha2] [Hp1 Hp2] [Hq1 Hq2] [Hr1 Hr2] Hpd] Hf1 Hf2].
  assert (Hsa : sock_wf (sock_after now DATA data c)) by (apply sock_after_wf; [done|done|done|lia]).
  split.
  - eapply host_wf_later, with_socks_wf; [exact Hc| |apply later_post; apply Hc]. apply clear_retransmit_wf, set_una_wf, Hsa.
  - rewrite Ets. eapply host_wf_later, with_socks_wf; [exact Hs|done|apply later_post; apply Hs].
  - apply list_lookup_insert_eq. by eapply lookup_lt_Some.
  - rewrite Ets. apply list_lookup_insert_eq. by eapply lookup_lt_Some.
  - rewrite Ets. split; [split; [done|congruence]|split; [done|congruence]|split; [done|cbn; congruence]
      |split; [cbn; congruence|cbn; congruence]|split|split; [done|congruence]|done].
    + rewrite Ha. symmetry. transitivity (seq_after (send_next c) (Z.of_nat (length data)) DATA); [reflexivity|].
      unfold seq_after. change (syn_fin DATA) with 0. rewrite Z.add_0_r. apply u32_small, u32_range.
    + rewrite Hn. exact Hq2.
  - cbn [socks with_socks tc']. rewrite (find_socket_insert _ _ c); [exact Hf1|done|by rewrite Hs1|done..].
  - rewrite Ets. cbn [socks with_socks]. rewrite Hlp, Hrp, Hip, (find_socket_insert _ _ s); [exact Hf2|done|by rewrite Hs2|done..].
Qed.

Lemma exchanges_spec now freq sock msgs : ∀ tc ts j c s hc hs,
  valid_index sock = true → connected tc ts (Z.to_nat sock) j c s →
  heap tc = replicate (length msgs) true ++ hc → heap ts = replicate (length msgs) true ++ hs →
  Forall (λ m, bytes m ∧ (0 < length m <= 1400)%nat) msgs → Z.of_nat (length (rx_queue s) + length (concat msgs)) <= 65535 →
  ∃ tc' ts' c' s', exchanges now freq sock msgs (tc, ts) = Ok (tc', ts') ∧ connected tc' ts' (Z.to_nat sock) j c' s' ∧
    rx_queue s' = rx_queue s ++ concat msgs ∧ heap tc' = hc ∧ heap ts' = hs.
Proof.
  induction msgs as [|m msgs IH]; intros tc ts j c s hc hs Hv Hcn Hhc Hhs Hm Hroom; simpl in *.
  { exists tc, ts, c, s. rewrite app_nil_r. done. }
  apply Forall_cons in Hm as [[Hb Hl] Hm]. rewrite length_app in Hroom.
  destruct (exchange_spec now freq sock m tc ts j c s _ _ Hv Hcn Hhc Hhs Hb Hl) as (tc1 & ts1 & c1 & s1 & E & Hcn1 & Hq1 & Hc1 & Hs1);
    [lia|]. step_with E.
  destruct (IH tc1 ts1 j c1 s1 hc hs Hv Hcn1 Hc1 Hs1 Hm) as (tc' & ts' & c' & s' & E' & Hcn' & Hq' & Hheaps).
  { rewrite Hq1, length_app. lia. }
  exists tc', ts', c', s'. split; [exact E'|]. split; [done|]. split; [|done]. by rewrite Hq', Hq1, <-(assoc_L (++)).
Qed.

(** * Retransmission *)

(** The segment in the slot of [s]. *)
Definition slot_segment (s : TcpSocket) (l : Link) : list Z :=
  let r := retransmit s in
  tcp_segment (link_addr l) (remote_ip s) (local_port s) (remote_port s) (rt_seq_num r) (ack_num s) (rt_flags r)
    (take (Z.to_nat (rt_length r)) (rt_data r)).

Definition timed_out (now freq : Z) (r : RetransmitPacket) : bool :=
  rt_in_use r && (u32 (rt_rto_ms r * freq) / 1000 <=? u64 (now - rt_sent_time r)).

Definition given_up (s : TcpSocket) : TcpSocket := clear_retransmit (set_in_use false (set_state TCP_CLOSED s)).
Definition retried (now : Z) (s : TcpSocket) : TcpSocket := set_retransmit (tcp_rearm now (retransmit s)) s.
Definition live (s : TcpSocket) : bool :=
  sk_in_use s && negb (bool_decide (sk_state s = TCP_CLOSED)) && negb (bool_decide (sk_state s = TCP_LISTEN)).

Lemma tcp_poll_socket_eq now freq s h (l : Link) :
  sock_wf s →
  tcp_poll_socket now freq s h l =
    if live s && timed_out now freq (retransmit s) then
      if 5 <=? rt_retries (retransmit s) then Ok (given_up s, h, l)
      else if (malloc_next h).1 then Ok (retried now s, (malloc_next h).2, post (remote_ip s) (slot_segment s l) l)
      else Ok (retried now s, (malloc_next h).2, l)
    else Ok (s, h, l).
Proof.
  intros Hs. unfold tcp_poll_socket, live, timed_out. cbv zeta.
  destruct (sk_in_use s); [|done]. cbn [negb orb andb]. destruct (bool_decide (sk_state s = TCP_CLOSED)); [done|].
  destruct (bool_decide (sk_state s = TCP_LISTEN)); [done|]. cbn [negb orb andb].
  destruct (rt_in_use (retransmit s)); [|done]. cbn [andb]. case_match; [|done]. case_match; [done|].
  fold (retried now s). destruct (malloc_next h) as [[] h']; cbn [fst snd]; [|done].
  pose proof (sw_rt s Hs) as Hr. pose proof (tcp_rearm_wf now _ Hr) as [Hseq Hlen Hfl _ Hdl Hdb].
  set (r := tcp_rearm now (retransmit s)) in *.
  assert (Ev : view (rt_data r) 0 (rt_length r) = Ok (take (Z.to_nat (rt_length r)) (rt_data r)))
    by (rewrite view_drop by lia; done).
  step_with Ev. set (payload := take _ _).
  assert (Hpb : bytes payload) by (by apply Forall_take).
  assert (Hpl : Z.of_nat (length payload) = rt_length r) by (unfold payload; rewrite length_take; lia).
  pose proof Hs as [Hlp Hrp Hip Hack _ _ _ _ _ _].
  pose proof (tcp_build_spec (ip_addr l) (remote_ip s) (local_port s) (remote_port s) (rt_seq_num r) (ack_num s)
    (rt_flags r) payload Hlp Hrp Hseq Hack Hfl Hpb ltac:(lia)) as Eb.
  change (remote_ip (retried now s)) with (remote_ip s). change (local_port (retried now s)) with (local_port s).
  change (remote_port (retried now s)) with (remote_port s). change (ack_num (retried now s)) with (ack_num s). step_with Eb.
  change (tcp_segment (ip_addr l) (remote_ip s) (local_port s) (remote_port s) (rt_seq_num r) (ack_num s) (rt_flags r) payload)
    with (slot_segment s l).
  assert (Lseg : TCP_HEADER_SIZE + rt_length r = Z.of_nat (length (slot_segment s l)))
    by (unfold slot_segment; rewrite tcp_segment_length; unfold TCP_HEADER_SIZE, payload in *; simpl in *; lia).
  rewrite Lseg. set (seg := slot_segment s l). unfold ip_send, link_layer. step. rewrite Nat2Z.id, firstn_all. done.
Qed.

(** Timer runs at the given times. *)
Fixpoint tcp_polls (freq : Z) (times : list Z) (s : TcpSocket) (h : list bool) (l : Link) : res (TcpSocket * list bool * Link) :=
  match times with
  | [] => Ok (s, h, l)
  | now :: times' => '(s, h, l) ← tcp_poll_socket now freq s h l; tcp_polls freq times' s h l
  end.

Lemma retried_wf now s : sock_wf s → sock_wf (retried now s).
Proof. intros Hs. apply set_retransmit_wf; [apply tcp_rearm_wf, Hs|done]. Qed.

Lemma tcp_polls_dead freq times s h l : sock_wf s → live s = false → tcp_polls freq times s h l = Ok (s, h, l).
Proof.
  intros Hs Hd. induction times as [|now times IH]; simpl; [done|].
  assert (E : tcp_poll_socket now freq s h l = Ok (s, h, l)) by (rewrite tcp_poll_socket_eq by done; by rewrite Hd).
  by step_with E.
Qed.

(** [k] copies of the segment at most, [k] being the retries that are left. *)
Lemma tcp_polls_spec freq times : ∀ s h l,
  sock_wf s → rt_retries (retransmit s) <= 5 →
  ∃ s' h' l' k, tcp_polls freq times s h l = Ok (s', h', l') ∧ sock_wf s' ∧
    link_sent l' = link_sent l ++ replicate k (remote_ip s, IP_PROTO_TCP, slot_segment s l) ∧
    link_addr l' = link_addr l ∧ Z.of_nat k <= 5 - rt_retries (retransmit s).
Proof.
  induction times as [|now times IH]; intros s h l Hs Hr; cbn [tcp_polls].
  { exists s, h, l, 0%nat. simpl. rewrite app_nil_r. split_and!; try done. lia. }
  rewrite (tcp_poll_socket_eq now freq s h l Hs).
  destruct (live s && timed_out now freq (retransmit s)); [|step; by apply IH].
  assert (Hr0 : 0 <= rt_retries (retransmit s)) by apply Hs.
  destruct (Z.leb_spec 5 (rt_retries (retransmit s))).
  { step. rewrite tcp_polls_dead; [|unfold given_up; auto with kernel|done]. eexists _, _, _, 0%nat. split; [done|].
    split; [unfold given_up; auto with kernel|]. simpl. rewrite app_nil_r. split_and!; try done. lia. }
  assert (Hrr : rt_retries (retransmit (retried now s)) = rt_retries (retransmit s) + 1).
  { simpl. rewrite u32_small; lia. }
  destruct (malloc_next h) as [[] h1]; cbn [fst snd]; step.
  - destruct (IH (retried now s) h1 (post (remote_ip s) (slot_segment s l) l) (retried_wf now s Hs)) as (s' & h' & l' & k & E & Hw & Hsent & Ha & Hk);
      [lia|].
    exists s', h', l', (S k). split; [exact E|]. split; [done|]. split; [|split; [exact Ha|lia]].
    rewrite Hsent. cbn [link_sent post replicate]. rewrite <-(assoc_L (++)). reflexivity.
  - destruct (IH (retried now s) h1 l (retried_wf now s Hs)) as (s' & h' & l' & k & E & Hw & Hsent & Ha & Hk); [lia|].
    exists s', h', l', k. split; [exact E|]. split; [done|]. split; [|split; [exact Ha|lia]]. exact Hsent.
Qed.

(** * Sessions from boot *)

Inductive tcp_op :=
  | OpSocket
  | OpBind (sock port : Z)
  | OpListen (sock : Z)
  | OpAccept (sock : Z)
  | OpConnect (now freq sock dst_ip dst_port : Z) (polls : list poll)
  | OpSend (now freq sock : Z) (data : list Z) (polls : list poll)
  | OpRecv (sock max_len : Z)
  | OpClose (now sock : Z)
  | OpPoll (freq : Z) (p : poll).

(** The argument types of the calls. *)
Definition op_ok (op : tcp_op) : Prop :=
  match op with
  | OpBind _ port => 0 <= port < 2 ^ 16
  | OpConnect _ _ _ dst_ip dst_port polls => 0 <= dst_ip < 2 ^ 32 ∧ 0 <= dst_port < 2 ^ 16 ∧ Forall poll_ok polls
  | OpSend _ _ _ data polls => bytes data ∧ Z.of_nat (length data) < 2 ^ 16 ∧ Forall poll_ok polls
  | OpRecv _ max_len => 0 <= max_len < 2 ^ 16
  | OpPoll _ p => poll_ok p
  | _ => True
  end.

Section session.
Context {W : Type} `{IpLayer W} {ready : W → Prop} `{!IpLayerLaws W ready}.

Definition tcp_do (op : tcp_op) (t : Tcp W) : res (Tcp W) :=
  match op with
  | OpSocket => Ok (tcp_socket t).2
  | OpBind sock port => r ← tcp_bind sock port t; Ok r.2
  | OpListen sock => r ← tcp_listen sock t; Ok r.2
  | OpAccept sock => _ ← tcp_accept sock t; Ok t
  | OpConnect now freq sock dst_ip dst_port polls => r ← tcp_connect now freq sock dst_ip dst_port polls t; Ok r.2
  | OpSend now freq sock data polls => r ← tcp_send now freq sock data polls t; Ok match r with inl t' => t' | inr (_, t') => t' end
  | OpRecv sock max_len => r ← tcp_recv sock max_len t; Ok r.2
  | OpClose now sock => tcp_close now sock t
  | OpPoll freq p => tcp_net_poll freq p t
  end.

Fixpoint tcp_run (ops : list tcp_op) (t : Tcp W) : res (Tcp W) :=
  match ops with
  | [] => Ok t
  | op :: ops' => t' ← tcp_do op t; tcp_run ops' t'
  end.

(** The static storage, which the loader zeroes. *)
Definition zero_socket : TcpSocket :=
  mkTcpSocket false TCP_CLOSED 0 0 0 0 0 0 0 (replicate (Z.to_nat TCP_RX_BUFFER_SIZE) 0) 0 0 false 0
    (mkRetransmit false 0 0 0 0 0 0 (replicate 1460 0)).
Definition tcp_boot (tsc ticks : Z) (h : list bool) (w : W) : Tcp W :=
  let '(ss, secret) := tcp_init tsc ticks (replicate TCP_MAX_SOCKETS zero_socket) in
  mkTcp ss secret EPHEMERAL_PORT_MIN h w.

Lemma zero_socket_wf : sock_wf zero_socket.
Proof.
  assert (Hz : ∀ n, bytes (replicate n 0)) by (intros n; apply Forall_replicate; lia).
  split; cbn [local_port remote_port remote_ip ack_num send_next rx_buf rx_head rx_tail retransmit zero_socket];
    try (unfold TCP_RX_BUFFER_SIZE; lia); try apply Hz.
  - rewrite length_replicate. unfold TCP_RX_BUFFER_SIZE. lia.
  - split; cbn [rt_seq_num rt_length rt_flags rt_retries rt_data]; try lia; [apply length_replicate|apply Hz].
Qed.

Lemma tcp_boot_wf tsc ticks h w : ready w → tcp_wf (ready := ready) (tcp_boot tsc ticks h w).
Proof.
  intros Hw. split; cbn [socks tcp_boot tcp_init next_ephemeral_port below].
  - by rewrite length_fmap, length_replicate.
  - apply Forall_fmap, Forall_replicate. unfold compose. pose proof zero_socket_wf. unfold tcp_init_socket. auto with kernel.
  - unfold EPHEMERAL_PORT_MIN. lia.
  - done.
Qed.

Lemma tcp_do_wf op t :
  tcp_wf (ready := ready) t → op_ok op → ∃ t', tcp_do op t = Ok t' ∧ tcp_wf (ready := ready) t'.
Proof.
  intros Ht Hop. destruct op; cbn [tcp_do op_ok] in *.
  - eexists. split; [done|]. by apply tcp_socket_wf.
  - destruct (tcp_bind_wf sock port t Ht Hop) as (r & t' & E & Ht'). step_with E. eauto.
  - destruct (tcp_listen_wf sock t Ht) as (r & t' & E & Ht'). step_with E. eauto.
  - destruct (tcp_accept_total sock t Ht) as (r & E). step_with E. eauto.
  - destruct Hop as (Hd & Hp & Hps). destruct (tcp_connect_wf now freq sock dst_ip dst_port polls t Ht Hps Hd Hp) as (r & t' & E & Ht').
    step_with E. eauto.
  - destruct Hop as (Hb & Hl & Hps). destruct (tcp_send_wf now freq sock data polls t Ht Hps Hb Hl) as (r & E & Hr).
    step_with E. eexists. split; [done|]. by destruct r as [|[]].
  - destruct (tcp_recv_spec sock max_len t Ht Hop) as (r & out & t' & E & Ht' & _). step_with E. eauto.
  - by apply tcp_close_wf.
  - by apply tcp_net_poll_wf.
Qed.

Lemma tcp_run_wf ops t :
  tcp_wf (ready := ready) t → Forall op_ok ops → ∃ t', tcp_run ops t = Ok t' ∧ tcp_wf (ready := ready) t'.
Proof.
  intros Ht Ho. revert t Ht. induction Ho as [|op ops Hop _ IH]; intros t Ht; simpl; [eauto|].
  destruct (tcp_do_wf op t Ht Hop) as (t1 & E & Ht1). step_with E. by apply IH.
Qed.
End session.

(** * Properties *)


Definition no_link : Link := mkLink 0x0200A8C0 [].
Definition some_ops : list tcp_op :=
  [OpSocket; OpBind 0 80; OpListen 0; OpPoll 100 (mkPoll 7 [(replicate 30 255, 1, 2); ([], 1, 2)]); OpRecv 0 100; OpClose 9 0].


(** C24: The three-way handshake completes. The client's [tcp_connect] sends a SYN; a
    server with a listener and a free block answers it with one SYN-ACK; on that
    answer [tcp_connect] acknowledges and returns true; on the acknowledgement the
    server's block is established. Then each end expects the sequence number the
    other sends next, both retransmission slots are free, segments for the connection
    find its sockets, and the server has nothing to read. *)
Theorem tcp_handshake_connects now now1 now2 now3 freq sock p s0 j tc ts :
  can_connect tc ts sock p s0 j →
  let cip := link_addr (below tc) in
  let sip := link_addr (below ts) in
  ∃ syn synack ack ts1 tc' ts' c s,
    tcp_receive now1 syn (Z.of_nat (length syn)) cip sip ts = Ok ts1 ∧
    sends (below ts) cip [synack] (below ts1) ∧
    tcp_connect now freq sock sip p [mkPoll now2 [(synack, sip, cip)]] tc = Ok (true, tc') ∧
    sends (below tc) sip [syn; ack] (below tc') ∧
    tcp_receive now3 ack (Z.of_nat (length ack)) cip sip ts1 = Ok ts' ∧
    connected tc' ts' (Z.to_nat sock) j c s ∧ rx_queue s = [] ∧ remote_port c = p ∧ heap ts' = drop 1 (heap ts).
Proof. apply handshake_spec. Qed.

Definition a_client : Tcp Link :=
  (tcp_socket (tcp_boot 1 2 [true; true; true] (mkLink 0x0200A8C0 []))).2.
Definition a_listener : TcpSocket := set_state TCP_LISTEN (set_local_port 80 (tcp_open (tcp_init_socket zero_socket))).
Definition a_server : Tcp Link :=
  let t := tcp_boot 3 4 [true; true; true] (mkLink 0x0100A8C0 []) in
  with_socks (<[0%nat := a_listener]> (socks t)) (heap t) (below t) t.

Lemma a_client_wf : host_wf a_client.
Proof. apply (host_wf_later (mkLink 0x0200A8C0 [])), tcp_socket_wf, tcp_boot_wf, later_refl. simpl. lia. Qed.
Lemma a_server_wf : host_wf a_server.
Proof.
  assert (Hr : later (mkLink 0x0100A8C0 []) (mkLink 0x0100A8C0 [])) by (apply later_refl; simpl; lia).
  eapply host_wf_later, with_socks_wf; [apply tcp_boot_wf, Hr| |exact Hr].
  apply set_state_wf, set_local_port_wf; [lia|]. apply tcp_open_wf. pose proof zero_socket_wf. unfold tcp_init_socket. auto with kernel.
Qed.

Lemma a_connection : can_connect a_client a_server 0 80 (tcp_open (tcp_init_socket zero_socket)) 1.
Proof.
  split; [apply a_client_wf|apply a_server_wf|done|lia|done|split; reflexivity| |by eexists|reflexivity|reflexivity|reflexivity].
  intros cport. reflexivity.
Qed.

Lemma tcp_handshake_connects_witness :
  can_connect a_client a_server 0 80 (tcp_open (tcp_init_socket zero_socket)) 1 ∧
  ∃ synack tc', tcp_connect 10 100 0 0x0100A8C0 80 [mkPoll 12 [(synack, 0x0100A8C0, 0x0200A8C0)]] a_client = Ok (true, tc').
Proof.
  split; [apply a_connection|].
  destruct (tcp_handshake_connects 10 11 12 13 100 0 80 _ _ _ _ a_connection) as (syn & synack & ack & ts1 & tc' & ts' & c & s & _ & _ & E & _).
  exists synack, tc'. exact E.
Defined.


Definition an_end (lport rport rip seq ack : Z) : TcpSocket :=
  mkTcpSocket true TCP_ESTABLISHED lport rport rip seq ack seq seq (rx_buf zero_socket) 0 0 false 0 (retransmit zero_socket).
Definition with_end (t : Tcp Link) (s : TcpSocket) : Tcp Link := with_socks (<[2%nat := s]> (socks t)) (heap t) (below t) t.
Definition end_c : TcpSocket := an_end 50000 80 0x0100A8C0 4294967290 700.
Definition end_s : TcpSocket := an_end 80 50000 0x0200A8C0 700 4294967290.

Lemma an_end_wf lport rport rip seq ack :
  0 <= lport < 2 ^ 16 → 0 <= rport < 2 ^ 16 → 0 <= rip < 2 ^ 32 → 0 <= seq < 2 ^ 32 → 0 <= ack < 2 ^ 32 →
  sock_wf (an_end lport rport rip seq ack).
Proof.
  intros. destruct zero_socket_wf. split; cbn [local_port remote_port remote_ip ack_num send_next rx_buf rx_head rx_tail retransmit an_end];
    assumption.
Qed.

Lemma ends_connected : connected (with_end a_client end_c) (with_end a_server end_s) 2 2 end_c end_s.
Proof.
  split.
  - eapply host_wf_later, with_socks_wf; [apply a_client_wf|apply an_end_wf; lia|apply a_client_wf].
  - eapply host_wf_later, with_socks_wf; [apply a_server_wf|apply an_end_wf; lia|apply a_server_wf].
  - reflexivity.
  - reflexivity.
  - by split.
  - reflexivity.
  - reflexivity.
Qed.


(** C33: A segment with data, a SYN or a FIN that is never acknowledged is put on the
    link at most six times, the first time by the call and then by the timer, and
    every copy is byte for byte the segment that was sent. This holds for any
    sequence of timer runs, whenever they happen and whether or not memory is
    available for the copy; each run returns and keeps the socket well formed. *)
Theorem tcp_retransmission_bounded now0 flags data s h0 l freq times h :
  sock_wf s → 0 <= flags < 2 ^ 8 → bytes data → (length data <= 1460)%nat →
  (0 <? Z.of_nat (length data)) || has flags (Z.lor TCP_FLAG_SYN TCP_FLAG_FIN) = true →
  ∃ s1 l1 s' h' l' k,
    tcp_send_segment now0 flags data s (true :: h0) l = Ok (true, s1, h0, l1) ∧
    tcp_polls freq times s1 h l1 = Ok (s', h', l') ∧ sock_wf s' ∧ (k <= 5)%nat ∧
    link_sent l' = link_sent l ++ replicate (S k) (remote_ip s, IP_PROTO_TCP, out_segment flags data s l).
Proof.
  intros Hs Hf Hb Hl Hor. pose proof (tcp_send_segment_link now0 flags data s h0 l Hs Hf Hb Hl) as E.
  set (l1 := post _ _ _) in E.
  destruct (tcp_polls_spec freq times (sock_after now0 flags data s) h l1) as (s' & h' & l' & k & Ep & Hw & Hsent & Ha & Hk).
  { by apply sock_after_wf. }
  { unfold sock_after, rt_after. rewrite Hor. simpl. lia. }
  assert (Eseg : slot_segment (sock_after now0 flags data s) l1 = out_segment flags data s l).
  { unfold slot_segment, sock_after, rt_after. rewrite Hor.
    cbn [retransmit set_retransmit rt_length rt_data rt_seq_num rt_flags]. by rewrite Nat2Z.id, take_app_length. }
  assert (Hr0 : rt_retries (retransmit (sock_after now0 flags data s)) = 0) by (unfold sock_after, rt_after; by rewrite Hor).
  rewrite Eseg in Hsent. eexists _, _, s', h', l', k. split; [exact E|]. split; [exact Ep|]. split; [exact Hw|].
  split; [lia|]. rewrite Hsent. unfold l1. cbn [link_sent post replicate]. rewrite <-(assoc_L (++)). reflexivity.
Qed.

Lemma tcp_retransmission_bounded_witness :
  sock_wf end_c ∧
  ∃ s' h' l' k, tcp_polls 100 [100; 300; 301] (sock_after 5 DATA [1; 2; 3] end_c) [true; true]
      (post 0x0100A8C0 (out_segment DATA [1; 2; 3] end_c no_link) no_link) = Ok (s', h', l') ∧ (k <= 5)%nat ∧
    link_sent l' = replicate (S k) (0x0100A8C0, IP_PROTO_TCP, out_segment DATA [1; 2; 3] end_c no_link).
Proof.
  assert (Hc : sock_wf end_c) by (apply an_end_wf; lia). split; [exact Hc|].
  assert (Hf : 0 <= DATA < 2 ^ 8) by (vm_compute; split; congruence).
  assert (Hb : bytes [1; 2; 3]) by (repeat (constructor; [lia|]); constructor).
  assert (Hl : (length [1; 2; 3] <= 1460)%nat) by (simpl; lia).
  destruct (tcp_retransmission_bounded 5 DATA [1; 2; 3] end_c [] no_link 100 [100; 300; 301] [true; true] Hc Hf Hb Hl eq_refl)
    as (s1 & l1 & s' & h' & l' & k & E & Ep & _ & Hk & Hsent).
  pose proof (tcp_send_segment_link 5 DATA [1; 2; 3] end_c [] no_link Hc Hf Hb Hl) as E'.
  rewrite E in E'. injection E' as -> ->. exists s', h', l', k. split; [exact Ep|]. split; [exact Hk|exact Hsent].
Defined.

(** C34: [get_ephemeral_port] terminates and finds a port: with at most 32 sockets the
    search ends, never reports that all ports are taken, and returns
    a port of the dynamic range that no socket in use has; the counter stays in the
    dynamic range, whatever value it had. *)
Theorem get_ephemeral_port_finds ss next :
  (length ss <= TCP_MAX_SOCKETS)%nat → 0 <= next < 2 ^ 16 →
  ∃ p next', get_ephemeral_port ss next = Ok (p, next') ∧
    EPHEMERAL_PORT_MIN <= p < 2 ^ 16 ∧ port_in_use ss p = false ∧ EPHEMERAL_PORT_MIN <= next' < 2 ^ 16.
Proof. apply get_ephemeral_port_spec. Qed.

Lemma get_ephemeral_port_finds_witness :
  ∃ p next', get_ephemeral_port [an_end 65535 1 1 1 1; an_end 49152 1 1 1 1] 65535 = Ok (p, next') ∧
    port_in_use [an_end 65535 1 1 1 1; an_end 49152 1 1 1 1] p = false.
Proof.
  destruct (get_ephemeral_port_finds [an_end 65535 1 1 1 1; an_end 49152 1 1 1 1] 65535) as (p & next' & E & _ & Hf & _);
    [cbn [length]; unfold TCP_MAX_SOCKETS; lia|lia|]. exists p, next'. split; [exact E|exact Hf].
Defined.
